(* ===== verification/_CoqProject ===== *)
-Q . S2P
Prelude.v
RtList.v
KService.v
Sched.v
SchedFacts.v
Timer.v
Kernel.v
Demo.v
Thread.v
Clock.v
Ipc.v
Ring.v
Sem.v
Mutex.v
Event.v
Blocking.v
Mailbox.v
MsgQueue.v
Mem.v
MemSpec.v
RingBuffer.v
Completion.v
DataQueue.v
MemPool.v
MemHeap.v
MemHeapSpec.v
MemHeapThreads.v
KString.v
SList.v
RingBlk.v
Printf.v
Ulog.v
UlogAsync.v
Msh.v
Shell.v
Device.v
Object.v
DeviceReg.v
WaitQueue.v
WorkQueue.v
Gpio.v
Serial.v
SerialSafe.v
Usart.v
UsbCore.v
UsbSpec.v
Vcom.v
VcomSpec.v
VcomDemo.v
VcomStream.v
VcomLimits.v
Wire.v
Cfloat.v
Ad9959.v
Ad9954.v
Ads1256.v
Hmi.v
MainApp.v
