(* ===== verification/Prelude.v ===== *)
(** * RT-Thread USB virtual-COM firmware: verification library

    The firmware runs on an STM32F4 board: the RT-Thread 4.0 kernel, its device
    framework, a USB virtual COM port, drivers of pins and UARTs, and the drivers
    and commands of the application (two frequency synthesizers, a converter, an
    operator panel, a changeable clock). File names below are relative to src/; the kernel is
    rt-thread/src/, the device drivers rt-thread/components/drivers/.

    ** How the program fits together

    The clock interrupt counts the tick, the time slice of the running thread and
    the due timers; the timers of threads and the IPC objects make threads ready;
    the scheduler runs the ready thread of the smallest priority number. Threads
    meet in semaphores, mutexes, event sets, mailboxes and message queues, and take
    memory from one heap. A serial device is a device whose handlers are those of
    the serial framework over a UART driver: the registers of a USART, with bytes
    taken by interrupts or by DMA, or the virtual COM port. For the latter the driver
    is a function of the USB device core: bytes written to the device go into a
    ring buffer, a thread takes them out and submits transfers, the core sends them
    packet by packet, and the reports of the controller come back as messages;
    packets of the host go through a second ring buffer and the interrupt routine
    of the framework to the reader. Objects and devices are found by name in the
    object container.

    ** The files

    - Prelude: machine words ([u8], [u16], [u32], [s32]), lists, tactics, hints.
    - RtList: rtservice.h; the pointer operations on [rt_list_t] over a heap, and
      their refinement to families of lists, which every other file uses.
    - KService: [__rt_ffs] of kservice.c with its table.
    - Sched, SchedFacts: scheduler.c and irq.c; the ready queues, the bitmap, the
      choice of the next thread, nesting. [sched_wf] is the invariant.
    - Timer: timer.c; the sorted list of timers, expiry across tick wrap-around.
    - Kernel: the IPC records of rtdef.h, the kernel state, the invariant
      [kernel_wf]; Demo: a concrete kernel, at which theorems are instantiated.
    - Thread: thread.c and idle.c; Clock: clock.c. A blocking call is an [_enter]
      part up to [rt_schedule] and a [_resume] part after it.
    - Ipc, Sem, Mutex, Event, Blocking, Mailbox, MsgQueue: ipc.c. The sections of
      message-queue calls that run with interrupts disabled are separate
      operations, so that they may interleave.
    - Mem, MemSpec: mem.c; block headers at offsets from the start of the heap.
    - Ring: when an array read circularly holds a queue (mailboxes, FIFOs, ring
      buffers); RingBuffer: src/ringbuffer.c of the drivers.
    - Completion, DataQueue: src/completion.c and src/dataqueue.c of the drivers.
    - MemPool: mempool.c; blocks of one size on a free list.
    - MemHeap, MemHeapSpec, MemHeapThreads: memheap.c; its calls as programs of
      single accesses, their specification, and threads that interleave them under
      the lock of the heap.
    - KString, Printf: the memory and string functions and the formatted printing
      of kservice.c, over a memory of bytes.
    - SList, RingBlk: the single lists of rtservice.h and src/ringblk_buf.c of the
      drivers, whose queue of blocks is such a list.
    - Ulog, UlogAsync: components/utilities/ulog; the layout of a line, and the
      asynchronous output with its lock, its ring of frames and its back ends.
    - Object: object.c; DeviceReg: the devices of device.c by name.
    - WaitQueue, WorkQueue: src/waitqueue.c and src/workqueue.c of the drivers.
    - Device: device.c; Serial, SerialSafe: serial/serial.c. [uart_ops] is the
      interface of a UART driver; [uart_receiver] is what the framework relies on.
    - Gpio: libraries/HAL_Drivers/drv_gpio.c and drivers/misc/pin.c on the port and
      interrupt registers; Usart: drv_usart.c, an implementation of [uart_ops], with
      the bytes of the line as events of the hardware.
    - UsbCore, UsbSpec: usb/usbdevice/core. [usb_class] is the interface of a
      function; the controller is the list of commands it is given ([dcd_cmd]).
    - Vcom, VcomSpec, VcomStream, VcomLimits: usb/usbdevice/class/cdc_vcom.c;
      VcomDemo: a port built, enumerated, connected and opened.
    - Msh, Shell: components/finsh/msh.c and shell.c; the command line of the shell
      and the editor of its line.
    - Wire, Cfloat: pins and bit-banged lines, IEEE arithmetic; Ad9959, Ad9954,
      Ads1256: board/; Hmi, MainApp: applications/.

    ** What the theorems show

    - Kernel: every operation keeps [kernel_wf]; the clock interrupt leaves no due
      timer; the scheduler's choice; each IPC call on every branch; event sets,
      mailboxes, message queues and the pointer lists refine abstract ones; waits
      and sleeps end at their deadline; the object container is a registry of names
      whose allocated objects are areas of the heap.
    - Memory: clients that use only what they hold, and ask for sizes that do not wrap,
      hold areas that are aligned, disjoint and inside the heap, and the next call
      returns; freeing undoes allocating; the areas of a heap shared by threads stay
      intact under every interleaving.
    - Text: copying, comparing and formatting do what the C library documents; the
      shell runs the command a line names, and its editor refines an editor of
      texts with a cursor; the log lines that found room reach every back end with
      colors once, in order.
    - Serial devices: every call and interrupt keeps the untyped pointers, FIFOs
      and heap areas well typed, when the buffer size is not changed behind a FIFO
      that was left behind ([serial_calls_typed]).
    - USB: control reads arrive as written ([control_read_received]); the port, while
      it is connected and completions come in time, delivers what is written, in order,
      for every interleaving of writers, sending thread and controller
      ([vcom_tx_delivers]), and is a queue of the newest bytes for its reader
      ([vcom_rx_refines]).
    - Pins and UARTs: the pins are a table of modes and levels; an attached handler
      is called as long as others leave its line and its interrupt alone; bytes of the
      line that the data register could take reach the reader in order, by interrupts
      up to the newest that fit, by DMA all of them as long as the reader keeps up.
    - Board and application: the chips receive the words the drivers mean to send,
      frequencies are within one step, panel frames are read back, waits end.
    - Limits: theorems that show where the code goes wrong stand beside the
      component they concern; VcomLimits collects those of the USB side.

    ** Conventions, bounds and fuel

    [None] is a call that does not return: a null or dangling pointer that is
    followed, an access outside an array, a cast to the wrong structure, an endless
    loop. [RT_ASSERT] is empty, since [RT_DEBUG] is not set. Configuration: one
    processor, 32 priorities, 100 ticks a second, the small-memory heap, no hooks.
    Loops over kernel lists recurse on the list or take fuel that theorems bound:
    the free blocks of a memory heap by the size of its pool, the waiters of a work
    by their number, the timers of [rt_timer_check] by their number, the blocks of the
    heap by its size, the bytes of [rt_hw_serial_isr] by what the driver holds, the wait loops
    of the converter by the ticks. A theorem that a call returns is always part of
    the claim.

    ** Not modelled

    The context switch (assembly), start-up code and linker scripts; the vendor's
    hardware library and CMSIS, but for the functions on GPIO and USART registers
    that Gpio and Usart use; third-party stacks (lwIP, file systems, mbed TLS and
    the like) and drivers and device frameworks that are not configured, signals,
    pipes and the slab allocator among them; the transmission of serial devices by
    DMA, which no driver here offers; the logger's filter and hexadecimal dump; the
    symbol table and the C expressions of the shell; USB host and the other USB
    classes, the interrupt glue of the USB controller driver; the C library, whose
    functions are parameters where they are used. *)

(** ** Prelude

    Machine words, list removal, tactics and hint databases shared by all the
    components. *)

From Stdlib Require Export ZArith Lia Sorting.Sorted.
From stdpp Require Export base gmap list fin_maps strings.

#[global] Open Scope Z_scope.

(** ** Machine words *)

(** A [w]-bit unsigned integer is a [Z] in [[0, 2^w)]; every C assignment to
    such a variable wraps. *)
Definition u8 (x : Z) : Z := x mod 256.
Definition u16 (x : Z) : Z := x mod 65536.
Definition u32 (x : Z) : Z := x mod 4294967296.

(** Conversion to a 32-bit two's complement value. *)
Definition s32 (x : Z) : Z :=
  let y := x mod 4294967296 in if y <? 2147483648 then y else y - 4294967296.

Definition is_u8 (x : Z) : Prop := 0 <= x < 256.
Definition is_u16 (x : Z) : Prop := 0 <= x < 65536.
Definition is_u32 (x : Z) : Prop := 0 <= x < 4294967296.

Create HintDb word.

(** [lia] after replacing [/] and [mod] by their Euclidean equations. *)
Ltac dlia := Z.to_euclidean_division_equations; lia.

(** Unfold every word operation and decide the goal. *)
Ltac word := unfold is_u8, is_u16, is_u32, u8, u16, u32, s32 in *; dlia.

Lemma u8_range x : is_u8 (u8 x).
Proof. word. Qed.
Lemma u16_range x : is_u16 (u16 x).
Proof. word. Qed.
Lemma u32_range x : is_u32 (u32 x).
Proof. word. Qed.
Lemma u8_small x : is_u8 x -> u8 x = x.
Proof. word. Qed.
Lemma u16_small x : is_u16 x -> u16 x = x.
Proof. word. Qed.
Lemma u32_small x : is_u32 x -> u32 x = x.
Proof. word. Qed.
Lemma s32_small x : -2147483648 <= x < 2147483648 -> s32 x = x.
Proof.
  unfold s32. intros. destruct (Z.ltb_spec (x mod 4294967296) 2147483648); dlia.
Qed.

#[export] Hint Resolve u8_range u16_range u32_range : word.

(** Whether a bit is set, as the code asks. *)
Lemma land_pow2 t n : 0 <= n -> Z.land t (2 ^ n) = if Z.testbit t n then 2 ^ n else 0.
Proof.
  intros Hn. apply Z.bits_inj'. intros i Hi. rewrite Z.land_spec, Z.pow2_bits_eqb by done.
  destruct (Z.eqb_spec n i) as [<-|Hne].
  - destruct (Z.testbit t n); simpl; [by rewrite Z.pow2_bits_true|by rewrite Z.bits_0].
  - rewrite andb_false_r. destruct (Z.testbit t n); [by rewrite Z.pow2_bits_false by done|by rewrite Z.bits_0].
Qed.
#[export] Hint Rewrite u8_small u16_small u32_small
  using (unfold is_u8, is_u16, is_u32 in *; lia) : word.

(** include/rtdef.h: alignment in 32-bit arithmetic. *)
Definition RT_ALIGN (size align : Z) : Z := Z.land (u32 (size + align - 1)) (Z.lnot (align - 1)).
Definition RT_ALIGN_DOWN (size align : Z) : Z := Z.land size (Z.lnot (align - 1)).

Lemma land_lnot3 x : Z.land x (Z.lnot 3) = 4 * (x / 4).
Proof.
  change 3 with (Z.ones 2). rewrite <-Z.ldiff_land, Z.ldiff_ones_r, Z.shiftl_mul_pow2, Z.shiftr_div_pow2 by lia. change (2 ^ 2) with 4. lia.
Qed.

Lemma RT_ALIGN_4 x : 0 <= x < 4294967293 -> RT_ALIGN x 4 = 4 * ((x + 3) / 4).
Proof.
  intros Hx. unfold RT_ALIGN. change (Z.lnot (4 - 1)) with (Z.lnot 3). rewrite land_lnot3, u32_small by (unfold is_u32; lia).
  do 2 f_equal. lia.
Qed.

(** ** Removing an element from a list *)

(** What [rt_list_remove] does to the list that holds the node. *)
Definition remove_elem `{EqDecision A} (x : A) (l : list A) : list A :=
  filter (fun y => y <> x) l.

Create HintDb lists.

Section RemoveElem.
Context {A : Type} `{EqDecision A}.
Implicit Types (x y : A) (l : list A).

Lemma elem_of_remove_elem x y l : y ∈ remove_elem x l <-> y <> x /\ y ∈ l.
Proof. unfold remove_elem. rewrite list_elem_of_filter. done. Qed.

Lemma remove_elem_notin x l : x ∉ l -> remove_elem x l = l.
Proof.
    unfold remove_elem. induction l as [|y l IH]; [done|].
    rewrite not_elem_of_cons. intros [Hne Hni].
    rewrite filter_cons_True by done. by rewrite IH.
Qed.

Lemma remove_elem_cons_eq x l : x ∉ l -> remove_elem x (x :: l) = l.
Proof.
    intros. unfold remove_elem. rewrite filter_cons_False by tauto.
    by apply remove_elem_notin.
Qed.

Lemma remove_elem_app x l1 l2 :
    remove_elem x (l1 ++ l2) = remove_elem x l1 ++ remove_elem x l2.
Proof. apply filter_app. Qed.

Lemma remove_elem_split x l1 l2 :
    NoDup (l1 ++ x :: l2) -> remove_elem x (l1 ++ x :: l2) = l1 ++ l2.
Proof.
    rewrite NoDup_app, NoDup_cons. intros (Hn1 & Hd & Hx & Hn2).
    rewrite remove_elem_app, remove_elem_cons_eq by done.
    rewrite remove_elem_notin; [done|].
    intros Hin. apply (Hd x Hin). by left.
Qed.

Lemma NoDup_remove_elem x l : NoDup l -> NoDup (remove_elem x l).
Proof. apply NoDup_filter. Qed.

Lemma remove_elem_self x l : x ∉ remove_elem x l.
Proof. rewrite elem_of_remove_elem. tauto. Qed.
End RemoveElem.

#[export] Hint Resolve NoDup_remove_elem remove_elem_self : lists.
#[export] Hint Rewrite @elem_of_remove_elem : lists.

(** ** Strongly sorted lists *)

Section Sorted.
Context {A : Type}.
Implicit Types (R : A -> A -> Prop) (x : A) (l : list A).

Lemma StronglySorted_insert R l1 x l2 :
    StronglySorted R (l1 ++ l2) -> Forall (fun y => R y x) l1 -> Forall (R x) l2 ->
    StronglySorted R (l1 ++ x :: l2).
Proof.
    induction l1 as [|y l1 IH]; simpl.
    - intros. by constructor.
    - intros [Hs Hy]%StronglySorted_inv [Hyx H1]%Forall_cons H2. constructor; [auto|].
      apply Forall_app in Hy as [Hy1 Hy2]. apply Forall_app. split; [done|]. by constructor.
Qed.

Lemma StronglySorted_filter R (P : A -> Prop) `{forall x, Decision (P x)} l :
    StronglySorted R l -> StronglySorted R (filter P l).
Proof.
    induction 1 as [|y l Hs IH Hy]; [constructor|].
    rewrite filter_cons. case_decide; [|done]. constructor; [done|].
    rewrite Forall_forall in *. intros z [_ Hz]%list_elem_of_filter. auto.
Qed.

Lemma StronglySorted_ext R R' l :
    (forall x y, x ∈ l -> y ∈ l -> R x y -> R' x y) ->
    StronglySorted R l -> StronglySorted R' l.
Proof.
    intros HR Hs. induction Hs as [|y l Hs IH Hy]; [constructor|].
    constructor.
    - apply IH. intros. apply HR; [by right..|done].
    - rewrite Forall_forall in *. intros z Hz. apply HR; [by left|by right|auto].
Qed.
End Sorted.

(** ** Automation for partial (option-valued) operations *)

(** Break a hypothesis [op = Some r] of a monadic operation into its steps. *)
Ltac inv_option :=
  repeat match goal with
  | H : _ ≫= _ = Some _ |- _ => apply bind_Some in H; destruct H as (? & ? & H)
  | H : Some _ = Some _ |- _ => injection H as H
  | H : None = Some _ |- _ => discriminate H
  | H : Some _ = None |- _ => discriminate H
  end; subst.

(** Introduce and destruct conjunctions and existentials in hypotheses. *)
Ltac splits := repeat match goal with |- _ /\ _ => split end.
Ltac unpack :=
  repeat match goal with
  | H : _ /\ _ |- _ => destruct H
  | H : exists _, _ |- _ => destruct H
  end.
