(* ===== verification/RtList.v ===== *)
(** * Intrusive doubly-linked lists (rt-thread/include/rtservice.h)

    The pointer-level operations on [rt_list_t] nodes over a heap of
    [next]/[prev] fields, the representation of a family of lists (one ring per
    head, every unlinked node a ring of its own), and the refinement of the
    four mutating operations to the finite-map-of-lists operations that the
    kernel model uses. *)

From S2P Require Import Prelude.

(** ** The pointer level *)
Section Pointers.
Context {addr : Type} `{Countable addr}.

  (** The two pointer fields of every [rt_list_t] in memory. *)
Record list_heap := LHeap { nx : gmap addr addr; pv : gmap addr addr }.

Definition set_next (p q : addr) (h : list_heap) : option list_heap :=
    _ ← nx h !! p; Some (LHeap (<[p := q]> (nx h)) (pv h)).
Definition set_prev (p q : addr) (h : list_heap) : option list_heap :=
    _ ← pv h !! p; Some (LHeap (nx h) (<[p := q]> (pv h))).

Definition rt_list_init (l : addr) (h : list_heap) : list_heap :=
    LHeap (<[l := l]> (nx h)) (<[l := l]> (pv h)).

Definition rt_list_insert_after (l n : addr) (h : list_heap) : option list_heap :=
    ln ← nx h !! l; h ← set_prev ln n h;
    ln ← nx h !! l; h ← set_next n ln h;
    h ← set_next l n h;
    set_prev n l h.

Definition rt_list_insert_before (l n : addr) (h : list_heap) : option list_heap :=
    lp ← pv h !! l; h ← set_next lp n h;
    lp ← pv h !! l; h ← set_prev n lp h;
    h ← set_prev l n h;
    set_next n l h.

Definition rt_list_remove (n : addr) (h : list_heap) : option list_heap :=
    nn ← nx h !! n; np ← pv h !! n; h ← set_prev nn np h;
    np ← pv h !! n; nn ← nx h !! n; h ← set_next np nn h;
    h ← set_prev n n h;
    set_next n n h.

Definition rt_list_isempty (l : addr) (h : list_heap) : option bool :=
    ln ← nx h !! l; Some (bool_decide (ln = l)).

  (** [while (p->next != l) { p = p->next; len++; }] with [fuel] iterations. *)
Fixpoint rt_list_len_loop (fuel : nat) (l p : addr) (len : Z) (h : list_heap)
      : option Z :=
    match fuel with
    | O => None
    | S fuel =>
        q ← nx h !! p;
        if bool_decide (q = l) then Some len
        else rt_list_len_loop fuel l q (u32 (len + 1)) h
    end.
Definition rt_list_len (fuel : nat) (l : addr) (h : list_heap) : option Z :=
    rt_list_len_loop fuel l l 0 h.

  (** ** Rings *)

Definition link (h : list_heap) (x y : addr) : Prop :=
    nx h !! x = Some y /\ pv h !! y = Some x.

Fixpoint lseg (h : list_heap) (x : addr) (ys : list addr) (z : addr) : Prop :=
    match ys with
    | [] => link h x z
    | y :: ys => link h x y /\ lseg h y ys z
    end.

Definition ring (h : list_heap) (x : addr) (ys : list addr) : Prop := lseg h x ys x.

Lemma lseg_app h x ys y zs z :
    lseg h x (ys ++ y :: zs) z <-> lseg h x ys y /\ lseg h y zs z.
Proof. revert x. induction ys as [|w ys IH]; intros x; simpl; [done|]. rewrite IH. tauto. Qed.

Lemma ring_rotate h x ys y zs :
    ring h x (ys ++ y :: zs) <-> ring h y (zs ++ x :: ys).
Proof. unfold ring. rewrite !lseg_app. tauto. Qed.

  (** A segment only reads the [next] fields of its first nodes and the [prev]
      fields of its last ones. *)
Lemma lseg_frame h h' x ys z :
    (forall a, a ∈ x :: ys -> nx h' !! a = nx h !! a) ->
    (forall a, a ∈ ys ++ [z] -> pv h' !! a = pv h !! a) ->
    lseg h x ys z -> lseg h' x ys z.
Proof.
    revert x. induction ys as [|y ys IH]; intros x Hn Hp; simpl.
    - intros [H1 H2]. split.
      + rewrite Hn by (by left). done.
      + rewrite Hp by (by left). done.
    - intros [[H1 H2] Hs]. split; [split|].
      + rewrite Hn by (by left). done.
      + rewrite Hp by (by left). done.
      + apply IH; [intros a Ha; apply Hn; by right|intros a Ha; apply Hp; by right|done].
Qed.

Lemma ring_frame h h' x ys :
    (forall a, a ∈ x :: ys -> nx h' !! a = nx h !! a /\ pv h' !! a = pv h !! a) ->
    ring h x ys -> ring h' x ys.
Proof.
    intros Hf. apply lseg_frame.
    - intros a Ha. by apply Hf.
    - intros a [Ha|Ha%list_elem_of_singleton]%elem_of_app; apply Hf; [by right|subst; by left].
Qed.

  (** The successor and the predecessor of a ring's first node. *)
Definition first_of (x : addr) (ys : list addr) : addr := default x (head ys).
Definition last_of (x : addr) (ys : list addr) : addr := default x (last ys).

Lemma ring_first h x ys : ring h x ys -> link h x (first_of x ys).
Proof. destruct ys; [done|]. by intros [? _]. Qed.

Lemma ring_last h x ys : ring h x ys -> link h (last_of x ys) x.
Proof.
    unfold ring, last_of. destruct ys as [|y ys _] using rev_ind; [done|].
    rewrite lseg_app, last_snoc. by intros [_ ?].
Qed.

Lemma first_of_elem x ys : first_of x ys ∈ x :: ys.
Proof. destruct ys; set_solver. Qed.
Lemma last_of_elem x ys : last_of x ys ∈ x :: ys.
Proof.
    unfold last_of. destruct (last ys) as [y|] eqn:E; simpl; [|by left].
    right. by apply last_Some_elem_of.
Qed.
  Hint Resolve first_of_elem last_of_elem : core.

  (** The heap agrees with [h] outside [X]. *)
Definition agrees_off (X : list addr) (h h' : list_heap) : Prop :=
    forall a, a ∉ X -> nx h' !! a = nx h !! a /\ pv h' !! a = pv h !! a.

Lemma ring_agrees X h h' x ys :
    agrees_off X h h' -> (forall a, a ∈ x :: ys -> a ∉ X) -> ring h x ys -> ring h' x ys.
Proof. intros Ha Hd. apply ring_frame. intros a Hin. by apply Ha, Hd. Qed.

  (** *** The final heap of each operation *)

Lemma insert_after_heap h l n y :
    nx h !! l = Some y -> is_Some (pv h !! y) ->
    is_Some (nx h !! n) -> is_Some (pv h !! n) -> n <> l ->
    rt_list_insert_after l n h =
      Some (LHeap (<[l := n]> (<[n := y]> (nx h))) (<[n := l]> (<[y := n]> (pv h)))).
Proof.
    intros Hl [? Hy] [? Hn] [? Hpn] Hne.
    unfold rt_list_insert_after, set_prev, set_next. rewrite Hl. simpl. rewrite Hy. simpl.
    rewrite Hl. simpl. rewrite Hn. simpl. rewrite lookup_insert_ne by done. rewrite Hl. simpl.
    destruct (decide (n = y)) as [->|].
    - rewrite lookup_insert_eq. done.
    - rewrite lookup_insert_ne, Hpn by done. done.
Qed.

Lemma insert_before_heap h l n p :
    pv h !! l = Some p -> is_Some (nx h !! p) ->
    is_Some (nx h !! n) -> is_Some (pv h !! n) -> n <> l ->
    rt_list_insert_before l n h =
      Some (LHeap (<[n := l]> (<[p := n]> (nx h))) (<[l := n]> (<[n := p]> (pv h)))).
Proof.
    intros Hl [? Hy] [? Hn] [? Hpn] Hne.
    unfold rt_list_insert_before, set_prev, set_next. rewrite Hl. simpl. rewrite Hy. simpl.
    rewrite Hl. simpl. rewrite Hpn. simpl. rewrite lookup_insert_ne by done. rewrite Hl. simpl.
    destruct (decide (n = p)) as [->|].
    - rewrite lookup_insert_eq. done.
    - rewrite lookup_insert_ne, Hn by done. done.
Qed.

Lemma remove_heap h n nn np :
    nx h !! n = Some nn -> pv h !! n = Some np ->
    is_Some (pv h !! nn) -> is_Some (nx h !! np) ->
    rt_list_remove n h =
      Some (LHeap (<[n := n]> (<[np := nn]> (nx h))) (<[n := n]> (<[nn := np]> (pv h)))).
Proof.
    intros Hn Hp [? Hnn] [? Hnp].
    unfold rt_list_remove, set_prev, set_next. rewrite Hn, Hp. simpl. rewrite Hnn. simpl.
    assert (<[nn := np]> (pv h) !! n = Some np) as ->.
    { destruct (decide (nn = n)) as [->|]; [by rewrite lookup_insert_eq|].
      by rewrite lookup_insert_ne. }
    simpl. rewrite Hn. simpl. rewrite Hnp. simpl.
    assert (is_Some (<[nn := np]> (pv h) !! n)) as [? ->].
    { destruct (decide (nn = n)) as [->|]; [rewrite lookup_insert_eq|rewrite lookup_insert_ne]; eauto. }
    simpl.
    assert (is_Some (<[np := nn]> (nx h) !! n)) as [? ->].
    { destruct (decide (np = n)) as [->|]; [rewrite lookup_insert_eq|rewrite lookup_insert_ne]; eauto. }
    done.
Qed.

  (** *** Each operation on the rings it touches *)

Lemma ring_insert_after h l ys n :
    NoDup (n :: l :: ys) -> ring h l ys -> ring h n [] ->
    exists h', rt_list_insert_after l n h = Some h' /\ ring h' l (n :: ys) /\
      agrees_off (n :: l :: ys) h h'.
Proof.
    rewrite !NoDup_cons, not_elem_of_cons. intros ((Hnl & Hny) & Hly & Hnd) Hr [Hn1 Hn2].
    destruct (ring_first _ _ _ Hr) as [Hf1 Hf2].
    eexists. split; [apply insert_after_heap; eauto|split].
    - destruct ys as [|y ys]; simpl in *; unfold ring, link, first_of in *; simpl in *.
      + unfold link; simpl. simplify_map_eq. done.
      + apply not_elem_of_cons in Hny as [? ?], Hly as [? ?]. apply NoDup_cons in Hnd as [? ?].
        unfold link; simpl. simplify_map_eq. splits; try done.
        destruct Hr as [_ Hs]. revert Hs.
        apply lseg_frame; simpl; intros a Ha; rewrite !lookup_insert_ne; set_solver.
    - intros a Ha. simpl. pose proof (first_of_elem l ys).
      rewrite !lookup_insert_ne; set_solver.
Qed.

Lemma ring_insert_before h l ys n :
    NoDup (n :: l :: ys) -> ring h l ys -> ring h n [] ->
    exists h', rt_list_insert_before l n h = Some h' /\ ring h' l (ys ++ [n]) /\
      agrees_off (n :: l :: ys) h h'.
Proof.
    rewrite !NoDup_cons, not_elem_of_cons. intros ((Hnl & Hny) & Hly & Hnd) Hr [Hn1 Hn2].
    destruct (ring_last _ _ _ Hr) as [Hf1 Hf2].
    eexists. split; [apply insert_before_heap; eauto|split].
    - unfold ring. rewrite lseg_app. simpl.
      destruct ys as [|y ys _] using rev_ind; simpl in *; unfold ring, link, last_of in *; simpl in *.
      + unfold link; simpl. simplify_map_eq. done.
      + rewrite last_snoc in *. simpl in *. rewrite lseg_app in *. simpl in *.
        apply NoDup_app in Hnd as (? & Hd & ?). specialize (Hd y).
        unfold link; simpl. assert (n <> y /\ l <> y) as [? ?] by set_solver.
        simplify_map_eq. splits; try done.
        destruct Hr as [Hs _]. revert Hs.
        apply lseg_frame; simpl; intros a Ha; rewrite !lookup_insert_ne; set_solver.
    - intros a Ha. simpl. pose proof (last_of_elem l ys).
      rewrite !lookup_insert_ne; set_solver.
Qed.

Lemma ring_remove h n l ys :
    NoDup (n :: l :: ys) -> ring h n (ys ++ [l]) ->
    exists h', rt_list_remove n h = Some h' /\ ring h' l ys /\ ring h' n [] /\
      agrees_off (n :: l :: ys) h h'.
Proof.
    rewrite !NoDup_cons, not_elem_of_cons. intros ((Hnl & Hny) & Hly & Hnd) Hr.
    destruct (ring_first _ _ _ Hr) as [Hf1 Hf2]. destruct (ring_last _ _ _ Hr) as [Hl1 Hl2].
    unfold last_of in *. rewrite last_snoc in *. simpl in *.
    eexists. split; [apply remove_heap; eauto|split; [|split]].
    - unfold ring in Hr. rewrite lseg_app in Hr.
      destruct ys as [|y ys]; simpl in *; unfold ring, link, first_of in *; simpl in *.
      + unfold link; simpl. simplify_map_eq. done.
      + apply not_elem_of_cons in Hny as [? ?], Hly as [? ?]. apply NoDup_cons in Hnd as [? ?].
        unfold link; simpl. simplify_map_eq. splits; try done.
        destruct Hr as [[_ Hs] _]. revert Hs.
        apply lseg_frame; simpl; intros a Ha; rewrite !lookup_insert_ne; set_solver.
    - unfold ring, lseg, link; simpl. simplify_map_eq. done.
    - intros a Ha. simpl. pose proof (first_of_elem n (ys ++ [l])).
      rewrite !lookup_insert_ne; set_solver.
Qed.

  (** The same, naming any other node of the ring. *)
Lemma ring_remove_mid h n l ys1 ys2 :
    NoDup (n :: l :: ys2 ++ ys1) -> ring h n (ys1 ++ l :: ys2) ->
    exists h', rt_list_remove n h = Some h' /\ ring h' l (ys2 ++ ys1) /\ ring h' n [] /\
      agrees_off (n :: l :: ys2 ++ ys1) h h'.
Proof.
    destruct ys2 as [|l0 ys2 _] using rev_ind; simpl.
    { apply ring_remove. }
    intros Hnd Hr. rewrite <-app_assoc in Hnd |- *. simpl in *.
    rewrite app_comm_cons, app_assoc in Hr.
    destruct (ring_remove h n l0 (ys1 ++ l :: ys2)) as (h' & Hop & Hr1 & Hr2 & Ha).
    { eapply NoDup_Permutation_proper; [|exact Hnd]. solve_Permutation. }
    { done. }
    exists h'. splits; try done.
    - by apply ring_rotate.
    - intros a Hni. apply Ha. set_solver.
Qed.

Lemma ring_remove_unlinked h n :
    ring h n [] -> exists h', rt_list_remove n h = Some h' /\ ring h' n [] /\ agrees_off [n] h h'.
Proof.
    intros [H1 H2]. eexists. split; [apply remove_heap; eauto|]. split.
    - unfold ring, lseg, link; simpl. simplify_map_eq. done.
    - intros a Ha. simpl. rewrite !lookup_insert_ne; set_solver.
Qed.

Lemma rt_list_len_loop_ring h l ys : forall p len fuel,
    l ∉ ys -> lseg h p ys l -> (length ys < fuel)%nat ->
    rt_list_len_loop fuel l p (u32 len) h = Some (u32 (len + Z.of_nat (length ys))).
Proof.
    induction ys as [|y ys IH]; intros p len fuel Hni Hs Hf; destruct fuel as [|fuel]; try (simpl in Hf; lia); simpl.
    - destruct Hs as [-> _]. simpl. rewrite bool_decide_true by done. do 2 f_equal. lia.
    - destruct Hs as [[-> _] Hs]. simpl. rewrite bool_decide_false by set_solver.
      replace (u32 (u32 len + 1)) with (u32 (len + 1)) by word.
      rewrite IH; [|set_solver|done|simpl in Hf; lia]. do 2 f_equal. lia.
Qed.
End Pointers.

Arguments list_heap addr {_ _}.

(** ** Families of lists *)

(** A family maps every initialised list head to the nodes linked on it, in
    order. The operations below are what the kernel model uses; they are
    partial where the pointer code would dereference a bad head, and insertion
    is defined on unlinked nodes only. *)
Section Families.
Context {K T : Type} `{Countable K} `{Countable T}.
Implicit Types (ls : gmap K (list T)) (k : K) (t s : T).

Definition linked t ls : Prop := exists k l, ls !! k = Some l /\ t ∈ l.

  (** No node is linked twice. *)
Definition lists_ok ls : Prop :=
    (forall k l, ls !! k = Some l -> NoDup l) /\
    (forall k1 k2 l1 l2 t,
        ls !! k1 = Some l1 -> ls !! k2 = Some l2 -> t ∈ l1 -> t ∈ l2 -> k1 = k2).

Lemma not_linked_Forall t ls : map_Forall (fun _ l => t ∉ l) ls -> ~ linked t ls.
Proof. intros Hn (k & l & Hk & Hin). by eapply Hn. Qed.
Lemma linked_not_Forall t ls : ~ map_Forall (fun _ l => t ∉ l) ls -> linked t ls.
Proof.
    intros Hn. apply map_not_Forall in Hn; [|apply _].
    destruct Hn as (k & l & Hk & Hin). exists k, l. split; [done|].
    by destruct (decide (t ∈ l)).
Qed.
#[export] Instance linked_dec t ls : Decision (linked t ls) :=
    match decide (map_Forall (fun _ l => t ∉ l) ls) with
    | left Hf => right (not_linked_Forall t ls Hf)
    | right Hf => left (linked_not_Forall t ls Hf)
    end.

Definition lists_remove t ls : gmap K (list T) := remove_elem t <$> ls.
Definition lists_append k t ls : option (gmap K (list T)) :=
    l ← ls !! k; Some (<[k := l ++ [t]]> ls).
Definition lists_push k t ls : option (gmap K (list T)) :=
    l ← ls !! k; Some (<[k := t :: l]> ls).

  (** [rt_list_insert_before(&s->tlist, &t->tlist)] on the list holding [s]. *)
Fixpoint insert_before_elem s t (l : list T) : list T :=
    match l with
    | [] => []
    | x :: l => if decide (x = s) then t :: x :: l else x :: insert_before_elem s t l
    end.
Definition lists_insert_before k s t ls : option (gmap K (list T)) :=
    l ← ls !! k; Some (<[k := insert_before_elem s t l]> ls).

Lemma insert_before_elem_split s t l1 l2 :
    s ∉ l1 -> insert_before_elem s t (l1 ++ s :: l2) = l1 ++ t :: s :: l2.
Proof.
    induction l1 as [|x l1 IH]; simpl.
    - intros _. by rewrite decide_True.
    - rewrite not_elem_of_cons. intros [Hne Hni]. rewrite decide_False by done. by rewrite IH.
Qed.

Lemma lists_remove_lookup t ls k :
    lists_remove t ls !! k = remove_elem t <$> ls !! k.
Proof. apply lookup_fmap. Qed.

Lemma linked_remove t t' ls : linked t' (lists_remove t ls) <-> t' <> t /\ linked t' ls.
Proof.
    split.
    - intros (k & l & Hk & Hin). rewrite lists_remove_lookup in Hk.
      apply fmap_Some in Hk as (l0 & Hk & ->). apply elem_of_remove_elem in Hin as [? ?].
      split; [done|]. by exists k, l0.
    - intros (Hne & k & l & Hk & Hin). exists k, (remove_elem t l).
      rewrite lists_remove_lookup, Hk. split; [done|]. by apply elem_of_remove_elem.
Qed.

Lemma lists_ok_remove t ls : lists_ok ls -> lists_ok (lists_remove t ls).
Proof.
    intros [Hnd Hdis]. split.
    - intros k l Hk. rewrite lists_remove_lookup in Hk.
      apply fmap_Some in Hk as (l0 & Hk & ->). eauto with lists.
    - intros k1 k2 l1 l2 t'. rewrite !lists_remove_lookup.
      intros (m1 & Hk1 & ->)%fmap_Some (m2 & Hk2 & ->)%fmap_Some.
      rewrite !elem_of_remove_elem. intros [_ ?] [_ ?]. eauto.
Qed.

  (** Replacing the list of [k] by a permutation of itself plus the unlinked
      node [t] keeps the family well formed. *)
Lemma lists_ok_grow k t l l' ls :
    lists_ok ls -> ls !! k = Some l -> ~ linked t ls -> l' ≡ₚ t :: l ->
    lists_ok (<[k := l']> ls).
Proof.
    intros [Hnd Hdis] Hk Hun Hp.
    assert (t ∉ l) as Htl by (intros ?; apply Hun; by exists k, l). split.
    - intros k' m. rewrite lookup_insert. case_decide; [|eauto].
      intros [= <-]. rewrite Hp. apply NoDup_cons. eauto.
    - intros k1 k2 l1 l2 t'. rewrite !lookup_insert.
      repeat case_decide; subst; try done.
      + intros [= <-] Hk2. rewrite Hp, elem_of_cons.
        intros [->|?] ?; [exfalso; apply Hun; by exists k2, l2|eauto].
      + intros Hk1 [= <-]. rewrite Hp, elem_of_cons.
        intros ? [->|?]; [exfalso; apply Hun; by exists k1, l1|eauto].
      + eauto.
Qed.

Lemma linked_grow k t l l' ls t' :
    ls !! k = Some l -> l' ≡ₚ t :: l ->
    linked t' (<[k := l']> ls) <-> t' = t \/ linked t' ls.
Proof.
    intros Hk Hp. split.
    - intros (k' & m & Hm & Hin). rewrite lookup_insert in Hm. case_decide; [|right; by exists k', m].
      injection Hm as <-. rewrite Hp, elem_of_cons in Hin. destruct Hin; [by left|right; by exists k, l].
    - intros [->|(k' & m & Hm & Hin)].
      + exists k, l'. rewrite lookup_insert_eq. split; [done|]. rewrite Hp. by left.
      + destruct (decide (k = k')) as [<-|].
        * exists k, l'. rewrite lookup_insert_eq. split; [done|]. rewrite Hp. right. congruence.
        * exists k', m. by rewrite lookup_insert_ne.
Qed.
End Families.

#[export] Hint Resolve lists_ok_remove : lists.

(** ** Refinement: the pointer operations implement the family operations *)
Module ListRefine.
Section Refine.
Context {K T : Type} `{Countable K} `{Countable T}.
Notation addr := (K + T)%type.
Implicit Types (ls : gmap K (list T)) (h : list_heap addr).

  (** [h] holds the family [ls] and, self-linked, every other node of [T0]. *)
Record repr (T0 : gset T) h ls : Prop := {
    repr_ok : lists_ok ls;
    repr_nodes : forall t, linked t ls -> t ∈ T0;
    repr_ring : forall k l, ls !! k = Some l -> ring h (inl k) (inr <$> l);
    repr_free : forall t, t ∈ T0 -> ~ linked t ls -> ring h (inr t) [];
  }.

Inductive list_op :=
  | OpRemove (t : T)                       (* rt_list_remove(&t->tlist) *)
  | OpAppend (k : K) (t : T)               (* rt_list_insert_before(head, &t->tlist) *)
  | OpPush (k : K) (t : T)                 (* rt_list_insert_after(head, &t->tlist) *)
  | OpInsertBefore (k : K) (s t : T).      (* rt_list_insert_before(&s->tlist, &t->tlist) *)

Definition run_ptr (op : list_op) h : option (list_heap addr) :=
    match op with
    | OpRemove t => rt_list_remove (inr t) h
    | OpAppend k t => rt_list_insert_before (inl k) (inr t) h
    | OpPush k t => rt_list_insert_after (inl k) (inr t) h
    | OpInsertBefore k s t => rt_list_insert_before (inr s) (inr t) h
    end.

Definition run_abs (op : list_op) ls : option (gmap K (list T)) :=
    match op with
    | OpRemove t => Some (lists_remove t ls)
    | OpAppend k t => lists_append k t ls
    | OpPush k t => lists_push k t ls
    | OpInsertBefore k s t => lists_insert_before k s t ls
    end.

  (** When an operation may be used: on a known node, unlinked if it is to be
      inserted, before a node of the named list. *)
Definition op_pre (T0 : gset T) ls (op : list_op) : Prop :=
    match op with
    | OpRemove t => t ∈ T0
    | OpAppend k t | OpPush k t => t ∈ T0 /\ ~ linked t ls /\ is_Some (ls !! k)
    | OpInsertBefore k s t =>
        t ∈ T0 /\ ~ linked t ls /\ is_Some (ls !! k) /\ s ∈ default [] (ls !! k)
    end.

Lemma nodup_ring_addrs k l t :
    NoDup l -> t ∉ l -> NoDup (inr t :: inl k :: (inr <$> l) : list addr).
Proof.
    intros Hnd Hni. rewrite !NoDup_cons. splits.
    - rewrite not_elem_of_cons. split; [done|]. set_solver.
    - set_solver.
    - apply NoDup_fmap_2; [|done]. by intros ?? [= ->].
Qed.

  (** Rings of other heads and other unlinked nodes survive an update that only
      touches the ring of [k] and the node [t]. *)
Lemma repr_frame_other T0 h h' ls k l t k' l' :
    repr T0 h ls -> ls !! k = Some l ->
    agrees_off (inr t :: inl k :: (inr <$> l)) h h' ->
    ls !! k' = Some l' -> k' <> k -> t ∉ l' -> ring h' (inl k') (inr <$> l').
Proof.
    intros [[Hnd Hdis] Hn Hr Hf] Hk Ha Hk' Hne Ht.
    apply (ring_agrees _ h h' _ _ Ha); [|by apply Hr].
    intros a [->|Ha']%elem_of_cons; [set_solver|].
    apply list_elem_of_fmap in Ha' as (t' & -> & Hin').
    rewrite !not_elem_of_cons. splits; [set_solver|done|].
    intros (t2 & [= <-] & Hin2)%list_elem_of_fmap.
    apply Hne. by eapply Hdis.
Qed.

Lemma repr_grow T0 h h' ls k l l' t :
    repr T0 h ls -> ls !! k = Some l -> t ∈ T0 -> ~ linked t ls -> l' ≡ₚ t :: l ->
    agrees_off (inr t :: inl k :: (inr <$> l)) h h' ->
    ring h' (inl k) (inr <$> l') ->
    repr T0 h' (<[k := l']> ls).
Proof.
    intros Hrep Hk Ht Hun Hp Ha Hr'. pose proof Hrep as [Hok Hn Hr Hf]. split.
    - by eapply lists_ok_grow.
    - intros t'. rewrite linked_grow by done. intros [->|?]; auto.
    - intros k' m. rewrite lookup_insert. case_decide; [by intros [= <-]; subst|].
      intros Hm. apply (repr_frame_other T0 h h' ls k l t); try done.
      intros Hin. apply Hun. by exists k', m.
    - intros t' Ht'. rewrite linked_grow by done. intros Hnl.
      apply (ring_agrees _ h h' _ _ Ha); [|apply Hf; tauto].
      intros a ->%list_elem_of_singleton. rewrite !not_elem_of_cons. splits; [|done|].
      + intros [= ->]. tauto.
      + intros (t2 & [= <-] & Hin2)%list_elem_of_fmap. apply Hnl. right. by exists k, l.
Qed.

Lemma repr_head T0 h ls k l t :
    repr T0 h ls -> ls !! k = Some l -> ~ linked t ls ->
    NoDup (inr t :: inl k :: (inr <$> l) : list addr).
Proof.
    intros [[Hnd _] _ _ _] Hk Hun. apply nodup_ring_addrs; [eauto|].
    intros ?. apply Hun. by exists k, l.
Qed.

Lemma append_refines T0 h ls k t :
    repr T0 h ls -> op_pre T0 ls (OpAppend k t) ->
    exists h' ls', run_ptr (OpAppend k t) h = Some h' /\
      run_abs (OpAppend k t) ls = Some ls' /\ repr T0 h' ls'.
Proof.
    intros Hrep (Ht & Hun & l & Hk).
    destruct (ring_insert_before h (inl k) (inr <$> l) (inr t)) as (h' & Hop & Hr & Ha).
    { by eapply repr_head. } { by eapply repr_ring. } { by eapply repr_free. }
    exists h', (<[k := l ++ [t]]> ls). splits; [done|unfold run_abs, lists_append; by rewrite Hk|].
    eapply repr_grow; try done; [by rewrite Permutation_app_comm|]. by rewrite fmap_app.
Qed.

Lemma push_refines T0 h ls k t :
    repr T0 h ls -> op_pre T0 ls (OpPush k t) ->
    exists h' ls', run_ptr (OpPush k t) h = Some h' /\
      run_abs (OpPush k t) ls = Some ls' /\ repr T0 h' ls'.
Proof.
    intros Hrep (Ht & Hun & l & Hk).
    destruct (ring_insert_after h (inl k) (inr <$> l) (inr t)) as (h' & Hop & Hr & Ha).
    { by eapply repr_head. } { by eapply repr_ring. } { by eapply repr_free. }
    exists h', (<[k := t :: l]> ls). splits; [done|unfold run_abs, lists_push; by rewrite Hk|].
    by eapply repr_grow.
Qed.

Lemma nodup_split_addrs k l1 s l2 t :
    NoDup (inr t :: inl k :: (inr <$> l1 ++ s :: l2) : list addr) ->
    NoDup (inr t :: inr s :: (inr <$> l2) ++ inl k :: (inr <$> l1) : list addr).
Proof.
    intros Hnd. eapply NoDup_Permutation_proper; [|exact Hnd].
    rewrite fmap_app, fmap_cons. solve_Permutation.
Qed.

Lemma insert_before_refines T0 h ls k s t :
    repr T0 h ls -> op_pre T0 ls (OpInsertBefore k s t) ->
    exists h' ls', run_ptr (OpInsertBefore k s t) h = Some h' /\
      run_abs (OpInsertBefore k s t) ls = Some ls' /\ repr T0 h' ls'.
Proof.
    intros Hrep (Ht & Hun & [l Hk] & Hin). rewrite Hk in Hin. simpl in Hin.
    apply list_elem_of_split_l in Hin as (l1 & l2 & -> & Hs).
    pose proof (repr_head _ _ _ _ _ _ Hrep Hk Hun) as Hnd.
    pose proof (repr_ring _ _ _ Hrep _ _ Hk) as Hr.
    rewrite fmap_app, fmap_cons in Hr. apply ring_rotate in Hr.
    destruct (ring_insert_before h (inr s) ((inr <$> l2) ++ inl k :: (inr <$> l1)) (inr t))
      as (h' & Hop & Hr' & Ha); [by apply nodup_split_addrs|done|by eapply repr_free|].
    exists h', (<[k := l1 ++ t :: s :: l2]> ls). splits; [done| |].
    { unfold run_abs, lists_insert_before. rewrite Hk. simpl.
      by rewrite insert_before_elem_split. }
    eapply repr_grow; try done; [solve_Permutation| |].
    - intros a Hna. apply Ha. rewrite fmap_app, fmap_cons in Hna. set_solver.
    - rewrite <-app_assoc in Hr'. simpl in Hr'.
      rewrite fmap_app, !fmap_cons. rewrite cons_middle, app_assoc.
      change [inr t] with (inr <$> [t] : list addr). apply ring_rotate. done.
Qed.

Lemma repr_remove_linked T0 h ls k l1 l2 t :
    repr T0 h ls -> ls !! k = Some (l1 ++ t :: l2) ->
    exists h', rt_list_remove (inr t) h = Some h' /\ repr T0 h' (lists_remove t ls).
Proof.
    intros Hrep Hk. pose proof Hrep as [Hok Hn Hr Hf].
    assert (NoDup (l1 ++ t :: l2)) as Hnd by (destruct Hok as [Hok _]; eauto).
    assert (remove_elem t (l1 ++ t :: l2) = l1 ++ l2) as Hrm by (by apply remove_elem_split).
    assert (NoDup (l1 ++ l2)) as Hnd2 by (rewrite <-Hrm; auto with lists).
    assert (t ∉ l1 ++ l2) as Htl by (rewrite <-Hrm; auto with lists).
    pose proof (Hr _ _ Hk) as Hrk. rewrite fmap_app, fmap_cons in Hrk. apply ring_rotate in Hrk.
    destruct (ring_remove_mid h (inr t) (inl k) (inr <$> l2) (inr <$> l1))
      as (h' & Hop & Hr1 & Hr2 & Ha); [|done|].
    { rewrite <-fmap_app. by apply nodup_ring_addrs. }
    rewrite <-fmap_app in Hr1, Ha. exists h'. split; [done|].
    assert (forall k' l', ls !! k' = Some l' -> k' <> k -> t ∉ l') as Hother.
    { intros k' l' Hk' Hne Hin. apply Hne. destruct Hok as [_ Hdis].
      eapply Hdis; [exact Hk'|exact Hk|done|]. set_solver. }
    split.
    - by apply lists_ok_remove.
    - intros t'. rewrite linked_remove. intros [_ ?]. auto.
    - intros k' m. rewrite lists_remove_lookup.
      intros (m0 & Hm & ->)%fmap_Some. destruct (decide (k' = k)) as [->|Hne].
      + rewrite Hk in Hm. injection Hm as <-. by rewrite Hrm.
      + rewrite remove_elem_notin by eauto.
        apply (ring_agrees _ h h' _ _ Ha); [|by apply Hr].
        intros a [->|(t2 & -> & Hin)%list_elem_of_fmap]%elem_of_cons; [set_solver|].
        rewrite !not_elem_of_cons. splits; [intros [= ->]; by eapply Hother|done|].
        intros (t3 & [= <-] & Hin3)%list_elem_of_fmap. apply Hne.
        destruct Hok as [_ Hdis]. eapply Hdis; [exact Hm|exact Hk|done|]. set_solver.
    - intros t' Ht'. rewrite linked_remove. intros Hnl.
      destruct (decide (t' = t)) as [->|Hne]; [done|].
      apply (ring_agrees _ h h' _ _ Ha); [|apply Hf; tauto].
      intros a ->%list_elem_of_singleton. rewrite !not_elem_of_cons.
      splits; [by intros [= ->]|done|].
      intros (t2 & [= <-] & Hin2)%list_elem_of_fmap. apply Hnl. split; [done|].
      exists k, (l1 ++ t :: l2). split; [done|]. set_solver.
Qed.

Lemma lists_remove_unlinked t ls : ~ linked t ls -> lists_remove t ls = ls.
Proof.
    intros Hun. apply map_eq. intros k. rewrite lists_remove_lookup.
    destruct (ls !! k) as [l|] eqn:Hk; [|done]. simpl. f_equal.
    apply remove_elem_notin. intros ?. apply Hun. by exists k, l.
Qed.

Lemma repr_remove_unlinked T0 h ls t :
    repr T0 h ls -> t ∈ T0 -> ~ linked t ls ->
    exists h', rt_list_remove (inr t) h = Some h' /\ repr T0 h' (lists_remove t ls).
Proof.
    intros [Hok Hn Hr Hf] Ht Hun. rewrite lists_remove_unlinked by done.
    destruct (ring_remove_unlinked h (inr t)) as (h' & Hop & Hr2 & Ha); [by apply Hf|].
    exists h'. split; [done|]. split; try done.
    - intros k l Hk. apply (ring_agrees _ h h' _ _ Ha); [|by apply Hr].
      intros a [->|(t2 & -> & Hin)%list_elem_of_fmap]%elem_of_cons; [set_solver|].
      intros [= ->]%list_elem_of_singleton. apply Hun. by exists k, l.
    - intros t' Ht' Hun'. destruct (decide (t' = t)) as [->|Hne]; [done|].
      apply (ring_agrees _ h h' _ _ Ha); [|by apply Hf]. set_solver.
Qed.

Lemma remove_refines T0 h ls t :
    repr T0 h ls -> op_pre T0 ls (OpRemove t) ->
    exists h' ls', run_ptr (OpRemove t) h = Some h' /\
      run_abs (OpRemove t) ls = Some ls' /\ repr T0 h' ls'.
Proof.
    intros Hrep Ht. simpl in Ht. pose proof Hrep as [Hok Hn Hr Hf].
    assert (exists h', rt_list_remove (inr t) h = Some h' /\ repr T0 h' (lists_remove t ls))
      as (h' & ? & ?); [|by exists h', (lists_remove t ls)].
    destruct (decide (linked t ls)) as [(k & l & Hk & (l1 & l2 & ->)%list_elem_of_split)|Hun].
    - by eapply repr_remove_linked.
    - by apply repr_remove_unlinked.
Qed.

  (** One step of the simulation. *)
Lemma list_op_refines T0 op h ls :
    repr T0 h ls -> op_pre T0 ls op ->
    exists h' ls', run_ptr op h = Some h' /\ run_abs op ls = Some ls' /\ repr T0 h' ls'.
Proof.
    destruct op.
    - apply remove_refines.
    - apply append_refines.
    - apply push_refines.
    - apply insert_before_refines.
Qed.

Fixpoint run_ptrs (ops : list list_op) h : option (list_heap addr) :=
    match ops with [] => Some h | op :: ops => h ← run_ptr op h; run_ptrs ops h end.
Fixpoint run_abss (ops : list list_op) ls : option (gmap K (list T)) :=
    match ops with [] => Some ls | op :: ops => ls ← run_abs op ls; run_abss ops ls end.
  (** Every operation of the sequence is used where it may be. *)
Fixpoint ops_pre (T0 : gset T) ls (ops : list list_op) : Prop :=
    match ops with
    | [] => True
    | op :: ops =>
        op_pre T0 ls op /\
        match run_abs op ls with Some ls' => ops_pre T0 ls' ops | None => False end
    end.

#[export] Instance op_pre_dec T0 ls op : Decision (op_pre T0 ls op).
Proof. destruct op; simpl; apply _. Defined.
#[export] Instance ops_pre_dec T0 ls ops : Decision (ops_pre T0 ls ops).
Proof.
    revert ls. induction ops as [|op ops IH]; intros ls; simpl; [apply _|].
    apply and_dec; [apply _|]. destruct (run_abs op ls); apply _.
Defined.

  (** Initialised heads and nodes hold the family of empty lists. *)
Definition init_heap (ks : list K) (ts : list T) : list_heap addr :=
    foldr rt_list_init (LHeap ∅ ∅) ((inl <$> ks) ++ (inr <$> ts)).
Definition init_family (ks : list K) : gmap K (list T) :=
    list_to_map ((fun k => (k, [])) <$> ks).

Lemma ring_init_heap (l : list addr) a :
    a ∈ l -> ring (foldr rt_list_init (LHeap ∅ ∅) l) a [].
Proof.
    induction l as [|b l IH]; [by intros ?%elem_of_nil|].
    intros Hin. unfold ring, lseg, link in *. simpl.
    destruct (decide (a = b)) as [->|Hne]; [by simplify_map_eq|].
    apply elem_of_cons in Hin as [|Hin]; [done|]. rewrite !lookup_insert_ne by done. auto.
Qed.

Lemma init_family_lookup ks k l : init_family ks !! k = Some l -> l = [] /\ k ∈ ks.
Proof.
    unfold init_family. intros Hk%elem_of_list_to_map_2.
    apply list_elem_of_fmap in Hk as (k' & [= -> ->] & ?). done.
Qed.

Lemma repr_init ks ts : repr (list_to_set ts) (init_heap ks ts) (init_family ks).
Proof.
    split.
    - split.
      + intros k l [-> _]%init_family_lookup. constructor.
      + intros k1 k2 l1 l2 t [-> _]%init_family_lookup _ ?%elem_of_nil. done.
    - intros t (k & l & [-> _]%init_family_lookup & ?%elem_of_nil). done.
    - intros k l [-> Hin]%init_family_lookup. apply ring_init_heap. set_solver.
    - intros t Ht _. apply ring_init_heap. apply elem_of_list_to_set in Ht. set_solver.
Qed.

  (** C9: any sequence of list insertions and removals that only inserts
      unlinked nodes runs on the pointer representation without touching a bad
      address and ends in a heap that represents the result of the same
      sequence on the family of lists; there [rt_list_isempty] and
      [rt_list_len] compute emptiness and (within 32 bits) length. *)
Theorem list_ops_refine (T0 : gset T) (ops : list list_op) h ls :
    repr T0 h ls -> ops_pre T0 ls ops ->
    exists h' ls', run_ptrs ops h = Some h' /\ run_abss ops ls = Some ls' /\
      repr T0 h' ls' /\
      forall k l, ls' !! k = Some l ->
        rt_list_isempty (inl k) h' = Some (bool_decide (l = [])) /\
        rt_list_len (S (length l)) (inl k) h' = Some (u32 (Z.of_nat (length l))).
Proof.
    revert h ls. induction ops as [|op ops IH]; intros h ls Hrep; simpl.
    - intros _. exists h, ls. splits; try done. intros k l Hk.
      pose proof (repr_ring _ _ _ Hrep _ _ Hk) as Hr. split.
      + unfold rt_list_isempty. destruct (ring_first _ _ _ Hr) as [-> _]. simpl. f_equal.
        apply bool_decide_ext. destruct l; naive_solver.
      + rewrite <-(length_fmap (inr : T -> addr) l).
        change (Z.of_nat (length (inr <$> l))) with (0 + Z.of_nat (length (inr <$> l : list addr))).
        apply (rt_list_len_loop_ring h _ _ _ 0); [set_solver|done|lia].
    - intros [Hpre Hrest].
      destruct (list_op_refines _ _ _ _ Hrep Hpre) as (h1 & ls1 & -> & Habs & Hrep1).
      rewrite Habs in Hrest |- *. simpl. eauto.
Qed.
End Refine.

(** Two heads, three nodes: queue 1 and 2 on head 0, put 3 before 2, move 1 to
    the front of head 1. *)
Example list_ops_refine_witness :
  exists h' ls',
    run_ptrs [OpAppend 0%nat 1%nat; OpAppend 0%nat 2%nat; OpInsertBefore 0%nat 2%nat 3%nat;
              OpRemove 1%nat; OpPush 1%nat 1%nat] (init_heap [0%nat; 1%nat] [1%nat; 2%nat; 3%nat]) = Some h' /\
    ls' = {[0%nat := [3%nat; 2%nat]; 1%nat := [1%nat]]} /\
    repr (list_to_set [1%nat; 2%nat; 3%nat]) h' ls'.
Proof.
  destruct (list_ops_refine (list_to_set [1%nat; 2%nat; 3%nat])
    [OpAppend 0%nat 1%nat; OpAppend 0%nat 2%nat; OpInsertBefore 0%nat 2%nat 3%nat;
     OpRemove 1%nat; OpPush 1%nat 1%nat] _ _ (repr_init [0%nat; 1%nat] [1%nat; 2%nat; 3%nat]))
    as (h' & ls' & H1 & H2 & H3 & _).
  - apply (bool_decide_unpack _). vm_compute. exact I.
  - exists h', ls'. split; [exact H1|]. split; [|exact H3].
    revert H2. clear. intros H2. vm_compute in H2. injection H2 as <-. vm_compute. reflexivity.
Defined.
End ListRefine.
