(* ===== verification/KService.v ===== *)
(** * Kernel service routines (rt-thread/src/kservice.c)

    The find-first-set routine that the scheduler uses to pick a priority. *)

From S2P Require Import Prelude.

(** [__lowest_bit_bitmap]: the index of the lowest set bit of a byte. *)
Definition lowest_bit_row (first : Z) : list Z :=
  [first; 0; 1; 0; 2; 0; 1; 0; 3; 0; 1; 0; 2; 0; 1; 0].
Definition __lowest_bit_bitmap : list Z :=
  lowest_bit_row 0 ++ lowest_bit_row 4 ++ lowest_bit_row 5 ++ lowest_bit_row 4 ++
  lowest_bit_row 6 ++ lowest_bit_row 4 ++ lowest_bit_row 5 ++ lowest_bit_row 4 ++
  lowest_bit_row 7 ++ lowest_bit_row 4 ++ lowest_bit_row 5 ++ lowest_bit_row 4 ++
  lowest_bit_row 6 ++ lowest_bit_row 4 ++ lowest_bit_row 5 ++ lowest_bit_row 4.

Definition bitmap_at (i : Z) : Z := nth (Z.to_nat i) __lowest_bit_bitmap 0.

(** The argument is the 32-bit pattern of the C [int], read as unsigned. *)
Definition __rt_ffs (value : Z) : Z :=
  if value =? 0 then 0
  else if negb (Z.land value 0xff =? 0) then bitmap_at (Z.land value 0xff) + 1
  else if negb (Z.land value 0xff00 =? 0) then
    bitmap_at (Z.shiftr (Z.land value 0xff00) 8) + 9
  else if negb (Z.land value 0xff0000 =? 0) then
    bitmap_at (Z.shiftr (Z.land value 0xff0000) 16) + 17
  else bitmap_at (Z.shiftr (Z.land value 0xff000000) 24) + 25.

(** [r] is the index of the lowest set bit of [v]. *)
Definition lowest_bit (v r : Z) : Prop :=
  0 <= r /\ Z.testbit v r = true /\ forall i, 0 <= i < r -> Z.testbit v i = false.

Lemma lowest_bit_unique v r r' : lowest_bit v r -> lowest_bit v r' -> r = r'.
Proof.
  intros (? & H1 & H2) (? & H3 & H4).
  destruct (Z.lt_trichotomy r r') as [Hl|[->|Hl]]; [|done|].
  - rewrite H4 in H1 by lia. done.
  - rewrite H2 in H3 by lia. done.
Qed.

Definition byte_ok (b : Z) : bool :=
  let r := bitmap_at b in
  (0 <=? r) && (r <? 8) && Z.testbit b r &&
  forallb (fun i => negb (Z.testbit b (Z.of_nat i)) || (r <=? Z.of_nat i)) (seq 0 8).

Lemma bitmap_byte b : 0 < b < 256 -> lowest_bit b (bitmap_at b) /\ bitmap_at b < 8.
Proof.
  intros Hb.
  assert (forallb (fun n => byte_ok (Z.of_nat n)) (seq 1 255) = true) as Hall
    by (vm_compute; reflexivity).
  rewrite forallb_forall in Hall. specialize (Hall (Z.to_nat b)).
  rewrite Z2Nat.id in Hall by lia. rewrite List.in_seq in Hall. specialize (Hall ltac:(lia)).
  unfold byte_ok in Hall. rewrite !andb_true_iff, Z.leb_le, Z.ltb_lt, forallb_forall in Hall.
  destruct Hall as [[[Hr0 Hr8] Hbit] Hlow]. split; [|done]. split; [done|]. split; [done|].
  intros i Hi. specialize (Hlow (Z.to_nat i)).
  rewrite List.in_seq, Z2Nat.id, orb_true_iff, negb_true_iff, Z.leb_le in Hlow by lia.
  destruct Hlow; [lia|done|lia].
Qed.

(** The byte of [v] selected by the mask [0xff << k]. *)
Lemma shifted_byte v k :
  0 <= k -> Z.shiftr (Z.land v (Z.shiftl 255 k)) k = Z.land (Z.shiftr v k) 255.
Proof.
  intros. rewrite Z.shiftr_land, Z.shiftr_shiftl_l, Z.sub_diag, Z.shiftl_0_r by lia. done.
Qed.

Lemma low_byte_lowest v :
  Z.land v 255 <> 0 -> lowest_bit v (bitmap_at (Z.land v 255)).
Proof.
  change 255 with (Z.ones 8). intros Hne.
  assert (0 < Z.land v (Z.ones 8) < 256) as Hr by (rewrite Z.land_ones in * by lia; dlia).
  destruct (bitmap_byte _ Hr) as [(H0 & H1 & H2) H8].
  set (r := bitmap_at _) in *. rewrite Z.land_spec, Z.ones_spec_low, andb_true_r in H1 by lia.
  split; [done|]. split; [done|]. intros i Hi. specialize (H2 i Hi).
  by rewrite Z.land_spec, Z.ones_spec_low, andb_true_r in H2 by lia.
Qed.

Lemma lowest_bit_shiftr v k r :
  0 <= k -> (forall i, 0 <= i < k -> Z.testbit v i = false) ->
  lowest_bit (Z.shiftr v k) r -> lowest_bit v (r + k).
Proof.
  intros Hk Hz (H0 & H1 & H2). rewrite Z.shiftr_spec in H1 by done.
  split; [lia|]. split; [done|]. intros i Hi.
  destruct (Z.lt_ge_cases i k); [apply Hz; lia|].
  specialize (H2 (i - k) ltac:(lia)). rewrite Z.shiftr_spec in H2 by lia.
  by replace (i - k + k) with i in H2 by lia.
Qed.

Lemma byte_zero_bits v k :
  0 <= k -> Z.land (Z.shiftr v k) 255 = 0 -> forall i, k <= i < k + 8 -> Z.testbit v i = false.
Proof.
  intros Hk Hz i Hi.
  assert (Z.testbit (Z.land (Z.shiftr v k) (Z.ones 8)) (i - k) = false) as Hb
    by (change (Z.ones 8) with 255; rewrite Hz; apply Z.bits_0).
  rewrite Z.land_spec, Z.ones_spec_low, andb_true_r, Z.shiftr_spec in Hb by lia.
  by replace (i - k + k) with i in Hb by lia.
Qed.

Lemma byte_test v k :
  0 <= k -> (Z.land v (Z.shiftl 255 k) =? 0) = (Z.land (Z.shiftr v k) 255 =? 0).
Proof.
  intros Hk. apply eq_true_iff_eq. rewrite !Z.eqb_eq. split; intros Hz.
  - by rewrite <-shifted_byte, Hz, Z.shiftr_0_l.
  - apply Z.bits_inj'. intros n Hn. rewrite Z.bits_0, Z.land_spec, Z.shiftl_spec by done.
    destruct (Z.lt_ge_cases n k); [by rewrite (Z.testbit_neg_r 255), andb_false_r by lia|].
    destruct (Z.lt_ge_cases n (k + 8)); [by rewrite (byte_zero_bits v k) by (done || lia)|].
    change 255 with (Z.ones 8). by rewrite Z.ones_spec_high, andb_false_r by lia.
Qed.

Lemma shifted_low_byte_lowest v k :
  0 <= k -> (forall i, 0 <= i < k -> Z.testbit v i = false) ->
  Z.land (Z.shiftr v k) 255 <> 0 ->
  lowest_bit v (bitmap_at (Z.land (Z.shiftr v k) 255) + k).
Proof. intros Hk Hz Hne. apply lowest_bit_shiftr; [done..|]. by apply low_byte_lowest. Qed.

Lemma ffs_lowest v : is_u32 v -> v <> 0 -> lowest_bit v (__rt_ffs v - 1).
Proof.
  intros Hv Hne. unfold __rt_ffs. rewrite (proj2 (Z.eqb_neq _ _)) by done.
  change (Z.land v 0xff) with (Z.land v (Z.shiftl 255 0)). change 0xff00 with (Z.shiftl 255 8).
  change 0xff0000 with (Z.shiftl 255 16). change 0xff000000 with (Z.shiftl 255 24).
  rewrite !shifted_byte, !byte_test by lia. change (Z.shiftl 255 0) with 255.
  assert (forall k, 0 <= k -> Z.land (Z.shiftr v k) 255 = 0 ->
            forall i, k <= i < k + 8 -> Z.testbit v i = false) as Hz by (by intros; eapply byte_zero_bits).
  destruct (Z.eqb_spec (Z.land (Z.shiftr v 0) 255) 0) as [E0|E0]; cbn [negb].
  2: { rewrite Z.shiftr_0_r in E0. replace (_ + 1 - 1) with (bitmap_at (Z.land v 255)) by lia.
       by apply low_byte_lowest. }
  destruct (Z.eqb_spec (Z.land (Z.shiftr v 8) 255) 0) as [E1|E1]; cbn [negb].
  2: { replace (_ + 9 - 1) with (bitmap_at (Z.land (Z.shiftr v 8) 255) + 8) by lia.
       apply shifted_low_byte_lowest; [lia| |done]. intros. apply (Hz 0); first [lia|done]. }
  assert (forall i, 0 <= i < 16 -> Z.testbit v i = false) as Hz16.
  { intros i Hi. destruct (Z.lt_ge_cases i 8); [apply (Hz 0)|apply (Hz 8)]; first [done|lia]. }
  destruct (Z.eqb_spec (Z.land (Z.shiftr v 16) 255) 0) as [E2|E2]; cbn [negb].
  2: { replace (_ + 17 - 1) with (bitmap_at (Z.land (Z.shiftr v 16) 255) + 16) by lia.
       by apply shifted_low_byte_lowest. }
  replace (_ + 25 - 1) with (bitmap_at (Z.land (Z.shiftr v 24) 255) + 24) by lia.
  assert (forall i, 0 <= i < 24 -> Z.testbit v i = false) as Hz24.
  { intros i Hi. destruct (Z.lt_ge_cases i 16); [apply Hz16; lia|apply (Hz 16); first [done|lia]]. }
  apply shifted_low_byte_lowest; [lia|done|].
  intros E3. apply Hne. apply Z.bits_inj'. intros n Hn. rewrite Z.bits_0.
  destruct (Z.lt_ge_cases n 24); [apply Hz24; lia|].
  destruct (Z.lt_ge_cases n 32); [apply (Hz 24); first [done|lia]|].
  rewrite <-(Z.mod_small v (2 ^ 32)) by (unfold is_u32 in Hv; lia). by apply Z.mod_pow2_bits_high.
Qed.

(** The routine never reads outside its table on a non-negative pattern. *)
Lemma ffs_range v : is_u32 v -> 0 <= __rt_ffs v <= 32.
Proof.
  intros Hv. destruct (Z.eq_dec v 0) as [->|Hne]; [done|].
  destruct (ffs_lowest v Hv Hne) as (H0 & H1 & _). split; [lia|].
  destruct (Z.le_gt_cases (__rt_ffs v) 32); [done|].
  rewrite <-(Z.mod_small v (2 ^ 32)) in H1 at 1 by (unfold is_u32 in Hv; lia).
  rewrite Z.mod_pow2_bits_high in H1 by lia. done.
Qed.

(** [__rt_ffs], which looks up one byte at a time in a 256-entry table,
    returns 0 exactly on 0 and otherwise one plus the index of the lowest set
    bit of its 32-bit argument. *)
Theorem rt_ffs_correct (v : Z) :
  is_u32 v ->
  (__rt_ffs v = 0 <-> v = 0) /\ 0 <= __rt_ffs v <= 32 /\
  (v <> 0 -> lowest_bit v (__rt_ffs v - 1)).
Proof.
  intros Hv. split; [|split; [by apply ffs_range|by apply ffs_lowest]].
  split; [|by intros ->]. intros E. destruct (Z.eq_dec v 0) as [|Hne]; [done|].
  destruct (ffs_lowest v Hv Hne) as (H0 & _). lia.
Qed.

Example rt_ffs_correct_witness :
  is_u32 0x40000 /\ __rt_ffs 0x40000 = 19 /\ lowest_bit 0x40000 18.
Proof.
  assert (is_u32 0x40000) as Hv by (unfold is_u32; lia).
  destruct (rt_ffs_correct 0x40000 Hv) as (_ & _ & H).
  split; [exact Hv|]. split; [vm_compute; reflexivity|].
  change 18 with (__rt_ffs 0x40000 - 1). apply H. discriminate.
Defined.
