(* ===== verification/Sched.v ===== *)
(** * The scheduler (rt-thread/src/scheduler.c, single-core configuration)

    Thread control blocks, the 32 ready queues with their bitmap, the choice of
    the next thread, the scheduler lock. [RT_ASSERT] is empty in this build
    ([RT_DEBUG] is not set) and no hook is installed. A partial operation
    ([None]) is one that does not return: a dereference outside the kernel's
    tables or the trap loop of the stack check. *)

From S2P Require Import Prelude RtList KService.

(** ** Constants (include/rtdef.h, rtconfig.h) *)
Definition RT_THREAD_PRIORITY_MAX : Z := 32.
Definition RT_THREAD_INIT : Z := 0.
Definition RT_THREAD_READY : Z := 1.
Definition RT_THREAD_SUSPEND : Z := 2.
Definition RT_THREAD_CLOSE : Z := 4.
Definition RT_THREAD_STAT_MASK : Z := 15.
Definition RT_Object_Class_Null : Z := 0.
Definition RT_Object_Class_Thread : Z := 1.
Definition RT_Object_Class_Static : Z := 128.

(** ** Data *)

Abbreviation tid := nat (only parsing).
Abbreviation oid := nat (only parsing).

(** The list heads a thread's [tlist] node can be linked on: a ready queue, the
    list of defunct threads, the waiting list of a kernel object, the list of
    suspended senders of a mailbox. *)
Inductive lhead :=
| LReady (p : Z)
| LDefunct
| LSuspend (o : oid)
| LSender (o : oid).

#[export] Instance lhead_eq_dec : EqDecision lhead.
Proof. solve_decision. Defined.
#[export] Instance lhead_countable : Countable lhead.
Proof.
  refine (inj_countable'
    (fun h => match h with
              | LReady p => inl (inl p) | LDefunct => inl (inr tt)
              | LSuspend o => inr (inl o) | LSender o => inr (inr o) end)
    (fun c => match c with
              | inl (inl p) => LReady p | inl (inr _) => LDefunct
              | inr (inl o) => LSuspend o | inr (inr o) => LSender o end) _).
  by intros [].
Defined.

(** [struct rt_thread]: the fields the kernel reads and writes. The byte at
    [stack_addr] stands for the stack guard. *)
Record rt_thread := Thread {
  th_sp : Z;
  th_stack_addr : Z;
  th_stack_size : Z;
  th_stack_guard : Z;
  th_error : Z;
  th_stat : Z;
  th_current_priority : Z;
  th_init_priority : Z;
  th_number_mask : Z;
  th_event_set : Z;
  th_event_info : Z;
  th_init_tick : Z;
  th_remaining_tick : Z;
  th_cleanup : bool;
  th_type : Z;                  (* parent.type *)
}.

Definition th_set_error x th :=
  Thread (th_sp th) (th_stack_addr th) (th_stack_size th) (th_stack_guard th) x (th_stat th)
    (th_current_priority th) (th_init_priority th) (th_number_mask th) (th_event_set th)
    (th_event_info th) (th_init_tick th) (th_remaining_tick th) (th_cleanup th) (th_type th).
Definition th_set_stat x th :=
  Thread (th_sp th) (th_stack_addr th) (th_stack_size th) (th_stack_guard th) (th_error th) x
    (th_current_priority th) (th_init_priority th) (th_number_mask th) (th_event_set th)
    (th_event_info th) (th_init_tick th) (th_remaining_tick th) (th_cleanup th) (th_type th).
(** [current_priority] and the bitmap mask that always accompanies it. *)
Definition th_set_priority x m th :=
  Thread (th_sp th) (th_stack_addr th) (th_stack_size th) (th_stack_guard th) (th_error th)
    (th_stat th) x (th_init_priority th) m (th_event_set th)
    (th_event_info th) (th_init_tick th) (th_remaining_tick th) (th_cleanup th) (th_type th).
Definition th_set_event x i th :=
  Thread (th_sp th) (th_stack_addr th) (th_stack_size th) (th_stack_guard th) (th_error th)
    (th_stat th) (th_current_priority th) (th_init_priority th) (th_number_mask th) x
    i (th_init_tick th) (th_remaining_tick th) (th_cleanup th) (th_type th).
Definition th_set_remaining x th :=
  Thread (th_sp th) (th_stack_addr th) (th_stack_size th) (th_stack_guard th) (th_error th)
    (th_stat th) (th_current_priority th) (th_init_priority th) (th_number_mask th)
    (th_event_set th) (th_event_info th) (th_init_tick th) x (th_cleanup th) (th_type th).

Definition th_set_type x th :=
  Thread (th_sp th) (th_stack_addr th) (th_stack_size th) (th_stack_guard th) (th_error th) (th_stat th)
    (th_current_priority th) (th_init_priority th) (th_number_mask th) (th_event_set th)
    (th_event_info th) (th_init_tick th) (th_remaining_tick th) (th_cleanup th) x.

(** The static variables of scheduler.c and irq.c and the thread objects. *)
Record sched := Sched {
  threads : gmap tid rt_thread;
  lists : gmap lhead (list tid);          (* every list a [tlist] can be on *)
  ready_group : Z;                        (* rt_thread_ready_priority_group *)
  current : option tid;                   (* rt_current_thread *)
  current_prio : Z;                       (* rt_current_priority *)
  lock_nest : Z;                          (* rt_scheduler_lock_nest, rt_int16_t *)
  irq_nest : Z;                           (* rt_interrupt_nest *)
}.

Definition set_threads x s := Sched x (lists s) (ready_group s) (current s) (current_prio s) (lock_nest s) (irq_nest s).
Definition set_lists x s := Sched (threads s) x (ready_group s) (current s) (current_prio s) (lock_nest s) (irq_nest s).
Definition set_group x s := Sched (threads s) (lists s) x (current s) (current_prio s) (lock_nest s) (irq_nest s).
Definition set_current x p s := Sched (threads s) (lists s) (ready_group s) x p (lock_nest s) (irq_nest s).
Definition set_lock x s := Sched (threads s) (lists s) (ready_group s) (current s) (current_prio s) x (irq_nest s).
Definition set_irq x s := Sched (threads s) (lists s) (ready_group s) (current s) (current_prio s) (lock_nest s) x.

(** Write fields of a thread object; a bad pointer has no object. *)
Definition upd_thread (t : tid) (f : rt_thread -> rt_thread) (s : sched) : option sched :=
  th ← threads s !! t; Some (set_threads (<[t := f th]> (threads s)) s).

(** ** Operations *)

Definition stat_of (th : rt_thread) : Z := Z.land (th_stat th) RT_THREAD_STAT_MASK.

Inductive stack_state := StackOk | StackNearEnd | StackOverflow.

(** Stacks grow downwards on this CPU; [35] is the character [#]. *)
Definition _rt_scheduler_stack_check (th : rt_thread) : stack_state :=
  if negb (th_stack_guard th =? 35) || (th_sp th <=? th_stack_addr th) ||
     (th_stack_addr th + th_stack_size th <? th_sp th)
  then StackOverflow
  else if th_sp th <=? th_stack_addr th + 32 then StackNearEnd else StackOk.

Definition _get_highest_priority_thread (s : sched) : option (tid * Z) :=
  let highest_ready_priority := __rt_ffs (ready_group s) - 1 in
  l ← lists s !! LReady highest_ready_priority;
  t ← head l;
  Some (t, highest_ready_priority).

Definition ready_heads : list lhead := (fun p => LReady (Z.of_nat p)) <$> seq 0 32.

Definition rt_system_scheduler_init (s : sched) : sched :=
  let ls := foldr (fun h ls => <[h := []]> ls) (lists s) ready_heads in
  Sched (threads s) (<[LDefunct := []]> ls) 0 (current s) (current_prio s) 0 (irq_nest s).

Definition rt_schedule_insert_thread (t : tid) (s : sched) : option sched :=
  s ← upd_thread t
        (fun th => th_set_stat (Z.lor RT_THREAD_READY
                     (Z.land (th_stat th) (Z.lnot RT_THREAD_STAT_MASK))) th) s;
  if bool_decide (current s = Some t) then Some s
  else
    th ← threads s !! t;
    ls ← lists_append (LReady (th_current_priority th)) t (lists s);
    Some (set_group (Z.lor (ready_group s) (th_number_mask th)) (set_lists ls s)).

Definition rt_schedule_remove_thread (t : tid) (s : sched) : option sched :=
  th ← threads s !! t;
  let s := set_lists (lists_remove t (lists s)) s in
  l ← lists s !! LReady (th_current_priority th);
  if bool_decide (l = []) then
    Some (set_group (Z.land (ready_group s) (Z.lnot (th_number_mask th))) s)
  else Some s.

Definition rt_system_scheduler_start (s : sched) : option sched :=
  '(to_thread, _) ← _get_highest_priority_thread s;
  rt_schedule_remove_thread to_thread (set_current (Some to_thread) (current_prio s) s).

(** The thread [rt_schedule] selects, and whether the running thread goes back
    to its ready queue. *)
Definition schedule_choice (c : tid) (cth : rt_thread) (to_thread : tid) (hp : Z) : tid * bool :=
  if stat_of cth =? RT_THREAD_READY then
    if th_current_priority cth <? hp then (c, false) else (to_thread, true)
  else (to_thread, false).

Definition rt_schedule (s : sched) : option sched :=
  if negb (lock_nest s =? 0) then Some s
  else if ready_group s =? 0 then Some s
  else
    '(highest, hp) ← _get_highest_priority_thread s;
    c ← current s;
    cth ← threads s !! c;
    let '(to_thread, need_insert_from_thread) := schedule_choice c cth highest hp in
    if bool_decide (to_thread = c) then rt_schedule_remove_thread c s
    else
      let s := set_current (Some to_thread) (u8 hp) s in
      s ← (if need_insert_from_thread : bool then rt_schedule_insert_thread c s else Some s);
      s ← rt_schedule_remove_thread to_thread s;
      th ← threads s !! to_thread;
      match _rt_scheduler_stack_check th with
      | StackOverflow => None
      | _ => Some s
      end.

(** Conversion to [rt_int16_t]. *)
Definition s16 (x : Z) : Z := let y := x mod 65536 in if y <? 32768 then y else y - 65536.

Definition rt_enter_critical (s : sched) : sched := set_lock (s16 (lock_nest s + 1)) s.

Definition rt_exit_critical (s : sched) : option sched :=
  let s := set_lock (s16 (lock_nest s - 1)) s in
  if lock_nest s <=? 0 then rt_schedule (set_lock 0 s) else Some s.

Definition rt_critical_level (s : sched) : Z := u16 (lock_nest s).

(** rt-thread/src/irq.c: the nesting counter is an [rt_uint8_t]. *)
Definition rt_interrupt_enter (s : sched) : sched := set_irq (u8 (irq_nest s + 1)) s.
Definition rt_interrupt_leave (s : sched) : sched := set_irq (u8 (irq_nest s - 1)) s.
Definition rt_interrupt_get_nest (s : sched) : Z := irq_nest s.

(** ** Bits of the ready bitmap *)

Create HintDb sched.

Lemma mask_set_spec g p q :
  0 <= p -> 0 <= q -> Z.testbit (Z.lor g (2 ^ p)) q = Z.testbit g q || (p =? q).
Proof. intros. by rewrite Z.lor_spec, Z.pow2_bits_eqb. Qed.

Lemma mask_clear_spec g p q :
  0 <= p -> 0 <= q -> Z.testbit (Z.land g (Z.lnot (2 ^ p))) q = Z.testbit g q && negb (p =? q).
Proof. intros. by rewrite Z.land_spec, Z.lnot_spec, Z.pow2_bits_eqb. Qed.

Lemma is_u32_bits x : is_u32 x <-> 0 <= x /\ forall i, 32 <= i -> Z.testbit x i = false.
Proof.
  unfold is_u32. split.
  - intros Hx. split; [lia|]. intros i Hi.
    rewrite <-(Z.mod_small x (2 ^ 32)) by lia. apply Z.mod_pow2_bits_high. lia.
  - intros [H0 Hb]. split; [done|]. change 4294967296 with (2 ^ 32).
    enough (x mod 2 ^ 32 = x) as <- by (apply Z.mod_pos_bound; lia).
    apply Z.bits_inj'. intros n Hn. destruct (Z.lt_ge_cases n 32).
    + by rewrite Z.mod_pow2_bits_low.
    + rewrite Z.mod_pow2_bits_high by lia. symmetry. by apply Hb.
Qed.

Lemma mask_set_u32 g p : is_u32 g -> 0 <= p < 32 -> is_u32 (Z.lor g (2 ^ p)).
Proof.
  rewrite !is_u32_bits. intros [H0 Hb] Hp. split.
  - apply Z.lor_nonneg. split; [done|]. apply Z.pow_nonneg. lia.
  - intros i Hi. rewrite mask_set_spec, Hb by lia. apply Z.eqb_neq. lia.
Qed.

Lemma mask_clear_u32 g p : is_u32 g -> is_u32 (Z.land g (Z.lnot p)).
Proof.
  rewrite !is_u32_bits. intros [H0 Hb]. split.
  - apply Z.land_nonneg. by left.
  - intros i Hi. by rewrite Z.land_spec, Hb.
Qed.

(** ** Well-formed scheduler states *)

Definition is_ready (th : rt_thread) : Prop := stat_of th = RT_THREAD_READY.

(** The status of the threads linked on a given head. *)
Definition head_stat (h : lhead) : Z :=
  match h with
  | LReady _ => RT_THREAD_READY
  | LDefunct => RT_THREAD_CLOSE
  | LSuspend _ | LSender _ => RT_THREAD_SUSPEND
  end.

Definition prio_ok (th : rt_thread) : Prop :=
  0 <= th_current_priority th < 32 /\ th_number_mask th = 2 ^ th_current_priority th.

(** Everything but the completeness of the ready queues; the threads of [X] may
    have any status. *)
Record core_but (X : gset tid) (s : sched) : Prop := {
  c_ok : lists_ok (lists s);
  c_linked : forall h l t, lists s !! h = Some l -> t ∈ l ->
    exists th, threads s !! t = Some th /\ (t ∉ X -> stat_of th = head_stat h) /\
      (forall p, h = LReady p -> th_current_priority th = p);
  c_heads : forall p, is_Some (lists s !! LReady p) <-> 0 <= p < 32;
  c_defunct : is_Some (lists s !! LDefunct);
  c_group_range : is_u32 (ready_group s);
  c_group : forall p l, lists s !! LReady p = Some l ->
    Z.testbit (ready_group s) p = true <-> l <> [];
  c_prio : forall t th, threads s !! t = Some th -> stat_of th <> RT_THREAD_INIT ->
    stat_of th <> RT_THREAD_CLOSE -> prio_ok th;
  c_stack : forall t th, threads s !! t = Some th ->
    _rt_scheduler_stack_check th <> StackOverflow;
}.
Abbreviation core := (core_but ∅).

(** Every ready thread outside [X] is running or in its ready queue. *)
Definition complete_but (X : gset tid) (s : sched) : Prop :=
  forall t th, threads s !! t = Some th -> is_ready th -> t ∉ X ->
    current s = Some t \/
    exists l, lists s !! LReady (th_current_priority th) = Some l /\ t ∈ l.

(** The running thread exists and is not in a ready queue. *)
Definition current_ok (s : sched) : Prop :=
  forall c, current s = Some c ->
    is_Some (threads s !! c) /\ forall p l, lists s !! LReady p = Some l -> c ∉ l.

Record sched_wf (s : sched) : Prop := {
  wf_core : core s;
  wf_complete : complete_but ∅ s;
  wf_current : current_ok s;
}.

Lemma core_but_mono X Y s : X ⊆ Y -> core_but X s -> core_but Y s.
Proof.
  intros Hsub []. split; try done. intros h l t Hh Hin.
  destruct (c_linked0 h l t Hh Hin) as (th & ? & Hs & ?). exists th. splits; try done.
  intros. apply Hs. set_solver.
Qed.

Lemma core_weaken X s : core s -> core_but X s.
Proof. apply core_but_mono. set_solver. Qed.

Lemma ready_queue_elem X s p l t :
  core_but X s -> lists s !! LReady p = Some l -> t ∈ l ->
  exists th, threads s !! t = Some th /\ th_current_priority th = p.
Proof. intros Hc Hl Hin. destruct (c_linked _ _ Hc _ _ _ Hl Hin) as (th & ? & _ & Hp). eauto. Qed.

(** ** The two queue operations *)

Definition is_ready_prio (t : tid) (p : Z) (s : sched) : Prop :=
  exists l, lists s !! LReady p = Some l /\ t ∈ l.

(** Free to run: the running thread, or ready in the queue of its priority. *)
Definition runnable (t : tid) (s : sched) : Prop :=
  exists th, threads s !! t = Some th /\ is_ready th /\
    (current s = Some t \/ is_ready_prio t (th_current_priority th) s).

Lemma ready_runnable s t th : sched_wf s -> threads s !! t = Some th -> is_ready th -> runnable t s.
Proof. intros Hs Ht Hr. exists th. splits; try done. by apply (wf_complete _ Hs). Qed.

(** Removing [t]: it returns, [t] is off every list, the bitmap is right again. *)
Lemma remove_thread_spec X t th s :
  core_but (X ∪ {[t]}) s -> threads s !! t = Some th -> prio_ok th ->
  exists s', rt_schedule_remove_thread t s = Some s' /\ core_but X s' /\
    threads s' = threads s /\ lists s' = lists_remove t (lists s) /\
    current s' = current s /\ current_prio s' = current_prio s /\
    lock_nest s' = lock_nest s /\ irq_nest s' = irq_nest s.
Proof.
  intros Hc Ht [Hp Hm]. unfold rt_schedule_remove_thread. rewrite Ht. simpl.
  rewrite lists_remove_lookup. set (p := th_current_priority th) in *.
  destruct (proj2 (c_heads _ _ Hc p) Hp) as [l Hl]. rewrite Hl. simpl.
  assert (forall q l', q <> p -> lists s !! LReady q = Some l' -> remove_elem t l' = l') as Hother.
  { intros q l' Hne Hl'. apply remove_elem_notin. intros Hin. apply Hne.
    destruct (ready_queue_elem _ _ _ _ _ Hc Hl' Hin) as (th' & Ht' & <-).
    rewrite Ht in Ht'. by injection Ht' as <-. }
  assert (forall g', is_u32 g' ->
    (forall q l', lists s !! LReady q = Some l' ->
       Z.testbit g' q = true <-> remove_elem t l' <> []) ->
    core_but X (set_group g' (set_lists (lists_remove t (lists s)) s))) as Hcore.
  { intros g' Hg' Hbits. split; simpl.
    - apply lists_ok_remove, Hc.
    - intros h l' t'. rewrite lists_remove_lookup.
      intros (l0 & Hh & ->)%fmap_Some [Hne Hin]%elem_of_remove_elem.
      destruct (c_linked _ _ Hc _ _ _ Hh Hin) as (th' & ? & Hs & ?). exists th'.
      splits; try done. intros. apply Hs. set_solver.
    - intros q. rewrite lists_remove_lookup, fmap_is_Some. apply Hc.
    - rewrite lists_remove_lookup, fmap_is_Some. apply Hc.
    - done.
    - intros q l'. rewrite lists_remove_lookup. intros (l0 & Hh & ->)%fmap_Some. eauto.
    - intros t' th'. apply Hc.
    - intros t' th'. apply Hc. }
  case_bool_decide as Hempty.
  - eexists. splits; try done. apply Hcore; simpl.
    + rewrite Hm. apply mask_clear_u32, Hc.
    + intros q l' Hl'. assert (0 <= q < 32) by (apply (c_heads _ _ Hc); eauto).
      rewrite Hm, mask_clear_spec by lia.
      destruct (Z.eqb_spec p q) as [<-|Hne]; simpl.
      * rewrite andb_false_r. rewrite Hl in Hl'. injection Hl' as <-. rewrite Hempty. done.
      * rewrite andb_true_r, (Hother q) by done. by apply (c_group _ _ Hc).
  - exists (set_group (ready_group s) (set_lists (lists_remove t (lists s)) s)).
    splits; try done. apply Hcore; [apply Hc|].
    intros q l' Hl'. destruct (decide (q = p)) as [->|Hne].
    + rewrite Hl in Hl'. injection Hl' as <-. rewrite (c_group _ _ Hc _ _ Hl).
      split; [done|]. intros _ ->. done.
    + rewrite (Hother q) by done. by apply (c_group _ _ Hc).
Qed.

Definition make_ready (th : rt_thread) : rt_thread :=
  th_set_stat (Z.lor RT_THREAD_READY (Z.land (th_stat th) (Z.lnot RT_THREAD_STAT_MASK))) th.

Lemma stat_set_low th v :
  0 <= v < 16 ->
  stat_of (th_set_stat (Z.lor v (Z.land (th_stat th) (Z.lnot RT_THREAD_STAT_MASK))) th) = v.
Proof.
  intros Hv. unfold stat_of, RT_THREAD_STAT_MASK. simpl. change 15 with (Z.ones 4).
  rewrite Z.land_lor_distr_l, <-Z.land_assoc, (Z.land_comm (Z.lnot _)), Z.land_lnot_diag, Z.land_0_r, Z.lor_0_r.
  rewrite Z.land_ones by lia. apply Z.mod_small. lia.
Qed.

Lemma make_ready_ready th : is_ready (make_ready th).
Proof. apply stat_set_low. unfold RT_THREAD_READY. lia. Qed.

(** Inserting an unlinked thread. *)
Lemma insert_thread_spec X t th s :
  core_but X s -> threads s !! t = Some th -> prio_ok th -> ~ linked t (lists s) ->
  exists s' l, rt_schedule_insert_thread t s = Some s' /\ core_but (X ∖ {[t]}) s' /\
    threads s' = <[t := make_ready th]> (threads s) /\
    lists s !! LReady (th_current_priority th) = Some l /\
    lists s' = (if decide (current s = Some t) then lists s
                else <[LReady (th_current_priority th) := l ++ [t]]> (lists s)) /\
    current s' = current s /\ current_prio s' = current_prio s /\
    lock_nest s' = lock_nest s /\ irq_nest s' = irq_nest s.
Proof.
  intros Hc Ht [Hp Hm] Hun. unfold rt_schedule_insert_thread, upd_thread. rewrite Ht. simpl.
  set (p := th_current_priority th) in *. fold (make_ready th).
  destruct (proj2 (c_heads _ _ Hc p) Hp) as [l Hl].
  assert (forall ls g',
    (forall h l' t', ls !! h = Some l' -> t' ∈ l' ->
       (t' = t /\ h = LReady p) \/ exists l0, lists s !! h = Some l0 /\ t' ∈ l0) ->
    lists_ok ls -> (forall q, is_Some (ls !! LReady q) <-> 0 <= q < 32) -> is_Some (ls !! LDefunct) ->
    is_u32 g' ->
    (forall q l', ls !! LReady q = Some l' -> Z.testbit g' q = true <-> l' <> []) ->
    core_but (X ∖ {[t]}) (set_group g' (set_lists ls
      (set_threads (<[t := make_ready th]> (threads s)) s)))) as Hcore.
  { intros ls g' Hls Hok Hh Hd Hg Hb. split; simpl; try done.
    - intros h l' t' Hl' Hin. destruct (Hls _ _ _ Hl' Hin) as [[-> ->]|(l0 & Hl0 & Hin0)].
      + exists (make_ready th). rewrite lookup_insert_eq. splits; try done.
        * intros _. apply make_ready_ready.
        * by intros q [= <-].
      + destruct (c_linked _ _ Hc _ _ _ Hl0 Hin0) as (th' & Ht' & Hs & Hq).
        assert (t' <> t) by (intros ->; apply Hun; by exists h, l0).
        exists th'. rewrite lookup_insert_ne by done. splits; try done.
        intros. apply Hs. set_solver.
    - intros t' th'. rewrite lookup_insert. case_decide; [|apply Hc].
      intros [= <-] _. done.
    - intros t' th'. rewrite lookup_insert. case_decide; [|apply Hc].
      intros [= <-]. exact (c_stack _ _ Hc t th Ht). }
  destruct (decide (current s = Some t)) as [Hcur|Hcur].
  - rewrite bool_decide_true by done.
    exists (set_group (ready_group s) (set_lists (lists s) (set_threads (<[t := make_ready th]> (threads s)) s))), l.
    splits; try done. apply Hcore; try apply Hc. intros. right. eauto.
  - rewrite bool_decide_false by done. simpl.
    rewrite lookup_insert_eq. simpl. unfold lists_append. fold p. rewrite Hl. simpl.
    eexists _, l. splits; try done. apply Hcore.
    + intros h l' t'. rewrite lookup_insert. case_decide; subst; [|by right; eauto].
      intros [= <-] [Hin| ->%list_elem_of_singleton]%elem_of_app; [right; eauto|by left].
    + eapply lists_ok_grow; [apply Hc|done..|]. by rewrite Permutation_app_comm.
    + intros q. rewrite lookup_insert. case_decide as Heq; [|apply Hc].
      injection Heq as <-. split; [done|]. eauto.
    + rewrite lookup_insert_ne by done. apply Hc.
    + rewrite Hm. apply mask_set_u32; [apply Hc|done].
    + intros q l' Hl'. assert (0 <= q) as Hq0.
      { rewrite lookup_insert in Hl'. case_decide as Heq; [injection Heq as <-; lia|].
        enough (0 <= q < 32) by lia. apply (c_heads _ _ Hc). eauto. }
      rewrite Hm, mask_set_spec by lia.
      rewrite lookup_insert in Hl'. case_decide as Heq.
      * injection Heq as <-. injection Hl' as <-. rewrite Z.eqb_refl, orb_true_r.
        split; [|done]. intros _ E. by apply app_eq_nil in E as [_ ?].
      * destruct (Z.eqb_spec p q) as [->|]; [done|]. rewrite orb_false_r. by apply (c_group _ _ Hc).
Qed.

(** ** Choosing the next thread *)

Lemma highest_spec s :
  core s -> ready_group s <> 0 ->
  exists t l hp, _get_highest_priority_thread s = Some (t, hp) /\ 0 <= hp < 32 /\
    lists s !! LReady hp = Some (t :: l) /\
    forall q t', is_ready_prio t' q s -> hp <= q.
Proof.
  intros Hc Hg. pose proof (c_group_range _ _ Hc) as Hr.
  destruct (ffs_lowest _ Hr Hg) as (H0 & Hbit & Hlow). pose proof (ffs_range _ Hr) as Hf.
  set (hp := __rt_ffs (ready_group s) - 1) in *.
  assert (0 <= hp < 32) as Hhp by (unfold hp in *; lia).
  destruct (proj2 (c_heads _ _ Hc hp) Hhp) as [l Hl].
  pose proof (proj1 (c_group _ _ Hc _ _ Hl) Hbit) as Hne. destruct l as [|t l]; [done|].
  exists t, l, hp. unfold _get_highest_priority_thread. fold hp. rewrite Hl. splits; try done; try lia.
  intros q t' (l' & Hl' & Hin). destruct (Z.le_gt_cases hp q) as [|Hlt]; [done|].
  assert (0 <= q < 32) as Hq by (apply (c_heads _ _ Hc); eauto).
  assert (Z.testbit (ready_group s) q = true) as Hb.
  { apply (c_group _ _ Hc _ _ Hl'). by intros ->; apply elem_of_nil in Hin. }
  rewrite Hlow in Hb by lia. done.
Qed.

Lemma core_set_current X c p s : core_but X s -> core_but X (set_current c p s).
Proof. intros []. by split. Qed.

Lemma core_set_lock X n s : core_but X s -> core_but X (set_lock n s).
Proof. intros []. by split. Qed.

Lemma core_set_irq X n s : core_but X s -> core_but X (set_irq n s).
Proof. intros []. by split. Qed.

#[export] Hint Resolve core_set_current core_set_lock core_set_irq core_weaken : sched.

Lemma wf_set_lock n s : sched_wf s -> sched_wf (set_lock n s).
Proof. intros [Hc Hco Hcur]. split; auto with sched. Qed.

Lemma wf_set_irq n s : sched_wf s -> sched_wf (set_irq n s).
Proof. intros [Hc Hco Hcur]. split; auto with sched. Qed.

#[export] Hint Resolve wf_set_lock wf_set_irq : sched.

(** The running thread, when ready, is on no list. *)
Lemma current_unlinked X s c th :
  core_but X s -> c ∉ X -> current_ok s -> current s = Some c -> threads s !! c = Some th ->
  is_ready th -> ~ linked c (lists s).
Proof.
  intros Hc HX Hcur Hcc Hth Hrd (h & l & Hl & Hin).
  destruct (c_linked _ _ Hc _ _ _ Hl Hin) as (th' & Hth' & Hs & _).
  rewrite Hth in Hth'. injection Hth' as <-. specialize (Hs HX).
  unfold is_ready in Hrd. rewrite Hrd in Hs. destruct h; try discriminate Hs.
  destruct (Hcur c Hcc) as [_ Hoff]. by eapply Hoff.
Qed.

(** What [rt_schedule] establishes when it selects a thread: [c'] runs, it is
    ready, and no queued thread has a smaller priority number. *)
Definition runs_highest (s : sched) : Prop :=
  exists c th, current s = Some c /\ threads s !! c = Some th /\ is_ready th /\
    forall t p, is_ready_prio t p s -> th_current_priority th <= p.

Definition same_frame (s s' : sched) : Prop :=
  lock_nest s' = lock_nest s /\ irq_nest s' = irq_nest s /\
  (forall h, (forall p, h <> LReady p) -> lists s' !! h = lists s !! h) /\
  forall t, threads s' !! t = threads s !! t \/
    exists th, threads s !! t = Some th /\ is_ready th /\ threads s' !! t = Some (make_ready th).

Lemma same_frame_refl s : same_frame s s.
Proof. unfold same_frame. auto. Qed.

(** Taking a ready thread off the lists changes ready queues only. *)
Lemma remove_queued_frame s p l t h :
  core s -> lists s !! LReady p = Some l -> t ∈ l -> (forall p, h <> LReady p) ->
  lists_remove t (lists s) !! h = lists s !! h.
Proof.
  intros Hc Hl Hin Hh. rewrite lists_remove_lookup.
  destruct (lists s !! h) as [m|] eqn:Hm; [|done]. simpl. f_equal. apply remove_elem_notin.
  intros Hin'. apply (Hh p). symmetry. by apply (proj2 (c_ok _ _ Hc) (LReady p) h l m t).
Qed.

(** Case 1: the running thread stays. *)
Lemma schedule_stay s c cth hp :
  sched_wf s -> current s = Some c -> threads s !! c = Some cth -> is_ready cth ->
  th_current_priority cth < hp -> (forall q t, is_ready_prio t q s -> hp <= q) ->
  exists s', rt_schedule_remove_thread c s = Some s' /\ sched_wf s' /\ runs_highest s' /\
    current s' = Some c /\ lists s' = lists s /\ same_frame s s'.
Proof.
  intros [Hc Hco Hcur] Hcc Hcth Hrd Hlt Hmin.
  assert (prio_ok cth) as Hpo by (eapply (c_prio _ _ Hc); [done|by rewrite Hrd..]).
  assert (~ linked c (lists s)) as Hun by (by eapply current_unlinked).
  destruct (remove_thread_spec ∅ c cth s) as
    (s' & Hop & Hc' & Hth & Hls & Hcu & Hcp & Hlk & Hirq); [auto with sched|done..|].
  rewrite ListRefine.lists_remove_unlinked in Hls by done.
  exists s'. splits; try done.
  - split; [done| |].
    + intros t th. rewrite Hth, Hls, Hcu. apply Hco.
    + intros c'. rewrite Hth, Hls, Hcu. apply Hcur.
  - exists c, cth. rewrite Hth, Hcu. splits; try done.
    intros t p (l & Hl & Hin). rewrite Hls in Hl.
    assert (hp <= p); [|lia]. eapply Hmin. by exists l.
  - by rewrite Hcu.
  - unfold same_frame. splits; try done; [by rewrite Hls|]. intros t. left. by rewrite Hth.
Qed.

(** Case 2: the running thread does not go back to a ready queue. *)
Lemma schedule_leave s c cth to l hp :
  sched_wf s -> current s = Some c -> threads s !! c = Some cth -> ~ is_ready cth ->
  lists s !! LReady hp = Some (to :: l) -> (forall q t, is_ready_prio t q s -> hp <= q) ->
  exists s', rt_schedule_remove_thread to (set_current (Some to) (u8 hp) s) = Some s' /\
    sched_wf s' /\ runs_highest s' /\ current s' = Some to /\
    lists s' = lists_remove to (lists s) /\ same_frame s s' /\ threads s' = threads s.
Proof.
  intros [Hc Hco Hcur] Hcc Hcth Hrd Hl Hmin.
  destruct (c_linked _ _ Hc (LReady hp) _ to Hl) as (tth & Htth & Hst & Hpr); [by left|].
  specialize (Hst ltac:(set_solver)). specialize (Hpr _ eq_refl).
  assert (prio_ok tth) as Hpo by (eapply (c_prio _ _ Hc); [done|by rewrite Hst..]).
  destruct (remove_thread_spec ∅ to tth (set_current (Some to) (u8 hp) s)) as
    (s' & Hop & Hc' & Hth & Hls & Hcu & Hcp & Hlk & Hirq); [auto with sched|done..|].
  simpl in *. exists s'. splits; try done.
  - split; [done| |].
    + intros t th. rewrite Hth, Hls, Hcu. intros Ht Hr _.
      destruct (decide (t = to)) as [->|Hne]; [by left|]. right.
      destruct (Hco t th Ht Hr) as [Heq|(l' & Hl' & Hin)]; [set_solver| |].
      { rewrite Hcc in Heq. injection Heq as <-. rewrite Hcth in Ht. by injection Ht as <-. }
      exists (remove_elem to l'). rewrite lists_remove_lookup, Hl'. split; [done|].
      by apply elem_of_remove_elem.
    + intros c'. rewrite Hth, Hls, Hcu. intros [= <-]. split; [eauto|].
      intros p l'. rewrite lists_remove_lookup. intros (l0 & _ & ->)%fmap_Some. auto with lists.
  - exists to, tth. rewrite Hth, Hcu. splits; try done. rewrite Hpr.
    intros t p (l' & Hl' & Hin). rewrite Hls, lists_remove_lookup in Hl'.
    apply fmap_Some in Hl' as (l0 & Hl0 & ->). apply elem_of_remove_elem in Hin as [_ Hin].
    eapply Hmin. by exists l0.
  - unfold same_frame. splits; try done.
    + intros h Hh. rewrite Hls. eapply remove_queued_frame; [done|exact Hl|by left|done].
    + intros t. left. by rewrite Hth.
Qed.

(** Case 3: the running thread goes to the tail of its ready queue. *)
Lemma schedule_preempt s c cth to l hp :
  sched_wf s -> current s = Some c -> threads s !! c = Some cth -> is_ready cth ->
  lists s !! LReady hp = Some (to :: l) -> hp <= th_current_priority cth ->
  (forall q t, is_ready_prio t q s -> hp <= q) ->
  exists s1 s' lc, rt_schedule_insert_thread c (set_current (Some to) (u8 hp) s) = Some s1 /\
    rt_schedule_remove_thread to s1 = Some s' /\
    sched_wf s' /\ runs_highest s' /\ current s' = Some to /\
    lists s !! LReady (th_current_priority cth) = Some lc /\
    lists s' = lists_remove to (<[LReady (th_current_priority cth) := lc ++ [c]]> (lists s)) /\
    same_frame s s'.
Proof.
  intros Hwf Hcc Hcth Hrd Hl Hle Hmin. pose proof Hwf as [Hc Hco Hcur].
  destruct (c_linked _ _ Hc (LReady hp) _ to Hl) as (tth & Htth & Hst & Hpr); [by left|].
  specialize (Hst ltac:(set_solver)). specialize (Hpr _ eq_refl).
  assert (prio_ok tth) as Hpt by (eapply (c_prio _ _ Hc); [done|by rewrite Hst..]).
  assert (prio_ok cth) as Hpc by (eapply (c_prio _ _ Hc); [done|by rewrite Hrd..]).
  assert (~ linked c (lists s)) as Hun by (by eapply current_unlinked).
  assert (to <> c) as Hne.
  { intros ->. apply Hun. exists (LReady hp), (c :: l). split; [done|by left]. }
  destruct (insert_thread_spec ∅ c cth (set_current (Some to) (u8 hp) s)) as
    (s1 & lc & Hop1 & Hc1 & Hth1 & Hlc & Hls1 & Hcu1 & _ & Hlk1 & Hirq1); [auto with sched|done..|].
  simpl in *. rewrite decide_False in Hls1 by congruence.
  assert (threads s1 !! to = Some tth) as Htth1 by (by rewrite Hth1, lookup_insert_ne).
  destruct (remove_thread_spec ∅ to tth s1) as
    (s' & Hop & Hc' & Hth & Hls & Hcu & Hcp & Hlk & Hirq);
    [eapply core_but_mono; [|exact Hc1]; set_solver|done..|].
  rewrite Hth1 in Hth. rewrite Hls1 in Hls. rewrite Hcu1 in Hcu.
  assert (forall t p, is_ready_prio t p s' ->
    (t = c /\ p = th_current_priority cth) \/ is_ready_prio t p s) as Hback.
  { intros t p (l' & Hl' & Hin). rewrite Hls, lists_remove_lookup in Hl'.
    apply fmap_Some in Hl' as (l0 & Hl0 & ->). apply elem_of_remove_elem in Hin as [_ Hin].
    rewrite lookup_insert in Hl0. case_decide as Heq; [|right; by exists l0].
    injection Heq as <-. injection Hl0 as <-.
    apply elem_of_app in Hin as [?| ->%list_elem_of_singleton]; [right; by exists lc|by left]. }
  assert (forall t p, t <> to -> (t = c /\ p = th_current_priority cth) \/ is_ready_prio t p s ->
    is_ready_prio t p s') as Hforth.
  { intros t p Hnt Ht. unfold is_ready_prio. rewrite Hls. setoid_rewrite lists_remove_lookup.
    destruct (decide (p = th_current_priority cth)) as [->|Hnp].
    - rewrite lookup_insert_eq. eexists. split; [done|]. apply elem_of_remove_elem. split; [done|].
      destruct Ht as [[-> _]|(l' & Hl' & Hin)]; [set_solver|]. rewrite Hlc in Hl'. injection Hl' as <-. set_solver.
    - rewrite lookup_insert_ne by congruence. destruct Ht as [[_ ?]|(l' & Hl' & Hin)]; [done|].
      rewrite Hl'. eexists. split; [done|]. by apply elem_of_remove_elem. }
  assert (threads s' !! to = Some tth) as Htth' by (by rewrite Hth, lookup_insert_ne).
  exists s1, s', lc. splits; try done.
  - split; [done| |].
    + intros t th. rewrite Hth, lookup_insert. case_decide as Heq.
      { subst t. intros [= <-] _ _. right. apply Hforth; [done|]. by left. }
      intros Ht Hr _. destruct (decide (t = to)) as [->|Hnt]; [by left|right].
      destruct (Hco t th Ht Hr) as [?|Hq]; [set_solver|congruence|].
      apply Hforth; [done|by right].
    + intros c'. rewrite Hcu. intros [= <-]. split; [eauto|].
      intros p l'. rewrite Hls, lists_remove_lookup. intros (l0 & _ & ->)%fmap_Some. auto with lists.
  - exists to, tth. splits; try done.
    intros t p Hq. rewrite Hpr. destruct (Hback _ _ Hq) as [[_ ->]|Hq']; [done|by eapply Hmin].
  - unfold same_frame. rewrite Hlk, Hlk1, Hirq, Hirq1. splits; try done.
    { intros h Hh. rewrite Hls, lists_remove_lookup, lookup_insert_ne by auto.
      rewrite <-lists_remove_lookup. eapply remove_queued_frame; [done|exact Hl|by left|done]. }
    intros t. rewrite Hth, lookup_insert. case_decide as Heq; [subst t; right; eauto|by left].
Qed.

(** [rt_schedule] on a well-formed state with a thread to run. *)
Lemma rt_schedule_spec s c cth :
  sched_wf s -> current s = Some c -> threads s !! c = Some cth -> lock_nest s = 0 ->
  is_ready cth \/ ready_group s <> 0 ->
  exists s', rt_schedule s = Some s' /\ sched_wf s' /\ runs_highest s' /\ same_frame s s'.
Proof.
  intros Hwf Hcc Hcth Hlk Hex. pose proof Hwf as [Hc Hco Hcur].
  unfold rt_schedule. rewrite Hlk. simpl.
  destruct (Z.eqb_spec (ready_group s) 0) as [Hg|Hg].
  - destruct Hex as [Hrd|]; [|done]. exists s. splits; try done.
    + exists c, cth. splits; try done. intros t p (l & Hl & Hin).
      assert (Z.testbit (ready_group s) p = true) as Hb.
      { apply (c_group _ _ Hc _ _ Hl). by intros ->; apply elem_of_nil in Hin. }
      by rewrite Hg, Z.bits_0 in Hb.
    + unfold same_frame. auto.
  - destruct (highest_spec s Hc Hg) as (to & l & hp & -> & Hhp & Hl & Hmin). simpl.
    rewrite Hcc. simpl. rewrite Hcth. simpl. unfold schedule_choice.
    assert (forall s', current s' = Some to -> sched_wf s' -> exists th, threads s' !! to = Some th /\
      match _rt_scheduler_stack_check th with StackOverflow => None | _ => Some s' end = Some s') as Hstk.
    { intros s' Hcu' [Hc' _ Hcur']. destruct (Hcur' _ Hcu') as [[th Hth] _]. exists th. split; [done|].
      pose proof (c_stack _ _ Hc' _ _ Hth). by destruct (_rt_scheduler_stack_check th). }
    assert (is_ready cth -> to <> c) as Hnc.
    { intros Hrd ->. destruct (Hcur c Hcc) as [_ Hoff]. apply (Hoff _ _ Hl). by left. }
    destruct (Z.eqb_spec (stat_of cth) RT_THREAD_READY) as [Hrd|Hrd].
    + specialize (Hnc Hrd). destruct (Z.ltb_spec (th_current_priority cth) hp) as [Hlt|Hge].
      * rewrite bool_decide_true by done.
        destruct (schedule_stay s c cth hp) as (s' & -> & ? & ? & _ & _ & ?); try done. eauto.
      * rewrite bool_decide_false by done.
        destruct (schedule_preempt s c cth to l hp) as (s1 & s' & lc & -> & Hop & Hwf' & Hhi & Hcu' & _ & _ & Hfr);
          try done; try lia. simpl. rewrite Hop. simpl.
        destruct (Hstk s' Hcu' Hwf') as (th & -> & Hm). simpl. rewrite Hm. eauto.
    + destruct (bool_decide_reflect (to = c)) as [->|Hne].
      * exfalso. destruct (Hcur c Hcc) as [_ Hoff]. apply (Hoff _ _ Hl). by left.
      * simpl. destruct (schedule_leave s c cth to l hp) as (s' & -> & Hwf' & Hhi & Hcu' & _ & Hfr & _); try done.
        simpl. destruct (Hstk s' Hcu' Hwf') as (th & -> & Hm). simpl. rewrite Hm. eauto.
Qed.

Lemma rt_schedule_total s c :
  sched_wf s -> current s = Some c ->
  exists s', rt_schedule s = Some s' /\ sched_wf s' /\ same_frame s s' /\ is_Some (current s').
Proof.
  intros Hwf Hcc. destruct (wf_current _ Hwf c Hcc) as [[cth Hcth] _].
  assert (rt_schedule s = Some s -> exists s', rt_schedule s = Some s' /\ sched_wf s' /\
    same_frame s s' /\ is_Some (current s')) as Hsame.
  { intros E. exists s. splits; try done; apply same_frame_refl. }
  destruct (Z.eqb_spec (lock_nest s) 0) as [Hlk|Hlk].
  2:{ apply Hsame. unfold rt_schedule. by rewrite (proj2 (Z.eqb_neq _ _) Hlk). }
  destruct (Z.eqb_spec (ready_group s) 0) as [Hg|Hg].
  { apply Hsame. unfold rt_schedule. by rewrite Hlk, Hg. }
  destruct (rt_schedule_spec s c cth) as (s' & Hop & Hwf' & (c' & ? & ? & _) & ?); try done; [by right|].
  exists s'. splits; try done.
Qed.

(** ** A decision procedure for well-formedness, for concrete states *)

Definition linked_check (ths : gmap tid rt_thread) (h : lhead) (l : list tid) : Prop :=
  Forall (fun t => match ths !! t with
                   | Some th => stat_of th = head_stat h /\
                       match h with LReady p => th_current_priority th = p | _ => True end
                   | None => False end) l.

Definition group_check (g : Z) (h : lhead) (l : list tid) : Prop :=
  match h with
  | LReady p => (0 <= p < 32) /\ Z.testbit g p = negb (bool_decide (l = []))
  | _ => True
  end.

Definition thread_check (th : rt_thread) : Prop :=
  (stat_of th = RT_THREAD_INIT \/ stat_of th = RT_THREAD_CLOSE \/ prio_ok th) /\
  match _rt_scheduler_stack_check th with StackOverflow => False | _ => True end.

Definition placed_check (s : sched) (t : tid) (th : rt_thread) : Prop :=
  stat_of th <> RT_THREAD_READY \/ current s = Some t \/
  t ∈ default [] (lists s !! LReady (th_current_priority th)).

Definition current_check (s : sched) : Prop :=
  match current s with
  | Some c => is_Some (threads s !! c) /\
      map_Forall (fun h l => match h with LReady _ => c ∉ l | _ => True end) (lists s)
  | None => True
  end.

Definition wf_check (s : sched) : Prop :=
  NoDup (concat ((map_to_list (lists s)).*2)) /\
  map_Forall (linked_check (threads s)) (lists s) /\
  Forall (fun h => is_Some (lists s !! h)) (LDefunct :: ready_heads) /\
  (0 <= ready_group s < 4294967296) /\
  map_Forall (group_check (ready_group s)) (lists s) /\
  map_Forall (fun _ th => thread_check th) (threads s) /\
  map_Forall (placed_check s) (threads s) /\
  current_check s.

#[export] Instance linked_check_dec ths h l : Decision (linked_check ths h l).
Proof.
  apply Forall_dec. intros t. destruct (ths !! t); [|apply _].
  apply and_dec; [apply _|]. destruct h; apply _.
Defined.
#[export] Instance group_check_dec g h l : Decision (group_check g h l).
Proof. destruct h; unfold group_check; apply _. Defined.
#[export] Instance prio_ok_dec th : Decision (prio_ok th).
Proof. unfold prio_ok. apply _. Defined.
#[export] Instance thread_check_dec th : Decision (thread_check th).
Proof. unfold thread_check. apply and_dec; [apply _|]. destruct (_rt_scheduler_stack_check th); apply _. Defined.
#[export] Instance placed_check_dec s t th : Decision (placed_check s t th).
Proof. unfold placed_check. apply _. Defined.
#[export] Instance current_check_dec s : Decision (current_check s).
Proof.
  unfold current_check. destruct (current s); [|apply _]. apply and_dec; [apply _|].
  apply map_Forall_dec. intros [] l; apply _.
Defined.
#[export] Instance wf_check_dec s : Decision (wf_check s).
Proof. unfold wf_check. apply _. Defined.

Lemma NoDup_concat_lists (ls : gmap lhead (list tid)) :
  NoDup (concat ((map_to_list ls).*2)) -> lists_ok ls.
Proof.
  pose proof (NoDup_fst_map_to_list ls) as Hk. intros Hnd.
  assert (forall (kl : list (lhead * list tid)), NoDup kl.*1 -> NoDup (concat kl.*2) ->
    (forall h l, (h, l) ∈ kl -> NoDup l) /\
    (forall h1 h2 l1 l2 t, (h1, l1) ∈ kl -> (h2, l2) ∈ kl -> t ∈ l1 -> t ∈ l2 -> h1 = h2)) as Hgen.
  { clear. intros kl. induction kl as [|[k l] kl IH]; simpl.
    - intros _ _. split; intros; exfalso; by eapply elem_of_nil.
    - intros [Hk1 Hk2]%NoDup_cons (Hl & Hd & Hr)%NoDup_app. destruct (IH Hk2 Hr) as [IH1 IH2].
      assert (forall h' l' t, (h', l') ∈ kl -> t ∈ l -> t ∈ l' -> False) as Hx.
      { intros h' l' t Hin Ht Ht'. apply (Hd t Ht). apply list_elem_of_In, in_concat. exists l'.
        rewrite <-!list_elem_of_In. split; [|done]. apply list_elem_of_fmap. by exists (h', l'). }
      split.
      + intros h l' [[= -> ->]|]%elem_of_cons; [done|eauto].
      + intros h1 h2 l1 l2 t [[= -> ->]|H1]%elem_of_cons [[= -> ->]|H2]%elem_of_cons Ht1 Ht2; eauto;
          exfalso; eauto. }
  destruct (Hgen _ Hk Hnd) as [H1 H2]. split.
  - intros k l Hl. apply (H1 k). by apply elem_of_map_to_list.
  - intros k1 k2 l1 l2 t Hl1 Hl2. apply H2; by apply elem_of_map_to_list.
Qed.

Lemma wf_check_sound s : wf_check s -> sched_wf s.
Proof.
  intros (Hnd & Hli & Hhd & Hg & Hgr & Hth & Hpl & Hcu).
  apply Forall_cons in Hhd as [Hdef Hhd]. rewrite Forall_forall in Hhd.
  split; [split|..]; try done.
  - by apply NoDup_concat_lists.
  - intros h l t Hl Hin. specialize (Hli h l Hl). unfold linked_check in Hli.
    rewrite Forall_forall in Hli. specialize (Hli t Hin).
    destruct (threads s !! t) as [th|]; [|done]. destruct Hli as [Hst Hp].
    exists th. splits; try done. by intros p ->.
  - intros p. split; [intros [l Hl]; by apply (Hgr _ _ Hl)|]. intros Hp. apply Hhd.
    apply list_elem_of_fmap. exists (Z.to_nat p). rewrite Z2Nat.id by lia. split; [done|].
    apply elem_of_seq. lia.
  - intros p l Hl. destruct (Hgr _ _ Hl) as [_ ->]. case_bool_decide; naive_solver.
  - intros t th Ht Hst Hst'. by destruct (Hth t th Ht) as [[|[|]] _].
  - intros t th Ht. destruct (Hth t th Ht) as [_ Hs]. by destruct (_rt_scheduler_stack_check th).
  - intros t th Ht Hr _. destruct (Hpl t th Ht) as [|[|Hin]]; [done|by left|right].
    destruct (lists s !! LReady _) as [l|]; [eauto|by apply elem_of_nil in Hin].
  - intros c Hc. unfold current_check in Hcu. rewrite Hc in Hcu. destruct Hcu as [? Hcu].
    split; [done|]. intros p l Hl. exact (Hcu _ _ Hl).
Qed.

(** ** Properties *)

(** C2: whenever the scheduler is unlocked and some thread can run, [rt_schedule]
    returns, keeps the state well formed, and leaves running a ready thread
    such that no thread in a ready queue has a smaller priority number. *)
Theorem rt_schedule_highest (s : sched) (c : tid) (cth : rt_thread) :
  sched_wf s -> current s = Some c -> threads s !! c = Some cth -> lock_nest s = 0 ->
  (is_ready cth \/ exists t p, is_ready_prio t p s) ->
  exists s', rt_schedule s = Some s' /\ sched_wf s' /\ runs_highest s'.
Proof.
  intros Hwf Hcc Hcth Hlk Hex.
  destruct (rt_schedule_spec s c cth Hwf Hcc Hcth Hlk) as (s' & ? & ? & ? & _); [|eauto].
  destruct Hex as [|(t & p & l & Hl & Hin)]; [by left|right].
  intros Hg. pose proof (proj2 (c_group _ _ (wf_core _ Hwf) _ _ Hl)) as Hb.
  rewrite Hg, Z.bits_0 in Hb. enough (false = true) by done. apply Hb.
  by intros ->; apply elem_of_nil in Hin.
Qed.

(** A ready running thread of the highest ready priority yields: the next
    thread is the head of its queue, the thread itself goes to the tail, and
    no other list changes (round robin within one priority). *)
Theorem rt_schedule_round_robin (s : sched) (c t : tid) (cth : rt_thread) (l : list tid) :
  sched_wf s -> current s = Some c -> threads s !! c = Some cth -> is_ready cth ->
  lock_nest s = 0 ->
  lists s !! LReady (th_current_priority cth) = Some (t :: l) ->
  (forall t' p, is_ready_prio t' p s -> th_current_priority cth <= p) ->
  exists s', rt_schedule s = Some s' /\ current s' = Some t /\
    lists s' = <[LReady (th_current_priority cth) := l ++ [c]]> (lists s).
Proof.
  intros Hwf Hcc Hcth Hrd Hlk Hq Hmin. pose proof Hwf as [Hc Hco Hcur].
  set (p := th_current_priority cth) in *.
  assert (ready_group s <> 0) as Hg.
  { intros Hg. pose proof (proj2 (c_group _ _ Hc _ _ Hq)) as Hb.
    rewrite Hg, Z.bits_0 in Hb. by discriminate Hb. }
  destruct (highest_spec s Hc Hg) as (to & l' & hp & Heq & Hhp & Hl & Hmin').
  assert (hp = p) as ->.
  { apply Z.le_antisymm; [eapply Hmin'|eapply Hmin]; eexists; (split; [done|by left]). }
  rewrite Hq in Hl. injection Hl as <- <-.
  destruct (schedule_preempt s c cth t l p) as
    (s1 & s' & lc & Hop1 & Hop & Hwf' & _ & Hcu' & Hlc & Hls & _); try done.
  destruct (Hcur c Hcc) as [_ Hoff].
  assert (t <> c) as Hne by (intros ->; apply (Hoff _ _ Hq); by left).
  exists s'. splits; try done.
  - unfold rt_schedule. rewrite Hlk, (proj2 (Z.eqb_neq _ _) Hg). simpl. rewrite Heq. simpl.
    rewrite Hcc. simpl. rewrite Hcth. simpl. unfold schedule_choice. fold p.
    rewrite Hrd, Z.ltb_irrefl. simpl. rewrite bool_decide_false by done.
    rewrite Hop1. simpl. rewrite Hop. simpl.
    destruct Hwf' as [Hc' _ Hcur']. destruct (Hcur' _ Hcu') as [[th Hth] _]. rewrite Hth. simpl.
    pose proof (c_stack _ _ Hc' _ _ Hth). by destruct (_rt_scheduler_stack_check th).
  - rewrite Hls. fold p. fold p in Hlc. rewrite Hq in Hlc. injection Hlc as <-.
    destruct (c_ok _ _ Hc) as [Hnd Hdis]. pose proof (Hnd _ _ Hq) as Hndq.
    apply NoDup_cons in Hndq as [Htl Hndl].
    apply map_eq. intros h. rewrite lists_remove_lookup, !lookup_insert. case_decide as Hh.
    + simpl. f_equal. rewrite remove_elem_cons_eq; [done|]. set_solver.
    + destruct (lists s !! h) as [lh|] eqn:Elh; [|done]. simpl. f_equal.
      apply remove_elem_notin. intros Hin. apply Hh.
      eapply Hdis; [exact Hq|exact Elh|by left|done].
Qed.

(** A small system: idle thread 0, thread 1 running at priority 20, threads 2
    and 3 queued at priority 20, thread 4 queued at 25. *)
Definition demo_thread (prio : Z) : rt_thread :=
  Thread 1000 500 600 35 0 RT_THREAD_READY prio prio (2 ^ prio) 0 0 10 10 false (RT_Object_Class_Thread + RT_Object_Class_Static).
Definition demo_sched : sched :=
  Sched (list_to_map [(0%nat, demo_thread 31); (1%nat, demo_thread 20); (2%nat, demo_thread 20);
                      (3%nat, demo_thread 20); (4%nat, demo_thread 25)])
    (<[LReady 31 := [0%nat]]> (<[LReady 20 := [2%nat; 3%nat]]> (<[LReady 25 := [4%nat]]>
       (lists (rt_system_scheduler_init (Sched ∅ ∅ 0 None 0 0 0))))))
    (Z.lor (2 ^ 31) (Z.lor (2 ^ 25) (2 ^ 20))) (Some 1%nat) 20 0 0.

Lemma demo_sched_wf : sched_wf demo_sched.
Proof. apply wf_check_sound. apply (bool_decide_unpack _). vm_compute. exact I. Qed.

Example rt_schedule_highest_witness :
  exists s', rt_schedule demo_sched = Some s' /\ sched_wf s' /\ runs_highest s'.
Proof.
  apply (rt_schedule_highest demo_sched 1%nat (demo_thread 20) demo_sched_wf).
  - reflexivity.
  - vm_compute. reflexivity.
  - reflexivity.
  - left. vm_compute. reflexivity.
Defined.

Lemma demo_sched_min t p : is_ready_prio t p demo_sched -> 20 <= p.
Proof.
  intros (l & Hl & Hin).
  assert (map_Forall (fun h l => match h with LReady p => l = [] \/ 20 <= p | _ => True end)
    (lists demo_sched)) as Hall.
  { assert (bool_decide (map_Forall (fun h (l : list nat) => l = [] \/ 20 <= match h with LReady p => p | _ => 20 end)
      (lists demo_sched)) = true) as Hb by (vm_compute; reflexivity).
    apply bool_decide_eq_true in Hb. intros h l' Hl'. specialize (Hb h l' Hl'). by destruct h. }
  destruct (Hall _ _ Hl) as [->|]; [by apply elem_of_nil in Hin|done].
Qed.

Example rt_schedule_round_robin_witness :
  exists s', rt_schedule demo_sched = Some s' /\ current s' = Some 2%nat /\
    lists s' = <[LReady 20 := [3%nat; 1%nat]]> (lists demo_sched).
Proof.
  apply (rt_schedule_round_robin demo_sched 1%nat 2%nat (demo_thread 20) [3%nat] demo_sched_wf).
  - reflexivity.
  - vm_compute. reflexivity.
  - vm_compute. reflexivity.
  - reflexivity.
  - vm_compute. reflexivity.
  - intros t' p. exact (demo_sched_min t' p).
Defined.

Lemma s16_small x : -32768 <= x < 32768 -> s16 x = x.
Proof. unfold s16. intros. destruct (Z.ltb_spec (x mod 65536) 32768); dlia. Qed.

(** The scheduler lock nests: below the capacity of its 16-bit signed
    counter an inner [rt_exit_critical] only decrements the counter and the
    outermost one unlocks and reschedules; but after 32769 nested
    [rt_enter_critical] calls (fewer than the [RT_UINT16_MAX] the comment
    promises) a single exit already unlocks the scheduler. *)
Theorem critical_nesting (s : sched) :
  (forall n, 0 <= n < 32767 -> lock_nest s = n -> lock_nest (rt_enter_critical s) = n + 1) /\
  (forall n, 1 < n <= 32767 -> lock_nest s = n -> rt_exit_critical s = Some (set_lock (n - 1) s)) /\
  (lock_nest s = 1 -> rt_exit_critical s = rt_schedule (set_lock 0 s)) /\
  (forall k, lock_nest s = 0 -> Z.of_nat k = 32769 ->
     rt_exit_critical (Nat.iter k rt_enter_critical s) = rt_schedule (set_lock 0 s)).
Proof.
  splits.
  - intros n Hn E. unfold rt_enter_critical. simpl. rewrite E. apply s16_small. lia.
  - intros n Hn E. unfold rt_exit_critical. rewrite E, s16_small by lia. simpl.
    destruct (Z.leb_spec (n - 1) 0); [lia|done].
  - intros E. unfold rt_exit_critical. rewrite E. reflexivity.
  - intros k0 E Hk0.
    assert (forall k, Nat.iter k rt_enter_critical s = set_lock (s16 (Z.of_nat k)) s) as Hit.
    { induction k as [|k IH]; [destruct s; simpl in *; by subst|].
      change (Nat.iter (S k) rt_enter_critical s) with (rt_enter_critical (Nat.iter k rt_enter_critical s)).
      rewrite IH. unfold rt_enter_critical, set_lock. simpl. f_equal. unfold s16.
      destruct (Z.ltb_spec (Z.of_nat k mod 65536) 32768);
      repeat match goal with |- context [if ?a <? ?b then _ else _] => destruct (Z.ltb_spec a b) end; dlia. }
    rewrite Hit, Hk0. reflexivity.
Qed.
