(* ===== verification/SchedFacts.v ===== *)
(** * Composite facts about scheduler states

    What the thread and IPC operations do to the scheduler state: field
    updates, suspending a ready thread, linking a suspended thread on a waiting
    list, waking it, closing it; each preserves [sched_wf]. *)

From S2P Require Import Prelude RtList Sched.

Abbreviation put_thread t th s := (set_threads (<[t := th]> (threads s)) s).
Abbreviation put_list h l s := (set_lists (<[h := l]> (lists s)) s).
Abbreviation unlinked_state t s := (set_lists (lists_remove t (lists s)) s).

Definition suspended (s : sched) (t : tid) : Prop :=
  exists th, threads s !! t = Some th /\ stat_of th = RT_THREAD_SUSPEND.

Lemma upd_thread_eq t f s th :
  threads s !! t = Some th -> upd_thread t f s = Some (put_thread t (f th) s).
Proof. unfold upd_thread. by intros ->. Qed.

(** Same scheduling-relevant fields. *)
Record same_sched_fields (th th' : rt_thread) : Prop := {
  sf_stat : stat_of th' = stat_of th;
  sf_prio : th_current_priority th' = th_current_priority th;
  sf_mask : th_number_mask th' = th_number_mask th;
  sf_stack : _rt_scheduler_stack_check th' = _rt_scheduler_stack_check th;
}.

Lemma core_put_thread X s t th th' :
  core_but X s -> threads s !! t = Some th ->
  (forall h l, lists s !! h = Some l -> t ∈ l -> (t ∉ X -> stat_of th' = head_stat h) /\
     (forall p, h = LReady p -> th_current_priority th' = p)) ->
  (stat_of th' <> RT_THREAD_INIT -> stat_of th' <> RT_THREAD_CLOSE -> prio_ok th') ->
  _rt_scheduler_stack_check th' <> StackOverflow ->
  core_but X (put_thread t th' s).
Proof.
  intros Hc Ht Hl Hp Hs. split; simpl; try apply Hc.
  - intros h l t' Hh Hin. destruct (c_linked _ _ Hc _ _ _ Hh Hin) as (th0 & ? & ? & ?).
    rewrite lookup_insert. case_decide; [|by eauto]. subst t'.
    destruct (Hl h l Hh Hin). exists th'. auto.
  - intros t' th0. rewrite lookup_insert. case_decide; [|apply Hc]. by intros [= <-].
  - intros t' th0. rewrite lookup_insert. case_decide; [|apply Hc]. by intros [= <-].
Qed.

Lemma wf_put_same s t th th' :
  sched_wf s -> threads s !! t = Some th -> same_sched_fields th th' -> sched_wf (put_thread t th' s).
Proof.
  intros [Hc Hco Hcur] Ht [Hst Hpr Hm Hsk]. split.
  - apply (core_put_thread _ _ _ th); [done..| | |].
    + intros h l Hh Hin. destruct (c_linked _ _ Hc _ _ _ Hh Hin) as (th0 & Ht0 & ? & ?).
      rewrite Ht in Ht0. injection Ht0 as <-. rewrite Hst, Hpr. auto.
    + rewrite Hst. unfold prio_ok. rewrite Hpr, Hm. by apply (c_prio _ _ Hc t).
    + rewrite Hsk. by apply (c_stack _ _ Hc t).
  - intros t' th0. simpl. rewrite lookup_insert. case_decide; [|apply Hco].
    intros [= <-]. unfold is_ready. rewrite Hst, Hpr. subst t'. by apply Hco.
  - intros c Hcc. destruct (Hcur c Hcc) as [He Hoff]. split; [|done]. simpl.
    rewrite lookup_insert. case_decide; [by eexists|exact He].
Qed.

Lemma not_ready_unqueued s t th p l :
  core s -> threads s !! t = Some th -> ~ is_ready th -> lists s !! LReady p = Some l -> t ∉ l.
Proof.
  intros Hc Ht Hnr Hl Hin. destruct (c_linked _ _ Hc _ _ _ Hl Hin) as (th' & Ht' & Hs & _).
  rewrite Ht in Ht'. injection Ht' as <-. apply Hnr. apply Hs. set_solver.
Qed.

(** Unlinking a thread that is not ready. *)
Lemma wf_unlink s t th :
  sched_wf s -> threads s !! t = Some th -> ~ is_ready th -> sched_wf (unlinked_state t s).
Proof.
  intros [Hc Hco Hcur] Ht Hnr.
  assert (forall p l, lists s !! LReady p = Some l -> remove_elem t l = l) as Hq.
  { intros p l Hl. apply remove_elem_notin. by eapply not_ready_unqueued. }
  assert (forall p, lists_remove t (lists s) !! LReady p = lists s !! LReady p) as Hr.
  { intros p. rewrite lists_remove_lookup. destruct (lists s !! LReady p) as [l|] eqn:E; [|done].
    simpl. by rewrite (Hq p l). }
  split; [split|..]; simpl.
  - apply lists_ok_remove, Hc.
  - intros h l t'. rewrite lists_remove_lookup. intros (l0 & Hh & ->)%fmap_Some [_ Hin]%elem_of_remove_elem.
    by apply (c_linked _ _ Hc h l0).
  - intros p. rewrite Hr. apply Hc.
  - rewrite lists_remove_lookup, fmap_is_Some. apply Hc.
  - apply Hc.
  - intros p l. rewrite Hr. apply Hc.
  - apply Hc.
  - apply Hc.
  - intros t' th'. simpl. rewrite Hr. apply Hco.
  - intros c Hcc. destruct (Hcur c Hcc) as [He Hoff]. split; [done|]. intros p l. simpl. rewrite Hr. apply Hoff.
Qed.

Lemma unlinked_after s t : ~ linked t (lists (unlinked_state t s)).
Proof. simpl. rewrite linked_remove. tauto. Qed.

(** Linking an unlinked thread that is not ready on a list other than the ready
    queues. *)
Lemma wf_link s t th h l l' :
  sched_wf s -> threads s !! t = Some th -> stat_of th = head_stat h -> (forall p, h <> LReady p) ->
  ~ linked t (lists s) -> lists s !! h = Some l -> l' ≡ₚ t :: l ->
  sched_wf (put_list h l' s).
Proof.
  intros [Hc Hco Hcur] Ht Hst Hw Hun Hl Hp.
  assert (forall p, <[h := l']> (lists s) !! LReady p = lists s !! LReady p) as Hr.
  { intros p. rewrite lookup_insert_ne; auto. }
  split; [split|..]; simpl.
  - eapply lists_ok_grow; [apply Hc|done..].
  - intros h' m t'. rewrite lookup_insert. destruct (decide (h = h')) as [<-|Hh]; [|apply Hc].
    intros [= <-]. rewrite Hp, elem_of_cons. intros [->|Hin]; [|by eapply c_linked].
    exists th. split; [done|]. split; [done|]. intros p E. by destruct (Hw p).
  - intros p. rewrite Hr. apply Hc.
  - rewrite lookup_insert. destruct (decide (h = LDefunct)); [by eexists|apply Hc].
  - apply Hc.
  - intros p m. rewrite Hr. apply Hc.
  - apply Hc.
  - apply Hc.
  - intros t' th'. simpl. rewrite Hr. apply Hco.
  - intros c Hcc. destruct (Hcur c Hcc) as [He Hoff]. split; [done|]. intros p m. simpl. rewrite Hr. apply Hoff.
Qed.

(** [rt_schedule_insert_thread] on an unlinked suspended thread. *)
Lemma wf_insert_suspended s t th :
  sched_wf s -> threads s !! t = Some th -> stat_of th = RT_THREAD_SUSPEND -> ~ linked t (lists s) ->
  exists s' l, rt_schedule_insert_thread t s = Some s' /\ sched_wf s' /\
    threads s' = <[t := make_ready th]> (threads s) /\
    lists s !! LReady (th_current_priority th) = Some l /\
    lists s' = (if decide (current s = Some t) then lists s
                else <[LReady (th_current_priority th) := l ++ [t]]> (lists s)) /\
    current s' = current s /\ current_prio s' = current_prio s /\
    lock_nest s' = lock_nest s /\ irq_nest s' = irq_nest s.
Proof.
  intros [Hc Hco Hcur] Ht Hst Hun.
  assert (prio_ok th) as Hpo by (apply (c_prio _ _ Hc t); [done|by rewrite Hst..]).
  destruct (insert_thread_spec ∅ t th s) as
    (s' & l & Hop & Hc' & Hths & Hl & Hls & Hcu & Hcp & Hlk & Hirq); try done.
  exists s', l. splits; try done. split.
  - by replace (∅ ∖ {[t]}) with (∅ : gset tid) in Hc' by set_solver.
  - intros t' th'. rewrite Hths, lookup_insert, Hcu, Hls. destruct (decide (t = t')) as [<-|He].
    + intros [= <-] _ _. destruct (decide (current s = Some t)); [by left|right].
      change (th_current_priority (make_ready th)) with (th_current_priority th).
      exists (l ++ [t]). rewrite lookup_insert_eq. split; [done|]. set_solver.
    + intros Ht' Hr Hx. destruct (Hco t' th' Ht' Hr Hx) as [|(l0 & Hl0 & Hin)]; [by left|right].
      destruct (decide (current s = Some t)); [eauto|]. rewrite lookup_insert.
      case_decide as Hp; [|eauto]. injection Hp as Hp. rewrite <-Hp, Hl in Hl0. injection Hl0 as <-.
      exists (l ++ [t]). split; [done|]. set_solver.
  - intros c. rewrite Hcu. intros Hcc. destruct (Hcur c Hcc) as [He Hoff]. split.
    + rewrite Hths, lookup_insert. destruct (decide (t = c)); [by eexists|exact He].
    + intros p m. rewrite Hls. destruct (decide (current s = Some t)) as [|Hne]; [apply Hoff|].
      rewrite lookup_insert. case_decide; [|apply Hoff]. intros [= <-].
      rewrite elem_of_app, list_elem_of_singleton. intros [Hin| ->]; [|done]. by apply (Hoff _ l Hl).
Qed.

(** Taking a thread out of scheduling with the (not ready) object [th'] in its
    place. *)
Lemma wf_remove_thread s t th th' :
  sched_wf s -> threads s !! t = Some th -> prio_ok th ->
  ~ is_ready th' -> (stat_of th' <> RT_THREAD_CLOSE -> prio_ok th') ->
  th_current_priority th' = th_current_priority th -> th_number_mask th' = th_number_mask th ->
  _rt_scheduler_stack_check th' <> StackOverflow ->
  exists s', rt_schedule_remove_thread t (put_thread t th' s) = Some s' /\ sched_wf s' /\
    threads s' = <[t := th']> (threads s) /\ lists s' = lists_remove t (lists s) /\
    current s' = current s /\ current_prio s' = current_prio s /\
    lock_nest s' = lock_nest s /\ irq_nest s' = irq_nest s.
Proof.
  intros [Hc Hco Hcur] Ht Hpo Hnr Hpo' Hpr Hm Hsk.
  assert (core_but ({[t]}) (put_thread t th' s)) as Hc1.
  { apply (core_put_thread _ _ _ th); [by apply core_weaken|done| |auto|done].
    intros h l Hh Hin. split; [set_solver|]. intros p ->. rewrite Hpr.
    destruct (c_linked _ _ Hc _ _ _ Hh Hin) as (th0 & Ht0 & _ & Hp0). rewrite Ht in Ht0.
    injection Ht0 as <-. auto. }
  destruct (remove_thread_spec ∅ t th' (put_thread t th' s)) as
    (s' & Hop & Hc' & Hths & Hls & Hcu & Hcp & Hlk & Hirq).
  { by replace (∅ ∪ {[t]}) with ({[t]} : gset tid) by set_solver. }
  { simpl. by rewrite lookup_insert_eq. }
  { unfold prio_ok. rewrite Hpr, Hm. exact Hpo. }
  simpl in *. exists s'. splits; try done. split; [done|..].
  - intros t' th0. rewrite Hths, lookup_insert. case_decide as He.
    + intros [= <-]. done.
    + intros Ht' Hr Hx. rewrite Hcu, Hls, lists_remove_lookup.
      destruct (Hco t' th0 Ht' Hr Hx) as [|(l & -> & Hin)]; [by left|right].
      exists (remove_elem t l). split; [done|]. apply elem_of_remove_elem. auto.
  - intros c. rewrite Hcu. intros Hcc. destruct (Hcur c Hcc) as [Hex Hoff]. split.
    + rewrite Hths, lookup_insert. case_decide; [by eexists|exact Hex].
    + intros p l. rewrite Hls, lists_remove_lookup. intros (l0 & Hl0 & ->)%fmap_Some Hin.
      apply elem_of_remove_elem in Hin as [_ Hin]. by apply (Hoff _ _ Hl0).
Qed.

(** The same with the object replaced after the removal. *)
Lemma wf_remove_then_put s t th th' :
  sched_wf s -> threads s !! t = Some th -> prio_ok th ->
  ~ is_ready th' -> (stat_of th' <> RT_THREAD_CLOSE -> prio_ok th') ->
  th_current_priority th' = th_current_priority th -> th_number_mask th' = th_number_mask th ->
  _rt_scheduler_stack_check th' <> StackOverflow ->
  exists s', rt_schedule_remove_thread t s = Some s' /\ sched_wf (put_thread t th' s') /\
    threads s' = threads s /\ lists s' = lists_remove t (lists s) /\
    current s' = current s /\ current_prio s' = current_prio s /\
    lock_nest s' = lock_nest s /\ irq_nest s' = irq_nest s.
Proof.
  intros Hwf Ht Hpo Hnr Hpo' Hpr Hm Hsk.
  destruct (wf_remove_thread s t th th') as (s1 & Hop & Hwf1 & Hths & Hls & Hcu & Hcp & Hlk & Hirq); try done.
  destruct (remove_thread_spec ∅ t th s) as (s' & Hop' & _ & Hths' & Hls' & Hcu' & Hcp' & Hlk' & Hirq');
    [apply core_weaken, Hwf|done..|].
  exists s'. splits; try done. enough (put_thread t th' s' = s1) as -> by done.
  revert Hop Hop'. unfold rt_schedule_remove_thread. simpl. rewrite Ht, lookup_insert_eq. simpl.
  rewrite Hpr, Hm. destruct (lists_remove t (lists s) !! LReady (th_current_priority th)); simpl; [|done].
  case_bool_decide; intros [= <-] [= <-]; done.
Qed.

(** A closed thread that is on no list. *)
Lemma init_unlinked s t th :
  core s -> threads s !! t = Some th -> stat_of th = RT_THREAD_INIT -> ~ linked t (lists s).
Proof.
  intros Hc Ht Hst (h & l & Hl & Hin). destruct (c_linked _ _ Hc _ _ _ Hl Hin) as (th' & Ht' & Hs & _).
  rewrite Ht in Ht'. injection Ht' as <-. specialize (Hs ltac:(set_solver)). rewrite Hst in Hs.
  by destruct h.
Qed.

Lemma wf_put_init s t th th' :
  sched_wf s -> threads s !! t = Some th -> ~ linked t (lists s) -> ~ is_ready th' ->
  (stat_of th' <> RT_THREAD_INIT -> stat_of th' <> RT_THREAD_CLOSE -> prio_ok th') ->
  _rt_scheduler_stack_check th' <> StackOverflow -> sched_wf (put_thread t th' s).
Proof.
  intros [Hc Hco Hcur] Ht Hun Hnr Hpo Hsk. split.
  - apply (core_put_thread _ _ _ th); try done. intros h l Hl Hin. destruct Hun. by exists h, l.
  - intros t' th0. simpl. rewrite lookup_insert. destruct (decide (t = t')); [|apply Hco]. by intros [= <-].
  - intros c Hcc. destruct (Hcur c Hcc) as [He Hoff]. split; [|done]. simpl.
    rewrite lookup_insert. destruct (decide (t = c)); [by eexists|exact He].
Qed.

Lemma wf_delete_thread s t :
  sched_wf s -> ~ linked t (lists s) -> current s <> Some t ->
  sched_wf (set_threads (delete t (threads s)) s).
Proof.
  intros [Hc Hco Hcur] Hun Hne. split; [split|..]; simpl; try apply Hc.
  - intros h l t' Hl Hin. destruct (c_linked _ _ Hc _ _ _ Hl Hin) as (th & Ht & ?).
    exists th. rewrite lookup_delete_ne; [done|]. intros ->. apply Hun. by exists h, l.
  - intros t' th [_ Ht]%lookup_delete_Some. by apply (c_prio _ _ Hc t').
  - intros t' th [_ Ht]%lookup_delete_Some. by apply (c_stack _ _ Hc t').
  - intros t' th Ht. simpl in Ht. apply lookup_delete_Some in Ht as [_ Ht]. by apply Hco.
  - intros c Hcc. destruct (Hcur c Hcc) as [He Hoff]. split; [|done]. simpl.
    rewrite lookup_delete_ne; [done|simpl in Hcc; congruence].
Qed.

(** The scheduler lock around a code section that leaves the counter alone. *)
Lemma exit_critical_one s c :
  sched_wf s -> lock_nest s = 1 -> current s = Some c ->
  exists s', rt_exit_critical s = Some s' /\ sched_wf s' /\ same_frame (set_lock 0 s) s' /\ is_Some (current s').
Proof.
  intros Hwf Hlk Hc. unfold rt_exit_critical. rewrite Hlk. simpl.
  apply (rt_schedule_total (set_lock 0 s) c); [by apply wf_set_lock|done].
Qed.

(** ** Changing the priority of a ready thread *)

Lemma wf_requeue s t th th' :
  sched_wf s -> threads s !! t = Some th -> is_ready th -> is_ready th' -> prio_ok th' ->
  _rt_scheduler_stack_check th' <> StackOverflow ->
  exists s1 s2, rt_schedule_remove_thread t s = Some s1 /\
    rt_schedule_insert_thread t (put_thread t th' s1) = Some s2 /\ sched_wf s2 /\
    threads s1 = threads s /\
    threads s2 = <[t := make_ready th']> (threads s) /\
    (forall h, (forall p, h <> LReady p) -> lists s2 !! h = lists s !! h) /\
    current s2 = current s /\ lock_nest s2 = lock_nest s /\ irq_nest s2 = irq_nest s.
Proof.
  intros [Hc Hco Hcur] Ht Hrd Hrd' Hpo' Hsk.
  assert (prio_ok th) as Hpo by (apply (c_prio _ _ Hc t); [done|by rewrite Hrd..]).
  destruct (remove_thread_spec ∅ t th s) as (s1 & Hop1 & Hc1 & Hths1 & Hls1 & Hcu1 & _ & Hlk1 & Hirq1);
    [by apply core_weaken|done..|].
  assert (~ linked t (lists s1)) as Hun by (rewrite Hls1, linked_remove; tauto).
  assert (core (put_thread t th' s1)) as Hc1'.
  { apply (core_put_thread _ _ _ th); try done; [by rewrite Hths1|].
    intros h l Hl Hin. destruct Hun. by exists h, l. }
  destruct (insert_thread_spec ∅ t th' (put_thread t th' s1) Hc1') as
    (s2 & l & Hop2 & Hc2 & Hths2 & Hl2 & Hls2 & Hcu2 & _ & Hlk2 & Hirq2); [simpl; by rewrite lookup_insert_eq|done..|].
  simpl in *. rewrite Hths1, insert_insert_eq in Hths2. rewrite Hcu1 in Hcu2, Hls2.
  assert (forall h, (forall p, h <> LReady p) -> lists s1 !! h = lists s !! h) as Hother.
  { intros h Hh. rewrite Hls1, lists_remove_lookup. destruct (lists s !! h) as [m|] eqn:Em; [|done].
    simpl. f_equal. apply remove_elem_notin. intros Hin.
    destruct (c_linked _ _ Hc _ _ _ Em Hin) as (th0 & Ht0 & Hs0 & _). rewrite Ht in Ht0. injection Ht0 as <-.
    specialize (Hs0 ltac:(set_solver)). rewrite Hrd in Hs0. destruct h; try discriminate Hs0. by destruct (Hh p). }
  exists s1, s2. splits; try done; [|..].
  - split.
    + by replace (∅ ∖ {[t]}) with (∅ : gset tid) in Hc2 by set_solver.
    + intros t' th0. rewrite Hths2, Hcu2, Hls2. destruct (decide (t' = t)) as [->|Hne].
      * rewrite lookup_insert_eq. intros [= <-] _ _.
        destruct (decide (current s = Some t)); [by left|right].
        exists (l ++ [t]). simpl. rewrite lookup_insert_eq. split; [done|]. set_solver.
      * rewrite lookup_insert_ne by done. intros Ht' Hr' Hx.
        destruct (Hco t' th0 Ht' Hr' Hx) as [|(l0 & Hl0 & Hin)]; [by left|right].
        assert (lists s1 !! LReady (th_current_priority th0) = Some (remove_elem t l0)) as Hl1
          by (by rewrite Hls1, lists_remove_lookup, Hl0).
        assert (t' ∈ remove_elem t l0) as Hin1 by (by apply elem_of_remove_elem).
        destruct (decide (current s = Some t)); [by eexists|]. rewrite lookup_insert.
        destruct (decide (LReady (th_current_priority th') = LReady (th_current_priority th0))) as [E|]; [|by eexists].
        rewrite E in Hl2. rewrite Hl2 in Hl1. injection Hl1 as ->.
        eexists. split; [done|]. apply elem_of_app. by left.
    + intros c. rewrite Hcu2. intros Hcc. destruct (Hcur c Hcc) as [He Hoff]. split.
      * rewrite Hths2, lookup_insert. destruct (decide (t = c)); [by eexists|exact He].
      * intros p m. rewrite Hls2.
        assert (forall q m', lists s1 !! LReady q = Some m' -> c ∉ m') as Hoff1.
        { intros q m'. rewrite Hls1, lists_remove_lookup. intros (m0 & Hm0 & ->)%fmap_Some.
          rewrite elem_of_remove_elem. intros [_ Hin]. by apply (Hoff _ _ Hm0). }
        destruct (decide (current s = Some t)) as [|Hct]; [apply Hoff1|]. rewrite lookup_insert.
        destruct (decide (LReady (th_current_priority th') = LReady p)); [|apply Hoff1].
        intros [= <-]. rewrite elem_of_app, list_elem_of_singleton.
        intros [Hin| ->]; [by apply (Hoff1 _ l Hl2)|congruence].
  - intros h Hh. rewrite Hls2. destruct (decide (current s = Some t)); [by apply Hother|].
    rewrite lookup_insert_ne by auto. by apply Hother.
  - congruence.
  - congruence.
Qed.

(** Changing the priority of a thread that is not ready. *)
Lemma wf_put_not_ready s t th th' :
  sched_wf s -> threads s !! t = Some th -> ~ is_ready th -> stat_of th' = stat_of th -> prio_ok th' ->
  _rt_scheduler_stack_check th' = _rt_scheduler_stack_check th -> sched_wf (put_thread t th' s).
Proof.
  intros [Hc Hco Hcur] Ht Hnr Hst Hpo Hsk. split.
  - apply (core_put_thread _ _ _ th); try done.
    + intros h l Hl Hin. destruct (c_linked _ _ Hc _ _ _ Hl Hin) as (th0 & Ht0 & Hs0 & _).
      rewrite Ht in Ht0. injection Ht0 as <-. split; [by rewrite Hst|]. intros p ->.
      destruct Hnr. apply Hs0. set_solver.
    + rewrite Hsk. by apply (c_stack _ _ Hc t).
  - intros t' th0. simpl. rewrite lookup_insert. destruct (decide (t = t')); [|apply Hco].
    intros [= <-] Hr. unfold is_ready in *. by rewrite Hst in Hr.
  - intros c Hcc. destruct (Hcur c Hcc) as [He Hoff]. split; [|done]. simpl.
    rewrite lookup_insert. destruct (decide (t = c)); [by eexists|exact He].
Qed.
