(* ===== verification/Timer.v ===== *)
(** * Kernel timers (rt-thread/src/timer.c) and the tick counter (clock.c)

    The hard-timer list with its wrap-around ordering. The build has
    [RT_TIMER_SKIP_LIST_LEVEL] = 1 and no soft timers, so [rt_timer_list] has
    one row and the skip-list loops run once or not at all. *)

From S2P Require Import Prelude Sched.

(** ** Constants and data *)
Definition RT_TICK_MAX : Z := 4294967295.
Definition RT_TIMER_FLAG_ACTIVATED : Z := 1.
Definition RT_TIMER_FLAG_PERIODIC : Z := 2.
Definition RT_Object_Class_Timer : Z := 10.

(** A timer object: the one inside a thread object, or one of its own. *)
Inductive timer_ptr := TThread (t : tid) | TObj (n : nat).

#[export] Instance timer_ptr_eq_dec : EqDecision timer_ptr.
Proof. solve_decision. Defined.
#[export] Instance timer_ptr_countable : Countable timer_ptr.
Proof.
  refine (inj_countable' (fun p => match p with TThread t => inl t | TObj n => inr n end)
    (fun c => match c with inl t => TThread t | inr n => TObj n end) _). by intros [].
Defined.

(** The timeout callbacks: [rt_thread_timeout] on a thread, or a function of
    the application, by number. *)
Inductive timer_fn := FnThreadTimeout (t : tid) | FnUser (f : nat).

Record rt_timer := Timer {
  tm_flag : Z;                  (* parent.flag *)
  tm_func : timer_fn;           (* timeout_func and parameter *)
  tm_init_tick : Z;
  tm_timeout_tick : Z;
  tm_type : Z;                  (* parent.type; 0 when detached *)
}.

Definition tm_set_flag x tm := Timer x (tm_func tm) (tm_init_tick tm) (tm_timeout_tick tm) (tm_type tm).
Definition tm_set_init x tm := Timer (tm_flag tm) (tm_func tm) x (tm_timeout_tick tm) (tm_type tm).
Definition tm_set_timeout x tm := Timer (tm_flag tm) (tm_func tm) (tm_init_tick tm) x (tm_type tm).
Definition tm_set_type x tm := Timer (tm_flag tm) (tm_func tm) (tm_init_tick tm) (tm_timeout_tick tm) x.

Record timebase := TimeBase {
  rt_tick : Z;
  timers : gmap timer_ptr rt_timer;
  timer_list : list timer_ptr;        (* rt_timer_list[0] *)
  random_nr : Z;                      (* static in rt_timer_start *)
}.

Definition set_tick x tb := TimeBase x (timers tb) (timer_list tb) (random_nr tb).
Definition set_timers x tb := TimeBase (rt_tick tb) x (timer_list tb) (random_nr tb).
Definition set_timer_list x tb := TimeBase (rt_tick tb) (timers tb) x (random_nr tb).
Definition set_random x tb := TimeBase (rt_tick tb) (timers tb) (timer_list tb) x.

Definition upd_timer (p : timer_ptr) (f : rt_timer -> rt_timer) (tb : timebase) : option timebase :=
  tm ← timers tb !! p; Some (set_timers (<[p := f tm]> (timers tb)) tb).

(** ** Operations *)

Definition rt_tick_get (tb : timebase) : Z := rt_tick tb.
Definition rt_tick_set (x : Z) (tb : timebase) : timebase := set_tick (u32 x) tb.

Definition rt_system_timer_init (tb : timebase) : timebase := set_timer_list [] tb.

Definition clear_active (flag : Z) : Z := Z.land flag (Z.lnot RT_TIMER_FLAG_ACTIVATED).

(** [type] is what the object layer has put in [parent.type]. The [timeout_tick]
    of a fresh object is 0. *)
Definition _rt_timer_init (p : timer_ptr) (f : timer_fn) (time flag type : Z) (tb : timebase) : timebase :=
  set_timers (<[p := Timer (clear_active flag) f time 0 type]> (timers tb)) tb.

Definition rt_timer_list_next_timeout (tb : timebase) : option Z :=
  match timer_list tb with
  | [] => Some RT_TICK_MAX
  | p :: _ => tm ← timers tb !! p; Some (tm_timeout_tick tm)
  end.
Definition rt_timer_next_timeout_tick (tb : timebase) : option Z := rt_timer_list_next_timeout tb.

Definition _rt_timer_remove (p : timer_ptr) (tb : timebase) : timebase :=
  set_timer_list (remove_elem p (timer_list tb)) tb.

Definition rt_timer_init (p : timer_ptr) (f : timer_fn) (time flag : Z) (tb : timebase) : timebase :=
  _rt_timer_init p f time flag (Z.lor RT_Object_Class_Timer RT_Object_Class_Static) tb.

(** [rt_object_detach] resets the type; the object's memory stays. The
    ACTIVATED flag is not cleared. *)
Definition rt_timer_detach (p : timer_ptr) (tb : timebase) : option timebase :=
  upd_timer p (tm_set_type RT_Object_Class_Null) (_rt_timer_remove p tb).

(** [addr] is the object the allocator returns, if it returns one. *)
Definition rt_timer_create (addr : option nat) (f : timer_fn) (time flag : Z) (tb : timebase)
    : timebase * option timer_ptr :=
  match addr with
  | None => (tb, None)
  | Some n => (_rt_timer_init (TObj n) f time flag RT_Object_Class_Timer tb, Some (TObj n))
  end.

(** [rt_object_delete] frees the object. *)
Definition rt_timer_delete (p : timer_ptr) (tb : timebase) : option timebase :=
  let tb := _rt_timer_remove p tb in
  _ ← timers tb !! p;
  Some (set_timers (delete p (timers tb)) tb).

(** The walk of [rt_timer_start]: the new timer goes after every timer that
    does not expire strictly later. *)
Fixpoint timer_insert (tms : gmap timer_ptr rt_timer) (to : Z) (p : timer_ptr)
    (l : list timer_ptr) : option (list timer_ptr) :=
  match l with
  | [] => Some [p]
  | q :: l' =>
      t ← tms !! q;
      if u32 (tm_timeout_tick t - to) =? 0 then r ← timer_insert tms to p l'; Some (q :: r)
      else if u32 (tm_timeout_tick t - to) <? RT_TICK_MAX / 2 then Some (p :: q :: l')
      else r ← timer_insert tms to p l'; Some (q :: r)
  end.

Definition rt_timer_start (p : timer_ptr) (tb : timebase) : option timebase :=
  let tb := _rt_timer_remove p tb in
  tb ← upd_timer p (fun tm => tm_set_flag (clear_active (tm_flag tm)) tm) tb;
  tb ← upd_timer p (fun tm => tm_set_timeout (u32 (rt_tick_get tb + tm_init_tick tm)) tm) tb;
  tm ← timers tb !! p;
  l ← timer_insert (timers tb) (tm_timeout_tick tm) p (timer_list tb);
  let tb := set_random (u32 (random_nr tb + 1)) (set_timer_list l tb) in
  upd_timer p (fun tm => tm_set_flag (Z.lor (tm_flag tm) RT_TIMER_FLAG_ACTIVATED) tm) tb.

Definition rt_timer_stop (p : timer_ptr) (tb : timebase) : option (timebase * Z) :=
  tm ← timers tb !! p;
  if Z.land (tm_flag tm) RT_TIMER_FLAG_ACTIVATED =? 0 then Some (tb, -1)
  else
    let tb := _rt_timer_remove p tb in
    tb ← upd_timer p (fun tm => tm_set_flag (clear_active (tm_flag tm)) tm) tb;
    Some (tb, 0).

Inductive timer_cmd :=
| TimerGetTime | TimerSetTime (x : Z) | TimerSetOneshot | TimerSetPeriodic | TimerOther.

(** The second component is what [GET_TIME] stores through [arg]. *)
Definition rt_timer_control (p : timer_ptr) (cmd : timer_cmd) (tb : timebase)
    : option (timebase * option Z) :=
  tm ← timers tb !! p;
  match cmd with
  | TimerGetTime => Some (tb, Some (tm_init_tick tm))
  | TimerSetTime x => tb ← upd_timer p (tm_set_init (u32 x)) tb; Some (tb, None)
  | TimerSetOneshot =>
      tb ← upd_timer p (fun tm => tm_set_flag (Z.land (tm_flag tm) (Z.lnot RT_TIMER_FLAG_PERIODIC)) tm) tb;
      Some (tb, None)
  | TimerSetPeriodic =>
      tb ← upd_timer p (fun tm => tm_set_flag (Z.lor (tm_flag tm) RT_TIMER_FLAG_PERIODIC) tm) tb;
      Some (tb, None)
  | TimerOther => Some (tb, None)
  end.

(** The loop test of [rt_timer_check]: the first timer, when it is due. *)
Definition timer_due (now : Z) (tb : timebase) : option (option timer_ptr) :=
  match timer_list tb with
  | [] => Some None
  | p :: _ =>
      t ← timers tb !! p;
      if u32 (now - tm_timeout_tick t) <? RT_TICK_MAX / 2 then Some (Some p) else Some None
  end.

(** What follows the callback in the loop body. *)
Definition timer_rearm (p : timer_ptr) (tb : timebase) : option timebase :=
  t ← timers tb !! p;
  if negb (Z.land (tm_flag t) RT_TIMER_FLAG_PERIODIC =? 0) &&
     negb (Z.land (tm_flag t) RT_TIMER_FLAG_ACTIVATED =? 0)
  then
    tb ← upd_timer p (fun tm => tm_set_flag (clear_active (tm_flag tm)) tm) tb;
    rt_timer_start p tb
  else upd_timer p (fun tm => tm_set_flag (clear_active (tm_flag tm)) tm) tb.

(** The loop of [rt_timer_check] in a world [W] that the callbacks act on; a
    callback may also act on the timers. [fuel] bounds the number of timers
    fired. *)
Section Check.
Context {W : Type} (call : timer_fn -> W -> timebase -> option (W * timebase)).

Fixpoint timer_check_loop (fuel : nat) (now : Z) (w : W) (tb : timebase) : option (W * timebase) :=
    match fuel with
    | O => None
    | S fuel =>
        due ← timer_due now tb;
        match due with
        | None => Some (w, tb)
        | Some p =>
            let tb := _rt_timer_remove p tb in
            t ← timers tb !! p;
            '(w, tb) ← call (tm_func t) w tb;
            let now := rt_tick_get tb in
            tb ← timer_rearm p tb;
            timer_check_loop fuel now w tb
        end
    end.

Definition rt_timer_check (fuel : nat) (w : W) (tb : timebase) : option (W * timebase) :=
    timer_check_loop fuel (rt_tick_get tb) w tb.
End Check.

(** clock.c: [int tick = (RT_TICK_PER_SECOND * ms + 999) / 1000] in 32-bit
    arithmetic, with truncating division. *)
Definition RT_TICK_PER_SECOND : Z := 100.
Definition rt_tick_from_millisecond (ms : Z) : Z :=
  if ms <? 0 then -1 else Z.quot (s32 (s32 (RT_TICK_PER_SECOND * ms) + 999)) 1000.

(** ** Well-formed timer lists *)

(** Ticks left before a timeout, negative when it is past: the wrap-around
    distance from the current tick. *)
Definition ticks_left (tb : timebase) (x : Z) : Z := s32 (x - rt_tick tb).
Definition timer_left (tb : timebase) (p : timer_ptr) : Z :=
  match timers tb !! p with Some tm => ticks_left tb (tm_timeout_tick tm) | None => 0 end.

Definition is_active (tm : rt_timer) : bool :=
  negb (Z.land (tm_flag tm) RT_TIMER_FLAG_ACTIVATED =? 0).

(** The longest delay the wrap-around comparison supports. *)
Definition max_delay : Z := 2147483646.

(** A timer list whose timers all have at least [lo] ticks left; outside [X], an
    attached timer with the ACTIVATED flag is on the list. *)
Record timers_but (X : gset timer_ptr) (lo : Z) (tb : timebase) : Prop := {
  tw_tick : is_u32 (rt_tick tb);
  tw_nodup : NoDup (timer_list tb);
  tw_listed : forall p, p ∈ timer_list tb ->
    exists tm, timers tb !! p = Some tm /\ is_active tm = true /\ is_u32 (tm_timeout_tick tm) /\
      lo <= ticks_left tb (tm_timeout_tick tm) <= max_delay;
  tw_active : forall p tm, timers tb !! p = Some tm -> p ∉ X ->
    tm_type tm <> RT_Object_Class_Null -> is_active tm = true -> p ∈ timer_list tb;
  tw_sorted : StronglySorted (fun p q => timer_left tb p <= timer_left tb q) (timer_list tb);
}.
Abbreviation timers_from := (timers_but ∅).
Abbreviation timers_wf := (timers_from 0).

Create HintDb timer.

Lemma timer_left_eq tb p tm :
  timers tb !! p = Some tm -> timer_left tb p = ticks_left tb (tm_timeout_tick tm).
Proof. unfold timer_left. by intros ->. Qed.

Lemma s32_range x : -2147483648 <= s32 x < 2147483648.
Proof. unfold s32. destruct (Z.ltb_spec (x mod 4294967296) 2147483648); dlia. Qed.
Lemma s32_u32 x : u32 (s32 x) = u32 x.
Proof. unfold s32, u32. destruct (Z.ltb_spec (x mod 4294967296) 2147483648); dlia. Qed.
Lemma s32_cong x y : u32 x = u32 y -> s32 x = s32 y.
Proof. unfold s32, u32. by intros ->. Qed.

(** The comparison of the walk decides the order of the remaining times. *)
Lemma timeout_diff tb x y :
  u32 (x - y) = u32 (ticks_left tb x - ticks_left tb y).
Proof.
  unfold ticks_left. pose proof (s32_u32 (x - rt_tick tb)). pose proof (s32_u32 (y - rt_tick tb)).
  unfold u32 in *. dlia.
Qed.

Lemma timeout_eq tb x y :
  (u32 (x - y) =? 0) = (ticks_left tb x =? ticks_left tb y).
Proof.
  rewrite (timeout_diff tb). unfold ticks_left.
  pose proof (s32_range (x - rt_tick tb)). pose proof (s32_range (y - rt_tick tb)).
  apply eq_true_iff_eq. rewrite !Z.eqb_eq. unfold u32. dlia.
Qed.

Lemma timeout_lt tb x y :
  -1 <= ticks_left tb x <= max_delay -> 0 <= ticks_left tb y <= max_delay ->
  ticks_left tb x <> ticks_left tb y ->
  (u32 (x - y) <? RT_TICK_MAX / 2) = (ticks_left tb y <? ticks_left tb x).
Proof.
  intros Hx Hy Hne. rewrite (timeout_diff tb). change (RT_TICK_MAX / 2) with 2147483647.
  unfold max_delay in *. apply eq_true_iff_eq. rewrite !Z.ltb_lt. unfold u32. dlia.
Qed.

(** A timer is due exactly when no tick is left. *)
Lemma due_iff tb x :
  -1 <= ticks_left tb x <= max_delay ->
  (u32 (rt_tick tb - x) <? RT_TICK_MAX / 2) = (ticks_left tb x <=? 0).
Proof.
  intros Hx. change (RT_TICK_MAX / 2) with 2147483647. unfold max_delay in *.
  apply eq_true_iff_eq. rewrite Z.ltb_lt, Z.leb_le.
  pose proof (s32_u32 (x - rt_tick tb)) as E. fold (ticks_left tb x) in E. unfold u32 in *. dlia.
Qed.

Lemma timer_insert_spec tb to p l :
  (forall q, q ∈ l -> exists tm, timers tb !! q = Some tm /\
     -1 <= ticks_left tb (tm_timeout_tick tm) <= max_delay) ->
  0 <= ticks_left tb to <= max_delay ->
  StronglySorted (fun p q => timer_left tb p <= timer_left tb q) l ->
  exists l1 l2, timer_insert (timers tb) to p l = Some (l1 ++ p :: l2) /\ l = l1 ++ l2 /\
    Forall (fun q => timer_left tb q <= ticks_left tb to) l1 /\
    Forall (fun q => ticks_left tb to < timer_left tb q) l2.
Proof.
  intros Hl Hto Hs. induction l as [|q l IH]; simpl.
  { exists [], []. done. }
  destruct (Hl q) as (tm & Hq & Hqr); [by left|]. rewrite Hq. simpl.
  apply StronglySorted_inv in Hs as [Hs Hall].
  destruct IH as (l1 & l2 & Hi & -> & H1 & H2); [intros; apply Hl; by right|done|].
  rewrite (timeout_eq tb).
  destruct (Z.eqb_spec (ticks_left tb (tm_timeout_tick tm)) (ticks_left tb to)) as [He|He].
  - rewrite Hi. simpl. exists (q :: l1), l2. splits; try done.
    constructor; [rewrite (timer_left_eq _ _ _ Hq); lia|done].
  - rewrite (timeout_lt tb) by done. destruct (Z.ltb_spec (ticks_left tb to) (ticks_left tb (tm_timeout_tick tm))).
    + exists [], (q :: l1 ++ l2). splits; try done. constructor.
      * by rewrite (timer_left_eq _ _ _ Hq).
      * eapply Forall_impl; [exact Hall|]. intros r Hr. simpl in Hr.
        rewrite (timer_left_eq _ _ _ Hq) in Hr. lia.
    + rewrite Hi. simpl. exists (q :: l1), l2. splits; try done.
      constructor; [rewrite (timer_left_eq _ _ _ Hq); lia|done].
Qed.

(** Flags: activation is one bit, independent of the others. *)
Lemma active_cleared f tm : is_active (tm_set_flag (clear_active f) tm) = false.
Proof.
  unfold is_active, clear_active, RT_TIMER_FLAG_ACTIVATED. simpl.
  by rewrite <-Z.land_assoc, Z.land_comm, (Z.land_comm (Z.lnot 1)), Z.land_lnot_diag, Z.land_0_l.
Qed.

Lemma active_set f tm : is_active (tm_set_flag (Z.lor f RT_TIMER_FLAG_ACTIVATED) tm) = true.
Proof.
  unfold is_active, RT_TIMER_FLAG_ACTIVATED. simpl. apply negb_true_iff, Z.eqb_neq.
  intros E. assert (Z.testbit (Z.land (Z.lor f 1) 1) 0 = false) as Hb by (rewrite E; apply Z.bits_0).
  rewrite Z.land_spec, Z.lor_spec in Hb. simpl in Hb. by rewrite orb_true_r in Hb.
Qed.

Lemma timer_remove_sorted X lo tb p :
  timers_but X lo tb ->
  StronglySorted (fun p q => timer_left tb p <= timer_left tb q) (remove_elem p (timer_list tb)).
Proof. intros Hw. apply StronglySorted_filter, Hw. Qed.

(** Replacing the object of [p] and putting [l] in place of the list, when the
    other timers keep their objects. *)
Lemma timers_but_update X Y lo tb p tm' l r :
  timers_but X lo tb ->
  NoDup l ->
  (forall q, q ∈ l -> q <> p -> q ∈ timer_list tb) ->
  (forall q, q <> p -> q ∈ timer_list tb -> q ∈ l) ->
  (p ∈ l -> is_active tm' = true) ->
  (p ∉ Y -> tm_type tm' <> RT_Object_Class_Null -> is_active tm' = true -> p ∈ l) ->
  X ⊆ Y ∪ {[p]} ->
  (p ∈ l -> is_u32 (tm_timeout_tick tm') /\ lo <= ticks_left tb (tm_timeout_tick tm') <= max_delay) ->
  StronglySorted (fun a b => timer_left (set_timers (<[p := tm']> (timers tb)) tb) a <=
                             timer_left (set_timers (<[p := tm']> (timers tb)) tb) b) l ->
  timers_but Y lo (TimeBase (rt_tick tb) (<[p := tm']> (timers tb)) l r).
Proof.
  intros Hw Hnd Hsub Hsup Hact Hact' HXY Hp Hs. split; simpl; try done.
  - apply Hw.
  - intros q Hq. destruct (decide (q = p)) as [->|Hne].
    + exists tm'. rewrite lookup_insert_eq. destruct (Hp Hq). auto.
    + rewrite lookup_insert_ne by done. by apply (tw_listed _ _ _ Hw), Hsub.
  - intros q tm. rewrite lookup_insert. destruct (decide (p = q)) as [<-|Hq].
    + intros [= <-]. auto.
    + intros Hl HqX Hty Ha. apply Hsup; [done|]. apply (tw_active _ _ _ Hw q tm); try done. set_solver.
Qed.

(** The timer object [rt_timer_start] leaves. *)
Definition tm_started (now : Z) (tm : rt_timer) : rt_timer :=
  Timer (Z.lor (clear_active (tm_flag tm)) RT_TIMER_FLAG_ACTIVATED) (tm_func tm)
    (tm_init_tick tm) (u32 (now + tm_init_tick tm)) (tm_type tm).

Lemma rt_timer_start_spec X lo tb p tm :
  -1 <= lo <= tm_init_tick tm -> timers_but X lo tb -> timers tb !! p = Some tm ->
  0 <= tm_init_tick tm <= max_delay ->
  exists tb' l1 l2, rt_timer_start p tb = Some tb' /\ timers_but (X ∖ {[p]}) lo tb' /\
    rt_tick tb' = rt_tick tb /\ timers tb' = <[p := tm_started (rt_tick tb) tm]> (timers tb) /\
    timer_list tb' = l1 ++ p :: l2 /\ remove_elem p (timer_list tb) = l1 ++ l2 /\
    Forall (fun q => timer_left tb q <= tm_init_tick tm) l1 /\
    Forall (fun q => tm_init_tick tm < timer_left tb q) l2.
Proof.
  intros Hlo Hw Hp Hi. unfold rt_timer_start, upd_timer. simpl. rewrite Hp. simpl.
  rewrite lookup_insert_eq. simpl. rewrite lookup_insert_eq. simpl. rewrite !insert_insert_eq.
  unfold rt_tick_get. simpl. set (to := u32 (rt_tick tb + tm_init_tick tm)).
  assert (ticks_left tb to = tm_init_tick tm) as Hto.
  { unfold ticks_left, to. unfold max_delay in *.
    rewrite (s32_cong _ (tm_init_tick tm)) by (unfold u32; dlia). apply s32_small. lia. }
  set (tm1 := tm_set_timeout to (tm_set_flag (clear_active (tm_flag tm)) tm)).
  set (tb1 := set_timers (<[p := tm1]> (timers tb)) tb).
  assert (forall q, q ∈ remove_elem p (timer_list tb) -> q <> p /\ q ∈ timer_list tb) as Hrm
    by (intros q; by rewrite elem_of_remove_elem).
  destruct (timer_insert_spec tb1 to p (remove_elem p (timer_list tb))) as (l1 & l2 & Hins & Hl & H1 & H2).
  { intros q [Hne Hin]%Hrm. destruct (tw_listed _ _ _ Hw q Hin) as (tq & Hq & _ & _ & Hr).
    exists tq. simpl. rewrite lookup_insert_ne by done. split; [done|].
    unfold ticks_left in *. simpl. lia. }
  { change (ticks_left tb1 to) with (ticks_left tb to). lia. }
  { eapply StronglySorted_ext; [|by eapply timer_remove_sorted].
    intros a b [Ha _]%Hrm [Hb _]%Hrm. unfold timer_left, tb1. simpl.
    rewrite !lookup_insert_ne by done. done. }
  change (timers tb1) with (<[p := tm1]> (timers tb)) in Hins. rewrite Hins. simpl.
  assert (forall q, q ∈ l1 ++ l2 -> timer_left tb1 q = timer_left tb q) as Hsame.
  { intros q Hq. rewrite <-Hl in Hq. apply Hrm in Hq as [Hne _].
    unfold timer_left, tb1. simpl. by rewrite lookup_insert_ne. }
  assert (NoDup (l1 ++ p :: l2)) as Hnd.
  { rewrite <-Permutation_middle, <-Hl. apply NoDup_cons. split; [auto with lists|].
    apply NoDup_remove_elem, Hw. }
  change (ticks_left tb1 to) with (ticks_left tb to) in H1, H2. rewrite Hto in H1, H2.
  assert (forall q, q ∈ l1 ++ l2 -> q <> p) as Hnp by (intros q; rewrite <-Hl; by intros []%Hrm).
  assert (forall q, q ∈ l1 -> timer_left tb q <= tm_init_tick tm) as H1'.
  { rewrite Forall_forall in H1. intros q Hq. rewrite <-Hsame by (rewrite elem_of_app; tauto). by apply H1. }
  assert (forall q, q ∈ l2 -> tm_init_tick tm < timer_left tb q) as H2'.
  { rewrite Forall_forall in H2. intros q Hq. rewrite <-Hsame by (rewrite elem_of_app; tauto). by apply H2. }
  clear H1 H2. eexists _, l1, l2. splits; try done.
  - unfold set_timers, set_random, set_timer_list. simpl.
    assert (forall tm' q, q ∈ l1 ++ l2 ->
      timer_left (set_timers (<[p := tm']> (timers tb)) tb) q = timer_left tb q) as Hs'.
    { intros tm' q Hq. unfold timer_left. simpl. rewrite lookup_insert_ne; [done|].
      intros ->. by apply (Hnp q). }
    apply (timers_but_update X); try done.
    + intros q Hq Hne. apply Hrm. rewrite Hl. rewrite elem_of_app, elem_of_cons in *. tauto.
    + intros q Hne Hq. assert (q ∈ l1 ++ l2) as Hq'; [|rewrite elem_of_app, elem_of_cons in *; tauto]. rewrite <-Hl. by apply elem_of_remove_elem.
    + intros _. apply active_set.
    + intros _ _ _. rewrite elem_of_app, elem_of_cons. tauto.
    + intros q Hq. destruct (decide (q = p)); set_solver.
    + intros _. split; [apply u32_range|]. change (tm_timeout_tick _) with to. lia.
    + assert (forall tm', tm_timeout_tick tm' = to ->
        timer_left (set_timers (<[p := tm']> (timers tb)) tb) p = tm_init_tick tm) as Hpl.
      { intros tm' E. unfold timer_left. simpl. rewrite lookup_insert_eq, E. exact Hto. }
      apply StronglySorted_insert.
      * rewrite <-Hl. eapply StronglySorted_ext; [|by eapply timer_remove_sorted].
        intros a b Ha Hb. rewrite !Hs'; [done|by rewrite <-Hl..].
      * apply Forall_forall. intros q Hq. rewrite (Hs' _ q) by (rewrite elem_of_app; tauto). rewrite Hpl by done. auto.
      * apply Forall_forall. intros q Hq. rewrite (Hs' _ q) by (rewrite elem_of_app; tauto). rewrite Hpl by done. apply Z.lt_le_incl. auto.
  - by apply Forall_forall.
  - by apply Forall_forall.
Qed.

(** Taking [p] off the list while giving it the object [tm']. *)
Lemma timers_but_unlist X Y lo tb p tm' r :
  timers_but X lo tb -> X ⊆ Y ∪ {[p]} ->
  (p ∉ Y -> tm_type tm' <> RT_Object_Class_Null -> is_active tm' = false) ->
  timers_but Y lo (TimeBase (rt_tick tb) (<[p := tm']> (timers tb)) (remove_elem p (timer_list tb)) r).
Proof.
  intros Hw HXY Hact. apply (timers_but_update X); try done.
  - apply NoDup_remove_elem, Hw.
  - intros q Hq _. apply elem_of_remove_elem in Hq. tauto.
  - intros q Hne Hq. by apply elem_of_remove_elem.
  - by intros []%elem_of_remove_elem.
  - intros HY Hty Ha. by rewrite Hact in Ha.
  - by intros []%elem_of_remove_elem.
  - eapply StronglySorted_ext; [|by eapply timer_remove_sorted].
    intros a b [Ha _]%elem_of_remove_elem [Hb _]%elem_of_remove_elem.
    unfold timer_left. simpl. by rewrite !lookup_insert_ne.
Qed.

(** Changing fields of [p] the list does not depend on. *)
Lemma timers_but_set X lo tb p tm tm' :
  timers_but X lo tb -> timers tb !! p = Some tm ->
  is_active tm' = is_active tm -> tm_timeout_tick tm' = tm_timeout_tick tm -> tm_type tm' = tm_type tm ->
  timers_but X lo (set_timers (<[p := tm']> (timers tb)) tb).
Proof.
  intros Hw Hp Ha Ht Hty. split; simpl; try apply Hw.
  - intros q Hq. destruct (tw_listed _ _ _ Hw q Hq) as (tq & Hq1 & Hq2).
    destruct (decide (p = q)) as [<-|Hne]; [|exists tq; by rewrite lookup_insert_ne].
    simplify_eq. exists tm'. rewrite lookup_insert_eq, Ha, Ht. done.
  - intros q tq. rewrite lookup_insert. destruct (decide (p = q)) as [<-|Hne]; [|apply Hw].
    intros [= <-]. rewrite Ha, Hty. by apply Hw.
  - eapply StronglySorted_ext; [|apply (tw_sorted _ _ _ Hw)].
    assert (forall a, timer_left (set_timers (<[p:=tm']> (timers tb)) tb) a = timer_left tb a) as E.
    { intros a. unfold timer_left. simpl. rewrite lookup_insert.
      destruct (decide (p = a)) as [<-|]; [|done]. by rewrite Hp, Ht. }
    intros a b _ _. by rewrite !E.
Qed.

Lemma timers_but_inactive X lo tb p tm :
  timers_but X lo tb -> timers tb !! p = Some tm -> is_active tm = false -> p ∉ timer_list tb.
Proof.
  intros Hw Hp Ha Hin. destruct (tw_listed _ _ _ Hw p Hin) as (tm1 & Hp1 & Ha1 & _). congruence.
Qed.

Definition tm_deactivate (tm : rt_timer) : rt_timer := tm_set_flag (clear_active (tm_flag tm)) tm.

Lemma clear_active_inactive tm : is_active tm = false -> tm_deactivate tm = tm.
Proof.
  unfold is_active, tm_deactivate, clear_active, RT_TIMER_FLAG_ACTIVATED. intros E%negb_false_iff%Z.eqb_eq.
  destruct tm as [f fn i t ty]; simpl in *. unfold tm_set_flag. simpl. f_equal.
  apply Z.bits_inj'. intros n Hn. rewrite Z.land_spec, Z.lnot_spec by done.
  assert (Z.testbit (Z.land f 1) n = false) as Hb by (rewrite E; apply Z.bits_0).
  rewrite Z.land_spec in Hb. by destruct (Z.testbit f n), (Z.testbit 1 n).
Qed.

(** Stopping an attached timer: it is off the list and inactive; the result is
    [RT_EOK] exactly when it was active. *)
Lemma rt_timer_stop_spec X lo tb p tm :
  timers_but X lo tb -> timers tb !! p = Some tm ->
  exists tb', rt_timer_stop p tb = Some (tb', if is_active tm then 0 else -1) /\
    timers_but (X ∖ {[p]}) lo tb' /\
    timers tb' = <[p := tm_deactivate tm]> (timers tb) /\
    timer_list tb' = remove_elem p (timer_list tb) /\ rt_tick tb' = rt_tick tb.
Proof.
  intros Hw Hp. unfold rt_timer_stop. rewrite Hp. simpl. unfold is_active.
  destruct (Z.eqb_spec (Z.land (tm_flag tm) RT_TIMER_FLAG_ACTIVATED) 0) as [E|E]; simpl.
  - assert (is_active tm = false) as Hia by (unfold is_active; by rewrite E).
    exists tb. splits; try done.
    + split; try apply Hw. intros q tq Hq HX Hty Ha. apply (tw_active _ _ _ Hw q tq Hq); try done.
      intros HqX. apply HX. apply elem_of_difference. split; [done|].
      intros ->%elem_of_singleton. congruence.
    + rewrite clear_active_inactive by done. by rewrite insert_id.
    + rewrite remove_elem_notin; [done|]. by eapply timers_but_inactive.
  - unfold upd_timer. simpl. rewrite Hp. simpl. eexists. splits; try done.
    unfold set_timers, _rt_timer_remove, set_timer_list. simpl.
    apply (timers_but_unlist X); [done| |].
    + intros q Hq. destruct (decide (q = p)); set_solver.
    + intros _ _. apply active_cleared.
Qed.

(** ** Expiry *)

Definition is_periodic (tm : rt_timer) : bool :=
  negb (Z.land (tm_flag tm) RT_TIMER_FLAG_PERIODIC =? 0).

(** The timers that [rt_timer_check] finds due, in list order. *)
Definition due_list (tb : timebase) : list timer_ptr :=
  filter (fun p => timer_left tb p <= 0) (timer_list tb).

(** What firing leaves of a due timer, and of the others. *)
Definition fired (tb tb' : timebase) (p : timer_ptr) : Prop :=
  exists tm tm', timers tb !! p = Some tm /\ timers tb' !! p = Some tm' /\
    if is_periodic tm
    then is_active tm' = true /\ p ∈ timer_list tb' /\
         tm_timeout_tick tm' = u32 (rt_tick tb + tm_init_tick tm)
    else tm' = tm_deactivate tm /\ p ∉ timer_list tb'.
Definition untouched (tb tb' : timebase) (p : timer_ptr) : Prop :=
  timers tb' !! p = timers tb !! p /\ (p ∈ timer_list tb' <-> p ∈ timer_list tb).

(** Restarting a timer of period 0 from its own expiry makes it due at once. *)
Definition periods_ok (tb : timebase) : Prop :=
  forall p tm, p ∈ timer_list tb -> timers tb !! p = Some tm -> is_periodic tm = true ->
    1 <= tm_init_tick tm <= max_delay.

Lemma periodic_deactivate tm : is_periodic (tm_deactivate tm) = is_periodic tm.
Proof.
  unfold is_periodic, tm_deactivate, clear_active, RT_TIMER_FLAG_PERIODIC, RT_TIMER_FLAG_ACTIVATED.
  simpl. rewrite <-Z.land_assoc. done.
Qed.

Lemma timer_unlink_spec lo tb p tm l :
  timers_from lo tb -> timer_list tb = p :: l -> timers tb !! p = Some tm ->
  timers_but {[p]} lo (_rt_timer_remove p tb) /\ timer_list (_rt_timer_remove p tb) = l.
Proof.
  intros Hw Hl Hp. pose proof (tw_nodup _ _ _ Hw) as Hnd. rewrite Hl in Hnd.
  apply NoDup_cons in Hnd as [Hpl _]. split.
  - unfold _rt_timer_remove, set_timer_list. rewrite <-(insert_id _ _ _ Hp).
    apply (timers_but_unlist ∅); [done|set_solver|]. intros []. set_solver.
  - unfold _rt_timer_remove. simpl. rewrite Hl. by apply remove_elem_cons_eq.
Qed.

Lemma periodic_started now tm : is_periodic (tm_started now tm) = is_periodic tm.
Proof.
  unfold is_periodic, tm_started, clear_active, RT_TIMER_FLAG_PERIODIC, RT_TIMER_FLAG_ACTIVATED. simpl.
  rewrite Z.land_lor_distr_l, <-Z.land_assoc. simpl. by rewrite Z.lor_0_r.
Qed.

Lemma active_started now tm : is_active (tm_started now tm) = true.
Proof. apply (active_set _ tm). Qed.

Lemma ticks_left_after now tb d :
  rt_tick tb = now -> 0 <= d <= max_delay -> ticks_left tb (u32 (now + d)) = d.
Proof.
  unfold ticks_left, max_delay. intros <- Hd.
  rewrite (s32_cong _ d) by (unfold u32; dlia). apply s32_small. lia.
Qed.

Lemma due_filter_ext tb1 tb2 (l : list timer_ptr) :
  (forall q, q ∈ l -> timer_left tb1 q = timer_left tb2 q) ->
  filter (fun q => timer_left tb1 q <= 0) l = filter (fun q => timer_left tb2 q <= 0) l.
Proof.
  induction l as [|q l IH]; [done|]. intros Hq. rewrite !filter_cons, Hq by (by left).
  rewrite IH by (intros; apply Hq; by right). done.
Qed.

(** The part of the loop body after a callback that left the timer alone. *)
Lemma timer_rearm_spec lo tb p tm :
  -1 <= lo <= 0 -> timers_but {[p]} lo tb -> p ∉ timer_list tb -> timers tb !! p = Some tm ->
  is_active tm = true -> (is_periodic tm = true -> 1 <= tm_init_tick tm <= max_delay) ->
  exists tb' tm', timer_rearm p tb = Some tb' /\ timers_from lo tb' /\ rt_tick tb' = rt_tick tb /\
    timers tb' = <[p := tm']> (timers tb) /\ due_list tb' = due_list tb /\
    (forall q, q <> p -> q ∈ timer_list tb' <-> q ∈ timer_list tb) /\
    tm_init_tick tm' = tm_init_tick tm /\ is_periodic tm' = is_periodic tm /\
    tm_func tm' = tm_func tm /\ tm_type tm' = tm_type tm /\
    if is_periodic tm
    then is_active tm' = true /\ p ∈ timer_list tb' /\
         tm_timeout_tick tm' = u32 (rt_tick tb + tm_init_tick tm)
    else tm' = tm_deactivate tm /\ p ∉ timer_list tb'.
Proof.
  intros Hlo Hw Hpl Hp Ha Hper. unfold timer_rearm. rewrite Hp. simpl.
  change (negb (Z.land (tm_flag tm) RT_TIMER_FLAG_PERIODIC =? 0)) with (is_periodic tm).
  change (negb (Z.land (tm_flag tm) RT_TIMER_FLAG_ACTIVATED =? 0)) with (is_active tm).
  rewrite Ha, andb_true_r. unfold upd_timer. rewrite Hp. simpl. fold (tm_deactivate tm).
  assert (timers_but ∅ lo (set_timers (<[p := tm_deactivate tm]> (timers tb)) tb)) as Hw1.
  { unfold set_timers. rewrite <-(remove_elem_notin p (timer_list tb)) by done.
    apply (timers_but_unlist {[p]}); [done|set_solver|]. intros _ _. apply active_cleared. }
  assert (forall tm' q, q ∈ timer_list tb ->
    timer_left (set_timers (<[p := tm']> (timers tb)) tb) q = timer_left tb q) as Hleft.
  { intros tm' q Hq. unfold timer_left. simpl. rewrite lookup_insert_ne; [done|]. by intros ->. }
  destruct (is_periodic tm) eqn:Eper.
  - specialize (Hper eq_refl). destruct (rt_timer_start_spec ∅ lo (set_timers (<[p := tm_deactivate tm]> (timers tb)) tb) p (tm_deactivate tm)) as
      (tb' & l1 & l2 & Hop & Hw' & Htk & Htms & Hl & Hl12 & _ & _);
      [simpl; lia|exact Hw1|simpl; by rewrite lookup_insert_eq|simpl; lia|].
    simpl in *. rewrite remove_elem_notin in Hl12 by done. rewrite insert_insert_eq in Htms.
    eexists tb', _. splits; try done.
    + by replace (∅ ∖ {[p]}) with (∅ : gset timer_ptr) in Hw' by set_solver.
    + unfold due_list. rewrite Hl, Hl12, !filter_app, filter_cons.
      assert (timer_left tb' p = tm_init_tick tm) as Hpleft.
      { unfold timer_left. rewrite Htms, lookup_insert_eq. simpl. apply ticks_left_after; [done|lia]. }
      rewrite Hpleft. case_decide; [lia|].
      assert (forall q, q ∈ timer_list tb -> timer_left tb' q = timer_left tb q) as HL.
      { intros q Hq. unfold timer_left. rewrite Htms, lookup_insert_ne by (by intros ->).
        unfold ticks_left. by rewrite Htk. }
      rewrite Hl12 in HL. f_equal; apply due_filter_ext; intros; apply HL; rewrite elem_of_app; tauto.
    + intros q Hq. rewrite Hl, Hl12, !elem_of_app, elem_of_cons. tauto.
    + by rewrite periodic_started, periodic_deactivate.
    + apply active_started.
    + rewrite Hl, elem_of_app, elem_of_cons. tauto.
  - eexists _, (tm_deactivate tm). splits; try done.
    + unfold due_list. simpl. apply due_filter_ext. apply Hleft.
    + by rewrite periodic_deactivate.
Qed.

Definition due_funcs (tb : timebase) : list timer_fn :=
  omap (fun p => tm_func <$> timers tb !! p) (due_list tb).

Lemma due_head lo tb p l :
  timers_from lo tb -> timer_list tb = p :: l ->
  due_list tb = if decide (timer_left tb p <= 0) then p :: filter (fun q => timer_left tb q <= 0) l else [].
Proof.
  intros Hw Hl. pose proof (tw_sorted _ _ _ Hw) as Hs. rewrite Hl in Hs.
  apply StronglySorted_inv in Hs as [_ Hall]. unfold due_list. rewrite Hl, filter_cons.
  destruct (decide (timer_left tb p <= 0)) as [|Hgt]; [done|].
  rewrite Forall_forall in Hall. clear Hl. induction l as [|q l IH]; [done|].
  rewrite filter_cons. specialize (Hall q ltac:(by left)) as Hq. simpl in Hq.
  destruct (decide (timer_left tb q <= 0)); [lia|]. apply IH. intros r Hr. apply Hall. by right.
Qed.

Lemma timer_due_spec lo tb :
  -1 <= lo -> timers_from lo tb ->
  timer_due (rt_tick tb) tb = Some (head (due_list tb)).
Proof.
  intros Hlo Hw. unfold timer_due. destruct (timer_list tb) as [|p l] eqn:Hl.
  - unfold due_list. by rewrite Hl.
  - rewrite (due_head lo tb p l) by done.
    destruct (tw_listed _ _ _ Hw p) as (tm & Hp & _ & _ & Hr); [rewrite Hl; by left|].
    rewrite Hp. simpl. rewrite due_iff by lia. rewrite (timer_left_eq _ _ _ Hp).
    destruct (Z.leb_spec (ticks_left tb (tm_timeout_tick tm)) 0); case_decide; try lia; done.
Qed.

Lemma no_due_from lo tb :
  -1 <= lo -> timers_from lo tb -> due_list tb = [] -> timers_from 1 tb.
Proof.
  intros Hlo Hw Hd. split; try apply Hw. intros p Hp.
  destruct (tw_listed _ _ _ Hw p Hp) as (tm & Htm & ? & ? & Hr). exists tm. splits; try done; try lia.
  destruct (Z.le_gt_cases 1 (ticks_left tb (tm_timeout_tick tm))) as [|Hlt]; [done|].
  assert (p ∈ due_list tb) as Hin.
  { unfold due_list. apply list_elem_of_filter. rewrite (timer_left_eq _ _ _ Htm). split; [lia|done]. }
  rewrite Hd in Hin. by apply elem_of_nil in Hin.
Qed.

(** One turn of the loop on the first due timer [p]: it fires, and the timers
    still due are the others. *)
Lemma expire_first lo tb p tm l ds :
  -1 <= lo <= 0 -> timers_from lo tb -> periods_ok tb -> timer_list tb = p :: l ->
  due_list tb = p :: ds -> timers tb !! p = Some tm ->
  exists tb2, timer_rearm p (_rt_timer_remove p tb) = Some tb2 /\ timers_from lo tb2 /\ periods_ok tb2 /\
    rt_tick tb2 = rt_tick tb /\ due_list tb2 = ds /\ p ∉ ds /\ due_funcs tb = tm_func tm :: due_funcs tb2 /\
    fired tb tb2 p /\ forall q, q <> p -> untouched tb tb2 q.
Proof.
  intros Hlo Hw Hper Hl Hd Hp.
  destruct (tw_listed _ _ _ Hw p) as (tm0 & Hp0 & Ha & _ & _); [rewrite Hl; by left|].
  rewrite Hp in Hp0. injection Hp0 as <-.
  destruct (timer_unlink_spec lo tb p tm l Hw Hl Hp) as [Hw1 Hl1].
  pose proof (tw_nodup _ _ _ Hw) as Hndp. rewrite Hl in Hndp. apply NoDup_cons in Hndp as [Hpl _].
  set (tb1 := _rt_timer_remove p tb) in *.
  destruct (timer_rearm_spec lo tb1 p tm) as
    (tb2 & tm' & Hop & Hw2 & Htk & Htms & Hdl & Hmem & Hinit & Hper' & _ & _ & Hres); try done;
    [by rewrite Hl1|intros Hpt; apply (Hper p tm); [rewrite Hl; by left|done|done]|].
  assert (ds = filter (fun q => timer_left tb q <= 0) l) as ->.
  { pose proof (due_head lo tb p l Hw Hl) as Hd'. rewrite Hd in Hd'. case_decide; by inversion Hd'. }
  assert (due_list tb2 = filter (fun q => timer_left tb q <= 0) l) as Hd2
    by (rewrite Hdl; unfold due_list; by rewrite Hl1).
  assert (p ∉ filter (fun q => timer_left tb q <= 0) l) as Hni by (by rewrite list_elem_of_filter; intros []).
  assert (forall q, q <> p -> timers tb2 !! q = timers tb !! q) as Hother
    by (intros; by rewrite Htms, lookup_insert_ne).
  exists tb2. splits; try done.
  - intros q tq Hq Hqm. destruct (decide (q = p)) as [->|Hne].
    + rewrite Htms, lookup_insert_eq in Hqm. injection Hqm as <-. rewrite Hinit, Hper'.
      apply (Hper p); [rewrite Hl; by left|done].
    + rewrite Hother in Hqm by done. apply (Hper q); [|done]. rewrite Hl, <-Hl1. right. by apply Hmem.
  - unfold due_funcs. rewrite Hd, Hd2. unfold omap. simpl. rewrite Hp. simpl. f_equal.
    revert Hni. generalize (filter (fun q => timer_left tb q <= 0) l). intros l'.
    induction l' as [|q l' IHl]; [done|]. intros [Hne Hni]%not_elem_of_cons. simpl.
    by rewrite Hother, IHl by done.
  - exists tm, tm'. by rewrite Htms, lookup_insert_eq.
  - intros q Hne. split; [by apply Hother|]. rewrite Hmem, Hl1, Hl, elem_of_cons by done. tauto.
Qed.

Lemma untouched_trans tb1 tb2 tb3 p : untouched tb1 tb2 p -> untouched tb2 tb3 p -> untouched tb1 tb3 p.
Proof. unfold untouched. intros [-> ->] [-> ->]. done. Qed.

Lemma fired_untouched tb1 tb2 tb3 p : fired tb1 tb2 p -> untouched tb2 tb3 p -> fired tb1 tb3 p.
Proof. intros (tm & tm' & ? & ? & H) [E1 E2]. exists tm, tm'. rewrite E1. destruct (is_periodic tm); by rewrite E2. Qed.

Lemma untouched_fired tb1 tb2 tb3 p :
  rt_tick tb2 = rt_tick tb1 -> untouched tb1 tb2 p -> fired tb2 tb3 p -> fired tb1 tb3 p.
Proof. intros Et [E _] H. unfold fired in *. by rewrite <-E, <-Et. Qed.

Section CheckSpec.
Context {W : Type} (call : timer_fn -> W -> timebase -> option (W * timebase))
    (act : timer_fn -> W -> W) (I : list timer_fn -> W -> Prop).
  (** The callbacks return and leave the timers alone, as long as [I] holds of
      the callbacks still to be run. *)
Context (quiet : forall f fs w tb, I (f :: fs) w -> call f w tb = Some (act f w, tb) /\ I fs (act f w)).

Lemma timer_check_loop_spec lo fuel tb w :
    -1 <= lo <= 0 -> timers_from lo tb -> periods_ok tb -> (length (due_list tb) < fuel)%nat ->
    I (due_funcs tb) w ->
    exists tb', timer_check_loop call fuel (rt_tick tb) w tb =
        Some (fold_left (fun w f => act f w) (due_funcs tb) w, tb') /\
      timers_from 1 tb' /\ rt_tick tb' = rt_tick tb /\
      (forall p, p ∈ due_list tb -> fired tb tb' p) /\
      (forall p, p ∉ due_list tb -> untouched tb tb' p).
Proof using quiet.
    intros Hlo. revert tb w. induction fuel as [|fuel IH]; intros tb w Hw Hper Hfuel HI; [lia|].
    simpl. rewrite (timer_due_spec lo) by (done || lia). simpl.
    destruct (due_list tb) as [|p ds] eqn:Hd.
    { simpl. exists tb. unfold due_funcs. rewrite Hd. splits; try done; [eapply no_due_from; [|done..]; lia|].
      intros p Hp. by apply elem_of_nil in Hp. }
    assert (exists l, timer_list tb = p :: l) as [l Hl].
    { destruct (timer_list tb) as [|q l] eqn:Hl; [unfold due_list in Hd; by rewrite Hl in Hd|].
      exists l. rewrite (due_head lo tb q l Hw Hl) in Hd. case_decide; by inversion Hd. }
    destruct (tw_listed _ _ _ Hw p) as (tm & Hp & _); [rewrite Hl; by left|].
    destruct (expire_first lo tb p tm l ds) as (tb2 & Hop & Hw2 & Hper2 & Htk & Hd2 & Hpd & Hdf & Hfp & Hoth); try done.
    rewrite Hdf in *. apply (quiet _ _ _ (_rt_timer_remove p tb)) in HI as [Hcall HI].
    simpl. rewrite Hp. simpl. rewrite Hcall. simpl. rewrite Hop. simpl. change (rt_tick_get _) with (rt_tick tb). rewrite <-Htk.
    destruct (IH tb2 (act (tm_func tm) w)) as (tb' & Hloop & Hw' & Htk' & Hf & Hu); try done.
    { rewrite Hd2. simpl in Hfuel. lia. }
    exists tb'. rewrite Hd2 in Hf, Hu. splits; try done.
    - intros q [->|Hq]%elem_of_cons; [by eapply fired_untouched; [|apply Hu]|].
      eapply (untouched_fired _ tb2); [done|apply Hoth; by intros ->|by apply Hf].
    - intros q [Hne Hq]%not_elem_of_cons. eapply untouched_trans; [by apply Hoth|by apply Hu].
Qed.
End CheckSpec.

(** ** A decision procedure for well-formedness *)

Fixpoint left_sorted (tb : timebase) (l : list timer_ptr) : Prop :=
  match l with
  | [] => True
  | p :: l => Forall (fun q => timer_left tb p <= timer_left tb q) l /\ left_sorted tb l
  end.

Definition listed_check (lo : Z) (tb : timebase) (p : timer_ptr) : Prop :=
  match timers tb !! p with
  | Some tm => is_active tm = true /\ (0 <= tm_timeout_tick tm < 4294967296) /\
      (lo <= ticks_left tb (tm_timeout_tick tm) <= max_delay)
  | None => False
  end.

Definition timers_check (lo : Z) (tb : timebase) : Prop :=
  (0 <= rt_tick tb < 4294967296) /\ NoDup (timer_list tb) /\
  Forall (listed_check lo tb) (timer_list tb) /\
  map_Forall (fun p tm => tm_type tm = RT_Object_Class_Null \/ is_active tm = false \/
    p ∈ timer_list tb) (timers tb) /\
  left_sorted tb (timer_list tb).

#[export] Instance left_sorted_dec tb l : Decision (left_sorted tb l).
Proof. induction l; simpl; apply _. Defined.
#[export] Instance listed_check_dec lo tb p : Decision (listed_check lo tb p).
Proof. unfold listed_check. destruct (timers tb !! p); apply _. Defined.
#[export] Instance timers_check_dec lo tb : Decision (timers_check lo tb).
Proof. unfold timers_check. apply _. Defined.

Lemma timers_check_sound lo tb : timers_check lo tb -> timers_from lo tb.
Proof.
  intros (Ht & Hnd & Hl & Ha & Hs). rewrite Forall_forall in Hl. split; try done.
  - intros p Hp. specialize (Hl p Hp). unfold listed_check in Hl.
    destruct (timers tb !! p) as [tm|]; [|done]. exists tm. unfold is_u32. tauto.
  - intros p tm Hp _ Hty Hact. destruct (Ha p tm Hp) as [|[|]]; congruence.
  - clear Hl Hnd Ha. induction (timer_list tb) as [|p l IH]; constructor; simpl in Hs; destruct Hs; auto.
Qed.

(** ** Properties *)

(** Starting a timer whose delay is below half the tick range returns, keeps
    the timer list well formed and puts the timer after every timer that
    expires no later (timers of equal deadline keep their order) and before
    every timer that expires later, also when the tick counter wraps. *)
Theorem rt_timer_start_sorted (tb : timebase) (p : timer_ptr) (tm : rt_timer) :
  timers_wf tb -> timers tb !! p = Some tm -> 0 <= tm_init_tick tm <= max_delay ->
  exists tb' l1 l2, rt_timer_start p tb = Some tb' /\ timers_wf tb' /\
    timer_list tb' = l1 ++ p :: l2 /\ l1 ++ l2 = remove_elem p (timer_list tb) /\
    Forall (fun q => timer_left tb q <= tm_init_tick tm) l1 /\
    Forall (fun q => tm_init_tick tm < timer_left tb q) l2 /\
    timer_left tb' p = tm_init_tick tm.
Proof.
  intros Hw Hp Hi. destruct (rt_timer_start_spec ∅ 0 tb p tm) as
    (tb' & l1 & l2 & Hop & Hw' & Htk & Htms & Hl & Hrm & H1 & H2); try done; [lia|].
  exists tb', l1, l2. replace (∅ ∖ {[p]}) with (∅ : gset timer_ptr) in Hw' by set_solver.
  splits; try done. unfold timer_left. rewrite Htms, lookup_insert_eq. simpl.
  by apply ticks_left_after.
Qed.

Definition demo_timer (flag to : Z) : rt_timer := Timer flag (FnUser 0) 5 to RT_Object_Class_Timer.
(** Tick 4294967294, two timers due in 2 and 5 ticks (the counter wraps first). *)
Definition demo_timers : timebase :=
  TimeBase 4294967294
    (list_to_map [(TObj 0, demo_timer 1 0); (TObj 1, demo_timer 1 3); (TObj 2, demo_timer 0 0)])
    [TObj 0; TObj 1] 0.

Lemma demo_timers_wf : timers_wf demo_timers.
Proof. apply timers_check_sound. apply (bool_decide_unpack _). vm_compute. exact I. Qed.

Example rt_timer_start_sorted_witness :
  exists tb' l1 l2, rt_timer_start (TObj 2) demo_timers = Some tb' /\ timers_wf tb' /\
    timer_list tb' = l1 ++ TObj 2 :: l2 /\ l1 ++ l2 = remove_elem (TObj 2) (timer_list demo_timers) /\
    Forall (fun q => timer_left demo_timers q <= 5) l1 /\
    Forall (fun q => 5 < timer_left demo_timers q) l2 /\ timer_left tb' (TObj 2) = 5.
Proof.
  apply (rt_timer_start_sorted demo_timers (TObj 2) (demo_timer 0 0) demo_timers_wf).
  - vm_compute. reflexivity.
  - vm_compute. split; discriminate.
Defined.

(** C8: when the callbacks leave the timers alone, [rt_timer_check] returns after
    firing exactly the due timers, once each, in deadline order; a fired
    one-shot timer is off the list and inactive, a periodic one is listed again
    one period from now, every other timer is untouched, and no timer of the
    resulting list is due. *)
Theorem rt_timer_check_expires (W : Type) (call : timer_fn -> W -> timebase -> option (W * timebase))
    (act : timer_fn -> W -> W) (tb : timebase) (w : W) (fuel : nat) :
  (forall f w tb, call f w tb = Some (act f w, tb)) ->
  timers_from (-1) tb -> periods_ok tb -> (length (due_list tb) < fuel)%nat ->
  exists tb', rt_timer_check call fuel w tb =
      Some (fold_left (fun w f => act f w) (due_funcs tb) w, tb') /\
    timers_from 1 tb' /\ rt_tick tb' = rt_tick tb /\
    (forall p, p ∈ due_list tb -> fired tb tb' p) /\
    (forall p, p ∉ due_list tb -> untouched tb tb' p).
Proof. intros Hq Hw Hper Hf. apply (timer_check_loop_spec call act (fun _ _ => True) ltac:(by eauto) (-1)); try done; lia. Qed.

(** The same timers at tick 1 (timer 0 is due and overdue by one tick). *)
Definition demo_due : timebase := set_tick 1 (set_timers (<[TObj 0 := demo_timer 3 0]> (timers demo_timers)) demo_timers).

Example rt_timer_check_expires_witness :
  exists tb', rt_timer_check (fun f w tb => Some (w ++ [f], tb)) 2 [] demo_due =
      Some (fold_left (fun w f => w ++ [f]) (due_funcs demo_due) [], tb') /\
    timers_from 1 tb' /\ rt_tick tb' = rt_tick demo_due /\
    (forall p, p ∈ due_list demo_due -> fired demo_due tb' p) /\
    (forall p, p ∉ due_list demo_due -> untouched demo_due tb' p).
Proof.
  apply (rt_timer_check_expires (list timer_fn) _ (fun f w => w ++ [f]) demo_due [] 2).
  - reflexivity.
  - apply timers_check_sound. apply (bool_decide_unpack _). vm_compute. exact I.
  - intros p tm Hp Hm Hpe. simpl in Hp.
    repeat apply elem_of_cons in Hp as [->|Hp]; [..|by apply elem_of_nil in Hp];
      vm_compute in Hm; injection Hm as <-; vm_compute; split; discriminate.
  - vm_compute. lia.
Defined.

(** When a due periodic timer has period 0, the loop of [rt_timer_check]
    never ends: no bound on the number of iterations gives a result. *)
Theorem rt_timer_check_zero_period (W : Type)
    (call : timer_fn -> W -> timebase -> option (W * timebase)) (act : timer_fn -> W -> W)
    (tb : timebase) (p : timer_ptr) (tm : rt_timer) (w : W) (fuel : nat) :
  (forall f w tb, call f w tb = Some (act f w, tb)) ->
  timers_from (-1) tb -> timer_list tb = [p] -> timers tb !! p = Some tm ->
  timer_left tb p <= 0 -> is_periodic tm = true -> tm_init_tick tm = 0 ->
  rt_timer_check call fuel w tb = None.
Proof.
  intros Hquiet. unfold rt_timer_check. revert tb tm w.
  induction fuel as [|fuel IH]; intros tb tm w Hw Hl Hp Hleft Hper H0; [done|].
  simpl. change (rt_tick_get tb) with (rt_tick tb). rewrite (timer_due_spec (-1)) by (done || lia).
  rewrite (due_head (-1) tb p []) by done. rewrite decide_True by done. simpl.
  rewrite Hp. simpl. rewrite Hquiet. simpl.
  destruct (timer_unlink_spec (-1) tb p tm [] Hw Hl Hp) as [Hw1 Hl1].
  destruct (tw_listed _ _ _ Hw p) as (tm0 & Hp0 & Ha & _); [rewrite Hl; by left|].
  rewrite Hp in Hp0. injection Hp0 as <-.
  unfold timer_rearm. change (timers (_rt_timer_remove p tb)) with (timers tb). rewrite Hp. simpl.
  change (negb (Z.land (tm_flag tm) RT_TIMER_FLAG_PERIODIC =? 0)) with (is_periodic tm).
  change (negb (Z.land (tm_flag tm) RT_TIMER_FLAG_ACTIVATED =? 0)) with (is_active tm).
  rewrite Hper, Ha. simpl. unfold upd_timer. change (timers (_rt_timer_remove p tb)) with (timers tb).
  rewrite Hp. simpl. fold (tm_deactivate tm).
  assert (timers_but ∅ (-1) (set_timers (<[p := tm_deactivate tm]> (timers tb)) (_rt_timer_remove p tb))) as Hw2.
  { unfold set_timers, _rt_timer_remove, set_timer_list. simpl.
    apply (timers_but_unlist ∅); [done|set_solver|]. intros _ _. apply active_cleared. }
  destruct (rt_timer_start_spec ∅ (-1) (set_timers (<[p := tm_deactivate tm]> (timers tb)) (_rt_timer_remove p tb)) p
    (tm_deactivate tm)) as (tb' & l1 & l2 & Hop & Hw' & Htk & Htms & Hl' & Hrm & _);
    [simpl; lia|done|simpl; by rewrite lookup_insert_eq|simpl; unfold max_delay; lia|].
  rewrite Hop. simpl. change (rt_tick tb) with (rt_tick_get tb).
  simpl in Htk. change (rt_tick tb) with (rt_tick_get tb) in Htk. rewrite <-Htk.
  change (timer_list (_rt_timer_remove p tb)) with (timer_list (_rt_timer_remove p tb)) in Hrm.
  simpl in Hrm. rewrite Hl, remove_elem_cons_eq in Hrm by set_solver. simpl in Hrm.
  symmetry in Hrm. apply app_eq_nil in Hrm as [-> ->]. simpl in Htms. rewrite insert_insert_eq in Htms.
  apply (IH tb' (tm_started (rt_tick tb) (tm_deactivate tm))); try done.
  - replace (∅ ∖ {[p]}) with (∅ : gset timer_ptr) in Hw' by set_solver. done.
  - by rewrite Htms, lookup_insert_eq.
  - unfold timer_left. rewrite Htms, lookup_insert_eq. simpl. rewrite ticks_left_after; [lia|done|unfold max_delay; lia].
  - by rewrite periodic_started, periodic_deactivate.
Qed.

Example rt_timer_check_zero_period_witness :
  rt_timer_check (fun f w tb => Some (w, tb)) 1000 tt
    (TimeBase 7 {[TObj 0 := Timer 3 (FnUser 0) 0 7 RT_Object_Class_Timer]} [TObj 0] 0) = None.
Proof.
  apply (rt_timer_check_zero_period unit _ (fun f w => w) _ (TObj 0)
    (Timer 3 (FnUser 0) 0 7 RT_Object_Class_Timer)).
  - reflexivity.
  - apply timers_check_sound. apply (bool_decide_unpack _). vm_compute. exact I.
  - reflexivity.
  - reflexivity.
  - vm_compute. discriminate.
  - reflexivity.
  - reflexivity.
Defined.

(** A one-shot timer that its own callback starts again ends up linked on the
    timer list with the ACTIVATED flag cleared: a later [rt_timer_stop] answers
    [-RT_ERROR] and leaves it on the list, so it fires all the same. *)
Theorem rt_timer_restart_in_callback (W : Type)
    (call : timer_fn -> W -> timebase -> option (W * timebase))
    (tb : timebase) (p : timer_ptr) (tm : rt_timer) (w : W) :
  timers_from (-1) tb -> timer_list tb = [p] -> timers tb !! p = Some tm ->
  timer_left tb p <= 0 -> is_periodic tm = false -> 1 <= tm_init_tick tm <= max_delay ->
  (forall tb, call (tm_func tm) w tb = (tb' ← rt_timer_start p tb; Some (w, tb'))) ->
  exists tb' tm', rt_timer_check call 2 w tb = Some (w, tb') /\
    timer_list tb' = [p] /\ timers tb' !! p = Some tm' /\ is_active tm' = false /\
    timer_left tb' p = tm_init_tick tm /\ rt_timer_stop p tb' = Some (tb', -1).
Proof.
  intros Hw Hl Hp Hleft Hper Hi Hcall. unfold rt_timer_check. simpl. change (rt_tick_get tb) with (rt_tick tb).
  rewrite (timer_due_spec (-1)) by (done || lia). rewrite (due_head (-1) tb p []) by done.
  rewrite decide_True by done. simpl. rewrite Hp. simpl. rewrite Hcall.
  destruct (timer_unlink_spec (-1) tb p tm [] Hw Hl Hp) as [Hw1 Hl1].
  destruct (rt_timer_start_spec {[p]} (-1) (_rt_timer_remove p tb) p tm) as
    (tb1 & l1 & l2 & -> & Hw2 & Htk & Htms & Hl2 & Hrm & _); [lia|done|done|lia|].
  rewrite Hl1 in Hrm. symmetry in Hrm. apply app_eq_nil in Hrm as [-> ->]. simpl in Hl2.
  set (tm1 := tm_started (rt_tick (_rt_timer_remove p tb)) tm) in *. simpl.
  assert (timers tb1 !! p = Some tm1) as Hp1 by (by rewrite Htms, lookup_insert_eq).
  unfold timer_rearm. rewrite Hp1. cbn [mbind option_bind].
  change (negb (Z.land (tm_flag tm1) RT_TIMER_FLAG_PERIODIC =? 0)) with (is_periodic tm1).
  assert (is_periodic tm1 = false) as -> by (unfold tm1; by rewrite periodic_started).
  simpl. unfold upd_timer. rewrite Hp1. simpl.
  fold (tm_deactivate tm1). unfold timer_due. simpl. rewrite Hl2. simpl. rewrite lookup_insert_eq. simpl.
  assert (ticks_left tb1 (tm_timeout_tick tm1) = tm_init_tick tm) as Hleft1
    by (apply ticks_left_after; [done|lia]).
  change (rt_tick_get tb1) with (rt_tick tb1). simpl. unfold tm1 in Hleft1. simpl in Hleft1.
  rewrite due_iff by lia. destruct (Z.leb_spec (ticks_left tb1 (u32 (rt_tick tb + tm_init_tick tm))) 0); [lia|].
  exists (set_timers (<[p := tm_deactivate tm1]> (timers tb1)) tb1), (tm_deactivate tm1).
  assert (is_active (tm_deactivate tm1) = false) as Hia by apply active_cleared.
  splits; try done.
  - simpl. by rewrite lookup_insert_eq.
  - unfold timer_left. simpl. rewrite lookup_insert_eq. exact Hleft1.
  - unfold rt_timer_stop. simpl. rewrite lookup_insert_eq. simpl.
    unfold is_active in Hia. apply negb_false_iff in Hia. simpl in Hia. by rewrite Hia.
Qed.

Example rt_timer_restart_in_callback_witness :
  let tb := TimeBase 7 {[TObj 0 := demo_timer 1 7]} [TObj 0] 0 in
  exists tb' tm', rt_timer_check (fun _ w tb => tb' ← rt_timer_start (TObj 0) tb; Some (w, tb')) 2 tt tb = Some (tt, tb') /\
    timer_list tb' = [TObj 0] /\ timers tb' !! TObj 0 = Some tm' /\ is_active tm' = false /\
    timer_left tb' (TObj 0) = 5 /\ rt_timer_stop (TObj 0) tb' = Some (tb', -1).
Proof.
  apply (rt_timer_restart_in_callback unit _ (TimeBase 7 {[TObj 0 := demo_timer 1 7]} [TObj 0] 0)
    (TObj 0) (demo_timer 1 7)).
  - apply timers_check_sound. apply (bool_decide_unpack _). vm_compute. exact I.
  - reflexivity.
  - reflexivity.
  - vm_compute. discriminate.
  - reflexivity.
  - vm_compute. split; discriminate.
  - reflexivity.
Defined.

(** The conversion of milliseconds rounds up to whole ticks of 10 ms for every
    argument up to 21474826; a negative argument waits forever; the largest
    argument the comment allows, 0x7fffffff, overflows to 0 ticks. *)
Theorem rt_tick_from_millisecond_spec :
  (forall ms, 0 <= ms <= 21474826 ->
     10 * (rt_tick_from_millisecond ms - 1) < ms <= 10 * rt_tick_from_millisecond ms) /\
  (forall ms, ms < 0 -> rt_tick_from_millisecond ms = -1) /\
  rt_tick_from_millisecond 2147483647 = 0.
Proof.
  unfold rt_tick_from_millisecond, RT_TICK_PER_SECOND. splits.
  - intros ms Hms. destruct (Z.ltb_spec ms 0); [lia|].
    rewrite (s32_small (100 * ms)), s32_small by lia. rewrite Z.quot_div_nonneg by lia. dlia.
  - intros ms Hms. by destruct (Z.ltb_spec ms 0); [|lia].
  - reflexivity.
Qed.
