(* ===== verification/Kernel.v ===== *)
(** * The kernel state: scheduler, timers and IPC objects

    The records of the IPC objects (include/rtdef.h), the state the kernel
    operations act on, and the invariant that ties thread objects to their
    timers and IPC objects to their waiting lists. *)

From S2P Require Import Prelude RtList Sched Timer.

(** ** Constants *)
Definition RT_EOK : Z := 0.
Definition RT_ERROR : Z := 1.
Definition RT_ETIMEOUT : Z := 2.
Definition RT_EFULL : Z := 3.
Definition RT_ENOMEM : Z := 5.
Definition RT_EINTR : Z := 9.
Definition RT_IPC_FLAG_FIFO : Z := 0.
Definition RT_IPC_FLAG_PRIO : Z := 1.
Definition RT_IPC_CMD_RESET : Z := 1.
Definition RT_WAITING_FOREVER : Z := -1.

(** ** IPC objects *)

Record rt_semaphore := Sem { sem_flag : Z; sem_value : Z }.

Record rt_mutex := Mutex {
  mx_flag : Z;
  mx_value : Z;                 (* rt_uint16_t *)
  mx_original_priority : Z;     (* rt_uint8_t *)
  mx_hold : Z;                  (* rt_uint8_t *)
  mx_owner : option tid;
}.

Record rt_event := Event { ev_flag : Z; ev_set : Z }.

(** [msg_pool] points to an array of words. *)
Record rt_mailbox := Mailbox {
  mb_flag : Z;
  mb_pool : list Z;
  mb_size : Z;
  mb_entry : Z;
  mb_in_offset : Z;
  mb_out_offset : Z;
}.

(** A message queue. A message node is a slot of the pool, numbered from 0:
    its [next] pointer and its payload. *)
Record mq_node := MqNode { mn_next : option nat; mn_data : list Z }.
Record rt_messagequeue := Mq {
  mq_flag : Z;
  mq_pool : gmap nat mq_node;
  mq_msg_size : Z;
  mq_max_msgs : Z;
  mq_entry : Z;
  mq_head : option nat;
  mq_tail : option nat;
  mq_free : option nat;
}.

Inductive ipc_object :=
| ISem (x : rt_semaphore)
| IMutex (x : rt_mutex)
| IEvent (x : rt_event)
| IMailbox (x : rt_mailbox)
| IMq (x : rt_messagequeue).

Record kernel := Kernel {
  k_s : sched;
  k_t : timebase;
  k_o : gmap oid ipc_object;
}.

Definition set_s x k := Kernel x (k_t k) (k_o k).
Definition set_t x k := Kernel (k_s k) x (k_o k).
Definition set_o x k := Kernel (k_s k) (k_t k) x.

(** Scheduler and timer operations inside the kernel. *)
Definition on_s (f : sched -> option sched) (k : kernel) : option kernel :=
  s ← f (k_s k); Some (set_s s k).
Definition on_t (f : timebase -> option timebase) (k : kernel) : option kernel :=
  tb ← f (k_t k); Some (set_t tb k).
Definition put_obj (o : oid) (x : ipc_object) (k : kernel) : kernel := set_o (<[o := x]> (k_o k)) k.

(** ** The invariant *)

(** Thread timers: one per thread object, one-shot, calling [rt_thread_timeout]
    on its own thread; armed only while the thread is suspended. *)
Definition thread_timer (t : tid) (tm : rt_timer) : Prop :=
  tm_func tm = FnThreadTimeout t /\ is_periodic tm = false /\ tm_type tm <> RT_Object_Class_Null.

Record timer_link (k : kernel) : Prop := {
  tl_has : forall t th, threads (k_s k) !! t = Some th -> stat_of th <> RT_THREAD_CLOSE ->
    exists tm, timers (k_t k) !! TThread t = Some tm /\ thread_timer t tm;
  tl_listed : forall t, TThread t ∈ timer_list (k_t k) ->
    exists th, threads (k_s k) !! t = Some th /\ stat_of th = RT_THREAD_SUSPEND;
  tl_obj : forall n tm t, timers (k_t k) !! TObj n = Some tm -> tm_func tm <> FnThreadTimeout t;
}.

(** The waiting lists of every object exist. *)
Definition obj_lists (k : kernel) : Prop :=
  forall o x, k_o k !! o = Some x ->
    is_Some (lists (k_s k) !! LSuspend o) /\
    (forall mb, x = IMailbox mb -> is_Some (lists (k_s k) !! LSender o)).

(** [X]: timers in the middle of their expiry; [lo]: least time left. *)
Record kernel_but (X : gset timer_ptr) (lo : Z) (k : kernel) : Prop := {
  kw_sched : sched_wf (k_s k);
  kw_timers : timers_but X lo (k_t k);
  kw_link : timer_link k;
  kw_lists : obj_lists k;
}.
Abbreviation kernel_wf := (kernel_but ∅ 0).

(** A thread that is free to run has no timer armed. *)
Lemma runnable_untimed X lo k t : kernel_but X lo k -> runnable t (k_s k) -> TThread t ∉ timer_list (k_t k).
Proof.
  intros Hk (th & Ht & Hr & _) Hin. destruct (tl_listed _ (kw_link _ _ _ Hk) t Hin) as (th' & Ht' & Hst).
  rewrite Ht in Ht'. injection Ht' as <-. unfold is_ready in Hr. by rewrite Hr in Hst.
Qed.

(** ** A decision procedure for the invariant, for concrete states *)

Definition thread_timer_check (k : kernel) (t : tid) (th : rt_thread) : Prop :=
  stat_of th = RT_THREAD_CLOSE \/
  match timers (k_t k) !! TThread t with
  | Some tm =>
      match tm_func tm with FnThreadTimeout t' => t' = t | FnUser _ => False end /\
      is_periodic tm = false /\ tm_type tm <> RT_Object_Class_Null
  | None => False
  end.

Definition listed_timer_check (k : kernel) (p : timer_ptr) : Prop :=
  match p with
  | TThread t => match threads (k_s k) !! t with
                 | Some th => stat_of th = RT_THREAD_SUSPEND
                 | None => False
                 end
  | TObj _ => True
  end.

Definition obj_timer_check (p : timer_ptr) (tm : rt_timer) : Prop :=
  match p, tm_func tm with TObj _, FnThreadTimeout _ => False | _, _ => True end.

Definition obj_lists_check (k : kernel) (o : oid) (x : ipc_object) : Prop :=
  is_Some (lists (k_s k) !! LSuspend o) /\
  match x with IMailbox _ => is_Some (lists (k_s k) !! LSender o) | _ => True end.

Definition kernel_check (lo : Z) (k : kernel) : Prop :=
  wf_check (k_s k) /\ timers_check lo (k_t k) /\
  map_Forall (thread_timer_check k) (threads (k_s k)) /\
  Forall (listed_timer_check k) (timer_list (k_t k)) /\
  map_Forall obj_timer_check (timers (k_t k)) /\
  map_Forall (obj_lists_check k) (k_o k).

#[export] Instance thread_timer_check_dec k t th : Decision (thread_timer_check k t th).
Proof.
  unfold thread_timer_check. apply or_dec; [apply _|]. destruct (timers _ !! _) as [tm|]; [|apply _].
  destruct (tm_func tm); apply _.
Defined.
#[export] Instance listed_timer_check_dec k p : Decision (listed_timer_check k p).
Proof. unfold listed_timer_check. destruct p; [destruct (threads _ !! _)|]; apply _. Defined.
#[export] Instance obj_timer_check_dec p tm : Decision (obj_timer_check p tm).
Proof. unfold obj_timer_check. destruct p, (tm_func tm); apply _. Defined.
#[export] Instance obj_lists_check_dec k o x : Decision (obj_lists_check k o x).
Proof. unfold obj_lists_check. destruct x; apply _. Defined.
#[export] Instance kernel_check_dec lo k : Decision (kernel_check lo k).
Proof. unfold kernel_check. apply _. Defined.

Lemma kernel_check_sound lo k : kernel_check lo k -> kernel_but ∅ lo k.
Proof.
  intros (Hs & Ht & Htt & Hl & Ho & Hob). rewrite Forall_forall in Hl. split.
  - by apply wf_check_sound.
  - by apply timers_check_sound.
  - split.
    + intros t th Hth Hst. destruct (Htt t th Hth) as [|Htm]; [done|].
      destruct (timers _ !! _) as [tm|]; [|done]. exists tm. split; [done|].
      destruct Htm as (Hf & ? & ?). split; [|done]. destruct (tm_func tm); [by subst|done].
    + intros t Hin. specialize (Hl _ Hin). simpl in Hl. destruct (threads _ !! _) as [th|]; [eauto|done].
    + intros n tm t Hn Hf. specialize (Ho _ _ Hn). simpl in Ho. unfold obj_timer_check in Ho. by rewrite Hf in Ho.
  - intros o x Hx. destruct (Hob o x Hx) as [H1 H2]. split; [done|]. by intros mb ->.
Qed.
