(* ===== verification/Demo.v ===== *)
(** * A concrete system, the state at which the properties are instantiated

    Thread 0 idle; 1 running at priority 20; 2 and 3 queued at 20, 4 at 25;
    5 (priority 10) sleeps for 5 more ticks; 6 (priority 15) waits for
    semaphore 0 with 3 ticks left; 7 is a deleted dynamic thread; 8 (priority 12)
    waits for mutex 1, owned by 1; 9 (priority 8) waits for event 2; 10
    (priority 9) waits on mailbox 3, which is empty. *)

From S2P Require Import Prelude RtList Sched Timer Kernel.

Definition demo_th (stat prio : Z) (ev info : Z) : rt_thread :=
  Thread 1000 500 600 35 0 stat prio prio (2 ^ prio) ev info 10 10 false RT_Object_Class_Thread.

Definition demo_threads : gmap tid rt_thread :=
  list_to_map [(0%nat, Thread 1000 500 600 35 0 1 31 31 (2 ^ 31) 0 0 32 32 false 129);
    (1%nat, demo_th 1 20 0 0); (2%nat, demo_th 1 20 0 0); (3%nat, demo_th 1 20 0 0);
    (4%nat, demo_th 1 25 0 0); (5%nat, demo_th 2 10 0 0); (6%nat, demo_th 2 15 0 0);
    (7%nat, demo_th 4 20 0 0); (8%nat, demo_th 2 12 0 0); (9%nat, demo_th 2 8 6 3);
    (10%nat, demo_th 2 9 0 0)].

Definition demo_lists : gmap lhead (list tid) :=
  <[LReady 31 := [0%nat]]> (<[LReady 20 := [2%nat; 3%nat]]> (<[LReady 25 := [4%nat]]>
  (<[LDefunct := [7%nat]]> (<[LSuspend 0 := [6%nat]]> (<[LSuspend 1 := [8%nat]]>
  (<[LSuspend 2 := [9%nat]]> (<[LSuspend 3 := [10%nat]]> (<[LSender 3 := []]>
  (<[LSuspend 4 := []]> (lists (rt_system_scheduler_init (Sched ∅ ∅ 0 None 0 0 0)))))))))))).

Definition demo_s : sched :=
  Sched demo_threads demo_lists (Z.lor (2 ^ 31) (Z.lor (2 ^ 25) (2 ^ 20))) (Some 1%nat) 20 0 0.

Definition demo_tm (t : nat) (flag to : Z) : timer_ptr * rt_timer :=
  (TThread t, Timer flag (FnThreadTimeout t) 5 to 138).

Definition demo_t : timebase :=
  TimeBase 100
    (list_to_map ((TObj 0, Timer 1 (FnUser 0) 4 104 10) :: demo_tm 5 1 105 :: demo_tm 6 1 103 ::
       ((fun t => demo_tm t 0 0) <$> [0; 1; 2; 3; 4; 7; 8; 9; 10]%nat)))
    [TThread 6; TObj 0; TThread 5] 3.

Definition demo_mq_pool : gmap nat mq_node :=
  list_to_map [(0%nat, MqNode None [0; 0; 0; 0]); (1%nat, MqNode (Some 0%nat) [0; 0; 0; 0])].

Definition demo_k : kernel :=
  Kernel demo_s demo_t
    (list_to_map [(0%nat, ISem (Sem 0 0)); (1%nat, IMutex (Mutex 1 0 20 1 (Some 1%nat)));
       (2%nat, IEvent (Event 0 1)); (3%nat, IMailbox (Mailbox 0 [0; 0] 2 0 0 0));
       (4%nat, IMq (Mq 0 demo_mq_pool 4 2 0 None None (Some 1%nat)))]).

Lemma demo_k_wf : kernel_wf demo_k.
Proof. apply kernel_check_sound. apply (bool_decide_unpack _). vm_compute. exact I. Qed.

(** Only the idle thread 0 can run: 1 is a static thread with a clean-up
    function, suspended; 2 and 3 are deleted dynamic threads. *)
Definition demo_idle (defunct : list tid) : kernel :=
  Kernel
    (Sched (list_to_map [(0%nat, Thread 1000 500 600 35 0 1 31 31 (2 ^ 31) 0 0 32 32 false 129);
              (1%nat, Thread 1000 500 600 35 0 2 20 20 (2 ^ 20) 0 0 10 10 true 129);
              (2%nat, demo_th 4 20 0 0); (3%nat, demo_th 4 20 0 0)])
       (<[LDefunct := defunct]> (lists (rt_system_scheduler_init (Sched ∅ ∅ 0 None 0 0 0))))
       0 (Some 0%nat) 31 0 0)
    (TimeBase 100 (list_to_map ((fun t => demo_tm t 0 0) <$> [0; 1]%nat)) [] 0) ∅.

Ltac kernel_dec := apply kernel_check_sound; apply (bool_decide_unpack _); vm_compute; exact I.

Lemma demo_idle_wf_0 : kernel_wf (demo_idle []).
Proof. kernel_dec. Qed.
Lemma demo_idle_wf_2 : kernel_wf (demo_idle [2; 3]%nat).
Proof. kernel_dec. Qed.

(** The idle system with one more object, number 0. *)
Definition demo_idle_obj (x : ipc_object) : kernel :=
  let k := demo_idle [] in
  Kernel (set_lists (<[LSuspend 0 := []]> (<[LSender 0 := []]> (lists (k_s k)))) (k_s k)) (k_t k) {[0%nat := x]}.

Definition demo_idle_th : rt_thread := Thread 1000 500 600 35 0 1 31 31 (2 ^ 31) 0 0 32 32 false 129.
