(* ===== verification/Thread.v ===== *)
(** * Threads (rt-thread/src/thread.c) and the idle thread's clean-up (idle.c)

    Creation, start-up, suspension and resumption, sleeping, priority change,
    termination. A blocking operation is split at its call of [rt_schedule]:
    the part before it, [rt_schedule] itself, and the part the thread executes
    when it runs again. *)

From S2P Require Import Prelude RtList Sched SchedFacts Timer Kernel Demo.

(** ** Operations *)

Definition rt_thread_self (k : kernel) : option tid := current (k_s k).

(** libcpu/arm/cortex-m4/cpuport.c: the initial stack pointer. The frame holds
    17 words: the build uses the FPU ([USE_FPU]). *)
Definition stack_frame_size : Z := 68.
Definition rt_hw_stack_init (stack_addr : Z) : Z := RT_ALIGN_DOWN (stack_addr + 4) 8 - stack_frame_size.

Definition set_th (t : tid) (th : rt_thread) (k : kernel) : kernel :=
  set_s (set_threads (<[t := th]> (threads (k_s k))) (k_s k)) k.
Definition upd_th (t : tid) (f : rt_thread -> rt_thread) : kernel -> option kernel :=
  on_s (upd_thread t f).

(** [type] is what the object layer has put in [parent.type]. The stack is
    filled with [#]; its first byte is there when the size is not 0. *)
Definition _rt_thread_init (t : tid) (stack_start stack_size priority tick type : Z) (k : kernel) : kernel :=
  let th := Thread (rt_hw_stack_init (stack_start + stack_size - 4)) stack_start stack_size 35
              RT_EOK RT_THREAD_INIT (u8 priority) (u8 priority) 0 0 0 (u32 tick) (u32 tick) false type in
  set_t (rt_timer_init (TThread t) (FnThreadTimeout t) 0 0 (k_t k)) (set_th t th k).

Definition rt_thread_init (t : tid) (stack_start stack_size priority tick : Z) (k : kernel) : kernel * Z :=
  (_rt_thread_init t stack_start stack_size priority tick
     (Z.lor RT_Object_Class_Thread RT_Object_Class_Static) k, RT_EOK).

(** The allocator's answers for the object and for the stack are arguments. *)
Definition rt_thread_create (obj : option tid) (stack : option Z) (stack_size priority tick : Z) (k : kernel)
    : kernel * option tid :=
  match obj, stack with
  | None, _ => (k, None)
  | Some _, None => (k, None)
  | Some t, Some a => (_rt_thread_init t a stack_size priority tick RT_Object_Class_Thread k, Some t)
  end.

Definition rt_thread_suspend (t : tid) (k : kernel) : option (kernel * Z) :=
  th ← threads (k_s k) !! t;
  if negb (stat_of th =? RT_THREAD_READY) then Some (k, - RT_ERROR)
  else
    k ← upd_th t (fun th => th_set_stat (Z.lor RT_THREAD_SUSPEND
                    (Z.land (th_stat th) (Z.lnot RT_THREAD_STAT_MASK))) th) k;
    k ← on_s (rt_schedule_remove_thread t) k;
    '(tb, _) ← rt_timer_stop (TThread t) (k_t k);
    Some (set_t tb k, RT_EOK).

Definition unlink (t : tid) (k : kernel) : kernel :=
  set_s (set_lists (lists_remove t (lists (k_s k))) (k_s k)) k.

Definition rt_thread_resume (t : tid) (k : kernel) : option (kernel * Z) :=
  th ← threads (k_s k) !! t;
  if negb (stat_of th =? RT_THREAD_SUSPEND) then Some (k, - RT_ERROR)
  else
    let k := unlink t k in
    '(tb, _) ← rt_timer_stop (TThread t) (k_t k);
    k ← on_s (rt_schedule_insert_thread t) (set_t tb k);
    Some (k, RT_EOK).

Definition rt_thread_timeout (t : tid) (k : kernel) : option kernel :=
  k ← upd_th t (th_set_error (- RT_ETIMEOUT)) k;
  let k := unlink t k in
  k ← on_s (rt_schedule_insert_thread t) k;
  on_s rt_schedule k.

Definition rt_thread_yield (k : kernel) : option (kernel * Z) :=
  k ← on_s rt_schedule k; Some (k, RT_EOK).

Definition rt_thread_startup (t : tid) (k : kernel) : option (kernel * Z) :=
  k ← upd_th t (fun th => th_set_priority (th_init_priority th)
                  (u32 (Z.shiftl 1 (th_init_priority th))) th) k;
  k ← upd_th t (th_set_stat RT_THREAD_SUSPEND) k;
  '(k, _) ← rt_thread_resume t k;
  match rt_thread_self k with
  | Some _ => k ← on_s rt_schedule k; Some (k, RT_EOK)
  | None => Some (k, RT_EOK)
  end.

(** [RT_TIMER_CTRL_SET_TIME] and [rt_timer_start] on the thread's timer, as all
    blocking operations do. *)
Definition start_thread_timer (t : tid) (time : Z) (k : kernel) : option kernel :=
  '(tb, _) ← rt_timer_control (TThread t) (TimerSetTime time) (k_t k);
  on_t (rt_timer_start (TThread t)) (set_t tb k).

(** The part of [rt_thread_sleep] up to [rt_schedule]. *)
Definition rt_thread_sleep_enter (tick : Z) (k : kernel) : option kernel :=
  t ← rt_thread_self k;
  '(k, _) ← rt_thread_suspend t k;
  start_thread_timer t tick k.

(** The part after it, executed by thread [t]. *)
Definition rt_thread_sleep_resume (t : tid) (k : kernel) : option (kernel * Z) :=
  k ← upd_th t (fun th => if th_error th =? - RT_ETIMEOUT then th_set_error RT_EOK th else th) k;
  Some (k, RT_EOK).

Definition rt_thread_delay_enter (tick : Z) : kernel -> option kernel := rt_thread_sleep_enter tick.
Definition rt_thread_mdelay_enter (ms : Z) : kernel -> option kernel :=
  rt_thread_sleep_enter (u32 (rt_tick_from_millisecond ms)).

(** [th->number_mask = 1 << prio] in 32 bits. *)
Definition change_priority (prio : Z) (th : rt_thread) : rt_thread :=
  th_set_priority prio (u32 (Z.shiftl 1 prio)) th.

Definition rt_thread_detach (t : tid) (k : kernel) : option (kernel * Z) :=
  th ← threads (k_s k) !! t;
  k ← (if negb (stat_of th =? RT_THREAD_INIT) then on_s (rt_schedule_remove_thread t) k else Some k);
  k ← on_t (rt_timer_detach (TThread t)) k;
  k ← upd_th t (th_set_stat RT_THREAD_CLOSE) k;
  k ← upd_th t (th_set_type RT_Object_Class_Null) k;
  if th_cleanup th
  then ls ← lists_push LDefunct t (lists (k_s k)); Some (set_s (set_lists ls (k_s k)) k, RT_EOK)
  else Some (k, RT_EOK).

Definition rt_thread_delete (t : tid) (k : kernel) : option (kernel * Z) :=
  th ← threads (k_s k) !! t;
  k ← (if negb (stat_of th =? RT_THREAD_INIT) then on_s (rt_schedule_remove_thread t) k else Some k);
  k ← on_t (rt_timer_detach (TThread t)) k;
  k ← upd_th t (th_set_stat RT_THREAD_CLOSE) k;
  ls ← lists_push LDefunct t (lists (k_s k));
  Some (set_s (set_lists ls (k_s k)) k, RT_EOK).

Inductive thread_cmd := ThreadStartup | ThreadClose | ThreadChangePriority (prio : Z) | ThreadOther.

Definition rt_thread_control (t : tid) (cmd : thread_cmd) (k : kernel) : option (kernel * Z) :=
  match cmd with
  | ThreadChangePriority prio =>
      th ← threads (k_s k) !! t;
      if stat_of th =? RT_THREAD_READY then
        k ← on_s (rt_schedule_remove_thread t) k;
        k ← upd_th t (change_priority (u8 prio)) k;
        k ← on_s (rt_schedule_insert_thread t) k;
        Some (k, RT_EOK)
      else k ← upd_th t (change_priority (u8 prio)) k; Some (k, RT_EOK)
  | ThreadStartup => rt_thread_startup t k
  | ThreadClose => rt_thread_delete t k
  | ThreadOther => Some (k, RT_EOK)
  end.

(** object.c *)
Definition rt_object_is_systemobject (type : Z) : bool := negb (Z.land type RT_Object_Class_Static =? 0).

(** Up to [rt_schedule], which does not come back to the thread. *)
Definition rt_thread_exit_enter (k : kernel) : option kernel :=
  t ← rt_thread_self k;
  k ← on_s (rt_schedule_remove_thread t) k;
  k ← upd_th t (th_set_stat RT_THREAD_CLOSE) k;
  k ← on_t (rt_timer_detach (TThread t)) k;
  th ← threads (k_s k) !! t;
  if rt_object_is_systemobject (th_type th) && negb (th_cleanup th)
  then upd_th t (th_set_type RT_Object_Class_Null) k
  else ls ← lists_push LDefunct t (lists (k_s k)); Some (set_s (set_lists ls (k_s k)) k).

(** ** The idle thread's clean-up (idle.c) *)

(** [rt_object_delete] on a thread object: its memory, with the timer in it, is
    returned to the heap. *)
Definition free_thread (t : tid) (k : kernel) : kernel :=
  let s := set_threads (delete t (threads (k_s k))) (k_s k) in
  set_t (set_timers (delete (TThread t) (timers (k_t k))) (k_t k)) (set_s s k).

Definition _has_defunct_thread (k : kernel) : bool :=
  match lists (k_s k) !! LDefunct with Some (_ :: _) => true | _ => false end.

(** [cleanup] are the clean-up functions the application has installed. The
    second component lists the stacks handed to [RT_KERNEL_FREE], with the
    thread they belong to. [fuel] bounds the number of defunct threads. *)
Section Idle.
Context (cleanup : tid -> kernel -> option kernel).

Fixpoint rt_thread_idle_excute (fuel : nat) (k : kernel) : option (kernel * list (tid * Z)) :=
    if negb (_has_defunct_thread k) then Some (k, [])
    else
      match fuel with
      | O => None
      | S fuel =>
          l ← lists (k_s k) !! LDefunct;
          t ← head l;
          th ← threads (k_s k) !! t;
          let k := unlink t k in
          let k := set_s (rt_enter_critical (k_s k)) k in
          k ← (if th_cleanup th then cleanup t k else Some k);
          k ← on_s rt_exit_critical k;
          if rt_object_is_systemobject (th_type th) then Some (k, [])
          else
            '(k, freed) ← rt_thread_idle_excute fuel (free_thread t k);
            Some (k, (t, th_stack_addr th) :: freed)
      end.
End Idle.

(** ** Specifications *)

Create HintDb kernel.

(** A thread state change that leaves timers and objects alone. *)
Lemma kernel_set_sched X lo k s' :
  kernel_but X lo k -> sched_wf s' ->
  (forall t th', threads s' !! t = Some th' -> stat_of th' <> RT_THREAD_CLOSE ->
     exists th, threads (k_s k) !! t = Some th /\ stat_of th <> RT_THREAD_CLOSE) ->
  (forall t, TThread t ∈ timer_list (k_t k) -> suspended (k_s k) t -> suspended s' t) ->
  (forall h, is_Some (lists (k_s k) !! h) -> is_Some (lists s' !! h)) ->
  kernel_but X lo (set_s s' k).
Proof.
  intros [Hs Ht [Hh Hl Ho] Hob] Hs' Hth Hsus Hls. split; simpl; [done|done|split|]; simpl.
  - intros t th' Hth' Hst. destruct (Hth t th' Hth' Hst) as (th & ? & ?). by apply (Hh t th).
  - intros t Hin. by apply Hsus, Hl.
  - done.
  - intros o x Hx. destruct (Hob o x Hx) as [H1 H2]. split; [by apply Hls|]. intros mb E. by eapply Hls, H2.
Qed.

Lemma suspended_not_ready s t th :
  threads s !! t = Some th -> stat_of th = RT_THREAD_SUSPEND -> ~ is_ready th.
Proof. unfold is_ready. intros _ ->. discriminate. Qed.

(** A change of the timers that keeps the thread timers thread timers, and lists
    those of suspended threads only. *)
Lemma kernel_set_timers_gen X Y lo k tb' :
  kernel_but X lo k -> timers_but Y lo tb' ->
  (forall t tm, timers (k_t k) !! TThread t = Some tm -> thread_timer t tm ->
     exists tm', timers tb' !! TThread t = Some tm' /\ thread_timer t tm') ->
  (forall t, TThread t ∈ timer_list tb' -> suspended (k_s k) t) ->
  (forall n tm t, timers tb' !! TObj n = Some tm -> tm_func tm <> FnThreadTimeout t) ->
  kernel_but Y lo (set_t tb' k).
Proof.
  intros [Hs Ht [Hh Hl Ho] Hob] Ht' Htt Hsus Hobj. split; simpl; [done|done|split|done]; simpl.
  - intros t th Hth Hst. destruct (Hh t th Hth Hst) as (tm & ? & ?). by eapply Htt.
  - exact Hsus.
  - exact Hobj.
Qed.

Lemma kernel_set_timers X Y lo k tb' :
  kernel_but X lo k -> timers_but Y lo tb' ->
  (forall t tm, timers (k_t k) !! TThread t = Some tm -> thread_timer t tm ->
     exists tm', timers tb' !! TThread t = Some tm' /\ thread_timer t tm') ->
  (forall t, TThread t ∈ timer_list tb' -> suspended (k_s k) t) ->
  (forall n, timers tb' !! TObj n = timers (k_t k) !! TObj n) ->
  kernel_but Y lo (set_t tb' k).
Proof.
  intros Hk Ht' Htt Hsus Hobj. apply (kernel_set_timers_gen X); try done.
  intros n tm t. rewrite Hobj. apply Hk.
Qed.

Lemma thread_timer_deactivate t tm : thread_timer t tm -> thread_timer t (tm_deactivate tm).
Proof. intros (? & ? & ?). unfold thread_timer. by rewrite periodic_deactivate. Qed.

Lemma thread_timer_started t tm now x :
  thread_timer t tm -> thread_timer t (tm_started now (tm_set_init x tm)).
Proof. intros (? & ? & ?). unfold thread_timer. by rewrite periodic_started. Qed.
#[export] Hint Resolve thread_timer_deactivate thread_timer_started : kernel.

(** Stopping the timer of a thread, whatever the state of the thread. *)
Lemma kernel_timer_stop X lo k t th :
  kernel_but X lo k -> threads (k_s k) !! t = Some th -> stat_of th <> RT_THREAD_CLOSE ->
  exists tb' r tm, rt_timer_stop (TThread t) (k_t k) = Some (tb', r) /\
    timers (k_t k) !! TThread t = Some tm /\
    kernel_but (X ∖ {[TThread t]}) lo (set_t tb' k) /\
    timers tb' = <[TThread t := tm_deactivate tm]> (timers (k_t k)) /\
    timer_list tb' = remove_elem (TThread t) (timer_list (k_t k)) /\ rt_tick tb' = rt_tick (k_t k).
Proof.
  intros Hk Ht Hst. pose proof Hk as [_ Htw [Hh Hl _] _].
  destruct (Hh t th Ht Hst) as (tm & Htm & Htt).
  destruct (rt_timer_stop_spec X lo (k_t k) (TThread t) tm Htw Htm) as (tb' & Hop & Hw' & Htms & Hls & Htk).
  exists tb', (if is_active tm then 0 else -1), tm. splits; try done.
  apply (kernel_set_timers X); try done.
  - intros t' tm'. rewrite Htms. destruct (decide (t' = t)) as [->|Hne].
    + rewrite lookup_insert_eq. intros E ?. rewrite Htm in E. injection E as <-. eauto with kernel.
    + rewrite lookup_insert_ne by congruence. eauto.
  - intros t'. rewrite Hls. intros [_ Hin]%elem_of_remove_elem. by apply Hl.
  - intros n. by rewrite Htms, lookup_insert_ne.
Qed.

(** What waking thread [t] (with object [th]) does to the scheduler state. *)
Record woken (t : tid) (th : rt_thread) (s s' : sched) : Prop := {
  wk_threads : threads s' = <[t := make_ready th]> (threads s);
  wk_lists : forall h, (forall p, h <> LReady p) -> lists s' !! h = remove_elem t <$> lists s !! h;
  wk_queue : current s = Some t \/
    exists l, lists s' !! LReady (th_current_priority th) = Some (l ++ [t]) /\
      lists s !! LReady (th_current_priority th) = Some l;
  wk_current : current s' = current s;
  wk_nest : lock_nest s' = lock_nest s /\ irq_nest s' = irq_nest s;
}.

Lemma make_ready_stat th : stat_of (make_ready th) = RT_THREAD_READY.
Proof. apply make_ready_ready. Qed.

(** Unlinking a suspended thread and queueing it. *)
Lemma wake_sched s t th :
  sched_wf s -> threads s !! t = Some th -> stat_of th = RT_THREAD_SUSPEND ->
  exists s', rt_schedule_insert_thread t (unlinked_state t s) = Some s' /\ sched_wf s' /\ woken t th s s'.
Proof.
  intros Hwf Ht Hst. pose proof (suspended_not_ready _ _ _ Ht Hst) as Hnr.
  pose proof (wf_unlink s t th Hwf Ht Hnr) as Hwf1.
  destruct (wf_insert_suspended (unlinked_state t s) t th) as
    (s' & l & Hop & Hwf' & Hths & Hl & Hls & Hcu & _ & Hlk & Hirq); try done; [apply unlinked_after|].
  exists s'. splits; try done. simpl in *.
  assert (lists s !! LReady (th_current_priority th) = Some l) as Hl0.
  { rewrite lists_remove_lookup in Hl. apply fmap_Some in Hl as (l0 & Hl0 & ->). rewrite Hl0. f_equal.
    symmetry. apply remove_elem_notin. eapply not_ready_unqueued; [apply Hwf|done..]. }
  split; try done.
  - intros h Hh. rewrite Hls. destruct (decide (current s = Some t)).
    + apply lists_remove_lookup.
    + rewrite lookup_insert_ne by auto. apply lists_remove_lookup.
  - rewrite Hls. destruct (decide (current s = Some t)); [by left|right].
    exists l. by rewrite lookup_insert_eq.
Qed.

Lemma woken_lists_some t th s s' :
  sched_wf s -> sched_wf s' -> woken t th s s' ->
  forall h, is_Some (lists s !! h) -> is_Some (lists s' !! h).
Proof.
  intros Hw Hw' Hwk h Hh.
  assert ((exists p, h = LReady p) \/ forall p, h <> LReady p) as [[p ->]|Hn].
  { destruct h; [left; eauto|right; discriminate..]. }
  - apply (c_heads _ _ (wf_core _ Hw')). by apply (c_heads _ _ (wf_core _ Hw)).
  - rewrite (wk_lists _ _ _ _ Hwk) by done. by apply fmap_is_Some.
Qed.

Lemma woken_suspended t th s s' t' :
  woken t th s s' -> t' <> t -> suspended s t' -> suspended s' t'.
Proof.
  intros Hwk Hne (th' & Ht' & Hst). exists th'. by rewrite (wk_threads _ _ _ _ Hwk), lookup_insert_ne.
Qed.

(** Waking in the kernel: the timer of [t] must be off the timer list. *)
Lemma kernel_wake X lo k t th :
  kernel_but X lo k -> threads (k_s k) !! t = Some th -> stat_of th = RT_THREAD_SUSPEND ->
  TThread t ∉ timer_list (k_t k) ->
  exists s', rt_schedule_insert_thread t (unlinked_state t (k_s k)) = Some s' /\
    kernel_but X lo (set_s s' k) /\ woken t th (k_s k) s'.
Proof.
  intros Hk Ht Hst Hoff. pose proof Hk as [Hs _ _ _].
  destruct (wake_sched (k_s k) t th Hs Ht Hst) as (s' & Hop & Hwf' & Hwk).
  exists s'. splits; try done. apply kernel_set_sched; try done.
  - intros t' th'. rewrite (wk_threads _ _ _ _ Hwk). destruct (decide (t' = t)) as [->|Hne].
    + intros _ _. exists th. rewrite Hst. split; [done|discriminate].
    + rewrite lookup_insert_ne by done. eauto.
  - intros t' Hin. apply (woken_suspended t th); [done|]. congruence.
  - by eapply woken_lists_some.
Qed.

(** [rt_thread_resume] on a suspended thread. *)
Lemma rt_thread_resume_spec X lo k t th :
  kernel_but X lo k -> threads (k_s k) !! t = Some th -> stat_of th = RT_THREAD_SUSPEND ->
  exists k' tm, rt_thread_resume t k = Some (k', RT_EOK) /\ kernel_but (X ∖ {[TThread t]}) lo k' /\
    woken t th (k_s k) (k_s k') /\ k_o k' = k_o k /\
    timers (k_t k) !! TThread t = Some tm /\
    timers (k_t k') = <[TThread t := tm_deactivate tm]> (timers (k_t k)) /\
    timer_list (k_t k') = remove_elem (TThread t) (timer_list (k_t k)) /\ rt_tick (k_t k') = rt_tick (k_t k).
Proof.
  intros Hk Ht Hst. unfold rt_thread_resume. rewrite Ht. simpl. rewrite Hst. simpl.
  destruct (kernel_timer_stop X lo k t th Hk Ht) as (tb' & r & tm & -> & Htm & Hk1 & Htms & Hls & Htk);
    [by rewrite Hst|]. simpl.
  destruct (kernel_wake (X ∖ {[TThread t]}) lo (set_t tb' k) t th) as (s' & Hop & Hk2 & Hwk);
    [done..|simpl; rewrite Hls; auto with lists|].
  unfold on_s. simpl in *. rewrite Hop. simpl. eexists _, tm. splits; try done.
Qed.

Lemma rt_thread_resume_error t k th :
  threads (k_s k) !! t = Some th -> stat_of th <> RT_THREAD_SUSPEND ->
  rt_thread_resume t k = Some (k, - RT_ERROR).
Proof.
  intros Ht Hst. unfold rt_thread_resume. rewrite Ht. simpl.
  by rewrite (proj2 (Z.eqb_neq _ _) Hst).
Qed.

Definition make_suspended (th : rt_thread) : rt_thread :=
  th_set_stat (Z.lor RT_THREAD_SUSPEND (Z.land (th_stat th) (Z.lnot RT_THREAD_STAT_MASK))) th.

Lemma make_suspended_stat th : stat_of (make_suspended th) = RT_THREAD_SUSPEND.
Proof. apply stat_set_low. unfold RT_THREAD_SUSPEND. lia. Qed.

(** [rt_thread_suspend] on a ready thread. *)
Lemma rt_thread_suspend_spec X lo k t th :
  kernel_but X lo k -> threads (k_s k) !! t = Some th -> is_ready th ->
  exists k', rt_thread_suspend t k = Some (k', RT_EOK) /\ kernel_but (X ∖ {[TThread t]}) lo k' /\
    threads (k_s k') = <[t := make_suspended th]> (threads (k_s k)) /\
    lists (k_s k') = lists_remove t (lists (k_s k)) /\
    current (k_s k') = current (k_s k) /\ lock_nest (k_s k') = lock_nest (k_s k) /\
    irq_nest (k_s k') = irq_nest (k_s k) /\ k_o k' = k_o k /\
    timer_list (k_t k') = timer_list (k_t k) /\ rt_tick (k_t k') = rt_tick (k_t k).
Proof.
  intros Hk Ht Hrd. pose proof Hk as [Hs Htw [Hh Hl Ho] Hob]. unfold rt_thread_suspend. rewrite Ht. simpl.
  rewrite Hrd. simpl. unfold upd_th, on_s. rewrite (upd_thread_eq _ _ _ _ Ht). fold (make_suspended th). simpl.
  assert (prio_ok th) as Hpo by (apply (c_prio _ _ (wf_core _ Hs) t); [done|by rewrite Hrd..]).
  destruct (wf_remove_thread (k_s k) t th (make_suspended th)) as
    (s' & -> & Hwf' & Hths & Hls & Hcu & Hcp & Hlk & Hirq); try done.
  { unfold is_ready. by rewrite make_suspended_stat. }
  { exact (c_stack _ _ (wf_core _ Hs) t th Ht). }
  simpl. assert (kernel_but X lo (set_s s' k)) as Hk1.
  { apply kernel_set_sched; try done.
    - intros t' th'. rewrite Hths. destruct (decide (t' = t)) as [->|Hne].
      + intros _ _. exists th. rewrite Hrd. done.
      + rewrite lookup_insert_ne by done. eauto.
    - intros t' Hin (th' & Ht' & Hst'). unfold suspended. rewrite Hths.
      destruct (decide (t' = t)) as [->|Hne]; [|rewrite lookup_insert_ne by done; eauto].
      rewrite lookup_insert_eq. exists (make_suspended th). by rewrite make_suspended_stat.
    - intros h. by rewrite Hls, lists_remove_lookup, fmap_is_Some. }
  destruct (kernel_timer_stop X lo _ t (make_suspended th) Hk1) as
    (tb' & r & tm & Hop & _ & Hk2 & _ & Htl & Htk).
  { simpl. by rewrite Hths, lookup_insert_eq. }
  { by rewrite make_suspended_stat. }
  simpl in *. rewrite Hop. simpl. eexists. splits; try done. simpl.
  rewrite Htl. apply remove_elem_notin. intros Hin.
  destruct (Hl t Hin) as (th0 & Ht0 & Hst0). rewrite Ht in Ht0. injection Ht0 as <-.
  by rewrite Hrd in Hst0.
Qed.

(** Arming the timer of a suspended thread. *)
Lemma start_thread_timer_spec X lo k t time :
  kernel_but X lo k -> suspended (k_s k) t -> -1 <= lo <= time -> 0 <= time <= max_delay ->
  exists k', start_thread_timer t time k = Some k' /\ kernel_but (X ∖ {[TThread t]}) lo k' /\
    k_s k' = k_s k /\ k_o k' = k_o k /\ rt_tick (k_t k') = rt_tick (k_t k) /\
    TThread t ∈ timer_list (k_t k') /\ timer_left (k_t k') (TThread t) = time /\
    (forall p, p <> TThread t -> untouched (k_t k) (k_t k') p).
Proof.
  intros Hk (th & Ht & Hst) Hlo Hr. pose proof Hk as [Hs Htw [Hh Hl Ho] Hob].
  destruct (Hh t th Ht) as (tm & Htm & Htt); [by rewrite Hst|].
  unfold start_thread_timer, rt_timer_control. rewrite Htm. simpl.
  unfold upd_timer. rewrite Htm. simpl. rewrite u32_small by (unfold is_u32, max_delay in *; lia).
  set (tb1 := set_timers (<[TThread t := tm_set_init time tm]> (timers (k_t k))) (k_t k)).
  assert (timers_but X lo tb1) as Hw1 by (by apply (timers_but_set _ _ _ _ tm)).
  destruct (rt_timer_start_spec X lo tb1 (TThread t) (tm_set_init time tm)) as
    (tb' & l1 & l2 & Hop & Hw' & Htk & Htms & Hls & Hrm & _);
    [simpl; lia|done|simpl; by rewrite lookup_insert_eq|simpl; lia|].
  unfold on_t. simpl. rewrite Hop. simpl. exists (set_t tb' k).
  change (timers tb1) with (<[TThread t := tm_set_init time tm]> (timers (k_t k))) in Htms.
  rewrite insert_insert_eq in Htms. simpl in Hrm.
  assert (forall p, p <> TThread t -> p ∈ timer_list tb' <-> p ∈ timer_list (k_t k)) as Hmem.
  { intros p Hp. rewrite Hls, elem_of_app, elem_of_cons.
    assert (p ∈ remove_elem (TThread t) (timer_list (k_t k)) <-> p ∈ l1 ++ l2) as Hi by (by rewrite Hrm).
    rewrite elem_of_remove_elem, elem_of_app in Hi. tauto. }
  splits; try done.
  - apply (kernel_set_timers X); try done.
    + intros t' tm'. rewrite Htms. destruct (decide (t' = t)) as [->|Hne].
      * rewrite lookup_insert_eq. intros E ?. rewrite Htm in E. injection E as <-. eauto with kernel.
      * rewrite lookup_insert_ne by congruence. eauto.
    + intros t' Hin. destruct (decide (t' = t)) as [->|Hne]; [by exists th|].
      apply Hl. apply Hmem; [congruence|done].
    + intros n. by rewrite Htms, lookup_insert_ne.
  - simpl. rewrite Hls. set_solver.
  - simpl. unfold timer_left. rewrite Htms, lookup_insert_eq. simpl. by apply ticks_left_after.
  - intros p Hp. split; [simpl; by rewrite Htms, lookup_insert_ne|by apply Hmem].
Qed.

(** What [rt_schedule] does to a thread object does not change its status. *)
Lemma same_frame_thread s s' t :
  same_frame s s' -> (exists th, threads s !! t = Some th) ->
  exists th th', threads s !! t = Some th /\ threads s' !! t = Some th' /\
    (th' = th \/ is_ready th /\ th' = make_ready th) /\ stat_of th' = stat_of th.
Proof.
  intros (_ & _ & _ & Hth) [th Ht]. destruct (Hth t) as [E|(th0 & Ht0 & Hr & E)].
  - exists th, th. rewrite E. auto.
  - exists th0, (make_ready th0). rewrite make_ready_stat. splits; try done. by right.
Qed.

Lemma same_frame_back s s' t th' :
  same_frame s s' -> threads s' !! t = Some th' ->
  exists th, threads s !! t = Some th /\ stat_of th = stat_of th'.
Proof.
  intros (_ & _ & _ & Hth) Ht'. destruct (Hth t) as [E|(th0 & Ht0 & Hr & E)].
  - exists th'. by rewrite <-E.
  - exists th0. split; [done|]. rewrite E in Ht'. injection Ht' as <-. by rewrite make_ready_stat.
Qed.

Lemma same_frame_suspended s s' t : same_frame s s' -> suspended s t <-> suspended s' t.
Proof.
  intros Hf. split.
  - intros (th & Ht & Hst). destruct (same_frame_thread s s' t Hf) as (th0 & th' & Ht0 & Ht' & _ & E); [eauto|].
    exists th'. split; [done|]. congruence.
  - intros (th' & Ht' & Hst). destruct (same_frame_back _ _ _ _ Hf Ht') as (th & ? & ?). exists th. split; [done|congruence].
Qed.

Lemma kernel_frame X lo k s' :
  kernel_but X lo k -> sched_wf s' -> same_frame (k_s k) s' -> kernel_but X lo (set_s s' k).
Proof.
  intros Hk Hs' Hf. apply kernel_set_sched; try done.
  - intros t th' Ht' Hst. destruct (same_frame_back _ _ _ _ Hf Ht') as (th & ? & E).
    exists th. rewrite E. done.
  - intros t _. apply (same_frame_suspended _ _ _ Hf).
  - intros h Hh. assert ((exists p, h = LReady p) \/ forall p, h <> LReady p) as [[p ->]|Hn].
    { destruct h; [left; eauto|right; discriminate..]. }
    + apply (c_heads _ _ (wf_core _ Hs')). by apply (c_heads _ _ (wf_core _ (kw_sched _ _ _ Hk))).
    + destruct Hf as (_ & _ & Hls & _). by rewrite Hls.
Qed.

Lemma kernel_schedule X lo k c :
  kernel_but X lo k -> current (k_s k) = Some c ->
  exists s', on_s rt_schedule k = Some (set_s s' k) /\ kernel_but X lo (set_s s' k) /\
    same_frame (k_s k) s' /\ is_Some (current s').
Proof.
  intros Hk Hc. destruct (rt_schedule_total (k_s k) c (kw_sched _ _ _ Hk) Hc) as (s' & Hop & Hwf & Hf & Hcu).
  exists s'. unfold on_s. rewrite Hop. splits; try done. by apply kernel_frame.
Qed.

(** Updating fields of a thread that the scheduler does not read. *)
Lemma kernel_put_same X lo k t th th' :
  kernel_but X lo k -> threads (k_s k) !! t = Some th -> same_sched_fields th th' ->
  kernel_but X lo (set_th t th' k).
Proof.
  intros Hk Ht Hsf. unfold set_th. apply kernel_set_sched; try done.
  - by eapply wf_put_same; [apply Hk|..].
  - intros t' th0. simpl. destruct (decide (t' = t)) as [->|Hne].
    + rewrite lookup_insert_eq. intros [= <-]. rewrite (sf_stat _ _ Hsf). eauto.
    + rewrite lookup_insert_ne by done. eauto.
  - intros t' _ (th0 & Ht0 & Hst). unfold suspended. simpl. destruct (decide (t' = t)) as [->|Hne].
    + rewrite lookup_insert_eq. exists th'. split; [done|]. rewrite (sf_stat _ _ Hsf). congruence.
    + rewrite lookup_insert_ne by done. eauto.
Qed.

Lemma set_error_same e th : same_sched_fields th (th_set_error e th).
Proof. by split. Qed.
Lemma set_remaining_same e th : same_sched_fields th (th_set_remaining e th).
Proof. by split. Qed.
Lemma set_event_same x i th : same_sched_fields th (th_set_event x i th).
Proof. by split. Qed.
#[export] Hint Resolve set_error_same set_remaining_same set_event_same : kernel.

Lemma upd_th_eq t f k th :
  threads (k_s k) !! t = Some th -> upd_th t f k = Some (set_th t (f th) k).
Proof. intros Ht. unfold upd_th, on_s. by rewrite (upd_thread_eq _ _ _ _ Ht). Qed.

(** [rt_thread_timeout] on a suspended thread whose timer is off the list. *)
Lemma rt_thread_timeout_spec X lo k t th c :
  kernel_but X lo k -> threads (k_s k) !! t = Some th -> stat_of th = RT_THREAD_SUSPEND ->
  TThread t ∉ timer_list (k_t k) -> current (k_s k) = Some c ->
  exists s1 s', rt_thread_timeout t k = Some (set_s s' k) /\ kernel_but X lo (set_s s' k) /\
    woken t (th_set_error (- RT_ETIMEOUT) th) (put_thread t (th_set_error (- RT_ETIMEOUT) th) (k_s k)) s1 /\
    same_frame s1 s' /\ is_Some (current s').
Proof.
  intros Hk Ht Hst Hoff Hc. unfold rt_thread_timeout.
  rewrite (upd_th_eq _ _ _ _ Ht). simpl. set (th1 := th_set_error (- RT_ETIMEOUT) th).
  assert (kernel_but X lo (set_th t th1 k)) as Hk1 by (apply (kernel_put_same _ _ _ _ th); eauto with kernel).
  destruct (kernel_wake X lo (set_th t th1 k) t th1 Hk1) as (s1 & Hop & Hk2 & Hwk);
    [simpl; by rewrite lookup_insert_eq|done..|].
  assert (on_s (rt_schedule_insert_thread t) (unlink t (set_th t th1 k)) = Some (set_s s1 k)) as ->
    by (unfold on_s, unlink; simpl in *; by rewrite Hop). simpl.
  destruct (kernel_schedule X lo _ c Hk2) as (s' & Hop' & Hk3 & Hf & Hcu).
  { simpl. rewrite (wk_current _ _ _ _ Hwk). exact Hc. }
  exists s1, s'. splits; try done.
Qed.

(** ** Closing threads *)

Definition closed_form (th th' : rt_thread) : Prop :=
  stat_of th' = RT_THREAD_CLOSE /\ th_current_priority th' = th_current_priority th /\
  th_number_mask th' = th_number_mask th /\ _rt_scheduler_stack_check th' = _rt_scheduler_stack_check th.

Lemma close_sched s t th :
  sched_wf s -> threads s !! t = Some th -> stat_of th <> RT_THREAD_CLOSE ->
  exists s1, (if negb (stat_of th =? RT_THREAD_INIT) then rt_schedule_remove_thread t s else Some s) = Some s1 /\
    (forall th', closed_form th th' -> sched_wf (put_thread t th' s1)) /\
    threads s1 = threads s /\ lists s1 = lists_remove t (lists s) /\ current s1 = current s /\
    lock_nest s1 = lock_nest s /\ irq_nest s1 = irq_nest s.
Proof.
  intros Hwf Ht Hst. destruct (Z.eqb_spec (stat_of th) RT_THREAD_INIT) as [Hi|Hi]; simpl.
  - pose proof (init_unlinked _ _ _ (wf_core _ Hwf) Ht Hi) as Hun.
    exists s. rewrite ListRefine.lists_remove_unlinked by done. splits; try done.
    intros th' (Hc & Hp & Hm & Hsk). apply (wf_put_init _ _ th); try done.
    + unfold is_ready. by rewrite Hc.
    + rewrite Hsk. by apply (c_stack _ _ (wf_core _ Hwf) t).
  - assert (prio_ok th) as Hpo by (by apply (c_prio _ _ (wf_core _ Hwf) t)).
    destruct (remove_thread_spec ∅ t th s) as (s1 & Hop & _ & Hths & Hls & Hcu & _ & Hlk & Hirq);
      [apply core_weaken, Hwf|done..|].
    exists s1. splits; try done. intros th' (Hc & Hp & Hm & Hsk).
    destruct (wf_remove_then_put s t th th') as (s2 & Hop2 & Hwf2 & _); try done.
    + unfold is_ready. by rewrite Hc.
    + rewrite Hsk. by apply (c_stack _ _ (wf_core _ Hwf) t).
    + rewrite Hop in Hop2. by injection Hop2 as <-.
Qed.

Lemma rt_timer_detach_spec X lo tb p tm :
  timers_but X lo tb -> timers tb !! p = Some tm ->
  exists tb', rt_timer_detach p tb = Some tb' /\ timers_but (X ∖ {[p]}) lo tb' /\
    timers tb' = <[p := tm_set_type RT_Object_Class_Null tm]> (timers tb) /\
    timer_list tb' = remove_elem p (timer_list tb) /\ rt_tick tb' = rt_tick tb.
Proof.
  intros Hw Hp. unfold rt_timer_detach, upd_timer. simpl. rewrite Hp. simpl. eexists. splits; try done.
  unfold set_timers, _rt_timer_remove, set_timer_list. simpl. apply (timers_but_unlist X); [done| |by intros].
  intros q Hq. destruct (decide (q = p)); set_solver.
Qed.

(** The first half of [rt_thread_delete] and [rt_thread_detach]. *)
Lemma kernel_close X lo k t th :
  kernel_but X lo k -> threads (k_s k) !! t = Some th -> stat_of th <> RT_THREAD_CLOSE ->
  exists s1 tb1, (if negb (stat_of th =? RT_THREAD_INIT) then on_s (rt_schedule_remove_thread t) k else Some k) =
      Some (set_s s1 k) /\
    rt_timer_detach (TThread t) (k_t k) = Some tb1 /\
    (forall th', closed_form th th' -> kernel_but (X ∖ {[TThread t]}) lo (set_th t th' (set_t tb1 (set_s s1 k)))) /\
    threads s1 = threads (k_s k) /\ lists s1 = lists_remove t (lists (k_s k)) /\
    current s1 = current (k_s k) /\ lock_nest s1 = lock_nest (k_s k) /\
    timer_list tb1 = remove_elem (TThread t) (timer_list (k_t k)).
Proof.
  intros Hk Ht Hst. pose proof Hk as [Hs Htw [Hh Hl Ho] Hob].
  destruct (close_sched (k_s k) t th Hs Ht Hst) as (s1 & Hop & Hwf & Hths & Hls & Hcu & Hlk & _).
  destruct (Hh t th Ht Hst) as (tm & Htm & _).
  destruct (rt_timer_detach_spec X lo (k_t k) (TThread t) tm Htw Htm) as (tb1 & Hop1 & Hw1 & Htms & Htl & _).
  exists s1, tb1. splits; try done.
  - unfold on_s. destruct (negb _); [by rewrite Hop|]. injection Hop as <-. by destruct k.
  - intros th' Hth'. split; simpl; [auto|done|split|]; simpl.
    + intros t' th0. rewrite Hths. destruct (decide (t' = t)) as [->|Hne].
      * rewrite lookup_insert_eq. intros [= <-] Hc. by destruct Hth'.
      * rewrite lookup_insert_ne by done. intros Ht' Hc. rewrite Htms, lookup_insert_ne by congruence. eauto.
    + intros t'. rewrite Htl. intros [Hne Hin]%elem_of_remove_elem. destruct (Hl t' Hin) as (th0 & ? & ?).
      exists th0. rewrite Hths, lookup_insert_ne by congruence. done.
    + intros n tm0 t'. rewrite Htms, lookup_insert_ne by done. apply Ho.
    + intros o x Hx. destruct (Hob o x Hx) as [H1 H2]. simpl. rewrite Hls, !lists_remove_lookup.
      split; [by apply fmap_is_Some|]. intros mb E. apply fmap_is_Some. by eapply H2.
Qed.

(** Appending to the defunct list. *)
Lemma kernel_push_defunct X lo k t th :
  kernel_but X lo k -> threads (k_s k) !! t = Some th -> stat_of th = RT_THREAD_CLOSE ->
  ~ linked t (lists (k_s k)) ->
  exists l, lists (k_s k) !! LDefunct = Some l /\
    kernel_but X lo (set_s (put_list LDefunct (t :: l) (k_s k)) k).
Proof.
  intros Hk Ht Hst Hun. destruct (c_defunct _ _ (wf_core _ (kw_sched _ _ _ Hk))) as [l Hl].
  exists l. split; [done|]. apply kernel_set_sched; try done.
  - apply (wf_link _ t th _ l); try done. apply Hk.
  - intros t' th'. simpl. eauto.
  - intros h Hh. simpl. rewrite lookup_insert. destruct (decide (LDefunct = h)); [by eexists|done].
Qed.

(** Deleting a thread that is not yet closed returns, keeps the kernel well
    formed, and leaves the thread closed, at the head of the defunct list and
    on no other list, with its timer off the timer list; no other thread object
    changes. *)
Theorem rt_thread_delete_closes (k : kernel) (t : tid) (th : rt_thread) :
  kernel_wf k -> threads (k_s k) !! t = Some th -> stat_of th <> RT_THREAD_CLOSE ->
  exists k' l, rt_thread_delete t k = Some (k', RT_EOK) /\ kernel_wf k' /\
    lists (k_s k) !! LDefunct = Some l /\
    lists (k_s k') = <[LDefunct := t :: remove_elem t l]> (lists_remove t (lists (k_s k))) /\
    threads (k_s k') = <[t := th_set_stat RT_THREAD_CLOSE th]> (threads (k_s k)) /\
    TThread t ∉ timer_list (k_t k').
Proof.
  intros Hk Ht Hst. destruct (kernel_close ∅ 0 k t th Hk Ht Hst) as
    (s1 & tb1 & Hop1 & Hop2 & Hk1 & Hths & Hls & Hcu & Hlk & Htl).
  unfold rt_thread_delete. rewrite Ht. simpl. rewrite Hop1. simpl. unfold on_t. simpl. rewrite Hop2. simpl.
  assert (threads s1 !! t = Some th) as Ht1 by (by rewrite Hths).
  rewrite (upd_th_eq _ _ (set_t tb1 (set_s s1 k)) th) by done. simpl.
  specialize (Hk1 (th_set_stat RT_THREAD_CLOSE th) ltac:(done)).
  replace (∅ ∖ {[TThread t]}) with (∅ : gset timer_ptr) in Hk1 by set_solver.
  destruct (kernel_push_defunct ∅ 0 _ t (th_set_stat RT_THREAD_CLOSE th) Hk1) as (l & Hl & Hk2);
    [simpl; by rewrite lookup_insert_eq|done|simpl; rewrite Hls, linked_remove; tauto|].
  simpl in Hl. rewrite Hls, lists_remove_lookup in Hl. apply fmap_Some in Hl as (l0 & Hl0 & ->).
  unfold lists_push. simpl. rewrite Hls, lists_remove_lookup, Hl0. simpl.
  eexists _, l0. splits; try done.
  - simpl in Hk2. by rewrite Hls in Hk2.
  - simpl. by rewrite Hths.
  - simpl. rewrite Htl. auto with lists.
Qed.

(** The running thread exits: it is closed, on no ready queue or waiting
    list, its timer is off the timer list, and the kernel stays well formed; it
    goes to the head of the defunct list unless it is a static thread without
    clean-up function, which is detached instead. *)
Theorem rt_thread_exit_closes (k : kernel) (t : tid) (th : rt_thread) :
  kernel_wf k -> current (k_s k) = Some t -> threads (k_s k) !! t = Some th -> is_ready th ->
  exists k' th', rt_thread_exit_enter k = Some k' /\ kernel_wf k' /\
    threads (k_s k') = <[t := th']> (threads (k_s k)) /\ stat_of th' = RT_THREAD_CLOSE /\
    TThread t ∉ timer_list (k_t k') /\ current (k_s k') = Some t /\
    if rt_object_is_systemobject (th_type th) && negb (th_cleanup th)
    then ~ linked t (lists (k_s k')) /\ th_type th' = RT_Object_Class_Null
    else exists l, lists (k_s k) !! LDefunct = Some l /\
      lists (k_s k') = <[LDefunct := t :: remove_elem t l]> (lists_remove t (lists (k_s k))).
Proof.
  intros Hk Hcur Ht Hrd. destruct (kernel_close ∅ 0 k t th Hk Ht) as
    (s1 & tb1 & Hop1 & Hop2 & Hk1 & Hths & Hls & Hcu & Hlk & Htl); [by rewrite Hrd|].
  rewrite Hrd in Hop1. simpl in Hop1.
  unfold rt_thread_exit_enter, rt_thread_self. rewrite Hcur. simpl. rewrite Hop1. simpl.
  assert (threads s1 !! t = Some th) as Ht1 by (by rewrite Hths).
  rewrite (upd_th_eq _ _ (set_s s1 k) th) by done. simpl. unfold on_t. simpl. rewrite Hop2. simpl.
  rewrite lookup_insert_eq. simpl.
  replace (∅ ∖ {[TThread t]}) with (∅ : gset timer_ptr) in Hk1 by set_solver.
  destruct (rt_object_is_systemobject (th_type th) && negb (th_cleanup th)) eqn:Esys.
  - unfold upd_th, on_s. simpl. unfold upd_thread. simpl. rewrite lookup_insert_eq. simpl.
    rewrite insert_insert_eq.
    eexists _, (th_set_type RT_Object_Class_Null (th_set_stat RT_THREAD_CLOSE th)). splits; try done.
    + apply (Hk1 (th_set_type RT_Object_Class_Null (th_set_stat RT_THREAD_CLOSE th))). done.
    + simpl. by rewrite Hths.
    + simpl. rewrite Htl. auto with lists.
    + simpl. by rewrite Hcu.
    + simpl. rewrite Hls, linked_remove. tauto.
  - destruct (kernel_push_defunct ∅ 0 _ t (th_set_stat RT_THREAD_CLOSE th) (Hk1 (th_set_stat RT_THREAD_CLOSE th) ltac:(done))) as (l & Hl & Hk2);
      [simpl; by rewrite lookup_insert_eq|done|simpl; rewrite Hls, linked_remove; tauto|].
    simpl in Hl. rewrite Hls, lists_remove_lookup in Hl. apply fmap_Some in Hl as (l0 & Hl0 & ->).
    unfold lists_push. simpl. rewrite Hls, lists_remove_lookup, Hl0. simpl.
    eexists _, (th_set_stat RT_THREAD_CLOSE th). splits; try done.
    + simpl in Hk2. by rewrite Hls in Hk2.
    + simpl. by rewrite Hths.
    + simpl. rewrite Htl. auto with lists.
    + simpl. by rewrite Hcu.
    + eauto.
Qed.

(** ** The idle thread *)

Lemma kernel_free_thread X lo k t th :
  kernel_but X lo k -> threads (k_s k) !! t = Some th -> stat_of th = RT_THREAD_CLOSE ->
  ~ linked t (lists (k_s k)) -> current (k_s k) <> Some t -> kernel_but X lo (free_thread t k).
Proof.
  intros Hk Ht Hst Hun Hne. pose proof Hk as [Hs Htw [Hh Hl Ho] Hob].
  assert (TThread t ∉ timer_list (k_t k)) as Hoff.
  { intros Hin. destruct (Hl t Hin) as (th0 & Ht0 & Hst0). rewrite Ht in Ht0. injection Ht0 as <-. by rewrite Hst in Hst0. }
  split; simpl; [by apply wf_delete_thread| |split|done]; simpl.
  - split; simpl; try apply Htw.
    + intros p Hp. destruct (tw_listed _ _ _ Htw p Hp) as (tm & ? & ?). exists tm.
      rewrite lookup_delete_ne; [done|]. by intros <-.
    + intros p tm [_ Hp]%lookup_delete_Some. by apply Htw.
    + eapply StronglySorted_ext; [|apply Htw]. intros p q Hp Hq. unfold timer_left. simpl.
      rewrite !lookup_delete_ne; [done|by intros <-..].
  - intros t' th' [Hne' Ht']%lookup_delete_Some Hst'. rewrite lookup_delete_ne by congruence. eauto.
  - intros t' Hin. destruct (Hl t' Hin) as (th' & Ht' & Hst'). exists th'. rewrite lookup_delete_ne; [done|].
    intros <-. congruence.
  - intros n tm t'. rewrite lookup_delete_ne by done. apply Ho.
Qed.

Lemma has_defunct_false k : lists (k_s k) !! LDefunct = Some [] -> _has_defunct_thread k = false.
Proof. unfold _has_defunct_thread. by intros ->. Qed.

(** The clean-up functions: with the scheduler locked they return and touch
    neither threads, lists nor the lock. *)
Definition cleanup_ok (cleanup : tid -> kernel -> option kernel) : Prop :=
  forall t k, kernel_wf k -> exists k', cleanup t k = Some k' /\ kernel_wf k' /\ k_s k' = k_s k.

(** What one activation of the idle thread reaps from the defunct list [l]: it
    stops after the first static thread. *)
Fixpoint reaped (ths : gmap tid rt_thread) (l : list tid) : list (tid * Z) * list tid :=
  match l with
  | [] => ([], [])
  | t :: l =>
      match ths !! t with
      | Some th =>
          if rt_object_is_systemobject (th_type th) then ([], l)
          else let '(f, r) := reaped ths l in ((t, th_stack_addr th) :: f, r)
      | None => ([], l)
      end
  end.

Lemma reaped_delete ths t l : t ∉ l -> reaped (delete t ths) l = reaped ths l.
Proof.
  induction l as [|t' l IH]; [done|]. intros [Hne Hni]%not_elem_of_cons. simpl.
  rewrite lookup_delete_ne by done. by rewrite IH.
Qed.

(** The idle thread runs: nothing else is ready. *)
Definition idling (k : kernel) (c : tid) : Prop :=
  current (k_s k) = Some c /\ lock_nest (k_s k) = 0 /\ ready_group (k_s k) = 0.

(** One round of the loop up to the static/dynamic decision. *)
Lemma idle_round cleanup k c t l th :
  cleanup_ok cleanup -> kernel_wf k -> idling k c ->
  lists (k_s k) !! LDefunct = Some (t :: l) -> threads (k_s k) !! t = Some th ->
  exists k1 k2, let k0 := set_s (rt_enter_critical (k_s (unlink t k))) (unlink t k) in
    (if th_cleanup th then cleanup t k0 else Some k0) = Some k1 /\
    on_s rt_exit_critical k1 = Some k2 /\ k_s k2 = k_s (unlink t k) /\ kernel_wf k2 /\
    stat_of th = RT_THREAD_CLOSE.
Proof.
  intros Hcl Hk (Hc & Hlk & Hg) Hl Ht.
  destruct (c_linked _ _ (wf_core _ (kw_sched _ _ _ Hk)) _ _ t Hl) as (th0 & Ht0 & Hst & _); [by left|].
  rewrite Ht in Ht0. injection Ht0 as <-. specialize (Hst ltac:(set_solver)). simpl in Hst.
  assert (~ is_ready th) as Hnr by (unfold is_ready; by rewrite Hst).
  set (k0 := set_s (rt_enter_critical (k_s (unlink t k))) (unlink t k)).
  assert (kernel_wf k0) as Hk0.
  { unfold k0, unlink. apply (kernel_set_sched ∅ 0 k (rt_enter_critical (unlinked_state t (k_s k)))); try done.
    - apply wf_set_lock. eapply wf_unlink; [apply Hk|done..].
    - intros t' th'. simpl. eauto.
    - intros h Hh. simpl. rewrite lists_remove_lookup. by apply fmap_is_Some. }
  assert (exists k1, (if th_cleanup th then cleanup t k0 else Some k0) = Some k1 /\ kernel_wf k1 /\ k_s k1 = k_s k0)
    as (k1 & Hop1 & Hk1 & Hs1) by (destruct (th_cleanup th); [by apply Hcl|by exists k0]).
  exists k1, (set_s (k_s (unlink t k)) k1). cbv zeta. fold k0. splits; try done.
  - unfold on_s, rt_exit_critical. rewrite Hs1. simpl. rewrite Hlk. simpl.
    unfold rt_schedule. simpl. rewrite Hg. simpl. unfold set_lock, rt_enter_critical, set_lists. simpl. by rewrite Hlk.
  - assert (kernel_wf (unlink t k)) as Hk2.
    { apply (kernel_set_sched ∅ 0 k (unlinked_state t (k_s k))); try done.
      - eapply wf_unlink; [apply Hk|done..].
      - intros t' th'. simpl. eauto.
      - intros h Hh. simpl. rewrite lists_remove_lookup. by apply fmap_is_Some. }
    apply (kernel_set_sched ∅ 0 k1); [done|apply Hk2|..]; rewrite Hs1; simpl; eauto.
Qed.

(** With nothing else ready, the idle thread's clean-up returns, keeps the
    kernel well formed, frees the stack and object of every dynamic thread of
    the defunct list in order, up to and excluding the first static one, and
    leaves on the list what comes after that one. *)
Theorem rt_thread_idle_reaps (cleanup : tid -> kernel -> option kernel) (k : kernel) (c : tid)
    (l : list tid) (fuel : nat) :
  cleanup_ok cleanup -> kernel_wf k -> idling k c -> c ∉ l ->
  lists (k_s k) !! LDefunct = Some l -> (length l <= fuel)%nat ->
  exists k', rt_thread_idle_excute cleanup fuel k = Some (k', (reaped (threads (k_s k)) l).1) /\
    kernel_wf k' /\ lists (k_s k') !! LDefunct = Some (reaped (threads (k_s k)) l).2 /\
    (forall t, threads (k_s k) !! t = None -> threads (k_s k') !! t = None) /\
    forall t a, (t, a) ∈ (reaped (threads (k_s k)) l).1 -> threads (k_s k') !! t = None.
Proof.
  intros Hcl. revert k l. induction fuel as [|fuel IH]; intros k l Hk Hid Hcn Hl Hlen.
  { destruct l; [|simpl in Hlen; lia]. exists k. simpl. rewrite (has_defunct_false k) by done.
    splits; try done. intros t a Hin. by apply elem_of_nil in Hin. }
  destruct l as [|t l].
  { exists k. simpl. rewrite (has_defunct_false k) by done. splits; try done.
    intros t a Hin. by apply elem_of_nil in Hin. }
  apply not_elem_of_cons in Hcn as [Hct Hcn].
  destruct (c_linked _ _ (wf_core _ (kw_sched _ _ _ Hk)) _ _ t Hl) as (th & Ht & _); [by left|].
  destruct (idle_round cleanup k c t l th) as (k1 & k2 & Hop1 & Hop2 & Hs2 & Hk2 & Hst); try done.
  pose proof (proj1 (c_ok _ _ (wf_core _ (kw_sched _ _ _ Hk))) _ _ Hl) as [Htl Hnd]%NoDup_cons.
  simpl. unfold _has_defunct_thread. rewrite Hl. simpl. rewrite Ht. simpl.
  simpl in Hop1. rewrite Hop1. simpl. rewrite Hop2. simpl.
  assert (lists (k_s k2) !! LDefunct = Some l) as Hl2.
  { rewrite Hs2. simpl. rewrite lists_remove_lookup, Hl. simpl. by rewrite remove_elem_cons_eq. }
  destruct (rt_object_is_systemobject (th_type th)).
  { exists k2. splits; try done; [by rewrite Hs2|]. intros t' a Hin. by apply elem_of_nil in Hin. }
  destruct Hid as (Hid1 & Hid2 & Hid3).
  destruct (IH (free_thread t k2) l) as (k' & Hop & Hk' & Hl' & Hnone & Hfree); [| |done|done|simpl in Hlen; lia|].
  { apply (kernel_free_thread ∅ 0 k2 t th); try done; rewrite Hs2; try done.
    - simpl. rewrite linked_remove. tauto.
    - simpl. congruence. }
  { unfold idling. simpl. rewrite Hs2. done. }
  simpl in Hop, Hl', Hnone, Hfree. rewrite Hs2 in Hop, Hl', Hnone, Hfree. simpl in Hop, Hl', Hnone, Hfree.
  rewrite reaped_delete in Hop, Hl', Hfree by done.
  destruct (reaped (threads (k_s k)) l) as [f r]. simpl in *. rewrite Hop. simpl.
  exists k'. splits; try done.
  - intros t' Hn. apply Hnone. apply lookup_delete_None. by right.
  - intros t' a [[= -> ->]|Hin]%elem_of_cons; [|by eapply Hfree]. apply Hnone, lookup_delete_eq.
Qed.

Lemma remove_group_zero t s s' :
  rt_schedule_remove_thread t s = Some s' -> ready_group s = 0 -> ready_group s' = 0.
Proof.
  unfold rt_schedule_remove_thread. intros Hop Hg. inv_option.
  simpl in *. case_bool_decide; injection Hop as <-; simpl; [|done]. by rewrite Hg, Z.land_0_l.
Qed.

(** Detaching a static thread that has a clean-up function makes the idle
    thread hand its static stack to the heap: [rt_thread_detach] resets the
    object type before it puts the thread on the defunct list, where the type
    is what distinguishes static from dynamic threads. *)
Theorem rt_thread_detach_frees_static_stack (cleanup : tid -> kernel -> option kernel) (k : kernel)
    (c t : tid) (th : rt_thread) :
  cleanup_ok cleanup -> kernel_wf k -> idling k c -> c <> t ->
  threads (k_s k) !! t = Some th -> stat_of th <> RT_THREAD_CLOSE ->
  rt_object_is_systemobject (th_type th) = true -> th_cleanup th = true ->
  lists (k_s k) !! LDefunct = Some [] ->
  exists k1 k2, rt_thread_detach t k = Some (k1, RT_EOK) /\
    rt_thread_idle_excute cleanup 1 k1 = Some (k2, [(t, th_stack_addr th)]) /\
    threads (k_s k2) !! t = None.
Proof.
  intros Hcl Hk (Hc & Hlk & Hg) Hct Ht Hst Hsys Hclean Hd.
  destruct (kernel_close ∅ 0 k t th Hk Ht Hst) as
    (s1 & tb1 & Hop1 & Hop2 & Hk1 & Hths & Hls & Hcu & Hlk1 & Htl).
  assert (ready_group s1 = 0) as Hg1.
  { revert Hop1. unfold on_s. destruct (negb _).
    - destruct (rt_schedule_remove_thread t (k_s k)) as [s0|] eqn:E; simpl; [|done].
      intros [= <-]. by eapply remove_group_zero.
    - intros [= E]. enough (k_s k = s1) as <- by done. by rewrite E. }
  unfold rt_thread_detach. rewrite Ht. simpl. rewrite Hop1. simpl. unfold on_t. simpl. rewrite Hop2. simpl.
  assert (threads s1 !! t = Some th) as Ht1 by (by rewrite Hths).
  rewrite (upd_th_eq _ _ (set_t tb1 (set_s s1 k)) th) by done. simpl.
  unfold upd_th, on_s. simpl. unfold upd_thread. simpl. rewrite lookup_insert_eq. simpl.
  rewrite insert_insert_eq, Hclean.
  set (th' := th_set_type RT_Object_Class_Null (th_set_stat RT_THREAD_CLOSE th)).
  specialize (Hk1 th' ltac:(done)).
  replace (∅ ∖ {[TThread t]}) with (∅ : gset timer_ptr) in Hk1 by set_solver.
  destruct (kernel_push_defunct ∅ 0 _ t th' Hk1) as (l & Hl & Hk2);
    [simpl; by rewrite lookup_insert_eq|done|simpl; rewrite Hls, linked_remove; tauto|].
  simpl in Hl. rewrite Hls, lists_remove_lookup, Hd in Hl. injection Hl as <-.
  unfold lists_push. simpl. rewrite Hls, lists_remove_lookup, Hd. simpl.
  match type of Hk2 with kernel_but _ _ ?k2 => set (k3 := k2) in Hk2 end.
  assert (reaped (threads (k_s k3)) [t] = ([(t, th_stack_addr th)], [])) as Er
    by (unfold k3; simpl; by rewrite lookup_insert_eq).
  destruct (rt_thread_idle_reaps cleanup k3 c [t] 1 Hcl Hk2) as (k4 & Hop & _ & _ & _ & Hfree).
  - unfold idling, k3. simpl. rewrite Hcu, Hlk1. done.
  - set_solver.
  - unfold k3. simpl. by rewrite lookup_insert_eq.
  - done.
  - rewrite Er in Hop, Hfree. exists k3, k4. splits; [|exact Hop|].
    + unfold k3. simpl. by rewrite Hls.
    + apply (Hfree t (th_stack_addr th)). by left.
Qed.

(** ** Creating, starting and re-prioritising threads *)

Lemma wf_new_thread s t th :
  sched_wf s -> threads s !! t = None -> stat_of th = RT_THREAD_INIT ->
  _rt_scheduler_stack_check th <> StackOverflow -> sched_wf (put_thread t th s).
Proof.
  intros [Hc Hco Hcur] Ht Hst Hsk. split; [split|..]; simpl; try apply Hc.
  - intros h l t' Hl Hin. destruct (c_linked _ _ Hc _ _ _ Hl Hin) as (th' & Ht' & ?).
    exists th'. rewrite lookup_insert_ne; [done|]. intros ->. congruence.
  - intros t' th'. rewrite lookup_insert. destruct (decide (t = t')); [|apply Hc]. by intros [= <-].
  - intros t' th'. rewrite lookup_insert. destruct (decide (t = t')); [|apply Hc]. by intros [= <-].
  - intros t' th'. simpl. rewrite lookup_insert. destruct (decide (t = t')); [|apply Hco].
    intros [= <-] Hr. unfold is_ready in Hr. by rewrite Hst in Hr.
  - intros c Hcc. destruct (Hcur c Hcc) as [He Hoff]. split; [|done]. simpl.
    rewrite lookup_insert. destruct (decide (t = c)); [by eexists|exact He].
Qed.

(** A stack that holds the initial frame passes the stack check. *)
Lemma init_stack_ok a n :
  0 <= a -> 128 <= n ->
  let sp := rt_hw_stack_init (a + n - 4) in a < sp <= a + n.
Proof.
  intros Ha Hn. cbv zeta. unfold rt_hw_stack_init, RT_ALIGN_DOWN, stack_frame_size. change (8 - 1) with 7.
  replace (a + n - 4 + 4) with (a + n) by lia.
  assert (Z.land (a + n) (Z.lnot 7) = a + n - (a + n) mod 8) as ->; [|dlia].
  change 7 with (Z.ones 3). rewrite <-Z.ldiff_land, Z.ldiff_ones_r by lia.
  rewrite Z.shiftl_mul_pow2, Z.shiftr_div_pow2 by lia. change (2 ^ 3) with 8. dlia.
Qed.

(** Initialising a fresh thread object with a stack of at least 128 bytes
    keeps the kernel well formed; the thread is in the INIT state with the
    given priority and time slice, its stack pointer lies inside its stack, and
    its timer is idle. *)
Theorem rt_thread_init_wf (k : kernel) (t : tid) (a n prio tick : Z) :
  kernel_wf k -> threads (k_s k) !! t = None -> TThread t ∉ timer_list (k_t k) ->
  0 <= a -> 128 <= n ->
  exists k' th, rt_thread_init t a n prio tick k = (k', RT_EOK) /\ kernel_wf k' /\
    threads (k_s k') = <[t := th]> (threads (k_s k)) /\ stat_of th = RT_THREAD_INIT /\
    th_current_priority th = u8 prio /\ th_remaining_tick th = u32 tick /\
    a < th_sp th <= a + n /\ TThread t ∉ timer_list (k_t k').
Proof.
  intros Hk Ht Hoff Ha Hn. pose proof Hk as [Hs Htw [Hh Hl Ho] Hob].
  pose proof (init_stack_ok a n Ha Hn) as Hsp. cbv zeta in Hsp.
  unfold rt_thread_init, _rt_thread_init. eexists _, _. splits; try done; [|exact (proj1 Hsp)|exact (proj2 Hsp)].
  split; simpl.
  - apply wf_new_thread; try done. unfold _rt_scheduler_stack_check. cbn [th_sp th_stack_addr th_stack_size th_stack_guard].
    destruct (Z.leb_spec (rt_hw_stack_init (a + n - 4)) a); [lia|].
    destruct (Z.ltb_spec (a + n) (rt_hw_stack_init (a + n - 4))); [lia|]. simpl. by destruct (_ <=? _).
  - unfold rt_timer_init, _rt_timer_init, set_timers. rewrite <-(remove_elem_notin (TThread t) (timer_list (k_t k))) by done.
    apply (timers_but_unlist ∅); [done|set_solver|done].
  - split; simpl.
    + intros t' th' Ht' Hst'. destruct (decide (t' = t)) as [->|Hne].
      * rewrite lookup_insert_eq. eexists. split; [done|]. by unfold thread_timer.
      * rewrite lookup_insert_ne in Ht' by done. rewrite lookup_insert_ne by congruence. eauto.
    + intros t' Hin. rewrite lookup_insert_ne by (by intros ->). eauto.
    + intros m tm t'. rewrite lookup_insert_ne by done. apply Ho.
  - done.
Qed.

(** The object [rt_thread_startup] builds before it resumes the thread. *)
Definition started_form (th : rt_thread) : rt_thread :=
  th_set_stat RT_THREAD_SUSPEND
    (th_set_priority (th_init_priority th) (u32 (Z.shiftl 1 (th_init_priority th))) th).

Lemma shiftl_mask p : 0 <= p < 32 -> u32 (Z.shiftl 1 p) = 2 ^ p.
Proof.
  intros Hp. rewrite Z.shiftl_1_l. apply u32_small. unfold is_u32.
  change 4294967296 with (2 ^ 32). enough (0 < 2 ^ p < 2 ^ 32) by lia. split; [apply Z.pow_pos_nonneg; lia|apply Z.pow_lt_mono_r; lia].
Qed.

(** Starting a thread in the INIT state from a running thread makes it ready
    and keeps the kernel well formed; if the new thread has a smaller priority
    number than every other ready thread and the scheduler is not locked, it is
    the running thread when the call returns to the scheduler. *)
Theorem rt_thread_startup_runs (k : kernel) (t c : tid) (th : rt_thread) :
  kernel_wf k -> current (k_s k) = Some c -> threads (k_s k) !! t = Some th ->
  stat_of th = RT_THREAD_INIT -> 0 <= th_init_priority th < 32 ->
  exists k', rt_thread_startup t k = Some (k', RT_EOK) /\ kernel_wf k' /\
    (exists th', threads (k_s k') !! t = Some th' /\ is_ready th' /\
       th_current_priority th' = th_init_priority th) /\
    (lock_nest (k_s k) = 0 -> runs_highest (k_s k')).
Proof.
  intros Hk Hc Ht Hst Hp. pose proof Hk as [Hs Htw Hlink Hob].
  pose proof (init_unlinked _ _ _ (wf_core _ Hs) Ht Hst) as Hun.
  unfold rt_thread_startup. rewrite (upd_th_eq _ _ _ _ Ht). simpl.
  unfold upd_th, on_s. simpl. unfold upd_thread. simpl. rewrite lookup_insert_eq. simpl.
  rewrite insert_insert_eq. fold (started_form th).
  match goal with |- context [rt_thread_resume t ?k1] =>
    replace k1 with (set_th t (started_form th) k) by (unfold set_th, set_s, set_threads; done) end.
  assert (stat_of (started_form th) = RT_THREAD_SUSPEND) as Hst1 by done.
  assert (kernel_wf (set_th t (started_form th) k)) as Hk1.
  { unfold set_th. apply kernel_set_sched; try done.
    - apply (wf_put_init _ _ th); try done.
      + intros _ _. split; [done|]. by apply shiftl_mask.
      + exact (c_stack _ _ (wf_core _ Hs) t th Ht).
    - intros t' th'. simpl. destruct (decide (t' = t)) as [->|]; [|rewrite lookup_insert_ne by done; eauto].
      intros _ _. exists th. by rewrite Hst.
    - intros t' _ (th' & Ht' & Hst'). unfold suspended. simpl. destruct (decide (t' = t)) as [->|].
      + rewrite lookup_insert_eq. eauto.
      + rewrite lookup_insert_ne by done. eauto. }
  destruct (rt_thread_resume_spec ∅ 0 _ t (started_form th) Hk1) as
    (k2 & tm & Hop & Hk2 & Hwk & _); [simpl; by rewrite lookup_insert_eq|done|].
  rewrite Hop. simpl. unfold rt_thread_self. rewrite (wk_current _ _ _ _ Hwk). simpl. rewrite Hc.
  replace (∅ ∖ {[TThread t]}) with (∅ : gset timer_ptr) in Hk2 by set_solver.
  assert (threads (k_s k2) !! t = Some (make_ready (started_form th))) as Ht2
    by (by rewrite (wk_threads _ _ _ _ Hwk), lookup_insert_eq).
  assert (current (k_s k2) = Some c) as Hc2 by (by rewrite (wk_current _ _ _ _ Hwk)).
  destruct (kernel_schedule ∅ 0 k2 c Hk2 Hc2) as (s' & Hop' & Hk3 & Hf & Hcu).
  fold (on_s rt_schedule k2). rewrite Hop'. simpl. exists (set_s s' k2). splits; try done.
  - destruct (proj2 (proj2 (proj2 Hf)) t) as [E|(th0 & Ht0 & Hr0 & E)].
    + exists (make_ready (started_form th)). rewrite <-Ht2, <-E. splits; [done|apply make_ready_ready|done].
    + exists (make_ready th0). rewrite Ht2 in Ht0. injection Ht0 as <-.
      splits; [done|apply make_ready_ready|done].
  - intros Hlk. destruct (wf_current _ (kw_sched _ _ _ Hk2) c Hc2) as [[cth Hcth] _].
    destruct (rt_schedule_spec (k_s k2) c cth) as (s2 & Hop2 & _ & Hhi & _); try done.
    + apply Hk2.
    + by rewrite (proj1 (wk_nest _ _ _ _ Hwk)).
    + destruct (wk_queue _ _ _ _ Hwk) as [Hct|(l & Hl & _)].
      * left. assert (c = t) as -> by (simpl in Hct; congruence). rewrite Ht2 in Hcth.
        injection Hcth as <-. apply make_ready_ready.
      * right. intros Hg. pose proof (proj2 (c_group _ _ (wf_core _ (kw_sched _ _ _ Hk2)) _ _ Hl)) as Hb.
        rewrite Hg, Z.bits_0 in Hb. enough (false = true) by done. apply Hb. by destruct l.
    + unfold on_s in Hop'. rewrite Hop2 in Hop'. simpl in Hop'. injection Hop' as <-. done.
Qed.

Definition reprioritised (p : Z) (th th' : rt_thread) : Prop :=
  stat_of th' = stat_of th /\ th_current_priority th' = p /\ th_init_priority th' = th_init_priority th /\
  th_error th' = th_error th /\ th_event_set th' = th_event_set th /\ th_event_info th' = th_event_info th.

(** [RT_THREAD_CTRL_CHANGE_PRIORITY]. *)
Lemma change_priority_spec X lo k t th p :
  kernel_but X lo k -> threads (k_s k) !! t = Some th -> 0 <= p < 32 ->
  exists s' th', rt_thread_control t (ThreadChangePriority p) k = Some (set_s s' k, RT_EOK) /\
    kernel_but X lo (set_s s' k) /\ threads s' = <[t := th']> (threads (k_s k)) /\ reprioritised p th th' /\
    (forall h, (forall p, h <> LReady p) -> lists s' !! h = lists (k_s k) !! h) /\
    current s' = current (k_s k) /\ lock_nest s' = lock_nest (k_s k) /\ irq_nest s' = irq_nest (k_s k).
Proof.
  intros Hk Ht Hp. pose proof Hk as [Hs _ _ _]. unfold rt_thread_control. rewrite Ht. simpl.
  rewrite u8_small by (unfold is_u8; lia).
  assert (prio_ok (change_priority p th)) as Hpo by (split; [done|by apply shiftl_mask]).
  pose proof (c_stack _ _ (wf_core _ Hs) t th Ht) as Hsk.
  assert (forall s', sched_wf s' -> (exists th', threads s' = <[t := th']> (threads (k_s k)) /\ stat_of th' = stat_of th) ->
    (forall h, (forall p, h <> LReady p) -> lists s' !! h = lists (k_s k) !! h) -> kernel_but X lo (set_s s' k)) as Hfr.
  { intros s' Hwf (th' & Hths & Hst) Hls. apply kernel_set_sched; try done.
    - intros t' th0. rewrite Hths. destruct (decide (t' = t)) as [->|]; [|rewrite lookup_insert_ne by done; eauto].
      rewrite lookup_insert_eq. intros [= <-]. rewrite Hst. eauto.
    - intros t' _ (th0 & Ht0 & Hst0). unfold suspended. rewrite Hths. destruct (decide (t' = t)) as [->|].
      + rewrite lookup_insert_eq. exists th'. split; [done|]. rewrite Hst. rewrite Ht in Ht0. congruence.
      + rewrite lookup_insert_ne by done. eauto.
    - intros h Hh. assert ((exists p, h = LReady p) \/ forall p, h <> LReady p) as [[q ->]|Hn].
      { destruct h; [left; eauto|right; discriminate..]. }
      + apply (c_heads _ _ (wf_core _ Hwf)). by apply (c_heads _ _ (wf_core _ Hs)).
      + by rewrite Hls. }
  destruct (Z.eqb_spec (stat_of th) RT_THREAD_READY) as [Hrd|Hnr].
  - destruct (wf_requeue (k_s k) t th (change_priority p th) Hs Ht Hrd Hrd Hpo Hsk) as
      (s1 & s2 & Hop1 & Hop2 & Hwf2 & Hths1 & Hths2 & Hls2 & Hcu2 & Hlk2 & Hirq2).
    unfold on_s. rewrite Hop1. simpl. rewrite (upd_th_eq t _ (set_s s1 k) th) by (simpl; by rewrite Hths1). simpl.
    rewrite Hop2. simpl. exists s2, (make_ready (change_priority p th)). splits; try done.
    + apply Hfr; try done. exists (make_ready (change_priority p th)). split; [done|].
      by rewrite make_ready_stat, Hrd.
    + unfold reprioritised. rewrite make_ready_stat, Hrd. done.
  - rewrite (upd_th_eq _ _ _ _ Ht). simpl. eexists _, (change_priority p th). splits; try done.
    apply Hfr; [|by exists (change_priority p th)|done].
    by apply (wf_put_not_ready _ _ th).
Qed.

(** ** Witnesses *)

Lemma no_cleanup_ok : cleanup_ok (fun _ k => Some k).
Proof. intros t k Hk. by exists k. Qed.

Example rt_thread_delete_closes_witness :
  exists k' l, rt_thread_delete 6 demo_k = Some (k', RT_EOK) /\ kernel_wf k' /\
    lists (k_s demo_k) !! LDefunct = Some l /\
    lists (k_s k') = <[LDefunct := 6%nat :: remove_elem 6%nat l]> (lists_remove 6%nat (lists (k_s demo_k))) /\
    threads (k_s k') = <[6%nat := th_set_stat RT_THREAD_CLOSE (demo_th 2 15 0 0)]> (threads (k_s demo_k)) /\
    TThread 6 ∉ timer_list (k_t k').
Proof.
  apply (rt_thread_delete_closes demo_k 6 (demo_th 2 15 0 0) demo_k_wf).
  - vm_compute. reflexivity.
  - vm_compute. discriminate.
Defined.

Example rt_thread_exit_closes_witness :
  exists k' th', rt_thread_exit_enter demo_k = Some k' /\ kernel_wf k' /\
    threads (k_s k') = <[1%nat := th']> (threads (k_s demo_k)) /\ stat_of th' = RT_THREAD_CLOSE /\
    TThread 1 ∉ timer_list (k_t k') /\ current (k_s k') = Some 1%nat /\
    exists l, lists (k_s demo_k) !! LDefunct = Some l /\
      lists (k_s k') = <[LDefunct := 1%nat :: remove_elem 1%nat l]> (lists_remove 1%nat (lists (k_s demo_k))).
Proof.
  apply (rt_thread_exit_closes demo_k 1 (demo_th 1 20 0 0) demo_k_wf).
  - reflexivity.
  - vm_compute. reflexivity.
  - vm_compute. reflexivity.
Defined.

Example rt_thread_idle_reaps_witness :
  let k := demo_idle [2; 3]%nat in
  exists k', rt_thread_idle_excute (fun _ k => Some k) 2 k = Some (k', [(2%nat, 500); (3%nat, 500)]) /\
    kernel_wf k' /\ lists (k_s k') !! LDefunct = Some [] /\
    (forall t, threads (k_s k) !! t = None -> threads (k_s k') !! t = None) /\
    forall t a, (t, a) ∈ [(2%nat, 500); (3%nat, 500)] -> threads (k_s k') !! t = None.
Proof.
  apply (rt_thread_idle_reaps (fun _ k => Some k) (demo_idle [2; 3]%nat) 0 [2; 3]%nat 2 no_cleanup_ok demo_idle_wf_2).
  - vm_compute. auto.
  - apply (bool_decide_unpack _). vm_compute. exact I.
  - vm_compute. reflexivity.
  - apply le_n.
Defined.

Example rt_thread_detach_frees_static_stack_witness :
  exists k1 k2, rt_thread_detach 1 (demo_idle []) = Some (k1, RT_EOK) /\
    rt_thread_idle_excute (fun _ k => Some k) 1 k1 = Some (k2, [(1%nat, 500)]) /\
    threads (k_s k2) !! 1%nat = None.
Proof.
  apply (rt_thread_detach_frees_static_stack (fun _ k => Some k) (demo_idle []) 0 1
    (Thread 1000 500 600 35 0 2 20 20 (2 ^ 20) 0 0 10 10 true 129) no_cleanup_ok demo_idle_wf_0).
  - vm_compute. auto.
  - discriminate.
  - vm_compute. reflexivity.
  - vm_compute. discriminate.
  - reflexivity.
  - reflexivity.
  - vm_compute. reflexivity.
Defined.

Example rt_thread_init_wf_witness :
  exists k' th, rt_thread_init 11 2000 512 7 20 demo_k = (k', RT_EOK) /\ kernel_wf k' /\
    threads (k_s k') = <[11%nat := th]> (threads (k_s demo_k)) /\ stat_of th = RT_THREAD_INIT /\
    th_current_priority th = u8 7 /\ th_remaining_tick th = u32 20 /\
    2000 < th_sp th <= 2000 + 512 /\ TThread 11 ∉ timer_list (k_t k').
Proof.
  apply (rt_thread_init_wf demo_k 11 2000 512 7 20 demo_k_wf).
  - vm_compute. reflexivity.
  - apply (bool_decide_unpack _). vm_compute. exact I.
  - lia.
  - lia.
Defined.

(** The demo system with a fresh thread 11 of priority 7. *)
Definition demo_fresh : kernel := (rt_thread_init 11 2000 512 7 20 demo_k).1.

Lemma demo_fresh_wf : kernel_wf demo_fresh.
Proof. kernel_dec. Qed.

Example rt_thread_startup_runs_witness :
  exists k', rt_thread_startup 11 demo_fresh = Some (k', RT_EOK) /\ kernel_wf k' /\
    (exists th', threads (k_s k') !! 11%nat = Some th' /\ is_ready th' /\ th_current_priority th' = 7) /\
    (lock_nest (k_s demo_fresh) = 0 -> runs_highest (k_s k')).
Proof.
  apply (rt_thread_startup_runs demo_fresh 11 1
    (Thread 2444 2000 512 35 0 0 7 7 0 0 0 20 20 false 129) demo_fresh_wf).
  - reflexivity.
  - vm_compute. reflexivity.
  - reflexivity.
  - vm_compute. split; [discriminate|reflexivity].
Defined.
