(* ===== verification/Clock.v ===== *)
(** * The system tick (rt-thread/src/clock.c)

    [rt_tick_increase]: the tick counter, the time slice of the running thread,
    the expiry of timers. The callbacks of thread timers are
    [rt_thread_timeout]; those of the application's own timers are an interface
    ([TimerCallbacks]). *)

From S2P Require Import Prelude RtList Sched SchedFacts Timer Kernel Thread Demo.

(** ** The interface to the application's timer functions *)

Class TimerCallbacks := user_timeout : nat -> kernel -> option kernel.

(** What the kernel relies on: run in the timer interrupt, a function returns
    with the kernel well formed, something running, the tick unchanged, no more
    due timers than before and the expiring timer [p] as it was. *)
Class TimerCallbacksOk (cb : TimerCallbacks) : Prop := {
  user_timeout_ok : forall f k p tm,
    kernel_but {[p]} (-1) k -> is_Some (current (k_s k)) -> (exists n, p = TObj n) ->
    timers (k_t k) !! p = Some tm -> is_active tm = true -> p ∉ timer_list (k_t k) -> periods_ok (k_t k) ->
    exists k', cb f k = Some k' /\ kernel_but {[p]} (-1) k' /\ is_Some (current (k_s k')) /\
      timers (k_t k') !! p = Some tm /\ p ∉ timer_list (k_t k') /\ periods_ok (k_t k') /\
      rt_tick (k_t k') = rt_tick (k_t k) /\
      (length (due_list (k_t k')) <= length (due_list (k_t k)))%nat;
}.

(** ** Operations *)

Section Tick.
Context {cb : TimerCallbacks}.

  (** The world the timer callbacks act on, besides the timers. *)
Definition call_timeout (f : timer_fn) (w : sched * gmap oid ipc_object) (tb : timebase)
      : option ((sched * gmap oid ipc_object) * timebase) :=
    let k := Kernel w.1 tb w.2 in
    k ← match f with FnThreadTimeout t => rt_thread_timeout t k | FnUser f => cb f k end;
    Some ((k_s k, k_o k), k_t k).

Definition timer_check (fuel : nat) (k : kernel) : option kernel :=
    '(w, tb) ← rt_timer_check call_timeout fuel (k_s k, k_o k) (k_t k);
    Some (Kernel w.1 tb w.2).

Definition time_slice (k : kernel) : option kernel :=
    c ← rt_thread_self k;
    k ← upd_th c (fun th => th_set_remaining (u32 (th_remaining_tick th - 1)) th) k;
    th ← threads (k_s k) !! c;
    if th_remaining_tick th =? 0 then
      k ← upd_th c (fun th => th_set_remaining (th_init_tick th) th) k;
      '(k, _) ← rt_thread_yield k; Some k
    else Some k.

Definition rt_tick_increase (fuel : nat) (k : kernel) : option kernel :=
    let k := set_t (set_tick (u32 (rt_tick (k_t k) + 1)) (k_t k)) k in
    k ← time_slice k;
    timer_check fuel k.
End Tick.

(** ** The time slice *)

Lemma time_slice_spec X lo k c :
  kernel_but X lo k -> current (k_s k) = Some c ->
  exists s', time_slice k = Some (set_s s' k) /\ kernel_but X lo (set_s s' k) /\ is_Some (current s') /\
    (forall t, suspended (k_s k) t <-> suspended s' t) /\
    (forall h, (forall p, h <> LReady p) -> lists s' !! h = lists (k_s k) !! h) /\
    lock_nest s' = lock_nest (k_s k).
Proof.
  intros Hk Hc. destruct (wf_current _ (kw_sched _ _ _ Hk) c Hc) as [[th Ht] _].
  unfold time_slice, rt_thread_self. rewrite Hc. simpl. rewrite (upd_th_eq _ _ _ _ Ht). simpl.
  rewrite lookup_insert_eq. simpl. set (th1 := th_set_remaining (u32 (th_remaining_tick th - 1)) th).
  assert (kernel_but X lo (set_th c th1 k)) as Hk1 by (apply (kernel_put_same _ _ _ _ th); eauto with kernel).
  assert (forall th', stat_of th' = stat_of th -> forall t, suspended (k_s k) t <-> suspended (put_thread c th' (k_s k)) t) as Hsus.
  { intros th' E t. unfold suspended. simpl. destruct (decide (t = c)) as [->|].
    - rewrite lookup_insert_eq, Ht. split; intros (th0 & [= <-] & ?); eexists; (split; [done|congruence]).
    - by rewrite lookup_insert_ne. }
  destruct (Z.eqb_spec (u32 (th_remaining_tick th - 1)) 0) as [Hz|Hz].
  2:{ eexists. splits; try done; by apply Hsus. }
  rewrite (upd_th_eq _ _ (set_th c th1 k) th1) by (simpl; by rewrite lookup_insert_eq). simpl.
  set (th2 := th_set_remaining (th_init_tick th) th1).
  assert (kernel_but X lo (set_th c th2 (set_th c th1 k))) as Hk2.
  { apply (kernel_put_same _ _ _ _ th1); eauto with kernel. simpl. by rewrite lookup_insert_eq. }
  destruct (kernel_schedule X lo _ c Hk2) as (s' & Hop & Hk3 & Hf & Hcu); [done|].
  unfold rt_thread_yield. rewrite Hop. simpl. exists s'. splits; try done.
  - intros t. rewrite <-(same_frame_suspended _ _ _ Hf). simpl. rewrite insert_insert_eq. by apply Hsus.
  - by destruct Hf as (_ & _ & Hls & _).
  - by destruct Hf as (Hl & _).
Qed.

(** ** The tick counter *)

Lemma ticks_left_tick tb x :
  -2147483648 < ticks_left tb x ->
  ticks_left (set_tick (u32 (rt_tick tb + 1)) tb) x = ticks_left tb x - 1.
Proof.
  unfold ticks_left. simpl. intros Hx. pose proof (s32_range (x - rt_tick tb)).
  rewrite <-(s32_small (s32 (x - rt_tick tb) - 1)) by lia. apply s32_cong.
  pose proof (s32_u32 (x - rt_tick tb)) as E. unfold u32 in *. dlia.
Qed.

Lemma timers_tick X lo tb :
  -1 <= lo -> timers_but X lo tb -> timers_but X (lo - 1) (set_tick (u32 (rt_tick tb + 1)) tb).
Proof.
  intros Hlo Hw. split; simpl; try apply Hw.
  - apply u32_range.
  - intros p Hp. destruct (tw_listed _ _ _ Hw p Hp) as (tm & Htm & ? & ? & ?). exists tm.
    rewrite ticks_left_tick by (unfold max_delay in *; lia). splits; try done; lia.
  - eapply StronglySorted_ext; [|apply Hw]. intros p q Hp Hq. unfold timer_left. simpl.
    destruct (tw_listed _ _ _ Hw p Hp) as (tm & -> & _ & _ & ?).
    destruct (tw_listed _ _ _ Hw q Hq) as (tm' & -> & _ & _ & ?).
    rewrite !ticks_left_tick by (unfold max_delay in *; lia). lia.
Qed.

Lemma kernel_tick X lo k :
  -1 <= lo -> kernel_but X lo k ->
  kernel_but X (lo - 1) (set_t (set_tick (u32 (rt_tick (k_t k) + 1)) (k_t k)) k).
Proof. intros Hlo [Hs Ht [Hh Hl Ho] Hob]. split; try done. by apply timers_tick. Qed.

(** ** The expiry loop in the kernel *)

Lemma kernel_pop k p l tm :
  kernel_but ∅ (-1) k -> timer_list (k_t k) = p :: l -> timers (k_t k) !! p = Some tm ->
  kernel_but {[p]} (-1) (set_t (_rt_timer_remove p (k_t k)) k) /\
  timer_list (_rt_timer_remove p (k_t k)) = l.
Proof.
  intros [Hs Ht [Hh Hl Ho] Hob] Hlst Hp. destruct (timer_unlink_spec (-1) (k_t k) p tm l Ht Hlst Hp) as [Hw Hl'].
  split; [|done]. split; try done. split; simpl; [done| |done].
  intros t Hin. apply Hl. change (timer_list (_rt_timer_remove p (k_t k))) with (remove_elem p (timer_list (k_t k))) in Hin.
  by apply elem_of_remove_elem in Hin as [_ ?].
Qed.

(** What a callback leaves of the expiring timer [p] (object [tm]). *)
Definition after_callback (p : timer_ptr) (tm : rt_timer) (k k' : kernel) : Prop :=
  kernel_but {[p]} (-1) k' /\ is_Some (current (k_s k')) /\
  timers (k_t k') !! p = Some tm /\ p ∉ timer_list (k_t k') /\ periods_ok (k_t k') /\
  rt_tick (k_t k') = rt_tick (k_t k) /\ (length (due_list (k_t k')) <= length (due_list (k_t k)))%nat.

Lemma call_timeout_step `{!TimerCallbacksOk cb} k p tm :
  kernel_but {[p]} (-1) k -> is_Some (current (k_s k)) -> timers (k_t k) !! p = Some tm ->
  is_active tm = true -> p ∉ timer_list (k_t k) -> periods_ok (k_t k) ->
  (forall t, p = TThread t -> suspended (k_s k) t) ->
  exists k', call_timeout (tm_func tm) (k_s k, k_o k) (k_t k) = Some ((k_s k', k_o k'), k_t k') /\
    after_callback p tm k k'.
Proof.
  intros Hk [c Hc] Hp Ha Hoff Hper Hsus. unfold call_timeout. simpl.
  replace (Kernel (k_s k) (k_t k) (k_o k)) with k by (by destruct k).
  destruct p as [t|n].
  - destruct (Hsus t eq_refl) as (th & Ht & Hst).
    destruct (tl_has _ (kw_link _ _ _ Hk) t th Ht) as (tm0 & Htm0 & Hf & _); [by rewrite Hst|].
    rewrite Hp in Htm0. injection Htm0 as <-. rewrite Hf.
    destruct (rt_thread_timeout_spec {[TThread t]} (-1) k t th c Hk Ht Hst Hoff Hc) as
      (s1 & s' & Hop & Hk' & _ & _ & Hcu).
    rewrite Hop. simpl. exists (set_s s' k). split; [done|]. unfold after_callback. simpl. splits; try done; lia.
  - pose proof (tl_obj _ (kw_link _ _ _ Hk) n tm) as Hf. destruct (tm_func tm) as [t|f] eqn:Ef.
    + by destruct (Hf t).
    + destruct (user_timeout_ok f k (TObj n) tm Hk) as (k' & Hop & ?); try done; try by eexists.
      rewrite Hop. simpl. exists k'. split; [done|]. unfold after_callback. tauto.
Qed.

(** Re-arming in the kernel. *)
Lemma kernel_rearm k p tm :
  kernel_but {[p]} (-1) k -> timers (k_t k) !! p = Some tm -> p ∉ timer_list (k_t k) ->
  is_active tm = true -> (is_periodic tm = true -> 1 <= tm_init_tick tm <= max_delay) ->
  (forall t, p = TThread t -> is_periodic tm = false) -> periods_ok (k_t k) ->
  exists tb', timer_rearm p (k_t k) = Some tb' /\ kernel_but ∅ (-1) (set_t tb' k) /\ periods_ok tb' /\
    rt_tick tb' = rt_tick (k_t k) /\ due_list tb' = due_list (k_t k).
Proof.
  intros Hk Hp Hoff Ha Hper Hth Hpok.
  destruct (timer_rearm_spec (-1) (k_t k) p tm) as
    (tb' & tm' & Hop & Hw' & Htk & Htms & Hdl & Hmem & Hini & Hper' & Hfn & Hty & Hres);
    [lia|apply Hk|done..|].
  exists tb'. splits; try done.
  - apply (kernel_set_timers_gen {[p]}); try done.
    + intros t tmt Htm Htt. rewrite Htms. destruct (decide (p = TThread t)) as [->|Hne].
      * rewrite lookup_insert_eq. rewrite Hp in Htm. injection Htm as <-. exists tm'. split; [done|].
        destruct Htt as (? & ? & ?). unfold thread_timer. rewrite Hfn, Hper', Hty. done.
      * rewrite lookup_insert_ne by done. eauto.
    + intros t Hin. destruct (decide (TThread t = p)) as [E|Hne].
      * exfalso. rewrite (Hth t) in Hres by done. destruct Hres as [_ Hn]. by rewrite E in Hin.
      * apply Hmem in Hin; [|done]. by apply (tl_listed _ (kw_link _ _ _ Hk)).
    + intros n tmn t. rewrite Htms. destruct (decide (p = TObj n)) as [->|Hne].
      * rewrite lookup_insert_eq. intros [= <-]. rewrite Hfn. by apply (tl_obj _ (kw_link _ _ _ Hk) n).
      * rewrite lookup_insert_ne by done. apply (tl_obj _ (kw_link _ _ _ Hk)).
  - intros q tq Hq. rewrite Htms. destruct (decide (p = q)) as [<-|Hne].
    + rewrite lookup_insert_eq. intros [= <-]. rewrite Hini, Hper'. done.
    + rewrite lookup_insert_ne by done. apply Hpok. by apply Hmem.
Qed.

(** The loop: with fuel for every due timer it returns, keeps the kernel well
    formed and leaves nothing due. *)
Lemma timer_check_loop_wf `{!TimerCallbacksOk cb} fuel k :
  kernel_but ∅ (-1) k -> is_Some (current (k_s k)) -> periods_ok (k_t k) ->
  (length (due_list (k_t k)) < fuel)%nat ->
  exists k', timer_check_loop call_timeout fuel (rt_tick (k_t k)) (k_s k, k_o k) (k_t k) =
      Some ((k_s k', k_o k'), k_t k') /\
    kernel_but ∅ 1 k' /\ is_Some (current (k_s k')) /\ periods_ok (k_t k') /\ rt_tick (k_t k') = rt_tick (k_t k).
Proof.
  revert k. induction fuel as [|fuel IH]; intros k Hk Hc Hper Hfuel; [lia|].
  simpl. pose proof (kw_timers _ _ _ Hk) as Hw. rewrite (timer_due_spec (-1)) by (done || lia). simpl.
  destruct (due_list (k_t k)) as [|p d] eqn:Hd; simpl.
  { exists k. splits; try done. destruct Hk. split; try done. by apply (no_due_from (-1)). }
  destruct (timer_list (k_t k)) as [|p' l] eqn:Hl; [unfold due_list in Hd; by rewrite Hl in Hd|].
  rewrite (due_head (-1) _ p' l) in Hd by done. destruct (decide (timer_left (k_t k) p' <= 0)); [|done].
  injection Hd as -> Hd. destruct (tw_listed _ _ _ Hw p) as (tm & Hp & Ha & _ & _); [rewrite Hl; by left|].
  destruct (kernel_pop k p l tm Hk Hl Hp) as [Hk1 Hl1]. set (tb1 := _rt_timer_remove p (k_t k)) in *.
  pose proof (tw_nodup _ _ _ Hw) as Hnd. rewrite Hl in Hnd. apply NoDup_cons in Hnd as [Hpl _].
  rewrite Hp. simpl. fold tb1. destruct (call_timeout_step (set_t tb1 k) p tm Hk1) as
    (k2 & Hop & Hk2 & Hc2 & Hp2 & Hoff2 & Hper2 & Htk2 & Hlen2); [done|done|done|cbn [k_t set_t]; by rewrite Hl1| | |].
  { intros q tq Hq. simpl in *. apply Hper. rewrite Hl1 in Hq. rewrite Hl. by right. }
  { intros t ->. apply (tl_listed _ (kw_link _ _ _ Hk)). rewrite Hl. by left. }
  simpl in Hop. rewrite Hop. simpl.
  destruct (kernel_rearm k2 p tm Hk2 Hp2 Hoff2 Ha) as (tb3 & Hop3 & Hk3 & Hper3 & Htk3 & Hd3).
  { apply (Hper p); [rewrite Hl; by left|done]. }
  { intros t ->. destruct (tl_listed _ (kw_link _ _ _ Hk) t) as (th & Ht & Hst); [rewrite Hl; by left|].
    destruct (tl_has _ (kw_link _ _ _ Hk) t th Ht) as (tm0 & Htm0 & _ & Hpe & _); [by rewrite Hst|].
    rewrite Hp in Htm0. injection Htm0 as <-. done. }
  { done. }
  rewrite Hop3. simpl. change (rt_tick_get (k_t k2)) with (rt_tick (k_t k2)). rewrite <-Htk3.
  destruct (IH (set_t tb3 k2)) as (k' & Hop' & ? & ? & ? & Htk'); try done.
  { simpl. rewrite Hd3. enough (length (due_list tb1) <= length d)%nat by (simpl in *; lia).
    unfold due_list. rewrite Hl1, <-Hd. done. }
  simpl in Hop'. rewrite Hop'. exists k'. splits; try done. simpl in *. congruence.
Qed.

Lemma due_tick_periods tb x : periods_ok tb -> periods_ok (set_tick x tb).
Proof. done. Qed.

(** C1: a clock interrupt in a well-formed kernel returns, whatever the running
    thread's time slice and however many timers are due; it advances the tick
    by one (modulo 2^32), keeps the kernel well formed and leaves no timer due. *)
Theorem rt_tick_increase_wf `{!TimerCallbacksOk cb} (k : kernel) (c : tid) (fuel : nat) :
  kernel_wf k -> current (k_s k) = Some c -> periods_ok (k_t k) ->
  (length (timer_list (k_t k)) < fuel)%nat ->
  exists k', rt_tick_increase fuel k = Some k' /\ kernel_but ∅ 1 k' /\ is_Some (current (k_s k')) /\
    periods_ok (k_t k') /\ rt_tick (k_t k') = u32 (rt_tick (k_t k) + 1).
Proof.
  intros Hk Hc Hper Hfuel. unfold rt_tick_increase.
  pose proof (kernel_tick ∅ 0 k ltac:(lia) Hk) as Hk1.
  destruct (time_slice_spec ∅ (0 - 1) _ c Hk1 Hc) as (s' & Hop & Hk2 & Hcu & _). rewrite Hop. simpl.
  unfold timer_check, rt_timer_check. change (rt_tick_get ?tb) with (rt_tick tb).
  destruct (timer_check_loop_wf fuel _ Hk2) as (k' & Hop' & Hk' & Hc' & Hper' & Htk); try done.
  { simpl. unfold due_list. simpl. eapply Nat.le_lt_trans; [apply length_filter|done]. }
  unfold rt_tick_get; simpl in Hop' |- *; rewrite Hop'. simpl. exists k'. splits; try done. by destruct k'.
Qed.

Lemma kernel_but_lo X lo lo' k : lo' <= lo -> kernel_but X lo k -> kernel_but X lo' k.
Proof.
  intros Hle [Hs Ht Hl Ho]. split; try done. split; try apply Ht.
  intros p Hp. destruct (tw_listed _ _ _ Ht p Hp) as (tm & ? & ? & ? & ?). exists tm. splits; try done; lia.
Qed.

(** ** Sleeping *)

(** [rt_thread_timeout] acts on the scheduler state alone. *)
Definition timeout_sched (t : tid) (s : sched) : option sched :=
  k ← rt_thread_timeout t (Kernel s (TimeBase 0 ∅ [] 0) ∅); Some (k_s k).

Lemma rt_thread_timeout_sched t k :
  rt_thread_timeout t k = (s' ← timeout_sched t (k_s k); Some (set_s s' k)).
Proof.
  destruct k as [s tb o]. unfold timeout_sched, rt_thread_timeout, upd_th, on_s. simpl.
  destruct (upd_thread _ _ s) as [s1|]; [|done]. simpl.
  destruct (rt_schedule_insert_thread _ _) as [s2|]; [|done]. simpl. by destruct (rt_schedule s2).
Qed.

Lemma timeout_sched_spec s t :
  sched_wf s -> suspended s t -> is_Some (current s) ->
  exists s', timeout_sched t s = Some s' /\ sched_wf s' /\ is_Some (current s') /\
    (forall t', t' <> t -> suspended s t' -> suspended s' t') /\
    (exists th', threads s' !! t = Some th' /\ is_ready th' /\ th_error th' = - RT_ETIMEOUT) /\
    (forall t' th, t' <> t -> threads s !! t' = Some th -> is_ready th ->
       exists th', threads s' !! t' = Some th' /\ is_ready th' /\ th_error th' = th_error th).
Proof.
  intros Hwf (th & Ht & Hst) [c Hc]. set (th1 := th_set_error (- RT_ETIMEOUT) th).
  assert (sched_wf (put_thread t th1 s)) as Hwf1 by (eapply wf_put_same; [done..|apply set_error_same]).
  destruct (wake_sched (put_thread t th1 s) t th1 Hwf1) as (s1 & Hop & Hwf2 & Hwk);
    [simpl; by rewrite lookup_insert_eq|done|].
  destruct (rt_schedule_total s1 c Hwf2) as (s' & Hop' & Hwf' & Hf & Hcu); [by rewrite (wk_current _ _ _ _ Hwk)|].
  assert (threads s1 = <[t := make_ready th1]> (threads s)) as Hths
    by (rewrite (wk_threads _ _ _ _ Hwk); simpl; by rewrite insert_insert_eq).
  assert (forall t' th0, threads s1 !! t' = Some th0 -> is_ready th0 ->
    exists th', threads s' !! t' = Some th' /\ is_ready th' /\ th_error th' = th_error th0) as Hkeep.
  { intros t' th0 Ht0 Hr. destruct (proj2 (proj2 (proj2 Hf)) t') as [E|(th2 & Ht2 & Hr2 & E)].
    - exists th0. by rewrite E.
    - rewrite Ht0 in Ht2. injection Ht2 as <-. exists (make_ready th0). splits; [done|apply make_ready_ready|done]. }
  exists s'. splits; try done.
  - unfold timeout_sched, rt_thread_timeout, upd_th, on_s. simpl. rewrite (upd_thread_eq _ _ _ _ Ht). simpl.
    fold th1. simpl in Hop. rewrite Hop. simpl. by rewrite Hop'.
  - intros t' Hne Hs'. apply (same_frame_suspended _ _ _ Hf). destruct Hs' as (th' & Ht' & Hst').
    exists th'. by rewrite Hths, lookup_insert_ne.
  - apply (Hkeep t (make_ready th1)); [by rewrite Hths, lookup_insert_eq|apply make_ready_ready].
  - intros t' th0 Hne Ht0 Hr. apply Hkeep; [by rewrite Hths, lookup_insert_ne|done].
Qed.

(** A run of thread timeouts. *)
Definition timeout_act (f : timer_fn) (w : sched * gmap oid ipc_object) : sched * gmap oid ipc_object :=
  match f with
  | FnThreadTimeout t => (default w.1 (timeout_sched t w.1), w.2)
  | FnUser _ => w
  end.

Definition timeouts_ok (fs : list timer_fn) (w : sched * gmap oid ipc_object) : Prop :=
  sched_wf w.1 /\ is_Some (current w.1) /\ NoDup fs /\
  forall f, f ∈ fs -> exists t, f = FnThreadTimeout t /\ suspended w.1 t.

Lemma timeout_act_step `{cb : TimerCallbacks} f fs w tb :
  timeouts_ok (f :: fs) w -> call_timeout f w tb = Some (timeout_act f w, tb) /\ timeouts_ok fs (timeout_act f w).
Proof.
  intros (Hwf & Hcu & [Hni Hnd]%NoDup_cons & Hall). destruct w as [s o]. simpl in *.
  destruct (Hall f) as (t & -> & Hs); [by left|].
  destruct (timeout_sched_spec s t Hwf Hs Hcu) as (s' & Hop & Hwf' & Hcu' & Hk & _).
  unfold call_timeout. simpl. rewrite rt_thread_timeout_sched. simpl. rewrite Hop. simpl. split; [done|].
  split; [done|]. splits; try done. intros f Hf. destruct (Hall f) as (t' & -> & Hs'); [by right|].
  exists t'. split; [done|]. simpl. apply Hk; [|done]. by intros ->.
Qed.

Lemma timeouts_fold fs : forall w,
  timeouts_ok fs w ->
  let w' := fold_left (fun w f => timeout_act f w) fs w in
  (forall t, FnThreadTimeout t ∉ fs -> suspended w.1 t -> suspended w'.1 t) /\
  (forall t th, FnThreadTimeout t ∉ fs -> threads w.1 !! t = Some th -> is_ready th ->
     exists th', threads w'.1 !! t = Some th' /\ is_ready th' /\ th_error th' = th_error th) /\
  (forall t, FnThreadTimeout t ∈ fs ->
     exists th', threads w'.1 !! t = Some th' /\ is_ready th' /\ th_error th' = - RT_ETIMEOUT).
Proof.
  induction fs as [|f fs IH]; intros w Hok; simpl.
  { splits; try done; [eauto|]. intros t Hin. by apply elem_of_nil in Hin. }
  pose proof Hok as (Hwf & Hcu & [Hni Hnd]%NoDup_cons & Hall).
  destruct (Hall f) as (t & -> & Hs); [by left|].
  destruct (timeout_act_step (cb := fun _ k => Some k) _ _ w (TimeBase 0 ∅ [] 0) Hok) as [_ Hok'].
  destruct (IH _ Hok') as (IH1 & IH2 & IH3).
  destruct (timeout_sched_spec w.1 t Hwf Hs Hcu) as (s' & Hop & _ & _ & Hk & Ht & Hr).
  simpl in *. rewrite Hop in *. simpl in *. splits.
  - intros t' [Hne Hni']%not_elem_of_cons Hs'. apply IH1; [done|]. apply Hk; [congruence|done].
  - intros t' th [Hne Hni']%not_elem_of_cons Ht' Hrd. destruct (Hr t' th) as (th1 & Ht1 & Hr1 & <-); [congruence|done..|].
    by apply IH2.
  - intros t' [[= ->]|Hin]%elem_of_cons; [|by apply IH3].
    destruct Ht as (th1 & Ht1 & Hr1 & <-). by apply IH2.
Qed.

(** Only thread timers are armed. *)
Definition only_thread_timers (k : kernel) : Prop :=
  forall p, p ∈ timer_list (k_t k) -> exists t, p = TThread t.

Definition timer_thread_fn (p : timer_ptr) : timer_fn :=
  match p with TThread t => FnThreadTimeout t | TObj n => FnUser n end.

Lemma due_in_list tb p : p ∈ due_list tb -> p ∈ timer_list tb.
Proof. unfold due_list. rewrite list_elem_of_filter. tauto. Qed.

Lemma listed_thread_timer X lo k t :
  kernel_but X lo k -> TThread t ∈ timer_list (k_t k) ->
  exists tm, timers (k_t k) !! TThread t = Some tm /\ thread_timer t tm.
Proof.
  intros Hk Hin. destruct (tl_listed _ (kw_link _ _ _ Hk) t Hin) as (th & Ht & Hst).
  apply (tl_has _ (kw_link _ _ _ Hk) t th Ht). by rewrite Hst.
Qed.

Lemma due_funcs_threads X lo k :
  kernel_but X lo k -> only_thread_timers k -> due_funcs (k_t k) = timer_thread_fn <$> due_list (k_t k).
Proof.
  intros Hk Hot. unfold due_funcs.
  assert (forall p, p ∈ due_list (k_t k) -> tm_func <$> timers (k_t k) !! p = Some (timer_thread_fn p)) as Hp.
  { intros p Hin%due_in_list. destruct (Hot p Hin) as [t ->].
    destruct (listed_thread_timer _ _ _ _ Hk Hin) as (tm & -> & Hf & _). simpl. by rewrite Hf. }
  revert Hp. generalize (due_list (k_t k)). intros l. induction l as [|p l IH]; [done|]. intros Hp.
  unfold omap in *. simpl. rewrite (Hp p) by (by left). f_equal. apply IH. intros q Hq. apply Hp. by right.
Qed.

Lemma due_timeouts_ok X lo k :
  kernel_but X lo k -> only_thread_timers k -> is_Some (current (k_s k)) ->
  timeouts_ok (due_funcs (k_t k)) (k_s k, k_o k).
Proof.
  intros Hk Hot Hc. rewrite (due_funcs_threads X lo) by done. unfold timeouts_ok. simpl. splits; try done.
  - apply Hk.
  - apply NoDup_fmap_2.
    + intros [|] [|]; simpl; congruence.
    + apply NoDup_filter, Hk.
  - intros f (p & -> & Hin%due_in_list)%list_elem_of_fmap. destruct (Hot p Hin) as [t ->].
    exists t. split; [done|]. by apply (tl_listed _ (kw_link _ _ _ Hk)).
Qed.

Lemma due_func_elem X lo k t :
  kernel_but X lo k -> only_thread_timers k ->
  FnThreadTimeout t ∈ due_funcs (k_t k) <-> TThread t ∈ due_list (k_t k).
Proof.
  intros Hk Hot. rewrite (due_funcs_threads X lo) by done. rewrite list_elem_of_fmap. split.
  - intros (p & E & Hin). destruct p; simpl in E; [by injection E as ->|done].
  - intros Hin. by exists (TThread t).
Qed.

Lemma thread_periods_ok X lo k : kernel_but X lo k -> only_thread_timers k -> periods_ok (k_t k).
Proof.
  intros Hk Hot p tm Hin Hp Hper. destruct (Hot p Hin) as [t ->].
  destruct (listed_thread_timer _ _ _ _ Hk Hin) as (tm0 & Hp0 & _ & Hn & _).
  rewrite Hp in Hp0. injection Hp0 as <-. by rewrite Hper in Hn.
Qed.

(** Entering a tick: the threads that sleep and the timers that are due. *)
Record tick_view (k k' : kernel) : Prop := {
  tv_early : forall t, TThread t ∈ timer_list (k_t k) -> 2 <= timer_left (k_t k) (TThread t) ->
    TThread t ∈ timer_list (k_t k') /\ timer_left (k_t k') (TThread t) = timer_left (k_t k) (TThread t) - 1 /\
    suspended (k_s k') t;
  tv_due : forall t, TThread t ∈ timer_list (k_t k) -> timer_left (k_t k) (TThread t) <= 1 ->
    TThread t ∉ timer_list (k_t k') /\
    exists th', threads (k_s k') !! t = Some th' /\ is_ready th' /\ th_error th' = - RT_ETIMEOUT;
  tv_sub : forall p, p ∈ timer_list (k_t k') -> p ∈ timer_list (k_t k);
}.

Lemma tick_view_spec `{!TimerCallbacksOk cb} k c fuel :
  kernel_wf k -> current (k_s k) = Some c -> only_thread_timers k ->
  (length (timer_list (k_t k)) < fuel)%nat ->
  exists k', rt_tick_increase fuel k = Some k' /\ kernel_wf k' /\ is_Some (current (k_s k')) /\ tick_view k k'.
Proof.
  intros Hk Hc Hot Hfuel.
  destruct (rt_tick_increase_wf k c fuel Hk Hc (thread_periods_ok _ _ _ Hk Hot) Hfuel) as (k' & Hop & Hk' & Hc' & _ & _).
  exists k'. splits; try done; [by apply (kernel_but_lo ∅ 1)|].
  revert Hop. unfold rt_tick_increase. set (tb1 := set_tick (u32 (rt_tick (k_t k) + 1)) (k_t k)).
  pose proof (kernel_tick ∅ 0 k ltac:(lia) Hk) as Hk1. fold tb1 in Hk1.
  destruct (time_slice_spec ∅ (0 - 1) _ c Hk1 Hc) as (s1 & Hop1 & Hk2 & Hcu1 & Hsus1 & _). rewrite Hop1. simpl.
  set (k2 := set_s s1 (set_t tb1 k)) in *.
  assert (only_thread_timers k2) as Hot2 by done.
  assert (timeouts_ok (due_funcs (k_t k2)) (k_s k2, k_o k2)) as Hok by (by apply (due_timeouts_ok ∅ (-1))).
  unfold timer_check, rt_timer_check. change (rt_tick_get (k_t k2)) with (rt_tick tb1).
  destruct (timer_check_loop_spec call_timeout timeout_act timeouts_ok ltac:(intros; by apply timeout_act_step)
    (-1) fuel (k_t k2) (k_s k2, k_o k2)) as (tb' & Hop2 & Hw' & Htk' & Hfired & Hunt); [lia|apply Hk2| | |done|].
  { by apply (thread_periods_ok ∅ (-1)). }
  { unfold due_list. simpl. eapply Nat.le_lt_trans; [apply length_filter|done]. }
  change (rt_tick (k_t k2)) with (rt_tick tb1) in Hop2. rewrite Hop2. simpl. intros [= <-]. simpl.
  pose proof (timeouts_fold _ _ Hok) as (Hf1 & Hf2 & Hf3).
  assert (forall t, TThread t ∈ timer_list (k_t k) ->
    timer_left tb1 (TThread t) = timer_left (k_t k) (TThread t) - 1) as Hleft.
  { intros t Hin. destruct (tw_listed _ _ _ (kw_timers _ _ _ Hk) _ Hin) as (tm & Htm & _ & _ & Hr).
    unfold timer_left. simpl. rewrite Htm. apply ticks_left_tick. lia. }
  assert (forall t, TThread t ∈ timer_list (k_t k) ->
    TThread t ∈ due_list (k_t k2) <-> timer_left (k_t k) (TThread t) <= 1) as Hdue.
  { intros t Hin. unfold due_list. rewrite list_elem_of_filter. change (k_t k2) with tb1. rewrite Hleft by done.
    change (timer_list tb1) with (timer_list (k_t k)). split; [lia|]. intros. split; [lia|done]. }
  split; simpl.
  - intros t Hin Hl. assert (TThread t ∉ due_list (k_t k2)) as Hnd by (rewrite Hdue by done; lia).
    destruct (Hunt _ Hnd) as [Ht Hm]. splits.
    + by apply Hm.
    + rewrite <-Hleft by done. unfold timer_left. rewrite Ht. simpl. unfold ticks_left. by rewrite Htk'.
    + apply Hf1; [by rewrite (due_func_elem ∅ (-1))|]. apply Hsus1. by apply (tl_listed _ (kw_link _ _ _ Hk)).
  - intros t Hin Hl. assert (TThread t ∈ due_list (k_t k2)) as Hd by (by apply Hdue). split.
    + destruct (Hfired _ Hd) as (tm & tm' & Htm & Htm' & Hcase).
      destruct (listed_thread_timer _ _ _ _ Hk Hin) as (tm0 & Htm0 & _ & Hper & _).
      simpl in Htm. rewrite Htm0 in Htm. injection Htm as <-. rewrite Hper in Hcase. tauto.
    + apply Hf3. by rewrite (due_func_elem ∅ (-1)).
  - intros p Hp. destruct (decide (p ∈ due_list (k_t k2))) as [Hd|Hd].
    + by apply due_in_list in Hd.
    + by apply (Hunt p Hd).
Qed.

Fixpoint ticks `{cb : TimerCallbacks} (fuel j : nat) (k : kernel) : option kernel :=
  match j with O => Some k | S j => k ← rt_tick_increase fuel k; ticks fuel j k end.

(** Thread [t] sleeps with [n] ticks left. *)
Record asleep (fuel : nat) (t : tid) (n : Z) (k : kernel) : Prop := {
  as_wf : kernel_wf k;
  as_current : is_Some (current (k_s k));
  as_only : only_thread_timers k;
  as_fuel : (length (timer_list (k_t k)) < fuel)%nat;
  as_listed : TThread t ∈ timer_list (k_t k);
  as_left : timer_left (k_t k) (TThread t) = n;
}.

Lemma asleep_suspended fuel t n k : asleep fuel t n k -> suspended (k_s k) t.
Proof. intros []. by apply (tl_listed _ (kw_link _ _ _ as_wf0)). Qed.

Lemma NoDup_length_le (l1 l2 : list timer_ptr) :
  NoDup l1 -> (forall x, x ∈ l1 -> x ∈ l2) -> (length l1 <= length l2)%nat.
Proof. intros Hnd Hsub. apply submseteq_length, NoDup_submseteq; [done|exact Hsub]. Qed.

Lemma asleep_tick `{!TimerCallbacksOk cb} fuel t n k :
  asleep fuel t n k -> 2 <= n ->
  exists k', rt_tick_increase fuel k = Some k' /\ asleep fuel t (n - 1) k'.
Proof.
  intros [Hk [c Hc] Hot Hfuel Hin Hl] Hn.
  destruct (tick_view_spec k c fuel Hk Hc Hot Hfuel) as (k' & Hop & Hk' & Hc' & [Hearly Hdue Hsub]).
  destruct (Hearly t Hin) as (Hin' & Hl' & _); [lia|]. exists k'. split; [done|]. split; try done; try lia.
  - intros p Hp. by apply Hot, Hsub.
  - eapply Nat.le_lt_trans; [|exact Hfuel]. apply NoDup_length_le; [apply Hk'|done].
Qed.

Lemma asleep_ticks `{!TimerCallbacksOk cb} fuel t j : forall n k,
  asleep fuel t n k -> Z.of_nat j < n -> exists k', ticks fuel j k = Some k' /\ asleep fuel t (n - Z.of_nat j) k'.
Proof.
  induction j as [|j IH]; intros n k Ha Hj; simpl.
  - exists k. split; [done|]. rewrite Z.sub_0_r. exact Ha.
  - destruct (asleep_tick fuel t n k Ha) as (k1 & -> & Ha1); [lia|]. simpl.
    destruct (IH (n - 1) k1 Ha1) as (k' & -> & Ha'); [lia|]. exists k'. split; [done|].
    by replace (n - Z.of_nat (S j)) with (n - 1 - Z.of_nat j) by lia.
Qed.

Lemma ticks_snoc `{cb : TimerCallbacks} fuel j : forall k,
  ticks fuel (S j) k = (k' ← ticks fuel j k; rt_tick_increase fuel k').
Proof.
  induction j as [|j IH]; intros k; [by destruct (rt_tick_increase fuel k) eqn:E; simpl; rewrite E|].
  change (ticks fuel (S (S j)) k) with (k' ← rt_tick_increase fuel k; ticks fuel (S j) k').
  change (ticks fuel (S j) k) with (k' ← rt_tick_increase fuel k; ticks fuel j k').
  destruct (rt_tick_increase fuel k) as [k1|]; [|done]. simpl. apply IH.
Qed.

(** Going to sleep. *)
Lemma sleep_enter_spec k c th n :
  kernel_wf k -> current (k_s k) = Some c -> threads (k_s k) !! c = Some th -> is_ready th ->
  1 <= n <= max_delay ->
  exists k0, rt_thread_sleep_enter n k = Some k0 /\ kernel_wf k0 /\ current (k_s k0) = Some c /\
    TThread c ∈ timer_list (k_t k0) /\ timer_left (k_t k0) (TThread c) = n /\
    (forall p, p <> TThread c -> p ∈ timer_list (k_t k0) -> p ∈ timer_list (k_t k)).
Proof.
  intros Hk Hc Ht Hrd Hn. unfold rt_thread_sleep_enter, rt_thread_self. rewrite Hc. simpl.
  destruct (rt_thread_suspend_spec ∅ 0 k c th Hk Ht Hrd) as
    (k1 & -> & Hk1 & Hths & _ & Hcu & _ & _ & _ & Htl & _). simpl.
  replace (∅ ∖ {[TThread c]}) with (∅ : gset timer_ptr) in Hk1 by set_solver.
  destruct (start_thread_timer_spec ∅ 0 k1 c n Hk1) as (k0 & -> & Hk0 & Hs0 & _ & _ & Hin & Hleft & Hunt); try lia.
  { exists (make_suspended th). rewrite Hths, lookup_insert_eq, make_suspended_stat. done. }
  replace (∅ ∖ {[TThread c]}) with (∅ : gset timer_ptr) in Hk0 by set_solver.
  exists k0. splits; try done.
  - by rewrite Hs0, Hcu.
  - intros p Hp Hpin. rewrite <-Htl. by apply (Hunt p Hp).
Qed.

(** A thread that blocks with its timer at [n]: what happens until it fires. *)
Lemma blocked_ticks `{!TimerCallbacksOk cb} (fuel : nat) (k0 : kernel) (c : tid) (n : Z) (l : list timer_ptr) :
  kernel_wf k0 -> current (k_s k0) = Some c ->
  TThread c ∈ timer_list (k_t k0) -> timer_left (k_t k0) (TThread c) = n -> 1 <= n ->
  (forall p, p <> TThread c -> p ∈ timer_list (k_t k0) -> p ∈ l) ->
  (forall p, p ∈ l -> exists t, p = TThread t) -> (S (length l) < fuel)%nat ->
  exists k1, on_s rt_schedule k0 = Some k1 /\
    (forall j, Z.of_nat j < n ->
       exists k2, ticks fuel j k1 = Some k2 /\ kernel_wf k2 /\ suspended (k_s k2) c) /\
    (exists k2 th', ticks fuel (Z.to_nat n) k1 = Some k2 /\ kernel_wf k2 /\
       threads (k_s k2) !! c = Some th' /\ is_ready th' /\ th_error th' = - RT_ETIMEOUT).
Proof.
  intros Hk0 Hc0 Hin0 Hl0 Hn Hsub Hot Hfuel.
  destruct (kernel_schedule ∅ 0 k0 c Hk0 Hc0) as (s1 & Hop1 & Hk1 & Hf & Hcu).
  assert (asleep fuel c n (set_s s1 k0)) as Ha.
  { split; try done; simpl.
    - intros p Hp. destruct (decide (p = TThread c)) as [->|Hne]; [by eexists|]. by apply Hot, Hsub.
    - eapply Nat.le_lt_trans; [|exact Hfuel]. change (S ?n) with (length (TThread c :: l)).
      apply NoDup_length_le; [apply Hk0|]. intros p Hp.
      destruct (decide (p = TThread c)) as [->|Hne]; [by left|right; auto]. }
  exists (set_s s1 k0). splits; try done.
  - intros j Hj. destruct (asleep_ticks fuel c j n _ Ha Hj) as (k2 & Hop2 & Ha2).
    exists k2. splits; [done|apply Ha2|by eapply asleep_suspended].
  - replace (Z.to_nat n) with (S (Z.to_nat (n - 1))) by lia. rewrite ticks_snoc.
    destruct (asleep_ticks fuel c (Z.to_nat (n - 1)) n _ Ha) as (k2 & -> & [Hk2 [c2 Hc2] Hot2 Hf2 Hin2 Hl2]); [lia|].
    simpl. destruct (tick_view_spec k2 c2 fuel Hk2 Hc2 Hot2 Hf2) as (k3 & -> & Hk3 & _ & [_ Hdue _]).
    destruct (Hdue c Hin2) as (_ & th3 & Ht3 & Hr3 & He3); [lia|]. eauto 10.
Qed.

(** C7: a running thread that calls [rt_thread_sleep(n)] with 1 <= n below half
    the tick range stays suspended during the next n-1 clock interrupts and is
    ready after exactly n, when its call returns [RT_EOK] with its error code
    cleared (no other timers than those of threads being armed). *)
Theorem rt_thread_sleep_wakes `{!TimerCallbacksOk cb} (k : kernel) (c : tid) (th : rt_thread) (n : Z) (fuel : nat) :
  kernel_wf k -> current (k_s k) = Some c -> threads (k_s k) !! c = Some th -> is_ready th ->
  only_thread_timers k -> 1 <= n <= max_delay -> (S (length (timer_list (k_t k))) < fuel)%nat ->
  exists k0 k1, rt_thread_sleep_enter n k = Some k0 /\ on_s rt_schedule k0 = Some k1 /\
    (forall j, Z.of_nat j < n ->
       exists k2, ticks fuel j k1 = Some k2 /\ kernel_wf k2 /\ suspended (k_s k2) c) /\
    (exists k2 k3 th', ticks fuel (Z.to_nat n) k1 = Some k2 /\ kernel_wf k2 /\
       rt_thread_sleep_resume c k2 = Some (k3, RT_EOK) /\
       threads (k_s k3) !! c = Some th' /\ is_ready th' /\ th_error th' = RT_EOK).
Proof.
  intros Hk Hc Ht Hrd Hot Hn Hfuel.
  destruct (sleep_enter_spec k c th n Hk Hc Ht Hrd Hn) as (k0 & Hop0 & Hk0 & Hc0 & Hin0 & Hl0 & Hsub).
  destruct (blocked_ticks fuel k0 c n (timer_list (k_t k))) as (k1 & Hop1 & Hearly & Hlate); try done; [lia|].
  exists k0, k1. splits; try done.
  destruct Hlate as (k2 & th3 & Hop2 & Hk2 & Ht3 & Hr3 & He3).
  eexists k2, _, (th_set_error RT_EOK th3). splits; [done|done| | | |done].
  - unfold rt_thread_sleep_resume. rewrite (upd_th_eq _ _ _ _ Ht3). simpl. done.
  - simpl. rewrite lookup_insert_eq, He3. done.
  - exact Hr3.
Qed.

(** ** Witnesses *)

#[export] Instance no_user_timers : TimerCallbacks := fun _ k => Some k.
#[export] Instance no_user_timers_ok : TimerCallbacksOk no_user_timers.
Proof. split. intros f k p tm Hk Hc _ Hp _ Hoff Hper. exists k. splits; try done; lia. Qed.

Lemma demo_periods : periods_ok (k_t demo_k).
Proof.
  intros p tm Hp Hm Hpe. simpl in Hp.
  repeat apply elem_of_cons in Hp as [->|Hp]; [..|by apply elem_of_nil in Hp];
    vm_compute in Hm; injection Hm as <-; vm_compute in Hpe; discriminate Hpe.
Qed.

Example rt_tick_increase_wf_witness :
  exists k', rt_tick_increase 4 demo_k = Some k' /\ kernel_but ∅ 1 k' /\ is_Some (current (k_s k')) /\
    periods_ok (k_t k') /\ rt_tick (k_t k') = u32 (rt_tick (k_t demo_k) + 1).
Proof.
  apply (rt_tick_increase_wf demo_k 1 4 demo_k_wf).
  - reflexivity.
  - exact demo_periods.
  - vm_compute. lia.
Defined.

Example rt_thread_sleep_wakes_witness :
  exists k0 k1, rt_thread_sleep_enter 3 (demo_idle []) = Some k0 /\ on_s rt_schedule k0 = Some k1 /\
    (forall j, Z.of_nat j < 3 ->
       exists k2, ticks 2 j k1 = Some k2 /\ kernel_wf k2 /\ suspended (k_s k2) 0%nat) /\
    (exists k2 k3 th', ticks 2 (Z.to_nat 3) k1 = Some k2 /\ kernel_wf k2 /\
       rt_thread_sleep_resume 0 k2 = Some (k3, RT_EOK) /\
       threads (k_s k3) !! 0%nat = Some th' /\ is_ready th' /\ th_error th' = RT_EOK).
Proof.
  apply (rt_thread_sleep_wakes (demo_idle []) 0
    (Thread 1000 500 600 35 0 1 31 31 (2 ^ 31) 0 0 32 32 false 129) 3 2 demo_idle_wf_0).
  - reflexivity.
  - vm_compute. reflexivity.
  - reflexivity.
  - intros p Hp. by apply elem_of_nil in Hp.
  - unfold max_delay. lia.
  - vm_compute. lia.
Defined.
