(* ===== verification/Ipc.v ===== *)
(** * Waiting lists of IPC objects (rt-thread/src/ipc.c, first part)

    [rt_ipc_list_suspend], [rt_ipc_list_resume] and [rt_ipc_list_resume_all],
    shared by the five kinds of IPC objects, and what they do to the kernel. *)

From S2P Require Import Prelude RtList Sched SchedFacts Timer Kernel Thread Demo.

(** ** Operations *)

(** The outcome of the part of a blocking call before [rt_schedule]: it
    returns, or the thread is suspended and resumes after [rt_schedule]. *)
Inductive blocking := Ret (r : Z) | Blocked.

Definition set_list (h : lhead) (l : list tid) (k : kernel) : kernel :=
  set_s (set_lists (<[h := l]> (lists (k_s k))) (k_s k)) k.
Definition rt_list_init_head (h : lhead) (k : kernel) : kernel := set_list h [] k.

(** The search of [RT_IPC_FLAG_PRIO]: before the first thread of strictly lower
    priority, else at the end. *)
Fixpoint prio_insert (ths : gmap tid rt_thread) (p : Z) (t : tid) (l : list tid) : option (list tid) :=
  match l with
  | [] => Some [t]
  | s :: l' =>
      sth ← ths !! s;
      if p <? th_current_priority sth then Some (t :: s :: l')
      else r ← prio_insert ths p t l'; Some (s :: r)
  end.

Definition rt_ipc_list_suspend (h : lhead) (t : tid) (flag : Z) (k : kernel) : option kernel :=
  '(k, _) ← rt_thread_suspend t k;
  if flag =? RT_IPC_FLAG_FIFO then
    ls ← lists_append h t (lists (k_s k)); Some (set_s (set_lists ls (k_s k)) k)
  else if flag =? RT_IPC_FLAG_PRIO then
    th ← threads (k_s k) !! t;
    l ← lists (k_s k) !! h;
    l' ← prio_insert (threads (k_s k)) (th_current_priority th) t l;
    Some (set_list h l' k)
  else Some k.

Definition rt_ipc_list_resume (h : lhead) (k : kernel) : option kernel :=
  l ← lists (k_s k) !! h;
  t ← head l;
  '(k, _) ← rt_thread_resume t k;
  Some k.

(** The loop of [rt_ipc_list_resume_all]; [fuel] bounds the number of waiting
    threads. *)
Fixpoint rt_ipc_list_resume_loop (fuel : nat) (h : lhead) (k : kernel) : option kernel :=
  l ← lists (k_s k) !! h;
  match l, fuel with
  | [], _ => Some k
  | _ :: _, O => None
  | t :: _, S fuel =>
      k ← upd_th t (th_set_error (- RT_ERROR)) k;
      '(k, _) ← rt_thread_resume t k;
      rt_ipc_list_resume_loop fuel h k
  end.

Definition rt_ipc_list_resume_all (h : lhead) (k : kernel) : option kernel :=
  l ← lists (k_s k) !! h; rt_ipc_list_resume_loop (length l) h k.

(** Suspending on a list and arming the thread timer when the waiting time is
    positive: the common middle part of the blocking calls. *)
Definition suspend_with_timeout (h : lhead) (t : tid) (flag time : Z) (k : kernel) : option kernel :=
  k ← rt_ipc_list_suspend h t flag k;
  if 0 <? time then start_thread_timer t time k else Some k.

(** ** Specifications *)

Definition waiting_head (h : lhead) : Prop :=
  match h with LSuspend _ | LSender _ => True | _ => False end.

Lemma waiting_not_ready h : waiting_head h -> forall p, h <> LReady p.
Proof. by destruct h. Qed.

(** A thread on a waiting list exists and is suspended. *)
Lemma waiting_suspended X lo k h l t :
  kernel_but X lo k -> waiting_head h -> lists (k_s k) !! h = Some l -> t ∈ l -> suspended (k_s k) t.
Proof.
  intros Hk Hw Hl Hin. destruct (c_linked _ _ (wf_core _ (kw_sched _ _ _ Hk)) _ _ _ Hl Hin) as (th & Ht & Hs & _).
  exists th. split; [done|]. rewrite (Hs ltac:(set_solver)). by destruct h.
Qed.

Definition prio_of (s : sched) (t : tid) : Z :=
  match threads s !! t with Some th => th_current_priority th | None => 0 end.

(** Where the waiting thread goes: the list [l] becomes [l1 ++ t :: l2]. *)
Definition insert_position (flag : Z) (s : sched) (t : tid) (l1 l2 : list tid) : Prop :=
  (flag = RT_IPC_FLAG_FIFO -> l2 = []) /\
  (flag = RT_IPC_FLAG_PRIO ->
     Forall (fun x => prio_of s x <= prio_of s t) l1 /\
     match l2 with x :: _ => prio_of s t < prio_of s x | [] => True end).

Lemma prio_insert_spec ths p t l :
  (forall x, x ∈ l -> is_Some (ths !! x)) ->
  exists l1 l2, prio_insert ths p t l = Some (l1 ++ t :: l2) /\ l = l1 ++ l2 /\
    Forall (fun x => exists th, ths !! x = Some th /\ th_current_priority th <= p) l1 /\
    match l2 with
    | x :: _ => exists th, ths !! x = Some th /\ p < th_current_priority th
    | [] => True end.
Proof.
  induction l as [|s l IH]; intros Hex; simpl.
  { exists [], []. done. }
  destruct (Hex s) as [sth Hs]; [by left|]. rewrite Hs. simpl.
  destruct (Z.ltb_spec p (th_current_priority sth)) as [Hlt|Hge].
  - exists [], (s :: l). splits; try done. eauto.
  - destruct IH as (l1 & l2 & -> & -> & H1 & H2); [intros; apply Hex; by right|].
    exists (s :: l1), l2. splits; try done. constructor; [eauto|done].
Qed.

Definition ipc_flag_ok (flag : Z) : Prop := flag = RT_IPC_FLAG_FIFO \/ flag = RT_IPC_FLAG_PRIO.

(** The kernel after thread [t] (object [th]) went to wait on [h]. *)
Record parked (t : tid) (th : rt_thread) (h : lhead) (flag : Z) (k k' : kernel) : Prop := {
  pk_threads : threads (k_s k') = <[t := make_suspended th]> (threads (k_s k));
  pk_list : exists l1 l2, lists (k_s k) !! h = Some (l1 ++ l2) /\
    lists (k_s k') !! h = Some (l1 ++ t :: l2) /\ insert_position flag (k_s k) t l1 l2;
  pk_others : forall h', h' <> h -> waiting_head h' -> lists (k_s k') !! h' = lists (k_s k) !! h';
  pk_current : current (k_s k') = current (k_s k);
  pk_nest : lock_nest (k_s k') = lock_nest (k_s k) /\ irq_nest (k_s k') = irq_nest (k_s k);
  pk_objs : k_o k' = k_o k;
  pk_timers : timer_list (k_t k') = timer_list (k_t k) /\ rt_tick (k_t k') = rt_tick (k_t k);
}.

Lemma rt_ipc_list_suspend_spec X lo k t th h flag :
  kernel_but X lo k -> threads (k_s k) !! t = Some th -> is_ready th -> waiting_head h ->
  is_Some (lists (k_s k) !! h) -> ipc_flag_ok flag ->
  exists k', rt_ipc_list_suspend h t flag k = Some k' /\ kernel_but (X ∖ {[TThread t]}) lo k' /\
    parked t th h flag k k'.
Proof.
  intros Hk Ht Hrd Hw [l Hl] Hfl. unfold rt_ipc_list_suspend.
  destruct (rt_thread_suspend_spec X lo k t th Hk Ht Hrd) as
    (k1 & -> & Hk1 & Hths & Hls & Hcu & Hlk & Hirq & Hobj & Htl & Htk). simpl.
  assert (forall h' l', waiting_head h' -> lists (k_s k) !! h' = Some l' -> t ∉ l') as Hoff.
  { intros h' l' Hw' Hl' Hin. destruct (waiting_suspended _ _ _ _ _ _ Hk Hw' Hl' Hin) as (th' & Ht' & Hst).
    rewrite Ht in Ht'. injection Ht' as <-. by rewrite Hrd in Hst. }
  assert (forall h', waiting_head h' -> lists (k_s k1) !! h' = lists (k_s k) !! h') as Hsame.
  { intros h' Hw'. rewrite Hls, lists_remove_lookup. destruct (lists (k_s k) !! h') as [l'|] eqn:E; [|done].
    simpl. f_equal. apply remove_elem_notin. by eapply Hoff. }
  assert (lists (k_s k1) !! h = Some l) as Hl1 by (by rewrite Hsame).
  assert (threads (k_s k1) !! t = Some (make_suspended th)) as Ht1 by (by rewrite Hths, lookup_insert_eq).
  assert (forall l1 l2, l = l1 ++ l2 -> insert_position flag (k_s k) t l1 l2 ->
    let k' := set_list h (l1 ++ t :: l2) k1 in
    kernel_but (X ∖ {[TThread t]}) lo k' /\ parked t th h flag k k') as Hgen.
  { intros l1 l2 -> Hpos. split.
    - unfold set_list. apply kernel_set_sched; try done.
      + apply (wf_link _ t (make_suspended th) h (l1 ++ l2)); try done.
        * apply Hk1.
        * rewrite make_suspended_stat. by destruct h.
        * by apply waiting_not_ready.
        * rewrite Hls, linked_remove. tauto.
        * by rewrite Permutation_middle.
      + intros t' th'. simpl. eauto.
      + intros h' Hh'. simpl. rewrite lookup_insert. destruct (decide (h = h')); [by eexists|done].
    - split; simpl; try done.
      + exists l1, l2. rewrite lookup_insert_eq. done.
      + intros h' Hne Hw'. rewrite lookup_insert_ne by done. by apply Hsame. }
  destruct Hfl as [->| ->]; simpl.
  - unfold lists_append. rewrite Hl1. simpl. destruct (Hgen l []) as [? ?].
    + by rewrite app_nil_r.
    + by split.
    + eexists. by split.
  - rewrite Ht1. simpl. rewrite Hl1. simpl.
    destruct (prio_insert_spec (threads (k_s k1)) (th_current_priority th) t l) as (l1 & l2 & Hop & -> & H1 & H2).
    { intros x Hx. destruct (waiting_suspended _ _ _ _ _ _ Hk1 Hw Hl1 Hx) as (thx & ? & _). by eexists. }
    change (th_current_priority (make_suspended th)) with (th_current_priority th). rewrite Hop. simpl.
    destruct (Hgen l1 l2) as [? ?]; [done| |eexists; by split].
    assert (forall x thx, threads (k_s k1) !! x = Some thx -> prio_of (k_s k) x = th_current_priority thx) as Hpo.
    { intros x thx. rewrite Hths. unfold prio_of. destruct (decide (x = t)) as [->|Hne].
      - rewrite lookup_insert_eq, Ht. by intros [= <-].
      - rewrite lookup_insert_ne by done. by intros ->. }
    assert (prio_of (k_s k) t = th_current_priority th) as Hpt by (unfold prio_of; by rewrite Ht).
    split; [done|]. intros _. rewrite Hpt. split.
    + eapply Forall_impl; [exact H1|]. intros x (thx & Hx & Hle). by rewrite (Hpo x thx).
    + destruct l2 as [|x l2]; [done|]. destruct H2 as (thx & Hx & Hle). by rewrite (Hpo x thx).
Qed.

(** Waking the first waiter of [h]. *)
Lemma rt_ipc_list_resume_spec X lo k h t l :
  kernel_but X lo k -> waiting_head h -> lists (k_s k) !! h = Some (t :: l) ->
  exists k' th, rt_ipc_list_resume h k = Some k' /\ kernel_but (X ∖ {[TThread t]}) lo k' /\
    threads (k_s k) !! t = Some th /\ stat_of th = RT_THREAD_SUSPEND /\
    woken t th (k_s k) (k_s k') /\ lists (k_s k') !! h = Some l /\
    (forall h', h' <> h -> waiting_head h' -> lists (k_s k') !! h' = lists (k_s k) !! h') /\
    k_o k' = k_o k /\ timer_list (k_t k') = remove_elem (TThread t) (timer_list (k_t k)) /\
    rt_tick (k_t k') = rt_tick (k_t k).
Proof.
  intros Hk Hw Hl. unfold rt_ipc_list_resume. rewrite Hl. simpl.
  destruct (waiting_suspended _ _ _ _ _ t Hk Hw Hl) as (th & Ht & Hst); [by left|].
  destruct (rt_thread_resume_spec X lo k t th Hk Ht Hst) as
    (k' & tm & -> & Hk' & Hwk & Hobj & _ & _ & Htl & Htk). simpl.
  destruct (c_ok _ _ (wf_core _ (kw_sched _ _ _ Hk))) as [Hnd Hdis].
  exists k', th. splits; try done.
  - rewrite (wk_lists _ _ _ _ Hwk) by (by apply waiting_not_ready). rewrite Hl. simpl. f_equal.
    apply remove_elem_cons_eq. specialize (Hnd _ _ Hl). by apply NoDup_cons in Hnd as [? _].
  - intros h' Hne Hw'. rewrite (wk_lists _ _ _ _ Hwk) by (by apply waiting_not_ready).
    destruct (lists (k_s k) !! h') as [l'|] eqn:E; [|done]. simpl. f_equal. apply remove_elem_notin.
    intros Hin. apply Hne. apply (Hdis h' h l' (t :: l) t); try done. by left.
Qed.

(** The threads of [l] were woken with error code [e]. *)
Definition woken_all (e : Z) (l : list tid) (s s' : sched) : Prop :=
  forall t, threads s' !! t =
    (if decide (t ∈ l) then (fun th => make_ready (th_set_error e th)) <$> threads s !! t else threads s !! t).

Lemma rt_ipc_list_resume_loop_spec X lo h l : forall k,
  kernel_but X lo k -> waiting_head h -> lists (k_s k) !! h = Some l ->
  exists k', rt_ipc_list_resume_loop (length l) h k = Some k' /\ kernel_but X lo k' /\
    woken_all (- RT_ERROR) l (k_s k) (k_s k') /\ lists (k_s k') !! h = Some [] /\
    (forall h', h' <> h -> waiting_head h' -> lists (k_s k') !! h' = lists (k_s k) !! h') /\
    k_o k' = k_o k /\ current (k_s k') = current (k_s k) /\ lock_nest (k_s k') = lock_nest (k_s k) /\
    (forall p, p ∈ timer_list (k_t k') -> p ∈ timer_list (k_t k)) /\ rt_tick (k_t k') = rt_tick (k_t k).
Proof.
  induction l as [|t l IH]; intros k Hk Hw Hl; simpl; rewrite Hl; simpl.
  { exists k. splits; try done. }
  destruct (waiting_suspended _ _ _ _ _ t Hk Hw Hl) as (th & Ht & Hst); [by left|].
  rewrite (upd_th_eq _ _ _ _ Ht). simpl. set (th1 := th_set_error (- RT_ERROR) th).
  assert (kernel_but X lo (set_th t th1 k)) as Hk1 by (apply (kernel_put_same _ _ _ _ th); eauto with kernel).
  destruct (rt_ipc_list_resume_spec X lo (set_th t th1 k) h t l Hk1 Hw Hl) as
    (k2 & th2 & Hop & Hk2 & Ht2 & _ & Hwk & Hl2 & Hoth2 & Hobj2 & Htl2 & Htk2).
  simpl in Ht2. rewrite lookup_insert_eq in Ht2. injection Ht2 as <-.
  unfold rt_ipc_list_resume in Hop. simpl in Hop. rewrite Hl in Hop. simpl in Hop.
  destruct (rt_thread_resume t (set_th t th1 k)) as [[k3 r]|]; [|done]. simpl in Hop. injection Hop as ->. simpl.
  assert (kernel_but X lo k2) as Hk2'.
  { destruct Hk2 as [? Htw ? ?]. split; try done. split; try apply Htw.
    intros p tm Hp HX. apply (tw_active _ _ _ Htw p tm Hp). set_solver. }
  destruct (IH k2 Hk2' Hw Hl2) as (k' & -> & Hk' & Hwa & Hl' & Hoth & Hobj & Hcu & Hlk & Htl & Htk).
  pose proof (proj1 (c_ok _ _ (wf_core _ (kw_sched _ _ _ Hk))) _ _ Hl) as [Hni _]%NoDup_cons.
  exists k'. splits; try done.
  - intros t'. rewrite Hwa, (wk_threads _ _ _ _ Hwk). simpl. rewrite insert_insert_eq.
    destruct (decide (t' = t)) as [->|Hne].
    + rewrite lookup_insert_eq, decide_False, decide_True by (done || by left). by rewrite Ht.
    + rewrite lookup_insert_ne by done. destruct (decide (t' ∈ l)) as [Hin|Hin].
      * by rewrite decide_True by (by right).
      * rewrite decide_False; [done|]. by rewrite not_elem_of_cons.
  - intros h' Hne Hw'. by rewrite Hoth, Hoth2.
  - by rewrite Hobj, Hobj2.
  - by rewrite Hcu, (wk_current _ _ _ _ Hwk).
  - by rewrite Hlk, (proj1 (wk_nest _ _ _ _ Hwk)).
  - intros p Hp%Htl. rewrite Htl2 in Hp. by apply elem_of_remove_elem in Hp as [_ ?].
  - by rewrite Htk, Htk2.
Qed.

Lemma rt_ipc_list_resume_all_spec X lo h l k :
  kernel_but X lo k -> waiting_head h -> lists (k_s k) !! h = Some l ->
  exists k', rt_ipc_list_resume_all h k = Some k' /\ kernel_but X lo k' /\
    woken_all (- RT_ERROR) l (k_s k) (k_s k') /\ lists (k_s k') !! h = Some [] /\
    (forall h', h' <> h -> waiting_head h' -> lists (k_s k') !! h' = lists (k_s k) !! h') /\
    k_o k' = k_o k /\ current (k_s k') = current (k_s k) /\ lock_nest (k_s k') = lock_nest (k_s k) /\
    (forall p, p ∈ timer_list (k_t k') -> p ∈ timer_list (k_t k)) /\ rt_tick (k_t k') = rt_tick (k_t k).
Proof.
  intros Hk Hw Hl. unfold rt_ipc_list_resume_all. rewrite Hl. simpl. by apply rt_ipc_list_resume_loop_spec.
Qed.

(** Objects and their lists. *)
Lemma kernel_put_obj X lo k o x :
  kernel_but X lo k -> is_Some (lists (k_s k) !! LSuspend o) ->
  (forall mb, x = IMailbox mb -> is_Some (lists (k_s k) !! LSender o)) ->
  kernel_but X lo (put_obj o x k).
Proof.
  intros [Hs Ht [] Ho] H1 H2. split; [done|done|by split|]. intros o' x' Hx. simpl in *.
  destruct (decide (o' = o)) as [->|Hne].
  - rewrite lookup_insert_eq in Hx. by injection Hx as <-.
  - rewrite lookup_insert_ne in Hx by done. by apply Ho.
Qed.

Lemma kernel_same_obj X lo k o x y :
  kernel_but X lo k -> k_o k !! o = Some x ->
  (forall mb, y = IMailbox mb -> exists mb', x = IMailbox mb') -> kernel_but X lo (put_obj o y k).
Proof.
  intros Hk Hx Hy. destruct (kw_lists _ _ _ Hk o x Hx) as [H1 H2]. apply kernel_put_obj; try done.
  intros mb E. destruct (Hy mb E) as [mb' ->]. by eapply H2.
Qed.

(** A fresh or empty waiting list. *)
Lemma kernel_init_list X lo k h :
  kernel_but X lo k -> waiting_head h -> default [] (lists (k_s k) !! h) = [] ->
  kernel_but X lo (rt_list_init_head h k).
Proof.
  intros Hk Hw He. unfold rt_list_init_head, set_list.
  assert (forall h' l t, <[h := []]> (lists (k_s k)) !! h' = Some l -> t ∈ l ->
    lists (k_s k) !! h' = Some l) as Hold.
  { intros h' l t. rewrite lookup_insert. destruct (decide (h = h')) as [<-|]; [|done].
    intros [= <-] Hin. by apply elem_of_nil in Hin. }
  assert (forall p, <[h := []]> (lists (k_s k)) !! LReady p = lists (k_s k) !! LReady p) as Hr.
  { intros p. rewrite lookup_insert_ne; [done|]. by apply waiting_not_ready. }
  pose proof Hk as [[Hc Hco Hcur] _ _ _]. apply kernel_set_sched; try done.
  - split; [split|..]; simpl; try apply Hc.
    + destruct (c_ok _ _ Hc) as [Hnd Hdis]. split.
      * intros h' l Hl. destruct l as [|t l]; [constructor|]. apply (Hnd h').
        apply (Hold _ _ t); [done|by left].
      * intros h1 h2 l1 l2 t Hl1 Hl2 Hin1 Hin2. apply (Hdis h1 h2 l1 l2 t); try done; by apply (Hold _ _ t).
    + intros h' l t Hl Hin. apply (c_linked _ _ Hc h' l t); [by apply (Hold _ _ t)|done].
    + intros p. rewrite Hr. apply Hc.
    + rewrite lookup_insert. destruct (decide (h = LDefunct)); [by eexists|apply Hc].
    + intros p l. rewrite Hr. apply Hc.
    + intros t th. simpl. rewrite Hr. apply Hco.
    + intros c Hcc. destruct (Hcur c Hcc) as [He' Hoff]. split; [done|]. intros p l. simpl. rewrite Hr. apply Hoff.
  - intros t th'. simpl. eauto.
  - intros h' Hh'. simpl. rewrite lookup_insert. destruct (decide (h = h')); [by eexists|done].
Qed.

(** A thread parked with its timer. *)
Lemma suspend_with_timeout_spec k t th h flag time :
  kernel_wf k -> threads (k_s k) !! t = Some th -> is_ready th -> waiting_head h ->
  is_Some (lists (k_s k) !! h) -> ipc_flag_ok flag -> time <= max_delay ->
  exists k1 k', suspend_with_timeout h t flag time k = Some k' /\ kernel_wf k' /\
    parked t th h flag k k1 /\ k_s k' = k_s k1 /\ k_o k' = k_o k /\ rt_tick (k_t k') = rt_tick (k_t k) /\
    (0 < time -> TThread t ∈ timer_list (k_t k') /\ timer_left (k_t k') (TThread t) = time) /\
    (forall p, p <> TThread t -> p ∈ timer_list (k_t k') <-> p ∈ timer_list (k_t k)).
Proof.
  intros Hk Ht Hrd Hw Hh Hfl Htime. unfold suspend_with_timeout.
  destruct (rt_ipc_list_suspend_spec ∅ 0 k t th h flag Hk Ht Hrd Hw Hh Hfl) as (k1 & -> & Hk1 & Hp). simpl.
  replace (∅ ∖ {[TThread t]}) with (∅ : gset timer_ptr) in Hk1 by set_solver.
  destruct (pk_timers _ _ _ _ _ _ Hp) as [Htl Htk].
  destruct (Z.ltb_spec 0 time) as [Hpos|Hneg].
  - destruct (start_thread_timer_spec ∅ 0 k1 t time Hk1) as (k' & -> & Hk' & Hs & Ho & Htk' & Hin & Hleft & Hunt); try lia.
    { exists (make_suspended th). rewrite (pk_threads _ _ _ _ _ _ Hp), lookup_insert_eq, make_suspended_stat. done. }
    replace (∅ ∖ {[TThread t]}) with (∅ : gset timer_ptr) in Hk' by set_solver.
    exists k1, k'. splits; try done.
    + by rewrite Ho, (pk_objs _ _ _ _ _ _ Hp).
    + by rewrite Htk', Htk.
    + intros p Hne. rewrite <-Htl. by apply (Hunt p Hne).
  - exists k1, k1. splits; try done; [apply (pk_objs _ _ _ _ _ _ Hp)|lia|]. intros p Hne. by rewrite Htl.
Qed.
