(* ===== verification/Ring.v ===== *)
(** * Circular buffers

    When an array read circularly from an offset holds a given queue; adding
    and taking elements. Used by the mailboxes and other ring-like structures. *)

From S2P Require Import Prelude.

Section Ring.
Context {A : Type}.
Implicit Types (pool q : list A) (v : A) (out i : nat).

(** The elements of [q] are in the cells [out], [out + 1], ... modulo the size. *)
Record ring_repr pool out q : Prop := {
  rr_len : (length q <= length pool)%nat;
  rr_out : (out < length pool)%nat;
  rr_cell : forall i v, q !! i = Some v -> pool !! ((out + i) mod length pool)%nat = Some v;
}.

Lemma ring_empty pool out : (out < length pool)%nat -> ring_repr pool out [].
Proof. intros. split; simpl; [lia|done|]. intros i v H0. by rewrite lookup_nil in H0. Qed.

Lemma mod_wrap a n : (a < 2 * n)%nat -> (a mod n)%nat = (if decide (a < n)%nat then a else a - n)%nat.
Proof.
  intros Ha. destruct (decide (a < n)%nat) as [Hlt|Hge].
  - by apply Nat.mod_small.
  - symmetry. apply (Nat.mod_unique a n 1); lia.
Qed.

Lemma mod_wrap_ge a n : (n <= a < 2 * n)%nat -> (a mod n)%nat = (a - n)%nat.
Proof. intros Ha. rewrite mod_wrap by lia. by rewrite decide_False by lia. Qed.

Lemma ring_push pool out q v :
  ring_repr pool out q -> (length q < length pool)%nat ->
  ring_repr (<[((out + length q) mod length pool)%nat := v]> pool) out (q ++ [v]).
Proof.
  intros [Hl Ho Hc] Hlt. split.
  - rewrite length_app, length_insert. simpl. lia.
  - by rewrite length_insert.
  - intros i w. rewrite length_insert. destruct (decide (i < length q)%nat) as [Hi|Hi].
    + rewrite lookup_app_l by done. intros Hq. rewrite list_lookup_insert_ne; [by apply Hc|].
      rewrite !mod_wrap by lia. repeat case_decide; lia.
    + intros [? | [? Hw]]%lookup_app_Some; [apply lookup_lt_Some in H; lia|].
      apply list_lookup_singleton_Some in Hw as [Hz <-].
      replace i with (length q) by lia. rewrite list_lookup_insert_eq; [done|].
      apply Nat.mod_upper_bound. lia.
Qed.

(** The offset after [out]. *)
Definition ring_next (n out : nat) : nat := if decide (S out < n)%nat then S out else 0%nat.

Lemma ring_next_lt n out : (0 < n)%nat -> (ring_next n out < n)%nat.
Proof. unfold ring_next. case_decide; lia. Qed.

Lemma ring_next_mod n out i :
  (out < n)%nat -> (i < n)%nat -> ((ring_next n out + i) mod n = (out + S i) mod n)%nat.
Proof.
  intros Ho Hi. unfold ring_next. case_decide; [f_equal; lia|].
  replace (out + S i)%nat with (0 + i + 1 * n)%nat by lia. by rewrite Nat.Div0.mod_add.
Qed.

Lemma ring_pop pool out v q :
  ring_repr pool out (v :: q) ->
  pool !! out = Some v /\ ring_repr pool (ring_next (length pool) out) q.
Proof.
  intros [Hl Ho Hc]. simpl in Hl. split.
  - specialize (Hc 0%nat v eq_refl). rewrite Nat.add_0_r, Nat.mod_small in Hc by done. done.
  - split; [lia|apply ring_next_lt; lia|].
    intros i w Hi. rewrite ring_next_mod; [by apply (Hc (S i))|done|].
    apply lookup_lt_Some in Hi. lia.
Qed.

(** Advancing [in = (out + length q) mod n]. *)
Lemma ring_in_next n out m :
  (out < n)%nat -> (m < n)%nat -> ring_next n ((out + m) mod n) = ((out + S m) mod n)%nat.
Proof.
  intros Ho Hm. unfold ring_next. rewrite !mod_wrap by lia. repeat case_decide; lia.
Qed.

Lemma ring_unique pool out q1 q2 :
  ring_repr pool out q1 -> ring_repr pool out q2 -> length q1 = length q2 -> q1 = q2.
Proof.
  intros H1 H2 Hlen. apply list_eq_same_length with (n := length q1); [done|lia|].
  intros i x y Hi Hx Hy. apply (rr_cell _ _ _ H1) in Hx. apply (rr_cell _ _ _ H2) in Hy. congruence.
Qed.
End Ring.

(** ** Writing several cells *)

Section Write.
Context {A : Type}.
Implicit Types (pool q d : list A) (out w i j : nat).

(** [d] is written circularly from cell [w]. *)
Record ring_written pool w d pool' : Prop := {
  rw_len : length pool' = length pool;
  rw_new : forall i, (i < length d)%nat -> pool' !! ((w + i) mod length pool)%nat = d !! i;
  rw_old : forall j, (j < length pool)%nat -> (forall i, (i < length d)%nat -> j <> ((w + i) mod length pool)%nat) -> pool' !! j = pool !! j;
}.

Lemma mod_window o a b n : (a < b < a + n)%nat -> ((o + a) mod n <> (o + b) mod n)%nat.
Proof.
  intros Hab E. pose proof (Nat.div_mod_eq (o + a) n) as H1. pose proof (Nat.div_mod_eq (o + b) n) as H2.
  rewrite E in H1. set (x := ((o + a) / n)%nat) in *. set (y := ((o + b) / n)%nat) in *. set (r := ((o + b) mod n)%nat) in *.
  assert (b - a = n * (y - x))%nat by nia. assert (y - x = 0 \/ y - x >= 1)%nat as [H0|H0] by lia; nia.
Qed.

(** The queue after the write: the oldest elements that do not fit are gone. *)
Lemma ring_write pool out q d pool' :
  ring_repr pool out q -> (length d <= length pool)%nat ->
  ring_written pool ((out + length q) mod length pool) d pool' ->
  let k := (length q + length d - length pool)%nat in
  ring_repr pool' ((out + k) mod length pool) (drop k (q ++ d)).
Proof.
  intros [Hl Ho Hc] Hd [Wl Wn Wo] k. set (n := length pool) in *. assert (n <> 0)%nat as Hn0 by lia.
  assert (forall a b, ((a mod n + b) mod n = (a + b) mod n)%nat) as Hmod by (intros; by rewrite Nat.Div0.add_mod_idemp_l).
  split.
  - rewrite Wl. fold n. rewrite length_drop, length_app. lia.
  - rewrite Wl. fold n. by apply Nat.mod_upper_bound.
  - intros i v Hi. rewrite Wl. fold n. rewrite lookup_drop in Hi. rewrite Hmod.
    assert (k + i < length q + length d)%nat as Hlt by (apply lookup_lt_Some in Hi; rewrite length_app in Hi; lia).
    destruct (decide (k + i < length q)%nat) as [Hq|Hq].
    + rewrite lookup_app_l in Hi by done. rewrite <-Nat.add_assoc.
      rewrite Wo; [by apply Hc|by apply Nat.mod_upper_bound|].
      intros j Hj. rewrite Hmod, <-Nat.add_assoc. apply mod_window. unfold k in *. lia.
    + rewrite lookup_app_r in Hi by lia. rewrite <-Hi, <-(Wn (k + i - length q)%nat) by lia.
      rewrite Hmod. do 2 f_equal. lia.
Qed.

Lemma ring_drop pool out q k :
  ring_repr pool out q -> (k <= length q)%nat -> ring_repr pool ((out + k) mod length pool) (drop k q).
Proof.
  intros [Hl Ho Hc] Hk. split.
  - rewrite length_drop. lia.
  - apply Nat.mod_upper_bound. lia.
  - intros i v Hi. rewrite lookup_drop in Hi. rewrite Nat.Div0.add_mod_idemp_l, <-Nat.add_assoc. by apply Hc.
Qed.

Lemma ring_read pool out q i : ring_repr pool out q -> (i < length q)%nat -> pool !! ((out + i) mod length pool)%nat = q !! i.
Proof. intros [_ _ Hc] Hi. destruct (lookup_lt_is_Some_2 q i Hi) as [v Hv]. rewrite Hv. by apply Hc. Qed.

(** Reading [k] elements in one or two copies. *)
Lemma ring_copied pool out q k : ring_repr pool out q -> (k <= length q)%nat ->
  (if (out + k <? length pool)%nat then take k (drop out pool)
   else take (length pool - out) (drop out pool) ++ take (k + out - length pool) pool) = take k q.
Proof.
  intros Hq Hk. pose proof Hq as [Hl Ho _].
  assert (forall i, (i < k)%nat -> take k q !! i = pool !! ((out + i) mod length pool)%nat) as Hread.
  { intros i Hi. rewrite (ring_read _ _ _ _ Hq), lookup_take_lt by lia. done. }
  destruct (Nat.ltb_spec (out + k) (length pool)) as [Hn|Hn].
  - apply list_eq_same_length with (n := k); [rewrite length_take; lia|rewrite length_take, length_drop; lia|].
    intros i x y Hi Hx Hy. rewrite lookup_take_lt, lookup_drop in Hx by lia. rewrite Hread, Nat.mod_small in Hy by lia. congruence.
  - apply list_eq_same_length with (n := k); [rewrite length_take; lia|rewrite length_app, !length_take, length_drop; lia|].
    intros i x y Hi Hx Hy. rewrite Hread, mod_wrap in Hy by lia. case_decide.
    + rewrite lookup_app_l, lookup_take_lt, lookup_drop in Hx by (rewrite ?length_take, ?length_drop; lia). congruence.
    + rewrite lookup_app_r in Hx by (rewrite length_take, length_drop; lia). rewrite length_take, length_drop, lookup_take_lt in Hx by lia.
      rewrite Nat.min_l in Hx by lia. replace (i - (length pool - out))%nat with (out + i - length pool)%nat in Hx by lia. congruence.
Qed.

(** Copying [src] to the cells from [off] on. *)
Definition copy_in off (src pool : list A) : list A := take off pool ++ src ++ drop (off + length src) pool.

Lemma copy_in_length off src pool : (off + length src <= length pool)%nat -> length (copy_in off src pool) = length pool.
Proof. intros H. unfold copy_in. rewrite !length_app, length_take, length_drop. lia. Qed.
Lemma copy_in_lookup off src pool j : (off + length src <= length pool)%nat ->
  copy_in off src pool !! j = if decide (off <= j < off + length src)%nat then src !! (j - off)%nat else pool !! j.
Proof.
  intros H. unfold copy_in. assert (length (take off pool) = off) as El by (rewrite length_take; lia).
  destruct (decide (j < off)%nat) as [Hj|Hj].
  - rewrite lookup_app_l by lia. rewrite lookup_take_lt by lia. by rewrite decide_False by lia.
  - rewrite lookup_app_r by lia. rewrite El. destruct (decide (j - off < length src)%nat).
    + rewrite lookup_app_l by done. by rewrite decide_True by lia.
    + rewrite lookup_app_r by lia. rewrite lookup_drop, decide_False by lia. f_equal. lia.
Qed.

(** One or two copies write circularly. *)
Lemma written_one pool w d : (w + length d <= length pool)%nat -> (w < length pool)%nat -> ring_written pool w d (copy_in w d pool).
Proof.
  intros H Hw. split.
  - by apply copy_in_length.
  - intros i Hi. rewrite copy_in_lookup by done. rewrite Nat.mod_small, decide_True by lia. f_equal. lia.
  - intros j Hj Hne. rewrite copy_in_lookup by done. rewrite decide_False; [done|]. intros Hr.
    apply (Hne (j - w)%nat); [lia|]. rewrite Nat.mod_small by lia. lia.
Qed.
Lemma written_two pool w d : (length d <= length pool)%nat -> (w < length pool)%nat -> (length pool - w <= length d)%nat ->
  ring_written pool w d (copy_in 0 (drop (length pool - w) d) (copy_in w (take (length pool - w) d) pool)).
Proof.
  intros Hd Hw Hn. set (n1 := (length pool - w)%nat) in *.
  assert (length (take n1 d) = n1 /\ length (drop n1 d) = (length d - n1)%nat) as [E1 E2] by (rewrite length_take, length_drop; lia).
  assert (length (copy_in w (take n1 d) pool) = length pool) as El by (apply copy_in_length; lia).
  split.
  - rewrite copy_in_length; lia.
  - intros i Hi. rewrite copy_in_lookup by lia. rewrite E2, mod_wrap by lia. destruct (decide (w + i < length pool)%nat).
    + rewrite decide_False by lia. rewrite copy_in_lookup by lia. rewrite E1, decide_True by lia. rewrite lookup_take_lt by lia. f_equal. lia.
    + rewrite decide_True by lia. rewrite lookup_drop. f_equal. lia.
  - intros j Hj Hne. rewrite copy_in_lookup by lia. rewrite E2, decide_False.
    + rewrite copy_in_lookup by lia. rewrite E1, decide_False; [done|]. intros Hr.
      apply (Hne (j - w)%nat); [lia|]. rewrite mod_wrap by lia. rewrite decide_True by lia. lia.
    + intros Hr. apply (Hne (n1 + j)%nat); [lia|]. rewrite mod_wrap by lia. rewrite decide_False by lia. lia.
Qed.
End Write.

(** ** Keeping the last elements *)

Section Last.
Context {A : Type}.
Implicit Types (n : nat) (q d : list A).

Definition last_bytes n q : list A := drop (length q - n) q.

Lemma last_bytes_all n q : (length q <= n)%nat -> last_bytes n q = q.
Proof. intros Hq. unfold last_bytes. by rewrite (proj2 (Nat.sub_0_le _ _) Hq), drop_0. Qed.

Lemma last_bytes_length n q : length (last_bytes n q) = Nat.min n (length q).
Proof. unfold last_bytes. rewrite length_drop. lia. Qed.

Lemma last_bytes_app n q d : last_bytes n (last_bytes n q ++ d) = last_bytes n (q ++ d).
Proof.
  unfold last_bytes. rewrite !length_app, length_drop. destruct (decide (length q <= n)%nat) as [Hq|Hq].
  - by rewrite (proj2 (Nat.sub_0_le (length q) n)), drop_0, Nat.sub_0_r by lia.
  - rewrite <-(drop_app_le q d (length q - n)) by lia. rewrite drop_drop. f_equal. lia.
Qed.

Lemma last_bytes_trim n q d : last_bytes n (q ++ drop (length d - n) d) = last_bytes n (q ++ d).
Proof.
  unfold last_bytes. rewrite !length_app, length_drop. destruct (decide (length d <= n)%nat) as [Hd|Hd].
  - by rewrite (proj2 (Nat.sub_0_le _ _) Hd), drop_0, Nat.sub_0_r.
  - rewrite (drop_app_ge q d) by lia. rewrite drop_app_ge by lia. rewrite drop_drop. f_equal. lia.
Qed.

Lemma last_bytes_Forall (P : A -> Prop) n q : Forall P q -> Forall P (last_bytes n q).
Proof. apply Forall_drop. Qed.
End Last.
