(* ===== verification/Sem.v ===== *)
(** * Semaphores (rt-thread/src/ipc.c) *)

From S2P Require Import Prelude RtList Sched SchedFacts Timer Kernel Thread Demo Clock Ipc.

(** ** Operations *)

Definition get_sem (o : oid) (k : kernel) : option rt_semaphore :=
  match k_o k !! o with Some (ISem x) => Some x | _ => None end.

Definition rt_ipc_object_init (o : oid) (k : kernel) : kernel := rt_list_init_head (LSuspend o) k.

(** [value] is an [rt_uint32_t] stored in an [rt_uint16_t] field. *)
Definition rt_sem_init (o : oid) (value flag : Z) (k : kernel) : kernel * Z :=
  (put_obj o (ISem (Sem (u8 flag) (u16 value))) (rt_ipc_object_init o k), RT_EOK).

(** [obj]: the object the allocator returns, if any. *)
Definition rt_sem_create (obj : option oid) (value flag : Z) (k : kernel) : kernel * option oid :=
  match obj with
  | None => (k, None)
  | Some o => (put_obj o (ISem (Sem (u8 flag) (u16 value))) (rt_ipc_object_init o k), Some o)
  end.

Definition rt_sem_detach (o : oid) (k : kernel) : option (kernel * Z) :=
  _ ← get_sem o k; k ← rt_ipc_list_resume_all (LSuspend o) k; Some (k, RT_EOK).

(** The object's memory, with its list head, goes back to the heap. *)
Definition free_obj (o : oid) (hs : list lhead) (k : kernel) : kernel :=
  set_o (delete o (k_o k)) (set_s (set_lists (foldr delete (lists (k_s k)) hs) (k_s k)) k).

Definition rt_sem_delete (o : oid) (k : kernel) : option (kernel * Z) :=
  _ ← get_sem o k; k ← rt_ipc_list_resume_all (LSuspend o) k;
  Some (free_obj o [LSuspend o] k, RT_EOK).

Definition rt_sem_take_enter (o : oid) (time : Z) (k : kernel) : option (kernel * blocking) :=
  sem ← get_sem o k;
  if 0 <? sem_value sem then
    Some (put_obj o (ISem (Sem (sem_flag sem) (u16 (sem_value sem - 1)))) k, Ret RT_EOK)
  else if time =? 0 then Some (k, Ret (- RT_ETIMEOUT))
  else
    t ← rt_thread_self k;
    k ← upd_th t (th_set_error RT_EOK) k;
    k ← suspend_with_timeout (LSuspend o) t (sem_flag sem) time k;
    Some (k, Blocked).

(** After [rt_schedule], in thread [t]. *)
Definition rt_sem_take_resume (t : tid) (k : kernel) : option Z :=
  th ← threads (k_s k) !! t;
  Some (if negb (th_error th =? RT_EOK) then th_error th else RT_EOK).

Definition rt_sem_trytake (o : oid) (k : kernel) : option (kernel * blocking) := rt_sem_take_enter o 0 k.

(** The section with interrupts disabled, and whether to schedule. *)
Definition rt_sem_release_section (o : oid) (k : kernel) : option (kernel * bool) :=
  sem ← get_sem o k;
  l ← lists (k_s k) !! LSuspend o;
  match l with
  | _ :: _ => k ← rt_ipc_list_resume (LSuspend o) k; Some (k, true)
  | [] => Some (put_obj o (ISem (Sem (sem_flag sem) (u16 (sem_value sem + 1)))) k, false)
  end.

Definition schedule_if (b : bool) (k : kernel) : option kernel := if b then on_s rt_schedule k else Some k.

Definition rt_sem_release (o : oid) (k : kernel) : option (kernel * Z) :=
  '(k, need_schedule) ← rt_sem_release_section o k;
  k ← schedule_if need_schedule k;
  Some (k, RT_EOK).

Definition rt_sem_control (o : oid) (cmd value : Z) (k : kernel) : option (kernel * Z) :=
  sem ← get_sem o k;
  if cmd =? RT_IPC_CMD_RESET then
    k ← rt_ipc_list_resume_all (LSuspend o) k;
    k ← on_s rt_schedule (put_obj o (ISem (Sem (sem_flag sem) (u16 value))) k);
    Some (k, RT_EOK)
  else Some (k, - RT_ERROR).

(** ** Properties *)

(** Waiting and available tokens exclude each other. *)
Definition sem_ok (o : oid) (k : kernel) : Prop :=
  exists sem l, k_o k !! o = Some (ISem sem) /\ lists (k_s k) !! LSuspend o = Some l /\
    is_u16 (sem_value sem) /\ ipc_flag_ok (sem_flag sem) /\ (0 < sem_value sem -> l = []).

Lemma get_sem_eq o k sem : k_o k !! o = Some (ISem sem) -> get_sem o k = Some sem.
Proof. unfold get_sem. by intros ->. Qed.

(** [rt_sem_take] by the running thread returns on every branch with the
    kernel and the semaphore well formed: with a token available it takes it
    and returns [RT_EOK]; without one and without waiting time it returns
    [-RT_ETIMEOUT] and changes nothing; otherwise the thread is suspended on the
    semaphore's list with its error code cleared, its timer armed for exactly
    the waiting time when that is positive. *)
Theorem rt_sem_take_cases (k : kernel) (o : oid) (c : tid) (th : rt_thread) (time : Z)
    (sem : rt_semaphore) (l : list tid) :
  kernel_wf k -> sem_ok o k -> current (k_s k) = Some c -> threads (k_s k) !! c = Some th -> is_ready th ->
  k_o k !! o = Some (ISem sem) -> lists (k_s k) !! LSuspend o = Some l -> time <= max_delay ->
  exists k' b, rt_sem_take_enter o time k = Some (k', b) /\ kernel_wf k' /\ sem_ok o k' /\
    (0 < sem_value sem -> b = Ret RT_EOK /\
       k' = put_obj o (ISem (Sem (sem_flag sem) (sem_value sem - 1))) k) /\
    (sem_value sem = 0 -> time = 0 -> b = Ret (- RT_ETIMEOUT) /\ k' = k) /\
    (sem_value sem = 0 -> time <> 0 -> b = Blocked /\ k_o k' = k_o k /\ current (k_s k') = Some c /\
       threads (k_s k') !! c = Some (make_suspended (th_set_error RT_EOK th)) /\
       (exists l1 l2, l = l1 ++ l2 /\ lists (k_s k') !! LSuspend o = Some (l1 ++ c :: l2) /\
          insert_position (sem_flag sem) (k_s k) c l1 l2) /\
       (0 < time -> TThread c ∈ timer_list (k_t k') /\ timer_left (k_t k') (TThread c) = time)).
Proof.
  intros Hk (sem0 & l0 & Hs0 & Hl0 & Hv & Hfl & Hex) Hc Ht Hrd Hs Hl Htime.
  rewrite Hs in Hs0. injection Hs0 as <-. rewrite Hl in Hl0. injection Hl0 as <-.
  unfold rt_sem_take_enter. rewrite (get_sem_eq _ _ _ Hs). simpl.
  destruct (Z.ltb_spec 0 (sem_value sem)) as [Hpos|Hz].
  - rewrite u16_small by (unfold is_u16 in *; lia). eexists _, _. splits; try done; try lia.
    + by eapply kernel_same_obj.
    + exists (Sem (sem_flag sem) (sem_value sem - 1)), l. simpl. rewrite lookup_insert_eq.
      splits; try done. unfold is_u16 in *. simpl. lia. auto.
  - assert (sem_value sem = 0) as Hv0 by (unfold is_u16 in Hv; lia).
    destruct (Z.eqb_spec time 0) as [->|Hne].
    + exists k, (Ret (- RT_ETIMEOUT)). splits; try done; try lia. exists sem, l. done.
    + unfold rt_thread_self. rewrite Hc. simpl. rewrite (upd_th_eq _ _ _ _ Ht). simpl.
      set (k0 := set_th c (th_set_error RT_EOK th) k).
      assert (kernel_wf k0) as Hk0 by (apply (kernel_put_same _ _ _ _ th); eauto with kernel).
      destruct (suspend_with_timeout_spec k0 c (th_set_error RT_EOK th) (LSuspend o) (sem_flag sem) time) as
        (k1 & k' & -> & Hk' & Hp & Hks & Hko & _ & Htm & _); try done;
        [simpl; by rewrite lookup_insert_eq|].
      simpl. destruct (pk_list _ _ _ _ _ _ Hp) as (l1 & l2 & Hl12 & Hl' & Hpos).
      simpl in Hl12. rewrite Hl in Hl12. injection Hl12 as ->.
      exists k', Blocked. splits; try done; try lia.
      * exists sem, (l1 ++ c :: l2). rewrite Hko, Hks. splits; try done. lia.
      * intros _ _. rewrite Hks. splits; try done.
        -- by rewrite (pk_current _ _ _ _ _ _ Hp).
        -- by rewrite (pk_threads _ _ _ _ _ _ Hp), lookup_insert_eq.
        -- exists l1, l2. splits; try done. unfold insert_position in *.
           assert (forall x, prio_of (k_s k0) x = prio_of (k_s k) x) as Hpo.
           { intros x. unfold prio_of. simpl. destruct (decide (x = c)) as [->|].
             - by rewrite lookup_insert_eq, Ht.
             - by rewrite lookup_insert_ne. }
           destruct Hpos as [Ha Hb]. split; [done|]. intros E. destruct (Hb E) as [Hb1 Hb2]. split.
           ++ eapply Forall_impl; [exact Hb1|]. simpl. intros x. by rewrite !Hpo.
           ++ destruct l2; [done|]. by rewrite <-!Hpo.
Qed.

(** [rt_sem_release] returns [RT_EOK] and keeps kernel and semaphore well
    formed. With waiters, the first one gets the token: it is ready, off the
    list, its [rt_sem_take] will return [RT_EOK] (its error code is unchanged),
    and the value stays. Without, the value is incremented modulo 2^16: at
    65535 the release loses all tokens. *)
Theorem rt_sem_release_cases (k : kernel) (o : oid) (c : tid) (sem : rt_semaphore) (l : list tid) :
  kernel_wf k -> sem_ok o k -> current (k_s k) = Some c ->
  k_o k !! o = Some (ISem sem) -> lists (k_s k) !! LSuspend o = Some l ->
  exists k', rt_sem_release o k = Some (k', RT_EOK) /\ kernel_wf k' /\ sem_ok o k' /\
    match l with
    | t :: l' => k_o k' = k_o k /\ lists (k_s k') !! LSuspend o = Some l' /\
        TThread t ∉ timer_list (k_t k') /\
        exists th th', threads (k_s k) !! t = Some th /\ threads (k_s k') !! t = Some th' /\
          is_ready th' /\ th_error th' = th_error th
    | [] => k' = put_obj o (ISem (Sem (sem_flag sem) (u16 (sem_value sem + 1)))) k
    end.
Proof.
  intros Hk (sem0 & l0 & Hs0 & Hl0 & Hv & Hfl & Hex) Hc Hs Hl.
  rewrite Hs in Hs0. injection Hs0 as <-. rewrite Hl in Hl0. injection Hl0 as <-.
  unfold rt_sem_release, rt_sem_release_section. rewrite (get_sem_eq _ _ _ Hs). simpl. rewrite Hl. simpl.
  destruct l as [|t l]; simpl.
  { eexists. splits; try done; [by eapply kernel_same_obj|].
    exists (Sem (sem_flag sem) (u16 (sem_value sem + 1))), []. simpl. rewrite lookup_insert_eq.
    splits; try done. apply u16_range. }
  destruct (rt_ipc_list_resume_spec ∅ 0 k (LSuspend o) t l Hk I Hl) as
    (k1 & th & -> & Hk1 & Ht & Hst & Hwk & Hl1 & _ & Hobj & Htl & _). simpl.
  replace (∅ ∖ {[TThread t]}) with (∅ : gset timer_ptr) in Hk1 by set_solver.
  destruct (kernel_schedule ∅ 0 k1 c Hk1) as (s' & -> & Hk2 & Hf & _); [by rewrite (wk_current _ _ _ _ Hwk)|].
  simpl. pose proof Hf as (_ & _ & Hls & Hths).
  assert (lists s' !! LSuspend o = Some l) as Hl2 by (by rewrite Hls).
  assert (threads (k_s k1) !! t = Some (make_ready th)) as Ht1 by (by rewrite (wk_threads _ _ _ _ Hwk), lookup_insert_eq).
  exists (set_s s' k1). splits; try done.
  - exists sem, l. simpl. rewrite Hobj. splits; try done. intros Hp. specialize (Hex Hp). discriminate Hex.
  - simpl. rewrite Htl. auto with lists.
  - exists th. destruct (Hths t) as [E|(th1 & Hth1 & _ & E)].
    + exists (make_ready th). simpl. rewrite E. splits; try done. apply make_ready_ready.
    + rewrite Ht1 in Hth1. injection Hth1 as <-. exists (make_ready (make_ready th)). simpl. rewrite E.
      splits; try done. apply make_ready_ready.
Qed.

(** C6: a thread that waits for a semaphore for [n] ticks, 1 <= n below half the
    tick range, and gets no token waits through n-1 clock interrupts and is
    resumed at the n-th: it is ready and running or in its ready queue, off the
    semaphore's list, and its call returns [-RT_ETIMEOUT] (no other timers than
    those of threads being armed). *)
Theorem rt_sem_take_timeout `{!TimerCallbacksOk cb} (k : kernel) (o : oid) (c : tid) (th : rt_thread) (n : Z)
    (sem : rt_semaphore) (fuel : nat) :
  kernel_wf k -> sem_ok o k -> current (k_s k) = Some c -> threads (k_s k) !! c = Some th -> is_ready th ->
  k_o k !! o = Some (ISem sem) -> sem_value sem = 0 -> 1 <= n <= max_delay ->
  only_thread_timers k -> (S (length (timer_list (k_t k))) < fuel)%nat ->
  exists k0 k1, rt_sem_take_enter o n k = Some (k0, Blocked) /\ on_s rt_schedule k0 = Some k1 /\
    (forall j, Z.of_nat j < n ->
       exists k2, ticks fuel j k1 = Some k2 /\ kernel_wf k2 /\ suspended (k_s k2) c) /\
    (exists k2, ticks fuel (Z.to_nat n) k1 = Some k2 /\ kernel_wf k2 /\ runnable c (k_s k2) /\
       rt_sem_take_resume c k2 = Some (- RT_ETIMEOUT) /\
       forall l, lists (k_s k2) !! LSuspend o = Some l -> c ∉ l).
Proof.
  intros Hk Hok Hc Ht Hrd Hs Hv Hn Hot Hfuel. pose proof Hok as (sem0 & l & Hs0 & Hl & _ & Hfl & _).
  rewrite Hs in Hs0. injection Hs0 as <-.
  unfold rt_sem_take_enter. rewrite (get_sem_eq _ _ _ Hs). simpl. rewrite Hv. simpl.
  destruct (Z.eqb_spec n 0); [lia|]. unfold rt_thread_self. rewrite Hc. simpl. rewrite (upd_th_eq _ _ _ _ Ht). simpl.
  set (k' := set_th c (th_set_error RT_EOK th) k).
  assert (kernel_wf k') as Hk' by (apply (kernel_put_same _ _ _ _ th); eauto with kernel).
  destruct (suspend_with_timeout_spec k' c (th_set_error RT_EOK th) (LSuspend o) (sem_flag sem) n) as
    (kp & k0 & -> & Hk0 & Hp & Hks & _ & _ & Htm & Hunt); try done;
    [simpl; by rewrite lookup_insert_eq|lia|].
  simpl. destruct Htm as [Hin Hleft]; [lia|].
  assert (current (k_s k0) = Some c) as Hc0 by (by rewrite Hks, (pk_current _ _ _ _ _ _ Hp)).
  destruct (blocked_ticks fuel k0 c n (timer_list (k_t k))) as (k1 & Hop1 & Hearly & Hlate); try done; [lia| |].
  { intros p Hne Hp'. by apply (Hunt p Hne). }
  exists k0, k1. splits; try done.
  destruct Hlate as (k2 & th' & -> & Hk2 & Ht2 & Hr2 & He2). exists k2. splits; try done.
  - by apply (ready_runnable _ _ th'); [apply Hk2|..].
  - unfold rt_sem_take_resume. rewrite Ht2. simpl. by rewrite He2.
  - intros l2 Hl2 Hin2. destruct (waiting_suspended ∅ 0 k2 (LSuspend o) l2 c Hk2 I Hl2 Hin2) as (th2 & Ht2' & Hst2).
    rewrite Ht2 in Ht2'. injection Ht2' as <-. by rewrite Hr2 in Hst2.
Qed.

(** C16: resetting a semaphore wakes every waiter with [-RT_ERROR]: it is ready
    and in its ready queue or running, its timer is stopped and its [rt_sem_take]
    returns the error; the waiting list is empty and the new value installed, keeping kernel and semaphore well formed. *)
Theorem rt_sem_control_resets (k : kernel) (o : oid) (c : tid) (value : Z) (l : list tid) :
  kernel_wf k -> sem_ok o k -> current (k_s k) = Some c -> lists (k_s k) !! LSuspend o = Some l ->
  exists k', rt_sem_control o RT_IPC_CMD_RESET value k = Some (k', RT_EOK) /\ kernel_wf k' /\ sem_ok o k' /\
    lists (k_s k') !! LSuspend o = Some [] /\
    (exists sem, get_sem o k' = Some sem /\ sem_value sem = u16 value) /\
    forall t, t ∈ l -> runnable t (k_s k') /\ TThread t ∉ timer_list (k_t k') /\ rt_sem_take_resume t k' = Some (- RT_ERROR).
Proof.
  intros Hk (sem & l0 & Hs & Hl0 & Hv & Hfl & Hex) Hc Hl. rewrite Hl in Hl0. injection Hl0 as <-.
  unfold rt_sem_control. rewrite (get_sem_eq _ _ _ Hs). simpl.
  destruct (rt_ipc_list_resume_all_spec ∅ 0 (LSuspend o) l k Hk I Hl) as
    (k1 & -> & Hk1 & Hwa & Hl1 & _ & Hobj & Hcu & _). simpl.
  set (x := ISem (Sem (sem_flag sem) (u16 value))).
  assert (kernel_wf (put_obj o x k1)) as Hk2 by (eapply kernel_same_obj; [done|by rewrite Hobj|done]).
  destruct (kernel_schedule ∅ 0 (put_obj o x k1) c Hk2) as (s' & Hop & Hk3 & Hf & _); [simpl; by rewrite Hcu|].
  rewrite Hop. simpl. pose proof Hf as (_ & _ & Hls & Hths). simpl in Hls, Hths.
  exists (set_s s' (put_obj o x k1)). splits; try done.
  - exists (Sem (sem_flag sem) (u16 value)), []. simpl. rewrite lookup_insert_eq, Hls by done.
    splits; try done. apply u16_range.
  - simpl. by rewrite Hls.
  - exists (Sem (sem_flag sem) (u16 value)). split; [|done]. unfold get_sem. simpl. by rewrite lookup_insert_eq.
  - intros t Ht. destruct (waiting_suspended ∅ 0 k (LSuspend o) l t Hk I Hl Ht) as (th & Hth & _).
    specialize (Hwa t). rewrite decide_True, Hth in Hwa by done. simpl in Hwa.
    assert (exists th', threads s' !! t = Some th' /\ is_ready th' /\ th_error th' = - RT_ERROR) as (th' & E & Hr & He).
    { destruct (Hths t) as [E|(th1 & Hth1 & _ & E)]; [|rewrite Hwa in Hth1; injection Hth1 as <-];
        rewrite E, ?Hwa; eexists; (split; [done|split; [apply make_ready_ready|done]]). }
    assert (runnable t s') as Hrun by (by apply (ready_runnable _ _ th'); [apply (kw_sched _ _ _ Hk3)|..]).
    splits; [done|by apply (runnable_untimed ∅ 0 (set_s s' (put_obj o x k1)))|]. unfold rt_sem_take_resume. simpl. rewrite E. simpl. by rewrite He.
Qed.

(** Initialisation. *)
Lemma rt_sem_init_ok k o value flag :
  kernel_wf k -> ipc_flag_ok (u8 flag) -> default [] (lists (k_s k) !! LSuspend o) = [] ->
  exists k', rt_sem_init o value flag k = (k', RT_EOK) /\ kernel_wf k' /\ sem_ok o k'.
Proof.
  intros Hk Hfl He. eexists. split; [done|]. split.
  - apply kernel_put_obj; [by apply kernel_init_list| |done]. simpl. rewrite lookup_insert_eq. by eexists.
  - exists (Sem (u8 flag) (u16 value)), []. simpl. rewrite !lookup_insert_eq. splits; try done. apply u16_range.
Qed.

(** ** Witnesses *)

Lemma demo_sem_ok : sem_ok 0 demo_k.
Proof.
  exists (Sem 0 0), [6%nat]. splits; try (vm_compute; reflexivity).
  - unfold is_u16. simpl. lia.
  - by left.
  - simpl. lia.
Qed.

Example rt_sem_take_cases_witness :
  exists k', rt_sem_take_enter 0 7 demo_k = Some (k', Blocked) /\ kernel_wf k' /\
    timer_left (k_t k') (TThread 1) = 7.
Proof.
  destruct (rt_sem_take_cases demo_k 0 1 (demo_th 1 20 0 0) 7 (Sem 0 0) [6%nat] demo_k_wf demo_sem_ok) as
    (k' & b & Hop & Hk' & _ & _ & _ & Hb).
  - reflexivity.
  - vm_compute. reflexivity.
  - reflexivity.
  - reflexivity.
  - vm_compute. reflexivity.
  - unfold max_delay. lia.
  - destruct Hb as (-> & _ & _ & _ & _ & Ht); [reflexivity|discriminate|].
    exists k'. split; [exact Hop|]. split; [exact Hk'|]. apply Ht. lia.
Defined.

Example rt_sem_release_cases_witness :
  exists k', rt_sem_release 0 demo_k = Some (k', RT_EOK) /\ kernel_wf k' /\ sem_ok 0 k' /\
    k_o k' = k_o demo_k /\ lists (k_s k') !! LSuspend 0 = Some [] /\
    TThread 6 ∉ timer_list (k_t k') /\
    exists th th', threads (k_s demo_k) !! 6%nat = Some th /\ threads (k_s k') !! 6%nat = Some th' /\
      is_ready th' /\ th_error th' = th_error th.
Proof.
  apply (rt_sem_release_cases demo_k 0 1 (Sem 0 0) [6%nat] demo_k_wf demo_sem_ok).
  - reflexivity.
  - reflexivity.
  - vm_compute. reflexivity.
Defined.

Lemma demo_idle_sem_wf : kernel_wf (demo_idle_obj (ISem (Sem 0 0))).
Proof. kernel_dec. Qed.

Example rt_sem_take_timeout_witness :
  exists k0 k1, rt_sem_take_enter 0 3 (demo_idle_obj (ISem (Sem 0 0))) = Some (k0, Blocked) /\
    on_s rt_schedule k0 = Some k1 /\
    (forall j, Z.of_nat j < 3 ->
       exists k2, ticks 2 j k1 = Some k2 /\ kernel_wf k2 /\ suspended (k_s k2) 0%nat) /\
    (exists k2, ticks 2 (Z.to_nat 3) k1 = Some k2 /\ kernel_wf k2 /\ runnable 0%nat (k_s k2) /\
       rt_sem_take_resume 0 k2 = Some (- RT_ETIMEOUT) /\
       forall l, lists (k_s k2) !! LSuspend 0 = Some l -> 0%nat ∉ l).
Proof.
  apply (rt_sem_take_timeout (demo_idle_obj (ISem (Sem 0 0))) 0 0 demo_idle_th 3 (Sem 0 0) 2 demo_idle_sem_wf).
  - exists (Sem 0 0), []. splits; try (vm_compute; reflexivity); [unfold is_u16; simpl; lia|by left].
  - reflexivity.
  - vm_compute. reflexivity.
  - reflexivity.
  - vm_compute. reflexivity.
  - reflexivity.
  - unfold max_delay. lia.
  - intros p Hp. by apply elem_of_nil in Hp.
  - vm_compute. lia.
Defined.

Example rt_sem_control_resets_witness :
  exists k', rt_sem_control 0 RT_IPC_CMD_RESET 5 demo_k = Some (k', RT_EOK) /\ kernel_wf k' /\ sem_ok 0 k' /\
    lists (k_s k') !! LSuspend 0 = Some [] /\
    (exists sem, get_sem 0 k' = Some sem /\ sem_value sem = u16 5) /\
    forall t, t ∈ [6%nat] -> runnable t (k_s k') /\ TThread t ∉ timer_list (k_t k') /\ rt_sem_take_resume t k' = Some (- RT_ERROR).
Proof.
  apply (rt_sem_control_resets demo_k 0 1 5 [6%nat] demo_k_wf demo_sem_ok).
  - reflexivity.
  - vm_compute. reflexivity.
Defined.
