(* ===== verification/Mutex.v ===== *)
(** * Mutexes (rt-thread/src/ipc.c)

    Ownership, recursion and priority inheritance. *)

From S2P Require Import Prelude RtList Sched SchedFacts Timer Kernel Thread Demo Ipc Sem.

#[local] Arguments rt_thread_control : simpl never.

(** ** Operations *)

Definition get_mutex (o : oid) (k : kernel) : option rt_mutex :=
  match k_o k !! o with Some (IMutex x) => Some x | _ => None end.
Definition put_mutex (o : oid) (x : rt_mutex) (k : kernel) : kernel := put_obj o (IMutex x) k.

Definition rt_mutex_init (o : oid) (flag : Z) (k : kernel) : kernel * Z :=
  (put_mutex o (Mutex (u8 flag) 1 255 0 None) (rt_ipc_object_init o k), RT_EOK).

Definition rt_mutex_create (obj : option oid) (flag : Z) (k : kernel) : kernel * option oid :=
  match obj with
  | None => (k, None)
  | Some o => (put_mutex o (Mutex (u8 flag) 1 255 0 None) (rt_ipc_object_init o k), Some o)
  end.

Definition rt_mutex_detach (o : oid) (k : kernel) : option (kernel * Z) :=
  _ ← get_mutex o k; k ← rt_ipc_list_resume_all (LSuspend o) k; Some (k, RT_EOK).

Definition rt_mutex_delete (o : oid) (k : kernel) : option (kernel * Z) :=
  _ ← get_mutex o k; k ← rt_ipc_list_resume_all (LSuspend o) k;
  Some (free_obj o [LSuspend o] k, RT_EOK).

(** From the label [__again], for a thread [t] that is not the owner. *)
Definition mutex_take_again (o : oid) (t : tid) (time : Z) (k : kernel) : option (kernel * blocking) :=
  mx ← get_mutex o k;
  th ← threads (k_s k) !! t;
  if 0 <? mx_value mx then
    Some (put_mutex o (Mutex (mx_flag mx) (u16 (mx_value mx - 1)) (th_current_priority th)
                         (u8 (mx_hold mx + 1)) (Some t)) k, Ret RT_EOK)
  else if time =? 0 then
    k ← upd_th t (th_set_error (- RT_ETIMEOUT)) k; Some (k, Ret (- RT_ETIMEOUT))
  else
    owner ← mx_owner mx;
    oth ← threads (k_s k) !! owner;
    '(k, _) ← (if th_current_priority th <? th_current_priority oth
               then rt_thread_control owner (ThreadChangePriority (th_current_priority th)) k
               else Some (k, RT_EOK));
    k ← suspend_with_timeout (LSuspend o) t (mx_flag mx) time k;
    Some (k, Blocked).

Definition rt_mutex_take_enter (o : oid) (time : Z) (k : kernel) : option (kernel * blocking) :=
  t ← rt_thread_self k;
  mx ← get_mutex o k;
  k ← upd_th t (th_set_error RT_EOK) k;
  if bool_decide (mx_owner mx = Some t) then
    Some (put_mutex o (Mutex (mx_flag mx) (mx_value mx) (mx_original_priority mx)
                         (u8 (mx_hold mx + 1)) (mx_owner mx)) k, Ret RT_EOK)
  else mutex_take_again o t time k.

(** After [rt_schedule], in thread [t]. *)
Definition rt_mutex_take_resume (o : oid) (t : tid) (time : Z) (k : kernel) : option (kernel * blocking) :=
  th ← threads (k_s k) !! t;
  if negb (th_error th =? RT_EOK) then
    if th_error th =? - RT_EINTR then mutex_take_again o t time k
    else Some (k, Ret (th_error th))
  else Some (k, Ret RT_EOK).

(** The section with interrupts disabled: the kernel, whether to schedule, the
    result. *)
Definition rt_mutex_release_section (o : oid) (k : kernel) : option (kernel * bool * Z) :=
  t ← rt_thread_self k;
  mx ← get_mutex o k;
  if negb (bool_decide (mx_owner mx = Some t)) then
    k ← upd_th t (th_set_error (- RT_ERROR)) k; Some (k, false, - RT_ERROR)
  else
    let hold := u8 (mx_hold mx - 1) in
    let k := put_mutex o (Mutex (mx_flag mx) (mx_value mx) (mx_original_priority mx) hold (mx_owner mx)) k in
    if hold =? 0 then
      th ← threads (k_s k) !! t;
      '(k, _) ← (if negb (mx_original_priority mx =? th_current_priority th)
                 then rt_thread_control t (ThreadChangePriority (mx_original_priority mx)) k
                 else Some (k, RT_EOK));
      l ← lists (k_s k) !! LSuspend o;
      match l with
      | w :: _ =>
          wth ← threads (k_s k) !! w;
          let k := put_mutex o (Mutex (mx_flag mx) (mx_value mx) (th_current_priority wth)
                                  (u8 (hold + 1)) (Some w)) k in
          k ← rt_ipc_list_resume (LSuspend o) k;
          Some (k, true, RT_EOK)
      | [] => Some (put_mutex o (Mutex (mx_flag mx) (u16 (mx_value mx + 1)) 255 hold None) k, false, RT_EOK)
      end
    else Some (k, false, RT_EOK).

Definition rt_mutex_release (o : oid) (k : kernel) : option (kernel * Z) :=
  '(k, need_schedule, r) ← rt_mutex_release_section o k;
  k ← schedule_if need_schedule k;
  Some (k, r).

Definition rt_mutex_control (o : oid) (k : kernel) : option (kernel * Z) :=
  _ ← get_mutex o k; Some (k, - RT_ERROR).

(** ** The mutex invariant *)

Definition mutex_ok (o : oid) (k : kernel) : Prop :=
  exists mx l, k_o k !! o = Some (IMutex mx) /\ lists (k_s k) !! LSuspend o = Some l /\
    ipc_flag_ok (mx_flag mx) /\
    match mx_owner mx with
    | None => mx_value mx = 1 /\ mx_hold mx = 0 /\ mx_original_priority mx = 255 /\ l = []
    | Some w => mx_value mx = 0 /\ 1 <= mx_hold mx <= 255 /\ 0 <= mx_original_priority mx < 32 /\
        w ∉ l /\ exists th, threads (k_s k) !! w = Some th /\
          stat_of th <> RT_THREAD_INIT /\ stat_of th <> RT_THREAD_CLOSE
    end.

Lemma get_mutex_eq o k mx : k_o k !! o = Some (IMutex mx) -> get_mutex o k = Some mx.
Proof. unfold get_mutex. by intros ->. Qed.

Lemma kernel_put_mutex X lo k o mx mx' :
  kernel_but X lo k -> k_o k !! o = Some (IMutex mx) -> kernel_but X lo (put_mutex o mx' k).
Proof. intros Hk Hx. by eapply kernel_same_obj. Qed.

Lemma prio_ok_range k t th :
  kernel_wf k -> threads (k_s k) !! t = Some th -> stat_of th <> RT_THREAD_INIT ->
  stat_of th <> RT_THREAD_CLOSE -> 0 <= th_current_priority th < 32.
Proof. intros Hk Ht H1 H2. by destruct (c_prio _ _ (wf_core _ (kw_sched _ _ _ Hk)) t th Ht H1 H2). Qed.

(** ** Properties *)

(** Taking a free mutex makes the running thread its owner, with hold count 1
    and its own priority remembered, and returns [RT_EOK]; taking a mutex it
    owns (hold count below 255) only increments the hold count. Both keep the
    kernel and the mutex well formed. *)
Theorem rt_mutex_take_owned (k : kernel) (o : oid) (c : tid) (th : rt_thread) (time : Z) (mx : rt_mutex) :
  kernel_wf k -> mutex_ok o k -> current (k_s k) = Some c -> threads (k_s k) !! c = Some th -> is_ready th ->
  k_o k !! o = Some (IMutex mx) ->
  mx_owner mx = None \/ mx_owner mx = Some c /\ mx_hold mx < 255 ->
  exists k', rt_mutex_take_enter o time k = Some (k', Ret RT_EOK) /\ kernel_wf k' /\ mutex_ok o k' /\
    exists mx', get_mutex o k' = Some mx' /\ mx_owner mx' = Some c /\ mx_hold mx' = mx_hold mx + 1 /\
      mx_value mx' = 0 /\
      mx_original_priority mx' =
        (if bool_decide (mx_owner mx = None) then th_current_priority th else mx_original_priority mx).
Proof.
  intros Hk (mx0 & l & Hm0 & Hl & Hfl & Hok) Hc Ht Hrd Hm Hcase.
  rewrite Hm in Hm0. injection Hm0 as <-.
  unfold rt_mutex_take_enter, rt_thread_self. rewrite Hc. simpl. rewrite (get_mutex_eq _ _ _ Hm). simpl.
  rewrite (upd_th_eq _ _ _ _ Ht). simpl. set (k0 := set_th c (th_set_error RT_EOK th) k).
  assert (kernel_wf k0) as Hk0 by (apply (kernel_put_same _ _ _ _ th); eauto with kernel).
  assert (prio_ok th) as [Hpr _] by (apply (c_prio _ _ (wf_core _ (kw_sched _ _ _ Hk)) c); [done|by rewrite Hrd..]).
  assert (threads (k_s k0) !! c = Some (th_set_error RT_EOK th)) as Ht0 by (simpl; by rewrite lookup_insert_eq).
  assert (forall mx', mx_flag mx' = mx_flag mx -> mx_owner mx' = Some c -> mx_value mx' = 0 ->
    1 <= mx_hold mx' <= 255 -> 0 <= mx_original_priority mx' < 32 -> c ∉ l ->
    kernel_wf (put_mutex o mx' k0) /\ mutex_ok o (put_mutex o mx' k0) /\ get_mutex o (put_mutex o mx' k0) = Some mx') as Hgen.
  { intros mx' Ef Eo Ev Eh Ep Hcl. split; [by eapply kernel_put_mutex|]. split.
    - exists mx', l. unfold put_mutex. simpl. rewrite !lookup_insert_eq, Ef, Eo. splits; try done; try lia.
      exists (th_set_error RT_EOK th). rewrite lookup_insert_eq. splits; try done.
      + change (stat_of th <> RT_THREAD_INIT). by rewrite Hrd.
      + change (stat_of th <> RT_THREAD_CLOSE). by rewrite Hrd.
    - unfold get_mutex, put_mutex. simpl. by rewrite lookup_insert_eq. }
  destruct Hcase as [Ho|[Ho Hh]].
  - rewrite Ho in Hok. destruct Hok as (Hv & Hh & Hp & ->). rewrite Ho.
    rewrite bool_decide_false by done. unfold mutex_take_again. rewrite (get_mutex_eq _ _ mx) by done. simpl.
    rewrite lookup_insert_eq. simpl. rewrite Hv, Hh. simpl.
    eexists. split; [done|]. destruct (Hgen (Mutex (mx_flag mx) 0 (th_current_priority th) 1 (Some c))) as (? & ? & ?);
      try done; try (simpl; lia); [by apply not_elem_of_nil|].
    splits; try done. eexists. splits; try done.
  - rewrite Ho in Hok. destruct Hok as (Hv & Hh' & Hp & Hcl & _).
    rewrite Ho, bool_decide_true by done. rewrite u8_small by (unfold is_u8; lia).
    eexists. split; [done|].
    destruct (Hgen (Mutex (mx_flag mx) (mx_value mx) (mx_original_priority mx) (mx_hold mx + 1) (Some c))) as (? & ? & ?);
      try done; try (simpl; lia).
    splits; try done. eexists. splits; try done.
Qed.

Lemma mutex_owner_thread o k mx w :
  mutex_ok o k -> k_o k !! o = Some (IMutex mx) -> mx_owner mx = Some w ->
  exists l th, lists (k_s k) !! LSuspend o = Some l /\ w ∉ l /\ threads (k_s k) !! w = Some th /\
    stat_of th <> RT_THREAD_INIT /\ stat_of th <> RT_THREAD_CLOSE /\
    ipc_flag_ok (mx_flag mx) /\ mx_value mx = 0 /\ 1 <= mx_hold mx <= 255 /\ 0 <= mx_original_priority mx < 32.
Proof.
  intros (mx0 & l & Hm0 & Hl & Hfl & Hok) Hm Ho. rewrite Hm in Hm0. injection Hm0 as <-.
  rewrite Ho in Hok. destruct Hok as (? & ? & ? & ? & th & ? & ? & ?). exists l, th. splits; try done; lia.
Qed.

(** The owner's priority after a thread of priority [p] blocks on the mutex. *)
Lemma inherit_spec X lo k w oth p :
  kernel_but X lo k -> threads (k_s k) !! w = Some oth -> 0 <= p < 32 ->
  exists s' oth', (if p <? th_current_priority oth
       then rt_thread_control w (ThreadChangePriority p) k else Some (k, RT_EOK)) = Some (set_s s' k, RT_EOK) /\
    kernel_but X lo (set_s s' k) /\ threads s' = <[w := oth']> (threads (k_s k)) /\
    reprioritised (Z.min (th_current_priority oth) p) oth oth' /\
    (forall h, (forall p, h <> LReady p) -> lists s' !! h = lists (k_s k) !! h) /\
    current s' = current (k_s k) /\ lock_nest s' = lock_nest (k_s k).
Proof.
  intros Hk Hw Hp. destruct (Z.ltb_spec p (th_current_priority oth)) as [Hlt|Hge].
  - destruct (change_priority_spec X lo k w oth p Hk Hw Hp) as (s' & oth' & -> & Hk' & Hths & Hrep & Hls & Hcu & Hlk & _).
    exists s', oth'. rewrite Z.min_r by lia. done.
  - exists (k_s k), oth. rewrite Z.min_l by lia. unfold reprioritised. rewrite insert_id by done.
    destruct k. splits; try done.
Qed.

(** C4: taking a mutex another thread owns: without waiting time the call
    returns [-RT_ETIMEOUT] and the mutex is unchanged; otherwise the running
    thread waits on the mutex, the owner's priority becomes the better of its
    own and the waiter's (priority inheritance), and no third thread changes.
    Kernel and mutex stay well formed. *)
Theorem rt_mutex_take_contended (k : kernel) (o : oid) (c w : tid) (th wth : rt_thread) (time : Z)
    (mx : rt_mutex) (l : list tid) :
  kernel_wf k -> mutex_ok o k -> current (k_s k) = Some c -> threads (k_s k) !! c = Some th -> is_ready th ->
  k_o k !! o = Some (IMutex mx) -> mx_owner mx = Some w -> w <> c ->
  threads (k_s k) !! w = Some wth -> lists (k_s k) !! LSuspend o = Some l -> time <= max_delay ->
  exists k' b, rt_mutex_take_enter o time k = Some (k', b) /\ kernel_wf k' /\ mutex_ok o k' /\
    get_mutex o k' = Some mx /\
    (time = 0 -> b = Ret (- RT_ETIMEOUT)) /\
    (time <> 0 -> b = Blocked /\ suspended (k_s k') c /\
       (exists l1 l2, l = l1 ++ l2 /\ lists (k_s k') !! LSuspend o = Some (l1 ++ c :: l2)) /\
       (exists wth', threads (k_s k') !! w = Some wth' /\
          th_current_priority wth' = Z.min (th_current_priority wth) (th_current_priority th)) /\
       (forall t, t <> c -> t <> w -> threads (k_s k') !! t = threads (k_s k) !! t) /\
       (0 < time -> TThread c ∈ timer_list (k_t k') /\ timer_left (k_t k') (TThread c) = time)).
Proof.
  intros Hk Hmok Hc Ht Hrd Hm Ho Hwc Hw Hl Htime.
  destruct (mutex_owner_thread o k mx w Hmok Hm Ho) as (l0 & wth0 & Hl0 & Hwl & Hw0 & Hst1 & Hst2 & Hfl & Hv & Hh & Hp).
  rewrite Hl in Hl0. injection Hl0 as <-. rewrite Hw in Hw0. injection Hw0 as <-.
  unfold rt_mutex_take_enter, rt_thread_self. rewrite Hc. simpl. rewrite (get_mutex_eq _ _ _ Hm). simpl.
  rewrite (upd_th_eq _ _ _ _ Ht). simpl. rewrite bool_decide_false by congruence.
  set (th0 := th_set_error RT_EOK th). set (k0 := set_th c th0 k).
  assert (kernel_wf k0) as Hk0 by (apply (kernel_put_same _ _ _ _ th); unfold th0; eauto with kernel).
  assert (threads (k_s k0) !! c = Some th0) as Ht0 by (simpl; by rewrite lookup_insert_eq).
  assert (threads (k_s k0) !! w = Some wth) as Hw1 by (simpl; by rewrite lookup_insert_ne).
  assert (prio_ok th) as [Hpr _] by (apply (c_prio _ _ (wf_core _ (kw_sched _ _ _ Hk)) c); [done|by rewrite Hrd..]).
  unfold mutex_take_again. rewrite (get_mutex_eq _ _ mx) by done. cbn [mbind option_bind]. rewrite Ht0. cbn [mbind option_bind].
  rewrite Hv. cbn [Z.ltb Z.compare]. destruct (Z.eqb_spec time 0) as [->|Hne].
  - rewrite (upd_th_eq _ _ _ _ Ht0). simpl. eexists _, _. splits; try done.
    + apply (kernel_put_same _ _ _ _ th0); eauto with kernel.
    + exists mx, l. simpl. splits; try done. rewrite Ho. splits; try done; try lia.
      exists wth. rewrite !lookup_insert_ne by done. done.
    + unfold get_mutex. simpl. by rewrite Hm.
  - rewrite Ho. cbn [mbind option_bind]. rewrite Hw1. cbn [mbind option_bind].
    change (th_current_priority th0) with (th_current_priority th).
    destruct (inherit_spec ∅ 0 k0 w wth (th_current_priority th) Hk0 Hw1 Hpr) as
      (s1 & wth' & Hop1 & Hk1 & Hths1 & (Hrst & Hrp & _) & Hls1 & Hcu1 & _). rewrite Hop1. cbn [mbind option_bind].
    assert (lists s1 !! LSuspend o = Some l) as Hl1 by (rewrite Hls1 by done; exact Hl).
    destruct (suspend_with_timeout_spec (set_s s1 k0) c th0 (LSuspend o) (mx_flag mx) time) as
      (kp & k' & -> & Hk' & Hpk & Hks & Hko & _ & Htm & _); try done.
    { simpl. by rewrite Hths1, lookup_insert_ne. }
    simpl. destruct (pk_list _ _ _ _ _ _ Hpk) as (l1 & l2 & Hl12 & Hl' & Hpos).
    simpl in Hl12. rewrite Hl1 in Hl12. injection Hl12 as ->.
    assert (threads (k_s k') = <[c := make_suspended th0]> (<[w := wth']> (<[c := th0]> (threads (k_s k))))) as Hths'.
    { rewrite Hks, (pk_threads _ _ _ _ _ _ Hpk). simpl. by rewrite Hths1. }
    exists k', Blocked. splits; try done.
    + exists mx, (l1 ++ c :: l2). rewrite Hko, Hks. splits; try done. rewrite Ho. splits; try done; try lia.
      * rewrite elem_of_app, elem_of_cons in *. naive_solver.
      * exists wth'. rewrite <-Hks, Hths', lookup_insert_ne, lookup_insert_eq by done. splits; try done; by rewrite Hrst.
    + unfold get_mutex. rewrite Hko. simpl. by rewrite Hm.
    + intros _. splits; try done.
      * exists (make_suspended th0). rewrite Hths', lookup_insert_eq, make_suspended_stat. done.
      * exists l1, l2. by rewrite Hks.
      * exists wth'. by rewrite Hths', lookup_insert_ne, lookup_insert_eq.
      * intros t Htc Htw. by rewrite Hths', !lookup_insert_ne.
Qed.

Lemma restore_spec X lo k c th p :
  kernel_but X lo k -> threads (k_s k) !! c = Some th -> 0 <= p < 32 ->
  exists s' th', (if negb (p =? th_current_priority th)
       then rt_thread_control c (ThreadChangePriority p) k else Some (k, RT_EOK)) = Some (set_s s' k, RT_EOK) /\
    kernel_but X lo (set_s s' k) /\ threads s' = <[c := th']> (threads (k_s k)) /\
    reprioritised p th th' /\
    (forall h, (forall p, h <> LReady p) -> lists s' !! h = lists (k_s k) !! h) /\
    current s' = current (k_s k) /\ lock_nest s' = lock_nest (k_s k).
Proof.
  intros Hk Hc Hp. destruct (Z.eqb_spec p (th_current_priority th)) as [->|Hne]; cbn [negb].
  - exists (k_s k), th. unfold reprioritised. rewrite insert_id by done. destruct k. splits; try done.
  - destruct (change_priority_spec X lo k c th p Hk Hc Hp) as (s' & th' & -> & Hk' & Hths & Hrep & Hls & Hcu & Hlk & _).
    exists s', th'. splits; try done.
Qed.

(** [rt_mutex_release] by a thread that is not the owner returns [-RT_ERROR]
    and leaves the mutex alone; by the owner of a recursively taken mutex it
    only decrements the hold count. *)
Theorem rt_mutex_release_inner (k : kernel) (o : oid) (c : tid) (th : rt_thread) (mx : rt_mutex) :
  kernel_wf k -> mutex_ok o k -> current (k_s k) = Some c -> threads (k_s k) !! c = Some th ->
  k_o k !! o = Some (IMutex mx) -> mx_owner mx <> Some c \/ 1 < mx_hold mx ->
  exists k' r mx', rt_mutex_release o k = Some (k', r) /\ kernel_wf k' /\ mutex_ok o k' /\
    get_mutex o k' = Some mx' /\ mx_owner mx' = mx_owner mx /\ mx_value mx' = mx_value mx /\
    if bool_decide (mx_owner mx = Some c) then r = RT_EOK /\ mx_hold mx' = mx_hold mx - 1
    else r = - RT_ERROR /\ mx' = mx.
Proof.
  intros Hk Hmok Hc Ht Hm Hcase. pose proof Hmok as (mx0 & l & Hm0 & Hl & Hfl & Hok).
  rewrite Hm in Hm0. injection Hm0 as <-.
  unfold rt_mutex_release, rt_mutex_release_section, rt_thread_self. rewrite Hc. simpl.
  rewrite (get_mutex_eq _ _ _ Hm). simpl.
  case_bool_decide as Ho; simpl.
  - destruct Hcase as [|Hh]; [done|].
    destruct (mutex_owner_thread o k mx c Hmok Hm Ho) as (_ & _ & _ & _ & _ & _ & _ & _ & Hv & Hr & Hp).
    rewrite u8_small by (unfold is_u8; lia). destruct (Z.eqb_spec (mx_hold mx - 1) 0); [lia|]. simpl.
    eexists _, _, (Mutex (mx_flag mx) (mx_value mx) (mx_original_priority mx) (mx_hold mx - 1) (mx_owner mx)).
    splits; try done.
    + by eapply kernel_put_mutex.
    + eexists _, l. unfold put_mutex. simpl. rewrite lookup_insert_eq. splits; try done. simpl.
      rewrite Ho in Hok |- *. destruct Hok as (? & ? & ? & ? & ?). splits; try done; try lia.
    + unfold get_mutex, put_mutex. simpl. by rewrite lookup_insert_eq.
  - rewrite (upd_th_eq _ _ _ _ Ht). simpl. eexists _, _, mx. splits; try done.
    + apply (kernel_put_same _ _ _ _ th); eauto with kernel.
    + exists mx, l. simpl. splits; try done. destruct (mx_owner mx) as [w|]; [|done].
      destruct Hok as (? & ? & ? & ? & wth & Hw & ? & ?). splits; try done; try lia.
      destruct (decide (w = c)) as [->|Hne]; [done|]. exists wth. by rewrite lookup_insert_ne.
    + unfold get_mutex. simpl. by rewrite Hm.
Qed.

(** Passing the mutex to the first waiter [w] and scheduling: [w] owns it and is
    ready, and no other thread's priority changes. *)
Lemma handover_spec (k : kernel) (o : oid) (c w : tid) (wth : rt_thread) (mx mx' : rt_mutex) (l : list tid) :
  kernel_wf k -> current (k_s k) = Some c -> k_o k !! o = Some (IMutex mx) -> ipc_flag_ok (mx_flag mx) ->
  mx_value mx = 0 -> lists (k_s k) !! LSuspend o = Some (w :: l) -> threads (k_s k) !! w = Some wth ->
  mx' = Mutex (mx_flag mx) (mx_value mx) (th_current_priority wth) 1 (Some w) ->
  exists k1 k', rt_ipc_list_resume (LSuspend o) (put_mutex o mx' k) = Some k1 /\ on_s rt_schedule k1 = Some k' /\
    kernel_wf k' /\ mutex_ok o k' /\ get_mutex o k' = Some mx' /\
    lists (k_s k') !! LSuspend o = Some l /\ TThread w ∉ timer_list (k_t k') /\
    (exists wth', threads (k_s k') !! w = Some wth' /\ is_ready wth' /\ th_error wth' = th_error wth) /\
    forall t th, t <> w -> threads (k_s k) !! t = Some th ->
      exists th', threads (k_s k') !! t = Some th' /\ th_current_priority th' = th_current_priority th.
Proof.
  intros Hk Hc Hm Hfl Hv Hl Hw Emx.
  destruct (waiting_suspended ∅ 0 k (LSuspend o) (w :: l) w Hk I Hl) as (wth0 & Hw0 & Hwst); [by left|].
  rewrite Hw in Hw0. injection Hw0 as <-.
  destruct (rt_ipc_list_resume_spec ∅ 0 (put_mutex o mx' k) (LSuspend o) w l) as
    (k2 & wth2 & Hop2 & Hk2 & Hw2 & _ & Hwk & Hl2 & _ & Hobj2 & Htl2 & _); [by eapply kernel_put_mutex|done|done|].
  simpl in Hw2. rewrite Hw in Hw2. injection Hw2 as <-.
  replace (∅ ∖ {[TThread w]}) with (∅ : gset timer_ptr) in Hk2 by set_solver.
  destruct (kernel_schedule ∅ 0 k2 c Hk2) as (s3 & Hop3 & Hk3 & (_ & _ & Hls3 & Hths3) & _).
  { by rewrite (wk_current _ _ _ _ Hwk). }
  pose proof (wk_threads _ _ _ _ Hwk) as Hths2. simpl in Hths2.
  assert (k_o k2 !! o = Some (IMutex mx')) as Hmo by (rewrite Hobj2; simpl; by rewrite lookup_insert_eq).
  assert (exists wth', threads s3 !! w = Some wth' /\ is_ready wth' /\ th_error wth' = th_error wth) as (wth' & Hw' & Hr' & He').
  { destruct (Hths3 w) as [E|(x & Hx & _ & E)].
    - exists (make_ready wth). rewrite E, Hths2, lookup_insert_eq. splits; [done|apply make_ready_ready|done].
    - rewrite Hths2, lookup_insert_eq in Hx. injection Hx as <-. exists (make_ready (make_ready wth)).
      splits; [done|apply make_ready_ready|done]. }
  exists k2, (set_s s3 k2). splits; try done.
  - exists mx', l. simpl. rewrite Emx. simpl. rewrite Hls3, <-Emx by done. splits; try done.
    1, 2: apply (prio_ok_range k w wth Hk Hw); rewrite Hwst; discriminate.
    + destruct (c_ok _ _ (wf_core _ (kw_sched _ _ _ Hk))) as [Hnd _]. specialize (Hnd _ _ Hl).
      by apply NoDup_cons in Hnd as [? _].
    + exists wth'. splits; try done; by rewrite Hr'.
  - unfold get_mutex. simpl. by rewrite Hmo.
  - simpl. by rewrite Hls3.
  - simpl. rewrite Htl2. auto with lists.
  - eauto.
  - intros t th Hne Ht. rewrite <-(lookup_insert_ne _ w t (make_ready wth)), <-Hths2 in Ht by done. simpl.
    destruct (Hths3 t) as [E|(x & Hx & _ & E)]; rewrite E; [eauto|].
    rewrite Ht in Hx. injection Hx as <-. eexists. split; [done|]. done.
Qed.

(** C3: the owner's last release restores its remembered priority; with waiters,
    the mutex passes to the first of them: it becomes the owner with hold count
    1 and its own priority remembered, it is ready, and the mutex stays taken
    (value 0); without, the mutex is free. Kernel and mutex stay well formed. *)
Theorem rt_mutex_release_outer (k : kernel) (o : oid) (c : tid) (th : rt_thread) (mx : rt_mutex) (l : list tid) :
  kernel_wf k -> mutex_ok o k -> current (k_s k) = Some c -> threads (k_s k) !! c = Some th ->
  k_o k !! o = Some (IMutex mx) -> mx_owner mx = Some c -> mx_hold mx = 1 ->
  lists (k_s k) !! LSuspend o = Some l ->
  exists k' mx', rt_mutex_release o k = Some (k', RT_EOK) /\ kernel_wf k' /\ mutex_ok o k' /\
    get_mutex o k' = Some mx' /\
    (exists th', threads (k_s k') !! c = Some th' /\ th_current_priority th' = mx_original_priority mx) /\
    match l with
    | w :: l' => mx_owner mx' = Some w /\ mx_hold mx' = 1 /\ mx_value mx' = 0 /\
        lists (k_s k') !! LSuspend o = Some l' /\ TThread w ∉ timer_list (k_t k') /\
        exists wth wth', threads (k_s k) !! w = Some wth /\ threads (k_s k') !! w = Some wth' /\
          is_ready wth' /\ th_error wth' = th_error wth /\ mx_original_priority mx' = th_current_priority wth
    | [] => mx_owner mx' = None /\ mx_hold mx' = 0 /\ mx_value mx' = 1
    end.
Proof.
  intros Hk Hmok Hc Ht Hm Ho Hh Hl.
  destruct (mutex_owner_thread o k mx c Hmok Hm Ho) as (l0 & th0 & Hl0 & Hcl & Ht0 & _ & _ & Hfl & Hv & _ & Hp).
  rewrite Hl in Hl0. injection Hl0 as <-.
  unfold rt_mutex_release, rt_mutex_release_section, rt_thread_self. rewrite Hc. simpl.
  rewrite (get_mutex_eq _ _ _ Hm). simpl. rewrite bool_decide_true by done. simpl. rewrite Hh. simpl. rewrite Ht. simpl.
  set (mx0 := Mutex (mx_flag mx) (mx_value mx) _ _ _). set (k0 := put_mutex o mx0 k).
  assert (kernel_wf k0) as Hk0 by (by eapply kernel_put_mutex).
  destruct (restore_spec ∅ 0 k0 c th (mx_original_priority mx) Hk0 Ht Hp) as
    (s1 & th1 & -> & Hk1 & Hths1 & (_ & Hpr1 & _) & Hls1 & Hcu1 & _). simpl.
  rewrite Hls1 by done. change (lists (k_s k0)) with (lists (k_s k)). rewrite Hl. simpl.
  assert (threads s1 !! c = Some th1) as Hc1 by (by rewrite Hths1, lookup_insert_eq).
  assert (k_o (set_s s1 k0) !! o = Some (IMutex mx0)) as Hm0 by (simpl; by rewrite lookup_insert_eq).
  destruct l as [|w l]; simpl.
  - eexists _, (Mutex (mx_flag mx) (u16 (mx_value mx + 1)) 255 0 None).
    splits; try done; [by eapply kernel_put_mutex| | |by exists th1|simpl; by rewrite Hv].
    + eexists _, []. unfold put_mutex. simpl. rewrite lookup_insert_eq, Hls1 by done. splits; try done. simpl. by rewrite Hv.
    + unfold get_mutex, put_mutex. simpl. by rewrite lookup_insert_eq.
  - apply not_elem_of_cons in Hcl as [Hcw _].
    destruct (waiting_suspended ∅ 0 k (LSuspend o) (w :: l) w Hk I Hl) as (wth & Hw & _); [by left|].
    assert (threads s1 !! w = Some wth) as Hw1 by (by rewrite Hths1, lookup_insert_ne). rewrite Hw1. simpl.
    set (mx1 := Mutex (mx_flag mx) (mx_value mx) (th_current_priority wth) 1 (Some w)).
    change (put_mutex o _ (set_s s1 k0)) with (put_mutex o mx1 (set_s s1 k0)).
    destruct (handover_spec (set_s s1 k0) o c w wth mx0 mx1 l Hk1) as
      (k2 & k' & Hop2 & Hop3 & Hk' & Hmok' & Hm' & Hl' & Htl & (wth' & Hw' & Hr' & He') & Hoth); try done.
    { simpl. by rewrite Hcu1. } { simpl. by rewrite Hls1. }
    rewrite Hop2. simpl. rewrite Hop3. simpl. exists k', mx1. splits; try done.
    + destruct (Hoth c th1) as (th' & ? & E); [done..|]. exists th'. by rewrite E.
    + exists wth, wth'. by splits.
Qed.

(** The 8-bit hold count is not guarded: after 255 nested takes two more
    succeed and wrap it to 1, and then a single release frees the mutex although
    256 takes of its owner are outstanding. *)
Theorem rt_mutex_hold_wraps (k : kernel) (o : oid) (c : tid) (th : rt_thread) (mx : rt_mutex) (time : Z) :
  kernel_wf k -> mutex_ok o k -> current (k_s k) = Some c -> threads (k_s k) !! c = Some th -> is_ready th ->
  k_o k !! o = Some (IMutex mx) -> mx_owner mx = Some c -> mx_hold mx = 255 ->
  lists (k_s k) !! LSuspend o = Some [] ->
  exists k1 k2 k3 mx3, rt_mutex_take_enter o time k = Some (k1, Ret RT_EOK) /\
    rt_mutex_take_enter o time k1 = Some (k2, Ret RT_EOK) /\
    rt_mutex_release o k2 = Some (k3, RT_EOK) /\ get_mutex o k3 = Some mx3 /\ mx_owner mx3 = None.
Proof.
  intros Hk Hmok Hc Ht Hrd Hm Ho Hh Hl.
  destruct (mutex_owner_thread o k mx c Hmok Hm Ho) as (_ & _ & _ & _ & _ & _ & _ & _ & Hv & _ & Hp).
  set (th0 := th_set_error RT_EOK th). set (k0 := set_th c th0 k).
  assert (kernel_wf k0) as Hk0 by (apply (kernel_put_same _ _ _ _ th); unfold th0; eauto with kernel).
  set (x n := Mutex (mx_flag mx) (mx_value mx) (mx_original_priority mx) n (Some c)).
  assert (forall n k' th', current (k_s k') = Some c -> threads (k_s k') !! c = Some th' ->
    get_mutex o k' = Some (x n) ->
    rt_mutex_take_enter o time k' = Some (put_mutex o (x (u8 (n + 1))) (set_th c (th_set_error RT_EOK th') k'), Ret RT_EOK)) as Htake.
  { intros n k' th' Hc' Ht' Hm'. unfold rt_mutex_take_enter, rt_thread_self. rewrite Hc'. simpl. rewrite Hm'. simpl.
    rewrite (upd_th_eq _ _ _ _ Ht'). simpl. by rewrite bool_decide_true. }
  assert (mx = x 255) as Hmx by (unfold x; destruct mx; simpl in *; congruence).
  set (k1 := put_mutex o (x 0) k0).
  assert (rt_mutex_take_enter o time k = Some (k1, Ret RT_EOK)) as E1.
  { rewrite (Htake 255 k th); try done. unfold get_mutex. by rewrite Hm, <-Hmx. }
  set (k2 := put_mutex o (x 1) (set_th c (th_set_error RT_EOK th0) k1)).
  assert (rt_mutex_take_enter o time k1 = Some (k2, Ret RT_EOK)) as E2.
  { rewrite (Htake 0 k1 th0); try done.
    - unfold k1, k0, put_mutex. simpl. by rewrite lookup_insert_eq.
    - unfold get_mutex, k1, put_mutex. simpl. by rewrite lookup_insert_eq. }
  assert (threads (k_s k2) !! c = Some (th_set_error RT_EOK th0)) as Ht2 by (simpl; by rewrite lookup_insert_eq).
  assert (kernel_wf k2) as Hk2.
  { assert (kernel_wf k1) as Hk1 by (by eapply kernel_put_mutex).
    eapply (kernel_put_mutex _ _ _ _ (x 0)); [|unfold k1, put_mutex; simpl; by rewrite lookup_insert_eq].
    apply (kernel_put_same _ _ _ _ th0); [done|simpl; by rewrite lookup_insert_eq|eauto with kernel]. }
  set (k3 := put_mutex o (x 0) k2).
  assert (kernel_wf k3) as Hk3.
  { eapply (kernel_put_mutex _ _ _ _ (x 1)); [done|]. unfold k2, put_mutex. simpl. by rewrite lookup_insert_eq. }
  destruct (restore_spec ∅ 0 k3 c _ (mx_original_priority mx) Hk3 Ht2 Hp) as
    (s4 & th4 & Hop & Hk4 & _ & _ & Hls & _).
  assert (lists s4 !! LSuspend o = Some []) as Hl4 by (rewrite Hls by done; exact Hl).
  exists k1, k2. eexists _, (Mutex (mx_flag mx) (u16 (mx_value mx + 1)) 255 0 None). splits; try done.
  - unfold rt_mutex_release, rt_mutex_release_section, rt_thread_self.
    assert (current (k_s k2) = Some c) as -> by done. cbn [mbind option_bind].
    assert (get_mutex o k2 = Some (x 1)) as -> by (unfold get_mutex, k2, put_mutex; simpl; by rewrite lookup_insert_eq).
    cbn [mbind option_bind]. rewrite bool_decide_true by done. cbn [negb].
    change (u8 (mx_hold (x 1) - 1)) with 0. cbn [Z.eqb]. fold (x 0).
    change (put_mutex o _ k2) with k3. change (threads (k_s k3)) with (threads (k_s k2)). rewrite Ht2.
    change (mx_original_priority (x 1)) with (mx_original_priority mx).
    cbn [mbind option_bind]. rewrite Hop. cbn [mbind option_bind]. simpl. rewrite Hl4. simpl. done.
  - unfold get_mutex, put_mutex. simpl. by rewrite lookup_insert_eq.
Qed.

(** ** Witnesses *)

Lemma demo_mutex_ok : mutex_ok 1 demo_k.
Proof.
  exists (Mutex 1 0 20 1 (Some 1%nat)), [8%nat]. splits; try (vm_compute; reflexivity); [by right|].
  simpl. splits; try done. { set_solver. }
  exists (demo_th 1 20 0 0). splits; [vm_compute; reflexivity|discriminate|discriminate].
Qed.

Example rt_mutex_take_owned_witness :
  exists k', rt_mutex_take_enter 1 0 demo_k = Some (k', Ret RT_EOK) /\ kernel_wf k' /\ mutex_ok 1 k' /\
    exists mx', get_mutex 1 k' = Some mx' /\ mx_owner mx' = Some 1%nat /\ mx_hold mx' = 2 /\
      mx_value mx' = 0 /\ mx_original_priority mx' = 20.
Proof.
  apply (rt_mutex_take_owned demo_k 1 1 (demo_th 1 20 0 0) 0 (Mutex 1 0 20 1 (Some 1%nat)) demo_k_wf demo_mutex_ok).
  - reflexivity.
  - vm_compute. reflexivity.
  - reflexivity.
  - reflexivity.
  - right. split; reflexivity.
Defined.

(** The demo system with thread 2 running at priority 5 instead of 1. *)
Definition demo_contender : kernel :=
  set_s (Sched (<[2%nat := demo_th 1 5 0 0]> demo_threads) (<[LReady 20 := [1%nat; 3%nat]]> demo_lists)
           (ready_group demo_s) (Some 2%nat) 5 0 0) demo_k.

Lemma demo_contender_wf : kernel_wf demo_contender.
Proof. kernel_dec. Qed.

Lemma demo_contender_ok : mutex_ok 1 demo_contender.
Proof.
  exists (Mutex 1 0 20 1 (Some 1%nat)), [8%nat]. splits; try (vm_compute; reflexivity); [by right|].
  simpl. splits; try done. { set_solver. }
  exists (demo_th 1 20 0 0). splits; [vm_compute; reflexivity|discriminate|discriminate].
Qed.

Example rt_mutex_take_contended_witness :
  exists k', rt_mutex_take_enter 1 9 demo_contender = Some (k', Blocked) /\ kernel_wf k' /\
    exists wth', threads (k_s k') !! 1%nat = Some wth' /\ th_current_priority wth' = 5.
Proof.
  destruct (rt_mutex_take_contended demo_contender 1 2 1 (demo_th 1 5 0 0) (demo_th 1 20 0 0) 9
    (Mutex 1 0 20 1 (Some 1%nat)) [8%nat] demo_contender_wf demo_contender_ok) as
    (k' & b & Hop & Hk' & _ & _ & _ & Hb).
  - reflexivity.
  - vm_compute. reflexivity.
  - reflexivity.
  - reflexivity.
  - reflexivity.
  - discriminate.
  - vm_compute. reflexivity.
  - vm_compute. reflexivity.
  - unfold max_delay. lia.
  - destruct Hb as (-> & _ & _ & Hw & _); [discriminate|]. exists k'. split; [exact Hop|]. split; [exact Hk'|exact Hw].
Defined.

Example rt_mutex_release_inner_witness :
  exists k' r mx', rt_mutex_release 1 demo_contender = Some (k', r) /\ kernel_wf k' /\ mutex_ok 1 k' /\
    get_mutex 1 k' = Some mx' /\ mx_owner mx' = Some 1%nat /\ mx_value mx' = 0 /\
    r = - RT_ERROR /\ mx' = Mutex 1 0 20 1 (Some 1%nat).
Proof.
  apply (rt_mutex_release_inner demo_contender 1 2 (demo_th 1 5 0 0) (Mutex 1 0 20 1 (Some 1%nat))
    demo_contender_wf demo_contender_ok).
  - reflexivity.
  - vm_compute. reflexivity.
  - reflexivity.
  - left. discriminate.
Defined.

Example rt_mutex_release_outer_witness :
  exists k' mx', rt_mutex_release 1 demo_k = Some (k', RT_EOK) /\ kernel_wf k' /\ mutex_ok 1 k' /\
    get_mutex 1 k' = Some mx' /\
    (exists th', threads (k_s k') !! 1%nat = Some th' /\ th_current_priority th' = 20) /\
    mx_owner mx' = Some 8%nat /\ mx_hold mx' = 1 /\ mx_value mx' = 0 /\
    lists (k_s k') !! LSuspend 1 = Some [] /\ TThread 8 ∉ timer_list (k_t k') /\
    exists wth wth', threads (k_s demo_k) !! 8%nat = Some wth /\ threads (k_s k') !! 8%nat = Some wth' /\
      is_ready wth' /\ th_error wth' = th_error wth /\ mx_original_priority mx' = th_current_priority wth.
Proof.
  apply (rt_mutex_release_outer demo_k 1 1 (demo_th 1 20 0 0) (Mutex 1 0 20 1 (Some 1%nat)) [8%nat]
    demo_k_wf demo_mutex_ok).
  - reflexivity.
  - vm_compute. reflexivity.
  - reflexivity.
  - reflexivity.
  - reflexivity.
  - vm_compute. reflexivity.
Defined.

Definition demo_full_mutex : kernel := demo_idle_obj (IMutex (Mutex 0 0 31 255 (Some 0%nat))).
Lemma demo_full_mutex_wf : kernel_wf demo_full_mutex.
Proof. kernel_dec. Qed.

Example rt_mutex_hold_wraps_witness :
  exists k1 k2 k3 mx3, rt_mutex_take_enter 0 (-1) demo_full_mutex = Some (k1, Ret RT_EOK) /\
    rt_mutex_take_enter 0 (-1) k1 = Some (k2, Ret RT_EOK) /\
    rt_mutex_release 0 k2 = Some (k3, RT_EOK) /\ get_mutex 0 k3 = Some mx3 /\ mx_owner mx3 = None.
Proof.
  apply (rt_mutex_hold_wraps demo_full_mutex 0 0 demo_idle_th (Mutex 0 0 31 255 (Some 0%nat)) (-1) demo_full_mutex_wf).
  - exists (Mutex 0 0 31 255 (Some 0%nat)), []. splits; try (vm_compute; reflexivity); [by left|].
    simpl. splits; try done. { apply not_elem_of_nil. }
    exists demo_idle_th. splits; [vm_compute; reflexivity|discriminate|discriminate].
  - reflexivity.
  - vm_compute. reflexivity.
  - reflexivity.
  - reflexivity.
  - reflexivity.
  - reflexivity.
  - vm_compute. reflexivity.
Defined.
