(* ===== verification/Event.v ===== *)
(** * Event sets (rt-thread/src/ipc.c) *)

From S2P Require Import Prelude RtList Sched SchedFacts Timer Kernel Thread Demo Ipc Sem.

(** ** Operations *)

Definition RT_EVENT_FLAG_AND : Z := 1.
Definition RT_EVENT_FLAG_OR : Z := 2.
Definition RT_EVENT_FLAG_CLEAR : Z := 4.

Definition get_event (o : oid) (k : kernel) : option rt_event :=
  match k_o k !! o with Some (IEvent x) => Some x | _ => None end.
Definition put_event (o : oid) (x : rt_event) (k : kernel) : kernel := put_obj o (IEvent x) k.
Definition has_flag (x f : Z) : bool := negb (Z.land x f =? 0).

Definition rt_event_init (o : oid) (flag : Z) (k : kernel) : kernel * Z :=
  (put_event o (Event (u8 flag) 0) (rt_ipc_object_init o k), RT_EOK).

Definition rt_event_create (obj : option oid) (flag : Z) (k : kernel) : kernel * option oid :=
  match obj with
  | None => (k, None)
  | Some o => (put_event o (Event (u8 flag) 0) (rt_ipc_object_init o k), Some o)
  end.

Definition rt_event_detach (o : oid) (k : kernel) : option (kernel * Z) :=
  _ ← get_event o k; k ← rt_ipc_list_resume_all (LSuspend o) k; Some (k, RT_EOK).

Definition rt_event_delete (o : oid) (k : kernel) : option (kernel * Z) :=
  _ ← get_event o k; k ← rt_ipc_list_resume_all (LSuspend o) k;
  Some (free_obj o [LSuspend o] k, RT_EOK).

(** Is a waiter for [eset] with option [info] satisfied by the event set? *)
Definition event_cond (info eset set : Z) : bool :=
  if has_flag info RT_EVENT_FLAG_AND then Z.land eset set =? eset
  else if has_flag info RT_EVENT_FLAG_OR then negb (Z.land eset set =? 0)
  else false.

(** What a satisfied waiter's [event_set] becomes. *)
Definition event_got (info eset set : Z) : Z :=
  if has_flag info RT_EVENT_FLAG_AND then eset else Z.land eset set.

Definition event_clear (info got set : Z) : Z :=
  if has_flag info RT_EVENT_FLAG_CLEAR then Z.land set (Z.lnot got) else set.

(** The walk over the waiting list [ws]; [set] is [event->set]. *)
Fixpoint event_wake (ws : list tid) (set : Z) (need : bool) (k : kernel) : option (kernel * Z * bool) :=
  match ws with
  | [] => Some (k, set, need)
  | t :: ws =>
      th ← threads (k_s k) !! t;
      if event_cond (th_event_info th) (th_event_set th) set then
        let got := event_got (th_event_info th) (th_event_set th) set in
        k ← upd_th t (th_set_event got (th_event_info th)) k;
        '(k, _) ← rt_thread_resume t k;
        event_wake ws (event_clear (th_event_info th) got set) true k
      else event_wake ws set need k
  end.

Definition rt_event_send_section (o : oid) (set : Z) (k : kernel) : option (kernel * bool) :=
  ev ← get_event o k;
  l ← lists (k_s k) !! LSuspend o;
  '(k, s, need) ← event_wake l (Z.lor (ev_set ev) set) false k;
  Some (put_event o (Event (ev_flag ev) s) k, need).

Definition rt_event_send (o : oid) (set : Z) (k : kernel) : option (kernel * Z) :=
  if set =? 0 then Some (k, - RT_ERROR)
  else
    '(k, need_schedule) ← rt_event_send_section o set k;
    k ← schedule_if need_schedule k;
    Some (k, RT_EOK).

(** The last component is what is stored through [recved]. *)
Definition rt_event_recv_enter (o : oid) (set opt timeout : Z) (k : kernel)
    : option (kernel * blocking * option Z) :=
  if set =? 0 then Some (k, Ret (- RT_ERROR), None)
  else
    t ← rt_thread_self k;
    k ← upd_th t (th_set_error RT_EOK) k;
    ev ← get_event o k;
    if event_cond opt set (ev_set ev) then
      Some (put_event o (Event (ev_flag ev) (event_clear opt set (ev_set ev))) k,
            Ret RT_EOK, Some (Z.land (ev_set ev) set))
    else if timeout =? 0 then
      k ← upd_th t (th_set_error (- RT_ETIMEOUT)) k; Some (k, Ret (- RT_ETIMEOUT), None)
    else
      k ← upd_th t (th_set_event set opt) k;
      k ← suspend_with_timeout (LSuspend o) t (ev_flag ev) timeout k;
      Some (k, Blocked, None).

(** After [rt_schedule], in thread [t]: the result and the received set. *)
Definition rt_event_recv_resume (t : tid) (k : kernel) : option (Z * option Z) :=
  th ← threads (k_s k) !! t;
  if negb (th_error th =? RT_EOK) then Some (th_error th, None)
  else Some (th_error th, Some (th_event_set th)).

Definition rt_event_control (o : oid) (cmd : Z) (k : kernel) : option (kernel * Z) :=
  ev ← get_event o k;
  if cmd =? RT_IPC_CMD_RESET then
    k ← rt_ipc_list_resume_all (LSuspend o) k;
    k ← on_s rt_schedule (put_event o (Event (ev_flag ev) 0) k);
    Some (k, RT_EOK)
  else Some (k, - RT_ERROR).

(** ** Specification of the walk *)

(** The threads woken, with the bits they receive; those that keep waiting; the
    final event set. *)
Fixpoint event_scan (ths : gmap tid rt_thread) (set : Z) (l : list tid) : list (tid * Z) * list tid * Z :=
  match l with
  | [] => ([], [], set)
  | t :: l =>
      match ths !! t with
      | Some th =>
          if event_cond (th_event_info th) (th_event_set th) set then
            let got := event_got (th_event_info th) (th_event_set th) set in
            let '(w, r, s) := event_scan ths (event_clear (th_event_info th) got set) l in
            ((t, got) :: w, r, s)
          else let '(w, r, s) := event_scan ths set l in (w, t :: r, s)
      | None => ([], [], set)
      end
  end.

(** A waiter whose condition the set [set] does not meet, and whose call will
    succeed once it is woken. *)
Definition waits_for (ths : gmap tid rt_thread) (set : Z) (t : tid) : Prop :=
  exists th, ths !! t = Some th /\ th_error th = RT_EOK /\
    event_cond (th_event_info th) (th_event_set th) set = false.

Lemma subset_clear info got set : Z.land (event_clear info got set) set = event_clear info got set.
Proof.
  unfold event_clear. destruct (has_flag _ _); [|by rewrite Z.land_diag].
  by rewrite <-Z.land_assoc, (Z.land_comm (Z.lnot got)), Z.land_assoc, Z.land_diag.
Qed.

(** Fewer events satisfy fewer waiters. *)
Lemma event_cond_mono info eset s s' :
  Z.land s' s = s' -> event_cond info eset s = false -> event_cond info eset s' = false.
Proof.
  intros Hsub. unfold event_cond.
  assert (Z.land eset s' = Z.land (Z.land eset s') s) as E by (by rewrite <-Z.land_assoc, Hsub).
  destruct (has_flag info RT_EVENT_FLAG_AND); [|destruct (has_flag info RT_EVENT_FLAG_OR); [|done]].
  - rewrite !Z.eqb_neq. intros Hne E'. apply Hne. by rewrite <-E', <-E at 1.
  - rewrite !negb_false_iff, !Z.eqb_eq. intros H0.
    by rewrite E, <-Z.land_assoc, (Z.land_comm s'), Z.land_assoc, H0.
Qed.

Lemma event_scan_ext ths ths' l : forall set,
  (forall t, t ∈ l -> ths' !! t = ths !! t) -> event_scan ths' set l = event_scan ths set l.
Proof.
  induction l as [|t l IH]; intros set Hl; simpl; [done|].
  rewrite Hl by (by left). destruct (ths !! t) as [th|]; [|done].
  destruct (event_cond _ _ _); by rewrite IH by (intros; apply Hl; by right).
Qed.

Lemma event_scan_subset ths l : forall set w r s t,
  event_scan ths set l = (w, r, s) -> t ∈ w.*1 -> t ∈ l.
Proof.
  induction l as [|x l IH]; intros set w r s t; simpl.
  { intros [= <- <- <-]. by intros ?%elem_of_nil. }
  destruct (ths !! x) as [th|]; [|intros [= <- <- <-]; by intros ?%elem_of_nil].
  destruct (event_cond _ _ _); destruct (event_scan _ _ _) as [[w1 r1] s1] eqn:E; intros [= <- <- <-];
    rewrite ?elem_of_cons; simpl; rewrite ?elem_of_cons; intros Hin; [destruct Hin as [->|Hin]; [by left|]|];
    right; by eapply IH.
Qed.

(** A woken waiter [t] got [got] out of the events in [set0], and what it asked
    to clear is not in the final set [s]. *)
Definition served (ths : gmap tid rt_thread) (set0 s : Z) (t : tid) (got : Z) : Prop :=
  exists th, ths !! t = Some th /\
    event_cond (th_event_info th) (th_event_set th) got = true /\
    Z.land got (Z.land (th_event_set th) set0) = got /\
    (has_flag (th_event_info th) RT_EVENT_FLAG_CLEAR = true -> Z.land s got = 0).

Lemma event_got_cond info eset set :
  event_cond info eset set = true ->
  event_cond info eset (event_got info eset set) = true /\
  Z.land (event_got info eset set) (Z.land eset set) = event_got info eset set.
Proof.
  unfold event_cond, event_got.
  destruct (has_flag info RT_EVENT_FLAG_AND); [|destruct (has_flag info RT_EVENT_FLAG_OR); [|done]].
  - rewrite Z.eqb_eq. intros E. by rewrite E, Z.land_diag, Z.eqb_refl.
  - intros Hne. rewrite Z.land_diag, Z.land_assoc, Z.land_diag. done.
Qed.

Lemma land_subset_trans a b c : Z.land a b = a -> Z.land b c = b -> Z.land a c = a.
Proof. intros H1 H2. by rewrite <-H1, <-Z.land_assoc, H2. Qed.

Lemma land_subset_mono x a b : Z.land a b = a -> Z.land (Z.land x a) (Z.land x b) = Z.land x a.
Proof.
  intros Hab. rewrite (Z.land_comm x b), Z.land_assoc, <-(Z.land_assoc x a b), Hab.
  by rewrite (Z.land_comm (Z.land x a)), Z.land_assoc, Z.land_diag.
Qed.

Lemma land_clear_zero s a b : Z.land s a = s -> Z.land a b = 0 -> Z.land s b = 0.
Proof. intros H1 H2. by rewrite <-H1, <-Z.land_assoc, H2, Z.land_0_r. Qed.

Lemma event_clear_zero info got set :
  has_flag info RT_EVENT_FLAG_CLEAR = true -> Z.land (event_clear info got set) got = 0.
Proof.
  intros Hf. unfold event_clear. rewrite Hf, <-Z.land_assoc, (Z.land_comm (Z.lnot got)), Z.land_lnot_diag.
  apply Z.land_0_r.
Qed.

(** What the scan computes. *)
Lemma event_scan_correct ths l : forall set w r s,
  (forall t, t ∈ l -> exists th, ths !! t = Some th /\ th_error th = RT_EOK) ->
  event_scan ths set l = (w, r, s) ->
  w.*1 ++ r ≡ₚ l /\ sublist r l /\ Z.land s set = s /\ Forall (waits_for ths s) r /\
  Forall (fun p => served ths set s p.1 p.2) w.
Proof.
  induction l as [|t l IH]; intros set w r s Hex; simpl.
  { intros [= <- <- <-]. splits; try done. apply Z.land_diag. }
  destruct (Hex t) as (th & Ht & He); [by left|]. rewrite Ht.
  assert (forall t, t ∈ l -> exists th, ths !! t = Some th /\ th_error th = RT_EOK) as Hex'
    by (intros; apply Hex; by right).
  destruct (event_cond (th_event_info th) (th_event_set th) set) eqn:Ec.
  - set (got := event_got _ _ _). set (set1 := event_clear _ got set).
    destruct (event_scan ths set1 l) as [[w1 r1] s1] eqn:E. intros [= <- <- <-].
    destruct (IH _ _ _ _ Hex' E) as (Hp & Hsl & Hsub & Hr & Hw).
    assert (Z.land set1 set = set1) as Hs1 by apply subset_clear.
    destruct (event_got_cond _ _ _ Ec) as [Hg1 Hg2]. splits.
    + simpl. by rewrite Hp.
    + by constructor.
    + by eapply land_subset_trans.
    + done.
    + constructor; simpl.
      * exists th. splits; try done. intros Hf. apply (land_clear_zero _ set1); [done|]. by apply event_clear_zero.
      * eapply Forall_impl; [exact Hw|]. intros [t' g] (th' & Ht' & Hc' & Hg' & Hcl). exists th'. splits; try done.
        eapply land_subset_trans; [exact Hg'|]. by apply land_subset_mono.
  - destruct (event_scan ths set l) as [[w1 r1] s1] eqn:E. intros [= <- <- <-].
    destruct (IH _ _ _ _ Hex' E) as (Hp & Hsl & Hsub & Hr & Hw). splits; try done.
    + by rewrite <-Permutation_middle, Hp.
    + by constructor.
    + constructor; [|done]. exists th. splits; try done. by eapply event_cond_mono.
Qed.

(** The bits that the threads of [w] asked to clear, out of what they got. *)
Definition cleared (ths : gmap tid rt_thread) (w : list (tid * Z)) : Z :=
  foldr (fun p acc => Z.lor (match ths !! p.1 with
    | Some th => if has_flag (th_event_info th) RT_EVENT_FLAG_CLEAR then p.2 else 0
    | None => 0 end) acc) 0 w.

(** A waiter for [asked] with the options [info] is satisfied by [set]. *)
Definition satisfied (info asked set : Z) : Prop :=
  if has_flag info RT_EVENT_FLAG_AND then Z.land asked set = asked
  else has_flag info RT_EVENT_FLAG_OR = true /\ Z.land asked set <> 0.

(** Each waiter of [l] in its turn: the set it sees is [set0] without the bits that
    were cleared for those before it; if that satisfies it, it gets all the bits of
    it that it asked for, otherwise it stays. *)
Definition in_turn (ths : gmap tid rt_thread) (set0 : Z) (l : list tid) (w : list (tid * Z)) (r : list tid) : Prop :=
  forall l1 t l2, l = l1 ++ t :: l2 -> exists th, ths !! t = Some th /\
    let e := Z.ldiff set0 (cleared ths (filter (fun p => p.1 ∈ l1) w)) in
    (satisfied (th_event_info th) (th_event_set th) e -> (t, Z.land (th_event_set th) e) ∈ w) /\
    (~ satisfied (th_event_info th) (th_event_set th) e -> t ∈ r).

Lemma event_cond_satisfied info asked set : event_cond info asked set = true <-> satisfied info asked set.
Proof.
  unfold event_cond, satisfied. destruct (has_flag info RT_EVENT_FLAG_AND); [apply Z.eqb_eq|].
  destruct (has_flag info RT_EVENT_FLAG_OR); [|naive_solver]. rewrite negb_true_iff, Z.eqb_neq. naive_solver.
Qed.

Lemma event_got_all info asked set : event_cond info asked set = true -> event_got info asked set = Z.land asked set.
Proof. unfold event_cond, event_got. destruct (has_flag info RT_EVENT_FLAG_AND); [|done]. by intros ->%Z.eqb_eq. Qed.

Lemma filter_none_nil (w : list (tid * Z)) : filter (fun p => p.1 ∈ @nil tid) w = [].
Proof. induction w as [|p w IH]; [done|]. by rewrite filter_cons, decide_False by (by intros ?%elem_of_nil). Qed.

Lemma filter_cons_first (t : tid) (l1 : list tid) (w : list (tid * Z)) :
  t ∉ w.*1 -> filter (fun p => p.1 ∈ t :: l1) w = filter (fun p => p.1 ∈ l1) w.
Proof.
  induction w as [|[t' g] w IH]; [done|]. intros [Hne Hn]%not_elem_of_cons. simpl in *. rewrite !filter_cons, IH by done.
  destruct (decide (t' ∈ l1)) as [H|H].
  - rewrite (decide_True (P := t' ∈ t :: l1)) by (by right). by rewrite (decide_True (P := t' ∈ l1)).
  - rewrite (decide_False (P := t' ∈ t :: l1)) by (by intros [->|?]%elem_of_cons). by rewrite (decide_False (P := t' ∈ l1)).
Qed.

Lemma event_scan_in_turn ths l : forall set w r s,
  NoDup l -> (forall t, t ∈ l -> exists th, ths !! t = Some th /\ th_error th = RT_EOK) -> event_scan ths set l = (w, r, s) ->
  s = Z.ldiff set (cleared ths w) /\ sublist w.*1 l /\ in_turn ths set l w r.
Proof.
  induction l as [|t l IH]; intros set w r s Hnd Hex; simpl.
  { intros [= <- <- <-]. splits; [by rewrite Z.ldiff_0_r|done|]. intros [|??] ???; done. }
  apply NoDup_cons in Hnd as [Hni Hnd]. destruct (Hex t) as (th & Ht & He); [by left|]. rewrite Ht.
  assert (forall t, t ∈ l -> exists th, ths !! t = Some th /\ th_error th = RT_EOK) as Hex'
    by (intros; apply Hex; by right).
  destruct (event_cond (th_event_info th) (th_event_set th) set) eqn:Ec.
  - rewrite (event_got_all _ _ _ Ec). set (got := Z.land (th_event_set th) set). set (c := if has_flag (th_event_info th) RT_EVENT_FLAG_CLEAR then got else 0).
    assert (event_clear (th_event_info th) got set = Z.ldiff set c) as ->
      by (unfold event_clear, c; destruct (has_flag _ _); [by rewrite Z.ldiff_land|by rewrite Z.ldiff_0_r]).
    destruct (event_scan ths (Z.ldiff set c) l) as [[w1 r1] s1] eqn:E. intros [= <- <- <-].
    destruct (IH _ _ _ _ Hnd Hex' E) as (-> & Hsl & Hturn).
    assert (forall w', cleared ths ((t, got) :: w') = Z.lor c (cleared ths w')) as Ecl by (intros; simpl; by rewrite Ht).
    assert (t ∉ w1.*1) as Hnw by (intros Hin; apply Hni; by apply (elem_of_sublist w1.*1 l)).
    splits.
    + by rewrite Ecl, Z.ldiff_ldiff_l.
    + by constructor.
    + intros [|t' l1] x l2 El; injection El as -> El.
      * exists th. split; [done|]. cbv zeta. rewrite filter_none_nil, Z.ldiff_0_r. split; [intros _; by left|].
        intros Hn. destruct Hn. by apply event_cond_satisfied.
      * subst l. destruct (Hturn l1 x l2 eq_refl) as (thx & Hx & H). exists thx. split; [done|]. cbv zeta in *.
        rewrite filter_cons_True by (by left). rewrite filter_cons_first, Ecl, <-Z.ldiff_ldiff_l by done.
        split; [intros ?; right; by apply H|by apply H].
  - destruct (event_scan ths set l) as [[w1 r1] s1] eqn:E. intros [= <- <- <-].
    destruct (IH _ _ _ _ Hnd Hex' E) as (-> & Hsl & Hturn). splits; [done|by constructor|].
    assert (t ∉ w1.*1) as Hnw by (intros Hin; apply Hni; by apply (elem_of_sublist w1.*1 l)).
    intros [|t' l1] x l2 El; injection El as -> El.
    + exists th. split; [done|]. cbv zeta. rewrite filter_none_nil, Z.ldiff_0_r. split; [|intros _; by left].
      intros Hsat%event_cond_satisfied. by rewrite Ec in Hsat.
    + subst l. destruct (Hturn l1 x l2 eq_refl) as (thx & Hx & H). exists thx. split; [done|]. cbv zeta in *.
      rewrite filter_cons_first by done. split; [by apply H|intros ?; right; by apply H].
Qed.

(** The threads after the walk: those of [w] are ready with what they got. *)
Definition served_threads (w : list (tid * Z)) (ths ths' : gmap tid rt_thread) : Prop :=
  (forall t got, (t, got) ∈ w -> exists th, ths !! t = Some th /\
     ths' !! t = Some (make_ready (th_set_event got (th_event_info th) th))) /\
  (forall t, t ∉ w.*1 -> ths' !! t = ths !! t).

(** The walk implements the scan. *)
Lemma event_wake_spec o ws : forall k pre set need w r s,
  kernel_wf k -> lists (k_s k) !! LSuspend o = Some (pre ++ ws) ->
  event_scan (threads (k_s k)) set ws = (w, r, s) ->
  exists k', event_wake ws set need k = Some (k', s, need || negb (bool_decide (w = []))) /\ kernel_wf k' /\
    lists (k_s k') !! LSuspend o = Some (pre ++ r) /\
    served_threads w (threads (k_s k)) (threads (k_s k')) /\
    k_o k' = k_o k /\ current (k_s k') = current (k_s k) /\
    (forall p, p ∈ timer_list (k_t k') <-> p ∈ timer_list (k_t k) /\ forall t, t ∈ w.*1 -> p <> TThread t).
Proof.
  induction ws as [|t ws IH]; intros k pre set need w r s Hk Hl; simpl.
  { intros [= <- <- <-]. exists k. rewrite orb_false_r. splits; try done.
    - split; [|done]. intros t got Hin. by apply elem_of_nil in Hin.
    - intros p. split; [|tauto]. intros Hp. split; [done|]. intros t Ht. by apply elem_of_nil in Ht. }
  destruct (waiting_suspended ∅ 0 k (LSuspend o) _ t Hk I Hl) as (th & Ht & Hst); [set_solver|].
  rewrite Ht. simpl. pose proof (proj1 (c_ok _ _ (wf_core _ (kw_sched _ _ _ Hk))) _ _ Hl) as Hnd.
  destruct (event_cond (th_event_info th) (th_event_set th) set) eqn:Ec.
  2:{ destruct (event_scan (threads (k_s k)) set ws) as [[w1 r1] s1] eqn:E. intros [= <- <- <-].
      destruct (IH k (pre ++ [t]) set need w1 r1 s1 Hk) as (k' & Hop & Hk' & Hl' & Hrest); [by rewrite <-app_assoc|done|].
      exists k'. rewrite <-app_assoc in Hl'. exact (conj Hop (conj Hk' (conj Hl' Hrest))). }
  set (got := event_got _ _ _). set (set1 := event_clear _ got set). set (th1 := th_set_event got (th_event_info th) th).
  destruct (event_scan (threads (k_s k)) set1 ws) as [[w1 r1] s1] eqn:E. intros [= <- <- <-].
  rewrite (upd_th_eq _ _ _ _ Ht). simpl. fold th1.
  assert (kernel_wf (set_th t th1 k)) as Hk1 by (apply (kernel_put_same _ _ _ _ th); eauto with kernel).
  destruct (rt_thread_resume_spec ∅ 0 (set_th t th1 k) t th1 Hk1) as
    (k2 & tm & -> & Hk2 & Hwk & Hobj & _ & _ & Htl & _); [simpl; by rewrite lookup_insert_eq|done|]. simpl.
  replace (∅ ∖ {[TThread t]}) with (∅ : gset timer_ptr) in Hk2 by set_solver.
  assert (threads (k_s k2) = <[t := make_ready th1]> (threads (k_s k))) as Hths
    by (rewrite (wk_threads _ _ _ _ Hwk); simpl; by rewrite insert_insert_eq).
  assert (lists (k_s k2) !! LSuspend o = Some (pre ++ ws)) as Hl2.
  { rewrite (wk_lists _ _ _ _ Hwk) by (by apply waiting_not_ready). simpl. rewrite Hl. simpl. f_equal.
    by apply remove_elem_split. }
  apply NoDup_app in Hnd as (_ & Hd & [Hni Hnd]%NoDup_cons).
  destruct (IH k2 pre set1 true w1 r1 s1 Hk2 Hl2) as (k' & -> & Hk' & Hl' & [Hs1 Hs2] & Ho' & Hc' & Htl').
  { rewrite Hths. rewrite <-E. apply event_scan_ext. intros t' Hin. rewrite lookup_insert_ne; [done|]. by intros ->. }
  assert (t ∉ w1.*1) as Hnw.
  { intros Hin. apply Hni. by eapply event_scan_subset. }
  exists k'. splits; try done.
  - by rewrite orb_true_r.
  - split.
    + intros t' g [[= -> ->]|Hin]%elem_of_cons.
      * exists th. rewrite Hs2, Hths, lookup_insert_eq by done. done.
      * destruct (Hs1 t' g Hin) as (th' & Ht' & E'). assert (t' <> t) as Hne.
        { intros ->. apply Hnw. apply list_elem_of_fmap. by exists (t, g). }
        exists th'. rewrite Hths, lookup_insert_ne in Ht' by done. done.
    + intros t' [Hne Hni']%not_elem_of_cons. by rewrite Hs2, Hths, lookup_insert_ne.
  - by rewrite Ho', Hobj.
  - by rewrite Hc', (wk_current _ _ _ _ Hwk).
  - intros p. rewrite Htl', Htl, elem_of_remove_elem. simpl. split.
    + intros [[Hp Hin] Hw]. split; [done|]. intros t' [->|Ht']%elem_of_cons; auto.
    + intros [Hin Hw]. split; [split; [apply Hw; by left|done]|]. intros t' Ht'. apply Hw. by right.
Qed.

(** ** Properties *)

(** No waiter of a well-formed event object is satisfied by its set. *)
Definition event_ok (o : oid) (k : kernel) : Prop :=
  exists ev l, k_o k !! o = Some (IEvent ev) /\ lists (k_s k) !! LSuspend o = Some l /\
    is_u32 (ev_set ev) /\ ipc_flag_ok (ev_flag ev) /\ Forall (waits_for (threads (k_s k)) (ev_set ev)) l.

Lemma get_event_eq o k ev : k_o k !! o = Some (IEvent ev) -> get_event o k = Some ev.
Proof. unfold get_event. by intros ->. Qed.

Lemma u32_land x : u32 x = Z.land x (Z.ones 32).
Proof. by rewrite Z.land_ones. Qed.
Lemma is_u32_fix x : u32 x = x -> is_u32 x.
Proof. intros <-. apply u32_range. Qed.
Lemma u32_subset s x : Z.land s x = s -> is_u32 x -> is_u32 s.
Proof.
  intros Hs Hx. apply is_u32_fix. rewrite u32_land, <-Hs at 1.
  by rewrite <-Z.land_assoc, <-u32_land, (u32_small _ Hx).
Qed.
Lemma u32_lor x y : is_u32 x -> is_u32 y -> is_u32 (Z.lor x y).
Proof.
  intros Hx Hy. apply is_u32_fix. rewrite u32_land, Z.land_lor_distr_l, <-!u32_land.
  by rewrite (u32_small _ Hx), (u32_small _ Hy).
Qed.

Lemma waiters_exist o k ev l :
  event_ok o k -> k_o k !! o = Some (IEvent ev) -> lists (k_s k) !! LSuspend o = Some l ->
  forall t, t ∈ l -> exists th, threads (k_s k) !! t = Some th /\ th_error th = RT_EOK.
Proof.
  intros (ev0 & l0 & Ho0 & Hl0 & _ & _ & Hw) Ho Hl t Hin. rewrite Hl in Hl0. injection Hl0 as <-.
  rewrite Forall_forall in Hw. destruct (Hw t Hin) as (th & ? & ? & _). eauto.
Qed.

(** C5: [rt_event_send] with a non-empty set returns [RT_EOK] and splits the
    waiting list in those it wakes and those that remain, in order. The waiters are
    looked at in turn: one whose AND/OR option is satisfied by the event set, with
    [set] added and without what was cleared for those before it, is woken with all
    the bits of it that it asked for; its [rt_event_recv] returns [RT_EOK] with
    exactly these, it is ready in its queue or running, its timer stopped. The
    others stay, and nobody who stays is satisfied by the final set, which is the
    old one with [set] added and exactly the bits taken away that woken threads
    with [RT_EVENT_FLAG_CLEAR] have got. *)
Theorem rt_event_send_serves (k : kernel) (o : oid) (c : tid) (set : Z) (ev : rt_event) (l : list tid) :
  kernel_wf k -> event_ok o k -> current (k_s k) = Some c -> is_u32 set -> set <> 0 ->
  k_o k !! o = Some (IEvent ev) -> lists (k_s k) !! LSuspend o = Some l ->
  exists k' w r s, rt_event_send o set k = Some (k', RT_EOK) /\ kernel_wf k' /\ event_ok o k' /\
    w.*1 ++ r ≡ₚ l /\ sublist w.*1 l /\ sublist r l /\ in_turn (threads (k_s k)) (Z.lor (ev_set ev) set) l w r /\
    lists (k_s k') !! LSuspend o = Some r /\ get_event o k' = Some (Event (ev_flag ev) s) /\
    s = Z.ldiff (Z.lor (ev_set ev) set) (cleared (threads (k_s k)) w) /\ Forall (waits_for (threads (k_s k')) s) r /\
    forall t got, (t, got) ∈ w ->
      served (threads (k_s k)) (Z.lor (ev_set ev) set) s t got /\ runnable t (k_s k') /\
      rt_event_recv_resume t k' = Some (RT_EOK, Some got) /\ TThread t ∉ timer_list (k_t k').
Proof.
  intros Hk Hok Hc Hu Hne Ho Hl. pose proof (waiters_exist o k ev l Hok Ho Hl) as Hex.
  destruct Hok as (ev0 & l0 & Ho0 & _ & Hset & Hfl & _). rewrite Ho in Ho0. injection Ho0 as <-.
  unfold rt_event_send, rt_event_send_section. rewrite (proj2 (Z.eqb_neq _ _) Hne), (get_event_eq _ _ _ Ho).
  simpl. rewrite Hl. simpl.
  destruct (event_scan (threads (k_s k)) (Z.lor (ev_set ev) set) l) as [[w r] s] eqn:E.
  destruct (event_scan_correct _ _ _ _ _ _ Hex E) as (Hp & Hsl & Hsub & Hr & Hw).
  assert (NoDup l) as Hndl by (by apply (c_ok _ _ (wf_core _ (kw_sched _ _ _ Hk))) in Hl).
  destruct (event_scan_in_turn _ _ _ _ _ _ Hndl Hex E) as (Es & Hslw & Hturn).
  destruct (event_wake_spec o l k [] (Z.lor (ev_set ev) set) false w r s Hk Hl E) as
    (k1 & -> & Hk1 & Hl1 & [Hs1 Hs2] & Ho1 & Hc1 & Htl). simpl. set (x := IEvent (Event (ev_flag ev) s)).
  assert (kernel_wf (put_obj o x k1)) as Hk2 by (eapply kernel_same_obj; [done|by rewrite Ho1|done]).
  set (k2 := put_event o (Event (ev_flag ev) s) k1).
  assert (exists s2, schedule_if (negb (bool_decide (w = []))) k2 = Some (set_s s2 k2) /\
    kernel_wf (set_s s2 k2) /\ same_frame (k_s k1) s2) as (s2 & -> & Hk3 & _ & _ & Hls & Hths).
  { destruct (bool_decide _); simpl.
    - exists (k_s k1). splits; try done. apply same_frame_refl.
    - destruct (kernel_schedule ∅ 0 k2 c Hk2) as (s2 & Hop & Hk3 & Hf & _); [by rewrite <-Hc1 in Hc|].
      rewrite Hop. eauto. }
  assert (Forall (waits_for (threads s2) s) r) as Hr'.
  { rewrite Forall_forall in Hr |- *. intros t Hin. destruct (Hr t Hin) as (th & Ht & He & Hcd).
    assert (t ∉ w.*1) as Hnw.
    { assert (NoDup (w.*1 ++ r)) as Hnd by (by rewrite Hp).
      apply NoDup_app in Hnd as (_ & Hd & _). intros Hw'. by apply (Hd t Hw'). }
    rewrite <-(Hs2 t Hnw) in Ht. destruct (Hths t) as [E'|(th1 & Ht1 & _ & E')].
    - exists th. rewrite E'. done.
    - rewrite Ht in Ht1. injection Ht1 as <-. exists (make_ready th). done. }
  simpl. exists (set_s s2 k2), w, r, s. splits; try done; simpl.
  - exists (Event (ev_flag ev) s), r. simpl. rewrite lookup_insert_eq, Hls by done. splits; try done.
    eapply u32_subset; [exact Hsub|]. by apply u32_lor.
  - by rewrite Hls.
  - unfold get_event. simpl. by rewrite lookup_insert_eq.
  - intros t got Hin. rewrite Forall_forall in Hw. split; [by apply (Hw (t, got))|].
    destruct (Hs1 t got Hin) as (th & Ht & Ht').
    assert (t ∈ w.*1) as Hin' by (apply list_elem_of_fmap; by exists (t, got)).
    destruct (Hex t) as (th0 & Ht0 & He); [rewrite <-Hp; set_solver|]. rewrite Ht in Ht0. injection Ht0 as <-.
    assert (exists th', threads s2 !! t = Some th' /\ is_ready th' /\ th_error th' = RT_EOK /\ th_event_set th' = got) as (th' & E' & Hrd & He' & Hg').
    { destruct (Hths t) as [E'|(th1 & Ht1 & _ & E')]; [|rewrite Ht' in Ht1; injection Ht1 as <-];
        rewrite E', ?Ht'; eexists; (split; [done|splits; [apply make_ready_ready|done|done]]). }
    assert (runnable t s2) as Hrun by (by apply (ready_runnable _ _ th'); [apply (kw_sched _ _ _ Hk3)|..]).
    splits; [done| |by apply (runnable_untimed ∅ 0 (set_s s2 k2))].
    unfold rt_event_recv_resume. simpl. rewrite E'. simpl. by rewrite He', Hg'.
Qed.

(** Less events, same waiters. *)
Lemma waits_mono ths s s' l :
  Z.land s' s = s' -> Forall (waits_for ths s) l -> Forall (waits_for ths s') l.
Proof.
  intros Hs. intros HF. eapply Forall_impl; [exact HF|]. intros t (th & Ht & He & Hc). exists th. splits; try done. by eapply event_cond_mono.
Qed.

(** [rt_event_recv] by the running thread with a non-empty set: when its
    condition holds it returns [RT_EOK] with the bits it asked for and, with
    [RT_EVENT_FLAG_CLEAR], removes all of [set]; otherwise it returns
    [-RT_ETIMEOUT] at once without waiting time, and else waits on the event's
    list (at the place the object's flag asks for) with [set] and [opt] stored
    for the sender and its timer armed. The event object stays well formed: no
    waiter is ever satisfied by the set it waits on. *)
Theorem rt_event_recv_cases (k : kernel) (o : oid) (c : tid) (th : rt_thread) (set opt timeout : Z)
    (ev : rt_event) (l : list tid) :
  kernel_wf k -> event_ok o k -> current (k_s k) = Some c -> threads (k_s k) !! c = Some th -> is_ready th ->
  set <> 0 -> timeout <= max_delay -> k_o k !! o = Some (IEvent ev) -> lists (k_s k) !! LSuspend o = Some l ->
  exists k' b rv, rt_event_recv_enter o set opt timeout k = Some (k', b, rv) /\ kernel_wf k' /\ event_ok o k' /\
    (event_cond opt set (ev_set ev) = true -> b = Ret RT_EOK /\ rv = Some (Z.land (ev_set ev) set) /\
       get_event o k' = Some (Event (ev_flag ev) (event_clear opt set (ev_set ev)))) /\
    (event_cond opt set (ev_set ev) = false -> timeout = 0 ->
       b = Ret (- RT_ETIMEOUT) /\ k_o k' = k_o k /\ lists (k_s k') = lists (k_s k)) /\
    (event_cond opt set (ev_set ev) = false -> timeout <> 0 -> b = Blocked /\ k_o k' = k_o k /\
       (exists th', threads (k_s k') !! c = Some th' /\ stat_of th' = RT_THREAD_SUSPEND /\
          th_event_set th' = set /\ th_event_info th' = opt /\ th_error th' = RT_EOK) /\
       (exists l1 l2, l = l1 ++ l2 /\ lists (k_s k') !! LSuspend o = Some (l1 ++ c :: l2)) /\
       (0 < timeout -> TThread c ∈ timer_list (k_t k') /\ timer_left (k_t k') (TThread c) = timeout)).
Proof.
  intros Hk (ev0 & l0 & Ho0 & Hl0 & Hset & Hfl & Hw) Hc Ht Hrd Hne Htime Ho Hl.
  rewrite Ho in Ho0. injection Ho0 as <-. rewrite Hl in Hl0. injection Hl0 as <-.
  unfold rt_event_recv_enter, rt_thread_self. rewrite (proj2 (Z.eqb_neq _ _) Hne), Hc. simpl.
  rewrite (upd_th_eq _ _ _ _ Ht). simpl. set (th1 := th_set_error RT_EOK th). set (k1 := set_th c th1 k).
  assert (kernel_wf k1) as Hk1 by (apply (kernel_put_same _ _ _ _ th); eauto with kernel).
  assert (threads (k_s k1) !! c = Some th1) as Ht1 by (simpl; by rewrite lookup_insert_eq).
  assert (c ∉ l) as Hcl.
  { intros Hin. destruct (waiting_suspended ∅ 0 k (LSuspend o) l c Hk I Hl Hin) as (th' & Ht' & Hst).
    rewrite Ht in Ht'. injection Ht' as <-. by rewrite Hrd in Hst. }
  assert (forall ths s, (forall t, t <> c -> ths !! t = threads (k_s k) !! t) ->
    Forall (waits_for (threads (k_s k)) s) l -> Forall (waits_for ths s) l) as Hkeep.
  { intros ths s Hths HF. rewrite Forall_forall in HF |- *. intros t Hin. destruct (HF t Hin) as (th' & ? & ?).
    exists th'. rewrite Hths; [done|]. by intros ->. }
  rewrite (get_event_eq o k1 ev Ho). simpl.
  destruct (event_cond opt set (ev_set ev)) eqn:Ec.
  - eexists _, _, _. split; [done|]. splits; try done.
    + eapply kernel_same_obj; try done; simpl; done.
    + exists (Event (ev_flag ev) (event_clear opt set (ev_set ev))), l. simpl. rewrite lookup_insert_eq. splits; try done.
      * eapply u32_subset; [apply subset_clear|done].
      * apply Hkeep; [intros; by rewrite lookup_insert_ne|]. eapply waits_mono; [apply subset_clear|done].
    + intros _. splits; try done. unfold get_event. simpl. by rewrite lookup_insert_eq.
  - destruct (Z.eqb_spec timeout 0) as [->|Hn0].
    + rewrite (upd_th_eq _ _ _ _ Ht1). eexists _, _, _. split; [done|]. splits; try done.
      * apply (kernel_put_same _ _ _ _ th1); eauto with kernel.
      * exists ev, l. simpl. splits; try done. apply Hkeep; [|done]. intros. by rewrite !lookup_insert_ne.
    + rewrite (upd_th_eq _ _ _ _ Ht1). simpl. set (th2 := th_set_event set opt th1). set (k2 := set_th c th2 k1).
      assert (kernel_wf k2) as Hk2 by (apply (kernel_put_same _ _ _ _ th1); eauto with kernel).
      destruct (suspend_with_timeout_spec k2 c th2 (LSuspend o) (ev_flag ev) timeout) as
        (k3 & k' & -> & Hk' & Hp & Hks & Hko & _ & Htm & _); try done; [simpl; by rewrite lookup_insert_eq|].
      simpl. destruct (pk_list _ _ _ _ _ _ Hp) as (l1 & l2 & Hl12 & Hl' & _). simpl in Hl12. rewrite Hl in Hl12.
      injection Hl12 as ->. pose proof (pk_threads _ _ _ _ _ _ Hp) as Hths. rewrite <-Hks in Hl', Hths.
      assert (threads (k_s k') !! c = Some (make_suspended th2)) as Htc by (by rewrite Hths, lookup_insert_eq).
      exists k', Blocked, None. split; [done|]. splits; try done.
      * exists ev, (l1 ++ c :: l2). rewrite Hko. splits; try done.
        assert (Forall (waits_for (threads (k_s k')) (ev_set ev)) (l1 ++ l2)) as HF.
        { apply Hkeep; [|done]. intros. rewrite Hths. simpl. by rewrite !lookup_insert_ne. }
        rewrite <-Permutation_middle. constructor; [|done]. eexists. done.
      * intros _ _. splits; try done; eauto. exists (make_suspended th2). splits; try done. apply make_suspended_stat.
Qed.

(** ** Witnesses *)

Lemma demo_event_ok : event_ok 2 demo_k.
Proof.
  exists (Event 0 1), [9%nat]. splits; try (vm_compute; reflexivity).
  - unfold is_u32. simpl. lia.
  - by left.
  - repeat constructor. exists (demo_th 2 8 6 3). splits; vm_compute; reflexivity.
Qed.

(** Thread 9 waits for bits 1 and 2 with AND and CLEAR. *)
Example rt_event_send_serves_witness :
  exists k' w r s, rt_event_send 2 14 demo_k = Some (k', RT_EOK) /\ kernel_wf k' /\ event_ok 2 k' /\
    w.*1 ++ r ≡ₚ [9%nat] /\ sublist w.*1 [9%nat] /\ sublist r [9%nat] /\ in_turn (threads (k_s demo_k)) (Z.lor 1 14) [9%nat] w r /\
    lists (k_s k') !! LSuspend 2 = Some r /\ get_event 2 k' = Some (Event 0 s) /\
    s = Z.ldiff (Z.lor 1 14) (cleared (threads (k_s demo_k)) w) /\ Forall (waits_for (threads (k_s k')) s) r /\
    forall t got, (t, got) ∈ w ->
      served (threads (k_s demo_k)) (Z.lor 1 14) s t got /\ runnable t (k_s k') /\
      rt_event_recv_resume t k' = Some (RT_EOK, Some got) /\ TThread t ∉ timer_list (k_t k').
Proof.
  apply (rt_event_send_serves demo_k 2 1 14 (Event 0 1) [9%nat] demo_k_wf demo_event_ok).
  - reflexivity.
  - unfold is_u32. lia.
  - discriminate.
  - reflexivity.
  - vm_compute. reflexivity.
Defined.

Example rt_event_recv_cases_witness :
  exists k' b rv, rt_event_recv_enter 2 8 RT_EVENT_FLAG_OR 5 demo_k = Some (k', b, rv) /\ kernel_wf k' /\
    event_ok 2 k' /\ b = Blocked /\ timer_left (k_t k') (TThread 1) = 5.
Proof.
  destruct (rt_event_recv_cases demo_k 2 1 (demo_th 1 20 0 0) 8 RT_EVENT_FLAG_OR 5 (Event 0 1) [9%nat]
    demo_k_wf demo_event_ok) as (k' & b & rv & Hop & Hk' & Hok & _ & _ & Hb).
  - reflexivity.
  - vm_compute. reflexivity.
  - reflexivity.
  - discriminate.
  - unfold max_delay. lia.
  - reflexivity.
  - vm_compute. reflexivity.
  - destruct Hb as (-> & _ & _ & _ & Ht); [reflexivity|discriminate|].
    exists k', Blocked, rv. split; [exact Hop|]. split; [exact Hk'|]. split; [exact Hok|]. split; [reflexivity|].
    apply Ht. lia.
Defined.
