(* ===== verification/Blocking.v ===== *)
(** * Blocking calls with a retry loop (rt-thread/src/ipc.c)

    What the mailbox and message-queue calls share: the loop that suspends the
    thread until there is room or data, the time that is left, the wake-up of the
    first waiter, and the call of the scheduler at the end. *)

From S2P Require Import Prelude RtList Sched SchedFacts Timer Kernel Thread Demo Ipc Sem.

(** ** Operations *)

(** The call is over with a result, possibly after a [rt_schedule], or waits. *)
Inductive step_result (R : Type) := Done (r : R) (need_schedule : bool) | Wait (timeout tick_delta : Z).
Arguments Done {R} _ _.
Arguments Wait {R} _ _.

(** Suspending in the loop: the error code is cleared, [tick_delta] becomes the
    current tick when the timer is started. *)
Definition wait_on {R} (h : lhead) (t : tid) (flag timeout tick_delta : Z) (k : kernel)
    : option (kernel * step_result R) :=
  k ← suspend_with_timeout h t flag timeout k;
  Some (k, Wait timeout (if 0 <? timeout then rt_tick_get (k_t k) else tick_delta)).

(** The waiting time that is left: [timeout -= rt_tick_get() - tick_delta] in
    32-bit arithmetic, at least 0; [RT_WAITING_FOREVER] stays. *)
Definition time_left (timeout tick_delta now : Z) : Z :=
  if 0 <? timeout then
    let timeout := s32 (timeout - u32 (now - tick_delta)) in
    if timeout <? 0 then 0 else timeout
  else timeout.

(** [if (!rt_list_isempty(h)) rt_ipc_list_resume(h)], and whether to schedule. *)
Definition wake_first (h : lhead) (k : kernel) : option (kernel * bool) :=
  l ← lists (k_s k) !! h;
  match l with
  | _ :: _ => k ← rt_ipc_list_resume h k; Some (k, true)
  | [] => Some (k, false)
  end.

(** The [rt_schedule] at the end of a call that resumed a thread. *)
Definition finish {R} (p : kernel * step_result R) : option (kernel * step_result R) :=
  match p with
  | (k, Done r b) => k ← schedule_if b k; Some (k, Done r b)
  | (k, Wait a d) => k ← on_s rt_schedule k; Some (k, Wait a d)
  end.

(** ** Specifications *)

(** A suspended thread [c] waits on [h], with its timer armed. *)
Record waits_on (h : lhead) (c : tid) (th : rt_thread) (timeout : Z) (k k' : kernel) : Prop := {
  wo_objs : k_o k' = k_o k;
  wo_thread : threads (k_s k') !! c = Some (make_suspended (th_set_error RT_EOK th));
  wo_list : exists l1 l2, lists (k_s k) !! h = Some (l1 ++ l2) /\ lists (k_s k') !! h = Some (l1 ++ c :: l2);
  wo_others : forall h', h' <> h -> waiting_head h' -> lists (k_s k') !! h' = lists (k_s k) !! h';
  wo_current : current (k_s k') = current (k_s k);
  wo_tick : rt_tick (k_t k') = rt_tick (k_t k);
  wo_timer : 0 < timeout -> TThread c ∈ timer_list (k_t k') /\ timer_left (k_t k') (TThread c) = timeout;
}.

Lemma wait_on_spec R k c th h flag timeout td :
  kernel_wf k -> threads (k_s k) !! c = Some th -> is_ready th -> waiting_head h ->
  is_Some (lists (k_s k) !! h) -> ipc_flag_ok flag -> timeout <= max_delay ->
  exists k', wait_on (R := R) h c flag timeout td (set_th c (th_set_error RT_EOK th) k) =
      Some (k', Wait timeout (if 0 <? timeout then rt_tick (k_t k) else td)) /\
    kernel_wf k' /\ waits_on h c th timeout k k'.
Proof.
  intros Hk Ht Hrd Hw Hh Hfl Htime. set (th1 := th_set_error RT_EOK th).
  assert (kernel_wf (set_th c th1 k)) as Hk1 by (apply (kernel_put_same _ _ _ _ th); eauto with kernel).
  destruct (suspend_with_timeout_spec (set_th c th1 k) c th1 h flag timeout) as
    (k1 & k' & Hop & Hk' & Hp & Hks & Hko & Htk & Htm & _); try done; [simpl; by rewrite lookup_insert_eq|].
  unfold wait_on. rewrite Hop. simpl. unfold rt_tick_get. rewrite Htk. exists k'. splits; try done.
  destruct (pk_list _ _ _ _ _ _ Hp) as (l1 & l2 & Hl & Hl' & _).
  split; try done; try rewrite Hks.
  - by rewrite (pk_threads _ _ _ _ _ _ Hp), lookup_insert_eq.
  - by exists l1, l2.
  - apply (pk_others _ _ _ _ _ _ Hp).
  - apply (pk_current _ _ _ _ _ _ Hp).
Qed.

(** The first waiter of [h], if any, was resumed. *)
Definition handed (h : lhead) (k k' : kernel) (b : bool) : Prop :=
  match lists (k_s k) !! h with
  | Some (t :: l) => b = true /\ lists (k_s k') !! h = Some l /\ TThread t ∉ timer_list (k_t k') /\
      exists th, threads (k_s k) !! t = Some th /\ threads (k_s k') !! t = Some (make_ready th)
  | _ => b = false /\ k_s k' = k_s k
  end.

Lemma wake_first_spec k h :
  kernel_wf k -> waiting_head h -> is_Some (lists (k_s k) !! h) ->
  exists k' b, wake_first h k = Some (k', b) /\ kernel_wf k' /\ handed h k k' b /\
    k_o k' = k_o k /\ current (k_s k') = current (k_s k) /\ is_Some (lists (k_s k') !! h) /\
    forall h', h' <> h -> waiting_head h' -> lists (k_s k') !! h' = lists (k_s k) !! h'.
Proof.
  intros Hk Hw [l Hl]. unfold wake_first, handed. rewrite Hl. simpl. destruct l as [|t l].
  { exists k, false. splits; done. }
  destruct (rt_ipc_list_resume_spec ∅ 0 k h t l Hk Hw Hl) as
    (k1 & th & -> & Hk1 & Ht & Hst & Hwk & Hl1 & Hoth & Hobj & Htl & _). simpl.
  replace (∅ ∖ {[TThread t]}) with (∅ : gset timer_ptr) in Hk1 by set_solver.
  exists k1, true. splits; try done.
  - rewrite Htl. auto with lists.
  - exists th. by rewrite (wk_threads _ _ _ _ Hwk), lookup_insert_eq.
  - apply (wk_current _ _ _ _ Hwk).
Qed.

(** The final [rt_schedule] returns and does not touch what the objects see. *)
Lemma finish_spec R k c (r : step_result R) :
  kernel_wf k -> current (k_s k) = Some c ->
  exists k', finish (k, r) = Some (k', r) /\ kernel_wf k' /\ k_o k' = k_o k /\ k_t k' = k_t k /\
    same_frame (k_s k) (k_s k').
Proof.
  intros Hk Hc. destruct (kernel_schedule ∅ 0 k c Hk Hc) as (s' & Hop & Hk' & Hf & _).
  destruct r as [r [|]|a d]; simpl.
  - rewrite Hop. simpl. by exists (set_s s' k).
  - exists k. splits; try done. apply same_frame_refl.
  - rewrite Hop. simpl. by exists (set_s s' k).
Qed.

Lemma time_left_spec timeout td now d :
  timeout <= max_delay -> 0 <= d < 2147483648 -> u32 (now - td) = d ->
  time_left timeout td now = if 0 <? timeout then Z.max 0 (timeout - d) else timeout.
Proof.
  unfold time_left, max_delay. intros Ht Hd ->. destruct (Z.ltb_spec 0 timeout); [|done].
  rewrite s32_small by lia. destruct (Z.ltb_spec (timeout - d) 0); lia.
Qed.
