(* ===== verification/Mailbox.v ===== *)
(** * Mailboxes (rt-thread/src/ipc.c)

    A mailbox is a circular buffer of words with two waiting lists: receivers
    ([LSuspend]) and senders ([LSender]). A blocking call suspends in a loop; its
    local variables across [rt_schedule] are [timeout] and [tick_delta]. *)

From S2P Require Import Prelude RtList Sched SchedFacts Timer Kernel Thread Demo Ipc Ring Sem Blocking.

(** ** Operations *)

Definition get_mb (o : oid) (k : kernel) : option rt_mailbox :=
  match k_o k !! o with Some (IMailbox x) => Some x | _ => None end.
Definition put_mb (o : oid) (x : rt_mailbox) (k : kernel) : kernel := put_obj o (IMailbox x) k.

(** [pool] is the memory behind [msgpool]. *)
Definition rt_mb_init (o : oid) (pool : list Z) (size flag : Z) (k : kernel) : kernel * Z :=
  (put_mb o (Mailbox (u8 flag) pool (u16 size) 0 0 0)
     (rt_list_init_head (LSender o) (rt_ipc_object_init o k)), RT_EOK).

(** [obj] is what [rt_object_allocate] returns, [pool] what the heap returns for
    the pool. *)
Definition rt_mb_create (obj : option oid) (pool : option (list Z)) (size flag : Z) (k : kernel)
    : kernel * option oid :=
  match obj with
  | None => (k, None)
  | Some o =>
      match pool with
      | None => (free_obj o [LSuspend o] (rt_ipc_object_init o k), None)
      | Some pool =>
          (put_mb o (Mailbox (u8 flag) pool (u16 size) 0 0 0)
             (rt_list_init_head (LSender o) (rt_ipc_object_init o k)), Some o)
      end
  end.

Definition rt_mb_detach (o : oid) (k : kernel) : option (kernel * Z) :=
  _ ← get_mb o k; k ← rt_ipc_list_resume_all (LSuspend o) k;
  k ← rt_ipc_list_resume_all (LSender o) k; Some (k, RT_EOK).

Definition rt_mb_delete (o : oid) (k : kernel) : option (kernel * Z) :=
  _ ← get_mb o k; k ← rt_ipc_list_resume_all (LSuspend o) k;
  k ← rt_ipc_list_resume_all (LSender o) k;
  Some (free_obj o [LSuspend o; LSender o] k, RT_EOK).

(** [++ offset; if (offset >= size) offset = 0]. *)
Definition next_offset (size off : Z) : Z := if size <=? u16 (off + 1) then 0 else u16 (off + 1).

(** The mail is stored and the first waiting receiver resumed. *)
Definition mb_put (o : oid) (value : Z) (mb : rt_mailbox) (k : kernel) : option (kernel * bool) :=
  _ ← mb_pool mb !! Z.to_nat (mb_in_offset mb);
  let k := put_mb o (Mailbox (mb_flag mb) (<[Z.to_nat (mb_in_offset mb) := value]> (mb_pool mb)) (mb_size mb)
                       (u16 (mb_entry mb + 1)) (next_offset (mb_size mb) (mb_in_offset mb)) (mb_out_offset mb)) k in
  wake_first (LSuspend o) k.

(** The [while] test and what follows it, up to [rt_schedule] or the result. *)
Definition mb_send_loop (o : oid) (t : option tid) (value timeout tick_delta : Z) (k : kernel)
    : option (kernel * step_result Z) :=
  mb ← get_mb o k;
  if mb_entry mb =? mb_size mb then
    t ← t;
    k ← upd_th t (th_set_error RT_EOK) k;
    if timeout =? 0 then Some (k, Done (- RT_EFULL) false)
    else wait_on (LSender o) t (mb_flag mb) timeout tick_delta k
  else
    '(k, need_schedule) ← mb_put o value mb k; Some (k, Done RT_EOK need_schedule).

Definition rt_mb_send_wait_enter (o : oid) (value timeout : Z) (k : kernel) : option (kernel * step_result Z) :=
  mb ← get_mb o k;
  if (mb_entry mb =? mb_size mb) && (timeout =? 0) then Some (k, Done (- RT_EFULL) false)
  else mb_send_loop o (rt_thread_self k) value timeout 0 k.

(** Thread [t] runs again after the [rt_schedule] of the loop. *)
Definition rt_mb_send_wait_resume (o : oid) (t : tid) (value timeout tick_delta : Z) (k : kernel)
    : option (kernel * step_result Z) :=
  th ← threads (k_s k) !! t;
  if negb (th_error th =? RT_EOK) then Some (k, Done (th_error th) false)
  else mb_send_loop o (Some t) value (time_left timeout tick_delta (rt_tick_get (k_t k))) tick_delta k.

Definition rt_mb_send (o : oid) (value : Z) : kernel -> option (kernel * step_result Z) :=
  rt_mb_send_wait_enter o value 0.

(** The first mail is taken and the first waiting sender resumed. *)
Definition mb_get (o : oid) (mb : rt_mailbox) (k : kernel) : option (kernel * Z * bool) :=
  value ← mb_pool mb !! Z.to_nat (mb_out_offset mb);
  let k := put_mb o (Mailbox (mb_flag mb) (mb_pool mb) (mb_size mb) (u16 (mb_entry mb - 1))
                       (mb_in_offset mb) (next_offset (mb_size mb) (mb_out_offset mb))) k in
  '(k, need_schedule) ← wake_first (LSender o) k; Some (k, value, need_schedule).

(** A result of [rt_mb_recv]: the error code and what is stored at [value]. *)
Definition mb_recv_loop (o : oid) (t : option tid) (timeout tick_delta : Z) (k : kernel)
    : option (kernel * step_result (Z * option Z)) :=
  mb ← get_mb o k;
  if mb_entry mb =? 0 then
    t ← t;
    k ← upd_th t (th_set_error RT_EOK) k;
    if timeout =? 0 then
      k ← upd_th t (th_set_error (- RT_ETIMEOUT)) k; Some (k, Done (- RT_ETIMEOUT, None) false)
    else wait_on (LSuspend o) t (mb_flag mb) timeout tick_delta k
  else
    '(k, value, need_schedule) ← mb_get o mb k; Some (k, Done (RT_EOK, Some value) need_schedule).

Definition rt_mb_recv_enter (o : oid) (timeout : Z) (k : kernel) : option (kernel * step_result (Z * option Z)) :=
  mb ← get_mb o k;
  if (mb_entry mb =? 0) && (timeout =? 0) then Some (k, Done (- RT_ETIMEOUT, None) false)
  else mb_recv_loop o (rt_thread_self k) timeout 0 k.

Definition rt_mb_recv_resume (o : oid) (t : tid) (timeout tick_delta : Z) (k : kernel)
    : option (kernel * step_result (Z * option Z)) :=
  th ← threads (k_s k) !! t;
  if negb (th_error th =? RT_EOK) then Some (k, Done (th_error th, None) false)
  else mb_recv_loop o (Some t) (time_left timeout tick_delta (rt_tick_get (k_t k))) tick_delta k.

Definition rt_mb_control (o : oid) (cmd : Z) (k : kernel) : option (kernel * Z) :=
  mb ← get_mb o k;
  if cmd =? RT_IPC_CMD_RESET then
    k ← rt_ipc_list_resume_all (LSuspend o) k;
    k ← rt_ipc_list_resume_all (LSender o) k;
    k ← on_s rt_schedule (put_mb o (Mailbox (mb_flag mb) (mb_pool mb) (mb_size mb) 0 0 0) k);
    Some (k, RT_EOK)
  else Some (k, - RT_ERROR).

(** ** The mailbox as a queue *)

(** Mailbox [o] is well formed and holds the mails [q], first to last. *)
Record mailbox_repr (mb : rt_mailbox) (q : list Z) : Prop := {
  mr_flag : ipc_flag_ok (mb_flag mb);
  mr_size : mb_size mb = Z.of_nat (length (mb_pool mb)) /\ mb_size mb < 65536;
  mr_out : 0 <= mb_out_offset mb;
  mr_ring : ring_repr (mb_pool mb) (Z.to_nat (mb_out_offset mb)) q;
  mr_entry : mb_entry mb = Z.of_nat (length q);
  mr_in : mb_in_offset mb = Z.of_nat ((Z.to_nat (mb_out_offset mb) + length q) mod length (mb_pool mb));
}.

Definition mailbox_ok (o : oid) (k : kernel) (q : list Z) : Prop :=
  exists mb, k_o k !! o = Some (IMailbox mb) /\ mailbox_repr mb q /\
    is_Some (lists (k_s k) !! LSuspend o) /\ is_Some (lists (k_s k) !! LSender o).

Definition mb_capacity (o : oid) (k : kernel) : Z :=
  match get_mb o k with Some mb => mb_size mb | None => 0 end.

Lemma next_offset_ring size off n :
  size = Z.of_nat n -> size < 65536 -> 0 <= off < size ->
  next_offset size off = Z.of_nat (ring_next n (Z.to_nat off)).
Proof.
  intros -> Hs Ho. unfold next_offset, ring_next. rewrite u16_small by (unfold is_u16; lia).
  destruct (Z.leb_spec (Z.of_nat n) (off + 1)); case_decide; lia.
Qed.

Lemma next_offset_range size off : 0 < size -> 0 <= next_offset size off < size.
Proof.
  intros Hs. unfold next_offset. pose proof (u16_range (off + 1)) as Hr. unfold is_u16 in Hr.
  destruct (Z.leb_spec size (u16 (off + 1))); lia.
Qed.

(** The mailbox record after a mail is stored. *)
Lemma mb_stored mb q v :
  mailbox_repr mb q -> Z.of_nat (length q) < mb_size mb ->
  is_Some (mb_pool mb !! Z.to_nat (mb_in_offset mb)) /\
  mailbox_repr (Mailbox (mb_flag mb) (<[Z.to_nat (mb_in_offset mb) := v]> (mb_pool mb)) (mb_size mb)
    (u16 (mb_entry mb + 1)) (next_offset (mb_size mb) (mb_in_offset mb)) (mb_out_offset mb)) (q ++ [v]).
Proof.
  intros [Hfl [Hs Hmax] Ho Hr He Hi] Hlt. pose proof (rr_out _ _ _ Hr) as Hout.
  set (n := length (mb_pool mb)) in *. set (i := ((Z.to_nat (mb_out_offset mb) + length q) mod n)%nat) in *.
  assert (i < n)%nat as Hin by (apply Nat.mod_upper_bound; lia).
  assert (Z.to_nat (mb_in_offset mb) = i) as Ei by lia. rewrite Ei.
  split; [apply lookup_lt_is_Some; exact Hin|]. split; simpl; try done.
  - by rewrite length_insert.
  - apply ring_push; [done|]. fold n. lia.
  - rewrite u16_small, length_app by (unfold is_u16; lia). simpl. lia.
  - rewrite length_insert, length_app. simpl. fold n. rewrite (next_offset_ring _ _ n) by lia.
    rewrite Ei. unfold i. rewrite ring_in_next by lia. do 2 f_equal. lia.
Qed.

(** The mailbox record after a mail is taken. *)
Lemma mb_taken mb v q :
  mailbox_repr mb (v :: q) ->
  mb_pool mb !! Z.to_nat (mb_out_offset mb) = Some v /\
  mailbox_repr (Mailbox (mb_flag mb) (mb_pool mb) (mb_size mb) (u16 (mb_entry mb - 1))
    (mb_in_offset mb) (next_offset (mb_size mb) (mb_out_offset mb))) q.
Proof.
  intros [Hfl [Hs Hmax] Ho Hr He Hi]. pose proof (rr_out _ _ _ Hr) as Hout.
  pose proof (rr_len _ _ _ Hr) as Hlen. simpl in Hlen, He, Hi.
  destruct (ring_pop _ _ _ _ Hr) as [Hv Hr']. split; [done|].
  set (n := length (mb_pool mb)) in *.
  assert (Z.to_nat (next_offset (mb_size mb) (mb_out_offset mb)) = ring_next n (Z.to_nat (mb_out_offset mb))) as En
    by (rewrite (next_offset_ring _ _ n) by lia; lia).
  split; simpl; try done.
  - rewrite (next_offset_ring _ _ n) by lia. lia.
  - by rewrite En.
  - rewrite u16_small by (unfold is_u16; lia). lia.
  - rewrite En. fold n. by rewrite ring_next_mod by lia.
Qed.

Lemma get_mb_eq o k mb : k_o k !! o = Some (IMailbox mb) -> get_mb o k = Some mb.
Proof. unfold get_mb. by intros ->. Qed.

(** Neither the scheduler nor the waiting lists' contents matter. *)
Lemma mailbox_ok_frame o k k' q :
  mailbox_ok o k q -> k_o k' !! o = k_o k !! o ->
  (forall h, waiting_head h -> is_Some (lists (k_s k) !! h) -> is_Some (lists (k_s k') !! h)) -> mailbox_ok o k' q.
Proof. intros (mb & Ho & Hr & H1 & H2) E Hl. exists mb. rewrite E. splits; auto; by apply Hl. Qed.

Lemma same_frame_lists s s' h :
  same_frame s s' -> waiting_head h -> lists s' !! h = lists s !! h.
Proof. intros (_ & _ & Hl & _) Hw. apply Hl. by apply waiting_not_ready. Qed.

(** ** Storing and taking a mail *)

Lemma mb_put_spec o k mb q v :
  kernel_wf k -> k_o k !! o = Some (IMailbox mb) -> mailbox_repr mb q ->
  is_Some (lists (k_s k) !! LSuspend o) -> is_Some (lists (k_s k) !! LSender o) ->
  Z.of_nat (length q) < mb_size mb ->
  exists k' b, mb_put o v mb k = Some (k', b) /\ kernel_wf k' /\ mailbox_ok o k' (q ++ [v]) /\
    handed (LSuspend o) k k' b /\ current (k_s k') = current (k_s k).
Proof.
  intros Hk Ho Hr H1 H2 Hlt. destruct (mb_stored mb q v Hr Hlt) as [[w Hw] Hr']. unfold mb_put. rewrite Hw. simpl.
  set (x := Mailbox _ _ _ _ _ _). set (k1 := put_mb o x k).
  assert (kernel_wf k1) as Hk1 by (eapply kernel_same_obj; [exact Hk|exact Ho|eauto]).
  destruct (wake_first_spec k1 (LSuspend o) Hk1 I H1) as (k' & b & -> & Hk' & Hh & Hko & Hc & Hl & Hoth).
  exists k', b. splits; try done. exists x. rewrite Hko. splits; try done; [simpl; by rewrite lookup_insert_eq|by rewrite Hoth].
Qed.

Lemma mb_get_spec o k mb q v :
  kernel_wf k -> k_o k !! o = Some (IMailbox mb) -> mailbox_repr mb (v :: q) ->
  is_Some (lists (k_s k) !! LSuspend o) -> is_Some (lists (k_s k) !! LSender o) ->
  exists k' b, mb_get o mb k = Some (k', v, b) /\ kernel_wf k' /\ mailbox_ok o k' q /\
    handed (LSender o) k k' b /\ current (k_s k') = current (k_s k).
Proof.
  intros Hk Ho Hr H1 H2. destruct (mb_taken mb v q Hr) as [Hv Hr']. unfold mb_get. rewrite Hv. simpl.
  set (x := Mailbox _ _ _ _ _ _). set (k1 := put_mb o x k).
  assert (kernel_wf k1) as Hk1 by (eapply kernel_same_obj; [exact Hk|exact Ho|eauto]).
  destruct (wake_first_spec k1 (LSender o) Hk1 I H2) as (k' & b & -> & Hk' & Hh & Hko & Hc & Hl & Hoth). simpl.
  exists k', b. splits; try done. exists x. rewrite Hko. splits; try done; [simpl; by rewrite lookup_insert_eq|by rewrite Hoth].
Qed.

(** ** The loops *)

Definition tick_of (timeout td : Z) (k : kernel) : Z := if 0 <? timeout then rt_tick (k_t k) else td.

(** What a send by thread [c] does to mailbox [o], which holds [q]. *)
Definition send_outcome (o : oid) (c : tid) (th : rt_thread) (v timeout td : Z) (q : list Z)
    (k k' : kernel) (r : step_result Z) : Prop :=
  (Z.of_nat (length q) < mb_capacity o k ->
     exists b, r = Done RT_EOK b /\ mailbox_ok o k' (q ++ [v]) /\ handed (LSuspend o) k k' b) /\
  (Z.of_nat (length q) = mb_capacity o k -> mailbox_ok o k' q /\
     (timeout = 0 -> r = Done (- RT_EFULL) false /\ k_o k' = k_o k /\ lists (k_s k') = lists (k_s k)) /\
     (timeout <> 0 -> r = Wait timeout (tick_of timeout td k) /\ waits_on (LSender o) c th timeout k k')).

Definition recv_outcome (o : oid) (c : tid) (th : rt_thread) (timeout td : Z) (q : list Z)
    (k k' : kernel) (r : step_result (Z * option Z)) : Prop :=
  match q with
  | v :: q' => exists b, r = Done (RT_EOK, Some v) b /\ mailbox_ok o k' q' /\ handed (LSender o) k k' b
  | [] => mailbox_ok o k' [] /\
     (timeout = 0 -> r = Done (- RT_ETIMEOUT, None) false /\ k_o k' = k_o k /\ lists (k_s k') = lists (k_s k)) /\
     (timeout <> 0 -> r = Wait timeout (tick_of timeout td k) /\ waits_on (LSuspend o) c th timeout k k')
  end.

Lemma waits_on_mailbox o h c th timeout k k' q :
  waits_on h c th timeout k k' -> waiting_head h -> mailbox_ok o k q -> mailbox_ok o k' q.
Proof.
  intros Hw Hh Hok. apply (mailbox_ok_frame o k); [done|by rewrite (wo_objs _ _ _ _ _ _ Hw)|].
  intros h' Hh' Hl. destruct (decide (h' = h)) as [->|Hne].
  - destruct (wo_list _ _ _ _ _ _ Hw) as (l1 & l2 & _ & ->). by eexists.
  - by rewrite (wo_others _ _ _ _ _ _ Hw).
Qed.

Lemma mb_send_loop_spec o k c th v timeout td q :
  kernel_wf k -> mailbox_ok o k q -> current (k_s k) = Some c -> threads (k_s k) !! c = Some th -> is_ready th ->
  timeout <= max_delay ->
  exists k' r, mb_send_loop o (Some c) v timeout td k = Some (k', r) /\ kernel_wf k' /\
    current (k_s k') = Some c /\ send_outcome o c th v timeout td q k k' r.
Proof.
  intros Hk Hok Hc Ht Hrd Htime. pose proof Hok as (mb & Ho & Hr & H1 & H2).
  unfold mb_send_loop, send_outcome, mb_capacity. rewrite (get_mb_eq _ _ _ Ho). simpl.
  pose proof (mr_entry _ _ Hr) as He. destruct (mr_size _ _ Hr) as [Hs _]. pose proof (rr_len _ _ _ (mr_ring _ _ Hr)) as Hlen.
  destruct (Z.eqb_spec (mb_entry mb) (mb_size mb)) as [Hfull|Hroom].
  2:{ destruct (mb_put_spec o k mb q v Hk Ho Hr H1 H2) as (k' & b & -> & Hk' & Hok' & Hh & Hc'); [lia|]. simpl.
      eexists _, _. splits; [done|done|congruence|eauto|lia]. }
  rewrite (upd_th_eq _ _ _ _ Ht). simpl. destruct (Z.eqb_spec timeout 0) as [->|Hn0].
  - eexists _, _. splits; try done; [|lia].
    apply (kernel_put_same _ _ _ _ th); eauto with kernel.
  - destruct (wait_on_spec Z k c th (LSender o) (mb_flag mb) timeout td) as (k' & -> & Hk' & Hw);
      try done; [apply Hr|].
    eexists _, _. splits; try done; [by rewrite (wo_current _ _ _ _ _ _ Hw)|lia|].
    intros _. splits; try done. by eapply waits_on_mailbox.
Qed.

Lemma mb_recv_loop_spec o k c th timeout td q :
  kernel_wf k -> mailbox_ok o k q -> current (k_s k) = Some c -> threads (k_s k) !! c = Some th -> is_ready th ->
  timeout <= max_delay ->
  exists k' r, mb_recv_loop o (Some c) timeout td k = Some (k', r) /\ kernel_wf k' /\
    current (k_s k') = Some c /\ recv_outcome o c th timeout td q k k' r.
Proof.
  intros Hk Hok Hc Ht Hrd Htime. pose proof Hok as (mb & Ho & Hr & H1 & H2).
  unfold mb_recv_loop, recv_outcome. rewrite (get_mb_eq _ _ _ Ho). simpl.
  pose proof (mr_entry _ _ Hr) as He. destruct q as [|v q]; simpl in He; rewrite He.
  2:{ destruct (Z.eqb_spec (Z.of_nat (S (length q))) 0); [lia|].
      destruct (mb_get_spec o k mb q v Hk Ho Hr H1 H2) as (k' & b & -> & Hk' & Hok' & Hh & Hc'). simpl.
      eexists _, _. splits; [done|done|congruence|eauto]. }
  simpl. rewrite (upd_th_eq _ _ _ _ Ht). simpl. destruct (Z.eqb_spec timeout 0) as [->|Hn0].
  - set (k1 := set_th c _ k). rewrite (upd_th_eq c _ k1 (th_set_error RT_EOK th)) by (simpl; by rewrite lookup_insert_eq).
    assert (kernel_wf k1) as Hk1 by (apply (kernel_put_same _ _ _ _ th); eauto with kernel).
    eexists _, _. splits; try done.
    apply (kernel_put_same _ _ _ _ (th_set_error RT_EOK th)); eauto with kernel. simpl. by rewrite lookup_insert_eq.
  - destruct (wait_on_spec (Z * option Z) k c th (LSuspend o) (mb_flag mb) timeout td) as (k' & -> & Hk' & Hw);
      try done; [apply Hr|].
    eexists _, _. splits; try done; [by rewrite (wo_current _ _ _ _ _ _ Hw)|].
    by eapply waits_on_mailbox.
Qed.

(** ** Properties *)

Lemma finish_mailbox R o k c (r : step_result R) :
  kernel_wf k -> current (k_s k) = Some c ->
  exists k', finish (k, r) = Some (k', r) /\ kernel_wf k' /\ forall q, mailbox_ok o k q -> mailbox_ok o k' q.
Proof.
  intros Hk Hc. destruct (finish_spec R k c r Hk Hc) as (k' & Hop & Hk' & Hko & _ & Hf). exists k'. splits; try done.
  intros q Hok. apply (mailbox_ok_frame o k); [done|by rewrite Hko|]. intros h Hw. by rewrite (same_frame_lists _ _ _ Hf Hw).
Qed.

(** C15: [rt_mb_send_wait] implements the bounded FIFO queue: on a mailbox that
    holds [q] and is not full it appends the mail, returns [RT_EOK] and resumes
    the first waiting receiver; on a full one it returns [-RT_EFULL] without
    waiting time, and otherwise suspends the running thread on the senders' list
    with its timer armed, leaving [q] alone. It reaches [rt_schedule] or
    returns, with the kernel well formed. *)
Theorem rt_mb_send_fifo (k : kernel) (o : oid) (c : tid) (th : rt_thread) (v timeout : Z) (q : list Z) :
  kernel_wf k -> mailbox_ok o k q -> current (k_s k) = Some c -> threads (k_s k) !! c = Some th -> is_ready th ->
  timeout <= max_delay ->
  exists k1 r k2, rt_mb_send_wait_enter o v timeout k = Some (k1, r) /\ finish (k1, r) = Some (k2, r) /\
    kernel_wf k2 /\ send_outcome o c th v timeout 0 q k k1 r /\
    forall q', mailbox_ok o k1 q' -> mailbox_ok o k2 q'.
Proof.
  intros Hk Hok Hc Ht Hrd Htime. pose proof Hok as (mb & Ho & Hr & _ & _).
  unfold rt_mb_send_wait_enter. rewrite (get_mb_eq _ _ _ Ho). simpl.
  destruct ((mb_entry mb =? mb_size mb) && (timeout =? 0)) eqn:E.
  - apply andb_true_iff in E as [E1%Z.eqb_eq E2%Z.eqb_eq].
    destruct (finish_mailbox Z o k c (Done (- RT_EFULL) false) Hk Hc) as (k2 & Hop & Hk2 & Hok2).
    exists k, (Done (- RT_EFULL) false), k2. splits; try done. unfold send_outcome, mb_capacity.
    rewrite (get_mb_eq _ _ _ Ho), <-E1, (mr_entry _ _ Hr). split; [lia|]. done.
  - unfold rt_thread_self. rewrite Hc.
    destruct (mb_send_loop_spec o k c th v timeout 0 q Hk Hok Hc Ht Hrd Htime) as (k1 & r & Hop & Hk1 & Hc1 & Hout).
    destruct (finish_mailbox Z o k1 c r Hk1 Hc1) as (k2 & Hop2 & Hk2 & Hok2). by exists k1, r, k2.
Qed.

(** [rt_mb_recv] implements the bounded FIFO queue: from a mailbox that
    holds [v :: q] it returns [RT_EOK] with [v], leaves [q] and resumes the first
    waiting sender; from an empty one it returns [-RT_ETIMEOUT] without waiting
    time, and otherwise suspends the running thread on the receivers' list with
    its timer armed. *)
Theorem rt_mb_recv_fifo (k : kernel) (o : oid) (c : tid) (th : rt_thread) (timeout : Z) (q : list Z) :
  kernel_wf k -> mailbox_ok o k q -> current (k_s k) = Some c -> threads (k_s k) !! c = Some th -> is_ready th ->
  timeout <= max_delay ->
  exists k1 r k2, rt_mb_recv_enter o timeout k = Some (k1, r) /\ finish (k1, r) = Some (k2, r) /\
    kernel_wf k2 /\ recv_outcome o c th timeout 0 q k k1 r /\
    forall q', mailbox_ok o k1 q' -> mailbox_ok o k2 q'.
Proof.
  intros Hk Hok Hc Ht Hrd Htime. pose proof Hok as (mb & Ho & Hr & _ & _).
  unfold rt_mb_recv_enter. rewrite (get_mb_eq _ _ _ Ho). simpl.
  destruct ((mb_entry mb =? 0) && (timeout =? 0)) eqn:E.
  - apply andb_true_iff in E as [E1%Z.eqb_eq E2%Z.eqb_eq].
    destruct (finish_mailbox (Z * option Z) o k c (Done (- RT_ETIMEOUT, None) false) Hk Hc) as (k2 & Hop & Hk2 & Hok2).
    exists k, (Done (- RT_ETIMEOUT, None) false), k2. splits; try done.
    rewrite (mr_entry _ _ Hr) in E1. by destruct q.
  - unfold rt_thread_self. rewrite Hc.
    destruct (mb_recv_loop_spec o k c th timeout 0 q Hk Hok Hc Ht Hrd Htime) as (k1 & r & Hop & Hk1 & Hc1 & Hout).
    destruct (finish_mailbox _ o k1 c r Hk1 Hc1) as (k2 & Hop2 & Hk2 & Hok2). by exists k1, r, k2.
Qed.

(** A thread that runs again after waiting in [rt_mb_send_wait] or
    [rt_mb_recv] returns the error it was woken with, if any; woken without
    error it tries again, and waits again only for what is left of its waiting
    time after the [d] ticks that passed since [tick_delta] (also across a wrap
    of the tick counter), a waiting time used up counting as 0. *)
Theorem rt_mb_resume_outcome (k : kernel) (o : oid) (c : tid) (th : rt_thread) (v timeout td d : Z) (q : list Z) :
  kernel_wf k -> mailbox_ok o k q -> current (k_s k) = Some c -> threads (k_s k) !! c = Some th -> is_ready th ->
  timeout <= max_delay -> 0 <= d < 2147483648 -> u32 (rt_tick (k_t k) - td) = d ->
  let left := if 0 <? timeout then Z.max 0 (timeout - d) else timeout in
  (th_error th <> RT_EOK ->
     rt_mb_send_wait_resume o c v timeout td k = Some (k, Done (th_error th) false) /\
     rt_mb_recv_resume o c timeout td k = Some (k, Done (th_error th, None) false)) /\
  (th_error th = RT_EOK ->
     (exists k1 r, rt_mb_send_wait_resume o c v timeout td k = Some (k1, r) /\ kernel_wf k1 /\
        send_outcome o c th v left td q k k1 r) /\
     (exists k1 r, rt_mb_recv_resume o c timeout td k = Some (k1, r) /\ kernel_wf k1 /\
        recv_outcome o c th left td q k k1 r)).
Proof.
  intros Hk Hok Hc Ht Hrd Htime Hd Hu left. unfold rt_mb_send_wait_resume, rt_mb_recv_resume.
  rewrite Ht. simpl. split; intros He.
  - rewrite (proj2 (Z.eqb_neq _ _) He). done.
  - rewrite He. simpl. unfold rt_tick_get. rewrite (time_left_spec timeout td (rt_tick (k_t k)) d) by done. fold left.
    assert (left <= max_delay) as Hleft by (unfold left, max_delay in *; destruct (0 <? timeout); lia). split.
    + destruct (mb_send_loop_spec o k c th v left td q Hk Hok Hc Ht Hrd Hleft) as (k1 & r & Hop & Hk1 & _ & Hout). eauto.
    + destruct (mb_recv_loop_spec o k c th left td q Hk Hok Hc Ht Hrd Hleft) as (k1 & r & Hop & Hk1 & _ & Hout). eauto.
Qed.

(** ** Witnesses *)

Lemma demo_mailbox_ok : mailbox_ok 3 demo_k [].
Proof.
  exists (Mailbox 0 [0; 0] 2 0 0 0). split; [vm_compute; reflexivity|]. split; [|split; eexists; vm_compute; reflexivity].
  split; simpl; try lia; try done; [by left|]. apply ring_empty. simpl. lia.
Qed.

(** Thread 10 waits for a mail. *)
Example rt_mb_send_fifo_witness :
  exists k1 r k2, rt_mb_send_wait_enter 3 77 0 demo_k = Some (k1, r) /\ finish (k1, r) = Some (k2, r) /\
    kernel_wf k2 /\ send_outcome 3 1 (demo_th 1 20 0 0) 77 0 0 [] demo_k k1 r /\
    forall q', mailbox_ok 3 k1 q' -> mailbox_ok 3 k2 q'.
Proof.
  apply (rt_mb_send_fifo demo_k 3 1 (demo_th 1 20 0 0) 77 0 [] demo_k_wf demo_mailbox_ok).
  - reflexivity.
  - vm_compute. reflexivity.
  - reflexivity.
  - unfold max_delay. lia.
Defined.

Example rt_mb_recv_fifo_witness :
  exists k1 r k2, rt_mb_recv_enter 3 7 demo_k = Some (k1, r) /\ finish (k1, r) = Some (k2, r) /\
    kernel_wf k2 /\ recv_outcome 3 1 (demo_th 1 20 0 0) 7 0 [] demo_k k1 r /\
    forall q', mailbox_ok 3 k1 q' -> mailbox_ok 3 k2 q'.
Proof.
  apply (rt_mb_recv_fifo demo_k 3 1 (demo_th 1 20 0 0) 7 [] demo_k_wf demo_mailbox_ok).
  - reflexivity.
  - vm_compute. reflexivity.
  - reflexivity.
  - unfold max_delay. lia.
Defined.

(** The clock stands at 100; the thread had 10 ticks left at 95. *)
Example rt_mb_resume_outcome_witness :
  exists k1 r, rt_mb_recv_resume 3 1 10 95 demo_k = Some (k1, r) /\ kernel_wf k1 /\
    recv_outcome 3 1 (demo_th 1 20 0 0) 5 95 [] demo_k k1 r.
Proof.
  destruct (rt_mb_resume_outcome demo_k 3 1 (demo_th 1 20 0 0) 77 10 95 5 [] demo_k_wf demo_mailbox_ok) as [_ H].
  - reflexivity.
  - vm_compute. reflexivity.
  - reflexivity.
  - unfold max_delay. lia.
  - lia.
  - reflexivity.
  - destruct H as [_ H]; [reflexivity|]. exact H.
Defined.
