(* ===== verification/MsgQueue.v ===== *)
(** * Message queues (rt-thread/src/ipc.c)

    The message nodes live in a pool; each is on the free list, on the message
    list, or in the hands of one call: a sender fills its node, and a receiver
    copies out of its node, with interrupts enabled, between two critical
    sections. The sections are operations on the queue record, composed by the
    kernel calls. *)

From S2P Require Import Prelude RtList Sched SchedFacts Timer Kernel Thread Demo Ipc Sem Blocking.

(** ** The critical sections, on the queue record *)

Definition mq_set_pool x mq :=
  Mq (mq_flag mq) x (mq_msg_size mq) (mq_max_msgs mq) (mq_entry mq) (mq_head mq) (mq_tail mq) (mq_free mq).
Definition mq_set_entry x mq :=
  Mq (mq_flag mq) (mq_pool mq) (mq_msg_size mq) (mq_max_msgs mq) x (mq_head mq) (mq_tail mq) (mq_free mq).
Definition mq_set_ends hd tl mq :=
  Mq (mq_flag mq) (mq_pool mq) (mq_msg_size mq) (mq_max_msgs mq) (mq_entry mq) hd tl (mq_free mq).
Definition mq_set_free x mq :=
  Mq (mq_flag mq) (mq_pool mq) (mq_msg_size mq) (mq_max_msgs mq) (mq_entry mq) (mq_head mq) (mq_tail mq) x.

Definition mq_upd_node (msg : nat) (f : mq_node -> mq_node) (mq : rt_messagequeue) : option rt_messagequeue :=
  nd ← mq_pool mq !! msg; Some (mq_set_pool (<[msg := f nd]> (mq_pool mq)) mq).
Definition mq_set_next (msg : nat) (p : option nat) : rt_messagequeue -> option rt_messagequeue :=
  mq_upd_node msg (fun nd => MqNode p (mn_data nd)).

(** Taking a node off the free list; no node when the queue is full. *)
Definition mq_alloc (mq : rt_messagequeue) : option (rt_messagequeue * option nat) :=
  match mq_free mq with
  | None => Some (mq, None)
  | Some msg => nd ← mq_pool mq !! msg; Some (mq_set_free (mn_next nd) mq, Some msg)
  end.

(** [rt_memcpy(msg + 1, buffer, size)]. *)
Definition mq_copy_in (msg : nat) (buffer : list Z) : rt_messagequeue -> option rt_messagequeue :=
  mq_upd_node msg (fun nd => MqNode (mn_next nd) (buffer ++ drop (length buffer) (mn_data nd))).

(** What [rt_mq_send] does to its node between the critical sections. *)
Definition mq_fill (msg : nat) (buffer : list Z) (urgent : bool) (mq : rt_messagequeue) : option rt_messagequeue :=
  mq ← (if urgent then Some mq else mq_set_next msg None mq);
  mq_copy_in msg buffer mq.

Definition mq_link_tail (msg : nat) (mq : rt_messagequeue) : option rt_messagequeue :=
  mq ← (match mq_tail mq with Some t => mq_set_next t (Some msg) mq | None => Some mq end);
  let mq := mq_set_ends (match mq_head mq with None => Some msg | h => h end) (Some msg) mq in
  Some (mq_set_entry (u16 (mq_entry mq + 1)) mq).

Definition mq_link_head (msg : nat) (mq : rt_messagequeue) : option rt_messagequeue :=
  mq ← mq_set_next msg (mq_head mq) mq;
  let mq := mq_set_ends (Some msg) (match mq_tail mq with None => Some msg | t => t end) mq in
  Some (mq_set_entry (u16 (mq_entry mq + 1)) mq).

Definition mq_link (msg : nat) (urgent : bool) : rt_messagequeue -> option rt_messagequeue :=
  if urgent then mq_link_head msg else mq_link_tail msg.

(** Taking the first node off the message list. *)
Definition mq_unlink_head (mq : rt_messagequeue) : option (rt_messagequeue * nat) :=
  msg ← mq_head mq;
  nd ← mq_pool mq !! msg;
  Some (mq_set_ends (mn_next nd) (if bool_decide (mq_tail mq = Some msg) then None else mq_tail mq) mq, msg).

Definition mq_take (mq : rt_messagequeue) : option (rt_messagequeue * nat) :=
  '(mq, msg) ← mq_unlink_head mq; Some (mq_set_entry (u16 (mq_entry mq - 1)) mq, msg).

(** [rt_memcpy(buffer, msg + 1, size > mq->msg_size ? mq->msg_size : size)]. *)
Definition mq_copy_out (msg : nat) (size : Z) (mq : rt_messagequeue) : option (list Z) :=
  nd ← mq_pool mq !! msg;
  Some (take (Z.to_nat (if mq_msg_size mq <? size then mq_msg_size mq else size)) (mn_data nd)).

Definition mq_release (msg : nat) (mq : rt_messagequeue) : option rt_messagequeue :=
  mq ← mq_set_next msg (mq_free mq) mq; Some (mq_set_free (Some msg) mq).

(** The loop of [RT_IPC_CMD_RESET]. *)
Fixpoint mq_flush (fuel : nat) (mq : rt_messagequeue) : option rt_messagequeue :=
  match mq_head mq, fuel with
  | None, _ => Some mq
  | Some _, O => None
  | Some _, S fuel =>
      '(mq, msg) ← mq_unlink_head mq;
      mq ← mq_release msg mq;
      mq_flush fuel mq
  end.

(** The free list of a fresh pool; [mem] is what the memory holds. *)
Definition mq_init_pool (mem : nat -> list Z) (mq : rt_messagequeue) : rt_messagequeue :=
  foldl (fun mq temp =>
           mq_set_free (Some temp) (mq_set_pool (<[temp := MqNode (mq_free mq) (mem temp)]> (mq_pool mq)) mq))
    mq (seq 0 (Z.to_nat (mq_max_msgs mq))).

(** ** The kernel calls *)

Definition get_mq (o : oid) (k : kernel) : option rt_messagequeue :=
  match k_o k !! o with Some (IMq x) => Some x | _ => None end.
Definition put_mq (o : oid) (x : rt_messagequeue) (k : kernel) : kernel := put_obj o (IMq x) k.

Definition rt_mq_init (o : oid) (mem : nat -> list Z) (msg_size pool_size flag : Z) (k : kernel) : kernel * Z :=
  let msz := u16 (RT_ALIGN msg_size 4) in
  let mq := mq_init_pool mem (Mq (u8 flag) ∅ msz (u16 (pool_size / (msz + 4))) 0 None None None) in
  (put_mq o mq (rt_ipc_object_init o k), RT_EOK).

Definition rt_mq_detach (o : oid) (k : kernel) : option (kernel * Z) :=
  _ ← get_mq o k; k ← rt_ipc_list_resume_all (LSuspend o) k; Some (k, RT_EOK).

Definition rt_mq_delete (o : oid) (k : kernel) : option (kernel * Z) :=
  _ ← get_mq o k; k ← rt_ipc_list_resume_all (LSuspend o) k;
  Some (free_obj o [LSuspend o] k, RT_EOK).

(** [obj]: the allocated object; [pool]: what the allocated pool's memory holds. *)
Definition rt_mq_create (obj : option oid) (pool : option (nat -> list Z)) (msg_size max_msgs flag : Z)
    (k : kernel) : option (kernel * option oid) :=
  match obj with
  | None => Some (k, None)
  | Some o =>
      let mq := Mq (u8 flag) ∅ (u16 (RT_ALIGN msg_size 4)) (u16 max_msgs) 0 None None None in
      let k := put_mq o mq (rt_ipc_object_init o k) in
      match pool with
      | None => '(k, _) ← rt_mq_delete o k; Some (k, None)
      | Some mem => Some (put_mq o (mq_init_pool mem mq) k, Some o)
      end
  end.

(** [rt_mq_send] and, with [urgent], [rt_mq_urgent]. *)
Definition mq_send (o : oid) (buffer : list Z) (urgent : bool) (k : kernel) : option (kernel * step_result Z) :=
  mq ← get_mq o k;
  if mq_msg_size mq <? Z.of_nat (length buffer) then Some (k, Done (- RT_ERROR) false)
  else
    '(mq, msg) ← mq_alloc mq;
    match msg with
    | None => Some (put_mq o mq k, Done (- RT_EFULL) false)
    | Some msg =>
        mq ← mq_fill msg buffer urgent mq;
        mq ← mq_link msg urgent mq;
        '(k, need_schedule) ← wake_first (LSuspend o) (put_mq o mq k);
        Some (k, Done RT_EOK need_schedule)
    end.
Definition rt_mq_send (o : oid) (buffer : list Z) : kernel -> option (kernel * step_result Z) :=
  mq_send o buffer false.
Definition rt_mq_urgent (o : oid) (buffer : list Z) : kernel -> option (kernel * step_result Z) :=
  mq_send o buffer true.

(** The result of [rt_mq_recv]: the error code and what is copied out. *)
Definition mq_recv_loop (o : oid) (t : option tid) (size timeout tick_delta : Z) (k : kernel)
    : option (kernel * step_result (Z * option (list Z))) :=
  mq ← get_mq o k;
  if mq_entry mq =? 0 then
    t ← t;
    k ← upd_th t (th_set_error RT_EOK) k;
    if timeout =? 0 then
      k ← upd_th t (th_set_error (- RT_ETIMEOUT)) k; Some (k, Done (- RT_ETIMEOUT, None) false)
    else wait_on (LSuspend o) t (mq_flag mq) timeout tick_delta k
  else
    '(mq, msg) ← mq_take mq;
    data ← mq_copy_out msg size mq;
    mq ← mq_release msg mq;
    Some (put_mq o mq k, Done (RT_EOK, Some data) false).

Definition rt_mq_recv_enter (o : oid) (size timeout : Z) (k : kernel)
    : option (kernel * step_result (Z * option (list Z))) :=
  mq ← get_mq o k;
  if (mq_entry mq =? 0) && (timeout =? 0) then Some (k, Done (- RT_ETIMEOUT, None) false)
  else mq_recv_loop o (rt_thread_self k) size timeout 0 k.

Definition rt_mq_recv_resume (o : oid) (t : tid) (size timeout tick_delta : Z) (k : kernel)
    : option (kernel * step_result (Z * option (list Z))) :=
  th ← threads (k_s k) !! t;
  if negb (th_error th =? RT_EOK) then Some (k, Done (th_error th, None) false)
  else mq_recv_loop o (Some t) size (time_left timeout tick_delta (rt_tick_get (k_t k))) tick_delta k.

Definition rt_mq_control (o : oid) (cmd : Z) (k : kernel) : option (kernel * Z) :=
  mq ← get_mq o k;
  if cmd =? RT_IPC_CMD_RESET then
    k ← rt_ipc_list_resume_all (LSuspend o) k;
    mq ← mq_flush (Z.to_nat (mq_max_msgs mq)) mq;
    k ← on_s rt_schedule (put_mq o (mq_set_entry 0 mq) k);
    Some (k, RT_EOK)
  else Some (k, - RT_ERROR).

(** ** The lists of nodes *)

(** [p] points to a chain of nodes [l] that ends with a null pointer. *)
Fixpoint chain (pool : gmap nat mq_node) (p : option nat) (l : list nat) : Prop :=
  match l with
  | [] => p = None
  | x :: l => p = Some x /\ exists nd, pool !! x = Some nd /\ chain pool (mn_next nd) l
  end.

Definition cell (pool : gmap nat mq_node) (i : nat) : list Z := default [] (mn_data <$> pool !! i).

(** A queue whose message list is [qs] and free list [fs]; the nodes [infl] are
    held by calls between their critical sections. *)
Record mq_repr (mq : rt_messagequeue) (qs fs infl : list nat) : Prop := {
  qr_flag : ipc_flag_ok (mq_flag mq);
  qr_queue : chain (mq_pool mq) (mq_head mq) qs;
  qr_free : chain (mq_pool mq) (mq_free mq) fs;
  qr_tail : mq_tail mq = last qs;
  qr_entry : mq_entry mq = Z.of_nat (length qs);
  qr_max : 0 <= mq_max_msgs mq < 65536;
  qr_nodes : qs ++ fs ++ infl ≡ₚ seq 0 (Z.to_nat (mq_max_msgs mq));
  qr_cells : forall i, (i < Z.to_nat (mq_max_msgs mq))%nat ->
    exists nd, mq_pool mq !! i = Some nd /\ Z.of_nat (length (mn_data nd)) = mq_msg_size mq;
}.

Lemma chain_notin pool x nd l : forall p, x ∉ l -> chain pool p l -> chain (<[x := nd]> pool) p l.
Proof.
  induction l as [|y l IH]; intros p; simpl; [done|].
  rewrite not_elem_of_cons. intros [Hne Hni] (-> & nd' & Hy & Hc). split; [done|]. exists nd'.
  rewrite lookup_insert_ne by done. auto.
Qed.

(** A node is replaced that only a call holds: the lists stay. *)
Lemma mq_repr_node mq qs fs infl m nd' :
  mq_repr mq qs fs infl -> m ∈ infl -> Z.of_nat (length (mn_data nd')) = mq_msg_size mq ->
  mq_repr (mq_set_pool (<[m := nd']> (mq_pool mq)) mq) qs fs infl.
Proof.
  intros [Hf Hq Hfr Ht He Hm Hn Hc] Hin Hlen.
  assert (NoDup (qs ++ fs ++ infl)) as Hnd by (rewrite Hn; apply NoDup_seq).
  apply NoDup_app in Hnd as (_ & Hd1 & (_ & Hd2 & _)%NoDup_app).
  split; simpl; try done.
  - apply chain_notin; [|done]. intros Hx. apply (Hd1 m Hx). set_solver.
  - apply chain_notin; [|done]. intros Hx. by apply (Hd2 m Hx).
  - intros i Hi. destruct (decide (i = m)) as [->|Hne].
    + rewrite lookup_insert_eq. eauto.
    + rewrite lookup_insert_ne by done. auto.
Qed.

Lemma mq_repr_has mq qs fs infl m :
  mq_repr mq qs fs infl -> m ∈ qs ++ fs ++ infl ->
  exists nd, mq_pool mq !! m = Some nd /\ Z.of_nat (length (mn_data nd)) = mq_msg_size mq.
Proof.
  intros Hr Hin. apply (qr_cells _ _ _ _ Hr). rewrite (qr_nodes _ _ _ _ Hr) in Hin. apply elem_of_seq in Hin. lia.
Qed.

(** The cells of the messages, and of the nodes that calls hold. *)
Definition same_cells (mq mq' : rt_messagequeue) : Prop :=
  (forall i, cell (mq_pool mq') i = cell (mq_pool mq) i) /\ mq_msg_size mq' = mq_msg_size mq.

Lemma same_cells_refl mq : same_cells mq mq.
Proof. done. Qed.

Lemma same_cells_next mq m nd p :
  mq_pool mq !! m = Some nd ->
  forall i, cell (<[m := MqNode p (mn_data nd)]> (mq_pool mq)) i = cell (mq_pool mq) i.
Proof.
  intros Hm i. unfold cell. destruct (decide (i = m)) as [->|Hne].
  - by rewrite lookup_insert_eq, Hm.
  - by rewrite lookup_insert_ne.
Qed.

(** *** Allocation and release *)

Lemma mq_alloc_spec mq qs fs infl :
  mq_repr mq qs fs infl ->
  match fs with
  | [] => mq_alloc mq = Some (mq, None)
  | m :: fs' => exists mq', mq_alloc mq = Some (mq', Some m) /\ mq_repr mq' qs fs' (m :: infl) /\ same_cells mq mq'
  end.
Proof.
  intros [Hf Hq Hfr Ht He Hm Hn Hc]. unfold mq_alloc. destruct fs as [|m fs]; simpl in Hfr.
  - by rewrite Hfr.
  - destruct Hfr as (-> & nd & Hnd & Hch). rewrite Hnd. simpl. eexists. split; [done|]. split; [|by split].
    split; simpl; try done. rewrite <-Hn. simpl. by rewrite <-(Permutation_middle fs infl m).
Qed.

Lemma mq_release_spec mq qs fs infl m :
  mq_repr mq qs fs (m :: infl) ->
  exists mq', mq_release m mq = Some mq' /\ mq_repr mq' qs (m :: fs) infl /\ same_cells mq mq' /\
    mq_entry mq' = mq_entry mq /\ mq_max_msgs mq' = mq_max_msgs mq.
Proof.
  intros Hr. destruct (mq_repr_has _ _ _ _ m Hr) as (nd & Hnd & Hlen); [set_solver|].
  unfold mq_release, mq_set_next, mq_upd_node. rewrite Hnd. simpl. eexists. split; [done|].
  pose proof (mq_repr_node _ _ _ _ m (MqNode (mq_free mq) (mn_data nd)) Hr ltac:(by left) Hlen) as [Hf Hq Hfr Ht He Hm Hn Hc].
  split; [|split; [split; [by apply same_cells_next|done]|done]].
  split; simpl in *; try done.
  - split; [done|]. exists (MqNode (mq_free mq) (mn_data nd)). rewrite lookup_insert_eq. done.
  - rewrite <-Hn. by rewrite <-(Permutation_middle fs infl m).
Qed.

(** *** Filling a node *)

Lemma length_copy {A} (b d : list A) : (length b <= length d)%nat -> length (b ++ drop (length b) d) = length d.
Proof. intros. rewrite length_app, length_drop. lia. Qed.

Lemma mq_fill_spec mq qs fs infl m buf (urgent : bool) :
  mq_repr mq qs fs infl -> m ∈ infl -> Z.of_nat (length buf) <= mq_msg_size mq ->
  exists mq' nd', mq_fill m buf urgent mq = Some mq' /\ mq_repr mq' qs fs infl /\ mq_msg_size mq' = mq_msg_size mq /\
    mq_pool mq' !! m = Some nd' /\ (urgent = false -> mn_next nd' = None) /\
    mn_data nd' = buf ++ drop (length buf) (cell (mq_pool mq) m) /\
    forall i, i <> m -> mq_pool mq' !! i = mq_pool mq !! i.
Proof.
  intros Hr Hin Hlen. destruct (mq_repr_has _ _ _ _ m Hr) as (nd & Hnd & Hlnd); [set_solver|].
  assert (cell (mq_pool mq) m = mn_data nd) as Ec by (unfold cell; by rewrite Hnd).
  assert (Z.of_nat (length (buf ++ drop (length buf) (mn_data nd))) = mq_msg_size mq) as Hl'
    by (rewrite length_copy; lia).
  unfold mq_fill, mq_set_next, mq_copy_in, mq_upd_node. rewrite Ec. destruct urgent; simpl; rewrite Hnd; simpl.
  - eexists _, _. split; [done|]. simpl. rewrite lookup_insert_eq. splits; try done.
    + by apply mq_repr_node.
    + intros. by rewrite lookup_insert_ne.
  - rewrite lookup_insert_eq. simpl. eexists _, _. split; [done|]. simpl. rewrite lookup_insert_eq, insert_insert_eq.
    splits; try done.
    + exact (mq_repr_node mq qs fs infl m (MqNode None (buf ++ drop (length buf) (mn_data nd))) Hr Hin Hl').
    + intros. by rewrite lookup_insert_ne.
Qed.

(** *** Linking a node *)

Lemma chain_snoc pool t m ndt nd l : forall p,
  chain pool p (l ++ [t]) -> NoDup (l ++ [t; m]) ->
  pool !! t = Some ndt -> pool !! m = Some nd -> mn_next nd = None ->
  chain (<[t := MqNode (Some m) (mn_data ndt)]> pool) p (l ++ [t; m]).
Proof.
  induction l as [|x l IH]; intros p; simpl.
  - intros (-> & _) Hnd Ht Hm Hn. split; [done|]. eexists. rewrite lookup_insert_eq. split; [done|]. simpl.
    split; [done|]. exists nd. rewrite lookup_insert_ne; [done|]. intros ->.
    apply NoDup_cons in Hnd as [Hnd _]. set_solver.
  - intros (-> & ndx & Hx & Hc) [Hni Hnd]%NoDup_cons Ht Hm Hn. split; [done|]. exists ndx.
    rewrite lookup_insert_ne by set_solver. auto.
Qed.

Lemma mq_room mq qs fs infl m : mq_repr mq qs fs (m :: infl) -> (length qs < Z.to_nat (mq_max_msgs mq))%nat.
Proof.
  intros Hr. pose proof (Permutation_length (qr_nodes _ _ _ _ Hr)) as Hl.
  rewrite !length_app, length_seq in Hl. simpl in Hl. lia.
Qed.

Lemma mq_entry_succ mq qs fs infl m :
  mq_repr mq qs fs (m :: infl) -> u16 (mq_entry mq + 1) = Z.of_nat (S (length qs)).
Proof.
  intros Hr. pose proof (mq_room _ _ _ _ _ Hr). pose proof (qr_max _ _ _ _ Hr). pose proof (qr_entry _ _ _ _ Hr).
  rewrite u16_small by (unfold is_u16; lia). lia.
Qed.

Lemma mq_held_notin mq qs fs infl m :
  mq_repr mq qs fs (m :: infl) -> m ∉ qs /\ m ∉ fs /\ NoDup qs /\ (forall x, x ∈ qs -> x ∉ fs).
Proof.
  intros Hr. assert (NoDup (qs ++ fs ++ m :: infl)) as Hnd by (rewrite (qr_nodes _ _ _ _ Hr); apply NoDup_seq).
  apply NoDup_app in Hnd as (Hq & Hd1 & (_ & Hd2 & _)%NoDup_app).
  splits; [intros Hx; apply (Hd1 m Hx); set_solver|intros Hx; apply (Hd2 m Hx); by left|done|].
  intros x Hx Hx'. apply (Hd1 x Hx). set_solver.
Qed.

Lemma mq_link_tail_spec mq qs fs infl m nd :
  mq_repr mq qs fs (m :: infl) -> mq_pool mq !! m = Some nd -> mn_next nd = None ->
  exists mq', mq_link_tail m mq = Some mq' /\ mq_repr mq' (qs ++ [m]) fs infl /\ same_cells mq mq'.
Proof.
  intros Hr Hnd Hnx. pose proof (mq_entry_succ _ _ _ _ _ Hr) as He1. pose proof (mq_held_notin _ _ _ _ _ Hr) as (Hmq & Hmf & Hndq & Hdj).
  assert ((qs ++ [m]) ++ fs ++ infl ≡ₚ seq 0 (Z.to_nat (mq_max_msgs mq))) as Hperm
    by (rewrite <-(qr_nodes _ _ _ _ Hr); rewrite <-app_assoc; simpl; by rewrite <-(Permutation_middle fs infl m)).
  unfold mq_link_tail. rewrite (qr_tail _ _ _ _ Hr). destruct qs as [|t qs0 _] using rev_ind.
  - simpl. eexists. split; [done|]. split; [|by split]. destruct Hr as [Hf Hq Hfr Ht He Hm Hn Hc]. simpl in Hq.
    split; simpl; try done. rewrite Hq. split; [done|]. by exists nd.
  - rewrite last_snoc. destruct (mq_repr_has _ _ _ _ t Hr) as (ndt & Ht' & Hlt); [set_solver|].
    unfold mq_set_next, mq_upd_node. rewrite Ht'. simpl.
    eexists. split; [done|]. split; [|split; [by apply same_cells_next|done]].
    destruct Hr as [Hf Hq Hfr Ht He Hm Hn Hc].
    assert ((match mq_head mq with None => Some m | h => h end) = mq_head mq) as Eh.
    { destruct qs0; simpl in Hq; destruct Hq as [-> _]; done. }
    split; simpl; try done.
    + rewrite Eh, <-app_assoc. simpl. apply (chain_snoc _ _ _ _ nd); try done.
      change [t; m] with ([t] ++ [m]). rewrite app_assoc, NoDup_app. splits; [done| |apply NoDup_singleton].
      intros x Hx ->%list_elem_of_singleton. done.
    + apply chain_notin; [|done]. apply Hdj. set_solver.
    + by rewrite last_snoc.
    + rewrite He1, !length_app. simpl. lia.
    + intros i Hi. destruct (decide (i = t)) as [->|Hne].
      * rewrite lookup_insert_eq. eauto.
      * rewrite lookup_insert_ne by done. auto.
Qed.

Lemma mq_link_head_spec mq qs fs infl m :
  mq_repr mq qs fs (m :: infl) ->
  exists mq', mq_link_head m mq = Some mq' /\ mq_repr mq' (m :: qs) fs infl /\ same_cells mq mq'.
Proof.
  intros Hr. pose proof (mq_entry_succ _ _ _ _ _ Hr) as He1.
  destruct (mq_repr_has _ _ _ _ m Hr) as (nd & Hnd & Hlen); [set_solver|].
  unfold mq_link_head, mq_set_next, mq_upd_node. rewrite Hnd. simpl.
  eexists. split; [done|]. split; [|split; [by apply same_cells_next|done]].
  pose proof (mq_repr_node _ _ _ _ m (MqNode (mq_head mq) (mn_data nd)) Hr ltac:(by left) Hlen) as [Hf Hq Hfr Ht He Hm Hn Hc].
  simpl in *. split; simpl; try done.
  - split; [done|]. exists (MqNode (mq_head mq) (mn_data nd)). by rewrite lookup_insert_eq.
  - rewrite Ht. destruct qs as [|x qs]; [done|]. by rewrite last_cons_cons; destruct (last (x :: qs)) eqn:E; [|apply last_None in E].
  - rewrite <-Hn, (Permutation_middle qs). f_equiv. by rewrite Permutation_middle.
Qed.

Lemma mq_link_spec mq qs fs infl m nd (urgent : bool) :
  mq_repr mq qs fs (m :: infl) -> mq_pool mq !! m = Some nd -> (urgent = false -> mn_next nd = None) ->
  exists mq', mq_link m urgent mq = Some mq' /\ same_cells mq mq' /\
    mq_repr mq' (if urgent then m :: qs else qs ++ [m]) fs infl.
Proof.
  intros Hr Hnd Hnx. unfold mq_link. destruct urgent.
  - destruct (mq_link_head_spec _ _ _ _ _ Hr) as (mq' & ? & ? & ?). eauto.
  - destruct (mq_link_tail_spec _ _ _ _ _ _ Hr Hnd) as (mq' & ? & ? & ?); eauto.
Qed.

(** *** Taking the first message *)

Lemma mq_unlink_head_spec mq qs fs infl m :
  mq_repr mq (m :: qs) fs infl ->
  exists mq', mq_unlink_head mq = Some (mq', m) /\ same_cells mq mq' /\ mq_entry mq' = mq_entry mq /\
    mq_max_msgs mq' = mq_max_msgs mq /\
    forall e, e = Z.of_nat (length qs) -> mq_repr (mq_set_entry e mq') qs fs (m :: infl).
Proof.
  intros [Hf Hq Hfr Ht He Hm Hn Hc]. simpl in Hq. destruct Hq as (Eh & nd & Hnd & Hch).
  unfold mq_unlink_head. rewrite Eh. simpl. rewrite Hnd. simpl. eexists. split; [done|]. splits; try done.
  intros e ->. split; simpl; try done.
  - assert (NoDup ((m :: qs) ++ fs ++ infl)) as Hd by (rewrite Hn; apply NoDup_seq).
    rewrite Ht. destruct qs as [|x qs]; [by rewrite bool_decide_true by done|]. rewrite last_cons_cons.
    rewrite bool_decide_false; [done|]. intros Hl. apply last_Some_elem_of in Hl.
    apply NoDup_cons in Hd as [Hd _]. apply Hd. set_solver.
  - rewrite <-Hn. simpl. rewrite (Permutation_middle qs). f_equiv. by rewrite Permutation_middle.
Qed.

Lemma mq_take_spec mq qs fs infl m :
  mq_repr mq (m :: qs) fs infl ->
  exists mq', mq_take mq = Some (mq', m) /\ mq_repr mq' qs fs (m :: infl) /\ same_cells mq mq'.
Proof.
  intros Hr. destruct (mq_unlink_head_spec _ _ _ _ _ Hr) as (mq' & Hop & Hs & He & _ & Hr').
  unfold mq_take. rewrite Hop. simpl. eexists. split; [done|]. split; [|done].
  apply Hr'. rewrite He, (qr_entry _ _ _ _ Hr). simpl. pose proof (Permutation_length (qr_nodes _ _ _ _ Hr)) as Hl.
  rewrite !length_app, length_seq in Hl. simpl in Hl. pose proof (qr_max _ _ _ _ Hr).
  rewrite u16_small by (unfold is_u16; lia). lia.
Qed.

(** *** Flushing *)

Lemma mq_set_entry_twice a b mq : mq_set_entry a (mq_set_entry b mq) = mq_set_entry a mq.
Proof. done. Qed.
Lemma mq_unlink_set_entry e mq :
  mq_unlink_head (mq_set_entry e mq) = ('(mq', m) ← mq_unlink_head mq; Some (mq_set_entry e mq', m)).
Proof. unfold mq_unlink_head. simpl. destruct (mq_head mq); simpl; [|done]. by destruct (_ !! _). Qed.
Lemma mq_release_set_entry e m mq :
  mq_release m (mq_set_entry e mq) = (mq' ← mq_release m mq; Some (mq_set_entry e mq')).
Proof. unfold mq_release, mq_set_next, mq_upd_node. simpl. by destruct (_ !! _). Qed.

Lemma mq_flush_spec qs : forall fuel mq fs infl,
  mq_repr (mq_set_entry (Z.of_nat (length qs)) mq) qs fs infl -> (length qs <= fuel)%nat ->
  exists mq', mq_flush fuel mq = Some mq' /\ mq_repr (mq_set_entry 0 mq') [] (rev qs ++ fs) infl /\ same_cells mq mq'.
Proof.
  induction qs as [|m qs IH]; intros fuel mq fs infl Hr Hfuel.
  { pose proof (qr_queue _ _ _ _ Hr) as Hq. simpl in Hq. exists mq. destruct fuel; simpl; rewrite Hq; by split. }
  destruct (mq_unlink_head_spec _ _ _ _ _ Hr) as (mq1 & Hop & Hs1 & _ & _ & Hr1).
  specialize (Hr1 (Z.of_nat (length qs)) eq_refl). rewrite mq_unlink_set_entry in Hop.
  destruct (mq_unlink_head mq) as [[mq0 m0]|] eqn:Eu; [|done]. simpl in Hop. injection Hop as <- <-.
  rewrite mq_set_entry_twice in Hr1.
  destruct (mq_release_spec _ _ _ _ _ Hr1) as (mq2 & Hop2 & Hr2 & Hs2 & _).
  rewrite mq_release_set_entry in Hop2. destruct (mq_release m0 mq0) as [mq3|] eqn:Er; [|done].
  simpl in Hop2. injection Hop2 as <-.
  destruct fuel as [|fuel]; [simpl in Hfuel; lia|].
  destruct (IH fuel mq3 (m0 :: fs) infl) as (mq' & Hop & Hr' & Hs'); [done|simpl in Hfuel; lia|].
  exists mq'. simpl. pose proof (qr_queue _ _ _ _ Hr) as [Hh _]. simpl in Hh. rewrite Hh, Eu. simpl. rewrite Er. simpl.
  split; [done|]. rewrite <-app_assoc. split; [done|].
  destruct Hs1 as [Hc1 Hm1], Hs2 as [Hc2 Hm2], Hs' as [Hc' Hm']. split; [|simpl in *; congruence].
  intros i. specialize (Hc1 i). specialize (Hc2 i). specialize (Hc' i). simpl in *. congruence.
Qed.

(** *** Initialisation *)

Lemma mq_init_pool_spec mem mq :
  mq_pool mq = ∅ -> mq_free mq = None -> mq_head mq = None -> mq_tail mq = None -> mq_entry mq = 0 ->
  ipc_flag_ok (mq_flag mq) -> 0 <= mq_max_msgs mq < 65536 ->
  (forall i, Z.of_nat (length (mem i)) = mq_msg_size mq) ->
  mq_repr (mq_init_pool mem mq) [] (rev (seq 0 (Z.to_nat (mq_max_msgs mq)))) [].
Proof.
  intros Hp Hf Hh Ht He Hfl Hm Hmem. unfold mq_init_pool.
  assert (forall n, let mq' := foldl (fun mq temp => mq_set_free (Some temp)
             (mq_set_pool (<[temp := MqNode (mq_free mq) (mem temp)]> (mq_pool mq)) mq)) mq (seq 0 n) in
    chain (mq_pool mq') (mq_free mq') (rev (seq 0 n)) /\
    (forall i, (i < n)%nat -> exists nd, mq_pool mq' !! i = Some nd /\ mn_data nd = mem i) /\
    mq_head mq' = None /\ mq_tail mq' = None /\ mq_entry mq' = 0 /\ mq_flag mq' = mq_flag mq /\
    mq_max_msgs mq' = mq_max_msgs mq /\ mq_msg_size mq' = mq_msg_size mq) as Hgen.
  { induction n as [|n IH]; cbv zeta in *.
    { simpl. splits; try done. lia. }
    rewrite seq_S, foldl_snoc, rev_app_distr. simpl.
    set (mq' := foldl _ mq (seq 0 n)) in *. destruct IH as (Hc & Hn & ? & ? & ? & ? & ? & ?). splits; try done.
    - eexists. rewrite lookup_insert_eq. split; [done|]. simpl. apply chain_notin; [|done].
      rewrite <-(Permutation_rev (seq 0 n)), elem_of_seq. lia.
    - intros i Hi. destruct (decide (i = n)) as [->|Hne].
      + rewrite lookup_insert_eq. eauto.
      + rewrite lookup_insert_ne by done. apply Hn. lia. }
  destruct (Hgen (Z.to_nat (mq_max_msgs mq))) as (Hc & Hn & Eh & Et & Ee & Ef & Em & Es).
  set (mq' := foldl _ _ _) in *. split; try done.
  - by rewrite Ef.
  - by rewrite Em.
  - rewrite Em, app_nil_r. simpl. by rewrite <-Permutation_rev.
  - intros i Hi. rewrite Em in Hi. destruct (Hn i Hi) as (nd & Hnd & E). exists nd. rewrite E, Es. auto.
Qed.

(** ** The kernel calls on a queue of messages *)

(** Message queue [o] is well formed and holds the messages [q], whole cells of
    the message size. *)
Definition mq_ok (o : oid) (k : kernel) (q : list (list Z)) : Prop :=
  exists mq qs fs, k_o k !! o = Some (IMq mq) /\ is_Some (lists (k_s k) !! LSuspend o) /\
    mq_repr mq qs fs [] /\ q = cell (mq_pool mq) <$> qs.

Definition mq_sizes (o : oid) (k : kernel) : Z * Z :=
  match get_mq o k with Some mq => (mq_msg_size mq, mq_max_msgs mq) | None => (0, 0) end.

Lemma get_mq_eq o k mq : k_o k !! o = Some (IMq mq) -> get_mq o k = Some mq.
Proof. unfold get_mq. by intros ->. Qed.

Lemma mq_ok_frame o k k' q :
  mq_ok o k q -> k_o k' !! o = k_o k !! o ->
  (forall h, waiting_head h -> is_Some (lists (k_s k) !! h) -> is_Some (lists (k_s k') !! h)) -> mq_ok o k' q.
Proof. intros (mq & qs & fs & Ho & Hl & Hr & Hq) E Hf. exists mq, qs, fs. rewrite E. split; [done|]. split; [by apply (Hf (LSuspend o))|done]. Qed.

Lemma finish_mq R o k c (r : step_result R) :
  kernel_wf k -> current (k_s k) = Some c ->
  exists k', finish (k, r) = Some (k', r) /\ kernel_wf k' /\ forall q, mq_ok o k q -> mq_ok o k' q.
Proof.
  intros Hk Hc. destruct (finish_spec R k c r Hk Hc) as (k' & Hop & Hk' & Hko & _ & Hf). exists k'. splits; try done.
  intros q Hok. apply (mq_ok_frame o k); [done|by rewrite Hko|]. intros h Hw.
  destruct Hf as (_ & _ & Hl & _). by rewrite Hl by (by apply waiting_not_ready).
Qed.

Lemma cell_list_ext mq mq' (qs : list nat) : same_cells mq mq' -> cell (mq_pool mq') <$> qs = cell (mq_pool mq) <$> qs.
Proof. intros [Hc _]. apply list_fmap_ext. auto. Qed.

(** Alloc, fill and link, in one go. *)
Lemma mq_send_record mq qs m fs (buf : list Z) (urgent : bool) :
  mq_repr mq qs (m :: fs) [] -> Z.of_nat (length buf) <= mq_msg_size mq ->
  exists mq1 mq2 mq3 qs' c, mq_alloc mq = Some (mq1, Some m) /\ mq_fill m buf urgent mq1 = Some mq2 /\
    mq_link m urgent mq2 = Some mq3 /\ mq_repr mq3 qs' fs [] /\
    cell (mq_pool mq3) <$> qs' =
      (if urgent then c :: (cell (mq_pool mq) <$> qs) else (cell (mq_pool mq) <$> qs) ++ [c]) /\
    take (length buf) c = buf /\ Z.of_nat (length c) = mq_msg_size mq.
Proof.
  intros Hr Hlen. pose proof (mq_alloc_spec _ _ _ _ Hr) as (mq1 & Ha & Hr1 & [Hc1 Hm1]).
  destruct (mq_fill_spec mq1 qs fs [m] m buf urgent Hr1) as (mq2 & nd & Hf & Hr2 & Hm2 & Hnd & Hnx & Hd & Hoth);
    [by left|by rewrite Hm1|].
  destruct (mq_link_spec _ _ _ _ _ _ _ Hr2 Hnd Hnx) as (mq3 & Hl & [Hc3 Hm3] & Hr3).
  pose proof (mq_held_notin _ _ _ _ _ Hr1) as (Hmq & _ & _ & _).
  assert (cell (mq_pool mq3) <$> qs = cell (mq_pool mq) <$> qs) as Eqs.
  { apply list_fmap_ext. intros i x Hx. rewrite Hc3, <-Hc1. unfold cell. rewrite Hoth; [done|].
    intros ->. apply Hmq. by apply list_elem_of_lookup_2 with i. }
  assert (cell (mq_pool mq3) m = mn_data nd) as Em by (rewrite Hc3; unfold cell; by rewrite Hnd).
  destruct (mq_repr_has _ _ _ _ m Hr1) as (nd1 & Hnd1 & Hl1); [set_solver|].
  eexists mq1, mq2, mq3, _, (mn_data nd). splits; try done.
  - destruct urgent; [by rewrite fmap_cons, Em, Eqs|by rewrite fmap_app, Eqs, fmap_cons, Em].
  - rewrite Hd. apply take_app_length.
  - rewrite Hd, length_copy; unfold cell; rewrite Hnd1; simpl; lia.
Qed.

(** [rt_mq_send] and [rt_mq_urgent] ([urgent]) on a queue that holds [q]:
    a message longer than the message size is refused with [-RT_ERROR], a full
    queue with [-RT_EFULL], both leaving the queue alone; otherwise the message
    goes to the end (urgent: to the front) of the queue, a whole cell that
    starts with the bytes sent, the call returns [RT_EOK] and the first waiting
    receiver is resumed. *)
Theorem rt_mq_send_fifo (k : kernel) (o : oid) (c : tid) (buf : list Z) (urgent : bool) (q : list (list Z))
    (sz cap : Z) :
  kernel_wf k -> mq_ok o k q -> current (k_s k) = Some c -> mq_sizes o k = (sz, cap) ->
  exists k1 r k2, (if urgent then rt_mq_urgent o buf k else rt_mq_send o buf k) = Some (k1, r) /\
    finish (k1, r) = Some (k2, r) /\ kernel_wf k2 /\
    (sz < Z.of_nat (length buf) -> r = Done (- RT_ERROR) false /\ mq_ok o k2 q) /\
    (Z.of_nat (length buf) <= sz -> Z.of_nat (length q) = cap -> r = Done (- RT_EFULL) false /\ mq_ok o k2 q) /\
    (Z.of_nat (length buf) <= sz -> Z.of_nat (length q) < cap -> exists b m, r = Done RT_EOK b /\
       mq_ok o k2 (if urgent then m :: q else q ++ [m]) /\ take (length buf) m = buf /\
       Z.of_nat (length m) = sz /\ handed (LSuspend o) k k1 b).
Proof.
  intros Hk Hok Hc Hsz. pose proof Hok as (mq & qs & fs & Ho & Hl & Hr & ->).
  unfold mq_sizes in Hsz. rewrite (get_mq_eq _ _ _ Ho) in Hsz. injection Hsz as <- <-.
  assert ((if urgent then rt_mq_urgent o buf k else rt_mq_send o buf k) = mq_send o buf urgent k) as -> by (by destruct urgent).
  unfold mq_send. rewrite (get_mq_eq _ _ _ Ho). simpl. rewrite length_fmap.
  pose proof (Permutation_length (qr_nodes _ _ _ _ Hr)) as Hlen. rewrite !length_app, length_seq in Hlen. simpl in Hlen.
  pose proof (qr_max _ _ _ _ Hr) as Hmax.
  destruct (Z.ltb_spec (mq_msg_size mq) (Z.of_nat (length buf))) as [Hbig|Hfit].
  { destruct (finish_mq Z o k c (Done (- RT_ERROR) false) Hk Hc) as (k2 & Hf & Hk2 & Hok2).
    exists k, (Done (- RT_ERROR) false), k2. splits; auto; lia. }
  destruct fs as [|m fs].
  - rewrite (mq_alloc_spec _ _ _ _ Hr). simpl.
    assert (kernel_wf (put_mq o mq k)) as Hk1 by (eapply kernel_same_obj; [exact Hk|exact Ho|discriminate]).
    destruct (finish_mq Z o (put_mq o mq k) c (Done (- RT_EFULL) false) Hk1 Hc) as (k2 & Hf & Hk2 & Hok2).
    exists (put_mq o mq k), (Done (- RT_EFULL) false), k2. splits; [done|exact Hf|done|lia| |simpl in Hlen; lia].
    intros _ _. split; [done|]. apply Hok2. exists mq, qs, []. simpl. rewrite lookup_insert_eq. done.
  - destruct (mq_send_record mq qs m fs buf urgent Hr Hfit) as
      (mq1 & mq2 & mq3 & qs' & cl & -> & Hfill & Hlink & Hr3 & Hq' & Htk & Hcl). simpl. rewrite Hfill. simpl.
    rewrite Hlink. simpl. set (k1 := put_mq o mq3 k).
    assert (kernel_wf k1) as Hk1 by (eapply kernel_same_obj; [exact Hk|exact Ho|discriminate]).
    destruct (wake_first_spec k1 (LSuspend o) Hk1 I Hl) as (k1' & b & -> & Hk1' & Hh & Hko & Hcu & Hl1 & _). simpl.
    destruct (finish_mq Z o k1' c (Done RT_EOK b) Hk1') as (k2 & Hf & Hk2 & Hok2); [by rewrite Hcu|].
    exists k1', (Done RT_EOK b), k2. splits; [done|exact Hf|done|lia|simpl in Hlen; lia|].
    intros _ _. exists b, cl. splits; try done. apply Hok2. exists mq3, qs', fs. rewrite Hko. simpl.
    rewrite lookup_insert_eq, <-Hq'. done.
Qed.

Definition mq_recv_outcome (o : oid) (c : tid) (th : rt_thread) (size timeout td : Z) (q : list (list Z))
    (k k' : kernel) (r : step_result (Z * option (list Z))) : Prop :=
  match q with
  | m :: q' => r = Done (RT_EOK, Some (take (Z.to_nat size) m)) false /\ mq_ok o k' q'
  | [] => mq_ok o k' [] /\
     (timeout = 0 -> r = Done (- RT_ETIMEOUT, None) false) /\
     (timeout <> 0 -> r = Wait timeout (if 0 <? timeout then rt_tick (k_t k) else td) /\
        waits_on (LSuspend o) c th timeout k k')
  end.

Lemma mq_recv_loop_spec o k c th size timeout td q :
  kernel_wf k -> mq_ok o k q -> current (k_s k) = Some c -> threads (k_s k) !! c = Some th -> is_ready th ->
  timeout <= max_delay ->
  exists k' r, mq_recv_loop o (Some c) size timeout td k = Some (k', r) /\ kernel_wf k' /\
    current (k_s k') = Some c /\ mq_recv_outcome o c th size timeout td q k k' r.
Proof.
  intros Hk Hok Hc Ht Hrd Htime. pose proof Hok as (mq & qs & fs & Ho & Hl & Hr & ->).
  unfold mq_recv_loop, mq_recv_outcome. rewrite (get_mq_eq _ _ _ Ho). simpl. rewrite (qr_entry _ _ _ _ Hr).
  destruct qs as [|m qs]; simpl.
  - rewrite (upd_th_eq _ _ _ _ Ht). simpl.
    assert (kernel_wf (set_th c (th_set_error RT_EOK th) k)) as Hk1 by (apply (kernel_put_same _ _ _ _ th); eauto with kernel).
    destruct (Z.eqb_spec timeout 0) as [->|Hn0].
    + rewrite (upd_th_eq c _ _ (th_set_error RT_EOK th)) by (simpl; by rewrite lookup_insert_eq).
      eexists _, _. splits; try done.
      apply (kernel_put_same _ _ _ _ (th_set_error RT_EOK th)); eauto with kernel. simpl. by rewrite lookup_insert_eq.
    + destruct (wait_on_spec (Z * option (list Z)) k c th (LSuspend o) (mq_flag mq) timeout td) as (k' & -> & Hk' & Hw);
        try done; [apply Hr|].
      eexists _, _. splits; try done; [by rewrite (wo_current _ _ _ _ _ _ Hw)|].
      exists mq, [], fs. rewrite (wo_objs _ _ _ _ _ _ Hw). splits; try done.
      destruct (wo_list _ _ _ _ _ _ Hw) as (l1 & l2 & _ & ->). by eexists.
  - destruct (mq_take_spec _ _ _ _ _ Hr) as (mq1 & -> & Hr1 & Hs1). simpl.
    destruct (mq_repr_has _ _ _ _ m Hr1) as (nd & Hnd & Hlnd); [set_solver|]. unfold mq_copy_out. rewrite Hnd. simpl.
    destruct (mq_release_spec _ _ _ _ _ Hr1) as (mq2 & -> & Hr2 & Hs2 & _). simpl.
    assert (kernel_wf (put_mq o mq2 k)) as Hk1 by (eapply kernel_same_obj; [exact Hk|exact Ho|discriminate]).
    eexists _, _. splits; try done.
    + do 3 f_equal. assert (cell (mq_pool mq) m = mn_data nd) as ->.
      { rewrite <-(proj1 Hs1). unfold cell. by rewrite Hnd. }
      destruct (Z.ltb_spec (mq_msg_size mq1) size); [|done]. rewrite <-Hlnd, Nat2Z.id, !take_ge; [done|lia..].
    + exists mq2, qs, (m :: fs). simpl. rewrite lookup_insert_eq. splits; try done.
      by rewrite (cell_list_ext _ _ _ Hs2), (cell_list_ext _ _ _ Hs1).
Qed.

(** [rt_mq_recv] from a queue that holds [m :: q] returns [RT_EOK] with the
    first [size] bytes of [m] (all of it when [size] is larger) and leaves [q];
    from an empty queue it returns [-RT_ETIMEOUT] without waiting time, and
    otherwise waits with its timer armed. Resumed without error after [d] ticks
    it does the same with the waiting time that is left. *)
Theorem rt_mq_recv_fifo (k : kernel) (o : oid) (c : tid) (th : rt_thread) (size timeout : Z) (q : list (list Z)) :
  kernel_wf k -> mq_ok o k q -> current (k_s k) = Some c -> threads (k_s k) !! c = Some th -> is_ready th ->
  timeout <= max_delay ->
  (exists k1 r k2, rt_mq_recv_enter o size timeout k = Some (k1, r) /\ finish (k1, r) = Some (k2, r) /\
     kernel_wf k2 /\ mq_recv_outcome o c th size timeout 0 q k k1 r /\ forall q', mq_ok o k1 q' -> mq_ok o k2 q') /\
  (forall td d, th_error th = RT_EOK -> 0 <= d < 2147483648 -> u32 (rt_tick (k_t k) - td) = d ->
     exists k1 r, rt_mq_recv_resume o c size timeout td k = Some (k1, r) /\ kernel_wf k1 /\
       mq_recv_outcome o c th size (if 0 <? timeout then Z.max 0 (timeout - d) else timeout) td q k k1 r).
Proof.
  intros Hk Hok Hc Ht Hrd Htime. pose proof Hok as (mq & qs & fs & Ho & _ & Hr & Hq). split.
  - unfold rt_mq_recv_enter. rewrite (get_mq_eq _ _ _ Ho). simpl.
    destruct ((mq_entry mq =? 0) && (timeout =? 0)) eqn:E.
    + apply andb_true_iff in E as [E1%Z.eqb_eq E2%Z.eqb_eq].
      destruct (finish_mq (Z * option (list Z)) o k c (Done (- RT_ETIMEOUT, None) false) Hk Hc) as (k2 & Hop & Hk2 & Hok2).
      exists k, (Done (- RT_ETIMEOUT, None) false), k2. splits; try done.
      rewrite (qr_entry _ _ _ _ Hr) in E1. by destruct qs; subst q.
    + unfold rt_thread_self. rewrite Hc.
      destruct (mq_recv_loop_spec o k c th size timeout 0 q Hk Hok Hc Ht Hrd Htime) as (k1 & r & Hop & Hk1 & Hc1 & Hout).
      destruct (finish_mq _ o k1 c r Hk1 Hc1) as (k2 & Hop2 & Hk2 & Hok2). by exists k1, r, k2.
  - intros td d He Hd Hu. unfold rt_mq_recv_resume. rewrite Ht. simpl. rewrite He. simpl. unfold rt_tick_get.
    rewrite (time_left_spec timeout td (rt_tick (k_t k)) d) by done.
    set (left := if 0 <? timeout then Z.max 0 (timeout - d) else timeout).
    assert (left <= max_delay) as Hleft by (unfold left, max_delay in *; destruct (0 <? timeout); lia).
    destruct (mq_recv_loop_spec o k c th size left td q Hk Hok Hc Ht Hrd Hleft) as (k1 & r & Hop & Hk1 & _ & Hout). eauto.
Qed.

(** Reset: the flush loop ends and the queue is empty with every node free. *)
Lemma rt_mq_control_empties k o c q :
  kernel_wf k -> mq_ok o k q -> current (k_s k) = Some c ->
  exists k', rt_mq_control o RT_IPC_CMD_RESET k = Some (k', RT_EOK) /\ kernel_wf k' /\ mq_ok o k' [] /\
    lists (k_s k') !! LSuspend o = Some [].
Proof.
  intros Hk (mq & qs & fs & Ho & [l Hl] & Hr & ->) Hc. unfold rt_mq_control. rewrite (get_mq_eq _ _ _ Ho). simpl.
  destruct (rt_ipc_list_resume_all_spec ∅ 0 (LSuspend o) l k Hk I Hl) as
    (k1 & -> & Hk1 & _ & Hl1 & _ & Hobj & Hcu & _). simpl.
  pose proof (Permutation_length (qr_nodes _ _ _ _ Hr)) as Hlen. rewrite !length_app, length_seq in Hlen.
  assert (mq_set_entry (Z.of_nat (length qs)) mq = mq) as E by (rewrite <-(qr_entry _ _ _ _ Hr); by destruct mq).
  destruct (mq_flush_spec qs (Z.to_nat (mq_max_msgs mq)) mq fs []) as (mq' & -> & Hr' & _); [by rewrite E|lia|].
  simpl. set (k2 := put_mq o (mq_set_entry 0 mq') k1).
  assert (kernel_wf k2) as Hk2 by (eapply kernel_same_obj; [done|by rewrite Hobj|done]).
  destruct (kernel_schedule ∅ 0 k2 c Hk2) as (s' & -> & Hk3 & (_ & _ & Hls & _) & _); [simpl; by rewrite Hcu|].
  simpl. exists (set_s s' k2). splits; try done; [|simpl; by rewrite Hls].
  exists (mq_set_entry 0 mq'), [], (rev qs ++ fs). simpl. rewrite lookup_insert_eq, Hls by done. simpl.
  rewrite Hl1. splits; try done.
Qed.

(** ** Interleaved calls

    Several threads and interrupts may be between the critical sections of
    their calls at the same time. *)

(** Where a call stands, with its local variables. *)
Inductive mq_pc :=
| PFill (msg : nat) (buf : list Z) (urgent : bool)
| PLink (msg : nat) (buf : list Z) (urgent : bool)
| PCopy (msg : nat) (size : Z)
| PRelease (msg : nat).

Record mq_sys := MqSys { ms_mq : rt_messagequeue; ms_pc : gmap tid mq_pc }.

Inductive mq_call := CallSend (buf : list Z) (urgent : bool) | CallRecv (size : Z).

(** What an observer sees of a step. *)
Inductive mq_event := Tau | Linked (t : tid) (buf : list Z) (urgent : bool) | Taken (t : tid) | Got (t : tid) (size : Z) (data : list Z).

(** A call [c] starts in thread [t] ([None]: it returned at once). *)
Definition mq_begin (c : mq_call) (mq : rt_messagequeue) : option (rt_messagequeue * option mq_pc) :=
  match c with
  | CallSend buf urgent =>
      if mq_msg_size mq <? Z.of_nat (length buf) then Some (mq, None)
      else '(mq, msg) ← mq_alloc mq; Some (mq, option_map (fun msg : nat => PFill msg buf urgent) msg)
  | CallRecv size =>
      if mq_entry mq =? 0 then Some (mq, None)
      else '(mq, msg) ← mq_take mq; Some (mq, Some (PCopy msg size))
  end.

(** One section of the call that thread [t] is in, or the start of a call. *)
Definition mq_exec (t : tid) (c : mq_call) (s : mq_sys) : option (mq_sys * mq_event) :=
  let mq := ms_mq s in
  match ms_pc s !! t with
  | None =>
      '(mq, pc) ← mq_begin c mq;
      match pc with
      | None => Some (MqSys mq (ms_pc s), Tau)
      | Some pc => Some (MqSys mq (<[t := pc]> (ms_pc s)), match pc with PCopy _ _ => Taken t | _ => Tau end)
      end
  | Some (PFill msg buf urgent) =>
      mq ← mq_fill msg buf urgent mq; Some (MqSys mq (<[t := PLink msg buf urgent]> (ms_pc s)), Tau)
  | Some (PLink msg buf urgent) =>
      mq ← mq_link msg urgent mq; Some (MqSys mq (delete t (ms_pc s)), Linked t buf urgent)
  | Some (PCopy msg size) =>
      data ← mq_copy_out msg size mq; Some (MqSys mq (<[t := PRelease msg]> (ms_pc s)), Got t size data)
  | Some (PRelease msg) =>
      mq ← mq_release msg mq; Some (MqSys mq (delete t (ms_pc s)), Tau)
  end.

Fixpoint mq_run (sched : list (tid * mq_call)) (s : mq_sys) : option (mq_sys * list mq_event) :=
  match sched with
  | [] => Some (s, [])
  | (t, c) :: sched =>
      '(s, e) ← mq_exec t c s; '(s, es) ← mq_run sched s; Some (s, e :: es)
  end.

(** The specification: a queue of cells, and the cell each receiver has taken. *)
Record mq_spec := MqSpec { sp_queue : list (list Z); sp_taken : gmap tid (list Z) }.

Inductive spec_step (sz : Z) : mq_spec -> mq_event -> mq_spec -> Prop :=
| spec_tau a : spec_step sz a Tau a
| spec_linked a t buf urgent m :
    take (length buf) m = buf -> Z.of_nat (length m) = sz ->
    spec_step sz a (Linked t buf urgent)
      (MqSpec (if urgent then m :: sp_queue a else sp_queue a ++ [m]) (sp_taken a))
| spec_taken t m q tk :
    spec_step sz (MqSpec (m :: q) tk) (Taken t) (MqSpec q (<[t := m]> tk))
| spec_got a t m size :
    sp_taken a !! t = Some m ->
    spec_step sz a (Got t size (take (Z.to_nat size) m)) (MqSpec (sp_queue a) (delete t (sp_taken a))).

Inductive spec_run (sz : Z) : mq_spec -> list mq_event -> mq_spec -> Prop :=
| spec_nil a : spec_run sz a [] a
| spec_cons a e a' es a'' : spec_step sz a e a' -> spec_run sz a' es a'' -> spec_run sz a (e :: es) a''.

(** *** The simulation relation *)

Definition pc_slot (pc : mq_pc) : nat :=
  match pc with PFill m _ _ | PLink m _ _ | PCopy m _ | PRelease m => m end.
Definition slots (pcs : gmap tid mq_pc) : list nat := (fun p => pc_slot p.2) <$> map_to_list pcs.

Lemma slots_insert pcs t pc : pcs !! t = None -> slots (<[t := pc]> pcs) ≡ₚ pc_slot pc :: slots pcs.
Proof. intros. unfold slots. by rewrite map_to_list_insert. Qed.
Lemma slots_delete pcs t pc : pcs !! t = Some pc -> slots pcs ≡ₚ pc_slot pc :: slots (delete t pcs).
Proof. intros Ht. unfold slots. by rewrite <-(map_to_list_delete pcs t pc Ht). Qed.
Lemma slots_replace pcs t pc : slots (<[t := pc]> pcs) ≡ₚ pc_slot pc :: slots (delete t pcs).
Proof. rewrite <-insert_delete_eq. apply slots_insert. apply lookup_delete_eq. Qed.
Lemma slots_elem pcs t t' pc : pcs !! t' = Some pc -> t' <> t -> pc_slot pc ∈ slots (delete t pcs).
Proof.
  intros Ht Hne. unfold slots. apply list_elem_of_fmap. exists (t', pc). split; [done|].
  apply elem_of_map_to_list. by rewrite lookup_delete_ne.
Qed.

(** What a call between two sections may rely on. *)
Definition pc_ok (mq : rt_messagequeue) (taken : option (list Z)) (pc : mq_pc) : Prop :=
  match pc with
  | PFill _ buf _ => Z.of_nat (length buf) <= mq_msg_size mq /\ taken = None
  | PLink m buf urgent =>
      (exists nd, mq_pool mq !! m = Some nd /\ take (length buf) (mn_data nd) = buf /\
         (urgent = false -> mn_next nd = None)) /\ taken = None
  | PCopy m _ => taken = Some (cell (mq_pool mq) m)
  | PRelease _ => taken = None
  end.

Record sys_repr (sz : Z) (s : mq_sys) (a : mq_spec) (qs fs : list nat) : Prop := {
  sr_size : mq_msg_size (ms_mq s) = sz;
  sr_mq : mq_repr (ms_mq s) qs fs (slots (ms_pc s));
  sr_queue : sp_queue a = cell (mq_pool (ms_mq s)) <$> qs;
  sr_pcs : forall t pc, ms_pc s !! t = Some pc -> pc_ok (ms_mq s) (sp_taken a !! t) pc;
  sr_idle : forall t, ms_pc s !! t = None -> sp_taken a !! t = None;
}.

Lemma mq_repr_perm mq qs fs infl infl' : infl ≡ₚ infl' -> mq_repr mq qs fs infl -> mq_repr mq qs fs infl'.
Proof. intros E [Hf Hq Hfr Ht He Hm Hn Hc]. split; try done. by rewrite <-E. Qed.

Lemma pc_ok_frame mq mq' taken pc :
  mq_msg_size mq' = mq_msg_size mq -> mq_pool mq' !! pc_slot pc = mq_pool mq !! pc_slot pc ->
  pc_ok mq taken pc -> pc_ok mq' taken pc.
Proof.
  intros Es Ep. destruct pc; simpl in *; unfold cell.
  - by rewrite Es.
  - by rewrite Ep.
  - by rewrite Ep.
  - done.
Qed.

(** One thread moves to [pc] (or out), the others keep their nodes. *)
Lemma sys_repr_move sz s a qs fs mq' a' t (pc : option mq_pc) qs' fs' :
  sys_repr sz s a qs fs -> mq_msg_size mq' = sz ->
  mq_repr mq' qs' fs' (match pc with Some pc => [pc_slot pc] | None => [] end ++ slots (delete t (ms_pc s))) ->
  sp_queue a' = cell (mq_pool mq') <$> qs' ->
  (forall i, i ∈ slots (delete t (ms_pc s)) -> mq_pool mq' !! i = mq_pool (ms_mq s) !! i) ->
  (forall t', t' <> t -> sp_taken a' !! t' = sp_taken a !! t') ->
  match pc with Some pc => pc_ok mq' (sp_taken a' !! t) pc | None => sp_taken a' !! t = None end ->
  sys_repr sz (MqSys mq' (match pc with Some pc => <[t := pc]> (ms_pc s) | None => delete t (ms_pc s) end)) a' qs' fs'.
Proof.
  intros [Hsz Hmq Hq Hp Hi] Hs' Hr' Hq' Hpool Htk Hpc. split; try done; simpl.
  - destruct pc as [pc|]; [|done]. eapply mq_repr_perm; [|exact Hr']. by rewrite slots_replace.
  - intros t' pc'. destruct (decide (t' = t)) as [->|Hne].
    + destruct pc as [pc|]; [rewrite lookup_insert_eq|by rewrite lookup_delete_eq]. by intros [= <-].
    + intros Ht'. assert (ms_pc s !! t' = Some pc') as Ht.
      { destruct pc; [by rewrite lookup_insert_ne in Ht' by done|by rewrite lookup_delete_ne in Ht' by done]. }
      rewrite Htk by done. apply (pc_ok_frame (ms_mq s)); [congruence| |by apply Hp].
      apply Hpool. by eapply slots_elem.
  - intros t'. destruct (decide (t' = t)) as [->|Hne].
    + destruct pc as [pc|]; [by rewrite lookup_insert_eq|done].
    + rewrite Htk by done. intros Ht'. apply Hi.
      destruct pc; [by rewrite lookup_insert_ne in Ht' by done|by rewrite lookup_delete_ne in Ht' by done].
Qed.

(** *** Nodes in other hands are not touched *)

Lemma mq_link_held mq mq' qs fs infl m urgent i :
  mq_repr mq qs fs (m :: infl) -> mq_link m urgent mq = Some mq' -> i ∈ infl -> mq_pool mq' !! i = mq_pool mq !! i.
Proof.
  intros Hr Hop Hi. assert (NoDup (qs ++ fs ++ m :: infl)) as Hnd by (rewrite (qr_nodes _ _ _ _ Hr); apply NoDup_seq).
  apply NoDup_app in Hnd as (_ & Hd1 & (_ & _ & [Hm _]%NoDup_cons)%NoDup_app).
  unfold mq_link, mq_link_head, mq_link_tail, mq_set_next, mq_upd_node in Hop. destruct urgent.
  - inv_option. simpl. rewrite lookup_insert_ne; [done|]. by intros ->.
  - destruct (mq_tail mq) as [t|] eqn:Et; inv_option; simpl; [|done]. rewrite lookup_insert_ne; [done|].
    intros ->. rewrite (qr_tail _ _ _ _ Hr) in Et. apply last_Some_elem_of in Et. apply (Hd1 i Et). set_solver.
Qed.

Lemma mq_release_held mq mq' m i : mq_release m mq = Some mq' -> i <> m -> mq_pool mq' !! i = mq_pool mq !! i.
Proof. unfold mq_release, mq_set_next, mq_upd_node. intros Hop Hne. inv_option. simpl. by rewrite lookup_insert_ne. Qed.

Lemma mq_alloc_held mq mq' r : mq_alloc mq = Some (mq', r) -> mq_pool mq' = mq_pool mq.
Proof. unfold mq_alloc. destruct (mq_free mq); intros Hop; inv_option; done. Qed.

Lemma mq_take_held mq mq' r : mq_take mq = Some (mq', r) -> mq_pool mq' = mq_pool mq.
Proof. unfold mq_take, mq_unlink_head. intros Hop. destruct (mq_head mq); simpl in Hop; [|done].
  destruct (mq_pool mq !! n); simpl in Hop; [|done]. by injection Hop as <- <-. Qed.

Lemma slots_nodup sz s a qs fs t pc :
  sys_repr sz s a qs fs -> ms_pc s !! t = Some pc ->
  mq_repr (ms_mq s) qs fs (pc_slot pc :: slots (delete t (ms_pc s))) /\ pc_slot pc ∉ slots (delete t (ms_pc s)).
Proof.
  intros Hr Ht. pose proof (slots_delete _ _ _ Ht) as E.
  pose proof (mq_repr_perm _ _ _ _ _ E (sr_mq _ _ _ _ _ Hr)) as Hmq. split; [done|].
  assert (NoDup (qs ++ fs ++ pc_slot pc :: slots (delete t (ms_pc s)))) as Hnd
    by (rewrite (qr_nodes _ _ _ _ Hmq); apply NoDup_seq).
  by apply NoDup_app in Hnd as (_ & _ & (_ & _ & [Hm _]%NoDup_cons)%NoDup_app).
Qed.

Lemma copy_out_spec mq qs fs infl m size :
  mq_repr mq qs fs infl -> m ∈ infl -> mq_copy_out m size mq = Some (take (Z.to_nat size) (cell (mq_pool mq) m)).
Proof.
  intros Hr Hm. destruct (mq_repr_has _ _ _ _ m Hr) as (nd & Hnd & Hl); [set_solver|].
  unfold mq_copy_out, cell. rewrite Hnd. simpl. f_equal.
  destruct (Z.ltb_spec (mq_msg_size mq) size); [|done]. rewrite <-Hl, Nat2Z.id, !take_ge; [done|lia..].
Qed.

Lemma cells_off mq mq' qs fs infl m :
  mq_repr mq qs fs (m :: infl) -> (forall i, i <> m -> mq_pool mq' !! i = mq_pool mq !! i) ->
  cell (mq_pool mq') <$> qs = cell (mq_pool mq) <$> qs.
Proof.
  intros Hr Hoff. destruct (mq_held_notin _ _ _ _ _ Hr) as (Hm & _). apply list_fmap_ext. intros i x Hx.
  unfold cell. rewrite Hoff; [done|]. intros ->. apply Hm. by apply list_elem_of_lookup_2 with i.
Qed.

(** Starting a call. *)
Lemma mq_begin_step sz s a qs fs t c :
  sys_repr sz s a qs fs -> ms_pc s !! t = None ->
  exists s' e a' qs' fs', mq_exec t c s = Some (s', e) /\ spec_step sz a e a' /\ sys_repr sz s' a' qs' fs'.
Proof.
  intros Hr Ht. pose proof Hr as [Hsz Hmq Hq Hp Hi]. unfold mq_exec. rewrite Ht.
  assert (delete t (ms_pc s) = ms_pc s) as Edel by (by apply delete_id).
  assert (MqSys (ms_mq s) (ms_pc s) = s) as Es by (by destruct s). destruct c as [buf urgent|size]; simpl.
  - destruct (Z.ltb_spec (mq_msg_size (ms_mq s)) (Z.of_nat (length buf))) as [Hbig|Hfit]; simpl.
    { exists s, Tau, a, qs, fs. rewrite Es. splits; [done|constructor|done]. }
    pose proof (mq_alloc_spec _ _ _ _ Hmq) as Ha. destruct fs as [|m fs].
    { rewrite Ha. simpl. exists s, Tau, a, qs, []. rewrite Es. splits; [done|constructor|done]. }
    destruct Ha as (mq1 & Ha & Hr1 & Hc1). rewrite Ha. simpl. pose proof (mq_alloc_held _ _ _ Ha) as Hpool.
    eexists _, Tau, a, qs, fs. split; [done|]. split; [constructor|].
    apply (sys_repr_move sz s a qs (m :: fs) mq1 a t (Some (PFill m buf urgent))); try done; simpl.
    + rewrite <-Hsz. apply Hc1.
    + by rewrite Edel.
    + by rewrite Hq, Hpool.
    + intros. by rewrite Hpool.
    + split; [|by apply Hi]. by rewrite (proj2 Hc1).
  - rewrite (qr_entry _ _ _ _ Hmq). destruct qs as [|m qs]; simpl.
    { exists s, Tau, a, [], fs. rewrite Es. splits; [done|constructor|done]. }
    destruct (mq_take_spec _ _ _ _ _ Hmq) as (mq1 & Hop & Hr1 & Hc1). rewrite Hop. simpl.
    pose proof (mq_take_held _ _ _ Hop) as Hpool. destruct a as [q tk]. simpl in Hq. subst q.
    eexists _, (Taken t), (MqSpec (cell (mq_pool (ms_mq s)) <$> qs) (<[t := cell (mq_pool (ms_mq s)) m]> tk)), qs, fs.
    split; [done|]. split; [constructor|].
    apply (sys_repr_move sz s _ (m :: qs) fs mq1 _ t (Some (PCopy m size)) _ _ Hr); simpl.
    + rewrite <-Hsz. apply Hc1.
    + by rewrite Edel.
    + by rewrite Hpool.
    + intros. by rewrite Hpool.
    + intros. by rewrite lookup_insert_ne.
    + by rewrite lookup_insert_eq, Hpool.
Qed.

(** Every section of every call refines the queue specification. *)
Lemma mq_exec_step sz s a qs fs t c :
  sys_repr sz s a qs fs ->
  exists s' e a' qs' fs', mq_exec t c s = Some (s', e) /\ spec_step sz a e a' /\ sys_repr sz s' a' qs' fs'.
Proof.
  intros Hr. destruct (ms_pc s !! t) as [pc|] eqn:Ht; [|by apply (mq_begin_step sz s a qs fs)].
  pose proof Hr as [Hsz _ Hq Hp Hi]. destruct (slots_nodup _ _ _ _ _ _ _ Hr Ht) as [Hmq Hni]. specialize (Hp t pc Ht).
  set (rest := slots (delete t (ms_pc s))) in *. unfold mq_exec. rewrite Ht. destruct pc as [m buf urgent|m buf urgent|m size|m]; simpl in *.
  - destruct Hp as [Hlen Htk].
    destruct (mq_fill_spec _ _ _ _ m buf urgent Hmq) as (mq1 & nd & -> & Hr1 & Hs1 & Hnd & Hnx & Hd & Hoff);
      [by left|done|]. simpl. eexists _, Tau, a, qs, fs. split; [done|]. split; [constructor|].
    apply (sys_repr_move sz s a qs fs mq1 a t (Some (PLink m buf urgent))); try done; simpl.
    + congruence.
    + by rewrite (cells_off _ _ _ _ _ _ Hmq Hoff).
    + intros i Hin. apply Hoff. intros ->. done.
    + split; [|done]. exists nd. splits; try done. rewrite Hd. apply take_app_length.
  - destruct Hp as [(nd & Hnd & Hbuf & Hnx) Htk].
    destruct (mq_link_spec _ _ _ _ _ _ _ Hmq Hnd Hnx) as (mq1 & Hop & Hc1 & Hr1). rewrite Hop. simpl.
    assert (Z.of_nat (length (mn_data nd)) = sz) as Hl.
    { destruct (mq_repr_has _ _ _ _ m Hmq) as (nd' & Hnd' & Hl'); [set_solver|]. congruence. }
    assert (cell (mq_pool mq1) m = mn_data nd) as Em by (rewrite (proj1 Hc1); unfold cell; by rewrite Hnd).
    eexists _, _, (MqSpec (if urgent then mn_data nd :: sp_queue a else sp_queue a ++ [mn_data nd]) (sp_taken a)), _, fs.
    split; [done|]. split; [by constructor|].
    apply (sys_repr_move sz s a qs fs mq1 _ t None _ _ Hr); simpl.
    + rewrite <-Hsz. apply Hc1.
    + exact Hr1.
    + rewrite Hq, <-(cell_list_ext _ _ qs Hc1), <-Em. destruct urgent; [done|by rewrite fmap_app].
    + intros i Hin. by apply (mq_link_held _ _ _ _ _ _ _ _ Hmq Hop).
    + done.
    + done.
  - rewrite (copy_out_spec _ _ _ _ _ _ Hmq) by (by left). simpl.
    eexists _, _, (MqSpec (sp_queue a) (delete t (sp_taken a))), qs, fs. split; [done|]. split; [by constructor|].
    apply (sys_repr_move sz s a qs fs _ _ t (Some (PRelease m))); try done; simpl.
    + intros. by rewrite lookup_delete_ne.
    + apply lookup_delete_eq.
  - destruct (mq_release_spec _ _ _ _ _ Hmq) as (mq1 & Hop & Hr1 & Hc1 & _). rewrite Hop. simpl.
    eexists _, Tau, a, qs, (m :: fs). split; [done|]. split; [constructor|].
    apply (sys_repr_move sz s a qs fs mq1 a t None); try done; simpl.
    + rewrite <-Hsz. apply Hc1.
    + by rewrite (cell_list_ext _ _ _ Hc1).
    + intros i Hin. apply (mq_release_held _ _ m i Hop). by intros ->.
Qed.

(** C10: whatever the interleaving of the critical sections and copies of any
    number of senders, urgent senders and receivers, no step faults, and the
    run refines a queue of cells in which a message, with its bytes, appears
    at the end (or the front) at one point of its send, and each receiver
    gets the bytes of the cell it took from the front: no message is lost,
    duplicated or torn, and at every point each node of the pool is in exactly
    one place. *)
Theorem mq_interleaving_refines (s : mq_sys) (a : mq_spec) (qs fs : list nat) (sz : Z) (sched : list (tid * mq_call)) :
  sys_repr sz s a qs fs ->
  exists s' es a' qs' fs', mq_run sched s = Some (s', es) /\ spec_run sz a es a' /\ sys_repr sz s' a' qs' fs'.
Proof.
  revert s a qs fs. induction sched as [|[t c] sched IH]; intros s a qs fs Hr; simpl.
  { exists s, [], a, qs, fs. splits; [done|constructor|done]. }
  destruct (mq_exec_step sz s a qs fs t c Hr) as (s1 & e & a1 & qs1 & fs1 & -> & Hs & Hr1). simpl.
  destruct (IH s1 a1 qs1 fs1 Hr1) as (s' & es & a' & qs' & fs' & -> & Hrun & Hr'). simpl.
  exists s', (e :: es), a', qs', fs'. splits; [done|by econstructor|done].
Qed.

(** ** Witnesses *)

Definition demo_mq : rt_messagequeue := Mq 0 demo_mq_pool 4 2 0 None None (Some 1%nat).

Lemma demo_mq_repr : mq_repr demo_mq [] [1%nat; 0%nat] [].
Proof.
  split; simpl; try done; try lia.
  - by left.
  - split; [done|]. eexists. split; [vm_compute; reflexivity|]. simpl. split; [done|]. eexists.
    split; [vm_compute; reflexivity|]. done.
  - apply Permutation_swap.
  - intros i Hi. change (Pos.to_nat 2) with 2%nat in Hi. destruct i as [|[|i]]; [| |lia];
      eexists; (split; [vm_compute; reflexivity|done]).
Qed.

Lemma demo_mq_ok : mq_ok 4 demo_k [].
Proof.
  exists demo_mq, [], [1%nat; 0%nat]. split; [vm_compute; reflexivity|].
  split; [eexists; vm_compute; reflexivity|]. split; [apply demo_mq_repr|done].
Qed.

Example rt_mq_send_fifo_witness :
  exists k1 r k2, rt_mq_urgent 4 [7; 8] demo_k = Some (k1, r) /\ finish (k1, r) = Some (k2, r) /\ kernel_wf k2 /\
    exists b m, r = Done RT_EOK b /\ mq_ok 4 k2 [m] /\ take 2 m = [7; 8] /\ Z.of_nat (length m) = 4.
Proof.
  destruct (rt_mq_send_fifo demo_k 4 1 [7; 8] true [] 4 2 demo_k_wf demo_mq_ok) as
    (k1 & r & k2 & Hop & Hf & Hk2 & _ & _ & H).
  - reflexivity.
  - reflexivity.
  - exists k1, r, k2. split; [exact Hop|]. split; [exact Hf|]. split; [exact Hk2|].
    destruct H as (b & m & Hr & Hok & Ht & Hl & _); [simpl; lia|simpl; lia|].
    exists b, m. split; [exact Hr|]. split; [exact Hok|]. split; [exact Ht|exact Hl].
Defined.

Example rt_mq_recv_fifo_witness :
  exists k1 r k2, rt_mq_recv_enter 4 4 9 demo_k = Some (k1, r) /\ finish (k1, r) = Some (k2, r) /\ kernel_wf k2 /\
    mq_recv_outcome 4 1 (demo_th 1 20 0 0) 4 9 0 [] demo_k k1 r /\ forall q', mq_ok 4 k1 q' -> mq_ok 4 k2 q'.
Proof.
  apply (rt_mq_recv_fifo demo_k 4 1 (demo_th 1 20 0 0) 4 9 [] demo_k_wf demo_mq_ok).
  - reflexivity.
  - vm_compute. reflexivity.
  - reflexivity.
  - unfold max_delay. lia.
Defined.

Lemma demo_sys_repr : sys_repr 4 (MqSys demo_mq ∅) (MqSpec [] ∅) [] [1%nat; 0%nat].
Proof.
  split; try done.
  - simpl. unfold slots. rewrite map_to_list_empty. apply demo_mq_repr.
Qed.

(** Thread 1 sends while 2 sends urgently and 3 receives in between. *)
Definition demo_interleaving : list (tid * mq_call) :=
  let c1 := (1%nat, CallSend [1; 2; 3] false) in let c2 := (2%nat, CallSend [9] true) in
  let c3 := (3%nat, CallRecv 4) in [c1; c2; c1; c1; c2; c3; c2; c1; c3; c3].

Example mq_interleaving_refines_witness :
  exists s' es a' qs' fs', mq_run demo_interleaving (MqSys demo_mq ∅) = Some (s', es) /\
    spec_run 4 (MqSpec [] ∅) es a' /\ sys_repr 4 s' a' qs' fs'.
Proof. apply (mq_interleaving_refines (MqSys demo_mq ∅) (MqSpec [] ∅) [] [1%nat; 0%nat] 4 demo_interleaving demo_sys_repr). Defined.
