(* ===== verification/Mem.v ===== *)
(** * The heap (rt-thread/src/mem.c)

    The small-memory allocator: a doubly linked list of block headers laid out
    from [heap_ptr] to the end stub, by offsets from [heap_ptr]. The semaphore
    [heap_sem] makes each call one atomic step. *)

From S2P Require Import Prelude.

(** ** State *)

Record heap_mem := HeapMem { hm_magic : Z; hm_used : Z; hm_next : Z; hm_prev : Z }.

(** [h_mem]: the headers in memory, by offset; [h_data]: the other bytes. *)
Record heap := Heap {
  heap_ptr : Z;
  h_mem : gmap Z heap_mem;
  h_data : gmap Z Z;
  mem_size_aligned : Z;
  lfree : Z;
  used_mem : Z;
  max_mem : Z;
}.

Definition HEAP_MAGIC : Z := 7840.           (* 0x1ea0 *)
Definition SIZEOF_STRUCT_MEM : Z := 12.
Definition MIN_SIZE : Z := 12.
Definition MIN_SIZE_ALIGNED : Z := RT_ALIGN MIN_SIZE 4.

Definition set_hmem x h := Heap (heap_ptr h) x (h_data h) (mem_size_aligned h) (lfree h) (used_mem h) (max_mem h).
Definition set_data x h := Heap (heap_ptr h) (h_mem h) x (mem_size_aligned h) (lfree h) (used_mem h) (max_mem h).
Definition set_lfree x h := Heap (heap_ptr h) (h_mem h) (h_data h) (mem_size_aligned h) x (used_mem h) (max_mem h).
Definition set_used x h := Heap (heap_ptr h) (h_mem h) (h_data h) (mem_size_aligned h) (lfree h) x (max_mem h).
(** [used_mem += n; if (max_mem < used_mem) max_mem = used_mem]. *)
Definition count_used n h :=
  let u := u32 (used_mem h + n) in
  Heap (heap_ptr h) (h_mem h) (h_data h) (mem_size_aligned h) (lfree h) u (if max_mem h <? u then u else max_mem h).

Definition heap_end (h : heap) : Z := mem_size_aligned h + SIZEOF_STRUCT_MEM.

Definition upd_hm (off : Z) (f : heap_mem -> heap_mem) (h : heap) : option heap :=
  m ← h_mem h !! off; Some (set_hmem (<[off := f m]> (h_mem h)) h).
Definition hm_set_used x m := HeapMem (hm_magic m) x (hm_next m) (hm_prev m).
Definition hm_set_next x m := HeapMem (hm_magic m) (hm_used m) x (hm_prev m).
Definition hm_set_prev x m := HeapMem (hm_magic m) (hm_used m) (hm_next m) x.
Definition hm_set_magic x m := HeapMem x (hm_used m) (hm_next m) (hm_prev m).

(** ** Operations *)

Definition plug_holes_forward (mem : Z) (h : heap) : option heap :=
  m ← h_mem h !! mem;
  let nmem := hm_next m in
  nm ← h_mem h !! nmem;
  if negb (mem =? nmem) && (hm_used nm =? 0) && negb (nmem =? heap_end h) then
    let h := if lfree h =? nmem then set_lfree mem h else h in
    h ← upd_hm mem (hm_set_next (hm_next nm)) h;
    upd_hm (hm_next nm) (hm_set_prev mem) h
  else Some h.

Definition plug_holes_backward (mem : Z) (h : heap) : option heap :=
  m ← h_mem h !! mem;
  let pmem := hm_prev m in
  pm ← h_mem h !! pmem;
  if negb (pmem =? mem) && (hm_used pm =? 0) then
    let h := if lfree h =? mem then set_lfree pmem h else h in
    h ← upd_hm pmem (hm_set_next (hm_next m)) h;
    upd_hm (hm_next m) (hm_set_prev pmem) h
  else Some h.

Definition plug_holes (mem : Z) (h : heap) : option heap :=
  h ← plug_holes_forward mem h; plug_holes_backward mem h.

Definition rt_system_heap_init (begin_addr end_addr : Z) (h : heap) : heap :=
  let begin_align := RT_ALIGN begin_addr 4 in
  let end_align := RT_ALIGN_DOWN end_addr 4 in
  if (2 * SIZEOF_STRUCT_MEM <? end_align) && (begin_align <=? end_align - 2 * SIZEOF_STRUCT_MEM) then
    let size := end_align - begin_align - 2 * SIZEOF_STRUCT_MEM in
    let e := size + SIZEOF_STRUCT_MEM in
    Heap begin_align
      (<[e := HeapMem HEAP_MAGIC 1 e e]> (<[0 := HeapMem HEAP_MAGIC 0 e 0]> (h_mem h)))
      (h_data h) size 0 (used_mem h) (max_mem h)
  else h.

(** The search of [rt_malloc]: the first free block from [ptr] on that is large
    enough, among those before [mem_size_aligned - size]. *)
Fixpoint malloc_find (fuel : nat) (ptr size : Z) (h : heap) : option (option Z) :=
  if ptr <? u32 (mem_size_aligned h - size) then
    match fuel with
    | O => None
    | S fuel =>
        mem ← h_mem h !! ptr;
        if (hm_used mem =? 0) && (size <=? u32 (hm_next mem - u32 (ptr + SIZEOF_STRUCT_MEM))) then Some (Some ptr)
        else malloc_find fuel (hm_next mem) size h
    end
  else Some None.

(** A header for the rest of block [ptr] after [size] bytes. *)
Definition split_block (ptr size : Z) (h : heap) : option heap :=
  mem ← h_mem h !! ptr;
  let ptr2 := ptr + SIZEOF_STRUCT_MEM + size in
  let h := set_hmem (<[ptr2 := HeapMem HEAP_MAGIC 0 (hm_next mem) ptr]> (h_mem h)) h in
  h ← upd_hm ptr (hm_set_next ptr2) h;
  if negb (hm_next mem =? mem_size_aligned h + SIZEOF_STRUCT_MEM)
  then upd_hm (hm_next mem) (hm_set_prev ptr2) h else Some h.

(** [while (lfree->used && lfree != heap_end) lfree = lfree->next]. *)
Fixpoint lfree_advance (fuel : nat) (h : heap) : option heap :=
  m ← h_mem h !! lfree h;
  if negb (hm_used m =? 0) && negb (lfree h =? heap_end h) then
    match fuel with O => None | S fuel => lfree_advance fuel (set_lfree (hm_next m) h) end
  else Some h.

(** No list of headers is longer. *)
Definition heap_fuel (h : heap) : nat := Z.to_nat (mem_size_aligned h / SIZEOF_STRUCT_MEM + 2).

(** Using the block found at [ptr]. *)
Definition malloc_take (ptr size : Z) (h : heap) : option heap :=
  mem ← h_mem h !! ptr;
  h ← (if u32 (size + SIZEOF_STRUCT_MEM + MIN_SIZE_ALIGNED) <=? u32 (hm_next mem - u32 (ptr + SIZEOF_STRUCT_MEM)) then
         h ← split_block ptr size h;
         h ← upd_hm ptr (hm_set_used 1) h;
         Some (count_used (size + SIZEOF_STRUCT_MEM) h)
       else
         h ← upd_hm ptr (hm_set_used 1) h;
         Some (count_used (hm_next mem - ptr) h));
  h ← upd_hm ptr (hm_set_magic HEAP_MAGIC) h;
  if ptr =? lfree h then lfree_advance (heap_fuel h) h else Some h.

(** Addresses are 32-bit; [None] is [RT_NULL] in the second component. *)
Definition rt_malloc (size : Z) (h : heap) : option (heap * option Z) :=
  if size =? 0 then Some (h, None)
  else
    let size := RT_ALIGN size 4 in
    if mem_size_aligned h <? size then Some (h, None)
    else
      let size := if size <? MIN_SIZE_ALIGNED then MIN_SIZE_ALIGNED else size in
      r ← malloc_find (heap_fuel h) (lfree h) size h;
      match r with
      | None => Some (h, None)
      | Some ptr => h ← malloc_take ptr size h; Some (h, Some (heap_ptr h + ptr + SIZEOF_STRUCT_MEM))
      end.

(** [rt_free] of a pointer that is not null. *)
Definition rt_free (rmem : Z) (h : heap) : option heap :=
  if (rmem <? heap_ptr h) || (heap_ptr h + heap_end h <=? rmem) then Some h
  else
    let mem := rmem - SIZEOF_STRUCT_MEM - heap_ptr h in
    h ← upd_hm mem (fun m => hm_set_magic HEAP_MAGIC (hm_set_used 0 m)) h;
    let h := if mem <? lfree h then set_lfree mem h else h in
    m ← h_mem h !! mem;
    let h := set_used (u32 (used_mem h - (hm_next m - mem))) h in
    plug_holes mem h.

(** [rt_memcpy] and [rt_memset] on heap bytes, by offsets. *)
Fixpoint copy_bytes (n : nat) (dst src : Z) (d : gmap Z Z) : gmap Z Z :=
  match n with
  | O => d
  | S n => copy_bytes n (dst + 1) (src + 1) (<[dst := default 0 (d !! src)]> d)
  end.
Fixpoint set_bytes (n : nat) (dst v : Z) (d : gmap Z Z) : gmap Z Z :=
  match n with O => d | S n => set_bytes n (dst + 1) v (<[dst := v]> d) end.

Definition rt_realloc (rmem : option Z) (newsize : Z) (h : heap) : option (heap * option Z) :=
  let newsize := RT_ALIGN newsize 4 in
  if mem_size_aligned h <? newsize then Some (h, None)
  else if newsize =? 0 then
    match rmem with Some p => h ← rt_free p h; Some (h, None) | None => Some (h, None) end
  else
    match rmem with
    | None => rt_malloc newsize h
    | Some rmem =>
        if (rmem <? heap_ptr h) || (heap_ptr h + heap_end h <=? rmem) then Some (h, Some rmem)
        else
          let ptr := rmem - SIZEOF_STRUCT_MEM - heap_ptr h in
          mem ← h_mem h !! ptr;
          let size := u32 (hm_next mem - ptr - SIZEOF_STRUCT_MEM) in
          if size =? newsize then Some (h, Some rmem)
          else if u32 (newsize + SIZEOF_STRUCT_MEM + MIN_SIZE) <? size then
            let h := set_used (u32 (used_mem h - (size - newsize))) h in
            h ← split_block ptr newsize h;
            h ← plug_holes (ptr + SIZEOF_STRUCT_MEM + newsize) h;
            Some (h, Some rmem)
          else
            '(h, nmem) ← rt_malloc newsize h;
            match nmem with
            | None => Some (h, None)
            | Some p =>
                let h := set_data (copy_bytes (Z.to_nat (if size <? newsize then size else newsize))
                                     (p - heap_ptr h) (rmem - heap_ptr h) (h_data h)) h in
                h ← rt_free rmem h; Some (h, Some p)
            end
    end.

Definition rt_calloc (count size : Z) (h : heap) : option (heap * option Z) :=
  '(h, p) ← rt_malloc (u32 (count * size)) h;
  match p with
  | None => Some (h, None)
  | Some a => Some (set_data (set_bytes (Z.to_nat (u32 (count * size))) (a - heap_ptr h) 0 (h_data h)) h, Some a)
  end.

(** total, used and maximum. *)
Definition rt_memory_info (h : heap) : Z * Z * Z := (mem_size_aligned h, used_mem h, max_mem h).

(** ** The heap as a list of blocks *)

(** A block: is it used, and its length with the header. *)
Notation block := (bool * Z)%type.
Implicit Types (bs : list block) (m : gmap Z heap_mem).

Fixpoint total bs : Z := match bs with [] => 0 | (_, n) :: bs => n + total bs end.

(** The headers of the blocks [bs] from offset [off] to [e]; [p] is the offset of
    the block before. *)
Fixpoint seg m (p off : Z) bs (e : Z) : Prop :=
  match bs with
  | [] => off = e
  | (u, n) :: bs =>
      m !! off = Some (HeapMem HEAP_MAGIC (Z.b2z u) (off + n) p) /\ 12 <= n /\ n mod 4 = 0 /\ seg m off (off + n) bs e
  end.

Fixpoint prev_of (p off : Z) bs : Z := match bs with [] => p | (_, n) :: bs => prev_of off (off + n) bs end.

Definition end_stub m (e : Z) : Prop := exists p, m !! e = Some (HeapMem HEAP_MAGIC 1 e p).

Lemma total_app bs1 bs2 : total (bs1 ++ bs2) = total bs1 + total bs2.
Proof. induction bs1 as [|[u n] bs1 IH]; simpl; lia. Qed.

Lemma seg_total m bs : forall p off e, seg m p off bs e -> e = off + total bs /\ off <= e /\ 12 * Z.of_nat (length bs) <= total bs.
Proof.
  induction bs as [|[u n] bs IH]; intros p off e; simpl; [lia|].
  intros (_ & Hn & _ & Hs). apply IH in Hs. lia.
Qed.

Lemma seg_aligned m bs : forall p off e, seg m p off bs e -> total bs mod 4 = 0.
Proof.
  induction bs as [|[u n] bs IH]; intros p off e; simpl; [done|].
  intros (_ & _ & Hn & Hs%IH). dlia.
Qed.

Lemma seg_app m bs1 bs2 : forall p off e,
  seg m p off (bs1 ++ bs2) e <->
  seg m p off bs1 (off + total bs1) /\ seg m (prev_of p off bs1) (off + total bs1) bs2 e.
Proof.
  induction bs1 as [|[u n] bs1 IH]; intros p off e; simpl.
  - rewrite Z.add_0_r. split; [intros; by split|tauto].
  - rewrite IH, Z.add_assoc. tauto.
Qed.

Lemma seg_insert m bs x v : forall p off e,
  x < off \/ e <= x -> seg m p off bs e -> seg (<[x := v]> m) p off bs e.
Proof.
  induction bs as [|[u n] bs IH]; intros p off e Hx; simpl; [done|].
  intros (Hm & Hn & Ha & Hs). pose proof (seg_total _ _ _ _ _ Hs) as (? & ? & _).
  splits; try done; [|apply IH; [lia|done]]. rewrite lookup_insert_ne; [done|lia].
Qed.

Lemma end_insert m e x v : x <> e -> end_stub m e -> end_stub (<[x := v]> m) e.
Proof. intros Hx [p Hp]. exists p. by rewrite lookup_insert_ne. Qed.

(** Changing the [prev] field of the first header from [off] on. *)
Lemma seg_reprev m bs p p' off e :
  seg m p off bs e -> end_stub m e ->
  exists hd, m !! off = Some hd /\ seg (<[off := hm_set_prev p' hd]> m) p' off bs e /\
    end_stub (<[off := hm_set_prev p' hd]> m) e.
Proof.
  destruct bs as [|[u n] bs]; simpl.
  - intros -> [pe He]. exists (HeapMem HEAP_MAGIC 1 e pe). splits; try done. exists p'. by rewrite lookup_insert_eq.
  - intros (Hm & Hn & Ha & Hs) He. pose proof (seg_total _ _ _ _ _ Hs) as (? & ? & _).
    eexists. split; [done|]. simpl. rewrite lookup_insert_eq. splits; try done.
    + apply seg_insert; [lia|done].
    + apply end_insert; [lia|done].
Qed.

(** The header and the two sides of a block. *)
Lemma seg_focus m bs1 u n bs2 p off e :
  seg m p off (bs1 ++ (u, n) :: bs2) e ->
  let o := off + total bs1 in
  seg m p off bs1 o /\ m !! o = Some (HeapMem HEAP_MAGIC (Z.b2z u) (o + n) (prev_of p off bs1)) /\
  12 <= n /\ n mod 4 = 0 /\ seg m o (o + n) bs2 e /\ off <= o /\ o + n <= e.
Proof.
  rewrite seg_app. simpl. intros (H1 & H2 & H3 & H4 & H5). splits; try done.
  - pose proof (seg_total _ _ _ _ _ H1). lia.
  - pose proof (seg_total _ _ _ _ _ H5). lia.
Qed.

Lemma seg_focus0 m bs1 u n bs2 e :
  seg m 0 0 (bs1 ++ (u, n) :: bs2) e ->
  seg m 0 0 bs1 (total bs1) /\
  m !! total bs1 = Some (HeapMem HEAP_MAGIC (Z.b2z u) (total bs1 + n) (prev_of 0 0 bs1)) /\
  12 <= n /\ n mod 4 = 0 /\ seg m (total bs1) (total bs1 + n) bs2 e /\ 0 <= total bs1 /\ total bs1 + n <= e.
Proof. apply (seg_focus m bs1 u n bs2 0 0 e). Qed.

Lemma seg_join0 m bs1 u n bs2 e :
  seg m 0 0 bs1 (total bs1) ->
  m !! total bs1 = Some (HeapMem HEAP_MAGIC (Z.b2z u) (total bs1 + n) (prev_of 0 0 bs1)) ->
  12 <= n -> n mod 4 = 0 -> seg m (total bs1) (total bs1 + n) bs2 e -> seg m 0 0 (bs1 ++ (u, n) :: bs2) e.
Proof. intros. apply seg_app. rewrite Z.add_0_l. split; [done|]. simpl. done. Qed.

(** No two neighbours are free; [f]: the block before is free. *)
Fixpoint apart (f : bool) bs : Prop :=
  match bs with [] => True | (u, _) :: bs => (f = true -> u = true) /\ apart (negb u) bs end.
Definition no_adjacent bs : Prop := apart false bs.
Fixpoint used_sum bs : Z := match bs with [] => 0 | (u, n) :: bs => (if u : bool then n else 0) + used_sum bs end.

(** [lfree] is the offset of a block, or of the end stub. *)
Definition lfree_ok (x : Z) bs : Prop := exists bs1 bs2, bs = bs1 ++ bs2 /\ x = total bs1.
(** Every block below [x] is used. *)
Definition lowest_at (x : Z) bs : Prop :=
  exists bs1 bs2, bs = bs1 ++ bs2 /\ x = total bs1 /\ Forall (fun b => b.1 = true) bs1.

Record heap_wf (h : heap) bs : Prop := {
  hw_seg : seg (h_mem h) 0 0 bs (heap_end h);
  hw_end : end_stub (h_mem h) (heap_end h);
  hw_adj : no_adjacent bs;
  hw_size : 0 <= mem_size_aligned h /\ mem_size_aligned h mod 4 = 0;
  hw_ptr : 0 <= heap_ptr h /\ heap_ptr h mod 4 = 0 /\ heap_ptr h + heap_end h + 12 < 4294967296;
  hw_lfree : lfree_ok (lfree h) bs;
  hw_used : used_mem h = used_sum bs;
  hw_max : used_mem h <= max_mem h < 4294967296;
}.

Lemma used_sum_app bs1 bs2 : used_sum (bs1 ++ bs2) = used_sum bs1 + used_sum bs2.
Proof. induction bs1 as [|[u n] bs1 IH]; simpl; lia. Qed.

Lemma used_sum_bound m bs : forall p off e, seg m p off bs e -> 0 <= used_sum bs <= total bs.
Proof.
  induction bs as [|[u n] bs IH]; intros p off e; simpl; [lia|].
  intros (_ & Hn & _ & Hs%IH). destruct u; lia.
Qed.

Lemma heap_total h bs : heap_wf h bs -> total bs = mem_size_aligned h + 12 /\ (length bs < heap_fuel h)%nat.
Proof.
  intros Hw. destruct (seg_total _ _ _ _ _ (hw_seg _ _ Hw)) as (He & _ & Hl). unfold heap_end, SIZEOF_STRUCT_MEM in *.
  split; [lia|]. unfold heap_fuel, SIZEOF_STRUCT_MEM. pose proof (hw_size _ _ Hw). 
  assert (Z.of_nat (length bs) <= (mem_size_aligned h + 12) / 12) by (apply Z.div_le_lower_bound; lia).
  replace ((mem_size_aligned h + 12) / 12) with (mem_size_aligned h / 12 + 1) in * by dlia. lia.
Qed.

Lemma upd_hm_eq off f h hd : h_mem h !! off = Some hd -> upd_hm off f h = Some (set_hmem (<[off := f hd]> (h_mem h)) h).
Proof. unfold upd_hm. by intros ->. Qed.

(** ** Splitting and merging blocks *)

Lemma split_block_spec h bs1 u n bs2 size :
  let o := total bs1 in
  seg (h_mem h) 0 0 (bs1 ++ (u, n) :: bs2) (heap_end h) -> end_stub (h_mem h) (heap_end h) ->
  0 <= size -> size mod 4 = 0 -> size + 24 <= n ->
  exists m', split_block o size h = Some (set_hmem m' h) /\
    seg m' 0 0 (bs1 ++ (u, size + 12) :: (false, n - (size + 12)) :: bs2) (heap_end h) /\ end_stub m' (heap_end h).
Proof.
  intros o Hs He Hsz Hal Hfit. pose proof (seg_focus0 _ _ _ _ _ _ Hs) as (H1 & Ho & Hn & Hna & H2 & Hlo & Hhi).
  fold o in H1, Ho, H2, Hlo, Hhi. set (e := heap_end h) in *.
  unfold split_block, SIZEOF_STRUCT_MEM. rewrite Ho. simpl. set (x := o + 12 + size).
  set (m1 := <[x := HeapMem HEAP_MAGIC 0 (o + n) o]> (h_mem h)).
  assert (m1 !! o = Some (HeapMem HEAP_MAGIC (Z.b2z u) (o + n) (prev_of 0 0 bs1))) as Ho1
    by (unfold m1; rewrite lookup_insert_ne by lia; done).
  rewrite (upd_hm_eq o _ (set_hmem m1 h) _ Ho1). simpl. set (m2 := <[o := HeapMem HEAP_MAGIC (Z.b2z u) x (prev_of 0 0 bs1)]> m1).
  assert (seg m2 o (o + n) bs2 e /\ end_stub m2 e) as [H2' He'].
  { split.
    - apply seg_insert; [lia|]. apply seg_insert; [lia|done].
    - apply end_insert; [lia|]. apply end_insert; [lia|done]. }
  assert (forall m', (m' = m2 \/ exists v, m' = <[o + n := v]> m2) -> seg m' x (o + n) bs2 e -> end_stub m' e ->
    seg m' 0 0 (bs1 ++ (u, size + 12) :: (false, n - (size + 12)) :: bs2) e /\ end_stub m' e) as Hgen.
  { intros m' Hm' Hs2 Hend. split; [|done].
    assert (m' !! o = Some (HeapMem HEAP_MAGIC (Z.b2z u) x (prev_of 0 0 bs1)) /\
            m' !! x = Some (HeapMem HEAP_MAGIC 0 (o + n) o) /\ seg m' 0 0 bs1 o) as (Eo & Ex & E1).
    { assert (m2 !! o = Some (HeapMem HEAP_MAGIC (Z.b2z u) x (prev_of 0 0 bs1)) /\
        m2 !! x = Some (HeapMem HEAP_MAGIC 0 (o + n) o) /\ seg m2 0 0 bs1 o) as (? & ? & ?).
      { unfold m2, m1. rewrite lookup_insert_eq, lookup_insert_ne, lookup_insert_eq by lia. splits; try done.
        apply seg_insert; [lia|]. apply seg_insert; [lia|done]. }
      destruct Hm' as [->|[v ->]]; [done|]. rewrite !lookup_insert_ne by lia. splits; try done.
      apply seg_insert; [lia|done]. }
    apply seg_join0; fold o; replace (o + (size + 12)) with x by lia; try done; try lia; [dlia|]. simpl.
    replace (x + (n - (size + 12))) with (o + n) by lia. splits; try done; try lia; dlia. }
  change (mem_size_aligned h + 12) with e. destruct (Z.eqb_spec (o + n) e) as [Heq|Hne]; simpl.
  - exists m2. split; [done|]. apply Hgen; [by left| |done].
    destruct bs2 as [|[u2 n2] bs2]; [done|].
    pose proof (seg_total _ _ _ _ _ H2) as (Et & _ & Hlen). simpl in H2, Et, Hlen. destruct H2 as (_ & ? & _ & H2).
    pose proof (seg_total _ _ _ _ _ H2). exfalso. lia.
  - destruct (seg_reprev _ _ _ x _ _ H2' He') as (hd & Hhd & Hs3 & He3).
    rewrite (upd_hm_eq (o + n) _ (set_hmem m2 h) hd Hhd). simpl.
    exists (<[o + n := hm_set_prev x hd]> m2). split; [done|]. apply Hgen; [right; by eexists|done|done].
Qed.

(** The heap with new headers and a new [lfree]. *)
Definition relinked (h : heap) m' (x : Z) : heap := set_lfree x (set_hmem m' h).
Definition moved (x from to : Z) : Z := if x =? from then to else x.

(** Two neighbours become one block: the headers after [pmem->next = next;
    next->prev = pmem]. *)
Lemma seg_merge m bs1 u a b n1 n2 bs2 e :
  let o := total bs1 in
  seg m 0 0 (bs1 ++ (a, n1) :: (b, n2) :: bs2) e -> end_stub m e ->
  exists hd, let m1 := <[o := HeapMem HEAP_MAGIC (Z.b2z u) (o + n1 + n2) (prev_of 0 0 bs1)]> m in
    m1 !! (o + n1 + n2) = Some hd /\
    let m2 := <[o + n1 + n2 := hm_set_prev o hd]> m1 in
    seg m2 0 0 (bs1 ++ (u, n1 + n2) :: bs2) e /\ end_stub m2 e.
Proof.
  intros o Hs He. destruct (seg_focus0 _ _ _ _ _ _ Hs) as (H1 & Ho & Hn1 & Ha1 & (Ho2 & Hn2 & Ha2 & H2) & Hlo & Hhi).
  fold o in H1, Ho, Ho2, H2, Hlo, Hhi. pose proof (seg_total _ _ _ _ _ H2) as (_ & Hle & _).
  set (m1 := <[o := _]> m).
  assert (seg m1 (o + n1) (o + n1 + n2) bs2 e) as H2' by (apply seg_insert; [lia|done]).
  assert (end_stub m1 e) as He' by (apply end_insert; [lia|done]).
  destruct (seg_reprev _ _ _ o _ _ H2' He') as (hd & Hhd & Hs3 & He3). exists hd. cbv zeta. split; [done|]. split; [|done].
  apply seg_join0; fold o; try done; try lia; [| |dlia|by rewrite Z.add_assoc].
  - apply seg_insert; [lia|]. apply seg_insert; [lia|done].
  - rewrite lookup_insert_ne by lia. unfold m1. by rewrite lookup_insert_eq, Z.add_assoc.
Qed.

Lemma plug_forward_spec h bs1 n bs2 :
  let o := total bs1 in
  seg (h_mem h) 0 0 (bs1 ++ (false, n) :: bs2) (heap_end h) -> end_stub (h_mem h) (heap_end h) ->
  match bs2 with
  | (false, n2) :: bs2' => exists m', plug_holes_forward o h = Some (relinked h m' (moved (lfree h) (o + n) o)) /\
      seg m' 0 0 (bs1 ++ (false, n + n2) :: bs2') (heap_end h) /\ end_stub m' (heap_end h)
  | _ => plug_holes_forward o h = Some h
  end.
Proof.
  intros o Hs He. destruct (seg_focus0 _ _ _ _ _ _ Hs) as (H1 & Ho & Hn & Ha & H2 & Hlo & Hhi). fold o in Ho, H2, Hhi.
  unfold plug_holes_forward. rewrite Ho. simpl. destruct bs2 as [|[[|] n2] bs2].
  - simpl in H2. destruct He as [pe He]. rewrite H2, He. simpl. by rewrite andb_false_r.
  - destruct H2 as (Hx & _). rewrite Hx. simpl. by rewrite andb_false_r.
  - destruct H2 as (Hx & Hn2 & _ & H2). pose proof (seg_total _ _ _ _ _ H2) as (_ & Hle & _). rewrite Hx. simpl.
    rewrite (proj2 (Z.eqb_neq o (o + n))), (proj2 (Z.eqb_neq (o + n) (heap_end h))) by lia. simpl.
    destruct (seg_merge _ _ false _ _ _ _ _ _ Hs He) as (hd & Hhd & Hs' & He'). fold o in Hhd, Hs', He'.
    set (h1 := if lfree h =? o + n then set_lfree o h else h).
    assert (h1 = set_lfree (moved (lfree h) (o + n) o) h) as -> by (unfold h1, moved; destruct (_ =? _); by destruct h).
    rewrite (upd_hm_eq o _ (set_lfree _ h) _ Ho). simpl. rewrite (upd_hm_eq (o + n + n2) _ _ hd) by (simpl; exact Hhd). simpl.
    eexists. split; [done|]. by split.
Qed.

Lemma prev_of_snoc u n bs : forall p off, prev_of p off (bs ++ [(u, n)]) = off + total bs.
Proof. induction bs as [|[u' n'] bs IH]; intros p off; simpl; [lia|]. rewrite IH. lia. Qed.

Lemma plug_backward_spec h bs1 u0 n0 n bs2 :
  let o0 := total bs1 in
  seg (h_mem h) 0 0 (bs1 ++ (u0, n0) :: (false, n) :: bs2) (heap_end h) -> end_stub (h_mem h) (heap_end h) ->
  if u0 then plug_holes_backward (o0 + n0) h = Some h
  else exists m', plug_holes_backward (o0 + n0) h = Some (relinked h m' (moved (lfree h) (o0 + n0) o0)) /\
      seg m' 0 0 (bs1 ++ (false, n0 + n) :: bs2) (heap_end h) /\ end_stub m' (heap_end h).
Proof.
  intros o0 Hs He. destruct (seg_focus0 _ _ _ _ _ _ Hs) as (H1 & Ho0 & Hn0 & Ha0 & (Ho & Hn & _ & H2) & Hlo & Hhi).
  fold o0 in Ho0, Ho, Hlo. unfold plug_holes_backward. rewrite Ho. simpl. rewrite Ho0. simpl.
  rewrite (proj2 (Z.eqb_neq o0 (o0 + n0))) by lia. destruct u0; simpl; [done|].
  destruct (seg_merge _ _ false _ _ _ _ _ _ Hs He) as (hd & Hhd & Hs' & He'). fold o0 in Hhd, Hs', He'.
  set (h1 := if lfree h =? o0 + n0 then set_lfree o0 h else h).
  assert (h1 = set_lfree (moved (lfree h) (o0 + n0) o0) h) as -> by (unfold h1, moved; destruct (_ =? _); by destruct h).
  rewrite (upd_hm_eq o0 _ (set_lfree _ h) _ Ho0). simpl. rewrite (upd_hm_eq (o0 + n0 + n) _ _ hd) by (simpl; exact Hhd). simpl.
  eexists. split; [done|]. by split.
Qed.

Lemma plug_backward_first h n bs2 :
  seg (h_mem h) 0 0 ((false, n) :: bs2) (heap_end h) -> plug_holes_backward 0 h = Some h.
Proof. intros (H0 & _). unfold plug_holes_backward. rewrite H0. simpl. rewrite H0. simpl. done. Qed.

(** *** Where [lfree] may point *)

Definition positive bs : Prop := Forall (fun b => 12 <= b.2) bs.

Lemma seg_positive m bs : forall p off e, seg m p off bs e -> positive bs.
Proof.
  induction bs as [|[u n] bs IH]; intros p off e; simpl; [constructor|].
  intros (_ & Hn & _ & Hs). constructor; [done|]. by eapply IH.
Qed.
Lemma positive_total bs : positive bs -> 0 <= total bs.
Proof. induction 1 as [|[u n] bs Hn _ IH]; simpl in *; lia. Qed.

Lemma split_cases {A} (l1 : list A) c l2 p q :
  l1 ++ c :: l2 = p ++ q -> (exists r, l1 = p ++ r /\ q = r ++ c :: l2) \/ (exists r, p = l1 ++ c :: r /\ l2 = r ++ q).
Proof.
  revert p. induction l1 as [|x l1 IH]; intros [|y p]; simpl.
  - intros <-. left. by exists [].
  - intros [= -> ->]. right. by exists p.
  - intros <-. left. by exists (x :: l1).
  - intros [= -> E]. destruct (IH p E) as [(r & -> & ->)|(r & -> & ->)]; [left; by exists r|right; by exists r].
Qed.

Lemma lfree_merge x bs1 a n1 b n2 u bs2 :
  positive (bs1 ++ (a, n1) :: (b, n2) :: bs2) -> lfree_ok x (bs1 ++ (a, n1) :: (b, n2) :: bs2) ->
  lfree_ok (moved x (total bs1 + n1) (total bs1)) (bs1 ++ (u, n1 + n2) :: bs2).
Proof.
  intros Hp (p & q & E & ->). unfold moved. pose proof Hp as [Hp1 [Hn1 Hp2]%Forall_cons]%Forall_app. simpl in *.
  destruct (split_cases _ _ _ _ _ E) as [(r & -> & ->)|(r & -> & E2)].
  - apply Forall_app in Hp1 as [_ Hr%positive_total]. rewrite total_app, (proj2 (Z.eqb_neq _ _)) by lia.
    exists p, (r ++ (u, n1 + n2) :: bs2). by rewrite app_assoc.
  - destruct r as [|c r]; simpl in E2.
    + rewrite total_app. simpl. rewrite (proj2 (Z.eqb_eq _ _)) by lia. by exists bs1, ((u, n1 + n2) :: bs2).
    + injection E2 as <- ->. apply Forall_cons in Hp2 as [Hn2 [Hr%positive_total _]%Forall_app]. simpl in Hn2.
      rewrite total_app. simpl. rewrite (proj2 (Z.eqb_neq _ _)) by lia.
      exists (bs1 ++ (u, n1 + n2) :: r), q. rewrite <-app_assoc, total_app. simpl. split; [done|lia].
Qed.

Lemma lowest_merge x bs1 n1 b n2 u bs2 :
  positive (bs1 ++ (false, n1) :: (b, n2) :: bs2) -> lowest_at x (bs1 ++ (false, n1) :: (b, n2) :: bs2) ->
  lowest_at (moved x (total bs1 + n1) (total bs1)) (bs1 ++ (u, n1 + n2) :: bs2).
Proof.
  intros Hp (p & q & E & -> & Hu). unfold moved. pose proof Hp as [Hp1 [Hn1 Hp2]%Forall_cons]%Forall_app. simpl in *.
  destruct (split_cases _ _ _ _ _ E) as [(r & -> & ->)|(r & -> & E2)].
  - apply Forall_app in Hp1 as [_ Hr%positive_total]. rewrite total_app, (proj2 (Z.eqb_neq _ _)) by lia.
    exists p, (r ++ (u, n1 + n2) :: bs2). by rewrite app_assoc.
  - apply Forall_app in Hu as [_ [Hu _]%Forall_cons]. done.
Qed.

(** *** [plug_holes] *)

(** [bs1], a free block of length [n] merged with a free last block of [bs1], [bs2]. *)
Fixpoint push_free bs1 (n : Z) bs2 : list block :=
  match bs1 with
  | [] => (false, n) :: bs2
  | [(false, n0)] => (false, n0 + n) :: bs2
  | b :: bs1 => b :: push_free bs1 n bs2
  end.
Definition merged bs1 (n : Z) bs2 : list block :=
  match bs2 with (false, n2) :: bs2 => push_free bs1 (n + n2) bs2 | _ => push_free bs1 n bs2 end.

Lemma push_free_used bs1 n0 n bs2 : push_free (bs1 ++ [(true, n0)]) n bs2 = bs1 ++ (true, n0) :: (false, n) :: bs2.
Proof. induction bs1 as [|[u a] bs1 IH]; simpl; [done|]. rewrite IH. destruct u, bs1; done. Qed.
Lemma push_free_free bs1 n0 n bs2 : push_free (bs1 ++ [(false, n0)]) n bs2 = bs1 ++ (false, n0 + n) :: bs2.
Proof. induction bs1 as [|[u a] bs1 IH]; simpl; [done|]. rewrite IH. destruct u, bs1; done. Qed.

(** [x'] is where [lfree] goes from [x]. *)
Definition lfree_moves x x' bs bs' : Prop :=
  (lfree_ok x bs -> lfree_ok x' bs') /\ (lowest_at x bs -> lowest_at x' bs').

Lemma plug_holes_spec h bs1 n bs2 :
  seg (h_mem h) 0 0 (bs1 ++ (false, n) :: bs2) (heap_end h) -> end_stub (h_mem h) (heap_end h) ->
  exists m' x', plug_holes (total bs1) h = Some (relinked h m' x') /\
    seg m' 0 0 (merged bs1 n bs2) (heap_end h) /\ end_stub m' (heap_end h) /\
    lfree_moves (lfree h) x' (bs1 ++ (false, n) :: bs2) (merged bs1 n bs2).
Proof.
  intros Hs He. unfold plug_holes, merged.
  assert (exists m1 x1 n1 bs2', plug_holes_forward (total bs1) h = Some (relinked h m1 x1) /\
    seg m1 0 0 (bs1 ++ (false, n1) :: bs2') (heap_end h) /\ end_stub m1 (heap_end h) /\
    lfree_moves (lfree h) x1 (bs1 ++ (false, n) :: bs2) (bs1 ++ (false, n1) :: bs2') /\
    match bs2 with (false, n2) :: r => push_free bs1 (n + n2) r | _ => push_free bs1 n bs2 end = push_free bs1 n1 bs2')
    as (m1 & x1 & n1 & bs2' & -> & Hs1 & He1 & Hx1 & ->).
  { pose proof (plug_forward_spec h bs1 n bs2 Hs He) as Hf. cbv zeta in Hf. destruct bs2 as [|[[|] n2] bs2].
    1,2: eexists (h_mem h), (lfree h), n, _; rewrite Hf; splits; try done; by destruct h.
    destruct Hf as (m1 & -> & Hs1 & He1). eexists m1, _, (n + n2), bs2. splits; try done.
    pose proof (seg_positive _ _ _ _ _ Hs) as Hp. split; intros; [by eapply lfree_merge|by eapply lowest_merge]. }
  simpl. set (h1 := relinked h m1 x1). destruct bs1 as [|[u0 n0] bs0 _] using rev_ind.
  - exists m1, x1. splits; try done. by apply (plug_backward_first h1 n1 bs2').
  - rewrite <-app_assoc in Hs1. simpl in Hs1. rewrite total_app. simpl. rewrite Z.add_0_r.
    pose proof (plug_backward_spec h1 bs0 u0 n0 n1 bs2' Hs1 He1) as Hb. destruct u0; cbv zeta in Hb.
    + exists m1, x1. rewrite push_free_used, Hb. splits; try done. by rewrite <-(app_assoc bs0 _ (_ :: bs2')) in Hx1.
    + destruct Hb as (m2 & -> & Hs2 & He2). exists m2, (moved x1 (total bs0 + n0) (total bs0)).
      rewrite push_free_free. splits; try done. rewrite <-!app_assoc in Hx1. simpl in Hx1.
      pose proof (seg_positive _ _ _ _ _ Hs1) as Hp. destruct Hx1 as [Hx1 Hx2].
      rewrite <-app_assoc. split; intros; [eapply lfree_merge; [exact Hp|auto]|eapply lowest_merge; [exact Hp|auto]].
Qed.

(** ** No free neighbours *)

Fixpoint ends_free (f : bool) bs : bool := match bs with [] => f | (u, _) :: bs => ends_free (negb u) bs end.

Lemma apart_app bs1 bs2 : forall f, apart f (bs1 ++ bs2) <-> apart f bs1 /\ apart (ends_free f bs1) bs2.
Proof. induction bs1 as [|[u n] bs1 IH]; intros f; simpl; [tauto|]. rewrite IH. tauto. Qed.
Lemma apart_weaken bs : apart true bs -> apart false bs.
Proof. destruct bs as [|[u n] bs]; simpl; [done|]. intros [_ ?]. done. Qed.

Lemma apart_push n bs2 bs1 : forall f,
  apart f bs1 -> apart true bs2 -> (bs1 = [] -> f = false) -> apart f (push_free bs1 n bs2).
Proof.
  induction bs1 as [|[u a] bs1 IH]; intros f H1 H2 Hf.
  - simpl. rewrite (Hf eq_refl). done.
  - simpl in H1. destruct H1 as [Hu H1]. destruct u, bs1 as [|b bs1].
    + simpl. split; [done|]. split; [done|]. done.
    + change (push_free ((true, a) :: b :: bs1) n bs2) with ((true, a) :: push_free (b :: bs1) n bs2).
      split; [done|]. apply IH; [exact H1|exact H2|done].
    + simpl. split; [done|]. done.
    + change (push_free ((false, a) :: b :: bs1) n bs2) with ((false, a) :: push_free (b :: bs1) n bs2).
      split; [done|]. apply IH; [exact H1|exact H2|done].
Qed.

Lemma apart_merged bs1 u a n bs2 : no_adjacent (bs1 ++ (u, a) :: bs2) -> u = true -> no_adjacent (merged bs1 n bs2).
Proof.
  intros Hd ->. apply apart_app in Hd as [H1 [_ H2]]. simpl in H2. unfold merged, no_adjacent.
  destruct bs2 as [|[[|] n2] bs2]; simpl in H2; destruct_and?; apply apart_push; simpl; auto.
Qed.

Lemma used_push n bs2 bs1 : used_sum (push_free bs1 n bs2) = used_sum bs1 + used_sum bs2.
Proof.
  induction bs1 as [|[u a] bs1 IH]; [simpl; lia|]. destruct u, bs1 as [|b bs1]; try (simpl; lia).
  - change (push_free ((true, a) :: b :: bs1) n bs2) with ((true, a) :: push_free (b :: bs1) n bs2). simpl in *. lia.
  - change (push_free ((false, a) :: b :: bs1) n bs2) with ((false, a) :: push_free (b :: bs1) n bs2). simpl in *. lia.
Qed.
Lemma used_merged bs1 n bs2 : used_sum (merged bs1 n bs2) = used_sum bs1 + used_sum bs2.
Proof. unfold merged. destruct bs2 as [|[[|] n2] bs2]; rewrite used_push; simpl; lia. Qed.

(** ** The loops of [rt_malloc] *)

Lemma seg_positive_total m bs p off e : seg m p off bs e -> 0 <= total bs.
Proof. intros. eapply positive_total, seg_positive. done. Qed.

(** Block [b] at offset [o] can hold [size] bytes and is in the range searched. *)
Definition fits (h : heap) (size o : Z) (b : block) : Prop :=
  b.1 = false /\ size + 12 <= b.2 /\ o < mem_size_aligned h - size.

Lemma malloc_find_spec h bs size bs2 : forall fuel bs1,
  heap_wf h bs -> bs = bs1 ++ bs2 -> 12 <= size <= mem_size_aligned h -> (length bs2 < fuel)%nat ->
  exists r, malloc_find fuel (total bs1) size h = Some r /\
    match r with
    | Some ptr => exists pre n post, bs2 = pre ++ (false, n) :: post /\ ptr = total (bs1 ++ pre) /\ size + 12 <= n /\
        ptr < mem_size_aligned h - size
    | None => forall pre b post, bs2 = pre ++ b :: post -> ~ fits h size (total (bs1 ++ pre)) b
    end.
Proof.
  induction bs2 as [|[u n] bs2 IH]; intros fuel bs1 Hw -> Hsz Hf.
  { destruct (heap_total _ _ Hw) as [Ht _]. rewrite app_nil_r in Ht. exists None.
    split; [|intros pre b post E; by destruct pre].
    destruct fuel; simpl; rewrite u32_small by (pose proof (hw_ptr _ _ Hw); unfold is_u32, heap_end, SIZEOF_STRUCT_MEM in *; lia);
      rewrite (proj2 (Z.ltb_ge _ _)) by lia; done. }
  destruct fuel as [|fuel]; [simpl in Hf; lia|]. simpl.
  destruct (seg_focus0 _ _ _ _ _ _ (hw_seg _ _ Hw)) as (H1 & Ho & Hn & _ & H2 & Hlo & Hhi).
  pose proof (hw_ptr _ _ Hw) as Hptr. unfold heap_end, SIZEOF_STRUCT_MEM in *.
  rewrite u32_small by (unfold is_u32; lia).
  destruct (Z.ltb_spec (total bs1) (mem_size_aligned h - size)) as [Hlt|Hge].
  - rewrite Ho. simpl. rewrite (u32_small (total bs1 + 12)), u32_small by (unfold is_u32; lia).
    destruct ((Z.b2z u =? 0) && (size <=? total bs1 + n - (total bs1 + 12))) eqn:E.
    + apply andb_true_iff in E as [E1%Z.eqb_eq E2%Z.leb_le]. exists (Some (total bs1)). split; [done|].
      destruct u; [discriminate E1|]. exists [], n, bs2. rewrite app_nil_r. splits; try done; lia.
    + destruct (IH fuel (bs1 ++ [(u, n)])) as (r & Hop & Hr); [exact Hw|by rewrite <-app_assoc|done|simpl in Hf; lia|].
      rewrite total_app in Hop. simpl in Hop. rewrite Z.add_0_r in Hop. exists r. split; [done|].
      destruct r as [ptr|].
      * destruct Hr as (pre & n' & post & -> & Hp & ? & ?). rewrite <-app_assoc in Hp. by exists ((u, n) :: pre), n', post.
      * intros [|b' pre] b post; simpl.
        -- intros [= <- _] (Hu & Hfit & _). simpl in Hu, Hfit. subst u. simpl in E.
           apply Z.leb_gt in E. lia.
        -- intros [= <- ->]. specialize (Hr pre b post eq_refl). by rewrite <-app_assoc in Hr.
  - exists None. split; [done|]. intros pre b post E (_ & _ & Ho'). rewrite total_app in Ho'.
    assert (0 <= total pre); [|lia]. pose proof (seg_positive _ _ _ _ _ (hw_seg _ _ Hw)) as Hp. rewrite E in Hp.
    apply Forall_app in Hp as [_ [Hp _]%Forall_app]. by apply positive_total.
Qed.

Lemma lfree_advance_spec q : forall fuel h p,
  seg (h_mem h) 0 0 (p ++ q) (heap_end h) -> end_stub (h_mem h) (heap_end h) -> lfree h = total p ->
  (length q <= fuel)%nat ->
  exists r q', lfree_advance fuel h = Some (set_lfree (total (p ++ r)) h) /\ q = r ++ q' /\
    Forall (fun b => b.1 = true) r.
Proof.
  induction q as [|[u n] q IH]; intros fuel h p Hs He Hl Hf.
  - exists [], []. rewrite app_nil_r in *. destruct He as [pe He]. destruct (seg_total _ _ _ _ _ Hs) as (Et & _).
    assert (h_mem h !! lfree h = Some (HeapMem HEAP_MAGIC 1 (heap_end h) pe)) as Hm by (rewrite Hl; replace (total p) with (heap_end h) by lia; exact He).
    destruct fuel; simpl; rewrite Hm; simpl; rewrite (proj2 (Z.eqb_eq (lfree h) (heap_end h))) by lia; simpl;
      rewrite <-Hl; by destruct h.
  - destruct (seg_focus0 _ _ _ _ _ _ Hs) as (H1 & Ho & Hn & _ & H2 & Hlo & Hhi).
    destruct fuel as [|fuel]; [simpl in Hf; lia|]. simpl. rewrite Hl, Ho. simpl. destruct u; simpl.
    + rewrite (proj2 (Z.eqb_neq (total p) (heap_end h))) by lia. simpl.
      destruct (IH fuel (set_lfree (total p + n) h) (p ++ [(true, n)])) as (r & q' & Hop & -> & Hr);
        [by rewrite <-app_assoc|done|rewrite total_app; simpl; lia|simpl in Hf; lia|].
      rewrite Hop. exists ((true, n) :: r), q'. rewrite <-app_assoc. splits; try done. by constructor.
    + exists [], ((false, n) :: q). rewrite app_nil_r, <-Hl. splits; try done. by destruct h.
Qed.

(** ** Taking a block *)

Definition taken (size n : Z) : list block :=
  if size + 24 <=? n - 12 then [(true, size + 12); (false, n - (size + 12))] else [(true, n)].

Lemma total_taken size n : total (taken size n) = n.
Proof. unfold taken. destruct (_ <=? _); simpl; lia. Qed.

Lemma lfree_ok_replace x bs1 u n mid bs2 :
  total mid = n -> lfree_ok x (bs1 ++ (u, n) :: bs2) -> lfree_ok x (bs1 ++ mid ++ bs2).
Proof.
  intros Hm (p & q & E & ->). destruct (split_cases _ _ _ _ _ E) as [(r & -> & ->)|(r & -> & ->)].
  - exists p, (r ++ mid ++ bs2). by rewrite <-app_assoc.
  - exists (bs1 ++ mid ++ r), q. rewrite <-!app_assoc, !total_app. simpl. split; [done|lia].
Qed.

Lemma lowest_inv x bs1 n bs2 :
  lowest_at x (bs1 ++ (false, n) :: bs2) -> exists p r, bs1 = p ++ r /\ x = total p /\ Forall (fun b => b.1 = true) p.
Proof.
  intros (p & q & E & -> & Hu). destruct (split_cases _ _ _ _ _ E) as [(r & -> & ->)|(r & -> & ->)]; [eauto|].
  apply Forall_app in Hu as [_ [Hu _]%Forall_cons]. done.
Qed.

Lemma lowest_replace x bs1 n mid bs2 : lowest_at x (bs1 ++ (false, n) :: bs2) -> lowest_at x (bs1 ++ mid ++ bs2).
Proof. intros (p & r & -> & -> & Hu)%lowest_inv. exists p, (r ++ mid ++ bs2). by rewrite <-app_assoc. Qed.

Lemma seg_recolor m bs1 u u' n bs2 e :
  seg m 0 0 (bs1 ++ (u, n) :: bs2) e -> end_stub m e ->
  let m' := <[total bs1 := HeapMem HEAP_MAGIC (Z.b2z u') (total bs1 + n) (prev_of 0 0 bs1)]> m in
  seg m' 0 0 (bs1 ++ (u', n) :: bs2) e /\ end_stub m' e.
Proof.
  intros Hs He m'. destruct (seg_focus0 _ _ _ _ _ _ Hs) as (H1 & Ho & Hn & Ha & H2 & Hlo & Hhi). split.
  - apply seg_join0; try done.
    + apply seg_insert; [lia|done].
    + unfold m'. by rewrite lookup_insert_eq.
    + apply seg_insert; [lia|done].
  - apply end_insert; [lia|done].
Qed.

(** The last step of [rt_malloc]: [lfree] leaves the block if it was there. *)
Lemma lfree_step h bs1 n mid bs2 e :
  heap_end h = e -> seg (h_mem h) 0 0 (bs1 ++ mid ++ bs2) e -> end_stub (h_mem h) e ->
  total mid = n -> e = mem_size_aligned h + 12 -> 0 <= mem_size_aligned h -> positive (bs1 ++ (false, n) :: bs2) ->
  lfree_ok (lfree h) (bs1 ++ (false, n) :: bs2) ->
  exists x', (if total bs1 =? lfree h then lfree_advance (heap_fuel h) h else Some h) = Some (set_lfree x' h) /\
    lfree_ok x' (bs1 ++ mid ++ bs2) /\
    (lowest_at (lfree h) (bs1 ++ (false, n) :: bs2) -> lowest_at x' (bs1 ++ mid ++ bs2)).
Proof.
  intros He Hs Hend Hmid Hsz H0 Hpos Hok. destruct (Z.eqb_spec (total bs1) (lfree h)) as [Heq|Hne].
  - destruct (lfree_advance_spec (mid ++ bs2) (heap_fuel h) h bs1) as (r & q' & Hop & Eq & Hr);
      [by rewrite He|by rewrite He|done| |].
    { destruct (seg_total _ _ _ _ _ Hs) as (Et & _ & Hl). rewrite length_app in Hl. unfold heap_fuel, SIZEOF_STRUCT_MEM.
      assert (Z.of_nat (length (mid ++ bs2)) <= mem_size_aligned h / 12 + 1); [|lia].
      replace (mem_size_aligned h / 12 + 1) with ((mem_size_aligned h + 12) / 12) by dlia.
      apply Z.div_le_lower_bound; lia. }
    exists (total (bs1 ++ r)). rewrite Hop, Eq. splits; [done|exists (bs1 ++ r), q'; by rewrite <-app_assoc|].
    intros (p & r0 & -> & Hx & Hu)%lowest_inv. rewrite total_app in Heq.
    assert (r0 = []) as ->.
    { destruct r0 as [|[u0 n0] r0]; [done|]. apply Forall_app in Hpos as [[_ Hp]%Forall_app _].
      apply Forall_cons in Hp as [Hn0 Hp%positive_total]. simpl in *. lia. }
    exists ((p ++ []) ++ r), q'. rewrite <-!app_assoc. splits; try done. rewrite app_nil_l. by apply Forall_app.
  - exists (lfree h). splits; [by destruct h|by eapply lfree_ok_replace|by apply lowest_replace].
Qed.

Lemma malloc_take_spec h bs1 n bs2 size :
  heap_wf h (bs1 ++ (false, n) :: bs2) -> 12 <= size -> size mod 4 = 0 -> size + 12 <= n ->
  exists h', malloc_take (total bs1) size h = Some h' /\ heap_wf h' (bs1 ++ taken size n ++ bs2) /\
    heap_ptr h' = heap_ptr h /\ h_data h' = h_data h /\ mem_size_aligned h' = mem_size_aligned h /\
    (lowest_at (lfree h) (bs1 ++ (false, n) :: bs2) -> lowest_at (lfree h') (bs1 ++ taken size n ++ bs2)).
Proof.
  intros Hw Hsz Hal Hfit. pose proof Hw as [Hs He Hadj Hsize Hptr Hlf Hused Hmax].
  destruct (seg_focus0 _ _ _ _ _ _ Hs) as (H1 & Ho & Hn & Ha & H2 & Hlo & Hhi).
  assert (exists m2 c, (forall h0, h0 = count_used c (set_hmem m2 h) ->
      malloc_take (total bs1) size h = (if total bs1 =? lfree h0 then lfree_advance (heap_fuel h0) h0 else Some h0)) /\
    seg m2 0 0 (bs1 ++ taken size n ++ bs2) (heap_end h) /\ end_stub m2 (heap_end h) /\
    used_sum (bs1 ++ taken size n ++ bs2) = used_mem h + c) as (m2 & c & Hop & Hs2 & He2 & Hu2).
  { unfold malloc_take, taken, SIZEOF_STRUCT_MEM. change MIN_SIZE_ALIGNED with 12. rewrite Ho. simpl.
    unfold heap_end, SIZEOF_STRUCT_MEM in *.
    rewrite (u32_small (total bs1 + 12)), (u32_small (total bs1 + n - _)), (u32_small (size + 12 + 12)) by (unfold is_u32; lia).
    replace (total bs1 + n - (total bs1 + 12)) with (n - 12) by lia. replace (size + 12 + 12) with (size + 24) by lia.
    rewrite Hused, !used_sum_app. destruct (Z.leb_spec (size + 24) (n - 12)) as [Hsplit|Hall].
    - destruct (split_block_spec h bs1 false n bs2 size) as (m1 & -> & Hs1 & He1); try done; try lia. simpl.
      destruct (seg_focus0 _ _ _ _ _ _ Hs1) as (_ & Ho1 & _).
      destruct (seg_recolor _ _ _ true _ _ _ Hs1 He1) as [Hs2 He2].
      rewrite (upd_hm_eq _ _ (set_hmem m1 h) _ Ho1). simpl.
      eexists _, (size + 12). split; [|split; [exact Hs2|split; [exact He2|simpl; lia]]].
      intros h0 ->. unfold upd_hm. simpl. rewrite lookup_insert_eq. simpl. by rewrite insert_insert_eq.
    - destruct (seg_recolor _ _ _ true _ _ _ Hs He) as [Hs2 He2].
      rewrite (upd_hm_eq _ _ h _ Ho). simpl.
      eexists _, n. split; [|split; [exact Hs2|split; [exact He2|simpl; lia]]].
      intros h0 ->. unfold upd_hm. simpl. rewrite lookup_insert_eq. simpl. rewrite insert_insert_eq.
      by replace (total bs1 + n - total bs1) with n by lia. }
  set (h2 := count_used c (set_hmem m2 h)). rewrite (Hop h2 eq_refl).
  destruct (lfree_step h2 bs1 n (taken size n) bs2 (heap_end h)) as (x' & -> & Hlf' & Hlow); try done; try (simpl; lia).
  { apply total_taken. } { by eapply seg_positive. }
  exists (set_lfree x' h2). splits; try done.
  pose proof (used_sum_bound _ _ _ _ _ Hs2) as Hb. pose proof (seg_total _ _ _ _ _ Hs2) as (Et & _).
  assert (u32 (used_mem h + c) = used_mem h + c) as Eu by (apply u32_small; unfold is_u32; lia).
  split; simpl; try done.
  - unfold no_adjacent, taken in *. apply apart_app in Hadj as [Ha1 [Ha2 Ha3]]. apply apart_app. split; [done|].
    destruct (_ <=? _); simpl; [done|]. split; [done|]. by apply apart_weaken.
  - by rewrite Eu.
  - rewrite Eu. destruct (Z.ltb_spec (max_mem h) (used_mem h + c)); lia.
Qed.

(** ** Allocated areas *)

(** The user areas of the used blocks: offset and length. *)
Fixpoint areas (off : Z) bs : list (Z * Z) :=
  match bs with
  | [] => []
  | (u, n) :: bs => (if u : bool then [(off + 12, n - 12)] else []) ++ areas (off + n) bs
  end.

Lemma areas_app bs1 bs2 : forall off, areas off (bs1 ++ bs2) = areas off bs1 ++ areas (off + total bs1) bs2.
Proof.
  induction bs1 as [|[u n] bs1 IH]; intros off; simpl; [by rewrite Z.add_0_r|].
  by rewrite IH, <-app_assoc, Z.add_assoc.
Qed.

Lemma areas_push n bs2 bs1 : forall off,
  areas off (push_free bs1 n bs2) = areas off bs1 ++ areas (off + total bs1 + n) bs2.
Proof.
  induction bs1 as [|[u a] bs1 IH]; intros off.
  - simpl. by rewrite Z.add_0_r.
  - destruct u, bs1 as [|b bs1].
    + simpl. do 2 f_equal. lia.
    + change (push_free ((true, a) :: b :: bs1) n bs2) with ((true, a) :: push_free (b :: bs1) n bs2).
      change (areas off ((true, a) :: push_free (b :: bs1) n bs2)) with ((off + 12, a - 12) :: areas (off + a) (push_free (b :: bs1) n bs2)).
      rewrite IH. change (areas off ((true, a) :: b :: bs1)) with ((off + 12, a - 12) :: areas (off + a) (b :: bs1)).
      simpl total. simpl. do 3 f_equal. lia.
    + simpl. f_equal. lia.
    + change (push_free ((false, a) :: b :: bs1) n bs2) with ((false, a) :: push_free (b :: bs1) n bs2).
      change (areas off ((false, a) :: push_free (b :: bs1) n bs2)) with (areas (off + a) (push_free (b :: bs1) n bs2)).
      rewrite IH. change (areas off ((false, a) :: b :: bs1)) with (areas (off + a) (b :: bs1)).
      simpl total. do 2 f_equal. lia.
Qed.

Lemma areas_merged bs1 n bs2 : areas 0 (merged bs1 n bs2) = areas 0 bs1 ++ areas (total bs1 + n) bs2.
Proof.
  unfold merged. destruct bs2 as [|[[|] n2] bs2]; rewrite areas_push; rewrite ?Z.add_0_l; try done.
  simpl. by rewrite Z.add_assoc.
Qed.

Lemma areas_inv bs : forall off q l, (q, l) ∈ areas off bs ->
  exists bs1 bs2, bs = bs1 ++ (true, l + 12) :: bs2 /\ q = off + total bs1 + 12.
Proof.
  induction bs as [|[u n] bs IH]; intros off q l; simpl; [by intros ?%elem_of_nil|].
  rewrite elem_of_app. intros [Hin|Hin].
  - destruct u; [|by apply elem_of_nil in Hin]. apply list_elem_of_singleton in Hin. injection Hin as -> ->.
    exists [], bs. simpl. split; [do 2 f_equal; lia|lia].
  - destruct (IH _ _ _ Hin) as (bs1 & bs2 & -> & ->). exists ((u, n) :: bs1), bs2. simpl. split; [done|lia].
Qed.

(** The areas lie in the heap, and other areas than a given block's are to its
    left or right. *)
Definition apart_from (q l : Z) (a : Z * Z) : Prop := a.1 + a.2 <= q \/ q + l <= a.1.

Lemma areas_bounds bs : positive bs -> forall off,
  Forall (fun a => off + 12 <= a.1 /\ 0 <= a.2 /\ a.1 + a.2 <= off + total bs) (areas off bs).
Proof.
  induction 1 as [|[u n] bs Hn Hp IH]; intros off; simpl; [constructor|]. simpl in Hn.
  pose proof (positive_total _ Hp). apply Forall_app. split.
  - destruct u; [|constructor]. constructor; [simpl; lia|constructor].
  - eapply Forall_impl; [apply (IH (off + n))|]. simpl. intros [q l]. simpl. lia.
Qed.

Lemma areas_apart bs1 n bs2 :
  positive (bs1 ++ (true, n) :: bs2) ->
  Forall (apart_from (total bs1) n) (areas 0 bs1 ++ areas (total bs1 + n) bs2).
Proof.
  intros [Hp1 [Hn Hp2]%Forall_cons]%Forall_app. apply Forall_app. split.
  - eapply Forall_impl; [apply (areas_bounds _ Hp1 0)|]. intros [q l]. unfold apart_from. simpl. lia.
  - eapply Forall_impl; [apply (areas_bounds _ Hp2 (total bs1 + n))|]. intros [q l]. unfold apart_from. simpl. lia.
Qed.

(** An offset determines the blocks before it. *)
Lemma same_offset l1 : forall l2 q1 q2, positive (l1 ++ l2) -> l1 ++ l2 = q1 ++ q2 -> total l1 = total q1 -> l1 = q1.
Proof.
  induction l1 as [|[u a] l1 IH]; intros l2 [|[u' a'] q1] q2; simpl; intros Hp E Ht; try done.
  - rewrite E in Hp. apply Forall_cons in Hp as [Ha [Hp%positive_total _]%Forall_app]. simpl in *. lia.
  - apply Forall_cons in Hp as [Ha [Hp%positive_total _]%Forall_app]. simpl in *. lia.
  - apply Forall_cons in Hp as [_ Hp]. injection E as -> -> E. f_equal. apply (IH l2 q1 q2); [done|done|lia].
Qed.

(** What a request is rounded to. *)
Definition need (size : Z) : Z := Z.max 12 (4 * ((size + 3) / 4)).

(** The effect of a successful allocation. *)
Record allocated (h h' : heap) bs bs' (p len : Z) : Prop := {
  al_wf : heap_wf h' bs';
  al_areas : areas 0 bs' ≡ₚ (p - heap_ptr h, len) :: areas 0 bs;
  al_fresh : Forall (apart_from (p - heap_ptr h) len) (areas 0 bs);
  al_inside : 12 <= p - heap_ptr h /\ p - heap_ptr h + len <= heap_end h;
  al_aligned : p mod 4 = 0;
  al_data : h_data h' = h_data h;
  al_ptr : heap_ptr h' = heap_ptr h /\ mem_size_aligned h' = mem_size_aligned h;
  al_lowest : lowest_at (lfree h) bs -> lowest_at (lfree h') bs';
  al_shape : exists sz pre n post, bs = pre ++ (false, n) :: post /\ bs' = pre ++ taken sz n ++ post /\
    p = heap_ptr h + total pre + 12 /\ 12 <= sz /\ sz + 12 <= n;
}.

Lemma rt_malloc_spec h bs size :
  heap_wf h bs -> 12 <= mem_size_aligned h -> 0 < size <= 4294967292 ->
  exists h' r, rt_malloc size h = Some (h', r) /\
    match r with
    | Some p => exists bs' len, need size <= len /\ allocated h h' bs bs' p len
    | None => h' = h /\ (lowest_at (lfree h) bs ->
        forall pre b post, bs = pre ++ b :: post -> ~ fits h (need size) (total pre) b)
    end.
Proof.
  intros Hw Hmin Hsz. unfold rt_malloc. rewrite (proj2 (Z.eqb_neq size 0)) by lia.
  rewrite RT_ALIGN_4 by lia. change MIN_SIZE_ALIGNED with 12.
  assert ((if 4 * ((size + 3) / 4) <? 12 then 12 else 4 * ((size + 3) / 4)) = need size) as En
    by (unfold need; destruct (Z.ltb_spec (4 * ((size + 3) / 4)) 12); lia).
  assert (12 <= need size /\ need size mod 4 = 0) as [Hn12 Hn4] by (unfold need; split; [lia|destruct (Z.max_spec 12 (4 * ((size + 3) / 4))) as [[_ ->]|[_ ->]]; dlia]).
  assert (forall o b, mem_size_aligned h < need size -> 0 <= o -> ~ fits h (need size) o b) as Hbig
    by (intros o b Hlt Ho (_ & _ & ?); lia).
  pose proof (seg_positive _ _ _ _ _ (hw_seg _ _ Hw)) as Hpos.
  destruct (Z.ltb_spec (mem_size_aligned h) (4 * ((size + 3) / 4))) as [Hlt|Hle].
  { exists h, None. splits; try done. intros _ pre b post ->. apply Hbig; [unfold need; lia|].
    apply Forall_app in Hpos as [Hp _]. by apply positive_total. }
  rewrite En. destruct (hw_lfree _ _ Hw) as (bs1 & bs2 & Ebs & El). rewrite El.
  destruct (malloc_find_spec h bs (need size) bs2 (heap_fuel h) bs1) as (r & -> & Hr); try done.
  { unfold need in *. lia. }
  { destruct (heap_total _ _ Hw) as [_ Hf]. rewrite Ebs, length_app in Hf. lia. }
  simpl. destruct r as [ptr|].
  2:{ exists h, None. splits; try done. intros (q1 & q2 & Eq & Hx & Hu) pre b post E Hfit.
      (* a free block lies at or after [lfree] *)
      rewrite Ebs in E. destruct (split_cases pre b post bs1 bs2) as [(r & -> & ->)|(r & -> & ->)]; [by rewrite <-E|by eapply Hr|].
      destruct Hfit as (Hb & _). rewrite Ebs in Eq.
      rewrite Ebs in Hpos. assert (pre ++ b :: r = q1) as Eq1 by (by eapply same_offset).
      subst q1. apply Forall_app in Hu as [_ [Hu _]%Forall_cons]. rewrite Hu in Hb. done. }
  destruct Hr as (pre & n & post & -> & -> & Hfit & Hlt). rewrite app_assoc in Ebs. subst bs.
  destruct (malloc_take_spec h (bs1 ++ pre) n post (need size) Hw Hn12 Hn4 Hfit) as (h' & -> & Hw' & Hp' & Hd' & Hm' & Hlow).
  simpl. set (pre' := bs1 ++ pre) in *. set (o := total pre') in *.
  exists h', (Some (heap_ptr h' + o + 12)). split; [done|]. rewrite Hp'.
  pose proof (seg_positive _ _ _ _ _ (hw_seg _ _ Hw')) as Hpos'. pose proof (seg_total _ _ _ _ _ (hw_seg _ _ Hw')) as (Et' & _).
  exists (pre' ++ taken (need size) n ++ post), (if need size + 24 <=? n - 12 then need size else n - 12).
  assert (heap_ptr h + o + 12 - heap_ptr h = o + 12) as Eo by lia.
  destruct (seg_focus0 _ _ _ _ _ _ (hw_seg _ _ Hw)) as (H1 & _ & _ & _ & _ & Hlo & Hhi). fold o in H1, Hlo, Hhi.
  pose proof (seg_aligned _ _ _ _ _ H1) as Ha. fold o in Ha. pose proof (hw_ptr _ _ Hw) as (_ & Hpa & _).
  split; [destruct (Z.leb_spec (need size + 24) (n - 12)); lia|].
  split; rewrite ?Eo; try done.
  - rewrite !areas_app, total_taken. fold o. rewrite Z.add_0_l. unfold taken.
    destruct (need size + 24 <=? n - 12); simpl; rewrite <-Permutation_middle; simpl; do 2 f_equiv; f_equal; f_equal; lia.
  - rewrite areas_app. fold o. rewrite Z.add_0_l. simpl.
    assert (positive (pre' ++ (true, n) :: post)) as Hpt.
    { apply Forall_app in Hpos as [Hq1 [Hq2 Hq3]%Forall_cons]. apply Forall_app. split; [done|]. by constructor. }
    eapply Forall_impl; [apply (areas_apart _ _ _ Hpt)|]. fold o. intros [q l]. unfold apart_from. simpl.
    destruct (Z.leb_spec (need size + 24) (n - 12)); lia.
  - destruct (Z.leb_spec (need size + 24) (n - 12)); lia.
  - dlia.
  - by exists (need size), pre', n, post.
Qed.

(** ** Releasing a block *)

Lemma lowest_release x bs1 n bs2 :
  positive (bs1 ++ (true, n) :: bs2) -> lowest_at x (bs1 ++ (true, n) :: bs2) ->
  lowest_at (if total bs1 <? x then total bs1 else x) (bs1 ++ (false, n) :: bs2).
Proof.
  intros Hp (p & q & E & -> & Hu). pose proof Hp as [Hp1 [Hn Hp2]%Forall_cons]%Forall_app. simpl in Hn.
  destruct (split_cases _ _ _ _ _ E) as [(r & -> & ->)|(r & -> & ->)].
  - apply Forall_app in Hp1 as [_ Hr%positive_total]. rewrite total_app, (proj2 (Z.ltb_ge _ _)) by lia.
    exists p, (r ++ (false, n) :: bs2). by rewrite <-app_assoc.
  - apply Forall_app in Hp2 as [Hr%positive_total _]. rewrite total_app. simpl.
    rewrite (proj2 (Z.ltb_lt _ _)) by lia. apply Forall_app in Hu as [Hu _].
    by exists bs1, ((false, n) :: r ++ q).
Qed.

Lemma lfree_release x bs1 n bs2 :
  lfree_ok x (bs1 ++ (true, n) :: bs2) ->
  lfree_ok (if total bs1 <? x then total bs1 else x) (bs1 ++ (false, n) :: bs2).
Proof.
  intros Hx. destruct (_ <? _); [by exists bs1, ((false, n) :: bs2)|].
  apply (lfree_ok_replace x bs1 true n [(false, n)] bs2); [simpl; lia|done].
Qed.

(** The blocks of a heap whose headers and counters changed. *)
Lemma heap_wf_change h bs bs' h' :
  heap_wf h bs -> heap_ptr h' = heap_ptr h -> mem_size_aligned h' = mem_size_aligned h -> max_mem h' = max_mem h ->
  seg (h_mem h') 0 0 bs' (heap_end h) -> end_stub (h_mem h') (heap_end h) -> no_adjacent bs' ->
  lfree_ok (lfree h') bs' -> used_mem h' = used_sum bs' -> used_sum bs' <= used_sum bs -> heap_wf h' bs'.
Proof.
  intros Hw Hp Hm Hx Hs He Ha Hl Hu Hle. assert (heap_end h' = heap_end h) as Ee by (unfold heap_end; by rewrite Hm).
  pose proof (hw_used _ _ Hw) as Eu. pose proof (hw_max _ _ Hw).
  split; rewrite ?Ee, ?Hp, ?Hm, ?Hx, ?Hu; try done; try apply Hw. lia.
Qed.

Lemma rt_free_spec h bs1 n bs2 :
  heap_wf h (bs1 ++ (true, n) :: bs2) -> 12 < n ->
  exists h', rt_free (heap_ptr h + total bs1 + 12) h = Some h' /\ heap_wf h' (merged bs1 n bs2) /\
    used_mem h' = used_mem h - n /\ h_data h' = h_data h /\ heap_ptr h' = heap_ptr h /\
    mem_size_aligned h' = mem_size_aligned h /\ max_mem h' = max_mem h /\
    (lowest_at (lfree h) (bs1 ++ (true, n) :: bs2) -> lowest_at (lfree h') (merged bs1 n bs2)).
Proof.
  intros Hw Hn12. destruct (seg_focus0 _ _ _ _ _ _ (hw_seg _ _ Hw)) as (H1 & Ho & Hn & Ha & H2 & Hlo & Hhi).
  pose proof (hw_ptr _ _ Hw) as Hptr. pose proof (seg_positive _ _ _ _ _ (hw_seg _ _ Hw)) as Hpos.
  unfold rt_free. rewrite (proj2 (Z.ltb_ge _ (heap_ptr h))), (proj2 (Z.leb_gt _ _)) by lia. simpl.
  unfold SIZEOF_STRUCT_MEM. replace (heap_ptr h + total bs1 + 12 - 12 - heap_ptr h) with (total bs1) by lia.
  rewrite (upd_hm_eq _ _ h _ Ho). simpl. unfold hm_set_used, hm_set_magic. simpl.
  destruct (seg_recolor _ _ _ false _ _ _ (hw_seg _ _ Hw) (hw_end _ _ Hw)) as [Hs1 He1]. simpl in Hs1, He1.
  set (m1 := <[total bs1 := _]> (h_mem h)) in *.
  set (x1 := if total bs1 <? lfree h then total bs1 else lfree h).
  assert ((if total bs1 <? lfree h then set_lfree (total bs1) (set_hmem m1 h) else set_hmem m1 h) = relinked h m1 x1) as ->
    by (unfold x1; destruct (_ <? _); [done|by destruct h]).
  assert (m1 !! total bs1 = Some (HeapMem HEAP_MAGIC 0 (total bs1 + n) (prev_of 0 0 bs1))) as Hm1 by (unfold m1; by rewrite lookup_insert_eq).
  simpl. rewrite Hm1. simpl. replace (total bs1 + n - total bs1) with n by lia.
  set (h2 := set_used (u32 (used_mem h - n)) (relinked h m1 x1)).
  destruct (plug_holes_spec h2 bs1 n bs2 Hs1 He1) as (m' & x' & -> & Hs' & He' & Hmv & Hlow).
  pose proof (used_sum_bound _ _ _ _ _ (hw_seg _ _ Hw)) as Hb. pose proof (hw_used _ _ Hw) as Hu.
  pose proof (used_sum_bound _ _ _ _ _ Hs') as Hb'. rewrite used_merged in Hb'.
  rewrite used_sum_app in Hb, Hu. simpl in Hb, Hu.
  pose proof (hw_max _ _ Hw) as Hmax.
  assert (u32 (used_mem h - n) = used_mem h - n) as Eu by (apply u32_small; unfold is_u32; lia).
  exists (relinked h2 m' x'). splits; try done.
  - eapply heap_wf_change; try done.
    + by eapply apart_merged; [apply (hw_adj _ _ Hw)|].
    + simpl. apply Hmv. simpl. apply lfree_release. apply Hw.
    + simpl. rewrite Eu, used_merged. lia.
    + rewrite used_merged, used_sum_app. simpl. lia.
  - intros Hl. simpl. apply Hlow. simpl. by apply lowest_release.
Qed.

Lemma rt_malloc_taken h bs size :
  heap_wf h bs -> 12 <= mem_size_aligned h -> 0 < size <= 4294967292 ->
  forall h' p, rt_malloc size h = Some (h', Some p) ->
  exists bs' len, need size <= len /\ allocated h h' bs bs' p len.
Proof. intros Hw H1 H2 h' p E. destruct (rt_malloc_spec h bs size Hw H1 H2) as (h2 & r & E' & Hr). rewrite E in E'. by injection E' as -> <-. Qed.
