(* ===== verification/MemSpec.v ===== *)
(** * The heap: specification of its operations

    What [rt_malloc], [rt_free] and [rt_realloc] promise, in terms of the user
    areas of the used blocks, and the safety of any sequence of calls. *)

From S2P Require Import Prelude Mem.

Implicit Types (h : heap) (bs : list (bool * Z)).

(** ** Copying *)

Definition byte_at h (a : Z) : Z := default 0 (h_data h !! a).

Lemma copy_bytes_spec n : forall dst src d j,
  dst + Z.of_nat n <= src \/ src + Z.of_nat n <= dst ->
  copy_bytes n dst src d !! j =
    if decide (dst <= j < dst + Z.of_nat n) then Some (default 0 (d !! (src + (j - dst)))) else d !! j.
Proof.
  induction n as [|n IH]; intros dst src d j Hd; cbn [copy_bytes].
  - rewrite decide_False by lia. done.
  - rewrite IH by lia. destruct (decide (j = dst)) as [->|Hne].
    + rewrite decide_False, decide_True, lookup_insert_eq by lia. by rewrite Z.sub_diag, Z.add_0_r.
    + destruct (decide (dst + 1 <= j < dst + 1 + Z.of_nat n)).
      * rewrite decide_True, lookup_insert_ne by lia. do 3 f_equal. lia.
      * rewrite decide_False, lookup_insert_ne by lia. done.
Qed.

Lemma set_bytes_spec n v : forall dst d j,
  set_bytes n dst v d !! j = if decide (dst <= j < dst + Z.of_nat n) then Some v else d !! j.
Proof.
  induction n as [|n IH]; intros dst d j; cbn [set_bytes].
  - rewrite decide_False by lia. done.
  - rewrite IH. destruct (decide (j = dst)) as [->|Hne].
    + rewrite decide_False, decide_True, lookup_insert_eq by lia. done.
    + destruct (decide (dst + 1 <= j < dst + 1 + Z.of_nat n)).
      * by rewrite decide_True by lia.
      * rewrite decide_False, lookup_insert_ne by lia. done.
Qed.

(** Only the headers, the counters and the data of a heap depend on the calls. *)
Definition same_place h h' : Prop := heap_ptr h' = heap_ptr h /\ mem_size_aligned h' = mem_size_aligned h.

Lemma heap_wf_data h bs d : heap_wf h bs -> heap_wf (set_data d h) bs.
Proof. intros []. by split. Qed.

Lemma need_ge n : n <= need n.
Proof. unfold need. etransitivity; [|apply Z.le_max_r]. dlia. Qed.

(** ** Releasing a user area *)

Lemma rt_free_area h bs q len :
  heap_wf h bs -> (q, len) ∈ areas 0 bs -> 0 < len ->
  exists h' bs', rt_free (heap_ptr h + q) h = Some h' /\ heap_wf h' bs' /\
    areas 0 bs ≡ₚ (q, len) :: areas 0 bs' /\ used_mem h' = used_mem h - (len + 12) /\
    h_data h' = h_data h /\ same_place h h' /\ (lowest_at (lfree h) bs -> lowest_at (lfree h') bs').
Proof.
  intros Hw (bs1 & bs2 & -> & ->)%areas_inv Hl.
  destruct (rt_free_spec h bs1 (len + 12) bs2 Hw) as (h' & Hop & Hw' & Hu & Hd & Hp & Hm & _ & Hlow); [lia|].
  exists h', (merged bs1 (len + 12) bs2). rewrite Z.add_0_l, Z.add_assoc, Hop. splits; try done.
  rewrite areas_merged, areas_app. simpl. rewrite Z.add_0_l, <-Permutation_middle. do 2 f_equiv. lia.
Qed.

(** ** Resizing a block *)

Lemma areas_member_shift bs1 n bs2 : (total bs1 + 12, n - 12) ∈ areas 0 (bs1 ++ (true, n) :: bs2).
Proof. rewrite areas_app. simpl. rewrite Z.add_0_l. apply elem_of_app. right. by left. Qed.

Lemma rt_realloc_shrink_spec h bs1 n bs2 new :
  heap_wf h (bs1 ++ (true, n) :: bs2) -> 0 < new -> new mod 4 = 0 -> new + 24 < n - 12 ->
  exists h' bs',
    (let h0 := set_used (u32 (used_mem h - (n - 12 - new))) h in
     h0 ← split_block (total bs1) new h0; plug_holes (total bs1 + 12 + new) h0) = Some h' /\
    heap_wf h' bs' /\ areas 0 bs' ≡ₚ (total bs1 + 12, new) :: areas 0 bs1 ++ areas (total bs1 + n) bs2 /\
    h_data h' = h_data h /\ same_place h h' /\ used_mem h' = used_mem h - (n - 12 - new).
Proof.
  intros Hw Hnew Hal Hfit. set (h0 := set_used _ h). cbv zeta.
  pose proof Hw as [Hs He Hadj Hsize Hptr Hlf Hused Hmax].
  destruct (split_block_spec h0 bs1 true n bs2 new) as (m1 & -> & Hs1 & He1); try done; try lia.
  cbn [mbind option_bind]. set (h1 := set_hmem m1 h0).
  replace (total bs1 + 12 + new) with (total (bs1 ++ [(true, new + 12)])) by (rewrite total_app; simpl; lia).
  assert (Hs1' : seg (h_mem h1) 0 0 ((bs1 ++ [(true, new + 12)]) ++ (false, n - (new + 12)) :: bs2) (heap_end h1))
    by (rewrite <-app_assoc; exact Hs1).
  destruct (plug_holes_spec h1 _ _ _ Hs1' He1) as (m2 & x2 & -> & Hs2 & He2 & Hmv & _).
  exists (relinked h1 m2 x2). eexists. split; [done|].
  pose proof (used_sum_bound _ _ _ _ _ Hs) as Hb. pose proof (used_sum_bound _ _ _ _ _ Hs2) as Hb2.
  rewrite used_merged, !used_sum_app in *. cbn [used_sum] in *.
  assert (u32 (used_mem h - (n - 12 - new)) = used_mem h - (n - 12 - new)) as Eu by (apply u32_small; unfold is_u32; lia).
  splits; try done.
  - eapply heap_wf_change; try done.
    + eapply (apart_merged _ true n); [|done]. rewrite <-app_assoc. simpl. unfold no_adjacent in *.
      apply apart_app in Hadj as [Ha1 Ha2]. apply apart_app. split; [done|]. simpl in *. tauto.
    + simpl. apply Hmv. simpl. rewrite <-app_assoc. simpl.
      apply (lfree_ok_replace _ bs1 true n [(true, new + 12); (false, n - (new + 12))] bs2); [simpl; lia|done].
    + simpl. rewrite Eu, used_merged, used_sum_app. simpl. lia.
    + rewrite used_merged, !used_sum_app. simpl. lia.
  - rewrite areas_merged, areas_app, total_app. simpl. rewrite Z.add_0_l, <-app_assoc. simpl. rewrite <-Permutation_middle.
    f_equiv; [f_equal; lia|]. f_equiv. replace (total bs1 + (new + 12 + 0) + (n - (new + 12))) with (total bs1 + n) by lia. done.
Qed.

(** The outcome of [rt_realloc] on the area [(q, len)]: the area moved or was
    resized, the bytes common to both are kept, the other areas are untouched. *)
Record resized h h' bs bs' (q len new q' len' : Z) (rest : list (Z * Z)) : Prop := {
  rz_wf : heap_wf h' bs';
  rz_before : areas 0 bs ≡ₚ (q, len) :: rest;
  rz_after : areas 0 bs' ≡ₚ (q', len') :: rest;
  rz_size : new <= len';
  rz_place : same_place h h';
  rz_kept : forall i, 0 <= i < Z.min len new -> byte_at h' (q' + i) = byte_at h (q + i);
  rz_others : forall a l i, (a, l) ∈ rest -> 0 <= i < l -> byte_at h' (a + i) = byte_at h (a + i);
}.

Lemma resized_same_data h h' bs bs' q len new len' rest :
  heap_wf h' bs' -> areas 0 bs ≡ₚ (q, len) :: rest -> areas 0 bs' ≡ₚ (q, len') :: rest -> new <= len' ->
  same_place h h' -> h_data h' = h_data h -> resized h h' bs bs' q len new q len' rest.
Proof. intros ? ? ? ? ? E. split; try done; intros; unfold byte_at; by rewrite E. Qed.

Lemma rt_realloc_move_spec h bs q len new :
  heap_wf h bs -> (q, len) ∈ areas 0 bs -> 0 < len -> 12 <= mem_size_aligned h -> 0 < new <= 4294967292 ->
  exists h' r,
    ('(h0, nmem) ← rt_malloc new h;
     match nmem with
     | None => Some (h0, None)
     | Some p =>
         let h1 := set_data (copy_bytes (Z.to_nat (if len <? new then len else new)) (p - heap_ptr h0) (heap_ptr h + q - heap_ptr h0) (h_data h0)) h0 in
         h1 ← rt_free (heap_ptr h + q) h1; Some (h1, Some p)
     end) = Some (h', r) /\
    match r with
    | None => h' = h
    | Some p => exists bs' len' rest, resized h h' bs bs' q len new (p - heap_ptr h) len' rest /\ p mod 4 = 0
    end.
Proof.
  intros Hw Hin Hl Hmin Hnew. destruct (rt_malloc_spec h bs new Hw Hmin Hnew) as (h1 & r & -> & Hr). simpl.
  destruct r as [p|]; [|by exists h, None; destruct Hr as [-> _]].
  destruct Hr as (bs1 & len' & Hneed & Hal). destruct (al_ptr _ _ _ _ _ _ Hal) as [Hp Hm].
  pose proof (al_areas _ _ _ _ _ _ Hal) as Har. set (q' := p - heap_ptr h) in *. rewrite Hp.
  replace (heap_ptr h + q - heap_ptr h) with q by lia.
  set (h2 := set_data _ h1). assert (heap_wf h2 bs1) as Hw2 by (apply heap_wf_data, Hal).
  assert ((q, len) ∈ areas 0 bs1) as Hin1 by (rewrite Har; by right).
  destruct (rt_free_area h2 bs1 q len Hw2 Hin1 Hl) as (h3 & bs3 & Hop & Hw3 & Har3 & _ & Hd3 & [Hp3 Hm3] & _).
  replace (heap_ptr h2) with (heap_ptr h) in Hop by (symmetry; exact Hp). rewrite Hop. simpl.
  destruct (elem_of_Permutation (areas 0 bs) (q, len)) as [[rest Hrest] _]; [done|].
  pose proof (need_ge new) as Hge.
  pose proof (al_fresh _ _ _ _ _ _ Hal) as Hfr. rewrite Forall_forall in Hfr.
  assert (forall a, byte_at h3 a = default 0 (copy_bytes (Z.to_nat (if len <? new then len else new)) q' q (h_data h) !! a)) as Hby
    by (intros a; unfold byte_at; rewrite Hd3; unfold h2; simpl; by rewrite (al_data _ _ _ _ _ _ Hal)).
  assert (Z.of_nat (Z.to_nat (if len <? new then len else new)) = Z.min len new) as En
    by (destruct (Z.ltb_spec len new); lia).
  pose proof (Hfr _ Hin) as Hap. unfold apart_from in Hap. simpl in Hap.
  exists h3, (Some p). split; [done|]. exists bs3, len', rest. fold q'.
  assert (areas 0 bs3 ≡ₚ (q', len') :: rest) as Haft.
  { apply (Permutation_cons_inv (a := (q, len))). rewrite <-Har3, Har, Hrest. apply perm_swap. }
  split; [split; try done|apply Hal].
  - lia.
  - split; [etransitivity; [exact Hp3|exact Hp]|etransitivity; [exact Hm3|exact Hm]].
  - intros i Hi. rewrite Hby, copy_bytes_spec by lia. rewrite En, decide_True by lia. simpl. unfold byte_at. do 3 f_equal. lia.
  - intros a l i Ha Hi. rewrite Hby, copy_bytes_spec by lia. rewrite En, decide_False; [done|].
    assert ((a, l) ∈ areas 0 bs) as Ha' by (rewrite Hrest; by right). pose proof (Hfr _ Ha') as Hap'. unfold apart_from in Hap'. simpl in Hap'. lia.
Qed.

Lemma rt_realloc_spec h bs q len new :
  heap_wf h bs -> (q, len) ∈ areas 0 bs -> 0 < len -> 12 <= mem_size_aligned h -> 0 < new <= 4294967292 ->
  exists h' r, rt_realloc (Some (heap_ptr h + q)) new h = Some (h', r) /\
    match r with
    | None => h' = h
    | Some p => exists bs' len' rest, resized h h' bs bs' q len new (p - heap_ptr h) len' rest /\ p mod 4 = 0
    end.
Proof.
  intros Hw Hin Hl Hmin Hnew. unfold rt_realloc. rewrite RT_ALIGN_4 by lia. set (A := 4 * ((new + 3) / 4)).
  assert (new <= A < new + 4 /\ A mod 4 = 0) as [HA Ha4] by (unfold A; split; dlia).
  assert (A <= 4294967292) as HA2 by dlia.
  destruct (Z.ltb_spec (mem_size_aligned h) A) as [Hbig|Hfit]; [by exists h, None|].
  rewrite (proj2 (Z.eqb_neq A 0)) by lia. destruct (areas_inv _ _ _ _ Hin) as (bs1 & bs2 & Ebs & Eq).
  rewrite Z.add_0_l in Eq. pose proof Hw as Hw0. rewrite Ebs in Hw0.
  destruct (seg_focus0 _ _ _ _ _ _ (hw_seg _ _ Hw0)) as (H1 & Ho & Hn & Ha & H2 & Hlo & Hhi).
  pose proof (hw_ptr _ _ Hw) as Hptr. pose proof (seg_aligned _ _ _ _ _ H1) as Hal1.
  rewrite (proj2 (Z.ltb_ge _ (heap_ptr h))), (proj2 (Z.leb_gt _ _)) by lia. simpl.
  unfold SIZEOF_STRUCT_MEM. replace (heap_ptr h + q - 12 - heap_ptr h) with (total bs1) by lia. rewrite Ho. simpl.
  rewrite u32_small by (unfold is_u32; lia). replace (total bs1 + (len + 12) - total bs1 - 12) with len by lia.
  assert ((heap_ptr h + q) mod 4 = 0) as Hmod by dlia.
  destruct (elem_of_Permutation (areas 0 bs) (q, len)) as [[rest Hrest] _]; [done|].
  destruct (Z.eqb_spec len A) as [HeqA|HneA].
  { exists h, (Some (heap_ptr h + q)). split; [done|]. exists bs, len, rest. split; [|done].
    replace (heap_ptr h + q - heap_ptr h) with q by lia. apply resized_same_data; try done. lia. }
  unfold heap_end, SIZEOF_STRUCT_MEM in Hhi, Hptr. change MIN_SIZE with 12.
  rewrite u32_small by (unfold is_u32; lia). destruct (Z.ltb_spec (A + 12 + 12) len) as [Hsh|Hex].
  - destruct (rt_realloc_shrink_spec h bs1 (len + 12) bs2 A Hw0) as (h' & bs' & Hop & Hw' & Har & Hd & Hpl & Hu); try lia.
    cbv zeta in Hop. replace (len + 12 - 12 - A) with (len - A) in Hop by lia.
    destruct (split_block _ _ _) as [h1|]; [|done]. simpl in Hop. simpl. rewrite Hop. simpl.
    exists h', (Some (heap_ptr h + q)). split; [done|]. exists bs', A, rest. split; [|done].
    replace (heap_ptr h + q - heap_ptr h) with q by lia. apply resized_same_data; try done; [|lia].
    rewrite Har, Eq. f_equiv. apply (Permutation_cons_inv (a := (q, len))). rewrite <-Hrest, Ebs, Eq, areas_app. simpl.
    rewrite Z.add_0_l, <-Permutation_middle. do 2 f_equiv. lia.
  - destruct (rt_realloc_move_spec h bs q len A Hw Hin Hl Hmin) as (h' & r & Hop & Hr); [lia|].
    exists h', r. split; [exact Hop|]. destruct r as [p|]; [|done].
    destruct Hr as (bs' & len' & rest' & [] & ?). exists bs', len', rest'. split; [|done].
    split; try done; [lia|]. intros i Hi. apply rz_kept0. lia.
Qed.

(** ** The initial heap *)

Lemma rt_system_heap_init_wf b e h :
  0 < b < 4294967293 -> RT_ALIGN b 4 + 24 <= RT_ALIGN_DOWN e 4 -> e < 4294967280 ->
  used_mem h = 0 -> 0 <= max_mem h < 4294967296 ->
  let h' := rt_system_heap_init b e h in
  heap_wf h' [(false, heap_end h')] /\ lowest_at (lfree h') [(false, heap_end h')] /\
  heap_ptr h' = RT_ALIGN b 4 /\ heap_end h' = RT_ALIGN_DOWN e 4 - RT_ALIGN b 4 - 12.
Proof.
  intros Hb Hfit He Hu Hm h'. pose proof (RT_ALIGN_4 b ltac:(lia)) as Eb. unfold h', rt_system_heap_init, SIZEOF_STRUCT_MEM.
  unfold RT_ALIGN_DOWN in *. change (Z.lnot (4 - 1)) with (Z.lnot 3) in *. rewrite land_lnot3 in *. rewrite Eb in *.
  set (b' := 4 * ((b + 3) / 4)) in *. set (e' := 4 * (e / 4)) in *.
  assert (b' mod 4 = 0 /\ e' mod 4 = 0 /\ 0 < b' /\ e' <= e) as (? & ? & ? & ?)
    by (unfold b', e'; clear -Hb; splits; dlia).
  rewrite (proj2 (Z.ltb_lt (2 * 12) e')), (proj2 (Z.leb_le b' (e' - 2 * 12))) by lia. simpl.
  assert (e' - b' - 24 + 12 <> 0) as Hne by lia.
  splits; try lia; [|by exists [], [(false, e' - b' - 24 + 12)]|unfold heap_end, SIZEOF_STRUCT_MEM; simpl; lia].
  unfold heap_end, SIZEOF_STRUCT_MEM in *. split; unfold heap_end, SIZEOF_STRUCT_MEM; simpl; try lia.
  - rewrite lookup_insert_ne, lookup_insert_eq by lia. splits; try done; lia || dlia.
  - exists (e' - b' - 24 + 12). by rewrite lookup_insert_eq.
  - split; [done|]. done.
  - splits; try lia; dlia.
  - exists [], [(false, e' - b' - 24 + 12)]. done.
Qed.

(** ** Properties *)

(** Freeing what was taken restores the list of blocks. *)
Lemma merged_taken pre n post sz :
  no_adjacent (pre ++ (false, n) :: post) -> sz + 12 <= n ->
  exists m rest, taken sz n ++ post = (true, m) :: rest /\ merged pre m rest = pre ++ (false, n) :: post /\ sz + 12 <= m.
Proof.
  intros Had Hn. apply apart_app in Had as [H1 [Hp Hpost]]. simpl in Hpost.
  assert (forall x, push_free pre x post = pre ++ (false, x) :: post) as Hpush.
  { intros x. destruct pre as [|[u0 n0] bs0 _] using rev_ind; [done|]. destruct u0.
    - by rewrite push_free_used, <-app_assoc.
    - assert (ends_free false (bs0 ++ [(false, n0)]) = true) as E.
      { clear. assert (forall f, ends_free f (bs0 ++ [(false, n0)]) = true) as H; [|apply H].
        induction bs0 as [|[u a] bs0 IH]; intros f; simpl; [done|apply IH]. }
      rewrite E in Hp. by discriminate Hp. }
  unfold taken. destruct (Z.leb_spec (sz + 24) (n - 12)).
  - exists (sz + 12), ((false, n - (sz + 12)) :: post). splits; [done| |lia]. simpl. rewrite Hpush. do 3 f_equal. lia.
  - exists n, post. splits; [done| |lia]. unfold merged. destruct post as [|[[|] n2] post]; [by rewrite Hpush..|].
    destruct Hpost as [Hbad _]. by discriminate Hbad.
Qed.

(** C18: Freeing the result of an allocation undoes it: the list of blocks, the
    number of used bytes and all the data are those before [rt_malloc]. *)
Theorem rt_malloc_free_roundtrip h bs size h1 p :
  heap_wf h bs -> 12 <= mem_size_aligned h -> 0 < size <= 4294967292 -> rt_malloc size h = Some (h1, Some p) ->
  exists h2, rt_free p h1 = Some h2 /\ heap_wf h2 bs /\ rt_memory_info h2 = (mem_size_aligned h, used_mem h, max_mem h1) /\
    h_data h2 = h_data h /\ (lowest_at (lfree h) bs -> lowest_at (lfree h2) bs).
Proof.
  intros Hw Hmin Hsz Hop. destruct (rt_malloc_taken h bs size Hw Hmin Hsz h1 p Hop) as (bs1 & len & Hneed & Hal).
  destruct (al_shape _ _ _ _ _ _ Hal) as (sz & pre & n & post & -> & -> & -> & Hsz12 & Hfit).
  destruct (al_ptr _ _ _ _ _ _ Hal) as [Hp Hm].
  destruct (merged_taken pre n post sz (hw_adj _ _ Hw) Hfit) as (m & rest & Et & Emg & Hmsz).
  pose proof (al_wf _ _ _ _ _ _ Hal) as Hw1. pose proof (al_lowest _ _ _ _ _ _ Hal) as Hlow. rewrite Et in Hw1, Hlow.
  destruct (rt_free_spec h1 pre m rest Hw1) as (h2 & Hfree & Hw2 & Hu2 & Hd2 & _ & Hm2 & Hx2 & Hlow2); [lia|].
  rewrite Hp in Hfree. rewrite Emg in Hw2, Hlow2. exists h2. splits; try done.
  - unfold rt_memory_info. by rewrite Hm2, Hm, Hx2, (hw_used _ _ Hw2), <-(hw_used _ _ Hw).
  - rewrite Hd2. apply Hal.
  - intros Hl. apply Hlow2, Hlow, Hl.
Qed.

(** *** Clients *)

(** What the callers hold: pointers and the number of bytes they asked for. *)
Notation live := (list (Z * Z)).
Implicit Types L : live.

(** One call of a client that frees and resizes only what it holds, or one store
    into an area it holds. Sizes are those that [RT_ALIGN] can round up
    ([rt_malloc_huge_size]) and that the product of [rt_calloc] does not wrap
    ([rt_calloc_overflows]). *)
Inductive client_step : heap * live -> heap * live -> Prop :=
  | client_malloc h L size h' r : 0 <= size <= 4294967292 -> rt_malloc size h = Some (h', r) ->
      client_step (h, L) (h', match r with Some p => (p, size) :: L | None => L end)
  | client_calloc h L count size h' r : 0 <= count * size <= 4294967292 -> rt_calloc count size h = Some (h', r) ->
      client_step (h, L) (h', match r with Some p => (p, count * size) :: L | None => L end)
  | client_free h L L' p n h' : L ≡ₚ (p, n) :: L' -> rt_free p h = Some h' -> client_step (h, L) (h', L')
  | client_realloc h L L' p n new h' r : L ≡ₚ (p, n) :: L' -> 0 < new <= 4294967292 ->
      rt_realloc (Some p) new h = Some (h', r) ->
      client_step (h, L) (h', match r with Some p' => (p', new) :: L' | None => L end)
  | client_realloc_zero h L L' p n h' r : L ≡ₚ (p, n) :: L' -> rt_realloc (Some p) 0 h = Some (h', r) -> client_step (h, L) (h', L')
  | client_realloc_null h L new h' r : 0 <= new <= 4294967292 -> rt_realloc None new h = Some (h', r) ->
      client_step (h, L) (h', match r with Some p => (p, new) :: L | None => L end)
  | client_store h L p n i v : (p, n) ∈ L -> 0 <= i < n ->
      client_step (h, L) (set_data (<[p - heap_ptr h + i := v]> (h_data h)) h, L).

Definition apart_live (a b : Z * Z) : Prop := a.1 + a.2 <= b.1 \/ b.1 + b.2 <= a.1.

(** What a client relies on: its areas are aligned, inside the heap and pairwise
    disjoint. *)
Definition live_ok h L : Prop :=
  Forall (fun a => a.1 mod 4 = 0 /\ 0 < a.2 /\ heap_ptr h + 12 <= a.1 /\ a.1 + a.2 <= heap_ptr h + heap_end h) L /\
  ForallOrdPairs apart_live L.

(** The invariant: the areas held are those of the used blocks. *)
Definition holds h (a b : Z * Z) : Prop := b.1 = a.1 - heap_ptr h /\ 0 < a.2 <= b.2.
Definition client_inv (s : heap * live) : Prop :=
  let '(h, L) := s in 12 <= mem_size_aligned h /\
  exists bs A, heap_wf h bs /\ areas 0 bs ≡ₚ A /\ Forall2 (holds h) L A.

Lemma areas_pairwise bs : positive bs -> forall off, ForallOrdPairs apart_live (areas off bs).
Proof.
  induction 1 as [|[u n] bs Hn Hp IH]; intros off; simpl; [constructor|]. simpl in Hn.
  destruct u; simpl; [|apply IH]. constructor; [|apply IH].
  eapply Forall_impl; [apply (areas_bounds _ Hp)|]. intros [q l]. unfold apart_live. simpl. lia.
Qed.

Lemma pairs_perm {A} (R : A -> A -> Prop) (l l' : list A) :
  (forall x y, R x y -> R y x) -> l ≡ₚ l' -> ForallOrdPairs R l -> ForallOrdPairs R l'.
Proof.
  intros Hsym. induction 1 as [|x l l' Hp IH|x y l|l l' l'' _ IH1 _ IH2]; intros Hl; [done| | |by apply IH2, IH1].
  - inversion Hl; subst. constructor; [by rewrite <-Hp|by apply IH].
  - inversion Hl as [|? ? Hy Hl']; subst. inversion Hl' as [|? ? Hx Hl'']; subst.
    apply Forall_cons in Hy as [Hyx Hy]. constructor; [constructor; auto|by constructor].
Qed.

Lemma areas_aligned m bs : forall p off e, seg m p off bs e -> off mod 4 = 0 -> Forall (fun a => a.1 mod 4 = 0) (areas off bs).
Proof.
  induction bs as [|[u n] bs IH]; intros p off e; simpl; [constructor|].
  intros (_ & _ & Hn & Hs) Ho. apply Forall_app. split.
  - destruct u; [|constructor]. constructor; [simpl; dlia|constructor].
  - apply (IH _ _ _ Hs). dlia.
Qed.

Lemma areas_ok h bs : heap_wf h bs ->
  Forall (fun a => a.1 mod 4 = 0 /\ 12 <= a.1 /\ a.1 + a.2 <= heap_end h) (areas 0 bs) /\ ForallOrdPairs apart_live (areas 0 bs).
Proof.
  intros Hw. pose proof (seg_positive _ _ _ _ _ (hw_seg _ _ Hw)) as Hp.
  destruct (heap_total _ _ Hw) as [Ht _]. split; [|by apply areas_pairwise].
  pose proof (areas_bounds _ Hp 0) as Hb. pose proof (areas_aligned _ _ _ _ _ (hw_seg _ _ Hw) eq_refl) as Ha.
  rewrite Forall_forall in *. intros a Hin. specialize (Hb a Hin). specialize (Ha a Hin).
  unfold heap_end, SIZEOF_STRUCT_MEM in *. simpl in *. lia.
Qed.

Lemma holds_pairs h L A : Forall2 (holds h) L A -> ForallOrdPairs apart_live A -> ForallOrdPairs apart_live L.
Proof.
  induction 1 as [|a b L A [E Hab] Hl IH]; intros HA; [constructor|]. inversion HA as [|? ? Hb HA']; subst.
  constructor; [|by apply IH]. rewrite Forall_forall in *. intros c Hc.
  apply list_elem_of_lookup in Hc as [i Hi]. destruct (Forall2_lookup_l _ _ _ _ _ Hl Hi) as (d & Hd & [Ed Hcd]).
  apply list_elem_of_lookup_2 in Hd. specialize (Hb d Hd). unfold apart_live in *. lia.
Qed.

Lemma client_inv_ok h L : client_inv (h, L) -> live_ok h L.
Proof.
  intros (_ & bs & A & Hw & HA & HL). destruct (areas_ok _ _ Hw) as [Ha Hp]. split.
  - rewrite HA in Ha. clear Hp HA. revert Ha. induction HL as [|a b L A [E Hab] _ IH]; intros Ha; [constructor|].
    apply Forall_cons in Ha as [Hb Ha]. constructor; [|by apply IH]. pose proof (hw_ptr _ _ Hw). splits; try lia. dlia.
  - eapply holds_pairs; [done|]. eapply pairs_perm; [|exact HA|exact Hp]. unfold apart_live. intros x y Hxy; lia.
Qed.

(** A held area is an area of a used block. *)
Lemma holds_take h L A p n L' :
  Forall2 (holds h) L A -> L ≡ₚ (p, n) :: L' ->
  exists len A', 0 < n <= len /\ A ≡ₚ (p - heap_ptr h, len) :: A' /\ Forall2 (holds h) L' A'.
Proof.
  intros HL Hp. destruct (Permutation_Forall2 Hp HL) as (A2 & HA2 & HL2).
  inversion HL2 as [|? [q len] ? A' [E Hn] HL']; subst. simpl in *. exists len, A'. by rewrite <-E.
Qed.

Lemma holds_place h h' L A : heap_ptr h' = heap_ptr h -> Forall2 (holds h) L A -> Forall2 (holds h') L A.
Proof. intros E HL. eapply Forall2_impl; [exact HL|]. intros a b [? ?]. unfold holds. by rewrite E. Qed.

Lemma client_malloc_inv h L size h' r :
  client_inv (h, L) -> 0 <= size <= 4294967292 -> rt_malloc size h = Some (h', r) ->
  client_inv (h', match r with Some p => (p, size) :: L | None => L end).
Proof.
  intros (Hmin & bs & A & Hw & HA & HL) Hsz0 Hop. destruct (decide (size = 0)) as [->|Hnz].
  { injection Hop as <- <-. split; [done|by exists bs, A]. }
  assert (0 < size <= 4294967292) as Hsz by lia.
  destruct (rt_malloc_spec h bs size Hw Hmin Hsz) as (h1 & r1 & Hop1 & Hr). rewrite Hop in Hop1. injection Hop1 as <- <-.
  destruct r as [p|]; [|destruct Hr as [-> _]; split; [done|by exists bs, A]].
  destruct Hr as (bs' & len & Hneed & Hal). destruct (al_ptr _ _ _ _ _ _ Hal) as [Hp Hm]. pose proof (need_ge size).
  split; [lia|]. exists bs', ((p - heap_ptr h, len) :: A). splits; [apply Hal|by rewrite (al_areas _ _ _ _ _ _ Hal), HA|].
  apply (holds_place h); [done|]. constructor; [|done]. unfold holds. simpl. lia.
Qed.

Lemma client_inv_perm h L L' : L ≡ₚ L' -> client_inv (h, L) -> client_inv (h, L').
Proof.
  intros HP (Hmin & bs & A & Hw & HA & HL). split; [done|].
  destruct (Permutation_Forall2 HP HL) as (A' & HA' & HL'). exists bs, A'. splits; [done| |done]. by rewrite HA.
Qed.

Lemma client_malloc_returns h L size : client_inv (h, L) -> 0 <= size <= 4294967292 ->
  exists h' r, rt_malloc size h = Some (h', r) /\ client_inv (h', match r with Some p => (p, size) :: L | None => L end).
Proof.
  intros Hinv Hsz0. destruct (decide (size = 0)) as [->|Hnz]; [by exists h, None|]. assert (0 < size <= 4294967292) as Hsz by lia.
  pose proof Hinv as (Hmin & bs & A & Hw & _).
  destruct (rt_malloc_spec h bs size Hw Hmin Hsz) as (h' & r & Hop & _). exists h', r. split; [done|]. by eapply client_malloc_inv.
Qed.

Lemma client_inv_shrink h L p n m : client_inv (h, (p, n) :: L) -> 0 < m <= n -> client_inv (h, (p, m) :: L).
Proof.
  intros (Hmin & bs & A & Hw & HA & HL) Hm. split; [done|]. exists bs, A. splits; [done..|]. inversion HL as [|? b ? A' [E Hb] HL']; subst.
  constructor; [|done]. unfold holds in *. simpl in *. lia.
Qed.

Lemma RT_ALIGN_range n : 0 <= n <= 4294967292 -> n <= RT_ALIGN n 4 <= 4294967292 /\ RT_ALIGN n 4 mod 4 = 0.
Proof. intros Hn. rewrite RT_ALIGN_4 by lia. dlia. Qed.

(** Every call of a client returns. *)
Lemma client_free_inv h L L' p n :
  client_inv (h, L) -> L ≡ₚ (p, n) :: L' -> exists h', rt_free p h = Some h' /\ client_inv (h', L').
Proof.
  intros (Hmin & bs & A & Hw & HA & HL) HP. destruct (holds_take _ _ _ _ _ _ HL HP) as (len & A' & Hn & HA' & HL').
  assert ((p - heap_ptr h, len) ∈ areas 0 bs) as Hin by (rewrite HA, HA'; by left).
  destruct (rt_free_area h bs _ len Hw Hin) as (h1 & bs1 & Hop & Hw1 & Ha1 & _ & _ & [Hp1 Hm1] & _); [lia|].
  replace (heap_ptr h + (p - heap_ptr h)) with p in Hop by lia. exists h1. split; [done|]. split; [lia|].
  exists bs1, A'. splits; [done| |by apply (holds_place h)].
  apply (Permutation_cons_inv (a := (p - heap_ptr h, len))). by rewrite <-Ha1, HA, HA'.
Qed.

(** Taking and giving back leave the heap where it is. *)
Lemma client_malloc_place h L size h' r : client_inv (h, L) -> 0 <= size <= 4294967292 -> rt_malloc size h = Some (h', r) -> same_place h h'.
Proof.
  intros (Hmin & bs & A & Hw & _) Hsz0 Hop. destruct (decide (size = 0)) as [->|Hnz]; [by injection Hop as <- <-|].
  destruct (rt_malloc_spec h bs size Hw Hmin ltac:(lia)) as (h1 & r1 & Hop1 & Hr). rewrite Hop in Hop1. injection Hop1 as <- <-.
  destruct r as [p|]; [|by destruct Hr as [-> _]]. destruct Hr as (bs' & len & _ & Hal). apply Hal.
Qed.
Lemma client_free_place h L L' p n h' : client_inv (h, L) -> L ≡ₚ (p, n) :: L' -> rt_free p h = Some h' -> same_place h h'.
Proof.
  intros (Hmin & bs & A & Hw & HA & HL) HP Hop. destruct (holds_take _ _ _ _ _ _ HL HP) as (len & A' & Hn & HA' & HL').
  assert ((p - heap_ptr h, len) ∈ areas 0 bs) as Hin by (rewrite HA, HA'; by left).
  destruct (rt_free_area h bs _ len Hw Hin) as (h1 & bs1 & Hop1 & _ & _ & _ & _ & Hpl & _); [lia|].
  replace (heap_ptr h + (p - heap_ptr h)) with p in Hop1 by lia. rewrite Hop in Hop1. by injection Hop1 as ->.
Qed.

Lemma client_realloc_inv h L L' p n new :
  client_inv (h, L) -> L ≡ₚ (p, n) :: L' -> 0 < new <= 4294967292 ->
  exists h' r, rt_realloc (Some p) new h = Some (h', r) /\
    client_inv (h', match r with Some p' => (p', new) :: L' | None => L end).
Proof.
  intros (Hmin & bs & A & Hw & HA & HL) HP Hnew. destruct (holds_take _ _ _ _ _ _ HL HP) as (len & A' & Hn & HA' & HL').
  assert ((p - heap_ptr h, len) ∈ areas 0 bs) as Hin by (rewrite HA, HA'; by left).
  destruct (rt_realloc_spec h bs _ len new Hw Hin) as (h1 & r & Hop & Hr); [lia|done|done|].
  replace (heap_ptr h + (p - heap_ptr h)) with p in Hop by lia. exists h1, r. split; [done|].
  destruct r as [p'|]; [|subst h1; split; [done|by exists bs, A]].
  destruct Hr as (bs' & len' & rest & [Hw' Hb Ha Hle [Hp1 Hm1] _ _] & _). split; [lia|].
  exists bs', ((p' - heap_ptr h, len') :: A'). splits; [done| |].
  - rewrite Ha. f_equiv. apply (Permutation_cons_inv (a := (p - heap_ptr h, len))). by rewrite <-Hb, HA, HA'.
  - apply (holds_place h); [done|]. constructor; [|done]. unfold holds. simpl. lia.
Qed.

Lemma client_data_inv h L d : client_inv (h, L) -> client_inv (set_data d h, L).
Proof.
  intros (Hmin & bs & A & Hw & HA & HL). split; [done|]. exists bs, A. splits; [by apply heap_wf_data|done|].
  by apply (holds_place h).
Qed.

Lemma set_bytes_lookup n : forall dst v d i, 0 <= i < Z.of_nat n -> set_bytes n dst v d !! (dst + i) = Some v.
Proof.
  induction n as [|n IH]; intros dst v d i Hi; [lia|]. simpl. destruct (decide (i = 0)) as [->|Hne].
  - rewrite Z.add_0_r. clear. assert (forall m dst' d, dst < dst' -> set_bytes m dst' v d !! dst = d !! dst) as H.
    { induction m as [|m IH]; intros dst' d0 Hd; [done|]. simpl. rewrite IH by lia. by rewrite lookup_insert_ne by lia. }
    rewrite H by lia. by rewrite lookup_insert_eq.
  - replace (dst + i) with (dst + 1 + (i - 1)) by lia. apply IH. lia.
Qed.

(** The bytes of an area. *)
Definition zeroed h (p n : Z) : Prop := forall i, 0 <= i < n -> h_data h !! (p - heap_ptr h + i) = Some 0.

Lemma client_calloc_returns h L count size : client_inv (h, L) -> 0 <= count * size <= 4294967292 ->
  exists h' r, rt_calloc count size h = Some (h', r) /\ client_inv (h', match r with Some p => (p, count * size) :: L | None => L end) /\
    (forall p, r = Some p -> zeroed h' p (count * size)).
Proof.
  intros Hinv Hsz. destruct (client_malloc_returns h L _ Hinv Hsz) as (h1 & r & Hop & H1). unfold rt_calloc.
  rewrite u32_small by (unfold is_u32; lia). rewrite Hop. simpl. destruct r as [p|]; [|by exists h1, None].
  eexists _, (Some p). split; [done|]. split; [by apply client_data_inv|]. intros ? [= <-] i Hi. simpl. apply set_bytes_lookup. lia.
Qed.

Lemma realloc_zero p h : 0 <= mem_size_aligned h -> rt_realloc (Some p) 0 h = (h' ← rt_free p h; Some (h', None)).
Proof. intros Hm. unfold rt_realloc. change (RT_ALIGN 0 4) with 0. by rewrite (proj2 (Z.ltb_ge _ _)) by lia. Qed.

Lemma client_realloc_null_returns h L new : client_inv (h, L) -> 0 <= new <= 4294967292 ->
  exists h' r, rt_realloc None new h = Some (h', r) /\ client_inv (h', match r with Some p => (p, new) :: L | None => L end).
Proof.
  intros Hinv Hn. pose proof Hinv as [Hmin _]. unfold rt_realloc. destruct (RT_ALIGN_range new Hn) as [Ha Ha'].
  destruct (mem_size_aligned h <? RT_ALIGN new 4); [by exists h, None|]. destruct (Z.eqb_spec (RT_ALIGN new 4) 0) as [E|E]; [by exists h, None|].
  assert (0 < new) as Hpos by (destruct (decide (new = 0)) as [->|]; [done|lia]).
  destruct (client_malloc_returns h L (RT_ALIGN new 4) Hinv) as (h' & r & -> & H'); [lia|]. exists h', r. split; [done|].
  destruct r as [p|]; [|done]. eapply client_inv_shrink; [done|lia].
Qed.

Lemma client_step_inv s s' : client_step s s' -> client_inv s -> client_inv s'.
Proof.
  destruct 1 as [h L size h' r Hsz Hop|h L count size h' r Hsz Hop|h L L' p n h' HP Hop|h L L' p n new h' r HP Hnew Hop
    |h L L' p n h' r HP Hop|h L new h' r Hnew Hop|h L p n i v Hin Hi]; intros Hinv.
  - by eapply client_malloc_inv.
  - destruct (client_calloc_returns h L count size Hinv Hsz) as (h1 & r1 & Hop1 & H1 & _). rewrite Hop in Hop1. by injection Hop1 as -> ->.
  - destruct (client_free_inv _ _ _ _ _ Hinv HP) as (h1 & Hop1 & H1). rewrite Hop in Hop1. by injection Hop1 as ->.
  - destruct (client_realloc_inv _ _ _ _ _ _ Hinv HP Hnew) as (h1 & r1 & Hop1 & H1). rewrite Hop in Hop1. by injection Hop1 as -> ->.
  - destruct (client_free_inv _ _ _ _ _ Hinv HP) as (h1 & Hop1 & H1). by rewrite realloc_zero, Hop1 in Hop by (destruct Hinv; lia); injection Hop as <- _.
  - destruct (client_realloc_null_returns h L new Hinv Hnew) as (h1 & r1 & Hop1 & H1). rewrite Hop in Hop1. by injection Hop1 as -> ->.
  - by apply client_data_inv.
Qed.

Lemma client_steps_inv s s' : rtc client_step s s' -> client_inv s -> client_inv s'.
Proof. induction 1; eauto using client_step_inv. Qed.

Lemma client_init_inv h bs : heap_wf h bs -> areas 0 bs = [] -> 12 <= mem_size_aligned h -> client_inv (h, []).
Proof. intros Hw Ha Hm. split; [done|]. exists bs, []. rewrite Ha. done. Qed.


(** [rt_malloc] of an initial or well-formed heap gives a fresh aligned area
    of at least [size] bytes inside the heap and leaves the bytes and the other
    areas alone; when [lfree] is the lowest free block it gives [RT_NULL] only if
    no free block below [mem_size_aligned - size] is large enough. *)
Theorem rt_malloc_outcome h bs size :
  heap_wf h bs -> 12 <= mem_size_aligned h -> 0 < size <= 4294967292 ->
  exists h' r, rt_malloc size h = Some (h', r) /\
    match r with
    | Some p => exists bs' len, size <= len /\ allocated h h' bs bs' p len
    | None => h' = h /\ (lowest_at (lfree h) bs ->
        forall pre b post, bs = pre ++ b :: post -> ~ fits h (need size) (total pre) b)
    end.
Proof.
  intros Hw Hmin Hsz. destruct (rt_malloc_spec h bs size Hw Hmin Hsz) as (h' & r & Hop & Hr).
  exists h', r. split; [done|]. destruct r as [p|]; [|done]. destruct Hr as (bs' & len & Hneed & Hal).
  exists bs', len. split; [pose proof (need_ge size); lia|done].
Qed.

(** [rt_realloc] of a held area: a new size of zero releases it; otherwise it
    fails and changes nothing, or returns an aligned area of at least the new
    size that keeps the common bytes, every other area being untouched. *)
Theorem rt_realloc_outcome h bs q len new :
  heap_wf h bs -> (q, len) ∈ areas 0 bs -> 0 < len -> 12 <= mem_size_aligned h -> 0 <= new <= 4294967292 ->
  exists h' r, rt_realloc (Some (heap_ptr h + q)) new h = Some (h', r) /\
    match r with
    | None => if new =? 0 then exists bs', heap_wf h' bs' /\ areas 0 bs ≡ₚ (q, len) :: areas 0 bs' else h' = h
    | Some p => exists bs' len' rest, resized h h' bs bs' q len new (p - heap_ptr h) len' rest /\ p mod 4 = 0
    end.
Proof.
  intros Hw Hin Hl Hmin Hnew. destruct (Z.eqb_spec new 0) as [->|Hne].
  - destruct (rt_free_area h bs q len Hw Hin Hl) as (h' & bs' & Hop & Hw' & Ha & _).
    exists h', None. split; [|by exists bs'].
    unfold rt_realloc. change (RT_ALIGN 0 4) with 0. rewrite (proj2 (Z.ltb_ge _ _)) by lia. simpl. by rewrite Hop.
  - apply (rt_realloc_spec h bs q len new Hw Hin Hl Hmin). lia.
Qed.

(** ** Concrete heaps *)

(** A heap of 200 bytes of RAM: 176 bytes to give. *)
Definition demo_heap : heap := rt_system_heap_init 1001 1204 (Heap 0 ∅ ∅ 0 0 0 0).

Lemma demo_heap_wf : heap_wf demo_heap [(false, heap_end demo_heap)].
Proof. apply (rt_system_heap_init_wf 1001 1204 (Heap 0 ∅ ∅ 0 0 0 0)); by vm_compute. Qed.

Definition run_malloc (size : Z) (h : heap) : heap * Z :=
  match rt_malloc size h with Some (h', Some p) => (h', p) | _ => (h, 0) end.
Definition run_free (p : Z) (h : heap) : heap := default h (rt_free p h).
Definition run_realloc (p size : Z) (h : heap) : heap * Z :=
  match rt_realloc (Some p) size h with Some (h', Some p') => (h', p') | _ => (h, 0) end.

(** Three areas, the middle one released. *)
Definition demo_heap3 : heap :=
  let h := (run_malloc 30 demo_heap).1 in
  let '(h, p2) := run_malloc 5 h in
  let h := (run_malloc 20 h).1 in
  run_free p2 h.

Definition no_heap : heap := Heap 0 ∅ ∅ 0 0 0 0.

Lemma rt_malloc_free_roundtrip_witness :
  let '(h1, p) := run_malloc 30 demo_heap in
  exists h2, rt_free p h1 = Some h2 /\ heap_wf h2 [(false, heap_end demo_heap)] /\
    rt_memory_info h2 = (mem_size_aligned demo_heap, used_mem demo_heap, max_mem h1) /\
    h_data h2 = h_data demo_heap /\
    (lowest_at (lfree demo_heap) [(false, heap_end demo_heap)] -> lowest_at (lfree h2) [(false, heap_end demo_heap)]).
Proof.
  pose proof (rt_malloc_free_roundtrip demo_heap [(false, heap_end demo_heap)] 30
    (run_malloc 30 demo_heap).1 (run_malloc 30 demo_heap).2 demo_heap_wf) as H.
  apply H; [by vm_compute|done|by vm_compute].
Defined.


Lemma rt_malloc_outcome_witness :
  exists h' r, rt_malloc 500 demo_heap = Some (h', r) /\ r = None.
Proof.
  destruct (rt_malloc_outcome demo_heap _ 500 demo_heap_wf) as (h' & r & Hop & _); [by vm_compute|done|].
  exists h', r. split; [exact Hop|]. vm_compute in Hop. by injection Hop.
Defined.

(** One area of 16 bytes held, 136 bytes free. *)
Definition demo_heap1 : heap := (run_malloc 16 demo_heap).1.

Lemma demo_heap1_wf : heap_wf demo_heap1 [(true, 28); (false, 160)].
Proof.
  split; try (vm_compute; done).
  - exists 188. by vm_compute.
  - exists [(true, 28)], [(false, 160)]. done.
Qed.

Lemma rt_realloc_outcome_witness :
  exists h' r, rt_realloc (Some (heap_ptr demo_heap1 + 12)) 40 demo_heap1 = Some (h', r) /\
    exists p bs' len' rest, r = Some p /\ resized demo_heap1 h' [(true, 28); (false, 160)] bs' 12 16 40 (p - heap_ptr demo_heap1) len' rest.
Proof.
  destruct (rt_realloc_outcome demo_heap1 _ 12 16 40 demo_heap1_wf) as (h' & r & Hop & Hr); [by left|lia|by vm_compute|lia|].
  exists h', r. split; [exact Hop|]. vm_compute in Hop. injection Hop as _ <-.
  destruct Hr as (bs' & len' & rest & Hr & _). by exists (heap_ptr demo_heap1 + 40), bs', len', rest.
Defined.

(** ** Limits of the allocator *)

(** Sizes above [2^32 - 4] wrap to zero in [RT_ALIGN]: the caller gets a block of
    12 bytes. *)
Theorem rt_malloc_huge_size size h :
  4294967292 < size < 4294967296 -> 12 <= mem_size_aligned h -> rt_malloc size h = rt_malloc 12 h.
Proof.
  intros Hs Hm. unfold rt_malloc. rewrite (proj2 (Z.eqb_neq size 0)) by lia.
  assert (RT_ALIGN size 4 = 0) as ->.
  { unfold RT_ALIGN. change (Z.lnot (4 - 1)) with (Z.lnot 3). rewrite land_lnot3.
    assert (0 <= u32 (size + 4 - 1) < 4) as Hu.
    { unfold u32. replace (size + 4 - 1) with (size - 4294967293 + 1 * 4294967296) by lia.
      rewrite Z_mod_plus_full, Z.mod_small by lia. lia. }
    rewrite Z.div_small by lia. done. }
  change (RT_ALIGN 12 4) with 12. change MIN_SIZE_ALIGNED with 12.
  by rewrite (proj2 (Z.ltb_ge _ 0)), (proj2 (Z.ltb_ge (mem_size_aligned h) 12)) by lia.
Qed.

(** [rt_calloc] multiplies in 32 bits: when the product wraps, the area has room
    for what is left of it. *)
Theorem rt_calloc_overflows :
  rt_calloc 65536 65537 demo_heap = rt_calloc 1 65536 demo_heap /\ rt_calloc 1073741825 4 demo_heap = rt_calloc 1 4 demo_heap /\
  exists h p, rt_calloc 1073741825 4 demo_heap = Some (h, Some p).
Proof. splits; [by vm_compute..|]. vm_compute. by do 2 eexists. Qed.

Definition free_bytes (h : heap) : Z := mem_size_aligned h + 12 - used_mem h.

(** Shrinking a block below [lfree] does not lower [lfree]: the freed bytes are
    not found by the next [rt_malloc], although the block is large enough. *)
Theorem rt_realloc_shrink_hides_block :
  let '(h1, p1) := run_malloc 100 demo_heap in
  let '(h2, _) := run_malloc 40 h1 in
  let '(h3, p3) := run_realloc p1 12 h2 in
  p3 = p1 /\ free_bytes h3 = 112 /\ rt_malloc 40 h3 = Some (h3, None) /\
  exists h4 p, rt_malloc 40 (set_lfree 0 h3) = Some (h4, Some p).
Proof. vm_compute. splits; try done. by do 2 eexists. Qed.

(** The search stops before [mem_size_aligned - size]: a last block that fits
    exactly is not given. *)
Theorem rt_malloc_misses_last_block :
  let h := demo_heap1 in
  rt_malloc 148 h = Some (h, None) /\ exists h' p, rt_malloc 144 h = Some (h', Some p).
Proof. vm_compute. split; [done|]. by do 2 eexists. Qed.
