(* ===== verification/RingBuffer.v ===== *)
(** * Ring buffers (rt-thread/components/drivers/src/ringbuffer.c)

    Bytes between an interrupt handler and a thread. The indices carry a mirror
    bit: equal indices in one mirror mean empty, in different mirrors full. The
    indices stay below the size, which is at most 32767, so that their 15 bits
    never overflow: they are natural numbers here. *)

From S2P Require Import Prelude Ring Mem.

(** ** State *)

Record rt_ringbuffer := Rb {
  buffer_ptr : list Z;
  read_mirror : bool;
  read_index : nat;
  write_mirror : bool;
  write_index : nat;
  buffer_size : nat;
}.

Inductive rt_ringbuffer_state := RT_RINGBUFFER_EMPTY | RT_RINGBUFFER_FULL | RT_RINGBUFFER_HALFFULL.

Definition rt_ringbuffer_status (rb : rt_ringbuffer) : rt_ringbuffer_state :=
  if (read_index rb =? write_index rb)%nat then
    if Bool.eqb (read_mirror rb) (write_mirror rb) then RT_RINGBUFFER_EMPTY else RT_RINGBUFFER_FULL
  else RT_RINGBUFFER_HALFFULL.

(** ** Operations *)

(** [size] is positive; [pool] has at least that many bytes. *)
Definition rt_ringbuffer_init (pool : list Z) (size : Z) : rt_ringbuffer :=
  Rb pool false 0 false 0 (Z.to_nat (RT_ALIGN_DOWN size 4)).

Definition rt_ringbuffer_data_len (rb : rt_ringbuffer) : nat :=
  match rt_ringbuffer_status rb with
  | RT_RINGBUFFER_EMPTY => 0
  | RT_RINGBUFFER_FULL => buffer_size rb
  | RT_RINGBUFFER_HALFFULL =>
      if (read_index rb <? write_index rb)%nat then write_index rb - read_index rb
      else buffer_size rb - (read_index rb - write_index rb)
  end.
Definition rt_ringbuffer_space_len (rb : rt_ringbuffer) : nat := buffer_size rb - rt_ringbuffer_data_len rb.

Definition rt_ringbuffer_reset (rb : rt_ringbuffer) : rt_ringbuffer :=
  Rb (buffer_ptr rb) false 0 false 0 (buffer_size rb).

Definition set_write (pool : list Z) (m : bool) (i : nat) (rb : rt_ringbuffer) : rt_ringbuffer :=
  Rb pool (read_mirror rb) (read_index rb) m i (buffer_size rb).
Definition set_read (m : bool) (i : nat) (rb : rt_ringbuffer) : rt_ringbuffer :=
  Rb (buffer_ptr rb) m i (write_mirror rb) (write_index rb) (buffer_size rb).

(** The copies of the two branches. *)
Definition put_here (data : list Z) (rb : rt_ringbuffer) : rt_ringbuffer :=
  set_write (copy_in (write_index rb) data (buffer_ptr rb)) (write_mirror rb) (write_index rb + length data) rb.
Definition put_around (data : list Z) (rb : rt_ringbuffer) : rt_ringbuffer :=
  let n1 := (buffer_size rb - write_index rb)%nat in
  set_write (copy_in 0 (drop n1 data) (copy_in (write_index rb) (take n1 data) (buffer_ptr rb)))
    (negb (write_mirror rb)) (length data - n1) rb.

(** [data]: the [length] bytes from [ptr] on. *)
Definition rt_ringbuffer_put (data : list Z) (rb : rt_ringbuffer) : rt_ringbuffer * nat :=
  let size := rt_ringbuffer_space_len rb in
  if (size =? 0)%nat then (rb, 0%nat)
  else
    let data := if (size <? length data)%nat then take size data else data in
    if (length data <? buffer_size rb - write_index rb)%nat then (put_here data rb, length data)
    else (put_around data rb, length data).

Definition rt_ringbuffer_put_force (data : list Z) (rb : rt_ringbuffer) : rt_ringbuffer * nat :=
  let space_length := rt_ringbuffer_space_len rb in
  let data := if (buffer_size rb <? length data)%nat then drop (length data - buffer_size rb) data else data in
  if (length data <? buffer_size rb - write_index rb)%nat then
    let rb := put_here data rb in
    let rb := if (space_length <? length data)%nat then set_read (read_mirror rb) (write_index rb) rb else rb in
    (rb, length data)
  else
    let rb := put_around data rb in
    let rb := if (space_length <? length data)%nat then set_read (negb (read_mirror rb)) (write_index rb) rb else rb in
    (rb, length data).

(** The bytes copied to [ptr]. *)
Definition rt_ringbuffer_get (length : nat) (rb : rt_ringbuffer) : rt_ringbuffer * list Z :=
  let size := rt_ringbuffer_data_len rb in
  if (size =? 0)%nat then (rb, [])
  else
    let length := if (size <? length)%nat then size else length in
    let n1 := (buffer_size rb - read_index rb)%nat in
    if (length <? n1)%nat then
      (set_read (read_mirror rb) (read_index rb + length) rb, take length (drop (read_index rb) (buffer_ptr rb)))
    else
      (set_read (negb (read_mirror rb)) (length - n1) rb,
       take n1 (drop (read_index rb) (buffer_ptr rb)) ++ take (length - n1) (buffer_ptr rb)).

Definition rt_ringbuffer_putchar (ch : Z) (rb : rt_ringbuffer) : rt_ringbuffer * nat :=
  if (rt_ringbuffer_space_len rb =? 0)%nat then (rb, 0%nat)
  else
    let pool := <[write_index rb := ch]> (buffer_ptr rb) in
    if (write_index rb =? buffer_size rb - 1)%nat then (set_write pool (negb (write_mirror rb)) 0 rb, 1%nat)
    else (set_write pool (write_mirror rb) (S (write_index rb)) rb, 1%nat).

Definition rt_ringbuffer_putchar_force (ch : Z) (rb : rt_ringbuffer) : rt_ringbuffer * nat :=
  let full := match rt_ringbuffer_status rb with RT_RINGBUFFER_FULL => true | _ => false end in
  let pool := <[write_index rb := ch]> (buffer_ptr rb) in
  if (write_index rb =? buffer_size rb - 1)%nat then
    let rb := set_write pool (negb (write_mirror rb)) 0 rb in
    (if full then set_read (negb (read_mirror rb)) (write_index rb) rb else rb, 1%nat)
  else
    let rb := set_write pool (write_mirror rb) (S (write_index rb)) rb in
    (if full then set_read (read_mirror rb) (write_index rb) rb else rb, 1%nat).

Definition rt_ringbuffer_getchar (rb : rt_ringbuffer) : rt_ringbuffer * option Z :=
  if (rt_ringbuffer_data_len rb =? 0)%nat then (rb, None)
  else
    let ch := buffer_ptr rb !! read_index rb in
    if (read_index rb =? buffer_size rb - 1)%nat then (set_read (negb (read_mirror rb)) 0 rb, ch)
    else (set_read (read_mirror rb) (S (read_index rb)) rb, ch).

(** [rt_ringbuffer_create] and [rt_ringbuffer_destroy], on the heap of [Mem]: the
    addresses of the structure (12 bytes) and the pool. A failed allocation of the
    pool frees the structure and still returns its address. *)
Definition rt_ringbuffer_create (size : Z) (h : heap) : option (heap * option Z * option rt_ringbuffer) :=
  let size := RT_ALIGN_DOWN size 4 in
  '(h, rb) ← rt_malloc 12 h;
  match rb with
  | None => Some (h, None, None)
  | Some rb =>
      '(h, pool) ← rt_malloc size h;
      match pool with
      | None => h ← rt_free rb h; Some (h, Some rb, None)
      | Some _ => Some (h, Some rb, Some (rt_ringbuffer_init (replicate (Z.to_nat size) 0) size))
      end
  end.
Definition rt_ringbuffer_destroy (pool rb : Z) (h : heap) : option heap := h ← rt_free pool h; rt_free rb h.

(** ** Representation of a queue of bytes *)

Record rb_repr (rb : rt_ringbuffer) (q : list Z) : Prop := {
  rbr_size : length (buffer_ptr rb) = buffer_size rb;
  rbr_ring : ring_repr (buffer_ptr rb) (read_index rb) q;
  rbr_write : write_index rb = ((read_index rb + length q) mod buffer_size rb)%nat;
  rbr_mirror : write_mirror rb = xorb (read_mirror rb) (buffer_size rb <=? read_index rb + length q)%nat;
}.

Create HintDb ringbuf.
#[export] Hint Rewrite @length_app @length_take @length_drop @length_insert : ringbuf.

(** The indices of a represented buffer, in one of two positions. *)
Lemma rb_repr_cases rb q : rb_repr rb q ->
  (length q <= buffer_size rb)%nat /\ (read_index rb < buffer_size rb)%nat /\ (write_index rb < buffer_size rb)%nat /\
  ((read_index rb + length q < buffer_size rb /\ write_index rb = read_index rb + length q /\ write_mirror rb = read_mirror rb) \/
   (buffer_size rb <= read_index rb + length q /\ write_index rb + buffer_size rb = read_index rb + length q /\
    write_mirror rb = negb (read_mirror rb)))%nat.
Proof.
  intros [Hs [Hl Ho _] Hw Hm]. rewrite Hs in *. rewrite mod_wrap in Hw by lia.
  split_and!; [lia|lia|case_decide; lia|].
  destruct (Nat.leb_spec (buffer_size rb) (read_index rb + length q)); [right|left]; rewrite Hm;
    (split_and!; [lia|case_decide; lia|by destruct (read_mirror rb)]).
Qed.

Lemma rb_repr_intro rb q :
  length (buffer_ptr rb) = buffer_size rb -> ring_repr (buffer_ptr rb) (read_index rb) q ->
  ((read_index rb + length q < buffer_size rb /\ write_index rb = read_index rb + length q /\ write_mirror rb = read_mirror rb) \/
   (buffer_size rb <= read_index rb + length q /\ write_index rb + buffer_size rb = read_index rb + length q /\
    write_mirror rb = negb (read_mirror rb)))%nat -> rb_repr rb q.
Proof.
  intros Hs Hr Hc. pose proof Hr as [Hl Ho _]. split; [done|done| |].
  - rewrite mod_wrap by lia. case_decide; lia.
  - destruct (Nat.leb_spec (buffer_size rb) (read_index rb + length q)); destruct Hc as [(?&?&->)|(?&?&->)]; try lia;
      by destruct (read_mirror rb).
Qed.

Lemma rb_data_len rb q : rb_repr rb q -> rt_ringbuffer_data_len rb = length q.
Proof.
  intros H. destruct (rb_repr_cases _ _ H) as (?&?&?&Hc). unfold rt_ringbuffer_data_len, rt_ringbuffer_status.
  destruct (Nat.eqb_spec (read_index rb) (write_index rb)) as [E|E].
  - destruct Hc as [(?&?&->)|(?&?&->)]; destruct (read_mirror rb); simpl; lia.
  - destruct (Nat.ltb_spec (read_index rb) (write_index rb)); lia.
Qed.

Lemma rb_space_len rb q : rb_repr rb q -> rt_ringbuffer_space_len rb = (buffer_size rb - length q)%nat.
Proof. intros H. unfold rt_ringbuffer_space_len. by rewrite (rb_data_len _ _ H). Qed.

Lemma rb_full rb q : rb_repr rb q -> (rt_ringbuffer_status rb = RT_RINGBUFFER_FULL <-> length q = buffer_size rb).
Proof.
  intros H. destruct (rb_repr_cases _ _ H) as (?&?&?&Hc). unfold rt_ringbuffer_status.
  destruct (Nat.eqb_spec (read_index rb) (write_index rb)) as [E|E].
  - destruct Hc as [(?&?&->)|(?&?&->)]; destruct (read_mirror rb); simpl; split; intros; try done; lia.
  - split; [done|lia].
Qed.

(** The two copies write the data circularly; only the write position changes. *)
Lemma put_written rb q d rb' :
  rb_repr rb q -> (length d <= buffer_size rb)%nat ->
  rb' = (if (length d <? buffer_size rb - write_index rb)%nat then put_here d rb else put_around d rb) ->
  ring_written (buffer_ptr rb) ((read_index rb + length q) mod length (buffer_ptr rb)) d (buffer_ptr rb').
Proof.
  intros H Hd ->. destruct (rb_repr_cases _ _ H) as (?&?&Hw&_). pose proof (rbr_size _ _ H) as Hs.
  rewrite Hs, <-(rbr_write _ _ H). destruct (Nat.ltb_spec (length d) (buffer_size rb - write_index rb)); simpl.
  - apply written_one; lia.
  - rewrite <-Hs in *. apply written_two; lia.
Qed.

Lemma put_repr rb q d : rb_repr rb q -> (length q + length d <= buffer_size rb)%nat ->
  rb_repr (if (length d <? buffer_size rb - write_index rb)%nat then put_here d rb else put_around d rb) (q ++ d).
Proof.
  intros H Hd. destruct (rb_repr_cases _ _ H) as (?&?&Hw&Hc). pose proof (rbr_size _ _ H) as Hs.
  pose proof (put_written rb q d _ H ltac:(lia) eq_refl) as W.
  pose proof (rw_len _ _ _ _ W) as Wl. apply (ring_write _ _ q d) in W; [|apply H|lia]. simpl in W.
  rewrite Hs, (proj2 (Nat.sub_0_le _ _) Hd), Nat.add_0_r, Nat.mod_small in W by done. rewrite drop_0 in W.
  destruct (Nat.ltb_spec (length d) (buffer_size rb - write_index rb)); apply rb_repr_intro; simpl in *; [lia|done| |lia|done|];
    rewrite length_app.
  - destruct Hc as [(?&?&?)|(?&?&?)]; [left|right]; (split_and!; [lia|lia|done]).
  - destruct Hc as [(?&?&->)|(?&?&?)]; [|lia]. right. split_and!; [lia|lia|done].
Qed.

Lemma rt_ringbuffer_put_repr rb q d : rb_repr rb q ->
  exists rb', rt_ringbuffer_put d rb = (rb', Nat.min (length d) (buffer_size rb - length q)) /\
    rb_repr rb' (q ++ take (buffer_size rb - length q) d) /\ buffer_size rb' = buffer_size rb.
Proof.
  intros H. unfold rt_ringbuffer_put. rewrite (rb_space_len _ _ H). set (s := (buffer_size rb - length q)%nat).
  destruct (rb_repr_cases _ _ H) as (Hl&_).
  destruct (Nat.eqb_spec s 0) as [E|E].
  - exists rb. rewrite E, take_0, app_nil_r. split_and!; [f_equal; lia|done|done].
  - set (d' := if (s <? length d)%nat then take s d else d).
    assert (d' = take s d) as Ed.
    { unfold d'. destruct (Nat.ltb_spec s (length d)); [done|]. by rewrite take_ge by lia. }
    assert (length d' = Nat.min (length d) s) as El by (rewrite Ed, length_take; lia).
    rewrite <-Ed, <-El. pose proof (put_repr rb q d' H ltac:(lia)) as Hp.
    destruct (length d' <? buffer_size rb - write_index rb)%nat; eauto.
Qed.

Lemma rt_ringbuffer_get_repr rb q k : rb_repr rb q ->
  exists rb', rt_ringbuffer_get k rb = (rb', take k q) /\ rb_repr rb' (drop k q) /\ buffer_size rb' = buffer_size rb.
Proof.
  intros H. unfold rt_ringbuffer_get. rewrite (rb_data_len _ _ H).
  destruct (rb_repr_cases _ _ H) as (Hl&Hr&Hw&Hc). pose proof (rbr_size _ _ H) as Hs. pose proof (rbr_ring _ _ H) as Hq.
  destruct (Nat.eqb_spec (length q) 0) as [E|E].
  { apply length_zero_iff_nil in E as ->. exists rb. by rewrite take_nil, drop_nil. }
  set (k' := if (length q <? k)%nat then length q else k).
  assert (k' <= length q /\ take k q = take k' q /\ drop k q = drop k' q)%nat as (Hk&->&->).
  { unfold k'. destruct (Nat.ltb_spec (length q) k); [|done].
    by rewrite !take_ge, !drop_ge by lia. }
  pose proof (ring_drop _ _ _ _ Hq Hk) as Hd. rewrite Hs, mod_wrap in Hd by lia.
  pose proof (ring_copied _ _ _ _ Hq Hk) as Hcopy. rewrite Hs in Hcopy. rewrite <-Hcopy.
  destruct (Nat.ltb_spec k' (buffer_size rb - read_index rb)) as [Hn|Hn]; eexists; split_and!; [f_equal| |done|f_equal| |done].
  - by rewrite (proj2 (Nat.ltb_lt _ _)) by lia.
  - apply rb_repr_intro; simpl; [done| |rewrite length_drop; destruct Hc as [(?&?&->)|(?&?&->)]; [left|right]; (split_and!; [lia|lia|done])].
    by rewrite decide_True in Hd by lia.
  - rewrite (proj2 (Nat.ltb_ge _ _)) by lia. do 2 f_equal. lia.
  - rewrite decide_False in Hd by lia. replace (read_index rb + k' - buffer_size rb)%nat with (k' - (buffer_size rb - read_index rb))%nat in Hd by lia.
    apply rb_repr_intro; simpl; [done|done|]. rewrite length_drop.
    destruct Hc as [(?&?&->)|(?&?&->)]; [lia|left]. split_and!; [lia|lia|done].
Qed.

(** The single-byte operations are the block operations on one byte. *)
Lemma copy_in_one i v (pool : list Z) : (i < length pool)%nat -> copy_in i [v] pool = <[i := v]> pool.
Proof. intros H. unfold copy_in. rewrite insert_take_drop by done. simpl. by rewrite Nat.add_1_r. Qed.

Lemma put_around_one ch rb q : rb_repr rb q -> write_index rb = (buffer_size rb - 1)%nat ->
  put_around [ch] rb = set_write (<[write_index rb := ch]> (buffer_ptr rb)) (negb (write_mirror rb)) 0 rb.
Proof.
  intros H E. destruct (rb_repr_cases _ _ H) as (?&?&?&?). pose proof (rbr_size _ _ H).
  unfold put_around. replace (buffer_size rb - write_index rb)%nat with 1%nat by lia. simpl take. simpl drop.
  rewrite copy_in_one by lia. unfold copy_in. rewrite take_0. simpl. done.
Qed.
Lemma put_here_one ch rb q : rb_repr rb q ->
  put_here [ch] rb = set_write (<[write_index rb := ch]> (buffer_ptr rb)) (write_mirror rb) (S (write_index rb)) rb.
Proof.
  intros H. destruct (rb_repr_cases _ _ H) as (?&?&?&?). pose proof (rbr_size _ _ H).
  unfold put_here. rewrite copy_in_one by lia. simpl. by rewrite Nat.add_1_r.
Qed.

Lemma putchar_put ch rb q : rb_repr rb q -> rt_ringbuffer_putchar ch rb = rt_ringbuffer_put [ch] rb.
Proof.
  intros H. destruct (rb_repr_cases _ _ H) as (?&?&?&?). unfold rt_ringbuffer_putchar, rt_ringbuffer_put.
  destruct (Nat.eqb_spec (rt_ringbuffer_space_len rb) 0) as [|E]; [done|].
  rewrite (proj2 (Nat.ltb_ge _ 1)) by lia. simpl length.
  destruct (Nat.eqb_spec (write_index rb) (buffer_size rb - 1)) as [Ew|Ew].
  - rewrite (proj2 (Nat.ltb_ge _ _)) by lia. by rewrite (put_around_one _ _ _ H Ew).
  - rewrite (proj2 (Nat.ltb_lt _ _)) by lia. by rewrite (put_here_one _ _ _ H).
Qed.

Lemma putchar_force_put_force ch rb q : rb_repr rb q -> rt_ringbuffer_putchar_force ch rb = rt_ringbuffer_put_force [ch] rb.
Proof.
  intros H. destruct (rb_repr_cases _ _ H) as (?&?&?&?). unfold rt_ringbuffer_putchar_force, rt_ringbuffer_put_force.
  rewrite (rb_space_len _ _ H). simpl length. rewrite (proj2 (Nat.ltb_ge _ 1)) by lia. simpl length.
  set (full := match rt_ringbuffer_status rb with RT_RINGBUFFER_FULL => true | _ => false end).
  assert (full = (buffer_size rb - length q <? 1)%nat) as ->.
  { unfold full. destruct (rb_full _ _ H) as [Hf1 Hf2].
    destruct (Nat.ltb_spec (buffer_size rb - length q) 1) as [Hlt|Hge].
    - by rewrite Hf2 by lia.
    - destruct (rt_ringbuffer_status rb); try done. specialize (Hf1 eq_refl). lia. }
  destruct (Nat.eqb_spec (write_index rb) (buffer_size rb - 1)) as [Ew|Ew].
  - rewrite (proj2 (Nat.ltb_ge 1 _)) by lia. by rewrite (put_around_one _ _ _ H Ew).
  - rewrite (proj2 (Nat.ltb_lt 1 _)) by lia. by rewrite (put_here_one _ _ _ H).
Qed.

Lemma getchar_get rb q : rb_repr rb q ->
  rt_ringbuffer_getchar rb = (fst (rt_ringbuffer_get 1 rb), head (snd (rt_ringbuffer_get 1 rb))).
Proof.
  intros H. destruct (rt_ringbuffer_get_repr _ _ 1 H) as (rb'&E&_). rewrite E. simpl.
  destruct (rb_repr_cases _ _ H) as (?&?&?&?). pose proof (rbr_ring _ _ H) as Hr. pose proof (rbr_size _ _ H) as Hs.
  unfold rt_ringbuffer_getchar, rt_ringbuffer_get in *. rewrite (rb_data_len _ _ H) in *.
  destruct q as [|v q]; simpl length in *; cbn [Nat.eqb] in *; [by simplify_eq|].
  rewrite (proj2 (Nat.ltb_ge _ 1)) in E by lia.
  destruct (ring_pop _ _ _ _ Hr) as [-> _]. simpl.
  destruct (Nat.eqb_spec (read_index rb) (buffer_size rb - 1)) as [Ew|Ew].
  - rewrite (proj2 (Nat.ltb_ge 1 _)) in E by lia. replace (buffer_size rb - read_index rb)%nat with 1%nat in E by lia. by simplify_eq.
  - rewrite (proj2 (Nat.ltb_lt 1 _)) in E by lia. injection E as <- _. by rewrite Nat.add_1_r.
Qed.

(** Overwriting is correct unless the write wraps in the mirror being read and
    overwrites unread bytes. *)
Definition overrun (rb : rt_ringbuffer) (q d : list Z) : Prop :=
  (read_index rb + length q < buffer_size rb /\ buffer_size rb < length q + Nat.min (length d) (buffer_size rb))%nat.

Lemma put_force_repr rb q d : rb_repr rb q -> (length d <= buffer_size rb)%nat ->
  let rb' := fst (rt_ringbuffer_put_force d rb) in
  snd (rt_ringbuffer_put_force d rb) = length d /\ buffer_size rb' = buffer_size rb /\
  (~ overrun rb q d -> rb_repr rb' (last_bytes (buffer_size rb) (q ++ d))) /\ (overrun rb q d -> rb_repr rb' []).
Proof.
  intros H Hd. unfold rt_ringbuffer_put_force, overrun. rewrite (rb_space_len _ _ H), (proj2 (Nat.ltb_ge _ _) Hd), Nat.min_l by done.
  destruct (rb_repr_cases _ _ H) as (?&?&Hw&Hc). pose proof (rbr_size _ _ H) as Hs.
  destruct (Nat.ltb_spec (buffer_size rb - length q) (length d)) as [Hf|Hf].
  - pose proof (put_written rb q d _ H Hd eq_refl) as W. pose proof (rw_len _ _ _ _ W) as Wl.
    apply (ring_write _ _ q d) in W; [|apply H|lia]. simpl in W. rewrite Hs, mod_wrap in W by lia.
    unfold last_bytes. rewrite length_app.
    assert (length (drop (length q + length d - buffer_size rb) (q ++ d)) = buffer_size rb) as Hk by (rewrite length_drop, length_app; lia).
    destruct (Nat.ltb_spec (length d) (buffer_size rb - write_index rb)); simpl in *; (split_and!; [done|done|intros Ho|intros Ho]);
      apply rb_repr_intro; simpl in *; rewrite ?Hk; try lia.
    + replace (write_index rb + length d)%nat with (read_index rb + (length q + length d - buffer_size rb))%nat by (destruct Hc; lia).
      by rewrite decide_True in W by (destruct Hc; lia).
    + destruct Hc as [(?&?&->)|(?&?&->)]; [lia|right]. split_and!; [lia|lia|done].
    + destruct Hc as [(?&?&?)|(?&?&?)]; [lia|]. rewrite decide_False in W by lia.
      replace (length d - (buffer_size rb - write_index rb))%nat with (read_index rb + (length q + length d - buffer_size rb) - buffer_size rb)%nat by lia. done.
    + destruct Hc as [(?&?&->)|(?&?&->)]; [lia|right]. split_and!; [lia|lia|done].
    + apply ring_empty. lia.
    + left. destruct Hc as [(?&?&->)|(?&?&->)]; [|lia]. split_and!; [lia|lia|done].
  - unfold last_bytes. replace (length (q ++ d) - buffer_size rb)%nat with 0%nat by (rewrite length_app; lia). rewrite drop_0.
    pose proof (put_repr rb q d H ltac:(lia)) as Hp.
    destruct (length d <? buffer_size rb - write_index rb)%nat; (split_and!; [done|done|done|lia]).
Qed.

Lemma rt_ringbuffer_init_repr pool size : 0 < size -> Z.of_nat (length pool) = RT_ALIGN_DOWN size 4 -> (0 < length pool)%nat ->
  rb_repr (rt_ringbuffer_init pool size) [] /\ buffer_size (rt_ringbuffer_init pool size) = length pool.
Proof.
  intros Hz Hl Hp. unfold rt_ringbuffer_init. rewrite <-Hl, Nat2Z.id. split; [|done].
  apply rb_repr_intro; simpl; [done|by apply ring_empty|left; split_and!; [lia|lia|done]].
Qed.

Lemma rt_ringbuffer_reset_repr rb q : rb_repr rb q -> rb_repr (rt_ringbuffer_reset rb) [].
Proof.
  intros H. destruct (rb_repr_cases _ _ H) as (?&?&?&_). pose proof (rbr_size _ _ H).
  apply rb_repr_intro; simpl; [done|apply ring_empty; lia|left; split_and!; [lia|lia|done]].
Qed.

(** A forced put keeps the last bytes, as many as fit, unless it wraps in the
    mirror being read over unread bytes: then the buffer is empty and every byte
    is lost. *)
Theorem rt_ringbuffer_put_force_outcome rb q d : rb_repr rb q ->
  let '(rb', n) := rt_ringbuffer_put_force d rb in
  n = Nat.min (length d) (buffer_size rb) /\
  (~ overrun rb q d -> rb_repr rb' (last_bytes (buffer_size rb) (q ++ d))) /\ (overrun rb q d -> rb_repr rb' []).
Proof.
  intros H. set (d' := drop (length d - buffer_size rb) d).
  assert (rt_ringbuffer_put_force d rb = rt_ringbuffer_put_force d' rb) as ->.
  { unfold rt_ringbuffer_put_force, d'. destruct (Nat.ltb_spec (buffer_size rb) (length d)).
    - by rewrite (proj2 (Nat.ltb_ge (buffer_size rb) (length (drop (length d - buffer_size rb) d)))) by (rewrite length_drop; lia).
    - rewrite (proj2 (Nat.sub_0_le (length d) (buffer_size rb))), drop_0 by lia. by rewrite (proj2 (Nat.ltb_ge (buffer_size rb) (length d))) by lia. }
  assert (length d' = Nat.min (length d) (buffer_size rb)) as El by (unfold d'; rewrite length_drop; lia).
  pose proof (put_force_repr rb q d' H ltac:(lia)) as Hp. simpl in Hp.
  pose proof (last_bytes_trim (buffer_size rb) q d : last_bytes _ (q ++ d') = _) as Et. rewrite Et in Hp.
  destruct (rt_ringbuffer_put_force d' rb) as [rb' n]. simpl in Hp. destruct Hp as (->&_&Hp).
  split; [done|]. unfold overrun in *. rewrite El, Nat.min_l in Hp by lia. done.
Qed.

(** *** The position of the oldest byte *)

Lemma put_read_index d rb : read_index (fst (rt_ringbuffer_put d rb)) = read_index rb.
Proof. unfold rt_ringbuffer_put. repeat (case_match; try done). Qed.

Lemma get_read_index rb q k : rb_repr rb q -> read_index (fst (rt_ringbuffer_get k rb)) = ((read_index rb + Nat.min k (length q)) mod buffer_size rb)%nat.
Proof.
  intros H. destruct (rb_repr_cases _ _ H) as (?&?&_&_). pose proof (rbr_size _ _ H). unfold rt_ringbuffer_get. rewrite (rb_data_len _ _ H).
  destruct (Nat.eqb_spec (length q) 0) as [E|E]; simpl; [by rewrite E, Nat.min_0_r, Nat.add_0_r, Nat.mod_small|].
  rewrite mod_wrap by lia. destruct (Nat.ltb_spec (length q) k).
  - destruct (Nat.ltb_spec (length q) (buffer_size rb - read_index rb)); simpl; case_decide; lia.
  - destruct (Nat.ltb_spec k (buffer_size rb - read_index rb)); simpl; case_decide; lia.
Qed.

Lemma put_force_read_index rb q d : rb_repr rb q -> (length d <= buffer_size rb)%nat ->
  read_index (fst (rt_ringbuffer_put_force d rb)) = ((read_index rb + (length q + length d - buffer_size rb)) mod buffer_size rb)%nat.
Proof.
  intros H Hd. destruct (rb_repr_cases _ _ H) as (?&?&Hw&Hc). pose proof (rbr_size _ _ H). unfold rt_ringbuffer_put_force.
  rewrite (rb_space_len _ _ H), (proj2 (Nat.ltb_ge _ _) Hd), mod_wrap by lia.
  destruct (Nat.ltb_spec (length d) (buffer_size rb - write_index rb)), (Nat.ltb_spec (buffer_size rb - length q) (length d)); simpl; case_decide; lia.
Qed.

(** ** Clients *)

(** A call and what it returns: the value and the bytes copied out. *)
Inductive rb_op := RbPut (d : list Z) | RbPutForce (d : list Z) | RbPutchar (c : Z) | RbPutcharForce (c : Z) | RbGet (k : nat) | RbGetchar | RbReset | RbDataLen.

Definition rb_exec (op : rb_op) (rb : rt_ringbuffer) : rt_ringbuffer * (nat * list Z) :=
  match op with
  | RbPut d => let '(rb, n) := rt_ringbuffer_put d rb in (rb, (n, []))
  | RbPutForce d => let '(rb, n) := rt_ringbuffer_put_force d rb in (rb, (n, []))
  | RbPutchar c => let '(rb, n) := rt_ringbuffer_putchar c rb in (rb, (n, []))
  | RbPutcharForce c => let '(rb, n) := rt_ringbuffer_putchar_force c rb in (rb, (n, []))
  | RbGet k => let '(rb, d) := rt_ringbuffer_get k rb in (rb, (length d, d))
  | RbGetchar => let '(rb, c) := rt_ringbuffer_getchar rb in (rb, (length (option_list c), option_list c))
  | RbReset => (rt_ringbuffer_reset rb, (0%nat, []))
  | RbDataLen => (rb, (rt_ringbuffer_data_len rb, []))
  end.
Fixpoint rb_run (ops : list rb_op) (rb : rt_ringbuffer) : rt_ringbuffer * list (nat * list Z) :=
  match ops with
  | [] => (rb, [])
  | op :: ops => let '(rb, r) := rb_exec op rb in let '(rb, rs) := rb_run ops rb in (rb, r :: rs)
  end.

(** The same calls on a queue of at most [n] bytes, with the place [p] of its oldest
    byte. A forced put drops the oldest bytes that it displaces, and the place moves
    on by as many; but when the queue does not reach the end of the buffer and bytes
    are displaced, all is lost. *)
Definition fifo_force (n : nat) (d : list Z) (x : nat * list Z) : nat * list Z :=
  let '(p, q) := x in
  let k := (length q + Nat.min (length d) n - n)%nat in
  (((p + k) mod n)%nat, if (p + length q <? n)%nat && (0 <? k)%nat then [] else last_bytes n (q ++ d)).

Definition fifo_exec (n : nat) (op : rb_op) (x : nat * list Z) : nat * list Z * (nat * list Z) :=
  let '(p, q) := x in
  let space := (n - length q)%nat in
  match op with
  | RbPut d => ((p, q ++ take space d), (Nat.min (length d) space, []))
  | RbPutForce d => (fifo_force n d (p, q), (Nat.min (length d) n, []))
  | RbPutchar c => if (space =? 0)%nat then ((p, q), (0%nat, [])) else ((p, q ++ [c]), (1%nat, []))
  | RbPutcharForce c => (((p + (S (length q) - n)) mod n, last_bytes n (q ++ [c]))%nat, (1%nat, []))
  | RbGet k => (((p + Nat.min k (length q)) mod n, drop k q)%nat, (Nat.min k (length q), take k q))
  | RbGetchar => (((p + Nat.min 1 (length q)) mod n, drop 1 q)%nat, (Nat.min 1 (length q), take 1 q))
  | RbReset => ((0%nat, []), (0%nat, []))
  | RbDataLen => ((p, q), (length q, []))
  end.
Fixpoint fifo_run (n : nat) (ops : list rb_op) (x : nat * list Z) : nat * list Z * list (nat * list Z) :=
  match ops with
  | [] => (x, [])
  | op :: ops => let '(x, r) := fifo_exec n op x in let '(x, rs) := fifo_run n ops x in (x, r :: rs)
  end.

(** The buffer is this queue. *)
Definition rb_is (rb : rt_ringbuffer) (x : nat * list Z) : Prop := rb_repr rb x.2 /\ read_index rb = x.1.

Lemma option_list_head_take (q : list Z) : option_list (head (take 1 q)) = take 1 q.
Proof. by destruct q. Qed.

Lemma put_force_trim rb d : rt_ringbuffer_put_force d rb = rt_ringbuffer_put_force (drop (length d - buffer_size rb) d) rb.
Proof.
  unfold rt_ringbuffer_put_force. destruct (Nat.ltb_spec (buffer_size rb) (length d)).
  - by rewrite (proj2 (Nat.ltb_ge (buffer_size rb) (length (drop (length d - buffer_size rb) d)))) by (rewrite length_drop; lia).
  - rewrite (proj2 (Nat.sub_0_le (length d) (buffer_size rb))), drop_0 by lia. by rewrite (proj2 (Nat.ltb_ge (buffer_size rb) (length d))) by lia.
Qed.

Lemma put_force_refines rb q d : rb_repr rb q -> let '(rb', n) := rt_ringbuffer_put_force d rb in
  rb_is rb' (fifo_force (buffer_size rb) d (read_index rb, q)) /\ n = Nat.min (length d) (buffer_size rb) /\ buffer_size rb' = buffer_size rb.
Proof.
  intros H. set (d' := drop (length d - buffer_size rb) d). assert (length d' = Nat.min (length d) (buffer_size rb)) as El by (unfold d'; rewrite length_drop; lia).
  destruct (put_force_repr rb q d' H ltac:(lia)) as (_&Hs&_). pose proof (put_force_read_index rb q d' H ltac:(lia)) as Hi. rewrite El in Hi.
  pose proof (rt_ringbuffer_put_force_outcome rb q d H) as Ho. unfold d' in Hs, Hi. rewrite <-put_force_trim in Hs, Hi.
  destruct (rt_ringbuffer_put_force d rb) as [rb' n]. simpl in Hs, Hi. destruct Ho as (->&Ho1&Ho2). split_and!; [|done|done].
  split; [|exact Hi]. simpl. unfold overrun in *. destruct (Nat.ltb_spec (read_index rb + length q) (buffer_size rb)); cbn [andb]; [|apply Ho1; lia].
  destruct (Nat.ltb_spec 0 (length q + Nat.min (length d) (buffer_size rb) - buffer_size rb)); [apply Ho2|apply Ho1]; lia.
Qed.

Lemma rb_exec_refines op rb x : rb_is rb x -> let '(rb', r) := rb_exec op rb in
  rb_is rb' (fst (fifo_exec (buffer_size rb) op x)) /\ r = snd (fifo_exec (buffer_size rb) op x) /\ buffer_size rb' = buffer_size rb.
Proof.
  destruct x as [p q]. intros [H Ep]. simpl in H, Ep. subst p. destruct (rb_repr_cases _ _ H) as (Hl&Hr&_&_). destruct op as [d|d|c|c|k| | |]; simpl.
  - pose proof (put_read_index d rb) as Hi. destruct (rt_ringbuffer_put_repr _ _ d H) as (rb'&E&?&?). by rewrite E in *.
  - pose proof (put_force_refines rb q d H) as Hf. destruct (rt_ringbuffer_put_force d rb) as [rb' n]. by destruct Hf as (?&->&?).
  - rewrite (putchar_put _ _ _ H). pose proof (put_read_index [c] rb) as Hi. destruct (rt_ringbuffer_put_repr _ _ [c] H) as (rb'&E&Hp&?). rewrite E in *.
    destruct (Nat.eqb_spec (buffer_size rb - length q) 0) as [E0|E0]; simpl in *.
    + rewrite E0, take_0, app_nil_r in Hp. by rewrite E0.
    + rewrite take_ge in Hp by (simpl; lia). split_and!; [done| |done]. by destruct (buffer_size rb - length q)%nat.
  - rewrite (putchar_force_put_force _ _ _ H). pose proof (rbr_size _ _ H). pose proof (put_force_refines rb q [c] H) as Hf.
    destruct (rt_ringbuffer_put_force [c] rb) as [rb' n]. destruct Hf as (Hf&->&?). cbn [length] in *. rewrite Nat.min_l in * by lia.
    split_and!; [|done|done]. unfold fifo_force in Hf. cbn [length] in Hf. rewrite Nat.min_l, Nat.add_1_r in Hf by lia.
    destruct (Nat.ltb_spec (read_index rb + length q) (buffer_size rb)); cbn [andb] in Hf; [|done].
    by rewrite (proj2 (Nat.ltb_ge _ _)) in Hf by lia.
  - pose proof (get_read_index rb q k H) as Hi. destruct (rt_ringbuffer_get_repr _ _ k H) as (rb'&E&?&?). rewrite E in *. by rewrite length_take.
  - rewrite (getchar_get _ _ H). pose proof (get_read_index rb q 1 H) as Hi. destruct (rt_ringbuffer_get_repr _ _ 1 H) as (rb'&E&?&?). rewrite E in *. simpl in *.
    rewrite option_list_head_take, length_take. done.
  - split_and!; [split; [by eapply rt_ringbuffer_reset_repr|done]|done|done].
  - by rewrite (rb_data_len _ _ H).
Qed.

Lemma putchar_force_repr c rb q : rb_repr rb q -> let rb' := fst (rt_ringbuffer_putchar_force c rb) in
  rb_repr rb' (last_bytes (buffer_size rb) (q ++ [c])) /\ buffer_size rb' = buffer_size rb.
Proof.
  intros H. pose proof (rb_exec_refines (RbPutcharForce c) rb (read_index rb, q) (conj H eq_refl)) as He. simpl in He.
  destruct (rt_ringbuffer_putchar_force c rb) as [rb' n]. destruct He as ([Hr _]&_&Hs). done.
Qed.

(** C31: Whatever calls are made, forced ones included, a ring buffer returns what a
    bounded queue returns and holds its bytes: a put takes what fits, a get returns
    the oldest bytes, a forced byte replaces the oldest one, a forced put the oldest
    ones; only when it displaces bytes of a queue that does not reach the end of the
    buffer, all is lost ([fifo_force]). *)
Theorem rb_run_refines ops rb x : rb_is rb x ->
  let '(rb', rs) := rb_run ops rb in
  rb_is rb' (fst (fifo_run (buffer_size rb) ops x)) /\ rs = snd (fifo_run (buffer_size rb) ops x).
Proof.
  revert rb x. induction ops as [|op ops IH]; intros rb x H; cbn [rb_run fifo_run]; [done|].
  pose proof (rb_exec_refines op rb x H) as Hx. destruct (rb_exec op rb) as [rb1 r], (fifo_exec (buffer_size rb) op x) as [x1 r1].
  simpl in Hx. destruct Hx as (H1&->&Es). specialize (IH rb1 x1 H1). rewrite Es in IH.
  destruct (rb_run ops rb1) as [rb2 rs], (fifo_run (buffer_size rb) ops x1) as [x2 rs2]. simpl in *. by destruct IH as [? ->].
Qed.

Definition demo_ringbuffer : rt_ringbuffer := rt_ringbuffer_init [0; 0; 0; 0] 5.
Lemma demo_ringbuffer_repr : rb_repr demo_ringbuffer [].
Proof. apply rt_ringbuffer_init_repr; [lia|done|simpl; lia]. Qed.
Definition demo_rb_ops : list rb_op := [RbPut [1; 2; 3]; RbGetchar; RbPut [4; 5; 6]; RbPutcharForce 7; RbDataLen; RbGet 3; RbPut [8; 9; 10]; RbPutForce [11; 12]; RbGet 3; RbPutForce [1; 2; 3; 4]].
Lemma rb_run_refines_witness :
  snd (rb_run demo_rb_ops demo_ringbuffer) = [(3%nat, []); (1%nat, [1]); (2%nat, []); (1%nat, []); (4%nat, []); (3%nat, [3; 4; 5]); (3%nat, []); (2%nat, []); (3%nat, [9; 10; 11]); (4%nat, [])] /\
  rb_is (fst (rb_run demo_rb_ops demo_ringbuffer)) (3%nat, []).
Proof.
  split; [by vm_compute|]. pose proof (rb_run_refines demo_rb_ops demo_ringbuffer (0%nat, []) (conj demo_ringbuffer_repr eq_refl)) as H.
  destruct (rb_run demo_rb_ops demo_ringbuffer) as [rb' rs]. exact (proj1 H).
Defined.

(** A ring buffer whose pool could not be allocated is returned all the same: its
    address is that of a free block. *)
Theorem rt_ringbuffer_create_dangling h h1 h2 p size :
  rt_malloc 12 h = Some (h1, Some p) -> rt_malloc (RT_ALIGN_DOWN size 4) h1 = Some (h2, None) ->
  rt_ringbuffer_create size h = h' ← rt_free p h2; Some (h', Some p, None).
Proof. intros H1 H2. unfold rt_ringbuffer_create. rewrite H1. simpl. by rewrite H2. Qed.
