(* ===== verification/Completion.v ===== *)
(** * Completions (rt-thread/components/drivers/src/completion.c)

    A flag that an interrupt or a thread sets and that one thread waits for. The
    structure lies outside the kernel's objects: its flag is a value of its own,
    its list is the waiting list [LSuspend o] of an unused object number. *)

From S2P Require Import Prelude RtList Sched SchedFacts Timer Kernel Thread Demo Ipc Sem Blocking.

(** ** Operations *)

(** The flag: [RT_COMPLETED] or [RT_UNCOMPLETED]. *)
Definition rt_completion_init (o : oid) (k : kernel) : bool * kernel := (false, rt_list_init_head (LSuspend o) k).

(** Up to [rt_schedule] or the result. *)
Definition rt_completion_wait_enter (o : oid) (timeout : Z) (flag : bool) (k : kernel) : option (bool * kernel * step_result Z) :=
  if flag then Some (false, k, Done RT_EOK false)
  else if timeout =? 0 then Some (false, k, Done (- RT_ETIMEOUT) false)
  else
    t ← rt_thread_self k;
    k ← upd_th t (th_set_error RT_EOK) k;
    '(k, r) ← wait_on (LSuspend o) t RT_IPC_FLAG_FIFO timeout 0 k;
    Some (false, k, r).

(** Thread [t] runs again: the flag is cleared whatever woke it. *)
Definition rt_completion_wait_resume (t : tid) (flag : bool) (k : kernel) : option (bool * Z) :=
  th ← threads (k_s k) !! t; Some (false, th_error th).

Definition rt_completion_done (o : oid) (flag : bool) (k : kernel) : option (bool * kernel) :=
  if flag then Some (true, k)
  else '(k, b) ← wake_first (LSuspend o) k; k ← schedule_if b k; Some (true, k).

(** ** Properties *)

(** A completion that was done before is waited for without suspending. *)
Lemma wait_after_done o timeout k : rt_completion_wait_enter o timeout true k = Some (false, k, Done RT_EOK false).
Proof. done. Qed.

(** The running thread waits for a completion that is not done: it is suspended
    with its timer armed. [rt_completion_done] then sets the flag and makes it
    ready again, and when it runs it returns [RT_EOK] and the flag is cleared: each
    completion ends one wait. *)
Theorem rt_completion_wakes (k : kernel) (o : oid) (c : tid) (th : rt_thread) (timeout : Z) :
  kernel_wf k -> current (k_s k) = Some c -> threads (k_s k) !! c = Some th -> is_ready th ->
  lists (k_s k) !! LSuspend o = Some [] -> timeout <> 0 -> timeout <= max_delay ->
  exists k1, rt_completion_wait_enter o timeout false k = Some (false, k1, Wait timeout (if 0 <? timeout then rt_tick (k_t k) else 0)) /\
    kernel_wf k1 /\ waits_on (LSuspend o) c th timeout k k1 /\
    forall k2, kernel_wf k2 -> is_Some (current (k_s k2)) -> lists (k_s k2) !! LSuspend o = Some [c] ->
      threads (k_s k2) !! c = Some (make_suspended (th_set_error RT_EOK th)) ->
      exists k3, rt_completion_done o false k2 = Some (true, k3) /\ kernel_wf k3 /\ lists (k_s k3) !! LSuspend o = Some [] /\
        (exists th', threads (k_s k3) !! c = Some th' /\ is_ready th') /\
        rt_completion_wait_resume c true k3 = Some (false, RT_EOK).
Proof.
  intros Hk Hc Ht Hrd Hl Hn0 Htime. unfold rt_completion_wait_enter, rt_thread_self. rewrite (proj2 (Z.eqb_neq _ _) Hn0), Hc. simpl.
  rewrite (upd_th_eq _ _ _ _ Ht). simpl.
  destruct (wait_on_spec Z k c th (LSuspend o) RT_IPC_FLAG_FIFO timeout 0 Hk Ht Hrd I) as (k1 & -> & Hk1 & Hw); [by eexists|by left|done|].
  simpl. exists k1. split_and!; [done|done|done|]. intros k2 Hk2 [c2 Hc2] Hl2 Ht2.
  unfold rt_completion_done. destruct (wake_first_spec k2 (LSuspend o) Hk2 I) as (k3 & b & -> & Hk3 & Hh & _ & Hc3 & _ & _); [by eexists|].
  unfold handed in Hh. rewrite Hl2 in Hh. destruct Hh as (->&Hl3&_&th2&Hth2&Hth3). rewrite Ht2 in Hth2. injection Hth2 as <-.
  simpl. destruct (kernel_schedule ∅ 0 k3 c2 Hk3) as (s' & Hop & Hk' & Hf & _); [by rewrite Hc3|]. rewrite Hop. simpl.
  exists (set_s s' k3). destruct Hf as (_&_&Hfl&Hft).
  assert (exists th', threads s' !! c = Some th' /\ is_ready th' /\ th_error th' = RT_EOK) as (th'&Hth'&Hr'&He').
  { destruct (Hft c) as [E|(th3&E3&_&E)].
    - rewrite E, Hth3. eexists. split; [done|]. split; [apply make_ready_stat|done].
    - rewrite Hth3 in E3. injection E3 as <-. eexists. split; [done|]. split; [apply make_ready_stat|done]. }
  split_and!; [done|done|simpl; by rewrite Hfl|by exists th'|].
  unfold rt_completion_wait_resume. simpl. rewrite Hth'. simpl. by rewrite He'.
Qed.

(** ** Witness: thread 1 waits, thread 2 runs and completes *)

Definition demo_completion : kernel := (rt_completion_init 7 demo_k).2.
Definition demo_waiting : kernel :=
  match rt_completion_wait_enter 7 5 false demo_completion with
  | Some (_, k, r) => match finish (k, r) with Some (k, _) => k | None => k end
  | None => demo_completion
  end.

Lemma demo_completion_wf : kernel_wf demo_completion.
Proof. kernel_dec. Qed.
Lemma demo_waiting_wf : kernel_wf demo_waiting.
Proof. kernel_dec. Qed.

Lemma rt_completion_wakes_witness :
  exists k3, rt_completion_done 7 false demo_waiting = Some (true, k3) /\ kernel_wf k3 /\
    rt_completion_wait_resume 1 true k3 = Some (false, RT_EOK).
Proof.
  destruct (rt_completion_wakes demo_completion 7 1 (demo_th 1 20 0 0) 5 demo_completion_wf) as (k1&_&_&_&H);
    [reflexivity|vm_compute; reflexivity|reflexivity|reflexivity|lia|unfold max_delay; lia|].
  destruct (H demo_waiting demo_waiting_wf) as (k3&H1&H2&_&_&H3);
    [vm_compute; by eexists|vm_compute; reflexivity|vm_compute; reflexivity|].
  exists k3. exact (conj H1 (conj H2 H3)).
Defined.
