(* ===== verification/DataQueue.v ===== *)
(** * Data queues (rt-thread/components/drivers/src/dataqueue.c)

    Pointers with sizes passed between drivers. The 16-bit indices count pushes and
    pops and are reduced modulo the size at each access. Pushers wait on
    [LSender o], poppers on [LSuspend o], for an unused object number [o]. *)

From S2P Require Import Prelude RtList Sched SchedFacts Timer Kernel Thread Demo Ipc Ring Sem Blocking.

(** ** Operations *)

Definition RT_EEMPTY : Z := 4.
Inductive dq_event := RT_DATAQUEUE_EVENT_POP | RT_DATAQUEUE_EVENT_PUSH | RT_DATAQUEUE_EVENT_LWM.

(** [data_ptr] and [data_size]. *)
Definition rt_data_item : Type := Z * Z.
Record rt_data_queue := DataQueue {
  dq_size : Z; dq_lwm : Z;
  dq_get_index : Z; dq_put_index : Z;        (* rt_uint16_t *)
  dq_queue : list rt_data_item;
  evt_notify : bool;                         (* a callback is set *)
}.

(** [mem]: what the heap gives for the array. *)
Definition rt_data_queue_init (o : oid) (size lwm : Z) (notify : bool) (mem : option (list rt_data_item)) (k : kernel) : rt_data_queue * kernel * Z :=
  let k := rt_list_init_head (LSuspend o) (rt_list_init_head (LSender o) k) in
  match mem with
  | Some m => (DataQueue (u16 size) (u16 lwm) 0 0 m notify, k, RT_EOK)
  | None => (DataQueue (u16 size) (u16 lwm) 0 0 [] notify, k, - RT_ENOMEM)
  end.

(** The entry of an index; a size of 0 divides by 0. *)
Definition entry_of (q : rt_data_queue) (index : Z) : option nat := if dq_size q =? 0 then None else Some (Z.to_nat (index mod dq_size q)).
Definition event (q : rt_data_queue) (e : dq_event) : option dq_event := if evt_notify q then Some e else None.

(** The difference of the indices is taken in [int]. *)
Definition dq_full (q : rt_data_queue) : bool := dq_put_index q - dq_get_index q =? dq_size q.

Definition dq_put (item : rt_data_item) (q : rt_data_queue) : option rt_data_queue :=
  i ← entry_of q (dq_put_index q);
  _ ← dq_queue q !! i;
  Some (DataQueue (dq_size q) (dq_lwm q) (dq_get_index q) (u16 (dq_put_index q + 1)) (<[i := item]> (dq_queue q)) (evt_notify q)).
Definition dq_peek (q : rt_data_queue) : option rt_data_item := i ← entry_of q (dq_get_index q); dq_queue q !! i.
Definition dq_pop (q : rt_data_queue) : option (rt_data_queue * rt_data_item) :=
  item ← dq_peek q;
  Some (DataQueue (dq_size q) (dq_lwm q) (u16 (dq_get_index q + 1)) (dq_put_index q) (dq_queue q) (evt_notify q), item).

(** A result: the error code, the item of a pop, the event that is notified. *)
Definition dq_result : Type := Z * option rt_data_item * option dq_event.
Definition dq_step : Type := rt_data_queue * kernel * step_result dq_result.

(** The [while] test and what follows it, up to [rt_schedule] or the result. *)
Definition rt_data_queue_push (o : oid) (t : option tid) (item : rt_data_item) (timeout : Z) (q : rt_data_queue) (k : kernel) : option dq_step :=
  if dq_full q then
    if timeout =? 0 then Some (q, k, Done (- RT_ETIMEOUT, None, None) false)
    else
      t ← t;
      k ← upd_th t (th_set_error RT_EOK) k;
      '(k, r) ← wait_on (LSender o) t RT_IPC_FLAG_FIFO timeout 0 k;
      Some (q, k, r)
  else
    q ← dq_put item q;
    '(k, b) ← wake_first (LSuspend o) k;
    Some (q, k, Done (RT_EOK, None, if b : bool then None else event q RT_DATAQUEUE_EVENT_PUSH) b).

Definition rt_data_queue_pop (o : oid) (t : option tid) (timeout : Z) (q : rt_data_queue) (k : kernel) : option dq_step :=
  if dq_get_index q =? dq_put_index q then
    if timeout =? 0 then Some (q, k, Done (- RT_ETIMEOUT, None, None) false)
    else
      t ← t;
      k ← upd_th t (th_set_error RT_EOK) k;
      '(k, r) ← wait_on (LSuspend o) t RT_IPC_FLAG_FIFO timeout 0 k;
      Some (q, k, r)
  else
    '(q, item) ← dq_pop q;
    if dq_put_index q - dq_get_index q <=? dq_lwm q then
      '(k, b) ← wake_first (LSender o) k;
      Some (q, k, Done (RT_EOK, Some item, event q RT_DATAQUEUE_EVENT_LWM) b)
    else Some (q, k, Done (RT_EOK, Some item, event q RT_DATAQUEUE_EVENT_POP) false).

(** Thread [t] runs again after the [rt_schedule] of the loop: with the whole
    waiting time. *)
Definition dq_resume (t : tid) (again : kernel -> option dq_step) (q : rt_data_queue) (k : kernel) : option dq_step :=
  th ← threads (k_s k) !! t;
  if negb (th_error th =? RT_EOK) then Some (q, k, Done (th_error th, None, None) false) else again k.
Definition rt_data_queue_push_resume (o : oid) (t : tid) (item : rt_data_item) (timeout : Z) (q : rt_data_queue) (k : kernel) : option dq_step :=
  dq_resume t (rt_data_queue_push o (Some t) item timeout q) q k.
Definition rt_data_queue_pop_resume (o : oid) (t : tid) (timeout : Z) (q : rt_data_queue) (k : kernel) : option dq_step :=
  dq_resume t (rt_data_queue_pop o (Some t) timeout q) q k.

Definition rt_data_queue_peak (q : rt_data_queue) : option (option rt_data_item * Z) :=
  if dq_get_index q =? dq_put_index q then Some (None, - RT_EEMPTY) else item ← dq_peek q; Some (Some item, RT_EOK).

Definition rt_data_queue_reset (o : oid) (k : kernel) : option kernel :=
  k ← on_s (fun s => Some (rt_enter_critical s)) k;
  k ← rt_ipc_list_resume_all (LSuspend o) k;
  k ← rt_ipc_list_resume_all (LSender o) k;
  k ← on_s rt_exit_critical k;
  on_s rt_schedule k.

(** ** The queue of items *)

(** [q] holds the items [l] and its put index has not wrapped around. *)
Record dq_repr (q : rt_data_queue) (l : list rt_data_item) : Prop := {
  dr_size : dq_size q = Z.of_nat (length (dq_queue q)) /\ 0 < dq_size q < 65536;
  dr_index : 0 <= dq_get_index q /\ dq_put_index q < 65536;
  dr_len : dq_put_index q = dq_get_index q + Z.of_nat (length l);
  dr_ring : ring_repr (dq_queue q) (Z.to_nat (dq_get_index q mod dq_size q)) l;
}.

Lemma init_repr o size lwm notify mem k : 0 < size < 65536 -> length mem = Z.to_nat size ->
  dq_repr (rt_data_queue_init o size lwm notify (Some mem) k).1.1 [].
Proof. intros Hs Hl. split; simpl; [rewrite Hl; word|word|done|]. apply ring_empty. rewrite Zmod_0_l. lia. Qed.

Lemma entry_nat q l (i : nat) : dq_repr q l ->
  Z.to_nat ((dq_get_index q + Z.of_nat i) mod dq_size q) = ((Z.to_nat (dq_get_index q mod dq_size q) + i) mod length (dq_queue q))%nat.
Proof.
  intros [[-> Hs] [Hg _] _ _]. set (n := length (dq_queue q)) in *.
  rewrite <-(Z2Nat.id (dq_get_index q)) by lia. rewrite <-Nat2Z.inj_add, <-!Nat2Z.inj_mod, !Nat2Z.id. by rewrite Nat.Div0.add_mod_idemp_l.
Qed.

Lemma dq_full_eq q l : dq_repr q l -> dq_full q = (length l =? length (dq_queue q))%nat.
Proof. intros [[E Hs] Hi Hl Hr]. unfold dq_full. rewrite Hl, E. destruct (Nat.eqb_spec (length l) (length (dq_queue q))); lia. Qed.

Lemma dq_put_repr q l item : dq_repr q l -> (length l < length (dq_queue q))%nat -> dq_put_index q < 65535 ->
  exists q', dq_put item q = Some q' /\ dq_repr q' (l ++ [item]) /\ dq_lwm q' = dq_lwm q /\ evt_notify q' = evt_notify q /\ length (dq_queue q') = length (dq_queue q).
Proof.
  intros Hq Hlt Hp. pose proof Hq as [[E Hs] [Hg _] Hl Hr]. unfold dq_put, entry_of. rewrite (proj2 (Z.eqb_neq (dq_size q) 0)) by lia. simpl.
  rewrite Hl, (entry_nat _ _ _ Hq). set (i := (_ mod _)%nat).
  assert (i < length (dq_queue q))%nat as Hi by (apply Nat.mod_upper_bound; lia).
  destruct (lookup_lt_is_Some_2 (dq_queue q) i Hi) as [w Hw]. rewrite Hw. simpl. eexists. split; [done|]. simpl.
  split; [|by rewrite length_insert]. split; simpl; [by rewrite length_insert|word|rewrite length_app; simpl; word|by apply ring_push].
Qed.

Lemma dq_pop_repr q l item : dq_repr q (item :: l) ->
  exists q', dq_pop q = Some (q', item) /\ dq_repr q' l /\ dq_lwm q' = dq_lwm q /\ evt_notify q' = evt_notify q.
Proof.
  intros Hq. pose proof Hq as [[E Hs] [Hg Hp] Hl Hr]. simpl in Hl. destruct (ring_pop _ _ _ _ Hr) as [Hv Hr'].
  unfold dq_pop, dq_peek, entry_of. rewrite (proj2 (Z.eqb_neq (dq_size q) 0)) by lia. simpl. rewrite Hv. simpl.
  eexists. split; [done|]. split; [|done]. assert (u16 (dq_get_index q + 1) = dq_get_index q + 1) as Eu by word.
  split; simpl; rewrite ?Eu; [done|lia|lia|].
  pose proof (entry_nat _ _ 1 Hq) as En. change (Z.of_nat 1) with 1 in En. rewrite En, <-(ring_in_next _ _ 0), Nat.add_0_r by (lia || apply Hr).
  rewrite Nat.mod_small by apply Hr. done.
Qed.

(** ** Pushing and popping *)

Section Calls.
Context (k : kernel) (o : oid) (c : tid) (th : rt_thread) (timeout : Z).

(** The call waits on [h], with its timer armed; nothing else has changed. *)
Definition dq_waits (h : lhead) (q q' : rt_data_queue) (k' : kernel) (r : step_result dq_result) : Prop :=
  q' = q /\ (timeout = 0 -> r = Done (- RT_ETIMEOUT, None, None) false /\ k' = k) /\
  (timeout <> 0 -> (exists d, r = Wait timeout d) /\ waits_on h c th timeout k k').

Definition push_outcome (item : rt_data_item) (l : list rt_data_item) (q q' : rt_data_queue) (k' : kernel) (r : step_result dq_result) : Prop :=
  if (length l <? length (dq_queue q))%nat then
    dq_repr q' (l ++ [item]) /\ exists b, handed (LSuspend o) k k' b /\
      r = Done (RT_EOK, None, if b : bool then None else event q RT_DATAQUEUE_EVENT_PUSH) b
  else dq_waits (LSender o) q q' k' r.

Definition pop_outcome (l : list rt_data_item) (q q' : rt_data_queue) (k' : kernel) (r : step_result dq_result) : Prop :=
  match l with
  | [] => dq_waits (LSuspend o) q q' k' r
  | item :: l' =>
      dq_repr q' l' /\
      if Z.of_nat (length l') <=? dq_lwm q then
        exists b, handed (LSender o) k k' b /\ r = Done (RT_EOK, Some item, event q RT_DATAQUEUE_EVENT_LWM) b
      else k' = k /\ r = Done (RT_EOK, Some item, event q RT_DATAQUEUE_EVENT_POP) false
  end.

Hypotheses (Hk : kernel_wf k) (Ht : threads (k_s k) !! c = Some th) (Hrd : is_ready th) (Htime : timeout <= max_delay).
Hypotheses (H1 : is_Some (lists (k_s k) !! LSuspend o)) (H2 : is_Some (lists (k_s k) !! LSender o)).

Lemma dq_block h q : waiting_head h -> is_Some (lists (k_s k) !! h) -> timeout <> 0 ->
  exists k' r, (k1 ← upd_th c (th_set_error RT_EOK) k; '(k1, r) ← wait_on (R := dq_result) h c RT_IPC_FLAG_FIFO timeout 0 k1; Some (q, k1, r)) = Some (q, k', r) /\
    kernel_wf k' /\ dq_waits h q q k' r.
Proof.
  intros Hw Hl Hn. rewrite (upd_th_eq _ _ _ _ Ht). simpl.
  destruct (wait_on_spec dq_result k c th h RT_IPC_FLAG_FIFO timeout 0 Hk Ht Hrd Hw Hl) as (k1 & -> & Hk1 & Hwo); [by left|done|].
  simpl. eexists _, _. split; [done|]. split; [done|]. split_and!; [done|done|]. intros _. split; [by eexists|done].
Qed.

Lemma rt_data_queue_push_ok q l item : dq_repr q l -> dq_put_index q < 65535 ->
  exists q' k' r, rt_data_queue_push o (Some c) item timeout q k = Some (q', k', r) /\ kernel_wf k' /\ push_outcome item l q q' k' r.
Proof.
  intros Hq Hp. unfold rt_data_queue_push, push_outcome. rewrite (dq_full_eq _ _ Hq). pose proof (rr_len _ _ _ (dr_ring _ _ Hq)).
  destruct (Nat.eqb_spec (length l) (length (dq_queue q))) as [E|E].
  - rewrite (proj2 (Nat.ltb_ge _ _)) by lia. destruct (Z.eqb_spec timeout 0) as [E0|E0].
    + eexists _, _, _. split; [done|]. split; [done|]. by split_and!.
    + destruct (dq_block (LSender o) q I H2 E0) as (k'&r&E1&?&?). simpl in E1 |- *. rewrite E1. eauto 10.
  - rewrite (proj2 (Nat.ltb_lt _ _)) by lia. destruct (dq_put_repr q l item Hq) as (q'&->&Hq'&_&Ee&_); [lia|lia|]. simpl.
    destruct (wake_first_spec k (LSuspend o) Hk I H1) as (k'&b&->&Hk'&Hh&_). simpl. eexists _, _, _. split; [done|]. split; [done|]. split; [done|]. exists b. split; [exact Hh|]. unfold event. by rewrite Ee.
Qed.

Lemma rt_data_queue_pop_ok q l : dq_repr q l ->
  exists q' k' r, rt_data_queue_pop o (Some c) timeout q k = Some (q', k', r) /\ kernel_wf k' /\ pop_outcome l q q' k' r.
Proof.
  intros Hq. unfold rt_data_queue_pop, pop_outcome. pose proof (dr_len _ _ Hq) as Hl. destruct l as [|item l]; simpl in Hl.
  - rewrite (proj2 (Z.eqb_eq _ _)) by lia. destruct (Z.eqb_spec timeout 0) as [E0|E0].
    + eexists _, _, _. split; [done|]. split; [done|]. by split_and!.
    + destruct (dq_block (LSuspend o) q I H1 E0) as (k'&r&E1&?&?). simpl in E1 |- *. rewrite E1. eauto 10.
  - rewrite (proj2 (Z.eqb_neq _ _)) by lia. destruct (dq_pop_repr q l item Hq) as (q'&->&Hq'&El&Ee). simpl.
    rewrite El, (dr_len _ _ Hq'). replace (dq_get_index q' + Z.of_nat (length l) - dq_get_index q') with (Z.of_nat (length l)) by lia.
    unfold event. rewrite Ee. destruct (Z.of_nat (length l) <=? dq_lwm q).
    + destruct (wake_first_spec k (LSender o) Hk I H2) as (k'&b&->&Hk'&Hh&_). simpl. eexists _, _, _. split; [done|]. split; [done|]. split; [done|]. by exists b.
    + eexists _, _, _. split; [done|]. split; [done|]. done.
Qed.

(** A call that runs again after its wait: with an error code, the call returns it
    and does nothing; otherwise it is as if the call were made now. *)
Definition resumed_outcome (ok : rt_data_queue -> kernel -> step_result dq_result -> Prop) (q q' : rt_data_queue) (k' : kernel) (r : step_result dq_result) : Prop :=
  if th_error th =? RT_EOK then ok q' k' r else q' = q /\ k' = k /\ r = Done (th_error th, None, None) false.

Lemma dq_resume_ok ok again q :
  (exists q' k' r, again k = Some (q', k', r) /\ kernel_wf k' /\ ok q' k' r) ->
  exists q' k' r, dq_resume c again q k = Some (q', k', r) /\ kernel_wf k' /\ resumed_outcome ok q q' k' r.
Proof.
  intros (q' & k' & r & E & Hk' & H). unfold dq_resume, resumed_outcome. rewrite Ht. simpl. destruct (th_error th =? RT_EOK); simpl; [eauto 10|].
  eexists _, _, _. split; [done|]. by split.
Qed.
End Calls.

(** C32: Until its put index wraps around after 65535 pushes
    ([rt_data_queue_wraps]), a data queue is a bounded FIFO queue: a push appends
    the item and wakes the first popper, or waits for room; a pop takes the oldest
    item and, at the low-water mark, wakes the first pusher, or waits for an item.
    A thread that is resumed from its wait returns the error it was resumed with,
    or does what a call made then does. Every call returns or reaches
    [rt_schedule], with the kernel well formed. *)
Theorem rt_data_queue_fifo (k : kernel) (o : oid) (c : tid) (th : rt_thread) (item : rt_data_item) (timeout : Z) (q : rt_data_queue) (l : list rt_data_item) :
  kernel_wf k -> current (k_s k) = Some c -> threads (k_s k) !! c = Some th -> is_ready th -> timeout <= max_delay ->
  is_Some (lists (k_s k) !! LSuspend o) -> is_Some (lists (k_s k) !! LSender o) -> dq_repr q l ->
  (dq_put_index q < 65535 -> exists q' k' r, rt_data_queue_push o (rt_thread_self k) item timeout q k = Some (q', k', r) /\ kernel_wf k' /\
    push_outcome k o c th timeout item l q q' k' r) /\
  (exists q' k' r, rt_data_queue_pop o (rt_thread_self k) timeout q k = Some (q', k', r) /\ kernel_wf k' /\ pop_outcome k o c th timeout l q q' k' r) /\
  (dq_put_index q < 65535 -> exists q' k' r, rt_data_queue_push_resume o c item timeout q k = Some (q', k', r) /\ kernel_wf k' /\
    resumed_outcome k th (push_outcome k o c th timeout item l q) q q' k' r) /\
  (exists q' k' r, rt_data_queue_pop_resume o c timeout q k = Some (q', k', r) /\ kernel_wf k' /\
    resumed_outcome k th (pop_outcome k o c th timeout l q) q q' k' r).
Proof.
  intros Hk Hc Ht Hrd Htime H1 H2 Hq. unfold rt_thread_self. rewrite Hc. split_and!.
  - intros Hp. by apply rt_data_queue_push_ok.
  - by apply rt_data_queue_pop_ok.
  - intros Hp. apply dq_resume_ok; [done|done|]. by apply rt_data_queue_push_ok.
  - apply dq_resume_ok; [done|done|]. by apply rt_data_queue_pop_ok.
Qed.

(** After 65536 pushes the put index is below the get index and the difference in
    [int] is negative: a full queue is not seen to be full, and a push overwrites
    its oldest item. *)
Theorem rt_data_queue_wraps (o : oid) (item old : rt_data_item) (q : rt_data_queue) (k k' : kernel) (b : bool) (i : nat) :
  dq_put_index q < dq_get_index q -> 0 < dq_size q -> 65536 mod dq_size q = 0 ->
  dq_put_index q + 65536 - dq_get_index q = dq_size q -> dq_peek q = Some old -> entry_of q (dq_get_index q) = Some i ->
  wake_first (LSuspend o) k = Some (k', b) ->
  exists q', rt_data_queue_push o (rt_thread_self k) item 0 q k = Some (q', k', Done (RT_EOK, None, if b then None else event q RT_DATAQUEUE_EVENT_PUSH) b) /\
    dq_queue q' !! i = Some item.
Proof.
  intros Hlt Hs Hdiv Hfull Hold Hi Hw. unfold rt_data_queue_push, dq_full. rewrite (proj2 (Z.eqb_neq _ _)) by lia.
  unfold dq_peek in Hold. rewrite Hi in Hold. simpl in Hold. unfold dq_put, entry_of in *. destruct (Z.eqb_spec (dq_size q) 0); [lia|]. injection Hi as <-.
  assert (dq_put_index q mod dq_size q = dq_get_index q mod dq_size q) as Em.
  { apply Z.mod_divide in Hdiv as [z Hz]; [|lia]. replace (dq_put_index q) with (dq_get_index q + (1 - z) * dq_size q) by nia. by rewrite Z.mod_add by lia. }
  simpl. rewrite Em, Hold. simpl. rewrite Hw. simpl. eexists. split; [done|]. simpl. apply list_lookup_insert_eq. by eapply lookup_lt_Some.
Qed.

(** ** Witness: an empty queue of four items, running thread 1 *)

Definition demo_dq : rt_data_queue * kernel * Z := rt_data_queue_init 7 4 2 true (Some (replicate 4 (0, 0))) demo_k.
Lemma demo_dq_wf : kernel_wf demo_dq.1.2.
Proof. kernel_dec. Qed.

Lemma rt_data_queue_fifo_witness :
  exists q' k' r, rt_data_queue_push 7 (rt_thread_self demo_dq.1.2) (4096, 16) 0 demo_dq.1.1 demo_dq.1.2 = Some (q', k', r) /\ kernel_wf k' /\
    push_outcome demo_dq.1.2 7 1 (demo_th 1 20 0 0) 0 (4096, 16) [] demo_dq.1.1 q' k' r.
Proof.
  apply (rt_data_queue_fifo demo_dq.1.2 7 1 (demo_th 1 20 0 0) (4096, 16) 0 demo_dq.1.1 [] demo_dq_wf).
  - reflexivity.
  - vm_compute. reflexivity.
  - reflexivity.
  - unfold max_delay. lia.
  - vm_compute. by eexists.
  - vm_compute. by eexists.
  - apply init_repr; [lia|reflexivity].
  - reflexivity.
Defined.

(** Four items are unread; the fifth replaces the first. *)
Example rt_data_queue_wraps_witness :
  let q := DataQueue 4 2 65534 2 [(3, 0); (4, 0); (1, 0); (2, 0)] true in
  exists q', rt_data_queue_push 7 (rt_thread_self demo_dq.1.2) (5, 0) 0 q demo_dq.1.2 =
      Some (q', demo_dq.1.2, Done (RT_EOK, None, Some RT_DATAQUEUE_EVENT_PUSH) false) /\ dq_queue q' !! 2%nat = Some (5, 0).
Proof.
  intros q. apply (rt_data_queue_wraps 7 (5, 0) (1, 0) q demo_dq.1.2 demo_dq.1.2 false 2); [reflexivity..|]. vm_compute. reflexivity.
Defined.
