(* ===== verification/MemPool.v ===== *)
(** * Memory pools (rt-thread/src/mempool.c)

    Blocks of one size with a header word each: the address of the next free block,
    or of the pool while the block is in use. The pool's control block and the words
    in memory are a state of their own; threads wait on [LSuspend o] for an unused
    object number [o]. The hooks are not installed. *)

From S2P Require Import Prelude RtList Sched SchedFacts Timer Kernel Thread Demo Clock Ipc Sem Blocking.

(** ** State *)

Record rt_mempool := MemPool {
  mp_addr : Z;                  (* the address of this structure *)
  mp_start : Z; mp_size : Z;
  mp_block_size : Z;
  mp_block_list : Z;
  mp_total_count : Z;
  mp_free_count : Z;
  mp_suspend_count : Z;
}.
Definition mp_with (list free susp : Z) (p : rt_mempool) : rt_mempool :=
  MemPool (mp_addr p) (mp_start p) (mp_size p) (mp_block_size p) list (mp_total_count p) free susp.

(** The pool, the words of memory, the kernel. *)
Record mp_state := MpState { st_p : rt_mempool; st_m : gmap Z Z; st_k : kernel }.
Definition on_p (f : rt_mempool -> rt_mempool) (s : mp_state) : mp_state := MpState (f (st_p s)) (st_m s) (st_k s).

(** ** Creating a pool *)

(** Header [offset] points to header [offset + 1], for [n] headers from [offset] on. *)
Fixpoint mp_link (start stride : Z) (n : nat) (offset : Z) (m : gmap Z Z) : gmap Z Z :=
  match n with
  | O => m
  | S n => mp_link start stride n (offset + 1) (<[u32 (start + offset * stride) := u32 (start + (offset + 1) * stride)]> m)
  end.
(** The last header, at [offset - 1] in unsigned arithmetic, ends the list. *)
Definition mp_link_all (start stride : Z) (n : nat) (m : gmap Z Z) : gmap Z Z :=
  <[u32 (start + (Z.of_nat n - 1) * stride) := 0]> (mp_link start stride n 0 m).

Definition rt_mp_init (addr start size block_size : Z) (o : oid) (m : gmap Z Z) (k : kernel) : mp_state :=
  let size := RT_ALIGN_DOWN size 4 in
  let block_size := RT_ALIGN block_size 4 in
  let count := size / u32 (block_size + 4) in
  MpState (MemPool addr start size block_size start count count 0)
    (mp_link_all start (block_size + 4) (Z.to_nat count) m) (rt_list_init_head (LSuspend o) k).

(** [obj]: what [rt_object_allocate] returns; [mem]: what [rt_malloc] returns. [None]
    is the result [RT_NULL] here. *)
Definition rt_mp_create (obj mem : option Z) (block_count block_size : Z) (o : oid) (m : gmap Z Z) (k : kernel) : option mp_state :=
  match obj, mem with
  | Some addr, Some start =>
      let block_size := RT_ALIGN block_size 4 in
      Some (MpState (MemPool addr start (u32 ((block_size + 4) * block_count)) block_size start block_count block_count 0)
              (mp_link_all start (block_size + 4) (Z.to_nat block_count) m) (rt_list_init_head (LSuspend o) k))
  | _, _ => None
  end.

(** Waking every waiter, in [rt_mp_detach] and [rt_mp_delete]. *)
Fixpoint mp_wake_loop (fuel : nat) (o : oid) (s : mp_state) : option mp_state :=
  l ← lists (k_s (st_k s)) !! LSuspend o;
  match l, fuel with
  | [], _ => Some s
  | _ :: _, O => None
  | t :: _, S fuel =>
      k ← upd_th t (th_set_error (- RT_ERROR)) (st_k s);
      '(k, _) ← rt_thread_resume t k;
      let p := st_p s in
      mp_wake_loop fuel o (MpState (mp_with (mp_block_list p) (mp_free_count p) (u32 (mp_suspend_count p - 1)) p) (st_m s) k)
  end.
Definition rt_mp_detach (o : oid) (s : mp_state) : option (mp_state * Z) :=
  l ← lists (k_s (st_k s)) !! LSuspend o; s ← mp_wake_loop (length l) o s; Some (s, RT_EOK).
(** The caller frees [mp_start] and the object. *)
Definition rt_mp_delete (o : oid) (s : mp_state) : option (mp_state * Z) := rt_mp_detach o s.

(** ** Blocks *)

(** [rt_set_errno] (kservice.c); the global error number of interrupts is left out. *)
Definition rt_set_errno (e : Z) (k : kernel) : option kernel :=
  if negb (irq_nest (k_s k) =? 0) then Some k
  else match rt_thread_self k with Some t => upd_th t (th_set_error e) k | None => Some k end.

(** Taking the first free block: the address after its header. *)
Definition mp_take (s : mp_state) : option (mp_state * Z) :=
  let p := st_p s in
  let block := mp_block_list p in
  next ← st_m s !! block;
  Some (MpState (mp_with next (u32 (mp_free_count p - 1)) (mp_suspend_count p) p) (<[block := mp_addr p]> (st_m s)) (st_k s), u32 (block + 4)).

(** Suspending: the new waiter comes first ([rt_list_insert_after]). *)
Definition mp_suspend (o : oid) (t : tid) (time : Z) (k : kernel) : option kernel :=
  '(k, _) ← rt_thread_suspend t k;
  l ← lists (k_s k) !! LSuspend o;
  let k := set_list (LSuspend o) (t :: l) k in
  if 0 <? time then start_thread_timer t time k else Some k.

(** The result is the address of a block; 0 is [RT_NULL]. *)
Definition mp_alloc_loop (o : oid) (t : option tid) (time before_sleep : Z) (s : mp_state) : option (mp_state * step_result Z) :=
  if mp_free_count (st_p s) =? 0 then
    if time =? 0 then k ← rt_set_errno (- RT_ETIMEOUT) (st_k s); Some (MpState (st_p s) (st_m s) k, Done 0 false)
    else
      t ← t;
      k ← upd_th t (th_set_error RT_EOK) (st_k s);
      k ← mp_suspend o t time k;
      let p := st_p s in
      Some (MpState (mp_with (mp_block_list p) (mp_free_count p) (u32 (mp_suspend_count p + 1)) p) (st_m s) k,
            Wait time (if 0 <? time then rt_tick_get (k_t k) else before_sleep))
  else '(s, b) ← mp_take s; Some (s, Done b false).
Definition rt_mp_alloc_enter (o : oid) (time : Z) (s : mp_state) : option (mp_state * step_result Z) :=
  mp_alloc_loop o (rt_thread_self (st_k s)) time 0 s.
(** Thread [t] runs again. A thread that was not given a block leaves the count of
    the waiters as it is. *)
Definition rt_mp_alloc_resume (o : oid) (t : tid) (time before_sleep : Z) (s : mp_state) : option (mp_state * step_result Z) :=
  th ← threads (k_s (st_k s)) !! t;
  if negb (th_error th =? RT_EOK) then Some (s, Done 0 false)
  else mp_alloc_loop o (Some t) (time_left time before_sleep (rt_tick_get (k_t (st_k s)))) before_sleep s.

(** The header must hold the address of this pool. The first waiter is looked up
    by the count, not by the list. *)
Definition rt_mp_free (o : oid) (block : Z) (s : mp_state) : option mp_state :=
  let h := u32 (block - 4) in
  a ← st_m s !! h;
  if a =? mp_addr (st_p s) then
    let p := st_p s in
    let m := <[h := mp_block_list p]> (st_m s) in
    let p := mp_with h (u32 (mp_free_count p + 1)) (mp_suspend_count p) p in
    if 0 <? mp_suspend_count p then
      l ← lists (k_s (st_k s)) !! LSuspend o;
      t ← head l;
      k ← upd_th t (th_set_error RT_EOK) (st_k s);
      '(k, _) ← rt_thread_resume t k;
      k ← on_s rt_schedule k;
      Some (MpState (mp_with (mp_block_list p) (mp_free_count p) (u32 (mp_suspend_count p - 1)) p) m k)
    else Some (MpState p m (st_k s))
  else None.

(** ** The blocks of a pool *)

(** The headers are [start], [start + stride], ... *)
Definition headers (start stride : Z) (n : nat) : list Z := (fun i : nat => start + Z.of_nat i * stride) <$> seq 0 n.

(** The list of free blocks from [p] on. *)
Fixpoint free_chain (m : gmap Z Z) (p : Z) (l : list Z) : Prop :=
  match l with [] => p = 0 | a :: l => p = a /\ exists next, m !! a = Some next /\ free_chain m next l end.

(** [free]: the headers of the free blocks, in the order of the list; [used]: those
    of the blocks in use. *)
Record pool_repr (p : rt_mempool) (m : gmap Z Z) (free used : list Z) : Prop := {
  pr_geometry : 0 < mp_start p /\ mp_start p mod 4 = 0 /\ 0 <= mp_block_size p /\ mp_block_size p mod 4 = 0 /\
    mp_start p + mp_total_count p * (mp_block_size p + 4) < 4294967296;
  pr_blocks : 0 <= mp_total_count p /\ free ++ used ≡ₚ headers (mp_start p) (mp_block_size p + 4) (Z.to_nat (mp_total_count p));
  pr_free : free_chain m (mp_block_list p) free;
  pr_used : forall a, a ∈ used -> m !! a = Some (mp_addr p);
  pr_count : mp_free_count p = Z.of_nat (length free);
}.

Lemma headers_elem start stride n a : a ∈ headers start stride n <-> exists i : nat, a = start + Z.of_nat i * stride /\ (i < n)%nat.
Proof. unfold headers. rewrite list_elem_of_fmap. setoid_rewrite elem_of_seq. split; intros (i&?&?); exists i; split; (done || lia). Qed.

Lemma headers_nodup start stride n : 0 < stride -> NoDup (headers start stride n).
Proof. intros Hs. apply NoDup_fmap_2; [intros i j E; nia|apply NoDup_seq]. Qed.

Lemma free_chain_insert m p l a v : a ∉ l -> free_chain m p l -> free_chain (<[a := v]> m) p l.
Proof.
  revert p. induction l as [|b l IH]; intros p Ha; simpl; [done|]. intros (->&next&Hn&Hc). apply not_elem_of_cons in Ha as [Hne Ha].
  split; [done|]. exists next. rewrite lookup_insert_ne by done. auto.
Qed.

(** A header in a pool. *)
Lemma repr_header p m free used a : pool_repr p m free used -> a ∈ free ++ used ->
  mp_start p <= a /\ a mod 4 = 0 /\ a + 4 + mp_block_size p <= mp_start p + mp_total_count p * (mp_block_size p + 4) /\
  exists i, 0 <= i < mp_total_count p /\ a = mp_start p + i * (mp_block_size p + 4).
Proof.
  intros [(H1&H2&H3&H4&H5) [H6 Hb] _ _ _] Ha. rewrite Hb, headers_elem in Ha. destruct Ha as (i&->&Hi).
  split_and!; [nia| |nia|exists (Z.of_nat i); lia].
  apply Z.mod_divide in H2 as [x Hx]; [|lia]. apply Z.mod_divide in H4 as [y Hy]; [|lia]. rewrite Hx, Hy.
  replace (x * 4 + Z.of_nat i * (y * 4 + 4)) with ((x + Z.of_nat i * (y + 1)) * 4) by ring. by apply Z.mod_mul.
Qed.

Lemma mp_take_repr s a free used : pool_repr (st_p s) (st_m s) (a :: free) used ->
  exists s', mp_take s = Some (s', a + 4) /\ pool_repr (st_p s') (st_m s') free (a :: used) /\ st_k s' = st_k s /\
    mp_addr (st_p s') = mp_addr (st_p s) /\ mp_suspend_count (st_p s') = mp_suspend_count (st_p s).
Proof.
  intros Hr. pose proof (repr_header _ _ _ _ a Hr) as (Hh1&Hh2&Hh3&_); [by left|].
  pose proof Hr as [Hg [Hn Hb] Hf Hu Hc]. destruct Hf as (E&next&Hnext&Hf). unfold mp_take. rewrite E, Hnext. simpl.
  assert (NoDup ((a :: free) ++ used)) as Hnd by (rewrite Hb; apply headers_nodup; lia).
  simpl in Hnd. apply NoDup_cons in Hnd as [Hni _]. rewrite not_elem_of_app in Hni. destruct Hni as [Hni1 Hni2].
  eexists. split; [f_equal; f_equal; word|]. split; [|done]. simpl. split; simpl; try done.
  - split; [done|]. by rewrite <-Hb, <-Permutation_middle.
  - by apply free_chain_insert.
  - intros b Hbi. destruct (decide (b = a)) as [->|Hne]; [by rewrite lookup_insert_eq|]. rewrite lookup_insert_ne by done. apply Hu. set_solver.
  - rewrite Hc. simpl length. assert (mp_total_count (st_p s) < 4294967296) by nia.
    assert (Z.of_nat (length free) < mp_total_count (st_p s)).
    { apply Permutation_length in Hb. unfold headers in Hb. rewrite length_fmap, length_seq, length_app in Hb. simpl in Hb. lia. }
    word.
Qed.

Lemma mp_free_repr o s a free used1 used2 : pool_repr (st_p s) (st_m s) free (used1 ++ a :: used2) -> mp_suspend_count (st_p s) = 0 ->
  exists s', rt_mp_free o (a + 4) s = Some s' /\ pool_repr (st_p s') (st_m s') (a :: free) (used1 ++ used2) /\ st_k s' = st_k s /\
    mp_addr (st_p s') = mp_addr (st_p s) /\ mp_suspend_count (st_p s') = 0.
Proof.
  intros Hr Hz. pose proof (repr_header _ _ _ _ a Hr) as (Hh1&Hh2&Hh3&_); [set_solver|].
  pose proof Hr as [Hg [Hn Hb] Hf Hu Hc]. unfold rt_mp_free. replace (u32 (a + 4 - 4)) with a by word.
  rewrite (Hu a) by set_solver. simpl. rewrite Z.eqb_refl, Hz. simpl.
  assert (NoDup (free ++ used1 ++ a :: used2)) as Hnd by (rewrite Hb; apply headers_nodup; lia).
  rewrite <-Permutation_middle, <-Permutation_middle in Hnd. apply NoDup_cons in Hnd as [Hni _]. rewrite !not_elem_of_app in Hni. destruct Hni as (Hn1&Hn2&Hn3).
  eexists. split; [done|]. split; [|done]. split; simpl; try done.
  - split; [done|]. rewrite <-Hb. by rewrite <-!Permutation_middle.
  - split; [done|]. exists (mp_block_list (st_p s)). rewrite lookup_insert_eq. split; [done|]. by apply free_chain_insert.
  - intros b Hbi. rewrite lookup_insert_ne by set_solver. apply Hu. set_solver.
  - rewrite Hc. assert (mp_total_count (st_p s) < 4294967296) by nia.
    assert (Z.of_nat (length free) < mp_total_count (st_p s)).
    { apply Permutation_length in Hb. unfold headers in Hb. rewrite length_fmap, length_seq, !length_app in Hb. simpl in Hb. lia. }
    word.
Qed.

(** ** A fresh pool *)

Lemma mp_link_lookup start stride n : 0 < stride -> forall off m i, 0 <= off -> 0 <= start ->
  start + (off + Z.of_nat n) * stride < 4294967296 -> off <= i ->
  mp_link start stride n off m !! (start + i * stride) =
  if decide (i < off + Z.of_nat n) then Some (start + (i + 1) * stride) else m !! (start + i * stride).
Proof.
  intros Hs. induction n as [|n IH]; intros off m i Ho Hst Hr Hi; cbn [mp_link]; [by rewrite decide_False by lia|].
  assert (forall j, 0 <= j <= off + Z.of_nat (S n) -> u32 (start + j * stride) = start + j * stride) as Eu by (intros j Hj; word || (apply u32_small; unfold is_u32; nia)).
  rewrite !Eu by lia. destruct (decide (i = off)) as [->|Hne].
  - rewrite decide_True by lia. clear IH.
    assert (forall n off' m', off < off' -> 0 <= off' -> start + (off' + Z.of_nat n) * stride < 4294967296 ->
      mp_link start stride n off' m' !! (start + off * stride) = m' !! (start + off * stride)) as Hout.
    { clear n m Hr Hi Eu. induction n as [|n IH]; intros off' m' Hlt Ho' Hr; cbn [mp_link]; [done|].
      rewrite IH by lia. rewrite lookup_insert_ne; [done|]. rewrite u32_small by (unfold is_u32; nia). nia. }
    rewrite Hout by lia. by rewrite lookup_insert_eq.
  - rewrite IH by lia. rewrite (decide_ext (i < off + Z.of_nat (S n)) (i < off + 1 + Z.of_nat n)) by lia.
    destruct (decide _); [done|]. rewrite lookup_insert_ne by nia. done.
Qed.

Lemma link_chain start stride n (m : gmap Z Z) : forall off,
  (forall i : nat, (off <= i < off + n)%nat -> m !! (start + Z.of_nat i * stride) = Some (if decide (S i = off + n)%nat then 0 else start + Z.of_nat (S i) * stride)) ->
  (0 < n)%nat -> free_chain m (start + Z.of_nat off * stride) ((fun i : nat => start + Z.of_nat i * stride) <$> seq off n).
Proof.
  induction n as [|n IH]; intros off Hm Hn; [lia|]. cbn [seq fmap list_fmap free_chain]. split; [done|].
  rewrite (Hm off) by lia. eexists. split; [done|]. destruct n as [|n]; [by rewrite decide_True by lia|].
  rewrite decide_False by lia. apply IH; [|lia]. intros i Hi. rewrite (Hm i) by lia. by rewrite (decide_ext (S i = off + S (S n))%nat (S i = S off + S n)%nat) by lia.
Qed.

Lemma init_chain start stride n m : 0 < stride -> 0 <= start -> (0 < n)%nat -> start + Z.of_nat n * stride < 4294967296 ->
  free_chain (mp_link_all start stride n m) start (headers start stride n).
Proof.
  intros Hs H0 Hn Hr. replace start with (start + Z.of_nat 0 * stride) at 2 by lia. apply link_chain; [|done].
  intros i Hi. unfold mp_link_all. rewrite (u32_small (start + (Z.of_nat n - 1) * stride)) by (unfold is_u32; nia).
  destruct (decide (S i = 0 + n)%nat) as [E|E].
  - replace (Z.of_nat n - 1) with (Z.of_nat i) by lia. by rewrite lookup_insert_eq.
  - rewrite lookup_insert_ne by nia. rewrite mp_link_lookup by lia. rewrite decide_True by lia. do 2 f_equal. lia.
Qed.

(** The least size of a pool with a block, and what is left unused. *)
Lemma rt_mp_init_repr addr start size block_size o m k :
  0 < start -> start mod 4 = 0 -> start + size < 4294967296 -> 0 <= block_size < 4294967280 -> 0 <= size ->
  let bs := RT_ALIGN block_size 4 in let s := rt_mp_init addr start size block_size o m k in
  0 < RT_ALIGN_DOWN size 4 / (bs + 4) ->
  pool_repr (st_p s) (st_m s) (headers start (bs + 4) (Z.to_nat (mp_total_count (st_p s)))) [] /\
  block_size <= bs < block_size + 4 /\ mp_block_size (st_p s) = bs /\ mp_total_count (st_p s) = RT_ALIGN_DOWN size 4 / (bs + 4) /\
  mp_start (st_p s) = start /\ mp_addr (st_p s) = addr /\ mp_suspend_count (st_p s) = 0 /\
  start + mp_total_count (st_p s) * (bs + 4) <= start + size.
Proof.
  intros H0 H4 Hr Hb Hsz bs s Hn. assert (bs = 4 * ((block_size + 3) / 4)) as Ebs by (apply RT_ALIGN_4; lia).
  assert (RT_ALIGN_DOWN size 4 <= size) as Hd.
  { unfold RT_ALIGN_DOWN. change (Z.lnot (4 - 1)) with (Z.lnot 3). rewrite land_lnot3. word. }
  assert (block_size <= bs < block_size + 4) as Hbs by word.
  assert (u32 (bs + 4) = bs + 4) as Eu by word.
  assert (mp_total_count (st_p s) = RT_ALIGN_DOWN size 4 / (bs + 4)) as Ec by (unfold s, rt_mp_init; simpl; fold bs; by rewrite Eu).
  assert (mp_total_count (st_p s) * (bs + 4) <= RT_ALIGN_DOWN size 4) as Hmul.
  { rewrite Ec. rewrite Z.mul_comm. apply Z.mul_div_le. lia. }
  split_and!; try done; try lia. rewrite <-Ec in Hn. split; simpl; fold bs.
  - split_and!; [done|done|lia|rewrite Ebs, Z.mul_comm; apply Z.mod_mul; lia|].
    change (RT_ALIGN_DOWN size 4 / u32 (bs + 4)) with (mp_total_count (st_p s)). lia.
  - split; [change (0 <= mp_total_count (st_p s)); lia|by rewrite app_nil_r].
  - apply init_chain; change (RT_ALIGN_DOWN size 4 / u32 (bs + 4)) with (mp_total_count (st_p s)); lia.
  - intros a Ha. by apply elem_of_nil in Ha.
  - unfold headers. rewrite length_fmap, length_seq. change (RT_ALIGN_DOWN size 4 / u32 (bs + 4)) with (mp_total_count (st_p s)). lia.
Qed.

(** ** Clients of a pool *)

Inductive mp_op := MpAlloc | MpFree (i : nat).

(** [held]: the blocks that were given out, by address; a client frees one that is
    held. *)
Definition mp_exec (o : oid) (op : mp_op) (s : mp_state) (held : list Z) : option (mp_state * list Z) :=
  match op with
  | MpAlloc =>
      '(s, r) ← rt_mp_alloc_enter o 0 s;
      match r with
      | Done b _ => Some (s, if b =? 0 then held else b :: held)
      | Wait _ _ => None
      end
  | MpFree i =>
      match held !! i with
      | Some b => s ← rt_mp_free o b s; Some (s, delete i held)
      | None => Some (s, held)
      end
  end.
Fixpoint mp_run (o : oid) (ops : list mp_op) (s : mp_state) (held : list Z) : option (mp_state * list Z) :=
  match ops with [] => Some (s, held) | op :: ops => '(s, held) ← mp_exec o op s held; mp_run o ops s held end.

(** How many blocks the clients hold after a call: one more as long as there are. *)
Definition held_after (n : Z) (c : nat) (op : mp_op) : nat :=
  match op with
  | MpAlloc => if Z.of_nat c <? n then S c else c
  | MpFree i => if (i <? c)%nat then (c - 1)%nat else c
  end.

Record pool_inv (p0 : rt_mempool) (s : mp_state) (held : list Z) : Prop := {
  pi_repr : exists free used, pool_repr (st_p s) (st_m s) free used /\ held = (fun a => a + 4) <$> used;
  pi_waiters : mp_suspend_count (st_p s) = 0;
  pi_same : mp_start (st_p s) = mp_start p0 /\ mp_block_size (st_p s) = mp_block_size p0 /\ mp_total_count (st_p s) = mp_total_count p0;
  pi_kernel : kernel_wf (st_k s);
}.

Lemma rt_set_errno_ok e k : kernel_wf k -> exists k', rt_set_errno e k = Some k' /\ kernel_wf k'.
Proof.
  intros Hk. unfold rt_set_errno. destruct (negb _); [by exists k|]. unfold rt_thread_self. destruct (current (k_s k)) as [c|] eqn:Ec; [|by exists k].
  destruct (wf_current _ (kw_sched _ _ _ Hk) c Ec) as [[th Ht] _]. rewrite (upd_th_eq _ _ _ _ Ht). eexists. split; [done|].
  apply (kernel_put_same _ _ _ _ th); [done|done|apply set_error_same].
Qed.

Lemma mp_take_same s s' b : mp_take s = Some (s', b) -> mp_start (st_p s') = mp_start (st_p s) /\
  mp_block_size (st_p s') = mp_block_size (st_p s) /\ mp_total_count (st_p s') = mp_total_count (st_p s).
Proof. unfold mp_take. destruct (st_m s !! _); simpl; [|done]. by intros [= <- _]. Qed.

Lemma mp_free_same o b s s' : rt_mp_free o b s = Some s' -> mp_start (st_p s') = mp_start (st_p s) /\
  mp_block_size (st_p s') = mp_block_size (st_p s) /\ mp_total_count (st_p s') = mp_total_count (st_p s).
Proof.
  unfold rt_mp_free. destruct (st_m s !! _) as [a|]; simpl; [|done]. destruct (a =? _); [|done]. destruct (0 <? _); [|by intros [= <-]].
  destruct (lists _ !! _) as [l|]; simpl; [|done]. destruct (head l) as [t|]; simpl; [|done]. destruct (upd_th _ _ _) as [k1|]; simpl; [|done].
  destruct (rt_thread_resume _ _) as [[k2 r]|]; simpl; [|done]. destruct (on_s _ _); simpl; [|done]. by intros [= <-].
Qed.

Lemma repr_total p m free used : pool_repr p m free used -> mp_total_count p = Z.of_nat (length free) + Z.of_nat (length used).
Proof.
  intros Hr. pose proof (pr_blocks _ _ _ _ Hr) as [Hn Hp]. apply Permutation_length in Hp.
  unfold headers in Hp. rewrite length_app, length_fmap, length_seq in Hp. lia.
Qed.

(** A block is given, whatever the waiting time, as long as one is free. *)
Lemma mp_alloc_gives o time s a free used : pool_repr (st_p s) (st_m s) (a :: free) used ->
  exists s', rt_mp_alloc_enter o time s = Some (s', Done (a + 4) false) /\ mp_take s = Some (s', a + 4).
Proof.
  intros Hr. destruct (mp_take_repr s a free used Hr) as (s'&Et&_). exists s'. split; [|done]. unfold rt_mp_alloc_enter, mp_alloc_loop.
  rewrite (pr_count _ _ _ _ Hr). rewrite (proj2 (Z.eqb_neq _ 0)) by (simpl; lia). by rewrite Et.
Qed.

Lemma mp_exec_inv p0 o op s held : pool_inv p0 s held ->
  exists s' held', mp_exec o op s held = Some (s', held') /\ pool_inv p0 s' held' /\ length held' = held_after (mp_total_count p0) (length held) op.
Proof.
  intros [(free&used&Hr&->) Hz (E1&E2&E3) Hk]. pose proof (repr_total _ _ _ _ Hr) as Htot. rewrite E3 in Htot. destruct op as [|i]; simpl.
  - unfold rt_mp_alloc_enter, mp_alloc_loop. destruct free as [|a free].
    + rewrite (pr_count _ _ _ _ Hr). simpl. destruct (rt_set_errno_ok (- RT_ETIMEOUT) (st_k s) Hk) as (k'&->&Hk'). simpl.
      eexists _, _. split; [done|]. split; [split; simpl; [by exists [], used|done..]|]. rewrite length_fmap. simpl in Htot. by rewrite (proj2 (Z.ltb_ge _ _)) by lia.
    + rewrite (pr_count _ _ _ _ Hr). rewrite (proj2 (Z.eqb_neq _ 0)) by (simpl; lia).
      destruct (mp_take_repr s a free used Hr) as (s'&Et&Hr'&Ek&_&Ez). pose proof (mp_take_same _ _ _ Et) as (F1&F2&F3). rewrite Et. simpl.
      destruct (repr_header _ _ _ _ a Hr) as (Hh&_); [by left|]. pose proof (pr_geometry _ _ _ _ Hr) as (Hg&_).
      rewrite (proj2 (Z.eqb_neq _ 0)) by lia. eexists _, _. split; [done|].
      split; [split; [by exists free, (a :: used)|by rewrite Ez|by rewrite F1, F2, F3|by rewrite Ek]|].
      simpl. rewrite length_fmap. simpl in Htot. by rewrite (proj2 (Z.ltb_lt _ _)) by lia.
  - rewrite list_lookup_fmap. destruct (used !! i) as [a|] eqn:Ei; simpl.
    + pose proof (take_drop_middle _ _ _ Ei) as Eu. rewrite <-Eu in Hr.
      destruct (mp_free_repr o s a free _ _ Hr Hz) as (s'&Ef&Hr'&Ek&_&Ez). pose proof (mp_free_same _ _ _ _ Ef) as (F1&F2&F3). rewrite Ef. simpl.
      eexists _, _. split; [done|]. apply lookup_lt_Some in Ei as Hi. split; [split; [|done|by rewrite F1, F2, F3|by rewrite Ek]|].
      * exists (a :: free), (take i used ++ drop (S i) used). split; [done|]. by rewrite <-list_fmap_delete, delete_take_drop.
      * rewrite length_fmap, (proj2 (Nat.ltb_lt _ _) Hi), length_delete, length_fmap by (by rewrite list_lookup_fmap, Ei; eexists). done.
    + eexists _, _. split; [done|]. apply lookup_ge_None in Ei. split; [split; [by exists free, used|done..]|]. by rewrite length_fmap, (proj2 (Nat.ltb_ge _ _)) by lia.
Qed.

Lemma mp_run_inv p0 o ops : forall s held, pool_inv p0 s held -> exists s' held', mp_run o ops s held = Some (s', held') /\ pool_inv p0 s' held' /\
  length held' = foldl (held_after (mp_total_count p0)) (length held) ops.
Proof.
  induction ops as [|op ops IH]; intros s held Hi; simpl; [by exists s, held|].
  destruct (mp_exec_inv p0 o op s held Hi) as (s1&held1&->&Hi1&<-). simpl. by apply IH.
Qed.

(** A block of [size] bytes with its header, inside the memory of the pool. *)
Record block_ok (start size bs b : Z) : Prop := {
  bo_align : b mod 4 = 0;
  bo_inside : start + 4 <= b /\ b + bs <= start + size;
}.

(** C33: Whatever blocks clients that do not wait take from a new pool and return to
    it, every call returns, a block is given exactly as long as one is free, and
    the blocks held are aligned, of at least the size asked for, inside the memory
    of the pool and apart from each other and from each other's headers. The next
    allocation, with any waiting time, gives another such block when not all are
    held; without waiting time it fails otherwise. (For waiting threads see
    [rt_mp_free_counts_wrong].) *)
Theorem mp_clients_safe addr start size block_size o m k ops :
  0 < start -> start mod 4 = 0 -> 0 <= size -> start + size < 4294967296 -> 0 <= block_size < 4294967280 ->
  kernel_wf (rt_list_init_head (LSuspend o) k) ->
  let bs := RT_ALIGN block_size 4 in let n := RT_ALIGN_DOWN size 4 / (bs + 4) in 0 < n ->
  exists s held, mp_run o ops (rt_mp_init addr start size block_size o m k) [] = Some (s, held) /\ block_size <= bs /\
    Forall (block_ok start size bs) held /\
    (forall i j b c, held !! i = Some b -> held !! j = Some c -> i <> j -> b + bs <= c - 4 \/ c + bs <= b - 4) /\
    length held = foldl (held_after n) 0%nat ops /\ mp_free_count (st_p s) = n - Z.of_nat (length held) /\
    if Z.of_nat (length held) <? n
    then forall time, exists s' b, rt_mp_alloc_enter o time s = Some (s', Done b false) /\ b ∉ held /\ block_ok start size bs b
    else exists s', rt_mp_alloc_enter o 0 s = Some (s', Done 0 false) /\ st_p s' = st_p s /\ st_m s' = st_m s.
Proof.
  intros H0 H4 Hsz Hr Hb Hk bs n Hn. set (s0 := rt_mp_init addr start size block_size o m k).
  destruct (rt_mp_init_repr addr start size block_size o m k H0 H4 Hr Hb Hsz Hn) as (Hrep&[Hbs _]&Eb&En&Est&_&Ez&Hend).
  assert (pool_inv (st_p s0) s0 []) as Hi0 by (split; [by eexists _, []|done|done|done]).
  destruct (mp_run_inv _ o ops s0 [] Hi0) as (s&held&Erun&[(free&used&Hr1&->) _ (E1&E2&E3) Hk1]&Elen). exists s, ((fun a => a + 4) <$> used).
  fold s0 in Est, Eb, En, Hend, Ez. fold bs in Eb, En, Hend. rewrite Est in E1. rewrite Eb in E2. rewrite En in E3, Elen.
  assert (forall a, a ∈ free ++ used -> start <= a /\ a mod 4 = 0 /\ a + 4 + bs <= start + n * (bs + 4) /\ exists i, 0 <= i < n /\ a = start + i * (bs + 4)) as Hhd.
  { intros a Ha. pose proof (repr_header _ _ _ _ a Hr1) as H. rewrite E1, E2, E3 in H. apply H. done. }
  assert (forall a, a ∈ free ++ used -> block_ok start size bs (a + 4)) as Hok.
  { intros a Ha. destruct (Hhd a Ha) as (?&?&?&_). split; simpl.
    + rewrite <-Z.add_mod_idemp_l by lia. by rewrite H1.
    + rewrite En in Hend. unfold n in *. lia. }
  assert (NoDup (free ++ used)) as Hn2.
  { pose proof (pr_blocks _ _ _ _ Hr1) as [_ Hp]. rewrite Hp. apply headers_nodup. rewrite E2. lia. }
  pose proof (repr_total _ _ _ _ Hr1) as Htot. rewrite E3 in Htot. fold n in Htot.
  split; [done|]. split; [done|]. split; [|split; [|split; [exact Elen|split]]].
  - apply Forall_fmap. apply Forall_forall. intros a Ha. apply Hok. set_solver.
  - assert (NoDup used) as Hnd by (by apply NoDup_app in Hn2 as (_&_&?)).
    intros i j b c. rewrite !list_lookup_fmap. destruct (used !! i) as [a|] eqn:Ei; [|done]. destruct (used !! j) as [a'|] eqn:Ej; [|done].
    simpl. intros [= <-] [= <-] Hij. destruct (Hhd a) as (_&_&_&x&Hx&->); [apply elem_of_app; right; by eapply list_elem_of_lookup_2|].
    destruct (Hhd a') as (_&_&_&y&Hy&->); [apply elem_of_app; right; by eapply list_elem_of_lookup_2|].
    assert (x <> y) by (intros ->; apply Hij; by eapply NoDup_lookup). nia.
  - rewrite (pr_count _ _ _ _ Hr1), length_fmap. lia.
  - rewrite length_fmap. destruct free as [|a free]; simpl in Htot.
    + rewrite (proj2 (Z.ltb_ge _ _)) by lia. unfold rt_mp_alloc_enter, mp_alloc_loop. rewrite (pr_count _ _ _ _ Hr1). simpl.
      destruct (rt_set_errno_ok (- RT_ETIMEOUT) (st_k s) Hk1) as (k'&->&_). simpl. by eexists.
    + rewrite (proj2 (Z.ltb_lt _ _)) by lia. intros time. destruct (mp_alloc_gives o time s a free used Hr1) as (s'&->&_).
      exists s', (a + 4). split; [done|]. split; [|apply Hok; by left].
      rewrite list_elem_of_fmap. intros (a' & Ea & Ha'). assert (a' = a) as -> by lia. simpl in Hn2. apply NoDup_cons in Hn2 as [Hn2 _]. set_solver.
Qed.

(** ** A waiter that timed out *)

(** The count of the waiters is above 0, their list is empty: returning a block
    takes the list head itself for a thread. *)
Theorem rt_mp_free_counts_wrong o b s : 0 < mp_suspend_count (st_p s) -> lists (k_s (st_k s)) !! LSuspend o = Some [] -> rt_mp_free o b s = None.
Proof.
  intros Hc Hl. unfold rt_mp_free. destruct (st_m s !! _) as [a|]; simpl; [|done]. destruct (a =? _); [|done].
  rewrite (proj2 (Z.ltb_lt _ _) Hc), Hl. done.
Qed.

(** A thread waits and gets nothing: the count stays. *)
Theorem rt_mp_alloc_timeout_keeps_count o t time before s th : threads (k_s (st_k s)) !! t = Some th -> th_error th <> RT_EOK ->
  rt_mp_alloc_resume o t time before s = Some (s, Done 0 false).
Proof. intros Ht He. unfold rt_mp_alloc_resume. rewrite Ht. simpl. by rewrite (proj2 (Z.eqb_neq _ _) He). Qed.

(** Thread 1 holds the only block of a pool and waits two ticks for another one;
    when it then returns its block, the kernel is lost. *)
Definition demo_pool : mp_state := rt_mp_init 500 1000 16 8 7 ∅ demo_k.
Definition demo_pool_timeout : option mp_state :=
  '(s, _) ← rt_mp_alloc_enter 7 0 demo_pool;
  '(s, _) ← rt_mp_alloc_enter 7 2 s;
  k ← on_s rt_schedule (st_k s);
  k ← ticks 4 2 k;
  fst <$> rt_mp_alloc_resume 7 1 2 100 (MpState (st_p s) (st_m s) k).

Example rt_mp_free_after_timeout :
  (s ← demo_pool_timeout; Some (mp_suspend_count (st_p s), lists (k_s (st_k s)) !! LSuspend 7, rt_mp_free 7 1004 s)) =
  Some (1, Some [], None).
Proof. vm_compute. reflexivity. Qed.

(** ** Witness: a pool of five blocks of at least ten bytes *)

Lemma demo_pool_lists_wf : kernel_wf (rt_list_init_head (LSuspend 7) demo_k).
Proof. kernel_dec. Qed.

Lemma mp_clients_safe_witness :
  exists s held, mp_run 7 [MpAlloc; MpAlloc; MpFree 1; MpAlloc] (rt_mp_init 500 1000 80 10 7 ∅ demo_k) [] = Some (s, held) /\ 10 <= 12 /\
    Forall (block_ok 1000 80 12) held /\
    (forall i j b c, held !! i = Some b -> held !! j = Some c -> i <> j -> b + 12 <= c - 4 \/ c + 12 <= b - 4) /\
    length held = 2%nat /\ mp_free_count (st_p s) = 5 - Z.of_nat (length held) /\
    if Z.of_nat (length held) <? 5
    then forall time, exists s' b, rt_mp_alloc_enter 7 time s = Some (s', Done b false) /\ b ∉ held /\ block_ok 1000 80 12 b
    else exists s', rt_mp_alloc_enter 7 0 s = Some (s', Done 0 false) /\ st_p s' = st_p s /\ st_m s' = st_m s.
Proof.
  apply (mp_clients_safe 500 1000 80 10 7 ∅ demo_k [MpAlloc; MpAlloc; MpFree 1; MpAlloc]); [lia|reflexivity|lia|lia|lia|exact demo_pool_lists_wf|reflexivity].
Defined.
