(* ===== verification/MemHeap.v ===== *)
(** * Memory heaps (rt-thread/src/memheap.c)

    The headers of the blocks of a heap lie on two rings of pointers, one of all
    blocks in the order of their addresses and one of the free ones. A call is a
    program over single accesses to headers, bytes and the semaphore of the heap,
    so that calls of several threads may interleave at every access. *)

From S2P Require Import Prelude RtList Kernel Mem.

(** ** State *)

(** The object, at address [mh_addr]. *)
Record rt_memheap := MemHeap {
  mh_addr : Z;
  start_addr : Z;
  pool_size : Z;
  available_size : Z;
  max_used_size : Z;
  block_list : Z;
  free_list : Z;
}.

(** With it the headers in memory, field by field: [hs_blk] holds [next] and
    [prev], [hs_fl] holds [next_free] and [prev_free]. *)
Record hstate := HState {
  hs_heap : rt_memheap;
  hs_magic : gmap Z Z;
  hs_pool : gmap Z Z;
  hs_blk : list_heap Z;
  hs_fl : list_heap Z;
}.

Definition RT_MEMHEAP_MAGIC : Z := 513810080.      (* 0x1ea01ea0 *)
Definition RT_MEMHEAP_USED : Z := 1.
Definition RT_MEMHEAP_MINIALLOC : Z := 12.
Definition RT_MEMHEAP_SIZE : Z := RT_ALIGN 24 4.

(** [&heap->free_header]. *)
Definition free_header (h : Z) : Z := h + 44.

(** A field of a header or of the object. *)
Inductive place :=
  | Magic (p : Z) | PoolPtr (p : Z) | Next (p : Z) | Prev (p : Z) | NextFree (p : Z) | PrevFree (p : Z)
  | StartAddr (h : Z) | PoolSize (h : Z) | AvailableSize (h : Z) | MaxUsedSize (h : Z) | BlockList (h : Z) | FreeList (h : Z).

Definition set_heap x s := HState x (hs_magic s) (hs_pool s) (hs_blk s) (hs_fl s).
Definition set_magic x s := HState (hs_heap s) x (hs_pool s) (hs_blk s) (hs_fl s).
Definition set_pool x s := HState (hs_heap s) (hs_magic s) x (hs_blk s) (hs_fl s).
Definition set_blk x s := HState (hs_heap s) (hs_magic s) (hs_pool s) x (hs_fl s).
Definition set_fl x s := HState (hs_heap s) (hs_magic s) (hs_pool s) (hs_blk s) x.

Definition set_available x h := MemHeap (mh_addr h) (start_addr h) (pool_size h) x (max_used_size h) (block_list h) (free_list h).
Definition set_max_used x h := MemHeap (mh_addr h) (start_addr h) (pool_size h) (available_size h) x (block_list h) (free_list h).

(** Reading a field: of a header that was written, of the object at its address. *)
Definition hget (x : place) (s : hstate) : option Z :=
  let obj h (v : Z) := if h =? mh_addr (hs_heap s) then Some v else None in
  match x with
  | Magic p => hs_magic s !! p
  | PoolPtr p => hs_pool s !! p
  | Next p => nx (hs_blk s) !! p
  | Prev p => pv (hs_blk s) !! p
  | NextFree p => nx (hs_fl s) !! p
  | PrevFree p => pv (hs_fl s) !! p
  | StartAddr h => obj h (start_addr (hs_heap s))
  | PoolSize h => obj h (pool_size (hs_heap s))
  | AvailableSize h => obj h (available_size (hs_heap s))
  | MaxUsedSize h => obj h (max_used_size (hs_heap s))
  | BlockList h => obj h (block_list (hs_heap s))
  | FreeList h => obj h (free_list (hs_heap s))
  end.

(** Where a header may be written: in the pool, or the header of the free list. *)
Definition in_pool (s : hstate) (p : Z) : bool :=
  ((start_addr (hs_heap s) <=? p) && (p + 24 <=? start_addr (hs_heap s) + pool_size (hs_heap s)))
  || (p =? free_header (mh_addr (hs_heap s))).

Definition hput (x : place) (v : Z) (s : hstate) : option hstate :=
  let item p (s' : hstate) := if in_pool s p then Some s' else None in
  let m := hs_heap s in
  let obj h m' := if h =? mh_addr m then Some (set_heap m' s) else None in
  match x with
  | Magic p => item p (set_magic (<[p := v]> (hs_magic s)) s)
  | PoolPtr p => item p (set_pool (<[p := v]> (hs_pool s)) s)
  | Next p => item p (set_blk (LHeap (<[p := v]> (nx (hs_blk s))) (pv (hs_blk s))) s)
  | Prev p => item p (set_blk (LHeap (nx (hs_blk s)) (<[p := v]> (pv (hs_blk s)))) s)
  | NextFree p => item p (set_fl (LHeap (<[p := v]> (nx (hs_fl s))) (pv (hs_fl s))) s)
  | PrevFree p => item p (set_fl (LHeap (nx (hs_fl s)) (<[p := v]> (pv (hs_fl s)))) s)
  | StartAddr h => obj h (MemHeap h v (pool_size m) (available_size m) (max_used_size m) (block_list m) (free_list m))
  | PoolSize h => obj h (MemHeap h (start_addr m) v (available_size m) (max_used_size m) (block_list m) (free_list m))
  | AvailableSize h => obj h (set_available v m)
  | MaxUsedSize h => obj h (set_max_used v m)
  | BlockList h => obj h (MemHeap h (start_addr m) (pool_size m) (available_size m) (max_used_size m) v (free_list m))
  | FreeList h => obj h (MemHeap h (start_addr m) (pool_size m) (available_size m) (max_used_size m) (block_list m) v)
  end.

(** ** Programs *)

(** What a call does, access by access. [Take] is [rt_sem_take] on the lock of
    the heap, with its result; [Stuck] is a loop out of fuel. *)
Inductive prog (A : Type) :=
  | Done (a : A)
  | Get (x : place) (k : Z -> prog A)
  | Put (x : place) (v : Z) (k : prog A)
  | Load (a : Z) (k : Z -> prog A)
  | Store (a v : Z) (k : prog A)
  | Take (h : Z) (k : Z -> prog A)
  | Release (h : Z) (k : prog A)
  | Stuck.
Arguments Done {A} a.
Arguments Get {A} x k.
Arguments Put {A} x v k.
Arguments Load {A} a k.
Arguments Store {A} a v k.
Arguments Take {A} h k.
Arguments Release {A} h k.
Arguments Stuck {A}.

#[export] Instance prog_ret : MRet prog := @Done.
#[export] Instance prog_bind : MBind prog := fun A B k =>
  fix bind p := match p with
  | Done a => k a
  | Get x c => Get x (fun v => bind (c v))
  | Put x v c => Put x v (bind c)
  | Load a c => Load a (fun v => bind (c v))
  | Store a v c => Store a v (bind c)
  | Take h c => Take h (fun e => bind (c e))
  | Release h c => Release h (bind c)
  | Stuck => Stuck
  end.

Definition get (x : place) : prog Z := Get x Done.
Definition put (x : place) (v : Z) : prog unit := Put x v (Done tt).
Definition rt_sem_take_lock (h : Z) : prog Z := Take h Done.
Definition rt_sem_release_lock (h : Z) : prog unit := Release h (Done tt).

(** ** Operations *)

Definition MEMITEM_SIZE (item : Z) : prog Z :=
  n ← get (Next item); mret (u32 (u32 (n - item) - RT_MEMHEAP_SIZE)).

Definition RT_MEMHEAP_IS_USED (item : Z) : prog bool :=
  m ← get (Magic item); mret (negb (Z.land m RT_MEMHEAP_USED =? 0)).

(** Taking an item off the free list. *)
Definition unlink_free (x : Z) : prog unit :=
  nf ← get (NextFree x); pf ← get (PrevFree x); put (PrevFree nf) pf;;
  pf ← get (PrevFree x); nf ← get (NextFree x); put (NextFree pf) nf.

(** Inserting an item at the front of the free list. *)
Definition link_free (heap x : Z) : prog unit :=
  fl ← get (FreeList heap); nf ← get (NextFree fl); put (NextFree x) nf;;
  fl ← get (FreeList heap); put (PrevFree x) fl;;
  fl ← get (FreeList heap); nf ← get (NextFree fl); put (PrevFree nf) x;;
  fl ← get (FreeList heap); put (NextFree fl) x.

(** [next_free = prev_free = RT_NULL]. *)
Definition clear_free (x : Z) : prog unit := put (NextFree x) 0;; put (PrevFree x) 0.

(** A header [new_ptr] after [header_ptr] in the ring of blocks. *)
Definition insert_item (heap header_ptr new_ptr : Z) : prog unit :=
  put (Magic new_ptr) RT_MEMHEAP_MAGIC;;
  put (PoolPtr new_ptr) heap;;
  put (Prev new_ptr) header_ptr;;
  n ← get (Next header_ptr); put (Next new_ptr) n;;
  n ← get (Next header_ptr); put (Prev n) new_ptr;;
  put (Next header_ptr) new_ptr.

(** [if (pool_size - available_size > max_used_size) max_used_size = ...]. *)
Definition count_max (heap : Z) : prog unit :=
  s ← get (PoolSize heap); a ← get (AvailableSize heap); m ← get (MaxUsedSize heap);
  if m <? u32 (s - a) then
    s ← get (PoolSize heap); a ← get (AvailableSize heap); put (MaxUsedSize heap) (u32 (s - a))
  else mret tt.

Definition add_available (heap n : Z) : prog unit :=
  a ← get (AvailableSize heap); put (AvailableSize heap) (u32 (a + n)).

(** The search on the free list; [fuel] bounds the items looked at. *)
Fixpoint find_free (fuel : nat) (heap size header_ptr free_size : Z) : prog (Z * Z) :=
  fl ← get (FreeList heap);
  if negb (header_ptr =? fl) && (free_size <? size) then
    match fuel with
    | O => Stuck
    | S fuel =>
        free_size ← MEMITEM_SIZE header_ptr;
        header_ptr ← (if free_size <? size then get (NextFree header_ptr) else mret header_ptr);
        find_free fuel heap size header_ptr free_size
    end
  else mret (header_ptr, free_size).

(** [header_ptr->prev->next = header_ptr->next; header_ptr->next->prev = header_ptr->prev]. *)
Definition merge_left (x : Z) : prog unit :=
  p ← get (Prev x); n ← get (Next x); put (Next p) n;;
  n ← get (Next x); p ← get (Prev x); put (Prev n) p.

(** [x->next->prev = header_ptr; header_ptr->next = x->next]. *)
Definition merge_right (header_ptr x : Z) : prog unit :=
  n ← get (Next x); put (Prev n) header_ptr;;
  n ← get (Next x); put (Next header_ptr) n.

(** [x->next->prev = x->prev; x->prev->next = x->next]. *)
Definition unlink_item (x : Z) : prog unit :=
  n ← get (Next x); p ← get (Prev x); put (Prev n) p;;
  p ← get (Prev x); n ← get (Next x); put (Next p) n.

(** The two ways to take a free block: the front of it, or all of it. *)
Definition alloc_split (heap header_ptr size : Z) : prog unit :=
  let new_ptr := u32 (header_ptr + (size + RT_MEMHEAP_SIZE)) in
  insert_item heap header_ptr new_ptr;;
  unlink_free header_ptr;; clear_free header_ptr;;
  link_free heap new_ptr;;
  add_available heap (- size - RT_MEMHEAP_SIZE);; count_max heap.

Definition alloc_whole (heap header_ptr free_size : Z) : prog unit :=
  add_available heap (- free_size);; count_max heap;;
  unlink_free header_ptr;; clear_free header_ptr.

(** What [rt_memheap_alloc] does between [rt_sem_take] and [rt_sem_release]: the
    address returned, 0 for [RT_NULL]. *)
Definition alloc_section (fuel : nat) (heap size : Z) : prog Z :=
  fl ← get (FreeList heap); x ← get (NextFree fl);
  '(header_ptr, free_size) ← find_free fuel heap size x 0;
  if size <=? free_size then
    (if u32 (size + RT_MEMHEAP_SIZE + RT_MEMHEAP_MINIALLOC) <=? free_size
     then alloc_split heap header_ptr size else alloc_whole heap header_ptr free_size);;
    m ← get (Magic header_ptr); put (Magic header_ptr) (Z.lor m RT_MEMHEAP_USED);;
    mret (u32 (header_ptr + RT_MEMHEAP_SIZE))
  else mret 0.

(** [size] aligned, at least the smallest block. *)
Definition request (size : Z) : Z :=
  let size := RT_ALIGN size 4 in if size <? RT_MEMHEAP_MINIALLOC then RT_MEMHEAP_MINIALLOC else size.

Definition rt_memheap_alloc (fuel : nat) (heap size : Z) : prog Z :=
  let size := request size in
  a ← get (AvailableSize heap);
  if size <? a then
    result ← rt_sem_take_lock heap;
    if negb (result =? RT_EOK) then mret 0
    else r ← alloc_section fuel heap size; rt_sem_release_lock heap;; mret r
  else mret 0.

(** Merging a block with a free one before it: the block that is left, and
    whether it is still to be put on the free list. *)
Definition absorb_left (heap header_ptr : Z) : prog (Z * bool) :=
  p ← get (Prev header_ptr); used ← RT_MEMHEAP_IS_USED p;
  if negb used then
    add_available heap RT_MEMHEAP_SIZE;;
    merge_left header_ptr;;
    p ← get (Prev header_ptr); mret (p, false)
  else mret (header_ptr, true).

(** Merging a block with a free one behind it. *)
Definition absorb_right (heap header_ptr : Z) : prog unit :=
  n ← get (Next header_ptr); used ← RT_MEMHEAP_IS_USED n;
  if negb used then
    add_available heap RT_MEMHEAP_SIZE;;
    new_ptr ← get (Next header_ptr);
    merge_right header_ptr new_ptr;;
    unlink_free new_ptr
  else mret tt.

(** Between [rt_sem_take] and [rt_sem_release] in [rt_memheap_free]. *)
Definition free_section (heap header_ptr : Z) : prog unit :=
  m ← get (Magic header_ptr); put (Magic header_ptr) (Z.land m (Z.lnot RT_MEMHEAP_USED));;
  n ← MEMITEM_SIZE header_ptr; add_available heap n;;
  '(header_ptr, insert_header) ← absorb_left heap header_ptr;
  absorb_right heap header_ptr;;
  if insert_header : bool then link_free heap header_ptr else mret tt.

Definition rt_memheap_free (ptr : Z) : prog unit :=
  if ptr =? 0 then mret tt
  else
    let header_ptr := u32 (ptr - RT_MEMHEAP_SIZE) in
    heap ← get (PoolPtr header_ptr);
    result ← rt_sem_take_lock heap;
    if negb (result =? RT_EOK) then mret tt
    else free_section heap header_ptr;; rt_sem_release_lock heap.

(** The attempt of [rt_memheap_realloc] to grow into the block behind; whether
    it did. *)
Definition grow_section (heap ptr header_ptr oldsize newsize : Z) : prog bool :=
  next_ptr ← get (Next header_ptr);
  used ← RT_MEMHEAP_IS_USED next_ptr;
  if negb used then
    nextsize ← MEMITEM_SIZE next_ptr;
    if u32 (newsize + RT_MEMHEAP_MINIALLOC) <? u32 (s32 nextsize + oldsize) then
      add_available heap (- (newsize - oldsize));; count_max heap;;
      unlink_free next_ptr;;
      unlink_item next_ptr;;
      let next_ptr := u32 (ptr + newsize) in
      insert_item heap header_ptr next_ptr;;
      link_free heap next_ptr;;
      mret true
    else mret false
  else mret false.

(** The split of [rt_memheap_realloc] for a smaller size. *)
Definition shrink_section (heap header_ptr newsize : Z) : prog unit :=
  let new_ptr := u32 (header_ptr + (newsize + RT_MEMHEAP_SIZE)) in
  insert_item heap header_ptr new_ptr;;
  n ← get (Next new_ptr); used ← RT_MEMHEAP_IS_USED n;
  (if negb used then
     free_ptr ← get (Next new_ptr);
     n ← MEMITEM_SIZE free_ptr; add_available heap (- n);;
     merge_right new_ptr free_ptr;;
     unlink_free free_ptr
   else mret tt);;
  link_free heap new_ptr;;
  n ← MEMITEM_SIZE new_ptr; add_available heap n.

(** [rt_memcpy], byte by byte. *)
Fixpoint copy_loop (n : nat) (dst src : Z) : prog unit :=
  match n with
  | O => mret tt
  | S n => Load src (fun v => Store dst v (copy_loop n (dst + 1) (src + 1)))
  end.

Definition rt_memheap_realloc (fuel : nat) (heap ptr newsize : Z) : prog Z :=
  if newsize =? 0 then rt_memheap_free ptr;; mret 0
  else
    let newsize := request newsize in
    if ptr =? 0 then rt_memheap_alloc fuel heap newsize
    else
      let header_ptr := u32 (ptr - RT_MEMHEAP_SIZE) in
      oldsize ← MEMITEM_SIZE header_ptr;
      if oldsize <? newsize then
        result ← rt_sem_take_lock heap;
        if negb (result =? RT_EOK) then mret 0
        else
          grown ← grow_section heap ptr header_ptr oldsize newsize;
          rt_sem_release_lock heap;;
          if grown : bool then mret ptr
          else
            new_ptr ← rt_memheap_alloc fuel heap newsize;
            (if negb (new_ptr =? 0) then
               copy_loop (Z.to_nat (if oldsize <? newsize then oldsize else newsize)) new_ptr ptr;;
               rt_memheap_free ptr
             else mret tt);;
            mret new_ptr
      else if oldsize <=? u32 (newsize + RT_MEMHEAP_SIZE + RT_MEMHEAP_MINIALLOC) then mret ptr
      else
        result ← rt_sem_take_lock heap;
        if negb (result =? RT_EOK) then mret 0
        else shrink_section heap header_ptr newsize;; rt_sem_release_lock heap;; mret ptr.

(** The object and its first two blocks; the semaphore gets the value 1. *)
Definition rt_memheap_init (memheap start size : Z) : prog unit :=
  put (StartAddr memheap) start;;
  put (PoolSize memheap) (RT_ALIGN_DOWN size 4);;
  n ← get (PoolSize memheap); put (AvailableSize memheap) (u32 (n - 2 * RT_MEMHEAP_SIZE));;
  n ← get (PoolSize memheap); a ← get (AvailableSize memheap); put (MaxUsedSize memheap) (u32 (n - a));;
  let item := free_header memheap in
  put (Magic item) RT_MEMHEAP_MAGIC;; put (PoolPtr item) memheap;;
  put (Next item) 0;; put (Prev item) 0;; put (NextFree item) item;; put (PrevFree item) item;;
  put (FreeList memheap) item;;
  let item := start in
  put (Magic item) RT_MEMHEAP_MAGIC;; put (PoolPtr item) memheap;;
  put (Next item) 0;; put (Prev item) 0;; put (NextFree item) item;; put (PrevFree item) item;;
  a ← get (AvailableSize memheap); put (Next item) (u32 (item + a + RT_MEMHEAP_SIZE));;
  n ← get (Next item); put (Prev item) n;;
  put (BlockList memheap) item;;
  link_free memheap item;;
  item ← get (Next item);
  put (Magic item) (Z.lor RT_MEMHEAP_MAGIC RT_MEMHEAP_USED);; put (PoolPtr item) memheap;;
  put (Next item) start;; put (Prev item) start;; put (PrevFree item) 0;; put (NextFree item) 0.

(** ** Rings of addresses *)

(** The addresses [A], in order, are a ring. *)
Definition cyc (h : list_heap Z) (A : list Z) : Prop := match A with [] => True | x :: l => ring h x l end.

Lemma cyc_focus h pre x post : cyc h (pre ++ x :: post) <-> ring h x (post ++ pre).
Proof. destruct pre as [|y pre]; simpl; [by rewrite app_nil_r|]. apply ring_rotate. Qed.

Lemma cyc_link h pre x y post : cyc h (pre ++ x :: y :: post) -> nx h !! x = Some y /\ pv h !! y = Some x.
Proof. rewrite cyc_focus. simpl. by intros [? _]. Qed.

Lemma cyc_wrap h x l y : cyc h (x :: l ++ [y]) -> pv h !! x = Some y /\ nx h !! y = Some x.
Proof. simpl. intros H. apply ring_last in H as [? ?]. unfold last_of in *. rewrite last_snoc in *. done. Qed.

(** A new node [n] behind [l]. *)
Lemma ring_link_after (h : list_heap Z) l ys n y :
  NoDup (n :: l :: ys) -> ring h l ys -> nx h !! l = Some y ->
  ring (LHeap (<[l := n]> (<[n := y]> (nx h))) (<[y := n]> (<[n := l]> (pv h)))) l (n :: ys).
Proof.
  intros Hnd Hr Hl. set (h0 := LHeap (<[n := n]> (nx h)) (<[n := n]> (pv h))).
  pose proof Hnd as [[Hnl Hny]%not_elem_of_cons [Hly _]%NoDup_cons]%NoDup_cons.
  assert (ring h0 l ys) as Hr0.
  { eapply (ring_agrees [n]); [|intros a Ha ->%list_elem_of_singleton; set_solver|exact Hr].
    intros a Ha. simpl. rewrite !lookup_insert_ne; set_solver. }
  destruct (ring_insert_after h0 l ys n Hnd Hr0) as (h' & Hop & Hr' & _).
  { unfold ring, lseg, link. simpl. by rewrite !lookup_insert_eq. }
  assert (y <> n) as Hyn.
  { destruct (ring_first _ _ _ Hr) as [E _]. rewrite Hl in E. injection E as ->. pose proof (first_of_elem l ys). set_solver. }
  destruct (ring_first _ _ _ Hr) as [E1 E2]. rewrite Hl in E1. injection E1 as E1. rewrite <-E1 in E2.
  rewrite (insert_after_heap h0 l n y) in Hop; unfold h0 in *; simpl in *.
  - injection Hop as <-. rewrite (insert_insert_ne (pv h) y n), !insert_insert_eq in Hr' by done.
    by rewrite (insert_insert_ne (pv h)) by done.
  - by rewrite lookup_insert_ne.
  - rewrite lookup_insert_ne by done. eauto.
  - rewrite lookup_insert_eq. eauto.
  - rewrite lookup_insert_eq. eauto.
  - done.
Qed.

(** Node [n] taken out; whatever its own fields become. *)
Lemma ring_unlink (h : list_heap Z) l ys1 n ys2 nn np h' :
  NoDup (l :: ys1 ++ n :: ys2) -> ring h l (ys1 ++ n :: ys2) -> nx h !! n = Some nn -> pv h !! n = Some np ->
  (forall a, a <> n -> nx h' !! a = <[np := nn]> (nx h) !! a /\ pv h' !! a = <[nn := np]> (pv h) !! a) ->
  ring h' l (ys1 ++ ys2).
Proof.
  intros Hnd Hr Hn Hp Hag. apply ring_rotate in Hr.
  destruct (ring_first _ _ _ Hr) as [Hf1 Hf2]. destruct (ring_last _ _ _ Hr) as [Hl1 Hl2].
  rewrite Hn in Hf1. injection Hf1 as Hf1. rewrite Hp in Hl2. injection Hl2 as Hl2. rewrite <-Hf1 in Hf2. rewrite <-Hl2 in Hl1.
  destruct (ring_remove_mid h n l ys2 ys1) as (h1 & Hop & Hr1 & _ & _); [|done|].
  { eapply NoDup_Permutation_proper; [|exact Hnd]. solve_Permutation. }
  rewrite (remove_heap h n nn np) in Hop by eauto. injection Hop as <-.
  eapply (ring_agrees [n]); [|intros a Ha ->%list_elem_of_singleton|exact Hr1].
  - intros a Hne%not_elem_of_cons. destruct Hne as [Hne _]. destruct (Hag a Hne) as [-> ->]. simpl. by rewrite !(lookup_insert_ne _ n).
  - apply NoDup_cons in Hnd as [Hnl Hnd]. apply NoDup_app in Hnd as (_ & Hd & Hnd2).
    apply NoDup_cons in Hnd2 as [Hn2 _]. apply elem_of_cons in Ha as [->|[Ha|Ha]%elem_of_app]; [set_solver|by apply (Hd n); [|left]|done].
Qed.

(** ** Running a section alone *)

(** [W]: the headers whose [next] and [pool_ptr] may be written. *)
Definition may_write (W : Z -> Prop) (x : place) : Prop :=
  match x with Next p | PoolPtr p => W p | _ => True end.

(** [p], with the lock held, runs from [s] to its end; [Q] holds there. *)
Fixpoint srun {A} (W : Z -> Prop) (p : prog A) (s : hstate) (Q : A -> hstate -> Prop) : Prop :=
  match p with
  | Done a => Q a s
  | Get x k => exists v, hget x s = Some v /\ srun W (k v) s Q
  | Put x v k => may_write W x /\ exists s', hput x v s = Some s' /\ srun W k s' Q
  | _ => False
  end.

Section Srun.
Context (W : Z -> Prop).

Lemma srun_bind {A B} (p : prog A) (k : A -> prog B) Q : forall s,
  srun W (p ≫= k) s Q <-> srun W p s (fun a s' => srun W (k a) s' Q).
Proof.
  induction p as [a|x c IH|x v c IH|a c IH|a v c IH|h c IH|h c IH|]; intros s; simpl; try done.
  - split; intros (v & ? & H); exists v; (split; [done|]); by apply IH.
  - split; intros (? & s' & ? & H); (split; [done|]); exists s'; (split; [done|]); by apply IH.
Qed.

Lemma srun_mono {A} (p : prog A) (Q Q' : A -> hstate -> Prop) : forall s,
  srun W p s Q -> (forall a s', Q a s' -> Q' a s') -> srun W p s Q'.
Proof.
  induction p as [a|x c IH|x v c IH|a c IH|a v c IH|h c IH|h c IH|]; intros s H HQ; simpl in *; try done; [by apply HQ| |].
  - destruct H as (v & ? & H). exists v. split; [done|]. by eapply IH.
  - destruct H as (? & s' & ? & H). split; [done|]. exists s'. split; [done|]. by eapply IH.
Qed.

(** The rule of a call: the postcondition of [p] leads to that of the rest. *)
Lemma srun_call {A B} (p : prog A) (k : A -> prog B) R Q s :
  srun W p s R -> (forall a s', R a s' -> srun W (k a) s' Q) -> srun W (p ≫= k) s Q.
Proof. intros Hp Hk. apply srun_bind. by eapply srun_mono. Qed.

Lemma srun_get {B} x v (k : Z -> prog B) Q s : hget x s = Some v -> srun W (k v) s Q -> srun W (get x ≫= k) s Q.
Proof. intros. simpl. eauto. Qed.

Lemma srun_put {B} x v (k : unit -> prog B) Q s s' :
  may_write W x -> hput x v s = Some s' -> srun W (k tt) s' Q -> srun W (put x v ≫= k) s Q.
Proof. intros. simpl. eauto. Qed.

Lemma srun_put_last x v Q s s' : may_write W x -> hput x v s = Some s' -> Q tt s' -> srun W (put x v) s Q.
Proof. intros. simpl. eauto. Qed.
End Srun.

(** ** The blocks of a heap *)

Implicit Types (bs : list (bool * Z)).

(** The addresses of the headers of [bs] from [off] on, those of the free blocks,
    and the user areas of the used ones. *)
Fixpoint addrs (off : Z) bs : list Z := match bs with [] => [] | (_, n) :: bs => off :: addrs (off + n) bs end.
Fixpoint free_addrs (off : Z) bs : list Z :=
  match bs with [] => [] | (u, n) :: bs => (if u : bool then [] else [off]) ++ free_addrs (off + n) bs end.
Fixpoint payloads (off : Z) bs : list (Z * Z) :=
  match bs with [] => [] | (u, n) :: bs => (if u : bool then [(off + 24, n - 24)] else []) ++ payloads (off + n) bs end.
(** The bytes of the free blocks, without headers. *)
Fixpoint free_sum bs : Z := match bs with [] => 0 | (u, n) :: bs => (if u : bool then 0 else n - 24) + free_sum bs end.

(** The marks in the headers. *)
Fixpoint marked (mg pl : gmap Z Z) (h off : Z) bs : Prop :=
  match bs with
  | [] => True
  | (u, n) :: bs => mg !! off = Some (RT_MEMHEAP_MAGIC + Z.b2z u) /\ pl !! off = Some h /\ marked mg pl h (off + n) bs
  end.

(** Blocks hold a header and the smallest request. *)
Definition sized bs : Prop := Forall (fun b => 36 <= b.2 /\ b.2 mod 4 = 0) bs.

Lemma sized_total bs : sized bs -> 36 * Z.of_nat (length bs) <= total bs /\ total bs mod 4 = 0.
Proof. induction 1 as [|[u n] bs [Hn Ha] _ IH]; simpl in *; [done|]. split; [lia|dlia]. Qed.

Lemma addrs_app bs1 bs2 : forall off, addrs off (bs1 ++ bs2) = addrs off bs1 ++ addrs (off + total bs1) bs2.
Proof.
  induction bs1 as [|[u n] bs1 IH]; intros off; simpl; [by rewrite Z.add_0_r|]. rewrite IH. by rewrite Z.add_assoc.
Qed.
Lemma free_addrs_app bs1 bs2 : forall off, free_addrs off (bs1 ++ bs2) = free_addrs off bs1 ++ free_addrs (off + total bs1) bs2.
Proof.
  induction bs1 as [|[u n] bs1 IH]; intros off; simpl; [by rewrite Z.add_0_r|]. rewrite IH, <-app_assoc. by rewrite Z.add_assoc.
Qed.
Lemma payloads_app bs1 bs2 : forall off, payloads off (bs1 ++ bs2) = payloads off bs1 ++ payloads (off + total bs1) bs2.
Proof.
  induction bs1 as [|[u n] bs1 IH]; intros off; simpl; [by rewrite Z.add_0_r|]. rewrite IH, <-app_assoc. by rewrite Z.add_assoc.
Qed.
Lemma free_sum_app bs1 bs2 : free_sum (bs1 ++ bs2) = free_sum bs1 + free_sum bs2.
Proof. induction bs1 as [|[u n] bs1 IH]; simpl; lia. Qed.
Lemma free_sum_bound bs : sized bs -> 0 <= free_sum bs <= total bs.
Proof. induction 1 as [|[u n] bs [Hn _] _ IH]; simpl in *; [lia|]. destruct u; lia. Qed.

Lemma addrs_bound bs : sized bs -> forall off, Forall (fun a => off <= a /\ a + 36 <= off + total bs) (addrs off bs).
Proof.
  intros Hs. pose proof (sized_total) as Ht. induction Hs as [|[u n] bs [Hn _] Hs IH]; intros off; simpl in *; [constructor|].
  destruct (Ht _ Hs) as [Hp _]. constructor; [lia|]. eapply Forall_impl; [apply IH|]. simpl. lia.
Qed.

Lemma addrs_NoDup bs : sized bs -> forall off, NoDup (addrs off bs).
Proof.
  induction 1 as [|[u n] bs [Hn _] Hs IH]; intros off; simpl in *; constructor; [|apply IH].
  intros Hin. pose proof (addrs_bound bs Hs (off + n)) as Hb. rewrite Forall_forall in Hb. apply Hb in Hin. lia.
Qed.

Lemma free_addrs_sub bs a : forall off, a ∈ free_addrs off bs -> a ∈ addrs off bs.
Proof.
  induction bs as [|[u n] bs IH]; intros off; simpl; [done|]. rewrite elem_of_app, elem_of_cons. destruct u; [set_solver|].
  intros [->%list_elem_of_singleton|]; auto.
Qed.

Lemma free_addrs_NoDup bs : sized bs -> forall off, NoDup (free_addrs off bs).
Proof.
  induction 1 as [|[u n] bs [Hn _] Hs IH]; intros off; simpl in *; [constructor|]. destruct u; [apply IH|]. simpl. constructor; [|apply IH].
  intros Hin%free_addrs_sub. pose proof (addrs_bound bs Hs (off + n)) as Hb. rewrite Forall_forall in Hb. apply Hb in Hin. lia.
Qed.

Lemma free_addrs_inv bs a : forall off, a ∈ free_addrs off bs ->
  exists bs1 n bs2, bs = bs1 ++ (false, n) :: bs2 /\ a = off + total bs1.
Proof.
  induction bs as [|[u n] bs IH]; intros off; simpl; [by intros ?%elem_of_nil|]. rewrite elem_of_app. intros [H|H].
  - destruct u; [by apply elem_of_nil in H|]. apply list_elem_of_singleton in H as ->. exists [], n, bs. simpl. split; [done|lia].
  - destruct (IH _ H) as (bs1 & n' & bs2 & -> & ->). exists ((u, n) :: bs1), n', bs2. simpl. split; [done|lia].
Qed.

Lemma payloads_inv bs q l : forall off, (q, l) ∈ payloads off bs ->
  exists bs1 bs2, bs = bs1 ++ (true, l + 24) :: bs2 /\ q = off + total bs1 + 24.
Proof.
  induction bs as [|[u n] bs IH]; intros off; simpl; [by intros ?%elem_of_nil|]. rewrite elem_of_app. intros [H|H].
  - destruct u; [|by apply elem_of_nil in H]. apply list_elem_of_singleton in H. injection H as -> ->.
    exists [], bs. simpl. split; [do 2 f_equal; lia|lia].
  - destruct (IH _ H) as (bs1 & bs2 & -> & ->). exists ((u, n) :: bs1), bs2. simpl. split; [done|lia].
Qed.

Lemma payloads_bound bs : sized bs -> forall off,
  Forall (fun a => off + 24 <= a.1 /\ 12 <= a.2 /\ a.1 + a.2 <= off + total bs) (payloads off bs).
Proof.
  induction 1 as [|[u n] bs [Hn _] Hs IH]; intros off; simpl in *; [constructor|]. destruct (sized_total _ Hs) as [Hp _].
  apply Forall_app. split.
  - destruct u; [|constructor]. constructor; [simpl; lia|constructor].
  - eapply Forall_impl; [apply IH|]. simpl. lia.
Qed.

Lemma payloads_aligned bs : sized bs -> forall off, off mod 4 = 0 -> Forall (fun a => a.1 mod 4 = 0) (payloads off bs).
Proof.
  induction 1 as [|[u n] bs [_ Hn] Hs IH]; intros off Ho; simpl in *; [constructor|]. apply Forall_app. split.
  - destruct u; [|constructor]. constructor; [simpl; dlia|constructor].
  - apply IH. dlia.
Qed.

Lemma marked_app mg pl h bs1 bs2 : forall off,
  marked mg pl h off (bs1 ++ bs2) <-> marked mg pl h off bs1 /\ marked mg pl h (off + total bs1) bs2.
Proof.
  induction bs1 as [|[u n] bs1 IH]; intros off; simpl; [rewrite Z.add_0_r; tauto|]. rewrite IH, Z.add_assoc. tauto.
Qed.

Lemma marked_ext mg pl mg' pl' h bs : forall off,
  (forall a, a ∈ addrs off bs -> mg' !! a = mg !! a /\ pl' !! a = pl !! a) ->
  marked mg pl h off bs -> marked mg' pl' h off bs.
Proof.
  induction bs as [|[u n] bs IH]; intros off He; simpl in *; [done|]. intros (H1 & H2 & H3).
  destruct (He off) as [-> ->]; [by left|]. splits; try done. apply IH; [|done]. intros a Ha. apply He. by right.
Qed.

Lemma cyc_unlink (h : list_heap Z) pre x y post h' :
  NoDup (pre ++ x :: y :: post) -> cyc h (pre ++ x :: y :: post) ->
  exists z, nx h !! y = Some z /\ z ∈ pre ++ x :: post /\
    (nx h' = <[x := z]> (nx h) -> pv h' = <[z := x]> (pv h) -> cyc h' (pre ++ x :: post)).
Proof.
  intros Hnd Hc. apply cyc_focus in Hc. simpl in Hc.
  destruct Hc as [[Hx Hp] Hs]. assert (exists z, nx h !! y = Some z /\ z ∈ pre ++ x :: post) as (z & Hz & Hzin).
  { destruct (post ++ pre) as [|z l] eqn:E; simpl in Hs.
    - destruct Hs as [Hs _]. exists x. split; [done|]. set_solver.
    - destruct Hs as [[Hs _] _]. exists z. split; [done|]. assert (z ∈ post ++ pre) by (rewrite E; by left). set_solver. }
  exists z. splits; try done. intros En Ep. apply cyc_focus.
  apply (ring_unlink h x [] y (post ++ pre) z x h'); try done; [|intros a Ha; by rewrite En, Ep].
  simpl. eapply NoDup_Permutation_proper; [|exact Hnd]. solve_Permutation.
Qed.

Lemma cyc_insert (h : list_heap Z) pre x post n y :
  NoDup (n :: pre ++ x :: post) -> cyc h (pre ++ x :: post) -> nx h !! x = Some y ->
  cyc (LHeap (<[x := n]> (<[n := y]> (nx h))) (<[y := n]> (<[n := x]> (pv h)))) (pre ++ x :: n :: post) /\
  y ∈ pre ++ x :: post.
Proof.
  rewrite !cyc_focus. intros Hnd Hr Hy. split.
  - simpl. apply ring_link_after; try done. eapply NoDup_Permutation_proper; [|exact Hnd]. solve_Permutation.
  - destruct (ring_first _ _ _ Hr) as [E _]. rewrite Hy in E. injection E as ->.
    pose proof (first_of_elem x (post ++ pre)). set_solver.
Qed.

Lemma find_free_eq fuel heap size x fs :
  find_free fuel heap size x fs =
    (fl ← get (FreeList heap);
     if negb (x =? fl) && (fs <? size) then
       match fuel with
       | O => Stuck
       | S fuel => fs ← MEMITEM_SIZE x; x ← (if fs <? size then get (NextFree x) else mret x); find_free fuel heap size x fs
       end
     else mret (x, fs)).
Proof. by destruct fuel. Qed.

(** ** The parts of the sections *)

Section Parts.
Context (heap base psize : Z) (W : Z -> Prop).

(** The fields no call changes. *)
Definition consts (s : hstate) : Prop :=
  mh_addr (hs_heap s) = heap /\ start_addr (hs_heap s) = base /\ pool_size (hs_heap s) = psize /\
  free_list (hs_heap s) = free_header heap.
(** Addresses of headers. *)
Definition headers (l : list Z) : Prop := Forall (fun p => base <= p /\ p + 24 <= base + psize \/ p = free_header heap) l.

Lemma in_pool_true s p : consts s -> base <= p /\ p + 24 <= base + psize \/ p = free_header heap -> in_pool s p = true.
Proof.
  intros (E1 & E2 & E3 & _) H. unfold in_pool. rewrite E1, E2, E3. apply orb_true_iff.
  destruct H as [[H1 H2]| ->]; [left; rewrite andb_true_iff, !Z.leb_le; lia|right; apply Z.eqb_refl].
Qed.
Lemma headers_in l p : headers l -> p ∈ l -> forall s, consts s -> in_pool s p = true.
Proof. intros Hl Hp s Hc. apply in_pool_true; [done|]. unfold headers in Hl. rewrite Forall_forall in Hl. by apply Hl. Qed.

Lemma hget_free_list s : consts s -> hget (FreeList heap) s = Some (free_header heap).
Proof. intros (E1 & _ & _ & E4). simpl. by rewrite E1, Z.eqb_refl, E4. Qed.
Lemma hget_available s : consts s -> hget (AvailableSize heap) s = Some (available_size (hs_heap s)).
Proof. intros (E1 & _). simpl. by rewrite E1, Z.eqb_refl. Qed.

Lemma unlink_free_spec s F1 x F2 :
  consts s -> headers (free_header heap :: F1 ++ x :: F2) -> NoDup (free_header heap :: F1 ++ x :: F2) ->
  ring (hs_fl s) (free_header heap) (F1 ++ x :: F2) ->
  srun W (unlink_free x) s (fun _ s' => exists fl, s' = set_fl fl s /\ ring fl (free_header heap) (F1 ++ F2)).
Proof.
  intros Hc Hh Hnd Hr. set (fh := free_header heap) in *.
  assert (ring (hs_fl s) x (F2 ++ fh :: F1)) as Hr' by by apply ring_rotate.
  destruct (ring_first _ _ _ Hr') as [Hn _]. destruct (ring_last _ _ _ Hr') as [_ Hp].
  set (nn := first_of x (F2 ++ fh :: F1)) in *. set (np := last_of x (F2 ++ fh :: F1)) in *.
  assert (nn ∈ F2 ++ fh :: F1 /\ np ∈ F2 ++ fh :: F1) as [Hnin Hpin].
  { unfold nn, np, first_of, last_of. split.
    - destruct F2; simpl; [by left|by left].
    - destruct (last (F2 ++ fh :: F1)) eqn:E; [by apply last_Some_elem_of|]. apply last_None in E. by destruct F2. }
  assert (nn <> x) as Hne.
  { intros E. rewrite E in Hnin. apply NoDup_cons in Hnd as [Hf Hnd]. apply NoDup_app in Hnd as (_ & Hd & Hnd2).
    apply NoDup_cons in Hnd2 as [Hx _]. apply elem_of_app in Hnin as [?|[->|?]%elem_of_cons]; [done|set_solver|].
    apply (Hd x); [done|by left]. }
  unfold unlink_free. eapply srun_get; [exact Hn|]. eapply srun_get; [exact Hp|].
  eapply srun_put; [done| |].
  { simpl. rewrite (headers_in _ nn Hh); [done|set_solver|done]. }
  eapply srun_get; [simpl; rewrite lookup_insert_ne by done; exact Hp|]. eapply srun_get; [exact Hn|].
  eapply srun_put_last; [done| |].
  { simpl. rewrite (headers_in _ np Hh); [done|set_solver|done]. }
  eexists. split; [done|]. by eapply (ring_unlink (hs_fl s)).
Qed.

Lemma clear_free_spec s x F :
  consts s -> headers [x] -> x <> free_header heap -> x ∉ F -> ring (hs_fl s) (free_header heap) F ->
  srun W (clear_free x) s (fun _ s' => exists fl, s' = set_fl fl s /\ ring fl (free_header heap) F).
Proof.
  intros Hc Hh Hx HF Hr. assert (forall s, consts s -> in_pool s x = true) as Hin by (apply (headers_in _ x Hh); by left).
  unfold clear_free. eapply srun_put; [done|simpl; by rewrite Hin by done|].
  eapply srun_put_last; [done|simpl; by rewrite Hin by done|].
  eexists. split; [done|]. eapply (ring_agrees [x]); [|intros a Ha ->%list_elem_of_singleton; set_solver|exact Hr].
  intros a Ha. simpl. rewrite !lookup_insert_ne; set_solver.
Qed.

Lemma link_free_spec s x F :
  consts s -> headers (free_header heap :: x :: F) -> NoDup (x :: free_header heap :: F) ->
  ring (hs_fl s) (free_header heap) F ->
  srun W (link_free heap x) s (fun _ s' => exists fl, s' = set_fl fl s /\ ring fl (free_header heap) (x :: F)).
Proof.
  intros Hc Hh Hnd Hr. set (fh := free_header heap) in *. destruct (ring_first _ _ _ Hr) as [Hn _].
  set (y := first_of fh F) in *. assert (y ∈ fh :: F) as Hy by apply first_of_elem.
  assert (x <> fh /\ y <> x) as [Hxf Hyx] by (apply NoDup_cons in Hnd as [? _]; split; [set_solver|intros ->; set_solver]).
  assert (forall p, p ∈ [x; y; fh] -> forall s, consts s -> in_pool s p = true) as Hin.
  { intros p Hp. apply (headers_in _ p Hh). set_solver. }
  unfold link_free. eapply srun_get; [by apply hget_free_list|]. eapply srun_get; [exact Hn|].
  eapply srun_put; [done|simpl; rewrite Hin by (set_solver || done); done|]. eapply srun_get; [by apply hget_free_list|].
  eapply srun_put; [done|simpl; rewrite Hin by (set_solver || done); done|].
  eapply srun_get; [by apply hget_free_list|].
  eapply srun_get; [simpl; rewrite lookup_insert_ne by done; exact Hn|].
  eapply srun_put; [done|simpl; rewrite Hin by (set_solver || done); done|].
  eapply srun_get; [by apply hget_free_list|].
  eapply srun_put_last; [done|simpl; rewrite Hin by (set_solver || done); done|].
  eexists. split; [done|]. simpl. by apply ring_link_after.
Qed.

(** The new header carries the marks of a free block. *)
Lemma insert_item_spec s pre hd post n :
  consts s -> headers (n :: pre ++ hd :: post) -> NoDup (n :: pre ++ hd :: post) ->
  cyc (hs_blk s) (pre ++ hd :: post) -> W hd -> W n ->
  srun W (insert_item heap hd n) s (fun _ s' => exists blk,
    s' = HState (hs_heap s) (<[n := RT_MEMHEAP_MAGIC]> (hs_magic s)) (<[n := heap]> (hs_pool s)) blk (hs_fl s) /\
    cyc blk (pre ++ hd :: n :: post)).
Proof.
  intros Hc Hh Hnd Hr Hwh Hwn.
  assert (exists y, nx (hs_blk s) !! hd = Some y) as [y Hy].
  { apply cyc_focus in Hr. destruct (ring_first _ _ _ Hr) as [? _]. eauto. }
  destruct (cyc_insert (hs_blk s) pre hd post n y Hnd Hr Hy) as [Hcyc Hyin].
  assert (n <> hd) as Hne by (intros ->; apply NoDup_cons in Hnd as [Hn _]; set_solver).
  assert (forall p, p ∈ [n; y; hd] -> forall s, consts s -> in_pool s p = true) as Hin.
  { intros p Hp. apply (headers_in _ p Hh). set_solver. }
  unfold insert_item. do 3 (eapply srun_put; [done|simpl; rewrite Hin by (set_solver || done); done|]).
  eapply srun_get; [exact Hy|]. eapply srun_put; [done|simpl; rewrite Hin by (set_solver || done); done|].
  eapply srun_get; [simpl; rewrite lookup_insert_ne by done; exact Hy|].
  eapply srun_put; [done|simpl; rewrite Hin by (set_solver || done); done|].
  eapply srun_put_last; [done|simpl; rewrite Hin by (set_solver || done); done|].
  eexists. split; [reflexivity|]. exact Hcyc.
Qed.

(** Block [y], behind [x], leaves the ring: three ways the code writes it. *)
Lemma merge_right_spec s pre x y post :
  consts s -> headers (pre ++ x :: y :: post) -> NoDup (pre ++ x :: y :: post) ->
  cyc (hs_blk s) (pre ++ x :: y :: post) -> W x ->
  srun W (merge_right x y) s (fun _ s' => exists blk, s' = set_blk blk s /\ cyc blk (pre ++ x :: post)).
Proof.
  intros Hc Hh Hnd Hr Hw.
  destruct (cyc_unlink (hs_blk s) pre x y post
    (LHeap (<[x := default 0 (nx (hs_blk s) !! y)]> (nx (hs_blk s))) (<[default 0 (nx (hs_blk s) !! y) := x]> (pv (hs_blk s)))) Hnd Hr)
    as (z & Hz & Hzin & Hcyc).
  assert (forall p, p ∈ [z; x] -> forall s, consts s -> in_pool s p = true) as Hin.
  { intros p Hp. apply (headers_in _ p Hh). set_solver. }
  unfold merge_right. eapply srun_get; [exact Hz|]. eapply srun_put; [done|simpl; rewrite Hin by (set_solver || done); done|].
  eapply srun_get; [exact Hz|]. eapply srun_put_last; [done|simpl; rewrite Hin by (set_solver || done); done|].
  eexists. split; [reflexivity|]. rewrite Hz in Hcyc. by apply Hcyc.
Qed.

Lemma merge_left_spec s pre x y post :
  consts s -> headers (pre ++ x :: y :: post) -> NoDup (pre ++ x :: y :: post) ->
  cyc (hs_blk s) (pre ++ x :: y :: post) -> W x ->
  srun W (merge_left y) s (fun _ s' => exists blk, s' = set_blk blk s /\ cyc blk (pre ++ x :: post) /\ pv blk !! y = Some x).
Proof.
  intros Hc Hh Hnd Hr Hw. destruct (cyc_link _ _ _ _ _ Hr) as [_ Hpv].
  destruct (cyc_unlink (hs_blk s) pre x y post
    (LHeap (<[x := default 0 (nx (hs_blk s) !! y)]> (nx (hs_blk s))) (<[default 0 (nx (hs_blk s) !! y) := x]> (pv (hs_blk s)))) Hnd Hr)
    as (z & Hz & Hzin & Hcyc). rewrite Hz in Hcyc. simpl in Hcyc.
  assert (x <> y /\ z <> y) as [Hxy Hzy].
  { assert (y ∉ pre ++ x :: post) as Hy; [|split; [intros ->; set_solver|by intros ->]].
    assert (NoDup (y :: pre ++ x :: post)) as [? _]%NoDup_cons; [|done].
    eapply NoDup_Permutation_proper; [|exact Hnd]. solve_Permutation. }
  assert (forall p, p ∈ [z; x] -> forall s, consts s -> in_pool s p = true) as Hin.
  { intros p Hp. apply (headers_in _ p Hh). set_solver. }
  unfold merge_left. eapply srun_get; [exact Hpv|]. eapply srun_get; [exact Hz|].
  eapply srun_put; [done|simpl; rewrite Hin by (set_solver || done); done|].
  eapply srun_get; [simpl; rewrite lookup_insert_ne by done; exact Hz|]. eapply srun_get; [exact Hpv|].
  eapply srun_put_last; [done|simpl; rewrite Hin by (set_solver || done); done|].
  eexists. split; [reflexivity|]. split; [by apply Hcyc|]. simpl. by rewrite lookup_insert_ne.
Qed.

Lemma unlink_item_spec s pre x y post :
  consts s -> headers (pre ++ x :: y :: post) -> NoDup (pre ++ x :: y :: post) ->
  cyc (hs_blk s) (pre ++ x :: y :: post) -> W x ->
  srun W (unlink_item y) s (fun _ s' => exists blk, s' = set_blk blk s /\ cyc blk (pre ++ x :: post)).
Proof.
  intros Hc Hh Hnd Hr Hw. destruct (cyc_link _ _ _ _ _ Hr) as [_ Hpv].
  destruct (cyc_unlink (hs_blk s) pre x y post
    (LHeap (<[x := default 0 (nx (hs_blk s) !! y)]> (nx (hs_blk s))) (<[default 0 (nx (hs_blk s) !! y) := x]> (pv (hs_blk s)))) Hnd Hr)
    as (z & Hz & Hzin & Hcyc). rewrite Hz in Hcyc. simpl in Hcyc.
  assert (z <> y) as Hzy.
  { intros ->. assert (NoDup (y :: pre ++ x :: post)) as [? _]%NoDup_cons; [|done].
    eapply NoDup_Permutation_proper; [|exact Hnd]. solve_Permutation. }
  assert (forall p, p ∈ [z; x] -> forall s, consts s -> in_pool s p = true) as Hin.
  { intros p Hp. apply (headers_in _ p Hh). set_solver. }
  unfold unlink_item. eapply srun_get; [exact Hz|]. eapply srun_get; [exact Hpv|].
  eapply srun_put; [done|simpl; rewrite Hin by (set_solver || done); done|].
  eapply srun_get; [simpl; rewrite lookup_insert_ne by done; exact Hpv|]. eapply srun_get; [exact Hz|].
  eapply srun_put_last; [done|simpl; rewrite Hin by (set_solver || done); done|].
  eexists. split; [reflexivity|]. by apply Hcyc.
Qed.

(** *** The counters *)

Lemma add_available_spec s n :
  consts s ->
  srun W (add_available heap n) s (fun _ s' =>
    s' = set_heap (set_available (u32 (available_size (hs_heap s) + n)) (hs_heap s)) s).
Proof.
  intros Hc. unfold add_available. eapply srun_get; [by apply hget_available|].
  eapply srun_put_last; [done|simpl; destruct Hc as (-> & _); by rewrite Z.eqb_refl|done].
Qed.

Lemma count_max_spec s :
  consts s -> is_u32 (max_used_size (hs_heap s)) ->
  srun W (count_max heap) s (fun _ s' => exists m, s' = set_heap (set_max_used m (hs_heap s)) s /\ is_u32 m /\
    u32 (psize - available_size (hs_heap s)) <= m).
Proof.
  intros (E1 & E2 & E3 & E4) Hm. unfold count_max.
  do 3 (eapply srun_get; [simpl; by rewrite E1, Z.eqb_refl|]). rewrite E3. case_match eqn:E.
  - do 2 (eapply srun_get; [simpl; by rewrite E1, Z.eqb_refl|]).
    eapply srun_put_last; [done|simpl; by rewrite E1, Z.eqb_refl|]. eexists. split; [done|].
    rewrite E3. split; [apply u32_range|lia].
  - simpl. exists (max_used_size (hs_heap s)). apply Z.ltb_ge in E. split; [by destruct s as [[]]|]. done.
Qed.

(** *** Reading the size and the mark of a block *)

Lemma memitem_size_spec s x n Q :
  nx (hs_blk s) !! x = Some (x + n) -> 24 <= n < 4294967296 -> Q (n - 24) s -> srun W (MEMITEM_SIZE x) s Q.
Proof.
  intros Hn Hb HQ. unfold MEMITEM_SIZE. eapply srun_get; [exact Hn|]. simpl.
  replace (x + n - x) with n by lia. rewrite (u32_small n) by (unfold is_u32; lia). change RT_MEMHEAP_SIZE with 24.
  by rewrite u32_small by (unfold is_u32; lia).
Qed.

Lemma is_used_spec s x (u : bool) Q :
  hs_magic s !! x = Some (RT_MEMHEAP_MAGIC + Z.b2z u) -> Q u s -> srun W (RT_MEMHEAP_IS_USED x) s Q.
Proof.
  intros Hm HQ. unfold RT_MEMHEAP_IS_USED. eapply srun_get; [exact Hm|]. simpl.
  replace (negb (Z.land (RT_MEMHEAP_MAGIC + Z.b2z u) RT_MEMHEAP_USED =? 0)) with u by (by destruct u). done.
Qed.
End Parts.

(** ** The invariant *)

(** Where the pool and the object lie. *)
Definition layout (heap base psize : Z) : Prop :=
  0 < base /\ base mod 4 = 0 /\ base + psize <= 4294967296 /\ 0 < heap /\
  (free_header heap + 24 <= base \/ base + psize <= free_header heap).

(** The pool holds the blocks [bs] and an empty used one at its end; [F] is the
    free list. *)
Record mh_wf (heap base psize : Z) (s : hstate) bs (F : list Z) : Prop := {
  mw_const : consts heap base psize s;
  mw_sized : sized bs;
  mw_some : bs <> [];
  mw_total : psize = total bs + 24;
  mw_adj : no_adjacent bs;
  mw_blk : cyc (hs_blk s) (addrs base bs ++ [base + total bs]);
  mw_free : ring (hs_fl s) (free_header heap) F;
  mw_list : F ≡ₚ free_addrs base bs;
  mw_marks : marked (hs_magic s) (hs_pool s) heap base bs;
  mw_tail : hs_magic s !! (base + total bs) = Some (RT_MEMHEAP_MAGIC + 1);
  mw_avail : available_size (hs_heap s) = free_sum bs;
  mw_max : is_u32 (max_used_size (hs_heap s)) /\ psize - free_sum bs <= max_used_size (hs_heap s);
}.

Lemma addrs_tail bs off : exists l, addrs off bs ++ [off + total bs] = off :: l.
Proof. destruct bs as [|[u n] bs]; simpl; [exists []; by rewrite Z.add_0_r|eauto]. Qed.

(** A block of the list, and the addresses around it. *)
Lemma addrs_focus base bs1 u n bs2 :
  addrs base (bs1 ++ (u, n) :: bs2) ++ [base + total (bs1 ++ (u, n) :: bs2)] =
  addrs base bs1 ++ (base + total bs1) :: addrs (base + total bs1 + n) bs2 ++ [base + total bs1 + n + total bs2].
Proof.
  rewrite addrs_app, total_app, <-app_assoc. simpl. replace (base + (total bs1 + (n + total bs2))) with (base + total bs1 + n + total bs2) by lia. done.
Qed.

(** A payload that starts inside a block is that of the block. *)
Lemma payload_at bs1 u n bs2 base x l :
  sized (bs1 ++ (u, n) :: bs2) -> base + total bs1 <= x < base + total bs1 + n ->
  (x + 24, l) ∈ payloads base (bs1 ++ (u, n) :: bs2) -> u = true /\ x = base + total bs1 /\ l = n - 24.
Proof.
  intros [Hs1 [_ Hs2]%Forall_cons]%Forall_app Hx. rewrite payloads_app. simpl. rewrite !elem_of_app.
  pose proof (payloads_bound bs1 Hs1 base) as H1. pose proof (payloads_bound bs2 Hs2 (base + total bs1 + n)) as H2.
  rewrite Forall_forall in H1, H2. intros [H|[H|H]].
  - apply H1 in H. simpl in H. lia.
  - destruct u; [|by apply elem_of_nil in H]. apply list_elem_of_singleton in H. injection H as ? ->. splits; [done|lia|done].
  - apply H2 in H. simpl in H. lia.
Qed.

Section Sections.
Context (heap base psize : Z) (Hlay : layout heap base psize).
Notation fh := (free_header heap).
Notation wf := (mh_wf heap base psize).

(** The places of any blocks that fill the pool. *)
Lemma block_places bs :
  sized bs -> psize = total bs + 24 -> headers heap base psize (fh :: addrs base bs ++ [base + total bs]) /\
    NoDup (fh :: addrs base bs ++ [base + total bs]) /\ forall p, base <= p <= base + total bs -> p <> fh.
Proof using Hlay.
  intros Hs Ht. pose proof (addrs_bound bs Hs base) as Hb. rewrite Forall_forall in Hb.
  destruct Hlay as (? & ? & ? & ? & Hf). destruct (sized_total _ Hs) as [Hp _].
  assert (forall p, base <= p <= base + total bs -> p <> fh) as Hne by (intros; lia). splits; [| |done].
  - constructor; [by right|]. apply Forall_app. split; [|constructor; [left; lia|constructor]].
    apply Forall_forall. intros p Hin%Hb. left. lia.
  - constructor.
    + intros [Hin%Hb|Hin%list_elem_of_singleton]%elem_of_app; lia.
    + apply NoDup_app. splits; [by apply addrs_NoDup| |apply NoDup_singleton].
      intros p Hin%Hb Hin2%list_elem_of_singleton. lia.
Qed.

Lemma wf_places s bs F :
  wf s bs F -> headers heap base psize (fh :: addrs base bs ++ [base + total bs]) /\
    NoDup (fh :: addrs base bs ++ [base + total bs]) /\ forall p, base <= p <= base + total bs -> p <> fh.
Proof using Hlay. intros Hw. apply block_places; apply Hw. Qed.

Lemma wf_next s bs1 u n bs2 F :
  wf s (bs1 ++ (u, n) :: bs2) F -> nx (hs_blk s) !! (base + total bs1) = Some (base + total bs1 + n) /\
    pv (hs_blk s) !! (base + total bs1 + n) = Some (base + total bs1).
Proof.
  intros Hw. pose proof (mw_blk _ _ _ _ _ _ Hw) as Hb. rewrite addrs_focus in Hb.
  destruct (addrs_tail bs2 (base + total bs1 + n)) as [l El]. rewrite El in Hb. by apply cyc_link in Hb.
Qed.

Lemma wf_range s bs1 u n bs2 F :
  wf s (bs1 ++ (u, n) :: bs2) F ->
  sized bs1 /\ 36 <= n /\ n mod 4 = 0 /\ sized bs2 /\ 0 <= total bs1 /\ total bs1 mod 4 = 0 /\ 0 <= total bs2 /\ total bs2 mod 4 = 0 /\
  psize = total bs1 + n + total bs2 + 24 /\ 0 < base /\ base + psize <= 4294967296.
Proof using Hlay.
  intros Hw. pose proof (mw_total _ _ _ _ _ _ Hw) as Ht. rewrite total_app in Ht. simpl in Ht. destruct Hlay as (? & ? & ? & _).
  pose proof (mw_sized _ _ _ _ _ _ Hw) as [Hs1 [[Hn1 Hn2] Hs2]%Forall_cons]%Forall_app. simpl in *.
  destruct (sized_total _ Hs1). destruct (sized_total _ Hs2). splits; try done; lia.
Qed.

Lemma find_free_spec W size s bs F : wf s bs F -> forall F2 F1 fuel free_size,
  F = F1 ++ F2 -> free_size < size -> (length F2 <= fuel)%nat ->
  srun W (find_free fuel heap size (first_of fh F2) free_size) s (fun r s' => s' = s /\
    (r.2 < size \/ exists bs1 n bs2, bs = bs1 ++ (false, n) :: bs2 /\ r = (base + total bs1, n - 24) /\ size <= n - 24)).
Proof using Hlay.
  intros Hw. destruct (wf_places s bs F Hw) as (Hh & Hnd & Hfh). pose proof (mw_const _ _ _ _ _ _ Hw) as Hc.
  induction F2 as [|x F2 IH]; intros F1 fuel free_size HF Hlt Hfuel.
  - rewrite find_free_eq. eapply srun_get; [by eapply hget_free_list|]. unfold first_of. simpl. rewrite Z.eqb_refl. simpl. auto.
  - assert (x ∈ free_addrs base bs) as Hx by (rewrite <-(mw_list _ _ _ _ _ _ Hw), HF; set_solver).
    destruct (free_addrs_inv _ _ _ Hx) as (bs1 & n & bs2 & -> & ->).
    destruct (wf_range _ _ _ _ _ _ Hw) as (_ & Hn & _ & _ & H0 & _ & H2 & _ & Hps & Hb0 & Hb).
    destruct (wf_next _ _ _ _ _ _ Hw) as [Hnx _].
    destruct fuel as [|fuel]; [simpl in Hfuel; lia|]. rewrite find_free_eq. change (first_of fh (base + total bs1 :: F2)) with (base + total bs1).
    eapply srun_get; [by eapply hget_free_list|].
    rewrite (proj2 (Z.eqb_neq (base + total bs1) fh)), (proj2 (Z.ltb_lt _ _) Hlt) by (apply Hfh; rewrite total_app; simpl; lia). cbn [negb andb].
    apply srun_bind. apply (memitem_size_spec W s _ n); [done|lia|].
    destruct (Z.ltb_spec (n - 24) size) as [Hs|Hs].
    + assert (ring (hs_fl s) fh (F1 ++ base + total bs1 :: F2)) as Hr by (rewrite <-HF; apply Hw).
      apply ring_rotate in Hr. destruct (ring_first _ _ _ Hr) as [Hnf _].
      assert (first_of (base + total bs1) (F2 ++ fh :: F1) = first_of fh F2) as Ef by (by destruct F2).
      rewrite Ef in Hnf. eapply srun_get; [exact Hnf|]. apply (IH (F1 ++ [base + total bs1])); [by rewrite <-app_assoc|lia|simpl in Hfuel; lia].
    + cbn [mret prog_ret mbind prog_bind]. rewrite find_free_eq. eapply srun_get; [by eapply hget_free_list|].
      rewrite (proj2 (Z.ltb_ge _ _) Hs), andb_false_r. simpl. split; [done|]. right. eauto 6.
Qed.

(** Blocks [old] become blocks [mid] of the same total length. *)
Lemma wf_replace s s' bs1 old bs2 mid F F' :
  let x := base + total bs1 in let e := x + total old in
  wf s (bs1 ++ old ++ bs2) F -> total mid = total old -> mid <> [] -> sized mid -> consts heap base psize s' ->
  (forall a, a < x \/ e <= a -> hs_magic s' !! a = hs_magic s !! a /\ hs_pool s' !! a = hs_pool s !! a) ->
  marked (hs_magic s') (hs_pool s') heap x mid -> no_adjacent (bs1 ++ mid ++ bs2) ->
  cyc (hs_blk s') (addrs base bs1 ++ addrs x mid ++ addrs e bs2 ++ [e + total bs2]) ->
  ring (hs_fl s') fh F' -> F' ≡ₚ free_addrs base bs1 ++ free_addrs x mid ++ free_addrs e bs2 ->
  available_size (hs_heap s') = free_sum bs1 + free_sum mid + free_sum bs2 ->
  is_u32 (max_used_size (hs_heap s')) -> psize - available_size (hs_heap s') <= max_used_size (hs_heap s') ->
  wf s' (bs1 ++ mid ++ bs2) F'.
Proof.
  intros x e Hw Ht Hne Hsz Hc Hag Hmk Hadj Hcyc Hr Hp Hav Hm1 Hm2.
  pose proof (mw_sized _ _ _ _ _ _ Hw) as [Hs1 [Hso Hs2]%Forall_app]%Forall_app.
  pose proof (mw_total _ _ _ _ _ _ Hw) as Htot. rewrite !total_app in Htot.
  pose proof (mw_marks _ _ _ _ _ _ Hw) as Hmks. rewrite !marked_app in Hmks. destruct Hmks as (Hk1 & _ & Hk2).
  fold x e in Hk1, Hk2. destruct (sized_total _ Hs1) as [Hp1 _]. destruct (sized_total _ Hso) as [Hpo _]. destruct (sized_total _ Hs2) as [Hp2 _].
  split; try done.
  - unfold sized in *; by rewrite !Forall_app.
  - intros [_ [E _]%app_eq_nil]%app_eq_nil. done.
  - rewrite !total_app. lia.
  - rewrite !addrs_app, !total_app, Ht. fold x. fold e. rewrite <-!app_assoc.
    replace (base + (total bs1 + (total old + total bs2))) with (e + total bs2) by (unfold e, x; lia). done.
  - rewrite !free_addrs_app, Ht. done.
  - rewrite !marked_app, Ht. fold x. fold e. splits; [|done|].
    + eapply marked_ext; [|exact Hk1]. intros a Ha. apply Hag. left.
      pose proof (addrs_bound _ Hs1 base) as Hb. rewrite Forall_forall in Hb. apply Hb in Ha. unfold x. lia.
    + eapply marked_ext; [|exact Hk2]. intros a Ha. apply Hag. right.
      pose proof (addrs_bound _ Hs2 e) as Hb. rewrite Forall_forall in Hb. apply Hb in Ha. lia.
  - rewrite !total_app, Ht. destruct (Hag (base + (total bs1 + (total old + total bs2)))) as [-> _]; [right; unfold e, x; lia|].
    pose proof (mw_tail _ _ _ _ _ _ Hw) as Htl. by rewrite !total_app in Htl.
  - rewrite Hav, !free_sum_app. lia.
  - rewrite !free_sum_app. rewrite Hav in Hm2. split; [done|lia].
Qed.

(** The free list around a free block. *)
Lemma wf_free_split s bs1 n bs2 F :
  wf s (bs1 ++ (false, n) :: bs2) F -> exists F1 F2, F = F1 ++ (base + total bs1) :: F2 /\
    F1 ++ F2 ≡ₚ free_addrs base bs1 ++ free_addrs (base + total bs1 + n) bs2.
Proof.
  intros Hw. pose proof (mw_list _ _ _ _ _ _ Hw) as Hp. rewrite free_addrs_app in Hp. simpl in Hp.
  destruct (list_elem_of_split F (base + total bs1)) as (F1 & F2 & ->); [rewrite Hp; set_solver|].
  exists F1, F2. split; [done|]. apply (Permutation_cons_inv (a := base + total bs1)).
  rewrite Permutation_middle, Hp. by rewrite <-Permutation_middle.
Qed.

(** The free list with the header: distinct places. *)
Lemma wf_free_places s bs F : wf s bs F ->
  headers heap base psize (fh :: F) /\ NoDup (fh :: F) /\ forall a, a ∈ F -> a ∈ addrs base bs.
Proof using Hlay.
  intros Hw. destruct (wf_places s bs F Hw) as (Hh & Hnd & Hfh).
  assert (forall a, a ∈ F -> a ∈ addrs base bs) as Hsub.
  { intros a. rewrite (mw_list _ _ _ _ _ _ Hw). apply free_addrs_sub. }
  unfold headers in *. rewrite Forall_forall in Hh. apply NoDup_cons in Hnd as [Hn Hnd]. splits; [| |done].
  - apply Forall_forall. intros p [->|Hp]%elem_of_cons; [by right|]. apply Hh. set_solver.
  - constructor; [set_solver|]. rewrite (mw_list _ _ _ _ _ _ Hw). apply free_addrs_NoDup, Hw.
Qed.

(** The parts of the objects the free list and the counters do not share. *)
Lemma consts_fl s fl : consts heap base psize s -> consts heap base psize (set_fl fl s).
Proof. done. Qed.

Section Alloc.
Context (W : Z -> Prop) (s : hstate) (bs1 : list (bool * Z)) (n : Z) (bs2 : list (bool * Z)) (F : list Z).
Context (Hw : wf s (bs1 ++ (false, n) :: bs2) F).
Context (HW : forall y, (forall l, (y + 24, l) ∉ payloads base (bs1 ++ (false, n) :: bs2)) -> W y).
Notation x := (base + total bs1).
Notation taken s' := (set_magic (<[x := RT_MEMHEAP_MAGIC + 1]> (hs_magic s')) s').

Lemma alloc_may_write y : x <= y < x + n -> W y.
Proof using Hw HW. intros Hy. apply HW. intros l Hl. by apply payload_at in Hl as [? _]; [|apply Hw|]. Qed.

Lemma mark_x : hs_magic s !! x = Some RT_MEMHEAP_MAGIC /\ hs_pool s !! x = Some heap.
Proof using Hw.
  pose proof (mw_marks _ _ _ _ _ _ Hw) as Hm. rewrite marked_app in Hm. simpl in Hm. by destruct Hm as (_ & ? & ? & _).
Qed.

(** A place inside the block is on neither ring. *)
Lemma inside_fresh y : x < y < x + n ->
  y ∉ addrs base bs1 ++ x :: addrs (x + n) bs2 ++ [x + n + total bs2] /\ y <> fh /\ y ∉ F.
Proof using Hw Hlay.
  intros Hy. destruct (wf_range _ _ _ _ _ _ Hw) as (Hs1 & _ & _ & Hs2 & Ht1 & _ & Ht2 & _).
  destruct (wf_places _ _ _ Hw) as (_ & _ & Hfh). destruct (wf_free_places _ _ _ Hw) as (_ & _ & HsubF).
  assert (forall a, a ∈ addrs base (bs1 ++ (false, n) :: bs2) -> a <= x \/ x + n <= a) as Hout.
  { intros a. rewrite addrs_app. simpl. rewrite elem_of_app, elem_of_cons. pose proof (addrs_bound _ Hs1 base) as B1.
    pose proof (addrs_bound _ Hs2 (x + n)) as B2. rewrite Forall_forall in B1, B2. intros [H%B1|[->|H%B2]]; lia. }
  rewrite <-(addrs_focus base bs1 false n bs2). splits.
  - intros [Hin%Hout|Hin%list_elem_of_singleton]%elem_of_app; [lia|]. rewrite total_app in Hin. simpl in Hin. lia.
  - apply Hfh. rewrite total_app. simpl. lia.
  - intros Hin%HsubF%Hout. lia.
Qed.

Lemma available_spec : available_size (hs_heap s) = free_sum bs1 + (n - 24) + free_sum bs2 /\
  0 <= free_sum bs1 <= total bs1 /\ 0 <= free_sum bs2 <= total bs2.
Proof using Hw Hlay.
  destruct (wf_range _ _ _ _ _ _ Hw) as (Hs1 & _ & _ & Hs2 & _).
  rewrite (mw_avail _ _ _ _ _ _ Hw), free_sum_app. simpl. pose proof (free_sum_bound _ Hs1). pose proof (free_sum_bound _ Hs2). lia.
Qed.

(** Taking the block off the free list. *)
Lemma take_off_spec s0 : consts heap base psize s0 -> hs_fl s0 = hs_fl s ->
  exists F', F' ≡ₚ free_addrs base bs1 ++ free_addrs (x + n) bs2 /\ F ≡ₚ x :: F' /\
    srun W (unlink_free x;; clear_free x) s0 (fun _ s' => exists fl, s' = set_fl fl s0 /\ ring fl fh F').
Proof using Hw Hlay.
  intros Hc Hfl. destruct (wf_free_split _ _ _ _ _ Hw) as (F1 & F2 & EF & HpF).
  destruct (wf_free_places _ _ _ Hw) as (HhF & HndF & _). pose proof (mw_free _ _ _ _ _ _ Hw) as Hr. rewrite EF in HhF, HndF, Hr.
  destruct (wf_range _ _ _ _ _ _ Hw) as (_ & Hn & _ & _ & Ht1 & _ & Ht2 & _ & Hps & Hb0 & Hb).
  assert (NoDup (x :: fh :: F1 ++ F2)) as [[Hxf HxF]%not_elem_of_cons _]%NoDup_cons.
  { eapply NoDup_Permutation_proper; [|exact HndF]. solve_Permutation. }
  exists (F1 ++ F2). splits; [done|by rewrite EF, Permutation_middle|].
  eapply srun_call; [eapply (unlink_free_spec heap base psize W _ F1 x F2); try done; by rewrite Hfl|]. intros _ s2 (fl2 & -> & Hr2).
  eapply srun_mono; [eapply (clear_free_spec heap base psize W _ x (F1 ++ F2)); try done; constructor; [left; lia|constructor]|].
  intros _ s3 (fl3 & -> & Hr3). by exists fl3.
Qed.

Lemma alloc_split_spec size :
  12 <= size -> size mod 4 = 0 -> size + 36 <= n - 24 ->
  srun W (alloc_split heap x size) s (fun _ s' => hs_magic s' !! x = Some RT_MEMHEAP_MAGIC /\
    exists F', wf (taken s') (bs1 ++ [(true, size + 24); (false, n - (size + 24))] ++ bs2) F').
Proof using Hw HW Hlay.
  intros Hsz Hal Hfit. destruct (wf_range _ _ _ _ _ _ Hw) as (Hs1 & Hn & Hna & Hs2 & Ht1 & Ha1 & Ht2 & Ha2 & Hps & Hb0 & Hb).
  destruct (wf_places _ _ _ Hw) as (Hh & Hnd & _). rewrite addrs_focus in Hh, Hnd.
  destruct (wf_free_places _ _ _ Hw) as (HhF & HndF & _). pose proof (mw_const _ _ _ _ _ _ Hw) as Hc.
  pose proof (mw_blk _ _ _ _ _ _ Hw) as Hblk. rewrite addrs_focus in Hblk. destruct available_spec as (Hav & Hf1 & Hf2). destruct mark_x as [Hmx Hpx].
  unfold alloc_split. change RT_MEMHEAP_SIZE with 24. rewrite u32_small by (unfold is_u32; lia). set (new := x + (size + 24)).
  destruct (inside_fresh new) as (Hnew & Hnf & HnF); [unfold new; lia|].
  eapply srun_call; [eapply (insert_item_spec heap base psize W s _ _ _ new)|]; try done.
  { constructor; [left; unfold new; lia|]. by apply Forall_cons in Hh as [_ Hh]. }
  { constructor; [done|]. by apply NoDup_cons in Hnd as [_ Hnd]. }
  { apply alloc_may_write. lia. } { apply alloc_may_write. unfold new. lia. }
  intros _ s1 (blk & -> & Hcyc). destruct (take_off_spec (HState (hs_heap s) (<[new := RT_MEMHEAP_MAGIC]> (hs_magic s)) (<[new := heap]> (hs_pool s)) blk (hs_fl s)))
    as (F' & HpF & HpF' & Hrun); [done|done|].
  apply srun_bind in Hrun. eapply srun_call; [exact Hrun|]. intros u1 s2 Hrun2. eapply srun_call; [exact Hrun2|].
  intros _ s3 (fl3 & -> & Hr3).
  eapply srun_call; [eapply (link_free_spec heap base psize W _ new F'); try done|].
  { unfold headers in *. rewrite HpF', !Forall_cons in HhF. rewrite !Forall_cons. splits; try tauto. left. unfold new. lia. }
  { rewrite HpF' in HndF, HnF. rewrite !NoDup_cons in *. set_solver. }
  intros _ s4 (fl4 & -> & Hr4). eapply srun_call; [by apply (add_available_spec heap base psize W)|]. intros _ s5 ->.
  assert (u32 (available_size (hs_heap s) + (- size - 24)) = available_size (hs_heap s) - (size + 24)) as Eu
    by (rewrite u32_small; [lia|unfold is_u32; lia]).
  eapply srun_mono; [apply (count_max_spec heap base psize W); [exact Hc|apply Hw]|].
  intros _ s6 (m & -> & Hmu & Hmx'). simpl in Hmx' |- *. split.
  { rewrite lookup_insert_ne; [done|]. intros E. rewrite E in Hnew. set_solver. }
  exists (new :: F'). rewrite u32_small in Hmx' by (rewrite Eu; unfold is_u32; lia).
  apply (wf_replace s _ bs1 [(false, n)] bs2 [(true, size + 24); (false, n - (size + 24))] F); simpl; try done; try lia.
  - repeat constructor; simpl; try lia; dlia.
  - intros a Ha. rewrite Z.add_0_r in Ha. rewrite !lookup_insert_ne by (unfold new; lia). done.
  - fold new. rewrite lookup_insert_eq, (lookup_insert_ne _ x new), lookup_insert_eq by (unfold new; lia).
    rewrite (lookup_insert_ne _ new x), lookup_insert_eq by (unfold new; lia). simpl. splits; try done.
  - pose proof (mw_adj _ _ _ _ _ _ Hw) as Had. unfold no_adjacent in *. apply apart_app in Had as [Had1 Had2]. apply apart_app.
    split; [done|]. simpl in *. tauto.
  - rewrite Z.add_0_r. exact Hcyc.
  - fold new. rewrite Z.add_0_r, HpF. by rewrite <-Permutation_middle.
Qed.

Lemma alloc_whole_spec :
  srun W (alloc_whole heap x (n - 24)) s (fun _ s' => hs_magic s' !! x = Some RT_MEMHEAP_MAGIC /\
    exists F', wf (taken s') (bs1 ++ [(true, n)] ++ bs2) F').
Proof using Hw HW Hlay.
  destruct (wf_range _ _ _ _ _ _ Hw) as (Hs1 & Hn & Hna & Hs2 & Ht1 & Ha1 & Ht2 & Ha2 & Hps & Hb0 & Hb).
  pose proof (mw_const _ _ _ _ _ _ Hw) as Hc. pose proof (mw_blk _ _ _ _ _ _ Hw) as Hblk. rewrite addrs_focus in Hblk.
  destruct available_spec as (Hav & Hf1 & Hf2). destruct mark_x as [Hmx Hpx].
  unfold alloc_whole. eapply srun_call; [by apply (add_available_spec heap base psize W)|]. intros _ s1 ->.
  assert (u32 (available_size (hs_heap s) + - (n - 24)) = available_size (hs_heap s) - (n - 24)) as Eu
    by (rewrite u32_small; [lia|unfold is_u32; lia]).
  eapply srun_call; [apply (count_max_spec heap base psize W); [exact Hc|apply Hw]|].
  intros _ s2 (m & -> & Hmu & Hmx'). simpl in Hmx'. rewrite u32_small in Hmx' by (rewrite Eu; unfold is_u32; lia).
  match goal with |- srun _ _ ?s2 _ => destruct (take_off_spec s2) as (F' & HpF & _ & Hrun); [done|done|] end.
  eapply srun_mono; [exact Hrun|]. intros _ s3 (fl3 & -> & Hr3). simpl. split; [done|]. exists F'.
  apply (wf_replace s _ bs1 [(false, n)] bs2 [(true, n)] F); simpl; try done; try lia.
  - repeat constructor; simpl; lia.
  - intros a Ha. rewrite lookup_insert_ne by lia. done.
  - by rewrite lookup_insert_eq.
  - pose proof (mw_adj _ _ _ _ _ _ Hw) as Had. unfold no_adjacent in *. apply apart_app in Had as [Had1 Had2]. apply apart_app.
    split; [done|]. simpl in *. split; [done|]. apply apart_weaken. tauto.
  - by rewrite Z.add_0_r.
  - by rewrite Z.add_0_r.
Qed.
End Alloc.

(** The allocation: the same blocks and no address, or one more area of at least
    [size] bytes. *)
Lemma alloc_section_spec W s bs F fuel size :
  wf s bs F -> (forall y, (forall l, (y + 24, l) ∉ payloads base bs) -> W y) ->
  12 <= size -> size mod 4 = 0 -> Z.to_nat psize = fuel ->
  srun W (alloc_section fuel heap size) s (fun r s' => exists bs' F', wf s' bs' F' /\
    (r = 0 /\ bs' = bs \/ r <> 0 /\ exists len, size <= len /\ payloads base bs' ≡ₚ (r, len) :: payloads base bs)).
Proof using Hlay.
  intros Hw HW Hsz Hal Hfuel. pose proof (mw_const _ _ _ _ _ _ Hw) as Hc. unfold alloc_section.
  destruct (ring_first _ _ _ (mw_free _ _ _ _ _ _ Hw)) as [Hx _].
  eapply srun_get; [by eapply hget_free_list|]. eapply srun_get; [exact Hx|].
  eapply srun_call; [apply (find_free_spec W size s bs F Hw F [] fuel 0); [done|lia|]|].
  { assert (length F <= length bs)%nat as Hl.
    { rewrite (mw_list _ _ _ _ _ _ Hw). generalize base. clear. induction bs as [|[[] n] bs IH]; intros off; simpl; [done|..]; specialize (IH (off + n)); lia. }
    pose proof (sized_total _ (mw_sized _ _ _ _ _ _ Hw)). pose proof (mw_total _ _ _ _ _ _ Hw). lia. }
  intros [hd fs] s0 [-> Hr]. simpl in Hr. destruct (Z.leb_spec size fs) as [Hle|Hgt].
  2:{ simpl. exists bs, F. auto. }
  destruct Hr as [?|(bs1 & n & bs2 & -> & [= -> ->] & _)]; [lia|].
  destruct (wf_range _ _ _ _ _ _ Hw) as (Hs1 & Hn & Hna & Hs2 & Ht1 & Ha1 & Ht2 & Ha2 & Hps & Hb0 & Hb).
  assert (exists mid, srun W (if u32 (size + RT_MEMHEAP_SIZE + RT_MEMHEAP_MINIALLOC) <=? n - 24
      then alloc_split heap (base + total bs1) size else alloc_whole heap (base + total bs1) (n - 24)) s
    (fun _ s' => hs_magic s' !! (base + total bs1) = Some RT_MEMHEAP_MAGIC /\ exists F',
      wf (set_magic (<[base + total bs1 := RT_MEMHEAP_MAGIC + 1]> (hs_magic s')) s') (bs1 ++ mid ++ bs2) F') /\
    exists len rest, mid = (true, len + 24) :: rest /\ size <= len /\ total mid = n /\ forall off, payloads off rest = [])
    as (mid & Hrun & len & rest & -> & Hlen & Htot & Hrest).
  { change RT_MEMHEAP_SIZE with 24. change RT_MEMHEAP_MINIALLOC with 12. rewrite u32_small by (unfold is_u32; lia).
    destruct (Z.leb_spec (size + 24 + 12) (n - 24)).
    - eexists. split; [eapply alloc_split_spec; try done; lia|]. exists size. eexists. splits; [done|lia|simpl; lia|done].
    - eexists. split; [by eapply alloc_whole_spec|]. exists (n - 24), []. splits; [do 2 f_equal; lia|lia|simpl; lia|done]. }
  eapply srun_call; [exact Hrun|]. intros _ s1 (Hm & F' & Hw').
  eapply srun_get; [exact Hm|]. eapply srun_put; [done| |].
  { simpl. rewrite (in_pool_true heap base psize); [reflexivity|exact (mw_const _ _ _ _ _ _ Hw')|left; lia]. }
  change (Z.lor RT_MEMHEAP_MAGIC RT_MEMHEAP_USED) with (RT_MEMHEAP_MAGIC + 1). cbn [srun mret prog_ret].
  eexists _, F'. split; [exact Hw'|]. right. change RT_MEMHEAP_SIZE with 24. rewrite u32_small by (unfold is_u32; lia). split; [lia|].
  exists len. split; [done|]. simpl in Htot. rewrite !payloads_app. simpl. rewrite Hrest. simpl.
  replace (base + total bs1 + (len + 24 + total rest)) with (base + total bs1 + n) by lia.
  replace (len + 24 - 24) with len by lia. by rewrite <-Permutation_middle.
Qed.

(** *** Merging *)

Lemma ends_free_snoc u n bs : forall f, ends_free f (bs ++ [(u, n)]) = negb u.
Proof. induction bs as [|[u' n'] bs IH]; intros f; simpl; [done|apply IH]. Qed.

(** A free block of [m] bytes after the blocks [bsl], before [bs2]; [F] is the
    free list, which may lack it. *)
Record merging (s : hstate) bsl (m : Z) bs2 (F : list Z) : Prop := {
  mg_const : consts heap base psize s;
  mg_sized : sized (bsl ++ (false, m) :: bs2);
  mg_total : psize = total (bsl ++ (false, m) :: bs2) + 24;
  mg_cyc : cyc (hs_blk s) (addrs base (bsl ++ (false, m) :: bs2) ++ [base + total (bsl ++ (false, m) :: bs2)]);
  mg_ring : ring (hs_fl s) fh F;
  mg_places : headers heap base psize (fh :: F) /\ NoDup (fh :: F);
  mg_avail : available_size (hs_heap s) = free_sum (bsl ++ (false, m) :: bs2);
  mg_mark : hs_magic s !! (base + total bsl) = Some RT_MEMHEAP_MAGIC;
  mg_right : marked (hs_magic s) (hs_pool s) heap (base + total bsl + m) bs2;
  mg_tail : hs_magic s !! (base + total bsl + m + total bs2) = Some (RT_MEMHEAP_MAGIC + 1);
}.

(** Of a state, what merging leaves alone. *)
Definition same_marks (s s' : hstate) : Prop :=
  hs_magic s' = hs_magic s /\ hs_pool s' = hs_pool s /\ max_used_size (hs_heap s') = max_used_size (hs_heap s).

Lemma merging_range s bsl m bs2 F :
  merging s bsl m bs2 F -> sized bsl /\ 36 <= m /\ sized bs2 /\ 0 <= total bsl /\ 0 <= total bs2 /\
    psize = total bsl + m + total bs2 + 24 /\ 0 < base /\ base + psize <= 4294967296 /\
    0 <= free_sum bsl <= total bsl /\ 0 <= free_sum bs2 <= total bs2.
Proof using Hlay.
  intros []. rewrite total_app in mg_total0. simpl in mg_total0. destruct Hlay as (? & ? & ? & _).
  pose proof mg_sized0 as [Hs1 [[Hn1 Hn2] Hs2]%Forall_cons]%Forall_app. simpl in *.
  destruct (sized_total _ Hs1). destruct (sized_total _ Hs2). pose proof (free_sum_bound _ Hs1). pose proof (free_sum_bound _ Hs2).
  splits; try done; lia.
Qed.

Lemma absorb_right_spec W s bsl m bs2 F :
  merging s bsl m bs2 F -> W (base + total bsl) ->
  (forall a, a ∈ free_addrs (base + total bsl + m) bs2 -> a ∈ F) ->
  srun W (absorb_right heap (base + total bsl)) s (fun _ s' => same_marks s s' /\ exists m' bs2' F',
    merging s' bsl m' bs2' F' /\
    ((bs2' = bs2 /\ m' = m /\ F' = F /\ forall n2 r, bs2 <> (false, n2) :: r) \/
     exists n2, bs2 = (false, n2) :: bs2' /\ m' = m + n2 /\ F ≡ₚ (base + total bsl + m) :: F')).
Proof using Hlay.
  intros Hm HWx HinF. set (x := base + total bsl) in *. destruct (merging_range _ _ _ _ _ Hm) as (Hs1 & Hm36 & Hs2 & Ht1 & Ht2 & Hps & Hb0 & Hb & Hf1 & Hf2).
  pose proof Hm as [Hc Hsz Htot Hcyc Hr [HhF HndF] Hav Hmk Hri Htl]. fold x in Hmk, Hri, Htl.
  destruct (block_places _ Hsz Htot) as (Hh & Hnd & _). rewrite addrs_focus in Hcyc, Hh, Hnd. fold x in Hcyc, Hh, Hnd.
  assert (nx (hs_blk s) !! x = Some (x + m)) as Hnx.
  { destruct (addrs_tail bs2 (x + m)) as [l El]. rewrite El in Hcyc. by apply cyc_link in Hcyc as [? _]. }
  unfold absorb_right. eapply srun_get; [exact Hnx|]. destruct bs2 as [|[[|] n2] bs2].
  1, 2: apply srun_bind, (is_used_spec W _ _ true); [|simpl; split; [done|]; eexists _, _, _; split; [exact Hm|by left]].
  { rewrite Z.add_0_r in Htl. exact Htl. } { by destruct Hri as [? _]. }
  destruct Hri as (Hmr & Hpr & Hri). simpl in Hs2, Hf2, Ht2, Hps. apply Forall_cons in Hs2 as [[Hn2 Hn2a] Hs2]. simpl in Hn2, Hn2a.
  destruct (sized_total _ Hs2) as [Ht2' _]. pose proof (free_sum_bound _ Hs2) as Hf2'.
  apply srun_bind, (is_used_spec W _ _ false); [done|]. cbn [negb].
  eapply srun_call; [by apply (add_available_spec heap base psize W)|]. intros _ s1 ->.
  eapply srun_get; [exact Hnx|]. simpl in Hcyc, Hh, Hnd.
  eapply srun_call; [eapply (merge_right_spec heap base psize W _ (addrs base bsl) x (x + m)); try done|].
  { by apply Forall_cons in Hh as [_ Hh]. } { by apply NoDup_cons in Hnd as [_ Hnd]. }
  intros _ s2 (blk & -> & Hcyc2).
  destruct (list_elem_of_split F (x + m)) as (F1 & F2 & EF); [apply HinF; by left|]. rewrite EF in HhF, HndF, Hr.
  eapply srun_mono; [by eapply (unlink_free_spec heap base psize W _ F1 (x + m) F2)|]. intros _ s3 (fl & -> & Hr3).
  split; [done|]. exists (m + n2), bs2, (F1 ++ F2). split; [|right; exists n2; rewrite EF, Permutation_middle; done].
  pose proof Hsz as [Hsz1 [Hsz2 [Hsz3 Hsz4]%Forall_cons]%Forall_cons]%Forall_app. simpl in Hsz2, Hsz3.
  split; try done; simpl; fold x.
  - apply Forall_app. split; [done|]. constructor; [simpl; split; [lia|dlia]|done].
  - rewrite total_app. simpl. lia.
  - rewrite addrs_focus. fold x. rewrite Z.add_assoc.
    replace (x + m + (n2 + total bs2)) with (x + m + n2 + total bs2) in Hcyc2 by lia. exact Hcyc2.
  - unfold headers in *. rewrite Forall_cons, Forall_app in HhF |- *. rewrite Forall_cons in HhF. split; [tauto|].
    assert (NoDup ((x + m) :: fh :: F1 ++ F2)) as [_ ?]%NoDup_cons; [|done]. eapply NoDup_Permutation_proper; [|exact HndF]. solve_Permutation.
  - rewrite Hav. change RT_MEMHEAP_SIZE with 24. rewrite !free_sum_app. simpl. rewrite u32_small; [lia|unfold is_u32; lia].
  - rewrite Z.add_assoc. done.
  - replace (x + (m + n2) + total bs2) with (x + m + (n2 + total bs2)) by lia. done.
Qed.

Lemma absorb_left_spec W s bs1 n bs2 F :
  merging s bs1 n bs2 F -> marked (hs_magic s) (hs_pool s) heap base bs1 -> 
  (forall bsl n0, bs1 = bsl ++ [(false, n0)] -> W (base + total bsl)) ->
  srun W (absorb_left heap (base + total bs1)) s (fun r s' => same_marks s s' /\ exists bsl m,
    r.1 = base + total bsl /\ merging s' bsl m bs2 F /\
    if r.2 : bool then bsl = bs1 /\ m = n /\ ends_free false bs1 = false
    else exists n0, bs1 = bsl ++ [(false, n0)] /\ m = n0 + n).
Proof using Hlay.
  intros Hm Hmk1 HWx. set (x := base + total bs1) in *. destruct (merging_range _ _ _ _ _ Hm) as (Hs1 & Hm36 & Hs2 & Ht1 & Ht2 & Hps & Hb0 & Hb & Hf1 & Hf2).
  pose proof Hm as [Hc Hsz Htot Hcyc Hr [HhF HndF] Hav Hmk Hri Htl]. fold x in Hmk, Hri, Htl.
  destruct (block_places _ Hsz Htot) as (Hh & Hnd & _). rewrite addrs_focus in Hcyc, Hh, Hnd. fold x in Hcyc, Hh, Hnd.
  unfold absorb_left. destruct bs1 as [|[u0 n0] bsl _] using rev_ind.
  - assert (x = base) as Ex by (unfold x; simpl; lia). rewrite Ex in Hcyc, Htl. simpl in Hcyc.
    rewrite Ex. apply (cyc_wrap _ base (addrs (base + n) bs2)) in Hcyc as [Hpv _].
    eapply srun_get; [exact Hpv|]. apply srun_bind, (is_used_spec W _ _ true); [done|]. simpl. split; [done|].
    exists [], n. by rewrite Z.add_0_r.
  - rewrite addrs_app, <-app_assoc in Hcyc, Hh, Hnd. simpl in Hcyc, Hh, Hnd.
    assert (x = base + total bsl + n0) as Ex by (unfold x; rewrite total_app; simpl; lia).
    destruct (cyc_link _ _ _ _ _ Hcyc) as [_ Hpv]. rewrite marked_app in Hmk1. simpl in Hmk1. destruct Hmk1 as (_ & Hmk0 & _ & _).
    eapply srun_get; [exact Hpv|]. apply srun_bind, (is_used_spec W _ _ u0); [done|]. destruct u0; cbn [negb].
    { simpl. split; [done|]. exists (bsl ++ [(true, n0)]), n. splits; try done. by rewrite ends_free_snoc. }
    pose proof Hs1 as [Hsl [[Hn0 Hn0a] _]%Forall_cons]%Forall_app. simpl in Hn0, Hn0a. destruct (sized_total _ Hsl) as [Htl0 _].
    pose proof (free_sum_bound _ Hsl) as Hfl.
    eapply srun_call; [by apply (add_available_spec heap base psize W)|]. intros _ s1 ->.
    eapply srun_call; [eapply (merge_left_spec heap base psize W _ (addrs base bsl) (base + total bsl) x); try done|].
    { by apply Forall_cons in Hh as [_ Hh]. } { by apply NoDup_cons in Hnd as [_ Hnd]. } { by eapply HWx. }
    intros _ s2 (blk & -> & Hcyc2 & Hpv2). eapply srun_get; [exact Hpv2|]. simpl. split; [done|].
    exists bsl, (n0 + n). splits; [done| |eauto].
    pose proof Hsz as [_ [[Hsz1 Hsz2] _]%Forall_cons]%Forall_app. simpl in Hsz1, Hsz2.
    split; try done; simpl.
    + apply Forall_app. split; [done|]. constructor; [simpl; split; [lia|dlia]|done].
    + rewrite !total_app in *. simpl in *. lia.
    + rewrite addrs_focus, Z.add_assoc, <-Ex. exact Hcyc2.
    + rewrite Hav. change RT_MEMHEAP_SIZE with 24. rewrite !free_sum_app in *. rewrite total_app in *. simpl in *. rewrite u32_small; [lia|unfold is_u32; lia].
    + rewrite Z.add_assoc, <-Ex. done.
    + rewrite Z.add_assoc, <-Ex. done.
Qed.

Lemma merging_wf s bsl m bs2 F F0 fl :
  merging s bsl m bs2 F0 -> ring fl fh F ->
  F ≡ₚ free_addrs base bsl ++ (base + total bsl) :: free_addrs (base + total bsl + m) bs2 ->
  marked (hs_magic s) (hs_pool s) heap base bsl -> hs_pool s !! (base + total bsl) = Some heap ->
  apart false bsl -> ends_free false bsl = false -> apart true bs2 ->
  is_u32 (max_used_size (hs_heap s)) -> psize - available_size (hs_heap s) <= max_used_size (hs_heap s) ->
  wf (set_fl fl s) (bsl ++ (false, m) :: bs2) F.
Proof.
  intros [] Hr Hp Hmk Hpl Ha1 Ha2 Ha3 Hm1 Hm2. split; try done.
  - by destruct bsl.
  - unfold no_adjacent. apply apart_app. split; [done|]. simpl. rewrite Ha2. done.
  - by rewrite free_addrs_app.
  - rewrite marked_app. simpl. done.
  - rewrite total_app. simpl. by replace (base + (total bsl + (m + total bs2))) with (base + total bsl + m + total bs2) by lia.
  - by rewrite <-mg_avail0.
Qed.

Section Free.
Context (s : hstate) (bs1 : list (bool * Z)) (n : Z) (bs2 : list (bool * Z)) (F : list Z).
Context (Hw : wf s (bs1 ++ (true, n) :: bs2) F).
Notation x := (base + total bs1).
Notation others := (payloads base bs1 ++ payloads (x + n) bs2).
(** The state after the mark is cleared and the bytes are counted. *)
Definition unmarked : hstate :=
  set_heap (set_available (u32 (available_size (hs_heap s) + (n - 24))) (hs_heap s)) (set_magic (<[x := RT_MEMHEAP_MAGIC]> (hs_magic s)) s).

Lemma unmarked_merging : merging unmarked bs1 n bs2 F /\
  marked (hs_magic unmarked) (hs_pool unmarked) heap base bs1 /\ hs_pool unmarked !! x = Some heap.
Proof using Hw Hlay.
  destruct (wf_range _ _ _ _ _ _ Hw) as (Hs1 & Hn & Hna & Hs2 & Ht1 & _ & Ht2 & _ & Hps & Hb0 & Hb).
  pose proof (mw_marks _ _ _ _ _ _ Hw) as Hmk. rewrite marked_app in Hmk. simpl in Hmk. destruct Hmk as (Hm1 & _ & Hpl & Hm2).
  pose proof (addrs_bound _ Hs1 base) as B1. pose proof (addrs_bound _ Hs2 (x + n)) as B2. rewrite Forall_forall in B1, B2.
  pose proof (free_sum_bound _ Hs1) as Hf1. pose proof (free_sum_bound _ Hs2) as Hf2.
  splits; [|eapply marked_ext; [|exact Hm1]|done].
  - split; simpl.
    + apply Hw.
    + apply Forall_app. split; [done|]. constructor; [done|done].
    + rewrite total_app. simpl. lia.
    + pose proof (mw_blk _ _ _ _ _ _ Hw) as Hc. rewrite addrs_focus in Hc |- *. exact Hc.
    + apply Hw.
    + destruct (wf_free_places _ _ _ Hw) as (? & ? & _). done.
    + rewrite (mw_avail _ _ _ _ _ _ Hw), !free_sum_app. simpl. rewrite u32_small; [lia|unfold is_u32; lia].
    + by rewrite lookup_insert_eq.
    + eapply marked_ext; [|exact Hm2]. intros a Ha%B2. simpl. rewrite lookup_insert_ne by lia. done.
    + pose proof (mw_tail _ _ _ _ _ _ Hw) as Htl. rewrite total_app in Htl. simpl in Htl. rewrite lookup_insert_ne by lia.
      by replace (x + n + total bs2) with (base + (total bs1 + (n + total bs2))) by lia.
  - intros a Ha%B1. simpl. rewrite lookup_insert_ne by lia. done.
Qed.

(** The free list after merging, with the block put on it if it was not. *)
Lemma free_list_after bsl m bs2' F' (ins : bool) :
  (if ins then bsl = bs1 /\ m = n else exists n0, bs1 = bsl ++ [(false, n0)] /\ m = n0 + n) ->
  (bs2' = bs2 /\ F' = F \/ exists n2, bs2 = (false, n2) :: bs2' /\ F ≡ₚ (base + total bsl + m) :: F') ->
  (if ins then base + total bsl :: F' else F') ≡ₚ
    free_addrs base bsl ++ base + total bsl :: free_addrs (base + total bsl + (m + (total bs2 - total bs2'))) bs2'.
Proof using Hw.
  intros Hl Hr. pose proof (mw_list _ _ _ _ _ _ Hw) as HF. rewrite free_addrs_app in HF. simpl in HF.
  assert (F ≡ₚ free_addrs base bs1 ++ free_addrs (base + total bsl + m) bs2) as HF'.
  { rewrite HF. destruct ins; [by destruct Hl as [-> ->]|]. destruct Hl as (n0 & -> & ->). rewrite total_app. simpl. do 2 f_equiv. lia. }
  assert (F' ≡ₚ free_addrs base bs1 ++ free_addrs (base + total bsl + (m + (total bs2 - total bs2'))) bs2') as HF2.
  { destruct Hr as [[-> ->]|(n2 & -> & HF2)].
    - by replace (base + total bsl + (m + (total bs2 - total bs2))) with (base + total bsl + m) by lia.
    - apply (Permutation_cons_inv (a := base + total bsl + m)). rewrite <-HF2, HF'. simpl.
      replace (base + total bsl + (m + (n2 + total bs2' - total bs2'))) with (base + total bsl + m + n2) by lia.
      by rewrite <-Permutation_middle. }
  destruct ins.
  - destruct Hl as [-> ->]. by rewrite HF2, Permutation_middle.
  - destruct Hl as (n0 & -> & ->). rewrite HF2, free_addrs_app. simpl. by rewrite <-app_assoc.
Qed.

Lemma payloads_after bsl m bs2' (ins : bool) :
  (if ins then bsl = bs1 /\ m = n else exists n0, bs1 = bsl ++ [(false, n0)] /\ m = n0 + n) ->
  (bs2' = bs2 \/ exists n2, bs2 = (false, n2) :: bs2') ->
  payloads base (bsl ++ (false, m + (total bs2 - total bs2')) :: bs2') = others.
Proof using Hw.
  intros Hl Hr. rewrite payloads_app. simpl.
  assert (payloads base bs1 = payloads base bsl) as ->.
  { destruct ins; [by destruct Hl as [-> _]|]. destruct Hl as (n0 & -> & _). rewrite payloads_app. simpl. by rewrite app_nil_r. }
  f_equal. assert (x + n = base + total bsl + m) as ->.
  { destruct ins; [by destruct Hl as [-> ->]|]. destruct Hl as (n0 & -> & ->). rewrite total_app. simpl. lia. }
  destruct Hr as [->|(n2 & ->)]; [f_equal; lia|]. simpl. f_equal. lia.
Qed.

(** No two free blocks meet after merging. *)
Lemma apart_after bsl m bs2' (ins : bool) n' :
  (if ins then bsl = bs1 /\ m = n /\ ends_free false bs1 = false else exists n0, bs1 = bsl ++ [(false, n0)] /\ m = n0 + n) ->
  (bs2' = bs2 /\ (forall n2 r, bs2 <> (false, n2) :: r) \/ exists n2, bs2 = (false, n2) :: bs2') ->
  no_adjacent (bs1 ++ (true, n') :: bs2) -> apart false bsl /\ ends_free false bsl = false /\ apart true bs2'.
Proof using Hw.
  intros Hl Hr Had. apply apart_app in Had as [Ha1 [_ Ha2]]. simpl in Ha2. split; [|split].
  - destruct ins; [by destruct Hl as [-> _]|]. destruct Hl as (n0 & -> & _). by apply apart_app in Ha1 as [? _].
  - destruct ins; [by destruct Hl as (-> & _ & ?)|]. destruct Hl as (n0 & -> & _). apply apart_app in Ha1 as [_ [Hf _]].
    destruct (ends_free false bsl); [by specialize (Hf eq_refl)|done].
  - destruct Hr as [[-> Hn]|(n2 & ->)]; [|by destruct Ha2]. destruct bs2 as [|[[|] n2] r]; [done|by destruct Ha2|by destruct (Hn n2 r)].
Qed.

Context (W : Z -> Prop).
Context (HW : forall y, (forall l, (y + 24, l) ∉ others) -> W y).

Lemma free_may_write : W x /\ forall bsl n0, bs1 = bsl ++ [(false, n0)] -> W (base + total bsl).
Proof using Hw HW Hlay.
  destruct (wf_range _ _ _ _ _ _ Hw) as (Hs1 & Hn & _ & Hs2 & Ht1 & _ & Ht2 & _).
  pose proof (payloads_bound _ Hs1 base) as B1. pose proof (payloads_bound _ Hs2 (x + n)) as B2. rewrite Forall_forall in B1, B2. split.
  - apply HW. intros l [H%B1|H%B2]%elem_of_app; simpl in H; lia.
  - intros bsl n0 E. apply HW. intros l Hl. subst bs1.
    assert ((base + total bsl + 24, l) ∈ payloads base (bsl ++ (false, n0) :: (true, n) :: bs2)) as Hin.
    { rewrite payloads_app in Hl |- *. simpl in Hl |- *. rewrite total_app in Hl. simpl in Hl.
      replace (base + (total bsl + (n0 + 0)) + n) with (base + total bsl + n0 + n) in Hl by lia. set_solver. }
    pose proof Hs1 as [_ [[Hn0 _] _]%Forall_cons]%Forall_app. simpl in Hn0.
    apply payload_at in Hin as [? _]; [done| |lia]. pose proof (mw_sized _ _ _ _ _ _ Hw) as Hsz. by rewrite <-app_assoc in Hsz.
Qed.

(** The release of an area: the areas of the others are left. *)
Lemma free_section_spec :
  srun W (free_section heap x) s (fun _ s' => exists bs' F', wf s' bs' F' /\ payloads base bs' = others).
Proof using Hw HW Hlay.
  destruct free_may_write as [HWx HWl]. destruct unmarked_merging as (Hmg & Hmk1 & Hpl).
  destruct (wf_range _ _ _ _ _ _ Hw) as (Hs1 & Hn & Hna & Hs2 & Ht1 & _ & Ht2 & _ & Hps & Hb0 & Hb).
  destruct (wf_next _ _ _ _ _ _ Hw) as [Hnx _]. pose proof (mw_const _ _ _ _ _ _ Hw) as Hc.
  pose proof (mw_marks _ _ _ _ _ _ Hw) as Hmk. rewrite marked_app in Hmk. simpl in Hmk. destruct Hmk as (_ & Hmx & _ & _).
  unfold free_section. eapply srun_get; [exact Hmx|].
  eapply srun_put; [done|simpl; rewrite (in_pool_true heap base psize); [reflexivity|done|left; lia]|].
  change (Z.land (RT_MEMHEAP_MAGIC + 1) (Z.lnot RT_MEMHEAP_USED)) with RT_MEMHEAP_MAGIC.
  apply srun_bind, (memitem_size_spec W _ _ n); [exact Hnx|lia|].
  eapply srun_call; [by apply (add_available_spec heap base psize W)|]. intros _ s2 ->. fold unmarked.
  eapply srun_call; [apply (absorb_left_spec W _ _ _ _ _ Hmg Hmk1 HWl)|].
  intros [hd ins] s3 ((Em3 & Ep3 & Ex3) & bsl & m & Ehd & Hmg3 & Hl). simpl in Ehd, Hl. subst hd.
  assert (if ins then bsl = bs1 /\ m = n else exists n0, bs1 = bsl ++ [(false, n0)] /\ m = n0 + n) as Hl' by (destruct ins; tauto).
  assert (x + n = base + total bsl + m) as Exn.
  { destruct ins; [by destruct Hl' as [-> ->]|]. destruct Hl' as (n0 & -> & ->). rewrite total_app. simpl. lia. }
  eapply srun_call; [apply (absorb_right_spec W _ _ _ _ _ Hmg3)|].
  { destruct ins; [by destruct Hl' as [-> _]|]. destruct Hl' as (n0 & E & _). by eapply HWl. }
  { intros a Ha. rewrite (mw_list _ _ _ _ _ _ Hw), free_addrs_app. simpl. rewrite Exn. set_solver. }
  intros _ s4 ((Em4 & Ep4 & Ex4) & m' & bs2' & F' & Hmg4 & Hr).
  assert (m' = m + (total bs2 - total bs2') /\ (bs2' = bs2 /\ F' = F \/ exists n2, bs2 = (false, n2) :: bs2' /\ F ≡ₚ (base + total bsl + m) :: F'))
    as [Em' Hr'].
  { destruct Hr as [(-> & -> & -> & _)|(n2 & -> & -> & ?)]; simpl; (split; [lia|eauto]). }
  pose proof (free_list_after bsl m bs2' F' ins Hl' Hr') as HpF. rewrite <-Em' in HpF.
  assert (payloads base (bsl ++ (false, m') :: bs2') = others) as Hpay.
  { rewrite Em'. apply (payloads_after _ _ _ ins Hl'). destruct Hr' as [[? _]|(n2 & ? & _)]; eauto. }
  destruct (apart_after bsl m bs2' ins n Hl) as (Ha1 & Ha2 & Ha3); [naive_solver|apply Hw|].
  assert (forall fl F'', ring fl fh F'' -> F'' ≡ₚ (if ins then base + total bsl :: F' else F') ->
    wf (set_fl fl s4) (bsl ++ (false, m') :: bs2') F'') as Hend.
  { intros fl F'' HrF'' HF''. eapply merging_wf; try done; [by rewrite HF''| | | |].
    all: rewrite ?Em4, ?Em3, ?Ep4, ?Ep3, ?Ex4, ?Ex3. 3: apply Hw.
    1, 2: destruct ins; [by destruct Hl' as [-> _]|]; destruct Hl' as (n0 & -> & _); rewrite marked_app in Hmk1; by destruct Hmk1 as (? & _ & ? & _).
    pose proof (proj2 (mw_max _ _ _ _ _ _ Hw)) as Hmax. rewrite (mg_avail _ _ _ _ _ Hmg4). rewrite !free_sum_app in *. simpl in *.
    assert (free_sum bs1 + free_sum bs2 <= free_sum bsl + (m' - 24 + free_sum bs2')); [|lia].
    destruct (merging_range _ _ _ _ _ Hmg3) as (? & ? & ? & ? & ? & ? & _).
    assert (free_sum bs2 <= m' - m + free_sum bs2') by (destruct Hr as [(-> & -> & _)|(n2 & -> & -> & _)]; simpl; lia).
    destruct ins; [destruct Hl' as [-> ->]; lia|]. destruct Hl' as (n0 & -> & ->). rewrite free_sum_app. simpl. lia. }
  pose proof (mg_places _ _ _ _ _ Hmg4) as [HhF4 HndF4]. pose proof (mg_ring _ _ _ _ _ Hmg4) as Hr4.
  destruct ins; [|simpl; exists (bsl ++ (false, m') :: bs2'), F'; split; [|done]; destruct s4 as [h4 g4 p4 b4 f4]; by apply (Hend f4)].
  destruct (merging_range _ _ _ _ _ Hmg4) as (Hsl & Hm36 & Hs2' & Htl & Ht2' & Hps4 & _ & _ & _).
  destruct (block_places _ (mg_sized _ _ _ _ _ Hmg4) (mg_total _ _ _ _ _ Hmg4)) as (_ & _ & Hfh).
  eapply srun_mono; [eapply (link_free_spec heap base psize W _ (base + total bsl) F')|].
  - apply Hmg4.
  - unfold headers in *. rewrite !Forall_cons in *. splits; try tauto. left. lia.
  - apply NoDup_cons. split; [|done]. apply not_elem_of_cons. split; [apply Hfh; rewrite total_app; simpl; lia|].
    assert (NoDup (base + total bsl :: F')) as [? _]%NoDup_cons; [|done]. rewrite HpF.
    pose proof (free_addrs_NoDup _ (mg_sized _ _ _ _ _ Hmg4) base) as Hnd. by rewrite free_addrs_app in Hnd.
  - done.
  - intros _ s5 (fl & -> & Hr5). exists (bsl ++ (false, m') :: bs2'), (base + total bsl :: F'). split; [|done]. by apply (Hend fl).
Qed.
End Free.

(** *** Growing into the block behind *)

Section Grow.
Context (s : hstate) (bs1 : list (bool * Z)) (n n2 : Z) (bs2 : list (bool * Z)) (F : list Z).
Context (Hw : wf s (bs1 ++ (true, n) :: (false, n2) :: bs2) F).
Notation x := (base + total bs1).
Notation others := (payloads base bs1 ++ payloads (x + n + n2) bs2).

(** The areas around the two blocks. *)
Lemma two_blocks : sized bs1 /\ 36 <= n /\ n mod 4 = 0 /\ 36 <= n2 /\ n2 mod 4 = 0 /\ sized bs2 /\ 0 <= total bs1 /\ 0 <= total bs2 /\
  psize = total bs1 + n + n2 + total bs2 + 24 /\ 0 < base /\ base + psize <= 4294967296 /\
  available_size (hs_heap s) = free_sum bs1 + (n2 - 24) + free_sum bs2 /\ 0 <= free_sum bs1 <= total bs1 /\ 0 <= free_sum bs2 <= total bs2.
Proof using Hw Hlay.
  destruct (wf_range _ _ _ _ _ _ Hw) as (Hs1 & Hn & Hna & Hs2 & Ht1 & _ & Ht2 & _ & Hps & Hb0 & Hb).
  apply Forall_cons in Hs2 as [[Hn2 Hn2a] Hs2]. simpl in Hn2, Hn2a, Hps. destruct (sized_total _ Hs2) as [Ht2' _].
  pose proof (free_sum_bound _ Hs1). pose proof (free_sum_bound _ Hs2).
  pose proof (mw_avail _ _ _ _ _ _ Hw) as Hav. rewrite free_sum_app in Hav. simpl in Hav. splits; try done; lia.
Qed.

(** The free list with the second block taken off. *)
Lemma second_free : exists F1 F2, F = F1 ++ (x + n) :: F2 /\ F1 ++ F2 ≡ₚ free_addrs base bs1 ++ free_addrs (x + n + n2) bs2.
Proof using Hw Hlay.
  assert (wf s ((bs1 ++ [(true, n)]) ++ (false, n2) :: bs2) F) as Hw' by (by rewrite <-app_assoc).
  destruct (wf_free_split _ _ _ _ _ Hw') as (F1 & F2 & E & Hp). rewrite total_app in E, Hp. simpl in E, Hp.
  rewrite free_addrs_app in Hp. simpl in Hp. rewrite app_nil_r in Hp.
  replace (base + (total bs1 + (n + 0))) with (x + n) in E, Hp by lia. by exists F1, F2.
Qed.

(** A place strictly inside, other than the second header. *)
Lemma between_fresh y : x < y < x + n + n2 -> y <> x + n ->
  y ∉ addrs base bs1 ++ x :: addrs (x + n + n2) bs2 ++ [x + n + n2 + total bs2] /\ y <> fh /\ y ∉ F.
Proof using Hw Hlay.
  intros Hy Hne. destruct two_blocks as (Hs1 & Hn & _ & Hn2 & _ & Hs2 & Ht1 & Ht2 & _).
  destruct (wf_places _ _ _ Hw) as (_ & _ & Hfh). destruct (wf_free_places _ _ _ Hw) as (_ & _ & HsubF).
  pose proof (addrs_bound _ Hs1 base) as B1. pose proof (addrs_bound _ Hs2 (x + n + n2)) as B2. rewrite Forall_forall in B1, B2. splits.
  - rewrite elem_of_app, elem_of_cons, elem_of_app, list_elem_of_singleton. intros [H%B1|[->|[H%B2| ->]]]; lia.
  - apply Hfh. rewrite total_app. simpl. lia.
  - intros Hin%HsubF. rewrite addrs_app in Hin. simpl in Hin. rewrite elem_of_app, !elem_of_cons in Hin.
    destruct Hin as [H%B1|[->|[->|H%B2]]]; lia.
Qed.

Context (W : Z -> Prop).
Context (HW : forall y, (forall l, (y + 24, l) ∉ others) -> W y).

Lemma grow_may_write y : x <= y < x + n + n2 -> W y.
Proof using Hw HW Hlay.
  intros Hy. apply HW. destruct two_blocks as (Hs1 & Hn & _ & Hn2 & _ & Hs2 & Ht1 & Ht2 & _).
  pose proof (payloads_bound _ Hs1 base) as B1. pose proof (payloads_bound _ Hs2 (x + n + n2)) as B2. rewrite Forall_forall in B1, B2.
  intros l [H%B1|H%B2]%elem_of_app; simpl in H; lia.
Qed.

Lemma grow_section_spec new :
  n - 24 < new -> new mod 4 = 0 -> new + 12 < n - 24 + (n2 - 24) ->
  srun W (grow_section heap (x + 24) x (n - 24) new) s (fun r s' => r = true /\ exists F',
    wf s' (bs1 ++ [(true, new + 24); (false, n + n2 - (new + 24))] ++ bs2) F').
Proof using Hw HW Hlay.
  intros Hgt Hal Hfit. destruct two_blocks as (Hs1 & Hn & Hna & Hn2 & Hn2a & Hs2 & Ht1 & Ht2 & Hps & Hb0 & Hb & Hav & Hf1 & Hf2).
  destruct (wf_next _ _ _ _ _ _ Hw) as [Hnx Hpv]. pose proof (mw_const _ _ _ _ _ _ Hw) as Hc.
  assert (wf s ((bs1 ++ [(true, n)]) ++ (false, n2) :: bs2) F) as Hw' by (by rewrite <-app_assoc).
  destruct (wf_next _ _ _ _ _ _ Hw') as [Hnx2 _]. rewrite total_app in Hnx2. simpl in Hnx2.
  replace (base + (total bs1 + (n + 0))) with (x + n) in Hnx2 by lia.
  pose proof (mw_marks _ _ _ _ _ _ Hw) as Hmk. rewrite marked_app in Hmk. simpl in Hmk. destruct Hmk as (_ & Hmx & Hpx & Hmn & Hpn & _).
  destruct (wf_places _ _ _ Hw) as (Hh & Hnd & _). pose proof (mw_blk _ _ _ _ _ _ Hw) as Hcyc. rewrite addrs_focus in Hcyc, Hh, Hnd.
  simpl in Hcyc, Hh, Hnd. apply Forall_cons in Hh as [Hhf Hh]. apply NoDup_cons in Hnd as [_ Hnd].
  destruct second_free as (F1 & F2 & EF & HpF). destruct (wf_free_places _ _ _ Hw) as (HhF & HndF & _). pose proof (mw_free _ _ _ _ _ _ Hw) as HrF.
  rewrite EF in HhF, HndF, HrF.
  unfold grow_section. eapply srun_get; [exact Hnx|]. apply srun_bind, (is_used_spec W _ _ false); [done|]. cbn [negb].
  apply srun_bind, (memitem_size_spec W _ _ n2); [done|lia|].
  assert (u32 (s32 (n2 - 24) + (n - 24)) = n2 - 24 + (n - 24)) as -> by (unfold s32, u32; case_match; dlia).
  change RT_MEMHEAP_MINIALLOC with 12. rewrite u32_small by (unfold is_u32; lia). rewrite (proj2 (Z.ltb_lt _ _)) by lia.
  eapply srun_call; [by apply (add_available_spec heap base psize W)|]. intros _ s1 ->.
  eapply srun_call; [apply (count_max_spec heap base psize W); [exact Hc|apply Hw]|]. intros _ s2 (mu & -> & Hmu & Hmx').
  assert (u32 (available_size (hs_heap s) + - (new - (n - 24))) = available_size (hs_heap s) - (new - (n - 24))) as Eu
    by (rewrite u32_small; [lia|unfold is_u32; lia]).
  simpl in Hmx'. rewrite u32_small in Hmx' by (rewrite Eu; unfold is_u32; lia).
  eapply srun_call; [by eapply (unlink_free_spec heap base psize W _ F1 (x + n) F2)|]. intros _ s3 (fl3 & -> & Hr3).
  eapply srun_call; [eapply (unlink_item_spec heap base psize W _ (addrs base bs1) x (x + n)); try done|].
  { apply grow_may_write. lia. }
  intros _ s4 (blk4 & -> & Hcyc4). rewrite u32_small by (unfold is_u32; lia).
  replace (x + 24 + new) with (x + (new + 24)) by lia. set (y := x + (new + 24)).
  destruct (between_fresh y) as (Hy & Hyf & HyF); [unfold y; lia|unfold y; lia|]. rewrite EF in HyF.
  assert (x + n + (n2 + total bs2) = x + n + n2 + total bs2) as Etl by lia. rewrite Etl in *.
  assert (NoDup (x + n :: fh :: F1 ++ F2) /\ NoDup (x + n :: addrs base bs1 ++ x :: addrs (x + n + n2) bs2 ++ [x + n + n2 + total bs2]))
    as [[_ HndF']%NoDup_cons [_ Hnd']%NoDup_cons].
  { split; [eapply NoDup_Permutation_proper; [|exact HndF]|eapply NoDup_Permutation_proper; [|exact Hnd]]; solve_Permutation. }
  eapply srun_call; [eapply (insert_item_spec heap base psize W _ (addrs base bs1) x _ y)|]; try done.
  { constructor; [left; unfold y; lia|]. unfold headers in *. rewrite Forall_app, !Forall_cons in *. tauto. }
  { by constructor. } { apply grow_may_write. lia. } { apply grow_may_write. unfold y. lia. }
  intros _ s5 (blk5 & -> & Hcyc5).
  eapply srun_call; [eapply (link_free_spec heap base psize W _ y (F1 ++ F2)); try done|].
  { unfold headers in *. rewrite !Forall_cons, Forall_app in *. rewrite Forall_cons in HhF. splits; try tauto. left. unfold y. lia. }
  { apply NoDup_cons. split; [|done]. set_solver. }
  intros _ s6 (fl6 & -> & Hr6). simpl. split; [done|]. exists (y :: F1 ++ F2).
  apply (wf_replace s _ bs1 [(true, n); (false, n2)] bs2 [(true, new + 24); (false, n + n2 - (new + 24))] F); simpl; try done; try lia.
  - repeat constructor; simpl; try lia; dlia.
  - intros a Ha. rewrite !lookup_insert_ne by (unfold y; lia). done.
  - fold y. rewrite lookup_insert_eq, !(lookup_insert_ne _ y x), lookup_insert_eq by (unfold y; lia). done.
  - pose proof (mw_adj _ _ _ _ _ _ Hw) as Had. unfold no_adjacent in *. apply apart_app in Had as [Had1 Had2]. apply apart_app.
    split; [done|]. simpl in *. tauto.
  - fold y. by replace (x + (n + (n2 + 0))) with (x + n + n2) by lia.
  - fold y. replace (x + (n + (n2 + 0))) with (x + n + n2) by lia. rewrite HpF. by rewrite <-Permutation_middle.
Qed.
End Grow.

(** *** Shrinking *)

Section Shrink.
Context (s : hstate) (bs1 : list (bool * Z)) (n new : Z) (bs2 : list (bool * Z)) (F : list Z).
Context (Hw : wf s (bs1 ++ (true, n) :: bs2) F).
Context (Hnew : 12 <= new /\ new mod 4 = 0 /\ new + 36 < n - 24).
Notation x := (base + total bs1).
Notation y := (x + (new + 24)).

Context (W : Z -> Prop).

(** The end of the section, when the blocks behind [y] are [bs2'] at [x + n']:
    the rest is put on the free list and counted. *)
Lemma shrink_close s0 fl F' old bs2' n' :
  bs1 ++ old ++ bs2' = bs1 ++ (true, n) :: bs2 -> total old = n' -> n <= n' -> n' mod 4 = 0 ->
  free_sum old = n' - n - (if n' =? n then 0 else 24) ->
  consts heap base psize s0 -> hs_magic s0 = <[y := RT_MEMHEAP_MAGIC]> (hs_magic s) -> hs_pool s0 = <[y := heap]> (hs_pool s) ->
  hs_fl s0 = fl -> ring fl fh F' -> headers heap base psize (fh :: F') -> NoDup (fh :: F') -> y ∉ fh :: F' ->
  F' ≡ₚ free_addrs base bs1 ++ free_addrs (x + n') bs2' ->
  cyc (hs_blk s0) (addrs base bs1 ++ x :: y :: addrs (x + n') bs2' ++ [x + n' + total bs2']) ->
  available_size (hs_heap s0) = free_sum bs1 + free_sum bs2' -> max_used_size (hs_heap s0) = max_used_size (hs_heap s) ->
  no_adjacent (bs1 ++ (true, n) :: (false, 36) :: bs2') ->
  srun W (link_free heap y;; n ← MEMITEM_SIZE y; add_available heap n) s0 (fun _ s' => exists F'',
    wf s' (bs1 ++ [(true, new + 24); (false, n' - (new + 24))] ++ bs2') F'').
Proof using Hw Hnew Hlay.
  intros Eold Hold Hn' Ha' Hfs Hc Em Ep Efl Hr HhF HndF HyF HpF Hcyc Hav Hmx Had. subst fl.
  destruct (wf_range _ _ _ _ _ _ Hw) as (Hs1 & Hn & Hna & _ & Ht1 & _ & _ & _ & _ & Hb0 & Hb). destruct Hnew as (Hnw & Hnwa & Hfit).
  pose proof Hw as Hw'. rewrite <-Eold in Hw'. pose proof (mw_total _ _ _ _ _ _ Hw') as Hps. rewrite !total_app, Hold in Hps.
  pose proof (mw_sized _ _ _ _ _ _ Hw') as [_ [_ Hs2']%Forall_app]%Forall_app. destruct (sized_total _ Hs2') as [Ht2' _].
  pose proof (free_sum_bound _ Hs1) as Hf1. pose proof (free_sum_bound _ Hs2') as Hf2.
  pose proof (mw_max _ _ _ _ _ _ Hw') as [Hm1 Hm2]. rewrite !free_sum_app, Hfs in Hm2.
  pose proof (mw_marks _ _ _ _ _ _ Hw) as Hmk. rewrite marked_app in Hmk. simpl in Hmk. destruct Hmk as (_ & Hmx0 & Hpx0 & _).
  assert (0 <= n' - n - (if n' =? n then 0 else 24) \/ n' = n) as Hcase by (destruct (Z.eqb_spec n' n); [by right|left];
    pose proof (mw_sized _ _ _ _ _ _ Hw') as [_ [Ho _]%Forall_app]%Forall_app; pose proof (free_sum_bound _ Ho); lia).
  eapply srun_call; [eapply (link_free_spec heap base psize W _ y F'); try done|].
  { unfold headers in *. rewrite !Forall_cons in *. splits; try tauto. left. lia. } { by constructor. }
  intros _ s1 (fl & -> & Hr1).
  assert (nx (hs_blk s0) !! y = Some (y + (n' - (new + 24)))) as Hny.
  { replace (y + (n' - (new + 24))) with (x + n') by lia. destruct (addrs_tail bs2' (x + n')) as [l El]. rewrite El in Hcyc.
    apply (cyc_link _ (addrs base bs1 ++ [x]) y (x + n') l). by rewrite <-app_assoc. }
  apply srun_bind, (memitem_size_spec W _ y (n' - (new + 24))); [exact Hny|lia|].
  eapply srun_mono; [by apply (add_available_spec heap base psize W)|]. intros _ s2 ->. exists (y :: F').
  assert (u32 (free_sum bs1 + free_sum bs2' + (n' - (new + 24) - 24)) = free_sum bs1 + free_sum bs2' + (n' - (new + 24) - 24)) as Eu
    by (apply u32_small; unfold is_u32; lia).
  apply (wf_replace s _ bs1 old bs2' [(true, new + 24); (false, n' - (new + 24))] F); simpl; rewrite ?Hold, ?Em, ?Ep, ?Hav, ?Hmx; try done; try lia.
  - repeat constructor; simpl; try lia; dlia.
  - intros a Ha. rewrite !lookup_insert_ne by lia. done.
  - rewrite !(lookup_insert_ne _ y x), !lookup_insert_eq by lia. done.
  - unfold no_adjacent in *. apply apart_app in Had as [Had1 Had2]. apply apart_app. split; [done|]. simpl in *. tauto.
  - rewrite HpF. by rewrite <-Permutation_middle.
  - rewrite Eu. destruct (Z.eqb_spec n' n); lia.
Qed.

Context (HW : forall z, (forall l, (z + 24, l) ∉ payloads base bs1 ++ payloads (x + n) bs2) -> W z).

Lemma shrink_may_write z : x <= z < x + n -> W z.
Proof using Hw HW Hlay.
  intros Hz. apply HW. destruct (wf_range _ _ _ _ _ _ Hw) as (Hs1 & Hn & _ & Hs2 & _).
  pose proof (payloads_bound _ Hs1 base) as B1. pose proof (payloads_bound _ Hs2 (x + n)) as B2. rewrite Forall_forall in B1, B2.
  intros l [H%B1|H%B2]%elem_of_app; simpl in H; lia.
Qed.

Lemma shrink_section_spec :
  srun W (shrink_section heap x new) s (fun _ s' => exists bs' F', wf s' bs' F' /\
    payloads base bs' ≡ₚ (x + 24, new) :: payloads base bs1 ++ payloads (x + n) bs2).
Proof using Hw HW Hnew Hlay.
  destruct (wf_range _ _ _ _ _ _ Hw) as (Hs1 & Hn & Hna & Hs2 & Ht1 & _ & Ht2 & _ & Hps & Hb0 & Hb). pose proof Hnew as (Hnw & Hnwa & Hfit).
  destruct (wf_next _ _ _ _ _ _ Hw) as [Hnx _]. pose proof (mw_const _ _ _ _ _ _ Hw) as Hc.
  pose proof (mw_marks _ _ _ _ _ _ Hw) as Hmk. rewrite marked_app in Hmk. simpl in Hmk. destruct Hmk as (_ & Hmx & Hpx & Hmk2).
  destruct (wf_places _ _ _ Hw) as (Hh & Hnd & Hfh). pose proof (mw_blk _ _ _ _ _ _ Hw) as Hcyc. rewrite addrs_focus in Hcyc, Hh, Hnd.
  apply Forall_cons in Hh as [Hhf Hh]. apply NoDup_cons in Hnd as [_ Hnd]. pose proof (mw_adj _ _ _ _ _ _ Hw) as Had.
  destruct (wf_free_places _ _ _ Hw) as (HhF & HndF & HsubF). pose proof (mw_list _ _ _ _ _ _ Hw) as HpF. rewrite free_addrs_app in HpF. simpl in HpF.
  pose proof (mw_avail _ _ _ _ _ _ Hw) as Hav. rewrite free_sum_app in Hav. simpl in Hav.
  pose proof (addrs_bound _ Hs1 base) as B1. pose proof (addrs_bound _ Hs2 (x + n)) as B2. rewrite Forall_forall in B1, B2.
  assert (y ∉ addrs base bs1 ++ x :: addrs (x + n) bs2 ++ [x + n + total bs2]) as Hy.
  { rewrite elem_of_app, elem_of_cons, elem_of_app, list_elem_of_singleton. intros [H%B1|[H|[H%B2|H]]]; lia. }
  assert (y ∉ fh :: F) as HyF.
  { rewrite not_elem_of_cons. split; [apply Hfh; rewrite total_app; simpl; lia|]. intros Hin%HsubF.
    rewrite addrs_app in Hin. simpl in Hin. rewrite elem_of_app, elem_of_cons in Hin. destruct Hin as [H%B1|[H|H%B2]]; lia. }
  unfold shrink_section. change RT_MEMHEAP_SIZE with 24. rewrite u32_small by (unfold is_u32; lia).
  eapply srun_call; [eapply (insert_item_spec heap base psize W s _ _ _ y)|]; try done.
  { constructor; [left; lia|done]. } { by constructor. } { apply shrink_may_write. lia. } { apply shrink_may_write. lia. }
  intros _ s1 (blk & -> & Hcyc1).
  assert (nx blk !! y = Some (x + n)) as Hny.
  { destruct (addrs_tail bs2 (x + n)) as [l El]. rewrite El in Hcyc1. apply (cyc_link _ (addrs base bs1 ++ [x]) y (x + n) l). by rewrite <-app_assoc. }
  assert (forall z v, z <> y -> hs_magic s !! z = Some v -> <[y := RT_MEMHEAP_MAGIC]> (hs_magic s) !! z = Some v) as Hmagic
    by (intros; by rewrite lookup_insert_ne).
  assert (forall n' bs2' s', (exists F'', wf s' (bs1 ++ [(true, new + 24); (false, n' - (new + 24))] ++ bs2') F'') ->
    payloads (x + n') bs2' = payloads (x + n) bs2 ->
    exists bs' F', wf s' bs' F' /\ payloads base bs' ≡ₚ (x + 24, new) :: payloads base bs1 ++ payloads (x + n) bs2) as Hend.
  { intros n' bs2' s' [F'' Hw''] Ep. exists (bs1 ++ [(true, new + 24); (false, n' - (new + 24))] ++ bs2'), F''. split; [done|].
    rewrite !payloads_app. simpl. replace (new + 24 - 24) with new by lia.
    replace (x + (new + 24 + (n' - (new + 24) + 0))) with (x + n') by lia. by rewrite Ep, <-Permutation_middle. }
  unfold no_adjacent in Had. apply apart_app in Had as [Had1 [_ Had2]]. simpl in Had2.
  assert ((forall n2 r, bs2 <> (false, n2) :: r) -> apart true bs2) as Hap.
  { destruct bs2 as [|[[|] n2] r]; [done|by destruct Had2|]. intros H. by destruct (H n2 r). }
  eapply srun_get; [exact Hny|].
  assert (forall r, (forall n2 r, bs2 <> (false, n2) :: r) -> r = mret tt ->
    srun W (r;; link_free heap y;; n ← MEMITEM_SIZE y; add_available heap n)
      (HState (hs_heap s) (<[y:=RT_MEMHEAP_MAGIC]> (hs_magic s)) (<[y:=heap]> (hs_pool s)) blk (hs_fl s))
      (fun _ s' => exists bs' F', wf s' bs' F' /\ payloads base bs' ≡ₚ (x + 24, new) :: payloads base bs1 ++ payloads (x + n) bs2)) as Hused.
  { intros r Hne ->. eapply srun_mono; [eapply (shrink_close _ _ F [(true, n)] bs2 n); try done; try (simpl; lia)|].
    - simpl. rewrite Z.eqb_refl. lia.
    - apply Hw.
    - unfold no_adjacent. apply apart_app. split; [done|]. simpl. split; [done|]. split; [done|]. by apply Hap.
    - intros u s' Hs'. by apply (Hend n bs2). }
  pose proof shrink_close as Hclose. pose proof shrink_may_write as Hmay. destruct bs2 as [|[[|] n2] bs2'].
  1, 2: apply srun_bind, (is_used_spec W _ _ true); [apply Hmagic; [lia|]|by apply Hused].
  { pose proof (mw_tail _ _ _ _ _ _ Hw) as Htl. rewrite total_app in Htl. simpl in Htl. by replace (x + n) with (base + (total bs1 + (n + 0))) by lia. }
  { by destruct Hmk2 as [? _]. }
  clear Hused. destruct Hmk2 as (Hmn & _). apply Forall_cons in Hs2 as [[Hn2 Hn2a] Hs2]. simpl in Hn2, Hn2a, Ht2, Hps.
  destruct (sized_total _ Hs2) as [Ht3 _]. simpl in Hcyc1, Hy, Hh, Hnd. replace (x + n + (n2 + total bs2')) with (x + n + n2 + total bs2') in * by lia.
  assert (nx blk !! (x + n) = Some (x + n + n2)) as Hnx2.
  { destruct (addrs_tail bs2' (x + n + n2)) as [l El]. rewrite El in Hcyc1.
    apply (cyc_link _ (addrs base bs1 ++ [x; y]) (x + n) (x + n + n2) l). by rewrite <-app_assoc. }
  apply srun_bind, (is_used_spec W _ _ false); [apply Hmagic; [lia|done]|]. cbn [negb]. apply srun_bind.
  eapply srun_get; [exact Hny|]. apply srun_bind, (memitem_size_spec W _ _ n2); [exact Hnx2|lia|].
  eapply srun_call; [by apply (add_available_spec heap base psize W)|]. intros _ s2 ->.
  assert (headers heap base psize (y :: addrs base bs1 ++ x :: x + n :: addrs (x + n + n2) bs2' ++ [x + n + n2 + total bs2'])) as Hh'
    by (constructor; [left; lia|exact Hh]).
  assert (NoDup (y :: addrs base bs1 ++ x :: x + n :: addrs (x + n + n2) bs2' ++ [x + n + n2 + total bs2'])) as Hndy by by constructor.
  eapply srun_call; [eapply (merge_right_spec heap base psize W _ (addrs base bs1 ++ [x]) y (x + n)); try done|].
  { unfold headers. rewrite <-Permutation_middle, <-app_assoc. exact Hh'. }
  { rewrite <-Permutation_middle, <-app_assoc. exact Hndy. }
  { rewrite <-app_assoc. exact Hcyc1. } { apply Hmay. lia. }
  intros _ s3 (blk3 & -> & Hcyc3). rewrite <-app_assoc in Hcyc3. simpl in Hcyc3.
  destruct (list_elem_of_split F (x + n)) as (F1 & F2 & EF); [rewrite HpF; simpl; set_solver|].
  pose proof (mw_free _ _ _ _ _ _ Hw) as HrF. rewrite EF in HhF, HndF, HyF, HrF.
  eapply srun_mono; [by eapply (unlink_free_spec heap base psize W _ F1 (x + n) F2)|]. intros u4 s4 (fl4 & -> & Hr4).
  pose proof (free_sum_bound _ Hs1) as Hf1. pose proof (free_sum_bound _ Hs2) as Hf2.
  assert (NoDup (x + n :: fh :: F1 ++ F2)) as [_ HndF']%NoDup_cons by (eapply NoDup_Permutation_proper; [|exact HndF]; solve_Permutation).
  eapply srun_mono; [eapply (Hclose _ _ (F1 ++ F2) [(true, n); (false, n2)] bs2' (n + n2)); try done; try (simpl; lia)|].
  - dlia.
  - simpl. rewrite (proj2 (Z.eqb_neq _ _)) by lia. lia.
  - unfold headers in HhF |- *. rewrite <-(Permutation_middle F1) in HhF. rewrite !Forall_cons in HhF. apply Forall_cons. tauto.
  - set_solver.
  - apply (Permutation_cons_inv (a := x + n)). rewrite Permutation_middle, <-EF, HpF. simpl. rewrite Z.add_assoc. by rewrite <-Permutation_middle.
  - simpl. replace (x + (n + n2)) with (x + n + n2) by lia. exact Hcyc3.
  - simpl. rewrite Hav, u32_small; [simpl; lia|simpl in *; unfold is_u32; lia].
  - unfold no_adjacent. apply apart_app. split; [done|]. simpl in Had2 |- *. tauto.
  - intros u s' Hs'. apply (Hend (n + n2) bs2'); [done|]. simpl. by rewrite Z.add_assoc.
Qed.
End Shrink.

(** Growing is refused when the block behind is used or too small. *)
Lemma grow_section_none W s bs1 n bs2 F new :
  wf s (bs1 ++ (true, n) :: bs2) F -> 0 <= new -> new + 12 < 4294967296 ->
  (forall n2 r, bs2 = (false, n2) :: r -> n - 24 + (n2 - 24) <= new + 12) ->
  srun W (grow_section heap (base + total bs1 + 24) (base + total bs1) (n - 24) new) s (fun r s' => r = false /\ s' = s).
Proof using Hlay.
  intros Hw Hnew Hn12 Hsmall. destruct (wf_range _ _ _ _ _ _ Hw) as (Hs1 & Hn & _ & Hs2 & Ht1 & _ & Ht2 & _ & Hps & Hb0 & Hb).
  destruct (wf_next _ _ _ _ _ _ Hw) as [Hnx _]. set (x := base + total bs1) in *.
  pose proof (mw_marks _ _ _ _ _ _ Hw) as Hmk. rewrite marked_app in Hmk. simpl in Hmk. destruct Hmk as (_ & _ & _ & Hmk2). fold x in Hmk2.
  unfold grow_section. eapply srun_get; [exact Hnx|]. destruct bs2 as [|[[|] n2] bs2'].
  - apply srun_bind, (is_used_spec W _ _ true); [|done]. pose proof (mw_tail _ _ _ _ _ _ Hw) as Htl. rewrite total_app in Htl. simpl in Htl.
    by replace (x + n) with (base + (total bs1 + (n + 0))) by (unfold x; lia).
  - apply srun_bind, (is_used_spec W _ _ true); [|done]. by destruct Hmk2.
  - destruct Hmk2 as [Hm2 _]. apply Forall_cons in Hs2 as [[Hn2 _] Hs2']. simpl in Hn2, Hps, Ht2. destruct (sized_total _ Hs2') as [Ht3 _].
    assert (wf s ((bs1 ++ [(true, n)]) ++ (false, n2) :: bs2') F) as Hw' by (by rewrite <-app_assoc).
    destruct (wf_next _ _ _ _ _ _ Hw') as [Hnx2 _]. rewrite total_app in Hnx2. simpl in Hnx2.
    replace (base + (total bs1 + (n + 0))) with (x + n) in Hnx2 by (unfold x; lia).
    apply srun_bind, (is_used_spec W _ _ false); [done|]. cbn [negb].
    apply srun_bind, (memitem_size_spec W _ _ n2); [done|lia|].
    assert (u32 (s32 (n2 - 24) + (n - 24)) = n2 - 24 + (n - 24)) as -> by (unfold s32, u32; case_match; dlia).
    change RT_MEMHEAP_MINIALLOC with 12. rewrite u32_small by (unfold is_u32; lia).
    specialize (Hsmall n2 bs2' eq_refl). rewrite (proj2 (Z.ltb_ge _ _)) by lia. done.
Qed.

(** *** The initial heap *)

Lemma rt_memheap_init_spec s size :
  mh_addr (hs_heap s) = heap -> psize = RT_ALIGN_DOWN size 4 -> 60 <= psize -> psize mod 4 = 0 ->
  srun (fun _ => True) (rt_memheap_init heap base size) s (fun _ s' => wf s' [(false, psize - 24)] [base]).
Proof using Hlay.
  intros Ha Hps Hmin Hal. destruct Hlay as (Hb0 & Hba & Hb & Hh0 & Hf). unfold rt_memheap_init. change RT_MEMHEAP_SIZE with 24.
  set (tail := base + psize - 24).
  assert (forall p, p ∈ [fh; base; tail] -> forall s', mh_addr (hs_heap s') = heap -> start_addr (hs_heap s') = base ->
    pool_size (hs_heap s') = psize -> in_pool s' p = true) as Hin.
  { intros p Hp s' E1 E2 E3. unfold in_pool. rewrite E1, E2, E3. apply orb_true_iff. rewrite andb_true_iff, !Z.leb_le, Z.eqb_eq.
    unfold tail in Hp. set_solver by lia. }
  assert (fh <> base /\ fh <> tail /\ base <> tail) as (Hfb & Hft & Hbt) by (unfold tail; lia).
  assert (u32 (psize - 2 * 24) = psize - 48) as E1 by (rewrite u32_small; [lia|unfold is_u32; lia]).
  destruct s as [m mg pl bk fl]. simpl in Ha.
  eapply srun_put; [done|simpl; rewrite Ha, Z.eqb_refl; reflexivity|]. eapply srun_put; [done|simpl; rewrite Z.eqb_refl, <-Hps; reflexivity|].
  eapply srun_get; [simpl; rewrite Z.eqb_refl; reflexivity|]. eapply srun_put; [done|simpl; rewrite Z.eqb_refl, E1; reflexivity|].
  do 2 (eapply srun_get; [simpl; rewrite Z.eqb_refl; reflexivity|]).
  replace (psize - (psize - 48)) with 48 by lia. change (u32 48) with 48. eapply srun_put; [done|simpl; rewrite Z.eqb_refl; reflexivity|].
  do 6 (eapply srun_put; [done|simpl; rewrite Hin by (set_solver || done); reflexivity|]).
  eapply srun_put; [done|simpl; rewrite Z.eqb_refl; reflexivity|].
  do 6 (eapply srun_put; [done|simpl; rewrite Hin by (set_solver || done); reflexivity|]).
  eapply srun_get; [simpl; rewrite Z.eqb_refl; reflexivity|].
  assert (u32 (base + (psize - 48) + 24) = tail) as -> by (rewrite u32_small; [unfold tail; lia|unfold is_u32; lia]).
  eapply srun_put; [done|simpl; rewrite Hin by (set_solver || done); reflexivity|].
  eapply srun_get; [simpl; by rewrite lookup_insert_eq|].
  eapply srun_put; [done|simpl; rewrite Hin by (set_solver || done); reflexivity|].
  eapply srun_put; [done|simpl; rewrite Z.eqb_refl; reflexivity|].
  eapply srun_call; [eapply (link_free_spec heap base psize _ _ base [])|].
  { done. } { repeat constructor; lia. } { apply NoDup_cons. split; [set_solver|apply NoDup_singleton]. }
  { unfold ring, lseg, link. simpl. simplify_map_eq. done. }
  intros _ s1 (fl1 & -> & Hr1). eapply srun_get; [simpl; by rewrite lookup_insert_eq|].
  change (Z.lor RT_MEMHEAP_MAGIC RT_MEMHEAP_USED) with (RT_MEMHEAP_MAGIC + 1).
  do 5 (eapply srun_put; [done|simpl; rewrite Hin by (set_solver || done); reflexivity|]).
  eapply srun_put_last; [done|simpl; rewrite Hin by (set_solver || done); reflexivity|].
  assert (base + (psize - 24 + 0) = tail) as Etl by (unfold tail; lia).
  split; simpl; rewrite ?Etl; try done; try lia.
  - repeat constructor; simpl; [lia|dlia].
  - unfold ring, lseg, link. simpl. simplify_map_eq. done.
  - eapply (ring_agrees [tail]); [|intros a Ha' ->%list_elem_of_singleton; set_solver|exact Hr1].
    intros a Ha'. simpl. rewrite !lookup_insert_ne; set_solver.
  - simplify_map_eq. done.
  - simplify_map_eq. done.
  - unfold is_u32. lia.
Qed.
End Sections.
