(* ===== verification/MemHeapSpec.v ===== *)
(** * Memory heaps: the calls of several threads

    A program logic for the calls of memheap.c: a thread owns areas, the lock
    lends it the headers. Its soundness gives that threads which interleave at
    every access keep their areas apart and intact, and never get stuck. *)

From S2P Require Import Prelude RtList Kernel Mem MemHeap.

#[local] Arguments srun : simpl never.

(** An area and its bytes; where it lies. *)
Notation area := (Z * list Z)%type.
Notation zlen w := (Z.of_nat (length w)).
Definition span (a : area) : Z * Z := (a.1, zlen a.2).
Notation spans oth := (span <$> oth).

(** The bytes of [a] are in memory. *)
Definition holds (d : gmap Z Z) (a : area) : Prop :=
  forall i c, a.2 !! i = Some c -> default 0 (d !! (a.1 + Z.of_nat i)) = c.

(** Areas of the same bytes: some memory holds both lists. *)
Definition kept (own own' : list area) : Prop := exists d, Forall (holds d) own /\ Forall (holds d) own'.

(** ** The program logic *)

Section Logic.
Context (heap base psize : Z).
Notation wf := (mh_wf heap base psize).

(** The headers when the lock is free: the areas handed out are [A]. *)
Definition hinv (s : hstate) (A : list (Z * Z)) : Prop := exists bs F, wf s bs F /\ payloads base bs ≡ₚ A.

(** The headers a thread with the lock may change: not those of areas of others. *)
Definition not_of (oth : list (Z * Z)) (y : Z) : Prop := forall l, (y + 24, l) ∉ oth.

(** A thread has the lock or not; with it, it knows the headers and the areas of
    the others. *)
Notation mode := (option (hstate * list (Z * Z))).

(** [wp p m own Q]: from [m], owning [own], program [p] makes no step that is not
    allowed, and ends in [Q]. Without the lock, a thread may read the counter of
    free bytes, whatever it is, and the headers of its own areas. *)
Fixpoint wp {A} (p : prog A) (m : mode) (own : list area) (Q : A -> mode -> list area -> Prop) : Prop :=
  match p with
  | Done a => Q a m own
  | Stuck => False
  | Get x k =>
      match m with
      | Some (s, oth) => exists v, hget x s = Some v /\ wp (k v) m own Q
      | None =>
          match x with
          | AvailableSize h => h = heap /\ forall v, wp (k v) m own Q
          | PoolPtr y => (exists w, (y + 24, w) ∈ own) /\ wp (k heap) m own Q
          | Next y => exists w, (y + 24, w) ∈ own /\ wp (k (y + 24 + zlen w)) m own Q
          | _ => False
          end
      end
  | Put x v k =>
      match m with
      | Some (s, oth) => may_write (not_of oth) x /\ exists s', hput x v s = Some s' /\ wp k (Some (s', oth)) own Q
      | None => False
      end
  | Load a k => m = None /\ exists q w i v, (q, w) ∈ own /\ a = q + Z.of_nat i /\ w !! i = Some v /\ wp (k v) m own Q
  | Store a v k => m = None /\ exists own1 q w own2 i, own = own1 ++ (q, w) :: own2 /\ a = q + Z.of_nat i /\ (i < length w)%nat /\
      wp k m (own1 ++ (q, <[i := v]> w) :: own2) Q
  | Take h k => m = None /\ h = heap /\ (forall e, e <> 0 -> wp (k e) None own Q) /\
      forall s oth, hinv s (spans own ++ oth) -> wp (k 0) (Some (s, oth)) own Q
  | Release h k => h = heap /\ exists s oth, m = Some (s, oth) /\ exists A', hinv s (A' ++ oth) /\
      forall own', spans own' = A' -> kept own own' -> wp k None own' Q
  end.

Lemma wp_mono {A} (p : prog A) (Q Q' : A -> mode -> list area -> Prop) : forall m own,
  wp p m own Q -> (forall a m' own', Q a m' own' -> Q' a m' own') -> wp p m own Q'.
Proof.
  induction p as [a|x c IH|x v c IH|a c IH|a v c IH|h c IH|h c IH|]; intros m own H HQ; cbn [wp] in *; [by apply HQ|..].
  - destruct m as [[s oth]|]; [|destruct x; try done]; naive_solver.
  - destruct m as [[s oth]|]; [|done]. naive_solver.
  - destruct H as (Hm & q & w & i & v & ? & ? & ? & H). eauto 12.
  - destruct H as (Hm & o1 & q & w & o2 & i & ? & ? & ? & H). split; [done|]. exists o1, q, w, o2, i. eauto.
  - destruct H as (Hm & Hh & He & Hk). splits; [done|done|eauto|]. intros s oth Hs. eapply IH; [by apply Hk|done].
  - destruct H as (Hh & s & oth & Hm & A' & HA & H). split; [done|]. exists s, oth. split; [done|]. exists A'. eauto.
  - done.
Qed.

Lemma wp_bind {A B} (p : prog A) (k : A -> prog B) Q : forall m own,
  wp p m own (fun a m' own' => wp (k a) m' own' Q) -> wp (p ≫= k) m own Q.
Proof.
  induction p as [a|x c IH|x v c IH|a c IH|a v c IH|h c IH|h c IH|]; intros m own H; cbn in *; [done|..].
  - destruct m as [[s oth]|]; [|destruct x; try done]; naive_solver.
  - destruct m as [[s oth]|]; [|done]. naive_solver.
  - destruct H as (Hm & q & w & i & v & ? & ? & ? & H). split; [done|]. exists q, w, i, v. eauto.
  - destruct H as (Hm & o1 & q & w & o2 & i & ? & ? & ? & H). split; [done|]. exists o1, q, w, o2, i. eauto.
  - destruct H as (Hm & Hh & He & Hk). splits; [done|done|eauto|]. intros s oth Hs. by apply IH, Hk.
  - destruct H as (Hh & s & oth & Hm & A' & HA & H). split; [done|]. exists s, oth. split; [done|]. exists A'. eauto.
  - done.
Qed.

Lemma wp_call {A B} (p : prog A) (k : A -> prog B) R Q m own :
  wp p m own R -> (forall a m' own', R a m' own' -> wp (k a) m' own' Q) -> wp (p ≫= k) m own Q.
Proof. intros Hp Hk. apply wp_bind. by eapply wp_mono. Qed.

(** A section, run with the lock. *)
Lemma wp_section {A B} (p : prog A) (k : A -> prog B) R s oth own Q :
  srun (not_of oth) p s R -> (forall a s', R a s' -> wp (k a) (Some (s', oth)) own Q) -> wp (p ≫= k) (Some (s, oth)) own Q.
Proof.
  intros Hp Hk. apply wp_bind. revert s Hp. unfold srun.
  induction p as [a|x c IH|x v c IH|a c IH|a v c IH|h c IH|h c IH|]; intros s Hp; cbn in *; try done; [by apply Hk| |].
  - destruct Hp as (v & ? & Hp). exists v. split; [done|]. by apply IH.
  - destruct Hp as (? & s' & ? & Hp). split; [done|]. exists s'. split; [done|]. by apply IH.
Qed.

(** The accesses without the lock. *)
Lemma wp_available {B} (k : Z -> prog B) own Q : (forall v, wp (k v) None own Q) -> wp (get (AvailableSize heap) ≫= k) None own Q.
Proof. done. Qed.
Lemma wp_pool {B} y w (k : Z -> prog B) own Q : (y + 24, w) ∈ own -> wp (k heap) None own Q -> wp (get (PoolPtr y) ≫= k) None own Q.
Proof. simpl. eauto. Qed.
Lemma wp_next {B} y w (k : Z -> prog B) own Q :
  (y + 24, w) ∈ own -> wp (k (y + 24 + zlen w)) None own Q -> wp (get (Next y) ≫= k) None own Q.
Proof. simpl. eauto. Qed.
Lemma wp_take {B} (k : Z -> prog B) own Q :
  (forall e, e <> 0 -> wp (k e) None own Q) -> (forall s oth, hinv s (spans own ++ oth) -> wp (k 0) (Some (s, oth)) own Q) ->
  wp (rt_sem_take_lock heap ≫= k) None own Q.
Proof. simpl. eauto. Qed.
Lemma wp_release {B} A' (k : unit -> prog B) s oth own Q :
  hinv s (A' ++ oth) -> (forall own', spans own' = A' -> kept own own' -> wp (k tt) None own' Q) ->
  wp (rt_sem_release_lock heap ≫= k) (Some (s, oth)) own Q.
Proof. simpl. eauto 10. Qed.
Lemma wp_release_last A' s oth own Q :
  hinv s (A' ++ oth) -> (forall own', spans own' = A' -> kept own own' -> Q tt None own') ->
  wp (rt_sem_release_lock heap) (Some (s, oth)) own Q.
Proof. simpl. eauto 10. Qed.

(** ** Bytes that are kept *)

Lemma holds_same d q w w' : holds d (q, w) -> holds d (q, w') -> length w = length w' -> w = w'.
Proof.
  intros H1 H2 Hl. apply list_eq. intros i. destruct (w !! i) as [c|] eqn:E1.
  - destruct (w' !! i) as [c'|] eqn:E2; [|apply lookup_ge_None in E2; apply lookup_lt_Some in E1; lia].
    apply H1 in E1. apply H2 in E2. simpl in *. congruence.
  - apply lookup_ge_None in E1. symmetry. apply lookup_ge_None. lia.
Qed.

Lemma holds_same_list d own own' : Forall (holds d) own -> Forall (holds d) own' -> spans own' = spans own -> own' = own.
Proof.
  intros H. revert own'. induction H as [|[q w] own Ha _ IH]; intros [|[q' w'] own'] H' E; try done.
  apply Forall_cons in H' as [Ha' H']. rewrite !fmap_cons in E. injection E as -> El E.
  rewrite (IH own' H' E). f_equal. f_equal. symmetry. by eapply holds_same; [| |lia].
Qed.

Lemma kept_same own own' : kept own own' -> spans own' = spans own -> own' = own.
Proof. intros (d & H1 & H2). by apply (holds_same_list d). Qed.

(** ** The calls *)

Context (Hlay : layout heap base psize).

Lemma hinv_perm s A A' : hinv s A -> A ≡ₚ A' -> hinv s A'.
Proof. intros (bs & F & Hw & Hp) E. exists bs, F. by rewrite <-E. Qed.

(** An area lies in the pool, before the last header. *)
Definition in_range (a : Z * Z) : Prop := base + 24 <= a.1 /\ 12 <= a.2 /\ a.1 + a.2 + 24 <= base + psize /\ a.1 mod 4 = 0.

Lemma hinv_range s A : hinv s A -> Forall in_range A.
Proof using Hlay.
  intros (bs & F & Hw & <-). destruct Hlay as (_ & Hba & _).
  pose proof (payloads_bound _ (mw_sized _ _ _ _ _ _ Hw) base) as Hb. pose proof (payloads_aligned _ (mw_sized _ _ _ _ _ _ Hw) base Hba) as Hal.
  rewrite Forall_forall in *. intros a Ha. pose proof (mw_total _ _ _ _ _ _ Hw). specialize (Hb a Ha). specialize (Hal a Ha). unfold in_range. lia.
Qed.

(** The blocks around an area. *)
Lemma hinv_area s q l A : hinv s ((q, l) :: A) -> exists bs1 bs2 F,
  wf s (bs1 ++ (true, l + 24) :: bs2) F /\ q = base + total bs1 + 24 /\
  payloads base bs1 ++ payloads (base + total bs1 + (l + 24)) bs2 ≡ₚ A.
Proof.
  intros (bs & F & Hw & Hp). destruct (payloads_inv bs q l base) as (bs1 & bs2 & -> & ->); [rewrite Hp; by left|].
  exists bs1, bs2, F. splits; [done|lia|]. rewrite payloads_app in Hp. simpl in Hp.
  apply (Permutation_cons_inv (a := (base + total bs1 + 24, l))). rewrite <-Hp. rewrite <-Permutation_middle.
  replace (l + 24 - 24) with l by lia. done.
Qed.

Lemma request_spec n : 0 <= n <= 4294967292 ->
  12 <= request n /\ n <= request n /\ request n mod 4 = 0 /\ (n <= 4294967280 -> request n <= 4294967280) /\ request n <= 4294967292.
Proof.
  intros Hn. unfold request, RT_MEMHEAP_MINIALLOC. rewrite RT_ALIGN_4 by lia.
  assert (n <= 4 * ((n + 3) / 4) < n + 4 /\ (4 * ((n + 3) / 4)) mod 4 = 0) as [H1 H2] by (split; dlia).
  destruct (Z.ltb_spec (4 * ((n + 3) / 4)) 12); splits; try done; try lia; intros; dlia.
Qed.


(** [rt_memheap_alloc]: no area, or one more of at least [size] bytes. *)
Definition alloc_post (own : list area) (size : Z) (r : Z) (m : mode) (own' : list area) : Prop :=
  m = None /\ (r = 0 /\ own' = own \/ r <> 0 /\ exists w, own' = (r, w) :: own /\ size <= zlen w /\ in_range (r, zlen w)).

Lemma rt_memheap_alloc_wp size own :
  0 <= size <= 4294967292 -> wp (rt_memheap_alloc (Z.to_nat psize) heap size) None own (alloc_post own size).
Proof using Hlay.
  intros Hsize. destruct (request_spec size Hsize) as (Hr12 & Hrs & Hra & _). unfold rt_memheap_alloc. apply wp_available. intros a.
  destruct (request size <? a); [|split; [done|by left]].
  apply wp_take.
  { intros e He. rewrite (proj2 (Z.eqb_neq _ _)) by done. cbn. split; [done|by left]. }
  intros s oth (bs & F & Hw & Hp). cbn [Z.eqb negb RT_EOK].
  eapply wp_section.
  - eapply (alloc_section_spec heap base psize Hlay _ s bs F); try done. intros y Hy l Hl. apply (Hy l). rewrite Hp. set_solver.
  - intros r s' (bs' & F' & Hw' & Hr).
    destruct Hr as [[-> ->]|(Hr & len & Hlen & Hp')].
    + apply (wp_release (spans own)); [by exists bs, F'|]. intros own' Hs Hk. cbn. split; [done|]. left. split; [done|]. by apply kept_same.
    + assert (hinv s' (((r, len) :: spans own) ++ oth)) as Hinv.
      { exists bs', F'. split; [done|]. by rewrite Hp', Hp. }
      apply (wp_release ((r, len) :: spans own)); [done|]. intros [|[r' w] own'] Hs Hk; [done|]. rewrite fmap_cons in Hs. injection Hs as -> El Hs. cbn. split; [done|]. right.
      split; [done|]. exists w. simpl in El. rewrite El. split; [f_equal|split; [lia|]].
      * apply kept_same; [|done]. destruct Hk as (d & H1 & H2). apply Forall_cons in H2 as [_ H2]. by exists d.
      * apply hinv_range in Hinv. by apply Forall_cons in Hinv as [? _].
Qed.

(** [rt_memheap_free] of an owned area: it is gone, unless the wait for the lock
    was cut short. *)
Definition free_post (own1 : list area) (a : area) (own2 : list area) (_ : unit) (m : mode) (own' : list area) : Prop :=
  m = None /\ (own' = own1 ++ own2 \/ own' = own1 ++ a :: own2).

Lemma in_range_header q l : in_range (q, l) -> u32 (q - RT_MEMHEAP_SIZE) = q - 24 /\ q <> 0 /\ 0 < q - 24 /\ q + l < 4294967296.
Proof using Hlay.
  unfold in_range. simpl. intros H. destruct Hlay as (? & _ & ? & _). change RT_MEMHEAP_SIZE with 24.
  rewrite u32_small by (unfold is_u32; lia). lia.
Qed.

Lemma rt_memheap_free_wp own1 q w own2 :
  in_range (q, zlen w) -> wp (rt_memheap_free q) None (own1 ++ (q, w) :: own2) (free_post own1 (q, w) own2).
Proof using Hlay.
  intros Hq. destruct (in_range_header _ _ Hq) as (Eh & Hq0 & _ & _). unfold rt_memheap_free. rewrite (proj2 (Z.eqb_neq _ _)) by done.
  rewrite Eh. apply (wp_pool _ w); [replace (q - 24 + 24) with q by lia; set_solver|]. apply wp_take.
  { intros e He. rewrite (proj2 (Z.eqb_neq _ _)) by done. cbn. split; [done|by right]. }
  intros s oth Hinv. cbn [Z.eqb negb RT_EOK].
  destruct (hinv_area s q (zlen w) (spans (own1 ++ own2) ++ oth)) as (bs1 & bs2 & F & Hw & -> & Hp).
  { eapply hinv_perm; [exact Hinv|]. rewrite !fmap_app, fmap_cons, <-!app_assoc. simpl. by rewrite <-Permutation_middle. }
  replace (base + total bs1 + 24 - 24) with (base + total bs1) by lia.
  eapply wp_section.
  - eapply (free_section_spec heap base psize Hlay s bs1 _ bs2 F Hw). intros y Hy. intros l Hl. apply (Hy l). rewrite Hp. set_solver.
  - intros [] s' (bs' & F' & Hw' & Hp').
    apply (wp_release_last (spans (own1 ++ own2))); [exists bs', F'; by rewrite Hp'|]. intros own' Hs (d & H1 & H2). split; [done|]. left.
    apply (holds_same_list d); [|done|done]. apply Forall_app in H1 as [H1 [_ H1']%Forall_cons]. by apply Forall_app.
Qed.

Lemma copy_loop_wp r q w n : forall i w1,
  (i + n <= length w)%nat -> (i + n <= length w1)%nat -> take i w1 = take i w ->
  wp (copy_loop n (r + Z.of_nat i) (q + Z.of_nat i)) None [(r, w1); (q, w)] (fun _ m own' => m = None /\
    exists w', own' = [(r, w'); (q, w)] /\ length w' = length w1 /\ take (i + n) w' = take (i + n) w).
Proof.
  induction n as [|n IH]; intros i w1 Hw Hw1 Ht; cbn [copy_loop].
  - cbn. split; [done|]. exists w1. rewrite Nat.add_0_r. done.
  - destruct (lookup_lt_is_Some_2 w i) as [v Hv]; [lia|]. cbn [wp]. split; [done|]. exists q, w, i, v. split; [set_solver|]. split; [done|]. split; [done|].
    split; [done|]. exists [], r, w1, [(q, w)], i. split; [done|]. split; [done|]. split; [lia|]. cbn [app].
    replace (r + Z.of_nat i + 1) with (r + Z.of_nat (S i)) by lia. replace (q + Z.of_nat i + 1) with (q + Z.of_nat (S i)) by lia.
    eapply wp_mono; [apply IH; [lia|rewrite length_insert; lia|]|].
    + rewrite (take_S_r _ _ v), (take_S_r w _ v) by (rewrite ?list_lookup_insert_eq by lia; done). by rewrite take_insert_ge, Ht by lia.
    + intros [] m own' (-> & w' & -> & El & Et). rewrite length_insert in El. split; [done|]. exists w'.
      by replace (i + S n)%nat with (S i + n)%nat by lia.
Qed.

(** [rt_memheap_realloc] of an owned area: refused, released (size 0), or an area
    of at least [new] bytes that starts with the old bytes; the old area is left
    behind when it was copied and the wait to free it was cut short. *)
Definition realloc_post (a : area) (new : Z) (r : Z) (m : mode) (own' : list area) : Prop :=
  m = None /\ (r = 0 /\ (own' = [a] \/ new = 0 /\ own' = []) \/
    r <> 0 /\ exists w' rest, own' = (r, w') :: rest /\ (rest = [] \/ rest = [a]) /\ new <= zlen w' /\ in_range (r, zlen w') /\
      let k := Nat.min (length a.2) (Z.to_nat new) in take k w' = take k a.2).

(** The bytes at the front of an area that was resized in place. *)
Lemma kept_front q w w' rest rest' : kept ((q, w) :: rest) ((q, w') :: rest') ->
  let k := Nat.min (length w) (length w') in take k w' = take k w.
Proof.
  intros (d & [H1 _]%Forall_cons & [H2 _]%Forall_cons) k.
  apply (holds_same d q); [| |rewrite !length_take; lia]; intros i c Hc; simpl in *; rewrite lookup_take in Hc;
    (case_decide; [|done]); [by apply H2|by apply H1].
Qed.

Lemma realloc_in_place s A' q w l oth new :
  hinv s (A' ++ oth) -> A' = [(q, l)] -> q <> 0 -> new <= l -> 
  wp (rt_sem_release_lock heap;; mret q) (Some (s, oth)) [(q, w)] (realloc_post (q, w) new).
Proof using Hlay.
  intros Hinv -> Hq Hl. apply (wp_release [(q, l)]); [done|].
  intros [|[q' w'] [|? own']] Hs Hk; [done| |done]. injection Hs as -> El. cbn. split; [done|]. right. split; [done|].
  exists w', []. apply kept_front in Hk. simpl in Hk. splits; [done|by left|lia| |].
  - apply hinv_range in Hinv. apply Forall_cons in Hinv as [Hr _]. by rewrite El.
  - simpl. assert (forall k, (k <= Nat.min (length w) (length w'))%nat -> take k w' = take k w) as Hk'; [|apply Hk'; lia].
    intros k Hkl. transitivity (take k (take (Nat.min (length w) (length w')) w')); [rewrite take_take; f_equal; lia|].
    rewrite Hk, take_take. f_equal. lia.
Qed.

Lemma realloc_by_copy q w new nw :
  in_range (q, zlen w) -> 0 < new <= nw -> nw <= 4294967292 -> zlen w < nw ->
  wp (new_ptr ← rt_memheap_alloc (Z.to_nat psize) heap nw;
      (if negb (new_ptr =? 0) then
         copy_loop (Z.to_nat (zlen w)) new_ptr q;; rt_memheap_free q
       else mret tt);; mret new_ptr) None [(q, w)] (realloc_post (q, w) new).
Proof using Hlay.
  intros Hq Hnew Hmax Hlt. eapply wp_call; [apply rt_memheap_alloc_wp; lia|].
  intros r m own' [-> [[-> ->]|(Hr & w1 & -> & Hl1 & Hr1)]].
  { cbn. split; [done|]. left. auto. }
  rewrite (proj2 (Z.eqb_neq _ _)) by done. cbn [negb]. rewrite Nat2Z.id.
  apply (wp_call _ _ (fun _ m own' => m = None /\ exists w', length w' = length w1 /\ take (length w) w' = take (length w) w /\
    (own' = [(r, w')] \/ own' = [(r, w'); (q, w)]))).
  - pose proof (copy_loop_wp r q w (length w) 0 w1) as Hcopy. rewrite !Z.add_0_r in Hcopy.
    eapply wp_call; [apply Hcopy; [lia|lia|done]|]. intros [] m own' (-> & w' & -> & El & Et).
    eapply wp_mono; [apply (rt_memheap_free_wp [(r, w')] q w [] Hq)|]. intros [] m own' [-> Ho]. split; [done|]. exists w'. done.
  - intros [] m own' (-> & w' & El & Et & Ho). cbn. split; [done|]. right. split; [done|].
    assert (exists rest, own' = (r, w') :: rest /\ (rest = [] \/ rest = [(q, w)])) as (rest & -> & Hrest)
      by (destruct Ho as [-> | ->]; eauto).
    exists w', rest. rewrite El. splits; try done; [lia|]. simpl.
    transitivity (take (Nat.min (length w) (Z.to_nat new)) (take (length w) w')); [rewrite take_take; f_equal; lia|].
    rewrite Et, take_take. f_equal. lia.
Qed.

Lemma rt_memheap_realloc_wp q w new :
  in_range (q, zlen w) -> 0 <= new <= 4294967280 ->
  wp (rt_memheap_realloc (Z.to_nat psize) heap q new) None [(q, w)] (realloc_post (q, w) new).
Proof using Hlay.
  intros Hq Hnew. destruct (in_range_header _ _ Hq) as (Eh & Hq0 & Hq1 & Hq2). unfold rt_memheap_realloc.
  destruct (Z.eqb_spec new 0) as [->|Hn0].
  { eapply wp_call; [apply (rt_memheap_free_wp [] q w [] Hq)|]. intros [] m own' [-> Ho]. cbn. split; [done|]. left. split; [done|].
    destruct Ho as [-> | ->]; auto. }
  destruct (request_spec new) as (Hr12 & Hrn & Hra & Hr80 & _); [lia|]. specialize (Hr80 ltac:(lia)). set (nw := request new) in *.
  rewrite (proj2 (Z.eqb_neq _ _)) by done. rewrite Eh. unfold in_range in Hq. simpl in Hq. destruct Hlay as (Hb0 & Hba & Hb & Hh0 & _).
  unfold MEMITEM_SIZE at 1. apply wp_bind. apply (wp_next _ w); [replace (q - 24 + 24) with q by lia; set_solver|].
  change RT_MEMHEAP_SIZE with 24. change RT_MEMHEAP_MINIALLOC with 12. cbn [mret prog_ret wp].
  replace (q - 24 + 24 + zlen w - (q - 24)) with (zlen w + 24) by lia. rewrite (u32_small (zlen w + 24)) by (unfold is_u32; lia).
  replace (zlen w + 24 - 24) with (zlen w) by lia. rewrite u32_small by (unfold is_u32; lia).
  assert (forall m, m = None -> realloc_post (q, w) new 0 m [(q, w)]) as Hrefused by (intros m ->; split; [done|]; left; auto).
  destruct (Z.ltb_spec (zlen w) nw) as [Hgt|Hle].
  - apply wp_take; [intros e He; rewrite (proj2 (Z.eqb_neq _ _)) by done; by apply Hrefused|].
    intros s oth Hinv. cbn [Z.eqb negb RT_EOK]. destruct (hinv_area s q (zlen w) oth) as (bs1 & bs2 & F & Hw & Eq & Hp); [exact Hinv|].
    replace (q - 24) with (base + total bs1) by lia. rewrite Eq at 1.
    assert (forall y, (forall l, (y + 24, l) ∉ payloads base bs1 ++ payloads (base + total bs1 + (zlen w + 24)) bs2) -> not_of oth y) as HW
      by (intros y Hy l Hl; apply (Hy l); by rewrite Hp).
    assert ((exists n2 r, bs2 = (false, n2) :: r /\ nw + 12 < zlen w + (n2 - 24)) \/
      forall n2 r, bs2 = (false, n2) :: r -> zlen w + (n2 - 24) <= nw + 12) as [(n2 & r & -> & Hfit)|Hno].
    { destruct bs2 as [|[[|] n2] r]; [by right|by right|]. destruct (Z.le_gt_cases (zlen w + (n2 - 24)) (nw + 12)); [right|left; exists n2, r; split; [done|lia]].
      by intros n3 r' [= <- <-]. }
    + eapply wp_section.
      { pose proof (grow_section_spec heap base psize Hlay s bs1 (zlen w + 24) n2 r F Hw (not_of oth)) as Hgrow.
        replace (zlen w + 24 - 24) with (zlen w) in Hgrow by lia. apply Hgrow; [|lia|done|lia].
        intros y Hy. apply HW. exact Hy. }
      intros b s' [-> [F' Hw']]. cbn iota. eapply realloc_in_place; [|reflexivity|done|exact Hrn].
      exists (bs1 ++ [(true, nw + 24); (false, zlen w + 24 + n2 - (nw + 24))] ++ r), F'. split; [done|].
      rewrite !payloads_app. simpl in Hp |- *. rewrite <-Hp, Eq, <-Permutation_middle.
      replace (nw + 24 - 24) with nw by lia.
      by replace (base + total bs1 + (nw + 24 + (zlen w + 24 + n2 - (nw + 24) + 0))) with (base + total bs1 + (zlen w + 24) + n2) by lia.
    + eapply wp_section.
      { pose proof (grow_section_none heap base psize Hlay (not_of oth) s bs1 (zlen w + 24) bs2 F nw Hw) as Hnone.
        replace (zlen w + 24 - 24) with (zlen w) in Hnone by lia. apply Hnone; [lia|lia|exact Hno]. }
      intros b s' [-> ->]. cbn iota. apply (wp_release [(q, zlen w)]); [exact Hinv|]. intros own' Hs Hk. rewrite (kept_same _ _ Hk Hs). clear own' Hs Hk.
      cbn iota. apply realloc_by_copy; [done|lia|lia|done].
  - rewrite u32_small by (unfold is_u32; lia). destruct (Z.leb_spec (zlen w) (nw + 24 + 12)) as [Hno|Hshrink].
    { cbn. split; [done|]. right. split; [done|]. exists w, []. splits; [done|by left|lia|done|done]. }
    apply wp_take; [intros e He; rewrite (proj2 (Z.eqb_neq _ _)) by done; by apply Hrefused|].
    intros s oth Hinv. cbn [Z.eqb negb RT_EOK]. destruct (hinv_area s q (zlen w) oth) as (bs1 & bs2 & F & Hw & Eq & Hp); [exact Hinv|].
    replace (q - 24) with (base + total bs1) by lia. eapply wp_section.
    + eapply (shrink_section_spec heap base psize Hlay s bs1 _ nw bs2 F Hw); [lia|]. intros z Hz l Hl. apply (Hz l). by rewrite Hp.
    + intros [] s' (bs' & F' & Hw' & Hp'). eapply realloc_in_place; [|reflexivity|done|exact Hrn]. exists bs', F'. rewrite Hp', Hp, <-Eq. done.
Qed.

(** [rt_memheap_realloc] of [RT_NULL] allocates. *)
Lemma rt_memheap_realloc_null_wp own new :
  0 <= new <= 4294967280 -> wp (rt_memheap_realloc (Z.to_nat psize) heap 0 new) None own (alloc_post own new).
Proof using Hlay.
  intros Hnew. unfold rt_memheap_realloc. destruct (Z.eqb_spec new 0) as [->|Hn0]; [cbn; split; [done|by left]|].
  destruct (request_spec new) as (_ & Hrn & _ & _ & Hr); [lia|]. cbn [Z.eqb].
  eapply wp_mono; [apply rt_memheap_alloc_wp; lia|]. intros r m own' [-> Ho]. split; [done|].
  destruct Ho as [?|(? & w & ? & ? & ?)]; [by left|]. right. split; [done|]. exists w. splits; try done. lia.
Qed.
End Logic.
