(* ===== verification/MemHeapThreads.v ===== *)
(** * Memory heaps: threads that share a heap

    Threads that call memheap.c, one access at a time in any order, and the
    soundness of the program logic for them. *)

From S2P Require Import Prelude RtList Kernel Mem MemHeap MemHeapSpec.

(** ** Threads *)

(** A call, with the area handed to it. *)
Inductive call := CAlloc (size : Z) | CFree (a : area) | CRealloc (a : area) (new : Z) | CReallocNull (new : Z).

(** A thread holds areas, with the bytes it expects there; it is between calls
    or in one. *)
Inductive thread := Idle (L : list area) | InCall (c : call) (L : list area) (p : prog Z).

Record config := Config { c_h : hstate; c_d : gmap Z Z; c_lock : Z; c_ts : list thread }.

(** One access. *)
Inductive pstep : hstate -> gmap Z Z -> Z -> prog Z -> hstate -> gmap Z Z -> Z -> prog Z -> Prop :=
  | step_get h d l x k v : hget x h = Some v -> pstep h d l (Get x k) h d l (k v)
  | step_put h d l x v k h' : hput x v h = Some h' -> pstep h d l (Put x v k) h' d l k
  | step_load h d l a k : pstep h d l (Load a k) h d l (k (default 0 (d !! a)))
  | step_store h d l a v k : pstep h d l (Store a v k) h (<[a := v]> d) l k
  | step_take h d l a k : 0 < l -> pstep h d l (Take a k) h d (l - 1) (k RT_EOK)
  | step_release h d l a k : pstep h d l (Release a k) h d (l + 1) k.

(** The bytes of memory at [a]. *)
Definition bytes (d : gmap Z Z) (a : Z) (n : nat) : list Z := (fun i => default 0 (d !! (a + Z.of_nat i))) <$> seq 0 n.

Section Threads.
Context (heap base psize : Z).

Definition code (c : call) : prog Z :=
  let fuel := Z.to_nat psize in
  match c with
  | CAlloc size => rt_memheap_alloc fuel heap size
  | CFree a => rt_memheap_free a.1;; mret 0
  | CRealloc a new => rt_memheap_realloc fuel heap a.1 new
  | CReallocNull new => rt_memheap_realloc fuel heap 0 new
  end.

(** The requests that are answered as documented. *)
Definition call_ok (c : call) : Prop :=
  match c with
  | CAlloc size => 0 <= size <= 4294967292
  | CFree _ => True
  | CRealloc _ new | CReallocNull new => 0 <= new <= 4294967280
  end.

(** What a call takes from the areas held. *)
Definition handed (c : call) (L L' : list area) : Prop :=
  match c with CFree a | CRealloc a _ => L ≡ₚ a :: L' | _ => L' = L end.

(** What the thread holds after a call that returned [r]; after resizing it
    expects the old bytes in front. *)
Definition returned (d : gmap Z Z) (c : call) (L : list area) (r : Z) : list area :=
  match c with
  | CAlloc size | CReallocNull size => if r =? 0 then L else (r, bytes d r (Z.to_nat size)) :: L
  | CFree _ => L
  | CRealloc a new =>
      if r =? 0 then if new =? 0 then L else a :: L
      else let old := take (Z.to_nat new) a.2 in
           (r, old ++ bytes d (r + zlen old) (Z.to_nat new - length old)) :: L
  end.

(** A step of some thread: it starts a call, makes an access, is woken in
    [rt_sem_take] with an error, gets the result, or writes to an area. *)
Inductive cstep : config -> config -> Prop :=
  | c_start h d l ts i c L L' : ts !! i = Some (Idle L) -> call_ok c -> handed c L L' ->
      cstep (Config h d l ts) (Config h d l (<[i := InCall c L' (code c)]> ts))
  | c_access h d l ts i c L p h' d' l' p' : ts !! i = Some (InCall c L p) -> pstep h d l p h' d' l' p' ->
      cstep (Config h d l ts) (Config h' d' l' (<[i := InCall c L p']> ts))
  | c_interrupt h d l ts i c L a k e : ts !! i = Some (InCall c L (Take a k)) -> e <> RT_EOK ->
      cstep (Config h d l ts) (Config h d l (<[i := InCall c L (k e)]> ts))
  | c_return h d l ts i c L r : ts !! i = Some (InCall c L (Done r)) ->
      cstep (Config h d l ts) (Config h d l (<[i := Idle (returned d c L r)]> ts))
  | c_write h d l ts i L1 q w L2 j v : ts !! i = Some (Idle (L1 ++ (q, w) :: L2)) -> (j < length w)%nat ->
      cstep (Config h d l ts) (Config h (<[q + Z.of_nat j := v]> d) l (<[i := Idle (L1 ++ (q, <[j := v]> w) :: L2)]> ts)).

Definition held (t : thread) : list area := match t with Idle L | InCall _ L _ => L end.

(** *** What threads rely on *)

Definition disjoint_spans (a b : Z * Z) : Prop := a.1 + a.2 <= b.1 \/ b.1 + b.2 <= a.1.

(** All areas held: aligned, in the pool, apart from each other, with the bytes
    expected. *)
Definition areas_safe (g : config) : Prop :=
  let L := concat (held <$> c_ts g) in
  Forall (fun a => a.1 mod 4 = 0 /\ base + 24 <= a.1 /\ a.1 + zlen a.2 + 24 <= base + psize) L /\
  ForallOrdPairs disjoint_spans (spans L) /\ Forall (holds (c_d g)) L.

(** Thread [i] can go on. *)
Definition can_go (g : config) (i : nat) : Prop :=
  match c_ts g !! i with
  | Some (InCall _ _ (Done _)) => True
  | Some (InCall _ _ p) => exists h' d' l' p', pstep (c_h g) (c_d g) (c_lock g) p h' d' l' p'
  | _ => False
  end.

(** A thread in a call goes on, or waits for the lock of one that can. *)
Definition never_stuck (g : config) : Prop :=
  forall i c L p, c_ts g !! i = Some (InCall c L p) ->
    can_go g i \/ exists k, p = Take heap k /\ c_lock g = 0 /\ exists j, j <> i /\ can_go g j.


(** ** The invariant *)

Context (Hlay : layout heap base psize).
Notation mode := (option (hstate * list (Z * Z))).
Notation hinv := (hinv heap base psize).
Notation wp := (wp heap base psize).
Notation in_range := (in_range base psize).

(** The handle [a] of a thread and the area [b] it owns, which may be longer. *)
Definition ext (a b : area) : Prop := a.1 = b.1 /\ a.2 `prefix_of` b.2.

Definition carea (c : call) : list area := match c with CFree a | CRealloc a _ => [a] | _ => [] end.

(** What a call ends with, from the area [own] handed to it. *)
Definition cpost (c : call) (own : list area) (r : Z) (m : mode) (own' : list area) : Prop :=
  m = None /\
  match c with
  | CAlloc size | CReallocNull size => r = 0 /\ own' = [] \/ r <> 0 /\ exists w, own' = [(r, w)] /\ size <= zlen w
  | CFree _ => own' = [] \/ own' = own
  | CRealloc _ new => exists b, own = [b] /\
      (r = 0 /\ (own' = own \/ new = 0 /\ own' = []) \/
       r <> 0 /\ exists w' rest, own' = (r, w') :: rest /\ new <= zlen w' /\
         let k := Nat.min (length b.2) (Z.to_nat new) in take k w' = take k b.2)
  end.

Lemma call_wp c own :
  call_ok c -> Forall2 ext (carea c) own -> Forall in_range (spans own) -> wp (code c) None own (cpost c own).
Proof using Hlay.
  intros Hok He Hr. destruct c as [size|a|a new|new]; simpl in Hok, He; cbn [code].
  - apply Forall2_nil_inv_l in He as ->. eapply wp_mono; [by apply rt_memheap_alloc_wp|].
    intros r m own' [-> H]. split; [done|]. destruct H as [[-> ->]|(? & w & -> & ? & _)]; [by left|right]. split; [done|]. by exists w.
  - apply Forall2_cons_inv_l in He as ([q w] & l & [Eq _] & ->%Forall2_nil_inv_l & ->). simpl in Eq. rewrite Eq.
    apply Forall_cons in Hr as [Hr _]. eapply wp_call; [by apply (rt_memheap_free_wp heap base psize Hlay [] q w [])|].
    intros [] m own' [-> H]. cbn. split; [done|]. by destruct H as [-> | ->]; [left|right].
  - apply Forall2_cons_inv_l in He as ([q w] & l & [Eq _] & ->%Forall2_nil_inv_l & ->). simpl in Eq. rewrite Eq.
    apply Forall_cons in Hr as [Hr _]. eapply wp_mono; [by apply rt_memheap_realloc_wp|].
    intros r m own' [-> H]. split; [done|]. exists (q, w). split; [done|].
    destruct H as [?|(? & w' & rest & -> & _ & ? & _ & ?)]; [by left|right]. split; [done|]. by exists w', rest.
  - apply Forall2_nil_inv_l in He as ->. eapply wp_mono; [by apply rt_memheap_realloc_null_wp|].
    intros r m own' [-> H]. split; [done|]. destruct H as [[-> ->]|(? & w & -> & ? & _)]; [by left|right]. split; [done|]. by exists w.
Qed.

(** *** Bytes *)

Lemma holds_bytes d q n : holds d (q, bytes d q n).
Proof.
  intros i c. unfold bytes. simpl. rewrite list_lookup_fmap. destruct (seq 0 n !! i) as [j|] eqn:E; [|done].
  simpl. intros [= <-]. apply lookup_seq in E as [-> _]. done.
Qed.

Lemma length_bytes d q n : length (bytes d q n) = n.
Proof. unfold bytes. by rewrite length_fmap, length_seq. Qed.

Lemma holds_prefix d a b : ext a b -> holds d b -> holds d a.
Proof. intros [E [r Er]] H i c Hc. rewrite E. apply H. rewrite Er. by apply lookup_app_l_Some. Qed.

(** The bytes of an owned area, from [i] on. *)
Lemma bytes_of d q w i n : holds d (q, w) -> (i + n <= length w)%nat -> bytes d (q + Z.of_nat i) n = take n (drop i w).
Proof.
  intros H Hl. apply list_eq. intros j. unfold bytes. rewrite list_lookup_fmap.
  destruct (decide (j < n)%nat) as [Hj|Hj].
  - rewrite lookup_take_lt, lookup_drop, lookup_seq_lt by lia. simpl. destruct (lookup_lt_is_Some_2 w (i + j)) as [c Hc]; [lia|].
    rewrite Hc. f_equal. rewrite <-(H (i + j)%nat c Hc). simpl. do 2 f_equal. lia.
  - rewrite lookup_seq_ge by lia. simpl. symmetry. apply lookup_ge_None. rewrite length_take. lia.
Qed.

(** The result of a call: the areas held, and what is left behind. *)
Lemma returned_ext d c own L ownL r own' :
  cpost c own r None own' -> call_ok c -> Forall2 ext (carea c) own -> Forall2 ext L ownL -> Forall (holds d) own' ->
  exists fresh left, own' = fresh ++ left /\ Forall2 ext (returned d c L r) (fresh ++ ownL).
Proof.
  intros [_ Hp] Hok He HL Hd.
  assert (forall size w, 0 <= size <= zlen w -> holds d (r, w) -> ext (r, bytes d r (Z.to_nat size)) (r, w)) as Hfresh.
  { intros size w Hs Hh. split; [done|]. simpl. pose proof (bytes_of d r w 0 (Z.to_nat size) Hh) as E. rewrite Z.add_0_r in E.
    rewrite E by lia. rewrite drop_0. apply prefix_take. }
  destruct c as [size|a|a new|new]; simpl in *.
  1, 4: destruct Hp as [[-> ->]|(Hr & w & -> & Hw)]; [by exists [], []|]; exists [(r, w)], [];
    rewrite (proj2 (Z.eqb_neq _ _)) by done; apply Forall_cons in Hd as [Hd _]; split; [done|]; constructor; [apply Hfresh; [lia|done]|done].
  - exists [], own'. done.
  - destruct Hp as (b & -> & Hp). apply Forall2_cons in He as [Hab _].
    destruct Hp as [[-> Hp]|(Hr & w' & rest & -> & Hw & Hk)].
    + destruct (Z.eqb_spec new 0) as [->|Hn]; simpl; [by exists [], own'|].
      destruct Hp as [->|[? _]]; [|lia]. exists [b], []. split; [done|]. by constructor.
    + rewrite (proj2 (Z.eqb_neq _ _)) by done. exists [(r, w')], rest. split; [done|]. constructor; [|done].
      apply Forall_cons in Hd as [Hd _]. destruct Hab as [_ [t Et]]. set (n := Z.to_nat new) in *. set (old := take n a.2).
      assert (length old = Nat.min n (length a.2)) as Eo by apply length_take.
      assert (take (length old) w' = old) as Etk.
      { transitivity (take (length old) (take (Nat.min (length b.2) n) w')).
        - rewrite take_take. f_equal. rewrite Et, length_app. lia.
        - rewrite Hk, take_take, Et, take_app_le by (rewrite Et in *; rewrite ?length_app; lia). rewrite length_app. unfold old at 2.
          destruct (Nat.le_gt_cases n (length a.2)); [f_equal; lia|by rewrite !take_ge by lia]. }
      split; [done|]. simpl. rewrite (bytes_of d r w') by (done || lia).
      assert (take n w' = old ++ take (n - length old) (drop (length old) w')) as <-; [|apply prefix_take].
      rewrite <-Etk at 1. rewrite take_drop_commute. replace (length old + (n - length old))%nat with n by lia.
      rewrite <-(take_drop (length old) (take n w')) at 1. f_equal. rewrite take_take. f_equal. lia.
Qed.

(** *** The areas of all threads *)

(** Of a thread: whether it has the lock, the areas it holds, those of its call. *)
Notation info := (mode * list area * list area)%type.
Definition owned (x : info) : list area := x.1.2 ++ x.2.
(** [X]: areas nobody holds any more. *)
Definition every (I : list info) (X : list area) : list area := concat (owned <$> I) ++ X.
(** All but those of the call of thread [i]. *)
Definition others (i : nat) (I : list info) (X : list area) : list area :=
  concat (owned <$> delete i I) ++ X.

Lemma every_split i I X x : I !! i = Some x -> every I X ≡ₚ owned x ++ others i I X.
Proof.
  intros Hi. unfold every, others. rewrite <-(take_drop_middle I i x Hi) at 1. rewrite delete_take_drop, !fmap_app, fmap_cons, !concat_app.
  simpl. solve_Permutation.
Qed.
Lemma others_insert i I X x : others i (<[i := x]> I) X = others i I X.
Proof. unfold others. by rewrite !delete_take_drop, take_insert_ge, drop_insert_lt by lia. Qed.
Lemma every_insert i I X x x' : I !! i = Some x -> every (<[i := x']> I) X ≡ₚ owned x' ++ others i I X.
Proof. intros Hi. rewrite <-(others_insert i I X x'). apply every_split, list_lookup_insert_eq. by apply lookup_lt_Some in Hi. Qed.
Lemma others_elem i j I X x a : j <> i -> I !! j = Some x -> a ∈ owned x -> a ∈ others i I X.
Proof.
  intros Hne Hj Ha. unfold others. apply elem_of_app. left. rewrite delete_take_drop, fmap_app, concat_app, elem_of_app.
  destruct (decide (j < i)%nat) as [Hlt|Hge].
  - left. apply list_elem_of_In, in_concat. exists (owned x). split; [|by apply list_elem_of_In].
    apply list_elem_of_In, list_elem_of_fmap. exists x. split; [done|]. apply list_elem_of_lookup. exists j. by rewrite lookup_take_lt.
  - right. apply list_elem_of_In, in_concat. exists (owned x). split; [|by apply list_elem_of_In].
    apply list_elem_of_In, list_elem_of_fmap. exists x. split; [done|]. apply list_elem_of_lookup. exists (j - S i)%nat.
    rewrite lookup_drop. replace (S i + (j - S i))%nat with j by lia. done.
Qed.

(** *** The state and the threads *)

(** The headers of the areas [A] are in place. *)
Definition headers_ok (h : hstate) (A : list (Z * Z)) : Prop :=
  mh_addr (hs_heap h) = heap /\
  forall q l, (q, l) ∈ A -> nx (hs_blk h) !! (q - 24) = Some (q + l) /\ hs_pool h !! (q - 24) = Some heap.

Definition spans_ok (A : list (Z * Z)) : Prop := Forall in_range A /\ ForallOrdPairs disjoint_spans A.

(** A thread and what it owns. *)
Definition thread_ok (t : thread) (x : info) : Prop :=
  match t with
  | Idle L => x.1.1 = None /\ x.2 = [] /\ Forall2 ext L x.1.2
  | InCall c L p => Forall2 ext L x.1.2 /\ call_ok c /\ exists own, Forall2 ext (carea c) own /\ wp p x.1.1 x.2 (cpost c own)
  end.

(** The lock is free and the headers are consistent, or one thread has it. *)
Definition lock_ok (h : hstate) (l : Z) (I : list info) (X : list area) : Prop :=
  l = 1 /\ (forall j x, I !! j = Some x -> x.1.1 = None) /\ hinv h (spans (every I X)) \/
  l = 0 /\ exists i oL oc oth, I !! i = Some (Some (h, oth), oL, oc) /\
    (forall j x, I !! j = Some x -> j <> i -> x.1.1 = None) /\
    oth ≡ₚ spans (oL ++ others i I X) /\ headers_ok h oth.

Definition ginv (g : config) : Prop :=
  exists I X, Forall2 thread_ok (c_ts g) I /\ Forall (holds (c_d g)) (every I X) /\ spans_ok (spans (every I X)) /\
    lock_ok (c_h g) (c_lock g) I X.

Lemma hinv_headers h A : hinv h A -> headers_ok h A.
Proof.
  intros Hh. split; [destruct Hh as (bs & F & Hw & _); apply Hw|]. intros q l Hin.
  destruct (elem_of_Permutation A (q, l)) as [[A' HA] _]; [done|].
  destruct (hinv_area heap base psize h q l A') as (bs1 & bs2 & F & Hw & -> & _); [by eapply hinv_perm|].
  replace (base + total bs1 + 24 - 24) with (base + total bs1) by lia. split.
  - destruct (wf_next heap base psize h _ _ _ _ _ Hw) as [-> _]. f_equal. lia.
  - pose proof (mw_marks _ _ _ _ _ _ Hw) as Hm. rewrite marked_app in Hm. simpl in Hm. by destruct Hm as (_ & _ & ? & _).
Qed.

Lemma payloads_apart bs : sized bs -> forall off, ForallOrdPairs disjoint_spans (payloads off bs).
Proof.
  induction 1 as [|[u n] bs [Hn _] Hs IH]; intros off; simpl in *; [constructor|]. destruct u; [|apply IH]. constructor; [|apply IH].
  eapply Forall_impl; [apply (payloads_bound _ Hs)|]. intros [q l]. unfold disjoint_spans. simpl. lia.
Qed.

Lemma pairs_permuted {A} (R : A -> A -> Prop) (l l' : list A) :
  (forall x y, R x y -> R y x) -> l ≡ₚ l' -> ForallOrdPairs R l -> ForallOrdPairs R l'.
Proof.
  intros Hsym. induction 1 as [|x l l' Hp IH|x y l|l l' l'' _ IH1 _ IH2]; intros Hl; [done| | |by apply IH2, IH1].
  - inversion Hl; subst. constructor; [by rewrite <-Hp|by apply IH].
  - inversion Hl as [|? ? Hy Hl']; subst. inversion Hl' as [|? ? Hx Hl'']; subst.
    apply Forall_cons in Hy as [Hyx Hy]. constructor; [constructor; auto|by constructor].
Qed.
Lemma disjoint_sym a b : disjoint_spans a b -> disjoint_spans b a.
Proof. unfold disjoint_spans. lia. Qed.

Lemma spans_ok_perm A A' : A ≡ₚ A' -> spans_ok A -> spans_ok A'.
Proof. intros E [H1 H2]. split; [by rewrite <-E|]. eapply pairs_permuted; [apply disjoint_sym|done|done]. Qed.

Lemma hinv_spans h A : hinv h A -> spans_ok A.
Proof using Hlay.
  intros Hh. split; [by eapply hinv_range|]. destruct Hh as (bs & F & Hw & Hp).
  eapply pairs_permuted; [apply disjoint_sym|exact Hp|]. apply payloads_apart, Hw.
Qed.

(** A thread changes what it owns, not where, nor whether it has the lock; it may
    leave areas behind. *)
Lemma lock_ok_spans h l I X X' i m oL oc oL' oc' :
  I !! i = Some (m, oL, oc) -> spans (every (<[i := (m, oL', oc')]> I) X') ≡ₚ spans (every I X) -> (m <> None -> oL' = oL /\ X' = X) ->
  lock_ok h l I X -> lock_ok h l (<[i := (m, oL', oc')]> I) X'.
Proof.
  intros Hi Ea EL Hl.
  assert (forall j x, <[i := (m, oL', oc')]> I !! j = Some x -> exists x', I !! j = Some x' /\ x.1.1 = x'.1.1) as Hmode.
  { intros j x Hj. destruct (decide (j = i)) as [->|Hne].
    - rewrite list_lookup_insert_eq in Hj by (by apply lookup_lt_Some in Hi). injection Hj as <-. by eexists.
    - rewrite list_lookup_insert_ne in Hj by done. by exists x. }
  destruct Hl as [(-> & Hn & Hh)|(-> & j & jL & jc & oth & Hj & Hn & Ho & Hok)]; [left|right]; (split; [done|]).
  - split; [|by eapply hinv_perm]. intros k x Hk. destruct (Hmode k x Hk) as (x' & Hk' & ->). by eapply Hn.
  - assert (forall k x, <[i := (m, oL', oc')]> I !! k = Some x -> k <> j -> x.1.1 = None) as Hn'.
    { intros k x Hk Hkj. destruct (Hmode k x Hk) as (x' & Hk' & ->). by eapply Hn. }
    destruct (decide (j = i)) as [->|Hne].
    + rewrite Hi in Hj. injection Hj as -> -> ->. destruct EL as [-> ->]; [done|]. exists i, jL, oc', oth.
      rewrite list_lookup_insert_eq by (by apply lookup_lt_Some in Hi). rewrite others_insert. done.
    + exists j, jL, jc, oth. rewrite list_lookup_insert_ne by done. splits; try done. rewrite Ho.
      apply (Permutation_app_inv_l (spans jc)). rewrite <-!fmap_app, !app_assoc.
      assert (forall I' X', I' !! j = Some (Some (h, oth), jL, jc) -> spans ((jc ++ jL) ++ others j I' X') ≡ₚ spans (every I' X')) as HE.
      { intros I' X1 HI'. rewrite (every_split j I' X1 _ HI'). unfold owned. simpl. by rewrite (Permutation_app_comm jc). }
      rewrite !HE; [by rewrite Ea|by rewrite list_lookup_insert_ne|done].
Qed.

(** ** Soundness of the logic *)

(** What a thread without the lock reads in the headers of its areas. *)
Lemma headers_of h l I X i oL oc :
  lock_ok h l I X -> I !! i = Some (None, oL, oc) -> headers_ok h (spans oc).
Proof.
  intros Hl Hi. destruct Hl as [(_ & _ & Hh)|(_ & j & jL & jc & oth & Hj & _ & Ho & Ha & Hok)].
  - apply hinv_headers in Hh as [Ha Hok]. split; [done|]. intros q n Hq. apply Hok. rewrite (every_split i I X _ Hi). unfold owned.
    simpl. rewrite !fmap_app. set_solver.
  - split; [done|]. intros q n Hq. apply Hok. rewrite Ho, fmap_app. apply elem_of_app. right.
    apply list_elem_of_fmap in Hq as (a & -> & Ha'). apply list_elem_of_fmap. exists a. split; [done|].
    eapply (others_elem j i); [|exact Hi|unfold owned; simpl; set_solver]. intros ->. rewrite Hi in Hj. discriminate.
Qed.

Lemma wp_get_none {A} x (k : Z -> prog A) own Q h :
  wp (Get x k) None own Q -> headers_ok h (spans own) -> exists v, hget x h = Some v /\ wp (k v) None own Q.
Proof.
  cbn [MemHeapSpec.wp]. intros Hw [Ha Hok]. destruct x; try done.
  - destruct Hw as [[w Hw] Hk]. destruct (Hok (p + 24) (zlen w)) as [_ Hp].
    { apply list_elem_of_fmap. by exists (p + 24, w). }
    exists heap. split; [|done]. simpl. by replace (p + 24 - 24) with p in Hp by lia.
  - destruct Hw as (w & Hw & Hk). destruct (Hok (p + 24) (zlen w)) as [Hp _].
    { apply list_elem_of_fmap. by exists (p + 24, w). }
    exists (p + 24 + zlen w). split; [|done]. simpl. by replace (p + 24 - 24) with p in Hp by lia.
  - destruct Hw as [-> Hk]. exists (available_size (hs_heap h)). split; [|done]. simpl. by rewrite Ha, Z.eqb_refl.
Qed.

(** A write the holder of the lock may do leaves the headers of the others. *)
Lemma put_headers x v h h' oth :
  hput x v h = Some h' -> may_write (not_of oth) x -> headers_ok h oth -> headers_ok h' oth.
Proof.
  intros Hp Hm [Ha Hok].
  assert (forall (m : gmap Z Z) p q l, not_of oth p -> (q, l) ∈ oth -> <[p := v]> m !! (q - 24) = m !! (q - 24)) as Hne.
  { intros m p q l Hn Hq. rewrite lookup_insert_ne; [done|]. intros ->. apply (Hn l). by replace (q - 24 + 24) with q by lia. }
  destruct x; simpl in Hp, Hm; (case_match eqn:E; [|done]); injection Hp as <-; try apply Z.eqb_eq in E;
    (split; [simpl; congruence|]); intros q l Hq; simpl; destruct (Hok q l Hq) as [H1 H2]; try done.
  - split; [done|]. by rewrite (Hne _ _ _ l).
  - split; [|done]. by rewrite (Hne _ _ _ l).
Qed.

Lemma store_holds d q w i v R :
  (i < length w)%nat -> Forall (disjoint_spans (q, zlen w)) (spans R) -> Forall (holds d) ((q, w) :: R) ->
  Forall (holds (<[q + Z.of_nat i := v]> d)) ((q, <[i := v]> w) :: R).
Proof.
  intros Hi Hd [Hh HR]%Forall_cons. constructor.
  - intros j c Hj. simpl in *. destruct (decide (i = j)) as [->|Hne].
    + rewrite list_lookup_insert_eq in Hj by done. injection Hj as ->. by rewrite lookup_insert_eq.
    + rewrite list_lookup_insert_ne in Hj by done. rewrite lookup_insert_ne by lia. by apply Hh.
  - apply Forall_forall. intros b Hb j c Hj. pose proof (lookup_lt_Some _ _ _ Hj).
    pose proof (proj1 (Forall_forall _ _) Hd (span b) ltac:(by apply list_elem_of_fmap; exists b)) as Hdj. pose proof (proj1 (Forall_forall _ _) HR b Hb) as Hhb.
    unfold disjoint_spans, span in Hdj. simpl in Hdj. rewrite lookup_insert_ne by lia. by apply Hhb.
Qed.

(** Thread [i] gives itself the information [x']; nothing else changes. *)
Lemma ginv_thread h d l ts I X i t x x' :
  Forall2 thread_ok ts I -> I !! i = Some x -> thread_ok t x' ->
  Forall (holds d) (owned x' ++ others i I X) -> spans_ok (spans (owned x' ++ others i I X)) ->
  lock_ok h l (<[i := x']> I) X -> ginv (Config h d l (<[i := t]> ts)).
Proof.
  intros HT Hi Ht Hd Hs Hl. exists (<[i := x']> I), X. simpl. splits; [by apply Forall2_insert| | |done].
  - by rewrite (every_insert i I X _ _ Hi).
  - eapply spans_ok_perm; [|exact Hs]. by rewrite (every_insert i I X _ _ Hi).
Qed.

Lemma lock_held h l I X i s oth oL oc :
  lock_ok h l I X -> I !! i = Some (Some (s, oth), oL, oc) ->
  s = h /\ l = 0 /\ (forall j x, I !! j = Some x -> j <> i -> x.1.1 = None) /\ oth ≡ₚ spans (oL ++ others i I X) /\ headers_ok h oth.
Proof.
  intros Hl Hi. destruct Hl as [(_ & Hn & _)|(-> & j & jL & jc & oth' & Hj & Hn & Ho & Hok)].
  - by apply Hn in Hi.
  - destruct (decide (j = i)) as [->|Hne]; [|by apply Hn in Hi]. rewrite Hi in Hj. injection Hj as -> -> -> ->. done.
Qed.

(** A thread that takes the lock. *)
Lemma lock_taken h l I X i oL oc :
  lock_ok h l I X -> I !! i = Some (None, oL, oc) -> 0 < l ->
  let oth := spans (oL ++ others i I X) in
  l = 1 /\ hinv h (spans oc ++ oth) /\ lock_ok h 0 (<[i := (Some (h, oth), oL, oc)]> I) X.
Proof.
  intros Hl Hi Hpos oth. destruct Hl as [(-> & Hn & Hh)|(-> & _)]; [|lia].
  assert (hinv h (spans oc ++ oth)) as Hh'.
  { eapply hinv_perm; [exact Hh|]. rewrite (every_split i I X _ Hi). unfold owned, oth. simpl. rewrite !fmap_app. solve_Permutation. }
  splits; [done|done|]. right. split; [done|]. exists i, oL, oc, oth. rewrite list_lookup_insert_eq by (by apply lookup_lt_Some in Hi).
  rewrite others_insert. splits; [done| |done|].
  - intros j x Hj Hne. rewrite list_lookup_insert_ne in Hj by done. by eapply Hn.
  - apply hinv_headers in Hh' as [Ha Hok]. split; [done|]. intros q n Hq. apply Hok. set_solver.
Qed.

(** What a thread that stores a byte, or returns the lock, leaves in memory. *)
Lemma byte_stored d I X i own1 q w own2 j v oL oc m :
  I !! i = Some (m, oL, oc) -> oL ++ oc = own1 ++ (q, w) :: own2 -> (j < length w)%nat ->
  Forall (holds d) (every I X) -> spans_ok (spans (every I X)) ->
  Forall (holds (<[q + Z.of_nat j := v]> d)) ((own1 ++ (q, <[j := v]> w) :: own2) ++ others i I X) /\
  spans_ok (spans ((own1 ++ (q, <[j := v]> w) :: own2) ++ others i I X)).
Proof.
  intros Hi E Hj Hh Hs.
  assert (every I X ≡ₚ (q, w) :: own1 ++ own2 ++ others i I X) as HE.
  { rewrite (every_split i I X _ Hi). unfold owned. simpl. rewrite E. solve_Permutation. }
  assert (forall w', (own1 ++ (q, w') :: own2) ++ others i I X ≡ₚ (q, w') :: own1 ++ own2 ++ others i I X) as HE' by (intros; solve_Permutation).
  rewrite HE in Hh. apply (spans_ok_perm _ _ (fmap_Permutation span _ _ HE)) in Hs. split.
  - rewrite HE'. apply store_holds; [done| |done]. destruct Hs as [_ Hs]. by inversion Hs.
  - eapply spans_ok_perm; [symmetry; apply fmap_Permutation, HE'|]. rewrite fmap_cons in Hs |- *.
    replace (span (q, <[j := v]> w)) with (span (q, w)); [done|]. unfold span. simpl. by rewrite length_insert.
Qed.

Lemma released_ok h d oL (oc : list area) oth R A' :
  hinv h (A' ++ oth) -> oth ≡ₚ spans (oL ++ R) -> Forall (holds d) ((oL ++ oc) ++ R) ->
  exists oc', spans oc' = A' /\ kept oc oc' /\ Forall (holds d) ((oL ++ oc') ++ R) /\ hinv h (spans ((oL ++ oc') ++ R)).
Proof using Hlay.
  intros Hv Ho Hh. apply Forall_app in Hh as [[HoL Hoc]%Forall_app HR].
  pose proof (hinv_range heap base psize Hlay h _ Hv) as Hr. apply Forall_app in Hr as [Hr _].
  set (oc' := (fun b : Z * Z => (b.1, bytes d b.1 (Z.to_nat b.2))) <$> A').
  assert (spans oc' = A') as Es.
  { unfold oc'. rewrite <-list_fmap_compose. transitivity (id <$> A'); [|apply list_fmap_id]. apply list_fmap_ext. intros n [q l] Hn.
    unfold span. simpl. rewrite length_bytes. eapply Forall_lookup_1 in Hr; [|exact Hn]. unfold MemHeapSpec.in_range in Hr. simpl in Hr. f_equal. lia. }
  assert (Forall (holds d) oc') as Hd'.
  { apply Forall_fmap, Forall_true. intros b. apply holds_bytes. }
  exists oc'. splits; [done|by exists d| |].
  - rewrite !Forall_app. done.
  - eapply hinv_perm; [exact Hv|]. rewrite Ho, !fmap_app, Es. solve_Permutation.
Qed.

(** Every access of a thread keeps the invariant. *)
Lemma access_ok h d l ts i c L p h' d' l' p' :
  ginv (Config h d l ts) -> ts !! i = Some (InCall c L p) -> pstep h d l p h' d' l' p' ->
  ginv (Config h' d' l' (<[i := InCall c L p']> ts)).
Proof using Hlay.
  intros (I & X & HT & Hh & Hs & Hl) Hti Hstep. simpl in *.
  destruct (Forall2_lookup_l _ _ _ _ _ HT Hti) as ([[m oL] oc] & Hi & Ht). pose proof Ht as (HL & Hok & own & Hown & Hw). simpl in HL, Hw.
  pose proof (every_split i I X _ Hi) as HE. pose proof Hh as Hh0. rewrite HE in Hh0. unfold owned in Hh0. simpl in Hh0.
  pose proof (spans_ok_perm _ _ (fmap_Permutation span _ _ HE) Hs) as Hs0.
  assert (forall m' p'', wp p'' m' oc (cpost c own) -> lock_ok h' l' (<[i := (m', oL, oc)]> I) X -> d' = d ->
    ginv (Config h' d' l' (<[i := InCall c L p'']> ts))) as Hgo.
  { intros m' p'' Hw' Hl' ->. eapply (ginv_thread _ _ _ _ I X i _ _ (m', oL, oc) HT Hi); [|done|done|done].
    split; [done|]. split; [done|]. by exists own. }
  destruct Hstep as [h d l x k v Hg|h d l x v k h' Hp|h d l a k|h d l a v k|h d l a k Hpos|h d l a k].
  - apply (Hgo m); [|by rewrite list_insert_id|done]. destruct m as [[s oth]|].
    + destruct (lock_held _ _ _ _ _ _ _ _ _ Hl Hi) as (-> & _). destruct Hw as (v' & Hg' & Hw). congruence.
    + destruct (wp_get_none _ _ _ _ h Hw) as (v' & Hg' & Hw'); [by eapply headers_of|congruence].
  - destruct m as [[s oth]|]; [|done]. destruct Hw as (Hm & s' & Hp' & Hw).
    destruct (lock_held _ _ _ _ _ _ _ _ _ Hl Hi) as (-> & -> & Hn & Ho & Hhd). rewrite Hp in Hp'. injection Hp' as <-.
    apply (Hgo (Some (h', oth))); [done| |done]. right. split; [done|]. exists i, oL, oc, oth.
    rewrite list_lookup_insert_eq by (by apply lookup_lt_Some in Hi). rewrite others_insert. splits; [done| |done|by eapply put_headers].
    intros j x' Hj Hne. rewrite list_lookup_insert_ne in Hj by done. by eapply Hn.
  - destruct Hw as (-> & q & w & n & v & Hin & -> & Hv & Hw). apply (Hgo None); [|by rewrite list_insert_id|done].
    replace (default 0 (d !! (q + Z.of_nat n))) with v; [done|]. symmetry. apply (proj1 (Forall_forall _ _) Hh0 (q, w)); [set_solver|done].
  - destruct Hw as (-> & own1 & q & w & own2 & n & -> & -> & Hn & Hw).
    destruct (byte_stored d I X i (oL ++ own1) q w own2 n v oL (own1 ++ (q, w) :: own2) None Hi) as [Hh' Hs']; [by rewrite <-app_assoc|done..|].
    eapply (ginv_thread _ _ _ _ I X i _ _ (None, oL, own1 ++ (q, <[n:=v]> w) :: own2) HT Hi).
    + split; [done|]. split; [done|]. by exists own.
    + unfold owned. simpl. by rewrite (app_assoc oL).
    + unfold owned. simpl. by rewrite (app_assoc oL).
    + eapply lock_ok_spans; [exact Hi| |done|exact Hl]. rewrite (every_insert i I X _ _ Hi), HE. unfold owned. simpl.
      rewrite !fmap_app, !fmap_cons. replace (span (q, <[n := v]> w)) with (span (q, w)); [done|]. unfold span. simpl. by rewrite length_insert.
  - destruct Hw as (-> & -> & _ & Hw). destruct (lock_taken _ _ _ _ _ _ _ Hl Hi Hpos) as (-> & Hv & Hl').
    eapply Hgo; [by apply Hw|done|done].
  - destruct Hw as (-> & s & oth & -> & A' & HA & Hw). destruct (lock_held _ _ _ _ _ _ _ _ _ Hl Hi) as (-> & -> & Hn & Ho & Hhd).
    destruct (released_ok h d oL oc oth _ A' HA Ho Hh0) as (oc' & Es & Hk & Hh' & Hv).
    eapply (ginv_thread _ _ _ _ I X i _ _ (None, oL, oc') HT Hi).
    + split; [done|]. split; [done|]. exists own. split; [done|]. by apply Hw.
    + done.
    + by eapply hinv_spans.
    + left. split; [done|]. split.
      * intros j x Hj. destruct (decide (j = i)) as [->|Hne]; [|rewrite list_lookup_insert_ne in Hj by done; by eapply Hn].
        rewrite list_lookup_insert_eq in Hj by (by apply lookup_lt_Some in Hi). by injection Hj as <-.
      * eapply hinv_perm; [exact Hv|]. by rewrite (every_insert i I X _ _ Hi).
Qed.

(** *** The steps between accesses *)

Lemma start_ok h d l ts i c L L' :
  ginv (Config h d l ts) -> ts !! i = Some (Idle L) -> call_ok c -> handed c L L' ->
  ginv (Config h d l (<[i := InCall c L' (code c)]> ts)).
Proof using Hlay.
  intros (I & X & HT & Hh & Hs & Hl) Hti Hok Hhand. simpl in *.
  destruct (Forall2_lookup_l _ _ _ _ _ HT Hti) as ([[m oL] oc] & Hi & (Em & Ec & HL)). simpl in Em, Ec, HL. subst m oc.
  assert (exists oL' own, oL ≡ₚ oL' ++ own /\ Forall2 ext L' oL' /\ Forall2 ext (carea c) own) as (oL' & own & Ho & HL' & Hown).
  { destruct c as [size|a|a new|new]; simpl in Hhand |- *; [subst L'; exists oL, []; by rewrite app_nil_r| | |subst L'; exists oL, []; by rewrite app_nil_r].
    all: destruct (Permutation_Forall2 Hhand HL) as (o & Ho & Hf); apply Forall2_cons_inv_l in Hf as (b & oL' & Hb & Hf & ->);
      exists oL', [b]; split; [by rewrite Ho, Permutation_cons_append|]; auto. }
  pose proof (every_split i I X _ Hi) as HE. unfold owned in HE. simpl in HE. rewrite app_nil_r in HE.
  assert (owned (None : mode, oL', own) ++ others i I X ≡ₚ every I X) as HE' by (unfold owned; simpl; by rewrite HE, Ho).
  assert (spans_ok (spans (owned (None : mode, oL', own) ++ others i I X))) as Hs' by (by eapply spans_ok_perm; [symmetry; apply fmap_Permutation, HE'|]).
  eapply (ginv_thread _ _ _ _ I X i _ _ (None, oL', own) HT Hi); [|by rewrite HE'|done|].
  - split; [done|]. split; [done|]. exists own. split; [done|]. apply call_wp; [done|done|]. destruct Hs' as [Hr _].
    unfold owned in Hr. simpl in Hr. rewrite !fmap_app, !Forall_app in Hr. tauto.
  - eapply lock_ok_spans; [exact Hi| |done|exact Hl]. rewrite (every_insert i I X _ _ Hi). by rewrite HE'.
Qed.

Lemma interrupt_ok h d l ts i c L a k e :
  ginv (Config h d l ts) -> ts !! i = Some (InCall c L (Take a k)) -> e <> RT_EOK ->
  ginv (Config h d l (<[i := InCall c L (k e)]> ts)).
Proof.
  intros (I & X & HT & Hh & Hs & Hl) Hti He. simpl in *.
  destruct (Forall2_lookup_l _ _ _ _ _ HT Hti) as ([[m oL] oc] & Hi & HL & Hok & own & Hown & Hwp).
  simpl in HL, Hwp. destruct Hwp as (-> & -> & Hw & _). exists I, X. simpl. splits; [|done|done|done]. rewrite <-(list_insert_id I i _ Hi). apply Forall2_insert; [done|].
  split; [done|]. split; [done|]. exists own. split; [done|]. by apply Hw.
Qed.

Lemma return_ok h d l ts i c L r :
  ginv (Config h d l ts) -> ts !! i = Some (InCall c L (Done r)) ->
  ginv (Config h d l (<[i := Idle (returned d c L r)]> ts)).
Proof.
  intros (I & X & HT & Hh & Hs & Hl) Hti. simpl in *.
  destruct (Forall2_lookup_l _ _ _ _ _ HT Hti) as ([[m oL] oc] & Hi & HL & Hok & own & Hown & Hp). simpl in HL, Hp.
  pose proof Hp as [-> _]. pose proof (every_split i I X _ Hi) as HE. unfold owned in HE. simpl in HE.
  destruct (returned_ext d c own L oL r oc) as (fresh & left & -> & Hf); [done|done|done|done| |].
  { rewrite HE, !Forall_app in Hh. tauto. }
  assert (every (<[i := (None, fresh ++ oL, [])]> I) (left ++ X) ≡ₚ every I X) as HE'.
  { rewrite (every_insert i I _ _ _ Hi), HE. unfold owned, others. simpl. solve_Permutation. }
  exists (<[i := (None, fresh ++ oL, [])]> I), (left ++ X). simpl. splits.
  - by apply Forall2_insert.
  - by rewrite HE'.
  - by eapply spans_ok_perm; [symmetry; apply fmap_Permutation, HE'|].
  - eapply lock_ok_spans; [exact Hi| |done|exact Hl]. by rewrite HE'.
Qed.

Lemma write_ok h d l ts i L1 q w L2 j v :
  ginv (Config h d l ts) -> ts !! i = Some (Idle (L1 ++ (q, w) :: L2)) -> (j < length w)%nat ->
  ginv (Config h (<[q + Z.of_nat j := v]> d) l (<[i := Idle (L1 ++ (q, <[j := v]> w) :: L2)]> ts)).
Proof.
  intros (I & X & HT & Hh & Hs & Hl) Hti Hj. simpl in *.
  destruct (Forall2_lookup_l _ _ _ _ _ HT Hti) as ([[m oL] oc] & Hi & (Em & Ec & HL)). simpl in Em, Ec, HL. subst m oc.
  apply Forall2_app_inv_l in HL as (o1 & o2 & H1 & H2 & ->). apply Forall2_cons_inv_l in H2 as ([q' w'] & o3 & [Eq [t Et]] & H3 & ->).
  simpl in Eq, Et. subst q' w'.
  destruct (byte_stored d I X i o1 q (w ++ t) o3 j v _ _ _ Hi) as [Hh' Hs']; [by rewrite app_nil_r|rewrite length_app; lia|done|done|].
  pose proof (every_split i I X _ Hi) as HE. unfold owned in HE. simpl in HE. rewrite app_nil_r in HE.
  eapply (ginv_thread _ _ _ _ I X i _ _ (None, o1 ++ (q, <[j := v]> (w ++ t)) :: o3, []) HT Hi); unfold owned; simpl; rewrite ?app_nil_r; try done.
  - split; [done|]. split; [done|]. simpl. apply Forall2_app; [done|]. constructor; [|done]. split; [done|]. simpl.
    rewrite insert_app_l by done. by apply prefix_app_r.
  - eapply lock_ok_spans; [exact Hi| |done|exact Hl]. rewrite (every_insert i I X _ _ Hi), HE. unfold owned. simpl. rewrite app_nil_r, !fmap_app, !fmap_cons.
    replace (span (q, <[j := v]> (w ++ t))) with (span (q, w ++ t)); [done|]. unfold span. simpl. by rewrite length_insert.
Qed.

Lemma cstep_ginv g g' : ginv g -> cstep g g' -> ginv g'.
Proof using Hlay.
  intros Hg Hst. destruct Hst; [by eapply start_ok|by eapply access_ok|by eapply interrupt_ok|by apply return_ok|by apply write_ok].
Qed.
(** *** What the invariant gives *)

Lemma held_ext ts I : Forall2 thread_ok ts I -> exists O rest, Forall2 ext (concat (held <$> ts)) O /\ concat (owned <$> I) ≡ₚ O ++ rest.
Proof.
  induction 1 as [|t [[m oL] oc] ts I Ht _ (O & rest & HO & HR)]; [by exists [], []|]. exists (oL ++ O), (oc ++ rest). split.
  - simpl. apply Forall2_app; [|done]. destruct t; simpl in Ht; tauto.
  - simpl. rewrite HR. unfold owned at 1. simpl. solve_Permutation.
Qed.

Lemma ext_apart L O : Forall2 ext L O -> ForallOrdPairs disjoint_spans (spans O) -> ForallOrdPairs disjoint_spans (spans L).
Proof.
  assert (forall a b, ext a b -> (span a).1 = (span b).1 /\ (span a).2 <= (span b).2) as Hext.
  { intros a b [E P%prefix_length]. unfold span. simpl. lia. }
  induction 1 as [|a b L O Hab HLO IH]; intros Hd; [constructor|]. rewrite fmap_cons in Hd |- *. inversion Hd as [|? ? Hb Hd']; subst.
  constructor; [|by apply IH]. clear IH Hd Hd'. apply Hext in Hab. revert Hb.
  induction HLO as [|x y L O Hxy _ IH]; intros Hb; [constructor|]. rewrite fmap_cons in Hb |- *. apply Forall_cons in Hb as [Hy Hb].
  constructor; [|by apply IH]. apply Hext in Hxy. unfold disjoint_spans in *. lia.
Qed.

Lemma ginv_safe g : ginv g -> areas_safe g.
Proof.
  intros (I & X & HT & Hh & [Hr Hd] & _). destruct (held_ext _ _ HT) as (O & rest & HO & HR).
  assert (every I X ≡ₚ O ++ (rest ++ X)) as HE by (unfold every; by rewrite HR, app_assoc).
  rewrite HE in Hh, Hr. apply Forall_app in Hh as [Hh _]. rewrite fmap_app in Hr. apply Forall_app in Hr as [Hr _].
  assert (ForallOrdPairs disjoint_spans (spans O)) as HdO.
  { eapply pairs_permuted in Hd; [|apply disjoint_sym|by apply fmap_Permutation, HE]. rewrite fmap_app in Hd.
    clear -Hd. induction (spans O) as [|a l IH]; [constructor|]. inversion Hd as [|? ? Ha Hd']; subst. apply Forall_app in Ha as [Ha _]. constructor; auto. }
  split; [|split; [by eapply ext_apart|]]; rewrite Forall_forall; intros a Ha;
    apply list_elem_of_lookup in Ha as [n Hn]; destruct (Forall2_lookup_l _ _ _ _ _ HO Hn) as (b & Hb & Hab).
  - rewrite Forall_fmap in Hr. eapply Forall_lookup_1 in Hr; [|exact Hb]. destruct Hab as [E P%prefix_length].
    unfold MemHeapSpec.in_range, span in Hr. simpl in Hr. rewrite E. lia.
  - eapply holds_prefix; [exact Hab|]. by eapply Forall_lookup_1 in Hh.
Qed.

Lemma wp_can_step h d l p m own c o :
  wp p m own (cpost c o) -> (m = None -> headers_ok h (spans own)) -> (forall s oth, m = Some (s, oth) -> s = h) ->
  (exists r, p = Done r) \/ (exists k, p = Take heap k /\ m = None) \/ exists h' d' l' p', pstep h d l p h' d' l' p'.
Proof.
  intros Hw Hn Hs. destruct p as [r|x k|x v k|a k|a v k|a k|a k|]; [by left; exists r|right..].
  - right. assert (exists v, hget x h = Some v) as [v Hv]; [|by eexists _, _, _, _; econstructor].
    destruct m as [[s oth]|]; [destruct Hw as (v & Hv & _); rewrite (Hs s oth eq_refl) in Hv; by exists v|].
    destruct (wp_get_none _ _ _ _ h Hw (Hn eq_refl)) as (v & Hv & _). by exists v.
  - right. destruct m as [[s oth]|]; [|done]. destruct Hw as (_ & s' & Hv & _). rewrite (Hs s oth eq_refl) in Hv. by eexists _, _, _, _; econstructor.
  - right. by eexists _, _, _, _; econstructor.
  - right. by eexists _, _, _, _; econstructor.
  - left. destruct Hw as (-> & -> & _). by exists k.
  - right. by eexists _, _, _, _; econstructor.
  - done.
Qed.

Lemma ginv_progress g : ginv g -> never_stuck g.
Proof.
  destruct g as [h d l ts]. intros (I & X & HT & Hh & Hs & Hl) i c L p Hi. simpl in *.
  assert (forall j x c' L' p', I !! j = Some x -> ts !! j = Some (InCall c' L' p') ->
    (exists k, p' = Take heap k /\ x.1.1 = None) \/ can_go (Config h d l ts) j) as Hgo.
  { intros j [[m oL] oc] c' L' p' Hj Htj. destruct (Forall2_lookup_l _ _ _ _ _ HT Htj) as (x & Hj' & HL & Hok & own & Hown & Hw).
    rewrite Hj in Hj'. injection Hj' as <-. simpl in Hw |- *. unfold can_go. simpl. rewrite Htj.
    destruct (wp_can_step h d l p' m oc c' own Hw) as [[r ->]|[?|Hst]].
    - intros ->. by eapply headers_of.
    - intros s oth ->. by destruct (lock_held _ _ _ _ _ _ _ _ _ Hl Hj).
    - by right.
    - by left.
    - right. destruct p'; try done; exact Hst. }
  destruct (Forall2_lookup_l _ _ _ _ _ HT Hi) as (x & Hx & _). destruct (Hgo i x c L p Hx Hi) as [(k & -> & Hm)|?]; [|by left].
  destruct Hl as [(-> & _)|(-> & j & jL & jc & oth & Hj & _)].
  - left. unfold can_go. simpl. rewrite Hi. eexists _, _, _, _. by constructor.
  - right. exists k. split; [done|]. split; [done|]. exists j. split; [intros ->; rewrite Hj in Hx; by injection Hx as <-|].
    destruct (Forall2_lookup_r _ _ _ _ _ HT Hj) as ([Lj|cj Lj pj] & Htj & Hok); [by destruct Hok|].
    destruct (Hgo j _ cj Lj pj Hj Htj) as [(? & _ & ?)|?]; done.
Qed.

Lemma ginv_initial h d n : hinv h [] -> ginv (Config h d 1 (replicate n (Idle []))).
Proof.
  intros Hh. exists (replicate n (None, [], [])), []. simpl.
  assert (every (replicate n (None, [], [])) [] = []) as ->.
  { unfold every. rewrite fmap_replicate, app_nil_r. unfold owned. simpl. by induction n. }
  splits; [|done| |].
  - clear Hh. induction n; simpl; constructor; [|done]. by split.
  - split; constructor.
  - left. splits; [done| |].
    + intros j x Hj. apply lookup_replicate in Hj as [-> _]. done.
    + unfold every. rewrite fmap_replicate, app_nil_r. unfold owned. simpl.
      replace (concat (replicate n [])) with (@nil area) by (clear; induction n; done). done.
Qed.
End Threads.

(** ** A heap and its threads *)

(** A program that only accesses headers, run by the only thread. *)
Fixpoint mrun {A} (p : prog A) (s : hstate) : option (A * hstate) :=
  match p with
  | Done a => Some (a, s)
  | Get x k => hget x s ≫= fun v => mrun (k v) s
  | Put x v k => hput x v s ≫= mrun k
  | Take _ k => mrun (k RT_EOK) s
  | Release _ k => mrun k s
  | _ => None
  end.

Lemma srun_mrun {A} W (p : prog A) Q : forall s, srun W p s Q -> exists a s', mrun p s = Some (a, s') /\ Q a s'.
Proof.
  unfold srun. induction p as [a|x c IH|x v c IH|a c IH|a v c IH|h c IH|h c IH|]; intros s H; simpl in *; try done.
  - by eexists _, _.
  - destruct H as (v & -> & H). simpl. by apply IH.
  - destruct H as (_ & s' & -> & H). simpl. by apply IH.
Qed.

(** C19: memory heaps are safe to share. After [rt_memheap_init] of a pool, let
    any number of threads call [rt_memheap_alloc], [rt_memheap_free] (of an area
    they hold) and [rt_memheap_realloc] (of an area they hold, or of RT_NULL)
    in any order and any number of times, be interrupted between any two accesses
    to headers or bytes, be woken from the heap's lock with an error, and write to
    the areas they hold. Then at every moment the areas held by all threads are
    aligned, inside the pool, apart from each other, and contain the bytes last
    written (after resizing, the old bytes in front); and a thread in a call can
    go on, or waits for the lock while the thread that has it can go on: no call
    reads or writes outside the heap, or misses a header. *)
Theorem memheap_threads_safe heap base size s d n :
  let psize := RT_ALIGN_DOWN size 4 in
  layout heap base psize -> 60 <= psize -> psize mod 4 = 0 -> mh_addr (hs_heap s) = heap ->
  exists h, mrun (rt_memheap_init heap base size) s = Some (tt, h) /\
    forall g, rtc (cstep heap psize) (Config h d 1 (replicate n (Idle []))) g -> areas_safe base psize g /\ never_stuck heap g.
Proof.
  intros psize Hlay Hmin Hal Ha.
  destruct (srun_mrun _ _ _ _ (rt_memheap_init_spec heap base psize Hlay s size Ha eq_refl Hmin Hal)) as ([] & h & Hrun & Hw).
  exists h. split; [done|]. intros g Hr.
  assert (ginv heap base psize g) as Hg; [|split; [by eapply ginv_safe|by eapply ginv_progress]].
  assert (ginv heap base psize (Config h d 1 (replicate n (Idle [])))) as H0 by (apply ginv_initial; by exists [(false, psize - 24)], [base]).
  revert H0. induction Hr as [|g1 g2 g3 Hst _ IH]; [done|]. intros H1. apply IH. by eapply cstep_ginv.
Qed.

Definition demo_hstate : hstate := HState (MemHeap 1000 0 0 0 0 0 0) ∅ ∅ (LHeap ∅ ∅) (LHeap ∅ ∅).

Lemma memheap_threads_safe_witness :
  exists h, mrun (rt_memheap_init 1000 2000 403) demo_hstate = Some (tt, h) /\
    forall g, rtc (cstep 1000 400) (Config h ∅ 1 (replicate 2 (Idle []))) g -> areas_safe 2000 400 g /\ never_stuck 1000 g.
Proof.
  apply (memheap_threads_safe 1000 2000 403 demo_hstate ∅ 2); [|vm_compute; discriminate|vm_compute; reflexivity|reflexivity].
  repeat split; try (vm_compute; (reflexivity || discriminate)). left. vm_compute. discriminate.
Defined.

(** *** Sizes near 2^32 *)

Definition demo_calls (size new : Z) : prog (Z * Z * Z) :=
  rt_memheap_init 1000 2000 403;;
  p ← rt_memheap_alloc 10 1000 size;
  q ← rt_memheap_realloc 10 1000 p new;
  n ← get (Next (u32 (p - RT_MEMHEAP_SIZE)));
  mret (p, q, n).

(** [newsize + RT_MEMHEAP_MINIALLOC] wraps: growing 100 bytes to 2^32 - 12
    succeeds, and puts the next header inside the area, at 2012. *)
Lemma rt_memheap_realloc_wraps : fst <$> mrun (demo_calls 100 4294967284) demo_hstate = Some (2024, 2024, 2012).
Proof. vm_compute. reflexivity. Qed.

(** [RT_ALIGN] wraps: a request of 2^32 - 1 bytes is answered with an area of 12. *)
Lemma rt_memheap_alloc_wraps : fst <$> mrun (demo_calls 4294967295 12) demo_hstate = Some (2024, 2024, 2036).
Proof. vm_compute. reflexivity. Qed.
