(* ===== verification/KString.v ===== *)
(** * Memory and string functions (rt-thread/src/kservice.c)

    Bytes at addresses; the configuration is the one without [RT_USING_TINY_SIZE], so
    that [rt_memset] and [rt_memcpy] work on words when they can. [char] is unsigned,
    words are little-endian. An access to an address that is not mapped gives [None]. *)

From S2P Require Import Prelude.

(** ** Memory *)

Notation memory := (gmap Z Z).
Definition bytes_ok (m : memory) : Prop := map_Forall (fun _ b => is_u8 b) m.

Definition store (m : memory) (a v : Z) : option memory := _ ← m !! a; Some (<[a := u8 v]> m).

(** [long] accesses: the bytes of a word. *)
Definition store_word (m : memory) (a w : Z) : option memory :=
  m ← store m a w; m ← store m (a + 1) (Z.shiftr w 8); m ← store m (a + 2) (Z.shiftr w 16); store m (a + 3) (Z.shiftr w 24).
Definition load_word (m : memory) (a : Z) : option Z :=
  b0 ← m !! a; b1 ← m !! (a + 1); b2 ← m !! (a + 2); b3 ← m !! (a + 3);
  Some (Z.lor b0 (Z.lor (Z.shiftl b1 8) (Z.lor (Z.shiftl b2 16) (Z.shiftl b3 24)))).

Definition UNALIGNED (a : Z) : bool := negb (Z.land a 3 =? 0).

(** ** rt_memset *)

(** [while (count--) *m++ = d]. *)
Fixpoint set_bytes (m : memory) (a d : Z) (count : nat) : option memory :=
  match count with O => Some m | S count => m ← store m a d; set_bytes m (a + 1) d count end.
(** Writing [n] words, the address after them. *)
Fixpoint set_words (m : memory) (a buffer : Z) (n : nat) : option (memory * Z) :=
  match n with O => Some (m, a) | S n => m ← store_word m a buffer; set_words m (a + 4) buffer n end.
(** [while (count >= 4 * n)], [n] words a round. *)
Fixpoint set_blocks (fuel : nat) (m : memory) (a buffer : Z) (n count : nat) : option (memory * Z * nat) :=
  if (4 * n <=? count)%nat then
    match fuel with
    | O => None
    | S fuel => '(m, a) ← set_words m a buffer n; set_blocks fuel m a buffer n (count - 4 * n)
    end
  else Some (m, a, count).

Definition rt_memset (m : memory) (s c : Z) (count : nat) : option memory :=
  let d := Z.land c 255 in
  if negb (count <? 4)%nat && negb (UNALIGNED s) then
    let buffer := Z.lor (Z.shiftl d 8) d in
    let buffer := Z.lor buffer (Z.shiftl buffer 16) in
    '(m, a, count) ← set_blocks count m s buffer 4 count;
    '(m, a, count) ← set_blocks count m a buffer 1 count;
    set_bytes m a d count
  else set_bytes m s d count.

(** ** rt_memcpy, rt_memmove, rt_memcmp *)

(** [while (n--) *d++ = *s++]. *)
Fixpoint copy_up (m : memory) (d s : Z) (n : nat) : option memory :=
  match n with O => Some m | S n => b ← m !! s; m ← store m d b; copy_up m (d + 1) (s + 1) n end.
(** [while (n--) *(--d) = *(--s)], from the ends. *)
Fixpoint copy_down (m : memory) (d s : Z) (n : nat) : option memory :=
  match n with O => Some m | S n => b ← m !! (s - 1); m ← store m (d - 1) b; copy_down m (d - 1) (s - 1) n end.

Fixpoint copy_words (m : memory) (d s : Z) (n : nat) : option (memory * Z * Z) :=
  match n with O => Some (m, d, s) | S n => w ← load_word m s; m ← store_word m d w; copy_words m (d + 4) (s + 4) n end.
Fixpoint copy_blocks (fuel : nat) (m : memory) (d s : Z) (n len : nat) : option (memory * Z * Z * nat) :=
  if (4 * n <=? len)%nat then
    match fuel with
    | O => None
    | S fuel => '(m, d, s) ← copy_words m d s n; copy_blocks fuel m d s n (len - 4 * n)
    end
  else Some (m, d, s, len).

(** The comparisons of the signed [len] with the sizes are unsigned. *)
Definition rt_memcpy (m : memory) (dst src : Z) (count : nat) : option memory :=
  if negb (count <? 16)%nat && negb (UNALIGNED src || UNALIGNED dst) then
    '(m, d, s, len) ← copy_blocks count m dst src 4 count;
    '(m, d, s, len) ← copy_blocks len m d s 1 len;
    copy_up m d s len
  else copy_up m dst src count.

Definition rt_memmove (m : memory) (dest src : Z) (n : nat) : option memory :=
  if (src <? dest) && (dest <? src + Z.of_nat n) then copy_down m (dest + Z.of_nat n) (src + Z.of_nat n) n
  else copy_up m dest src n.

Fixpoint rt_memcmp (m : memory) (cs ct : Z) (count : nat) : option Z :=
  match count with
  | O => Some 0
  | S count => x ← m !! cs; y ← m !! ct; if negb (x - y =? 0) then Some (x - y) else rt_memcmp m (cs + 1) (ct + 1) count
  end.

(** ** Strings *)

(** The loops over strings take fuel: a bound on the bytes they look at. *)
Section Strings.
Context (m : memory).

Fixpoint strlen_from (fuel : nat) (sc : Z) : option nat :=
  c ← m !! sc;
  if c =? 0 then Some 0%nat else match fuel with O => None | S fuel => n ← strlen_from fuel (sc + 1); Some (S n) end.
(** The whole memory is enough fuel. *)
Definition rt_strlen (s : Z) : option nat := strlen_from (size m) s.

Fixpoint rt_strnlen (s : Z) (maxlen : nat) : option nat :=
  c ← m !! s;
  if negb (c =? 0) then match maxlen with O => Some 0%nat | S maxlen => n ← rt_strnlen (s + 1) maxlen; Some (S n) end
  else Some 0%nat.

Fixpoint strcmp_from (fuel : nat) (cs ct : Z) : option Z :=
  x ← m !! cs; y ← m !! ct;
  if negb (x =? 0) && (x =? y) then match fuel with O => None | S fuel => strcmp_from fuel (cs + 1) (ct + 1) end
  else Some (x - y).
Definition rt_strcmp (cs ct : Z) : option Z := strcmp_from (size m) cs ct.

(** [signed char]. *)
Definition s8 (x : Z) : Z := let y := x mod 256 in if y <? 128 then y else y - 256.
Fixpoint strncmp_from (cs ct : Z) (count : nat) (res : Z) : option Z :=
  match count with
  | O => Some res
  | S count =>
      x ← m !! cs; y ← m !! ct;
      let res := s8 (x - y) in
      if negb (res =? 0) || (x =? 0) then Some res else strncmp_from (cs + 1) (ct + 1) count res
  end.
Definition rt_strncmp (cs ct : Z) (count : nat) : option Z := strncmp_from cs ct count 0.

Definition lower (c : Z) : Z := if (65 <=? c) && (c <=? 90) then c + (97 - 65) else c.
Fixpoint strcasecmp_from (fuel : nat) (a b : Z) : option Z :=
  x ← m !! a; y ← m !! b;
  let ca := lower (Z.land x 255) in let cb := lower (Z.land y 255) in
  if (ca =? cb) && negb (ca =? 0) then match fuel with O => None | S fuel => strcasecmp_from fuel (a + 1) (b + 1) end
  else Some (u32 (ca - cb)).
Definition rt_strcasecmp (a b : Z) : option Z := strcasecmp_from (size m) a b.

(** [while (l1 >= l2)]: [n] is [l1 - l2 + 1]. *)
Fixpoint strstr_loop (n : nat) (s1 s2 : Z) (l2 : nat) : option (option Z) :=
  match n with
  | O => Some None
  | S n => r ← rt_memcmp m s1 s2 l2; if r =? 0 then Some (Some s1) else strstr_loop n (s1 + 1) s2 l2
  end.
Definition rt_strstr (s1 s2 : Z) : option (option Z) :=
  l2 ← rt_strlen s2;
  if (l2 =? 0)%nat then Some (Some s1)
  else l1 ← rt_strlen s1; strstr_loop (S l1 - l2) s1 s2 l2.
End Strings.

(** The byte copied last and the bytes that are left to be padded. *)
Fixpoint rt_strncpy (m : memory) (dst src : Z) (n : nat) : option memory :=
  match n with
  | O => Some m
  | S n =>
      b ← m !! src; m ← store m dst b;
      if b =? 0 then set_bytes m (dst + 1) 0 n else rt_strncpy m (dst + 1) (src + 1) n
  end.

(** [malloc]: the area the heap gives for a size, and the memory with it mapped. *)
Definition rt_strdup (malloc : memory -> nat -> option (memory * Z)) (m : memory) (s : Z) : option (memory * option Z) :=
  len ← rt_strlen m s;
  match malloc m (S len) with
  | None => Some (m, None)
  | Some (m, tmp) => m ← rt_memcpy m tmp s (S len); Some (m, Some tmp)
  end.

(** The real pointer is kept in the word before the aligned one. *)
Definition rt_malloc_align (malloc : memory -> Z -> option (memory * Z)) (m : memory) (size align : Z) : option (memory * option Z) :=
  let align := Z.land (u32 (align + 3)) (Z.lnot 3) in
  let align_size := u32 (Z.land (u32 (size + 3)) (Z.lnot 3) + align) in
  match malloc m align_size with
  | None => Some (m, None)
  | Some (m, ptr) =>
      let align_ptr := if Z.land ptr (align - 1) =? 0 then u32 (ptr + align) else Z.land (u32 (ptr + (align - 1))) (Z.lnot (align - 1)) in
      m ← store_word m (align_ptr - 4) ptr;
      Some (m, Some align_ptr)
  end.
(** What [rt_free_align] gives to [rt_free]. *)
Definition rt_free_align (m : memory) (ptr : Z) : option Z := load_word m (ptr - 4).

(** ** Words and bytes *)

Lemma u8_testbit x i : 0 <= i -> Z.testbit (u8 x) i = (i <? 8) && Z.testbit x i.
Proof.
  intros Hi. unfold u8. change 256 with (2 ^ 8). destruct (Z.ltb_spec i 8).
  - by rewrite Z.mod_pow2_bits_low.
  - by rewrite Z.mod_pow2_bits_high by lia.
Qed.

Lemma byte_high b i : is_u8 b -> 8 <= i -> Z.testbit b i = false.
Proof. intros Hb Hi. rewrite <-(u8_small b), u8_testbit by (done || lia). by rewrite (proj2 (Z.ltb_ge i 8)). Qed.

Definition word_of (b0 b1 b2 b3 : Z) : Z := Z.lor b0 (Z.lor (Z.shiftl b1 8) (Z.lor (Z.shiftl b2 16) (Z.shiftl b3 24))).

Lemma word_of_bytes b0 b1 b2 b3 : is_u8 b0 -> is_u8 b1 -> is_u8 b2 -> is_u8 b3 ->
  u8 (word_of b0 b1 b2 b3) = b0 /\ u8 (Z.shiftr (word_of b0 b1 b2 b3) 8) = b1 /\
  u8 (Z.shiftr (word_of b0 b1 b2 b3) 16) = b2 /\ u8 (Z.shiftr (word_of b0 b1 b2 b3) 24) = b3.
Proof.
  intros H0 H1 H2 H3. unfold word_of. split_and!; apply Z.bits_inj'; intros i Hi;
    rewrite u8_testbit by done; rewrite ?Z.shiftr_spec, ?Z.lor_spec, ?Z.shiftl_spec by lia;
    (destruct (Z.ltb_spec i 8); [|symmetry; by apply byte_high]); simpl;
    repeat match goal with
    | |- context [Z.testbit ?b ?j] =>
        (rewrite (Z.testbit_neg_r b j) by lia) || (rewrite (byte_high b j) by (assumption || lia))
    end; rewrite ?orb_false_r, ?orb_false_l; first [done|f_equal; lia].
Qed.

(** The word of four equal bytes that [rt_memset] builds. *)
Lemma spread_bytes d : is_u8 d ->
  Z.lor (Z.lor (Z.shiftl d 8) d) (Z.shiftl (Z.lor (Z.shiftl d 8) d) 16) = word_of d d d d.
Proof.
  intros _. unfold word_of. rewrite Z.shiftl_lor, !Z.shiftl_shiftl by lia. simpl (8 + 16).
  rewrite (Z.lor_comm (Z.shiftl d 8) d), <-!Z.lor_assoc. by rewrite (Z.lor_comm (Z.shiftl d 24)).
Qed.

Lemma store_Some m a v m' : store m a v = Some m' -> is_Some (m !! a) /\ m' = <[a := u8 v]> m.
Proof. unfold store. destruct (m !! a) eqn:E; [|done]. simpl. intros [= <-]. split; [by eexists|done]. Qed.

Lemma store_ok m a v m' : bytes_ok m -> store m a v = Some m' -> bytes_ok m'.
Proof. intros Hm [_ ->]%store_Some. apply map_Forall_insert_2; [apply u8_range|done]. Qed.

Lemma store_ne m a v m' x : store m a v = Some m' -> x <> a -> m' !! x = m !! x.
Proof. intros [_ ->]%store_Some Hx. by apply lookup_insert_ne. Qed.

Lemma store_u8 m a v : store m a (u8 v) = store m a v.
Proof. unfold store. by rewrite (u8_small (u8 v)) by apply u8_range. Qed.

(** ** Filling *)

Lemma set_bytes_app n : forall k m a d, set_bytes m a d (n + k) = m' ← set_bytes m a d n; set_bytes m' (a + Z.of_nat n) d k.
Proof.
  induction n as [|n IH]; intros k m a d; simpl; [by rewrite Z.add_0_r|]. destruct (store m a d) as [m1|]; [|done]. simpl. rewrite IH.
  destruct (set_bytes m1 (a + 1) d n); [|done]. simpl. f_equal. lia.
Qed.

Lemma store_word_bytes m a d : is_u8 d -> store_word m a (word_of d d d d) = set_bytes m a d 4.
Proof.
  intros Hd. destruct (word_of_bytes d d d d Hd Hd Hd Hd) as (E0&E1&E2&E3). unfold store_word. cbn [set_bytes].
  rewrite <-(store_u8 m a (word_of d d d d)), E0. destruct (store m a d) as [m1|]; [|done]. simpl.
  rewrite <-(store_u8 m1 _ (Z.shiftr _ _)), E1. destruct (store m1 _ d) as [m2|]; [|done]. simpl.
  replace (a + 1 + 1) with (a + 2) by lia. rewrite <-(store_u8 m2 _ (Z.shiftr _ _)), E2. destruct (store m2 _ d) as [m3|]; [|done]. simpl.
  replace (a + 2 + 1) with (a + 3) by lia. rewrite <-(store_u8 m3 _ (Z.shiftr _ _)), E3. by destruct (store m3 _ d).
Qed.

Lemma set_words_bytes n : forall m a d, is_u8 d ->
  set_words m a (word_of d d d d) n = m' ← set_bytes m a d (4 * n); Some (m', a + Z.of_nat (4 * n)).
Proof.
  induction n as [|n IH]; intros m a d Hd; cbn [set_words]; [simpl; by rewrite Z.add_0_r|].
  replace (4 * S n)%nat with (4 + 4 * n)%nat by lia. rewrite set_bytes_app, store_word_bytes by done.
  destruct (set_bytes m a d 4) as [m1|]; [|done]. cbn [mbind option_bind]. rewrite IH by done. change (Z.of_nat 4) with 4.
  destruct (set_bytes m1 (a + 4) d (4 * n)); [|done]. simpl. do 2 f_equal. lia.
Qed.

(** A counted loop of blocks leaves the remainder. *)
Lemma set_blocks_bytes fuel : forall m a d n count, is_u8 d -> (0 < n)%nat -> (count <= fuel)%nat -> exists q,
  (4 * n * q <= count)%nat /\
  set_blocks fuel m a (word_of d d d d) n count = m' ← set_bytes m a d (4 * n * q); Some (m', a + Z.of_nat (4 * n * q), (count - 4 * n * q)%nat).
Proof.
  induction fuel as [|fuel IH]; intros m a d n count Hd Hn Hf; cbn [set_blocks].
  - rewrite (proj2 (Nat.leb_gt _ _)) by lia. exists 0%nat. rewrite Nat.mul_0_r. simpl. rewrite Z.add_0_r, Nat.sub_0_r. split; [lia|done].
  - destruct (Nat.leb_spec (4 * n) count).
    2:{ exists 0%nat. rewrite Nat.mul_0_r. cbn [set_bytes mbind option_bind]. simpl Z.of_nat. rewrite Z.add_0_r, Nat.sub_0_r. split; [lia|done]. }
    rewrite set_words_bytes by done. destruct (set_bytes m a d (4 * n)) as [m1|] eqn:E1; cbn [mbind option_bind].
    + destruct (IH m1 (a + Z.of_nat (4 * n)) d n (count - 4 * n)%nat Hd Hn ltac:(lia)) as (q&Hq&->).
      exists (S q). split; [lia|]. replace (4 * n * S q)%nat with (4 * n + 4 * n * q)%nat by lia. rewrite set_bytes_app, E1. cbn [mbind option_bind].
      destruct (set_bytes m1 _ d (4 * n * q)); [|done]. cbn [mbind option_bind]. f_equal. f_equal; [f_equal; lia|lia].
    + exists 1%nat. rewrite Nat.mul_1_r. by rewrite E1.
Qed.

Lemma rt_memset_bytes m s c count : rt_memset m s c count = set_bytes m s (Z.land c 255) count.
Proof.
  assert (is_u8 (Z.land c 255)) as Hd. { change 255 with (Z.ones 8). rewrite Z.land_ones by lia. apply u8_range. }
  unfold rt_memset. set (d := Z.land c 255) in *. destruct (negb _ && negb _); [|done]. rewrite spread_bytes by done.
  destruct (set_blocks_bytes count m s d 4 count Hd) as (q&Hq&->); [lia..|].
  set (p := (4 * 4 * q)%nat) in *. assert (set_bytes m s d count = set_bytes m s d (p + (count - p))) as -> by (f_equal; lia). rewrite set_bytes_app.
  destruct (set_bytes m s d p) as [m1|]; [|done]. cbn [mbind option_bind].
  destruct (set_blocks_bytes (count - p) m1 (s + Z.of_nat p) d 1 (count - p) Hd) as (r&Hr&->); [lia..|].
  set (k := (4 * 1 * r)%nat) in *. assert (set_bytes m1 (s + Z.of_nat p) d (count - p) = set_bytes m1 (s + Z.of_nat p) d (k + (count - p - k))) as -> by (f_equal; lia). rewrite set_bytes_app.
  destruct (set_bytes m1 _ d k); done.
Qed.

(** ** Copying *)

Lemma copy_up_app n : forall k m d s, copy_up m d s (n + k) = m' ← copy_up m d s n; copy_up m' (d + Z.of_nat n) (s + Z.of_nat n) k.
Proof.
  induction n as [|n IH]; intros k m d s; simpl; [by rewrite !Z.add_0_r|]. destruct (m !! s) as [b|]; [|done]. simpl.
  destruct (store m d b) as [m1|]; [|done]. simpl. rewrite IH. destruct (copy_up m1 (d + 1) (s + 1) n); [|done]. simpl. f_equal; lia.
Qed.

Lemma copy_up_ok n : forall m d s m', bytes_ok m -> copy_up m d s n = Some m' -> bytes_ok m'.
Proof.
  induction n as [|n IH]; intros m d s m' Hm; simpl; [by intros [= <-]|]. intros H. inv_option. eauto using store_ok.
Qed.

(** Moving a word moves its bytes one by one, when the addresses are 0 or at least 4 apart. *)
Lemma copy_word_bytes m d s : bytes_ok m -> d = s \/ 4 <= Z.abs (d - s) ->
  (w ← load_word m s; store_word m d w) = copy_up m d s 4.
Proof.
  intros Hm Hd.
  destruct (m !! s) as [b0|] eqn:E0; [|unfold load_word; simpl; by rewrite E0]. assert (is_u8 b0) as H0 by exact (Hm _ _ E0).
  unfold load_word. cbn [copy_up]. rewrite E0. cbn [mbind option_bind].
  replace (d + 1 + 1) with (d + 2) by lia. replace (s + 1 + 1) with (s + 2) by lia.
  replace (d + 2 + 1) with (d + 3) by lia. replace (s + 2 + 1) with (s + 3) by lia.
  assert (forall b1 b2 b3 : Z, is_u8 b1 -> is_u8 b2 -> is_u8 b3 -> store_word m d (word_of b0 b1 b2 b3) =
    m ← store m d b0; m ← store m (d + 1) b1; m ← store m (d + 2) b2; store m (d + 3) b3) as Hw.
  { intros b1 b2 b3 H1 H2 H3. destruct (word_of_bytes b0 b1 b2 b3 H0 H1 H2 H3) as (F0&F1&F2&F3). unfold store_word.
    rewrite <-(store_u8 m d (word_of _ _ _ _)), F0. destruct (store m d b0) as [m1|]; [|done]. simpl.
    rewrite <-(store_u8 m1 _ (Z.shiftr _ _)), F1. destruct (store m1 _ b1) as [m2|]; [|done]. simpl.
    rewrite <-(store_u8 m2 _ (Z.shiftr _ _)), F2. destruct (store m2 _ b2) as [m3|]; [|done]. simpl.
    by rewrite <-(store_u8 m3 _ (Z.shiftr _ _)), F3. }
  destruct (m !! (s + 1)) as [b1|] eqn:E1; cbn [mbind option_bind].
  2:{ destruct (store m d b0) as [m1|] eqn:S0; [|done]. simpl. by rewrite (store_ne _ _ _ _ _ S0), E1 by lia. }
  destruct (m !! (s + 2)) as [b2|] eqn:E2; cbn [mbind option_bind].
  2:{ destruct (store m d b0) as [m1|] eqn:S0; [|done]. simpl. rewrite (store_ne _ _ _ _ _ S0), E1 by lia. simpl.
      destruct (store m1 (d + 1) b1) as [m2|] eqn:S1; [|done]. simpl. by rewrite (store_ne _ _ _ _ _ S1), (store_ne _ _ _ _ _ S0), E2 by lia. }
  destruct (m !! (s + 3)) as [b3|] eqn:E3; cbn [mbind option_bind].
  2:{ destruct (store m d b0) as [m1|] eqn:S0; [|done]. simpl. rewrite (store_ne _ _ _ _ _ S0), E1 by lia. simpl.
      destruct (store m1 (d + 1) b1) as [m2|] eqn:S1; [|done]. simpl. rewrite (store_ne _ _ _ _ _ S1), (store_ne _ _ _ _ _ S0), E2 by lia. simpl.
      destruct (store m2 (d + 2) b2) as [m3|] eqn:S2; [|done]. simpl. by rewrite (store_ne _ _ _ _ _ S2), (store_ne _ _ _ _ _ S1), (store_ne _ _ _ _ _ S0), E3 by lia. }
  change (Z.lor b0 (Z.lor (Z.shiftl b1 8) (Z.lor (Z.shiftl b2 16) (Z.shiftl b3 24)))) with (word_of b0 b1 b2 b3).
  rewrite Hw; [|exact (Hm _ _ E1)|exact (Hm _ _ E2)|exact (Hm _ _ E3)].
  destruct (store m d b0) as [m1|] eqn:S0; [|done]. simpl. rewrite (store_ne _ _ _ _ _ S0), E1 by lia. simpl.
  destruct (store m1 (d + 1) b1) as [m2|] eqn:S1; [|done]. simpl. rewrite (store_ne _ _ _ _ _ S1), (store_ne _ _ _ _ _ S0), E2 by lia. simpl.
  destruct (store m2 (d + 2) b2) as [m3|] eqn:S2; [|done]. simpl. rewrite (store_ne _ _ _ _ _ S2), (store_ne _ _ _ _ _ S1), (store_ne _ _ _ _ _ S0), E3 by lia. simpl.
  by destruct (store m3 (d + 3) b3).
Qed.

Lemma copy_words_bytes n : forall m d s, bytes_ok m -> d = s \/ 4 <= Z.abs (d - s) ->
  copy_words m d s n = m' ← copy_up m d s (4 * n); Some (m', d + Z.of_nat (4 * n), s + Z.of_nat (4 * n)).
Proof.
  induction n as [|n IH]; intros m d s Hm Hd; cbn [copy_words]; [simpl; by rewrite !Z.add_0_r|].
  replace (4 * S n)%nat with (4 + 4 * n)%nat by lia. rewrite copy_up_app, <-copy_word_bytes by done.
  destruct (load_word m s) as [w|] eqn:El; [|done]. cbn [mbind option_bind].
  destruct (store_word m d w) as [m1|] eqn:Es; [|done]. cbn [mbind option_bind].
  assert (copy_up m d s 4 = Some m1) as Ec by (rewrite <-copy_word_bytes by done; rewrite El; done).
  rewrite IH by (eauto using copy_up_ok || lia). change (Z.of_nat 4) with 4.
  destruct (copy_up m1 (d + 4) (s + 4) (4 * n)); [|done]. simpl. do 2 f_equal; [f_equal|]; lia.
Qed.

Lemma copy_blocks_bytes fuel : forall m d s n len, bytes_ok m -> d = s \/ 4 <= Z.abs (d - s) -> (0 < n)%nat -> (len <= fuel)%nat -> exists q,
  (4 * n * q <= len)%nat /\
  copy_blocks fuel m d s n len =
    m' ← copy_up m d s (4 * n * q); Some (m', d + Z.of_nat (4 * n * q), s + Z.of_nat (4 * n * q), (len - 4 * n * q)%nat).
Proof.
  induction fuel as [|fuel IH]; intros m d s n len Hm Hd Hn Hf; cbn [copy_blocks].
  - rewrite (proj2 (Nat.leb_gt _ _)) by lia. exists 0%nat. rewrite Nat.mul_0_r. simpl. rewrite !Z.add_0_r, Nat.sub_0_r. split; [lia|done].
  - destruct (Nat.leb_spec (4 * n) len).
    2:{ exists 0%nat. rewrite Nat.mul_0_r. cbn [copy_up mbind option_bind]. simpl Z.of_nat. rewrite !Z.add_0_r, Nat.sub_0_r. split; [lia|done]. }
    rewrite copy_words_bytes by done. destruct (copy_up m d s (4 * n)) as [m1|] eqn:E1; cbn [mbind option_bind].
    + destruct (IH m1 (d + Z.of_nat (4 * n)) (s + Z.of_nat (4 * n)) n (len - 4 * n)%nat) as (q&Hq&->); [by eauto using copy_up_ok|lia..|].
      exists (S q). split; [lia|]. replace (4 * n * S q)%nat with (4 * n + 4 * n * q)%nat by lia. rewrite copy_up_app, E1. cbn [mbind option_bind].
      destruct (copy_up m1 _ _ (4 * n * q)); [|done]. cbn [mbind option_bind]. f_equal. f_equal; [f_equal; [f_equal|]; lia|lia].
    + exists 1%nat. rewrite Nat.mul_1_r. by rewrite E1.
Qed.

Lemma aligned_apart d s : UNALIGNED s || UNALIGNED d = false -> d = s \/ 4 <= Z.abs (d - s).
Proof.
  unfold UNALIGNED. change 3 with (Z.ones 2). rewrite !Z.land_ones by lia. change (2 ^ 2) with 4.
  intros [Hs%negb_false_iff%Z.eqb_eq Hd%negb_false_iff%Z.eqb_eq]%orb_false_iff. dlia.
Qed.

Lemma rt_memcpy_bytes m dst src count : bytes_ok m -> rt_memcpy m dst src count = copy_up m dst src count.
Proof.
  intros Hm. unfold rt_memcpy. destruct (negb _ && negb (UNALIGNED src || _)) eqn:E; [|done].
  apply andb_true_iff in E as [_ Hal%negb_true_iff%aligned_apart].
  destruct (copy_blocks_bytes count m dst src 4 count Hm Hal) as (q&Hq&->); [lia..|]. set (p := (4 * 4 * q)%nat) in *.
  assert (copy_up m dst src count = copy_up m dst src (p + (count - p))) as -> by (f_equal; lia). rewrite copy_up_app.
  destruct (copy_up m dst src p) as [m1|] eqn:E1; [|done]. cbn [mbind option_bind].
  set (d1 := dst + Z.of_nat p). set (s1 := src + Z.of_nat p).
  destruct (copy_blocks_bytes (count - p) m1 d1 s1 1 (count - p)) as (r&Hr&->); [by eauto using copy_up_ok|unfold d1, s1; lia|lia..|].
  set (k := (4 * 1 * r)%nat) in *.
  assert (copy_up m1 d1 s1 (count - p) = copy_up m1 d1 s1 (k + (count - p - k))) as -> by (f_equal; lia). rewrite copy_up_app.
  destruct (copy_up m1 d1 s1 k); done.
Qed.

(** ** What a copy leaves in memory *)

Definition mapped (m : memory) (a : Z) (n : nat) : Prop := forall x, a <= x < a + Z.of_nat n -> is_Some (m !! x).
(** The [n] bytes at [d] are those that [m] had at [s]; nothing else has changed. *)
Definition copied (m m' : memory) (d s : Z) (n : nat) : Prop :=
  forall x, m' !! x = if (d <=? x) && (x <? d + Z.of_nat n) then m !! (s + (x - d)) else m !! x.

Lemma mapped_insert m a n d v : mapped m a n -> mapped (<[d := v]> m) a n.
Proof. intros H x Hx. apply lookup_insert_is_Some'. right. auto. Qed.

Lemma store_mapped m a v b : m !! a = Some b -> is_u8 v -> store m a v = Some (<[a := v]> m).
Proof. intros E Hv. unfold store. rewrite E. simpl. by rewrite u8_small. Qed.

Lemma copy_up_spec n : forall m d s, bytes_ok m -> mapped m s n -> mapped m d n -> d <= s \/ s + Z.of_nat n <= d ->
  exists m', copy_up m d s n = Some m' /\ copied m m' d s n.
Proof.
  induction n as [|n IH]; intros m d s Hm Hs Hd Ho; cbn [copy_up].
  - exists m. split; [done|]. intros x. destruct (Z.leb_spec d x), (Z.ltb_spec x (d + Z.of_nat 0)); [lia|done..].
  - destruct (Hs s ltac:(lia)) as [b Eb]. destruct (Hd d ltac:(lia)) as [c Ec]. rewrite Eb. simpl. assert (is_u8 b) as Hb by exact (Hm _ _ Eb).
    rewrite (store_mapped _ _ _ _ Ec Hb). simpl.
    destruct (IH (<[d := b]> m) (d + 1) (s + 1)) as (m'&->&Hc); [by apply map_Forall_insert_2|apply mapped_insert; intros x ?; apply Hs; lia|apply mapped_insert; intros x ?; apply Hd; lia|lia|].
    exists m'. split; [done|]. intros x. rewrite (Hc x).
    destruct (Z.leb_spec (d + 1) x), (Z.ltb_spec x (d + 1 + Z.of_nat n)), (Z.leb_spec d x), (Z.ltb_spec x (d + Z.of_nat (S n))); try lia; simpl;
      first [rewrite lookup_insert_ne by lia; first [done|f_equal; lia]|replace x with d by lia; by rewrite lookup_insert_eq, Z.sub_diag, Z.add_0_r, Eb].
Qed.

Lemma copy_down_spec n : forall m d s, bytes_ok m -> mapped m s n -> mapped m d n -> s <= d \/ d + Z.of_nat n <= s ->
  exists m', copy_down m (d + Z.of_nat n) (s + Z.of_nat n) n = Some m' /\ copied m m' d s n.
Proof.
  induction n as [|n IH]; intros m d s Hm Hs Hd Ho; cbn [copy_down].
  - exists m. split; [done|]. intros x. destruct (Z.leb_spec d x), (Z.ltb_spec x (d + Z.of_nat 0)); [lia|done..].
  - replace (s + Z.of_nat (S n) - 1) with (s + Z.of_nat n) by lia. replace (d + Z.of_nat (S n) - 1) with (d + Z.of_nat n) by lia.
    destruct (Hs (s + Z.of_nat n) ltac:(lia)) as [b Eb]. destruct (Hd (d + Z.of_nat n) ltac:(lia)) as [c Ec]. rewrite Eb. simpl.
    assert (is_u8 b) as Hb by exact (Hm _ _ Eb). rewrite (store_mapped _ _ _ _ Ec Hb). simpl.
    destruct (IH (<[d + Z.of_nat n := b]> m) d s) as (m'&->&Hc); [by apply map_Forall_insert_2|apply mapped_insert; intros x ?; apply Hs; lia|apply mapped_insert; intros x ?; apply Hd; lia|lia|].
    exists m'. split; [done|]. intros x. rewrite (Hc x).
    destruct (Z.leb_spec d x), (Z.ltb_spec x (d + Z.of_nat n)), (Z.ltb_spec x (d + Z.of_nat (S n))); try lia; simpl;
      try (by rewrite lookup_insert_ne by lia).
    replace x with (d + Z.of_nat n) by lia. rewrite lookup_insert_eq, <-Eb. f_equal. lia.
Qed.

Lemma rt_memmove_spec m dest src n : bytes_ok m -> mapped m src n -> mapped m dest n ->
  exists m', rt_memmove m dest src n = Some m' /\ copied m m' dest src n.
Proof.
  intros Hm Hs Hd. unfold rt_memmove. destruct (Z.ltb_spec src dest), (Z.ltb_spec dest (src + Z.of_nat n)); simpl;
    first [apply copy_down_spec; (done || lia)|apply copy_up_spec; (done || lia)].
Qed.

(** ** Strings in memory *)

(** The string [w] is stored at [a]. *)
Definition cstr (m : memory) (a : Z) (w : list Z) : Prop :=
  Forall (fun c => c <> 0) w /\ (forall (i : nat) c, w !! i = Some c -> m !! (a + Z.of_nat i) = Some c) /\ m !! (a + Z.of_nat (length w)) = Some 0.

Lemma cstr_nil m a : cstr m a [] -> m !! a = Some 0.
Proof. intros (_&_&H). by rewrite Z.add_0_r in H. Qed.

Lemma cstr_cons m a c w : cstr m a (c :: w) -> c <> 0 /\ m !! a = Some c /\ cstr m (a + 1) w.
Proof.
  intros (Hn&Hi&He). apply Forall_cons in Hn as [Hc Hn]. split; [done|]. split; [rewrite <-(Hi 0%nat c), Z.add_0_r; done|].
  split; [done|]. split; [|rewrite <-He; simpl; f_equal; lia]. intros i d Hd. rewrite <-(Hi (S i) d Hd). f_equal. lia.
Qed.

Lemma cstr_size m a w : cstr m a w -> (length w < size m)%nat.
Proof.
  intros (_&Hi&He). set (l := (fun i : nat => a + Z.of_nat i) <$> seq 0 (S (length w))).
  assert (length l = S (length w)) as El by (unfold l; rewrite length_fmap, length_seq; done).
  enough (length l <= size m)%nat by lia. rewrite <-size_dom, <-(size_list_to_set (C := gset Z) l).
  - apply subseteq_size. intros x Hx. apply elem_of_list_to_set in Hx. unfold l in Hx. apply list_elem_of_fmap in Hx as (i&->&Hx%elem_of_seq).
    apply elem_of_dom. destruct (decide (i = length w)) as [->|Hne]; [by eexists|].
    destruct (lookup_lt_is_Some_2 w i ltac:(lia)) as [c Hc]. eexists. eauto.
  - unfold l. apply NoDup_fmap_2; [intros i j; lia|apply NoDup_seq].
Qed.

Lemma strlen_from_spec m w : forall fuel a, cstr m a w -> (length w <= fuel)%nat -> strlen_from m fuel a = Some (length w).
Proof.
  induction w as [|c w IH]; intros fuel a Hw Hf.
  - apply cstr_nil in Hw. destruct fuel; simpl; by rewrite Hw.
  - apply cstr_cons in Hw as (Hc&E&Hw). destruct fuel as [|fuel]; simpl in Hf; [lia|]. simpl. rewrite E. simpl.
    rewrite (proj2 (Z.eqb_neq _ _) Hc). by rewrite IH by (done || lia).
Qed.
Lemma rt_strlen_spec m a w : cstr m a w -> rt_strlen m a = Some (length w).
Proof. intros Hw. apply strlen_from_spec; [done|]. apply cstr_size in Hw. lia. Qed.

(** Comparing [n] bytes that two strings have. *)
Lemma rt_memcmp_strings m n : forall a b w v, cstr m a w -> cstr m b v -> (n <= length w)%nat -> (n <= length v)%nat ->
  exists r, rt_memcmp m a b n = Some r /\ (r = 0 <-> take n w = take n v).
Proof.
  induction n as [|n IH]; intros a b w v Hw Hv Hlw Hlv; [exists 0; done|].
  destruct w as [|x w], v as [|y v]; simpl in Hlw, Hlv; try lia.
  apply cstr_cons in Hw as (_&Ex&Hw). apply cstr_cons in Hv as (_&Ey&Hv). simpl. rewrite Ex, Ey. simpl.
  destruct (Z.eqb_spec (x - y) 0) as [E|E]; simpl.
  - destruct (IH _ _ _ _ Hw Hv) as (r&->&Hr); [lia..|]. exists r. split; [done|]. rewrite Hr. assert (x = y) as -> by lia. split; [by intros ->|by intros [= ->]].
  - exists (x - y). split; [done|]. split; [done|intros [= ->]; lia].
Qed.

(** The first place where [v] is found in [w]. *)
Definition first_at (w v : list Z) (i : nat) : Prop :=
  v `prefix_of` drop i w /\ forall j, (j < i)%nat -> ~ v `prefix_of` drop j w.

Lemma prefix_take (v w : list Z) : v `prefix_of` w <-> (length v <= length w)%nat /\ take (length v) w = v.
Proof.
  split; [intros [k ->]; rewrite length_app, take_app_length; split; [lia|done]|].
  intros [_ E]. exists (drop (length v) w). rewrite <-E at 1. symmetry. apply take_drop.
Qed.

Lemma strstr_loop_spec m v b : cstr m b v -> v <> [] -> forall w a n, cstr m a w -> n = (S (length w) - length v)%nat ->
  (exists i, strstr_loop m n a b (length v) = Some (Some (a + Z.of_nat i)) /\ first_at w v i) \/
  (strstr_loop m n a b (length v) = Some None /\ forall i, ~ v `prefix_of` drop i w).
Proof.
  intros Hv Hne w. induction w as [|x w IH]; intros a n Hw En.
  - right. destruct v as [|y v]; [done|]. simpl in En. subst n. simpl. split; [done|]. intros i [k Hk]. by rewrite drop_nil in Hk.
  - destruct n as [|n].
    + right. split; [done|]. intros i [k Hk]. apply (f_equal length) in Hk. rewrite length_drop, length_app in Hk. simpl in *. lia.
    + cbn [strstr_loop]. destruct (rt_memcmp_strings m (length v) a b (x :: w) v Hw Hv) as (r&->&Hr); [simpl in *; lia|done|]. cbn [mbind option_bind].
      rewrite (firstn_all v) in Hr. destruct (Z.eqb_spec r 0) as [Er|Er].
      * left. exists 0%nat. rewrite Z.add_0_r. split; [done|]. split; [|lia]. rewrite drop_0. apply prefix_take. split; [simpl in *; lia|by apply Hr].
      * apply cstr_cons in Hw as (_&_&Hw). assert (~ v `prefix_of` x :: w) as Hnp by (intros [_ H]%prefix_take; by apply Er, Hr).
        destruct (IH (a + 1) n Hw) as [(i&->&Hf&Hl)|(->&Hn)]; [simpl in *; lia|left|right].
        { exists (S i). split; [do 2 f_equal; lia|]. split; [done|]. intros [|j] Hj; [done|]. apply Hl. lia. }
        { split; [done|]. intros [|i]; [done|apply Hn]. }
Qed.

Lemma rt_strstr_spec m a b w v : cstr m a w -> cstr m b v ->
  (exists i, rt_strstr m a b = Some (Some (a + Z.of_nat i)) /\ first_at w v i) \/ (rt_strstr m a b = Some None /\ forall i, ~ v `prefix_of` drop i w).
Proof.
  intros Hw Hv. unfold rt_strstr. rewrite (rt_strlen_spec _ _ _ Hv). simpl. destruct (Nat.eqb_spec (length v) 0) as [E|E].
  - destruct v; [|done]. left. exists 0%nat. rewrite Z.add_0_r. split; [done|]. split; [apply prefix_nil|lia].
  - rewrite (rt_strlen_spec _ _ _ Hw). cbn [mbind option_bind]. apply strstr_loop_spec; [done|by intros ->|done|done].
Qed.

(** [rt_strncmp] tells whether the first [n] bytes are the same, terminators included. *)
Lemma rt_strncmp_spec m n : forall a b w v res, bytes_ok m -> cstr m a w -> cstr m b v -> res = 0 ->
  exists r, strncmp_from m a b n res = Some r /\ (r = 0 <-> take n w = take n v).
Proof.
  induction n as [|n IH]; intros a b w v res Hm Hw Hv ->; [exists 0; done|]. cbn [strncmp_from].
  assert (forall x y, is_u8 x -> is_u8 y -> s8 (x - y) = 0 <-> x = y) as Hs8.
  { intros x y Hx Hy. unfold s8. destruct (Z.ltb_spec ((x - y) mod 256) 128); word. }
  assert (exists x, m !! a = Some x /\ is_u8 x) as (x&Ex&Hx).
  { destruct w as [|c w]; [exists 0; split; [by apply cstr_nil|word]|]. apply cstr_cons in Hw as (_&E&_). exists c. split; [done|exact (Hm _ _ E)]. }
  assert (exists y, m !! b = Some y /\ is_u8 y) as (y&Ey&Hy).
  { destruct v as [|c v]; [exists 0; split; [by apply cstr_nil|word]|]. apply cstr_cons in Hv as (_&E&_). exists c. split; [done|exact (Hm _ _ E)]. }
  rewrite Ex, Ey. cbn [mbind option_bind]. specialize (Hs8 x y Hx Hy).
  destruct w as [|c w], v as [|d v].
  - apply cstr_nil in Hw, Hv. rewrite Hw in Ex. rewrite Hv in Ey. injection Ex as <-. injection Ey as <-. simpl. exists 0. done.
  - apply cstr_nil in Hw. apply cstr_cons in Hv as (Hd&Ed&_). rewrite Hw in Ex. rewrite Ed in Ey. injection Ex as <-. injection Ey as <-.
    rewrite orb_true_r. exists (s8 (0 - d)). split; [done|]. rewrite Hs8. simpl. split; [lia|done].
  - apply cstr_nil in Hv. apply cstr_cons in Hw as (Hc&Ec&_). rewrite Hv in Ey. rewrite Ec in Ex. injection Ex as <-. injection Ey as <-.
    destruct (Z.eqb_spec (s8 (c - 0)) 0) as [E|E]; [tauto|]. simpl. exists (s8 (c - 0)). split; [done|]. split; [tauto|done].
  - apply cstr_cons in Hw as (Hc&Ec&Hw). apply cstr_cons in Hv as (Hd&Ed&Hv). rewrite Ec in Ex. rewrite Ed in Ey. injection Ex as <-. injection Ey as <-.
    rewrite (proj2 (Z.eqb_neq c 0) Hc), orb_false_r. destruct (Z.eqb_spec (s8 (c - d)) 0) as [E|E]; simpl.
    + destruct (IH (a + 1) (b + 1) w v (s8 (c - d)) Hm Hw Hv E) as (r&Er&Hr). exists r. split; [done|]. rewrite Hr. apply Hs8 in E as ->. split; [by intros ->|by intros [= ->]].
    + exists (s8 (c - d)). split; [done|]. split; [done|]. intros [= ->]. exfalso. by apply E, Hs8.
Qed.

(** ** Aligned areas *)

Lemma store_load_word m a w : is_u32 w -> mapped m a 4 -> exists m', store_word m a w = Some m' /\ load_word m' a = Some w.
Proof.
  intros Hw Hm. destruct (Hm a) as [b0 E0]; [lia|]. destruct (Hm (a + 1)) as [b1 E1]; [lia|].
  destruct (Hm (a + 2)) as [b2 E2]; [lia|]. destruct (Hm (a + 3)) as [b3 E3]; [lia|].
  unfold store_word, store. rewrite E0. simpl. rewrite lookup_insert_ne, E1 by lia. simpl.
  rewrite !lookup_insert_ne, E2 by lia. simpl. rewrite !lookup_insert_ne, E3 by lia. simpl. eexists. split; [done|].
  unfold load_word. match goal with |- context [<[a + 3 := ?v]> ?n] => set (m' := <[a + 3 := v]> n) end.
  assert (m' !! a = Some (u8 w)) as -> by (unfold m'; rewrite !lookup_insert_ne by lia; apply lookup_insert_eq).
  assert (m' !! (a + 1) = Some (u8 (Z.shiftr w 8))) as -> by (unfold m'; rewrite !lookup_insert_ne by lia; apply lookup_insert_eq).
  assert (m' !! (a + 2) = Some (u8 (Z.shiftr w 16))) as -> by (unfold m'; rewrite !lookup_insert_ne by lia; apply lookup_insert_eq).
  assert (m' !! (a + 3) = Some (u8 (Z.shiftr w 24))) as -> by apply lookup_insert_eq.
  cbn [mbind option_bind]. f_equal.
  apply Z.bits_inj'. intros i Hi. rewrite !Z.lor_spec, !Z.shiftl_spec by lia.
  assert (forall x k j, 0 <= k -> Z.testbit (u8 (Z.shiftr x k)) j = (0 <=? j) && (j <? 8) && Z.testbit x (j + k)) as Hb.
  { intros x k j Hk. destruct (Z.leb_spec 0 j); [|by rewrite Z.testbit_neg_r]. rewrite u8_testbit, Z.shiftr_spec by done. done. }
  rewrite <-(Z.shiftr_0_r w) at 1. rewrite !Hb by lia. replace (i - 8 + 8) with i by lia. replace (i - 16 + 16) with i by lia. replace (i - 24 + 24) with i by lia. rewrite Z.add_0_r.
  destruct (Z.testbit w i) eqn:E; [|by rewrite !andb_false_r]. rewrite !andb_true_r.
  assert (i < 32). { destruct (Z.lt_ge_cases i 32); [done|]. rewrite <-(Z.mod_small w (2 ^ 32)), Z.mod_pow2_bits_high in E by (unfold is_u32 in Hw; lia). done. }
  destruct (Z.leb_spec 0 i), (Z.ltb_spec i 8), (Z.leb_spec 0 (i - 8)), (Z.ltb_spec (i - 8) 8), (Z.leb_spec 0 (i - 16)), (Z.ltb_spec (i - 16) 8), (Z.leb_spec 0 (i - 24)), (Z.ltb_spec (i - 24) 8); cbn [andb orb]; try reflexivity; lia.
Qed.

Lemma land_low x k : 0 <= k -> Z.land x (2 ^ k - 1) = x mod 2 ^ k.
Proof. intros Hk. rewrite <-Z.land_ones by done. by rewrite Z.ones_equiv. Qed.
Lemma land_high x k : 0 <= k -> Z.land x (Z.lnot (2 ^ k - 1)) = 2 ^ k * (x / 2 ^ k).
Proof. intros Hk. rewrite Z.sub_1_r, <-Z.ones_equiv, <-Z.ldiff_land, Z.ldiff_ones_r, Z.shiftl_mul_pow2, Z.shiftr_div_pow2 by done. lia. Qed.

(** An aligned area lies in the area of the heap, leaves room for the word before it, and
    the word gives the heap's pointer back. *)
Lemma rt_malloc_align_area malloc m size k : 2 <= k <= 16 -> 0 <= size < 1048576 ->
  (forall n m' ptr, malloc m n = Some (m', ptr) -> 0 <= ptr /\ ptr mod 4 = 0 /\ ptr + n < 4294967296 /\ mapped m' ptr (Z.to_nat n)) ->
  (exists n, malloc m n = None /\ rt_malloc_align malloc m size (2 ^ k) = Some (m, None)) \/
  exists n m1 ptr m2 p, malloc m n = Some (m1, ptr) /\ rt_malloc_align malloc m size (2 ^ k) = Some (m2, Some p) /\
    p mod 2 ^ k = 0 /\ ptr + 4 <= p /\ p + size <= ptr + n /\ rt_free_align m2 p = Some ptr.
Proof.
  intros Hk Hs Hmal. unfold rt_malloc_align. set (a := 2 ^ k).
  assert (4 <= a <= 65536) as Ha.
  { split; [change 4 with (2 ^ 2)|change 65536 with (2 ^ 16)]; apply Z.pow_le_mono_r; lia. }
  assert (a mod 4 = 0) as Ha4. { unfold a. replace k with (2 + (k - 2)) by lia. rewrite Z.pow_add_r by lia. change (2 ^ 2) with 4. rewrite Z.mul_comm. apply Z.mod_mul. lia. }
  assert (Z.land (u32 (a + 3)) (Z.lnot 3) = a) as -> by (rewrite land_lnot3; word).
  set (n := u32 _). assert (size + a <= n < 1200000) as Hn by (unfold n; rewrite land_lnot3; word).
  destruct (malloc m n) as [[m1 ptr]|] eqn:E; [right|left; exists n; done].
  destruct (Hmal n m1 ptr E) as (Hp0&Hp4&Hpn&Hmap). 
  assert (forall x, Z.land x (a - 1) = x mod a) as Hll by (intros x; apply land_low; lia).
  assert (forall x, Z.land x (Z.lnot (a - 1)) = a * (x / a)) as Hlh by (intros x; apply land_high; lia).
  rewrite Hll, Hlh.
  set (p := if ptr mod a =? 0 then u32 (ptr + a) else a * (u32 (ptr + (a - 1)) / a)).
  assert (p mod a = 0 /\ ptr + 4 <= p /\ p <= ptr + a) as (Hpa&Hpl&Hpu).
  { assert (ptr = a * (ptr / a) + ptr mod a) as Hdm by (apply Z.div_mod; lia). pose proof (Z.mod_pos_bound ptr a ltac:(lia)) as Hmb.
    unfold p. destruct (Z.eqb_spec (ptr mod a) 0) as [E0|E0]; rewrite u32_small by (unfold is_u32; lia).
    - split_and!; [|lia..]. rewrite <-Z.add_mod_idemp_r, Z.mod_same, Z.add_0_r by lia. done.
    - assert ((ptr + (a - 1)) / a = ptr / a + 1) as ->.
      { symmetry. apply (Z.div_unique _ _ _ (ptr mod a - 1)); lia. }
      split_and!; [rewrite Z.mul_comm; apply Z.mod_mul; lia| |lia].
      assert (ptr mod a mod 4 = 0). { rewrite <-Hp4. unfold a. replace k with (2 + (k - 2)) by lia. rewrite Z.pow_add_r by lia. rewrite Z.rem_mul_r by lia.
        change (2 ^ 2) with 4. rewrite Z.mul_comm, Z.mod_add by lia. apply Z.mod_mod. lia. }
      assert ((a * (ptr / a + 1)) mod 4 = 0). { rewrite Z.mul_mod, Ha4 by lia. done. } dlia. }
  destruct (store_load_word m1 (p - 4) ptr) as (m2&->&Hl); [unfold is_u32; lia|intros x Hx; apply Hmap; lia|].
  exists n, m1, ptr, m2, p. split_and!; (done || lia).
Qed.

(** ** Properties *)

(** C37: working on words makes no difference: [rt_memset] and [rt_memcpy] do, for every
    address, length, alignment and overlap, and also when an address is not mapped, what
    the loops over single bytes do. *)
Theorem rt_memcpy_memset_bytewise :
  (forall m s c count, rt_memset m s c count = set_bytes m s (Z.land c 255) count) /\
  (forall m dst src count, bytes_ok m -> rt_memcpy m dst src count = copy_up m dst src count).
Proof. split; [apply rt_memset_bytes|apply rt_memcpy_bytes]. Qed.

(** [rt_memmove] copies every byte of the source as it was before the call to its place
    in the destination and changes nothing else, however the two areas overlap. *)
Theorem rt_memmove_copies m dest src n : bytes_ok m -> mapped m src n -> mapped m dest n ->
  exists m', rt_memmove m dest src n = Some m' /\
    forall x, m' !! x = if (dest <=? x) && (x <? dest + Z.of_nat n) then m !! (src + (x - dest)) else m !! x.
Proof. apply rt_memmove_spec. Qed.

(** [rt_strstr] returns the first place where the second string occurs in the first
    one, or null when it occurs nowhere. *)
Theorem rt_strstr_first m a b w v : cstr m a w -> cstr m b v ->
  exists r, rt_strstr m a b = Some r /\
    match r with
    | Some p => exists i : nat, p = a + Z.of_nat i /\ v `prefix_of` drop i w /\ forall j, (j < i)%nat -> ~ v `prefix_of` drop j w
    | None => forall i, ~ v `prefix_of` drop i w
    end.
Proof.
  intros Hw Hv. destruct (rt_strstr_spec _ _ _ _ _ Hw Hv) as [(i&->&Hi)|(->&Hn)]; eexists; split; [done|by exists i|done|done].
Qed.

(** ** At concrete memories *)

(** Bytes from an address on. *)
Fixpoint memory_of (a : Z) (l : list Z) : memory := match l with [] => ∅ | c :: l => <[a := c]> (memory_of (a + 1) l) end.

Lemma memory_of_lookup l : forall a x, memory_of a l !! x = if a <=? x then l !! Z.to_nat (x - a) else None.
Proof.
  induction l as [|c l IH]; intros a x; simpl; [rewrite lookup_empty; by destruct (a <=? x)|].
  destruct (decide (x = a)) as [->|Hne]; [by rewrite lookup_insert_eq, Z.leb_refl, Z.sub_diag|]. rewrite lookup_insert_ne, IH by done.
  destruct (Z.leb_spec (a + 1) x), (Z.leb_spec a x); [|lia..|done]. replace (Z.to_nat (x - a)) with (S (Z.to_nat (x - (a + 1)))) by lia. done.
Qed.

Lemma memory_of_ok a l : Forall is_u8 l -> bytes_ok (memory_of a l).
Proof. intros H x c. rewrite memory_of_lookup. destruct (a <=? x); [|done]. intros Hc. rewrite Forall_lookup in H. eauto. Qed.

Lemma memory_of_mapped a l b n : a <= b -> b + Z.of_nat n <= a + Z.of_nat (length l) -> mapped (memory_of a l) b n.
Proof. intros Hb Hn x Hx. rewrite memory_of_lookup, (proj2 (Z.leb_le a x)) by lia. apply lookup_lt_is_Some_2. lia. Qed.

Lemma memory_of_cstr a p w q : Forall (fun c => c <> 0) w -> cstr (memory_of a (p ++ w ++ 0 :: q)) (a + Z.of_nat (length p)) w.
Proof.
  intros Hw. split; [done|]. split; intros; rewrite memory_of_lookup, (proj2 (Z.leb_le a _)) by lia.
  - replace (Z.to_nat _) with (length p + i)%nat by lia. rewrite lookup_app_r, lookup_app_l by (try apply lookup_lt_Some in H; lia).
    rewrite <-H. f_equal. lia.
  - replace (Z.to_nat _) with (length p + length w)%nat by lia. rewrite lookup_app_r, lookup_app_r by lia.
    replace (length p + length w - length p - length w)%nat with 0%nat by lia. done.
Qed.

Definition demo_bytes : list Z := [1; 2; 3; 4; 5; 6; 7; 8] ++ replicate 32 9.
Lemma demo_bytes_u8 : Forall is_u8 demo_bytes.
Proof. unfold demo_bytes, is_u8. repeat constructor; lia. Qed.

Example rt_memcpy_memset_bytewise_witness :
  rt_memcpy (memory_of 1000 demo_bytes) 1008 1000 21 = copy_up (memory_of 1000 demo_bytes) 1008 1000 21 /\
  is_Some (copy_up (memory_of 1000 demo_bytes) 1008 1000 21).
Proof.
  split; [|vm_compute; eauto]. apply (proj2 rt_memcpy_memset_bytewise). apply memory_of_ok, demo_bytes_u8.
Defined.

(** Moving 20 bytes up by 3. *)
Example rt_memmove_copies_witness : exists m', rt_memmove (memory_of 1000 demo_bytes) 1003 1000 20 = Some m' /\
  forall x, m' !! x = if (1003 <=? x) && (x <? 1003 + Z.of_nat 20) then memory_of 1000 demo_bytes !! (1000 + (x - 1003)) else memory_of 1000 demo_bytes !! x.
Proof. apply rt_memmove_copies; [apply memory_of_ok, demo_bytes_u8|apply memory_of_mapped; vm_compute; congruence..]. Defined.

(** [abab] and [b]. *)
Example rt_strstr_first_witness : exists r, rt_strstr (memory_of 0 [97; 98; 97; 98; 0; 98; 0]) 0 5 = Some r /\
  match r with
  | Some p => exists i : nat, p = 0 + Z.of_nat i /\ [98] `prefix_of` drop i [97; 98; 97; 98] /\ forall j, (j < i)%nat -> ~ [98] `prefix_of` drop j [97; 98; 97; 98]
  | None => forall i, ~ [98] `prefix_of` drop i [97; 98; 97; 98]
  end.
Proof.
  apply rt_strstr_first; [apply (memory_of_cstr 0 [] [97; 98; 97; 98] [98; 0])|apply (memory_of_cstr 0 [97; 98; 97; 98; 0] [98] [])]; repeat constructor; done.
Defined.

(** ** Limits *)

(** [rt_strnlen] reads one byte more than it is allowed to: without a 0 among [maxlen]
    bytes, the byte after them must be there. *)
Theorem rt_strnlen_reads_past a w : Forall (fun c => c <> 0) w -> rt_strnlen (memory_of a w) a (length w) = None.
Proof.
  revert a. induction w as [|c w IH]; intros a Hw; simpl; [done|]. apply Forall_cons in Hw as [Hc Hw]. rewrite lookup_insert_eq. simpl.
  rewrite (proj2 (Z.eqb_neq _ _) Hc). simpl.
  assert (forall (l : list Z) b m (x v : Z), x < b -> Forall (fun c => c <> 0) l -> (forall y, b <= y -> m !! y = memory_of b l !! y) -> rt_strnlen (<[x := v]> m) b (length l) = rt_strnlen (memory_of b l) b (length l)) as H.
  { clear. induction l as [|d l IH]; intros b m x v Hx Hl Hm; simpl.
    - rewrite lookup_insert_ne by lia. rewrite Hm by lia. done.
    - rewrite !lookup_insert_ne by lia. rewrite Hm by lia. simpl. rewrite lookup_insert_eq. simpl.
      apply Forall_cons in Hl as [Hd Hl]. rewrite (proj2 (Z.eqb_neq _ _) Hd). simpl.
      rewrite (IH (b + 1) m x v), (IH (b + 1) (memory_of (b + 1) l) b d); try done; try lia.
      intros y Hy. rewrite Hm by lia. simpl. by rewrite lookup_insert_ne by lia. }
  rewrite H by (done || lia). by rewrite IH.
Qed.

(** [rt_strncmp] keeps the difference of two bytes in a [signed char]: bytes more than
    127 apart compare the wrong way round. *)
Theorem rt_strncmp_wrong_sign m a b x y : m !! a = Some x -> m !! b = Some y -> 128 <= x - y <= 255 ->
  exists r, rt_strncmp m a b 1 = Some r /\ r < 0.
Proof.
  intros Ha Hb H. unfold rt_strncmp. simpl. rewrite Ha, Hb. simpl. exists (s8 (x - y)).
  assert (s8 (x - y) < 0) as Hr by (unfold s8; rewrite Z.mod_small by lia; destruct (Z.ltb_spec (x - y) 128); lia).
  split; [|done]. by destruct (negb _ || _).
Qed.
