(* ===== verification/SList.v ===== *)
(** * Singly linked lists (rt-thread/include/rtservice.h)

    The operations on [rt_slist_t] nodes over a heap of [next] fields; a list hangs on a
    head node and ends with a null pointer. The loops take fuel; the number of nodes in
    memory is enough. *)

From S2P Require Import Prelude.

Section SList.
Context {addr : Type} `{Countable addr}.

(** The [next] field of every node; [None] inside is [RT_NULL]. *)
Notation slist_heap := (gmap addr (option addr)).
Implicit Types (h : slist_heap) (l n node : addr) (ys zs : list addr).

Definition set_snext node (x : option addr) h : option slist_heap := _ ← h !! node; Some (<[node := x]> h).

Definition rt_slist_init l h : slist_heap := <[l := None]> h.

(** [while (node->next) node = node->next]. *)
Fixpoint slist_last (fuel : nat) node h : option addr :=
  nxt ← h !! node;
  match nxt, fuel with
  | None, _ => Some node
  | Some _, O => None
  | Some n, S fuel => slist_last fuel n h
  end.

Definition rt_slist_append l n h : option slist_heap :=
  node ← slist_last (size h) l h; h ← set_snext node (Some n) h; set_snext n None h.

Definition rt_slist_insert l n h : option slist_heap :=
  x ← h !! l; h ← set_snext n x h; set_snext l (Some n) h.

Fixpoint slist_count (fuel : nat) (list : option addr) (len : Z) h : option Z :=
  match list, fuel with
  | None, _ => Some len
  | Some _, O => None
  | Some n, S fuel => x ← h !! n; slist_count fuel x (u32 (len + 1)) h
  end.
Definition rt_slist_len l h : option Z := x ← h !! l; slist_count (size h) x 0 h.

(** [while (node->next && node->next != n) node = node->next]. *)
Fixpoint slist_before (fuel : nat) n node h : option addr :=
  nxt ← h !! node;
  match nxt with
  | None => Some node
  | Some x => if decide (x = n) then Some node else match fuel with O => None | S fuel => slist_before fuel n x h end
  end.

Definition rt_slist_remove l n h : option slist_heap :=
  node ← slist_before (size h) n l h;
  nxt ← h !! node;
  match nxt with
  | None => Some h
  | Some x => y ← h !! x; set_snext node y h
  end.

Definition rt_slist_first l h : option (option addr) := h !! l.
Definition rt_slist_tail l h : option addr := slist_last (size h) l h.
Definition rt_slist_next n h : option (option addr) := h !! n.
Definition rt_slist_isempty l h : option bool := x ← h !! l; Some (bool_decide (x = None)).

(** ** Lists in the heap *)

Fixpoint path h l ys : Prop :=
  match ys with [] => True | y :: ys => h !! l = Some (Some y) /\ path h y ys end.
Fixpoint slist_end l ys : addr := match ys with [] => l | y :: ys => slist_end y ys end.
(** The nodes [ys] hang on [l]. *)
Definition slist h l ys : Prop := path h l ys /\ h !! slist_end l ys = Some None.

Lemma path_app h ys zs : forall l, path h l (ys ++ zs) <-> path h l ys /\ path h (slist_end l ys) zs.
Proof. induction ys as [|y ys IH]; intros l; simpl; [tauto|]. rewrite IH. tauto. Qed.
Lemma slist_end_app ys zs : forall l, slist_end l (ys ++ zs) = slist_end (slist_end l ys) zs.
Proof. induction ys as [|y ys IH]; intros l; simpl; auto. Qed.
Lemma slist_end_elem ys : forall l, slist_end l ys ∈ l :: ys.
Proof. induction ys as [|y ys IH]; intros l; simpl; [by left|]. right. apply IH. Qed.

Lemma slist_cons h l y ys : slist h l (y :: ys) <-> h !! l = Some (Some y) /\ slist h y ys.
Proof. unfold slist. simpl. tauto. Qed.
Lemma slist_nil h l : slist h l [] <-> h !! l = Some None.
Proof. unfold slist. simpl. tauto. Qed.

Lemma path_insert h a v ys : forall l, NoDup (l :: ys) -> a ∉ l :: ys \/ a = slist_end l ys -> path h l ys -> path (<[a := v]> h) l ys.
Proof.
  induction ys as [|y ys IH]; intros l; [done|]. rewrite NoDup_cons. intros [Hl Hnd] Ha [Hly Hp]. simpl in Ha.
  assert (a <> l) as Hne. { destruct Ha as [Ha| ->]; [set_solver|]. intros <-. apply Hl, slist_end_elem. }
  simpl. rewrite lookup_insert_ne by done. split; [done|]. apply IH; [done| |done]. destruct Ha; [left; set_solver|by right].
Qed.

Lemma slist_insert h a v l ys : NoDup (l :: ys) -> a ∉ l :: ys -> slist h l ys -> slist (<[a := v]> h) l ys.
Proof.
  intros Hnd Ha [Hp He]. split; [by apply path_insert; [|left|]|].
  rewrite lookup_insert_ne; [done|]. intros ->. apply Ha, slist_end_elem.
Qed.

Lemma slist_mapped h ys : forall l x, slist h l ys -> x ∈ l :: ys -> is_Some (h !! x).
Proof.
  induction ys as [|y ys IH]; intros l x; [rewrite slist_nil, list_elem_of_singleton; intros Hl ->; eauto|].
  rewrite slist_cons, elem_of_cons. intros [Hl Hs] [->|Hx]; [eauto|by apply (IH y)].
Qed.

(** There are more nodes than the list has. *)
Lemma slist_length h l ys : NoDup (l :: ys) -> slist h l ys -> (length ys < size h)%nat.
Proof.
  intros Hnd Hs. change (length ys < size h)%nat with (length (l :: ys) <= size h)%nat.
  rewrite <-size_dom, <-(size_list_to_set (C := gset addr)) by done. apply subseteq_size.
  intros x Hx%elem_of_list_to_set. by apply elem_of_dom, (slist_mapped _ _ _ _ Hs).
Qed.

(** ** The operations on lists *)

Lemma slist_last_end h ys : forall fuel l, slist h l ys -> (length ys <= fuel)%nat -> slist_last fuel l h = Some (slist_end l ys).
Proof.
  induction ys as [|y ys IH]; intros fuel l.
  - rewrite slist_nil. intros Hl _. destruct fuel; simpl; by rewrite Hl.
  - rewrite slist_cons. intros [Hl Hs] Hf. destruct fuel as [|fuel]; simpl in Hf; [lia|]. simpl. rewrite Hl. simpl. apply IH; [done|lia].
Qed.

Lemma rt_slist_init_spec l h : slist (rt_slist_init l h) l [].
Proof. apply slist_nil, lookup_insert_eq. Qed.

Lemma rt_slist_tail_spec l h ys : NoDup (l :: ys) -> slist h l ys -> rt_slist_tail l h = Some (slist_end l ys).
Proof. intros Hnd Hs. apply slist_last_end; [done|]. pose proof (slist_length _ _ _ Hnd Hs). lia. Qed.

Lemma rt_slist_first_spec l h ys : slist h l ys -> rt_slist_first l h = Some (head ys).
Proof. destruct ys; [by rewrite slist_nil|]. rewrite slist_cons. by intros [? _]. Qed.
Lemma rt_slist_isempty_spec l h ys : slist h l ys -> rt_slist_isempty l h = Some (bool_decide (ys = [])).
Proof.
  unfold rt_slist_isempty. destruct ys as [|y ys]; [rewrite slist_nil; by intros ->|]. rewrite slist_cons. intros [-> _]. simpl.
  done.
Qed.

Lemma slist_count_spec h ys : forall fuel l len, slist h l ys -> (length ys <= fuel)%nat ->
  (x ← h !! l; slist_count fuel x (u32 len) h) = Some (u32 (len + Z.of_nat (length ys))).
Proof.
  induction ys as [|y ys IH]; intros fuel l len.
  - rewrite slist_nil. intros -> _. simpl. rewrite Z.add_0_r. by destruct fuel.
  - rewrite slist_cons. intros [-> Hs] Hf. destruct fuel as [|fuel]; cbn [length] in Hf; [lia|]. simpl.
    replace (u32 (u32 len + 1)) with (u32 (len + 1)) by word. rewrite (IH fuel y (len + 1) Hs) by lia. do 2 f_equal. lia.
Qed.
Lemma rt_slist_len_spec l h ys : NoDup (l :: ys) -> slist h l ys -> rt_slist_len l h = Some (u32 (Z.of_nat (length ys))).
Proof. intros Hnd Hs. apply (slist_count_spec h ys (size h) l 0 Hs). pose proof (slist_length _ _ _ Hnd Hs). lia. Qed.

Lemma rt_slist_append_spec l n h ys : NoDup (n :: l :: ys) -> is_Some (h !! n) -> slist h l ys ->
  exists h', rt_slist_append l n h = Some h' /\ slist h' l (ys ++ [n]).
Proof.
  rewrite NoDup_cons. intros [Hn Hnd] [v Hv] Hs. unfold rt_slist_append.
  assert (slist_last (size h) l h = Some (slist_end l ys)) as -> by by apply rt_slist_tail_spec. simpl.
  pose proof (slist_end_elem ys l) as Hin. destruct Hs as [Hp He]. unfold set_snext. rewrite He. simpl.
  rewrite lookup_insert_ne, Hv by (intros E; by rewrite E in Hin). eexists. split; [done|]. split.
  - apply path_app. split; [|split; [|done]].
    + apply path_insert; [done|by left|]. apply path_insert; [done|by right|done].
    + rewrite lookup_insert_ne, lookup_insert_eq; [done|]. intros E. by rewrite <-E in Hin.
  - rewrite slist_end_app. apply lookup_insert_eq.
Qed.

Lemma rt_slist_insert_spec l n h ys : NoDup (n :: l :: ys) -> is_Some (h !! n) -> slist h l ys ->
  exists h', rt_slist_insert l n h = Some h' /\ slist h' l (n :: ys).
Proof.
  rewrite NoDup_cons. intros [Hn Hnd] [v Hv] Hs. unfold rt_slist_insert. rewrite not_elem_of_cons in Hn. destruct Hn as [Hnl Hn].
  destruct (slist_mapped _ _ _ l Hs) as [x Hx]; [by left|]. rewrite Hx. simpl. unfold set_snext. rewrite Hv. simpl.
  rewrite lookup_insert_ne, Hx by done. eexists. split; [done|]. apply slist_cons. rewrite lookup_insert_eq. split; [done|].
  apply NoDup_cons in Hnd as [Hl Hnd].
  destruct ys as [|y ys].
  - apply slist_nil in Hs. rewrite Hs in Hx. injection Hx as <-. apply slist_nil. rewrite lookup_insert_ne by done. apply lookup_insert_eq.
  - apply slist_cons in Hs as [Hl' Hs]. rewrite Hl' in Hx. injection Hx as <-. apply slist_cons.
    rewrite lookup_insert_ne, lookup_insert_eq by done. split; [done|]. apply slist_insert; [done..|]. by apply slist_insert.
Qed.

Lemma slist_before_spec n h ys : forall fuel l, slist h l ys -> (length ys <= fuel)%nat ->
  exists ys1 ys2, ys = ys1 ++ ys2 /\ slist_before fuel n l h = Some (slist_end l ys1) /\ n ∉ ys1 /\ (ys2 = [] \/ exists ys3, ys2 = n :: ys3).
Proof.
  induction ys as [|y ys IH]; intros fuel l.
  - rewrite slist_nil. intros Hl _. exists [], []. destruct fuel; simpl; rewrite Hl; simpl; (split; [done|split; [done|split; [set_solver|by left]]]).
  - rewrite slist_cons. intros [Hl Hs] Hf. destruct fuel as [|fuel]; cbn [length] in Hf; [lia|]. simpl. rewrite Hl. simpl.
    case_decide as E.
    + subst y. exists [], (n :: ys). splits; try done; [set_solver|]. right. by eexists.
    + destruct (IH fuel y Hs ltac:(lia)) as (ys1&ys2&->&Eb&Hn&Hc). exists (y :: ys1), ys2. splits; try done. set_solver.
Qed.

(** Removing unlinks the node, whose own pointer stays, and touches no other list. *)
Lemma rt_slist_remove_spec l n h ys : NoDup (l :: ys) -> slist h l ys ->
  exists h', rt_slist_remove l n h = Some h' /\ slist h' l (remove_elem n ys) /\ forall a, a ∉ remove_elem n (l :: ys) -> h' !! a = h !! a.
Proof.
  intros Hnd Hs. pose proof (slist_length _ _ _ Hnd Hs) as Hlen. unfold rt_slist_remove.
  destruct (slist_before_spec n h ys (size h) l Hs ltac:(lia)) as (ys1&ys2&->&->&Hn&Hc). cbn [mbind option_bind].
  destruct Hs as [Hp He]. rewrite app_comm_cons in Hnd. apply path_app in Hp as [Hp1 Hp2]. rewrite slist_end_app in He.
  destruct Hc as [->|[ys3 ->]].
  - simpl in He. rewrite He. simpl. exists h. rewrite app_nil_r in *. rewrite remove_elem_notin by done. done.
  - destruct Hp2 as [Hx Hp3]. rewrite Hx. simpl. apply NoDup_app in Hnd as (Hnd1&Hd&Hnd2). apply NoDup_cons in Hnd2 as [Hn3 Hnd3].
    assert (is_Some (h !! n)) as [y Hy] by (apply (slist_mapped h ys3 n n); [done|by left]). rewrite Hy. cbn [mbind option_bind].
    unfold set_snext. rewrite Hx. cbn [mbind option_bind]. eexists. split; [done|].
    pose proof (slist_end_elem ys1 l) as Hin. assert (slist_end l ys1 ∉ n :: ys3) as Hni by (by apply Hd).
    rewrite remove_elem_app, remove_elem_notin, remove_elem_cons_eq by done. split.
    + split.
      * apply path_app. split; [apply path_insert; [done|by right|done]|]. destruct ys3 as [|z ys3]; [done|]. destruct Hp3 as [Hz Hp3].
        simpl. rewrite lookup_insert_eq. rewrite Hz in Hy. injection Hy as <-. split; [done|].
        apply path_insert; [done|left; set_solver|done].
      * rewrite slist_end_app. destruct ys3 as [|z ys3]; simpl in *; [rewrite lookup_insert_eq; by rewrite <-Hy, He|].
        rewrite lookup_insert_ne; [done|]. intros E. apply Hni. right. rewrite E. apply slist_end_elem.
    + intros a Ha. apply lookup_insert_ne. intros <-. apply Ha. apply elem_of_remove_elem. split; [set_solver|]. set_solver.
Qed.
End SList.
