(* ===== verification/RingBlk.v ===== *)
(** * Ring block buffers (rt-thread/components/drivers/src/ringblk_buf.c)

    Blocks of different sizes are taken from a buffer in circular order. A block is an
    index in the array [blk_set]; the singly linked list of the blocks in use is the list
    of their indices ([SList] has the operations on nodes: a removed node keeps its own
    pointer, so that a loop may remove the node it stands on). *)

From S2P Require Import Prelude Mem KString.

(** ** State *)

Inductive rt_rbb_status := BLK_UNUSED | BLK_INITED | BLK_PUT | BLK_GET.
#[global] Instance rt_rbb_status_eq_dec : EqDecision rt_rbb_status.
Proof. solve_decision. Defined.

(** [size] is a field of 24 bits. *)
Record rt_rbb_blk := Blk { blk_status : rt_rbb_status; blk_size : Z; blk_buf : Z }.

(** [rbb_addr] and [set_addr] are the addresses of the structure and of [blk_set]. *)
Record rt_rbb := Rbb {
  rbb_addr : Z;
  rbb_buf : Z;
  rbb_buf_size : Z;
  set_addr : Z;
  blk_set : list rt_rbb_blk;
  blk_max_num : nat;
  blk_list : list nat;
}.
Definition rbb_with (s : list rt_rbb_blk) (l : list nat) (r : rt_rbb) : rt_rbb :=
  Rbb (rbb_addr r) (rbb_buf r) (rbb_buf_size r) (set_addr r) s (blk_max_num r) l.

Definition set_status (st : rt_rbb_status) (b : rt_rbb_blk) : rt_rbb_blk := Blk st (blk_size b) (blk_buf b).
(** Access to [&rbb->blk_set[i]]. *)
Definition upd_blk (i : nat) (f : rt_rbb_blk -> rt_rbb_blk) (r : rt_rbb) : option rt_rbb :=
  b ← blk_set r !! i; Some (rbb_with (<[i := f b]> (blk_set r)) (blk_list r) r).

(** ** Creating *)

(** The loop over the blocks from [i] on. *)
Fixpoint init_status (n i : nat) (s : list rt_rbb_blk) : option (list rt_rbb_blk) :=
  match n with
  | O => Some s
  | S n => b ← s !! i; init_status n (S i) (<[i := set_status BLK_UNUSED b]> s)
  end.
Definition rt_rbb_init (addr buf buf_size saddr : Z) (block_set : list rt_rbb_blk) (max : nat) : option rt_rbb :=
  s ← init_status max 0 block_set; Some (Rbb addr buf buf_size saddr s max []).

Definition SIZEOF_RBB : Z := 20.
Definition SIZEOF_RBB_BLK : Z := 12.

(** [raw]: what the memory of the blocks holds. *)
Definition rt_rbb_create (buf_size : Z) (max : nat) (raw : list rt_rbb_blk) (h : heap) : option (heap * option rt_rbb) :=
  '(h, rbb) ← rt_malloc SIZEOF_RBB h;
  match rbb with
  | None => Some (h, None)
  | Some rbb =>
      '(h, buf) ← rt_malloc buf_size h;
      match buf with
      | None => h ← rt_free rbb h; Some (h, None)
      | Some buf =>
          '(h, s) ← rt_malloc (u32 (SIZEOF_RBB_BLK * Z.of_nat max)) h;
          match s with
          | None => h ← rt_free buf h; h ← rt_free rbb h; Some (h, None)
          | Some s => r ← rt_rbb_init rbb buf buf_size s raw max; Some (h, Some r)
          end
      end
  end.

(** The pointers are read after the structure that holds them is freed. *)
Definition rt_rbb_destroy (r : rt_rbb) (h : heap) : option heap :=
  h ← rt_free (rbb_addr r) h; h ← rt_free (rbb_buf r) h; rt_free (set_addr r) h.

(** ** Blocks *)

Fixpoint find_empty (n i : nat) (s : list rt_rbb_blk) : option (option nat) :=
  match n with
  | O => Some None
  | S n => b ← s !! i; if decide (blk_status b = BLK_UNUSED) then Some (Some i) else find_empty n (S i) s
  end.
Definition find_empty_blk_in_set (r : rt_rbb) : option (option nat) := find_empty (blk_max_num r) 0 (blk_set r).

(** [rt_slist_append]; appending a node that is linked would make the list circular. *)
Definition list_append (i : nat) (r : rt_rbb) : option rt_rbb :=
  if decide (i ∈ blk_list r) then None else Some (rbb_with (blk_set r) (blk_list r ++ [i]) r).
Definition list_remove (i : nat) (r : rt_rbb) : rt_rbb := rbb_with (blk_set r) (remove_elem i (blk_list r)) r.

Definition take_blk (i : nat) (buf size : Z) (r : rt_rbb) : option (rt_rbb * option nat) :=
  r ← list_append i r;
  r ← upd_blk i (fun _ => Blk BLK_INITED (size mod 16777216) buf) r;
  Some (r, Some i).

Definition rt_rbb_blk_alloc (size : Z) (r : rt_rbb) : option (rt_rbb * option nat) :=
  new ← find_empty_blk_in_set r;
  match new with
  | Some i =>
      if decide (length (blk_list r) < blk_max_num r)%nat then
        match blk_list r with
        | [] => take_blk i (rbb_buf r) size r
        | hd :: _ =>
            head ← blk_set r !! hd;
            tl ← last (blk_list r);
            tail ← blk_set r !! tl;
            let tail_end := u32 (blk_buf tail + blk_size tail) in
            if blk_buf head <=? blk_buf tail then
              let empty1 := u32 (u32 (rbb_buf r + rbb_buf_size r) - tail_end) in
              let empty2 := u32 (blk_buf head - rbb_buf r) in
              if size <=? empty1 then take_blk i tail_end size r
              else if size <=? empty2 then take_blk i (rbb_buf r) size r
              else Some (r, None)
            else
              let empty1 := u32 (blk_buf head - tail_end) in
              if size <=? empty1 then take_blk i tail_end size r else Some (r, None)
        end
      else Some (r, None)
  | None => Some (r, None)
  end.

Definition rt_rbb_blk_put (i : nat) (r : rt_rbb) : option rt_rbb := upd_blk i (set_status BLK_PUT) r.

(** The first block of the list that was put. *)
Fixpoint get_loop (l : list nat) (r : rt_rbb) : option (rt_rbb * option nat) :=
  match l with
  | [] => Some (r, None)
  | i :: l =>
      b ← blk_set r !! i;
      if decide (blk_status b = BLK_PUT) then r ← upd_blk i (set_status BLK_GET) r; Some (r, Some i)
      else get_loop l r
  end.
Definition rt_rbb_blk_get (r : rt_rbb) : option (rt_rbb * option nat) :=
  if decide (blk_list r = []) then Some (r, None) else get_loop (blk_list r) r.

Definition rt_rbb_blk_size (i : nat) (r : rt_rbb) : option Z := blk_size <$> blk_set r !! i.
Definition rt_rbb_blk_buf (i : nat) (r : rt_rbb) : option Z := blk_buf <$> blk_set r !! i.

Definition rt_rbb_blk_free (i : nat) (r : rt_rbb) : option rt_rbb := upd_blk i (set_status BLK_UNUSED) (list_remove i r).

(** ** Block queues *)

Record rt_rbb_blk_queue := Queue { q_blocks : nat; q_blk_num : nat }.

(** Taking block [i] into the queue. *)
Definition queue_take (i : nat) (total : Z) (q : rt_rbb_blk_queue) (r : rt_rbb) : option (rt_rbb * rt_rbb_blk_queue * Z) :=
  let r := list_remove i r in
  b ← blk_set r !! i;
  r ← upd_blk i (set_status BLK_GET) r;
  Some (r, Queue (q_blocks q) (S (q_blk_num q)), u32 (total + blk_size b)).

Fixpoint queue_loop (l : list nat) (last_block : option nat) (len total : Z) (q : rt_rbb_blk_queue) (r : rt_rbb)
    : option (rt_rbb * rt_rbb_blk_queue * Z) :=
  match l with
  | [] => Some (r, q, total)
  | i :: l =>
      b ← blk_set r !! i;
      match last_block with
      | None =>
          if decide (blk_status b = BLK_PUT) then
            '(r, q, total) ← queue_take i total (Queue i 0) r; queue_loop l (Some i) len total q r
          else queue_loop l None len total q r
      | Some lb =>
          lb ← blk_set r !! lb;
          if bool_decide (blk_status b <> BLK_PUT) || (blk_buf b <? blk_buf lb) || (len <? u32 (total + blk_size b))
          then Some (r, q, total)
          else '(r, q, total) ← queue_take i total q r; queue_loop l (Some i) len total q r
      end
  end.
Definition rt_rbb_blk_queue_get (len : Z) (q : rt_rbb_blk_queue) (r : rt_rbb) : option (rt_rbb * rt_rbb_blk_queue * Z) :=
  if decide (blk_list r = []) then Some (r, q, 0) else queue_loop (blk_list r) None len 0 q r.

(** [blocks[i]] is the next element of the array, not of the list. *)
Fixpoint queue_sum (n i : nat) (total : Z) (r : rt_rbb) : option Z :=
  match n with
  | O => Some total
  | S n => b ← blk_set r !! i; queue_sum n (S i) (u32 (total + blk_size b)) r
  end.
Definition rt_rbb_blk_queue_len (q : rt_rbb_blk_queue) (r : rt_rbb) : option Z := queue_sum (q_blk_num q) (q_blocks q) 0 r.
Definition rt_rbb_blk_queue_buf (q : rt_rbb_blk_queue) (r : rt_rbb) : option Z := blk_buf <$> blk_set r !! q_blocks q.

Fixpoint queue_free (n i : nat) (r : rt_rbb) : option rt_rbb :=
  match n with O => Some r | S n => r ← rt_rbb_blk_free i r; queue_free n (S i) r end.
Definition rt_rbb_blk_queue_free (q : rt_rbb_blk_queue) (r : rt_rbb) : option rt_rbb := queue_free (q_blk_num q) (q_blocks q) r.

Fixpoint next_len_loop (l : list nat) (last_block : option nat) (total : Z) (r : rt_rbb) : option Z :=
  match l with
  | [] => Some total
  | i :: l =>
      b ← blk_set r !! i;
      match last_block with
      | None =>
          if decide (blk_status b = BLK_PUT) then next_len_loop l (Some i) (u32 (total + blk_size b)) r
          else next_len_loop l None total r
      | Some lb =>
          lb ← blk_set r !! lb;
          if bool_decide (blk_status b <> BLK_PUT) || (blk_buf b <? blk_buf lb) then Some total
          else next_len_loop l (Some i) (u32 (total + blk_size b)) r
      end
  end.
Definition rt_rbb_next_blk_queue_len (r : rt_rbb) : option Z :=
  if decide (blk_list r = []) then Some 0 else next_len_loop (blk_list r) None 0 r.

Definition rt_rbb_get_buf_size (r : rt_rbb) : Z := rbb_buf_size r.

(** ** Where the blocks are *)

(** A block in use as its client sees it: the bytes are known once written. *)
Record slot := Slot { sl_id : nat; sl_st : rt_rbb_status; sl_addr : Z; sl_size : Z; sl_data : option (list Z) }.
Implicit Types (s : slot) (l : list slot) (a : list slot).

(** One after the other in [[lo, hi)]. *)
Fixpoint chain (lo hi : Z) l : Prop :=
  match l with [] => lo <= hi | s :: l => lo <= sl_addr s /\ 0 < sl_size s /\ chain (sl_addr s + sl_size s) hi l end.

(** In circular order: first up to the end, then from the start to below the first. *)
Definition placed (B E : Z) l : Prop :=
  exists l1 l2, l = l1 ++ l2 /\ chain B E l1 /\ match l1 with [] => l2 = [] | s :: _ => chain B (sl_addr s) l2 end.

Lemma chain_le l : forall lo hi, chain lo hi l -> lo <= hi.
Proof. induction l as [|s l IH]; intros lo hi; simpl; [done|]. intros (?&?&?%IH). lia. Qed.
Lemma chain_mono l : forall lo lo' hi hi', lo' <= lo -> hi <= hi' -> chain lo hi l -> chain lo' hi' l.
Proof. induction l as [|s l IH]; intros lo lo' hi hi' H1 H2; simpl; [lia|]. intros (?&?&Hc). splits; try lia. by eapply IH; [| |exact Hc]. Qed.
Lemma slots_chain_snoc l s : forall lo hi, chain lo hi (l ++ [s]) <-> chain lo (sl_addr s) l /\ 0 < sl_size s /\ sl_addr s + sl_size s <= hi.
Proof. induction l as [|x l IH]; intros lo hi; simpl; [lia|]. rewrite IH. tauto. Qed.
Lemma chain_remove l1 s l2 : forall lo hi, chain lo hi (l1 ++ s :: l2) -> chain lo hi (l1 ++ l2).
Proof.
  induction l1 as [|x l1 IH]; intros lo hi; simpl; [|intros (?&?&?%IH); done].
  intros (?&?&Hc). by eapply chain_mono; [| |exact Hc]; lia.
Qed.
Lemma chain_in l s : forall lo hi, chain lo hi l -> s ∈ l -> lo <= sl_addr s /\ 0 < sl_size s /\ sl_addr s + sl_size s <= hi.
Proof.
  induction l as [|x l IH]; intros lo hi; [by rewrite elem_of_nil|]. simpl. rewrite elem_of_cons. intros (H1&H2&Hc) [->|Hin].
  - apply chain_le in Hc. lia.
  - destruct (IH _ _ Hc Hin) as (?&?&?). lia.
Qed.

Definition apart s s' : Prop := sl_addr s + sl_size s <= sl_addr s' \/ sl_addr s' + sl_size s' <= sl_addr s.

Lemma chain_apart l : forall lo hi, chain lo hi l -> ForallOrdPairs apart l.
Proof.
  induction l as [|s l IH]; intros lo hi; simpl; [constructor|]. intros (?&?&Hc). constructor; [|by eapply IH].
  apply Forall_forall. intros x Hx. destruct (chain_in _ _ _ _ Hc Hx). left. lia.
Qed.

Lemma placed_in B E l s : placed B E l -> s ∈ l -> B <= sl_addr s /\ 0 < sl_size s /\ sl_addr s + sl_size s <= E.
Proof.
  intros (l1&l2&->&H1&H2) [Hs|Hs]%elem_of_app; [by apply (chain_in l1)|].
  destruct l1 as [|x l1]; [subst; by apply elem_of_nil in Hs|].
  destruct (chain_in _ _ _ _ H2 Hs) as (?&?&?). destruct (chain_in _ x _ _ H1) as (?&?&?); [by left|]. lia.
Qed.

Lemma FOP_app {A} (R : A -> A -> Prop) (l1 l2 : list A) :
  ForallOrdPairs R l1 -> ForallOrdPairs R l2 -> Forall (fun x => Forall (R x) l2) l1 -> ForallOrdPairs R (l1 ++ l2).
Proof.
  induction 1 as [|x l1 Hx H1 IH]; simpl; [done|]. intros H2 [Hx2 Hf]%Forall_cons. constructor; [by apply Forall_app|auto].
Qed.

Lemma placed_apart B E l : placed B E l -> ForallOrdPairs apart l.
Proof.
  intros (l1&l2&->&H1&H2). destruct l1 as [|x l1]; [subst; constructor|].
  apply FOP_app; [by eapply chain_apart..|]. apply Forall_forall. intros s Hs. apply Forall_forall. intros s' Hs'. right.
  destruct (chain_in _ _ _ _ H2 Hs') as (_&_&?). destruct H1 as (_&?&H1). apply elem_of_cons in Hs as [->|Hs]; [lia|].
  destruct (chain_in _ _ _ _ H1 Hs) as (?&_). lia.
Qed.

Lemma placed_remove B E l1 s l2 : placed B E (l1 ++ s :: l2) -> placed B E (l1 ++ l2).
Proof.
  intros (a&b&Eq&H1&H2). apply app_eq_inv in Eq as [(k&->&->)|(k&->&Eb)].
  { exists a, (k ++ l2). rewrite app_assoc. splits; try done.
    destruct a as [|x a]; [by destruct k|]. by apply (chain_remove k s) in H2. }
  destruct k as [|x k]; simpl in Eb; [subst b|injection Eb as <- ->].
  - rewrite app_nil_r in *. exists l1, l2. splits; try done. destruct l1; [done|]. by apply (chain_remove [] s) in H2.
  - destruct l1 as [|y l1]; simpl in *.
    + destruct H1 as (?&?&H1). destruct k as [|y k]; simpl in *.
      * exists b, []. rewrite app_nil_r. splits; try done.
        -- eapply chain_mono; [| |exact H2]; lia.
        -- destruct b as [|z b]; [done|]. simpl. destruct (chain_in _ z _ _ H2) as (?&?&?); [by left|]. done.
      * exists (y :: k), b. destruct H1 as (?&?&H1). simpl. splits; try done; [lia|].
        eapply chain_mono; [| |exact H2]; lia.
    + exists (y :: l1 ++ k), b. simpl. rewrite <-app_assoc. destruct H1 as (?&?&H1). apply chain_remove in H1. by splits.
Qed.

(** ** A ring block buffer and its clients *)

Definition slot_blk s : rt_rbb_blk := Blk (sl_st s) (sl_size s) (sl_addr s).

(** The buffer [r] with the bytes [m] holds the blocks [a], in the order of their
    allocation. *)
Record rbb_repr (r : rt_rbb) (m : memory) a : Prop := {
  rr_list : blk_list r = sl_id <$> a;
  rr_nodup : NoDup (sl_id <$> a);
  rr_max : length (blk_set r) = blk_max_num r /\ (0 < blk_max_num r)%nat;
  rr_used : Forall (fun s => blk_set r !! sl_id s = Some (slot_blk s) /\ sl_st s <> BLK_UNUSED) a;
  rr_unused : forall j b, blk_set r !! j = Some b -> j ∉ sl_id <$> a -> blk_status b = BLK_UNUSED;
  rr_placed : placed (rbb_buf r) (rbb_buf r + rbb_buf_size r) a;
  rr_range : 0 <= rbb_buf r /\ rbb_buf r + rbb_buf_size r < 4294967296 /\ 0 <= rbb_buf_size r < 16777216;
  rr_mapped : forall x, rbb_buf r <= x < rbb_buf r + rbb_buf_size r -> is_Some (m !! x);
  rr_data : Forall (fun s => forall d, sl_data s = Some d ->
      Z.of_nat (length d) = sl_size s /\ forall k : nat, (k < length d)%nat -> m !! (sl_addr s + Z.of_nat k) = d !! k) a;
}.

(** What clients do: take a block, write its bytes, put it, get the next one, free a
    block. *)
Inductive rbb_op := OpAlloc (n : Z) | OpWrite (i : nat) (d : list Z) | OpPut (i : nat) | OpGet | OpFree (i : nat).

(** Storing bytes one after the other. *)
Fixpoint store_list (m : memory) (x : Z) (d : list Z) : option memory :=
  match d with [] => Some m | b :: d => m ← store m x b; store_list m (x + 1) d end.

Definition rbb_exec (op : rbb_op) (r : rt_rbb) (m : memory) : option (rt_rbb * memory * option nat) :=
  match op with
  | OpAlloc n => '(r, i) ← rt_rbb_blk_alloc n r; Some (r, m, i)
  | OpWrite i d => x ← rt_rbb_blk_buf i r; m ← store_list m x d; Some (r, m, None)
  | OpPut i => r ← rt_rbb_blk_put i r; Some (r, m, None)
  | OpGet => '(r, i) ← rt_rbb_blk_get r; Some (r, m, i)
  | OpFree i => r ← rt_rbb_blk_free i r; Some (r, m, None)
  end.

(** The same on the list of blocks in use, in the order they were taken. A new block
    gets the first number that is free and the place behind the newest block, or at the
    start of the buffer, if it fits in front of the oldest one. [None]: clients do not do
    that. They take blocks of 1 byte to the size of the buffer, write and put the blocks
    they have taken, and free blocks that are in use. *)
Definition slot_with (st : rt_rbb_status) (d : option (list Z)) s : slot := Slot (sl_id s) st (sl_addr s) (sl_size s) d.
Definition free_id (max : nat) a : option nat := head (filter (fun i => i ∉ sl_id <$> a) (seq 0 max)).
Definition free_place (buf size n : Z) a : option Z :=
  match a, last a with
  | oldest :: _, Some newest =>
      let x := sl_addr newest + sl_size newest in
      if sl_addr oldest <=? sl_addr newest then
        if x + n <=? buf + size then Some x else if buf + n <=? sl_addr oldest then Some buf else None
      else if x + n <=? sl_addr oldest then Some x else None
  | _, _ => Some buf
  end.
Fixpoint first_slot (P : slot -> bool) a : option (list slot * slot * list slot) :=
  match a with
  | [] => None
  | s :: a => if P s then Some ([], s, a) else '(a1, x, a2) ← first_slot P a; Some (s :: a1, x, a2)
  end.
Definition slot_of (i : nat) a := first_slot (fun s => (sl_id s =? i)%nat) a.

Definition abs_exec (buf size : Z) (max : nat) (op : rbb_op) a : option (list slot * option nat) :=
  match op with
  | OpAlloc n =>
      if (0 <? n) && (n <=? size) then
        Some match free_id max a, free_place buf size n a with
             | Some i, Some x => (a ++ [Slot i BLK_INITED x n None], Some i)
             | _, _ => (a, None)
             end
      else None
  | OpWrite i d =>
      '(a1, s, a2) ← slot_of i a;
      if bool_decide (sl_st s = BLK_INITED) && (Z.of_nat (length d) =? sl_size s) && forallb (fun c => (0 <=? c) && (c <? 256)) d
      then Some (a1 ++ slot_with BLK_INITED (Some d) s :: a2, None) else None
  | OpPut i =>
      '(a1, s, a2) ← slot_of i a;
      if bool_decide (sl_st s = BLK_INITED) then Some (a1 ++ slot_with BLK_PUT (sl_data s) s :: a2, None) else None
  | OpGet =>
      Some match first_slot (fun s => bool_decide (sl_st s = BLK_PUT)) a with
           | Some (a1, s, a2) => (a1 ++ slot_with BLK_GET (sl_data s) s :: a2, Some (sl_id s))
           | None => (a, None)
           end
  | OpFree i => '(a1, s, a2) ← slot_of i a; Some (a1 ++ a2, None)
  end.

Lemma first_slot_spec P a : match first_slot P a with
  | Some (a1, s, a2) => a = a1 ++ s :: a2 /\ P s = true /\ Forall (fun x => P x = false) a1
  | None => Forall (fun x => P x = false) a
  end.
Proof.
  induction a as [|s a IH]; simpl; [constructor|]. destruct (P s) eqn:E; [by split_and!|].
  destruct (first_slot P a) as [[[a1 x] a2]|]; simpl; [|by constructor]. destruct IH as (->&?&?). split_and!; [done|done|by constructor].
Qed.
Lemma slot_of_spec i a a1 s a2 : slot_of i a = Some (a1, s, a2) -> a = a1 ++ s :: a2 /\ i = sl_id s.
Proof. intros E. pose proof (first_slot_spec (fun s => (sl_id s =? i)%nat) a) as H. unfold slot_of in E. rewrite E in H. destruct H as (->&H&_). apply Nat.eqb_eq in H. done. Qed.

(** ** Representation lemmas *)

Lemma FOP_mid {A} (R : A -> A -> Prop) (l1 l2 : list A) x :
  ForallOrdPairs R (l1 ++ x :: l2) -> Forall (fun y => R y x) l1 /\ Forall (R x) l2.
Proof.
  induction l1 as [|y l1 IH]; simpl; intros H; inversion_clear H as [|? ? Hy Hl]; [done|].
  destruct (IH Hl). split; [|done]. constructor; [|done]. by apply Forall_app in Hy as [_ [? _]%Forall_cons].
Qed.

Lemma repr_lookup r m a1 s a2 : rbb_repr r m (a1 ++ s :: a2) ->
  blk_set r !! sl_id s = Some (slot_blk s) /\ sl_st s <> BLK_UNUSED /\ sl_id s ∉ sl_id <$> (a1 ++ a2).
Proof.
  intros []. apply Forall_app in rr_used0 as [_ [[? ?] _]%Forall_cons]. splits; try done.
  rewrite fmap_app, fmap_cons in rr_nodup0. apply NoDup_app in rr_nodup0 as (_&Hd&[Hn _]%NoDup_cons).
  rewrite fmap_app, elem_of_app. intros [Hi|Hi]; [|done]. apply (Hd _ Hi). by left.
Qed.

Lemma repr_split r m a i b : rbb_repr r m a -> blk_set r !! i = Some b -> blk_status b <> BLK_UNUSED ->
  exists a1 s a2, a = a1 ++ s :: a2 /\ i = sl_id s /\ b = slot_blk s.
Proof.
  intros Hr Hb Hst. destruct (decide (i ∈ sl_id <$> a)) as [Hi|Hi]; [|by apply (rr_unused _ _ _ Hr) in Hb].
  apply list_elem_of_fmap in Hi as (s&->&(a1&a2&->)%list_elem_of_split). exists a1, s, a2. splits; try done.
  apply repr_lookup in Hr as [E _]. rewrite E in Hb. by injection Hb as <-.
Qed.

Lemma chain_slot x s y st d : forall lo hi, chain lo hi (x ++ s :: y) -> chain lo hi (x ++ slot_with st d s :: y).
Proof. induction x as [|z x IH]; intros lo hi; simpl; [done|]. intros (?&?&?%IH). done. Qed.
Lemma placed_slot B E a1 s a2 st d : placed B E (a1 ++ s :: a2) -> placed B E (a1 ++ slot_with st d s :: a2).
Proof.
  intros (l1&l2&Eq&H1&H2). apply app_eq_inv in Eq as [(k&->&->)|(k&->&Ek)].
  - exists l1, (k ++ slot_with st d s :: a2). rewrite app_assoc. splits; try done. destruct l1; [by destruct k|]. by apply chain_slot.
  - destruct k as [|x k]; simpl in Ek.
    + subst l2. exists a1, (slot_with st d s :: a2). rewrite app_nil_r in *. splits; try done. destruct a1; [done|]. by apply (chain_slot []).
    + injection Ek as <- ->. exists (a1 ++ slot_with st d s :: k), l2. rewrite <-app_assoc. splits; try done; [by apply chain_slot|]. by destruct a1.
Qed.

(** Changing the status or the bytes of a block. *)
Lemma repr_slot r m m' a1 s a2 st d : rbb_repr r m (a1 ++ s :: a2) -> st <> BLK_UNUSED ->
  (forall x, is_Some (m !! x) -> is_Some (m' !! x)) ->
  (forall x, ~ (sl_addr s <= x < sl_addr s + sl_size s) -> m' !! x = m !! x) ->
  (forall w, d = Some w -> Z.of_nat (length w) = sl_size s /\ forall k : nat, (k < length w)%nat -> m' !! (sl_addr s + Z.of_nat k) = w !! k) ->
  rbb_repr (rbb_with (<[sl_id s := Blk st (sl_size s) (sl_addr s)]> (blk_set r)) (blk_list r) r) m' (a1 ++ slot_with st d s :: a2).
Proof.
  intros Hr Hst Hmap Hout Hd. destruct (repr_lookup _ _ _ _ _ Hr) as (Hl&_&Hni). pose proof (placed_apart _ _ _ (rr_placed _ _ _ Hr)) as Hap.
  apply FOP_mid in Hap as [Hap1 Hap2]. destruct (placed_in _ _ _ s (rr_placed _ _ _ Hr)) as (_&Hsz&_); [set_solver|].
  assert (forall l, Forall (fun x => apart x s \/ apart s x) l -> Forall (fun x => forall w, sl_data x = Some w ->
     Z.of_nat (length w) = sl_size x /\ forall k : nat, (k < length w)%nat -> m !! (sl_addr x + Z.of_nat k) = w !! k) l ->
     Forall (fun x => forall w, sl_data x = Some w ->
     Z.of_nat (length w) = sl_size x /\ forall k : nat, (k < length w)%nat -> m' !! (sl_addr x + Z.of_nat k) = w !! k) l) as Hkeep.
  { intros l Hx Hy. rewrite Forall_forall in *. intros x Hin w Hw. destruct (Hy x Hin w Hw) as [Hlw Hk]. split; [done|]. intros k Hkw.
    rewrite Hout; [by apply Hk|]. specialize (Hx x Hin). unfold apart in Hx. lia. }
  destruct Hr. rewrite fmap_app, fmap_cons in rr_list0, rr_nodup0. constructor; simpl; try done.
  - by rewrite fmap_app.
  - by rewrite fmap_app.
  - by rewrite length_insert.
  - apply Forall_app in rr_used0 as [H1 [_ H2]%Forall_cons]. apply Forall_app. split; [|constructor].
    2: { simpl. rewrite list_lookup_insert_eq by by eapply lookup_lt_Some. done. }
    all: rewrite Forall_forall in *; intros x Hx; rewrite list_lookup_insert_ne; [auto|]; intros E; apply Hni; rewrite fmap_app, elem_of_app, E.
    + left. by apply list_elem_of_fmap_2.
    + right. by apply list_elem_of_fmap_2.
  - intros j b. rewrite fmap_app, fmap_cons. simpl. intros Hj Hn. apply (rr_unused0 j); [|by rewrite fmap_app, fmap_cons]. rewrite list_lookup_insert_ne in Hj; [done|set_solver].
  - by apply placed_slot.
  - intros x Hx. by apply Hmap, rr_mapped0.
  - apply Forall_app in rr_data0 as [H1 [_ H2]%Forall_cons]. apply Forall_app. split; [|constructor; [done|]]; apply Hkeep; try done.
    + eapply Forall_impl; [exact Hap1|]. simpl. tauto.
    + eapply Forall_impl; [exact Hap2|]. simpl. tauto.
Qed.

(** The buffer stays where it is. *)
Definition same_buf (r r' : rt_rbb) : Prop := rbb_buf r' = rbb_buf r /\ rbb_buf_size r' = rbb_buf_size r /\ blk_max_num r' = blk_max_num r.

(** Freeing a block. *)
Lemma repr_free r m a1 s a2 : rbb_repr r m (a1 ++ s :: a2) ->
  exists r', rt_rbb_blk_free (sl_id s) r = Some r' /\ same_buf r r' /\ rbb_repr r' m (a1 ++ a2).
Proof.
  intros Hr. destruct (repr_lookup _ _ _ _ _ Hr) as (Hl&_&Hni). unfold rt_rbb_blk_free, upd_blk, list_remove. simpl. rewrite Hl.
  eexists. split; [done|]. split; [done|]. destruct Hr. rewrite fmap_app, fmap_cons in rr_list0, rr_nodup0.
  constructor; simpl; rewrite ?length_insert; try done.
  - rewrite rr_list0, remove_elem_split by done. by rewrite fmap_app.
  - rewrite fmap_app. eapply sublist_NoDup; [exact rr_nodup0|]. by apply sublist_app, sublist_cons.
  - apply Forall_app in rr_used0 as [H1 [_ H2]%Forall_cons]. pose proof (proj2 (Forall_app _ _ _) (conj H1 H2)) as Hf.
    rewrite Forall_forall in *. intros x Hx. rewrite list_lookup_insert_ne; [auto|]. intros E. apply Hni. rewrite E. by apply list_elem_of_fmap_2.
  - intros j b. destruct (decide (j = sl_id s)) as [->|Hne].
    + rewrite list_lookup_insert_eq by by eapply lookup_lt_Some. intros [= <-]. done.
    + rewrite list_lookup_insert_ne by done. intros Hj Hn. apply (rr_unused0 j); [done|]. rewrite fmap_app in *. rewrite fmap_cons. set_solver.
  - by eapply placed_remove.
  - apply Forall_app in rr_data0 as [H1 [_ H2]%Forall_cons]. by apply Forall_app.
Qed.

(** ** Allocation *)

Lemma find_empty_spec set (ids : list nat) n : forall i, (i + n = length set)%nat ->
  (forall j b, set !! j = Some b -> blk_status b = BLK_UNUSED <-> j ∉ ids) ->
  find_empty n i set = Some (head (filter (fun j => j ∉ ids) (seq i n))).
Proof.
  induction n as [|n IH]; intros i Hi Hids; simpl; [done|].
  destruct (lookup_lt_is_Some_2 set i) as [b Hb]; [lia|]. rewrite Hb. simpl. pose proof (Hids i b Hb) as Hib. case_decide as Hs.
  - by rewrite filter_cons_True by by apply Hib.
  - rewrite filter_cons_False by tauto. apply IH; [lia|done].
Qed.

Lemma repr_unused r m a j b : rbb_repr r m a -> blk_set r !! j = Some b -> blk_status b = BLK_UNUSED <-> j ∉ sl_id <$> a.
Proof.
  intros Hr Hb. split; [|by apply (rr_unused _ _ _ Hr)]. intros Hs (s&->&(a1&a2&->)%list_elem_of_split)%list_elem_of_fmap.
  destruct (repr_lookup _ _ _ _ _ Hr) as (E&Hu&_). rewrite Hb in E. injection E as ->. done.
Qed.

Lemma find_empty_repr r m a : rbb_repr r m a -> find_empty_blk_in_set r = Some (free_id (blk_max_num r) a).
Proof.
  intros Hr. apply find_empty_spec; [destruct (rr_max _ _ _ Hr); lia|]. intros j b. by eapply repr_unused.
Qed.
Lemma free_id_some max a i : free_id max a = Some i -> (i < max)%nat /\ i ∉ sl_id <$> a.
Proof.
  unfold free_id. destruct (filter _ (seq 0 max)) as [|j l] eqn:E; [done|]. intros [= ->].
  assert (i ∈ filter (fun i => i ∉ sl_id <$> a) (seq 0 max)) as [? Hi%elem_of_seq]%list_elem_of_filter by (rewrite E; by left). split; [lia|done].
Qed.

(** With a free number the list is shorter than the array. *)
Lemma free_id_room r m a i : rbb_repr r m a -> free_id (blk_max_num r) a = Some i -> (length a < blk_max_num r)%nat.
Proof.
  intros Hr [Hi Hni]%free_id_some. assert (i :: (sl_id <$> a) ⊆+ seq 0 (blk_max_num r)) as Hs%submseteq_length.
  - apply NoDup_submseteq; [by constructor; [|apply (rr_nodup _ _ _ Hr)]|]. intros j Hj. apply elem_of_seq. apply elem_of_cons in Hj as [->|(s&->&Hs)%list_elem_of_fmap]; [lia|].
    pose proof (proj1 (Forall_forall _ _) (rr_used _ _ _ Hr) s Hs) as [Hl%lookup_lt_Some _]. destruct (rr_max _ _ _ Hr). lia.
  - simpl in Hs. rewrite length_fmap, length_seq in Hs. lia.
Qed.

(** Taking the unused block [i] at the place [x]. *)
Lemma take_blk_repr r m a i x n b : rbb_repr r m a -> 0 < n < 16777216 -> blk_set r !! i = Some b -> blk_status b = BLK_UNUSED ->
  placed (rbb_buf r) (rbb_buf r + rbb_buf_size r) (a ++ [Slot i BLK_INITED x n None]) ->
  exists r', take_blk i x n r = Some (r', Some i) /\ same_buf r r' /\ i ∉ sl_id <$> a /\
    rbb_repr r' m (a ++ [Slot i BLK_INITED x n None]).
Proof.
  intros Hr Hn Hb Hst Hp.
  assert (i ∉ sl_id <$> a) as Hni.
  { intros (s&->&(a1&a2&->)%list_elem_of_split)%list_elem_of_fmap. apply repr_lookup in Hr as (E&Hs&_). rewrite E in Hb. by injection Hb as <-. }
  unfold take_blk, list_append, upd_blk. rewrite decide_False by by rewrite (rr_list _ _ _ Hr). simpl. rewrite Hb. simpl.
  rewrite Z.mod_small by lia. eexists. splits; try done. destruct Hr. constructor; simpl; rewrite ?fmap_app, ?length_insert; try done.
  - by rewrite rr_list0.
  - apply NoDup_app. splits; [done| |apply NoDup_singleton]. intros y Hy ->%list_elem_of_singleton. done.
  - apply Forall_app. split; [|constructor; [|done]].
    + rewrite Forall_forall in *. intros s Hs. rewrite list_lookup_insert_ne; [auto|]. intros ->. apply Hni. by apply list_elem_of_fmap_2.
    + simpl. by rewrite list_lookup_insert_eq by by eapply lookup_lt_Some.
  - intros j b' Hj Hnj. rewrite list_lookup_insert_ne in Hj by set_solver. apply (rr_unused0 j); [done|]. set_solver.
  - apply Forall_app. by split; [|constructor].
Qed.

(** The two shapes of the list: not wrapped, or wrapped with the last blocks below the first. *)
Lemma placed_shape B E l l' h t : h :: l = l' ++ [t] -> placed B E (h :: l) ->
  sl_addr h <= sl_addr t /\ chain B E (h :: l) \/
  sl_addr t < sl_addr h /\ exists l1 l2, h :: l = h :: l1 ++ l2 ++ [t] /\ chain B E (h :: l1) /\ chain B (sl_addr h) (l2 ++ [t]).
Proof.
  intros Eq (l1&l2&Ep&H1&H2). destruct l1 as [|x l1]; [subst l2; by simplify_eq|]. simpl in Ep. injection Ep as <- ->.
  destruct l2 as [|y l2 _] using rev_ind.
  - left. rewrite app_nil_r in *. split; [|done]. destruct l' as [|z l']; [by injection Eq as -> ->|].
    injection Eq as -> ->. destruct H1 as (_&?&[Hc _]%slots_chain_snoc). apply chain_le in Hc. lia.
  - right. rewrite app_assoc, app_comm_cons in Eq. apply app_inj_tail in Eq as [_ ->]. split; [apply slots_chain_snoc in H2; lia|].
    exists l1, l2. by rewrite app_comm_cons.
Qed.

Lemma alloc_end B E l' t i n : 0 < n -> chain B E (l' ++ [t]) -> sl_addr t + sl_size t + n <= E ->
  placed B E ((l' ++ [t]) ++ [Slot i BLK_INITED (sl_addr t + sl_size t) n None]).
Proof.
  intros Hn Hc Hle. exists ((l' ++ [t]) ++ [Slot i BLK_INITED (sl_addr t + sl_size t) n None]), []. rewrite app_nil_r.
  split; [done|]. split; [|by destruct l'; apply Hc]. apply slots_chain_snoc. simpl. splits; try lia.
  apply slots_chain_snoc in Hc as (?&?&?). apply slots_chain_snoc. by splits.
Qed.

(** The outcome of an allocation. *)
Definition alloc_ok (r : rt_rbb) (m : memory) a (n : Z) (res : option (rt_rbb * option nat)) : Prop :=
  exists r' o, res = Some (r', o) /\ same_buf r r' /\
    match o with
    | Some i => i ∉ sl_id <$> a /\ exists x, rbb_repr r' m (a ++ [Slot i BLK_INITED x n None]) /\
        free_id (blk_max_num r) a = Some i /\ free_place (rbb_buf r) (rbb_buf_size r) n a = Some x
    | None => r' = r /\ a <> [] /\ (free_id (blk_max_num r) a = None \/ free_place (rbb_buf r) (rbb_buf_size r) n a = None)
    end.

Lemma alloc_take r m a n i x : rbb_repr r m a -> 0 < n <= rbb_buf_size r -> free_id (blk_max_num r) a = Some i ->
  free_place (rbb_buf r) (rbb_buf_size r) n a = Some x ->
  placed (rbb_buf r) (rbb_buf r + rbb_buf_size r) (a ++ [Slot i BLK_INITED x n None]) -> alloc_ok r m a n (take_blk i x n r).
Proof.
  intros Hr Hn Hi Hx Hp. destruct (rr_range _ _ _ Hr) as (_&_&?). pose proof (free_id_some _ _ _ Hi) as [Hlt Hni].
  destruct (lookup_lt_is_Some_2 (blk_set r) i) as [b Hb]; [destruct (rr_max _ _ _ Hr); lia|].
  destruct (take_blk_repr r m a i x n b) as (r'&->&Hs&_&Hr'); try done; [lia|by apply (repr_unused r m a i)|]. exists r', (Some i). splits; try done. by exists x.
Qed.

Lemma rt_rbb_blk_alloc_spec r m a n : rbb_repr r m a -> 0 < n <= rbb_buf_size r -> alloc_ok r m a n (rt_rbb_blk_alloc n r).
Proof.
  intros Hr Hn. destruct (rr_max _ _ _ Hr) as [Hlen Hpos]. destruct (rr_range _ _ _ Hr) as (HB&HE&HS).
  unfold rt_rbb_blk_alloc. rewrite (find_empty_repr r m a Hr). cbn [mbind option_bind]. destruct (free_id (blk_max_num r) a) as [i|] eqn:Hi.
  2: { exists r, None. splits; [done|done|done| |by left]. intros ->. unfold free_id in Hi. destruct (blk_max_num r) as [|k]; [lia|].
       cbn [seq] in Hi. rewrite filter_cons_True in Hi by apply not_elem_of_nil. done. }
  rewrite decide_True by (rewrite (rr_list _ _ _ Hr), length_fmap; by eapply free_id_room).
  assert (forall x, free_place (rbb_buf r) (rbb_buf_size r) n a = Some x -> placed (rbb_buf r) (rbb_buf r + rbb_buf_size r) (a ++ [Slot i BLK_INITED x n None]) ->
    alloc_ok r m a n (take_blk i x n r)) as Htake by (intros; by apply alloc_take).
  assert (free_place (rbb_buf r) (rbb_buf_size r) n a = None -> a <> [] -> alloc_ok r m a n (Some (r, None))) as Hrefuse.
  { intros Hx Ha. exists r, None. splits; try done. by right. }
  rewrite (rr_list _ _ _ Hr). destruct a as [|h a].
  { apply Htake; [done|]. exists [Slot i BLK_INITED (rbb_buf r) n None], []. simpl. splits; try done; lia. }
  rewrite fmap_cons. destruct (exists_last (l := h :: a)) as (l'&t&Eq); [done|].
  pose proof (rr_used _ _ _ Hr) as Hu. rewrite Forall_forall in Hu.
  destruct (Hu h) as [Hh _]; [by left|]. destruct (Hu t) as [Ht _]; [rewrite Eq; set_solver|]. rewrite Hh. cbn [mbind option_bind].
  replace (last (sl_id h :: (sl_id <$> a))) with (Some (sl_id t)) by (by rewrite <-fmap_cons, Eq, fmap_last, last_snoc).
  cbn [mbind option_bind]. rewrite Ht. cbn [mbind option_bind]. unfold slot_blk. simpl.
  pose proof (placed_in _ _ _ h (rr_placed _ _ _ Hr) ltac:(by left)) as Hhin.
  pose proof (placed_in _ _ _ t (rr_placed _ _ _ Hr) ltac:(rewrite Eq; set_solver)) as Htin.
  rewrite (u32_small (rbb_buf r + _)), (u32_small (sl_addr t + _)) by (unfold is_u32; lia).
  assert (last (h :: a) = Some t) as Elast by (by rewrite Eq, last_snoc).
  unfold free_place in Htake, Hrefuse. rewrite Elast in Htake, Hrefuse.
  destruct (placed_shape _ _ _ _ _ _ Eq (rr_placed _ _ _ Hr)) as [[Hle Hc]|[Hgt (l1&l2&El&H1&H2)]].
  - rewrite (proj2 (Z.leb_le _ _) Hle) in *. rewrite !u32_small by (unfold is_u32; lia).
    destruct (Z.leb_spec n (rbb_buf r + rbb_buf_size r - (sl_addr t + sl_size t))).
    { rewrite (proj2 (Z.leb_le (_ + n) _)) in Htake by lia. apply Htake; [done|]. rewrite Eq in *. apply alloc_end; [lia|done|lia]. }
    rewrite (proj2 (Z.leb_gt (_ + n) (rbb_buf r + rbb_buf_size r))) in * by lia.
    destruct (Z.leb_spec n (sl_addr h - rbb_buf r)); [|apply Hrefuse; [by rewrite (proj2 (Z.leb_gt _ _)) by lia|done]].
    rewrite (proj2 (Z.leb_le (_ + n) _)) in Htake by lia. apply Htake; [done|].
    exists (h :: a), [Slot i BLK_INITED (rbb_buf r) n None]. simpl. splits; try done; try lia; apply Hc.
  - rewrite (proj2 (Z.leb_gt _ _) Hgt) in *.
    assert (sl_addr t + sl_size t <= sl_addr h) by (apply slots_chain_snoc in H2; lia). rewrite u32_small by (unfold is_u32; lia).
    destruct (Z.leb_spec n (sl_addr h - (sl_addr t + sl_size t))); [|apply Hrefuse; [by rewrite (proj2 (Z.leb_gt _ _)) by lia|done]].
    rewrite (proj2 (Z.leb_le (_ + n) _)) in Htake by lia. apply Htake; [done|].
    rewrite El. exists (h :: l1), ((l2 ++ [t]) ++ [Slot i BLK_INITED (sl_addr t + sl_size t) n None]).
    split; [by rewrite <-app_comm_cons, <-!app_assoc|]. split; [done|]. apply slots_chain_snoc in H2 as (?&?&?).
    apply slots_chain_snoc. simpl. splits; try lia. apply slots_chain_snoc. by splits.
Qed.

(** ** The other calls *)

Lemma store_list_spec d : forall m x, (forall k : nat, (k < length d)%nat -> is_Some (m !! (x + Z.of_nat k))) -> Forall is_u8 d ->
  exists m', store_list m x d = Some m' /\ (forall y, is_Some (m !! y) -> is_Some (m' !! y)) /\
    (forall y, ~ (x <= y < x + Z.of_nat (length d)) -> m' !! y = m !! y) /\
    forall k : nat, (k < length d)%nat -> m' !! (x + Z.of_nat k) = d !! k.
Proof.
  induction d as [|b d IH]; intros m x Hm Hd; cbn [store_list length] in *.
  { exists m. splits; try done. lia. }
  apply Forall_cons in Hd as [Hb Hd]. destruct (Hm 0%nat) as [v Hv]; [lia|]. rewrite Z.add_0_r in Hv.
  unfold store. rewrite Hv. cbn [mbind option_bind]. rewrite u8_small by done.
  destruct (IH (<[x := b]> m) (x + 1)) as (m'&->&Hmap&Hout&Hin); [|done|].
  { intros k Hk. rewrite lookup_insert_ne by lia. replace (x + 1 + Z.of_nat k) with (x + Z.of_nat (S k)) by lia. apply Hm. lia. }
  exists m'. splits; try done.
  - intros y Hy. apply Hmap. destruct (decide (y = x)) as [->|]; [rewrite lookup_insert_eq; eauto|by rewrite lookup_insert_ne].
  - intros y Hy. rewrite Hout by lia. apply lookup_insert_ne. lia.
  - intros [|k] Hk; simpl.
    + rewrite Z.add_0_r, Hout by lia. apply lookup_insert_eq.
    + replace (x + Z.of_nat (S k)) with (x + 1 + Z.of_nat k) by lia. apply Hin. lia.
Qed.

Lemma get_loop_spec r m a : rbb_repr r m a -> forall a1 a2, a = a1 ++ a2 -> Forall (fun s => sl_st s <> BLK_PUT) a1 ->
  get_loop (sl_id <$> a2) r = Some (r, None) /\ Forall (fun s => sl_st s <> BLK_PUT) a \/
  exists b1 s b2, a = b1 ++ s :: b2 /\ Forall (fun s => sl_st s <> BLK_PUT) b1 /\ sl_st s = BLK_PUT /\
    get_loop (sl_id <$> a2) r = (r ← upd_blk (sl_id s) (set_status BLK_GET) r; Some (r, Some (sl_id s))).
Proof.
  intros Hr a1 a2. revert a1. induction a2 as [|s a2 IH]; intros a1 Ea H1; simpl.
  - left. rewrite app_nil_r in Ea. by subst.
  - subst a. destruct (repr_lookup _ _ _ _ _ Hr) as (->&_&_). cbn [mbind option_bind]. simpl. case_decide as Hs.
    + right. by exists a1, s, a2.
    + apply (IH (a1 ++ [s])); [by rewrite <-app_assoc|]. apply Forall_app. split; [done|]. by constructor.
Qed.

(** Blocks whose bytes nobody relies on. *)
Lemma repr_mem r m m' a : rbb_repr r m a -> Forall (fun s => sl_data s = None) a ->
  (forall x, rbb_buf r <= x < rbb_buf r + rbb_buf_size r -> is_Some (m' !! x)) -> rbb_repr r m' a.
Proof.
  intros [] Hd Hm. constructor; try done. eapply Forall_impl; [exact Hd|]. simpl. intros s E d E'. congruence.
Qed.

Lemma repr_keeps_data r m a1 s a2 : rbb_repr r m (a1 ++ s :: a2) -> forall w, sl_data s = Some w ->
  Z.of_nat (length w) = sl_size s /\ forall k : nat, (k < length w)%nat -> m !! (sl_addr s + Z.of_nat k) = w !! k.
Proof. intros Hr. pose proof (rr_data _ _ _ Hr) as Hf. by apply Forall_app in Hf as [_ [Hf _]%Forall_cons]. Qed.

Lemma blk_put_repr r m a1 s a2 : rbb_repr r m (a1 ++ s :: a2) ->
  exists r', rt_rbb_blk_put (sl_id s) r = Some r' /\ same_buf r r' /\ rbb_repr r' m (a1 ++ slot_with BLK_PUT (sl_data s) s :: a2).
Proof.
  intros Hr. destruct (repr_lookup _ _ _ _ _ Hr) as (Hb&_&_). unfold rt_rbb_blk_put, upd_blk. rewrite Hb. eexists. splits; [done..|].
  apply (repr_slot r m m a1 s a2 BLK_PUT (sl_data s) Hr); try done. by eapply repr_keeps_data.
Qed.

Lemma blk_get_repr r m a1 s a2 : rbb_repr r m (a1 ++ s :: a2) -> Forall (fun x => sl_st x <> BLK_PUT) a1 -> sl_st s = BLK_PUT ->
  exists r', rt_rbb_blk_get r = Some (r', Some (sl_id s)) /\ same_buf r r' /\ rbb_repr r' m (a1 ++ slot_with BLK_GET (sl_data s) s :: a2).
Proof.
  intros Hr H1 Hst. destruct (repr_lookup _ _ _ _ _ Hr) as (Hb&_&_). pose proof (rr_list _ _ _ Hr) as El.
  exists (rbb_with (<[sl_id s := Blk BLK_GET (sl_size s) (sl_addr s)]> (blk_set r)) (blk_list r) r). splits; try done.
  - unfold rt_rbb_blk_get. rewrite decide_False by (rewrite El; by destruct a1). rewrite El at 1.
    destruct (get_loop_spec r m _ Hr [] _ eq_refl) as [[_ Hf]|(b1&s'&b2&Eq&Hb1&Hs'&->)]; [constructor| |].
    + apply Forall_app in Hf as [_ [? _]%Forall_cons]. done.
    + assert (sl_id s' = sl_id s) as ->; [|unfold upd_blk; by rewrite Hb].
      apply app_eq_inv in Eq as [(k&->&Ek)|(k&->&Ek)]; destruct k as [|x k]; simpl in Ek; try (by simplify_eq).
      * injection Ek as <- _. by apply Forall_app in H1 as [_ [? _]%Forall_cons].
      * injection Ek as <- _. by apply Forall_app in Hb1 as [_ [? _]%Forall_cons].
  - apply (repr_slot r m m a1 s a2 BLK_GET (sl_data s) Hr); try done. by eapply repr_keeps_data.
Qed.

Lemma blk_get_none r m a : rbb_repr r m a -> Forall (fun x => sl_st x <> BLK_PUT) a -> rt_rbb_blk_get r = Some (r, None).
Proof.
  intros Hr Hf. unfold rt_rbb_blk_get. case_decide; [done|]. rewrite (rr_list _ _ _ Hr).
  destruct (get_loop_spec r m a Hr [] a eq_refl) as [[-> _]|(b1&s&b2&->&_&Hs&_)]; [constructor|done|].
  by apply Forall_app in Hf as [_ [? _]%Forall_cons].
Qed.

(** A call that clients make returns and does what [abs_exec] says. *)
Lemma rbb_exec_ok op r m a a' o : rbb_repr r m a -> abs_exec (rbb_buf r) (rbb_buf_size r) (blk_max_num r) op a = Some (a', o) ->
  exists r' m', rbb_exec op r m = Some (r', m', o) /\ rbb_repr r' m' a' /\ same_buf r r'.
Proof.
  intros Hr E. destruct op as [n|i d|i| |i]; simpl in E |- *.
  - destruct (Z.ltb_spec 0 n), (Z.leb_spec n (rbb_buf_size r)); try done. simpl in E.
    destruct (rt_rbb_blk_alloc_spec r m a n Hr) as (r'&o'&->&Hs&Ho); [lia|]. simpl. destruct o' as [i|].
    + destruct Ho as (_&x&Hr'&Hi&Hx). rewrite Hi, Hx in E. injection E as <- <-. by exists r', m.
    + destruct Ho as (->&_&Ho). assert (a' = a /\ o = None) as [-> ->]; [|by exists r, m].
      destruct Ho as [Ho|Ho]; rewrite Ho in E; [by injection E|]. by destruct (free_id _ _); injection E.
  - destruct (slot_of i a) as [[[a1 s] a2]|] eqn:Hsl; [|done]. apply slot_of_spec in Hsl as [-> ->]. simpl in E.
    case_bool_decide as Hst; [|done]. destruct (Z.eqb_spec (Z.of_nat (length d)) (sl_size s)) as [Hlen|]; [|done]. simpl in E.
    destruct (forallb _ d) eqn:Hd; [|done]. injection E as <- <-. rewrite forallb_forall in Hd.
    destruct (repr_lookup _ _ _ _ _ Hr) as (Hb&_&_). unfold rt_rbb_blk_buf. rewrite Hb. simpl.
    destruct (placed_in _ _ _ s (rr_placed _ _ _ Hr)) as (?&?&?); [set_solver|].
    destruct (store_list_spec d m (sl_addr s)) as (m'&->&Hmap&Hout&Hin); [intros k Hk; apply (rr_mapped _ _ _ Hr); lia| |].
    { apply Forall_forall. intros c Hc%list_elem_of_In. specialize (Hd c Hc). unfold is_u8. lia. }
    pose proof (repr_slot r m m' a1 s a2 BLK_INITED (Some d) Hr) as Hr'. simpl. exists r, m'. split; [done|]. split; [|done].
    rewrite list_insert_id in Hr' by (rewrite Hb; unfold slot_blk; by rewrite Hst). destruct r. apply Hr'; try done.
    + intros y Hy. apply Hout. lia.
    + intros w [= <-]. done.
  - destruct (slot_of i a) as [[[a1 s] a2]|] eqn:Hsl; [|done]. apply slot_of_spec in Hsl as [-> ->]. simpl in E.
    case_bool_decide as Hst; [|done]. injection E as <- <-. destruct (blk_put_repr _ _ _ _ _ Hr) as (r'&->&Hs&Hr'). by exists r', m.
  - pose proof (first_slot_spec (fun s => bool_decide (sl_st s = BLK_PUT)) a) as Hf. destruct (first_slot _ a) as [[[a1 s] a2]|].
    + destruct Hf as (->&Hst&H1). apply bool_decide_eq_true in Hst. injection E as <- <-.
      destruct (blk_get_repr _ _ _ _ _ Hr) as (r'&->&Hs&Hr'); [|done|by exists r', m]. eapply Forall_impl; [exact H1|]. simpl. intros x Hx. by apply bool_decide_eq_false in Hx.
    + injection E as <- <-. rewrite (blk_get_none r m a Hr); [by exists r, m|]. eapply Forall_impl; [exact Hf|]. simpl. intros x Hx. by apply bool_decide_eq_false in Hx.
  - destruct (slot_of i a) as [[[a1 s] a2]|] eqn:Hsl; [|done]. apply slot_of_spec in Hsl as [-> ->]. simpl in E. injection E as <- <-.
    destruct (repr_free _ _ _ _ _ Hr) as (r'&->&Hs&Hr'). by exists r', m.
Qed.

(** ** Any sequence of calls *)

Fixpoint rbb_run (ops : list rbb_op) (r : rt_rbb) (m : memory) : option (rt_rbb * memory * list (option nat)) :=
  match ops with
  | [] => Some (r, m, [])
  | op :: ops => '(r, m, o) ← rbb_exec op r m; '(r, m, os) ← rbb_run ops r m; Some (r, m, o :: os)
  end.
Fixpoint abs_run (buf size : Z) (max : nat) (ops : list rbb_op) a : option (list slot * list (option nat)) :=
  match ops with
  | [] => Some (a, [])
  | op :: ops => '(a, o) ← abs_exec buf size max op a; '(a, os) ← abs_run buf size max ops a; Some (a, o :: os)
  end.

Lemma rbb_run_ok ops : forall r m a a' os, rbb_repr r m a -> abs_run (rbb_buf r) (rbb_buf_size r) (blk_max_num r) ops a = Some (a', os) ->
  exists r' m', rbb_run ops r m = Some (r', m', os) /\ rbb_repr r' m' a' /\ same_buf r r'.
Proof.
  induction ops as [|op ops IH]; intros r m a a' os Hr E; simpl in E |- *; [injection E as <- <-; by exists r, m|].
  apply bind_Some in E as ([a1 o]&E1&E). apply bind_Some in E as ([a2 os2]&E2&E). injection E as <- <-.
  destruct (rbb_exec_ok op r m a a1 o Hr E1) as (r1&m1&->&Hr1&Hs1). simpl. destruct Hs1 as (Hb&Hs&Hx).
  destruct (IH r1 m1 a1 a2 os2 Hr1) as (r2&m2&->&Hr2&Hs2); [by rewrite Hb, Hs, Hx|]. simpl. exists r2, m2. split_and!; [done|done|].
  destruct Hs2 as (?&?&?). split_and!; congruence.
Qed.

Lemma init_status_spec n : forall i bs, (i + n = length bs)%nat -> exists bs1, init_status n i bs = Some bs1 /\ length bs1 = length bs /\
  (forall j, (j < i)%nat -> bs1 !! j = bs !! j) /\ forall j b, bs1 !! j = Some b -> (i <= j)%nat -> blk_status b = BLK_UNUSED.
Proof.
  induction n as [|n IH]; intros i bs Hi; simpl.
  - exists bs. splits; try done. intros j b Hb. apply lookup_lt_Some in Hb. lia.
  - destruct (lookup_lt_is_Some_2 bs i) as [b Hb]; [lia|]. rewrite Hb. simpl.
    destruct (IH (S i) (<[i := set_status BLK_UNUSED b]> bs)) as (bs1&->&Hl&Hlow&Hs); [rewrite length_insert; lia|].
    rewrite length_insert in Hl. eexists. splits; try done.
    + intros j Hj. rewrite Hlow by lia. apply list_lookup_insert_ne. lia.
    + intros j b' Hj Hij. destruct (decide (j = i)) as [->|]; [|apply (Hs j); [done|lia]].
      rewrite Hlow, list_lookup_insert_eq in Hj by (try lia; by eapply lookup_lt_Some). by injection Hj as <-.
Qed.

Lemma rt_rbb_init_repr addr buf size saddr blks max m : (length blks = max)%nat -> (0 < max)%nat ->
  0 <= buf -> buf + size < 4294967296 -> 0 <= size < 16777216 -> (forall x, buf <= x < buf + size -> is_Some (m !! x)) ->
  exists r, rt_rbb_init addr buf size saddr blks max = Some r /\ rbb_buf_size r = size /\ rbb_buf r = buf /\ blk_max_num r = max /\ rbb_repr r m [].
Proof.
  intros Hl Hpos Hb Hbs Hs Hm. unfold rt_rbb_init. destruct (init_status_spec max 0 blks) as (bs1&->&Hl'&_&Hu); [done|].
  eexists. splits; [done..|]. constructor; simpl; [done|apply NoDup_nil_2|lia|constructor| | |done|done|constructor].
  - intros j b Hj _. apply (Hu j); [done|lia].
  - exists [], []. splits; [done|simpl; lia|done].
Qed.

(** What clients rely on: the blocks in use are apart and inside the buffer, they have the
    address and size that the calls tell, and the bytes that were written. *)
Record clients_ok (buf size : Z) (r : rt_rbb) (m : memory) a : Prop := {
  co_place : Forall (fun s => rt_rbb_blk_buf (sl_id s) r = Some (sl_addr s) /\ rt_rbb_blk_size (sl_id s) r = Some (sl_size s)) a;
  co_apart : ForallOrdPairs apart a;
  co_inside : Forall (fun s => buf <= sl_addr s /\ sl_addr s + sl_size s <= buf + size) a;
  co_bytes : Forall (fun s => forall d, sl_data s = Some d ->
      Z.of_nat (length d) = sl_size s /\ forall k : nat, (k < length d)%nat -> m !! (sl_addr s + Z.of_nat k) = d !! k) a;
}.

Lemma repr_clients r m a : rbb_repr r m a -> clients_ok (rbb_buf r) (rbb_buf_size r) r m a.
Proof.
  intros Hr. constructor; [|by eapply placed_apart, rr_placed| |by apply (rr_data _ _ _ Hr)].
  { eapply Forall_impl; [apply (rr_used _ _ _ Hr)|]. simpl. intros s [E _]. unfold rt_rbb_blk_buf, rt_rbb_blk_size. by rewrite E. }
  apply Forall_forall. intros s Hs. pose proof (placed_in _ _ _ _ (rr_placed _ _ _ Hr) Hs). lia.
Qed.

(** C39: A ring block buffer, without its block queues, is the list of its blocks in use
    ([abs_exec]): for every sequence of calls that clients make as [abs_exec] has them
    (they ask for 1 byte to the size of the buffer, fill and put blocks they have taken,
    free blocks in use), every call of the code returns what the list gives. A block is
    refused only when no number is free or no room in circular order; a block that was put
    is handed out by [rt_rbb_blk_get] before those taken after it, with its address, its
    size and the bytes written; blocks in use are apart and inside the buffer. The code
    does not check the size ([rt_rbb_blk_alloc_unchecked], [rt_rbb_blk_alloc_zero]), and
    block queues break this ([rt_rbb_queue_overwritten], [rt_rbb_queue_wrong_block]). *)
Theorem rbb_refines addr buf size saddr blks m ops a os :
  (0 < length blks)%nat -> 0 <= buf -> buf + size < 4294967296 -> 0 <= size < 16777216 ->
  (forall x, buf <= x < buf + size -> is_Some (m !! x)) -> abs_run buf size (length blks) ops [] = Some (a, os) ->
  exists r r' m', rt_rbb_init addr buf size saddr blks (length blks) = Some r /\
    rbb_run ops r m = Some (r', m', os) /\ clients_ok buf size r' m' a.
Proof.
  intros Hpos Hb Hbs Hs Hm Hops.
  destruct (rt_rbb_init_repr addr buf size saddr blks (length blks) m) as (r&->&Es&Eb&Ex&Hr); try done.
  destruct (rbb_run_ok ops r m [] a os Hr) as (r'&m'&Erun&Hr'&E1&E2&_); [by rewrite Es, Eb, Ex|].
  exists r, r', m'. splits; try done. rewrite <-Eb, <-Es, <-E1, <-E2. by apply repr_clients.
Qed.

(** ** Witness *)

Definition demo_blks : list rt_rbb_blk := replicate 3 (Blk BLK_GET 77 0).
Definition demo_ring_ops : list rbb_op :=
  [OpAlloc 6; OpWrite 0 [1; 2; 3; 4; 5; 6]; OpPut 0; OpAlloc 8; OpGet; OpAlloc 3; OpFree 0; OpAlloc 5; OpWrite 1 (replicate 8 7); OpPut 1; OpGet].

(** The third block does not fit behind the second one; when the first is free, a block
    starts again at the beginning. *)
Lemma rbb_refines_witness : exists r r' m', rt_rbb_init 40 100 16 20 demo_blks 3 = Some r /\
  rbb_run demo_ring_ops r (memory_of 100 (replicate 16 0)) =
    Some (r', m', [Some 0%nat; None; None; Some 1%nat; Some 0%nat; None; None; Some 0%nat; None; None; Some 1%nat]) /\
  clients_ok 100 16 r' m' [Slot 1 BLK_GET 106 8 (Some (replicate 8 7)); Slot 0 BLK_INITED 100 5 None].
Proof.
  apply (rbb_refines 40 100 16 20 demo_blks (memory_of 100 (replicate 16 0)) demo_ring_ops); try (cbn; lia).
  - intros x Hx. apply (memory_of_mapped 100 (replicate 16 0) 100 16); [lia|cbn; lia|lia].
  - reflexivity.
Defined.

(** ** Limits *)

(** When no block is in use the size asked for is not compared with the buffer: any
    size is given. *)
Theorem rt_rbb_blk_alloc_unchecked r i b n : blk_list r = [] -> find_empty_blk_in_set r = Some (Some i) ->
  blk_set r !! i = Some b -> (0 < blk_max_num r)%nat ->
  exists r', rt_rbb_blk_alloc n r = Some (r', Some i) /\ blk_set r' !! i = Some (Blk BLK_INITED (n mod 16777216) (rbb_buf r)).
Proof.
  intros Hl Hf Hb Hpos. unfold rt_rbb_blk_alloc. rewrite Hf. cbn [mbind option_bind]. rewrite Hl. rewrite decide_True by (simpl; lia).
  unfold take_blk, list_append, upd_blk. rewrite Hl. rewrite decide_False by apply not_elem_of_nil. simpl. rewrite Hb. simpl.
  eexists. split; [done|]. simpl. rewrite list_lookup_insert_eq; [done|by eapply lookup_lt_Some].
Qed.

Definition demo_ring (blks : list rt_rbb_blk) (l : list nat) : rt_rbb := Rbb 40 100 16 20 blks (length blks) l.

(** In a full buffer a block of size 0 is put where the first block starts; the list
    then looks as if it had not wrapped, and the next block overlaps the first one: here
    block 0 is in use at [[108, 116)] and block 3 becomes [[108, 112)]. *)
Theorem rt_rbb_blk_alloc_zero :
  let r := demo_ring [Blk BLK_PUT 8 108; Blk BLK_PUT 8 100; Blk BLK_UNUSED 0 0; Blk BLK_UNUSED 0 0] [0%nat; 1%nat] in
  ('(r, _) ← rt_rbb_blk_alloc 0 r; '(r, _) ← rt_rbb_blk_alloc 4 r; Some (blk_list r, blk_set r !! 0%nat, blk_set r !! 3%nat)) =
  Some ([0; 1; 2; 3]%nat, Some (Blk BLK_PUT 8 108), Some (Blk BLK_INITED 4 108)).
Proof. vm_compute. done. Qed.

(** The blocks of a queue leave the list, so that their bytes count as free: an
    allocation gives them to a writer while the reader of the queue still reads. *)
Theorem rt_rbb_queue_overwritten :
  let r := demo_ring [Blk BLK_PUT 8 100; Blk BLK_PUT 8 108; Blk BLK_UNUSED 0 0] [0%nat; 1%nat] in
  (let '(r, q, n) := default (r, Queue 0 0, 0) (rt_rbb_blk_queue_get 8 (Queue 0 0) r) in
   '(r, i) ← rt_rbb_blk_alloc 8 r; Some (n, rt_rbb_blk_queue_buf q r, i, x ← i; rt_rbb_blk_buf x r)) =
  Some (8, Some 100, Some 2%nat, Some 100).
Proof. vm_compute. done. Qed.

(** The members of a queue are taken from the list, but counted and freed by their
    places in the array: with the list in another order, another block is freed. *)
Theorem rt_rbb_queue_wrong_block :
  let r := demo_ring [Blk BLK_PUT 4 104; Blk BLK_INITED 5 108; Blk BLK_PUT 4 100] [2%nat; 0%nat; 1%nat] in
  rt_rbb_blk_queue_get 8 (Queue 0 0) r = Some (demo_ring [Blk BLK_GET 4 104; Blk BLK_INITED 5 108; Blk BLK_GET 4 100] [1%nat], Queue 2 2, 8) /\
  rt_rbb_blk_queue_len (Queue 2 2) r = None /\ rt_rbb_blk_queue_free (Queue 2 2) r = None.
Proof. vm_compute. done. Qed.

(** The size of the first block is not compared with the limit. *)
Theorem rt_rbb_queue_too_long :
  let r := demo_ring [Blk BLK_PUT 8 100] [0%nat] in
  exists r', rt_rbb_blk_queue_get 3 (Queue 0 0) r = Some (r', Queue 0 1, 8).
Proof. eexists. vm_compute. reflexivity. Qed.
