(* ===== verification/Printf.v ===== *)
(** * Formatted printing (rt-thread/src/kservice.c)

    [rt_vsnprintf] and what is built on it, in the configuration without
    [RT_PRINTF_LONGLONG], [RT_PRINTF_PRECISION] and [RT_PRINTF_SPECIAL]. The format, the
    strings and the buffer lie in memory; the variable arguments are words. *)

From S2P Require Import Prelude KString.

(** ** Writing with a limit *)

(** The memory and [str], the place of the next character. *)
Definition out_state : Type := memory * Z.

(** [++str], on an address of the machine. *)
Definition str_inc (str : Z) : Z := u32 (str + 1).

(** The functions below get [++str] as [inc]. The code's is [str_inc]; the proofs also run
    them with addresses that do not wrap. *)
Section Print.
Context (inc : Z -> Z) (end_ : Z).

(** [if (str <= end) *str = c; ++str]. *)
Definition put (c : Z) (st : out_state) : option out_state :=
  let '(m, str) := st in
  if str <=? end_ then m ← store m str c; Some (m, inc str) else Some (m, inc str).
Fixpoint put_all (cs : list Z) (st : out_state) : option out_state :=
  match cs with [] => Some st | c :: cs => st ← put c st; put_all cs st end.
(** [while (n-- > 0)] writing [c]. *)
Definition pad (n c : Z) (st : out_state) : option out_state := put_all (replicate (Z.to_nat n) c) st.
(** Copying [n] characters from [s]; a character is read only when it is written. *)
Fixpoint put_string (n : nat) (s : Z) (st : out_state) : option out_state :=
  match n with
  | O => Some st
  | S n =>
      let '(m, str) := st in
      st ← (if str <=? end_ then c ← m !! s; m ← store m str c; Some (m, inc str) else Some (m, inc str));
      put_string n (s + 1) st
  end.

(** ** Numbers *)

Definition ZEROPAD : Z := 1.
Definition SIGN : Z := 2.
Definition PLUS : Z := 4.
Definition SPACE : Z := 8.
Definition LEFT : Z := 16.
Definition SPECIAL : Z := 32.
Definition LARGE : Z := 64.
Definition has_flag (type f : Z) : bool := negb (Z.land type f =? 0).

(** [small_digits] and [large_digits]. *)
Definition digit (large : bool) (d : Z) : Z := if d <? 10 then 48 + d else if large then 55 + d else 87 + d.

(** Every base that is not 10 divides by 16. *)
Definition divide (n base : Z) : Z * Z := if base =? 10 then (u32 n / 10, u32 n mod 10) else (u32 n / 16, u32 n mod 16).

(** [tmp], the least digit first; it has 16 places. *)
Fixpoint tmp_digits (places : nat) (large : bool) (num base : Z) : option (list Z) :=
  if num =? 0 then Some []
  else match places with
  | O => None
  | S places => let '(n, d) := divide num base in ds ← tmp_digits places large n base; Some (digit large d :: ds)
  end.

(** The sign, 0 for none, and the number without it. *)
Definition number_sign (type num : Z) : Z * Z :=
  if has_flag type SIGN then
    if num <? 0 then (45, s32 (- num)) else if has_flag type PLUS then (43, num) else if has_flag type SPACE then (32, num) else (0, num)
  else (0, num).

Definition print_number (num base s type : Z) (st : out_state) : option out_state :=
  let large := has_flag type LARGE in
  let type := if has_flag type LEFT then Z.land type (Z.lnot ZEROPAD) else type in
  let c := if has_flag type ZEROPAD then 48 else 32 in
  let '(sign, num) := number_sign type num in
  tmp ← (if num =? 0 then Some [48] else tmp_digits 16 large num base);
  let size := s - Z.of_nat (length tmp) in
  '(st, size) ← (if negb (has_flag type (Z.lor ZEROPAD LEFT)) then
                   let size := if negb (sign =? 0) && (0 <? size) then size - 1 else size in
                   st ← pad size 32 st; Some (st, Z.min size 0 - 1)
                 else Some (st, size));
  '(st, size) ← (if negb (sign =? 0) then
                   let size := if st.2 <=? end_ then size - 1 else size in
                   st ← put sign st; Some (st, size)
                 else Some (st, size));
  '(st, size) ← (if negb (has_flag type LEFT) then st ← pad size c st; Some (st, Z.min size 0 - 1) else Some (st, size));
  st ← put_all (rev tmp) st;
  pad size 32 st.
End Print.

(** ** The format *)

Definition isdigit (c : Z) : bool := (48 <=? c) && (c <=? 57).
Definition flag_of (c : Z) : option Z :=
  if c =? 45 then Some LEFT else if c =? 43 then Some PLUS else if c =? 32 then Some SPACE
  else if c =? 35 then Some SPECIAL else if c =? 48 then Some ZEROPAD else None.

Fixpoint skip_atoi (fuel : nat) (m : memory) (s i : Z) : option (Z * Z) :=
  c ← m !! s;
  if isdigit c then match fuel with O => None | S fuel => skip_atoi fuel m (s + 1) (s32 (i * 10 + c - 48)) end
  else Some (s, i).

Fixpoint read_flags (fuel : nat) (m : memory) (fmt flags : Z) : option (Z * Z) :=
  c ← m !! fmt;
  match flag_of c, fuel with
  | Some f, S fuel => read_flags fuel m (fmt + 1) (Z.lor flags f)
  | Some _, O => None
  | None, _ => Some (fmt, flags)
  end.

(** [va_arg]: the next word. *)
Definition va_arg (args : list Z) : option (Z * list Z) := match args with [] => None | a :: args => Some (a, args) end.

Definition read_width (fuel : nat) (m : memory) (fmt flags : Z) (args : list Z) : option (Z * Z * Z * list Z) :=
  c ← m !! fmt;
  if isdigit c then '(fmt, w) ← skip_atoi fuel m fmt 0; Some (fmt, w, flags, args)
  else if c =? 42 then
    '(w, args) ← va_arg args;
    let w := s32 w in
    Some (if w <? 0 then (fmt + 1, s32 (- w), Z.lor flags LEFT, args) else (fmt + 1, w, flags, args))
  else Some (fmt, -1, flags, args).

(** [h] and [l]. *)
Definition read_qualifier (m : memory) (fmt : Z) : option (Z * Z) :=
  c ← m !! fmt; Some (if (c =? 104) || (c =? 108) then (fmt + 1, c) else (fmt, 0)).

(** The value of an integer conversion, as the [long] that [print_number] gets. *)
Definition number_arg (qualifier flags a : Z) : Z :=
  if qualifier =? 104 then
    let num := u16 a in
    s32 (if has_flag flags SIGN then (if num <? 32768 then num else num - 65536) else num)
  else s32 a.

Definition null_text : list Z := [40; 78; 85; 76; 76; 41].

(** One conversion, from the character after the qualifier; the result says where the
    format goes on. *)
Definition convert (inc : Z -> Z) (end_ : Z) (fmt flags width qualifier : Z) (args : list Z) (st : out_state) : option (Z * list Z * out_state) :=
  let number (base flags : Z) :=
    '(a, args) ← va_arg args;
    st ← print_number inc end_ (number_arg qualifier flags a) base width flags st;
    Some (fmt + 1, args, st) in
  c ← st.1 !! fmt;
  if c =? 99 then                                             (* c *)
    st ← (if has_flag flags LEFT then Some st else pad inc end_ (width - 1) 32 st);
    '(a, args) ← va_arg args;
    st ← put inc end_ (u8 a) st;
    st ← (if has_flag flags LEFT then pad inc end_ (width - 1) 32 st else Some st);
    Some (fmt + 1, args, st)
  else if c =? 115 then                                       (* s *)
    '(s, args) ← va_arg args;
    len ← (if s =? 0 then Some 6%nat else rt_strlen st.1 s);
    st ← (if has_flag flags LEFT then Some st else pad inc end_ (width - Z.of_nat len) 32 st);
    st ← (if s =? 0 then put_all inc end_ null_text st else put_string inc end_ len s st);
    st ← (if has_flag flags LEFT then pad inc end_ (width - Z.of_nat len) 32 st else Some st);
    Some (fmt + 1, args, st)
  else if c =? 112 then                                       (* p *)
    let '(width, flags) := if width =? -1 then (8, Z.lor flags ZEROPAD) else (width, flags) in
    '(a, args) ← va_arg args;
    st ← print_number inc end_ (s32 a) 16 width flags st;
    Some (fmt + 1, args, st)
  else if c =? 37 then st ← put inc end_ 37 st; Some (fmt + 1, args, st)
  else if c =? 111 then number 8 flags                        (* o *)
  else if c =? 88 then number 16 (Z.lor flags LARGE)          (* X *)
  else if c =? 120 then number 16 flags                       (* x *)
  else if (c =? 100) || (c =? 105) then number 10 (Z.lor flags SIGN)
  else if c =? 117 then number 10 flags                       (* u *)
  else
    st ← put inc end_ 37 st;
    if c =? 0 then Some (fmt, args, st) else st ← put inc end_ c st; Some (fmt + 1, args, st).

Fixpoint format_loop (inc : Z -> Z) (fuel : nat) (end_ : Z) (fmt : Z) (args : list Z) (st : out_state) : option out_state :=
  c ← st.1 !! fmt;
  if c =? 0 then Some st
  else match fuel with
  | O => None
  | S fuel' =>
      if negb (c =? 37) then st ← put inc end_ c st; format_loop inc fuel' end_ (fmt + 1) args st
      else
        '(fmt, flags) ← read_flags fuel' st.1 (fmt + 1) 0;
        '(fmt, width, flags, args) ← read_width fuel' st.1 fmt flags args;
        '(fmt, qualifier) ← read_qualifier st.1 fmt;
        '(fmt, args, st) ← convert inc end_ fmt flags width qualifier args st;
        format_loop inc fuel' end_ fmt args st
  end.

(** The result: the memory and the length that is returned. The format is read from
    memory that the call may change, so the fuel is the size of the memory. *)
Definition rt_vsnprintf (m : memory) (buf size_ fmt : Z) (args : list Z) : option (memory * Z) :=
  let end_ := u32 (buf + size_ - 1) in
  let end_ := if end_ <? buf then 4294967295 else end_ in
  '(m, str) ← format_loop str_inc (size m) end_ fmt args (m, buf);
  m ← (if str <=? end_ then store m str 0 else store m end_ 0);
  Some (m, s32 (str - buf)).
Definition rt_snprintf := rt_vsnprintf.
Definition rt_vsprintf (m : memory) (buf fmt : Z) (args : list Z) : option (memory * Z) := rt_vsnprintf m buf 4294967295 fmt args.
Definition rt_sprintf := rt_vsprintf.

(** ** What is printed *)

(** The numeral of [n] in base [b]; [fuel] bounds its length. *)
Fixpoint numeral (fuel : nat) (large : bool) (b n : Z) : list Z :=
  match fuel with
  | O => [digit large n]
  | S fuel => if n <? b then [digit large n] else numeral fuel large b (n / b) ++ [digit large (n mod b)]
  end.
Definition numeral32 := numeral 9.

Definition spaces (n : Z) : list Z := replicate (Z.to_nat n) 32.
Definition zeros (n : Z) : list Z := replicate (Z.to_nat n) 48.
Definition len (l : list Z) : Z := Z.of_nat (length l).

(** [body] in a field of [width] places. *)
Definition justify (left : bool) (width : Z) (body : list Z) : list Z :=
  if left then body ++ spaces (width - len body) else spaces (width - len body) ++ body.

(** The sign and the digits of a value in base 10 or 16. *)
Definition sign_text (flags num : Z) : list Z :=
  if has_flag flags SIGN then if num <? 0 then [45] else if has_flag flags PLUS then [43] else if has_flag flags SPACE then [32] else [] else [].
Definition number_text (b width flags num : Z) : list Z :=
  let sign := sign_text flags num in
  let ds := numeral32 (has_flag flags LARGE) b (if has_flag flags SIGN then Z.abs num else u32 num) in
  if negb (has_flag flags LEFT) && has_flag flags ZEROPAD then sign ++ zeros (width - len sign - len ds) ++ ds
  else justify (has_flag flags LEFT) width (sign ++ ds).

(** A format as a list of items, and how it is written. *)
Inductive conversion := CChar | CString | CPointer | CPercent | CSigned | CUnsigned | CHex | CHexLarge.
Inductive field_width := NoWidth | Width (w : Z) | ArgWidth.
Inductive item := Literal (c : Z) | Directive (flags : list Z) (w : field_width) (q : Z) (k : conversion).

Definition letter (k : conversion) : Z :=
  match k with CChar => 99 | CString => 115 | CPointer => 112 | CPercent => 37 | CSigned => 100 | CUnsigned => 117 | CHex => 120 | CHexLarge => 88 end.
Definition width_chars (w : field_width) : list Z := match w with NoWidth => [] | Width w => numeral32 false 10 w | ArgWidth => [42] end.
Definition item_chars (it : item) : list Z :=
  match it with
  | Literal c => [c]
  | Directive flags w q k => 37 :: flags ++ width_chars w ++ (if q =? 0 then [] else [q]) ++ [letter k]
  end.
Definition format_chars (items : list item) : list Z := concat (item_chars <$> items).

Definition item_ok (it : item) : Prop :=
  match it with
  | Literal c => is_u8 c /\ c <> 0 /\ c <> 37
  | Directive flags w q k =>
      Forall (fun c => is_Some (flag_of c)) flags /\ (forall v, w = Width v -> 0 < v < 2147483648) /\ (q = 0 \/ q = 104 \/ q = 108)
  end.

(** Arguments: words, and pointers to strings. *)
Inductive arg := AWord (a : Z) | AText (p : Z) (w : list Z).
Definition arg_word (a : arg) : Z := match a with AWord a => a | AText p _ => p end.
Definition next (args : list arg) : option (arg * list arg) := match args with [] => None | a :: args => Some (a, args) end.

Definition flags_value (flags : list Z) : Z := foldl (fun f c => Z.lor f (default 0 (flag_of c))) 0 flags.

Definition convert_text (k : conversion) (flags width q : Z) (args : list arg) : option (list Z * list arg) :=
  let left := has_flag flags LEFT in
  match k with
  | CPercent => Some ([37], args)
  | _ =>
      '(a, args) ← next args;
      text ← match k with
             | CChar => Some (justify left width [u8 (arg_word a)])
             | CString =>
                 match a with
                 | AText _ w => Some (justify left width w)
                 | AWord p => if p =? 0 then Some (justify left width null_text) else None
                 end
             | CPointer =>
                 Some (if width =? -1 then number_text 16 8 (Z.lor flags ZEROPAD) (s32 (arg_word a)) else number_text 16 width flags (s32 (arg_word a)))
             | CSigned => let flags := Z.lor flags SIGN in Some (number_text 10 width flags (number_arg q flags (arg_word a)))
             | CUnsigned => Some (number_text 10 width flags (number_arg q flags (arg_word a)))
             | CHex => Some (number_text 16 width flags (number_arg q flags (arg_word a)))
             | CHexLarge => let flags := Z.lor flags LARGE in Some (number_text 16 width flags (number_arg q flags (arg_word a)))
             | CPercent => Some [37]
             end;
      Some (text, args)
  end.
Definition item_text (it : item) (args : list arg) : option (list Z * list arg) :=
  match it with
  | Literal c => Some ([c], args)
  | Directive flags w q k =>
      let flags := flags_value flags in
      match w with
      | NoWidth => convert_text k flags (-1) q args
      | Width w => convert_text k flags w q args
      | ArgWidth =>
          '(a, args) ← next args;
          let w := s32 (arg_word a) in
          if w <? 0 then convert_text k (Z.lor flags LEFT) (s32 (- w)) q args else convert_text k flags w q args
      end
  end.
Fixpoint format_text (items : list item) (args : list arg) : option (list Z) :=
  match items with
  | [] => Some []
  | it :: items => '(t, args) ← item_text it args; out ← format_text items args; Some (t ++ out)
  end.

(** ** Numerals *)

Lemma digit_u8 large d : 0 <= d < 16 -> is_u8 (digit large d) /\ digit large d <> 0.
Proof. unfold digit, is_u8. destruct (Z.ltb_spec d 10), large; lia. Qed.

Lemma numeral_u8 large b fuel : forall n, (b = 10 \/ b = 16) -> 0 <= n < b ^ Z.of_nat (S fuel) -> Forall is_u8 (numeral fuel large b n).
Proof.
  induction fuel as [|fuel IH]; intros n Hb Hn; cbn [numeral].
  - constructor; [|constructor]. apply digit_u8. change (Z.of_nat 1) with 1 in Hn. destruct Hb as [-> | ->]; lia.
  - assert (forall d, 0 <= d < b -> is_u8 (digit large d)) as Hd by (intros d ?; apply digit_u8; destruct Hb as [-> | ->]; lia).
    destruct (Z.ltb_spec n b); [constructor; [apply Hd; lia|constructor]|].
    apply Forall_app. split.
    + apply IH; [done|]. rewrite (Nat2Z.inj_succ (S fuel)), Z.pow_succ_r in Hn by lia. split; [apply Z.div_pos; destruct Hb as [-> | ->]; lia|].
      apply Z.div_lt_upper_bound; destruct Hb as [-> | ->]; lia.
    + constructor; [|constructor]. apply Hd. apply Z.mod_pos_bound. destruct Hb as [-> | ->]; lia.
Qed.

(** [tmp] holds the numeral backwards. *)
Lemma tmp_digits_numeral large base b n : b = (if base =? 10 then 10 else 16) -> forall fuel places, 0 < n < 4294967296 ->
  n < b ^ Z.of_nat (S fuel) -> (S fuel <= places)%nat -> tmp_digits places large n base = Some (rev (numeral fuel large b n)).
Proof.
  intros Hb fuel. assert (b = 10 \/ b = 16) as Hb' by (destruct (base =? 10); auto).
  revert n. induction fuel as [|fuel IH]; intros n places Hn Hlt Hp; destruct places as [|places]; try lia;
    cbn [tmp_digits numeral]; rewrite (proj2 (Z.eqb_neq n 0)) by lia.
  - assert (divide n base = (0, n)) as ->.
    { unfold divide. rewrite u32_small by (unfold is_u32; lia). change (Z.of_nat 1) with 1 in Hlt. rewrite Z.pow_1_r in Hlt.
      destruct (base =? 10); subst b; rewrite Z.div_small, Z.mod_small by lia; done. }
    by destruct places.
  - assert (divide n base = (n / b, n mod b)) as ->.
    { unfold divide. rewrite u32_small by (unfold is_u32; lia). destruct (base =? 10); by subst b. }
    destruct (Z.ltb_spec n b).
    + rewrite Z.div_small, Z.mod_small by lia. by destruct places.
    + rewrite IH; [by rewrite rev_unit| |rewrite (Nat2Z.inj_succ (S fuel)), Z.pow_succ_r in Hlt by lia; apply Z.div_lt_upper_bound; destruct Hb' as [-> | ->]; lia|lia].
      split; [apply Z.div_str_pos; destruct Hb' as [-> | ->]; lia|]. apply Z.div_lt_upper_bound; destruct Hb' as [-> | ->]; lia.
Qed.

(** The value of decimal digits. *)
Definition dec_value (i : Z) (ds : list Z) : Z := foldl (fun v c => v * 10 + (c - 48)) i ds.

Lemma numeral_digits fuel : forall n, 0 <= n < 10 ^ Z.of_nat (S fuel) ->
  Forall (fun c => isdigit c = true) (numeral fuel false 10 n) /\ dec_value 0 (numeral fuel false 10 n) = n.
Proof.
  assert (forall d, 0 <= d < 10 -> isdigit (digit false d) = true /\ digit false d - 48 = d) as Hd.
  { intros d H. unfold isdigit, digit. rewrite (proj2 (Z.ltb_lt d 10)) by lia. split; lia. }
  induction fuel as [|fuel IH]; intros n Hn; cbn [numeral].
  - change (Z.of_nat 1) with 1 in Hn. destruct (Hd n) as [H1 H2]; [lia|]. split; [by constructor|]. unfold dec_value. simpl. lia.
  - destruct (Z.ltb_spec n 10).
    + destruct (Hd n) as [H1 H2]; [lia|]. split; [by constructor|]. unfold dec_value. simpl. lia.
    + rewrite (Nat2Z.inj_succ (S fuel)), Z.pow_succ_r in Hn by lia. destruct (IH (n / 10)) as [H1 H2]; [dlia|].
      destruct (Hd (n mod 10)) as [H3 H4]; [dlia|]. split; [apply Forall_app; split; [done|by constructor]|].
      unfold dec_value in *. rewrite foldl_app, H2. simpl. rewrite H4. dlia.
Qed.

Lemma numeral_head fuel : forall n, 0 < n < 10 ^ Z.of_nat (S fuel) -> exists c l, numeral fuel false 10 n = c :: l /\ 49 <= c <= 57.
Proof.
  induction fuel as [|fuel IH]; intros n Hn; cbn [numeral].
  - change (Z.of_nat 1) with 1 in Hn. eexists _, _. split; [done|]. unfold digit. rewrite (proj2 (Z.ltb_lt n 10)) by lia. lia.
  - destruct (Z.ltb_spec n 10); [eexists _, _; split; [done|]; unfold digit; rewrite (proj2 (Z.ltb_lt n 10)) by lia; lia|].
    rewrite (Nat2Z.inj_succ (S fuel)), Z.pow_succ_r in Hn by lia. destruct (IH (n / 10)) as (c&l&->&Hc); [dlia|].
    exists c, (l ++ [digit false (n mod 10)]). done.
Qed.

(** ** Emitting text *)

Section Emit.
Context (m0 : memory) (buf : Z) (N : nat).
Hypotheses (Hm0 : bytes_ok m0) (Hmap : mapped m0 buf N) (HN : (0 < N)%nat).
Notation end_ := (buf + Z.of_nat N - 1).
Notation succ := (fun str : Z => str + 1).

(** The memory with the first bytes of [out] written at [buf], at most [N] of them. *)
Definition written (k : nat) (out : list Z) (m : memory) : Prop :=
  forall x, m !! x = if (buf <=? x) && (x <? buf + Z.of_nat (min (length out) k)) then out !! Z.to_nat (x - buf) else m0 !! x.

(** [out] has been emitted; when it has gone past the end it does not matter how far. *)
Definition emitted (out : list Z) (st : out_state) : Prop :=
  written N out st.1 /\ (st.2 = buf + len out \/ (N <= length out)%nat /\ buf + Z.of_nat N <= st.2).

Lemma emitted_nil : emitted [] (m0, buf).
Proof.
  split; [|left; unfold len; simpl; lia]. intros x. destruct (Z.leb_spec buf x), (Z.ltb_spec x (buf + Z.of_nat (min (length (@nil Z)) N))); try done.
  simpl in *. lia.
Qed.

Lemma emitted_over out t u st : (N <= length out)%nat -> buf + Z.of_nat N <= st.2 -> emitted (out ++ t) st -> emitted (out ++ u) st.
Proof.
  intros Hl Hs [Hw _]. split; [|right; rewrite length_app; lia]. intros x. rewrite (Hw x), !length_app.
  replace (min (length out + length t) N) with N by lia. replace (min (length out + length u) N) with N by lia.
  destruct (Z.leb_spec buf x), (Z.ltb_spec x (buf + Z.of_nat N)); simpl; try done. by rewrite !lookup_app_l by lia.
Qed.

Lemma emitted_mapped out st : emitted out st -> mapped st.1 buf N.
Proof.
  intros [Hw _] x Hx. rewrite (Hw x). destruct (Z.leb_spec buf x), (Z.ltb_spec x (buf + Z.of_nat (min (length out) N))); simpl; try (apply Hmap; lia).
  apply lookup_lt_is_Some_2. lia.
Qed.

Lemma emitted_outside out st x : emitted out st -> x < buf \/ buf + Z.of_nat N <= x -> st.1 !! x = m0 !! x.
Proof.
  intros [Hw _] Hx. rewrite (Hw x). destruct (Z.leb_spec buf x), (Z.ltb_spec x (buf + Z.of_nat (min (length out) N))); simpl; try done. lia.
Qed.

Lemma put_emitted out st c : emitted out st -> is_u8 c ->
  exists st', put succ end_ c st = Some st' /\ emitted (out ++ [c]) st' /\ (st'.2 = st.2 + 1).
Proof.
  destruct st as [m str]. intros He Hc. unfold put. destruct (Z.leb_spec str end_).
  - destruct (proj2 He) as [E|[_ E]]; simpl in E; [|lia]. destruct (emitted_mapped _ _ He str) as [b Eb]; [unfold len in E; lia|].
    simpl in Eb. rewrite (store_mapped _ _ _ _ Eb Hc). simpl. eexists. split; [done|]. split; [|done]. destruct He as [Hw _]. simpl in Hw. unfold len in E.
    split; [|left; unfold len; simpl; rewrite length_app; simpl; lia]. intros x. simpl. rewrite length_app. simpl.
    destruct (decide (x = str)) as [->|Hne].
    + rewrite lookup_insert_eq, (proj2 (Z.leb_le buf str)), (proj2 (Z.ltb_lt str _)) by lia. simpl.
      rewrite lookup_app_r by lia. replace (Z.to_nat (str - buf) - length out)%nat with 0%nat by lia. done.
    + rewrite lookup_insert_ne by done. rewrite (Hw x).
      destruct (Z.leb_spec buf x), (Z.ltb_spec x (buf + Z.of_nat (min (length out) N))), (Z.ltb_spec x (buf + Z.of_nat (min (length out + 1) N))); simpl; try done; try lia.
      by rewrite lookup_app_l by lia.
  - eexists. split; [done|]. split; [|done].
    assert ((N <= length out)%nat /\ buf + Z.of_nat N <= str) as [Hl Hs] by (destruct (proj2 He) as [E|E]; simpl in E; unfold len in *; lia).
    split; [|right; simpl; rewrite length_app; lia]. pose proof (emitted_over out [] [c] (m, str) Hl Hs) as [Hw _]; [by rewrite app_nil_r|done].
Qed.

Lemma put_all_emitted cs : forall out st, emitted out st -> Forall is_u8 cs ->
  exists st', put_all succ end_ cs st = Some st' /\ emitted (out ++ cs) st' /\ st'.2 = st.2 + len cs.
Proof.
  induction cs as [|c cs IH]; intros out st He Hcs; simpl; [exists st; rewrite app_nil_r; split_and!; [done|done|unfold len; simpl; lia]|].
  apply Forall_cons in Hcs as [Hc Hcs]. destruct (put_emitted _ _ _ He Hc) as (st1&->&He1&E1). simpl.
  destruct (IH _ _ He1 Hcs) as (st2&->&He2&E2). exists st2. rewrite <-app_assoc in He2. split_and!; [done|done|unfold len in *; simpl; lia].
Qed.

Lemma pad_emitted n c out st : emitted out st -> is_u8 c ->
  exists st', pad succ end_ n c st = Some st' /\ emitted (out ++ replicate (Z.to_nat n) c) st' /\ st'.2 = st.2 + Z.max 0 n.
Proof.
  intros He Hc. destruct (put_all_emitted (replicate (Z.to_nat n) c) _ _ He) as (st'&E&He'&Es); [by apply Forall_replicate|].
  exists st'. split_and!; [done|done|]. rewrite Es. unfold len. rewrite length_replicate. lia.
Qed.

Lemma put_string_emitted w : forall s out st, emitted out st -> cstr m0 s w -> s + len w < buf \/ buf + Z.of_nat N <= s ->
  exists st', put_string succ end_ (length w) s st = Some st' /\ emitted (out ++ w) st' /\ st'.2 = st.2 + len w.
Proof.
  induction w as [|c w IH]; intros s out st He Hw Ha; [exists st; rewrite app_nil_r; split_and!; [done|done|unfold len; simpl; lia]|].
  apply cstr_cons in Hw as (_&Ec&Hw). assert (is_u8 c) as Hc by exact (Hm0 _ _ Ec). destruct st as [m str]. cbn [put_string length].
  assert (m !! s = Some c) as Em. { rewrite <-Ec. apply (emitted_outside _ _ _ He). unfold len in Ha. simpl in Ha. lia. }
  destruct (put_emitted _ _ _ He Hc) as (st1&E1&He1&L1). unfold put in E1. rewrite Em. simpl. rewrite E1. simpl.
  destruct (IH (s + 1) (out ++ [c]) st1 He1 Hw) as (st2&E2&He2&L2); [unfold len in *; simpl in Ha; lia|].
  exists st2. rewrite <-app_assoc in He2. split_and!; [done|done|]. unfold len in *. simpl in *. lia.
Qed.

(** ** Numbers *)

Lemma spaces_u8 n : Forall is_u8 (spaces n).
Proof. apply Forall_replicate. unfold is_u8. lia. Qed.

Lemma has_flag_bit x k : 0 <= k -> has_flag x (2 ^ k) = Z.testbit x k.
Proof.
  intros Hk. unfold has_flag. rewrite land_pow2 by done. destruct (Z.testbit x k); [|done].
  pose proof (Z.pow_pos_nonneg 2 k). by rewrite (proj2 (Z.eqb_neq _ _)) by lia.
Qed.
Lemma flag_bits x : has_flag x ZEROPAD = Z.testbit x 0 /\ has_flag x SIGN = Z.testbit x 1 /\ has_flag x PLUS = Z.testbit x 2 /\
  has_flag x SPACE = Z.testbit x 3 /\ has_flag x LEFT = Z.testbit x 4 /\ has_flag x LARGE = Z.testbit x 6 /\
  has_flag x (Z.lor ZEROPAD LEFT) = Z.testbit x 0 || Z.testbit x 4.
Proof.
  split_and!; [exact (has_flag_bit x 0 ltac:(lia))|exact (has_flag_bit x 1 ltac:(lia))|exact (has_flag_bit x 2 ltac:(lia))|exact (has_flag_bit x 3 ltac:(lia))|exact (has_flag_bit x 4 ltac:(lia))|exact (has_flag_bit x 6 ltac:(lia))|].
  unfold has_flag. rewrite Z.land_lor_distr_r.
  pose proof (has_flag_bit x 0 ltac:(lia)) as H0. pose proof (has_flag_bit x 4 ltac:(lia)) as H4. unfold has_flag in H0, H4. rewrite <-H0, <-H4.
  change (2 ^ 0) with ZEROPAD. change (2 ^ 4) with LEFT. destruct (Z.eqb_spec (Z.land x ZEROPAD) 0) as [->|Ha], (Z.eqb_spec (Z.land x LEFT) 0) as [->|Hb]; simpl.
  - done.
  - rewrite Z.lor_0_l. by apply negb_true_iff, Z.eqb_neq.
  - rewrite Z.lor_0_r. by apply negb_true_iff, Z.eqb_neq.
  - apply negb_true_iff, Z.eqb_neq. intros [? ?]%Z.lor_eq_0_iff. done.
Qed.

(** The flags inside [print_number]. *)
Definition number_type (flags : Z) : Z := if has_flag flags LEFT then Z.land flags (Z.lnot ZEROPAD) else flags.
Lemma number_type_flags flags : has_flag (number_type flags) LEFT = has_flag flags LEFT /\
  has_flag (number_type flags) ZEROPAD = negb (has_flag flags LEFT) && has_flag flags ZEROPAD /\
  has_flag (number_type flags) (Z.lor ZEROPAD LEFT) = has_flag flags ZEROPAD || has_flag flags LEFT /\
  (forall num, number_sign (number_type flags) num = number_sign flags num).
Proof.
  unfold number_sign. pose proof (flag_bits flags) as (F0&F1&F2&F3&F4&_&F04). pose proof (flag_bits (number_type flags)) as (G0&G1&G2&G3&G4&_&G04).
  assert (forall i, 0 <= i -> i <> 0 -> Z.testbit (number_type flags) i = Z.testbit flags i) as Hb.
  { intros i Hi Hne. unfold number_type. destruct (has_flag flags LEFT); [|done]. rewrite Z.land_spec, Z.lnot_spec by done.
    unfold ZEROPAD. change 1 with (2 ^ 0). rewrite Z.pow2_bits_false by done. apply andb_true_r. }
  assert (Z.testbit (number_type flags) 0 = negb (has_flag flags LEFT) && has_flag flags ZEROPAD) as H0.
  { unfold number_type. destruct (has_flag flags LEFT); cbn [negb andb]; [|by rewrite F0]. rewrite Z.land_spec, Z.lnot_spec by done. apply andb_false_r. }
  rewrite G0, G1, G2, G3, G4, G04, (Hb 4), H0, F0, F1, F2, F3, F4 by lia. split_and!; try done.
  - by destruct (Z.testbit flags 4), (Z.testbit flags 0).
  - intros num. by rewrite !Hb by lia.
Qed.

Lemma number_sign_spec flags num : -2147483648 <= num < 2147483648 -> exists sign num', number_sign flags num = (sign, num') /\
  sign_text flags num = (if sign =? 0 then [] else [sign]) /\ is_u8 sign /\ -2147483648 <= num' < 2147483648 /\
  u32 num' = if has_flag flags SIGN then Z.abs num else u32 num.
Proof.
  intros Hn. unfold number_sign, sign_text. destruct (has_flag flags SIGN); [|exists 0, num; split_and!; (done || word)].
  destruct (Z.ltb_spec num 0).
  - exists 45, (s32 (- num)). rewrite Z.abs_neq by lia. unfold s32, u32. destruct (Z.ltb_spec (- num mod 4294967296) 2147483648); split_and!; (done || dlia).
  - rewrite Z.abs_eq by lia. destruct (has_flag flags PLUS); [exists 43, num; split_and!; (done || word)|].
    destruct (has_flag flags SPACE); [exists 32, num|exists 0, num]; split_and!; (done || word).
Qed.

Lemma tmp_spec large base num : -2147483648 <= num < 2147483648 ->
  (if num =? 0 then Some [48] else tmp_digits 16 large num base) = Some (rev (numeral32 large (if base =? 10 then 10 else 16) (u32 num))).
Proof.
  intros Hn. set (b := if base =? 10 then 10 else 16). assert (b = 10 \/ b = 16) as Hb by (unfold b; destruct (base =? 10); auto).
  destruct (Z.eqb_spec num 0) as [->|Hne].
  - unfold numeral32. cbn [numeral]. rewrite u32_small by word. rewrite (proj2 (Z.ltb_lt 0 b)) by lia. done.
  - assert (u32 num <> 0 /\ 0 <= u32 num < 4294967296) as [Hu Hr] by word.
    assert (tmp_digits 16 large num base = tmp_digits 16 large (u32 num) base) as ->.
    { cbn [tmp_digits]. rewrite (proj2 (Z.eqb_neq _ _) Hne), (proj2 (Z.eqb_neq _ _) Hu). unfold divide. by rewrite (u32_small (u32 num)) by apply u32_range. }
    apply tmp_digits_numeral; [done|lia| |lia]. change (Z.of_nat 10) with 10. destruct Hb as [-> | ->]; lia.
Qed.

Lemma numeral32_u8 large b n : (b = 10 \/ b = 16) -> is_u32 n -> Forall is_u8 (numeral32 large b n).
Proof.
  intros Hb Hn. apply numeral_u8; [done|]. unfold is_u32 in Hn. change (Z.of_nat 10) with 10. destruct Hb as [-> | ->]; lia.
Qed.

Lemma len_app u w : len (u ++ w) = len u + len w.
Proof. unfold len. rewrite length_app. lia. Qed.
Lemma len_one c : len [c] = 1.
Proof. done. Qed.
Lemma len_spaces n : len (spaces n) = Z.max 0 n.
Proof. unfold len, spaces. rewrite length_replicate. lia. Qed.
Lemma len_zeros n : len (zeros n) = Z.max 0 n.
Proof. unfold len, zeros. rewrite length_replicate. lia. Qed.
Lemma len_justify left w body : len (justify left w body) = Z.max w (len body).
Proof. destruct left; unfold justify; rewrite len_app, len_spaces; unfold len; lia. Qed.
Ltac text_lia := rewrite ?len_justify, ?len_app, ?len_zeros, ?len_one; change (len []) with 0 in *; unfold len in *; simpl length in *; repeat case_match; lia.

(** What a call writes: when the place of the sign is past the end, the text differs from
    [number_text], but nothing of it is written. *)
Lemma print_number_emitted num base s flags out st : emitted out st -> -2147483648 <= num < 2147483648 ->
  exists st', print_number succ end_ num base s flags st = Some st' /\
    emitted (out ++ number_text (if base =? 10 then 10 else 16) s flags num) st' /\
    st'.2 <= st.2 + len (number_text (if base =? 10 then 10 else 16) s flags num) + 1.
Proof.
  intros He Hnum. set (b := if base =? 10 then 10 else 16). set (large := has_flag flags LARGE).
  enough (exists st' t, print_number succ end_ num base s flags st = Some st' /\ emitted (out ++ t) st' /\ st.2 <= st'.2 <= st.2 + len (number_text b s flags num) + 1 /\
    (st.2 <= end_ -> t = number_text b s flags num)) as (st'&t&E&He'&Hle&Ht).
  { exists st'. split; [done|]. split; [|apply Hle]. destruct (Z.leb_spec st.2 end_); [by rewrite <-Ht|].
    assert ((N <= length out)%nat) by (destruct (proj2 He) as [E1|E1]; unfold len in *; lia).
    apply (emitted_over out t); [done|lia|done]. }
  destruct (number_type_flags flags) as (TL&TZ&TZL&TS). destruct (number_sign_spec flags num Hnum) as (sign&num'&Es&Est&Hs8&Hn'&Eu).
  unfold print_number. fold (number_type flags) large. rewrite TS, Es, tmp_spec by done. fold b. simpl.
  set (ds := numeral32 large b (u32 num')). rewrite length_rev, rev_involutive, TZL, TL, TZ.
  assert (Forall is_u8 ds) as Hds by (apply numeral32_u8; [unfold b; destruct (base =? 10); auto|apply u32_range]).
  assert (number_text b s flags num = let sg := if sign =? 0 then [] else [sign] in
    if negb (has_flag flags LEFT) && has_flag flags ZEROPAD then sg ++ zeros (s - len sg - len ds) ++ ds else justify (has_flag flags LEFT) s (sg ++ ds)) as ->.
  { unfold number_text. rewrite Est. unfold ds. rewrite Eu. done. }
  fold (len ds). destruct (has_flag flags LEFT); cbn [negb andb orb].
  - (* to the left: sign, digits, spaces *)
    rewrite orb_true_r. cbn [negb mbind option_bind]. destruct (Z.eqb_spec sign 0) as [->|Hsg]; cbn [negb].
    + destruct (put_all_emitted ds _ _ He Hds) as (st1&E1&He1&L1). cbn [mbind option_bind]. rewrite E1. cbn [mbind option_bind].
      destruct (pad_emitted (s - len ds) 32 _ _ He1) as (st2&->&He2&L2); [done|]. eexists _, _. split_and!; [done|rewrite <-app_assoc in He2; exact He2|text_lia|text_lia|done].
    + destruct (put_emitted _ _ _ He Hs8) as (st1&E1&He1&L1). rewrite E1. cbn [mbind option_bind].
      destruct (put_all_emitted ds _ _ He1 Hds) as (st2&E2&He2&L2). rewrite E2. cbn [mbind option_bind].
      set (n := if st.2 <=? end_ then s - len ds - 1 else s - len ds). assert (n <= s - len ds) as Hns by (unfold n; destruct (st.2 <=? end_); lia).
      destruct (pad_emitted n 32 _ _ He2) as (st3&->&He3&L3); [done|]. eexists _, _. rewrite <-!app_assoc in He3. split_and!; [done|exact He3|text_lia|text_lia|].
      intros Hst. unfold n. rewrite (proj2 (Z.leb_le _ _) Hst). unfold justify, spaces. rewrite <-!app_assoc. do 4 f_equal. unfold len. rewrite length_app. simpl. lia.
  - rewrite orb_false_r. destruct (has_flag flags ZEROPAD); cbn [negb mbind option_bind].
    + (* zeros between the sign and the digits *)
      destruct (Z.eqb_spec sign 0) as [->|Hsg]; cbn [negb mbind option_bind].
      * destruct (pad_emitted (s - len ds) 48 _ _ He) as (st1&->&He1&L1); [done|]. cbn [mbind option_bind].
        destruct (put_all_emitted ds _ _ He1 Hds) as (st2&->&He2&L2). cbn [mbind option_bind].
        destruct (pad_emitted (Z.min (s - len ds) 0 - 1) 32 _ _ He2) as (st3&->&He3&L3); [done|].
        rewrite (Z2Nat.nonpos (_ - 1)), app_nil_r in He3 by lia. eexists _, _. split_and!; [done|rewrite <-app_assoc in He3; exact He3|text_lia|text_lia|].
        intros _. unfold zeros. simpl. do 3 f_equal. unfold len. simpl. lia.
      * destruct (put_emitted _ _ _ He Hs8) as (st1&->&He1&L1). cbn [mbind option_bind].
        set (n := if st.2 <=? end_ then s - len ds - 1 else s - len ds). assert (n <= s - len ds) as Hns by (unfold n; destruct (st.2 <=? end_); lia).
        destruct (pad_emitted n 48 _ _ He1) as (st2&->&He2&L2); [done|]. cbn [mbind option_bind].
        destruct (put_all_emitted ds _ _ He2 Hds) as (st3&->&He3&L3). cbn [mbind option_bind].
        destruct (pad_emitted (Z.min n 0 - 1) 32 _ _ He3) as (st4&->&He4&L4); [done|].
        rewrite (Z2Nat.nonpos (_ - 1)), app_nil_r in He4 by lia. eexists _, _. rewrite <-!app_assoc in He4. split_and!; [done|exact He4|text_lia|text_lia|].
        intros Hst. unfold n, zeros. rewrite (proj2 (Z.leb_le _ _) Hst). simpl. do 4 f_equal. unfold len. simpl. lia.
    + (* to the right: spaces, sign, digits *)
      set (n := if negb (sign =? 0) && (0 <? s - len ds) then s - len ds - 1 else s - len ds).
      destruct (pad_emitted n 32 _ _ He) as (st1&->&He1&L1); [done|]. cbn [mbind option_bind].
      set (sg := if sign =? 0 then [] else [sign]).
      assert (Z.max 0 n + len sg + len ds = Z.max s (len sg + len ds)) as Hfield.
      { unfold n, sg. destruct (sign =? 0); cbn [negb andb]; [|destruct (Z.ltb_spec 0 (s - len ds))]; rewrite ?len_one; change (len []) with 0; unfold len in *; lia. }
      match goal with |- exists st' t, mbind ?K _ = Some st' /\ _ => assert (forall st2 v, v < 0 -> emitted ((out ++ spaces n) ++ sg) st2 -> st2.2 = st1.2 + len sg ->
        exists st' t, K (st2, v) = Some st' /\ emitted (out ++ t) st' /\ st.2 <= st'.2 <= st.2 + len (justify false s (sg ++ ds)) + 1 /\ (st.2 <= end_ -> t = justify false s (sg ++ ds))) as Htail end.
      { intros st2 v Hv He2 L2. destruct (pad_emitted v 32 _ _ He2) as (st3&->&He3&L3); [done|]. cbn [mbind option_bind].
        destruct (put_all_emitted ds _ _ He3 Hds) as (st4&->&He4&L4). cbn [mbind option_bind].
        destruct (pad_emitted (Z.min v 0 - 1) 32 _ _ He4) as (st5&->&He5&L5); [done|].
        rewrite (Z2Nat.nonpos (_ - 1)), (Z2Nat.nonpos v) in He5 by lia. simpl in He5. rewrite !app_nil_r, <-!app_assoc in He5.
        eexists _, _. split_and!; [done|exact He5|text_lia|text_lia|]. intros _. unfold justify, spaces. do 2 f_equal. unfold n, sg, len. rewrite length_app.
        destruct (Z.eqb_spec sign 0); simpl; [done|]. destruct (Z.ltb_spec 0 (s - Z.of_nat (length ds))); lia. }
      unfold sg in *. destruct (Z.eqb_spec sign 0) as [->|Hsg]; cbn [negb].
      * cbn [mbind option_bind]. apply Htail; [lia|by rewrite app_nil_r|change (len []) with 0; lia].
      * destruct (put_emitted _ _ _ He1 Hs8) as (st2&->&He2&L2). cbn [mbind option_bind]. apply Htail; [destruct (st1.2 <=? _); lia|done|rewrite len_one; lia].
Qed.

(** ** Reading the format *)

(** [n] bytes at [a] lie outside the buffer. *)
Definition apart (a : Z) (n : nat) : Prop := a + Z.of_nat n <= buf \/ buf + Z.of_nat N <= a.

Lemma cstr_emitted out st a w : emitted out st -> cstr m0 a w -> apart a (S (length w)) -> cstr st.1 a w.
Proof.
  intros He (Hn&Hi&H0) Ha. unfold apart in Ha. split; [done|]. split.
  - intros i c Hc. rewrite (emitted_outside _ _ _ He); [by apply Hi|]. apply lookup_lt_Some in Hc. lia.
  - rewrite (emitted_outside _ _ _ He); [done|lia].
Qed.

Lemma cstr_app m a u w : cstr m a (u ++ w) -> cstr m (a + len u) w.
Proof.
  revert a. induction u as [|c u IH]; intros a H; unfold len in *; simpl in *; [by rewrite Z.add_0_r|].
  apply cstr_cons in H as (_&_&H). apply IH in H. match goal with |- cstr _ ?x _ => replace x with (a + 1 + Z.of_nat (length u)) by lia end. exact H.
Qed.

(** The next character of a string, 0 at its end. *)
Definition next_char (w : list Z) : Z := match w with [] => 0 | c :: _ => c end.
Lemma cstr_next m a w : cstr m a w -> m !! a = Some (next_char w).
Proof. intros H. destruct w; simpl; [by apply cstr_nil|by apply cstr_cons in H as (_&?&_)]. Qed.

Lemma read_flags_spec m flags : forall fuel a w f, cstr m a (flags ++ w) -> Forall (fun c => is_Some (flag_of c)) flags ->
  flag_of (next_char w) = None -> (length flags <= fuel)%nat ->
  read_flags fuel m a f = Some (a + len flags, foldl (fun f c => Z.lor f (default 0 (flag_of c))) f flags).
Proof.
  induction flags as [|c flags IH]; intros fuel a w f Hw Hfl Hn Hf; unfold len; simpl.
  - rewrite Z.add_0_r. destruct fuel; simpl; rewrite (cstr_next _ _ _ Hw); simpl; by rewrite Hn.
  - apply Forall_cons in Hfl as [[v Hv] Hfl]. apply cstr_cons in Hw as (_&E&Hw). destruct fuel as [|fuel]; [simpl in Hf; lia|].
    simpl. rewrite E. simpl. rewrite Hv. simpl. rewrite (IH fuel (a + 1) w _ Hw Hfl Hn) by (simpl in Hf; lia). unfold len. do 2 f_equal. lia.
Qed.

Lemma dec_value_mono ds : forall i, 0 <= i -> Forall (fun c => isdigit c = true) ds -> i <= dec_value i ds.
Proof.
  induction ds as [|c ds IH]; intros i Hi Hd; [unfold dec_value; simpl; lia|]. apply Forall_cons in Hd as [Hc Hd]. unfold isdigit in Hc.
  unfold dec_value in *. simpl. specialize (IH (i * 10 + (c - 48)) ltac:(lia) Hd). lia.
Qed.

Lemma skip_atoi_spec m ds : forall fuel a w i, cstr m a (ds ++ w) -> Forall (fun c => isdigit c = true) ds -> isdigit (next_char w) = false ->
  (length ds <= fuel)%nat -> 0 <= i -> dec_value i ds < 2147483648 -> skip_atoi fuel m a i = Some (a + len ds, dec_value i ds).
Proof.
  induction ds as [|c ds IH]; intros fuel a w i Hw Hd Hn Hf Hi Hv; unfold len; simpl.
  - rewrite Z.add_0_r. destruct fuel; simpl; rewrite (cstr_next _ _ _ Hw); simpl; by rewrite Hn.
  - apply Forall_cons in Hd as [Hc Hd]. apply cstr_cons in Hw as (_&E&Hw). destruct fuel as [|fuel]; [simpl in Hf; lia|].
    simpl. rewrite E. simpl. rewrite Hc. assert (0 <= i * 10 + (c - 48)) as H0 by (unfold isdigit in Hc; lia).
    pose proof (dec_value_mono ds _ H0 Hd) as Hm. unfold dec_value in Hv, Hm. simpl in Hv. rewrite s32_small by lia.
    replace (i * 10 + c - 48) with (i * 10 + (c - 48)) by lia. rewrite (IH fuel (a + 1) w) by (done || simpl in *; lia). unfold len. do 2 f_equal. lia.
Qed.

(** What follows the width of a directive. *)
Definition after_width (w : list Z) : Prop := flag_of (next_char w) = None /\ isdigit (next_char w) = false /\ next_char w <> 42.

Lemma letter_after q k w : (q = 0 \/ q = 104 \/ q = 108) -> after_width ((if q =? 0 then [] else [q]) ++ letter k :: w).
Proof. intros [-> | [-> | ->]]; destruct k; done. Qed.

Lemma width_not_flag w tl : (forall v, w = Width v -> 0 < v < 2147483648) -> after_width tl -> flag_of (next_char (width_chars w ++ tl)) = None.
Proof.
  intros Hv [Ht _]. destruct w as [|v|]; simpl; [done| |done]. destruct (numeral_head 9 v) as (c&l&E&Hc).
  - specialize (Hv v eq_refl). change (Z.of_nat 10) with 10. lia.
  - unfold numeral32. rewrite E. simpl. unfold flag_of. repeat (rewrite (proj2 (Z.eqb_neq c _)) by lia). done.
Qed.

(** Reading a width: the value, the flags and the arguments that are left. *)
Definition width_value (w : field_width) (flags : Z) (args : list arg) : option (Z * Z * list arg) :=
  match w with
  | NoWidth => Some (-1, flags, args)
  | Width w => Some (w, flags, args)
  | ArgWidth => '(a, args) ← next args; let w := s32 (arg_word a) in Some (if w <? 0 then (s32 (- w), Z.lor flags LEFT, args) else (w, flags, args))
  end.

Lemma read_width_spec m fuel a w tl flags args v f args' : cstr m a (width_chars w ++ tl) -> after_width tl -> (forall v, w = Width v -> 0 < v < 2147483648) ->
  (length (width_chars w) <= fuel)%nat -> width_value w flags args = Some (v, f, args') ->
  read_width fuel m a flags (arg_word <$> args) = Some (a + len (width_chars w), v, f, arg_word <$> args').
Proof.
  intros Hw (_&Hd&Hs) Hv Hf Hval. unfold read_width. rewrite (cstr_next _ _ _ Hw). cbn [mbind option_bind]. destruct w as [|n|]; simpl in Hval, Hw |- *.
  - injection Hval as <- <- <-. rewrite Hd, (proj2 (Z.eqb_neq _ _) Hs). unfold len. simpl. by rewrite Z.add_0_r.
  - injection Hval as <- <- <-. specialize (Hv n eq_refl). destruct (numeral_digits 9 n) as [Hds Hval]; [change (Z.of_nat 10) with 10; lia|].
    destruct (numeral_head 9 n) as (c&l&E&Hc); [change (Z.of_nat 10) with 10; lia|]. unfold numeral32 in *.
    rewrite E at 1. cbn [app next_char]. replace (isdigit c) with true by (unfold isdigit; lia).
    rewrite (skip_atoi_spec m (numeral 9 false 10 n) fuel a tl 0) by (done || lia). cbn [mbind option_bind]. by rewrite Hval.
  - destruct args as [|x args]; [done|]. simpl in Hval |- *. destruct (s32 (arg_word x) <? 0); injection Hval as <- <- <-; done.
Qed.

Lemma read_qualifier_spec m a q k tl : cstr m a ((if q =? 0 then [] else [q]) ++ letter k :: tl) -> (q = 0 \/ q = 104 \/ q = 108) ->
  read_qualifier m a = Some (a + len (if q =? 0 then [] else [q]), q).
Proof.
  intros Hw Hq. unfold read_qualifier. rewrite (cstr_next _ _ _ Hw). destruct Hq as [-> | [-> | ->]]; simpl; [|done..].
  unfold len. simpl. rewrite Z.add_0_r. by destruct k.
Qed.

(** ** Conversions *)

Definition arg_ok (a : arg) : Prop := match a with AWord _ => True | AText p w => p <> 0 /\ cstr m0 p w /\ apart p (S (length w)) end.

Lemma number_arg_range q flags a : -2147483648 <= number_arg q flags a < 2147483648.
Proof.
  unfold number_arg. assert (forall x, -2147483648 <= s32 x < 2147483648) as H by (intros x; unfold s32; destruct (Z.ltb_spec (x mod 4294967296) 2147483648); dlia).
  destruct (q =? 104); apply H.
Qed.

Lemma justify_emitted (left : bool) w body out (st : out_state) (f : out_state -> option out_state) {A} (g : out_state -> option A) : emitted out st ->
  (forall o s, emitted o s -> exists s', f s = Some s' /\ emitted (o ++ body) s' /\ s'.2 = s.2 + len body) ->
  exists st', ((if left then Some st else pad succ end_ (w - len body) 32 st) ≫= fun st0 => f st0 ≫= fun st1 =>
      (if left then pad succ end_ (w - len body) 32 st1 else Some st1) ≫= g) = g st' /\ emitted (out ++ justify left w body) st' /\
      st'.2 = st.2 + len (justify left w body).
Proof.
  intros He Hf. rewrite len_justify. unfold justify. destruct left; cbn [mbind option_bind].
  - destruct (Hf _ _ He) as (st1&->&He1&L1). cbn [mbind option_bind]. destruct (pad_emitted (w - len body) 32 _ _ He1) as (st2&->&He2&L2); [done|].
    exists st2. rewrite <-app_assoc in He2. split_and!; [done|done|unfold len in *; lia].
  - destruct (pad_emitted (w - len body) 32 _ _ He) as (st1&->&He1&L1); [done|]. cbn [mbind option_bind].
    destruct (Hf _ _ He1) as (st2&->&He2&L2). exists st2. rewrite <-app_assoc in He2. split_and!; [done|done|unfold len in *; lia].
Qed.

Lemma convert_emitted k flags width q args t args' out st fmt : emitted out st -> st.1 !! fmt = Some (letter k) ->
  Forall arg_ok args -> convert_text k flags width q args = Some (t, args') ->
  exists st', convert succ end_ fmt flags width q (arg_word <$> args) st = Some (fmt + 1, arg_word <$> args', st') /\ emitted (out ++ t) st' /\ Forall arg_ok args' /\ st'.2 <= st.2 + len t + 1.
Proof.
  intros He Hc Hargs Ht. unfold convert. rewrite Hc. cbn [mbind option_bind]. unfold convert_text in Ht.
  assert (forall b flags num a args0, b = 10 \/ b = 16 -> -2147483648 <= num < 2147483648 -> Forall arg_ok args0 ->
    exists st', (st0 ← print_number succ end_ num b a flags st; Some (fmt + 1, arg_word <$> args0, st0)) = Some (fmt + 1, arg_word <$> args0, st') /\
      emitted (out ++ number_text b a flags num) st' /\ Forall arg_ok args0 /\ st'.2 <= st.2 + len (number_text b a flags num) + 1) as Hnum.
  { intros b fl num a args0 Hb Hn Ha. destruct (print_number_emitted num b a fl out st He Hn) as (st'&->&He'). exists st'.
    replace (if b =? 10 then 10 else 16) with b in He' by (by destruct Hb as [-> | ->]). split_and!; [done|apply He'|done|apply He']. }
  assert (forall a, -2147483648 <= s32 a < 2147483648) as Hs32 by (intros a; unfold s32; destruct (Z.ltb_spec (a mod 4294967296) 2147483648); dlia).
  destruct k; cbn [letter] in *; lazymatch type of Ht with
    | next ?l ≫= _ = _ => destruct l as [|x rest]; [discriminate Ht|apply Forall_cons in Hargs as [Hx Hargs]; cbn [next mbind option_bind] in Ht]
    | _ => idtac end;
    repeat match goal with |- context [if ?a =? ?b then _ else _] => let e := eval vm_compute in (a =? b) in lazymatch e with true => idtac | false => idtac end; change (a =? b) with e; cbv iota end;
    cbn [fmap list_fmap va_arg mbind option_bind] in Ht |- *.
  - injection Ht as <- <-. destruct (justify_emitted (has_flag flags LEFT) width [u8 (arg_word x)] out st (put succ end_ (u8 (arg_word x)))
      (fun st0 => Some (fmt + 1, arg_word <$> rest, st0)) He) as (st'&E&He'&L).
    { intros o s Ho. destruct (put_emitted _ _ _ Ho (u8_range (arg_word x))) as (s'&->&Hs'). eauto. }
    exists st'. split_and!; [exact E|done..|lia].
  - assert (exists w, Some (justify (has_flag flags LEFT) width w, rest) = Some (t, args') /\
      (if arg_word x =? 0 then Some 6%nat else rt_strlen st.1 (arg_word x)) = Some (length w) /\
      forall o s, emitted o s -> exists s', (if arg_word x =? 0 then put_all succ end_ null_text s else put_string succ end_ (length w) (arg_word x) s) = Some s' /\ emitted (o ++ w) s' /\ s'.2 = s.2 + len w) as (w&Ew&->&Hw).
    { destruct x as [p|p w]; cbn [arg_word] in *.
      - destruct (p =? 0); [|done]. cbn [mbind option_bind] in Ht. exists null_text. split_and!; [done|done|]. intros o s Ho.
        destruct (put_all_emitted null_text _ _ Ho) as (s'&->&Hs'); [unfold null_text, is_u8; repeat constructor; lia|]. eauto.
      - destruct Hx as (Hp&Hw&Ha). rewrite (proj2 (Z.eqb_neq _ _) Hp). cbn [mbind option_bind] in Ht. exists w. split_and!; [done| |].
        + apply rt_strlen_spec. by apply (cstr_emitted out).
        + intros o s Ho. apply put_string_emitted; [done|done|unfold apart, len in *; lia]. }
    injection Ew as <- <-. cbn [mbind option_bind].
    destruct (justify_emitted (has_flag flags LEFT) width w out st (fun s => if arg_word x =? 0 then put_all succ end_ null_text s else put_string succ end_ (length w) (arg_word x) s)
      (fun st0 => Some (fmt + 1, arg_word <$> rest, st0)) He Hw) as (st'&E&He'&L).
    exists st'. split_and!; [exact E|done..|lia].
  - injection Ht as <- <-. destruct (width =? -1); apply Hnum; auto.
  - injection Ht as <- <-. destruct (put_emitted _ _ 37 He) as (st'&->&He'&L); [done|]. exists st'. split_and!; [done..|rewrite len_one; lia].
  - injection Ht as <- <-. apply Hnum; auto using number_arg_range.
  - injection Ht as <- <-. apply Hnum; auto using number_arg_range.
  - injection Ht as <- <-. apply Hnum; auto using number_arg_range.
  - injection Ht as <- <-. apply Hnum; auto using number_arg_range.
Qed.

(** ** The whole format *)

Lemma item_text_directive flags w q k args r : item_text (Directive flags w q k) args = Some r ->
  exists v f args1, width_value w (flags_value flags) args = Some (v, f, args1) /\ convert_text k f v q args1 = Some r.
Proof.
  destruct w; simpl; [eauto 6..|]. destruct args as [|x args]; [done|]. simpl. destruct (s32 (arg_word x) <? 0); eauto 6.
Qed.

Lemma width_args w flags args v f args1 : width_value w flags args = Some (v, f, args1) -> Forall arg_ok args -> Forall arg_ok args1.
Proof.
  destruct w; simpl; [by intros [= <- <- <-]..|]. destruct args as [|x args]; [done|]. simpl. intros H [_ Ha]%Forall_cons. by destruct (_ <? 0); injection H as <- <- <-.
Qed.

(** One directive, up to the place where the format goes on. *)
Lemma directive_emitted fuel a flags w q k tl args t args' out st : item_ok (Directive flags w q k) -> emitted out st ->
  cstr st.1 a (item_chars (Directive flags w q k) ++ tl) -> (length (item_chars (Directive flags w q k)) <= S fuel)%nat ->
  Forall arg_ok args -> item_text (Directive flags w q k) args = Some (t, args') ->
  exists st', format_loop succ (S fuel) end_ a (arg_word <$> args) st =
      format_loop succ fuel end_ (a + len (item_chars (Directive flags w q k))) (arg_word <$> args') st' /\ emitted (out ++ t) st' /\ Forall arg_ok args' /\
      st'.2 <= st.2 + len t + 1.
Proof.
  intros (Hfl&Hwv&Hq) He Hc Hfuel Hargs Ht. destruct (item_text_directive _ _ _ _ _ _ Ht) as (v&f&args1&Hw&Hk).
  cbn [item_chars app] in Hc. destruct (cstr_cons _ _ _ _ Hc) as (_&E37&Hc1). cbn [format_loop]. rewrite E37. cbn [mbind option_bind]. cbv iota.
  change (37 =? 0) with false. change (negb (37 =? 37)) with false. cbv iota.
  set (qc := if q =? 0 then [] else [q]) in *. rewrite <-!app_assoc in Hc1. cbn [app] in Hc1.
  pose proof (letter_after q k tl Hq) as Haft. fold qc in Haft.
  assert (length flags <= fuel /\ length (width_chars w) <= fuel)%nat as [Hf1 Hf2]
    by (unfold item_chars in Hfuel; cbn [length] in Hfuel; rewrite !length_app in Hfuel; lia).
  rewrite (read_flags_spec _ flags fuel (a + 1) _ 0 Hc1 Hfl (width_not_flag _ _ Hwv Haft) Hf1). fold (flags_value flags). cbn [mbind option_bind].
  apply cstr_app in Hc1. rewrite (read_width_spec _ fuel _ w _ (flags_value flags) args v f args1 Hc1 Haft Hwv Hf2 Hw). cbn [mbind option_bind].
  apply cstr_app in Hc1. rewrite (read_qualifier_spec _ _ q k tl Hc1 Hq). fold qc. cbn [mbind option_bind].
  apply cstr_app in Hc1. apply cstr_cons in Hc1 as (_&El&_).
  destruct (convert_emitted k f v q args1 t args' out st _ He El (width_args _ _ _ _ _ _ Hw Hargs) Hk) as (st'&->&He'&Ha'&L). cbn [mbind option_bind].
  exists st'. split_and!; [|done|done|done]. f_equal. unfold item_chars. fold qc. unfold len. cbn [length]. rewrite !length_app. simpl. lia.
Qed.

Lemma format_chars_cons it items : format_chars (it :: items) = item_chars it ++ format_chars items.
Proof. done. Qed.

Lemma apart_tail a u w : apart a (S (length (u ++ w))) -> apart (a + len u) (S (length w)).
Proof. unfold apart, len. rewrite length_app. lia. Qed.

Lemma format_loop_emitted items : forall fuel a args out st t, Forall item_ok items -> emitted out st ->
  cstr m0 a (format_chars items) -> apart a (S (length (format_chars items))) -> (length (format_chars items) <= fuel)%nat ->
  Forall arg_ok args -> format_text items args = Some t ->
  exists st', format_loop succ fuel end_ a (arg_word <$> args) st = Some st' /\ emitted (out ++ t) st' /\ st'.2 <= st.2 + len t + Z.of_nat (length items).
Proof.
  induction items as [|it items IH]; intros fuel a args out st t Hok He Hc Ha Hf Hargs Ht.
  - injection Ht as <-. pose proof (cstr_nil _ _ (cstr_emitted _ _ _ _ He Hc Ha)) as E. rewrite app_nil_r. exists st. split; [|split; [done|unfold len; simpl; lia]].
    destruct fuel; cbn [format_loop]; by rewrite E.
  - apply Forall_cons in Hok as [Hit Hok]. cbn [format_text] in Ht. destruct (item_text it args) as [[t1 args1]|] eqn:E1; [|done]. cbn [mbind option_bind] in Ht.
    destruct (format_text items args1) as [t2|] eqn:E2; [|done]. injection Ht as <-. rewrite format_chars_cons in *.
    pose proof (cstr_emitted _ _ _ _ He Hc Ha) as Hcs. pose proof (apart_tail _ _ _ Ha) as Ha'. rewrite length_app in Hf.
    assert (exists fuel', fuel = S fuel') as [fuel' ->] by (destruct fuel; [destruct it; simpl in Hf; lia|eauto]).
    assert (exists st1, format_loop succ (S fuel') end_ a (arg_word <$> args) st = format_loop succ fuel' end_ (a + len (item_chars it)) (arg_word <$> args1) st1 /\
      emitted (out ++ t1) st1 /\ Forall arg_ok args1 /\ st1.2 <= st.2 + len t1 + 1) as (st1&->&He1&Hargs1&L1).
    { destruct it as [c|flags w q k]; [|apply (directive_emitted _ _ _ _ _ _ (format_chars items)); (done || lia)].
      destruct Hit as (Hc8&_&Hc37). injection E1 as <- <-. cbn [item_chars app] in Hcs. apply cstr_cons in Hcs as (Hc0&Ec&_).
      cbn [format_loop]. rewrite Ec. cbn [mbind option_bind]. rewrite (proj2 (Z.eqb_neq _ _) Hc0), (proj2 (Z.eqb_neq _ _) Hc37). cbn [negb].
      destruct (put_emitted _ _ c He Hc8) as (st1&->&He1&L). exists st1. split_and!; [done..|rewrite len_one; lia]. }
    destruct (IH fuel' (a + len (item_chars it)) args1 (out ++ t1) st1 t2) as (st2&->&He2&L2); try done; [by apply cstr_app| |].
    { assert (0 < length (item_chars it))%nat by (destruct it; simpl; lia). lia. }
    exists st2. rewrite app_assoc, len_app. split_and!; [done|done|simpl; lia].
Qed.
End Emit.

(** ** Addresses that do not wrap *)

(** Two runs from place [v]: the first with unbounded addresses, the second with those of
    the machine. As long as the first stays below 2^32 they are the same. *)
Section Agree.
Notation succ := (fun str : Z => str + 1).

Definition agrees {A} (place : A -> Z) (v : Z) (x y : option A) : Prop :=
  0 <= v -> forall r, x = Some r -> v <= place r /\ (place r < 4294967296 -> y = Some r).

Lemma agrees_same {A} (place : A -> Z) v x : (forall r, x = Some r -> v <= place r) -> agrees place v x x.
Proof. intros H _ r E. split; [by apply H|done]. Qed.

Lemma agrees_bind {A B} (place : A -> Z) (place' : B -> Z) v x y (f g : A -> option B) : agrees place v x y ->
  (forall r, agrees place' (place r) (f r) (g r)) -> agrees place' v (x ≫= f) (y ≫= g).
Proof.
  intros H Hfg Hv r' E. destruct x as [r|]; [|done]. simpl in E. destruct (H Hv r eq_refl) as [Hle Hy].
  destruct (Hfg r ltac:(lia) r' E) as [Hle' Hg]. split; [lia|]. intros Hr. rewrite Hy by lia. exact (Hg Hr).
Qed.

(** A step that does not write. *)
Lemma agrees_read {A B} (place : B -> Z) v (x : option A) (f g : A -> option B) : (forall r, agrees place v (f r) (g r)) -> agrees place v (x ≫= f) (x ≫= g).
Proof. intros H. destruct x as [r|]; [apply H|by intros _ r]. Qed.

Lemma agrees_stay {A} (place : A -> Z) r : agrees place (place r) (Some r) (Some r).
Proof. apply agrees_same. by intros ? [= <-]. Qed.

Lemma put_agrees end_ c st : agrees snd st.2 (put succ end_ c st) (put str_inc end_ c st).
Proof.
  destruct st as [m str]. intros Hv r. simpl in Hv. unfold put, str_inc. destruct (str <=? end_); [destruct (store m str c) as [m1|]; [|done]|];
    simpl; intros [= <-]; (split; [simpl; lia|]); intros H; simpl in H; (rewrite u32_small by (unfold is_u32; lia)); done.
Qed.

Lemma put_all_agrees end_ cs : forall st, agrees snd st.2 (put_all succ end_ cs st) (put_all str_inc end_ cs st).
Proof.
  induction cs as [|c cs IH]; intros st; simpl; [apply agrees_stay|]. eapply agrees_bind; [apply put_agrees|exact IH].
Qed.

Lemma pad_agrees end_ n c st : agrees snd st.2 (pad succ end_ n c st) (pad str_inc end_ n c st).
Proof. apply put_all_agrees. Qed.

Lemma put_string_agrees end_ n : forall s st, agrees snd st.2 (put_string succ end_ n s st) (put_string str_inc end_ n s st).
Proof.
  induction n as [|n IH]; intros s [m str]; cbn [put_string]; [apply agrees_stay|].
  apply (agrees_bind snd); [|apply IH]. intros Hv r. simpl in Hv |- *. unfold str_inc.
  destruct (str <=? end_); [destruct (m !! s) as [c|]; [|done]; simpl; destruct (store m str c) as [m1|]; [|done]|];
    simpl; intros [= <-]; (split; [simpl; lia|]); intros H; simpl in H; (rewrite u32_small by (unfold is_u32; lia)); done.
Qed.

(** A state with the width that is left. *)
Notation at_ := (fun r : out_state * Z => r.1.2).

Lemma with_size_agrees (f g : out_state -> option out_state) st (n : Z) : agrees snd st.2 (f st) (g st) ->
  agrees at_ st.2 (st1 ← f st; Some (st1, n)) (st1 ← g st; Some (st1, n)).
Proof. intros H. eapply agrees_bind; [exact H|]. intros r. apply (agrees_stay at_ (r, n)). Qed.

Lemma print_number_agrees num base s type end_ st : agrees snd st.2 (print_number succ end_ num base s type st) (print_number str_inc end_ num base s type st).
Proof.
  unfold print_number. destruct (number_sign _ num) as [sign num']. apply agrees_read. intros tmp.
  eapply (agrees_bind at_); [|intros [st1 n1]; eapply (agrees_bind at_); [|intros [st2 n2]; eapply (agrees_bind at_); [|intros [st3 n3]]]].
  - destruct (negb _); [apply (with_size_agrees (pad _ _ _ _) (pad _ _ _ _)), pad_agrees|apply (agrees_stay at_ (_, _))].
  - cbn [fst]. destruct (negb (sign =? 0)); [apply (with_size_agrees (put _ _ _) (put _ _ _)), put_agrees|apply (agrees_stay at_ (_, _))].
  - cbn [fst]. destruct (negb _); [apply (with_size_agrees (pad _ _ _ _) (pad _ _ _ _)), pad_agrees|apply (agrees_stay at_ (_, _))].
  - cbn [fst]. eapply agrees_bind; [apply put_all_agrees|]. intros st4. apply pad_agrees.
Qed.

Notation to := (fun r : Z * list Z * out_state => r.2.2).

Lemma done_agrees (fmt : Z) (args : list Z) (x y : option out_state) v : agrees snd v x y ->
  agrees to v (st ← x; Some (fmt, args, st)) (st ← y; Some (fmt, args, st)).
Proof. intros H. eapply agrees_bind; [exact H|]. intros r. apply (agrees_stay to (fmt, args, r)). Qed.

Lemma pad_if_agrees (b : bool) end_ n st : agrees snd st.2 (if b then pad succ end_ n 32 st else Some st) (if b then pad str_inc end_ n 32 st else Some st).
Proof. destruct b; [apply pad_agrees|apply agrees_stay]. Qed.
Lemma pad_unless_agrees (b : bool) end_ n st : agrees snd st.2 (if b then Some st else pad succ end_ n 32 st) (if b then Some st else pad str_inc end_ n 32 st).
Proof. destruct b; [apply agrees_stay|apply pad_agrees]. Qed.

Lemma convert_agrees end_ fmt flags width q args st :
  agrees to st.2 (convert succ end_ fmt flags width q args st) (convert str_inc end_ fmt flags width q args st).
Proof.
  unfold convert. apply agrees_read. intros c.
  assert (forall base fl wd num, agrees to st.2 ('(a, args) ← va_arg args; st ← print_number succ end_ (num a) base wd fl st; Some (fmt + 1, args, st))
    ('(a, args) ← va_arg args; st ← print_number str_inc end_ (num a) base wd fl st; Some (fmt + 1, args, st))) as Hnum.
  { intros base fl wd num. apply agrees_read. intros [a rest]. apply done_agrees, print_number_agrees. }
  destruct (c =? 99).
  { eapply agrees_bind; [apply pad_unless_agrees|]. intros st1. apply agrees_read. intros [a rest].
    eapply agrees_bind; [apply put_agrees|]. intros st2. apply done_agrees, pad_if_agrees. }
  destruct (c =? 115).
  { apply agrees_read. intros [s rest]. apply agrees_read. intros len. eapply agrees_bind; [apply pad_unless_agrees|]. intros st1.
    eapply (agrees_bind snd); [destruct (s =? 0); [apply put_all_agrees|apply put_string_agrees]|]. intros st2. apply done_agrees, pad_if_agrees. }
  destruct (c =? 112); [destruct (width =? -1); apply (Hnum _ _ _ s32)|].
  destruct (c =? 37); [apply done_agrees, put_agrees|].
  do 5 (match goal with |- agrees _ _ (if ?b then _ else _) _ => destruct b; [apply (Hnum _ _ _ (number_arg q _))|] end).
  eapply agrees_bind; [apply put_agrees|]. intros st1. destruct (c =? 0); [apply (agrees_stay to (_, _, _))|apply done_agrees, put_agrees].
Qed.

Lemma format_loop_agrees end_ : forall fuel fmt args st,
  agrees snd st.2 (format_loop succ fuel end_ fmt args st) (format_loop str_inc fuel end_ fmt args st).
Proof.
  induction fuel as [|fuel IH]; intros fmt args st; cbn [format_loop]; apply agrees_read; intros c.
  { destruct (c =? 0); [apply agrees_stay|by intros _ r]. }
  destruct (c =? 0); [apply agrees_stay|]. destruct (negb (c =? 37)).
  { eapply agrees_bind; [apply put_agrees|]. intros st1. apply IH. }
  apply agrees_read. intros [fmt1 flags]. apply agrees_read. intros [[[fmt2 width] flags2] args2]. apply agrees_read. intros [fmt3 q].
  eapply (agrees_bind to); [apply convert_agrees|]. intros [[fmt4 args4] st4]. apply IH.
Qed.
End Agree.

(** ** The buffer after a call *)

Lemma rt_vsnprintf_spec m buf n fmt items args text : bytes_ok m -> mapped m buf n -> (0 < n)%nat -> 0 <= buf -> buf + Z.of_nat n <= 4294967296 ->
  Forall item_ok items -> cstr m fmt (format_chars items) -> apart buf n fmt (S (length (format_chars items))) ->
  Forall (arg_ok m buf n) args -> format_text items args = Some text ->
  buf + len text + Z.of_nat (length items) < 4294967296 -> len text + Z.of_nat (length items) < 2147483648 ->
  exists m' r, rt_vsnprintf m buf (Z.of_nat n) fmt (arg_word <$> args) = Some (m', r) /\
    let shown := take (n - 1) text ++ [0] in
    (forall x, m' !! x = if (buf <=? x) && (x <? buf + len shown) then shown !! Z.to_nat (x - buf) else m !! x) /\
    (if (length text <? n)%nat then r = len text else Z.of_nat n <= r <= len text + Z.of_nat (length items)).
Proof.
  intros Hm Hmap Hn Hb Hbn Hok Hc Ha Hargs Ht Hend Hlen. unfold rt_vsnprintf. rewrite u32_small by (unfold is_u32; lia). rewrite (proj2 (Z.ltb_ge _ _)) by lia.
  destruct (format_loop_emitted m buf n Hm Hmap Hn items (size m) fmt args [] (m, buf) text) as ([m1 str]&E&He&Hup); try done.
  { by apply emitted_nil. } { apply cstr_size in Hc. lia. }
  simpl in Hup. destruct (format_loop_agrees _ _ _ _ (m, buf) Hb _ E) as [Hlo Hrun]. simpl in Hlo. rewrite Hrun by (simpl; lia). clear E Hrun.
  cbn [mbind option_bind app] in He |- *. assert (mapped m1 buf n) as Hmap1 by (by eapply (emitted_mapped m buf n) in He). destruct He as [Hw Hs]. simpl in Hw, Hs, Hmap1.
  set (k := min (length text) (n - 1)). set (shown := take (n - 1) text ++ [0]).
  assert (length shown = S k) as Els by (unfold shown, k; rewrite length_app, length_take; simpl; lia).
  assert ((if str <=? buf + Z.of_nat n - 1 then store m1 str 0 else store m1 (buf + Z.of_nat n - 1) 0) = store m1 (buf + Z.of_nat k) 0) as ->.
  { unfold len in Hs. destruct (Z.leb_spec str (buf + Z.of_nat n - 1)); (f_equal; [unfold k; lia]) || (f_equal; unfold k; lia). }
  destruct (Hmap1 (buf + Z.of_nat k)) as [b Eb]; [unfold k; lia|]. rewrite (store_mapped _ _ _ _ Eb) by done. cbn [mbind option_bind].
  rewrite s32_small by lia. eexists _, _. split; [done|]. split; [|destruct (Nat.ltb_spec (length text) n); unfold len in *; lia].
  intros x. unfold len. rewrite Els. destruct (decide (x = buf + Z.of_nat k)) as [->|Hne].
  - rewrite lookup_insert_eq, (proj2 (Z.leb_le _ _)), (proj2 (Z.ltb_lt _ _)) by lia. unfold shown. rewrite lookup_app_r by (rewrite length_take; unfold k; lia).
    replace (Z.to_nat (buf + Z.of_nat k - buf) - length (take (n - 1) text))%nat with 0%nat by (rewrite length_take; unfold k; lia). done.
  - rewrite lookup_insert_ne by done. rewrite (Hw x).
    destruct (Z.leb_spec buf x), (Z.ltb_spec x (buf + Z.of_nat (min (length text) n))), (Z.ltb_spec x (buf + Z.of_nat (S k))); simpl; try done; try (unfold k in *; lia).
    unfold shown. rewrite lookup_app_l by (rewrite length_take; unfold k in *; lia). by rewrite lookup_take_lt by (unfold k in *; lia).
Qed.

(** ** The console *)

Definition RT_CONSOLEBUF_SIZE : Z := 128.
(** [n] bytes from an address on. *)
Fixpoint bytes_at (m : memory) (a : Z) (n : nat) : option (list Z) :=
  match n with O => Some [] | S n => c ← m !! a; l ← bytes_at m (a + 1) n; Some (c :: l) end.

(** What goes to [rt_device_write] of the console, with the stream flag set. *)
Definition rt_kputs (m : memory) (str : Z) : option (list Z) := if str =? 0 then Some [] else n ← rt_strlen m str; bytes_at m str n.
Definition rt_kprintf (m : memory) (rt_log_buf fmt : Z) (args : list Z) : option (memory * list Z) :=
  '(m, length) ← rt_vsnprintf m rt_log_buf (RT_CONSOLEBUF_SIZE - 1) fmt args;
  let length := u32 length in
  let length := if RT_CONSOLEBUF_SIZE - 1 <? length then RT_CONSOLEBUF_SIZE - 1 else length in
  out ← bytes_at m rt_log_buf (Z.to_nat length);
  Some (m, out).

Lemma bytes_at_spec l : forall (m : memory) a, (forall i c, l !! i = Some c -> m !! (a + Z.of_nat i) = Some c) -> bytes_at m a (length l) = Some l.
Proof.
  induction l as [|c l IH]; intros m a H; [done|]. simpl.
  assert (m !! a = Some c) as -> by (rewrite <-(H 0%nat c) by done; f_equal; lia). cbn [mbind option_bind].
  rewrite IH; [done|]. intros i d Hd. rewrite <-(H (S i) d Hd). f_equal. lia.
Qed.

(** ** Properties *)

(** C36: [rt_vsnprintf] prints what its format says, as much of it as fits, for formats of
    ordinary characters and the directives [%c %s %p %% %d %u %x %X] with flags, widths and
    the qualifiers [h] and [l]. [%i], [%o] and unknown directives are not covered ([%o] prints
    in base 16: [print_number_octal]), and [#] has no effect in this configuration. The
    arguments match, the buffer overlaps neither the format nor the strings, and the text
    with one more place for each item ends below 2^32 and is shorter than 2^31 (the
    address wraps, and the result is a signed word). The buffer then holds the first
    [size - 1] characters of the text and a 0, and no other byte is changed. For a text that
    fits its length is returned; for one that does not, at least [size] and at most one
    more than the length for each item ([rt_vsnprintf_length_wrong]). *)
Theorem rt_vsnprintf_formats m buf n fmt items args text : bytes_ok m -> mapped m buf n -> (0 < n)%nat -> 0 <= buf -> buf + Z.of_nat n <= 4294967296 ->
  Forall item_ok items -> cstr m fmt (format_chars items) -> apart buf n fmt (S (length (format_chars items))) ->
  Forall (arg_ok m buf n) args -> format_text items args = Some text ->
  buf + len text + Z.of_nat (length items) < 4294967296 -> len text + Z.of_nat (length items) < 2147483648 ->
  exists m' r, rt_vsnprintf m buf (Z.of_nat n) fmt (arg_word <$> args) = Some (m', r) /\
    let shown := take (n - 1) text ++ [0] in
    (forall x, m' !! x = if (buf <=? x) && (x <? buf + len shown) then shown !! Z.to_nat (x - buf) else m !! x) /\
    (if (length text <? n)%nat then r = len text else Z.of_nat n <= r <= len text + Z.of_nat (length items)).
Proof. apply rt_vsnprintf_spec. Qed.

(** What [rt_kprintf] writes to the console, for a text of at most 126 characters. *)
Theorem rt_kprintf_prints m buf fmt items args text : bytes_ok m -> mapped m buf 127 -> 0 <= buf -> buf + 127 <= 4294967296 ->
  Forall item_ok items -> cstr m fmt (format_chars items) -> apart buf 127 fmt (S (length (format_chars items))) ->
  Forall (arg_ok m buf 127) args -> format_text items args = Some text -> (length text < 127)%nat ->
  buf + len text + Z.of_nat (length items) < 4294967296 -> len text + Z.of_nat (length items) < 2147483648 ->
  exists m', rt_kprintf m buf fmt (arg_word <$> args) = Some (m', text).
Proof.
  intros Hm Hmap Hb Hbn Hok Hc Ha Hargs Ht Hlen He1 He2. unfold rt_kprintf. change (RT_CONSOLEBUF_SIZE - 1) with (Z.of_nat 127).
  destruct (rt_vsnprintf_spec m buf 127 fmt items args text Hm Hmap ltac:(lia) Hb ltac:(lia) Hok Hc Ha Hargs Ht He1 He2) as (m'&r&->&Hw&Hr).
  rewrite (proj2 (Nat.ltb_lt _ _) Hlen) in Hr. unfold len in Hr. cbn [mbind option_bind]. rewrite Hr, u32_small by (unfold is_u32; lia).
  rewrite (proj2 (Z.ltb_ge (Z.of_nat 127) _)) by lia. rewrite Nat2Z.id. exists m'. rewrite bytes_at_spec; [done|].
  intros i c Hi. pose proof (lookup_lt_Some _ _ _ Hi) as Hl. rewrite Hw, take_ge by lia. unfold len. rewrite length_app. simpl.
  rewrite (proj2 (Z.leb_le _ _)), (proj2 (Z.ltb_lt _ _)) by lia. cbn [andb]. rewrite lookup_app_l by lia. rewrite <-Hi. f_equal. lia.
Qed.

(** ** At concrete formats *)

(** [<%-6s|%+05d|%x>] with the string [abc], -42 and 48879, into 16 bytes at 1000: the
    text does not fit. *)
Definition demo_items : list item :=
  [Literal 60; Directive [45] (Width 6) 0 CString; Literal 124; Directive [43; 48] (Width 5) 0 CSigned; Literal 124; Directive [] NoWidth 0 CHex; Literal 62].
Definition demo_text : list Z := [60; 97; 98; 99; 32; 32; 32; 124; 45; 48; 48; 52; 50; 124; 98; 101; 101; 102; 62].
Definition demo_bytes : list Z := (replicate 16 9 ++ format_chars demo_items ++ [0]) ++ [97; 98; 99] ++ [0].
Definition demo_mem : memory := memory_of 1000 demo_bytes.
Definition demo_fmt : Z := 1016.
Definition demo_str : Z := 1000 + len (replicate 16 9 ++ format_chars demo_items ++ [0]).
Definition demo_args : list arg := [AText demo_str [97; 98; 99]; AWord 4294967254; AWord 48879].

Example demo_format : format_text demo_items demo_args = Some demo_text.
Proof. reflexivity. Qed.

Example rt_vsnprintf_formats_witness : exists m' r, rt_vsnprintf demo_mem 1000 (Z.of_nat 16) demo_fmt (arg_word <$> demo_args) = Some (m', r) /\
  let shown := take 15 demo_text ++ [0] in
  (forall x, m' !! x = if (1000 <=? x) && (x <? 1000 + len shown) then shown !! Z.to_nat (x - 1000) else demo_mem !! x) /\ Z.of_nat 16 <= r <= 26.
Proof.
  apply (rt_vsnprintf_formats demo_mem 1000 16 demo_fmt demo_items demo_args demo_text).
  - apply memory_of_ok. unfold demo_bytes, is_u8. vm_compute. repeat constructor; congruence.
  - apply memory_of_mapped; vm_compute; congruence.
  - lia.
  - lia.
  - lia.
  - unfold demo_items, item_ok, is_u8. repeat constructor; intros; try (eexists; reflexivity); try lia; try congruence. all: simplify_eq; lia.
  - unfold demo_mem, demo_bytes. rewrite <-!app_assoc. cbn [app].
    apply (memory_of_cstr 1000 (replicate 16 9) (format_chars demo_items) ([97; 98; 99; 0])). repeat constructor; vm_compute; congruence.
  - right. vm_compute. congruence.
  - unfold demo_args. apply Forall_cons. split; [|by repeat constructor]. cbn [arg_ok]. split; [done|]. split.
    + apply (memory_of_cstr 1000 (replicate 16 9 ++ format_chars demo_items ++ [0]) [97; 98; 99] []). repeat constructor; congruence.
    + right. vm_compute. congruence.
  - reflexivity.
  - reflexivity.
  - reflexivity.
Defined.

(** ** Limits *)

(** [%o] prints in base 16: [divide] knows the bases 10 and 16 only. *)
Theorem print_number_octal inc end_ num s flags st : print_number inc end_ num 8 s flags st = print_number inc end_ num 16 s flags st.
Proof.
  assert (forall places large n, tmp_digits places large n 8 = tmp_digits places large n 16) as E.
  { induction places as [|places IH]; intros large n; simpl; [done|]. destruct (n =? 0); [done|]. by rewrite IH. }
  unfold print_number. destruct (number_sign _ num) as [sign num']. by rewrite E.
Qed.
Example octal_of_8 : print_number str_inc 10 8 8 (-1) 0 (memory_of 10 [0], 10) = Some (memory_of 10 [56], 11).
Proof. reflexivity. Qed.

(** The length that is returned depends on the room: [%03d] of -1 takes three places, but
    is said to take four when its sign does not fit. *)
Definition demo_sign : memory := memory_of 0 ([9; 9; 9; 9] ++ [37; 48; 51; 100; 0]).
Example rt_vsnprintf_length_wrong :
  snd <$> rt_vsnprintf demo_sign 0 4 4 [4294967295] = Some 3 /\
  snd <$> rt_vsnprintf (memory_of 0 ([9] ++ [88; 37; 48; 51; 100; 0])) 0 1 1 [4294967295] = Some 5.
Proof. split; reflexivity. Qed.

(** Of a text longer than 126 characters the console gets the first 126 and a 0. *)
Definition demo_long : memory := memory_of 0 (replicate 128 9 ++ replicate 140 65 ++ [0]).
Example rt_kprintf_cut : snd <$> rt_kprintf demo_long 0 128 [] = Some (replicate 126 65 ++ [0]).
Proof. vm_compute. reflexivity. Qed.

(** A size of 0 sets no limit: the text is written anyway. *)
Example rt_vsnprintf_size_0 : (fun r => bytes_at r.1 1000 4) <$> rt_vsnprintf (memory_of 1000 ([9; 9; 9; 9] ++ [65; 66; 67; 0])) 1000 0 1004 [] = Some (Some [65; 66; 67; 0]).
Proof. vm_compute. reflexivity. Qed.

(** A text that reaches the last address goes on at address 0. *)
Definition demo_top : memory := memory_of 4294967294 [9; 9] ∪ memory_of 0 [7; 7] ∪ memory_of 100 [65; 66; 67; 0].
Example rt_vsnprintf_wraps : (fun r => (bytes_at r.1 4294967294 2, bytes_at r.1 0 2, r.2)) <$> rt_vsnprintf demo_top 4294967294 2 100 [] =
  Some (Some [65; 66], Some [67; 0], 3).
Proof. vm_compute. reflexivity. Qed.
