(* ===== verification/Ulog.v ===== *)
(** * The logger (rt-thread/components/utilities/ulog/ulog.c)

    A log line is formatted into a buffer under a lock, copied as a frame into a block of
    a ring block buffer, and written to the backends by another thread. The configuration
    has colors, ticks, levels and tags, logging from interrupts and asynchronous output;
    no filter and no syslog. Buffers and frames lie in memory; the texts that are only
    read (tags, the constants of the file) are lists of characters. *)

From S2P Require Import Prelude KString Printf Mem RingBlk Sched Timer Kernel Thread Ipc Sem Mutex.

Definition ULOG_LINE_BUF_SIZE : Z := 128.
Definition ULOG_NEWLINE_SIGN : list Z := [13; 10].
Definition CSI_START : list Z := [27; 91].
Definition CSI_END : list Z := [27; 91; 48; 109].
Definition LOG_LVL_ASSERT : Z := 0.
Definition LOG_LVL_ERROR : Z := 3.
Definition LOG_LVL_WARNING : Z := 4.
Definition LOG_LVL_INFO : Z := 6.
Definition LOG_LVL_DBG : Z := 7.

(** The tables; [None] inside is [NULL]. *)
Definition level_output_info : list (option (list Z)) :=
  [Some [65; 47]; None; None; Some [69; 47]; Some [87; 47]; None; Some [73; 47]; Some [68; 47]].
Definition color_output_info : list (option (list Z)) :=
  [Some [51; 53; 109]; None; None; Some [51; 49; 109]; Some [51; 51; 109]; None; Some [51; 50; 109]; None].
Definition level_entry {A} (table : list A) (level : Z) : option A := if level <? 0 then None else table !! Z.to_nat level.

(** ** Formatting *)

(** The characters of [src] up to its end, as long as [cur_len++ <= ULOG_LINE_BUF_SIZE]. *)
Fixpoint ulog_strcpy (cur_len : Z) (m : memory) (dst : Z) (src : list Z) : option (memory * Z) :=
  match src with
  | [] => Some (m, 0)
  | c :: src =>
      if cur_len <=? ULOG_LINE_BUF_SIZE then
        m ← store m dst c; '(m, n) ← ulog_strcpy (u32 (cur_len + 1)) m (dst + 1) src; Some (m, n + 1)
      else Some (m, 0)
  end.

(** [do s[len++] = n % 10 + '0'; while (n /= 10)]; a word has at most ten digits. *)
Fixpoint ultoa_digits (fuel : nat) (m : memory) (s n len : Z) : option (memory * Z) :=
  m ← store m (s + len) (n mod 10 + 48);
  let n := n / 10 in
  if n =? 0 then Some (m, len + 1) else match fuel with O => None | S fuel => ultoa_digits fuel m s n (len + 1) end.
(** [for (; i < j; ++i, --j)] swapping. *)
Fixpoint ultoa_reverse (fuel : nat) (m : memory) (s i j : Z) : option memory :=
  if i <? j then
    match fuel with
    | O => None
    | S fuel =>
        swap ← m !! (s + i); b ← m !! (s + j);
        m ← store m (s + i) b; m ← store m (s + j) swap;
        ultoa_reverse fuel m s (i + 1) (j - 1)
    end
  else Some m.
Definition ulog_ultoa (m : memory) (s n : Z) : option (memory * Z) :=
  '(m, len) ← ultoa_digits 9 m s n 0;
  m ← store m (s + len) 0;
  m ← ultoa_reverse 10 m s 0 (len - 1);
  Some (m, len).

(** Storing characters one after the other. *)
Fixpoint put_chars (m : memory) (a : Z) (cs : list Z) : option memory :=
  match cs with [] => Some m | c :: cs => m ← store m a c; put_chars m (a + 1) cs end.

(** [vsnprintf] of the C library, for a format and arguments that give the text [out]:
    it stores at most [n - 1] characters and the end mark and returns the length of the
    text; a negative result, when the text cannot be made, is [None]. *)
Definition vsnprintf (m : memory) (s n : Z) (out : option (list Z)) : option (memory * Z) :=
  match out with
  | None => Some (m, -1)
  | Some t =>
      if n =? 0 then Some (m, len t)
      else m ← put_chars m s (take (Z.to_nat (n - 1)) t ++ [0]); Some (m, len t)
  end.

(** [log_len += ulog_strcpy(log_len, log_buf + log_len, src)]. *)
Definition append_str (log_buf : Z) (src : list Z) (st : memory * Z) : option (memory * Z) :=
  '(m, n) ← ulog_strcpy st.2 st.1 (log_buf + st.2) src; Some (m, u32 (st.2 + n)).

(** The header: color, tick, level, tag. *)
Definition ulog_header (tick : Z) (log_buf level : Z) (tag : list Z) (m : memory) : option (memory * Z) :=
  color ← level_entry color_output_info level;
  st ← match color with
       | Some c => st ← append_str log_buf CSI_START (m, 0); append_str log_buf c st
       | None => Some (m, 0)
       end;
  let '(m, log_len) := st in
  m ← store m (log_buf + log_len) 91;
  '(m, tick_len) ← ulog_ultoa m (log_buf + log_len + 1) tick;
  m ← store m (log_buf + log_len + 1 + tick_len) 93;
  m ← store m (log_buf + log_len + 1 + tick_len + 1) 0;
  n ← rt_strlen m (log_buf + log_len);
  st ← append_str log_buf [32] (m, u32 (log_len + Z.of_nat n));
  info ← level_entry level_output_info level;
  info ← info;
  st ← append_str log_buf info st;
  st ← append_str log_buf tag st;
  append_str log_buf [58; 32] st.

(** The length after the text, cut so that the end of the line fits. *)
Definition text_len (log_len fmt_result : Z) : Z :=
  let log_len := if (u32 (log_len + fmt_result) <=? ULOG_LINE_BUF_SIZE) && (-1 <? fmt_result)
                 then u32 (log_len + fmt_result) else ULOG_LINE_BUF_SIZE in
  if ULOG_LINE_BUF_SIZE <? u32 (log_len + 4 + 2) then ULOG_LINE_BUF_SIZE - 4 - 2 else log_len.

(** [text]: what the format and the arguments print. *)
Definition ulog_formater (tick : Z) (log_buf level : Z) (tag : list Z) (newline : bool) (text : option (list Z)) (m : memory)
    : option (memory * Z) :=
  '(m, log_len) ← ulog_header tick log_buf level tag m;
  '(m, fmt_result) ← vsnprintf m (log_buf + log_len) (u32 (ULOG_LINE_BUF_SIZE - log_len)) text;
  let st := (m, text_len log_len fmt_result) in
  st ← (if newline then append_str log_buf ULOG_NEWLINE_SIGN st else Some st);
  color ← level_entry color_output_info level;
  match color with Some _ => append_str log_buf CSI_END st | None => Some st end.

(** ** The buffer of a line *)

Section Line.
Context (m0 : memory) (LB : Z).

(** The buffer starts with [out]; nothing outside it has changed. *)
Record line_state (out : list Z) (m : memory) : Prop := {
  ls_text : forall i c, out !! i = Some c -> m !! (LB + Z.of_nat i) = Some c;
  ls_outside : forall x, x < LB \/ LB + ULOG_LINE_BUF_SIZE <= x -> m !! x = m0 !! x;
  ls_mapped : mapped m LB 128;
  ls_ok : bytes_ok m;
}.

Lemma line_start : bytes_ok m0 -> mapped m0 LB 128 -> line_state [] m0.
Proof. intros Hm H. by constructor. Qed.
Lemma line_cut out t m : line_state (out ++ t) m -> line_state out m.
Proof. intros []. constructor; [|done..]. intros i c Hc. apply ls_text0. by apply lookup_app_l_Some. Qed.

Lemma line_set out m i c : line_state out m -> (i <= length out)%nat -> (i < 128)%nat -> is_u8 c ->
  exists m', store m (LB + Z.of_nat i) c = Some m' /\ line_state (take i out ++ [c] ++ drop (S i) out) m'.
Proof.
  intros [Ht Ho Hm Hok] Hi H128 Hc. destruct (Hm (LB + Z.of_nat i)) as [b Hb]; [lia|]. rewrite (store_mapped _ _ _ _ Hb Hc). eexists. split; [done|].
  constructor; [| |by apply mapped_insert|by apply map_Forall_insert_2].
  - intros j d Hj. destruct (decide (j = i)) as [->|Hne].
    + rewrite lookup_insert_eq. rewrite lookup_app_r, length_take, Nat.min_l, Nat.sub_diag in Hj by (rewrite ?length_take; lia). done.
    + rewrite lookup_insert_ne by lia. apply Ht. destruct (decide (j < i)%nat).
      * rewrite lookup_app_l, lookup_take_lt in Hj by (rewrite ?length_take; lia). done.
      * rewrite lookup_app_r, length_take, Nat.min_l in Hj by (rewrite ?length_take; lia).
        rewrite lookup_app_r in Hj by (simpl; lia). rewrite lookup_drop in Hj. simpl in Hj. rewrite <-Hj. f_equal. lia.
  - intros x Hx. rewrite lookup_insert_ne by (unfold ULOG_LINE_BUF_SIZE in Hx; lia). by apply Ho.
Qed.

Lemma line_put out m c : line_state out m -> (length out < 128)%nat -> is_u8 c ->
  exists m', store m (LB + len out) c = Some m' /\ line_state (out ++ [c]) m'.
Proof.
  intros Hl Hn Hc. destruct (line_set out m (length out) c Hl) as (m'&E&Hl'); [done..|].
  rewrite firstn_all, drop_ge, app_nil_r in Hl' by lia. eauto.
Qed.

Lemma ulog_strcpy_spec src : forall out m, line_state out m -> len out + len src <= 128 -> Forall is_u8 src ->
  exists m', ulog_strcpy (len out) m (LB + len out) src = Some (m', len src) /\ line_state (out ++ src) m'.
Proof.
  induction src as [|c src IH]; intros out m Hl Hlen Hs; unfold len in *; cbn [ulog_strcpy length] in *.
  - exists m. by rewrite app_nil_r.
  - apply Forall_cons in Hs as [Hc Hs]. rewrite (proj2 (Z.leb_le _ _)) by (unfold ULOG_LINE_BUF_SIZE; lia).
    destruct (line_put out m c Hl) as (m1&Em&Hl1); [lia|done|]. unfold len in Em. rewrite Em. cbn [mbind option_bind].
    destruct (IH (out ++ [c]) m1 Hl1) as (m2&E2&Hl2); [rewrite length_app; simpl; lia|done|].
    rewrite length_app in E2. simpl in E2. rewrite u32_small by (unfold is_u32; lia).
    replace (LB + Z.of_nat (length out) + 1) with (LB + Z.of_nat (length out + 1)) by lia.
    replace (Z.of_nat (length out) + 1) with (Z.of_nat (length out + 1)) by lia. rewrite E2. cbn [mbind option_bind].
    rewrite <-app_assoc in Hl2. exists m2. split; [|done]. do 2 f_equal. lia.
Qed.

Lemma append_str_spec src out m : line_state out m -> len out + len src <= 128 -> Forall is_u8 src ->
  exists m', append_str LB src (m, len out) = Some (m', len (out ++ src)) /\ line_state (out ++ src) m'.
Proof.
  intros Hl Hlen Hs. destruct (ulog_strcpy_spec src out m Hl Hlen Hs) as (m'&E&Hl'). exists m'. split; [|done].
  unfold append_str. cbn [fst snd]. rewrite E. cbn [mbind option_bind]. unfold len in *. rewrite length_app, u32_small by (unfold is_u32; lia). do 2 f_equal. lia.
Qed.

Lemma ultoa_digits_spec fuel : forall m out ds n, line_state (out ++ ds) m -> 0 <= n < 10 ^ Z.of_nat (S fuel) -> (length out + length ds + S fuel <= 128)%nat ->
  exists m', ultoa_digits fuel m (LB + len out) n (len ds) = Some (m', len (ds ++ rev (numeral fuel false 10 n))) /\
    line_state (out ++ ds ++ rev (numeral fuel false 10 n)) m'.
Proof.
  induction fuel as [|fuel IH]; intros m out ds n Hl Hn Hlen; cbn [ultoa_digits numeral].
  - change (Z.of_nat 1) with 1 in Hn. rewrite Z.pow_1_r in Hn. rewrite Z.mod_small, Z.div_small by lia.
    destruct (line_put (out ++ ds) m (digit false n)) as (m'&E&Hl'); [done|rewrite length_app; lia|apply digit_u8; lia|].
    unfold digit in *. rewrite (proj2 (Z.ltb_lt n 10)) in * by lia. unfold len in *. rewrite length_app, Nat2Z.inj_add, Z.add_assoc in E.
    rewrite (Z.add_comm n 48), E. exists m'. simpl. rewrite length_app, app_assoc. split; [|done]. do 2 f_equal. simpl. lia.
  - destruct (line_put (out ++ ds) m (digit false (n mod 10))) as (m'&E&Hl'); [done|rewrite length_app; lia|apply digit_u8; dlia|].
    assert (digit false (n mod 10) = n mod 10 + 48) as Ed by (unfold digit; rewrite (proj2 (Z.ltb_lt (n mod 10) 10)) by dlia; lia).
    unfold len in *. rewrite Ed, length_app, Nat2Z.inj_add, Z.add_assoc in E. rewrite E. cbn [mbind option_bind].
    destruct (Z.ltb_spec n 10).
    + rewrite Z.div_small by lia. simpl. exists m'. rewrite Z.mod_small in * by lia. rewrite length_app, app_assoc. split; [|done]. do 2 f_equal. simpl. lia.
    + rewrite (proj2 (Z.eqb_neq (n / 10) 0)) by dlia. rewrite (Nat2Z.inj_succ (S fuel)), Z.pow_succ_r in Hn by lia.
      rewrite <-app_assoc in Hl'. destruct (IH m' out (ds ++ [digit false (n mod 10)]) (n / 10) Hl') as (m2&E2&Hl2); [dlia|rewrite length_app; simpl; lia|].
      rewrite length_app in E2. simpl in E2. replace (Z.of_nat (length ds) + 1) with (Z.of_nat (length ds + 1)) by lia. rewrite E2.
      exists m2. rewrite rev_unit, <-!app_assoc in *. done.
Qed.

Lemma line_mid p c0 q m c : line_state (p ++ c0 :: q) m -> (length p < 128)%nat -> is_u8 c ->
  m !! (LB + len p) = Some c0 /\ exists m', store m (LB + len p) c = Some m' /\ line_state (p ++ c :: q) m'.
Proof.
  intros Hl Hp Hc. split; [apply (ls_text _ _ Hl); by apply list_lookup_middle|].
  destruct (line_set _ m (length p) c Hl) as (m'&E&Hl'); [rewrite length_app; lia|done..|].
  rewrite take_app_length, drop_app_ge in Hl' by lia. replace (S (length p) - length p)%nat with 1%nat in Hl' by lia. eauto.
Qed.

Lemma ultoa_reverse_spec fuel : forall m out a mid b, line_state (out ++ a ++ mid ++ b) m -> (length out + length a + length mid <= 128)%nat ->
  Forall is_u8 mid -> (length mid <= fuel)%nat ->
  exists m', ultoa_reverse fuel m (LB + len out) (len a) (len a + len mid - 1) = Some m' /\ line_state (out ++ a ++ rev mid ++ b) m'.
Proof.
  induction fuel as [|fuel IH]; intros m out a mid b Hl Hlen Hu Hf; cbn [ultoa_reverse]; unfold len in *.
  - destruct mid; [|simpl in Hf; lia]. simpl in *. rewrite (proj2 (Z.ltb_ge _ _)) by lia. eauto.
  - destruct mid as [|x mid]; [simpl in *; rewrite (proj2 (Z.ltb_ge _ _)) by lia; eauto|].
    destruct mid as [|y mid _] using rev_ind; [simpl in *; rewrite (proj2 (Z.ltb_ge _ _)) by lia; eauto|].
    simpl in Hlen, Hf. rewrite length_app in Hlen, Hf. simpl in Hlen, Hf.
    apply Forall_cons in Hu as [Hx [Hu [Hy _]%Forall_cons]%Forall_app].
    cbn [length]. rewrite length_app. cbn [length]. rewrite (proj2 (Z.ltb_lt _ _)) by lia.
    replace (out ++ a ++ (x :: mid ++ [y]) ++ b) with ((out ++ a) ++ x :: mid ++ y :: b) in Hl by (simpl; by rewrite <-!app_assoc).
    destruct (line_mid _ _ _ m y Hl) as (Ex&m1&E1&Hl1); [rewrite length_app; lia|done|].
    replace ((out ++ a) ++ x :: mid ++ y :: b) with (((out ++ a) ++ x :: mid) ++ y :: b) in Hl by (by rewrite <-!app_assoc).
    destruct (line_mid _ _ _ m 0 Hl) as (Ey&_); [rewrite !length_app; simpl; lia|unfold is_u8; lia|].
    replace ((out ++ a) ++ y :: mid ++ y :: b) with (((out ++ a) ++ y :: mid) ++ y :: b) in Hl1 by (by rewrite <-!app_assoc).
    destruct (line_mid _ _ _ m1 x Hl1) as (_&m2&E2&Hl2); [rewrite !length_app; simpl; lia|done|].
    unfold len in *. rewrite ?length_app in *. simpl in *. rewrite ?length_app in *. simpl in *.
    replace (LB + Z.of_nat (length out) + Z.of_nat (length a)) with (LB + Z.of_nat (length out + length a)) by lia.
    replace (LB + Z.of_nat (length out) + (Z.of_nat (length a) + Z.of_nat (S (length mid + 1)) - 1)) with
      (LB + Z.of_nat (length out + length a + S (length mid))) by lia.
    rewrite Ex. cbn [mbind option_bind]. rewrite Ey. cbn [mbind option_bind]. rewrite E1. cbn [mbind option_bind]. rewrite E2. cbn [mbind option_bind].
    destruct (IH m2 out (a ++ [y]) mid (x :: b)) as (m3&E3&Hl3); [by rewrite <-!app_assoc in *|rewrite length_app; simpl; lia|done|lia|].
    rewrite length_app in E3. simpl in E3. replace (Z.of_nat (length a) + 1) with (Z.of_nat (length a + 1)) by lia.
    replace (Z.of_nat (length a) + Z.of_nat (S (length mid + 1)) - 1 - 1) with (Z.of_nat (length a + 1) + Z.of_nat (length mid) - 1) by lia.
    rewrite E3. exists m3. split; [done|]. rewrite rev_unit. simpl. rewrite <-!app_assoc in Hl3. simpl in *. by rewrite <-app_assoc.
Qed.

Lemma numeral_length fuel : forall n, (1 <= length (numeral fuel false 10 n) <= S fuel)%nat.
Proof.
  induction fuel as [|fuel IH]; intros n; cbn [numeral]; [simpl; lia|]. destruct (n <? 10); [simpl; lia|]. rewrite length_app. simpl. specialize (IH (n / 10)). lia.
Qed.

Lemma ulog_ultoa_spec m out n : line_state out m -> is_u32 n -> (length out + 11 <= 128)%nat ->
  exists m', ulog_ultoa m (LB + len out) n = Some (m', len (numeral32 false 10 n)) /\ line_state (out ++ numeral32 false 10 n ++ [0]) m'.
Proof.
  intros Hl Hn Hlen. unfold ulog_ultoa, numeral32. pose proof (numeral_length 9 n) as Hnl.
  assert (0 <= n < 10 ^ Z.of_nat 10) as Hn10 by (unfold is_u32 in Hn; change (10 ^ Z.of_nat 10) with 10000000000; lia).
  assert (Forall is_u8 (numeral 9 false 10 n)) as Hu by (apply numeral_u8; [by left|done]).
  destruct (ultoa_digits_spec 9 m out [] n) as (m1&E1&Hl1); [by rewrite app_nil_r|done|cbn [length]; lia|]. cbn [app] in E1, Hl1.
  change (len []) with 0 in E1. rewrite E1. cbn [mbind option_bind]. set (ds := numeral 9 false 10 n) in *.
  assert (length (rev ds) = length ds) as Hr by apply length_rev.
  destruct (line_put _ m1 0 Hl1) as (m2&E2&Hl2); [rewrite length_app; lia|unfold is_u8; lia|].
  unfold len in *. rewrite length_app, Nat2Z.inj_add, Z.add_assoc in E2. rewrite E2. cbn [mbind option_bind].
  destruct (ultoa_reverse_spec 10 m2 out [] (rev ds) [0]) as (m3&E3&Hl3); [by rewrite <-app_assoc in Hl2|cbn [length]; lia|by apply Forall_rev|lia|].
  unfold len in E3. cbn [length app] in E3, Hl3. rewrite Hr in *. change (Z.of_nat 0 + Z.of_nat (length ds) - 1) with (Z.of_nat (length ds) - 1) in E3.
  change (Z.of_nat 0) with 0 in E3. rewrite E3. rewrite rev_involutive in Hl3. eauto.
Qed.

Lemma put_chars_spec cs : forall out m, line_state out m -> len out + len cs <= 128 -> Forall is_u8 cs ->
  exists m', put_chars m (LB + len out) cs = Some m' /\ line_state (out ++ cs) m'.
Proof.
  induction cs as [|c cs IH]; intros out m Hl Hlen Hs; unfold len in *; cbn [put_chars length] in *.
  - exists m. by rewrite app_nil_r.
  - apply Forall_cons in Hs as [Hc Hs]. destruct (line_put out m c Hl) as (m1&Em&Hl1); [lia|done|]. unfold len in Em. rewrite Em. cbn [mbind option_bind].
    destruct (IH (out ++ [c]) m1 Hl1) as (m2&E2&Hl2); [rewrite length_app; simpl; lia|done|]. rewrite length_app in E2. simpl in E2.
    replace (LB + Z.of_nat (length out) + 1) with (LB + Z.of_nat (length out + 1)) by lia. rewrite <-app_assoc in Hl2. eauto.
Qed.

(** Printing the text after [out], with room for its first characters. *)
Lemma vsnprintf_spec out m t : line_state out m -> len out <= 128 -> Forall is_u8 t ->
  exists m', vsnprintf m (LB + len out) (u32 (ULOG_LINE_BUF_SIZE - len out)) (Some t) = Some (m', len t) /\
    line_state (out ++ take (Z.to_nat (127 - len out)) t) m'.
Proof.
  intros Hl Hlen Ht. pose proof (Zle_0_nat (length out)). unfold vsnprintf, ULOG_LINE_BUF_SIZE. unfold len in *. rewrite u32_small by (unfold is_u32; lia).
  destruct (Z.eqb_spec (128 - Z.of_nat (length out)) 0) as [E|E].
  - replace (Z.to_nat (127 - Z.of_nat (length out))) with 0%nat by lia. exists m. by rewrite take_0, app_nil_r.
  - replace (128 - Z.of_nat (length out) - 1) with (127 - Z.of_nat (length out)) by lia.
    destruct (put_chars_spec (take (Z.to_nat (127 - Z.of_nat (length out))) t ++ [0]) out m Hl) as (m'&E'&Hl').
    + unfold len. rewrite length_app, length_take. simpl. lia.
    + apply Forall_app. split; [by apply Forall_take|]. constructor; [unfold is_u8; lia|done].
    + unfold len in E'. rewrite E'. cbn [mbind option_bind]. rewrite app_assoc in Hl'. apply line_cut in Hl'. eauto.
Qed.

(** ** The line *)

Definition color_text (level : Z) : option (list Z) :=
  color ← level_entry color_output_info level; Some (match color with Some c => CSI_START ++ c | None => [] end).
Definition tick_text (tick : Z) : list Z := 91 :: numeral32 false 10 tick ++ [93].
(** The header of a line. *)
Definition header_text (tick level : Z) (tag : list Z) : option (list Z) :=
  color ← color_text level; info ← level_entry level_output_info level; info ← info;
  Some (color ++ tick_text tick ++ [32] ++ info ++ tag ++ [58; 32]).

Lemma color_u8 level c : color_text level = Some c -> Forall is_u8 c /\ (length c <= 5)%nat.
Proof.
  unfold color_text, level_entry. destruct (level <? 0); [done|]. destruct (Z.to_nat level) as [|[|[|[|[|[|[|[|n]]]]]]]]; simpl; intros [= <-];
    (split; [repeat constructor; unfold is_u8; lia|simpl; lia]).
Qed.
Lemma info_u8 level i : level_entry level_output_info level = Some (Some i) -> Forall is_u8 i.
Proof.
  unfold level_entry. destruct (level <? 0); [done|]. destruct (Z.to_nat level) as [|[|[|[|[|[|[|[|n]]]]]]]]; simpl; intros [= <-];
    repeat constructor; unfold is_u8; lia.
Qed.

Lemma numeral32_facts tick : is_u32 tick -> Forall is_u8 (numeral32 false 10 tick) /\ Forall (fun c => c <> 0) (numeral32 false 10 tick) /\
  (1 <= length (numeral32 false 10 tick) <= 10)%nat.
Proof.
  intros Ht. assert (0 <= tick < 10 ^ Z.of_nat 10) as Ht10 by (unfold is_u32 in Ht; change (10 ^ Z.of_nat 10) with 10000000000; lia).
  split; [apply numeral_u8; [by left|done]|]. split; [|apply numeral_length]. destruct (numeral_digits 9 tick Ht10) as [Hd _].
  eapply Forall_impl; [exact Hd|]. intros c Hc ->. discriminate Hc.
Qed.

(** The tick between brackets; its length is found again with [rt_strlen]. *)
Lemma tick_spec out m tick : line_state out m -> is_u32 tick -> (length out + 13 <= 128)%nat ->
  exists m1 m2 m3 m4, store m (LB + len out) 91 = Some m1 /\
    ulog_ultoa m1 (LB + len out + 1) tick = Some (m2, len (numeral32 false 10 tick)) /\
    store m2 (LB + len out + 1 + len (numeral32 false 10 tick)) 93 = Some m3 /\
    store m3 (LB + len out + 1 + len (numeral32 false 10 tick) + 1) 0 = Some m4 /\
    rt_strlen m4 (LB + len out) = Some (length (tick_text tick)) /\ line_state (out ++ tick_text tick) m4.
Proof.
  intros Hl Ht Hlen. destruct (numeral32_facts tick Ht) as (Hu&Hnz&Hn). set (ds := numeral32 false 10 tick) in *.
  destruct (line_put _ m 91 Hl) as (m1&->&Hl1); [lia|unfold is_u8; lia|].
  destruct (ulog_ultoa_spec m1 (out ++ [91]) tick Hl1 Ht) as (m2&E2&Hl2); [rewrite length_app; simpl; lia|]. fold ds in E2, Hl2.
  unfold len in *. rewrite length_app in E2. simpl in E2. replace (LB + Z.of_nat (length out) + 1) with (LB + Z.of_nat (length out + 1)) by lia.
  rewrite app_assoc in Hl2.
  destruct (line_mid ((out ++ [91]) ++ ds) 0 [] m2 93 Hl2) as (_&m3&E3&Hl3); [rewrite !length_app; simpl; lia|unfold is_u8; lia|].
  destruct (line_put _ m3 0 Hl3) as (m4&E4&Hl4); [rewrite !length_app; simpl; lia|unfold is_u8; lia|].
  unfold len in *. rewrite ?length_app in *. simpl in *. exists m1, m2, m3, m4.
  replace (LB + Z.of_nat (length out + 1) + Z.of_nat (length ds)) with (LB + Z.of_nat (length out + 1 + length ds)) by lia.
  replace (LB + Z.of_nat (length out + 1 + length ds) + 1) with (LB + Z.of_nat (length out + 1 + length ds + 1)) by lia.
  assert (((out ++ [91]) ++ ds) ++ [93] = out ++ tick_text tick) as Et by (unfold tick_text; by rewrite <-!app_assoc). rewrite Et in Hl4.
  splits; try done; [|by apply line_cut in Hl4]. apply (rt_strlen_spec m4 _ (tick_text tick)). split; [|split].
  - unfold tick_text. constructor; [done|]. apply Forall_app. split; [done|]. by constructor.
  - intros i c Hc. replace (LB + Z.of_nat (length out) + Z.of_nat i) with (LB + Z.of_nat (length out + i)) by lia.
    apply (ls_text _ _ Hl4). rewrite <-app_assoc, lookup_app_r by lia. replace (length out + i - length out)%nat with i by lia. by apply lookup_app_l_Some.
  - replace (LB + Z.of_nat (length out) + Z.of_nat (length (tick_text tick))) with (LB + Z.of_nat (length (out ++ tick_text tick))) by (rewrite length_app; lia).
    apply (ls_text _ _ Hl4). by apply list_lookup_middle.
Qed.

Lemma ulog_header_spec tick level tag hd : is_u32 tick -> bytes_ok m0 -> mapped m0 LB 128 -> Forall is_u8 tag -> header_text tick level tag = Some hd -> len hd <= 128 ->
  exists m', ulog_header tick LB level tag m0 = Some (m', len hd) /\ line_state hd m'.
Proof.
  intros Ht Hok Hm Htag Hhd Hlen. unfold header_text in Hhd. destruct (color_text level) as [color|] eqn:Ec; [|done]. cbn [mbind option_bind] in Hhd.
  destruct (level_entry level_output_info level) as [[info|]|] eqn:Ei; try done. cbn [mbind option_bind] in Hhd. apply (inj Some) in Hhd as <-. remember (tick_text tick) as tk eqn:Htk.
  destruct (color_u8 _ _ Ec) as [Hcu Hcl]. pose proof (info_u8 _ _ Ei) as Hiu. destruct (numeral32_facts tick Ht) as (_&_&Hn).
  unfold ulog_header. unfold color_text in Ec. destruct (level_entry color_output_info level) as [color'|] eqn:Ecol; [|done]. cbn [mbind option_bind] in Ec |- *.
  assert (exists m1, (match color' with Some c => st ← append_str LB CSI_START (m0, 0); append_str LB c st | None => Some (m0, 0) end) = Some (m1, len color) /\
    line_state color m1) as (m1&->&Hl1).
  { injection Ec as <-. destruct color' as [c|]; [|exists m0; split; [done|by apply line_start]]. apply (Forall_app _ CSI_START c) in Hcu as [Hu1 Hu2].
    destruct (append_str_spec CSI_START [] m0) as (ma&Ea&Hla); [by apply line_start|done|done|]. change (len []) with 0 in Ea. rewrite Ea. cbn [mbind option_bind].
    destruct (append_str_spec c CSI_START ma Hla) as (mb&Eb&Hlb); [unfold len; simpl in *; lia|done|]. eauto. }
  cbn [mbind option_bind]. clear Ec Ecol. 
  assert (length tk = S (length (numeral32 false 10 tick) + 1)) as Htl by (rewrite Htk; unfold tick_text; cbn [length]; by rewrite length_app).
  unfold len in Hlen. rewrite !length_app in Hlen. cbn [length] in Hlen.
  destruct (tick_spec color m1 tick Hl1 Ht) as (m2&m3&m4&m5&->&E2&E3&E4&E5&Hl5); [lia|]. rewrite <-Htk in E5, Hl5. clear Htk.
  cbn [mbind option_bind]. rewrite E2. cbn [mbind option_bind].
  rewrite E3. cbn [mbind option_bind]. rewrite E4. cbn [mbind option_bind]. rewrite E5. cbn [mbind option_bind].
  replace (u32 (len color + Z.of_nat (length tk))) with (len (color ++ tk))
    by (unfold len; rewrite length_app, u32_small by (unfold is_u32; lia); lia).
  destruct (append_str_spec [32] _ m5 Hl5) as (m6&->&Hl6); [unfold len; rewrite !length_app; cbn [length]; lia|repeat constructor; unfold is_u8; lia|]. cbn [mbind option_bind].
  rewrite Ei. cbn [mbind option_bind].
  destruct (append_str_spec info _ m6 Hl6) as (m7&->&Hl7); [unfold len; rewrite !length_app; cbn [length]; lia|done|]. cbn [mbind option_bind].
  destruct (append_str_spec tag _ m7 Hl7) as (m8&->&Hl8); [unfold len; rewrite !length_app; cbn [length]; lia|done|]. cbn [mbind option_bind].
  destruct (append_str_spec [58; 32] _ m8 Hl8) as (m9&->&Hl9); [unfold len; rewrite !length_app; cbn [length]; lia|repeat constructor; unfold is_u8; lia|].
  exists m9. rewrite <-!app_assoc in *. done.
Qed.

(** The whole line: the header and as much of the text as leaves room for the end. *)
Definition line_text (tick level : Z) (tag : list Z) (newline : bool) (text : list Z) : option (list Z) :=
  hd ← header_text tick level tag; color ← color_text level;
  Some (take 122 (hd ++ text) ++ (if newline then ULOG_NEWLINE_SIGN else []) ++ (if decide (color = []) then [] else CSI_END)).

Lemma text_len_spec n t : 0 <= n <= 128 -> 0 <= t < 2147483648 -> text_len n t = Z.min 122 (n + t).
Proof.
  intros Hn Ht. unfold text_len, ULOG_LINE_BUF_SIZE. rewrite (u32_small (n + t)) by (unfold is_u32; lia). rewrite (proj2 (Z.ltb_lt (-1) t)), andb_true_r by lia.
  destruct (Z.leb_spec (n + t) 128).
  - rewrite u32_small by (unfold is_u32; lia). destruct (Z.ltb_spec 128 (n + t + 4 + 2)); lia.
  - change (u32 (128 + 4 + 2)) with 134. simpl. lia.
Qed.

(** A line that starts with a header of at most 128 characters is the header, the text as
    far as it fits, and the end marks; the buffer is never overrun. *)
Lemma ulog_formater_spec tick level tag newline text hd line : is_u32 tick -> bytes_ok m0 -> mapped m0 LB 128 -> Forall is_u8 tag -> Forall is_u8 text ->
  len text < 2147483648 -> header_text tick level tag = Some hd -> len hd <= 128 -> line_text tick level tag newline text = Some line ->
  exists m', ulog_formater tick LB level tag newline (Some text) m0 = Some (m', len line) /\ line_state line m' /\ len line <= 128.
Proof.
  intros Ht Hok Hm Htag Htx Htl Hhd Hlen Hline. unfold line_text in Hline. rewrite Hhd in Hline. cbn [mbind option_bind] in Hline.
  destruct (color_text level) as [color|] eqn:Ec; [|done]. cbn [mbind option_bind] in Hline. apply (inj Some) in Hline as <-.
  unfold ulog_formater. destruct (ulog_header_spec tick level tag hd) as (m1&->&Hl1); try done. cbn [mbind option_bind].
  destruct (vsnprintf_spec hd m1 text Hl1 Hlen Htx) as (m2&->&Hl2). cbn [mbind option_bind].
  rewrite text_len_spec by (unfold len in *; lia).
  assert (line_state (take 122 (hd ++ text)) m2) as Hl3.
  { apply (line_cut _ (drop 122 (take 128 (hd ++ take (Z.to_nat (127 - len hd)) text)))).
    assert (take 122 (hd ++ text) = take 122 (take 128 (hd ++ take (Z.to_nat (127 - len hd)) text))) as ->.
    { rewrite take_take, Nat.min_l by lia. unfold len. rewrite !take_app, take_take. f_equal. f_equal. lia. }
    rewrite take_drop. apply (line_cut _ (drop 128 (hd ++ take (Z.to_nat (127 - len hd)) text))). by rewrite take_drop. }
  assert (Z.min 122 (len hd + len text) = len (take 122 (hd ++ text))) as -> by (unfold len; rewrite length_take, length_app; lia).
  assert (len (take 122 (hd ++ text)) <= 122) as Hl122 by (unfold len; rewrite length_take; lia).
  assert (exists m3, (if newline then append_str LB ULOG_NEWLINE_SIGN (m2, len (take 122 (hd ++ text))) else Some (m2, len (take 122 (hd ++ text)))) =
      Some (m3, len (take 122 (hd ++ text) ++ if newline then ULOG_NEWLINE_SIGN else [])) /\
    line_state (take 122 (hd ++ text) ++ if newline then ULOG_NEWLINE_SIGN else []) m3) as (m3&->&Hl4).
  { destruct newline; [|exists m2; by rewrite app_nil_r]. apply append_str_spec; [done|unfold ULOG_NEWLINE_SIGN; unfold len in *; simpl; lia|].
    repeat constructor; unfold is_u8; lia. }
  cbn [mbind option_bind].
  assert (len (take 122 (hd ++ text) ++ if newline then ULOG_NEWLINE_SIGN else []) <= 124) as Hl124.
  { unfold len in *. rewrite length_app. destruct newline; simpl; lia. }
  unfold color_text in Ec. destruct (level_entry color_output_info level) as [[c|]|]; cbn [mbind option_bind] in Ec |- *; try done; apply (inj Some) in Ec as <-.
  - rewrite decide_False by done. rewrite app_assoc.
    destruct (append_str_spec CSI_END _ m3 Hl4) as (m4&->&Hl5); [unfold CSI_END; unfold len in *; simpl; lia|repeat constructor; unfold is_u8; lia|].
    exists m4. splits; try done. unfold len in *. rewrite length_app. simpl. lia.
  - rewrite decide_True, app_nil_r by done. exists m3. splits; try done. lia.
Qed.
End Line.
