(* ===== verification/UlogAsync.v ===== *)
(** * Asynchronous output of the logger (rt-thread/components/utilities/ulog/ulog.c)

    A call under the output lock formats a line and copies it, as a frame, into a block
    of the ring block buffer; [ulog_async_output] takes the frames out in order and gives
    each to all the backends. What the backends are given is recorded. *)

From S2P Require Import Prelude KString Printf Mem RingBlk Ulog RtList Sched SchedFacts Timer Kernel Thread Demo Ipc Sem Mutex.

(** ** State *)

(** [be_id] names a backend; its pointers [init], [flush], [deinit] may be null. *)
Record ulog_backend := Backend { be_id : nat; support_color : bool; be_init : bool; be_flush : bool; be_deinit : bool }.

(** What happens outside: calls of the backends' functions, and the warning that the
    buffer is full. *)
Inductive ulog_event :=
  | EvInit (be : nat) | EvFlush (be : nat) | EvDeinit (be : nat) | EvWarning
  | EvOutput (be : nat) (level tag : Z) (is_raw : bool) (log : list Z).

(** [already_output] is the static variable of [do_output]. *)
Record rt_ulog := MkUlog {
  init_ok : bool;
  log_buf_th : Z;
  log_buf_isr : Z;
  backend_list : list ulog_backend;
  async_rbb : rt_rbb;
  async_th : option tid;
  already_output : bool;
  u_mem : memory;
  u_trace : list ulog_event;
}.
Definition u_with (r : rt_rbb) (w : bool) (m : memory) (tr : list ulog_event) (u : rt_ulog) : rt_ulog :=
  MkUlog (init_ok u) (log_buf_th u) (log_buf_isr u) (backend_list u) r (async_th u) w m tr.
Definition set_mem (m : memory) (u : rt_ulog) : rt_ulog := u_with (async_rbb u) (already_output u) m (u_trace u) u.
Definition set_backends (l : list ulog_backend) (tr : list ulog_event) (u : rt_ulog) : rt_ulog :=
  MkUlog (init_ok u) (log_buf_th u) (log_buf_isr u) l (async_rbb u) (async_th u) (already_output u) (u_mem u) tr.

(** ** Frames *)

Definition ULOG_FRAME_MAGIC : Z := 16.
Definition SIZEOF_ULOG_FRAME : Z := 16.

(** The first word: [magic], [is_raw], [log_len], in 8, 1 and 23 bits. *)
Definition frame_word (is_raw : bool) (log_len : Z) : Z :=
  Z.lor ULOG_FRAME_MAGIC (Z.lor (Z.shiftl (Z.b2z is_raw) 8) (Z.shiftl (log_len mod 8388608) 9)).

Definition write_frame (m : memory) (buf level tag : Z) (is_raw : bool) (log_buf log_len : Z) : option memory :=
  m ← store_word m buf (frame_word is_raw log_len);
  m ← store_word m (buf + 4) level;
  m ← store_word m (buf + 8) (buf + SIZEOF_ULOG_FRAME);
  m ← store_word m (buf + 12) tag;
  rt_memcpy m (buf + SIZEOF_ULOG_FRAME) log_buf (Z.to_nat log_len).

(** ** The backends *)

(** For a backend without colors the color marks are cut off; [log] and [size] keep the
    new values for the backends that follow. *)
Fixpoint backend_loop (bs : list ulog_backend) (level tag : Z) (is_raw : bool) (m : memory) (log size : Z) (tr : list ulog_event)
    : option (list ulog_event) :=
  match bs with
  | [] => Some tr
  | b :: bs =>
      '(log, size) ← (if support_color b then Some (log, size)
                      else
                        color ← level_entry color_output_info level; color ← color;
                        if len color =? 0 then Some (log, size)
                        else let hdr := 2 + len color in Some (log + hdr, u32 (size - (hdr + 4))));
      out ← bytes_at m log (Z.to_nat size);
      backend_loop bs level tag is_raw m log size (tr ++ [EvOutput (be_id b) level tag is_raw out])
  end.

Definition ulog_output_to_all_backend (level tag : Z) (is_raw : bool) (log size : Z) (u : rt_ulog) : option rt_ulog :=
  if negb (init_ok u) then Some u
  else tr ← backend_loop (backend_list u) level tag is_raw (u_mem u) log size (u_trace u); Some (u_with (async_rbb u) (already_output u) (u_mem u) tr u).

(** ** Logging *)

Section Calls.
(** The kernel objects of the lock and of the notice. *)
Context (output_locker async_notice : oid).

Definition do_output (level tag : Z) (is_raw : bool) (log_buf log_len : Z) (u : rt_ulog) (k : kernel) : option (rt_ulog * kernel) :=
  '(r, blk) ← rt_rbb_blk_alloc (RT_ALIGN (u32 (SIZEOF_ULOG_FRAME + log_len)) 4) (async_rbb u);
  match blk with
  | Some i =>
      buf ← rt_rbb_blk_buf i r;
      m ← write_frame (u_mem u) buf level tag is_raw log_buf log_len;
      r ← rt_rbb_blk_put i r;
      '(k, _) ← rt_sem_release async_notice k;
      Some (u_with r (already_output u) m (u_trace u) u, k)
  | None =>
      if already_output u then Some (u_with r true (u_mem u) (u_trace u) u, k)
      else Some (u_with r true (u_mem u) (u_trace u ++ [EvWarning]) u, k)
  end.

(** [rt_interrupt_get_nest() == 0]. *)
Definition in_thread (k : kernel) : bool := irq_nest (k_s k) =? 0.
Definition get_log_buf (u : rt_ulog) (k : kernel) : Z := if in_thread k then log_buf_th u else log_buf_isr u.
(** In an interrupt the lock disables interrupts. *)
Definition output_lock (k : kernel) : option (kernel * blocking) :=
  if in_thread k then rt_mutex_take_enter output_locker RT_WAITING_FOREVER k else Some (k, Ret RT_EOK).
Definition output_unlock (k : kernel) : option kernel :=
  if in_thread k then '(k, _) ← rt_mutex_release output_locker k; Some k else Some k.

(** What a call does under the lock. [text] is what the format prints. *)
Definition voutput_locked (level tag : Z) (tag_text : list Z) (newline : bool) (text : option (list Z)) (u : rt_ulog) (k : kernel)
    : option (rt_ulog * kernel) :=
  let log_buf := get_log_buf u k in
  '(m, log_len) ← ulog_formater (rt_tick_get (k_t k)) log_buf level tag_text newline text (u_mem u);
  do_output level tag false log_buf log_len (set_mem m u) k.

Definition raw_len (fmt_result : Z) : Z := if (-1 <? fmt_result) && (fmt_result <=? ULOG_LINE_BUF_SIZE) then fmt_result else ULOG_LINE_BUF_SIZE.
Definition raw_locked (text : option (list Z)) (u : rt_ulog) (k : kernel) : option (rt_ulog * kernel) :=
  let log_buf := get_log_buf u k in
  '(m, fmt_result) ← vsnprintf (u_mem u) log_buf ULOG_LINE_BUF_SIZE text;
  do_output LOG_LVL_DBG 0 true log_buf (raw_len fmt_result) (set_mem m u) k.

(** A call is its part under the lock once the lock is taken; a thread that has to wait
    for the lock goes on when it runs again. *)
Inductive ulog_outcome := UDone | UWait.
Definition under_lock (body : rt_ulog -> kernel -> option (rt_ulog * kernel)) (b : blocking) (u : rt_ulog) (k : kernel)
    : option (rt_ulog * kernel * ulog_outcome) :=
  match b with
  | Ret _ => '(u, k) ← body u k; k ← output_unlock k; Some (u, k, UDone)
  | Blocked => Some (u, k, UWait)
  end.
Definition ulog_voutput_enter (level tag : Z) (tag_text : list Z) (newline : bool) (text : option (list Z)) (u : rt_ulog) (k : kernel)
    : option (rt_ulog * kernel * ulog_outcome) :=
  if negb (init_ok u) then Some (u, k, UDone)
  else '(k, b) ← output_lock k; under_lock (voutput_locked level tag tag_text newline text) b u k.
Definition ulog_raw_enter (text : option (list Z)) (u : rt_ulog) (k : kernel) : option (rt_ulog * kernel * ulog_outcome) :=
  '(k, b) ← output_lock k; under_lock (raw_locked text) b u k.
(** Thread [t] runs again. *)
Definition locked_resume (body : rt_ulog -> kernel -> option (rt_ulog * kernel)) (t : tid) (u : rt_ulog) (k : kernel)
    : option (rt_ulog * kernel * ulog_outcome) :=
  '(k, b) ← rt_mutex_take_resume output_locker t RT_WAITING_FOREVER k; under_lock body b u k.

(** ** The output thread *)

(** [while ((log_blk = rt_rbb_blk_get(...)) != NULL)]. *)
Fixpoint async_loop (fuel : nat) (u : rt_ulog) : option rt_ulog :=
  '(r, blk) ← rt_rbb_blk_get (async_rbb u);
  match blk, fuel with
  | None, _ => Some (u_with r (already_output u) (u_mem u) (u_trace u) u)
  | Some _, O => None
  | Some i, S fuel =>
      let u := u_with r (already_output u) (u_mem u) (u_trace u) u in
      buf ← rt_rbb_blk_buf i r;
      w ← load_word (u_mem u) buf;
      u ← (if Z.land w 255 =? ULOG_FRAME_MAGIC then
             level ← load_word (u_mem u) (buf + 4);
             log ← load_word (u_mem u) (buf + 8);
             tag ← load_word (u_mem u) (buf + 12);
             ulog_output_to_all_backend level tag (Z.testbit w 8) log (Z.shiftr w 9) u
           else Some u);
      r ← rt_rbb_blk_free i (async_rbb u);
      async_loop fuel (u_with r (already_output u) (u_mem u) (u_trace u) u)
  end.
(** A get that finds no block ends the loop: there are as many as the list has. *)
Definition ulog_async_output (u : rt_ulog) : option rt_ulog := async_loop (length (blk_list (async_rbb u))) u.

Definition ulog_async_waiting_log (time : Z) (k : kernel) : option (kernel * blocking) :=
  '(k, _) ← rt_sem_control async_notice RT_IPC_CMD_RESET 0 k; rt_sem_take_enter async_notice time k.

(** ** Backends and start-up *)

(** Appending a node that is linked would make the list circular. *)
Definition ulog_backend_register (b : ulog_backend) (color : bool) (u : rt_ulog) : option rt_ulog :=
  if decide (be_id b ∈ be_id <$> backend_list u) then None
  else
    let b' := Backend (be_id b) color (be_init b) (be_flush b) (be_deinit b) in
    Some (set_backends (backend_list u ++ [b']) (if be_init b then u_trace u ++ [EvInit (be_id b)] else u_trace u) u).
Definition ulog_backend_unregister (b : ulog_backend) (u : rt_ulog) : rt_ulog :=
  set_backends (filter (fun x => be_id x <> be_id b) (backend_list u)) (if be_deinit b then u_trace u ++ [EvDeinit (be_id b)] else u_trace u) u.

Definition ulog_flush (u : rt_ulog) : option rt_ulog :=
  if negb (init_ok u) then Some u
  else
    u ← ulog_async_output u;
    Some (set_backends (backend_list u) (u_trace u ++ (EvFlush ∘ be_id <$> filter (fun b => be_flush b = true) (backend_list u))) u).

Definition ULOG_ASYNC_OUTPUT_BUF_SIZE : Z := 4096.
Definition ULOG_ASYNC_OUTPUT_STORE_LINES : nat := Z.to_nat (ULOG_ASYNC_OUTPUT_BUF_SIZE * 3 / 2 / ULOG_LINE_BUF_SIZE).

(** [raw]: what the memory of the blocks holds; [th], [stack]: what the allocator returns
    for the thread. [rt_kprintf] of the messages is left out. *)
Definition ulog_init (raw : list rt_rbb_blk) (th : option tid) (stack : option Z) (u : rt_ulog) (h : heap) (k : kernel)
    : option (rt_ulog * heap * kernel * Z) :=
  if init_ok u then Some (u, h, k, 0)
  else
    let '(k, _) := rt_mutex_init output_locker RT_IPC_FLAG_FIFO k in
    '(h, r) ← rt_rbb_create (RT_ALIGN ULOG_ASYNC_OUTPUT_BUF_SIZE 4) ULOG_ASYNC_OUTPUT_STORE_LINES raw h;
    match r with
    | None => '(k, _) ← rt_mutex_detach output_locker k; Some (u, h, k, - RT_ENOMEM)
    | Some r =>
        let '(k, t) := rt_thread_create th stack 1024 30 20 k in
        match t with
        | None => '(k, _) ← rt_mutex_detach output_locker k; h ← rt_rbb_destroy r h; Some (u, h, k, - RT_ENOMEM)
        | Some t =>
            let '(k, _) := rt_sem_init async_notice 0 RT_IPC_FLAG_FIFO k in
            '(k, _) ← rt_thread_startup t k;
            Some (MkUlog true (log_buf_th u) (log_buf_isr u) [] r (Some t) (already_output u) (u_mem u) (u_trace u), h, k, 0)
        end
    end.

Definition ulog_deinit (u : rt_ulog) (h : heap) (k : kernel) : option (rt_ulog * heap * kernel) :=
  if negb (init_ok u) then Some (u, h, k)
  else
    '(k, _) ← rt_mutex_detach output_locker k;
    h ← rt_rbb_destroy (async_rbb u) h;
    t ← async_th u;
    '(k, _) ← rt_thread_delete t k;
    Some (MkUlog false (log_buf_th u) (log_buf_isr u) (backend_list u) (async_rbb u) (async_th u) (already_output u) (u_mem u)
            (u_trace u ++ (EvDeinit ∘ be_id <$> filter (fun b => be_deinit b = true) (backend_list u))), h, k).
End Calls.

(** ** Words and frames in memory *)

Lemma store_word_frame m a w : is_u32 w -> mapped m a 4 -> exists m', store_word m a w = Some m' /\ load_word m' a = Some w /\
  (forall x, x < a \/ a + 4 <= x -> m' !! x = m !! x) /\ (forall b n, mapped m b n -> mapped m' b n) /\ (bytes_ok m -> bytes_ok m').
Proof.
  intros Hw Hm. destruct (store_load_word m a w Hw Hm) as (m'&E&El). exists m'. splits; try done; unfold store_word in E; inv_option.
  - intros y Hy. repeat match goal with H : store _ _ _ = Some _ |- _ => apply (store_ne _ _ _ _ y) in H; [|lia]; rewrite H; clear H end. done.
  - intros b n Hb. repeat match goal with H : store _ _ _ = Some _ |- _ => apply store_Some in H as [_ ->] end. by repeat apply mapped_insert.
  - intros Hok. eauto 6 using store_ok.
Qed.

Lemma load_word_ext m m' a : (forall x, a <= x < a + 4 -> m' !! x = m !! x) -> load_word m' a = load_word m a.
Proof. intros H. unfold load_word. by rewrite !H by lia. Qed.

Lemma frame_word_fields is_raw n : 0 <= n <= 128 ->
  is_u32 (frame_word is_raw n) /\ Z.land (frame_word is_raw n) 255 = ULOG_FRAME_MAGIC /\ Z.testbit (frame_word is_raw n) 8 = is_raw /\
  Z.shiftr (frame_word is_raw n) 9 = n.
Proof.
  intros Hn. rewrite <-(Z2Nat.id n) by lia. assert (Z.to_nat n <= 128)%nat as Hk by lia. revert Hk. generalize (Z.to_nat n). clear.
  intros k Hk. do 129 (destruct k as [|k]; [destruct is_raw; vm_compute; repeat split; congruence|]). lia.
Qed.

(** A log as the backends are to see it. *)
Record log_rec := LogRec { lr_level : Z; lr_tag : Z; lr_raw : bool; lr_bytes : list Z }.

(** The frame of [r] at address [x]. *)
Record frame_at (m : memory) (x : Z) (r : log_rec) : Prop := {
  fr_word : load_word m x = Some (frame_word (lr_raw r) (len (lr_bytes r)));
  fr_level : load_word m (x + 4) = Some (lr_level r);
  fr_log : load_word m (x + 8) = Some (x + 16);
  fr_tag : load_word m (x + 12) = Some (lr_tag r);
  fr_bytes : forall i c, lr_bytes r !! i = Some c -> m !! (x + 16 + Z.of_nat i) = Some c;
  fr_len : len (lr_bytes r) <= 128;
}.

Lemma frame_keep m m' x r : (forall y, x <= y < x + 16 + len (lr_bytes r) -> m' !! y = m !! y) -> frame_at m x r -> frame_at m' x r.
Proof.
  intros H []. pose proof (Zle_0_nat (length (lr_bytes r))). unfold len in *.
  constructor; try done; try (by rewrite (load_word_ext m m') by (intros; apply H; lia)).
  intros i c Hc. rewrite H; [by apply fr_bytes0|]. apply lookup_lt_Some in Hc. lia.
Qed.

Lemma write_frame_spec m x level tag is_raw lb bytes : bytes_ok m -> len bytes <= 128 -> is_u32 level -> is_u32 tag -> is_u32 (x + 16) ->
  (forall i c, bytes !! i = Some c -> m !! (lb + Z.of_nat i) = Some c) -> mapped m x (16 + length bytes) ->
  lb + len bytes <= x \/ x + 16 + len bytes <= lb ->
  exists m', write_frame m x level tag is_raw lb (len bytes) = Some m' /\ frame_at m' x (LogRec level tag is_raw bytes) /\
    (forall y, y < x \/ x + 16 + len bytes <= y -> m' !! y = m !! y) /\ (forall b n, mapped m b n -> mapped m' b n) /\ bytes_ok m'.
Proof.
  intros Hok Hlen Hlv Htg Hx Hb Hm Hsep. pose proof (Zle_0_nat (length bytes)) as H0. unfold len in *.
  destruct (frame_word_fields is_raw (Z.of_nat (length bytes))) as (Hw&_); [lia|].
  assert (forall m', (forall b n, mapped m b n -> mapped m' b n) -> forall d, 0 <= d <= 12 -> mapped m' (x + d) 4) as Hmw.
  { intros m' H d Hd. pose proof (H _ _ Hm) as H'. intros y Hy. apply H'. lia. }
  unfold write_frame, SIZEOF_ULOG_FRAME.
  destruct (store_word_frame m x _ Hw) as (m1&->&L1&O1&M1&K1). { rewrite <-(Z.add_0_r x). apply Hmw; [done|lia]. } cbn [mbind option_bind].
  destruct (store_word_frame m1 (x + 4) level Hlv) as (m2&->&L2&O2&M2&K2); [apply Hmw; [auto|lia]|]. cbn [mbind option_bind].
  destruct (store_word_frame m2 (x + 8) (x + 16) Hx) as (m3&->&L3&O3&M3&K3); [apply Hmw; [auto|lia]|]. cbn [mbind option_bind].
  destruct (store_word_frame m3 (x + 12) tag Htg) as (m4&->&L4&O4&M4&K4); [apply Hmw; [auto|lia]|]. cbn [mbind option_bind].
  assert (bytes_ok m4) as Hok4 by auto. rewrite rt_memcpy_bytes by done. rewrite Nat2Z.id.
  assert (mapped m lb (length bytes)) as Hml.
  { intros y Hy. destruct (lookup_lt_is_Some_2 bytes (Z.to_nat (y - lb))) as [c Hc]; [lia|]. apply Hb in Hc. replace (lb + Z.of_nat (Z.to_nat (y - lb))) with y in Hc by lia. eauto. }
  destruct (copy_up_spec (length bytes) m4 (x + 16) lb) as (m5&E5&C5); [done|by auto 6| |lia|].
  { assert (mapped m4 x (16 + length bytes)) as H' by auto 6. intros y Hy. apply H'. lia. }
  rewrite E5. exists m5. split; [done|].
  assert (forall y, y < x + 16 \/ x + 16 + Z.of_nat (length bytes) <= y -> m5 !! y = m4 !! y) as O5.
  { intros y Hy. rewrite (C5 y). destruct (Z.leb_spec (x + 16) y), (Z.ltb_spec y (x + 16 + Z.of_nat (length bytes))); [lia|done..]. }
  split; [constructor; simpl|split; [|split]].
  - rewrite (load_word_ext m4), (load_word_ext m3), (load_word_ext m2), (load_word_ext m1); try done; intros y Hy; first [apply O5|apply O4|apply O3|apply O2]; lia.
  - rewrite (load_word_ext m4), (load_word_ext m3), (load_word_ext m2); try done; intros y Hy; first [apply O5|apply O4|apply O3]; lia.
  - rewrite (load_word_ext m4), (load_word_ext m3); try done; intros y Hy; first [apply O5|apply O4]; lia.
  - rewrite (load_word_ext m4); try done; intros y Hy; apply O5; lia.
  - intros i c Hc. pose proof (lookup_lt_Some _ _ _ Hc). rewrite (C5 _), (proj2 (Z.leb_le _ _)), (proj2 (Z.ltb_lt _ _)) by lia. simpl.
    replace (lb + (x + 16 + Z.of_nat i - (x + 16))) with (lb + Z.of_nat i) by lia. rewrite O4, O3, O2, O1 by lia. by apply Hb.
  - done.
  - intros y Hy. rewrite O5, O4, O3, O2, O1 by lia. done.
  - intros b n H'. assert (mapped m4 b n) as H4 by auto. intros y Hy. destruct (decide (x + 16 <= y < x + 16 + Z.of_nat (length bytes))).
    + rewrite (C5 y), (proj2 (Z.leb_le _ _)), (proj2 (Z.ltb_lt _ _)) by lia. simpl. assert (mapped m4 lb (length bytes)) as Hs by auto 6. apply Hs. lia.
    + rewrite O5 by lia. by apply H4.
  - by eapply copy_up_ok.
Qed.

(** ** The queue of the logs that wait *)

Definition log_buf_ok (u : rt_ulog) (lb : Z) : Prop :=
  mapped (u_mem u) lb 128 /\
  (lb + 128 <= rbb_buf (async_rbb u) \/ rbb_buf (async_rbb u) + rbb_buf_size (async_rbb u) <= lb).

Definition holds_log (m : memory) (s : slot) (r : log_rec) : Prop := 16 + len (lr_bytes r) <= sl_size s /\ frame_at m (sl_addr s) r.

(** [a]: the blocks of the ring block buffer in which the logs [q] wait. *)
Record ulog_inv (u : rt_ulog) (a : list slot) (q : list log_rec) : Prop := {
  ui_init : init_ok u = true;
  ui_ok : bytes_ok (u_mem u);
  ui_size : 144 <= rbb_buf_size (async_rbb u);
  ui_th : log_buf_ok u (log_buf_th u);
  ui_isr : log_buf_ok u (log_buf_isr u);
  ui_queue : rbb_repr (async_rbb u) (u_mem u) a /\ Forall (fun s => sl_st s = BLK_PUT) a /\
      Forall (fun s => sl_data s = None) a /\ Forall2 (holds_log (u_mem u)) a q;
}.

Lemma holds_keep B E m m' a q : placed B E a -> (forall x, B <= x < E -> m' !! x = m !! x) -> Forall2 (holds_log m) a q -> Forall2 (holds_log m') a q.
Proof.
  intros Hp Hm Hf. assert (Forall (fun s => B <= sl_addr s /\ sl_addr s + sl_size s <= E) a) as Hb.
  { apply Forall_forall. intros s Hs. destruct (placed_in _ _ _ _ Hp Hs) as (?&?&?). done. }
  clear Hp. induction Hf as [|s r a q [Hl Hfr] Hf IH]; [constructor|]. apply Forall_cons in Hb as [Hs Hb]. constructor; [|auto].
  split; [done|]. eapply frame_keep; [|exact Hfr]. intros y Hy. apply Hm. lia.
Qed.

(** Formatting a line changes only its buffer. *)
Lemma inv_line u a q lb out m : ulog_inv u a q -> log_buf_ok u lb -> line_state (u_mem u) lb out m -> ulog_inv (set_mem m u) a q.
Proof.
  intros [] Hlb [Ht Ho Hm Hok]. unfold ULOG_LINE_BUF_SIZE in Ho.
  assert (forall x n, mapped (u_mem u) x n -> mapped m x n) as Hmap.
  { intros x n Hx y Hy. destruct (decide (lb <= y < lb + 128)); [apply Hm; lia|]. rewrite Ho by lia. by apply Hx. }
  assert (forall x, rbb_buf (async_rbb u) <= x < rbb_buf (async_rbb u) + rbb_buf_size (async_rbb u) -> m !! x = u_mem u !! x) as Hsame
    by (intros x Hx; destruct Hlb as [_ Hlb]; apply Ho; lia).
  destruct ui_th0 as [? ?], ui_isr0 as [? ?]. constructor; simpl; try done; [by split; [apply Hmap|]|by split; [apply Hmap|]|].
  destruct ui_queue0 as (Hr&Hp&Hd&Hf). splits; try done.
  - eapply repr_mem; [done..|]. intros x Hx. rewrite Hsame by done. by apply (rr_mapped _ _ _ Hr).
  - eapply holds_keep; [by eapply rr_placed|done|done].
Qed.

(** The kernel as a call finds it. *)
Definition kernel_ready (notice : oid) (k : kernel) : Prop := kernel_wf k /\ sem_ok notice k /\ is_Some (current (k_s k)).

(** Everything the backends were given. *)
Definition is_output (e : ulog_event) : Prop := match e with EvOutput _ _ _ _ _ => True | _ => False end.
#[global] Instance is_output_dec e : Decision (is_output e).
Proof. destruct e; simpl; solve_decision. Defined.
Definition outputs (u : rt_ulog) : list ulog_event := filter is_output (u_trace u).

Lemma frame_size n : 0 <= n <= 128 -> RT_ALIGN (u32 (SIZEOF_ULOG_FRAME + n)) 4 = 4 * ((n + 19) / 4) /\ 16 + n <= 4 * ((n + 19) / 4) <= 144.
Proof. intros Hn. unfold SIZEOF_ULOG_FRAME. rewrite u32_small by (unfold is_u32; lia). rewrite RT_ALIGN_4 by lia. split; [do 2 f_equal; lia|dlia]. Qed.

(** The block for a log: of its frame, as [abs_exec] of RingBlk.v allocates it; there is
    none when all blocks are in use or the frame does not fit. *)
Definition frame_len (r : log_rec) : Z := RT_ALIGN (u32 (SIZEOF_ULOG_FRAME + len (lr_bytes r))) 4.
Definition log_block (rb : rt_rbb) (n : Z) (a : list slot) : option slot :=
  match free_id (blk_max_num rb) a, free_place (rbb_buf rb) (rbb_buf_size rb) n a with
  | Some i, Some x => Some (Slot i BLK_PUT x n None)
  | _, _ => None
  end.
Notation log_queue := (list slot * list log_rec)%type.
Definition log_push (rb : rt_rbb) (r : log_rec) (w : log_queue) : log_queue :=
  match log_block rb (frame_len r) w.1 with Some s => (w.1 ++ [s], w.2 ++ [r]) | None => w end.

Lemma log_push_same rb rb' r w : same_buf rb rb' -> log_push rb' r w = log_push rb r w.
Proof. intros (E1&E2&E3). unfold log_push, log_block. by rewrite E1, E2, E3. Qed.

(** A log is queued, or there is no room. *)
Lemma do_output_spec notice u a q k lb level tag is_raw bytes : ulog_inv u a q -> log_buf_ok u lb -> kernel_ready notice k ->
  len bytes <= 128 -> is_u32 level -> is_u32 tag -> (forall i c, bytes !! i = Some c -> u_mem u !! (lb + Z.of_nat i) = Some c) ->
  let '(a', q') := log_push (async_rbb u) (LogRec level tag is_raw bytes) (a, q) in
  exists u' k', do_output notice level tag is_raw lb (len bytes) u k = Some (u', k') /\ kernel_wf k' /\ sem_ok notice k' /\
    ulog_inv u' a' q' /\ outputs u' = outputs u /\ backend_list u' = backend_list u /\ same_buf (async_rbb u) (async_rbb u').
Proof.
  intros [] Hlb (Hk&Hsem&[c Hc]) Hlen Hlv Htg Hb. pose proof (Zle_0_nat (length bytes)) as H0.
  destruct (frame_size (len bytes)) as [Esz Hsz]; [unfold len in *; lia|].
  destruct ui_queue0 as (Hr&Hp&Hd&Hf). unfold do_output, log_push, frame_len. cbn [lr_bytes fst snd]. rewrite Esz. set (n := 4 * ((len bytes + 19) / 4)) in *.
  destruct (rt_rbb_blk_alloc_spec _ _ _ n Hr) as (r'&o&->&(Eb&Es&Ex)&Ho); [unfold len in *; lia|]. cbn [mbind option_bind]. unfold log_block.
  destruct o as [i|].
  2: { destruct Ho as (->&_&Ho). assert (log_block (async_rbb u) n a = None) as E by (unfold log_block; destruct Ho as [-> | ->]; [done|by destruct (free_id _ _)]).
       unfold log_block in E. rewrite E.
       destruct (already_output u); eexists _, k; (splits; [done|done|done| |..]); try done; try (constructor; simpl; done).
       unfold outputs. simpl. rewrite filter_app. by rewrite app_nil_r. }
  destruct Ho as (Hi&x&Hr'&Efi&Efp). rewrite Efi, Efp. destruct (repr_lookup _ _ _ _ _ Hr') as (Hbl&_&_). simpl in Hbl.
  destruct (placed_in _ _ _ _ (rr_placed _ _ _ Hr') ltac:(apply elem_of_app; right; by left)) as (Hx1&_&Hx2). simpl in Hx1, Hx2. rewrite Eb, Es in *.
  pose proof (rr_range _ _ _ Hr) as (HB&HE&_).
  unfold rt_rbb_blk_buf. rewrite Hbl. cbn [mbind option_bind fmap option_fmap option_map slot_blk blk_buf sl_addr].
  destruct Hlb as [Hlm Hla]. clearbody n. unfold len in H0, Hsz, Hlen.
  destruct (write_frame_spec (u_mem u) x level tag is_raw lb bytes) as (m'&->&Hfr&Hout&Hmap&Hok'); try done; [unfold is_u32; lia| |unfold len; lia|].
  { intros y Hy. apply (rr_mapped _ _ _ Hr). unfold len in *. lia. }
  cbn [mbind option_bind]. assert (rbb_repr r' m' (a ++ [Slot i BLK_INITED x n None])) as Hr2.
  { eapply repr_mem; [done|apply Forall_app; by split; [|constructor]|]. rewrite Eb, Es. intros y Hy.
    apply (Hmap y 1%nat); [|lia]. intros z Hz. apply (rr_mapped _ _ _ Hr). lia. }
  destruct (blk_put_repr _ _ _ _ _ Hr2) as (r2&E2&(Eb2&Es2&Ex2)&Hr3). simpl in E2, Hr3. rewrite E2. cbn [mbind option_bind].
  pose proof Hsem as (sem&l&Hs1&Hs2&_).
  destruct (rt_sem_release_cases k notice c sem l Hk Hsem Hc Hs1 Hs2) as (k'&->&Hk'&Hsem'&_). cbn [mbind option_bind].
  assert (forall lb', log_buf_ok u lb' -> mapped m' lb' 128 /\ (lb' + 128 <= rbb_buf r2 \/ rbb_buf r2 + rbb_buf_size r2 <= lb')) as Hbufs.
  { intros lb' [? ?]. rewrite Eb2, Es2, Eb, Es. split; [by apply Hmap|done]. }
  eexists _, k'. splits; try done; [|unfold same_buf; simpl; split_and!; congruence]. constructor; simpl; try done; try (by apply Hbufs); try lia.
  splits; [done|apply Forall_app; by split; [|constructor]|apply Forall_app; by split; [|constructor]|].
  apply Forall2_app; [|constructor; [split; [unfold len; simpl; lia|done]|constructor]].
  assert (Forall (fun s => apart s (Slot i BLK_INITED x n None)) a) as Hap
    by (pose proof (placed_apart _ _ _ (rr_placed _ _ _ Hr')) as Hap; by apply FOP_mid in Hap as [? _]).
  clear -Hf Hap Hout Hsz. induction Hf as [|s r a q [Hl Hfr] Hf IH]; [constructor|]. apply Forall_cons in Hap as [Hs Hap]. constructor; [|auto].
  split; [done|]. eapply frame_keep; [|exact Hfr]. intros y Hy. apply Hout. unfold apart, len in *. simpl in Hs. lia.
Qed.

(** What a log gives the backends. *)
Definition deliver (bs : list ulog_backend) (r : log_rec) : list ulog_event :=
  (fun b => EvOutput (be_id b) (lr_level r) (lr_tag r) (lr_raw r) (lr_bytes r)) <$> bs.
Definition colored (bs : list ulog_backend) : Prop := Forall (fun b => support_color b = true) bs.

Lemma backend_loop_spec bs m log r : colored bs -> bytes_at m log (length (lr_bytes r)) = Some (lr_bytes r) -> forall tr,
  backend_loop bs (lr_level r) (lr_tag r) (lr_raw r) m log (len (lr_bytes r)) tr = Some (tr ++ deliver bs r).
Proof.
  intros Hc Hb. induction bs as [|b bs IH]; intros tr; simpl; [by rewrite app_nil_r|]. apply Forall_cons in Hc as [Hb1 Hc].
  rewrite Hb1. cbn [mbind option_bind]. assert (Z.to_nat (len (lr_bytes r)) = length (lr_bytes r)) as -> by apply Nat2Z.id. rewrite Hb. cbn [mbind option_bind]. rewrite IH by done. by rewrite <-app_assoc.
Qed.

Lemma async_loop_spec q : forall u a fuel, ulog_inv u a q -> colored (backend_list u) -> (length q <= fuel)%nat ->
  exists u', async_loop fuel u = Some u' /\ ulog_inv u' [] [] /\ backend_list u' = backend_list u /\ same_buf (async_rbb u) (async_rbb u') /\
    u_trace u' = u_trace u ++ concat (deliver (backend_list u) <$> q).
Proof.
  induction q as [|r q IH]; intros u a fuel Hu Hc Hf; pose proof Hu as []; destruct ui_queue0 as (Hr&Hp&Hd&Ha).
  { inversion Ha; subst. exists (u_with (async_rbb u) (already_output u) (u_mem u) (u_trace u) u). split; [|split; [|split; [|split]]]; try done.
    - destruct fuel; simpl; by rewrite (blk_get_none _ _ _ Hr).
    - simpl. by rewrite app_nil_r. }
  destruct fuel as [|fuel]; [simpl in Hf; lia|]. inversion Ha as [|s ? a' ? [Hsl Hfr] Ha']; subst. apply Forall_cons in Hp as [Hps Hp]. apply Forall_cons in Hd as [Hds Hd].
  destruct (blk_get_repr _ _ [] s a' Hr) as (r1&E1&(Eb1&Es1&Ex1)&Hr1); [constructor|done|]. cbn [app] in Hr1.
  destruct (repr_lookup _ _ [] _ _ Hr1) as (Hl1&_&_). destruct (repr_free _ _ [] _ _ Hr1) as (r2&E2&(Eb2&Es2&Ex2)&Hr2). cbn [app] in Hr2.
  destruct (frame_word_fields (lr_raw r) (len (lr_bytes r))) as (_&Fm&Fr&Fl); [pose proof (fr_len _ _ _ Hfr); unfold len in *; lia|].
  assert (bytes_at (u_mem u) (sl_addr s + 16) (length (lr_bytes r)) = Some (lr_bytes r)) as Hbytes by (apply bytes_at_spec; exact (fr_bytes _ _ _ Hfr)).
  set (u1 := u_with r2 (already_output u) (u_mem u) (u_trace u ++ deliver (backend_list u) r) u).
  assert (ulog_inv u1 a' q) as Hu1.
  { destruct ui_th0, ui_isr0. constructor; simpl; try done; rewrite ?Eb2, ?Es2, ?Eb1, ?Es1 in *; try done; split; simpl; rewrite ?Eb2, ?Es2, ?Eb1, ?Es1; done. }
  destruct (IH u1 a' fuel Hu1 Hc) as (u2&E&Hi2&Hb2&Hsb2&Ht2); [simpl in Hf; lia|]. exists u2. splits; try done.
  2: { destruct Hsb2 as (?&?&?). unfold same_buf in *. simpl in *. split_and!; congruence. }
  2: { simpl in Ht2. simpl. by rewrite Ht2, <-app_assoc. }
  cbn [async_loop]. rewrite E1. cbn [mbind option_bind]. unfold rt_rbb_blk_buf. simpl in Hl1. rewrite Hl1. cbn [mbind option_bind fmap option_fmap option_map slot_blk slot_with blk_buf sl_addr u_mem u_with].
  rewrite (fr_word _ _ _ Hfr). cbn [mbind option_bind]. rewrite Fm. simpl (ULOG_FRAME_MAGIC =? _). cbv iota.
  rewrite (fr_level _ _ _ Hfr), (fr_log _ _ _ Hfr), (fr_tag _ _ _ Hfr). cbn [mbind option_bind]. rewrite Fr, Fl.
  unfold ulog_output_to_all_backend. simpl. rewrite ui_init0. simpl. rewrite (backend_loop_spec _ _ _ r) by done. cbn [mbind option_bind].
  simpl in E2. cbn [async_rbb u_with]. rewrite E2. cbn [mbind option_bind]. exact E.
Qed.

(** ** Calls in any order *)

(** A log, a raw log, a round of the output thread. *)
Inductive ulog_op := OpLog (level tag : Z) (tag_text : list Z) (newline : bool) (text : list Z) | OpRaw (text : list Z) | OpDrain.

Definition ulog_exec (notice : oid) (op : ulog_op) (u : rt_ulog) (k : kernel) : option (rt_ulog * kernel) :=
  match op with
  | OpLog level tag tag_text newline text => voutput_locked notice level tag tag_text newline (Some text) u k
  | OpRaw text => raw_locked notice (Some text) u k
  | OpDrain => u ← ulog_async_output u; Some (u, k)
  end.

(** A raw log of more than 127 characters ends with the end mark. *)
Definition raw_text (text : list Z) : list Z := if len text <=? 127 then text else take 127 text ++ [0].

(** What a call asks to be logged at a tick. *)
Definition op_rec (op : ulog_op) (tick : Z) : option log_rec :=
  match op with
  | OpLog level tag tag_text newline text => line ← line_text tick level tag_text newline text; Some (LogRec level tag false line)
  | OpRaw text => Some (LogRec LOG_LVL_DBG 0 true (raw_text text))
  | OpDrain => None
  end.

Definition ulog_op_ok (op : ulog_op) : Prop :=
  match op with
  | OpLog level tag tag_text newline text =>
      level ∈ [LOG_LVL_ASSERT; LOG_LVL_ERROR; LOG_LVL_WARNING; LOG_LVL_INFO; LOG_LVL_DBG] /\ is_u32 tag /\
      Forall is_u8 tag_text /\ len tag_text <= 100 /\ Forall is_u8 text /\ len text < 2147483648
  | OpRaw text => Forall is_u8 text /\ len text < 2147483648
  | OpDrain => True
  end.

Lemma header_fits tick level tag : is_u32 tick -> level ∈ [LOG_LVL_ASSERT; LOG_LVL_ERROR; LOG_LVL_WARNING; LOG_LVL_INFO; LOG_LVL_DBG] ->
  len tag <= 100 -> is_u32 level /\ exists hd color, header_text tick level tag = Some hd /\ len hd <= 128 /\ color_text level = Some color.
Proof.
  intros Ht Hlv Hlen. destruct (numeral32_facts tick Ht) as (_&_&Hn).
  assert (is_u32 level /\ exists c i, color_text level = Some c /\ (length c <= 5)%nat /\ level_entry level_output_info level = Some (Some i) /\ (length i <= 2)%nat)
    as (Hu&c&i&Ec&Hc&Ei&Hi).
  { rewrite !elem_of_cons, elem_of_nil in Hlv.
    destruct Hlv as [->|[->|[->|[->|[->|[]]]]]]; (split; [unfold is_u32; vm_compute; done|eexists _, _; split; [reflexivity|split; [simpl; lia|split; [reflexivity|simpl; lia]]]]). }
  split; [done|]. unfold header_text. rewrite Ec. cbn [mbind option_bind]. rewrite Ei. cbn [mbind option_bind]. eexists _, _. splits; [done| |done].
  unfold len in *. rewrite !length_app. unfold tick_text. cbn [length]. rewrite !length_app. cbn [length]. lia.
Qed.

Lemma log_buf_inv u a q k : ulog_inv u a q -> log_buf_ok u (get_log_buf u k).
Proof. intros []. unfold get_log_buf. by destruct (in_thread k). Qed.

(** A log under the lock: queued, or dropped when there is no room. *)
Definition logs_rec (notice : oid) (u : rt_ulog) (w : log_queue) (r : log_rec) (res : option (rt_ulog * kernel)) : Prop :=
  exists u' k', res = Some (u', k') /\ kernel_wf k' /\ sem_ok notice k' /\ ulog_inv u' (log_push (async_rbb u) r w).1 (log_push (async_rbb u) r w).2 /\
    outputs u' = outputs u /\ backend_list u' = backend_list u /\ same_buf (async_rbb u) (async_rbb u').

Lemma output_line notice u a q k m level tag is_raw out : ulog_inv u a q -> kernel_ready notice k -> is_u32 level -> is_u32 tag -> len out <= 128 ->
  line_state (u_mem u) (get_log_buf u k) out m ->
  logs_rec notice u (a, q) (LogRec level tag is_raw out) (do_output notice level tag is_raw (get_log_buf u k) (len out) (set_mem m u) k).
Proof.
  intros Hu Hk Hlv Htg Hlen Hl. pose proof (log_buf_inv u a q k Hu) as Hlb. pose proof (inv_line u a q _ out m Hu Hlb Hl) as Hu1.
  assert (log_buf_ok (set_mem m u) (get_log_buf u k)) as Hlb1 by apply (log_buf_inv (set_mem m u) a q k Hu1).
  pose proof (do_output_spec notice (set_mem m u) a q k (get_log_buf u k) level tag is_raw out Hu1 Hlb1 Hk Hlen Hlv Htg) as H.
  unfold logs_rec. change (async_rbb (set_mem m u)) with (async_rbb u) in H. destruct (log_push _ _ _) as [a' q']. apply H.
  intros i c Hc. by apply (ls_text _ _ _ _ Hl).
Qed.

Lemma voutput_spec notice u a q k level tag tag_text newline text line : ulog_inv u a q -> kernel_ready notice k -> is_u32 (rt_tick_get (k_t k)) ->
  ulog_op_ok (OpLog level tag tag_text newline text) -> line_text (rt_tick_get (k_t k)) level tag_text newline text = Some line ->
  logs_rec notice u (a, q) (LogRec level tag false line) (voutput_locked notice level tag tag_text newline (Some text) u k).
Proof.
  intros Hu Hk Ht (Hlv&Htg&Htt&Htl&Htx&Hxl) Hline. destruct (header_fits _ _ tag_text Ht Hlv Htl) as (Hlu&hd&color&Hhd&Hhl&_).
  destruct (log_buf_inv u a q k Hu) as [Hm _]. unfold voutput_locked.
  destruct (ulog_formater_spec (u_mem u) (get_log_buf u k) _ level tag_text newline text hd line Ht (ui_ok _ _ _ Hu) Hm Htt Htx Hxl Hhd Hhl Hline)
    as (m&->&Hl&Hlen). cbn [mbind option_bind]. by apply output_line.
Qed.

Lemma raw_spec notice u a q k text : ulog_inv u a q -> kernel_ready notice k -> ulog_op_ok (OpRaw text) ->
  logs_rec notice u (a, q) (LogRec LOG_LVL_DBG 0 true (raw_text text)) (raw_locked notice (Some text) u k).
Proof.
  intros Hu Hk [Htx Hxl]. destruct (log_buf_inv u a q k Hu) as [Hm _]. unfold raw_locked. pose proof (Zle_0_nat (length text)) as H0.
  assert (exists m, vsnprintf (u_mem u) (get_log_buf u k) ULOG_LINE_BUF_SIZE (Some text) = Some (m, len text) /\
    line_state (u_mem u) (get_log_buf u k) (take 127 text ++ [0]) m) as (m&->&Hl).
  { unfold vsnprintf, ULOG_LINE_BUF_SIZE. simpl (128 =? 0). cbv iota. change (Z.to_nat (128 - 1)) with 127%nat.
    destruct (put_chars_spec (u_mem u) (get_log_buf u k) (take 127 text ++ [0]) [] (u_mem u)) as (m&E&Hl).
    - apply line_start; [by eapply ui_ok|done].
    - unfold len. rewrite length_app, length_take. cbn [length]. lia.
    - apply Forall_app. split; [by apply Forall_take|]. constructor; [unfold is_u8; lia|done].
    - change (len []) with 0 in E. rewrite Z.add_0_r in E. rewrite E. eauto. }
  cbn [mbind option_bind]. assert (raw_len (len text) = len (raw_text text)) as ->.
  { unfold raw_len, raw_text, ULOG_LINE_BUF_SIZE. unfold len in *. rewrite (proj2 (Z.ltb_lt _ _)) by lia. simpl.
    destruct (Z.leb_spec (Z.of_nat (length text)) 127), (Z.leb_spec (Z.of_nat (length text)) 128); rewrite ?length_app, ?length_take; cbn [length]; lia. }
  apply output_line; try done.
  - unfold raw_text. destruct (Z.leb_spec (len text) 127); unfold len in *; [lia|rewrite length_app, length_take; cbn [length]; lia].
  - unfold raw_text. destruct (Z.leb_spec (len text) 127) as [Hle|_]; [|done]. rewrite take_ge in Hl by (unfold len in Hle; lia). by apply line_cut in Hl.
Qed.

(** The calls and the kernel each of them finds. *)
Fixpoint ulog_run (notice : oid) (ops : list (ulog_op * kernel)) (u : rt_ulog) : option (rt_ulog * list kernel) :=
  match ops with
  | [] => Some (u, [])
  | (op, k) :: ops => '(u, k) ← ulog_exec notice op u k; '(u, ks) ← ulog_run notice ops u; Some (u, k :: ks)
  end.

(** A queue of logs: a call appends its log, or drops it when there is no room for its
    frame; a round of the output thread gives all that wait to the backends, in order. *)
Definition queue_exec (rb : rt_rbb) (bs : list ulog_backend) (op : ulog_op) (tick : Z) (w : log_queue) : option (log_queue * list ulog_event) :=
  match op with
  | OpDrain => Some (([], []), concat (deliver bs <$> w.2))
  | _ => r ← op_rec op tick; Some (log_push rb r w, [])
  end.
Fixpoint queue_run (rb : rt_rbb) (bs : list ulog_backend) (ops : list (ulog_op * kernel)) (w : log_queue) : option (log_queue * list ulog_event) :=
  match ops with
  | [] => Some (w, [])
  | (op, k) :: ops => '(w, e1) ← queue_exec rb bs op (rt_tick_get (k_t k)) w; '(w, e2) ← queue_run rb bs ops w; Some (w, e1 ++ e2)
  end.
Lemma queue_run_same rb rb' bs ops : same_buf rb rb' -> forall w, queue_run rb' bs ops w = queue_run rb bs ops w.
Proof.
  intros Hs. induction ops as [|[op k] ops IH]; intros w; [done|]. cbn [queue_run].
  assert (queue_exec rb' bs op (rt_tick_get (k_t k)) w = queue_exec rb bs op (rt_tick_get (k_t k)) w) as ->.
  { unfold queue_exec. destruct op; try done; (destruct (op_rec _ _); [|done]); cbn [mbind option_bind]; by rewrite (log_push_same rb rb'). }
  destruct (queue_exec rb bs op _ w) as [[w1 e1]|]; [|done]. cbn [mbind option_bind]. by rewrite IH.
Qed.

(** A kernel at which a call may be made. *)
Definition call_ok (notice : oid) (c : ulog_op * kernel) : Prop :=
  ulog_op_ok c.1 /\ kernel_ready notice c.2 /\ is_u32 (rt_tick_get (k_t c.2)).

Lemma op_logs notice u a q k op : ulog_inv u a q -> call_ok notice (op, k) -> op <> OpDrain ->
  exists r, op_rec op (rt_tick_get (k_t k)) = Some r /\ logs_rec notice u (a, q) r (ulog_exec notice op u k).
Proof.
  intros Hu (Hop&Hk&Ht) Hne. destruct op as [level tag tt nl text|text|]; [| |done]; simpl in *.
  - destruct Hop as (Hlv&Htg&Htt&Htl&Htx&Hxl). destruct (header_fits _ _ tt Ht Hlv Htl) as (_&hd&color&Hhd&_&Hc).
    unfold line_text. rewrite Hhd. cbn [mbind option_bind]. rewrite Hc. cbn [mbind option_bind]. eexists. split; [done|].
    apply (voutput_spec notice u a q k level tag tt nl text _ Hu Hk Ht); [done|]. unfold line_text. by rewrite Hhd, Hc.
  - eexists. split; [done|]. by apply raw_spec.
Qed.

Lemma outputs_app u bs q : filter is_output (u_trace u ++ concat (deliver bs <$> q)) = outputs u ++ concat (deliver bs <$> q).
Proof.
  unfold outputs. rewrite filter_app. f_equal. induction q as [|r q IH]; [done|]. rewrite fmap_cons. cbn [concat]. rewrite filter_app, IH. f_equal.
  unfold deliver. clear. induction bs as [|b bs IHb]; [done|]. rewrite fmap_cons, filter_cons_True by done. by rewrite IHb.
Qed.

Lemma ulog_run_spec notice ops : forall u a q, ulog_inv u a q -> colored (backend_list u) -> Forall (call_ok notice) ops ->
  exists u' ks ev w, ulog_run notice ops u = Some (u', ks) /\ Forall kernel_wf ks /\ queue_run (async_rbb u) (backend_list u) ops (a, q) = Some (w, ev) /\
    outputs u' = outputs u ++ ev /\ ulog_inv u' w.1 w.2.
Proof.
  induction ops as [|[op k] ops IH]; intros u a q Hu Hc.
  { intros _. exists u, [], [], (a, q). rewrite app_nil_r. splits; try done; constructor. }
  intros [Hop Hops]%Forall_cons. cbn [ulog_run queue_run]. assert (op = OpDrain \/ op <> OpDrain) as [->|Hne] by (destruct op; [by right|by right|by left]).
  - destruct (ui_queue _ _ _ Hu) as (Hr&Hp&Hd&Ha). cbn [ulog_exec queue_exec]. unfold ulog_async_output.
    destruct (async_loop_spec q u a (length (blk_list (async_rbb u))) Hu Hc) as (u1&->&Hu1&Hb1&Hsb&Ht1).
    { rewrite (rr_list _ _ _ Hr), length_fmap. by rewrite <-(Forall2_length _ _ _ Ha). }
    cbn [mbind option_bind]. rewrite <-Hb1 in Hc. destruct (IH u1 [] [] Hu1 Hc Hops) as (u2&ks&ev&w&->&Hks&Hq&Ho&Hu2). cbn [mbind option_bind].
    rewrite Hb1, (queue_run_same _ _ _ _ Hsb) in Hq. rewrite Hq. cbn [mbind option_bind]. eexists _, _, _, w. splits; [done| |done| |done].
    + constructor; [|done]. by destruct Hop as (_&[]&_).
    + rewrite Ho. unfold outputs at 1. rewrite Ht1, outputs_app. by rewrite <-app_assoc.
  - destruct (op_logs notice u a q k op Hu Hop Hne) as (r&Hrec&u1&k1&->&Hk1&_&Hu1&Ho1&Hb1&Hsb). cbn [mbind option_bind].
    rewrite <-Hb1 in Hc. destruct (IH u1 _ _ Hu1 Hc Hops) as (u2&ks&ev&w&->&Hks&Hq&Ho&Hu2). cbn [mbind option_bind].
    rewrite Hb1, (queue_run_same _ _ _ _ Hsb), <-surjective_pairing in Hq.
    assert (queue_exec (async_rbb u) (backend_list u) op (rt_tick_get (k_t k)) (a, q) = Some (log_push (async_rbb u) r (a, q), [])) as ->
      by (unfold queue_exec; destruct op; try done; by rewrite Hrec).
    cbn [mbind option_bind]. rewrite Hq. exists u2, (k1 :: ks), ev, w. splits; [done|by constructor|done|by rewrite Ho, Ho1|done].
Qed.

(** C40: The logger is a queue, when every backend supports colors ([backend_loop_null] and
    [backend_loop_cuts_twice] show what else happens) and tags have at most 100 characters
    ([ulog_header_overruns]). Each call, from a thread or an interrupt and with whatever
    kernel between them, and each round of the output thread is one step. Then every call
    returns, leaves the kernel well formed, and appends its line - header, text as far as
    it fits, end marks - to the queue; it drops the line exactly when all blocks of the
    ring block buffer are in use or the frame does not fit ([log_block]). A round of
    the output thread gives the waiting logs to every backend, in the order of the calls
    and with their levels, tags and bytes. *)
Theorem ulog_delivers notice ops u : ulog_inv u [] [] -> colored (backend_list u) -> Forall (call_ok notice) ops ->
  exists u' ks w ev, ulog_run notice ops u = Some (u', ks) /\ Forall kernel_wf ks /\
    queue_run (async_rbb u) (backend_list u) ops ([], []) = Some (w, ev) /\ outputs u' = outputs u ++ ev.
Proof.
  intros Hu Hc Hops. destruct (ulog_run_spec notice ops u [] [] Hu Hc Hops) as (u'&ks&ev&w&?&?&?&?&_). by exists u', ks, w, ev.
Qed.

(** ** Witness *)

(** Line buffers at 100 and 300, the ring block buffer at 600. *)
Definition demo_log_blks : list rt_rbb_blk := replicate 4 (Blk BLK_UNUSED 0 0).
Definition demo_log_rbb : rt_rbb := Rbb 40 600 288 20 demo_log_blks 4 [].
Definition demo_log_mem : memory := memory_of 100 (replicate 800 0).
Definition demo_console : ulog_backend := Backend 7 true false false false.
Definition demo_ulog : rt_ulog := MkUlog true 100 300 [demo_console] demo_log_rbb None false demo_log_mem [].

Lemma demo_ulog_inv : ulog_inv demo_ulog [] [].
Proof.
  assert (forall x n, 100 <= x -> x + Z.of_nat n <= 900 -> mapped demo_log_mem x n) as Hm.
  { intros x n H1 H2. apply memory_of_mapped; [done|]. rewrite length_replicate. lia. }
  constructor; [reflexivity| |vm_compute; congruence| | |].
  - apply memory_of_ok, Forall_replicate. unfold is_u8. lia.
  - split; [apply (Hm 100 128%nat); lia|left; vm_compute; congruence].
  - split; [apply (Hm 300 128%nat); lia|left; vm_compute; congruence].
  - split; [|split; [constructor|split; constructor]].
    destruct (rt_rbb_init_repr 40 600 288 20 demo_log_blks 4 demo_log_mem) as (r&E&_&_&_&Hr); [done|lia..| |].
    { intros x Hx. apply (Hm x 1%nat); lia. }
    vm_compute in E. injection E as <-. exact Hr.
Qed.

Definition demo_calls : list (ulog_op * kernel) :=
  [(OpLog LOG_LVL_INFO 5000 [109; 97; 105; 110] true [104; 105], demo_k); (OpRaw [120; 121], demo_k); (OpDrain, demo_k)].

Lemma ulog_delivers_witness : exists u' ks w ev, ulog_run 0 demo_calls demo_ulog = Some (u', ks) /\ Forall kernel_wf ks /\
  queue_run demo_log_rbb [demo_console] demo_calls ([], []) = Some (w, ev) /\ outputs u' = [] ++ ev.
Proof.
  apply (ulog_delivers 0 demo_calls demo_ulog demo_ulog_inv).
  - repeat constructor.
  - assert (kernel_ready 0 demo_k /\ is_u32 (rt_tick_get (k_t demo_k))) as [Hk Ht].
    { split; [split; [exact demo_k_wf|split; [exact demo_sem_ok|vm_compute; eauto]]|vm_compute; split; congruence]. }
    unfold demo_calls. repeat apply Forall_cons_2; try apply Forall_nil_2; (split; [simpl|by split]); try done.
    + splits; [set_solver|unfold is_u32; lia|repeat constructor; unfold is_u8; lia|unfold len; simpl; lia|repeat constructor; unfold is_u8; lia|unfold len; simpl; lia].
    + split; [repeat constructor; unfold is_u8; lia|unfold len; simpl; lia].
Defined.

(** What the console is given: ["[<tick>] I/main: hi\r\n"] in green, then ["xy"]. *)
Example demo_console_log :
  (fst <$> ulog_run 0 demo_calls demo_ulog) ≫= (fun u => Some (outputs u)) =
  Some [EvOutput 7 6 5000 false (CSI_START ++ [51; 50; 109] ++ tick_text (rt_tick_get (k_t demo_k)) ++ [32; 73; 47] ++ [109; 97; 105; 110] ++ [58; 32] ++
          [104; 105] ++ ULOG_NEWLINE_SIGN ++ CSI_END);
        EvOutput 7 7 0 true [120; 121]].
Proof. vm_compute. reflexivity. Qed.

(** ** Limits *)

(** A tag that is too long is written past the end of the line buffer: with nothing
    mapped after the buffer the call does not return. *)
Theorem ulog_header_overruns : ulog_header 0 0 LOG_LVL_INFO (replicate 120 65) (memory_of 0 (replicate 128 0)) = None.
Proof. vm_compute. reflexivity. Qed.

(** A backend without colors makes every debug log and every raw log read through a null
    pointer: debug logs have no color. *)
Theorem backend_loop_null b bs tag is_raw m log size tr : support_color b = false ->
  backend_loop (b :: bs) LOG_LVL_DBG tag is_raw m log size tr = None.
Proof. intros Hb. simpl. by rewrite Hb. Qed.

(** Two backends without colors: the second one is given the log without its first
    characters, because the marks are cut off twice. *)
Theorem backend_loop_cuts_twice :
  let text := CSI_START ++ [51; 50; 109] ++ [104; 101; 108; 108; 111; 32; 119; 111; 114; 108; 100; 33] ++ CSI_END in
  backend_loop [Backend 1 false false false false; Backend 2 false false false false] LOG_LVL_INFO 0 false (memory_of 0 text) 0 (len text) [] =
  Some [EvOutput 1 6 0 false [104; 101; 108; 108; 111; 32; 119; 111; 114; 108; 100; 33]; EvOutput 2 6 0 false [32; 119; 111]].
Proof. vm_compute. reflexivity. Qed.

(** The notice of a log that came between two rounds is thrown away by the reset: the
    thread waits although a log is queued. *)
Theorem ulog_async_waiting_loses_notice :
  snd <$> ulog_async_waiting_log 0 RT_WAITING_FOREVER (demo_idle_obj (ISem (Sem 0 1))) = Some Blocked.
Proof. vm_compute. reflexivity. Qed.
