(* ===== verification/Msh.v ===== *)
(** * The command line of the shell (rt-thread/components/finsh/msh.c)

    Splitting a line into arguments, looking a command up, running it, completing a
    name. A line is a buffer of bytes, changed in place; a byte outside it gives
    [None]. What is printed and what a command does are left out. *)

From S2P Require Import Prelude.

(** ** Strings in memory *)

(** The string from the start of the buffer, up to the first 0. *)
Fixpoint c_string (b : list Z) : list Z :=
  match b with [] => [] | c :: b => if c =? 0 then [] else c :: c_string b end.
Definition string_at (b : list Z) (i : nat) : list Z := c_string (drop i b).

(** [strncmp(a, b, n) == 0]. *)
Fixpoint strncmp_eq (n : nat) (a b : list Z) : option bool :=
  match n with
  | O => Some true
  | S n =>
      x ← head a; y ← head b;
      if negb (x =? y) then Some false else if x =? 0 then Some true else strncmp_eq n (tail a) (tail b)
  end.

Definition is_blank (c : Z) : bool := (c =? 32) || (c =? 9).
Definition QUOTE : Z := 34.
Definition BACKSLASH : Z := 92.
Definition FINSH_ARG_MAX : nat := 10.

(** ** Splitting *)

(** The loops of [msh_split]; [fuel] is the length of the line. *)
Fixpoint strip_blanks (fuel length : nat) (b : list Z) (pos : nat) : option (list Z * nat) :=
  c ← b !! pos;
  if is_blank c && (pos <? length)%nat then
    match fuel with O => None | S fuel => strip_blanks fuel length (<[pos := 0]> b) (S pos) end
  else Some (b, pos).

Fixpoint skip_string (fuel length : nat) (b : list Z) (pos : nat) : option nat :=
  c ← b !! pos;
  if negb (c =? QUOTE) && (pos <? length)%nat then
    match fuel with
    | O => None
    | S fuel =>
        escaped ← (if c =? BACKSLASH then d ← b !! S pos; Some (d =? QUOTE) else Some false);
        skip_string fuel length b (if escaped : bool then S (S pos) else S pos)
    end
  else Some pos.

Fixpoint skip_word (fuel length : nat) (b : list Z) (pos : nat) : option nat :=
  c ← b !! pos;
  if negb (is_blank c) && (pos <? length)%nat then
    match fuel with O => None | S fuel => skip_word fuel length b (S pos) end
  else Some pos.

(** [argv]: the offsets of the arguments found so far. *)
Fixpoint split_loop (fuel length : nat) (b : list Z) (pos : nat) (argv : list nat) : option (list Z * list nat) :=
  if (pos <? length)%nat then
    '(b, pos) ← strip_blanks length length b pos;
    if (FINSH_ARG_MAX <=? List.length argv)%nat then Some (b, argv)
    else if (length <=? pos)%nat then Some (b, argv)
    else
      match fuel with
      | O => None
      | S fuel =>
          c ← b !! pos;
          if c =? QUOTE then
            pos' ← skip_string length length b (S pos);
            let argv := argv ++ [S pos] in
            if (length <=? pos')%nat then Some (b, argv)
            else split_loop fuel length (<[pos' := 0]> b) (S pos') argv
          else
            pos' ← skip_word length length b pos;
            let argv := argv ++ [pos] in
            if (length <=? pos')%nat then Some (b, argv) else split_loop fuel length b pos' argv
      end
  else Some (b, argv).
Definition msh_split (cmd : list Z) (length : nat) : option (list Z * list nat) := split_loop length length cmd 0 [].

(** ** Looking up and running *)

(** The commands by their names, without the prefix [__cmd_]; the functions of the
    table that are no commands are skipped. *)
Section Commands.
Context (commands : list (list Z)).

(** The number of the first command of that name. *)
Fixpoint get_cmd_from (cs : list (list Z)) (n : nat) (cmd : list Z) (size : nat) : option (option nat) :=
  match cs with
  | [] => Some None
  | name :: cs =>
      same ← strncmp_eq size (name ++ [0]) cmd;
      if same : bool then
        c ← (name ++ [0]) !! size; if c =? 0 then Some (Some n) else get_cmd_from cs (S n) cmd size
      else get_cmd_from cs (S n) cmd size
  end.
Definition msh_get_cmd (cmd : list Z) (size : nat) : option (option nat) := get_cmd_from commands 0 cmd size.

(** A command that runs, with the buffer and its arguments. *)
Inductive msh_result := MshRun (f : nat) (b : list Z) (argv : list nat) | MshNotFound | MshEmpty.

Definition _msh_exec_cmd (cmd : list Z) (length : nat) : option (option (nat * list Z * list nat)) :=
  size ← skip_word length length cmd 0;
  if (size =? 0)%nat then Some None
  else
    f ← msh_get_cmd cmd size;
    match f with
    | None => Some None
    | Some f => '(b, argv) ← msh_split cmd length; Some (match argv with [] => None | _ => Some (f, b, argv) end)
    end.

(** Leading blanks: [length] wraps below 0. *)
Fixpoint trim (fuel : nat) (cmd : list Z) (length : Z) : option (list Z * Z) :=
  c ← head cmd;
  if is_blank c then match fuel with O => None | S fuel => trim fuel (tail cmd) (u32 (length - 1)) end else Some (cmd, length).
Definition msh_exec (cmd : list Z) (length : Z) : option msh_result :=
  '(cmd, length) ← trim (List.length cmd) cmd length;
  if length =? 0 then Some MshEmpty
  else
    (* a length beyond the buffer reads past its end *)
    r ← _msh_exec_cmd cmd (Z.to_nat (Z.min length (Z.of_nat (List.length cmd))));
    Some (match r with Some (f, b, argv) => MshRun f b argv | None => MshNotFound end).

(** ** Completion *)

Fixpoint str_common (a b : list Z) : nat :=
  match a, b with x :: a, y :: b => if negb (x =? 0) && negb (y =? 0) && (x =? y) then S (str_common a b) else 0%nat | _, _ => 0%nat end.

Fixpoint is_prefix (a b : list Z) : bool :=
  match a, b with [], _ => true | x :: a, y :: b => (x =? y) && is_prefix a b | _ :: _, [] => false end.

(** The first command with the prefix, and the length that all of them share. *)
Fixpoint complete_loop (cs : list (list Z)) (prefix : list Z) (found : option (list Z)) (min_length : nat) : option (list Z) * nat :=
  match cs with
  | [] => (found, min_length)
  | name :: cs =>
      if is_prefix prefix name then
        let '(first, min_length) := if (min_length =? 0)%nat then (name, List.length name) else (default name found, min_length) in
        complete_loop cs prefix (Some first) (Nat.min (str_common first name) min_length)
      else complete_loop cs prefix found min_length
  end.

(** The buffer with the completed name; nothing is written for an empty prefix. *)
Definition msh_auto_complete (b : list Z) : option (list Z) :=
  let prefix := c_string b in
  if (List.length prefix =? 0)%nat then Some b
  else match complete_loop commands prefix None 0 with
  | (Some name, n) => if (n <=? List.length b)%nat then Some (take n name ++ drop n b) else None
  | (None, _) => Some b
  end.
End Commands.

(** ** Lines made of arguments *)

(** An argument as it is typed: a word, or text in quotes. *)
Inductive arg := Word (w : list Z) | Quoted (w : list Z).
Definition arg_text (a : arg) : list Z := match a with Word w | Quoted w => w end.
Definition arg_line (a : arg) : list Z := match a with Word w => w | Quoted w => [QUOTE] ++ w ++ [QUOTE] end.
(** A word has no blanks and does not begin with a quote; quoted text has no quotes
    and no backslash. *)
Definition arg_ok (a : arg) : Prop :=
  match a with
  | Word w => w <> [] /\ head w <> Some QUOTE /\ Forall (fun c => c <> 0 /\ is_blank c = false) w
  | Quoted w => Forall (fun c => c <> 0 /\ c <> QUOTE /\ c <> BACKSLASH) w
  end.

(** Arguments, each after some blanks. *)
Definition line_of (args : list (nat * arg)) : list Z := concat ((fun '(n, a) => replicate n 32 ++ arg_line a) <$> args).

(** The buffer after splitting, and where the arguments begin. *)
Definition split_of (args : list (nat * arg)) : list Z :=
  concat ((fun '(n, a) => replicate n 0 ++ match a with Word w => w | Quoted w => [QUOTE] ++ w ++ [0] end) <$> args).
Fixpoint offsets (pos : nat) (args : list (nat * arg)) : list nat :=
  match args with
  | [] => []
  | (n, a) :: args => (pos + n + match a with Word _ => 0 | Quoted _ => 1 end)%nat :: offsets (pos + n + length (arg_line a)) args
  end.

Lemma insert_at (p tl : list Z) x y : <[length p := x]> (p ++ y :: tl) = p ++ x :: tl.
Proof. rewrite insert_app_r_alt by lia. by rewrite Nat.sub_diag. Qed.
Lemma lookup_at (p tl : list Z) c : (p ++ c :: tl) !! length p = Some c.
Proof. by apply list_lookup_middle. Qed.

Lemma strip_blanks_spec n : forall fuel len (p tl : list Z) c, is_blank c = false -> (n <= fuel)%nat -> (length p + n <= len)%nat ->
  strip_blanks fuel len (p ++ replicate n 32 ++ c :: tl) (length p) = Some (p ++ replicate n 0 ++ c :: tl, (length p + n)%nat).
Proof.
  induction n as [|n IH]; intros fuel len p tl c Hc Hf Hl; cbn [replicate app].
  - rewrite Nat.add_0_r. destruct fuel; cbn [strip_blanks]; rewrite lookup_at; simpl; by rewrite Hc.
  - destruct fuel as [|fuel]; [lia|]. cbn [strip_blanks]. rewrite lookup_at. cbn [mbind option_bind is_blank].
    rewrite (proj2 (Nat.ltb_lt (length p) len)) by lia. cbn [andb]. change (is_blank 32 && true) with true. cbv iota. rewrite insert_at.
    pose proof (IH fuel len (p ++ [0]) tl c Hc ltac:(lia)) as E. rewrite length_app, <-!app_assoc in E. simpl in E.
    rewrite Nat.add_1_r in E. rewrite E by lia. do 2 f_equal. lia.
Qed.

Lemma skip_word_spec w : forall fuel len (p tl : list Z) c, Forall (fun c => is_blank c = false) w -> (length w <= fuel)%nat ->
  is_blank c = true \/ len = (length p + length w)%nat -> (length p + length w <= len)%nat ->
  skip_word fuel len (p ++ w ++ c :: tl) (length p) = Some (length p + length w)%nat.
Proof.
  induction w as [|d w IH]; intros fuel len p tl c Hw Hf He Hl; cbn [app length] in *.
  - rewrite Nat.add_0_r in *. assert (negb (is_blank c) && (length p <? len)%nat = false) as E.
    { destruct He as [->| ->]; [done|]. by rewrite Nat.ltb_irrefl, andb_false_r. }
    destruct fuel; cbn [skip_word]; rewrite lookup_at; cbn [mbind option_bind]; by rewrite E.
  - destruct fuel as [|fuel]; [lia|]. apply Forall_cons in Hw as [Hd Hw]. cbn [skip_word]. rewrite lookup_at. cbn [mbind option_bind].
    rewrite Hd, (proj2 (Nat.ltb_lt (length p) len)) by lia. cbn [negb andb].
    pose proof (IH fuel len (p ++ [d]) tl c Hw ltac:(lia)) as E. rewrite length_app, <-!app_assoc in E. simpl in E.
    rewrite Nat.add_1_r in E. rewrite E; [f_equal; lia| |lia]. destruct He as [?|?]; [by left|right; lia].
Qed.

Lemma skip_string_spec w : forall fuel len (p tl : list Z), Forall (fun c => c <> 0 /\ c <> QUOTE /\ c <> BACKSLASH) w -> (length w <= fuel)%nat ->
  (length p + length w < len)%nat -> skip_string fuel len (p ++ w ++ QUOTE :: tl) (length p) = Some (length p + length w)%nat.
Proof.
  induction w as [|d w IH]; intros fuel len p tl Hw Hf Hl; cbn [app length] in *.
  - rewrite Nat.add_0_r. destruct fuel; cbn [skip_string]; rewrite lookup_at; done.
  - destruct fuel as [|fuel]; [lia|]. apply Forall_cons in Hw as [(_&Hq&Hb) Hw]. cbn [skip_string]. rewrite lookup_at. cbn [mbind option_bind].
    rewrite (proj2 (Z.eqb_neq _ _) Hq), (proj2 (Z.eqb_neq _ _) Hb), (proj2 (Nat.ltb_lt (length p) len)) by lia. cbn [negb andb mbind option_bind].
    pose proof (IH fuel len (p ++ [d]) tl Hw ltac:(lia)) as E. rewrite length_app, <-!app_assoc in E. simpl in E.
    rewrite Nat.add_1_r in E. rewrite E; [f_equal; lia|lia].
Qed.

Lemma arg_line_head a : arg_ok a -> exists c l, arg_line a = c :: l /\ is_blank c = false /\ (c =? QUOTE) = match a with Word _ => false | Quoted _ => true end.
Proof.
  destruct a as [w|w]; simpl.
  - intros (Hne&Hq&Hw). destruct w as [|c w]; [done|]. apply Forall_cons in Hw as [[_ Hb] _]. exists c, w. split_and!; [done|done|].
    apply Z.eqb_neq. intros ->. by apply Hq.
  - intros _. by exists QUOTE, (w ++ [QUOTE]).
Qed.

Lemma split_loop_line args : forall fuel (pre rest : list Z) argv, Forall (arg_ok ∘ snd) args -> Forall (fun x => (1 <= x.1)%nat) (tail args) ->
  (length args <= fuel)%nat -> (length argv + length args <= FINSH_ARG_MAX)%nat ->
  split_loop fuel (length pre + length (line_of args)) (pre ++ line_of args ++ 0 :: rest) (length pre) argv =
    Some (pre ++ split_of args ++ 0 :: rest, argv ++ offsets (length pre) args).
Proof.
  induction args as [|[n a] args IH]; intros fuel pre rest argv Hok Hb Hf Hm.
  { simpl. rewrite Nat.add_0_r, app_nil_r. destruct fuel; cbn [split_loop]; by rewrite Nat.ltb_irrefl. }
  destruct fuel as [|fuel]; [simpl in Hf; lia|]. apply Forall_cons in Hok as [Ha Hok]. simpl in Ha, Hb, Hf, Hm.
  destruct (arg_line_head a Ha) as (c&l&El&Hc&Hq). set (len := (length pre + length (line_of ((n, a) :: args)))%nat).
  assert (line_of ((n, a) :: args) = replicate n 32 ++ arg_line a ++ line_of args) as Eline by (unfold line_of; simpl; by rewrite <-app_assoc).
  assert (len = length pre + n + length (arg_line a) + length (line_of args))%nat as Elen
    by (unfold len; rewrite Eline, !length_app, length_replicate; lia).
  assert (match args with [] => True | _ => exists d tl, line_of args = d :: tl /\ is_blank d = true end) as Hnext.
  { destruct args as [|[m b] args]; [done|]. apply Forall_cons in Hb as [Hm1 _]. simpl in Hm1. destruct m as [|m]; [lia|].
    unfold line_of. simpl. by eexists _, _. }
  cbn [split_loop]. rewrite (proj2 (Nat.ltb_lt (length pre) len)) by (rewrite Elen, El; simpl; lia).
  rewrite Eline, <-!app_assoc, El. cbn [app]. rewrite strip_blanks_spec by (done || lia). cbn [mbind option_bind].
  rewrite (proj2 (Nat.leb_gt FINSH_ARG_MAX (length argv))) by lia.
  rewrite (proj2 (Nat.leb_gt len (length pre + n))) by (rewrite Elen, El; simpl; lia).
  set (p := pre ++ replicate n 0). assert (length p = length pre + n)%nat as Ep by (unfold p; rewrite length_app, length_replicate; done).
  rewrite (app_assoc pre (replicate n 0)). fold p. rewrite <-Ep, lookup_at. cbn [mbind option_bind]. rewrite Hq.
  assert (Forall (fun x : nat * arg => (1 <= x.1)%nat) (tail args)) as Hb' by (destruct args; [done|by apply Forall_cons in Hb as [_ ?]]).
  destruct a as [w|w]; simpl in El, Ha.
  - simpl arg_line in Elen. destruct Ha as (_&_&Hw). change (c :: l ++ line_of args ++ 0 :: rest) with ((c :: l) ++ line_of args ++ 0 :: rest). rewrite <-El. clear c l El Hc Hq.
    assert (exists d tl, line_of args ++ 0 :: rest = d :: tl /\ (is_blank d = true \/ len = (length p + length w)%nat)) as (d&tl&Ed&Hd).
    { destruct args as [|x args]; [exists 0, rest; split; [done|right; rewrite Elen; simpl; lia]|]. destruct Hnext as (d&tl&->&?). eauto. }
    rewrite Ed, skip_word_spec; [|eapply Forall_impl; [exact Hw|by intros ? [_ ?]]|lia|done|lia]. rewrite <-Ed. cbn [mbind option_bind].
    destruct args as [|x args].
    + rewrite (proj2 (Nat.leb_le len _)) by (rewrite Elen; simpl; lia). rewrite Ep. unfold split_of, p. simpl. rewrite app_nil_r, <-!app_assoc, Nat.add_0_r. done.
    + rewrite (proj2 (Nat.leb_gt len _)) by (rewrite Elen; destruct Hnext as (?&?&->&_); simpl; lia).
      pose proof (IH fuel (p ++ w) rest (argv ++ [length p]) Hok) as E. rewrite (length_app p w), <-!app_assoc in E.
      replace (length p + length w + length (line_of (x :: args)))%nat with len in E by (rewrite Elen; simpl; lia). rewrite E; [|done|lia|rewrite length_app; simpl in *; lia].
      rewrite Ep. unfold split_of, p. simpl. rewrite <-!app_assoc, Nat.add_0_r. done.
  - injection El as <- <-. clear Hc Hq. cbn [arg_line app length] in Elen. rewrite length_app in Elen. cbn [length] in Elen.
    assert (length (p ++ [QUOTE]) = S (length p)) as Eq by (rewrite length_app; simpl; lia).
    replace (p ++ QUOTE :: (w ++ [QUOTE]) ++ line_of args ++ 0 :: rest) with ((p ++ [QUOTE]) ++ w ++ QUOTE :: line_of args ++ 0 :: rest) by (rewrite <-!app_assoc; done).
    rewrite <-Eq, skip_string_spec by (done || lia). cbn [mbind option_bind]. rewrite (proj2 (Nat.leb_gt len _)) by lia.
    set (p2 := (p ++ [QUOTE]) ++ w). replace (length (p ++ [QUOTE]) + length w)%nat with (length p2) by (unfold p2; rewrite (length_app (p ++ _)); done).
    rewrite app_assoc. fold p2. rewrite insert_at.
    pose proof (IH fuel (p2 ++ [0]) rest (argv ++ [length (p ++ [QUOTE])]) Hok Hb') as E. rewrite (length_app p2), <-!app_assoc in E. cbn [length app] in E. rewrite Nat.add_1_r in E.
    assert (length p2 = S (length p + length w)) as E2 by (unfold p2; rewrite (length_app (p ++ _)), Eq; lia).
    replace (S (length p2) + length (line_of args))%nat with len in E by lia. rewrite E; [|lia|rewrite length_app; simpl; lia].
    unfold p2, split_of, p. simpl. rewrite <-!app_assoc. simpl. do 3 f_equal; [do 2 f_equal; rewrite <-!app_assoc; done|].
    f_equal; [rewrite !length_app, length_replicate; simpl; lia|f_equal; rewrite !length_app, length_replicate; simpl; lia].
Qed.

Lemma c_string_app w tl : Forall (fun c => c <> 0) w -> c_string (w ++ 0 :: tl) = w.
Proof. induction 1 as [|c w Hc _ IH]; simpl; [done|]. by rewrite (proj2 (Z.eqb_neq _ _) Hc), IH. Qed.

Lemma string_at_app (pre w tl : list Z) : Forall (fun c => c <> 0) w -> string_at (pre ++ w ++ 0 :: tl) (length pre) = w.
Proof. intros Hw. unfold string_at. rewrite drop_app_length. by apply c_string_app. Qed.

(** After the first argument the buffer goes on with a 0. *)
Lemma split_of_head args (rest : list Z) : Forall (fun x => (1 <= x.1)%nat) args -> exists tl, split_of args ++ 0 :: rest = 0 :: tl.
Proof.
  destruct 1 as [|[n a] args Hn _]; [by exists rest|]. simpl in Hn. destruct n as [|n]; [lia|]. unfold split_of. simpl. by eexists.
Qed.

Lemma split_of_strings args : forall (pre rest : list Z), Forall (arg_ok ∘ snd) args -> Forall (fun x => (1 <= x.1)%nat) (tail args) ->
  string_at (pre ++ split_of args ++ 0 :: rest) <$> offsets (length pre) args = arg_text ∘ snd <$> args.
Proof.
  induction args as [|[n a] args IH]; intros pre rest Hok Hb; [done|]. apply Forall_cons in Hok as [Ha Hok]. simpl in Ha, Hb.
  assert (Forall (fun x : nat * arg => (1 <= x.1)%nat) (tail args)) as Hb' by (destruct args; [done|by apply Forall_cons in Hb as [_ ?]]).
  destruct (split_of_head args rest Hb) as [tl Etl]. set (p := pre ++ replicate n 0).
  assert (length p = length pre + n)%nat as Ep by (unfold p; by rewrite length_app, length_replicate).
  destruct a as [w|w]; cbn [offsets fmap list_fmap arg_line arg_text compose snd].
  - destruct Ha as (_&_&Hw). rewrite Nat.add_0_r, <-Ep.
    assert (pre ++ split_of ((n, Word w) :: args) ++ 0 :: rest = p ++ w ++ split_of args ++ 0 :: rest) as ->
      by (unfold p, split_of; simpl; by rewrite <-!app_assoc).
    f_equal.
    + rewrite Etl. apply string_at_app. eapply Forall_impl; [exact Hw|by intros ? [? _]].
    + rewrite app_assoc, <-length_app. by apply IH.
  - rewrite <-Ep.
    assert (pre ++ split_of ((n, Quoted w) :: args) ++ 0 :: rest = ((p ++ [QUOTE]) ++ w) ++ [0] ++ split_of args ++ 0 :: rest) as E
      by (unfold p, split_of; simpl; rewrite <-!app_assoc; simpl; by rewrite <-!app_assoc).
    rewrite E. f_equal.
    + rewrite <-(app_assoc (p ++ [QUOTE])). replace (length p + 1)%nat with (length (p ++ [QUOTE])) by (rewrite length_app; done).
      apply string_at_app. eapply Forall_impl; [exact Ha|by intros ? [? _]].
    + rewrite app_assoc. replace (length p + length ([QUOTE] ++ w ++ [QUOTE]))%nat with (length (((p ++ [QUOTE]) ++ w) ++ [0]))
        by (rewrite !length_app; simpl; lia). by apply IH.
Qed.

(** Splitting a line gives back the arguments it was typed from. *)
Lemma msh_split_line args (rest : list Z) : Forall (arg_ok ∘ snd) args -> Forall (fun x => (1 <= x.1)%nat) (tail args) ->
  (length args <= FINSH_ARG_MAX)%nat ->
  exists line' argv, msh_split (line_of args ++ 0 :: rest) (length (line_of args)) = Some (line' ++ 0 :: rest, argv) /\
    length line' = length (line_of args) /\ length argv = length args /\ string_at (line' ++ 0 :: rest) <$> argv = arg_text ∘ snd <$> args.
Proof.
  intros Hok Hb Hn. exists (split_of args), (offsets 0 args). unfold msh_split. split_and!.
  - apply (split_loop_line args _ [] rest []); [done..|clear Hn|simpl; lia].
    clear Hb. induction args as [|[n a] args IH]; [simpl; lia|]. apply Forall_cons in Hok as [Ha Hok].
    destruct (arg_line_head a Ha) as (c&l&E&_). specialize (IH Hok).
    change (line_of ((n, a) :: args)) with ((replicate n 32 ++ arg_line a) ++ line_of args). rewrite !length_app, E. simpl in *. lia.
  - clear. induction args as [|[n a] args IH]; [done|].
    change (line_of ((n, a) :: args)) with ((replicate n 32 ++ arg_line a) ++ line_of args).
    change (split_of ((n, a) :: args)) with ((replicate n 0 ++ match a with Word w => w | Quoted w => [QUOTE] ++ w ++ [0] end) ++ split_of args).
    rewrite !length_app, IH, !length_replicate. destruct a; simpl; rewrite ?length_app; simpl; lia.
  - clear. generalize 0%nat. induction args as [|[n a] args IH]; intros pos; simpl; [done|]. by rewrite IH.
  - apply (split_of_strings args [] rest); done.
Qed.

(** ** Looking a command up *)

Definition text_ok (w : list Z) : Prop := Forall (fun c => c <> 0) w.

Lemma strncmp_eq_spec n : forall a b, text_ok a -> (n <= length b)%nat -> text_ok (take n b) ->
  exists r, strncmp_eq n (a ++ [0]) b = Some r /\ (r = true <-> take n a = take n b).
Proof.
  induction n as [|n IH]; intros a b Ha Hn Hb; [by exists true|]. destruct b as [|y b]; simpl in Hn, Hb; [lia|]. apply Forall_cons in Hb as [Hy Hb].
  destruct a as [|x a]; simpl.
  - exists false. destruct y; [done|split; [done|split; done]..].
  - apply Forall_cons in Ha as [Hx Ha]. destruct (Z.eqb_spec x y) as [->|Hne]; simpl; [|exists false; split; [done|]; split; [done|congruence]].
    rewrite (proj2 (Z.eqb_neq y 0)) by done. destruct (IH a b Ha ltac:(lia) Hb) as (r&E&Hr). exists r. split; [exact E|]. rewrite Hr. split; [by intros ->|by intros [= ->]].
Qed.

(** The number of a command. *)
Definition command_number (commands : list (list Z)) (w : list Z) : option nat := fst <$> list_find (eq w) commands.

Lemma get_cmd_from_spec cs w (rest : list Z) : Forall text_ok cs -> text_ok w -> forall n,
  get_cmd_from cs n (w ++ rest) (length w) = Some ((fun i => (n + i)%nat) <$> command_number cs w).
Proof.
  intros Hcs Hw. unfold command_number. induction cs as [|name cs IH]; intros n; [done|]. apply Forall_cons in Hcs as [Hn Hcs]. cbn [get_cmd_from].
  destruct (strncmp_eq_spec (length w) name (w ++ rest) Hn) as (r&->&Hr); [rewrite length_app; lia|by rewrite take_app_length|].
  rewrite take_app_length in Hr. cbn [mbind option_bind list_find].
  assert (get_cmd_from cs (S n) (w ++ rest) (length w) = Some ((fun i => (n + i)%nat) <$> (fst <$> (prod_map S id <$> list_find (eq w) cs)))) as EIH.
  { rewrite IH by done. destruct (list_find (eq w) cs) as [[i x]|]; simpl; [|done]. do 2 f_equal. lia. }
  destruct (decide (w = name)) as [<-|Hne].
  - rewrite (proj2 Hr) by apply firstn_all. rewrite lookup_app_r, Nat.sub_diag by lia. simpl. by rewrite Nat.add_0_r.
  - destruct r; [|exact EIH]. assert (take (length w) name = w) as Et by (by apply Hr).
    destruct (drop (length w) name) as [|c l] eqn:Ed; [exfalso; apply Hne; by rewrite <-(take_drop (length w) name), Ed, app_nil_r|].
    assert (name = w ++ c :: l) as -> by (rewrite <-(take_drop (length w) name), Et, Ed; done).
    apply Forall_app in Hn as [_ [Hc _]%Forall_cons]. rewrite <-app_assoc, lookup_app_r, Nat.sub_diag by lia. cbn [app lookup list_lookup mbind option_bind].
    rewrite (proj2 (Z.eqb_neq c 0)) by done. exact EIH.
Qed.

Lemma trim_spec n : forall fuel (tl : list Z) len, is_blank (default 0 (head tl)) = false -> tl <> [] -> (n <= fuel)%nat -> Z.of_nat n <= len < 4294967296 ->
  trim fuel (replicate n 32 ++ tl) len = Some (tl, len - Z.of_nat n).
Proof.
  induction n as [|n IH]; intros fuel tl len Hb Hne Hf Hl; simpl.
  - destruct tl as [|c tl]; [done|]. simpl in Hb. destruct fuel; simpl; rewrite Hb; by rewrite Z.sub_0_r.
  - destruct fuel as [|fuel]; [lia|]. simpl. rewrite u32_small by (unfold is_u32; lia). rewrite IH by (done || lia). do 2 f_equal. lia.
Qed.

(** C34: a command line runs what was typed. For a line of at most ten arguments, each a
    word without blanks or a text in quotes, with any number of blanks before them, at
    least one between two, of which the first is a word: [msh_exec] runs the first command
    of that name, with as many arguments as were typed and their texts in order, or
    reports that there is none. *)
Theorem msh_exec_runs commands args n w (rest : list Z) : Forall text_ok commands -> Forall (arg_ok ∘ snd) args ->
  Forall (fun x => (1 <= x.1)%nat) (tail args) -> (length args <= FINSH_ARG_MAX)%nat -> head args = Some (n, Word w) ->
  Z.of_nat (length (line_of args)) < 4294967296 ->
  exists line' argv, length argv = length args /\ string_at (line' ++ 0 :: rest) <$> argv = arg_text ∘ snd <$> args /\
    msh_exec commands (line_of args ++ 0 :: rest) (Z.of_nat (length (line_of args))) =
      Some (match command_number commands w with Some f => MshRun f (line' ++ 0 :: rest) argv | None => MshNotFound end).
Proof.
  intros Hcs Hok Hb Hn Hhd Hlen. destruct args as [|x args]; [done|]. injection Hhd as ->.
  set (args' := (0%nat, Word w) :: args). pose proof Hok as [Ha Hok']%Forall_cons. simpl in Ha. destruct Ha as (Hne&Hq&Hw).
  destruct (msh_split_line args' rest) as (line'&argv&Hs&_&Hla&Hst); [by apply Forall_cons|done|done|].
  exists line', argv. split; [done|]. split; [exact Hst|].
  assert (line_of ((n, Word w) :: args) = replicate n 32 ++ line_of args') as El.
  { unfold line_of, args'. simpl. by rewrite <-app_assoc. }
  assert (line_of args' = w ++ line_of args) as El' by (unfold line_of, args'; done).
  rewrite El, length_app, length_replicate in Hlen |- *. unfold msh_exec. rewrite <-app_assoc.
  assert (exists c l, w = c :: l /\ is_blank c = false) as (c&l&Ew&Hc).
  { destruct w as [|c l]; [done|]. apply Forall_cons in Hw as [[_ Hc] _]. by exists c, l. }
  rewrite trim_spec; [|by rewrite El', Ew|by rewrite El', Ew|rewrite !length_app, length_replicate; lia|lia].
  cbn [mbind option_bind]. replace (Z.of_nat (n + length (line_of args')) - Z.of_nat n) with (Z.of_nat (length (line_of args'))) by lia.
  rewrite (proj2 (Z.eqb_neq _ 0)) by (rewrite El', Ew; simpl; lia).
  rewrite length_app, Z.min_l, Nat2Z.id by lia. unfold _msh_exec_cmd.
  assert (skip_word (length (line_of args')) (length (line_of args')) (line_of args' ++ 0 :: rest) 0 = Some (length w)) as ->.
  { rewrite El'. set (len := length (w ++ line_of args)). assert (len = length w + length (line_of args))%nat as Elen by (unfold len; by rewrite length_app).
    assert (exists d tl, line_of args ++ 0 :: rest = d :: tl /\ (is_blank d = true \/ len = (length (@nil Z) + length w)%nat)) as (d&tl&Ed&Hd).
    { destruct args as [|[m a] args]; [exists 0, rest; split; [done|right; rewrite Elen; simpl; lia]|]. apply Forall_cons in Hb as [Hm _]. simpl in Hm.
      destruct m as [|m]; [lia|]. unfold line_of. simpl. eexists _, _. split; [done|by left]. }
    rewrite <-app_assoc, Ed. apply (skip_word_spec w len len []); [eapply Forall_impl; [exact Hw|by intros ? [_ ?]]|lia|done|simpl; lia]. }
  cbn [mbind option_bind]. rewrite (proj2 (Nat.eqb_neq (length w) 0)) by (rewrite Ew; done). unfold msh_get_cmd.
  assert (text_ok w) as Htw by (eapply Forall_impl; [exact Hw|by intros ? [? _]]).
  rewrite El' at 1. rewrite <-app_assoc, get_cmd_from_spec by done. cbn [mbind option_bind].
  destruct (command_number commands w) as [f|]; simpl; [|done]. rewrite Hs. cbn [mbind option_bind]. destruct argv; [done|]. done.
Qed.

(** [  echo "a b"   x] with the commands [ec] and [echo]. *)
Definition demo_args : list (nat * arg) := [(2%nat, Word [101; 99; 104; 111]); (1%nat, Quoted [97; 32; 98]); (3%nat, Word [120])].
Definition demo_commands : list (list Z) := [[101; 99]; [101; 99; 104; 111]].
Example msh_exec_runs_witness : exists line' argv, length argv = 3%nat /\
  string_at (line' ++ [0]) <$> argv = [[101; 99; 104; 111]; [97; 32; 98]; [120]] /\
  msh_exec demo_commands (line_of demo_args ++ [0]) (Z.of_nat (length (line_of demo_args))) = Some (MshRun 1 (line' ++ [0]) argv).
Proof.
  assert (Forall (arg_ok ∘ snd) demo_args) as H.
  { repeat constructor; simpl; repeat split; try done; repeat constructor; done. }
  apply (msh_exec_runs demo_commands demo_args 2 [101; 99; 104; 111] []); [repeat constructor; done|exact H|repeat constructor|unfold FINSH_ARG_MAX; simpl; lia|done|vm_compute; done].
Defined.

(** ** Every line is handled *)

(** The buffer keeps its length and the 0 at [length]. *)
Definition line_at (length : nat) (b : list Z) : Prop := b !! length = Some 0.

Lemma line_at_byte n b i : line_at n b -> (i <= n)%nat -> is_Some (b !! i).
Proof. intros H Hi. apply lookup_lt_is_Some_2. apply lookup_lt_Some in H. lia. Qed.
Lemma line_at_insert n b i x : line_at n b -> (i < n)%nat -> line_at n (<[i := x]> b).
Proof. intros H Hi. unfold line_at. by rewrite list_lookup_insert_ne by lia. Qed.

Lemma strip_blanks_total n fuel : forall b pos, line_at n b -> (pos <= n)%nat -> (n - pos <= fuel)%nat ->
  exists b' pos', strip_blanks fuel n b pos = Some (b', pos') /\ line_at n b' /\ (pos <= pos' <= n)%nat /\
    ((pos' < n)%nat -> exists c, b' !! pos' = Some c /\ is_blank c = false).
Proof.
  induction fuel as [|fuel IH]; intros b pos Hb Hp Hf; cbn [strip_blanks]; destruct (line_at_byte n b pos Hb Hp) as [c Ec]; rewrite Ec; cbn [mbind option_bind].
  - rewrite (proj2 (Nat.ltb_ge _ _)), andb_false_r by lia. exists b, pos. split_and!; (done || lia).
  - destruct (is_blank c) eqn:Eb, (Nat.ltb_spec pos n); cbn [andb]; try (exists b, pos; split_and!; (done || lia || (intros; by exists c))).
    destruct (IH (<[pos := 0]> b) (S pos)) as (b'&pos'&->&Hb'&Hp'&Hc); [by apply line_at_insert|lia..|]. exists b', pos'. split_and!; (done || lia).
Qed.

Lemma skip_word_total n fuel : forall b pos, line_at n b -> (pos <= n)%nat -> (n - pos <= fuel)%nat ->
  exists pos', skip_word fuel n b pos = Some pos' /\ (pos <= pos' <= n)%nat /\ ((pos < n)%nat -> (forall c, b !! pos = Some c -> is_blank c = false) -> (pos < pos')%nat).
Proof.
  induction fuel as [|fuel IH]; intros b pos Hb Hp Hf; cbn [skip_word]; destruct (line_at_byte n b pos Hb Hp) as [c Ec]; rewrite Ec; cbn [mbind option_bind].
  - rewrite (proj2 (Nat.ltb_ge _ _)), andb_false_r by lia. exists pos. split_and!; (done || lia).
  - destruct (is_blank c) eqn:Eb; cbn [negb andb]; [exists pos; split_and!; [done|lia|lia|]; intros _ H; by rewrite (H c) in Eb|].
    destruct (Nat.ltb_spec pos n); [|exists pos; split_and!; (done || lia)].
    destruct (IH b (S pos) Hb) as (pos'&->&Hp'&_); [lia..|]. exists pos'. split_and!; (done || lia).
Qed.

Lemma skip_string_total n fuel : forall b pos, line_at n b -> (pos <= n)%nat -> (n - pos <= fuel)%nat ->
  exists pos', skip_string fuel n b pos = Some pos' /\ (pos <= pos' <= n)%nat.
Proof.
  induction fuel as [|fuel IH]; intros b pos Hb Hp Hf; cbn [skip_string]; destruct (line_at_byte n b pos Hb Hp) as [c Ec]; rewrite Ec; cbn [mbind option_bind].
  - rewrite (proj2 (Nat.ltb_ge _ _)), andb_false_r by lia. exists pos. split; [done|lia].
  - destruct (c =? QUOTE); cbn [negb andb]; [exists pos; split; [done|lia]|]. destruct (Nat.ltb_spec pos n); [|exists pos; split; [done|lia]].
    destruct (line_at_byte n b (S pos) Hb) as [d Ed]; [lia|].
    destruct (c =? BACKSLASH); cbn [mbind option_bind].
    + rewrite Ed. cbn [mbind option_bind]. destruct (Z.eqb_spec d QUOTE) as [->|_].
      * assert (S pos <> n) by (intros E; rewrite E in Ed; unfold line_at in Hb; rewrite Hb in Ed; discriminate Ed).
        destruct (IH b (S (S pos)) Hb) as (pos'&->&Hp'); [lia..|]. exists pos'. split; [done|lia].
      * destruct (IH b (S pos) Hb) as (pos'&->&Hp'); [lia..|]. exists pos'. split; [done|lia].
    + destruct (IH b (S pos) Hb) as (pos'&->&Hp'); [lia..|]. exists pos'. split; [done|lia].
Qed.

Lemma split_loop_total n fuel : forall b pos argv, line_at n b -> (pos <= n)%nat -> (n - pos <= fuel)%nat -> is_Some (split_loop fuel n b pos argv).
Proof.
  induction fuel as [|fuel IH]; intros b pos argv Hb Hp Hf; cbn [split_loop]; (destruct (Nat.ltb_spec pos n); [|eauto]); [lia|].
  destruct (strip_blanks_total n n b pos Hb) as (b1&p1&->&Hb1&Hp1&Hc); [lia..|]. cbn [mbind option_bind].
  destruct (Nat.leb_spec FINSH_ARG_MAX (length argv)); [eauto|]. destruct (Nat.leb_spec n p1); [eauto|]. destruct (Hc ltac:(lia)) as (c&Ec&Hnb).
  rewrite Ec. cbn [mbind option_bind]. destruct (c =? QUOTE).
  - destruct (skip_string_total n n b1 (S p1) Hb1) as (p2&->&Hp2); [lia..|]. cbn [mbind option_bind]. destruct (Nat.leb_spec n p2); [eauto|].
    apply IH; [by apply line_at_insert; [|lia]|lia..].
  - destruct (skip_word_total n n b1 p1 Hb1) as (p2&->&Hp2&Hs); [lia..|]. cbn [mbind option_bind]. destruct (Nat.leb_spec n p2); [eauto|].
    assert (p1 < p2)%nat by (apply Hs; [lia|intros d Hd; rewrite Ec in Hd; by injection Hd as <-]). apply IH; [done|lia..].
Qed.

Lemma trim_total w (rest : list Z) : forall fuel, text_ok w -> (length w <= fuel)%nat -> Z.of_nat (length w) < 4294967296 ->
  exists tl, text_ok tl /\ trim fuel (w ++ 0 :: rest) (Z.of_nat (length w)) = Some (tl ++ 0 :: rest, Z.of_nat (length tl)).
Proof.
  induction w as [|c w IH]; intros fuel Hw Hf Hl.
  - exists []. split; [done|]. by destruct fuel.
  - pose proof Hw as [_ Hw']%Forall_cons. destruct fuel as [|fuel]; [simpl in Hf; lia|]. cbn [app trim head hd_error mbind option_bind].
    destruct (is_blank c); [|exists (c :: w); done]. cbn [tail]. cbn [length] in Hf, Hl.
    replace (u32 (Z.of_nat (length (c :: w)) - 1)) with (Z.of_nat (length w)) by (cbn [length]; word). apply IH; [done|lia..].
Qed.

Lemma msh_exec_total commands w (rest : list Z) : Forall text_ok commands -> text_ok w -> Z.of_nat (length w) < 4294967296 ->
  is_Some (msh_exec commands (w ++ 0 :: rest) (Z.of_nat (length w))).
Proof.
  intros Hcs Hw Hl. unfold msh_exec. destruct (trim_total w rest (length (w ++ 0 :: rest)) Hw) as (tl&Htl&->); [rewrite length_app; lia|done|].
  cbn [mbind option_bind]. destruct (Z.of_nat (length tl) =? 0); [eauto|]. rewrite length_app. rewrite Z.min_l, Nat2Z.id by lia.
  set (b := tl ++ 0 :: rest). assert (line_at (length tl) b) as Hb by apply list_lookup_middle, eq_refl. unfold _msh_exec_cmd.
  destruct (skip_word_total (length tl) (length tl) b 0 Hb) as (size&->&Hs&_); [lia..|]. cbn [mbind option_bind].
  destruct (size =? 0)%nat; [by eexists|]. unfold msh_get_cmd.
  assert (b = take size tl ++ (drop size tl ++ 0 :: rest)) as Eb by (unfold b; by rewrite app_assoc, take_drop).
  assert (get_cmd_from commands 0 b size = Some ((fun i => i) <$> command_number commands (take size tl))) as ->.
  { rewrite Eb. assert (length (take size tl) = size) as El by (rewrite length_take; lia). rewrite <-El at 3. apply get_cmd_from_spec; [done|by apply Forall_take]. }
  cbn [mbind option_bind]. destruct (command_number commands (take size tl)); simpl; [|by eexists].
  unfold msh_split. destruct (split_loop_total (length tl) (length tl) b 0 [] Hb) as [[b' argv] ->]; [lia..|]. simpl. by destruct argv.
Qed.

(** ** Completion *)

(** The text after completion. *)
Definition completed (commands : list (list Z)) (w : list Z) : list Z :=
  match w with [] => [] | _ => match complete_loop commands w None 0 with (Some name, n) => take n name | (None, _) => w end end.

Lemma is_prefix_spec a b : is_prefix a b = true <-> a `prefix_of` b.
Proof.
  revert b. induction a as [|x a IH]; intros b; simpl; [split; [intros _; apply prefix_nil|done]|]. destruct b as [|y b].
  - split; [done|intros [k H]; discriminate H].
  - rewrite andb_true_iff, Z.eqb_eq, IH. split; [intros [-> H]; by apply prefix_cons|]. intros [k Hk]. injection Hk as -> ->. split; [done|by exists k].
Qed.

Lemma str_common_prefix p a b : text_ok p -> p `prefix_of` a -> p `prefix_of` b -> (length p <= str_common a b)%nat.
Proof.
  intros Hp [a' ->] [b' ->]. induction Hp as [|c p Hc _ IH]; simpl; [lia|]. rewrite (proj2 (Z.eqb_neq c 0)), Z.eqb_refl by done. simpl. lia.
Qed.
Lemma str_common_le a b : (str_common a b <= length a)%nat.
Proof. revert b. induction a as [|x a IH]; intros [|y b]; simpl; try lia. destruct (_ && _); [|lia]. specialize (IH b). lia. Qed.

(** The first match and the number of characters all matches share. *)
Lemma complete_loop_spec cs w : text_ok w -> w <> [] -> Forall text_ok cs -> forall found n,
  match found with None => n = 0%nat | Some name => text_ok name /\ w `prefix_of` name /\ (length w <= n <= length name)%nat end ->
  match complete_loop cs w found n with
  | (Some name, k) => text_ok name /\ w `prefix_of` name /\ (length w <= k <= length name)%nat
  | (None, _) => True
  end.
Proof.
  intros Hw Hne Hcs. induction cs as [|name cs IH]; intros found n Hf; simpl; [by destruct found|]. apply Forall_cons in Hcs as [Hn Hcs].
  destruct (is_prefix w name) eqn:Ep; [|by apply IH]. apply is_prefix_spec in Ep. pose proof (prefix_length _ _ Ep) as Hl.
  destruct (Nat.eqb_spec n 0) as [->|Hn0].
  - apply IH; [done|]. pose proof (str_common_prefix w name name Hw Ep Ep). split_and!; [done|done|lia|lia].
  - destruct found as [first|]; [|lia]. destruct Hf as (Hft&Hfp&Hfn). simpl. apply IH; [done|].
    pose proof (str_common_prefix w first name Hw Hfp Ep). split_and!; [done|done|lia|lia].
Qed.

Lemma c_string_pad w n (rest : list Z) : text_ok w -> c_string (w ++ replicate (S n) 0 ++ rest) = w.
Proof. intros Hw. by apply c_string_app. Qed.

(** On a line that ends in zeros the completed text takes the place of the prefix. *)
Lemma msh_auto_complete_spec commands w k (rest : list Z) : Forall text_ok commands -> text_ok w -> (length (completed commands w) <= length w + k)%nat ->
  msh_auto_complete commands (w ++ replicate (S k) 0 ++ rest) =
    Some (completed commands w ++ replicate (length w + S k - length (completed commands w)) 0 ++ rest) /\
  text_ok (completed commands w) /\ (length w <= length (completed commands w))%nat.
Proof.
  intros Hcs Hw Hl. unfold msh_auto_complete. rewrite c_string_pad by done. unfold completed in *. destruct w as [|c w]; [simpl in *; split_and!; [done|constructor|lia]|].
  set (p := c :: w) in *. rewrite (proj2 (Nat.eqb_neq (length p) 0)) by done.
  pose proof (complete_loop_spec commands p Hw ltac:(done) Hcs None 0 eq_refl) as H. destruct (complete_loop commands p None 0) as [[name|] n].
  - destruct H as (Hn&[u Hu]&Hb). rewrite length_take, Nat.min_l in * by lia.
    rewrite (proj2 (Nat.leb_le _ _)) by (rewrite !length_app, length_replicate; lia). split_and!; [|by apply Forall_take|lia].
    f_equal. f_equal. rewrite drop_app_ge by lia. rewrite drop_app_le by (rewrite length_replicate; lia). f_equal. rewrite drop_replicate. f_equal. lia.
  - split_and!; [|done|lia]. do 3 f_equal. f_equal. lia.
Qed.
