(* ===== verification/Shell.v ===== *)
(** * The line editor of the shell (rt-thread/components/finsh/shell.c)

    [finsh_thread_entry] as a step on one character: cursor keys, history, completion,
    editing, and the line that is handed to [msh_exec]. What is echoed is left out. *)

From S2P Require Import Prelude KString Msh.

(** ** State *)

Definition FINSH_CMD_SIZE : nat := 80.
Definition FINSH_HISTORY_LINES : nat := 5.
Inductive input_stat := WAIT_NORMAL | WAIT_SPEC_KEY | WAIT_FUNC_KEY.

Record finsh_shell := FinshShell {
  sh_stat : input_stat;
  current_history : Z; history_count : Z;      (* rt_uint16_t *)
  cmd_history : list (list Z);                 (* rows of FINSH_CMD_SIZE bytes *)
  sh_line : list Z;                            (* FINSH_CMD_SIZE bytes *)
  line_position : Z; line_curpos : Z;          (* rt_uint8_t *)
}.
Definition set_stat (st : input_stat) (s : finsh_shell) : finsh_shell :=
  FinshShell st (current_history s) (history_count s) (cmd_history s) (sh_line s) (line_position s) (line_curpos s).
Definition set_edit (line : list Z) (pos cur : Z) (s : finsh_shell) : finsh_shell :=
  FinshShell (sh_stat s) (current_history s) (history_count s) (cmd_history s) line (u8 pos) (u8 cur).
Definition set_history (current count : Z) (rows : list (list Z)) (s : finsh_shell) : finsh_shell :=
  FinshShell (sh_stat s) (u16 current) (u16 count) rows (sh_line s) (line_position s) (line_curpos s).

(** [rt_malloc] and [memset] of [finsh_system_init]. *)
Definition finsh_init : finsh_shell :=
  FinshShell WAIT_NORMAL 0 0 (replicate FINSH_HISTORY_LINES (replicate FINSH_CMD_SIZE 0)) (replicate FINSH_CMD_SIZE 0) 0 0.

(** The bytes from the line on: the two positions follow it. *)
Definition line_memory (s : finsh_shell) : list Z := sh_line s ++ [line_position s; line_curpos s].

(** ** Bytes of the line *)

Fixpoint strlen (b : list Z) : option nat :=
  match b with [] => None | c :: b => if c =? 0 then Some 0%nat else n ← strlen b; Some (S n) end.
(** [rt_memmove] inside the line. *)
Definition move (l : list Z) (dst src n : Z) : option (list Z) :=
  if (0 <=? dst) && (0 <=? src) && (0 <=? n) && (dst + n <=? Z.of_nat (length l)) && (src + n <=? Z.of_nat (length l)) then
    Some (take (Z.to_nat dst) l ++ take (Z.to_nat n) (drop (Z.to_nat src) l) ++ drop (Z.to_nat (dst + n)) l)
  else None.
Definition set_char (l : list Z) (i c : Z) : option (list Z) := _ ← l !! Z.to_nat i; Some (<[Z.to_nat i := c]> l).

(** ** The history *)

(** [memset] and [memcpy] of [line_position] bytes. *)
Definition history_row (s : finsh_shell) : option (list Z) :=
  let n := Z.to_nat (line_position s) in
  if (n <=? FINSH_CMD_SIZE)%nat then Some (take n (sh_line s) ++ replicate (FINSH_CMD_SIZE - n) 0) else None.

Definition shell_push_history (s : finsh_shell) : option finsh_shell :=
  let rows := cmd_history s in let count := history_count s in
  s ← (if line_position s =? 0 then Some s
       else if Z.of_nat FINSH_HISTORY_LINES <=? count then
         last ← rows !! (FINSH_HISTORY_LINES - 1)%nat;
         if decide (last = sh_line s) then Some s
         else row ← history_row s; Some (set_history (current_history s) (Z.of_nat FINSH_HISTORY_LINES) (take (FINSH_HISTORY_LINES - 1) (drop 1 rows) ++ [row]) s)
       else
         same ← (if count =? 0 then Some false else last ← rows !! Z.to_nat (count - 1); Some (bool_decide (last = sh_line s)));
         if same : bool then Some s
         else row ← history_row s; Some (set_history count (count + 1) (<[Z.to_nat count := row]> rows) s));
  Some (set_history (history_count s) (history_count s) (cmd_history s) s).

(** The line of the chosen row. *)
Definition load_history (current : Z) (s : finsh_shell) : option finsh_shell :=
  row ← cmd_history s !! Z.to_nat current;
  n ← strlen (row ++ [line_position s; line_curpos s]);
  Some (set_edit row (Z.of_nat n) (Z.of_nat n) (set_history current (history_count s) (cmd_history s) s)).

Definition up_key (s : finsh_shell) : option finsh_shell :=
  if 0 <? current_history s then load_history (current_history s - 1) s else Some (set_history 0 (history_count s) (cmd_history s) s).
Definition down_key (s : finsh_shell) : option finsh_shell :=
  if current_history s <? history_count s - 1 then load_history (current_history s + 1) s
  else if negb (history_count s =? 0) then load_history (history_count s - 1) s
  else Some s.
Definition left_key (s : finsh_shell) : finsh_shell :=
  if negb (line_curpos s =? 0) then set_edit (sh_line s) (line_position s) (line_curpos s - 1) s else s.
Definition right_key (s : finsh_shell) : finsh_shell :=
  if line_curpos s <? line_position s then set_edit (sh_line s) (line_position s) (line_curpos s + 1) s else s.

(** ** Editing *)

Section Shell.
Context (commands : list (list Z)).

Definition tab_key (s : finsh_shell) : option finsh_shell :=
  mem ← msh_auto_complete commands (line_memory s);
  n ← strlen mem;
  Some (set_edit (take FINSH_CMD_SIZE mem) (Z.of_nat n) (Z.of_nat n) s).

Definition backspace_key (s : finsh_shell) : option finsh_shell :=
  if line_curpos s =? 0 then Some s
  else
    let pos := u8 (line_position s - 1) in let cur := u8 (line_curpos s - 1) in
    line ← (if cur <? pos then move (sh_line s) cur (cur + 1) (pos - cur) else Some (sh_line s));
    line ← set_char line pos 0;
    Some (set_edit line pos cur s).

(** The whole line is run and cleared. *)
Definition enter_key (s : finsh_shell) : option (finsh_shell * msh_result) :=
  s ← shell_push_history s;
  r ← msh_exec commands (line_memory s) (line_position s);
  Some (set_edit (replicate FINSH_CMD_SIZE 0) 0 0 s, r).

Definition normal_char (ch : Z) (s : finsh_shell) : option finsh_shell :=
  let size := Z.of_nat FINSH_CMD_SIZE in
  let pos := if size <=? line_position s then 0 else line_position s in
  let cur := line_curpos s in
  line ← (if cur <? pos then line ← move (sh_line s) (cur + 1) cur (pos - cur); set_char line cur ch else set_char (sh_line s) pos ch);
  let pos := u8 (pos + 1) in let cur := u8 (cur + 1) in
  Some (if size <=? pos then set_edit line 0 0 s else set_edit line pos cur s).

(** A character that is no part of an escape sequence. *)
Definition other_char (ch : Z) (s : finsh_shell) : option (finsh_shell * option msh_result) :=
  if (ch =? 0) || (ch =? 255) then Some (s, None)
  else if ch =? 9 then s ← tab_key s; Some (s, None)
  else if (ch =? 127) || (ch =? 8) then s ← backspace_key s; Some (s, None)
  else if (ch =? 13) || (ch =? 10) then '(s, r) ← enter_key s; Some (s, Some r)
  else s ← normal_char ch s; Some (s, None).

(** One turn of the loop of [finsh_thread_entry]; the result is the line that was run. *)
Definition finsh_step (ch : Z) (s : finsh_shell) : option (finsh_shell * option msh_result) :=
  if ch =? 27 then Some (set_stat WAIT_SPEC_KEY s, None)
  else match sh_stat s with
  | WAIT_SPEC_KEY => if ch =? 91 then Some (set_stat WAIT_FUNC_KEY s, None) else other_char ch (set_stat WAIT_NORMAL s)
  | WAIT_FUNC_KEY =>
      let s := set_stat WAIT_NORMAL s in
      if ch =? 65 then s ← up_key s; Some (s, None)
      else if ch =? 66 then s ← down_key s; Some (s, None)
      else if ch =? 68 then Some (left_key s, None)
      else if ch =? 67 then Some (right_key s, None)
      else other_char ch s
  | WAIT_NORMAL => other_char ch s
  end.

(** The lines run for a sequence of characters. *)
Fixpoint finsh_run (chs : list Z) (s : finsh_shell) : option (finsh_shell * list msh_result) :=
  match chs with
  | [] => Some (s, [])
  | ch :: chs => '(s, r) ← finsh_step ch s; '(s, rs) ← finsh_run chs s; Some (s, option_list r ++ rs)
  end.
End Shell.

(** ** An editor of texts *)

(** The text before the cursor is kept backwards. *)
Record editor := Editor { e_stat : input_stat; e_before : list Z; e_after : list Z; e_history : list (list Z); e_current : nat }.
Definition e_text (e : editor) : list Z := rev (e_before e) ++ e_after e.
Definition editor_start : editor := Editor WAIT_NORMAL [] [] [] 0.

Inductive key := KUp | KDown | KLeft | KRight | KTab | KBackspace | KEnter | KChar (c : Z) | KNone.
Definition plain_key (ch : Z) : key :=
  if (ch =? 0) || (ch =? 255) then KNone else if ch =? 9 then KTab else if (ch =? 127) || (ch =? 8) then KBackspace
  else if (ch =? 13) || (ch =? 10) then KEnter else KChar ch.
(** Escape sequences: ESC [ and a letter. *)
Definition decode (stat : input_stat) (ch : Z) : input_stat * key :=
  if ch =? 27 then (WAIT_SPEC_KEY, KNone)
  else match stat with
  | WAIT_SPEC_KEY => if ch =? 91 then (WAIT_FUNC_KEY, KNone) else (WAIT_NORMAL, plain_key ch)
  | WAIT_FUNC_KEY =>
      (WAIT_NORMAL, if ch =? 65 then KUp else if ch =? 66 then KDown else if ch =? 68 then KLeft else if ch =? 67 then KRight else plain_key ch)
  | WAIT_NORMAL => (WAIT_NORMAL, plain_key ch)
  end.

(** At most five texts, none empty, none like the one before it. *)
Definition push_text (t : list Z) (h : list (list Z)) : list (list Z) :=
  if decide (t = []) then h else if decide (last h = Some t) then h
  else if (length h <? FINSH_HISTORY_LINES)%nat then h ++ [t] else tail h ++ [t].

Section Editor.
Context (commands : list (list Z)).

Definition recall (i : nat) (e : editor) : option editor := t ← e_history e !! i; Some (Editor (e_stat e) (rev t) [] (e_history e) i).
Definition with_text (b a : list Z) (e : editor) : editor := Editor (e_stat e) b a (e_history e) (e_current e).

(** The result is the text that is run. A text must stay below FINSH_CMD_SIZE. *)
Definition ed_key (k : key) (e : editor) : option (editor * option (list Z)) :=
  match k with
  | KUp => if (0 <? e_current e)%nat then e ← recall (e_current e - 1) e; Some (e, None) else Some (e, None)
  | KDown =>
      if (S (e_current e) <? length (e_history e))%nat then e ← recall (S (e_current e)) e; Some (e, None)
      else match e_history e with [] => Some (e, None) | _ => e ← recall (length (e_history e) - 1) e; Some (e, None) end
  | KLeft => Some (match e_before e with c :: b => with_text b (c :: e_after e) e | [] => e end, None)
  | KRight => Some (match e_after e with c :: a => with_text (c :: e_before e) a e | [] => e end, None)
  | KBackspace => Some (match e_before e with c :: b => with_text b (e_after e) e | [] => e end, None)
  | KChar c => if (S (length (e_text e)) <? FINSH_CMD_SIZE)%nat then Some (with_text (c :: e_before e) (e_after e) e, None) else None
  | KTab => let t := completed commands (e_text e) in if (length t <? FINSH_CMD_SIZE)%nat then Some (with_text (rev t) [] e, None) else None
  | KEnter => let h := push_text (e_text e) (e_history e) in Some (Editor (e_stat e) [] [] h (length h), Some (e_text e))
  | KNone => Some (e, None)
  end.
Definition ed_step (ch : Z) (e : editor) : option (editor * option (list Z)) :=
  let '(stat, k) := decode (e_stat e) ch in ed_key k (Editor stat (e_before e) (e_after e) (e_history e) (e_current e)).
Fixpoint ed_run (chs : list Z) (e : editor) : option (editor * list (list Z)) :=
  match chs with
  | [] => Some (e, [])
  | ch :: chs => '(e, t) ← ed_step ch e; '(e, ts) ← ed_run chs e; Some (e, option_list t ++ ts)
  end.

(** ** How the shell represents it *)

Definition row_of (t : list Z) : list Z := t ++ replicate (FINSH_CMD_SIZE - length t) 0.
Definition text_fits (t : list Z) : Prop := text_ok t /\ (length t < FINSH_CMD_SIZE)%nat.

Record shell_repr (e : editor) (s : finsh_shell) : Prop := {
  sr_stat : sh_stat s = e_stat e;
  sr_line : sh_line s = row_of (e_text e);
  sr_text : text_fits (e_text e);
  sr_pos : line_position s = Z.of_nat (length (e_text e));
  sr_cur : line_curpos s = Z.of_nat (length (e_before e));
  sr_rows : length (cmd_history s) = FINSH_HISTORY_LINES;
  sr_count : history_count s = Z.of_nat (length (e_history e)) /\ (length (e_history e) <= FINSH_HISTORY_LINES)%nat;
  sr_current : current_history s = Z.of_nat (e_current e) /\ (e_current e <= length (e_history e))%nat;
  sr_history : forall i t, e_history e !! i = Some t -> text_fits t /\ cmd_history s !! i = Some (row_of t);
}.

Hypothesis Hcs : Forall text_ok commands.

Lemma row_length t : (length t < FINSH_CMD_SIZE)%nat -> length (row_of t) = FINSH_CMD_SIZE.
Proof. intros H. unfold row_of. rewrite length_app, length_replicate. lia. Qed.

Lemma strlen_row t tl : text_fits t -> strlen (row_of t ++ tl) = Some (length t).
Proof.
  intros [Ht Hl]. unfold row_of. destruct (FINSH_CMD_SIZE - length t)%nat as [|k] eqn:E; [lia|]. clear E Hl. rewrite <-app_assoc.
  induction Ht as [|c t Hc _ IH]; simpl; [done|]. rewrite (proj2 (Z.eqb_neq c 0)) by done. simpl in IH. by rewrite IH.
Qed.

Lemma row_inj t u : text_fits t -> text_fits u -> row_of t = row_of u -> t = u.
Proof.
  intros Ht Hu E. pose proof (strlen_row t [] Ht) as Et. pose proof (strlen_row u [] Hu) as Eu. rewrite E, Eu in Et. injection Et as El.
  unfold row_of in E. rewrite <-El in E. by apply app_inv_tail in E.
Qed.

Lemma u8_nat (n : nat) : (n < FINSH_CMD_SIZE)%nat -> u8 (Z.of_nat n) = Z.of_nat n.
Proof. intros H. unfold FINSH_CMD_SIZE in H. apply u8_small. word. Qed.

Lemma repr_edit e s b a line pos cur : shell_repr e s -> text_fits (rev b ++ a) -> line = row_of (rev b ++ a) ->
  pos = Z.of_nat (length b + length a) -> cur = Z.of_nat (length b) -> shell_repr (with_text b a e) (set_edit line pos cur s).
Proof.
  intros [] Hf -> -> ->. pose proof (proj2 Hf) as Hl. rewrite length_app, length_rev in Hl.
  split; simpl; try done; rewrite ?u8_nat by lia; unfold e_text; simpl; rewrite ?length_app, ?length_rev; done.
Qed.

Lemma fits_lengths e : text_fits (e_text e) -> (length (e_before e) + length (e_after e) < FINSH_CMD_SIZE)%nat.
Proof. intros [_ H]. unfold e_text in H. rewrite length_app, length_rev in H. lia. Qed.

(** Moving the rest of the line. *)
Lemma move_down (p q z : list Z) c n : n = length q -> move (p ++ c :: q ++ z) (Z.of_nat (length p)) (Z.of_nat (length p) + 1) (Z.of_nat n) =
  Some (p ++ q ++ drop n (c :: q) ++ z).
Proof.
  intros ->. unfold move. rewrite !length_app. cbn [length]. rewrite !length_app.
  repeat (rewrite (proj2 (Z.leb_le _ _)) by lia). cbn [andb]. rewrite Nat2Z.id, Nat2Z.id, take_app_length.
  replace (Z.to_nat (Z.of_nat (length p) + 1)) with (length p + 1)%nat by lia.
  replace (Z.to_nat (Z.of_nat (length p) + Z.of_nat (length q))) with (length p + length q)%nat by lia.
  rewrite <-!drop_drop, drop_app_length. cbn [drop]. rewrite drop_0, take_app_length.
  change (c :: q ++ z) with ((c :: q) ++ z). rewrite (drop_app_le (c :: q)) by (simpl; lia). done.
Qed.

Lemma move_up (p q z : list Z) c n : n = length q -> move (p ++ q ++ c :: z) (Z.of_nat (length p) + 1) (Z.of_nat (length p)) (Z.of_nat n) =
  Some (take (S (length p)) (p ++ q ++ [c]) ++ q ++ z).
Proof.
  intros ->. unfold move. rewrite !length_app. cbn [length].
  repeat (rewrite (proj2 (Z.leb_le _ _)) by lia). cbn [andb]. rewrite !Nat2Z.id.
  replace (Z.to_nat (Z.of_nat (length p) + 1)) with (S (length p)) by lia.
  replace (Z.to_nat (Z.of_nat (length p) + 1 + Z.of_nat (length q))) with (length p + (length q + 1))%nat by lia.
  rewrite drop_app_length, take_app_length, <-drop_drop, drop_app_length, <-drop_drop, drop_app_length. simpl. rewrite drop_0. f_equal. f_equal.
  assert (p ++ q ++ c :: z = (p ++ q ++ [c]) ++ z) as -> by (rewrite <-!app_assoc; done). rewrite take_app_le; [done|rewrite !length_app; simpl; lia].
Qed.

Lemma set_char_at (p tl : list Z) x c : set_char (p ++ x :: tl) (Z.of_nat (length p)) c = Some (p ++ c :: tl).
Proof. unfold set_char. rewrite Nat2Z.id, lookup_at. simpl. by rewrite insert_at. Qed.

(** A line that is not full ends in a 0. *)
Lemma row_split t : (length t < FINSH_CMD_SIZE)%nat -> exists k, FINSH_CMD_SIZE = (length t + S k)%nat /\ row_of t = t ++ 0 :: replicate k 0.
Proof.
  intros H. set (k := (FINSH_CMD_SIZE - length t - 1)%nat). exists k. split; [lia|]. unfold row_of. assert (FINSH_CMD_SIZE - length t = S k)%nat as -> by lia. done.
Qed.

Lemma backspace_ok e s : shell_repr e s -> exists s', backspace_key s = Some s' /\
  shell_repr (match e_before e with c :: b => with_text b (e_after e) e | [] => e end) s'.
Proof.
  intros Hr. pose proof Hr as [_ Hline Hfit Hpos Hcur _ _ _ _]. pose proof (fits_lengths e Hfit) as Hl. unfold backspace_key. rewrite Hcur.
  destruct (e_before e) as [|c b] eqn:Eb; [exists s; done|]. cbn [length] in *. rewrite (proj2 (Z.eqb_neq _ 0)) by lia.
  assert (e_text e = rev b ++ c :: e_after e) as Et by (unfold e_text; rewrite Eb; simpl; by rewrite <-app_assoc).
  rewrite Hpos, Et, length_app, length_rev. cbn [length]. destruct Hfit as [Ht Hlt]. rewrite Et in Ht. apply Forall_app in Ht as [Hb [Hc Ha]%Forall_cons].
  replace (u8 (Z.of_nat (length b + S (length (e_after e))) - 1)) with (Z.of_nat (length b + length (e_after e))) by (unfold FINSH_CMD_SIZE in Hl; word).
  replace (u8 (Z.of_nat (S (length b)) - 1)) with (Z.of_nat (length b)) by (unfold FINSH_CMD_SIZE in Hl; word).
  assert (text_fits (rev b ++ e_after e)) as Hfit' by (split; [by apply Forall_app|rewrite length_app, length_rev; lia]).
  set (k := (FINSH_CMD_SIZE - S (length b) - length (e_after e))%nat).
  assert (sh_line s = rev b ++ c :: e_after e ++ replicate k 0) as El.
  { rewrite Hline, Et. unfold row_of. rewrite <-app_assoc. cbn [app]. do 3 f_equal. f_equal. rewrite length_app, length_rev. unfold k. cbn [length]. lia. }
  assert (row_of (rev b ++ e_after e) = rev b ++ e_after e ++ 0 :: replicate k 0) as Erow.
  { unfold row_of. rewrite <-app_assoc. f_equal. f_equal. change (0 :: replicate k 0) with (replicate (S k) 0). f_equal. rewrite length_app, length_rev. unfold k. lia. }
  assert (exists line, (if Z.of_nat (length b) <? Z.of_nat (length b + length (e_after e)) then
      move (sh_line s) (Z.of_nat (length b)) (Z.of_nat (length b) + 1) (Z.of_nat (length b + length (e_after e)) - Z.of_nat (length b)) else Some (sh_line s)) = Some line /\
    set_char line (Z.of_nat (length b + length (e_after e))) 0 = Some (row_of (rev b ++ e_after e))) as (line&->&Es).
  { replace (Z.of_nat (length b + length (e_after e)) - Z.of_nat (length b)) with (Z.of_nat (length (e_after e))) by lia. rewrite El, Erow.
    destruct (Z.ltb_spec (Z.of_nat (length b)) (Z.of_nat (length b + length (e_after e)))).
    - rewrite <-(length_rev b), move_down by done. eexists. split; [done|]. rewrite length_rev.
      destruct (drop (length (e_after e)) (c :: e_after e)) as [|x l] eqn:Ed; [apply (f_equal length) in Ed; rewrite length_drop in Ed; simpl in Ed; lia|].
      assert (l = []) as -> by (apply (f_equal length) in Ed; rewrite length_drop in Ed; destruct l; [done|simpl in Ed; lia]).
      rewrite app_assoc. replace (length b + length (e_after e))%nat with (length (rev b ++ e_after e)) by (rewrite length_app, length_rev; done).
      cbn [app]. rewrite set_char_at. by rewrite <-app_assoc.
    - assert (e_after e = []) as -> by (apply nil_length_inv; lia). eexists. split; [done|]. cbn [app length]. rewrite Nat.add_0_r, <-(length_rev b). by rewrite set_char_at. }
  cbn [mbind option_bind]. rewrite Es. cbn [mbind option_bind]. eexists. split; [done|]. by apply repr_edit.
Qed.

Lemma char_ok e s c : shell_repr e s -> c <> 0 -> (S (length (e_text e)) < FINSH_CMD_SIZE)%nat ->
  exists s', normal_char c s = Some s' /\ shell_repr (with_text (c :: e_before e) (e_after e) e) s'.
Proof.
  intros Hr Hc Hroom. pose proof Hr as [_ Hline Hfit Hpos Hcur _ _ _ _]. unfold normal_char. rewrite Hpos, Hcur.
  rewrite (proj2 (Z.leb_gt (Z.of_nat FINSH_CMD_SIZE) (Z.of_nat (length (e_text e))))) by lia. set (b := e_before e) in *. set (a := e_after e) in *.
  assert (length (e_text e) = length b + length a)%nat as Elen by (unfold e_text; rewrite length_app, length_rev; done). rewrite Elen in *.
  set (k := (FINSH_CMD_SIZE - length b - length a - 1)%nat).
  assert (sh_line s = rev b ++ a ++ 0 :: replicate k 0) as El.
  { rewrite Hline. unfold row_of, e_text. fold b a. rewrite <-app_assoc. f_equal. f_equal. change (0 :: replicate k 0) with (replicate (S k) 0). f_equal. rewrite length_app, length_rev. unfold k. lia. }
  assert (row_of (rev (c :: b) ++ a) = rev b ++ c :: a ++ replicate k 0) as Erow.
  { unfold row_of. cbn [rev]. rewrite <-!app_assoc. cbn [app]. f_equal. f_equal. f_equal. f_equal. rewrite length_app, length_rev. cbn [length]. unfold k. lia. }
  assert ((if Z.of_nat (length b) <? Z.of_nat (length b + length a) then
      line ← move (sh_line s) (Z.of_nat (length b) + 1) (Z.of_nat (length b)) (Z.of_nat (length b + length a) - Z.of_nat (length b)); set_char line (Z.of_nat (length b)) c
      else set_char (sh_line s) (Z.of_nat (length b + length a)) c) = Some (row_of (rev (c :: b) ++ a))) as ->.
  { rewrite El, Erow. replace (Z.of_nat (length b + length a) - Z.of_nat (length b)) with (Z.of_nat (length a)) by lia. rewrite <-(length_rev b).
    destruct (Z.ltb_spec (Z.of_nat (length (rev b))) (Z.of_nat (length (rev b) + length a))).
    - rewrite move_up by done. cbn [mbind option_bind]. destruct a as [|x a']; [simpl in *; lia|]. cbn [app].
      change (S (length (rev b))) with (1 + length (rev b))%nat. rewrite Nat.add_comm, firstn_app_2. cbn [firstn take]. rewrite <-app_assoc. cbn [app]. by rewrite set_char_at.
    - assert (a = []) as -> by (apply nil_length_inv; lia). cbn [app length]. rewrite Nat.add_0_r. by rewrite set_char_at. }
  cbn [mbind option_bind].
  replace (u8 (Z.of_nat (length b + length a) + 1)) with (Z.of_nat (S (length b + length a))) by (unfold FINSH_CMD_SIZE in *; word).
  replace (u8 (Z.of_nat (length b) + 1)) with (Z.of_nat (S (length b))) by (unfold FINSH_CMD_SIZE in *; word).
  rewrite (proj2 (Z.leb_gt (Z.of_nat FINSH_CMD_SIZE) (Z.of_nat (S (length b + length a))))) by lia. eexists. split; [done|]. apply repr_edit; [done| |done|simpl; lia|done].
  destruct Hfit as [Ht _]. unfold e_text in Ht. fold b a in Ht. apply Forall_app in Ht as [Hb Ha]. split.
  - cbn [rev]. rewrite <-app_assoc. apply Forall_app. split; [done|by constructor].
  - rewrite length_app, length_rev. simpl. lia.
Qed.

Lemma recall_ok e s i e' : shell_repr e s -> recall i e = Some e' -> exists s', load_history (Z.of_nat i) s = Some s' /\ shell_repr e' s'.
Proof.
  intros Hr. pose proof Hr as [Hst Hline Hfit Hpos Hcur Hrows [Hc Hc5] [Hh Hhl] Hhist]. unfold recall, load_history.
  destruct (e_history e !! i) as [t|] eqn:Et; [|done]. simpl. intros [= <-]. destruct (Hhist i t Et) as [Ht Erow]. rewrite Nat2Z.id, Erow. cbn [mbind option_bind].
  rewrite strlen_row by done. cbn [mbind option_bind]. eexists. split; [done|]. pose proof (lookup_lt_Some _ _ _ Et) as Hi. destruct Ht as [Htt Htl].
  unfold FINSH_HISTORY_LINES in *. split; simpl; rewrite ?u8_nat by done; unfold e_text; simpl; rewrite ?rev_involutive, ?app_nil_r, ?length_rev; try done;
    rewrite ?u16_small by (unfold is_u16; lia); split; (done || lia).
Qed.

Lemma up_ok e s e' : shell_repr e s -> ed_key KUp e = Some (e', None) -> exists s', up_key s = Some s' /\ shell_repr e' s'.
Proof.
  intros Hr. pose proof (sr_current _ _ Hr) as [Hc Hcl]. unfold up_key. simpl ed_key. rewrite Hc.
  destruct (Nat.ltb_spec 0 (e_current e)) as [Hlt|Hge].
  - rewrite (proj2 (Z.ltb_lt _ _)) by lia. destruct (recall _ e) as [e1|] eqn:Ee; [|done]. intros [= <-].
    replace (Z.of_nat (e_current e) - 1) with (Z.of_nat (e_current e - 1)) by lia. by apply (recall_ok e).
  - rewrite (proj2 (Z.ltb_ge _ _)) by lia. intros [= <-]. eexists. split; [done|]. destruct Hr as [? ? ? ? ? ? [Hn Hn5] ? ?].
    split; simpl; try done; unfold FINSH_HISTORY_LINES in *; rewrite ?u16_small by (unfold is_u16; lia); split; (done || lia).
Qed.

Lemma down_ok e s e' : shell_repr e s -> ed_key KDown e = Some (e', None) -> exists s', down_key s = Some s' /\ shell_repr e' s'.
Proof.
  intros Hr. pose proof (sr_current _ _ Hr) as [Hc Hcl]. pose proof (sr_count _ _ Hr) as [Hn _]. unfold down_key. simpl ed_key. rewrite Hc, Hn.
  destruct (Nat.ltb_spec (S (e_current e)) (length (e_history e))).
  - rewrite (proj2 (Z.ltb_lt _ _)) by lia. destruct (recall _ e) as [e1|] eqn:Ee; [|done]. intros [= <-].
    replace (Z.of_nat (e_current e) + 1) with (Z.of_nat (S (e_current e))) by lia. by apply (recall_ok e).
  - rewrite (proj2 (Z.ltb_ge _ _)) by lia. destruct (e_history e) as [|t h] eqn:Eh; [intros [= <-]; by exists s|].
    rewrite (proj2 (Z.eqb_neq _ 0)) by (simpl; lia). cbn [negb]. destruct (recall _ e) as [e1|] eqn:Ee; [|done]. intros [= <-].
    replace (Z.of_nat (length (t :: h)) - 1) with (Z.of_nat (length (t :: h) - 1)) by (cbn [length]; lia). by apply (recall_ok e).
Qed.

Lemma left_ok e s : shell_repr e s -> shell_repr (match e_before e with c :: b => with_text b (c :: e_after e) e | [] => e end) (left_key s).
Proof.
  intros Hr. pose proof Hr as [_ Hline Hfit Hpos Hcur _ _ _ _]. unfold left_key. rewrite Hcur. destruct (e_before e) as [|c b] eqn:Eb; [done|].
  rewrite (proj2 (Z.eqb_neq _ 0)) by (simpl; lia). cbn [negb]. assert (e_text e = rev b ++ c :: e_after e) as Et by (unfold e_text; rewrite Eb; simpl; by rewrite <-app_assoc).
  apply repr_edit; [done|by rewrite <-Et|by rewrite <-Et|rewrite Hpos, Et, length_app, length_rev; done|simpl; lia].
Qed.
Lemma right_ok e s : shell_repr e s -> shell_repr (match e_after e with c :: a => with_text (c :: e_before e) a e | [] => e end) (right_key s).
Proof.
  intros Hr. pose proof Hr as [_ Hline Hfit Hpos Hcur _ _ _ _]. unfold right_key.
  assert (length (e_text e) = length (e_before e) + length (e_after e))%nat as El by (unfold e_text; by rewrite length_app, length_rev).
  rewrite Hcur, Hpos, El. destruct (e_after e) as [|c a] eqn:Ea; [rewrite (proj2 (Z.ltb_ge _ _)) by (simpl; lia); done|].
  rewrite (proj2 (Z.ltb_lt _ _)) by (simpl; lia). assert (e_text e = rev (c :: e_before e) ++ a) as Et by (unfold e_text; rewrite Ea; simpl; by rewrite <-app_assoc).
  apply repr_edit; [done|by rewrite <-Et|by rewrite <-Et|simpl; lia|simpl; lia].
Qed.

Lemma tab_ok e s e' : shell_repr e s -> ed_key KTab e = Some (e', None) -> exists s', tab_key commands s = Some s' /\ shell_repr e' s'.
Proof.
  intros Hr. pose proof Hr as [_ Hline [Ht Hl] Hpos Hcur _ _ _ _]. simpl ed_key. set (t := completed commands (e_text e)).
  destruct (Nat.ltb_spec (length t) FINSH_CMD_SIZE) as [Htl|]; [|done]. intros [= <-]. unfold tab_key, line_memory. rewrite Hline.
  destruct (row_split _ Hl) as (k&Ek&Erow). rewrite Erow, <-app_assoc. change (0 :: replicate k 0) with (replicate (S k) 0).
  destruct (msh_auto_complete_spec commands (e_text e) k [line_position s; line_curpos s] Hcs Ht) as (->&Hto&Hge); [fold t; lia|]. fold t in Hto, Hge |- *.
  rewrite <-Ek. rewrite app_assoc. fold (row_of t). cbn [mbind option_bind]. assert (text_fits t) as Hft by done.
  rewrite strlen_row by done. cbn [mbind option_bind]. rewrite take_app_le, take_ge by (rewrite row_length by done; lia).
  eexists. split; [done|]. apply repr_edit; [done|by rewrite rev_involutive, app_nil_r|by rewrite rev_involutive, app_nil_r|by rewrite length_rev, Nat.add_0_r|by rewrite length_rev].
Qed.

(** ** Running a line *)

Lemma last_lookup_pred {A} (l : list A) : last l = l !! (length l - 1)%nat.
Proof. rewrite last_lookup. f_equal. lia. Qed.

(** The rows after a push. *)
Definition rows_hold (rows : list (list Z)) (h : list (list Z)) : Prop :=
  length rows = FINSH_HISTORY_LINES /\ (length h <= FINSH_HISTORY_LINES)%nat /\ forall i t, h !! i = Some t -> text_fits t /\ rows !! i = Some (row_of t).

Lemma push_full rows h t : rows_hold rows h -> length h = FINSH_HISTORY_LINES -> text_fits t -> rows_hold (take 4 (drop 1 rows) ++ [row_of t]) (tail h ++ [t]).
Proof.
  intros (Hr&_&Hh) Hl Ht. unfold FINSH_HISTORY_LINES in *. destruct rows as [|r rows]; [done|]. destruct h as [|u h]; [done|]. simpl in Hr, Hl. cbn [drop tail]. rewrite drop_0, take_ge by lia.
  split; [rewrite length_app; simpl; unfold FINSH_HISTORY_LINES; lia|]. split; [rewrite length_app; simpl; unfold FINSH_HISTORY_LINES; lia|].
  intros i v Hi. destruct (decide (i < length h)%nat).
  - rewrite lookup_app_l in Hi |- * by lia. apply (Hh (S i)). done.
  - rewrite lookup_app_r in Hi |- * by lia. assert (i = 4%nat) as -> by (apply lookup_lt_Some in Hi; simpl in Hi; lia).
    replace (4 - length h)%nat with 0%nat in Hi by lia. replace (4 - length rows)%nat with 0%nat by lia. by injection Hi as <-.
Qed.

Lemma push_room rows h t : rows_hold rows h -> (length h < FINSH_HISTORY_LINES)%nat -> text_fits t -> rows_hold (<[length h := row_of t]> rows) (h ++ [t]).
Proof.
  intros (Hr&_&Hh) Hl Ht. split; [by rewrite length_insert|]. split; [rewrite length_app; simpl; lia|]. intros i v Hi. destruct (decide (i < length h)%nat).
  - rewrite lookup_app_l in Hi by lia. rewrite list_lookup_insert_ne by lia. by apply Hh.
  - assert (i = length h) as -> by (apply lookup_lt_Some in Hi; rewrite length_app in Hi; simpl in Hi; lia).
    rewrite lookup_app_r, Nat.sub_diag in Hi by lia. injection Hi as <-. split; [done|]. apply list_lookup_insert_eq. lia.
Qed.

Lemma push_history_ok e s : shell_repr e s -> exists s', shell_push_history s = Some s' /\ sh_line s' = sh_line s /\ line_position s' = line_position s /\
  line_curpos s' = line_curpos s /\ sh_stat s' = sh_stat s /\ rows_hold (cmd_history s') (push_text (e_text e) (e_history e)) /\
  history_count s' = Z.of_nat (length (push_text (e_text e) (e_history e))) /\ current_history s' = history_count s'.
Proof.
  intros [Hst Hline Hfit Hpos Hcur Hrows [Hn Hn5] _ Hh]. set (t := e_text e) in *. set (h := e_history e) in *.
  assert (rows_hold (cmd_history s) h) as Hhold by (split_and!; done).
  assert (forall n : nat, (n <= 5)%nat -> u16 (u16 (Z.of_nat n)) = Z.of_nat n /\ u16 (Z.of_nat n) = Z.of_nat n) as Hu by (intros; word).
  assert (history_row s = Some (row_of t)) as Erow.
  { unfold history_row. rewrite Hpos, Nat2Z.id, Hline. destruct Hfit as [_ Hl]. rewrite (proj2 (Nat.leb_le _ _)) by lia. unfold row_of. by rewrite take_app_length. }
  assert (forall l i, h !! i = Some l -> cmd_history s !! i = Some (row_of l) /\ (row_of l = sh_line s <-> l = t)) as Hlast.
  { intros l i Hi. destruct (Hh i l Hi) as [Hl Hr]. split; [done|]. rewrite Hline. split; [by apply row_inj|by intros ->]. }
  unfold shell_push_history, push_text. rewrite Hpos. unfold FINSH_HISTORY_LINES in *. destruct (decide (t = [])) as [->|Hne].
  { simpl. eexists. split; [done|]. simpl. destruct (Hu (length h) Hn5) as [_ Hu1]. rewrite Hn, Hu1. done. }
  rewrite (proj2 (Z.eqb_neq _ 0)) by (destruct t; [done|simpl; lia]). rewrite last_lookup_pred, Hn.
  destruct (Z.leb_spec (Z.of_nat 5) (Z.of_nat (length h))).
  - assert (length h = 5%nat) as El by lia. destruct (lookup_lt_is_Some_2 h 4) as [l El4]; [lia|]. destruct (Hlast l _ El4) as [Er Heq].
    simpl (5 - 1)%nat. rewrite Er, El. simpl (5 - 1)%nat. rewrite El4. cbn [mbind option_bind].
    destruct (decide (row_of l = sh_line s)) as [E|E].
    + rewrite decide_True by (f_equal; by apply Heq). cbn [mbind option_bind]. eexists. split; [done|]. simpl. rewrite Hn, El. done.
    + rewrite decide_False by (intros [= ->]; by apply E, Heq). rewrite Erow. cbn [mbind option_bind]. eexists. split; [done|]. simpl. split_and!; try done.
      * by apply push_full.
      * rewrite length_app. destruct h; simpl in *; [lia|]. by replace (length h) with 4%nat by lia.
  - destruct (Nat.ltb_spec (length h) 5) as [Hlt|]; [|lia].
    assert (exists b : bool, (if Z.of_nat (length h) =? 0 then Some false else last ← cmd_history s !! Z.to_nat (Z.of_nat (length h) - 1); Some (bool_decide (last = sh_line s))) = Some b /\
      (b = true <-> h !! (length h - 1)%nat = Some t)) as (b&->&Hb).
    { destruct (Z.eqb_spec (Z.of_nat (length h)) 0) as [E|E].
      - exists false. split; [done|]. split; [done|]. intros Hl%lookup_lt_Some. lia.
      - destruct (lookup_lt_is_Some_2 h (length h - 1)) as [l El]; [lia|]. destruct (Hlast l _ El) as [Er Heq].
        replace (Z.to_nat (Z.of_nat (length h) - 1)) with (length h - 1)%nat by lia. rewrite Er. simpl. eexists. split; [done|].
        rewrite bool_decide_eq_true, Heq, El. split; [by intros ->|by intros [= ->]]. }
    cbn [mbind option_bind]. destruct b.
    + rewrite decide_True by (by apply Hb). cbn [mbind option_bind]. eexists. split; [done|]. simpl. destruct (Hu (length h) Hn5) as [_ Hu1]. rewrite Hn, Hu1. done.
    + rewrite decide_False by (intros E; by apply Hb in E). rewrite Erow. cbn [mbind option_bind]. eexists. split; [done|]. simpl.
      replace (Z.of_nat (length h) + 1) with (Z.of_nat (S (length h))) by lia. destruct (Hu (S (length h))) as [E1 E2]; [lia|]. rewrite ?E1, ?E2, Nat2Z.id.
      split_and!; try done; [by apply push_room|rewrite length_app; simpl; lia].
Qed.

Lemma enter_ok e s : shell_repr e s -> exists s' m rest, enter_key commands s = Some (s', m) /\
  msh_exec commands (e_text e ++ 0 :: rest) (Z.of_nat (length (e_text e))) = Some m /\
  shell_repr (Editor (e_stat e) [] [] (push_text (e_text e) (e_history e)) (length (push_text (e_text e) (e_history e)))) s'.
Proof.
  intros Hr. pose proof Hr as [Hst Hline [Ht Hl] Hpos _ _ _ _ _]. unfold enter_key.
  destruct (push_history_ok e s Hr) as (s1&->&Hl1&Hp1&Hc1&Hs1&(Hr1&Hh1&Hh2)&Hn1&Hcur1). cbn [mbind option_bind]. unfold line_memory. rewrite Hl1, Hp1, Hc1, Hpos, Hline.
  destruct (row_split _ Hl) as (k&Ek&->). rewrite <-app_assoc. cbn [app]. set (rest := replicate k 0 ++ _).
  destruct (msh_exec_total commands (e_text e) rest Hcs Ht) as [m Em]; [unfold FINSH_CMD_SIZE in Hl; lia|].
  rewrite Em. cbn [mbind option_bind]. eexists _, m, rest. split; [done|]. split; [done|].
  split; simpl; try done; try (by rewrite Hs1, Hst); [split; [constructor|simpl; unfold FINSH_CMD_SIZE; lia]|].
  split; [congruence|lia].
Qed.

Lemma ed_key_none k e e' t : ed_key k e = Some (e', t) -> k <> KEnter -> t = None.
Proof. destruct k; simpl; try done; intros H _; repeat case_match; inv_option; done. Qed.

Lemma plain_char_other ch c : plain_key ch = KChar c -> c = ch /\ ch <> 0 /\ ch =? 9 = false /\ (ch =? 127) || (ch =? 8) = false /\ (ch =? 13) || (ch =? 10) = false /\ (ch =? 0) || (ch =? 255) = false.
Proof.
  unfold plain_key. destruct ((ch =? 0) || (ch =? 255)) eqn:E0; [done|]. destruct (ch =? 9) eqn:E1; [done|]. destruct ((ch =? 127) || (ch =? 8)) eqn:E2; [done|].
  destruct ((ch =? 13) || (ch =? 10)) eqn:E3; [done|]. intros [= ->]. split_and!; try done. lia.
Qed.

(** What the shell does for a text that is run. *)
Definition runs_text (t : list Z) (m : msh_result) : Prop := exists rest, msh_exec commands (t ++ 0 :: rest) (Z.of_nat (length t)) = Some m.
Definition output_ok (t : option (list Z)) (r : option msh_result) : Prop :=
  match t, r with None, None => True | Some t, Some m => runs_text t m | _, _ => False end.

Lemma other_char_ok e s ch e' t : shell_repr e s -> ed_key (plain_key ch) e = Some (e', t) ->
  exists s' r, other_char commands ch s = Some (s', r) /\ shell_repr e' s' /\ output_ok t r.
Proof.
  intros Hr He. unfold other_char. unfold plain_key in He. destruct ((ch =? 0) || (ch =? 255)) eqn:E0; [injection He as <- <-; by exists s, None|].
  destruct (ch =? 9). { pose proof (ed_key_none _ _ _ _ He ltac:(done)) as ->. destruct (tab_ok e s e' Hr He) as (s'&->&Hr'). by exists s', None. }
  destruct ((ch =? 127) || (ch =? 8)). { injection He as <- <-. destruct (backspace_ok e s Hr) as (s'&->&Hr'). by exists s', None. }
  destruct ((ch =? 13) || (ch =? 10)). { injection He as <- <-. destruct (enter_ok e s Hr) as (s'&m&rest&->&Hm&Hr'). exists s', (Some m). split_and!; [done|done|by exists rest]. }
  cbn [ed_key] in He. destruct (Nat.ltb_spec (S (length (e_text e))) FINSH_CMD_SIZE); [|done]. injection He as <- <-.
  destruct (char_ok e s ch Hr) as (s'&->&Hr'); [lia|done|]. by exists s', None.
Qed.

Lemma repr_stat st e s : shell_repr e s -> shell_repr (Editor st (e_before e) (e_after e) (e_history e) (e_current e)) (set_stat st s).
Proof. intros []. split; done. Qed.

Lemma finsh_step_refines e s ch e' t : shell_repr e s -> ed_step ch e = Some (e', t) ->
  exists s' r, finsh_step commands ch s = Some (s', r) /\ shell_repr e' s' /\ output_ok t r.
Proof.
  intros Hr. unfold ed_step, finsh_step, decode. pose proof (sr_stat _ _ Hr) as Hst.
  destruct (ch =? 27); [intros [= <- <-]; eexists _, None; split; [done|]; split; [by apply repr_stat|done]|]. rewrite Hst.
  destruct (e_stat e) eqn:Es.
  - intros He. apply (other_char_ok e s ch); [done|]. replace e with (Editor WAIT_NORMAL (e_before e) (e_after e) (e_history e) (e_current e)) by (destruct e; simpl in *; congruence). done.
  - destruct (ch =? 91); [intros [= <- <-]; eexists _, None; split; [done|]; split; [by apply repr_stat|done]|]. intros He. eapply other_char_ok; [by apply repr_stat|done].
  - apply (repr_stat WAIT_NORMAL) in Hr. set (e0 := Editor WAIT_NORMAL _ _ _ _) in *. intros He.
    destruct (ch =? 65). { pose proof (ed_key_none _ _ _ _ He ltac:(done)) as ->. destruct (up_ok e0 _ e' Hr He) as (s'&->&Hr'). by exists s', None. }
    destruct (ch =? 66). { pose proof (ed_key_none _ _ _ _ He ltac:(done)) as ->. destruct (down_ok e0 _ e' Hr He) as (s'&->&Hr'). by exists s', None. }
    destruct (ch =? 68). { injection He as <- <-. eexists _, None. split; [done|]. split; [by apply (left_ok e0)|done]. }
    destruct (ch =? 67). { injection He as <- <-. eexists _, None. split; [done|]. split; [by apply (right_ok e0)|done]. }
    by apply (other_char_ok e0).
Qed.

Lemma finsh_run_refines chs : forall e s e' ts, shell_repr e s -> ed_run chs e = Some (e', ts) ->
  exists s' rs, finsh_run commands chs s = Some (s', rs) /\ shell_repr e' s' /\ Forall2 runs_text ts rs.
Proof.
  induction chs as [|ch chs IH]; intros e s e' ts Hr He; simpl in He |- *; [injection He as <- <-; by exists s, []|].
  destruct (ed_step ch e) as [[e1 t]|] eqn:E1; [|done]. simpl in He. destruct (ed_run chs e1) as [[e2 ts1]|] eqn:E2; [|done]. injection He as <- <-.
  destruct (finsh_step_refines e s ch e1 t Hr E1) as (s1&r&->&Hr1&Ho). cbn [mbind option_bind].
  destruct (IH e1 s1 e2 ts1 Hr1 E2) as (s2&rs&->&Hr2&Hf). exists s2, (option_list r ++ rs). split_and!; [done|done|].
  apply Forall2_app; [|done]. destruct t, r; simpl in *; try done. by repeat constructor.
Qed.

Lemma finsh_init_repr : shell_repr editor_start finsh_init.
Proof.
  split; simpl; try done; [|unfold FINSH_HISTORY_LINES; split; lia].
  change (text_fits []). split; [constructor|simpl; unfold FINSH_CMD_SIZE; lia].
Qed.
End Editor.

(** [move] is [rt_memmove] on the bytes of the line. *)
Lemma move_memmove l dst src n l' a : Forall is_u8 l -> move l dst src n = Some l' ->
  rt_memmove (memory_of a l) (a + dst) (a + src) (Z.to_nat n) = Some (memory_of a l').
Proof.
  intros Hl. unfold move. destruct (_ && _) eqn:E; [|done]. rewrite !andb_true_iff, !Z.leb_le in E. destruct E as [[[[Hd Hs] Hn] Hdn] Hsn]. intros [= <-].
  destruct (rt_memmove_spec (memory_of a l) (a + dst) (a + src) (Z.to_nat n)) as (m'&->&Hc); [by apply memory_of_ok|apply memory_of_mapped; lia..|].
  f_equal. apply map_eq. intros x. rewrite (Hc x), !memory_of_lookup.
  set (d := Z.to_nat dst). set (s := Z.to_nat src). set (k := Z.to_nat n). replace (Z.to_nat (dst + n)) with (d + k)%nat by lia.
  assert (length (take d l) = d) as E1 by (rewrite length_take; lia). assert (length (take k (drop s l)) = k) as E2 by (rewrite length_take, length_drop; lia).
  destruct (Z.leb_spec (a + dst) x) as [H1|H1], (Z.ltb_spec x (a + dst + Z.of_nat k)) as [H2|H2]; cbn [andb].
  - rewrite (proj2 (Z.leb_le _ _)), (proj2 (Z.leb_le _ _)) by lia. rewrite lookup_app_r, E1, lookup_app_l by lia. rewrite lookup_take_lt, lookup_drop by lia. f_equal. lia.
  - rewrite (proj2 (Z.leb_le _ _)) by lia. rewrite lookup_app_r, E1, lookup_app_r, E2, lookup_drop by lia. f_equal. lia.
  - destruct (Z.leb_spec a x); [|done]. rewrite lookup_app_l by lia. by rewrite lookup_take_lt by lia.
  - lia.
Qed.

(** ** Properties *)

(** C35: the line editor. Whatever characters are typed, as long as no text reaches 80
    characters, the shell behaves as an editor of texts with a cursor and a history of the
    last five: inserting and deleting at the cursor, moving it, recalling, completing; at
    each end of line exactly the text of the editor is run, and the line holds the text of
    the editor, filled up with zeros. *)
Theorem finsh_edits commands chs e ts : Forall text_ok commands -> ed_run commands chs editor_start = Some (e, ts) ->
  exists s rs, finsh_run commands chs finsh_init = Some (s, rs) /\
    sh_line s = e_text e ++ replicate (FINSH_CMD_SIZE - length (e_text e)) 0 /\
    line_position s = Z.of_nat (length (e_text e)) /\ line_curpos s = Z.of_nat (length (e_before e)) /\
    Forall2 (fun t r => exists rest, msh_exec commands (t ++ 0 :: rest) (Z.of_nat (length t)) = Some r) ts rs.
Proof.
  intros Hcs He. destruct (finsh_run_refines commands Hcs chs editor_start finsh_init e ts finsh_init_repr He) as (s&rs&->&Hr&Hf).
  exists s, rs. split_and!; [done|apply Hr..|done].
Qed.

(** Typing [helo], cursor left, [l], Enter; then [x], cursor up, Enter; then [he], Tab. *)
Definition demo_keys : list Z := [104; 101; 108; 111; 27; 91; 68; 108; 13; 120; 27; 91; 65; 10; 104; 101; 9].
Definition demo_names : list (list Z) := [[104; 101; 108; 112]; [104; 101; 108; 108; 111]].
Example finsh_edits_witness : exists e s rs, ed_run demo_names demo_keys editor_start = Some (e, [[104; 101; 108; 108; 111]; [104; 101; 108; 108; 111]]) /\
  finsh_run demo_names demo_keys finsh_init = Some (s, rs) /\ sh_line s = e_text e ++ replicate (FINSH_CMD_SIZE - length (e_text e)) 0 /\ e_text e = [104; 101; 108].
Proof.
  eexists. destruct (finsh_edits demo_names demo_keys (Editor WAIT_NORMAL [108; 101; 104] [] [[104; 101; 108; 108; 111]] 1) [[104; 101; 108; 108; 111]; [104; 101; 108; 108; 111]])
    as (s&rs&H1&H2&_); [repeat constructor; done|vm_compute; reflexivity|].
  exists s, rs. split; [vm_compute; reflexivity|]. split; [exact H1|]. split; [exact H2|reflexivity].
Defined.

(** ** Limits *)

(** The character that fills the line sets its position back to 0 but leaves the text. *)
Example full_line_not_cleared : (fun r => (line_position r.1, sh_line r.1)) <$> finsh_run [] (replicate 80 97) finsh_init = Some (0, replicate 80 97).
Proof. vm_compute. reflexivity. Qed.

(** When that text begins with a blank, the length that [msh_exec] decrements wraps below
    0 at the end of the line, and the command is looked for beyond it. *)
Example full_line_reads_past : finsh_run [] (32 :: replicate 79 97 ++ [13]) finsh_init = None.
Proof. vm_compute. reflexivity. Qed.

(** After a full line, Tab counts the old text; a character and two backspaces then move
    bytes from beyond the line. *)
Example full_line_moves_past : is_Some (finsh_run [] (replicate 80 97 ++ [9; 97; 8]) finsh_init) /\ finsh_run [] (replicate 80 97 ++ [9; 97; 8; 8]) finsh_init = None.
Proof. split; [eexists; vm_compute; reflexivity|vm_compute; reflexivity]. Qed.
