(* ===== verification/Device.v ===== *)
(** * Devices (rt-thread/src/device.c)

    A driver is a table of optional handlers over the device and the driver's own
    state; the calls of the device interface check the flags and the reference
    count around them. A handler that runs into a null pointer gives [None]. *)

From S2P Require Import Prelude Kernel.

(** ** Flags (include/rtdef.h) *)

Definition RT_DEVICE_FLAG_RDWR : Z := 3.
Definition RT_DEVICE_FLAG_STANDALONE : Z := 8.
Definition RT_DEVICE_FLAG_ACTIVATED : Z := 16.
Definition RT_DEVICE_FLAG_SUSPENDED : Z := 32.
Definition RT_DEVICE_FLAG_STREAM : Z := 64.
Definition RT_DEVICE_FLAG_INT_RX : Z := 256.
Definition RT_DEVICE_FLAG_DMA_RX : Z := 512.
Definition RT_DEVICE_FLAG_INT_TX : Z := 1024.
Definition RT_DEVICE_FLAG_DMA_TX : Z := 2048.
Definition RT_DEVICE_OFLAG_CLOSE : Z := 0.
Definition RT_DEVICE_OFLAG_OPEN : Z := 8.
Definition RT_DEVICE_OFLAG_MASK : Z := 3855.
Definition RT_ENOSYS : Z := 6.
Definition RT_EBUSY : Z := 7.

(** [flags & m] as a condition. *)
Definition has (flags m : Z) : bool := negb (Z.land flags m =? 0).

(** Testing single flags in combinations. *)
Lemma has_lor a b m : has (Z.lor a b) m = has a m || has b m.
Proof.
  unfold has. rewrite Z.land_lor_distr_l. destruct (Z.eqb_spec (Z.lor (Z.land a m) (Z.land b m)) 0) as [E|E].
  - apply Z.lor_eq_0_iff in E as [-> ->]. done.
  - destruct (Z.eqb_spec (Z.land a m) 0) as [E1|E1], (Z.eqb_spec (Z.land b m) 0) as [E2|E2]; try done.
    rewrite E1, E2 in E. done.
Qed.
Lemma has_land a b m : has (Z.land a b) m = has a (Z.land b m).
Proof. unfold has. by rewrite Z.land_assoc. Qed.
Lemma has_ldiff a b m : has (Z.ldiff a b) m = has a (Z.ldiff m b).
Proof. unfold has. rewrite !Z.ldiff_land, <-Z.land_assoc. by rewrite (Z.land_comm (Z.lnot b) m). Qed.
Lemma has_zero a : has a 0 = false.
Proof. unfold has. by rewrite Z.land_0_r. Qed.

Create HintDb flags.
#[export] Hint Rewrite has_lor has_land has_ldiff has_zero : flags.

(** Compute the masks that are constants. *)
Ltac flag_const :=
  match goal with
  | |- context [Z.land ?a ?b] => let v := eval vm_compute in (Z.land a b) in
      match v with Z0 => idtac | Zpos _ => idtac end; progress change (Z.land a b) with v
  | |- context [Z.ldiff ?a ?b] => let v := eval vm_compute in (Z.ldiff a b) in
      match v with Z0 => idtac | Zpos _ => idtac end; progress change (Z.ldiff a b) with v
  | |- context [has ?a ?b] => let v := eval vm_compute in (has a b) in
      match v with true => idtac | false => idtac end; progress change (has a b) with v
  end.
Ltac flags := repeat (autorewrite with flags; repeat flag_const; rewrite ?orb_false_r, ?orb_true_r).

Record rt_device := RtDevice {
  dev_flag : Z;
  dev_open_flag : Z;
  dev_ref_count : Z;             (* rt_uint8_t *)
  dev_rx_indicate : bool;        (* a callback is set *)
  dev_tx_complete : bool;
}.
Definition set_flag (x : Z) (d : rt_device) := RtDevice x (dev_open_flag d) (dev_ref_count d) (dev_rx_indicate d) (dev_tx_complete d).
Definition set_open_flag (x : Z) (d : rt_device) := RtDevice (dev_flag d) x (dev_ref_count d) (dev_rx_indicate d) (dev_tx_complete d).
Definition set_ref_count (x : Z) (d : rt_device) := RtDevice (dev_flag d) (dev_open_flag d) x (dev_rx_indicate d) (dev_tx_complete d).
Definition set_rx_indicate (x : bool) (d : rt_device) := RtDevice (dev_flag d) (dev_open_flag d) (dev_ref_count d) x (dev_tx_complete d).
Definition set_tx_complete (x : bool) (d : rt_device) := RtDevice (dev_flag d) (dev_open_flag d) (dev_ref_count d) (dev_rx_indicate d) x.

(** What [rt_device_register] sets, for a name not in use. *)
Definition registered (flags : Z) (d : rt_device) : rt_device := set_open_flag 0 (set_ref_count 0 (set_flag flags d)).

Section Device.
Context {D : Type}.
Definition dstate : Type := rt_device * D.
Implicit Types (s : dstate).

Definition dev_of (f : rt_device -> rt_device) (s : dstate) : dstate := (f (fst s), snd s).

(** The handlers: the new state and the result; a read also gives the bytes
    copied before it returns. *)
Record device_ops := DeviceOps {
  op_init : option (dstate -> option (dstate * Z));
  op_open : option (Z -> dstate -> option (dstate * Z));
  op_close : option (dstate -> option (dstate * Z));
  op_read : option (nat -> dstate -> option (dstate * (nat * list Z)));
  op_write : option (list Z -> dstate -> option (dstate * nat));
  op_control : option (Z -> Z -> dstate -> option (dstate * Z));
}.
Variable ops : device_ops.

Definition activate : dstate -> dstate := dev_of (fun d => set_flag (Z.lor (dev_flag d) RT_DEVICE_FLAG_ACTIVATED) d).

Definition rt_device_init s : option (dstate * Z) :=
  match op_init ops with
  | None => Some (s, RT_EOK)
  | Some init =>
      if has (dev_flag s.1) RT_DEVICE_FLAG_ACTIVATED then Some (s, RT_EOK)
      else '(s, result) ← init s; Some (if result =? RT_EOK then activate s else s, result)
  end.

(** The first part of [rt_device_open]: a device that is not active is initialised. *)
Definition open_init s : option (dstate * Z) :=
  if has (dev_flag s.1) RT_DEVICE_FLAG_ACTIVATED then Some (s, RT_EOK)
  else match op_init ops with
  | None => Some (activate s, RT_EOK)
  | Some init => '(s, result) ← init s; Some (if result =? RT_EOK then activate s else s, result)
  end.

Definition opened : dstate -> dstate :=
  dev_of (fun d => set_ref_count (u8 (dev_ref_count d + 1)) (set_open_flag (Z.lor (dev_open_flag d) RT_DEVICE_OFLAG_OPEN) d)).

Definition rt_device_open (oflag : Z) s : option (dstate * Z) :=
  '(s, result) ← open_init s;
  if negb (result =? RT_EOK) then Some (s, result)
  else if has (dev_flag s.1) RT_DEVICE_FLAG_STANDALONE && has (dev_open_flag s.1) RT_DEVICE_OFLAG_OPEN then Some (s, - RT_EBUSY)
  else
    '(s, result) ← match op_open ops with
                   | Some open => open oflag s
                   | None => Some (dev_of (set_open_flag (Z.land oflag RT_DEVICE_OFLAG_MASK)) s, RT_EOK)
                   end;
    Some (if (result =? RT_EOK) || (result =? - RT_ENOSYS) then opened s else s, result).

Definition rt_device_close s : option (dstate * Z) :=
  if dev_ref_count s.1 =? 0 then Some (s, - RT_ERROR)
  else
    let s := dev_of (fun d => set_ref_count (u8 (dev_ref_count d - 1)) d) s in
    if negb (dev_ref_count s.1 =? 0) then Some (s, RT_EOK)
    else
      '(s, result) ← match op_close ops with Some close => close s | None => Some (s, RT_EOK) end;
      Some (if (result =? RT_EOK) || (result =? - RT_ENOSYS) then dev_of (set_open_flag RT_DEVICE_OFLAG_CLOSE) s else s, result).

(** The size returned, the bytes copied and the error number set. *)
Definition rt_device_read (size : nat) s : option (dstate * (nat * list Z) * Z) :=
  if dev_ref_count s.1 =? 0 then Some (s, (0%nat, []), - RT_ERROR)
  else match op_read ops with
  | Some read => '(s, r) ← read size s; Some (s, r, RT_EOK)
  | None => Some (s, (0%nat, []), - RT_ENOSYS)
  end.

(** The size returned and the error number set. *)
Definition rt_device_write (data : list Z) s : option (dstate * nat * Z) :=
  if dev_ref_count s.1 =? 0 then Some (s, 0%nat, - RT_ERROR)
  else match op_write ops with
  | Some write => '(s, size) ← write data s; Some (s, size, RT_EOK)
  | None => Some (s, 0%nat, - RT_ENOSYS)
  end.

Definition rt_device_control (cmd arg : Z) s : option (dstate * Z) :=
  match op_control ops with Some control => control cmd arg s | None => Some (s, - RT_ENOSYS) end.

Definition rt_device_set_rx_indicate (set : bool) s : dstate * Z := (dev_of (set_rx_indicate set) s, RT_EOK).
Definition rt_device_set_tx_complete (set : bool) s : dstate * Z := (dev_of (set_tx_complete set) s, RT_EOK).

(** ** Reference counting *)

(** A device in use by [n] clients. *)
Record in_use (n : Z) s : Prop := {
  iu_count : dev_ref_count s.1 = n;
  iu_range : 0 <= n < 256;
  iu_open : has (dev_open_flag s.1) RT_DEVICE_OFLAG_OPEN = (0 <? n);
}.

End Device.
Arguments device_ops : clear implicits.
Arguments dstate : clear implicits.
