(* ===== verification/Object.v ===== *)
(** * Kernel objects (rt-thread/src/object.c)

    Every kernel object begins with a name, a type and a list node; the container
    has one list of objects for each class. Names and types are bytes in memory,
    the list nodes a heap of pointers; objects that are allocated lie in areas of the
    heap of mem.c. [None] is a null pointer that is followed or a failing assertion. *)

From S2P Require Import Prelude RtList Sched Kernel Device Mem MemSpec KString.

(** ** Classes (include/rtdef.h) *)

Definition RT_NAME_MAX : nat := 8.
Definition RT_Object_Class_Device : Z := 9.
Definition RT_Object_Class_Unknown : Z := 12.

(** The types of [rt_object_container] in the configuration: threads, semaphores,
    mutexes, events, mailboxes, message queues, memory heaps, memory pools,
    devices, timers. *)
Definition rt_object_container : list Z := [1; 2; 3; 4; 5; 6; 7; 8; 9; 10].

(** The loop of [rt_object_get_information]; [None] for [RT_NULL]. *)
Fixpoint information_from (types : list Z) (index : nat) (type : Z) : option nat :=
  match types with
  | [] => None
  | t :: types => if t =? type then Some index else information_from types (S index) type
  end.
Definition rt_object_get_information (type : Z) : option nat := information_from rt_object_container 0 type.

(** The bytes and the list nodes in memory. *)
Record ostate := OState { o_m : memory; o_l : list_heap Z }.

(** [struct rt_object]: the name at 0, the type at 8, the flag at 9, the node at 12. *)
Definition list_node (object : Z) : Z := object + 12.

Section Objects.
(** The address of the container, and the size of the objects of a class, as the
    compiler lays them out. *)
Context (container : Z) (object_size : Z -> Z).

(** [&(rt_object_container[i].object_list)]. *)
Definition object_list (i : nat) : Z := container + 16 * Z.of_nat i + 4.

Definition rt_object_init (object type name : Z) (st : ostate) : option ostate :=
  i ← rt_object_get_information type;
  m ← store (o_m st) (object + 8) (Z.lor type RT_Object_Class_Static);
  m ← rt_strncpy m object name RT_NAME_MAX;
  l ← rt_list_insert_after (object_list i) (list_node object) (o_l st);
  Some (OState m l).

Definition rt_object_detach (object : Z) (st : ostate) : option ostate :=
  m ← store (o_m st) (object + 8) 0;
  l ← rt_list_remove (list_node object) (o_l st);
  Some (OState m l).

(** [rt_memset(object, 0x0, size)]: the node has null pointers. *)
Definition clear_object (object : Z) (size : nat) (st : ostate) : option ostate :=
  m ← rt_memset (o_m st) object 0 size;
  Some (OState m (LHeap (<[list_node object := 0]> (nx (o_l st))) (<[list_node object := 0]> (pv (o_l st))))).

(** With the heap of mem.c; 0 for [RT_NULL]. *)
Definition rt_object_allocate (type name : Z) (st : ostate) (h : heap) : option (ostate * heap * Z) :=
  i ← rt_object_get_information type;
  '(h, object) ← rt_malloc (object_size type) h;
  match object with
  | None => Some (st, h, 0)
  | Some object =>
      st ← clear_object object (Z.to_nat (object_size type)) st;
      m ← store (o_m st) (object + 8) type;
      m ← store m (object + 9) 0;
      m ← rt_strncpy m object name RT_NAME_MAX;
      l ← rt_list_insert_after (object_list i) (list_node object) (o_l st);
      Some (OState m l, h, object)
  end.

(** The object must not be static: [RT_ASSERT]. *)
Definition rt_object_delete (object : Z) (st : ostate) (h : heap) : option (ostate * heap) :=
  t ← o_m st !! (object + 8);
  if has t RT_Object_Class_Static then None
  else
    st ← rt_object_detach object st;
    h ← rt_free object h;
    Some (st, h).

Definition rt_object_is_systemobject (object : Z) (st : ostate) : option bool :=
  t ← o_m st !! (object + 8); Some (has t RT_Object_Class_Static).
Definition rt_object_get_type (object : Z) (st : ostate) : option Z :=
  t ← o_m st !! (object + 8); Some (Z.land t (Z.lnot RT_Object_Class_Static)).

(** [for (node = list.next; node != &list; node = node->next)], looking for a name. *)
Fixpoint find_loop (fuel : nat) (st : ostate) (head node name : Z) : option Z :=
  if node =? head then Some 0
  else match fuel with
  | O => None
  | S fuel =>
      r ← rt_strncmp (o_m st) (node - 12) name RT_NAME_MAX;
      if r =? 0 then Some (node - 12)
      else node ← nx (o_l st) !! node; find_loop fuel st head node name
  end.
Definition find_in (i : nat) (name : Z) (st : ostate) : option Z :=
  node ← nx (o_l st) !! object_list i; find_loop (size (nx (o_l st))) st (object_list i) node name.

Definition rt_object_find (name type : Z) (st : ostate) : option Z :=
  if (name =? 0) || (RT_Object_Class_Unknown <? type) then Some 0
  else i ← rt_object_get_information type; find_in i name st.

End Objects.

(** ** Names *)

(** Nothing but the [n] bytes at [lo] has changed. *)
Definition same_off (lo : Z) (n : nat) (m m' : memory) : Prop := forall x, x < lo \/ lo + Z.of_nat n <= x -> m' !! x = m !! x.

(** Up to [n] bytes of the string [w] at [a], with its end if it is shorter. *)
Definition text (m : memory) (a : Z) (n : nat) (w : list Z) : Prop :=
  Forall (fun c => c <> 0) w /\ forall k, (k < n)%nat -> (k <= length w)%nat -> m !! (a + Z.of_nat k) = Some (default 0 (w !! k)).

Lemma cstr_text m a n w : cstr m a w -> text m a n w.
Proof.
  intros (Hn & Hi & He). split; [done|]. intros k _ Hk. destruct (decide (k = length w)) as [->|Hne].
  - by rewrite He, (lookup_ge_None_2 w (length w)) by lia.
  - destruct (lookup_lt_is_Some_2 w k) as [c Hc]; [lia|]. rewrite Hc. by apply Hi.
Qed.

Lemma text_cons m a n c w : text m a (S n) (c :: w) -> c <> 0 /\ m !! a = Some c /\ text m (a + 1) n w.
Proof.
  intros [[Hc Hn]%Forall_cons Hk]. split; [done|]. split; [rewrite <-(Z.add_0_r a); apply (Hk 0%nat); simpl; lia|]. split; [done|].
  intros k H1 H2. replace (a + 1 + Z.of_nat k) with (a + Z.of_nat (S k)) by lia. apply (Hk (S k)); simpl; lia.
Qed.
Lemma text_nil m a n : text m a (S n) [] -> m !! a = Some 0.
Proof. intros [_ Hk]. rewrite <-(Z.add_0_r a). apply (Hk 0%nat); simpl; lia. Qed.

(** [rt_strncmp] tells whether the first [n] bytes of two texts are the same. *)
Lemma strncmp_text m n : forall a b w v, bytes_ok m -> text m a n w -> text m b n v ->
  exists r, rt_strncmp m a b n = Some r /\ (r = 0 <-> take n w = take n v).
Proof.
  unfold rt_strncmp. induction n as [|n IH]; intros a b w v Hm Hw Hv; [by exists 0|]. cbn [strncmp_from].
  assert (forall x y, is_u8 x -> is_u8 y -> s8 (x - y) = 0 <-> x = y) as Hs8.
  { intros x y Hx Hy. unfold s8. destruct (Z.ltb_spec ((x - y) mod 256) 128); word. }
  assert (forall p u, text m p (S n) u -> m !! p = Some (default 0 (head u)) /\ (u = [] \/ default 0 (head u) <> 0 /\ text m (p + 1) n (tail u))) as Hhd.
  { intros p [|c u] Hu; [split; [by eapply text_nil|by left]|]. apply text_cons in Hu as (? & ? & ?). split; [done|by right]. }
  destruct (Hhd a w Hw) as [Ex Hw']. destruct (Hhd b v Hv) as [Ey Hv']. rewrite Ex, Ey. cbn [mbind option_bind].
  pose proof (Hs8 _ _ (Hm _ _ Ex) (Hm _ _ Ey)) as H0.
  destruct w as [|c w], v as [|d v]; simpl in *.
  - by exists 0.
  - destruct Hv' as [?|[Hd _]]; [done|]. rewrite orb_true_r. exists (s8 (0 - d)). split; [done|]. rewrite H0. split; [by intros <-|done].
  - destruct Hw' as [?|[Hc _]]; [done|]. rewrite (proj2 (Z.eqb_neq _ _)) by (rewrite H0; done). simpl. eexists. split; [done|]. rewrite H0. split; [by intros ->|done].
  - destruct Hw' as [?|[Hc Hw']]; [done|]. destruct Hv' as [?|[_ Hv']]; [done|]. rewrite (proj2 (Z.eqb_neq c 0) Hc), orb_false_r.
    destruct (Z.eqb_spec (s8 (c - d)) 0) as [E|E]; simpl.
    + rewrite E. destruct (IH (a + 1) (b + 1) w v Hm Hw' Hv') as (r & -> & Hr). exists r. split; [done|]. rewrite Hr. apply H0 in E as ->.
      split; [by intros ->|by intros [= ->]].
    + eexists. split; [done|]. split; [done|]. intros [= -> _]. exfalso. by apply E, H0.
Qed.

Lemma byte_write m a v : is_Some (m !! a) -> bytes_ok m ->
  exists m', store m a v = Some m' /\ bytes_ok m' /\ m' !! a = Some (u8 v) /\ same_off a 1 m m'.
Proof.
  intros [b Hb] Hm. unfold store. rewrite Hb. simpl. eexists. split; [done|]. splits.
  - apply map_Forall_insert_2; [apply u8_range|done].
  - by rewrite lookup_insert_eq.
  - intros x Hx. rewrite lookup_insert_ne; [done|lia].
Qed.

Lemma same_off_trans lo n lo1 n1 lo2 n2 m m1 m2 :
  same_off lo1 n1 m m1 -> same_off lo2 n2 m1 m2 -> lo <= lo1 -> lo1 + Z.of_nat n1 <= lo + Z.of_nat n ->
  lo <= lo2 -> lo2 + Z.of_nat n2 <= lo + Z.of_nat n -> same_off lo n m m2.
Proof. intros H1 H2 ? ? ? ? x Hx. rewrite H2 by lia. apply H1. lia. Qed.

Lemma fill_spec n : forall m a v, mapped m a n -> bytes_ok m ->
  exists m', set_bytes m a v n = Some m' /\ bytes_ok m' /\ same_off a n m m' /\ forall k, (k < n)%nat -> m' !! (a + Z.of_nat k) = Some (u8 v).
Proof.
  induction n as [|n IH]; intros m a v Ha Hm; cbn [set_bytes].
  - exists m. splits; [done|done|done|lia].
  - destruct (byte_write m a v) as (m1 & -> & Hm1 & Hv & Hs1); [apply Ha; lia|done|]. simpl.
    destruct (IH m1 (a + 1) v) as (m2 & -> & Hm2 & Hs2 & Hk); [|done|].
    { intros x Hx. rewrite Hs1 by lia. apply Ha. lia. }
    exists m2. splits; [done|done|eapply same_off_trans; [exact Hs1|exact Hs2|lia..]|]. intros [|k] Hlt.
    + rewrite Z.add_0_r, Hs2 by lia. done.
    + replace (a + Z.of_nat (S k)) with (a + 1 + Z.of_nat k) by lia. apply Hk. lia.
Qed.

(** [rt_strncpy] of a string that lies elsewhere: the bytes, then zeros. *)
Lemma strncpy_spec n : forall m dst src w, mapped m dst n -> bytes_ok m -> cstr m src w ->
  src + Z.of_nat (length w) < dst \/ dst + Z.of_nat n <= src ->
  exists m', rt_strncpy m dst src n = Some m' /\ bytes_ok m' /\ same_off dst n m m' /\
    forall k, (k < n)%nat -> m' !! (dst + Z.of_nat k) = Some (default 0 (w !! k)).
Proof.
  induction n as [|n IH]; intros m dst src w Hd Hm Hw Hap; cbn [rt_strncpy].
  - exists m. splits; [done|done|done|lia].
  - assert (m !! src = Some (default 0 (head w))) as E by (destruct w; [by apply cstr_nil|apply cstr_cons in Hw; simpl; tauto]).
    assert (is_u8 (default 0 (head w))) as Hu by exact (Hm _ _ E). rewrite E. simpl.
    destruct (byte_write m dst (default 0 (head w))) as (m1 & -> & Hm1 & Hv & Hs1); [apply Hd; lia|done|]. simpl. rewrite u8_small in Hv by done.
    assert (mapped m1 (dst + 1) n) as Hd1 by (intros x Hx; rewrite Hs1 by lia; apply Hd; lia).
    destruct w as [|c w]; simpl in *.
    + destruct (fill_spec n m1 (dst + 1) 0 Hd1 Hm1) as (m2 & -> & Hm2 & Hs2 & Hk).
      exists m2. splits; [done|done|eapply same_off_trans; [exact Hs1|exact Hs2|lia..]|]. intros [|k] Hlt.
      * by rewrite Z.add_0_r, Hs2 by lia.
      * replace (dst + Z.of_nat (S k)) with (dst + 1 + Z.of_nat k) by lia. apply Hk. lia.
    + apply cstr_cons in Hw as (Hc & _ & Hw). rewrite (proj2 (Z.eqb_neq _ _) Hc).
      destruct (IH m1 (dst + 1) (src + 1) w) as (m2 & -> & Hm2 & Hs2 & Hk); [done|done| |lia|].
      { destruct Hw as (Hn & Hi & He). split; [done|]. split; [intros i x Hx; pose proof (lookup_lt_Some _ _ _ Hx)|]; rewrite Hs1 by lia; [by apply Hi|done]. }
      exists m2. splits; [done|done|eapply same_off_trans; [exact Hs1|exact Hs2|lia..]|]. intros [|k] Hlt.
      * by rewrite Z.add_0_r, Hs2 by lia.
      * replace (dst + Z.of_nat (S k)) with (dst + 1 + Z.of_nat k) by lia. apply Hk. lia.
Qed.

(** ** The registry of objects *)

(** An object: its address, the first bytes of its name, whether it is static. *)
Record entry := Entry { e_obj : Z; e_name : list Z; e_static : bool }.
(** For every class the objects, the newest first. *)
Notation registry := (list (list entry)).

Definition objs (R : registry) : list Z := e_obj <$> concat R.
Definition reg_add (i : nat) (e : entry) (R : registry) : registry := alter (cons e) i R.
Definition reg_remove (o : Z) (R : registry) : registry := filter (fun e => e_obj e <> o) <$> R.
(** The newest object of a class with a name, 0 if there is none. *)
Definition reg_find (i : nat) (w : list Z) (R : registry) : Z :=
  default 0 (e_obj <$> head (filter (fun e => e_name e = take RT_NAME_MAX w) (default [] (R !! i)))).
Lemma concat_inj R i j l l' e e' :
  NoDup (objs R) -> R !! i = Some l -> R !! j = Some l' -> e ∈ l -> e' ∈ l' -> e_obj e = e_obj e' -> i = j /\ e = e'.
Proof.
  assert (forall (l : list entry) x x', NoDup (e_obj <$> l) -> x ∈ l -> x' ∈ l -> e_obj x = e_obj x' -> x = x') as Hinj.
  { intros l0 x x' Hnd [n Hn]%list_elem_of_lookup [n' Hn']%list_elem_of_lookup E.
    assert (n = n') as ->; [|congruence]. eapply (NoDup_lookup (e_obj <$> l0)); [done|by rewrite list_lookup_fmap, Hn|by rewrite list_lookup_fmap, Hn', E]. }
  unfold objs. revert i j. induction R as [|l0 R IH]; intros i j Hnd Hi Hj He He' E; [done|]. simpl in Hnd. rewrite fmap_app in Hnd.
  apply NoDup_app in Hnd as (Hn0 & Hd & HnR).
  assert (forall k lk x x', R !! k = Some lk -> x ∈ lk -> x' ∈ l0 -> e_obj x = e_obj x' -> False) as Hx.
  { intros k lk x x' Hk Hx Hx' Ex. apply (Hd (e_obj x')); [by apply list_elem_of_fmap_2|]. rewrite <-Ex. apply list_elem_of_fmap_2, list_elem_of_In, in_concat.
    exists lk. split; apply list_elem_of_In; [by eapply list_elem_of_lookup_2|done]. }
  destruct i as [|i], j as [|j]; simpl in Hi, Hj.
  - injection Hi as ->. injection Hj as ->. split; [done|by apply (Hinj _ e e' Hn0)].
  - injection Hi as ->. by destruct (Hx j l' e' e).
  - injection Hj as ->. by destruct (Hx i l e e').
  - destruct (IH i j) as [-> ->]; done.
Qed.

Lemma objs_elem R o : o ∈ objs R <-> exists i l e, R !! i = Some l /\ e ∈ l /\ e_obj e = o.
Proof.
  unfold objs. rewrite list_elem_of_fmap. setoid_rewrite list_elem_of_In. setoid_rewrite in_concat. split.
  - intros (e & -> & l & Hl & He). apply list_elem_of_In, list_elem_of_lookup in Hl as [i Hi]. exists i, l, e. done.
  - intros (i & l & e & Hl & He & <-). exists e. split; [done|]. exists l. split; [apply list_elem_of_In; by eapply list_elem_of_lookup_2|done].
Qed.

Lemma objs_add R i l e : R !! i = Some l -> objs (reg_add i e R) ≡ₚ e_obj e :: objs R.
Proof.
  unfold objs, reg_add. intros Hi. rewrite <-(fmap_cons e_obj). apply fmap_Permutation. revert i Hi.
  induction R as [|l0 R IH]; intros [|i] Hi; try done. simpl in *. rewrite (IH i Hi). by rewrite Permutation_middle.
Qed.

Lemma objs_remove R o : objs (reg_remove o R) `sublist_of` objs R /\ forall x, x ∈ objs (reg_remove o R) -> x <> o.
Proof.
  assert (concat (reg_remove o R) = filter (fun e => e_obj e <> o) (concat R)) as E.
  { unfold reg_remove. induction R as [|l R IH]; [done|]. rewrite fmap_cons, !concat_cons, filter_app, <-IH. done. }
  unfold objs. rewrite E. split; [apply fmap_sublist, sublist_filter|]. intros x (e & -> & He)%list_elem_of_fmap. by apply list_elem_of_filter in He as [? _].
Qed.

(** Removing an object takes one entry out of the list of its class. *)
Lemma remove_entry R i l1 e l2 :
  NoDup (objs R) -> R !! i = Some (l1 ++ e :: l2) -> reg_remove (e_obj e) R = <[i := l1 ++ l2]> R.
Proof.
  intros Hnd Hi. assert (forall j l, R !! j = Some l -> forall e', e' ∈ l -> e_obj e' = e_obj e -> j = i /\ e' = e) as Hu.
  { intros j l Hj e' He' E. eapply concat_inj; try done. set_solver. }
  assert (NoDup (l1 ++ e :: l2)) as Hn.
  { unfold objs in Hnd. rewrite <-(take_drop_middle R i _ Hi), concat_app, !fmap_app in Hnd. simpl in Hnd. rewrite fmap_app in Hnd.
    apply NoDup_app in Hnd as (_ & _ & Hnd). apply NoDup_app in Hnd as (Hnd & _). by eapply NoDup_fmap_1. }
  apply NoDup_app in Hn as (_ & Hd & Hn2). apply NoDup_cons in Hn2 as [Hn2 _].
  assert (forall l : list entry, (forall e', e' ∈ l -> e_obj e' <> e_obj e) -> filter (fun e' => e_obj e' <> e_obj e) l = l) as Hall.
  { induction l as [|x l IH]; intros Hl; [done|]. rewrite filter_cons_True by (apply Hl; by left). f_equal. apply IH. intros. apply Hl. by right. }
  apply list_eq. intros j. unfold reg_remove. rewrite list_lookup_fmap. destruct (decide (j = i)) as [->|Hne].
  - rewrite list_lookup_insert_eq by (by eapply lookup_lt_Some). rewrite Hi. simpl. f_equal. rewrite filter_app, filter_cons_False by tauto.
    rewrite !Hall; [done| |]; intros e' He' E; (destruct (Hu _ _ Hi e') as [_ ->]; [set_solver|done|]); [done|]. apply (Hd e); set_solver.
  - rewrite list_lookup_insert_ne by done. destruct (R !! j) as [l|] eqn:Hj; [|done]. simpl. f_equal. apply Hall.
    intros e' He' E. by destruct (Hu _ _ Hj e' He' E).
Qed.

(** ** The state of a registry *)

Section Registry.
Context (container : Z).
Notation object_list := (object_list container).

(** An object does not overlap the container. *)
Definition outside (o : Z) : Prop := o + 20 <= container \/ container + 160 <= o.

Definition entry_ok (m : memory) (i : nat) (e : entry) : Prop :=
  (length (e_name e) <= RT_NAME_MAX)%nat /\ text m (e_obj e) RT_NAME_MAX (e_name e) /\
  exists t, rt_object_container !! i = Some t /\ m !! (e_obj e + 8) = Some (if e_static e then Z.lor t RT_Object_Class_Static else t).

Notation nodes l := ((fun e => list_node (e_obj e)) <$> l).

Record represents (st : ostate) (R : registry) : Prop := {
  rp_len : length R = length rt_object_container;
  rp_bytes : bytes_ok (o_m st);
  rp_nodup : NoDup (objs R);
  rp_apart : forall o o', o ∈ objs R -> o' ∈ objs R -> o <> o' -> 20 <= Z.abs (o - o');
  rp_outside : Forall outside (objs R);
  rp_mapped : Forall (fun o => is_Some (o_m st !! (o + 8))) (objs R);
  rp_entry : forall i l e, R !! i = Some l -> e ∈ l -> entry_ok (o_m st) i e;
  rp_ring : forall i l, R !! i = Some l -> ring (o_l st) (object_list i) (nodes l);
}.

(** A place for an object: in memory, apart from the objects there are. *)
Definition vacant (st : ostate) (R : registry) (o : Z) : Prop :=
  mapped (o_m st) o 10 /\ is_Some (nx (o_l st) !! list_node o) /\ is_Some (pv (o_l st) !! list_node o) /\
  outside o /\ forall o', o' ∈ objs R -> 20 <= Z.abs (o - o').

(** A string for its name, which lies elsewhere. *)
Definition named (m : memory) (o a : Z) (size : Z) (w : list Z) : Prop :=
  cstr m a w /\ (a + Z.of_nat (length w) < o \/ o + size <= a).

Lemma ring_nodes st R i l : represents st R -> R !! i = Some l -> NoDup (object_list i :: nodes l).
Proof.
  intros Hr Hi. constructor.
  - intros (e & Ee & He)%list_elem_of_fmap. assert (e_obj e ∈ objs R) as Ho by (apply objs_elem; by exists i, l, e).
    pose proof (proj1 (Forall_forall _ _) (rp_outside _ _ Hr) _ Ho) as Hout. apply lookup_lt_Some in Hi. rewrite (rp_len _ _ Hr) in Hi.
    unfold outside, Object.object_list, list_node in *. simpl in *. lia.
  - rewrite (list_fmap_compose e_obj list_node). apply NoDup_fmap_2; [unfold list_node; intros ? ?; lia|].
    pose proof (rp_nodup _ _ Hr) as Hn. unfold objs in Hn. rewrite <-(take_drop_middle R i _ Hi), concat_app, !fmap_app in Hn. simpl in Hn. rewrite fmap_app in Hn.
    apply NoDup_app in Hn as (_ & _ & Hn). by apply NoDup_app in Hn as (? & _).
Qed.

(** The rings of two classes share no node. *)
Lemma rings_apart st R i j l l' a :
  represents st R -> R !! i = Some l -> R !! j = Some l' -> i <> j -> a ∈ object_list i :: nodes l -> a ∉ object_list j :: nodes l'.
Proof.
  intros Hr Hi Hj Hne Ha Ha'. pose proof (lookup_lt_Some _ _ _ Hi) as Li. pose proof (lookup_lt_Some _ _ _ Hj) as Lj. rewrite (rp_len _ _ Hr) in Li, Lj. simpl in Li, Lj.
  assert (forall k lk, R !! k = Some lk -> forall e, e ∈ lk -> outside (e_obj e)) as Hout.
  { intros k lk Hk e He. eapply (proj1 (Forall_forall _ _) (rp_outside _ _ Hr)). apply objs_elem. by exists k, lk, e. }
  apply elem_of_cons in Ha as [->|(e & -> & He)%list_elem_of_fmap]; apply elem_of_cons in Ha' as [E|(e' & E & He')%list_elem_of_fmap].
  - unfold Object.object_list in E. lia.
  - pose proof (Hout _ _ Hj _ He') as Ho. unfold outside, Object.object_list, list_node in *. lia.
  - pose proof (Hout _ _ Hi _ He) as Ho. unfold outside, Object.object_list, list_node in *. lia.
  - destruct (concat_inj R i j l l' e e' (rp_nodup _ _ Hr) Hi Hj He He') as [-> _]; [unfold list_node in E; lia|done].
Qed.

(** Insertion of a node with any pointers. *)
Lemma insert_after_any (h : list_heap Z) (l : Z) ys n :
  NoDup (n :: l :: ys) -> ring h l ys -> is_Some (nx h !! n) -> is_Some (pv h !! n) ->
  exists h', rt_list_insert_after l n h = Some h' /\ ring h' l (n :: ys) /\ agrees_off (n :: l :: ys) h h'.
Proof.
  intros Hnd Hr Hn Hp. destruct (ring_first _ _ _ Hr) as [Hf1 Hf2]. pose proof Hnd as [Hn1 [Hl1 _]%NoDup_cons]%NoDup_cons.
  pose proof (first_of_elem l ys) as Hf. assert (n <> l /\ n <> first_of l ys) as [Hnl Hnf] by set_solver.
  set (h1 := rt_list_init n h).
  assert (forall a, a <> n -> nx h1 !! a = nx h !! a /\ pv h1 !! a = pv h !! a) as H1.
  { intros a Ha. unfold h1, rt_list_init. simpl. by rewrite !lookup_insert_ne. }
  destruct (ring_insert_after h1 l ys n Hnd) as (h' & Hins & Hr' & Ha').
  { eapply (ring_agrees [n]); [|intros a Ha ->%list_elem_of_singleton; set_solver|exact Hr]. intros a Ha. apply H1. set_solver. }
  { unfold ring, lseg, link, h1, rt_list_init. simpl. by rewrite !lookup_insert_eq. }
  exists h'. splits; [|done|].
  - rewrite <-Hins. rewrite !(insert_after_heap _ l n (first_of l ys)); try done.
    + unfold h1, rt_list_init. simpl. rewrite insert_insert_eq. f_equal. f_equal.
      rewrite (insert_insert_ne _ (first_of l ys) n) by done. by rewrite insert_insert_eq.
    + destruct (H1 l) as [-> _]; done.
    + destruct (H1 (first_of l ys)) as [_ ->]; done.
    + unfold h1. simpl. by rewrite lookup_insert_eq.
    + unfold h1. simpl. by rewrite lookup_insert_eq.
  - intros a Ha. destruct (Ha' a Ha) as [-> ->]. apply H1. set_solver.
Qed.

Lemma entry_keep m m' i e : entry_ok m i e -> (forall x, e_obj e <= x < e_obj e + 20 -> m' !! x = m !! x) -> entry_ok m' i e.
Proof.
  intros (H1 & [H2 H3] & t & H4 & H5) Hs. split; [done|]. split; [split; [done|]|exists t; split; [done|rewrite Hs by lia; done]].
  intros k Hk1 Hk2. rewrite Hs by (unfold RT_NAME_MAX in *; lia). by apply H3.
Qed.

(** A new object: the end of [rt_object_init] and [rt_object_allocate]. [m0], [l0]:
    the memory with the type in place, the pointers with the node cleared or not. *)
Lemma attach_ok st (R : registry) o a w i t (static : bool) m0 l0 :
  represents st R -> vacant st R o -> rt_object_container !! i = Some t ->
  bytes_ok m0 -> same_off o 20 (o_m st) m0 -> mapped m0 o 10 -> m0 !! (o + 8) = Some (if static then Z.lor t RT_Object_Class_Static else t) ->
  agrees_off [list_node o] (o_l st) l0 -> is_Some (nx l0 !! list_node o) -> is_Some (pv l0 !! list_node o) ->
  named m0 o a 20 w ->
  exists m l, rt_strncpy m0 o a RT_NAME_MAX = Some m /\ rt_list_insert_after (object_list i) (list_node o) l0 = Some l /\
    represents (OState m l) (reg_add i (Entry o (take RT_NAME_MAX w) static) R).
Proof.
  assert (Z.of_nat RT_NAME_MAX = 8) as H8 by done. intros Hr (_ & _ & _ & Hout & Hap) Ht Hm0 Hs0 Hmap Htype Hag Hnx Hpv [Hw Hdis].
  destruct (lookup_lt_is_Some_2 R i) as [li Hi]; [rewrite (rp_len _ _ Hr); by eapply lookup_lt_Some|].
  assert (forall j l e, R !! j = Some l -> e ∈ l -> 20 <= Z.abs (o - e_obj e)) as Hap'.
  { intros j l e Hj He. apply Hap, objs_elem. by exists j, l, e. }
  assert (forall j l, R !! j = Some l -> list_node o ∉ object_list j :: nodes l) as Hnode.
  { intros j l Hj. apply not_elem_of_cons. split.
    - pose proof (lookup_lt_Some _ _ _ Hj) as Lj. rewrite (rp_len _ _ Hr) in Lj. simpl in Lj. unfold outside, list_node, Object.object_list in *. lia.
    - intros (e & E & He)%list_elem_of_fmap. specialize (Hap' _ _ _ Hj He). unfold list_node in E. lia. }
  assert (forall j l, R !! j = Some l -> ring l0 (object_list j) (nodes l)) as Hring0.
  { intros j l Hj. eapply ring_agrees; [exact Hag| |by apply (rp_ring _ _ Hr)]. intros b Hb ->%list_elem_of_singleton. by apply (Hnode j l Hj). }
  destruct (strncpy_spec RT_NAME_MAX m0 o a w) as (m & Em & Hm & Hs & Hk); [intros x Hx; apply Hmap; lia|done|done|lia|].
  destruct (insert_after_any l0 (object_list i) (nodes li) (list_node o)) as (l & El & Hrl & Hal); [|by apply Hring0|done|done|].
  { constructor; [by apply Hnode|by eapply ring_nodes]. }
  exists m, l. splits; [done|done|].
  assert (forall x, x < o \/ o + 20 <= x -> m !! x = o_m st !! x) as Hsame by (intros x Hx; rewrite Hs, Hs0 by lia; done).
  assert (text m o RT_NAME_MAX (take RT_NAME_MAX w)) as Htxt.
  { destruct Hw as [Hn _]. split; [by apply Forall_take|]. intros k H1 H2. rewrite Hk by done. by rewrite lookup_take_lt. }
  pose proof (objs_add R i li (Entry o (take RT_NAME_MAX w) static) Hi) as Eo. simpl in Eo.
  assert (o ∉ objs R) as Hno by (intros H; specialize (Hap o H); lia).
  split; simpl.
  - unfold reg_add. rewrite length_alter. apply (rp_len _ _ Hr).
  - done.
  - rewrite Eo. constructor; [done|apply (rp_nodup _ _ Hr)].
  - intros x y. rewrite Eo, !elem_of_cons. intros [->|Hx] [->|Hy] Hne; [done|by apply Hap|specialize (Hap x Hx); lia|by apply (rp_apart _ _ Hr)].
  - rewrite Eo. constructor; [done|apply (rp_outside _ _ Hr)].
  - rewrite Eo. constructor.
    + rewrite Hs by lia. by rewrite Htype.
    + pose proof (rp_mapped _ _ Hr) as Hmp. rewrite Forall_forall in *. intros x Hx. rewrite Hsame; [by apply Hmp|]. specialize (Hap x Hx). lia.
  - intros j l' e Hj He. unfold reg_add in Hj. destruct (decide (j = i)) as [->|Hne].
    + rewrite list_lookup_alter_eq, Hi in Hj. injection Hj as <-. apply elem_of_cons in He as [->|He].
      * split; [simpl; rewrite length_take; lia|]. split; [done|]. exists t. split; [done|]. simpl. by rewrite Hs by lia.
      * specialize (Hap' _ _ _ Hi He). eapply entry_keep; [by apply (rp_entry _ _ Hr _ li)|]. intros x Hx. apply Hsame. lia.
    + rewrite list_lookup_alter_ne in Hj by done. specialize (Hap' _ _ _ Hj He).
      eapply entry_keep; [by apply (rp_entry _ _ Hr _ l')|]. intros x Hx. apply Hsame. lia.
  - intros j l' Hj. unfold reg_add in Hj. destruct (decide (j = i)) as [->|Hne].
    + rewrite list_lookup_alter_eq, Hi in Hj. by injection Hj as <-.
    + rewrite list_lookup_alter_ne in Hj by done. eapply ring_agrees; [exact Hal| |by apply Hring0]. intros b Hb [->|Hb']%elem_of_cons.
      * by apply (Hnode j l').
      * by apply (rings_apart _ _ i j li l' b Hr Hi Hj).
Qed.

(** Taking an object off its list. *)
Lemma detach_ok st R o : represents st R -> o ∈ objs R ->
  exists st', rt_object_detach o st = Some st' /\ represents st' (reg_remove o R).
Proof.
  intros Hr Ho. pose proof Ho as (i & l & e & Hi & He & <-)%objs_elem. pose proof (rp_nodup _ _ Hr) as Hnd.
  apply list_elem_of_split in He as (l1 & l2 & ->). set (o := e_obj e) in *.
  destruct (byte_write (o_m st) (o + 8) 0) as (m & Em & Hm & _ & Hs); [by apply (proj1 (Forall_forall _ _) (rp_mapped _ _ Hr))|apply (rp_bytes _ _ Hr)|].
  pose proof (rp_ring _ _ Hr i _ Hi) as Hring. pose proof (ring_nodes _ _ _ _ Hr Hi) as Hnn. rewrite fmap_app, fmap_cons in Hring, Hnn. cbv beta in Hring, Hnn.
  apply ring_rotate in Hring.
  destruct (ring_remove_mid (o_l st) (list_node o) (object_list i) (nodes l2) (nodes l1)) as (l & El & Hl & _ & Hag); [|exact Hring|].
  { eapply NoDup_Permutation_proper; [|exact Hnn]. fold o. solve_Permutation. }
  exists (OState m l). split; [unfold rt_object_detach; rewrite Em; simpl; by rewrite El|].
  destruct (objs_remove R o) as [Hsub Hne].
  assert (forall x, x ∈ objs (reg_remove o R) -> x ∈ objs R /\ 20 <= Z.abs (x - o)) as Hx.
  { intros x Hx. assert (x ∈ objs R) as Hx' by (eapply elem_of_submseteq; [exact Hx|by apply sublist_submseteq]). split; [done|].
    apply (rp_apart _ _ Hr); [done|done|]. by apply Hne. }
  pose proof (remove_entry R i l1 e l2 Hnd Hi) as ER. fold o in ER.
  assert (forall j lj, reg_remove o R !! j = Some lj -> (j = i /\ lj = l1 ++ l2) \/ (j <> i /\ R !! j = Some lj)) as Hj.
  { intros j lj Hj. rewrite ER in Hj. destruct (decide (j = i)) as [->|Hji].
    - rewrite list_lookup_insert_eq in Hj by (by eapply lookup_lt_Some). injection Hj as <-. by left.
    - rewrite list_lookup_insert_ne in Hj by done. by right. }
  assert (forall j lj e', reg_remove o R !! j = Some lj -> e' ∈ lj -> exists lj', R !! j = Some lj' /\ e' ∈ lj') as Hold.
  { intros j lj e' Hlj He'. destruct (Hj j lj Hlj) as [[-> ->]|[_ Hlj']]; [|by exists lj]. eexists. split; [exact Hi|set_solver]. }
  split; simpl.
  - unfold reg_remove. rewrite length_fmap. apply (rp_len _ _ Hr).
  - done.
  - by apply (sublist_NoDup _ (objs R)); [exact Hnd|exact Hsub].
  - intros x y [Hx' _]%Hx [Hy' _]%Hx. by apply (rp_apart _ _ Hr).
  - apply Forall_forall. intros x [Hx' _]%Hx. by apply (proj1 (Forall_forall _ _) (rp_outside _ _ Hr)).
  - apply Forall_forall. intros x [Hx' Hd]%Hx. rewrite Hs by lia. by apply (proj1 (Forall_forall _ _) (rp_mapped _ _ Hr)).
  - intros j lj e' Hlj He'. destruct (Hold j lj e' Hlj He') as (lj' & Hlj' & He2).
    eapply entry_keep; [by apply (rp_entry _ _ Hr _ _ _ Hlj')|]. intros x Hxr. apply Hs.
    destruct (Hx (e_obj e')) as [_ Hd]; [apply objs_elem; by exists j, lj, e'|lia].
  - intros j lj Hlj. destruct (Hj j lj Hlj) as [[-> ->]|[Hji Hlj']]; [by rewrite fmap_app|].
    eapply ring_agrees; [exact Hag| |by apply (rp_ring _ _ Hr)]. intros b Hb Hb'.
    apply (rings_apart _ _ j i lj _ b Hr Hlj' Hi Hji Hb). rewrite fmap_app, fmap_cons. cbv beta. fold o. set_solver.
Qed.

(** Looking for a name. *)
Lemma lseg_mapped (h : list_heap Z) x ys z : lseg h x ys z -> forall a, a ∈ x :: ys -> is_Some (nx h !! a).
Proof.
  revert x. induction ys as [|y ys IH]; intros x; simpl.
  - intros [Hx _] a ->%list_elem_of_singleton. by eexists.
  - intros [[Hx _] Hs] a [->|Ha]%elem_of_cons; [by eexists|]. by eapply IH.
Qed.

Lemma find_loop_spec st head a w : forall l fuel,
  bytes_ok (o_m st) -> cstr (o_m st) a w -> Forall (fun e => (length (e_name e) <= RT_NAME_MAX)%nat /\ text (o_m st) (e_obj e) RT_NAME_MAX (e_name e)) l ->
  head ∉ nodes l -> (length l <= fuel)%nat -> (forall e l', l = e :: l' -> lseg (o_l st) (list_node (e_obj e)) (nodes l') head) ->
  find_loop fuel st head (default head (list.head (nodes l))) a =
    Some (default 0 (e_obj <$> list.head (filter (fun e => e_name e = take RT_NAME_MAX w) l))).
Proof.
  induction l as [|e l IH]; intros fuel Hm Hw Hl Hhd Hf Hs; simpl.
  - destruct fuel; simpl; by rewrite Z.eqb_refl.
  - apply Forall_cons in Hl as [[Hlen Ht] Hl]. destruct fuel as [|fuel]; [simpl in Hf; lia|]. simpl in Hhd |- *. apply not_elem_of_cons in Hhd as [Hne Hhd].
    rewrite (proj2 (Z.eqb_neq _ _)) by congruence. replace (list_node (e_obj e) - 12) with (e_obj e) by (unfold list_node; lia).
    destruct (strncmp_text (o_m st) RT_NAME_MAX (e_obj e) a (e_name e) w Hm Ht (cstr_text _ _ _ _ Hw)) as (r & -> & Hr). simpl.
    rewrite (take_ge (e_name e)) in Hr by done. specialize (Hs e l eq_refl). destruct (Z.eqb_spec r 0) as [E|E].
    + rewrite filter_cons_True by tauto. done.
    + rewrite filter_cons_False by tauto. replace (nx (o_l st) !! list_node (e_obj e)) with (Some (default head (list.head (nodes l)))); [simpl; apply IH; try done|].
      * simpl in Hf. lia.
      * intros e' l' ->. by destruct Hs as [_ Hs].
      * destruct l as [|e' l]; [by destruct Hs as [-> _]|]. by destruct Hs as [[-> _] _].
Qed.

Lemma find_in_spec st R i l a w : represents st R -> R !! i = Some l -> cstr (o_m st) a w ->
  find_in container i a st = Some (reg_find i w R).
Proof.
  intros Hr Hi Hw. unfold find_in, reg_find. rewrite Hi. simpl. pose proof (rp_ring _ _ Hr i l Hi) as Hring. pose proof (ring_nodes _ _ _ _ Hr Hi) as Hnd.
  destruct (ring_first _ _ _ Hring) as [-> _]. simpl. unfold first_of. apply find_loop_spec.
  - apply (rp_bytes _ _ Hr).
  - done.
  - apply Forall_forall. intros e He. destruct (rp_entry _ _ Hr i l e Hi He) as (? & ? & _). done.
  - by apply NoDup_cons in Hnd as [? _].
  - rewrite <-size_dom. apply NoDup_cons in Hnd as [_ Hnd]. rewrite <-(length_fmap (fun e => list_node (e_obj e))), <-(size_list_to_set (C := gset Z)) by done.
    apply subseteq_size. intros b Hb%elem_of_list_to_set. apply elem_of_dom. eapply lseg_mapped; [exact Hring|by right].
  - intros e l' ->. by destruct Hring as [_ ?].
Qed.

#[local] Arguments rt_strncpy : simpl never.

Lemma information_of type i : rt_object_get_information type = Some i -> rt_object_container !! i = Some type.
Proof.
  unfold rt_object_get_information. assert (forall l k, information_from l k type = Some i -> (k <= i)%nat /\ l !! (i - k)%nat = Some type) as H.
  { induction l as [|t l IH]; intros k; simpl; [done|]. destruct (Z.eqb_spec t type) as [->|].
    - intros [= ->]. rewrite Nat.sub_diag. done.
    - intros H%IH. destruct H as [Hk Hl]. split; [lia|]. by replace (i - k)%nat with (S (i - S k)) by lia. }
  intros Hi%H. rewrite Nat.sub_0_r in Hi. tauto.
Qed.

Lemma info_list st R type i : represents st R -> rt_object_get_information type = Some i -> exists l, R !! i = Some l.
Proof.
  intros Hr Hi%information_of. destruct (lookup_lt_is_Some_2 R i) as [l Hl]; [|by exists l]. rewrite (rp_len _ _ Hr). by eapply lookup_lt_Some.
Qed.

Lemma init_ok st R o a w type i :
  represents st R -> vacant st R o -> rt_object_get_information type = Some i -> named (o_m st) o a 20 w ->
  exists st', rt_object_init container o type a st = Some st' /\ represents st' (reg_add i (Entry o (take RT_NAME_MAX w) true) R).
Proof.
  intros Hr Hv Hi [Hw Hd]. pose proof Hv as (Hm & Hn & Hp & _). unfold rt_object_init. rewrite Hi. simpl.
  destruct (byte_write (o_m st) (o + 8) (Z.lor type RT_Object_Class_Static)) as (m & -> & Hm' & Ht & Hs); [apply Hm; lia|apply (rp_bytes _ _ Hr)|]. simpl.
  pose proof (information_of _ _ Hi) as Hc.
  destruct (attach_ok st R o a w i type true m (o_l st)) as (m2 & l & -> & Hl & Hrep); try done.
  - intros x Hx. apply Hs. lia.
  - intros x Hx. destruct (decide (x = o + 8)) as [->|]; [by rewrite Ht|]. rewrite Hs by lia. by apply Hm.
  - rewrite Ht. f_equal. clear -Hc. unfold rt_object_container in Hc. do 10 (destruct i as [|i]; [by injection Hc as <-|]). done.
  - split; [|done]. destruct Hw as (H1 & H2 & H3). split; [done|]. split; [intros k c Hk; pose proof (lookup_lt_Some _ _ _ Hk)|]; rewrite Hs by lia; [by apply H2|done].
  - simpl. rewrite Hl. simpl. by eexists.
Qed.

(** The place that [rt_malloc] found for an object of [size] bytes. *)
Definition room (st : ostate) (R : registry) (o size : Z) : Prop :=
  20 <= size < 65536 /\ mapped (o_m st) o (Z.to_nat size) /\ (o + size <= container \/ container + 160 <= o) /\
  forall o', o' ∈ objs R -> o' + 20 <= o \/ o + size <= o'.

Lemma clear_ok st R o size : represents st R -> room st R o size ->
  exists st', clear_object o (Z.to_nat size) st = Some st' /\ represents st' R /\ vacant st' R o /\
    same_off o (Z.to_nat size) (o_m st) (o_m st') /\ forall k, 0 <= k < size -> o_m st' !! (o + k) = Some 0.
Proof.
  intros Hr (Hsz & Hm & Hout & Hap). unfold clear_object. rewrite rt_memset_bytes. change (Z.land 0 255) with 0.
  destruct (fill_spec (Z.to_nat size) (o_m st) o 0 Hm (rp_bytes _ _ Hr)) as (m & -> & Hm' & Hs & Hk). simpl. eexists. split; [done|].
  assert (forall k, 0 <= k < size -> m !! (o + k) = Some 0) as Hz by (intros k Hk'; rewrite <-(Z2Nat.id k) by lia; apply Hk; lia).
  assert (forall i l e, R !! i = Some l -> e ∈ l -> e_obj e + 20 <= o \/ o + size <= e_obj e) as Hap'.
  { intros i l e Hi He. apply Hap, objs_elem. by exists i, l, e. }
  split; [|split; [unfold vacant; simpl; splits|by split]]; simpl.
  - split; try apply Hr; simpl; try done.
    + pose proof (rp_mapped _ _ Hr) as Hmp. rewrite Forall_forall in *. intros x Hx. rewrite Hs; [by apply Hmp|]. specialize (Hap x Hx). lia.
    + intros i l e Hi He. specialize (Hap' i l e Hi He). eapply entry_keep; [by apply (rp_entry _ _ Hr _ l)|]. intros x Hx. apply Hs. lia.
    + intros i l Hi. eapply (ring_frame (o_l st)); [|by apply (rp_ring _ _ Hr)]. intros b Hb. simpl.
      assert (b <> list_node o) as Hne; [|by rewrite !lookup_insert_ne by done].
      apply elem_of_cons in Hb as [->|(e & -> & He)%list_elem_of_fmap].
      * apply lookup_lt_Some in Hi. rewrite (rp_len _ _ Hr) in Hi. unfold Object.object_list, list_node in *. simpl in *. lia.
      * specialize (Hap' i l e Hi He). unfold list_node. lia.
  - intros x Hx. simpl. replace x with (o + (x - o)) by lia. rewrite Hz by lia. done.
  - simpl. by rewrite lookup_insert_eq.
  - simpl. by rewrite lookup_insert_eq.
  - unfold outside. lia.
  - intros o' Ho'. specialize (Hap o' Ho'). lia.
Qed.

Context (object_size : Z -> Z).

Lemma allocate_ok st R a w type i h h' o :
  let size := object_size type in
  represents st R -> rt_object_get_information type = Some i -> rt_malloc size h = Some (h', Some o) -> room st R o size -> named (o_m st) o a size w ->
  exists st', rt_object_allocate container object_size type a st h = Some (st', h', o) /\
    represents st' (reg_add i (Entry o (take RT_NAME_MAX w) false) R).
Proof.
  intros size Hr Hi Hal Hroom [Hw Hd]. unfold rt_object_allocate. rewrite Hi. simpl. fold size. rewrite Hal. simpl.
  destruct (clear_ok st R o size Hr Hroom) as (st1 & -> & Hr1 & Hv & Hs & Hz). simpl. pose proof Hroom as (Hsz & _).
  destruct (byte_write (o_m st1) (o + 8) type) as (m1 & -> & Hm1 & Ht1 & Hs1); [by rewrite Hz by lia|apply (rp_bytes _ _ Hr1)|]. simpl.
  destruct (byte_write m1 (o + 9) 0) as (m2 & -> & Hm2 & Ht2 & Hs2); [rewrite Hs1 by lia; by rewrite Hz by lia|done|]. simpl.
  pose proof (information_of _ _ Hi) as Hc. pose proof Hv as (Hmap & Hn & Hp & _).
  destruct (attach_ok st1 R o a w i type false m2 (o_l st1)) as (m & l & -> & Hl & Hrep); try done.
  - intros x Hx. rewrite Hs2, Hs1 by lia. done.
  - intros x Hx. destruct (decide (x = o + 9)) as [->|]; [by rewrite Ht2|]. rewrite Hs2 by lia.
    destruct (decide (x = o + 8)) as [->|]; [by rewrite Ht1|]. rewrite Hs1 by lia. by apply Hmap.
  - rewrite Hs2, Ht1 by lia. f_equal. clear -Hc. unfold rt_object_container in Hc. do 10 (destruct i as [|i]; [by injection Hc as <-|]). done.
  - split; [|lia]. destruct Hw as (H1 & H2 & H3).
    assert (forall k, (k <= length w)%nat -> m2 !! (a + Z.of_nat k) = o_m st !! (a + Z.of_nat k)) as Hsame by (intros k Hk; rewrite Hs2, Hs1, Hs by lia; done).
    split; [done|]. split; [intros k c Hk; pose proof (lookup_lt_Some _ _ _ Hk)|]; rewrite Hsame by lia; [by apply H2|done].
  - simpl. rewrite Hl. simpl. by eexists.
Qed.

(** ** The calls and the registry they implement *)

(** The calls, with the address of a name. *)
Inductive object_call :=
  | ObjInit (object type name : Z)
  | ObjDetach (object : Z)
  | ObjAllocate (type name : Z)
  | ObjDelete (object : Z)
  | ObjFind (name type : Z).

Definition object_exec (c : object_call) (s : ostate * heap) : option (ostate * heap * Z) :=
  let '(st, h) := s in
  match c with
  | ObjInit o type a => st ← rt_object_init container o type a st; Some (st, h, 0)
  | ObjDetach o => st ← rt_object_detach o st; Some (st, h, 0)
  | ObjAllocate type a => rt_object_allocate container object_size type a st h
  | ObjDelete o => s ← rt_object_delete o st h; Some (s, 0)
  | ObjFind a type => r ← rt_object_find container a type st; Some (st, h, r)
  end.

(** The address that the heap gives for an object of a class, 0 for none. *)
Definition heap_answer (type : Z) (h : heap) : Z := match rt_malloc (object_size type) h with Some (_, Some p) => p | _ => 0 end.

(** The same on the registry, for the name [w] and the heap's answer [p]. *)
Definition object_spec (w : list Z) (c : object_call) (p : Z) (R : registry) : registry * Z :=
  let add type o static := match rt_object_get_information type with Some i => reg_add i (Entry o (take RT_NAME_MAX w) static) R | None => R end in
  match c with
  | ObjInit o type _ => (add type o true, 0)
  | ObjDetach o => (reg_remove o R, 0)
  | ObjAllocate type _ => if p =? 0 then (R, 0) else (add type p false, p)
  | ObjDelete o => (reg_remove o R, 0)
  | ObjFind a type => (R, match rt_object_get_information type with Some i => if a =? 0 then 0 else reg_find i w R | None => 0 end)
  end.
Definition answer_of (c : object_call) (h : heap) : Z := match c with ObjAllocate type _ => heap_answer type h | _ => 0 end.

(** The areas that are held before and after a call: an allocated object holds one of
    the size of its class, and deleting it gives this one back. *)
Definition live_after (R : registry) (c : object_call) (r : Z) (L L' : list (Z * Z)) : Prop :=
  match c with
  | ObjAllocate type _ => L' = if r =? 0 then L else (r, object_size type) :: L
  | ObjDelete o => exists i l e t, R !! i = Some l /\ e ∈ l /\ e_obj e = o /\ rt_object_container !! i = Some t /\ L ≡ₚ (o, object_size t) :: L'
  | _ => L' = L
  end.

(** The range of the heap. *)
Context (lo hi : Z).

(** [n] bytes at [o] are not free memory of the heap. *)
Definition held (L : list (Z * Z)) (o n : Z) : Prop := o + n <= lo \/ hi <= o \/ exists p k, (p, k) ∈ L /\ p <= o /\ o + n <= p + k.
(** Where an object lies: a static one in memory that is not free, an allocated one in
    an area of the size of its class. *)
Definition home (L : list (Z * Z)) (i : nat) (e : entry) : Prop :=
  if e_static e then held L (e_obj e) 20 else exists t, rt_object_container !! i = Some t /\ (e_obj e, object_size t) ∈ L.
Definition homes (L : list (Z * Z)) (R : registry) : Prop := forall i l e, R !! i = Some l -> e ∈ l -> home L i e.

(** What callers see to: objects of configured classes, in memory of their own, are
    registered; registered ones are taken off; only allocated ones are deleted, and no
    other object lies inside of them. *)
Definition object_allowed (w : list Z) (c : object_call) (st : ostate) (R : registry) (L : list (Z * Z)) : Prop :=
  match c with
  | ObjInit o type a => is_Some (rt_object_get_information type) /\ vacant st R o /\ named (o_m st) o a 20 w /\ held L o 20
  | ObjDetach o => o ∈ objs R
  | ObjAllocate type a => is_Some (rt_object_get_information type) /\ cstr (o_m st) a w /\ held L a (Z.of_nat (S (length w)))
  | ObjDelete o => exists i l e t, R !! i = Some l /\ e ∈ l /\ e_obj e = o /\ e_static e = false /\ rt_object_container !! i = Some t /\
      forall o', o' ∈ objs R -> o' <> o -> o' + 20 <= o \/ o + object_size t <= o'
  | ObjFind a type => (RT_Object_Class_Unknown < type \/ is_Some (rt_object_get_information type)) /\ (a = 0 \/ cstr (o_m st) a w)
  end.

(** The container, the heap and the areas held. *)
Record container_ok (s : ostate * heap) (R : registry) (L : list (Z * Z)) : Prop := {
  rg_repr : represents s.1 R;
  rg_heap : client_inv (s.2, L);
  rg_range : heap_ptr s.2 = lo /\ heap_ptr s.2 + heap_end s.2 = hi;
  rg_mapped : forall x, lo <= x < hi -> is_Some (o_m s.1 !! x);
  rg_container : container + 160 <= lo \/ hi <= container;
  rg_homes : homes L R;
}.

(** *** Memory stays mapped *)

Definition keeps (m m' : memory) : Prop := forall x, is_Some (m !! x) -> is_Some (m' !! x).
#[local] Instance keeps_preorder : PreOrder keeps.
Proof. split; [by intros m x|by intros m1 m2 m3 H1 H2 x ?%H1%H2]. Qed.

Lemma store_keeps m a v m' : store m a v = Some m' -> keeps m m'.
Proof.
  unfold store. destruct (m !! a) as [b|]; [|done]. simpl. intros [= <-] x Hx. destruct (decide (x = a)) as [->|]; [by rewrite lookup_insert_eq|by rewrite lookup_insert_ne].
Qed.
Lemma set_bytes_keeps n : forall m a v m', set_bytes m a v n = Some m' -> keeps m m'.
Proof.
  induction n as [|n IH]; intros m a v m' H; simpl in H; [by injection H as <-|].
  apply bind_Some in H as (m1 & H1 & H). etransitivity; [by eapply store_keeps|by eapply IH].
Qed.
Lemma strncpy_keeps n : forall m d a m', rt_strncpy m d a n = Some m' -> keeps m m'.
Proof.
  induction n as [|n IH]; intros m d a m' H; simpl in H; [by injection H as <-|].
  apply bind_Some in H as (c & _ & H). apply bind_Some in H as (m1 & H1%store_keeps & H). etransitivity; [done|].
  destruct (c =? 0); [by eapply set_bytes_keeps|by eapply IH].
Qed.
Lemma init_keeps o type a st st' : rt_object_init container o type a st = Some st' -> keeps (o_m st) (o_m st').
Proof.
  unfold rt_object_init. intros H. apply bind_Some in H as (i & _ & H). apply bind_Some in H as (m1 & H1%store_keeps & H).
  apply bind_Some in H as (m2 & H2%strncpy_keeps & H). apply bind_Some in H as (l & _ & H). injection H as <-. by etransitivity.
Qed.
Lemma detach_keeps o st st' : rt_object_detach o st = Some st' -> keeps (o_m st) (o_m st').
Proof. unfold rt_object_detach. intros H. apply bind_Some in H as (m1 & H1%store_keeps & H). apply bind_Some in H as (l & _ & H). by injection H as <-. Qed.
Lemma allocate_keeps type a st h st' h' r : rt_object_allocate container object_size type a st h = Some (st', h', r) -> keeps (o_m st) (o_m st').
Proof.
  unfold rt_object_allocate. intros H. apply bind_Some in H as (i & _ & H). apply bind_Some in H as ([h1 [o|]] & _ & H); [|by injection H as <- _ _].
  apply bind_Some in H as (st1 & H1 & H). unfold clear_object in H1. apply bind_Some in H1 as (m1 & H1 & E). injection E as <-. rewrite rt_memset_bytes in H1.
  apply set_bytes_keeps in H1. apply bind_Some in H as (m2 & H2%store_keeps & H). apply bind_Some in H as (m3 & H3%store_keeps & H).
  apply bind_Some in H as (m4 & H4%strncpy_keeps & H). apply bind_Some in H as (l & _ & H). injection H as <- _ _. simpl in *. by do 3 (etransitivity; [done|]).
Qed.

(** *** Areas *)

Lemma homes_add L R i e : homes L R -> home L i e -> homes L (reg_add i e R).
Proof.
  intros Hh He j l e' Hj He'. unfold reg_add in Hj. destruct (decide (j = i)) as [->|Hne].
  - rewrite list_lookup_alter_eq in Hj. destruct (R !! i) as [l0|] eqn:E; [|done]. injection Hj as <-. apply elem_of_cons in He' as [->|He']; [done|by eapply Hh].
  - rewrite list_lookup_alter_ne in Hj by done. by eapply Hh.
Qed.
Lemma remove_lookup R o i l e : reg_remove o R !! i = Some l -> e ∈ l -> e_obj e <> o /\ exists l', R !! i = Some l' /\ e ∈ l'.
Proof.
  unfold reg_remove. rewrite list_lookup_fmap. destruct (R !! i) as [l'|]; [|done]. intros [= <-] [Hne He]%list_elem_of_filter. split; [done|by exists l'].
Qed.
Lemma held_more L L' o n : L ⊆ L' -> held L o n -> held L' o n.
Proof. intros Hs [?|[?|(p & k & ? & ?)]]; [by left|by right; left|right; right; exists p, k; split; [by apply Hs|done]]. Qed.
Lemma homes_more L L' R : L ⊆ L' -> homes L R -> homes L' R.
Proof.
  intros Hs Hh i l e Hi He. specialize (Hh i l e Hi He). unfold home in *. destruct (e_static e); [by eapply held_more|].
  destruct Hh as (t & ? & ?). exists t. split; [done|by apply Hs].
Qed.

(** A fresh area holds nothing that is held already. *)
Lemma fresh_apart h L p size o n : client_inv (h, (p, size) :: L) -> heap_ptr h = lo -> heap_ptr h + heap_end h = hi -> held L o n ->
  lo + 12 <= p /\ p + size <= hi /\ (o + n <= p \/ p + size <= o).
Proof.
  intros [Hok Hp]%client_inv_ok Hlo Hhi Hh. apply Forall_cons in Hok as [(_ & _ & H1 & H2) _]. simpl in H1, H2. split; [lia|]. split; [lia|].
  destruct Hh as [H|[H|(q & k & Hin & H3 & H4)]]; [lia..|]. inversion Hp as [|? ? Hap _]; subst.
  rewrite Forall_forall in Hap. specialize (Hap _ Hin). unfold apart_live in Hap. simpl in Hap. lia.
Qed.

(** The sizes of the classes. *)
Hypothesis sizes_ok : forall i t, rt_object_container !! i = Some t -> 20 <= object_size t < 65536.

Lemma homes_held L R o : homes L R -> o ∈ objs R -> held L o 20.
Proof.
  intros Hh (i & l & e & Hi & He & <-)%objs_elem. specialize (Hh i l e Hi He). unfold home in Hh. destruct (e_static e); [done|].
  destruct Hh as (t & Ht & Hin). pose proof (sizes_ok _ _ Ht). right; right. exists (e_obj e), (object_size t). split; [done|lia].
Qed.

Lemma allocate_container_ok st h R L w type a : container_ok (st, h) R L -> object_allowed w (ObjAllocate type a) st R L ->
  let '(R', r) := object_spec w (ObjAllocate type a) (heap_answer type h) R in
  exists s', object_exec (ObjAllocate type a) (st, h) = Some (s', r) /\ container_ok s' R' (if r =? 0 then L else (r, object_size type) :: L).
Proof.
  intros [Hr Hh [Hlo Hhi] Hm Hc Hho] ([i Hi] & Hw & Ha). simpl in *. rewrite Hi. pose proof (information_of _ _ Hi) as Ht. pose proof (sizes_ok _ _ Ht) as Hsz.
  destruct (client_malloc_returns h L (object_size type) Hh ltac:(lia)) as (h' & r & E & Hinv). destruct (client_malloc_place h L (object_size type) h' r Hh ltac:(lia) E) as [Hpl Hms].
  assert (heap_ptr h' + heap_end h' = hi) as Hhi' by (unfold heap_end in *; by rewrite Hpl, Hms).
  assert (heap_answer type h = match r with Some p => p | None => 0 end) as -> by (unfold heap_answer; by rewrite E). destruct r as [p|].
  - destruct (fresh_apart h' L p _ a (Z.of_nat (S (length w))) Hinv ltac:(lia) Hhi' Ha) as (Hp1 & Hp2 & Hname).
    assert (0 <= lo) as H0 by (destruct Hh as (_ & bs & A & Hwf & _); destruct (hw_ptr _ _ Hwf); lia). assert (p =? 0 = false) as Hp0 by lia. rewrite Hp0.
    destruct (allocate_ok st R a w type i h h' p Hr Hi E) as (st' & Ex & Hr').
    { unfold room. split; [lia|]. split; [intros x Hx; apply Hm; lia|]. split; [lia|]. intros o' Ho'.
      destruct (fresh_apart h' L p _ o' 20 Hinv ltac:(lia) Hhi' (homes_held L R o' Hho Ho')) as (_ & _ & ?). done. }
    { split; [done|lia]. }
    exists (st', h'). split; [done|]. rewrite Hp0. split; [done|done|simpl; lia| |done|].
    + intros x Hx. apply (allocate_keeps _ _ _ _ _ _ _ Ex). by apply Hm.
    + apply homes_add; [eapply homes_more; [|exact Hho]; intros x ?; by right|]. exists type. split; [done|by left].
  - exists (st, h'). split; [unfold rt_object_allocate; rewrite Hi; simpl; by rewrite E|]. split; simpl; try done. lia.
Qed.

Lemma delete_container_ok st h R L w o : container_ok (st, h) R L -> object_allowed w (ObjDelete o) st R L ->
  exists s', object_exec (ObjDelete o) (st, h) = Some (s', 0) /\ (exists L', live_after R (ObjDelete o) 0 L L') /\
    forall L', live_after R (ObjDelete o) 0 L L' -> container_ok s' (reg_remove o R) L'.
Proof.
  intros [Hr Hh [Hlo Hhi] Hm Hc Hho] (i & l & e & t & Hi & He & <- & Hs & Ht & Hap). simpl in *.
  assert (e_obj e ∈ objs R) as Ho by (apply objs_elem; by exists i, l, e).
  destruct (rp_entry _ _ Hr i l e Hi He) as (_ & _ & t' & Ht' & Hb). rewrite Ht in Ht'. injection Ht' as <-. rewrite Hs in Hb.
  destruct (detach_ok st R (e_obj e) Hr Ho) as (st' & Ed & Hr'). pose proof (Hho i l e Hi He) as Hhe. unfold home in Hhe. rewrite Hs in Hhe.
  destruct Hhe as (t' & Ht' & Hin). rewrite Ht in Ht'. injection Ht' as <-.
  destruct (elem_of_Permutation L (e_obj e, object_size t)) as [[L' HL] _]; [done|].
  destruct (client_free_inv h L L' _ _ Hh HL) as (h' & Ef & Hinv). destruct (client_free_place h L L' _ _ h' Hh HL Ef) as [Hpl Hms].
  exists (st', h'). split; [|split; [by exists L', i, l, e, t|]].
  - unfold rt_object_delete. rewrite Hb. simpl. assert (has t RT_Object_Class_Static = false) as ->; [|by rewrite Ed; simpl; rewrite Ef].
    clear -Ht. unfold rt_object_container in Ht. do 10 (destruct i as [|i]; [by injection Ht as <-|]). done.
  - intros L2 (i2 & l2 & e2 & t2 & Hi2 & He2 & E2 & Ht2 & HL2).
    destruct (concat_inj R i2 i l2 l e2 e (rp_nodup _ _ Hr) Hi2 Hi He2 He E2) as [-> ->]. rewrite Ht in Ht2. injection Ht2 as <-.
    assert (L' ≡ₚ L2) as HP by (apply (Permutation_cons_inv (a := (e_obj e, object_size t))); by rewrite <-HL, <-HL2).
    clear Hi2 He2 E2 l2. split; simpl; try done.
    + by eapply client_inv_perm.
    + unfold heap_end in *. by rewrite Hpl, Hms.
    + intros x Hx. apply (detach_keeps _ _ _ Ed). by apply Hm.
    + intros j l' e' Hj He'. destruct (remove_lookup _ _ _ _ _ Hj He') as (Hne & l2 & Hj2 & He2). specialize (Hho j l2 e' Hj2 He2).
      assert (e_obj e' ∈ objs R) as Ho' by (apply objs_elem; by exists j, l2, e'). specialize (Hap _ Ho' Hne). pose proof (sizes_ok _ _ Ht).
      unfold home in *. destruct (e_static e').
      * destruct Hho as [?|[?|(p & k & Hin' & ?)]]; [by left|by right; left|]. right; right. exists p, k. split; [|done].
        rewrite HL2 in Hin'. apply elem_of_cons in Hin' as [[= -> ->]|?]; [lia|done].
      * destruct Hho as (t' & Ht' & Hin'). exists t'. split; [done|]. rewrite HL2 in Hin'. apply elem_of_cons in Hin' as [[= E _]|?]; [by rewrite E in Hne|done].
Qed.

Lemma object_call_ok s R L c w : container_ok s R L -> object_allowed w c s.1 R L ->
  let '(R', r) := object_spec w c (answer_of c s.2) R in
  exists s', object_exec c s = Some (s', r) /\ (exists L', live_after R c r L L') /\ forall L', live_after R c r L L' -> container_ok s' R' L'.
Proof.
  destruct s as [st h]. intros Hreg Ha. pose proof Hreg as [Hr Hh Hrg Hm Hc Hho]. destruct c as [o type a|o|type a|o|a type].
  - destruct Ha as ([i Hi] & Hv & Hn & Hhe). simpl in *. rewrite Hi. destruct (init_ok st R o a w type i Hr Hv Hi Hn) as (st' & E & Hr'). rewrite E.
    exists (st', h). split; [done|]. split; [by exists L|]. intros ? ->. split; simpl; try done.
    + intros x Hx. apply (init_keeps _ _ _ _ _ E). by apply Hm.
    + by apply homes_add.
  - simpl in *. destruct (detach_ok st R o Hr Ha) as (st' & E & Hr'). rewrite E. exists (st', h). split; [done|]. split; [by exists L|]. intros ? ->. split; simpl; try done.
    + intros x Hx. apply (detach_keeps _ _ _ E). by apply Hm.
    + intros i l e Hi He. destruct (remove_lookup _ _ _ _ _ Hi He) as (_ & l' & Hi' & He'). by eapply Hho.
  - pose proof (allocate_container_ok st h R L w type a Hreg Ha) as H. unfold answer_of, snd. destruct (object_spec _ _ _ _) as [R' r].
    destruct H as (s' & E & H). exists s'. split; [done|]. split; [by eexists|]. by intros ? ->.
  - by apply (delete_container_ok _ _ _ _ w).
  - exists (st, h). split; [|split; [by exists L|by intros ? ->]]. simpl in *. unfold rt_object_find. destruct Ha as [Ht Ha]. destruct (Z.eqb_spec a 0) as [->|Hne]; simpl.
    + by destruct (rt_object_get_information type).
    + destruct Ha as [->|Hw]; [done|]. destruct (Z.ltb_spec RT_Object_Class_Unknown type) as [Hlt|Hle].
      * destruct (rt_object_get_information type) as [i|] eqn:Hi; [|done]. apply information_of in Hi. unfold RT_Object_Class_Unknown, rt_object_container in *.
        exfalso. do 10 (destruct i as [|i]; [injection Hi as <-; lia|]). done.
      * destruct Ht as [Ht|[i Hi]]; [lia|]. rewrite Hi. simpl. destruct (info_list st R type i Hr Hi) as [l Hl].
        by rewrite (find_in_spec st R i l a w Hr Hl Hw).
Qed.

(** Before the first call: the container, and a heap with memory behind it. *)
Record initial (s : ostate * heap) (L : list (Z * Z)) : Prop := {
  in_bytes : bytes_ok (o_m s.1);
  in_rings : forall i, (i < length rt_object_container)%nat -> ring (o_l s.1) (object_list i) [];
  in_heap : client_inv (s.2, L);
  in_range : heap_ptr s.2 = lo /\ heap_ptr s.2 + heap_end s.2 = hi;
  in_mapped : forall x, lo <= x < hi -> is_Some (o_m s.1 !! x);
  in_container : container + 160 <= lo \/ hi <= container;
}.

(** Callers also write to memory, but not to the beginning of objects, nor to
    other list nodes that are linked. *)
Definition left_alone (st st' : ostate) (R : registry) : Prop :=
  bytes_ok (o_m st') /\ keeps (o_m st) (o_m st') /\ Forall (fun o => forall x, o <= x < o + 20 -> o_m st' !! x = o_m st !! x) (objs R) /\
  forall i l, R !! i = Some l -> forall b, b ∈ object_list i :: nodes l -> nx (o_l st') !! b = nx (o_l st) !! b /\ pv (o_l st') !! b = pv (o_l st) !! b.

(** They also use the heap, but not the areas in which registered objects lie. *)
Inductive reached : ostate * heap -> registry -> list (Z * Z) -> Prop :=
  | reached_initial s L : initial s L -> reached s (replicate (length rt_object_container) []) L
  | reached_call s R L w c s' L' r : reached s R L -> object_allowed w c s.1 R L -> object_exec c s = Some (s', r) ->
      live_after R c r L L' -> reached s' (object_spec w c (answer_of c s.2) R).1 L'
  | reached_write st h R L st' : reached (st, h) R L -> left_alone st st' R -> reached (st', h) R L
  | reached_heap st h R L h' L' : reached (st, h) R L -> client_step (h, L) (h', L') -> same_place h h' -> homes L' R -> reached (st, h') R L'.

Lemma reached_container_ok s R L : reached s R L -> container_ok s R L.
Proof.
  induction 1 as [s L [Hm Hring Hh Hrg Hmp Hc]|s R L w c s' L' r _ IH Ha Hx Hl|st h R L st' _ IH (Hm & Hk & Ho & Hn)|st h R L h' L' _ IH Hst [Hp Hms] Hho].
  - assert (objs (replicate (length rt_object_container) []) = []) as E by done.
    split; try done; [|by intros i l e [-> _]%lookup_replicate ?%elem_of_nil].
    split; rewrite ?E; try done; try by constructor.
    + by intros o o' ?%elem_of_nil.
    + by intros i l e [-> _]%lookup_replicate ?%elem_of_nil.
    + intros i l [-> Hi]%lookup_replicate. by apply Hring.
  - pose proof (object_call_ok s R L c w IH Ha) as H. destruct (object_spec w c (answer_of c s.2) R) as [R' r2].
    destruct H as (s2 & Hx2 & _ & Hall). rewrite Hx in Hx2. injection Hx2 as -> ->. by apply Hall.
  - destruct IH as [IH Hh Hrg Hmp Hc Hho]. simpl in *. split; simpl; try done; [|by intros x Hx; apply Hk, Hmp].
    assert (forall i l e, R !! i = Some l -> e ∈ l -> forall x, e_obj e <= x < e_obj e + 20 -> o_m st' !! x = o_m st !! x) as Hsame.
    { intros i l e Hi He. apply (proj1 (Forall_forall _ _) Ho). apply objs_elem. by exists i, l, e. }
    split; try apply IH; [done| | |].
    + pose proof (rp_mapped _ _ IH) as Hmp'. rewrite Forall_forall in *. intros x Hx. by apply Hk, Hmp'.
    + intros i l e Hi He. eapply entry_keep; [by apply (rp_entry _ _ IH _ l)|]. by eapply Hsame.
    + intros i l Hi. eapply ring_frame; [|by apply (rp_ring _ _ IH)]. by apply Hn.
  - destruct IH as [IH Hh Hrg Hmp Hc _]. simpl in *. split; simpl; try done; [exact (client_step_inv (h, L) (h', L') Hst Hh)|]. unfold heap_end in *. by rewrite Hp, Hms.
Qed.

(** C38: the object container is a registry. From an empty container and a heap, through
    any calls of object.c as [object_allowed] has them (objects of configured classes;
    static ones in vacant memory that is not free heap; only registered objects are taken
    off; only allocated ones are deleted), with callers writing to their own memory and
    using the heap in between: every next call returns, its result is that of the registry
    (an object is put in front of those of its class, taken off, and found by the first
    eight characters of its name, the newest first), an allocated object holds an area of
    the heap of the size of its class, deleting it gives exactly this area back, and
    every registered object tells its class and whether it is static. *)
Theorem object_calls_refine s R L :
  reached s R L ->
  (forall w c, object_allowed w c s.1 R L -> let '(R', r) := object_spec w c (answer_of c s.2) R in
    exists s' L', object_exec c s = Some (s', r) /\ live_after R c r L L' /\ client_inv (s'.2, L') /\ reached s' R' L') /\
  (forall i l e, R !! i = Some l -> e ∈ l -> exists t, rt_object_container !! i = Some t /\
    rt_object_get_type (e_obj e) s.1 = Some t /\ rt_object_is_systemobject (e_obj e) s.1 = Some (e_static e)).
Proof.
  intros Hreach. pose proof (reached_container_ok s R L Hreach) as Hr. split.
  - intros w c Ha. pose proof (object_call_ok s R L c w Hr Ha) as H. pose proof (fun s' L' => reached_call s R L w c s' L') as Hc.
    destruct (object_spec w c (answer_of c s.2) R) as [R' r]. destruct H as (s' & Hx & [L' Hl] & Hall).
    exists s', L'. split_and!; [done|done|by apply Hall|]. by eapply Hc.
  - intros i l e Hi He. destruct (rp_entry _ _ (rg_repr _ _ _ Hr) i l e Hi He) as (_ & _ & t & Ht & Hb). exists t. split; [done|].
    unfold rt_object_get_type, rt_object_is_systemobject. rewrite Hb. simpl. clear -Ht. unfold rt_object_container in Ht.
    do 10 (destruct i as [|i]; [injection Ht as <-; by destruct (e_static e)|]). done.
Qed.
End Registry.

(** ** A container with two objects *)

Definition demo_container : Z := 100.
Definition demo_sizes (type : Z) : Z := 64.

(** The heap of MemSpec.v at 1004 to 1192, room for static objects at 1200 and 1220; the
    strings "ab" and "cd" at 1240 and 1243. *)
Definition demo_objects : ostate :=
  OState (memory_of 1000 (replicate 240 255 ++ [97; 98; 0; 99; 100; 0]))
    (foldr rt_list_init (LHeap ∅ ∅) (((fun i => object_list demo_container i) <$> seq 0 10) ++ [1212; 1232])).

Lemma demo_mapped (a : Z) (n : nat) : 1000 <= a -> a + Z.of_nat n <= 1246 -> mapped (o_m demo_objects) a n.
Proof. intros H1 H2. apply memory_of_mapped; [done|]. rewrite length_app, length_replicate. simpl. lia. Qed.

Lemma demo_objects_initial : initial demo_container 1004 1192 (demo_objects, demo_heap) [].
Proof.
  split.
  - apply memory_of_ok. apply Forall_app; split; [apply Forall_replicate; word|]. repeat constructor; word.
  - intros i Hi. simpl in Hi. unfold ring, lseg, link. do 10 (destruct i as [|i]; [vm_compute; by split|]). lia.
  - apply (client_init_inv demo_heap [(false, heap_end demo_heap)]); [apply demo_heap_wf|done|by vm_compute].
  - split; reflexivity.
  - intros x Hx. apply (demo_mapped 1000 246); simpl; lia.
  - left. by vm_compute.
Qed.

Lemma demo_name : cstr (o_m demo_objects) 1240 [97; 98].
Proof.
  split; [repeat constructor; discriminate|]. split; [|by vm_compute].
  intros [|[|k]] c Hc; simpl in Hc; [injection Hc as <-; by vm_compute..|done].
Qed.

(** The semaphore "ab" is registered; another one is allocated; a search finds
    the newest. The static one cannot be deleted. *)
Definition demo_exec := object_exec demo_container demo_sizes.
Definition demo_calls_objects : option (list Z * option (list Z)) :=
  '(s, r1) ← demo_exec (ObjInit 1200 2 1240) (demo_objects, demo_heap);
  '(s, r2) ← demo_exec (ObjFind 1240 2) s;
  '(s, r3) ← demo_exec (ObjAllocate 2 1240) s;
  '(s, r4) ← demo_exec (ObjFind 1240 2) s;
  '(s, r5) ← demo_exec (ObjDelete 1016) s;
  '(s, r6) ← demo_exec (ObjFind 1240 2) s;
  Some ([r1; r2; r3; r4; r5; r6], '(s, r7) ← demo_exec (ObjDelete 1200) s; Some [r7]).
Example demo_calls_objects_results : demo_calls_objects = Some ([0; 1200; 1016; 1016; 0; 1200], None).
Proof. vm_compute. reflexivity. Qed.

(** An allocation, and the deletion after it. *)
Lemma object_calls_refine_witness : exists s1 s2,
  object_exec demo_container demo_sizes (ObjAllocate 2 1240) (demo_objects, demo_heap) = Some (s1, 1016) /\ client_inv (s1.2, [(1016, 64)]) /\
  object_exec demo_container demo_sizes (ObjDelete 1016) s1 = Some (s2, 0) /\ client_inv (s2.2, []).
Proof.
  assert (forall i t, rt_object_container !! i = Some t -> 20 <= demo_sizes t < 65536) as Hsz by (intros i t _; unfold demo_sizes; lia).
  destruct (object_calls_refine demo_container demo_sizes 1004 1192 Hsz (demo_objects, demo_heap) (replicate 10 []) []) as [H _].
  { apply reached_initial, demo_objects_initial. }
  specialize (H [97; 98] (ObjAllocate 2 1240)).
  assert (object_spec [97; 98] (ObjAllocate 2 1240) (answer_of demo_sizes (ObjAllocate 2 1240) demo_heap) (replicate 10 []) =
    ([[]; [Entry 1016 [97; 98] false]; []; []; []; []; []; []; []; []], 1016)) as E by (vm_compute; reflexivity).
  simpl snd in H. rewrite E in H. destruct H as (s1 & L1 & E1 & EL & Hi1 & Hr1).
  { split; [by eexists|]. split; [apply demo_name|right; left; simpl; lia]. }
  assert (L1 = [(1016, 64)]) as -> by exact EL. clear E EL.
  destruct (object_calls_refine demo_container demo_sizes 1004 1192 Hsz s1 _ _ Hr1) as [H _]. specialize (H [] (ObjDelete 1016)).
  destruct H as (s2 & L2 & E2 & (_ & _ & _ & t & _ & _ & _ & _ & HL) & Hi2 & _).
  { exists 1%nat, [Entry 1016 [97; 98] false], (Entry 1016 [97; 98] false), 2. split; [reflexivity|]. split; [apply list_elem_of_singleton; reflexivity|].
    do 3 (split; [reflexivity|]). intros o' Ho' Hne. vm_compute in Ho'. apply list_elem_of_singleton in Ho'. exfalso. exact (Hne Ho'). }
  exists s1, s2. split; [exact E1|]. split; [exact Hi1|]. split; [exact E2|]. apply Permutation_length in HL. simpl in HL. destruct L2 as [|? ?]; [exact Hi2|discriminate HL].
Defined.

(** *** Limits *)

(** [rt_object_find] for a class that is not configured follows a null pointer. *)
Lemma rt_object_find_unconfigured container name st : name <> 0 -> rt_object_find container name 11 st = None.
Proof. intros Hn. unfold rt_object_find. by rewrite (proj2 (Z.eqb_neq _ _)). Qed.

(** ** Memory heaps in the container (rt-thread/src/memheap.c) *)

(** The object of the heap, and that of its lock behind the free header. *)
Definition memheap_lock (heap : Z) : Z := heap + 68.

Definition rt_memheap_detach (heap : Z) (st : ostate) : option (ostate * Z) :=
  st ← rt_object_detach (memheap_lock heap) st;
  st ← rt_object_detach heap st;
  Some (st, RT_EOK).

(** Both objects leave the container. *)
Lemma rt_memheap_detach_spec container st R heap :
  represents container st R -> heap ∈ objs R -> memheap_lock heap ∈ objs R ->
  exists st', rt_memheap_detach heap st = Some (st', RT_EOK) /\
    represents container st' (reg_remove heap (reg_remove (memheap_lock heap) R)).
Proof.
  intros Hr Hh Hl. destruct (detach_ok container st R _ Hr Hl) as (st1 & E1 & Hr1).
  destruct (detach_ok container st1 _ heap Hr1) as (st2 & E2 & Hr2).
  - apply objs_elem in Hh as (i & l & e & Hi & He & Eo). apply objs_elem.
    exists i, (filter (fun x => e_obj x <> memheap_lock heap) l), e. unfold reg_remove. rewrite list_lookup_fmap, Hi. split; [done|]. split; [|done].
    apply list_elem_of_filter. split; [|done]. rewrite Eo. unfold memheap_lock. lia.
  - exists st2. unfold rt_memheap_detach. rewrite E1. simpl. by rewrite E2.
Qed.
