(* ===== verification/DeviceReg.v ===== *)
(** * Devices by name (rt-thread/src/device.c)

    Registering, finding, creating and destroying devices: the device class of the
    object container, and the fields of the devices. *)

From S2P Require Import Prelude RtList Kernel Device KString Object.

(** The container, and the devices in memory with their type. *)
Record device_table := DeviceTable { dt_st : ostate; dt_devs : gmap Z rt_device; dt_type : gmap Z Z }.

Section DeviceReg.
(** The address of the container and [sizeof(struct rt_device)]. *)
Context (container sizeof_device : Z).

Definition rt_device_find (name : Z) (s : device_table) : option Z :=
  i ← rt_object_get_information RT_Object_Class_Device; find_in container i name (dt_st s).

Definition rt_device_register (dev name flags : Z) (s : device_table) : option (device_table * Z) :=
  if dev =? 0 then Some (s, - RT_ERROR)
  else
    found ← rt_device_find name s;
    if negb (found =? 0) then Some (s, - RT_ERROR)
    else
      st ← rt_object_init container dev RT_Object_Class_Device name (dt_st s);
      d ← dt_devs s !! dev;
      Some (DeviceTable st (<[dev := registered flags d]> (dt_devs s)) (dt_type s), RT_EOK).

Definition rt_device_unregister (dev : Z) (s : device_table) : option (device_table * Z) :=
  st ← rt_object_detach dev (dt_st s); Some (DeviceTable st (dt_devs s) (dt_type s), RT_EOK).

Definition rt_device_init_all : Z := RT_EOK.

(** [malloc]: the address the heap gives for a size, 0 for [RT_NULL]. *)
Definition rt_device_create (malloc : Z -> Z) (type attach_size : Z) (s : device_table) : option (device_table * Z) :=
  let size := RT_ALIGN sizeof_device 4 in
  let attach_size := RT_ALIGN attach_size 4 in
  let size := u32 (size + attach_size) in
  let device := malloc size in
  if negb (device =? 0) then
    st ← clear_object device (Z.to_nat sizeof_device) (dt_st s);
    Some (DeviceTable st (<[device := RtDevice 0 0 0 false false]> (dt_devs s)) (<[device := type]> (dt_type s)), device)
  else Some (s, device).

(** The address is given back to the heap. *)
Definition rt_device_destroy (dev : Z) (s : device_table) : option (device_table * Z) :=
  st ← rt_object_detach dev (dt_st s); Some (DeviceTable st (dt_devs s) (dt_type s), dev).

(** ** Registered devices *)

(** The container's list of devices. *)
Definition devices (R : list (list entry)) : list entry := default [] (R !! 8%nat).

(** The names of the devices, up to eight characters, are different, and their
    addresses are not null. *)
Record device_names (s : device_table) (R : list (list entry)) : Prop := {
  dn_repr : represents container (dt_st s) R;
  dn_names : NoDup (e_name <$> devices R);
  dn_known : Forall (fun e => e_obj e <> 0 /\ is_Some (dt_devs s !! e_obj e)) (devices R);
}.

Lemma devices_list st R : represents container st R -> R !! 8%nat = Some (devices R).
Proof.
  intros Hr. destruct (lookup_lt_is_Some_2 R 8) as [l Hl]; [rewrite (rp_len _ _ _ Hr); simpl; lia|]. unfold devices. by rewrite Hl.
Qed.

Lemma rt_device_find_ok s R a w : device_names s R -> cstr (o_m (dt_st s)) a w -> rt_device_find a s = Some (reg_find 8 w R).
Proof. intros Hd Hw. unfold rt_device_find. apply (find_in_spec container (dt_st s) R 8 (devices R) a w); [apply Hd|apply (devices_list _ _ (dn_repr _ _ Hd))|done]. Qed.

(** What a search gives: the one device of that name. *)
Lemma reg_find_device s R w : device_names s R ->
  (exists e, e ∈ devices R /\ e_name e = take RT_NAME_MAX w /\ reg_find 8 w R = e_obj e) \/
  (take RT_NAME_MAX w ∉ e_name <$> devices R) /\ reg_find 8 w R = 0.
Proof.
  intros Hd. unfold reg_find. fold (devices R). destruct (filter (fun e => e_name e = take RT_NAME_MAX w) (devices R)) as [|e l] eqn:E.
  - right. split; [|done]. intros (e & En & He)%list_elem_of_fmap.
    assert (e ∈ filter (fun e => e_name e = take RT_NAME_MAX w) (devices R)) as Hf by (by apply list_elem_of_filter). rewrite E in Hf. by apply elem_of_nil in Hf.
  - left. exists e. assert (e ∈ filter (fun e => e_name e = take RT_NAME_MAX w) (devices R)) as [? ?]%list_elem_of_filter by (rewrite E; by left). done.
Qed.

Lemma devices_add e R : is_Some (R !! 8%nat) -> devices (reg_add 8 e R) = e :: devices R.
Proof. intros [l Hl]. unfold devices, reg_add. rewrite list_lookup_alter_eq, Hl. done. Qed.

Lemma devices_remove o R : devices (reg_remove o R) = filter (fun e => e_obj e <> o) (devices R).
Proof. unfold devices, reg_remove. rewrite list_lookup_fmap. by destruct (R !! 8%nat). Qed.

Lemma register_ok s R dev a flags w d :
  device_names s R -> dev <> 0 -> cstr (o_m (dt_st s)) a w -> vacant container (dt_st s) R dev -> named (o_m (dt_st s)) dev a 20 w -> dt_devs s !! dev = Some d ->
  if decide (take RT_NAME_MAX w ∈ e_name <$> devices R) then rt_device_register dev a flags s = Some (s, - RT_ERROR)
  else exists s', rt_device_register dev a flags s = Some (s', RT_EOK) /\
    device_names s' (reg_add 8 (Entry dev (take RT_NAME_MAX w) true) R) /\
    dt_devs s' = <[dev := registered flags d]> (dt_devs s).
Proof.
  intros Hd Hdev Hw Hv Hn Hk. unfold rt_device_register. rewrite (proj2 (Z.eqb_neq _ _)) by done. rewrite (rt_device_find_ok s R a w Hd Hw). cbn [mbind option_bind].
  pose proof (devices_list _ _ (dn_repr _ _ Hd)) as HR.
  destruct (reg_find_device s R w Hd) as [(e & He & En & ->)|[Hno ->]].
  - rewrite decide_True by (apply list_elem_of_fmap; by exists e).
    pose proof (proj1 (Forall_forall _ _) (dn_known _ _ Hd) e He) as [Hne _]. by rewrite (proj2 (Z.eqb_neq _ _)).
  - rewrite decide_False by done. cbn [Z.eqb negb].
    destruct (init_ok container (dt_st s) R dev a w RT_Object_Class_Device 8 (dn_repr _ _ Hd) Hv eq_refl Hn) as (st' & -> & Hr').
    cbn [mbind option_bind]. rewrite Hk. simpl. eexists. split; [done|]. split; [|done].
    split; simpl; [done| |]; rewrite devices_add by (by eexists); simpl.
    + constructor; [done|apply (dn_names _ _ Hd)].
    + constructor; [split; [done|]; simpl; by rewrite lookup_insert_eq|]. eapply Forall_impl; [apply (dn_known _ _ Hd)|]. intros e [? ?]. split; [done|].
      apply lookup_insert_is_Some'. by right.
Qed.

Lemma detach_names s R dev : device_names s R -> dev ∈ e_obj <$> devices R ->
  exists st, rt_object_detach dev (dt_st s) = Some st /\
    forall D T, D = dt_devs s -> device_names (DeviceTable st D T) (reg_remove dev R).
Proof.
  intros Hd (e & -> & He)%list_elem_of_fmap. pose proof (devices_list _ _ (dn_repr _ _ Hd)) as HR.
  destruct (detach_ok container (dt_st s) R (e_obj e) (dn_repr _ _ Hd)) as (st & Est & Hr); [apply objs_elem; by exists 8%nat, (devices R), e|].
  exists st. split; [done|]. intros D T ->. split; simpl; [done| |]; rewrite devices_remove.
  - eapply sublist_NoDup; [apply (dn_names _ _ Hd)|apply fmap_sublist, sublist_filter].
  - apply Forall_forall. intros x [_ Hx]%list_elem_of_filter. by apply (proj1 (Forall_forall _ _) (dn_known _ _ Hd)).
Qed.

(** A created device: zero fields, not registered yet. *)
Lemma create_ok s R malloc type attach :
  let dev := malloc (u32 (RT_ALIGN sizeof_device 4 + RT_ALIGN attach 4)) in
  device_names s R -> dev <> 0 -> room container (dt_st s) R dev sizeof_device ->
  exists s', rt_device_create malloc type attach s = Some (s', dev) /\ device_names s' R /\
    vacant container (dt_st s') R dev /\ dt_devs s' !! dev = Some (RtDevice 0 0 0 false false) /\ dt_type s' !! dev = Some type.
Proof.
  intros dev Hd Hne Hroom. unfold rt_device_create. fold dev. rewrite (proj2 (Z.eqb_neq _ _)) by done. cbn [negb].
  destruct (clear_ok container (dt_st s) R dev sizeof_device (dn_repr _ _ Hd) Hroom) as (st & -> & Hr & Hv & _). simpl.
  eexists. split; [done|]. split; [|split; [exact Hv|simpl; by rewrite !lookup_insert_eq]].
  split; simpl; [done|apply (dn_names _ _ Hd)|]. eapply Forall_impl; [apply (dn_known _ _ Hd)|]. intros e [? ?]. split; [done|].
  apply lookup_insert_is_Some'. by right.
Qed.

(** A device is registered once per name: [rt_device_register] refuses a name whose
    first eight characters are in use and changes nothing; otherwise the device is
    open for nobody, has the flags given, and [rt_device_find] returns it for every
    name that begins alike, until it is taken off; the others are found as before. *)
Theorem rt_device_register_unique s R dev a flags w d :
  device_names s R -> dev <> 0 -> cstr (o_m (dt_st s)) a w -> vacant container (dt_st s) R dev -> named (o_m (dt_st s)) dev a 20 w -> dt_devs s !! dev = Some d ->
  (take RT_NAME_MAX w ∈ e_name <$> devices R /\ rt_device_register dev a flags s = Some (s, - RT_ERROR)) \/
  exists s', rt_device_register dev a flags s = Some (s', RT_EOK) /\ dt_devs s' = <[dev := registered flags d]> (dt_devs s) /\
    (forall b v, cstr (o_m (dt_st s')) b v -> rt_device_find b s' = Some (if decide (take RT_NAME_MAX w = take RT_NAME_MAX v) then dev else reg_find 8 v R)) /\
    exists s2, rt_device_unregister dev s' = Some (s2, RT_EOK) /\
      forall b v, cstr (o_m (dt_st s2)) b v -> rt_device_find b s2 = Some (reg_find 8 v R).
Proof.
  intros Hd Hdev Hw Hv Hn Hk. pose proof (register_ok s R dev a flags w d Hd Hdev Hw Hv Hn Hk) as Hreg.
  case_decide as Hin; [by left|right]. destruct Hreg as (s' & -> & Hd' & Hdevs). exists s'. split; [done|]. split; [done|].
  pose proof (devices_list _ _ (dn_repr _ _ Hd)) as HR. set (e0 := Entry dev (take RT_NAME_MAX w) true) in *. split.
  - intros b v Hb. rewrite (rt_device_find_ok s' _ b v Hd' Hb). f_equal. unfold reg_find. fold (devices (reg_add 8 e0 R)). rewrite devices_add by (by eexists).
    fold (devices R). case_decide as E.
    + by rewrite filter_cons_True.
    + by rewrite filter_cons_False.
  - destruct (detach_names s' (reg_add 8 e0 R) dev Hd') as (st & Est & Hd2); [rewrite devices_add by (by eexists); by left|].
    unfold rt_device_unregister. rewrite Est. simpl. eexists. split; [done|]. intros b v Hb.
    erewrite rt_device_find_ok; [|by apply Hd2|done]. f_equal. unfold reg_find. fold (devices (reg_remove dev (reg_add 8 e0 R))). fold (devices R).
    rewrite devices_remove, devices_add, filter_cons_False by (by eexists || naive_solver). do 3 f_equal.
    assert (forall e, e ∈ devices R -> e_obj e <> dev) as Hne.
    { intros e He E. destruct Hv as (_ & _ & _ & _ & Hap). assert (dev ∈ objs R) as Ho by (apply objs_elem; by exists 8%nat, (devices R), e). specialize (Hap _ Ho). lia. }
    f_equal. clear -Hne. induction (devices R) as [|e l IH]; [done|]. rewrite filter_cons_True by (apply Hne; by left). f_equal. apply IH. intros. apply Hne. by right.
Qed.
End DeviceReg.

(** ** Limits *)

(** The devices 1200 and 1220, and the name "ab" at 1240. *)
Definition demo_table : device_table :=
  DeviceTable demo_objects {[1200 := RtDevice 0 0 0 false false; 1220 := RtDevice 0 0 0 false false]} ∅.

Lemma rt_device_register_unique_witness :
  device_names demo_container demo_table (replicate 10 []) /\
  exists s', rt_device_register demo_container 1200 1240 256 demo_table = Some (s', RT_EOK).
Proof.
  assert (device_names demo_container demo_table (replicate 10 [])) as Hd.
  { split; [|constructor|constructor]. apply (rg_repr _ _ _ _ (demo_objects, _) _ [] (reached_container_ok _ demo_sizes 1004 1192 ltac:(intros i t _; unfold demo_sizes; lia) _ _ _ (reached_initial _ _ _ _ _ _ demo_objects_initial))). }
  split; [exact Hd|].
  destruct (rt_device_register_unique demo_container demo_table _ 1200 1240 256 [97; 98] (RtDevice 0 0 0 false false) Hd) as [[H _]|(s' & H & _)].
  - discriminate.
  - apply demo_name.
  - split; [apply demo_mapped; simpl; lia|]. split; [by vm_compute; eexists|]. split; [by vm_compute; eexists|].
    split; [right; vm_compute; discriminate|]. by intros o' ?%elem_of_nil.
  - split; [apply demo_name|right; simpl; lia].
  - reflexivity.
  - exfalso. by apply elem_of_nil in H.
  - exists s'. exact H.
Defined.

(** Two threads that register devices of one name at a time: both find the name
    free, and both devices are registered. *)
Definition register_race : option (Z * Z * Z) :=
  f1 ← rt_device_find demo_container 1240 demo_table;
  f2 ← rt_device_find demo_container 1240 demo_table;
  st ← rt_object_init demo_container 1200 RT_Object_Class_Device 1240 demo_objects;
  st ← rt_object_init demo_container 1220 RT_Object_Class_Device 1240 st;
  f3 ← rt_device_find demo_container 1240 (DeviceTable st (dt_devs demo_table) ∅);
  Some (f1, f2, f3).
Lemma rt_device_register_race : register_race = Some (0, 0, 1220).
Proof. vm_compute. reflexivity. Qed.

(** Destroying a device that was created but never registered: its list node has
    null pointers. *)
Lemma rt_device_destroy_unregistered sizeof_device malloc type attach s s' dev :
  nx (o_l (dt_st s)) !! 0 = None -> pv (o_l (dt_st s)) !! 0 = None -> list_node dev <> 0 -> dev <> 0 ->
  rt_device_create sizeof_device malloc type attach s = Some (s', dev) -> rt_device_destroy dev s' = None.
Proof.
  intros Hn Hp Hnode Hdev. unfold rt_device_create. destruct (Z.eqb_spec (malloc (u32 (RT_ALIGN sizeof_device 4 + RT_ALIGN attach 4))) 0) as [E|E]; cbn [negb].
  { rewrite E. intros [= _ <-]. done. }
  unfold clear_object. destruct (rt_memset _ _ _ _) as [m|]; [|done]. simpl. intros [= <- <-]. unfold rt_device_destroy, rt_object_detach. simpl.
  destruct (store m _ 0) as [m2|]; [|done]. simpl. unfold rt_list_remove, set_prev. simpl. rewrite !lookup_insert_eq. simpl.
  by rewrite lookup_insert_ne, Hp by done.
Qed.
