(* ===== verification/WaitQueue.v ===== *)
(** * Wait queues (rt-thread/components/drivers/src/waitqueue.c)

    A list of waiting threads outside the kernel's objects, and a flag that keeps
    a wake-up for a thread that is about to wait. A wait is split at
    [rt_schedule]. *)

From S2P Require Import Prelude RtList Sched SchedFacts Timer Kernel Thread Demo Clock Ipc Sem.

(** ** Operations *)

Definition RT_WQ_FLAG_CLEAN : Z := 0.
Definition RT_WQ_FLAG_WAKEUP : Z := 1.

(** The address of a node, its thread and its function: 0 to be woken by a key. *)
Record rt_wqueue_node := WNode { wn_addr : Z; wn_thread : tid; wn_wakeup : Z -> Z }.
Record rt_wqueue := WQueue { wq_flag : Z; wq_waiting : list rt_wqueue_node }.

Definition rt_wqueue_init : rt_wqueue := WQueue RT_WQ_FLAG_CLEAN [].
Definition rt_wqueue_add (n : rt_wqueue_node) (q : rt_wqueue) : rt_wqueue := WQueue (wq_flag q) (wq_waiting q ++ [n]).
Definition rt_wqueue_remove (a : Z) (q : rt_wqueue) : rt_wqueue := WQueue (wq_flag q) (filter (fun n => wn_addr n <> a) (wq_waiting q)).
Definition __wqueue_default_wake (key : Z) : Z := 0.

(** The loop over the nodes: the first one whose function accepts the key. *)
Fixpoint wakeup_loop (key : Z) (l : list rt_wqueue_node) (q : rt_wqueue) (k : kernel) : option (rt_wqueue * kernel * bool) :=
  match l with
  | [] => Some (q, k, false)
  | entry :: l =>
      if wn_wakeup entry key =? 0 then
        '(k, _) ← rt_thread_resume (wn_thread entry) k;
        Some (rt_wqueue_remove (wn_addr entry) q, k, true)
      else wakeup_loop key l q k
  end.

Definition rt_wqueue_wakeup (key : Z) (q : rt_wqueue) (k : kernel) : option (rt_wqueue * kernel) :=
  let q := WQueue RT_WQ_FLAG_WAKEUP (wq_waiting q) in
  '(q, k, need_schedule) ← wakeup_loop key (wq_waiting q) q k;
  k ← schedule_if need_schedule k;
  Some (q, k).

(** The end of [rt_wqueue_wait]; [a] is the address of [__wait]. *)
Definition rt_wqueue_wait_resume (a : Z) (q : rt_wqueue) : rt_wqueue * Z :=
  (rt_wqueue_remove a (WQueue 0 (wq_waiting q)), 0).

Definition rt_wqueue_wait_enter (a condition msec : Z) (q : rt_wqueue) (k : kernel) : option (rt_wqueue * kernel * blocking) :=
  t ← rt_thread_self k;
  let tick := rt_tick_from_millisecond msec in
  if negb (condition =? 0) || (tick =? 0) then Some (q, k, Ret 0)
  else if wq_flag q =? RT_WQ_FLAG_WAKEUP then
    let '(q, r) := rt_wqueue_wait_resume a q in Some (q, k, Ret r)
  else
    let q := rt_wqueue_add (WNode a t __wqueue_default_wake) q in
    '(k, _) ← rt_thread_suspend t k;
    k ← (if negb (tick =? RT_WAITING_FOREVER) then start_thread_timer t tick k else Some k);
    Some (q, k, Blocked).

(** ** Properties *)

(** The addresses of the nodes are different. *)
Definition nodes_ok (q : rt_wqueue) : Prop := NoDup (wn_addr <$> wq_waiting q).

(** A wait for something that has happened, or for no time, returns at once; so
    does the first wait after a wake-up that found nobody waiting. *)
Lemma rt_wqueue_wait_returns (a condition msec : Z) (q : rt_wqueue) (k : kernel) (c : tid) :
  current (k_s k) = Some c ->
  (condition <> 0 \/ rt_tick_from_millisecond msec = 0 -> rt_wqueue_wait_enter a condition msec q k = Some (q, k, Ret 0)) /\
  (wq_waiting q = [] -> condition = 0 -> forall key,
     exists q', rt_wqueue_wakeup key q k = Some (q', k) /\
       rt_wqueue_wait_enter a condition msec q' k = Some (if rt_tick_from_millisecond msec =? 0 then q' else WQueue 0 [], k, Ret 0)).
Proof.
  intros Hc. unfold rt_wqueue_wait_enter, rt_thread_self. rewrite Hc. simpl. split.
  - intros [H|H]; [by rewrite (proj2 (Z.eqb_neq _ _)) by done|]. rewrite H. by rewrite orb_true_r.
  - intros Hq -> key. unfold rt_wqueue_wakeup. rewrite Hq. simpl. eexists. split; [done|]. simpl. by destruct (rt_tick_from_millisecond msec =? 0).
Qed.

(** The running thread waits: it is suspended and last in the queue, its timer is
    armed unless it waits forever. *)
Lemma wait_enter_spec (a msec : Z) (q : rt_wqueue) (k : kernel) (c : tid) (th : rt_thread) :
  kernel_wf k -> current (k_s k) = Some c -> threads (k_s k) !! c = Some th -> is_ready th ->
  wq_flag q = RT_WQ_FLAG_CLEAN -> let tick := rt_tick_from_millisecond msec in tick = RT_WAITING_FOREVER \/ 1 <= tick <= max_delay ->
  exists k', rt_wqueue_wait_enter a 0 msec q k = Some (rt_wqueue_add (WNode a c __wqueue_default_wake) q, k', Blocked) /\ kernel_wf k' /\
    current (k_s k') = Some c /\ threads (k_s k') !! c = Some (make_suspended th) /\ k_o k' = k_o k /\
    (tick <> RT_WAITING_FOREVER -> TThread c ∈ timer_list (k_t k') /\ timer_left (k_t k') (TThread c) = tick /\
       forall p, p <> TThread c -> p ∈ timer_list (k_t k') -> p ∈ timer_list (k_t k)).
Proof.
  intros Hk Hc Ht Hrd Hf tick Htick. unfold rt_wqueue_wait_enter, rt_thread_self. rewrite Hc. simpl. fold tick. rewrite Hf.
  unfold RT_WAITING_FOREVER in *. rewrite (proj2 (Z.eqb_neq tick 0)) by lia. simpl.
  destruct (rt_thread_suspend_spec ∅ 0 k c th Hk Ht Hrd) as (k1 & -> & Hk1 & Hths & _ & Hcu & _ & _ & Hob & Htl & _). simpl.
  replace (∅ ∖ {[TThread c]}) with (∅ : gset timer_ptr) in Hk1 by set_solver.
  assert (threads (k_s k1) !! c = Some (make_suspended th)) as Hth by (by rewrite Hths, lookup_insert_eq).
  destruct (Z.eqb_spec tick (-1)) as [E|E]; simpl.
  - exists k1. splits; try done. by rewrite Hcu.
  - destruct (start_thread_timer_spec ∅ 0 k1 c tick Hk1) as (k2 & -> & Hk2 & Hs2 & Ho2 & _ & Hin & Hleft & Hunt); try lia.
    { exists (make_suspended th). by rewrite make_suspended_stat. }
    replace (∅ ∖ {[TThread c]}) with (∅ : gset timer_ptr) in Hk2 by set_solver. simpl.
    exists k2. rewrite Hs2, Ho2. splits; try done; [by rewrite Hcu|]. intros _. splits; [done|done|].
    intros p Hp Hpin. rewrite <-Htl. by apply (Hunt p Hp).
Qed.

(** The thread that [rt_wqueue_wakeup] wakes: the first whose function accepts. *)
Lemma wakeup_loop_first key l1 n l2 q k :
  Forall (fun n => wn_wakeup n key <> 0) l1 -> wn_wakeup n key = 0 ->
  wakeup_loop key (l1 ++ n :: l2) q k = '(k, _) ← rt_thread_resume (wn_thread n) k; Some (rt_wqueue_remove (wn_addr n) q, k, true).
Proof.
  intros Hl Hn. induction Hl as [|m l1 Hm _ IH]; simpl; [by rewrite Hn|]. by rewrite (proj2 (Z.eqb_neq _ _)).
Qed.

(** A wait queue serves its waiters in order. A thread that waits is suspended at
    the end of the queue, for its time. When it is the first that accepts the key
    of a wake-up, it is taken off the queue and made ready, nobody else is, and
    when it runs again its call returns 0 and the flag is clear. *)
Theorem rt_wqueue_wait_wakes (a msec : Z) (q : rt_wqueue) (k : kernel) (c : tid) (th : rt_thread) :
  kernel_wf k -> current (k_s k) = Some c -> threads (k_s k) !! c = Some th -> is_ready th ->
  wq_flag q = RT_WQ_FLAG_CLEAN -> let tick := rt_tick_from_millisecond msec in tick = RT_WAITING_FOREVER \/ 1 <= tick <= max_delay ->
  exists k1, rt_wqueue_wait_enter a 0 msec q k = Some (rt_wqueue_add (WNode a c __wqueue_default_wake) q, k1, Blocked) /\
    kernel_wf k1 /\ suspended (k_s k1) c /\
    (tick <> RT_WAITING_FOREVER -> timer_left (k_t k1) (TThread c) = tick) /\
    forall key q2 k2 l1 l2 d, kernel_wf k2 -> current (k_s k2) = Some d -> nodes_ok q2 ->
      wq_waiting q2 = l1 ++ WNode a c __wqueue_default_wake :: l2 -> Forall (fun n => wn_wakeup n key <> 0) l1 ->
      suspended (k_s k2) c ->
      exists k3, rt_wqueue_wakeup key q2 k2 = Some (WQueue RT_WQ_FLAG_WAKEUP (l1 ++ l2), k3) /\ kernel_wf k3 /\
        (exists th', threads (k_s k3) !! c = Some th' /\ is_ready th') /\
        (forall t, t <> c -> suspended (k_s k2) t -> suspended (k_s k3) t) /\
        forall q4, wq_waiting q4 = l1 ++ l2 -> rt_wqueue_wait_resume a q4 = (WQueue 0 (l1 ++ l2), 0).
Proof.
  intros Hk Hc Ht Hrd Hf tick Htick. destruct (wait_enter_spec a msec q k c th Hk Hc Ht Hrd Hf Htick) as (k1 & Hop & Hk1 & Hc1 & Hth1 & _ & Htm).
  exists k1. splits; [done|done| | |].
  - exists (make_suspended th). by rewrite make_suspended_stat.
  - intros Hne. by apply Htm.
  - intros key q2 k2 l1 l2 d Hk2 Hd Hno Hq Hl1 (th2 & Hth2 & Hst2). unfold rt_wqueue_wakeup. simpl. rewrite Hq, wakeup_loop_first by done. simpl.
    destruct (rt_thread_resume_spec ∅ 0 k2 c th2 Hk2 Hth2 Hst2) as (k3 & tm & -> & Hk3 & Hwk & _). simpl.
    replace (∅ ∖ {[TThread c]}) with (∅ : gset timer_ptr) in Hk3 by set_solver.
    destruct (kernel_schedule ∅ 0 k3 d Hk3) as (s' & -> & Hk4 & Hfr & _); [by rewrite (wk_current _ _ _ _ Hwk)|]. simpl.
    assert (a ∉ wn_addr <$> l1 ++ l2) as Hna.
    { unfold nodes_ok in Hno. rewrite Hq, fmap_app, fmap_cons in Hno. simpl in Hno. apply NoDup_app in Hno as (_ & H1 & H2).
      apply NoDup_cons in H2 as [H2 _]. rewrite fmap_app, elem_of_app. intros [H|H]; [|done]. apply (H1 a H). by left. }
    assert (filter (fun n => wn_addr n <> a) (l1 ++ l2) = l1 ++ l2) as Hfl.
    { clear -Hna. induction (l1 ++ l2) as [|n l IH]; [done|]. simpl in Hna. apply not_elem_of_cons in Hna as [? ?].
      rewrite filter_cons_True by congruence. by rewrite IH. }
    exists (set_s s' k3). splits.
    + unfold rt_wqueue_remove. simpl. rewrite filter_app, filter_cons_False by (simpl; tauto). by rewrite <-filter_app, Hfl.
    + done.
    + pose proof Hfr as (_ & _ & _ & Hths). simpl. assert (threads (k_s k3) !! c = Some (make_ready th2)) as E by (by rewrite (wk_threads _ _ _ _ Hwk), lookup_insert_eq).
      destruct (Hths c) as [E'|(th3 & Hth3 & _ & E')]; rewrite E'; eexists; (split; [by rewrite ?E|]); apply make_ready_ready.
    + intros t Hne Hsus. apply (same_frame_suspended _ _ t Hfr). destruct Hsus as (th3 & Ht3 & Hst3). exists th3.
      by rewrite (wk_threads _ _ _ _ Hwk), lookup_insert_ne.
    + intros q4 Hq4. unfold rt_wqueue_wait_resume, rt_wqueue_remove. simpl. by rewrite Hq4, Hfl.
Qed.

(** In the idle system, thread 0 waits for 30 ms. *)
Lemma rt_wqueue_wait_wakes_witness :
  exists k1, rt_wqueue_wait_enter 500 0 30 rt_wqueue_init (demo_idle []) =
      Some (rt_wqueue_add (WNode 500 0 __wqueue_default_wake) rt_wqueue_init, k1, Blocked) /\
    timer_left (k_t k1) (TThread 0) = 3.
Proof.
  destruct (rt_wqueue_wait_wakes 500 30 rt_wqueue_init (demo_idle []) 0 demo_idle_th demo_idle_wf_0) as (k1 & H & _ & _ & Ht & _).
  - reflexivity.
  - vm_compute. reflexivity.
  - reflexivity.
  - reflexivity.
  - right. vm_compute. split; discriminate.
  - exists k1. split; [exact H|]. apply Ht. vm_compute. discriminate.
Defined.
