(* ===== verification/WorkQueue.v ===== *)
(** * Work queues (rt-thread/components/drivers/src/workqueue.c)

    Functions that a thread of the queue calls one after the other. The calls run
    on the kernel, split at [rt_schedule]; the thread is a sequence of steps,
    between which others may run. [None]: the head of the empty list is taken for
    a work. *)

From S2P Require Import Prelude RtList Sched SchedFacts Timer Kernel Thread Demo Ipc Sem Device.

(** ** Operations *)

(** The works that wait, and the one that is done, by address; 0 for [RT_NULL]. *)
Record rt_workqueue := WorkQ { work_list : list Z; work_current : Z }.

(** [rt_list_remove] and [rt_list_insert_after(work_list.prev, ...)]. *)
Definition queue_work (work : Z) (q : rt_workqueue) : rt_workqueue :=
  WorkQ (remove_elem work (work_list q) ++ [work]) (work_current q).
Definition unqueue_work (work : Z) (q : rt_workqueue) : rt_workqueue :=
  WorkQ (remove_elem work (work_list q)) (work_current q).

(** The steps of [_workqueue_thread_entry] on the queue. *)
Definition worker_take (q : rt_workqueue) : option (Z * rt_workqueue) :=
  match work_list q with [] => None | work :: l => Some (work, WorkQ l work) end.
Definition worker_done (q : rt_workqueue) : rt_workqueue := WorkQ (work_list q) 0.

Section Workqueue.
(** The semaphore and the thread of the queue. *)
Context (sem : oid) (work_thread : tid).

Fixpoint completion_loop (fuel : nat) (k : kernel) : option (kernel * Z) :=
  match fuel with
  | O => None
  | S fuel =>
      '(k, r) ← rt_sem_trytake sem k;
      match r with
      | Ret result =>
          if result =? - RT_ETIMEOUT then '(k, _) ← rt_sem_release sem k; completion_loop fuel k
          else if result =? RT_EOK then Some (k, RT_EOK)
          else Some (k, - RT_ERROR)
      | Blocked => None
      end
  end.
Definition _workqueue_work_completion (fuel : nat) (k : kernel) : option (kernel * Z) :=
  let k := set_s (rt_enter_critical (k_s k)) k in
  '(k, result) ← completion_loop fuel k;
  k ← on_s rt_exit_critical k;
  Some (k, result).

(** [rt_thread_suspend(rt_thread_self())] of the worker, up to [rt_schedule]. *)
Definition worker_sleep (k : kernel) : option kernel := '(k, _) ← rt_thread_suspend work_thread k; Some k.

Definition rt_workqueue_dowork (work : Z) (q : rt_workqueue) (k : kernel) : option (rt_workqueue * kernel * Z) :=
  if work_current q =? work then Some (q, k, - RT_EBUSY)
  else
    let q := queue_work work q in
    if work_current q =? 0 then
      '(k, _) ← rt_thread_resume work_thread k;
      k ← on_s rt_schedule k;
      Some (q, k, RT_EOK)
    else Some (q, k, RT_EOK).

Definition rt_workqueue_critical_work (work : Z) (q : rt_workqueue) (k : kernel) : option (rt_workqueue * kernel * Z) :=
  if work_current q =? work then Some (q, k, - RT_EBUSY)
  else
    let q := queue_work work q in
    if work_current q =? 0 then
      '(k, _) ← rt_thread_resume work_thread k;
      k ← on_s rt_schedule k;
      Some (q, k, RT_EOK)
    else Some (q, k, RT_EOK).

Definition rt_workqueue_cancel_work (work : Z) (q : rt_workqueue) : rt_workqueue * Z :=
  if work_current q =? work then (q, - RT_EBUSY) else (unqueue_work work q, RT_EOK).

(** The call waits on the semaphore if the work is being done. *)
Definition rt_workqueue_cancel_work_sync (work : Z) (q : rt_workqueue) (k : kernel) : option (rt_workqueue * kernel * blocking) :=
  if work_current q =? work then '(k, b) ← rt_sem_take_enter sem RT_WAITING_FOREVER k; Some (q, k, match b with Ret _ => Ret RT_EOK | Blocked => Blocked end)
  else Some (unqueue_work work q, k, Ret RT_EOK).

(** The nodes that the loop takes off, one after the other. *)
Fixpoint cancel_loop (l : list Z) (q : rt_workqueue) : rt_workqueue :=
  match l with [] => q | work :: l => cancel_loop l (unqueue_work work q) end.
Definition rt_workqueue_cancel_all_work (q : rt_workqueue) (k : kernel) : option (rt_workqueue * kernel * Z) :=
  let k := set_s (rt_enter_critical (k_s k)) k in
  let q := cancel_loop (work_list q) q in
  k ← on_s rt_exit_critical k;
  Some (q, k, RT_EOK).

(** [queue]: whether the heap has room for the queue; [thread], [stack]: its
    answers for the thread. *)
Definition rt_workqueue_create (queue : bool) (thread : option tid) (stack : option Z) (stack_size priority : Z) (k : kernel) : option (kernel * option rt_workqueue) :=
  if negb queue then Some (k, None)
  else
    let '(k, _) := rt_sem_init sem 0 RT_IPC_FLAG_FIFO k in
    let '(k, t) := rt_thread_create thread stack (u16 stack_size) (u8 priority) 10 k in
    match t with
    | None => Some (k, None)
    | Some t => '(k, _) ← rt_thread_startup t k; Some (k, Some (WorkQ [] 0))
    end.

Definition rt_workqueue_destroy (k : kernel) : option (kernel * Z) := '(k, _) ← rt_thread_delete work_thread k; Some (k, RT_EOK).

(** ** The end of a work *)

Lemma schedule_locked k : lock_nest (k_s k) <> 0 -> on_s rt_schedule k = Some k.
Proof. intros Hl. unfold on_s, rt_schedule. rewrite (proj2 (Z.eqb_neq _ _) Hl). simpl. by destruct k. Qed.

Lemma kernel_lock n k : kernel_wf k -> kernel_wf (set_s (set_lock n (k_s k)) k).
Proof.
  intros Hk. apply kernel_set_sched; [done|by apply wf_set_lock, Hk|..]; simpl; [|done..].
  intros t th Ht Hst. by exists th.
Qed.

(** Every thread of [l] is ready, with the error code it had. *)
Definition released (l : list tid) (k k' : kernel) : Prop :=
  forall t, t ∈ l -> exists th th', threads (k_s k) !! t = Some th /\ threads (k_s k') !! t = Some th' /\ is_ready th' /\ th_error th' = th_error th.

Lemma trytake_empty k s : k_o k !! sem = Some (ISem s) -> sem_value s = 0 -> rt_sem_trytake sem k = Some (k, Ret (- RT_ETIMEOUT)).
Proof. intros Hs Hv. unfold rt_sem_trytake, rt_sem_take_enter. rewrite (get_sem_eq _ _ _ Hs). simpl. by rewrite Hv. Qed.

Lemma completion_loop_spec c s l : forall fuel k,
  kernel_wf k -> lock_nest (k_s k) = 1 -> current (k_s k) = Some c -> k_o k !! sem = Some (ISem s) -> sem_value s = 0 ->
  lists (k_s k) !! LSuspend sem = Some l -> (S (length l) < fuel)%nat ->
  exists k', completion_loop fuel k = Some (k', RT_EOK) /\ kernel_wf k' /\ lock_nest (k_s k') = 1 /\ current (k_s k') = Some c /\
    k_o k' !! sem = Some (ISem s) /\ lists (k_s k') !! LSuspend sem = Some [] /\ released l k k' /\
    forall t, t ∉ l -> threads (k_s k') !! t = threads (k_s k) !! t.
Proof.
  induction l as [|t l IH]; intros fuel k Hk Hlk Hc Hs Hv Hl Hf.
  - destruct fuel as [|[|fuel]]; simpl in Hf; [lia..|]. cbn [completion_loop]. rewrite (trytake_empty k s Hs Hv). simpl. unfold rt_sem_release, rt_sem_release_section. rewrite (get_sem_eq _ _ _ Hs). simpl. rewrite Hl. simpl.
    unfold rt_sem_trytake, rt_sem_take_enter. erewrite get_sem_eq by (simpl; apply lookup_insert_eq). simpl. rewrite Hv. simpl.
    eexists. split; [done|]. simpl. splits; try done; [|rewrite lookup_insert_eq; destruct s; simpl in *; by subst|by intros x ?%elem_of_nil].
    eapply (kernel_same_obj ∅ 0 _ sem); [eapply kernel_same_obj; [done|done|done]|simpl; apply lookup_insert_eq|done].
  - destruct fuel as [|fuel]; simpl in Hf; [lia|]. cbn [completion_loop]. rewrite (trytake_empty k s Hs Hv). simpl. unfold rt_sem_release at 1, rt_sem_release_section. rewrite (get_sem_eq _ _ _ Hs). simpl. rewrite Hl. simpl.
    destruct (rt_ipc_list_resume_spec ∅ 0 k (LSuspend sem) t l Hk I Hl) as (k1 & th & -> & Hk1 & Ht & Hst & Hwk & Hl1 & _ & Hobj & _). simpl.
    replace (∅ ∖ {[TThread t]}) with (∅ : gset timer_ptr) in Hk1 by set_solver.
    destruct (wk_nest _ _ _ _ Hwk) as [Hlk1 _]. rewrite schedule_locked by lia. simpl.
    destruct (IH fuel k1) as (k' & -> & Hk' & Hlk' & Hc' & Hs' & Hl' & Hrel & Hoth); try done; [lia|by rewrite (wk_current _ _ _ _ Hwk)|by rewrite Hobj|lia|].
    assert (t ∉ l) as Hnt.
    { destruct (c_ok _ _ (wf_core _ (kw_sched _ _ _ Hk))) as [Hnd _]. specialize (Hnd _ _ Hl). by apply NoDup_cons in Hnd as [? _]. }
    exists k'. splits; try done.
    + intros x [->|Hx]%elem_of_cons.
      * exists th, (make_ready th). split; [done|]. rewrite (Hoth t Hnt), (wk_threads _ _ _ _ Hwk), lookup_insert_eq. splits; [done|apply make_ready_ready|done].
      * destruct (Hrel x Hx) as (th1 & th2 & H1 & H2). exists th1, th2. rewrite (wk_threads _ _ _ _ Hwk), lookup_insert_ne in H1 by (by intros ->). done.
    + intros x Hx. apply not_elem_of_cons in Hx as [? ?]. rewrite Hoth by done. by rewrite (wk_threads _ _ _ _ Hwk), lookup_insert_ne.
Qed.

(** The end of a work wakes every thread that waits for it in
    [rt_workqueue_cancel_work_sync], whose [rt_sem_take] then returns what its
    error code was, and leaves the semaphore at 0; the loop ends. *)
Theorem workqueue_completion_wakes_all (k : kernel) (c : tid) (s : rt_semaphore) (l : list tid) (fuel : nat) :
  kernel_wf k -> lock_nest (k_s k) = 0 -> current (k_s k) = Some c -> k_o k !! sem = Some (ISem s) -> sem_value s = 0 ->
  lists (k_s k) !! LSuspend sem = Some l -> (S (length l) < fuel)%nat ->
  exists k', _workqueue_work_completion fuel k = Some (k', RT_EOK) /\ kernel_wf k' /\
    k_o k' !! sem = Some (ISem s) /\ lists (k_s k') !! LSuspend sem = Some [] /\ lock_nest (k_s k') = 0 /\ is_Some (current (k_s k')) /\
    released l k k'.
Proof.
  intros Hk Hlk Hc Hs Hv Hl Hf. unfold _workqueue_work_completion.
  assert (rt_enter_critical (k_s k) = set_lock 1 (k_s k)) as -> by (unfold rt_enter_critical; by rewrite Hlk).
  set (k0 := set_s (set_lock 1 (k_s k)) k).
  assert (kernel_wf k0) as Hk0 by (by apply kernel_lock).
  destruct (completion_loop_spec c s l fuel k0) as (k1 & -> & Hk1 & Hlk1 & Hc1 & Hs1 & Hl1 & Hrel & _); try done. simpl.
  destruct (exit_critical_one (k_s k1) c (kw_sched _ _ _ Hk1) Hlk1 Hc1) as (s' & Hop & Hwf & Hf' & Hcu).
  unfold on_s. rewrite Hop. simpl. exists (set_s s' k1). pose proof Hf' as (Hn & _ & Hls & Hths). simpl in Hn, Hls, Hths. splits; try done.
  - apply (kernel_frame ∅ 0 (set_s (set_lock 0 (k_s k1)) k1)); [by apply kernel_lock|done|done].
  - simpl. by rewrite Hls.
  - intros t Ht. destruct (Hrel t Ht) as (th & th1 & H1 & H2 & H3 & H4). exists th. simpl. destruct (Hths t) as [E|(th2 & E2 & _ & E)]; rewrite E.
    + exists th1. done.
    + rewrite H2 in E2. injection E2 as <-. exists (make_ready th1). splits; [done|done|apply make_ready_ready|done].
Qed.

(** ** Requests *)

(** [rt_workqueue_dowork] on every branch. *)
Lemma rt_workqueue_dowork_cases (work : Z) (q : rt_workqueue) (k : kernel) (c : tid) (th : rt_thread) :
  kernel_wf k -> current (k_s k) = Some c -> threads (k_s k) !! work_thread = Some th ->
  (work_current q = work -> rt_workqueue_dowork work q k = Some (q, k, - RT_EBUSY)) /\
  (work_current q <> work -> work_current q <> 0 -> rt_workqueue_dowork work q k = Some (queue_work work q, k, RT_EOK)) /\
  (work_current q <> work -> work_current q = 0 ->
    exists k', rt_workqueue_dowork work q k = Some (queue_work work q, k', RT_EOK) /\ kernel_wf k' /\
      (stat_of th = RT_THREAD_SUSPEND \/ is_ready th -> exists th', threads (k_s k') !! work_thread = Some th' /\ is_ready th')).
Proof.
  intros Hk Hc Ht. unfold rt_workqueue_dowork. split; [by intros ->; rewrite Z.eqb_refl|]. split; intros Hne H0; rewrite (proj2 (Z.eqb_neq _ _) Hne).
  { unfold queue_work. simpl. by rewrite (proj2 (Z.eqb_neq _ _) H0). }
  unfold queue_work. simpl. rewrite H0. simpl.
  assert (exists k1 r, rt_thread_resume work_thread k = Some (k1, r) /\ kernel_wf k1 /\ current (k_s k1) = Some c /\
    (stat_of th = RT_THREAD_SUSPEND \/ is_ready th -> exists th', threads (k_s k1) !! work_thread = Some th' /\ is_ready th')) as (k1 & r & -> & Hk1 & Hc1 & Hth1).
  { destruct (decide (stat_of th = RT_THREAD_SUSPEND)) as [Hst|Hst].
    - destruct (rt_thread_resume_spec ∅ 0 k work_thread th Hk Ht Hst) as (k1 & tm & -> & Hk1 & Hwk & _).
      replace (∅ ∖ {[TThread work_thread]}) with (∅ : gset timer_ptr) in Hk1 by set_solver.
      exists k1, RT_EOK. splits; [done|done|by rewrite (wk_current _ _ _ _ Hwk)|]. intros _. exists (make_ready th).
      rewrite (wk_threads _ _ _ _ Hwk), lookup_insert_eq. split; [done|apply make_ready_ready].
    - exists k, (- RT_ERROR). split; [by eapply rt_thread_resume_error|]. splits; [done|done|]. intros [?|?]; [done|]. by exists th. }
  simpl. destruct (kernel_schedule ∅ 0 k1 c Hk1 Hc1) as (s' & -> & Hk2 & Hfr & _). simpl. exists (set_s s' k1). splits; [done|done|].
  intros Hor. destruct (Hth1 Hor) as (th' & Hth' & Hrd). pose proof Hfr as (_ & _ & _ & Hths). simpl.
  destruct (Hths work_thread) as [E|(th2 & _ & _ & E)]; rewrite E; [by exists th'|]. exists (make_ready th2). split; [done|apply make_ready_ready].
Qed.

(** The wake-up that is lost: the worker has seen the empty list and is about to
    suspend itself when a work is queued; resuming a thread that is ready has no
    effect. Then the worker sleeps, with a work in its list. *)
Lemma rt_workqueue_loses_wakeup (work : Z) (k : kernel) (c : tid) (th : rt_thread) :
  kernel_wf k -> current (k_s k) = Some c -> threads (k_s k) !! work_thread = Some th -> is_ready th -> work <> 0 ->
  exists k1 k2, rt_workqueue_dowork work (WorkQ [] 0) k = Some (WorkQ [work] 0, k1, RT_EOK) /\
    worker_sleep k1 = Some k2 /\ suspended (k_s k2) work_thread.
Proof.
  intros Hk Hc Ht Hrd Hw. destruct (rt_workqueue_dowork_cases work (WorkQ [] 0) k c th Hk Hc Ht) as (_ & _ & H).
  destruct H as (k1 & Hop & Hk1 & Hth); [simpl; congruence|done|]. destruct Hth as (th1 & Hth1 & Hrd1); [by right|].
  destruct (rt_thread_suspend_spec ∅ 0 k1 work_thread th1 Hk1 Hth1 Hrd1) as (k2 & Es & _ & Hths & _).
  exists k1, k2. split; [done|]. unfold worker_sleep. rewrite Es. split; [done|]. exists (make_suspended th1).
  by rewrite Hths, lookup_insert_eq, make_suspended_stat.
Qed.

(** Destroying a queue closes its thread, but the semaphore in the memory that is
    given back stays an object of the kernel; so it does when [rt_workqueue_create]
    gets no thread. *)
Lemma rt_workqueue_destroy_keeps_semaphore (k : kernel) (th : rt_thread) :
  kernel_wf k -> threads (k_s k) !! work_thread = Some th -> stat_of th <> RT_THREAD_CLOSE ->
  exists k', rt_workqueue_destroy k = Some (k', RT_EOK) /\ kernel_wf k' /\ k_o k' = k_o k /\
    exists th', threads (k_s k') !! work_thread = Some th' /\ stat_of th' = RT_THREAD_CLOSE.
Proof.
  intros Hk Ht Hst. destruct (rt_thread_delete_closes k work_thread th Hk Ht Hst) as (k' & l & Hop & Hk' & _ & _ & Hths & _).
  unfold rt_workqueue_destroy. rewrite Hop. simpl. exists k'. splits; [done|done| |].
  - unfold rt_thread_delete in Hop. apply bind_Some in Hop as (th0 & _ & Hop).
    apply bind_Some in Hop as (k1 & H1 & Hop). apply bind_Some in Hop as (k2 & H2 & Hop). apply bind_Some in Hop as (k3 & H3 & Hop).
    apply bind_Some in Hop as (ls & _ & Hop). injection Hop as <-. simpl.
    apply bind_Some in H2 as (tb & _ & H2). injection H2 as <-. apply bind_Some in H3 as (s3 & _ & H3). injection H3 as <-. simpl.
    case_match; [apply bind_Some in H1 as (s1 & _ & H1); by injection H1 as <-|by injection H1 as <-].
  - exists (th_set_stat RT_THREAD_CLOSE th). by rewrite Hths, lookup_insert_eq.
Qed.

Lemma rt_workqueue_create_keeps_semaphore (k : kernel) stack size prio :
  exists k', rt_workqueue_create true None stack size prio k = Some (k', None) /\ k_o k' !! sem = Some (ISem (Sem 0 0)).
Proof. unfold rt_workqueue_create. simpl. eexists. split; [done|]. simpl. by rewrite lookup_insert_eq. Qed.
End Workqueue.

(** ** The works that are done *)

(** Where the worker is. *)
Inductive worker := WChecks | WSleeps | WAsleep | WTakes | WDoes.

(** The queue, the worker, and the works it has begun, the last first. *)
Record work_system := WorkSys { wy_q : rt_workqueue; wy_worker : worker; wy_begun : list Z }.

(** The worker waits for nothing but [rt_thread_resume], which ends its sleep. *)
Definition resumed (w : worker) : worker := match w with WAsleep => WTakes | _ => w end.

Inductive wstep : work_system -> work_system -> Prop :=
  | w_check q b : wstep (WorkSys q WChecks b) (WorkSys q (if decide (work_list q = []) then WSleeps else WTakes) b)
  | w_sleep q b : wstep (WorkSys q WSleeps b) (WorkSys q WAsleep b)
  | w_take q b work q' : worker_take q = Some (work, q') -> wstep (WorkSys q WTakes b) (WorkSys q' WDoes (work :: b))
  | w_done q b : wstep (WorkSys q WDoes b) (WorkSys (worker_done q) WChecks b).

(** The calls: a work is asked for, or cancelled. *)
Inductive wcall : list Z -> work_system -> work_system -> Prop :=
  | w_dowork q w b work : work <> 0 -> work_current q <> work ->
      wcall [work] (WorkSys q w b) (WorkSys (queue_work work q) (if work_current q =? 0 then resumed w else w) b)
  | w_cancel q w b work : work <> 0 -> wcall [] (WorkSys q w b) (WorkSys (rt_workqueue_cancel_work work q).1 w b).

(** Callers below the priority of the worker run only when it sleeps. *)
Inductive prompt_run : list Z -> work_system -> Prop :=
  | prompt_start : prompt_run [] (WorkSys (WorkQ [] 0) WChecks [])
  | prompt_step r x y : prompt_run r x -> wstep x y -> prompt_run r y
  | prompt_call r x a y : prompt_run r x -> wy_worker x = WAsleep -> wcall a x y -> prompt_run (r ++ a) y.

(** Any interleaving. *)
Inductive free_run : work_system -> Prop :=
  | free_start : free_run (WorkSys (WorkQ [] 0) WChecks [])
  | free_step x y : free_run x -> wstep x y -> free_run y
  | free_call x a y : free_run x -> wcall a x y -> free_run y.

(** What holds when the worker has the highest priority. *)
Definition prompt_inv (r : list Z) (x : work_system) : Prop :=
  r = rev (wy_begun x) ++ work_list (wy_q x) /\
  match wy_worker x with
  | WChecks => work_list (wy_q x) = [] /\ work_current (wy_q x) = 0
  | WSleeps | WAsleep => work_list (wy_q x) = [] /\ work_current (wy_q x) = 0
  | WTakes => (exists work, work_list (wy_q x) = [work]) /\ work_current (wy_q x) = 0
  | WDoes => work_list (wy_q x) = []
  end.

Lemma prompt_run_inv r x : prompt_run r x -> prompt_inv r x.
Proof.
  induction 1 as [|r x y _ [Hr IH] Hst|r x a y _ [Hr IH] Hw Hc]; [done| |].
  - destruct Hst as [q b|q b|q b work q' Ht|q b]; unfold prompt_inv in *; simpl in *.
    + destruct IH as [E ?]. by rewrite decide_True.
    + done.
    + destruct IH as [[work' E] _]. unfold worker_take in Ht. rewrite E in Ht, Hr. injection Ht as <- <-. simpl. rewrite app_nil_r. done.
    + done.
  - destruct x as [q w b]. simpl in Hw. subst w. simpl in IH, Hr. destruct IH as [E E0]. rewrite E, app_nil_r in Hr.
    inversion Hc as [q' w b' work Hn Hne|q' w b' work Hn]; subst; unfold prompt_inv; simpl.
    + rewrite E0, E. simpl. split; [done|]. split; [by exists work|done].
    + unfold rt_workqueue_cancel_work. rewrite E0, (proj2 (Z.eqb_neq _ _)) by congruence. simpl. by rewrite E, !app_nil_r.
Qed.

(** A worker with a priority above that of the callers does the works asked for,
    all of them, once per request and in their order, and never takes a work from
    an empty list; while it sleeps nothing is waiting. *)
Theorem workqueue_serves (r : list Z) (x : work_system) :
  prompt_run r x ->
  (exists rest, r = rev (wy_begun x) ++ rest /\ rest = work_list (wy_q x)) /\
  (wy_worker x = WAsleep -> rev (wy_begun x) = r) /\
  (wy_worker x = WTakes -> is_Some (worker_take (wy_q x))).
Proof.
  intros Hrun. apply prompt_run_inv in Hrun as [Hr H]. split; [by eexists|]. split; intros Hw; rewrite Hw in H.
  - destruct H as [E _]. by rewrite Hr, E, app_nil_r.
  - destruct H as [[work E] _]. unfold worker_take. rewrite E. by eexists.
Qed.

Lemma workqueue_serves_witness :
  exists x, prompt_run [7] x /\ wy_worker x = WAsleep /\ rev (wy_begun x) = [7].
Proof.
  exists (WorkSys (WorkQ [] 0) WAsleep [7]).
  assert (prompt_run [7] (WorkSys (WorkQ [] 0) WAsleep [7])) as Hrun.
  { eapply prompt_step; [|apply w_sleep]. eapply prompt_step; [|apply (w_check (WorkQ [] 0))]. eapply prompt_step; [|apply (w_done (WorkQ [] 7))].
    eapply prompt_step; [|apply (w_take (WorkQ [7] 0) [] 7); reflexivity].
    apply (prompt_call [] (WorkSys (WorkQ [] 0) WAsleep []) [7]); [|reflexivity|apply (w_dowork (WorkQ [] 0) WAsleep [] 7); discriminate].
    eapply prompt_step; [|apply w_sleep]. eapply prompt_step; [apply prompt_start|apply (w_check (WorkQ [] 0))]. }
  split; [exact Hrun|]. split; [reflexivity|]. apply (workqueue_serves [7] _ Hrun). reflexivity.
Defined.

(** Without that, the worker can sleep with a work in its list, *)
Lemma workqueue_sleeps_on_work : free_run (WorkSys (WorkQ [7] 0) WAsleep []).
Proof.
  eapply free_step; [|apply w_sleep]. eapply (free_call (WorkSys (WorkQ [] 0) WSleeps []) [7]); [|apply (w_dowork (WorkQ [] 0) WSleeps [] 7); discriminate].
  eapply free_step; [apply free_start|apply (w_check (WorkQ [] 0))].
Qed.

(** and it can be woken for a work that is cancelled before it runs: then it takes
    the head of the empty list for a work. *)
Lemma workqueue_takes_nothing : free_run (WorkSys (WorkQ [] 0) WTakes []) /\ worker_take (WorkQ [] 0) = None.
Proof.
  split; [|done]. apply (free_call (WorkSys (WorkQ [7] 0) WTakes []) []); [|apply (w_cancel (WorkQ [7] 0) WTakes [] 7); discriminate].
  apply (free_call (WorkSys (WorkQ [] 0) WAsleep []) [7]); [|apply (w_dowork (WorkQ [] 0) WAsleep [] 7); discriminate].
  eapply free_step; [|apply w_sleep]. eapply free_step; [apply free_start|apply (w_check (WorkQ [] 0))].
Qed.
