(* ===== verification/Gpio.v ===== *)
(** * The pin driver (libraries/HAL_Drivers/drv_gpio.c)

    Pins of the chip behind the device of drivers/misc/pin.c, over the registers
    that the GPIO library of the vendor writes (stm32f4xx_hal_gpio.c): modes,
    levels, and the sixteen external interrupt lines, each shared by the pins with
    one number of all the ports. *)

From S2P Require Import Prelude RtList Sched SchedFacts Timer Kernel Demo Device KString Object DeviceReg.

(** ** Registers *)

(** An array of words. *)
Definition put_word {A} (i : Z) (v : A) (a : Z -> A) : Z -> A := fun j => if j =? i then v else a j.

Record GPIO_TypeDef := Gpio { MODER : Z; OTYPER : Z; OSPEEDR : Z; PUPDR : Z; ODR : Z; AFR : Z -> Z }.
Record EXTI_TypeDef := Exti { IMR : Z; EMR : Z; RTSR : Z; FTSR : Z; PR : Z }.

(** Ports by number, from 0 for GPIOA; the registers of SYSCFG, EXTI and NVIC. *)
Record pin_hw := PinHw {
  hw_port : Z -> GPIO_TypeDef;
  EXTICR : Z -> Z;
  hw_exti : EXTI_TypeDef;
  syscfg_clk : bool;
  nvic_enabled : gset Z;
  nvic_priority : gmap Z (Z * Z);
}.
Definition set_port (p : Z) (g : GPIO_TypeDef) (h : pin_hw) : pin_hw :=
  PinHw (put_word p g (hw_port h)) (EXTICR h) (hw_exti h) (syscfg_clk h) (nvic_enabled h) (nvic_priority h).
Definition set_exti (e : EXTI_TypeDef) (h : pin_hw) : pin_hw :=
  PinHw (hw_port h) (EXTICR h) e (syscfg_clk h) (nvic_enabled h) (nvic_priority h).

(** [temp &= ~(mask << k); temp |= v << k]. *)
Definition put_field (mask k v temp : Z) : Z :=
  Z.lor (Z.land temp (Z.lnot (u32 (Z.shiftl mask k)))) (u32 (Z.shiftl v k)).

(** [temp &= ~bit; if (...) temp |= bit]. *)
Definition put_bit (bit : Z) (on : bool) (temp : Z) : Z :=
  let temp := Z.land temp (Z.lnot bit) in if on then Z.lor temp bit else temp.

(** ** The GPIO library *)

Definition GPIO_PIN (n : Z) : Z := Z.shiftl 1 n.
Definition GPIO_MODE : Z := 3.
Definition EXTI_MODE : Z := 268435456.
Definition GPIO_MODE_IT : Z := 65536.
Definition GPIO_MODE_EVT : Z := 131072.
Definition RISING_EDGE : Z := 1048576.
Definition FALLING_EDGE : Z := 2097152.
Definition GPIO_OUTPUT_TYPE : Z := 16.
Definition GPIO_MODE_INPUT : Z := 0.
Definition GPIO_MODE_OUTPUT_PP : Z := 1.
Definition GPIO_MODE_OUTPUT_OD : Z := 17.
Definition GPIO_MODE_AF_PP : Z := 2.
Definition GPIO_MODE_AF_OD : Z := 18.
Definition GPIO_MODE_IT_RISING : Z := 269549568.
Definition GPIO_MODE_IT_FALLING : Z := 270598144.
Definition GPIO_MODE_IT_RISING_FALLING : Z := 271646720.
Definition GPIO_SPEED_FREQ_HIGH : Z := 2.
Definition GPIO_NOPULL : Z := 0.
Definition GPIO_PULLUP : Z := 1.
Definition GPIO_PULLDOWN : Z := 2.

Record GPIO_InitTypeDef := GpioInit { Pin : Z; Mode : Z; Pull : Z; Speed : Z; Alternate : Z }.

(** [(Mode & m) == m]. *)
Definition mode_has (mode m : Z) : bool := Z.land mode m =? m.

(** The direction, output type and pull of one pin. *)
Definition init_port (position : Z) (i : GPIO_InitTypeDef) (g : GPIO_TypeDef) : GPIO_TypeDef :=
  let afr := if (Mode i =? GPIO_MODE_AF_PP) || (Mode i =? GPIO_MODE_AF_OD)
    then put_word (Z.shiftr position 3) (put_field 15 (Z.land position 7 * 4) (Alternate i) (AFR g (Z.shiftr position 3))) (AFR g)
    else AFR g in
  let moder := put_field 3 (position * 2) (Z.land (Mode i) GPIO_MODE) (MODER g) in
  let output := (Mode i =? GPIO_MODE_OUTPUT_PP) || (Mode i =? GPIO_MODE_AF_PP) || (Mode i =? GPIO_MODE_OUTPUT_OD) || (Mode i =? GPIO_MODE_AF_OD) in
  let ospeedr := if output then put_field 3 (position * 2) (Speed i) (OSPEEDR g) else OSPEEDR g in
  let otyper := if output then put_field 1 position (Z.shiftr (Z.land (Mode i) GPIO_OUTPUT_TYPE) 4) (OTYPER g) else OTYPER g in
  let pupdr := put_field 3 (position * 2) (Pull i) (PUPDR g) in
  Gpio moder otyper ospeedr pupdr (ODR g) afr.

(** The interrupt line of one pin. *)
Definition init_exti (p position iocurrent : Z) (i : GPIO_InitTypeDef) (h : pin_hw) : pin_hw :=
  let exticr := put_word (Z.shiftr position 2) (put_field 15 (4 * Z.land position 3) (u8 p) (EXTICR h (Z.shiftr position 2))) (EXTICR h) in
  let e := hw_exti h in
  PinHw (hw_port h) exticr
    (Exti (put_bit iocurrent (mode_has (Mode i) GPIO_MODE_IT) (IMR e)) (put_bit iocurrent (mode_has (Mode i) GPIO_MODE_EVT) (EMR e))
       (put_bit iocurrent (mode_has (Mode i) RISING_EDGE) (RTSR e)) (put_bit iocurrent (mode_has (Mode i) FALLING_EDGE) (FTSR e)) (PR e))
    true (nvic_enabled h) (nvic_priority h).

Definition init_position (p : Z) (i : GPIO_InitTypeDef) (h : pin_hw) (position : Z) : pin_hw :=
  let ioposition := Z.shiftl 1 position in
  let iocurrent := Z.land (Pin i) ioposition in
  if iocurrent =? ioposition then
    let h := set_port p (init_port position i (hw_port h p)) h in
    if mode_has (Mode i) EXTI_MODE then init_exti p position iocurrent i h else h
  else h.
Definition HAL_GPIO_Init (p : Z) (i : GPIO_InitTypeDef) (h : pin_hw) : pin_hw :=
  foldl (init_position p i) h (seqZ 0 16).

(** [idr]: what the chip reads at the pins of the port. *)
Definition HAL_GPIO_ReadPin (idr GPIO_Pin : Z) : Z := if negb (Z.land idr GPIO_Pin =? 0) then 1 else 0.

(** BSRR sets the bits of its low half and clears those of its high half. *)
Definition write_BSRR (v : Z) (g : GPIO_TypeDef) : GPIO_TypeDef :=
  Gpio (MODER g) (OTYPER g) (OSPEEDR g) (PUPDR g) (Z.lor (Z.land (ODR g) (Z.lnot (Z.shiftr v 16))) (u16 v)) (AFR g).
Definition HAL_GPIO_WritePin (p GPIO_Pin PinState : Z) (h : pin_hw) : pin_hw :=
  set_port p (write_BSRR (if negb (PinState =? 0) then GPIO_Pin else Z.shiftl GPIO_Pin 16) (hw_port h p)) h.

(** Bits written to PR are cleared. *)
Definition __HAL_GPIO_EXTI_CLEAR_IT (line : Z) (h : pin_hw) : pin_hw :=
  let e := hw_exti h in set_exti (Exti (IMR e) (EMR e) (RTSR e) (FTSR e) (Z.land (PR e) (Z.lnot line))) h.

Definition HAL_NVIC_SetPriority (irq pre sub : Z) (h : pin_hw) : pin_hw :=
  PinHw (hw_port h) (EXTICR h) (hw_exti h) (syscfg_clk h) (nvic_enabled h) (<[irq := (pre, sub)]> (nvic_priority h)).
Definition HAL_NVIC_EnableIRQ (irq : Z) (h : pin_hw) : pin_hw :=
  PinHw (hw_port h) (EXTICR h) (hw_exti h) (syscfg_clk h) ({[irq]} ∪ nvic_enabled h) (nvic_priority h).
Definition HAL_NVIC_DisableIRQ (irq : Z) (h : pin_hw) : pin_hw :=
  PinHw (hw_port h) (EXTICR h) (hw_exti h) (syscfg_clk h) (nvic_enabled h ∖ {[irq]}) (nvic_priority h).

(** ** Tables of the driver *)

Record pin_index := PinIndex { pi_index : Z; pi_gpio : Z; pi_pin : Z }.
#[export] Instance pin_index_eq_dec : EqDecision pin_index.
Proof. solve_decision. Defined.

(** Rows of consecutive pins: [count] pins of a port from [first], with the index
    that the table gives them. *)
Definition pin_rows (port index first count : Z) : list pin_index :=
  (fun i => PinIndex (index + i) port (GPIO_PIN (first + i))) <$> seqZ 0 count.
Definition pins : list pin_index :=
  pin_rows 0 0 0 16 ++ pin_rows 1 16 0 16 ++ pin_rows 2 32 0 16 ++ pin_rows 3 48 0 16 ++ pin_rows 4 64 0 16 ++
  pin_rows 5 80 0 16 ++ pin_rows 6 96 0 16 ++ pin_rows 7 112 0 11 ++ pin_rows 7 124 11 5 ++ pin_rows 8 129 0 16.

(** Numbers of the interrupts (stm32f407xx.h). *)
Definition EXTI0_IRQn : Z := 6.
Definition EXTI1_IRQn : Z := 7.
Definition EXTI2_IRQn : Z := 8.
Definition EXTI3_IRQn : Z := 9.
Definition EXTI4_IRQn : Z := 10.
Definition EXTI9_5_IRQn : Z := 23.
Definition EXTI15_10_IRQn : Z := 40.
(** The interrupt of each line, 0 to 15, with its pin bit. *)
Definition pin_irq_map : list (Z * Z) :=
  [(GPIO_PIN 0, EXTI0_IRQn); (GPIO_PIN 1, EXTI1_IRQn); (GPIO_PIN 2, EXTI2_IRQn); (GPIO_PIN 3, EXTI3_IRQn);
   (GPIO_PIN 4, EXTI4_IRQn); (GPIO_PIN 5, EXTI9_5_IRQn); (GPIO_PIN 6, EXTI9_5_IRQn); (GPIO_PIN 7, EXTI9_5_IRQn);
   (GPIO_PIN 8, EXTI9_5_IRQn); (GPIO_PIN 9, EXTI9_5_IRQn); (GPIO_PIN 10, EXTI15_10_IRQn); (GPIO_PIN 11, EXTI15_10_IRQn);
   (GPIO_PIN 12, EXTI15_10_IRQn); (GPIO_PIN 13, EXTI15_10_IRQn); (GPIO_PIN 14, EXTI15_10_IRQn); (GPIO_PIN 15, EXTI15_10_IRQn)].

(** [hdr] is 0 for no function. *)
Record rt_pin_irq_hdr := PinIrqHdr { ih_pin : Z; ih_mode : Z; ih_hdr : Z; ih_args : Z }.
Definition no_hdr : rt_pin_irq_hdr := PinIrqHdr (-1) 0 0 0.
Definition pin_irq_hdr_tab_init : list rt_pin_irq_hdr := replicate 16 no_hdr.

(** The registers, the table of handlers, and the kernel that handlers act on. *)
Record pin_sys := PinSys { ps_hw : pin_hw; pin_irq_hdr_tab : list rt_pin_irq_hdr; ps_k : kernel }.
Definition set_hw (h : pin_hw) (x : pin_sys) : pin_sys := PinSys h (pin_irq_hdr_tab x) (ps_k x).
Definition set_tab (t : list rt_pin_irq_hdr) (x : pin_sys) : pin_sys := PinSys (ps_hw x) t (ps_k x).

(** The parameter is a byte. *)
Definition get_pin (pin : Z) : option pin_index :=
  let pin := u8 pin in
  if pin <? Z.of_nat (length pins) then
    index ← pins !! Z.to_nat pin; if pi_index index =? -1 then None else Some index
  else None.

(** ** Modes and levels *)

Definition PIN_LOW : Z := 0.
Definition PIN_MODE_OUTPUT : Z := 0.
Definition PIN_MODE_INPUT : Z := 1.
Definition PIN_MODE_INPUT_PULLUP : Z := 2.
Definition PIN_MODE_INPUT_PULLDOWN : Z := 3.
Definition PIN_MODE_OUTPUT_OD : Z := 4.

(** The level is converted to [GPIO_PinState], an enumeration of one byte. *)
Definition stm32_pin_write (pin value : Z) (x : pin_sys) : pin_sys :=
  match get_pin pin with
  | None => x
  | Some index => set_hw (HAL_GPIO_WritePin (pi_gpio index) (pi_pin index) (u8 value) (ps_hw x)) x
  end.

Definition stm32_pin_read (idr : Z -> Z) (pin : Z) : Z :=
  match get_pin pin with None => PIN_LOW | Some index => HAL_GPIO_ReadPin (idr (pi_gpio index)) (pi_pin index) end.

(** The members of [GPIO_InitStruct] that the modes set. *)
Definition mode_struct (mode : Z) (s : GPIO_InitTypeDef) : GPIO_InitTypeDef :=
  let '(m, pull) :=
    if mode =? PIN_MODE_OUTPUT then (GPIO_MODE_OUTPUT_PP, GPIO_NOPULL)
    else if mode =? PIN_MODE_INPUT then (GPIO_MODE_INPUT, GPIO_NOPULL)
    else if mode =? PIN_MODE_INPUT_PULLUP then (GPIO_MODE_INPUT, GPIO_PULLUP)
    else if mode =? PIN_MODE_INPUT_PULLDOWN then (GPIO_MODE_INPUT, GPIO_PULLDOWN)
    else if mode =? PIN_MODE_OUTPUT_OD then (GPIO_MODE_OUTPUT_OD, GPIO_NOPULL)
    else (Mode s, Pull s) in
  GpioInit (Pin s) m pull (Speed s) (Alternate s).

(** [stack]: what the structure on the stack holds before it is set. *)
Definition stm32_pin_mode (stack : GPIO_InitTypeDef) (pin mode : Z) (x : pin_sys) : pin_sys :=
  match get_pin pin with
  | None => x
  | Some index =>
      let s := GpioInit (pi_pin index) GPIO_MODE_OUTPUT_PP GPIO_NOPULL GPIO_SPEED_FREQ_HIGH (Alternate stack) in
      set_hw (HAL_GPIO_Init (pi_gpio index) (mode_struct mode s) (ps_hw x)) x
  end.

(** ** Interrupts *)

Definition PIN_IRQ_MODE_RISING : Z := 0.
Definition PIN_IRQ_MODE_FALLING : Z := 1.
Definition PIN_IRQ_MODE_RISING_FALLING : Z := 2.
Definition PIN_IRQ_DISABLE : Z := 0.
Definition PIN_IRQ_ENABLE : Z := 1.

Fixpoint bit_loop (fuel : nat) (i bit : Z) : Z :=
  match fuel with O => -1 | S fuel => if u32 (Z.shiftl 1 i) =? bit then i else bit_loop fuel (i + 1) bit end.
Definition bit2bitno (bit : Z) : Z := bit_loop 32 0 bit.

(** The line of a pin bit, if it is one. *)
Definition line_of (bit : Z) : option nat :=
  let irqindex := bit2bitno bit in
  if (irqindex <? 0) || (Z.of_nat (length pin_irq_map) <=? irqindex) then None else Some (Z.to_nat irqindex).
Definition get_pin_irq_map (pinbit : Z) : option (Z * Z) := n ← line_of pinbit; pin_irq_map !! n.

Definition stm32_pin_attach_irq (pin mode hdr args : Z) (x : pin_sys) : option (pin_sys * Z) :=
  match get_pin pin with
  | None => Some (x, RT_ENOSYS)
  | Some index =>
      match line_of (pi_pin index) with
      | None => Some (x, RT_ENOSYS)
      | Some irqindex =>
          h ← pin_irq_hdr_tab x !! irqindex;
          if (ih_pin h =? pin) && (ih_hdr h =? hdr) && (ih_mode h =? mode) && (ih_args h =? args) then Some (x, RT_EOK)
          else if negb (ih_pin h =? -1) then Some (x, RT_EBUSY)
          else Some (set_tab (<[irqindex := PinIrqHdr (s16 pin) (u16 mode) hdr args]> (pin_irq_hdr_tab x)) x, RT_EOK)
      end
  end.

Definition stm32_pin_dettach_irq (pin : Z) (x : pin_sys) : option (pin_sys * Z) :=
  match get_pin pin with
  | None => Some (x, RT_ENOSYS)
  | Some index =>
      match line_of (pi_pin index) with
      | None => Some (x, RT_ENOSYS)
      | Some irqindex =>
          h ← pin_irq_hdr_tab x !! irqindex;
          if ih_pin h =? -1 then Some (x, RT_EOK)
          else Some (set_tab (<[irqindex := no_hdr]> (pin_irq_hdr_tab x)) x, RT_EOK)
      end
  end.

(** What the [switch] sets; for other modes the structure keeps what it holds. *)
Definition irq_struct (bit mode : Z) (s : GPIO_InitTypeDef) : GPIO_InitTypeDef :=
  let '(m, pull) :=
    if mode =? PIN_IRQ_MODE_RISING then (GPIO_MODE_IT_RISING, GPIO_PULLDOWN)
    else if mode =? PIN_IRQ_MODE_FALLING then (GPIO_MODE_IT_FALLING, GPIO_PULLUP)
    else if mode =? PIN_IRQ_MODE_RISING_FALLING then (GPIO_MODE_IT_RISING_FALLING, GPIO_NOPULL)
    else (Mode s, Pull s) in
  GpioInit bit m pull GPIO_SPEED_FREQ_HIGH (Alternate s).

Definition stm32_pin_irq_enable (stack : GPIO_InitTypeDef) (pin enabled : Z) (x : pin_sys) : option (pin_sys * Z) :=
  match get_pin pin with
  | None => Some (x, RT_ENOSYS)
  | Some index =>
      if enabled =? PIN_IRQ_ENABLE then
        match line_of (pi_pin index) with
        | None => Some (x, RT_ENOSYS)
        | Some irqindex =>
            h ← pin_irq_hdr_tab x !! irqindex;
            if ih_pin h =? -1 then Some (x, RT_ENOSYS)
            else
              '(_, irqno) ← pin_irq_map !! irqindex;
              let hw := HAL_GPIO_Init (pi_gpio index) (irq_struct (pi_pin index) (ih_mode h) stack) (ps_hw x) in
              let hw := HAL_NVIC_EnableIRQ irqno (HAL_NVIC_SetPriority irqno 5 0 hw) in
              Some (set_hw hw x, RT_EOK)
        end
      else if enabled =? PIN_IRQ_DISABLE then
        match get_pin_irq_map (pi_pin index) with
        | None => Some (x, RT_ENOSYS)
        | Some (_, irqno) => Some (set_hw (HAL_NVIC_DisableIRQ irqno (ps_hw x)) x, RT_EOK)
        end
      else Some (x, RT_ENOSYS)
  end.

Section Handlers.
(** What a handler does, called with its argument. *)
Context (call : Z -> Z -> pin_sys -> option pin_sys).

Definition pin_irq_hdr (irqno : Z) (x : pin_sys) : option pin_sys :=
  if irqno <? 0 then None
  else
    h ← pin_irq_hdr_tab x !! Z.to_nat irqno;
    if negb (ih_hdr h =? 0) then call (ih_hdr h) (ih_args h) x else Some x.
Definition HAL_GPIO_EXTI_Callback (GPIO_Pin : Z) (x : pin_sys) : option pin_sys := pin_irq_hdr (bit2bitno GPIO_Pin) x.
Definition HAL_GPIO_EXTI_IRQHandler (GPIO_Pin : Z) (x : pin_sys) : option pin_sys :=
  if negb (Z.land (PR (hw_exti (ps_hw x))) GPIO_Pin =? 0) then
    HAL_GPIO_EXTI_Callback GPIO_Pin (set_hw (__HAL_GPIO_EXTI_CLEAR_IT GPIO_Pin (ps_hw x)) x)
  else Some x.

Definition pin_interrupt_enter (x : pin_sys) : pin_sys := PinSys (ps_hw x) (pin_irq_hdr_tab x) (set_s (rt_interrupt_enter (k_s (ps_k x))) (ps_k x)).
Definition pin_interrupt_leave (x : pin_sys) : pin_sys := PinSys (ps_hw x) (pin_irq_hdr_tab x) (set_s (rt_interrupt_leave (k_s (ps_k x))) (ps_k x)).

(** [HAL_GPIO_EXTI_IRQHandler] for some lines, one after the other. *)
Fixpoint exti_lines (l : list Z) (x : pin_sys) : option pin_sys :=
  match l with [] => Some x | n :: l => x ← HAL_GPIO_EXTI_IRQHandler (GPIO_PIN n) x; exti_lines l x end.
Definition exti_handler (l : list Z) (x : pin_sys) : option pin_sys :=
  x ← exti_lines l (pin_interrupt_enter x); Some (pin_interrupt_leave x).

Definition EXTI0_IRQHandler := exti_handler [0].
Definition EXTI1_IRQHandler := exti_handler [1].
Definition EXTI2_IRQHandler := exti_handler [2].
Definition EXTI3_IRQHandler := exti_handler [3].
Definition EXTI4_IRQHandler := exti_handler [4].
Definition EXTI9_5_IRQHandler := exti_handler [5; 6; 7; 8; 9].
Definition EXTI15_10_IRQHandler := exti_handler [10; 11; 12; 13; 14; 15].

(** The vectors of these interrupts (startup_stm32f407xx.s). *)
Definition exti_vector (irqno : Z) (x : pin_sys) : option pin_sys :=
  if irqno =? EXTI0_IRQn then EXTI0_IRQHandler x
  else if irqno =? EXTI1_IRQn then EXTI1_IRQHandler x
  else if irqno =? EXTI2_IRQn then EXTI2_IRQHandler x
  else if irqno =? EXTI3_IRQn then EXTI3_IRQHandler x
  else if irqno =? EXTI4_IRQn then EXTI4_IRQHandler x
  else if irqno =? EXTI9_5_IRQn then EXTI9_5_IRQHandler x
  else if irqno =? EXTI15_10_IRQn then EXTI15_10_IRQHandler x
  else None.
End Handlers.

(** ** The pin device (drivers/misc/pin.c) *)

(** Buffers of [rt_device_pin_status] and [rt_device_pin_mode]: two words of 16
    bits; [None] for [RT_NULL] or another size. *)
Definition _pin_read (idr : Z -> Z) (status : option (Z * Z)) : option (Z * Z) * Z :=
  match status with Some (pin, _) => (Some (pin, u16 (stm32_pin_read idr pin)), 4) | None => (None, 0) end.
Definition _pin_write (status : option (Z * Z)) (x : pin_sys) : pin_sys * Z :=
  match status with Some (pin, value) => (stm32_pin_write pin value x, 4) | None => (x, 0) end.
Definition _pin_control (stack : GPIO_InitTypeDef) (mode : option (Z * Z)) (x : pin_sys) : pin_sys * Z :=
  match mode with Some (pin, m) => (stm32_pin_mode stack pin m x, 0) | None => (x, - RT_ERROR) end.
Definition rt_pin_attach_irq := stm32_pin_attach_irq.
Definition rt_pin_detach_irq := stm32_pin_dettach_irq.
Definition rt_pin_irq_enable := stm32_pin_irq_enable.
Definition rt_pin_mode := stm32_pin_mode.
Definition rt_pin_write := stm32_pin_write.
Definition rt_pin_read := stm32_pin_read.

Definition RT_Device_Class_Miscellaneous : Z := 18.
Section Register.
(** The object container, the size and the address of the device, the address of
    its name. *)
Context (container sizeof_device hw_pin pin_name : Z).

Definition rt_device_pin_register (name : Z) (s : device_table) : option (device_table * Z) :=
  let s := DeviceTable (dt_st s) (alter (fun d => set_tx_complete false (set_rx_indicate false d)) hw_pin (dt_devs s))
    (<[hw_pin := RT_Device_Class_Miscellaneous]> (dt_type s)) in
  '(s, _) ← rt_device_register container hw_pin name RT_DEVICE_FLAG_RDWR s; Some (s, 0).

(** [clocks]: the ports that have a clock; the chip has GPIOA to GPIOI. *)
Definition rt_hw_pin_init (clocks : gset Z) (s : device_table) : option (gset Z * device_table * Z) :=
  '(s, r) ← rt_device_pin_register pin_name s; Some (clocks ∪ list_to_set (seqZ 0 9), s, r).
End Register.

(** ** Bits and fields *)

Lemma testbit_u32 x i : 0 <= i < 32 -> Z.testbit (u32 x) i = Z.testbit x i.
Proof. intros Hi. unfold u32. change 4294967296 with (2 ^ 32). by rewrite Z.mod_pow2_bits_low by lia. Qed.

Lemma testbit_small x w i : 0 <= w -> 0 <= x < 2 ^ w -> w <= i -> Z.testbit x i = false.
Proof.
  intros Hw Hx Hi. rewrite <-(Z.mod_small x (2 ^ w)) by done. apply Z.mod_pow2_bits_high. lia.
Qed.

Lemma u32_shiftl x w k : 0 <= w -> 0 <= k -> w + k <= 32 -> 0 <= x < 2 ^ w -> u32 (Z.shiftl x k) = Z.shiftl x k.
Proof.
  intros Hw Hk Hwk Hx. apply u32_small. rewrite Z.shiftl_mul_pow2 by done. unfold is_u32. change 4294967296 with (2 ^ 32).
  assert (2 ^ w * 2 ^ k <= 2 ^ 32) by (rewrite <-Z.pow_add_r by done; apply Z.pow_le_mono_r; lia). nia.
Qed.

(** The bits of a register after a field of [w] bits at [k] has been written. *)
Lemma put_field_testbit w k v t i : 0 < w -> 0 <= k -> w + k <= 32 -> 0 <= v < 2 ^ w -> 0 <= i ->
  Z.testbit (put_field (Z.ones w) k v t) i = if decide (k <= i < k + w) then Z.testbit v (i - k) else Z.testbit t i.
Proof.
  intros Hw Hk Hwk Hv Hi. assert (0 <= Z.ones w < 2 ^ w) as Ho by (rewrite Z.ones_equiv; pose proof (Z.pow_pos_nonneg 2 w); lia).
  unfold put_field. rewrite !(u32_shiftl _ w) by lia. rewrite Z.lor_spec, Z.land_spec, Z.lnot_spec, !Z.shiftl_spec by done.
  case_decide.
  - rewrite Z.ones_spec_low by lia. by rewrite andb_false_r.
  - destruct (decide (i < k)).
    + rewrite !(Z.testbit_neg_r _ (i - k)) by lia. by rewrite andb_true_r, orb_false_r.
    + rewrite Z.ones_spec_high, (testbit_small v w) by lia. by rewrite andb_true_r, orb_false_r.
Qed.

(** What a field holds. *)
Definition field (w k t : Z) : Z := Z.land (Z.shiftr t k) (Z.ones w).

Lemma field_testbit w k t i : 0 <= w -> 0 <= k -> 0 <= i -> Z.testbit (field w k t) i = if decide (i < w) then Z.testbit t (i + k) else false.
Proof.
  intros Hw Hk Hi. unfold field. rewrite Z.land_spec, Z.shiftr_spec by done.
  case_decide; [rewrite Z.ones_spec_low by lia; by rewrite andb_true_r|rewrite Z.ones_spec_high by lia; by rewrite andb_false_r].
Qed.

Lemma field_put_same w k v t : 0 < w -> 0 <= k -> w + k <= 32 -> 0 <= v < 2 ^ w -> field w k (put_field (Z.ones w) k v t) = v.
Proof.
  intros. apply Z.bits_inj'. intros i Hi. rewrite field_testbit by lia. case_decide.
  - rewrite put_field_testbit by lia. rewrite decide_True by lia. f_equal. lia.
  - symmetry. apply (testbit_small v w); lia.
Qed.

Lemma field_put_other w k v t k' : 0 < w -> 0 <= k -> w + k <= 32 -> 0 <= v < 2 ^ w -> 0 <= k' -> k' + w <= k \/ k + w <= k' ->
  field w k' (put_field (Z.ones w) k v t) = field w k' t.
Proof.
  intros. apply Z.bits_inj'. intros i Hi. rewrite !field_testbit by lia. case_decide; [|done].
  rewrite put_field_testbit by lia. by rewrite decide_False by lia.
Qed.

Lemma GPIO_PIN_testbit n i : 0 <= n -> 0 <= i -> Z.testbit (GPIO_PIN n) i = bool_decide (i = n).
Proof.
  intros. unfold GPIO_PIN. rewrite Z.shiftl_1_l, Z.pow2_bits_eqb by done. destruct (Z.eqb_spec n i), (bool_decide_reflect (i = n)); congruence.
Qed.

Lemma put_bit_testbit n on t i : 0 <= n -> 0 <= i -> Z.testbit (put_bit (GPIO_PIN n) on t) i = if decide (i = n) then on else Z.testbit t i.
Proof.
  intros Hn Hi. unfold put_bit. destruct on; rewrite ?Z.lor_spec, Z.land_spec, Z.lnot_spec, GPIO_PIN_testbit by done;
    case_decide; case_bool_decide; try done; by destruct (Z.testbit t i).
Qed.

Lemma land_GPIO_PIN t n : 0 <= n -> negb (Z.land t (GPIO_PIN n) =? 0) = Z.testbit t n.
Proof.
  intros Hn. unfold GPIO_PIN. rewrite Z.shiftl_1_l, land_pow2 by done. destruct (Z.testbit t n); [|done].
  pose proof (Z.pow_pos_nonneg 2 n). by rewrite (proj2 (Z.eqb_neq _ _)) by lia.
Qed.

(** ** The tables *)

(** The number of a pin of the program: its port and its place in the port. *)
Definition GET_PIN (port n : Z) : Z := 16 * port + n.
Definition is_pin (pin : Z) : Prop := 0 <= pin < 144.
Definition pin_port (pin : Z) : Z := pin / 16.
Definition pin_line (pin : Z) : Z := pin mod 16.

Lemma pin_line_range pin : 0 <= pin_line pin < 16.
Proof. apply Z.mod_pos_bound. lia. Qed.

(** Two pins are the same when their ports and lines are. *)
Lemma pin_ext p q : pin_port p = pin_port q -> pin_line p = pin_line q -> p = q.
Proof. unfold pin_port, pin_line. dlia. Qed.

(** [get_pin] finds the pin that [GET_PIN] numbers, by the low byte of the number. *)
Lemma get_pin_spec pin :
  (is_pin (u8 pin) -> exists i, get_pin pin = Some (PinIndex i (pin_port (u8 pin)) (GPIO_PIN (pin_line (u8 pin))))) /\
  (~ is_pin (u8 pin) -> get_pin pin = None).
Proof.
  assert (forall q, 0 <= q < 256 -> get_pin q = if decide (is_pin q) then
    Some (PinIndex (if decide (q <= 122) then q else q + 1) (pin_port q) (GPIO_PIN (pin_line q))) else None) as H.
  { unfold is_pin. intros q Hq. assert (Forall (fun q => get_pin q = if decide (0 <= q < 144) then
      Some (PinIndex (if decide (q <= 122) then q else q + 1) (pin_port q) (GPIO_PIN (pin_line q))) else None) (seqZ 0 256)) as Hf.
    { apply (bool_decide_unpack _). vm_cast_no_check I. }
    rewrite Forall_forall in Hf. apply Hf, elem_of_seqZ. lia. }
  assert (get_pin pin = get_pin (u8 pin)) as ->.
  { unfold get_pin. rewrite (u8_small (u8 pin)) by apply u8_range. done. }
  rewrite H by apply u8_range. split; intros; case_decide; try done. by eexists.
Qed.

(** The interrupt of a line. *)
Definition irq_of (n : Z) : Z := if n <? 5 then EXTI0_IRQn + n else if n <? 10 then EXTI9_5_IRQn else EXTI15_10_IRQn.

Lemma line_cases (P : Z -> Prop) : Forall P (seqZ 0 16) -> forall n, 0 <= n < 16 -> P n.
Proof. intros HP n Hn. rewrite Forall_forall in HP. apply HP, elem_of_seqZ. lia. Qed.

Lemma bit2bitno_line n : 0 <= n < 16 -> bit2bitno (GPIO_PIN n) = n.
Proof. revert n. apply line_cases. repeat constructor. Qed.

Lemma line_of_line n : 0 <= n < 16 -> line_of (GPIO_PIN n) = Some (Z.to_nat n).
Proof.
  intros Hn. unfold line_of. rewrite bit2bitno_line by done. rewrite (proj2 (Z.ltb_ge n 0)) by lia.
  change (Z.of_nat (length pin_irq_map)) with 16. by rewrite (proj2 (Z.leb_gt 16 n)) by lia.
Qed.

Lemma pin_irq_map_line n : 0 <= n < 16 -> pin_irq_map !! Z.to_nat n = Some (GPIO_PIN n, irq_of n).
Proof. revert n. apply line_cases. repeat constructor. Qed.

(** ** One pin at a time *)

Lemma foldl_skip {A B} (f : A -> B -> A) l a : (forall b, b ∈ l -> f a b = a) -> foldl f a l = a.
Proof. induction l as [|b l IH]; intros H; simpl; [done|]. rewrite H by (by left). apply IH. intros. apply H. by right. Qed.

Lemma pin_bits n m : 0 <= n -> 0 <= m -> (Z.land (GPIO_PIN n) (Z.shiftl 1 m) =? Z.shiftl 1 m) = bool_decide (m = n).
Proof.
  intros Hn Hm. fold (GPIO_PIN m). case_bool_decide as E.
  - subst. by rewrite Z.land_diag, Z.eqb_refl.
  - apply Z.eqb_neq. intros H. apply (f_equal (fun y => Z.testbit y m)) in H. rewrite Z.land_spec, !GPIO_PIN_testbit in H by done.
    by rewrite bool_decide_false, bool_decide_true in H.
Qed.

Lemma HAL_GPIO_Init_one p n i h : 0 <= n < 16 -> Pin i = GPIO_PIN n ->
  HAL_GPIO_Init p i h =
    let h := set_port p (init_port n i (hw_port h p)) h in
    if mode_has (Mode i) EXTI_MODE then init_exti p n (GPIO_PIN n) i h else h.
Proof.
  intros Hn Hp. assert (forall h m, 0 <= m -> m <> n -> init_position p i h m = h) as Hskip.
  { intros h' m Hm Hne. unfold init_position. rewrite Hp, pin_bits by lia. by rewrite bool_decide_false. }
  unfold HAL_GPIO_Init. replace 16 with (n + (16 - n)) by lia. rewrite seqZ_app by lia. rewrite foldl_app.
  rewrite (foldl_skip _ (seqZ 0 n)) by (intros b [? ?]%elem_of_seqZ; apply Hskip; lia).
  rewrite (seqZ_cons (0 + n)) by lia. cbn [foldl]. replace (0 + n) with n by lia.
  rewrite foldl_skip by (intros b [? ?]%elem_of_seqZ; apply Hskip; lia).
  unfold init_position. rewrite Hp, pin_bits by lia. rewrite bool_decide_true by done. unfold GPIO_PIN. by rewrite Z.land_diag.
Qed.

(** ** Configurations *)

(** What the registers say of a pin: direction (0 input, 1 output), open drain,
    pull, speed, and the level it drives as an output. *)
Record pin_config := PinConfig { pc_dir : Z; pc_drain : bool; pc_pull : Z; pc_speed : Z; pc_level : bool }.
Definition config (h : pin_hw) (pin : Z) : pin_config :=
  let g := hw_port h (pin_port pin) in let n := pin_line pin in
  PinConfig (field 2 (n * 2) (MODER g)) (Z.testbit (OTYPER g) n) (field 2 (n * 2) (PUPDR g)) (field 2 (n * 2) (OSPEEDR g)) (Z.testbit (ODR g) n).

(** The structures that the driver passes: outputs, inputs and interrupts. *)
Record simple_init (out : bool) (i : GPIO_InitTypeDef) : Prop := {
  si_mode : Mode i ∈ (if out then [GPIO_MODE_OUTPUT_PP; GPIO_MODE_OUTPUT_OD] else [GPIO_MODE_INPUT; GPIO_MODE_IT_RISING; GPIO_MODE_IT_FALLING; GPIO_MODE_IT_RISING_FALLING]);
  si_pull : 0 <= Pull i < 4;
  si_speed : 0 <= Speed i < 4;
}.

Definition init_config (out : bool) (i : GPIO_InitTypeDef) (c : pin_config) : pin_config :=
  PinConfig (if out then 1 else 0) (if out then Mode i =? GPIO_MODE_OUTPUT_OD else pc_drain c) (Pull i) (if out then Speed i else pc_speed c) (pc_level c).

Lemma simple_mode out i : simple_init out i ->
  (Mode i =? GPIO_MODE_AF_PP) || (Mode i =? GPIO_MODE_AF_OD) = false /\
  (Mode i =? GPIO_MODE_OUTPUT_PP) || (Mode i =? GPIO_MODE_AF_PP) || (Mode i =? GPIO_MODE_OUTPUT_OD) || (Mode i =? GPIO_MODE_AF_OD) = out /\
  Z.land (Mode i) GPIO_MODE = (if out then 1 else 0) /\
  (out = true -> Z.shiftr (Z.land (Mode i) GPIO_OUTPUT_TYPE) 4 = if Mode i =? GPIO_MODE_OUTPUT_OD then 1 else 0) /\
  (out = true -> mode_has (Mode i) EXTI_MODE = false).
Proof. intros [Hm _ _]. set_unfold in Hm. destruct out; set_unfold in Hm; destruct_or?; rewrite Hm; vm_compute; done. Qed.

(** Initialising the pin at [n] of a port: its own fields, and nobody else's. *)
Lemma init_port_config out i g n : simple_init out i -> 0 <= n < 16 -> let g' := init_port n i g in
  (forall m, 0 <= m < 16 -> m <> n -> field 2 (m * 2) (MODER g') = field 2 (m * 2) (MODER g) /\ Z.testbit (OTYPER g') m = Z.testbit (OTYPER g) m /\
     field 2 (m * 2) (PUPDR g') = field 2 (m * 2) (PUPDR g) /\ field 2 (m * 2) (OSPEEDR g') = field 2 (m * 2) (OSPEEDR g)) /\
  ODR g' = ODR g /\ AFR g' = AFR g /\
  field 2 (n * 2) (MODER g') = (if out then 1 else 0) /\ field 2 (n * 2) (PUPDR g') = Pull i /\
  field 2 (n * 2) (OSPEEDR g') = (if out then Speed i else field 2 (n * 2) (OSPEEDR g)) /\
  Z.testbit (OTYPER g') n = (if out then Mode i =? GPIO_MODE_OUTPUT_OD else Z.testbit (OTYPER g) n).
Proof.
  intros Hi Hn g'. destruct (simple_mode out i Hi) as (E1 & E2 & E3 & E4 & _). destruct Hi as [_ Hpl Hsp].
  subst g'. unfold init_port. rewrite E1, E2, E3. simpl. change 3 with (Z.ones 2).
  assert (0 <= (if out then 1 else 0) < 2 ^ 2) as Hd by (change (2 ^ 2) with 4; destruct out; lia).
  assert (0 <= (if Mode i =? GPIO_MODE_OUTPUT_OD then 1 else 0) < 2 ^ 1) as Ht by (change (2 ^ 1) with 2; destruct (Mode i =? GPIO_MODE_OUTPUT_OD); lia).
  splits; try done.
  - intros m Hm Hne. splits; [by rewrite field_put_other by (change (2 ^ 2) with 4; lia)| |by rewrite field_put_other by (change (2 ^ 2) with 4; lia)|].
    + destruct out; [|done]. rewrite E4 by done. change 1 with (Z.ones 1) at 1.
      rewrite put_field_testbit by (done || lia). by rewrite decide_False by lia.
    + destruct out; [|done]. by rewrite field_put_other by (change (2 ^ 2) with 4; lia).
  - by rewrite field_put_same by (change (2 ^ 2) with 4; lia).
  - by rewrite field_put_same by (change (2 ^ 2) with 4; lia).
  - destruct out; [|done]. by rewrite field_put_same by (change (2 ^ 2) with 4; lia).
  - destruct out; [|done]. rewrite E4 by done. change 1 with (Z.ones 1) at 1.
    rewrite put_field_testbit by (done || lia). rewrite decide_True by lia.
    replace (n - n) with 0 by lia. by destruct (Mode i =? GPIO_MODE_OUTPUT_OD).
Qed.

Lemma init_exti_port p n b i h : hw_port (init_exti p n b i h) = hw_port h.
Proof. done. Qed.

(** The same for the pins of all the ports. *)
Lemma HAL_GPIO_Init_config out i h pin q : simple_init out i -> Pin i = GPIO_PIN (pin_line pin) -> 
  config (HAL_GPIO_Init (pin_port pin) i h) q = if decide (q = pin) then init_config out i (config h q) else config h q.
Proof.
  intros Hi Hp. pose proof (pin_line_range pin) as Hn. rewrite (HAL_GPIO_Init_one _ (pin_line pin)) by done.
  pose proof (init_port_config out i (hw_port h (pin_port pin)) _ Hi Hn) as H. cbv zeta in H |- *.
  set (g := init_port (pin_line pin) i (hw_port h (pin_port pin))) in *. clearbody g. destruct H as (Ho & Hodr & _ & H1 & H2 & H3 & H4).
  unfold config.
  assert (forall x y : pin_hw, hw_port x = hw_port y -> forall b : bool, hw_port (if b then x else y) = hw_port y) as Hif by (intros ? ? E []; [by rewrite E|done]).
  rewrite Hif by apply init_exti_port. simpl. unfold put_word.
  destruct (Z.eqb_spec (pin_port q) (pin_port pin)) as [Eq|Ne].
  - destruct (decide (pin_line q = pin_line pin)) as [El|El].
    + rewrite decide_True by by apply pin_ext. unfold init_config. simpl. rewrite El, Eq, H1, H2, H3, H4, Hodr. done.
    + rewrite decide_False by congruence. destruct (Ho _ (pin_line_range q) El) as (-> & -> & -> & ->). rewrite Hodr, Eq. done.
  - rewrite decide_False by congruence. done.
Qed.

(** ** The pins as the callers see them *)

(** What the modes mean. *)
Definition mode_config (mode : Z) (c : pin_config) : pin_config :=
  if mode =? PIN_MODE_INPUT then PinConfig 0 (pc_drain c) GPIO_NOPULL (pc_speed c) (pc_level c)
  else if mode =? PIN_MODE_INPUT_PULLUP then PinConfig 0 (pc_drain c) GPIO_PULLUP (pc_speed c) (pc_level c)
  else if mode =? PIN_MODE_INPUT_PULLDOWN then PinConfig 0 (pc_drain c) GPIO_PULLDOWN (pc_speed c) (pc_level c)
  else PinConfig 1 (mode =? PIN_MODE_OUTPUT_OD) GPIO_NOPULL GPIO_SPEED_FREQ_HIGH (pc_level c).
Definition write_config (value : Z) (c : pin_config) : pin_config :=
  PinConfig (pc_dir c) (pc_drain c) (pc_pull c) (pc_speed c) (negb (value =? 0)).

(** Everything but the ports. *)
Definition same_lines (x y : pin_sys) : Prop :=
  EXTICR (ps_hw y) = EXTICR (ps_hw x) /\ hw_exti (ps_hw y) = hw_exti (ps_hw x) /\ nvic_enabled (ps_hw y) = nvic_enabled (ps_hw x) /\
  nvic_priority (ps_hw y) = nvic_priority (ps_hw x) /\ pin_irq_hdr_tab y = pin_irq_hdr_tab x /\ ps_k y = ps_k x.

Lemma same_lines_refl x : same_lines x x.
Proof. done. Qed.
Lemma same_lines_trans x y z : same_lines x y -> same_lines y z -> same_lines x z.
Proof. unfold same_lines. intuition congruence. Qed.

Lemma config_outside (f : pin_config -> pin_config) (g : Z -> pin_config) pin q :
  is_pin q -> ~ is_pin (u8 pin) -> g q = if decide (q = u8 pin) then f (g q) else g q.
Proof. intros Hq Hn. by rewrite decide_False by congruence. Qed.

Lemma stm32_pin_mode_spec stack pin mode x : same_lines x (stm32_pin_mode stack pin mode x) /\
  forall q, is_pin q -> config (ps_hw (stm32_pin_mode stack pin mode x)) q =
    if decide (q = u8 pin) then mode_config mode (config (ps_hw x) q) else config (ps_hw x) q.
Proof.
  unfold stm32_pin_mode. destruct (get_pin_spec pin) as [Hin Hout]. destruct (decide (0 <= u8 pin < 144)) as [Hp|Hp].
  2: { rewrite Hout by done. split; [done|]. intros q Hq. by apply (config_outside _ (config (ps_hw x))). }
  destruct (Hin Hp) as (ix & ->). simpl. set (i := mode_struct mode _).
  set (out := negb ((mode =? PIN_MODE_INPUT) || (mode =? PIN_MODE_INPUT_PULLUP) || (mode =? PIN_MODE_INPUT_PULLDOWN))).
  assert (simple_init out i /\ Pin i = GPIO_PIN (pin_line (u8 pin)) /\ mode_has (Mode i) EXTI_MODE = false /\
    forall c, init_config out i c = mode_config mode c) as (Hi & Hpin & Hex & Hc).
  { subst i out. unfold mode_struct, mode_config.
    destruct (Z.eqb_spec mode PIN_MODE_OUTPUT) as [->|?]; [|destruct (Z.eqb_spec mode PIN_MODE_INPUT) as [->|?];
      [|destruct (Z.eqb_spec mode PIN_MODE_INPUT_PULLUP) as [->|?]; [|destruct (Z.eqb_spec mode PIN_MODE_INPUT_PULLDOWN) as [->|?];
      [|destruct (Z.eqb_spec mode PIN_MODE_OUTPUT_OD) as [->|?]]]]]; (split; [split; [apply list_elem_of_In; simpl; tauto|done|done]|done]). }
  split.
  - rewrite (HAL_GPIO_Init_one _ (pin_line (u8 pin))) by (done || apply pin_line_range). cbv zeta. by rewrite Hex.
  - intros q _. simpl. rewrite (HAL_GPIO_Init_config out) by done. case_decide; [apply Hc|done].
Qed.

Lemma write_BSRR_testbit n v g m : 0 <= n < 16 -> 0 <= m < 16 ->
  Z.testbit (ODR (write_BSRR (if negb (v =? 0) then GPIO_PIN n else Z.shiftl (GPIO_PIN n) 16) g)) m =
  if decide (m = n) then negb (v =? 0) else Z.testbit (ODR g) m.
Proof.
  intros Hn Hm. unfold write_BSRR. simpl. unfold u16. change 65536 with (2 ^ 16).
  rewrite Z.lor_spec, Z.land_spec, Z.lnot_spec, Z.shiftr_spec, Z.mod_pow2_bits_low by lia. destruct (v =? 0); simpl.
  - rewrite !Z.shiftl_spec by lia. replace (m + 16 - 16) with m by lia. rewrite (Z.testbit_neg_r _ (m - 16)) by lia. rewrite GPIO_PIN_testbit by lia.
    case_decide; [rewrite bool_decide_true by done|rewrite bool_decide_false by done]; by rewrite ?andb_false_r, ?andb_true_r, ?orb_false_r.
  - rewrite !GPIO_PIN_testbit by lia. rewrite (bool_decide_false (m + 16 = n)) by lia.
    case_decide; [rewrite bool_decide_true by done|rewrite bool_decide_false by done]; by rewrite ?orb_true_r, ?andb_true_r, ?orb_false_r.
Qed.

Lemma stm32_pin_write_spec pin value x : same_lines x (stm32_pin_write pin value x) /\
  forall q, is_pin q -> config (ps_hw (stm32_pin_write pin value x)) q =
    if decide (q = u8 pin) then write_config (u8 value) (config (ps_hw x) q) else config (ps_hw x) q.
Proof.
  unfold stm32_pin_write. destruct (get_pin_spec pin) as [Hin Hout]. destruct (decide (0 <= u8 pin < 144)) as [Hp|Hp].
  2: { rewrite Hout by done. split; [done|]. intros q Hq. by apply (config_outside _ (config (ps_hw x))). }
  destruct (Hin Hp) as (ix & ->). simpl. split; [done|]. intros q Hq. unfold config, HAL_GPIO_WritePin. simpl. unfold put_word.
  destruct (Z.eqb_spec (pin_port q) (pin_port (u8 pin))) as [E|Ne]; [|by rewrite decide_False by congruence].
  rewrite write_BSRR_testbit by apply pin_line_range. simpl. rewrite E.
  destruct (decide (pin_line q = pin_line (u8 pin))) as [El|El]; [|by rewrite decide_False by congruence].
  rewrite decide_True by by apply pin_ext. unfold write_config. simpl. by rewrite El.
Qed.

(** Calls of the pin interface that set modes and levels, directly or through the
    device. *)
Inductive pin_call :=
  | CMode (stack : GPIO_InitTypeDef) (pin mode : Z)
  | CWrite (pin value : Z)
  | CDevWrite (status : option (Z * Z))
  | CDevControl (stack : GPIO_InitTypeDef) (mode : option (Z * Z)).
Definition do_call (c : pin_call) (x : pin_sys) : pin_sys :=
  match c with
  | CMode stack pin mode => rt_pin_mode stack pin mode x
  | CWrite pin value => rt_pin_write pin value x
  | CDevWrite status => (_pin_write status x).1
  | CDevControl stack mode => (_pin_control stack mode x).1
  end.

(** The pins as a table: what the calls mean. *)
Definition alter_pin (pin : Z) (f : pin_config -> pin_config) (A : Z -> pin_config) : Z -> pin_config :=
  fun q => if decide (q = u8 pin) then f (A q) else A q.
Definition abs_call (c : pin_call) (A : Z -> pin_config) : Z -> pin_config :=
  match c with
  | CMode _ pin mode | CDevControl _ (Some (pin, mode)) => alter_pin pin (mode_config mode) A
  | CWrite pin value | CDevWrite (Some (pin, value)) => alter_pin pin (write_config (u8 value)) A
  | CDevWrite None | CDevControl _ None => A
  end.

Lemma abs_calls_ext (calls : list pin_call) : forall A B : Z -> pin_config, (forall q, is_pin q -> A q = B q) ->
  forall q, is_pin q -> foldl (fun A c => abs_call c A) A calls q = foldl (fun A c => abs_call c A) B calls q.
Proof.
  induction calls as [|c calls IH]; intros A B H q Hq; simpl; [by apply H|]. apply IH; [|done]. intros q' Hq'.
  destruct c as [? ? ?|? ?|[[? ?]|]|? [[? ?]|]]; simpl; unfold alter_pin; by rewrite ?(H q' Hq').
Qed.

Lemma do_call_spec c x : same_lines x (do_call c x) /\ forall q, is_pin q -> config (ps_hw (do_call c x)) q = abs_call c (config (ps_hw x)) q.
Proof.
  destruct c as [stack pin mode|pin value|[[pin value]|]|stack [[pin mode]|]];
    first [apply stm32_pin_mode_spec|apply stm32_pin_write_spec|done].
Qed.

(** C21: The pins are a table: after any calls every pin has the mode and the level it
    was given last, whatever is done to the others. The number of a pin counts
    modulo 256 (so that 324 is pin 68: [rt_pin_write_wraps]), and one whose low byte
    is no pin has no effect; the interrupt lines are not touched. *)
Theorem pin_calls_refine (calls : list pin_call) (x : pin_sys) :
  let x' := foldl (fun x c => do_call c x) x calls in
  same_lines x x' /\
  forall q, is_pin q -> config (ps_hw x') q = foldl (fun A c => abs_call c A) (config (ps_hw x)) calls q.
Proof.
  revert x. induction calls as [|c calls IH]; intros x; simpl; [done|].
  destruct (do_call_spec c x) as [Hs Hc]. destruct (IH (do_call c x)) as [Hs' Hc'].
  split; [by eapply same_lines_trans|]. intros q Hq. rewrite Hc' by done. by apply abs_calls_ext.
Qed.

(** All registers and tables as after a reset. *)
Definition demo_pins : pin_sys :=
  PinSys (PinHw (fun _ => Gpio 0 0 0 0 0 (fun _ => 0)) (fun _ => 0) (Exti 0 0 0 0 0) false ∅ ∅) pin_irq_hdr_tab_init (demo_idle []).

(** The two keys of the board, and a light. *)
Lemma pin_calls_refine_witness :
  let calls := [CMode (GpioInit 0 0 0 0 0) 68 PIN_MODE_INPUT_PULLUP; CMode (GpioInit 0 0 0 0 0) 67 PIN_MODE_INPUT_PULLUP;
    CMode (GpioInit 0 0 0 0 0) 90 PIN_MODE_OUTPUT; CWrite 90 1; CWrite 68 0] in
  let x' := foldl (fun x c => do_call c x) demo_pins calls in
  config (ps_hw x') 68 = PinConfig 0 false GPIO_PULLUP 0 false /\ config (ps_hw x') 90 = PinConfig 1 false GPIO_NOPULL GPIO_SPEED_FREQ_HIGH true.
Proof.
  intros calls x'. split.
  - transitivity (foldl (fun A c => abs_call c A) (config (ps_hw demo_pins)) calls 68); [|vm_compute; reflexivity].
    apply (proj2 (pin_calls_refine calls demo_pins)). unfold is_pin. lia.
  - transitivity (foldl (fun A c => abs_call c A) (config (ps_hw demo_pins)) calls 90); [|vm_compute; reflexivity].
    apply (proj2 (pin_calls_refine calls demo_pins)). unfold is_pin. lia.
Defined.

(** Reading a pin: its bit of what the chip reads; 0 for a number that is no pin. *)
Lemma rt_pin_read_spec idr pin :
  rt_pin_read idr pin = if decide (is_pin (u8 pin)) then Z.b2z (Z.testbit (idr (pin_port (u8 pin))) (pin_line (u8 pin))) else 0.
Proof.
  unfold rt_pin_read, stm32_pin_read. destruct (get_pin_spec pin) as [Hin Hout]. case_decide as Hp; [|by rewrite Hout].
  destruct (Hin Hp) as (ix & ->). simpl. unfold HAL_GPIO_ReadPin. rewrite land_GPIO_PIN by apply pin_line_range. by destruct (Z.testbit _ _).
Qed.

(** ** Interrupt lines *)

(** The port a line listens to, whether it interrupts, and on which edges. *)
Record line_config := LineConfig { lc_port : Z; lc_on : bool; lc_rising : bool; lc_falling : bool }.
Definition line_of_hw (h : pin_hw) (n : Z) : line_config :=
  LineConfig (field 4 (4 * Z.land n 3) (EXTICR h (Z.shiftr n 2))) (Z.testbit (IMR (hw_exti h)) n) (Z.testbit (RTSR (hw_exti h)) n) (Z.testbit (FTSR (hw_exti h)) n).

Lemma line_word n : Z.shiftr n 2 = n / 4 /\ Z.land n 3 = n mod 4.
Proof. split; [by rewrite Z.shiftr_div_pow2|]. change 3 with (Z.ones 2). by rewrite Z.land_ones. Qed.

Lemma init_exti_line p n i h m : 0 <= p < 9 -> 0 <= n < 16 -> 0 <= m < 16 ->
  line_of_hw (init_exti p n (GPIO_PIN n) i h) m =
    if decide (m = n) then LineConfig p (mode_has (Mode i) GPIO_MODE_IT) (mode_has (Mode i) RISING_EDGE) (mode_has (Mode i) FALLING_EDGE)
    else line_of_hw h m.
Proof.
  intros Hp Hn Hm. unfold line_of_hw, init_exti. simpl. rewrite !put_bit_testbit by lia. rewrite (u8_small p) by (unfold is_u8; lia).
  destruct (line_word n) as [-> ->]. destruct (line_word m) as [-> ->]. change 15 with (Z.ones 4).
  assert (0 <= p < 2 ^ 4) as Hp' by (change (2 ^ 4) with 16; lia).
  case_decide as E.
  - subst m. unfold put_word. rewrite Z.eqb_refl. f_equal. apply field_put_same; try done; dlia.
  - f_equal. unfold put_word. destruct (Z.eqb_spec (m / 4) (n / 4)) as [Ew|?]; [|done]. rewrite Ew.
    apply field_put_other; try done; dlia.
Qed.

(** Handlers are attached with one of the three edge modes. *)
Record lines_wf (x : pin_sys) : Prop := {
  lw_len : length (pin_irq_hdr_tab x) = 16%nat;
  lw_mode : forall n h, pin_irq_hdr_tab x !! n = Some h -> 0 <= ih_mode h <= 2;
}.

Definition edge_pull (mode : Z) : Z := if mode =? PIN_IRQ_MODE_RISING then GPIO_PULLDOWN else if mode =? PIN_IRQ_MODE_FALLING then GPIO_PULLUP else GPIO_NOPULL.
Definition edge_line (port mode : Z) : line_config := LineConfig port true (negb (mode =? PIN_IRQ_MODE_FALLING)) (negb (mode =? PIN_IRQ_MODE_RISING)).

(** A pin whose interrupts reach a handler. *)
Record armed (pin mode hdr args : Z) (x : pin_sys) : Prop := {
  ar_tab : pin_irq_hdr_tab x !! Z.to_nat (pin_line pin) = Some (PinIrqHdr pin mode hdr args);
  ar_line : line_of_hw (ps_hw x) (pin_line pin) = edge_line (pin_port pin) mode;
  ar_dir : pc_dir (config (ps_hw x) pin) = 0;
  ar_pull : pc_pull (config (ps_hw x) pin) = edge_pull mode;
  ar_irq : irq_of (pin_line pin) ∈ nvic_enabled (ps_hw x);
}.

Lemma nvic_config irq h q : config (HAL_NVIC_EnableIRQ irq (HAL_NVIC_SetPriority irq 5 0 h)) q = config h q.
Proof. done. Qed.
Lemma nvic_line irq h m : line_of_hw (HAL_NVIC_EnableIRQ irq (HAL_NVIC_SetPriority irq 5 0 h)) m = line_of_hw h m.
Proof. done. Qed.

(** What enabling the interrupts of a pin does. *)
Lemma irq_enable_spec stack pin x h :
  is_pin (u8 pin) -> let q := u8 pin in pin_irq_hdr_tab x !! Z.to_nat (pin_line q) = Some h -> ih_pin h <> -1 -> 0 <= ih_mode h <= 2 ->
  exists hw, stm32_pin_irq_enable stack pin PIN_IRQ_ENABLE x = Some (set_hw hw x, RT_EOK) /\
    (forall m, 0 <= m < 16 -> line_of_hw hw m = if decide (m = pin_line q) then edge_line (pin_port q) (ih_mode h) else line_of_hw (ps_hw x) m) /\
    (forall r, config hw r = if decide (r = q) then PinConfig 0 (pc_drain (config (ps_hw x) r)) (edge_pull (ih_mode h)) (pc_speed (config (ps_hw x) r)) (pc_level (config (ps_hw x) r)) else config (ps_hw x) r) /\
    nvic_enabled hw = {[irq_of (pin_line q)]} ∪ nvic_enabled (ps_hw x) /\ PR (hw_exti hw) = PR (hw_exti (ps_hw x)).
Proof.
  intros Hp q Hh Hne Hm. destruct (get_pin_spec pin) as [Hin _]. destruct (Hin Hp) as (ix & Hg). fold q in Hg. pose proof (pin_line_range q) as Hn.
  unfold stm32_pin_irq_enable. rewrite Hg. simpl. rewrite line_of_line by done. rewrite Hh. simpl. rewrite (proj2 (Z.eqb_neq _ _)) by done.
  rewrite pin_irq_map_line by done. simpl. set (i := irq_struct _ (ih_mode h) stack).
  assert (simple_init false i /\ Pin i = GPIO_PIN (pin_line q) /\ mode_has (Mode i) EXTI_MODE = true /\
    (forall c, init_config false i c = PinConfig 0 (pc_drain c) (edge_pull (ih_mode h)) (pc_speed c) (pc_level c)) /\
    LineConfig (pin_port q) (mode_has (Mode i) GPIO_MODE_IT) (mode_has (Mode i) RISING_EDGE) (mode_has (Mode i) FALLING_EDGE) = edge_line (pin_port q) (ih_mode h)) as (Hi & Hpin & Hex & Hc & Hl).
  { subst i. assert (ih_mode h = 0 \/ ih_mode h = 1 \/ ih_mode h = 2) as [->|[->| ->]] by lia;
      (split; [split; [apply list_elem_of_In; simpl; tauto|done|done]|done]). }
  eexists. split; [done|]. splits.
  - intros m Hm'. rewrite nvic_line, (HAL_GPIO_Init_one _ (pin_line q)) by done. cbv zeta. rewrite Hex.
    rewrite init_exti_line by (done || (unfold is_pin in Hp; fold q in Hp; unfold pin_port; dlia)). case_decide; [apply Hl|done].
  - intros r. rewrite nvic_config, (HAL_GPIO_Init_config false) by done.
    case_decide; [apply Hc|done].
  - rewrite (HAL_GPIO_Init_one _ (pin_line q)) by done. cbv zeta. by rewrite Hex.
  - rewrite (HAL_GPIO_Init_one _ (pin_line q)) by done. cbv zeta. by rewrite Hex.
Qed.

(** Any call of the pin interface. *)
Inductive line_call :=
  | LCall (c : pin_call)
  | LAttach (pin mode hdr args : Z)
  | LDetach (pin : Z)
  | LEnable (stack : GPIO_InitTypeDef) (pin : Z)
  | LDisable (stack : GPIO_InitTypeDef) (pin : Z).
Definition do_line_call (c : line_call) (x : pin_sys) : option pin_sys :=
  match c with
  | LCall c => Some (do_call c x)
  | LAttach pin mode hdr args => '(x, _) ← rt_pin_attach_irq pin mode hdr args x; Some x
  | LDetach pin => '(x, _) ← rt_pin_detach_irq pin x; Some x
  | LEnable stack pin => '(x, _) ← rt_pin_irq_enable stack pin PIN_IRQ_ENABLE x; Some x
  | LDisable stack pin => '(x, _) ← rt_pin_irq_enable stack pin PIN_IRQ_DISABLE x; Some x
  end.
Fixpoint do_line_calls (l : list line_call) (x : pin_sys) : option pin_sys :=
  match l with [] => Some x | c :: l => x ← do_line_call c x; do_line_calls l x end.

(** A call of somebody who does not use the line of [pin]: its mode is left alone,
    other lines are detached and enabled, other interrupts disabled. *)
Definition apart (pin : Z) (c : line_call) : Prop :=
  match c with
  | LCall (CMode _ q _) | LCall (CDevControl _ (Some (q, _))) => u8 q <> pin
  | LCall _ => True
  | LAttach _ mode _ _ => 0 <= mode <= 2
  | LDetach q | LEnable _ q => is_pin (u8 q) -> pin_line (u8 q) <> pin_line pin
  | LDisable _ q => is_pin (u8 q) -> irq_of (pin_line (u8 q)) <> irq_of (pin_line pin)
  end.

Lemma armed_same pin mode hdr args x y : is_pin pin -> armed pin mode hdr args x -> same_lines x y ->
  pc_dir (config (ps_hw y) pin) = pc_dir (config (ps_hw x) pin) -> pc_pull (config (ps_hw y) pin) = pc_pull (config (ps_hw x) pin) ->
  armed pin mode hdr args y.
Proof.
  intros Hp [H1 H2 H3 H4 H5] (E1 & E2 & E3 & _ & E5 & _) Hd Hl. split; try congruence.
  unfold line_of_hw in *. by rewrite E1, E2.
Qed.

Lemma lines_wf_same x y : lines_wf x -> same_lines x y -> lines_wf y.
Proof. intros [H1 H2] (_ & _ & _ & _ & E & _). split; rewrite E; done. Qed.

Lemma tab_line x q : lines_wf x -> exists h, pin_irq_hdr_tab x !! Z.to_nat (pin_line q) = Some h /\ 0 <= ih_mode h <= 2.
Proof.
  intros [Hl Hm]. destruct (lookup_lt_is_Some_2 (pin_irq_hdr_tab x) (Z.to_nat (pin_line q))) as [h Hh].
  { rewrite Hl. pose proof (pin_line_range q). lia. }
  exists h. split; [done|]. by eapply Hm.
Qed.

(** The same pin and line, the table changed elsewhere. *)
Lemma armed_set_tab pin mode hdr args x n h : armed pin mode hdr args x -> n <> Z.to_nat (pin_line pin) ->
  armed pin mode hdr args (set_tab (<[n := h]> (pin_irq_hdr_tab x)) x).
Proof. intros [H1 H2 H3 H4 H5] Hn. split; try done. simpl. by rewrite list_lookup_insert_ne. Qed.

Lemma lines_wf_set_tab x n h : lines_wf x -> 0 <= ih_mode h <= 2 -> lines_wf (set_tab (<[n := h]> (pin_irq_hdr_tab x)) x).
Proof.
  intros [Hl Hm] Hh. split; simpl; [by rewrite length_insert|]. intros m h' H.
  apply list_lookup_insert_Some in H as [(_ & <- & _)|[_ H]]; [done|by eapply Hm].
Qed.

Lemma line_ne p q : pin_line p <> pin_line q -> Z.to_nat (pin_line p) <> Z.to_nat (pin_line q).
Proof. pose proof (pin_line_range p). pose proof (pin_line_range q). lia. Qed.

Lemma attach_cases pin mode hdr args x : lines_wf x ->
  (~ is_pin (u8 pin) /\ rt_pin_attach_irq pin mode hdr args x = Some (x, RT_ENOSYS)) \/
  (is_pin (u8 pin) /\ exists h, let n := Z.to_nat (pin_line (u8 pin)) in pin_irq_hdr_tab x !! n = Some h /\
    ((h = PinIrqHdr pin mode hdr args /\ rt_pin_attach_irq pin mode hdr args x = Some (x, RT_EOK)) \/
     (h <> PinIrqHdr pin mode hdr args /\ ih_pin h <> -1 /\ rt_pin_attach_irq pin mode hdr args x = Some (x, RT_EBUSY)) \/
     (ih_pin h = -1 /\ rt_pin_attach_irq pin mode hdr args x =
       Some (set_tab (<[n := PinIrqHdr (s16 pin) (u16 mode) hdr args]> (pin_irq_hdr_tab x)) x, RT_EOK)))).
Proof.
  intros Hwf. unfold rt_pin_attach_irq, stm32_pin_attach_irq. destruct (get_pin_spec pin) as [Hin Hout].
  destruct (decide (0 <= u8 pin < 144)) as [Hp|Hp]; [right|left; by rewrite Hout]. split; [done|].
  destruct (Hin Hp) as (ix & ->). simpl. rewrite line_of_line by apply pin_line_range. destruct (tab_line x (u8 pin) Hwf) as (h & Hh & _).
  exists h. rewrite Hh. split; [done|]. simpl. destruct h as [hp hm hh ha]. simpl.
  destruct (Z.eqb_spec hp pin) as [->|?]; simpl; [destruct (Z.eqb_spec hh hdr) as [->|?]; simpl; [destruct (Z.eqb_spec hm mode) as [->|?]; simpl; [destruct (Z.eqb_spec ha args) as [->|?]; simpl; [by left|]|]|]|].
  all: right; destruct (Z.eqb_spec hp (-1)) as [->|?] || destruct (Z.eqb_spec pin (-1)) as [->|?]; simpl; [right; done|left; split; [congruence|done]].
Qed.

Lemma detach_cases pin x : lines_wf x ->
  rt_pin_detach_irq pin x = Some (x, RT_ENOSYS) \/
  (is_pin (u8 pin) /\ exists h, let n := Z.to_nat (pin_line (u8 pin)) in pin_irq_hdr_tab x !! n = Some h /\
    rt_pin_detach_irq pin x = Some (if ih_pin h =? -1 then x else set_tab (<[n := no_hdr]> (pin_irq_hdr_tab x)) x, RT_EOK)).
Proof.
  intros Hwf. unfold rt_pin_detach_irq, stm32_pin_dettach_irq. destruct (get_pin_spec pin) as [Hin Hout].
  destruct (decide (0 <= u8 pin < 144)) as [Hp|Hp]; [right|left; by rewrite Hout]. split; [done|].
  destruct (Hin Hp) as (ix & ->). simpl. rewrite line_of_line by apply pin_line_range. destruct (tab_line x (u8 pin) Hwf) as (h & Hh & _).
  exists h. rewrite Hh. split; [done|]. simpl. by destruct (ih_pin h =? -1).
Qed.

Lemma disable_cases stack pin x :
  (~ is_pin (u8 pin) /\ rt_pin_irq_enable stack pin PIN_IRQ_DISABLE x = Some (x, RT_ENOSYS)) \/
  (is_pin (u8 pin) /\ rt_pin_irq_enable stack pin PIN_IRQ_DISABLE x = Some (set_hw (HAL_NVIC_DisableIRQ (irq_of (pin_line (u8 pin))) (ps_hw x)) x, RT_EOK)).
Proof.
  unfold rt_pin_irq_enable, stm32_pin_irq_enable. destruct (get_pin_spec pin) as [Hin Hout].
  destruct (decide (0 <= u8 pin < 144)) as [Hp|Hp]; [right|left; by rewrite Hout]. split; [done|].
  destruct (Hin Hp) as (ix & ->). simpl. unfold get_pin_irq_map. rewrite line_of_line by apply pin_line_range. simpl.
  by rewrite pin_irq_map_line by apply pin_line_range.
Qed.

Lemma enable_cases stack pin x : lines_wf x ->
  rt_pin_irq_enable stack pin PIN_IRQ_ENABLE x = Some (x, RT_ENOSYS) \/
  (is_pin (u8 pin) /\ exists h, pin_irq_hdr_tab x !! Z.to_nat (pin_line (u8 pin)) = Some h /\ ih_pin h <> -1 /\ 0 <= ih_mode h <= 2).
Proof.
  intros Hwf. unfold rt_pin_irq_enable, stm32_pin_irq_enable. destruct (get_pin_spec pin) as [Hin Hout].
  destruct (decide (0 <= u8 pin < 144)) as [Hp|Hp]; [|left; by rewrite Hout].
  destruct (Hin Hp) as (ix & ->). simpl. rewrite line_of_line by apply pin_line_range. destruct (tab_line x (u8 pin) Hwf) as (h & Hh & Hm).
  rewrite Hh. simpl. destruct (Z.eqb_spec (ih_pin h) (-1)); [by left|right]. split; [done|]. by exists h.
Qed.

(** What others do leaves the interrupts of a pin armed. *)
Lemma apart_armed pin mode hdr args c x : is_pin pin -> lines_wf x -> armed pin mode hdr args x -> apart pin c ->
  exists x', do_line_call c x = Some x' /\ lines_wf x' /\ armed pin mode hdr args x'.
Proof.
  intros Hp Hwf Ha Hc. destruct c as [c|q m f a|q|stack q|stack q]; simpl in *.
  - exists (do_call c x). destruct (do_call_spec c x) as [Hs Hcfg]. split; [done|]. split; [by eapply lines_wf_same|].
    apply (armed_same _ _ _ _ x); try done; rewrite Hcfg by done;
      destruct c as [? ? ?|? ?|[[? ?]|]|? [[? ?]|]]; simpl; unfold alter_pin; try done;
      first [by rewrite decide_False by congruence|by case_decide].
  - destruct (attach_cases q m f a x Hwf) as [[_ ->]|(Hq & h & Hh & [[_ ->]|[(_ & _ & ->)|[E ->]]])]; simpl; try by exists x.
    eexists. split; [done|]. split; [apply lines_wf_set_tab; [done|simpl; rewrite u16_small by (unfold is_u16; lia); lia]|].
    apply armed_set_tab; [done|]. intros Hn. pose proof (ar_tab _ _ _ _ _ Ha) as H. rewrite <-Hn, Hh in H. injection H as ->.
    simpl in E. unfold is_pin in Hp. lia.
  - destruct (detach_cases q x Hwf) as [->|(Hq & h & Hh & ->)]; simpl; [by exists x|]. eexists. split; [done|].
    case_match; [done|]. split; [by apply lines_wf_set_tab|]. apply armed_set_tab; [done|]. by apply line_ne, Hc.
  - destruct (enable_cases stack q x Hwf) as [->|(Hq & h & Hh & Hne & Hm)]; simpl; [by exists x|].
    destruct (irq_enable_spec stack q x h Hq Hh Hne Hm) as (hw & E & Hl & Hcfg & Hirq & _). unfold rt_pin_irq_enable. rewrite E. simpl.
    eexists. split; [done|]. split; [by destruct Hwf|]. specialize (Hc Hq). destruct Ha as [H1 H2 H3 H4 H5]. split; cbn [ps_hw set_hw pin_irq_hdr_tab].
    + done.
    + rewrite Hl by apply pin_line_range. by rewrite decide_False by congruence.
    + rewrite Hcfg. by rewrite decide_False by congruence.
    + rewrite Hcfg. by rewrite decide_False by congruence.
    + rewrite Hirq. set_solver.
  - destruct (disable_cases stack q x) as [[_ ->]|[Hq ->]]; simpl; [by exists x|]. eexists. split; [done|]. split; [by destruct Hwf|].
    specialize (Hc Hq). destruct Ha as [H1 H2 H3 H4 H5]. split; try done. simpl. set_solver.
Qed.

Lemma apart_all_armed pin mode hdr args l : forall x, is_pin pin -> lines_wf x -> armed pin mode hdr args x -> Forall (apart pin) l ->
  exists x', do_line_calls l x = Some x' /\ lines_wf x' /\ armed pin mode hdr args x'.
Proof.
  induction l as [|c l IH]; intros x Hp Hwf Ha Hl; simpl; [by exists x|].
  apply Forall_cons in Hl as [Hc Hl]. destruct (apart_armed _ _ _ _ c x Hp Hwf Ha Hc) as (x1 & -> & Hwf1 & Ha1). simpl. by apply IH.
Qed.

(** ** Interrupts *)

(** A handler that acts on the kernel and leaves the pins alone. *)
Definition on_kernel (act : Z -> Z -> kernel -> option kernel) (hdr args : Z) (x : pin_sys) : option pin_sys :=
  k ← act hdr args (ps_k x); Some (PinSys (ps_hw x) (pin_irq_hdr_tab x) k).

Definition set_PR (pr : Z) (x : pin_sys) : pin_sys :=
  let e := hw_exti (ps_hw x) in set_hw (set_exti (Exti (IMR e) (EMR e) (RTSR e) (FTSR e) pr) (ps_hw x)) x.

(** The handlers of the pending lines among [l], in order. *)
Definition pending_handlers (l : list Z) (pr : Z) (t : list rt_pin_irq_hdr) : list (Z * Z) :=
  omap (fun n => if Z.testbit pr n then h ← t !! Z.to_nat n; if ih_hdr h =? 0 then None else Some (ih_hdr h, ih_args h) else None) l.
Fixpoint run_handlers (act : Z -> Z -> kernel -> option kernel) (l : list (Z * Z)) (k : kernel) : option kernel :=
  match l with [] => Some k | (hdr, args) :: l => k ← act hdr args k; run_handlers act l k end.

(** The lines of an interrupt. *)
Definition irq_lines (irqno : Z) : list Z := filter (fun n => irq_of n = irqno) (seqZ 0 16).
Definition clear_lines (l : list Z) (pr : Z) : Z := foldl (fun pr n => Z.land pr (Z.lnot (GPIO_PIN n))) pr l.

Lemma exti_line_one act n x h : 0 <= n < 16 -> pin_irq_hdr_tab x !! Z.to_nat n = Some h ->
  HAL_GPIO_EXTI_IRQHandler (on_kernel act) (GPIO_PIN n) x =
    let pr := PR (hw_exti (ps_hw x)) in
    k ← run_handlers act (pending_handlers [n] pr (pin_irq_hdr_tab x)) (ps_k x);
    Some (PinSys (ps_hw (set_PR (Z.land pr (Z.lnot (GPIO_PIN n))) x)) (pin_irq_hdr_tab x) k).
Proof.
  intros Hn Hh. unfold HAL_GPIO_EXTI_IRQHandler. rewrite land_GPIO_PIN by lia. unfold pending_handlers. cbn [omap list_omap].
  cbv zeta. destruct (Z.testbit (PR (hw_exti (ps_hw x))) n) eqn:E.
  - unfold HAL_GPIO_EXTI_Callback, pin_irq_hdr. rewrite bit2bitno_line by done. rewrite (proj2 (Z.ltb_ge n 0)) by lia.
    cbn [pin_irq_hdr_tab set_hw]. rewrite Hh. simpl. destruct (ih_hdr h =? 0); simpl; [done|].
    unfold on_kernel. simpl. by destruct (act (ih_hdr h) (ih_args h) (ps_k x)).
  - simpl. replace (Z.land (PR (hw_exti (ps_hw x))) (Z.lnot (GPIO_PIN n))) with (PR (hw_exti (ps_hw x))).
    + by destruct x as [[? ? [] ? ? ?] ? ?].
    + apply Z.bits_inj'. intros i Hi. rewrite Z.land_spec, Z.lnot_spec, GPIO_PIN_testbit by lia.
      case_bool_decide; [subst; by rewrite E|by rewrite andb_true_r].
Qed.

Lemma run_handlers_app act l1 l2 k : run_handlers act (l1 ++ l2) k = k ← run_handlers act l1 k; run_handlers act l2 k.
Proof. revert k. induction l1 as [|[f a] l1 IH]; intros k; simpl; [done|]. destruct (act f a k); simpl; [apply IH|done]. Qed.

Lemma exti_lines_spec act l : forall x, NoDup l -> Forall (fun n => 0 <= n < 16) l -> length (pin_irq_hdr_tab x) = 16%nat ->
  exti_lines (on_kernel act) l x =
    let pr := PR (hw_exti (ps_hw x)) in
    k ← run_handlers act (pending_handlers l pr (pin_irq_hdr_tab x)) (ps_k x);
    Some (PinSys (ps_hw (set_PR (clear_lines l pr) x)) (pin_irq_hdr_tab x) k).
Proof.
  induction l as [|n l IH]; intros x Hnd Hl Hlen; cbv zeta.
  { simpl. by destruct x as [[? ? [] ? ? ?] ? ?]. }
  apply NoDup_cons in Hnd as [Hni Hnd]. apply Forall_cons in Hl as [Hn Hl].
  destruct (lookup_lt_is_Some_2 (pin_irq_hdr_tab x) (Z.to_nat n)) as [h Hh]; [lia|].
  cbn [exti_lines]. rewrite (exti_line_one act n x h Hn Hh). cbv zeta.
  change (n :: l) with ([n] ++ l). unfold pending_handlers at 2. rewrite omap_app, run_handlers_app. fold (pending_handlers [n] (PR (hw_exti (ps_hw x))) (pin_irq_hdr_tab x)).
  destruct (run_handlers act (pending_handlers [n] _ _) (ps_k x)) as [k|]; [|done]. simpl. rewrite IH by done. simpl.
  assert (pending_handlers l (Z.land (PR (hw_exti (ps_hw x))) (Z.lnot (GPIO_PIN n))) (pin_irq_hdr_tab x) = pending_handlers l (PR (hw_exti (ps_hw x))) (pin_irq_hdr_tab x)) as ->; [|done].
  unfold pending_handlers. apply list_omap_ext. clear -Hni Hl Hn. induction l as [|m l IH]; constructor.
  - apply Forall_cons in Hl as [Hm _]. apply not_elem_of_cons in Hni as [Hne _].
    rewrite Z.land_spec, Z.lnot_spec, GPIO_PIN_testbit by lia. rewrite bool_decide_false by congruence. by rewrite andb_true_r.
  - apply IH; [by apply not_elem_of_cons in Hni as [_ ?]|by apply Forall_cons in Hl as [_ ?]].
Qed.

Lemma exti_vector_lines call n x : 0 <= n < 16 -> exti_vector call (irq_of n) x = exti_handler call (irq_lines (irq_of n)) x.
Proof. revert n. apply line_cases. repeat constructor. Qed.

(** The interrupt of a line calls the handlers of the lines it serves that are
    pending, once each and in order, and clears exactly these lines. *)
Lemma exti_vector_spec act n x : 0 <= n < 16 -> length (pin_irq_hdr_tab x) = 16%nat ->
  exti_vector (on_kernel act) (irq_of n) x =
    let pr := PR (hw_exti (ps_hw x)) in let l := irq_lines (irq_of n) in
    k ← run_handlers act (pending_handlers l pr (pin_irq_hdr_tab x)) (set_s (rt_interrupt_enter (k_s (ps_k x))) (ps_k x));
    Some (PinSys (ps_hw (set_PR (clear_lines l pr) x)) (pin_irq_hdr_tab x) (set_s (rt_interrupt_leave (k_s k)) k)).
Proof.
  intros Hn Hlen. rewrite exti_vector_lines by done. unfold exti_handler. rewrite exti_lines_spec.
  - cbv zeta. simpl. by destruct (run_handlers act _ _).
  - apply NoDup_filter, NoDup_seqZ.
  - apply Forall_forall. intros m [_ [? ?]%elem_of_seqZ]%list_elem_of_filter. lia.
  - done.
Qed.

Lemma clear_lines_testbit l pr m : Forall (fun n => 0 <= n) l -> 0 <= m -> Z.testbit (clear_lines l pr) m = Z.testbit pr m && bool_decide (m ∉ l).
Proof.
  intros Hl Hm. revert pr. induction Hl as [|n l Hn Hl IH]; intros pr; simpl.
  - by rewrite andb_true_r.
  - rewrite IH, Z.land_spec, Z.lnot_spec, GPIO_PIN_testbit by done. rewrite <-andb_assoc. f_equal.
    destruct (decide (m = n)) as [->|Hne]; [rewrite bool_decide_true by done; rewrite (bool_decide_false (n ∉ n :: l)); [done|intros H; apply H; by left]|].
    rewrite bool_decide_false by done. simpl. apply bool_decide_ext. rewrite not_elem_of_cons. tauto.
Qed.

Lemma irq_lines_elem n m : m ∈ irq_lines n <-> 0 <= m < 16 /\ irq_of m = n.
Proof. unfold irq_lines. rewrite list_elem_of_filter, elem_of_seqZ. simpl. lia. Qed.

(** The handlers of an interrupt, seen from one of its lines. *)
Lemma pending_handlers_split n pr t p m hdr args : 0 <= n < 16 -> t !! Z.to_nat n = Some (PinIrqHdr p m hdr args) -> hdr <> 0 -> Z.testbit pr n = true ->
  exists before after, pending_handlers (irq_lines (irq_of n)) pr t = before ++ (hdr, args) :: after /\
    ((forall i, i ∈ irq_lines (irq_of n) -> Z.testbit pr i = true -> i = n) -> before = [] /\ after = []).
Proof.
  intros Hn Ht Hh Hpr. assert (n ∈ irq_lines (irq_of n)) as Hin by (by apply irq_lines_elem).
  assert (NoDup (irq_lines (irq_of n))) as Hnd by (apply NoDup_filter, NoDup_seqZ).
  destruct (list_elem_of_split _ _ Hin) as (l1 & l2 & E). rewrite E in *. exists (pending_handlers l1 pr t), (pending_handlers l2 pr t). split.
  - unfold pending_handlers. rewrite omap_app. simpl. rewrite Hpr, Ht. simpl. by rewrite (proj2 (Z.eqb_neq _ _)) by done.
  - intros Ho. apply NoDup_app in Hnd as (_ & H1 & H2). apply NoDup_cons in H2 as [H2 _].
    assert (forall l, (forall i, i ∈ l -> i <> n /\ i ∈ l1 ++ n :: l2) -> pending_handlers l pr t = []) as Hnil.
    { clear -Ho. induction l as [|i l IH]; intros Hl; [done|]. unfold pending_handlers. simpl. destruct (Hl i) as [Hne Hi]; [by left|].
      destruct (Z.testbit pr i) eqn:Ei; [by destruct (Hne (Ho i Hi Ei))|]. apply IH. intros j Hj. apply Hl. by right. }
    split; apply Hnil; intros i Hi; (split; [intros ->|]).
    + apply (H1 n Hi). by left.
    + apply elem_of_app. by left.
    + done.
    + apply elem_of_app. right. by right.
Qed.

Lemma s16_pin pin : is_pin pin -> s16 pin = pin /\ u8 pin = pin.
Proof. unfold is_pin, s16. intros H. rewrite Z.mod_small by lia. rewrite (proj2 (Z.ltb_lt _ _)) by lia. split; [done|]. apply u8_small. unfold is_u8. lia. Qed.

(** C20: Interrupts of a pin reach its handler. A handler attached to a free line and
    enabled stays so through any calls of others that do not set the mode of its
    pin, do not detach or enable another pin of its line, and do not disable a line
    of the same interrupt ([apart]; lines 5 to 9 share one, and so do 10 to 15: see
    [disable_stops_group]); the line listens to its port and on the edges of its
    mode. Then an interrupt with the line pending calls the handler once with its
    argument, between the handlers of the other pending lines of that interrupt, if
    there are any, and clears exactly these lines. Handlers act on the kernel; ones
    that call the pin driver themselves are not covered. *)
Theorem pin_irq_delivers (stack : GPIO_InitTypeDef) (pin mode hdr args : Z) (x : pin_sys) (h : rt_pin_irq_hdr) :
  is_pin pin -> lines_wf x -> 0 <= mode <= 2 -> hdr <> 0 ->
  pin_irq_hdr_tab x !! Z.to_nat (pin_line pin) = Some h -> ih_pin h = -1 ->
  exists x1 x2, rt_pin_attach_irq pin mode hdr args x = Some (x1, RT_EOK) /\ rt_pin_irq_enable stack pin PIN_IRQ_ENABLE x1 = Some (x2, RT_EOK) /\
    forall l, Forall (apart pin) l ->
      exists x3, do_line_calls l x2 = Some x3 /\ armed pin mode hdr args x3 /\
        forall act pr, Z.testbit pr (pin_line pin) = true -> let irq := irq_of (pin_line pin) in
          exists before after pr',
            exti_vector (on_kernel act) irq (set_PR pr x3) =
              (k ← run_handlers act (before ++ (hdr, args) :: after) (set_s (rt_interrupt_enter (k_s (ps_k x3))) (ps_k x3));
               Some (PinSys (ps_hw (set_PR pr' x3)) (pin_irq_hdr_tab x3) (set_s (rt_interrupt_leave (k_s k)) k))) /\
            (forall m, 0 <= m -> Z.testbit pr' m = Z.testbit pr m && negb (bool_decide (m < 16 /\ irq_of m = irq))) /\
            ((forall m, m ∈ irq_lines irq -> Z.testbit pr m = true -> m = pin_line pin) -> before = [] /\ after = []).
Proof.
  intros Hp Hwf Hmode Hhdr Hh Hfree. destruct (s16_pin pin Hp) as [Es Eu]. pose proof (pin_line_range pin) as Hn.
  destruct (attach_cases pin mode hdr args x Hwf) as [[Hno _]|(_ & h' & Hh' & Hcase)]; rewrite Eu in *; [done|].
  rewrite Hh in Hh'. injection Hh' as <-. destruct Hcase as [[-> _]|[(_ & ? & _)|[_ Ha]]]; [simpl in Hfree; unfold is_pin in Hp; lia|done|].
  rewrite Es, u16_small in Ha by (unfold is_u16; lia). set (x1 := set_tab _ x) in Ha.
  assert (pin_irq_hdr_tab x1 !! Z.to_nat (pin_line pin) = Some (PinIrqHdr pin mode hdr args)) as Ht1.
  { simpl. apply list_lookup_insert_eq. destruct Hwf as [-> _]. lia. }
  assert (lines_wf x1) as Hwf1 by (by apply lines_wf_set_tab).
  destruct (irq_enable_spec stack pin x1 (PinIrqHdr pin mode hdr args)) as (hw & He & Hl & Hcfg & Hirq & _); rewrite ?Eu in *; try done; [simpl; unfold is_pin in Hp; lia|].
  exists x1, (set_hw hw x1). split; [done|]. split; [done|]. intros l Hall.
  assert (armed pin mode hdr args (set_hw hw x1)) as Harm.
  { split; cbn [ps_hw set_hw]; [done|by rewrite Hl, decide_True by done|by rewrite Hcfg, decide_True by done|by rewrite Hcfg, decide_True by done|rewrite Hirq; set_solver]. }
  destruct (apart_all_armed pin mode hdr args l (set_hw hw x1) Hp) as (x3 & -> & Hwf3 & Harm3); [by destruct Hwf1|done|done|].
  exists x3. split; [done|]. split; [done|]. intros act pr Hpr irq.
  destruct (pending_handlers_split (pin_line pin) pr (pin_irq_hdr_tab x3) pin mode hdr args Hn (ar_tab _ _ _ _ _ Harm3) Hhdr Hpr) as (before & after & E & Hnil).
  exists before, after, (clear_lines (irq_lines irq) pr). split; [|split; [|done]].
  - unfold irq. rewrite exti_vector_spec by (done || apply Hwf3). cbv zeta. simpl. by rewrite E.
  - intros m Hm. rewrite clear_lines_testbit; [|apply Forall_forall; intros i [? _]%irq_lines_elem; lia|done]. f_equal.
    rewrite <-bool_decide_not. apply bool_decide_ext. rewrite irq_lines_elem. lia.
Qed.

Lemma demo_pins_wf : lines_wf demo_pins.
Proof. split; [done|]. intros n h [-> _]%lookup_replicate. simpl. lia. Qed.

(** Key 0 of the board, on PE4, attached on falling edges; others attach to PF4 and
    use PF10 as an output and PE3 for interrupts. *)
Lemma pin_irq_delivers_witness :
  let others := [LAttach 84 PIN_IRQ_MODE_RISING 9 0; LCall (CMode (GpioInit 0 0 0 0 0) 90 PIN_MODE_OUTPUT); LCall (CWrite 90 1);
    LAttach 67 PIN_IRQ_MODE_RISING 8 5; LEnable (GpioInit 0 0 0 0 0) 67; LDetach 67; LDisable (GpioInit 0 0 0 0 0) 67] in
  exists x1 x2 x3, rt_pin_attach_irq 68 PIN_IRQ_MODE_FALLING 7 1 demo_pins = Some (x1, RT_EOK) /\
    rt_pin_irq_enable (GpioInit 0 0 0 0 0) 68 PIN_IRQ_ENABLE x1 = Some (x2, RT_EOK) /\ do_line_calls others x2 = Some x3 /\
    armed 68 PIN_IRQ_MODE_FALLING 7 1 x3.
Proof.
  intros others.
  destruct (pin_irq_delivers (GpioInit 0 0 0 0 0) 68 PIN_IRQ_MODE_FALLING 7 1 demo_pins no_hdr) as (x1 & x2 & H1 & H2 & H).
  - unfold is_pin. lia.
  - exact demo_pins_wf.
  - vm_compute. split; discriminate.
  - discriminate.
  - reflexivity.
  - reflexivity.
  - exists x1, x2. destruct (H others) as (x3 & H3 & Ha & _).
    + repeat constructor; vm_compute; try discriminate; intros _; discriminate.
    + exists x3. split; [exact H1|]. split; [exact H2|]. split; [exact H3|exact Ha].
Defined.

(** ** Limits *)

(** A pin of another port with the same number detaches the handler, *)
Lemma detach_takes_other pin mode hdr args x q : is_pin pin -> lines_wf x -> armed pin mode hdr args x ->
  is_pin (u8 q) -> pin_line (u8 q) = pin_line pin ->
  exists x', rt_pin_detach_irq q x = Some (x', RT_EOK) /\ pin_irq_hdr_tab x' !! Z.to_nat (pin_line pin) = Some no_hdr.
Proof.
  intros Hp Hwf Ha Hq El. unfold rt_pin_detach_irq, stm32_pin_dettach_irq. destruct (get_pin_spec q) as [Hin _]. destruct (Hin Hq) as (ix & ->).
  simpl. rewrite line_of_line by apply pin_line_range. rewrite El, (ar_tab _ _ _ _ _ Ha). simpl.
  rewrite (proj2 (Z.eqb_neq pin (-1))) by (unfold is_pin in Hp; lia). eexists. split; [done|]. simpl. apply list_lookup_insert_eq.
  destruct Hwf as [-> _]. pose proof (pin_line_range pin). lia.
Qed.

(** or, enabling interrupts without having attached a handler, takes the line for
    its own port, and its edges call the handler of the other pin. *)
Lemma enable_takes_line stack pin mode hdr args x q : is_pin pin -> lines_wf x -> armed pin mode hdr args x ->
  is_pin (u8 q) -> pin_line (u8 q) = pin_line pin ->
  exists x', rt_pin_irq_enable stack q PIN_IRQ_ENABLE x = Some (x', RT_EOK) /\
    line_of_hw (ps_hw x') (pin_line pin) = edge_line (pin_port (u8 q)) mode /\
    pin_irq_hdr_tab x' !! Z.to_nat (pin_line pin) = Some (PinIrqHdr pin mode hdr args).
Proof.
  intros Hp Hwf Ha Hq El. pose proof (ar_tab _ _ _ _ _ Ha) as Ht.
  destruct (irq_enable_spec stack q x (PinIrqHdr pin mode hdr args) Hq) as (hw & E & Hl & _).
  - by rewrite El.
  - simpl. unfold is_pin in Hp. lia.
  - by apply (lw_mode _ Hwf _ _ Ht).
  - exists (set_hw hw x). split; [done|]. split; [|done]. cbn [ps_hw set_hw]. rewrite <-El, Hl, decide_True by (done || apply pin_line_range). done.
Qed.

(** Disabling a pin disables all the lines of its interrupt, *)
Lemma disable_stops_group stack pin mode hdr args x q : is_pin pin -> armed pin mode hdr args x ->
  is_pin (u8 q) -> irq_of (pin_line (u8 q)) = irq_of (pin_line pin) ->
  exists x', rt_pin_irq_enable stack q PIN_IRQ_DISABLE x = Some (x', RT_EOK) /\ irq_of (pin_line pin) ∉ nvic_enabled (ps_hw x').
Proof.
  intros Hp Ha Hq E. destruct (disable_cases stack q x) as [[? _]|[_ ->]]; [done|]. eexists. split; [done|]. simpl. rewrite E. set_solver.
Qed.

(** and enabling another line of that interrupt later enables a pin again that had
    been disabled, since its line is not masked. *)
Lemma disabled_comes_back stack pin mode hdr args x q h : is_pin pin -> lines_wf x -> armed pin mode hdr args x ->
  is_pin (u8 q) -> pin_line (u8 q) <> pin_line pin -> irq_of (pin_line (u8 q)) = irq_of (pin_line pin) ->
  pin_irq_hdr_tab x !! Z.to_nat (pin_line (u8 q)) = Some h -> ih_pin h <> -1 ->
  exists x1 x2, rt_pin_irq_enable stack pin PIN_IRQ_DISABLE x = Some (x1, RT_EOK) /\ rt_pin_irq_enable stack q PIN_IRQ_ENABLE x1 = Some (x2, RT_EOK) /\
    armed pin mode hdr args x2.
Proof.
  intros Hp Hwf Ha Hq Hne E Hh Hpn. destruct (s16_pin pin Hp) as [_ Eu].
  destruct (disable_cases stack pin x) as [[Hno _]|[_ Hd]]; [by rewrite Eu in Hno|]. set (x1 := set_hw _ x) in Hd.
  destruct (irq_enable_spec stack q x1 h Hq Hh Hpn (lw_mode _ Hwf _ _ Hh)) as (hw & He & Hl & Hcfg & Hirq & _).
  exists x1, (set_hw hw x1). split; [done|]. split; [done|]. destruct Ha as [H1 H2 H3 H4 _]. split; cbn [ps_hw set_hw].
  - done.
  - rewrite Hl by apply pin_line_range. by rewrite decide_False by congruence.
  - rewrite Hcfg. by rewrite decide_False by congruence.
  - rewrite Hcfg. by rewrite decide_False by congruence.
  - rewrite Hirq, E. set_solver.
Qed.

(** For a mode that waits for a level, the mode and pull that the registers get are
    what happens to be on the stack. *)
Lemma irq_level_mode_unset bit mode s : mode = 3 \/ mode = 4 -> Mode (irq_struct bit mode s) = Mode s /\ Pull (irq_struct bit mode s) = Pull s.
Proof. by intros [-> | ->]. Qed.

(** Pins are numbered by a byte: 256 is PA0. *)
Lemma rt_pin_write_wraps pin value x : rt_pin_write (pin + 256) value x = rt_pin_write pin value x.
Proof.
  unfold rt_pin_write, stm32_pin_write, get_pin. assert (u8 (pin + 256) = u8 pin) as -> by (unfold u8; dlia). done.
Qed.

(** From PH11 on the table gives its entries the number of the next pin. *)
Lemma pins_misnumbered : (pi_index <$> pins) !! 123%nat = Some 124 /\ get_pin 123 = Some (PinIndex 124 7 (GPIO_PIN 11)).
Proof. by split; vm_compute. Qed.
