(* ===== verification/Serial.v ===== *)
(** * Serial devices (rt-thread/components/drivers/serial/serial.c)

    The framework between the device interface and a UART driver: reception by
    interrupt or DMA through a software FIFO on the heap, transmission by polling
    or byte by byte with a completion. Transmission by DMA goes through a data
    queue and is left out. A null pointer, a cast to the wrong structure or an
    access outside a buffer gives [None]. *)

From S2P Require Import Prelude Kernel Ring Mem Device.

Definition RT_DEVICE_CTRL_RESUME : Z := 1.
Definition RT_DEVICE_CTRL_SUSPEND : Z := 2.
Definition RT_DEVICE_CTRL_CONFIG : Z := 3.
Definition RT_DEVICE_CTRL_SET_INT : Z := 16.
Definition RT_DEVICE_CTRL_CLR_INT : Z := 17.
Definition RT_EIO : Z := 8.

(** ** State *)

Record serial_configure := SerialConfigure { baud_rate : Z; data_bits : Z; stop_bits : Z; parity : Z; bit_order : Z; invert : Z; bufsz : nat }.

Record rt_serial_rx_fifo := RxFifo { buffer : list Z; put_index : nat; get_index : nat; is_full : bool }.

(** What the untyped pointers [serial_rx] and [serial_tx] point to, with the address. *)
Inductive serial_rx := RxNone | RxIsFifo (p : Z) (f : rt_serial_rx_fifo) | RxIsDma (p : Z) (activated : bool).
Inductive serial_tx := TxNone | TxIsFifo (p : Z) (completed : bool) | TxIsDma (p : Z) (activated : bool).

(** A UART driver; [-1] is no byte for [uart_getc], not sent for [uart_putc]. The
    open flags of the device are an argument of [uart_putc]. *)
Class uart_ops (L : Type) := UartOps {
  uart_configure : serial_configure -> L -> L * Z;
  uart_control : Z -> Z -> L -> L * Z;
  uart_putc : Z -> Z -> L -> L * Z;
  uart_getc : L -> L * Z;
}.

Section Serial.
Context {L : Type} `{uart_ops L}.

(** The rest of [struct rt_serial_device], the driver's state and the heap. *)
Record serial := Serial { ser_config : serial_configure; ser_rx : serial_rx; ser_tx : serial_tx; ser_low : L; ser_heap : heap }.
Abbreviation sstate := (dstate serial).
Implicit Types (s : sstate).

Definition set_rx (x : serial_rx) : sstate -> sstate := prod_map id (fun d => Serial (ser_config d) x (ser_tx d) (ser_low d) (ser_heap d)).
Definition set_tx (x : serial_tx) : sstate -> sstate := prod_map id (fun d => Serial (ser_config d) (ser_rx d) x (ser_low d) (ser_heap d)).
Definition set_low (x : L) : sstate -> sstate := prod_map id (fun d => Serial (ser_config d) (ser_rx d) (ser_tx d) x (ser_heap d)).
Definition set_heap (x : heap) : sstate -> sstate := prod_map id (fun d => Serial (ser_config d) (ser_rx d) (ser_tx d) (ser_low d) x).
Definition set_config (x : serial_configure) : sstate -> sstate := prod_map id (fun d => Serial x (ser_rx d) (ser_tx d) (ser_low d) (ser_heap d)).

Definition bufsz_of s : nat := bufsz (ser_config s.2).
Definition open_flag_of s : Z := dev_open_flag s.1.

(** Following the pointers under the type the code casts them to. *)
Definition rx_fifo s : option rt_serial_rx_fifo := match ser_rx s.2 with RxIsFifo _ f => Some f | _ => None end.
Definition put_fifo (f : rt_serial_rx_fifo) s : sstate := match ser_rx s.2 with RxIsFifo p _ => set_rx (RxIsFifo p f) s | _ => s end.

Definition next_index (n i : nat) : nat := if (n <=? S i)%nat then 0%nat else S i.

(** ** Polling *)

Fixpoint _serial_poll_rx (length : nat) (l : L) : L * list Z :=
  match length with
  | O => (l, [])
  | S length =>
      let '(l, ch) := uart_getc l in
      if ch =? -1 then (l, [])
      else if ch =? 10 then (l, [ch])
      else let '(l, data) := _serial_poll_rx length l in (l, ch :: data)
  end.

Definition putc_ (open_flag ch : Z) (l : L) : L := fst (uart_putc open_flag ch l).

Fixpoint _serial_poll_tx (open_flag : Z) (data : list Z) (l : L) : L :=
  match data with
  | [] => l
  | c :: data =>
      let l := if (c =? 10) && has open_flag RT_DEVICE_FLAG_STREAM then putc_ open_flag 13 l else l in
      _serial_poll_tx open_flag data (putc_ open_flag c l)
  end.

(** ** Interrupt mode *)

(** One byte out of the software FIFO. *)
Definition fifo_get (n : nat) (f : rt_serial_rx_fifo) : option (rt_serial_rx_fifo * option Z) :=
  if (get_index f =? put_index f)%nat && negb (is_full f) then Some (f, None)
  else
    ch ← buffer f !! get_index f;
    Some (RxFifo (buffer f) (put_index f) (next_index n (get_index f)) false, Some (Z.land ch 255)).

Fixpoint int_rx_loop (n length : nat) (f : rt_serial_rx_fifo) : option (rt_serial_rx_fifo * list Z) :=
  match length with
  | O => Some (f, [])
  | S length =>
      '(f, ch) ← fifo_get n f;
      match ch with
      | None => Some (f, [])
      | Some ch => '(f, data) ← int_rx_loop n length f; Some (f, ch :: data)
      end
  end.
Definition _serial_int_rx (length : nat) s : option (sstate * list Z) :=
  f ← rx_fifo s; '(f, data) ← int_rx_loop (bufsz_of s) length f; Some (put_fifo f s, data).

(** [wait]: what happens to the driver until the completion wakes the thread;
    [fuel] bounds the attempts. *)
Fixpoint _serial_int_tx (fuel : nat) (wait : L -> L) (open_flag : Z) (data : list Z) (l : L) : option L :=
  match fuel, data with
  | _, [] => Some l
  | O, _ => None
  | S fuel, c :: rest =>
      let '(l, r) := uart_putc open_flag c l in
      if r =? -1 then _serial_int_tx fuel wait open_flag data (wait l)
      else _serial_int_tx fuel wait open_flag rest l
  end.

(** ** DMA reception into the software FIFO *)

Definition _serial_fifo_calc_recved_len (n : nat) (f : rt_serial_rx_fifo) : nat :=
  if (put_index f =? get_index f)%nat then if is_full f then n else 0
  else if (get_index f <? put_index f)%nat then put_index f - get_index f
  else n - (get_index f - put_index f).

(** An index of the FIFO, a 16-bit number: [index += len] wraps before it is compared. *)
Definition index16 (i : nat) : nat := Z.to_nat (u16 (Z.of_nat i)).

Definition rt_dma_recv_update_get_index (n len : nat) (f : rt_serial_rx_fifo) : rt_serial_rx_fifo :=
  let full := if is_full f && negb (len =? 0)%nat then false else is_full f in
  let get := index16 (get_index f + len) in
  RxFifo (buffer f) (put_index f) (if (n <=? get)%nat then get mod n else get) full.

Definition rt_dma_recv_update_put_index (n len : nat) (f : rt_serial_rx_fifo) : rt_serial_rx_fifo :=
  let put := index16 (put_index f + len) in
  let '(put, full) :=
    if (get_index f <=? put_index f)%nat then
      if (n <=? put)%nat then
        let put := (put mod n)%nat in (put, if (get_index f <=? put)%nat then true else is_full f)
      else (put, is_full f)
    else if (get_index f <=? put)%nat then ((if (n <=? put)%nat then put mod n else put)%nat, true)
    else (put, is_full f) in
  let get := if full then put else get_index f in
  RxFifo (buffer f) put (if (n <=? get)%nat then 0 else get) full.

(** Without a software FIFO ([bufsz] 0) the transfer goes on after the return;
    the [errno] of a busy device is left out. *)
Definition _serial_dma_rx (length : nat) s : option (sstate * (nat * list Z)) :=
  let n := bufsz_of s in
  if (n =? 0)%nat then
    match ser_rx s.2 with
    | RxIsDma p true => Some (s, (0%nat, []))
    | RxIsDma p false => Some (set_rx (RxIsDma p true) s, (length, []))
    | _ => None
    end
  else
    f ← rx_fifo s;
    let recved := _serial_fifo_calc_recved_len n f in
    let recv_len := if (length <? recved)%nat then length else recved in
    let data :=
      if (get_index f + recv_len <? n)%nat then take recv_len (drop (get_index f) (buffer f))
      else take (n - get_index f) (drop (get_index f) (buffer f)) ++ take (recv_len + get_index f - n) (buffer f) in
    Some (put_fifo (rt_dma_recv_update_get_index n recv_len f) s, (recv_len, data)).

(** ** The handlers of the device interface *)

Definition rt_serial_init s : option (sstate * Z) :=
  let s := set_tx TxNone (set_rx RxNone s) in
  let '(l, result) := uart_configure (ser_config s.2) (ser_low s.2) in
  Some (set_low l s, result).

(** The calls of the driver's control handler: command and argument. *)
Definition low_control (cmd arg : Z) s : sstate := set_low (fst (uart_control cmd arg (ser_low s.2))) s.

Definition add_open_flag (m : Z) : sstate -> sstate := dev_of (fun d => set_open_flag (Z.lor (dev_open_flag d) m) d).
Definition del_open_flag (m : Z) : sstate -> sstate := dev_of (fun d => set_open_flag (Z.ldiff (dev_open_flag d) m) d).

(** [rt_malloc] and a write through the result. *)
Definition alloc (size : Z) s : option (sstate * Z) :=
  '(h, p) ← rt_malloc size (ser_heap s.2); p ← p; Some (set_heap h s, p).
Definition release (p : Z) s : option sstate := h ← rt_free p (ser_heap s.2); Some (set_heap h s).

Definition new_fifo (n : nat) : rt_serial_rx_fifo := RxFifo (replicate n 0) 0 0 false.
Definition sizeof_rx_fifo : Z := 12.
Definition sizeof_tx_fifo : Z := 12.
Definition sizeof_rx_dma : Z := 4.

Definition open_rx (oflag : Z) s : option sstate :=
  match ser_rx s.2 with
  | RxNone =>
      if has oflag RT_DEVICE_FLAG_INT_RX then
        '(s, p) ← alloc (sizeof_rx_fifo + Z.of_nat (bufsz_of s)) s;
        let s := add_open_flag RT_DEVICE_FLAG_INT_RX (set_rx (RxIsFifo p (new_fifo (bufsz_of s))) s) in
        Some (low_control RT_DEVICE_CTRL_SET_INT RT_DEVICE_FLAG_INT_RX s)
      else if has oflag RT_DEVICE_FLAG_DMA_RX then
        s ← (if (bufsz_of s =? 0)%nat then
               '(s, p) ← alloc sizeof_rx_dma s; Some (set_rx (RxIsDma p false) s)
             else
               '(s, p) ← alloc (sizeof_rx_fifo + Z.of_nat (bufsz_of s)) s;
               let s := set_rx (RxIsFifo p (new_fifo (bufsz_of s))) s in
               Some (low_control RT_DEVICE_CTRL_CONFIG RT_DEVICE_FLAG_DMA_RX s));
        Some (add_open_flag RT_DEVICE_FLAG_DMA_RX s)
      else Some s
  | _ =>
      if has oflag RT_DEVICE_FLAG_INT_RX then Some (add_open_flag RT_DEVICE_FLAG_INT_RX s)
      else if has oflag RT_DEVICE_FLAG_DMA_RX then Some (add_open_flag RT_DEVICE_FLAG_DMA_RX s)
      else Some s
  end.

(** [sizeof_tx_dma]: the data queue of a DMA transmission. *)
Definition open_tx (sizeof_tx_dma oflag : Z) s : option sstate :=
  match ser_tx s.2 with
  | TxNone =>
      if has oflag RT_DEVICE_FLAG_INT_TX then
        '(s, p) ← alloc sizeof_tx_fifo s;
        let s := add_open_flag RT_DEVICE_FLAG_INT_TX (set_tx (TxIsFifo p false) s) in
        Some (low_control RT_DEVICE_CTRL_SET_INT RT_DEVICE_FLAG_INT_TX s)
      else if has oflag RT_DEVICE_FLAG_DMA_TX then
        '(s, p) ← alloc sizeof_tx_dma s; Some (add_open_flag RT_DEVICE_FLAG_DMA_TX (set_tx (TxIsDma p false) s))
      else Some s
  | _ =>
      if has oflag RT_DEVICE_FLAG_INT_TX then Some (add_open_flag RT_DEVICE_FLAG_INT_TX s)
      else if has oflag RT_DEVICE_FLAG_DMA_TX then Some (add_open_flag RT_DEVICE_FLAG_DMA_TX s)
      else Some s
  end.

(** The open flags are those of the last open: modes and low byte; only the stream
    flag is kept. *)
Definition rt_serial_open (sizeof_tx_dma oflag : Z) s : option (sstate * Z) :=
  let refuse := fun m => has oflag m && negb (has (dev_flag s.1) m) in
  if refuse RT_DEVICE_FLAG_DMA_RX || refuse RT_DEVICE_FLAG_DMA_TX || refuse RT_DEVICE_FLAG_INT_RX || refuse RT_DEVICE_FLAG_INT_TX
  then Some (s, - RT_EIO)
  else
    let stream_flag :=
      if has oflag RT_DEVICE_FLAG_STREAM || has (open_flag_of s) RT_DEVICE_FLAG_STREAM then RT_DEVICE_FLAG_STREAM else 0 in
    s ← open_rx oflag (dev_of (set_open_flag (Z.land oflag 255)) s);
    s ← open_tx sizeof_tx_dma oflag s;
    Some (add_open_flag stream_flag s, RT_EOK).

(** Freeing what [serial_rx] points to, under the cast of each branch. *)
Definition close_rx s : option sstate :=
  if has (open_flag_of s) RT_DEVICE_FLAG_INT_RX then
    match ser_rx s.2 with
    | RxIsFifo p _ =>
        s ← release p s;
        Some (low_control RT_DEVICE_CTRL_CLR_INT RT_DEVICE_FLAG_INT_RX (del_open_flag RT_DEVICE_FLAG_INT_RX (set_rx RxNone s)))
    | _ => None
    end
  else if has (open_flag_of s) RT_DEVICE_FLAG_DMA_RX then
    s ← match ser_rx s.2 with
        | RxIsDma p _ => if (bufsz_of s =? 0)%nat then release p s else None
        | RxIsFifo p _ => if (bufsz_of s =? 0)%nat then None else release p s
        | RxNone => None
        end;
    Some (del_open_flag RT_DEVICE_FLAG_DMA_RX (set_rx RxNone (low_control RT_DEVICE_CTRL_CLR_INT RT_DEVICE_FLAG_DMA_RX s)))
  else Some s.

Definition close_tx s : option sstate :=
  if has (open_flag_of s) RT_DEVICE_FLAG_INT_TX then
    match ser_tx s.2 with
    | TxIsFifo p _ =>
        s ← release p s;
        Some (low_control RT_DEVICE_CTRL_CLR_INT RT_DEVICE_FLAG_INT_TX (del_open_flag RT_DEVICE_FLAG_INT_TX (set_tx TxNone s)))
    | _ => None
    end
  else if has (open_flag_of s) RT_DEVICE_FLAG_DMA_TX then
    match ser_tx s.2 with
    | TxIsDma p _ => s ← release p s; Some (del_open_flag RT_DEVICE_FLAG_DMA_TX (set_tx TxNone s))
    | _ => None
    end
  else Some s.

Definition rt_serial_close s : option (sstate * Z) :=
  if 1 <? dev_ref_count s.1 then Some (s, RT_EOK)
  else s ← close_rx s; s ← close_tx s; Some (s, RT_EOK).

Definition rt_serial_read (size : nat) s : option (sstate * (nat * list Z)) :=
  if (size =? 0)%nat then Some (s, (0%nat, []))
  else if has (open_flag_of s) RT_DEVICE_FLAG_INT_RX then
    '(s, data) ← _serial_int_rx size s; Some (s, (length data, data))
  else if has (open_flag_of s) RT_DEVICE_FLAG_DMA_RX then _serial_dma_rx size s
  else let '(l, data) := _serial_poll_rx size (ser_low s.2) in Some (set_low l s, (length data, data)).

(** [dma_tx]: the transmission by DMA. *)
Definition rt_serial_write (dma_tx : list Z -> sstate -> option (sstate * nat)) (fuel : nat) (wait : L -> L) (data : list Z) s : option (sstate * nat) :=
  if (length data =? 0)%nat then Some (s, 0%nat)
  else if has (open_flag_of s) RT_DEVICE_FLAG_INT_TX then
    match ser_tx s.2 with
    | TxIsFifo _ _ => l ← _serial_int_tx fuel wait (open_flag_of s) data (ser_low s.2); Some (set_low l s, length data)
    | _ => None
    end
  else if has (open_flag_of s) RT_DEVICE_FLAG_DMA_TX then dma_tx data s
  else Some (set_low (_serial_poll_tx (open_flag_of s) data (ser_low s.2)) s, length data).

Inductive control_arg := ArgConfig (c : option serial_configure) | ArgZ (x : Z).

(** [RT_EBUSY] is returned positive. *)
Definition rt_serial_control (cmd : Z) (arg : control_arg) s : sstate * Z :=
  if cmd =? RT_DEVICE_CTRL_SUSPEND then (dev_of (fun d => set_flag (Z.lor (dev_flag d) RT_DEVICE_FLAG_SUSPENDED) d) s, RT_EOK)
  else if cmd =? RT_DEVICE_CTRL_RESUME then (dev_of (fun d => set_flag (Z.ldiff (dev_flag d) RT_DEVICE_FLAG_SUSPENDED) d) s, RT_EOK)
  else if cmd =? RT_DEVICE_CTRL_CONFIG then
    match arg with
    | ArgConfig (Some c) =>
        let used := negb (dev_ref_count s.1 =? 0) in
        if negb (bufsz c =? bufsz_of s)%nat && used then (s, RT_EBUSY)
        else
          let s := set_config c s in
          (if used then set_low (fst (uart_configure c (ser_low s.2))) s else s, RT_EOK)
    | _ => (s, RT_EOK)
    end
  else
    let '(l, ret) := uart_control cmd (match arg with ArgZ x => x | ArgConfig _ => 0 end) (ser_low s.2) in
    (set_low l s, ret).

(** ** The interrupt routine *)

Inductive serial_event := RT_SERIAL_EVENT_RX_IND | RT_SERIAL_EVENT_TX_DONE | RT_SERIAL_EVENT_RX_DMADONE (length : nat).

(** One received byte into the FIFO: the oldest byte is dropped when it is full. *)
Definition fifo_put (n : nat) (ch : Z) (f : rt_serial_rx_fifo) : option rt_serial_rx_fifo :=
  if (put_index f <? length (buffer f))%nat then
    let put := next_index n (put_index f) in
    let buf := <[put_index f := u8 ch]> (buffer f) in
    Some (if (put =? get_index f)%nat then RxFifo buf put (next_index n (get_index f)) true
          else RxFifo buf put (get_index f) (is_full f))
  else None.

(** [fuel] bounds the bytes the driver gives. *)
Fixpoint rx_ind_loop (fuel n : nat) (l : L) (f : rt_serial_rx_fifo) : option (L * rt_serial_rx_fifo) :=
  match fuel with
  | O => None
  | S fuel =>
      let '(l, ch) := uart_getc l in
      if ch =? -1 then Some (l, f) else f ← fifo_put n ch f; rx_ind_loop fuel n l f
  end.

Definition rx_length (n : nat) (f : rt_serial_rx_fifo) : nat :=
  if (get_index f <=? put_index f)%nat then put_index f - get_index f else n - (get_index f - put_index f).

(** The size the receive callback is called with, when it is called. *)
Definition rt_hw_serial_isr (fuel : nat) (event : serial_event) s : option (sstate * option nat) :=
  match event with
  | RT_SERIAL_EVENT_RX_IND =>
      f ← rx_fifo s;
      '(l, f) ← rx_ind_loop fuel (bufsz_of s) (ser_low s.2) f;
      let n := rx_length (bufsz_of s) f in
      Some (put_fifo f (set_low l s), if dev_rx_indicate s.1 && negb (n =? 0)%nat then Some n else None)
  | RT_SERIAL_EVENT_TX_DONE =>
      match ser_tx s.2 with TxIsFifo p _ => Some (set_tx (TxIsFifo p true) s, None) | _ => None end
  | RT_SERIAL_EVENT_RX_DMADONE len =>
      if (bufsz_of s =? 0)%nat then
        match ser_rx s.2 with RxIsDma p _ => Some (set_rx (RxIsDma p false) s, Some len) | _ => None end
      else
        f ← rx_fifo s;
        let f := rt_dma_recv_update_put_index (bufsz_of s) len f in
        Some (put_fifo f s, if dev_rx_indicate s.1 then Some (_serial_fifo_calc_recved_len (bufsz_of s) f) else None)
  end.

(** The table of handlers. *)
Definition serial_ops (sizeof_tx_dma : Z) (dma_tx : list Z -> sstate -> option (sstate * nat)) (fuel : nat) (wait : L -> L) : device_ops serial :=
  {| op_init := Some rt_serial_init;
     op_open := Some (rt_serial_open sizeof_tx_dma);
     op_close := Some rt_serial_close;
     op_read := Some rt_serial_read;
     op_write := Some (rt_serial_write dma_tx fuel wait);
     op_control := Some (fun cmd arg s => Some (rt_serial_control cmd (ArgZ arg) s)) |}.

(** [rt_hw_serial_register]: the device of a name that is not in use. *)
Definition rt_hw_serial_register (flag : Z) s : sstate :=
  dev_of (fun d => registered flag (set_tx_complete false (set_rx_indicate false d))) s.
End Serial.
Arguments serial : clear implicits.

(** ** The software FIFO holds a queue of bytes *)

Record fifo_repr (n : nat) (f : rt_serial_rx_fifo) (q : list Z) : Prop := {
  fr_size : length (buffer f) = n;
  fr_ring : ring_repr (buffer f) (get_index f) q;
  fr_put : put_index f = ((get_index f + length q) mod n)%nat;
  fr_bytes : Forall is_u8 q;
}.
(** Filled by interrupts it keeps one cell free; filled by DMA it may be full. *)
Definition int_fifo (n : nat) (f : rt_serial_rx_fifo) (q : list Z) : Prop :=
  fifo_repr n f q /\ (length q < n)%nat /\ (is_full f = true -> q <> []).
Definition dma_fifo (n : nat) (f : rt_serial_rx_fifo) (q : list Z) : Prop :=
  fifo_repr n f q /\ (is_full f = true <-> length q = n).

Lemma fifo_cases n f q : fifo_repr n f q -> (length q <= n)%nat /\ (get_index f < n)%nat /\ (put_index f < n)%nat /\
  ((get_index f + length q < n /\ put_index f = get_index f + length q) \/ (n <= get_index f + length q /\ put_index f + n = get_index f + length q))%nat.
Proof.
  intros [Hs [Hl Ho _] Hp _]. rewrite Hs in *. rewrite mod_wrap in Hp by lia. case_decide; (split_and!; [lia|lia|lia|]); [left|right]; lia.
Qed.

Lemma next_index_ring n i : next_index n i = ring_next n i.
Proof. unfold next_index, ring_next. destruct (Nat.leb_spec n (S i)); case_decide; lia. Qed.

Lemma new_fifo_repr n : (0 < n)%nat -> fifo_repr n (new_fifo n) [] /\ int_fifo n (new_fifo n) [] /\ dma_fifo n (new_fifo n) [].
Proof.
  intros Hn. assert (fifo_repr n (new_fifo n) []) as Hr.
  { split; simpl; [by rewrite length_replicate|apply ring_empty; by rewrite length_replicate|by rewrite Nat.mod_small|done]. }
  split; [done|]. split; (split; [done|]); simpl; [split; [lia|done]|split; [done|lia]].
Qed.

Lemma byte_land c : is_u8 c -> Z.land c 255 = c.
Proof. intros Hc. change 255 with (Z.ones 8). rewrite Z.land_ones by lia. by apply Z.mod_small. Qed.

Lemma fifo_put_int n ch f q : int_fifo n f q -> (2 <= n)%nat -> is_u8 ch ->
  exists f', fifo_put n ch f = Some f' /\ int_fifo n f' (last_bytes (n - 1) (q ++ [ch])).
Proof.
  intros [Hr [Hl Hf]] Hn Hc. destruct (fifo_cases _ _ _ Hr) as (_&Hg&Hp&_). destruct Hr as [Hs Hq Hw Hb].
  unfold fifo_put. rewrite Hs, (proj2 (Nat.ltb_lt _ _) Hp), (u8_small ch Hc), next_index_ring.
  pose proof (ring_push _ _ _ ch Hq ltac:(lia)) as Hpush. rewrite Hs, <-Hw in Hpush.
  assert (ring_next n (put_index f) = ((get_index f + S (length q)) mod n)%nat) as Hnext by (rewrite Hw; by apply ring_in_next).
  assert (Forall is_u8 (q ++ [ch])) as Hb' by (apply Forall_app_2; [done|by constructor]).
  assert (length (q ++ [ch]) = S (length q)) as El by (rewrite length_app; simpl; lia).
  eexists. split; [done|]. rewrite Hnext, mod_wrap by lia.
  destruct (decide (length q = (n - 1)%nat)) as [E|E].
  - assert (exists v q', q ++ [ch] = v :: q') as (v & q' & Ev) by (destruct q; simpl; eauto).
    rewrite Ev in Hpush, El |- *. simpl in El. apply ring_pop in Hpush as [_ Hpop]. rewrite length_insert, Hs in Hpop.
    replace (last_bytes (n - 1) (v :: q')) with q' by (unfold last_bytes; simpl length; by replace (S (length q') - (n - 1))%nat with 1%nat by lia).
    rewrite (proj2 (Nat.eqb_eq _ _)) by (case_decide; lia). rewrite next_index_ring.
    split; [|simpl; split; [lia|intros _ ->; simpl in *; lia]].
    split; simpl; [by rewrite length_insert|done| |rewrite Ev in Hb'; by inversion Hb'].
    unfold ring_next. repeat case_decide; rewrite ?Nat.mod_small by lia; lia || (rewrite mod_wrap by lia; case_decide; lia).
  - rewrite last_bytes_all by lia. rewrite (proj2 (Nat.eqb_neq _ _)) by (case_decide; lia).
    split; [|simpl; split; [lia|by destruct q]].
    split; simpl; [by rewrite length_insert|done| |done]. rewrite El, mod_wrap by lia. done.
Qed.

Lemma fifo_get_int n f q : int_fifo n f q ->
  match q with
  | [] => fifo_get n f = Some (f, None)
  | c :: q' => exists f', fifo_get n f = Some (f', Some c) /\ int_fifo n f' q'
  end.
Proof.
  intros [Hr [Hl Hf]]. destruct (fifo_cases _ _ _ Hr) as (_&Hg&Hp&Hc). pose proof Hr as [Hs Hq Hw Hb]. unfold fifo_get. destruct q as [|c q].
  - simpl in Hc. rewrite (proj2 (Nat.eqb_eq _ _)) by lia. destruct (is_full f); [by destruct Hf|done].
  - simpl in Hc, Hl. rewrite (proj2 (Nat.eqb_neq _ _)) by lia. simpl. destruct (ring_pop _ _ _ _ Hq) as [-> Hpop]. simpl.
    apply Forall_cons in Hb as [Hcb Hb]. rewrite (byte_land _ Hcb). eexists. split; [done|]. rewrite next_index_ring. rewrite Hs in Hpop.
    split; [split; simpl; [done|done| |done]|simpl; split; [lia|done]].
    rewrite Hw. simpl. rewrite ring_next_mod by lia. done.
Qed.

Lemma int_rx_loop_spec n k : forall f q, int_fifo n f q ->
  exists f', int_rx_loop n k f = Some (f', take k q) /\ int_fifo n f' (drop k q).
Proof.
  induction k as [|k IH]; intros f q Hi; simpl; [by exists f|].
  pose proof (fifo_get_int n f q Hi) as Hg. destruct q as [|c q].
  - rewrite Hg. simpl. by exists f.
  - destruct Hg as (f1&->&Hi1). simpl. destruct (IH f1 q Hi1) as (f2&->&Hi2). simpl. by exists f2.
Qed.

Lemma rx_length_int n f q : int_fifo n f q -> rx_length n f = length q.
Proof.
  intros [Hr [Hl _]]. destruct (fifo_cases _ _ _ Hr) as (_&_&_&Hc). unfold rx_length.
  destruct (Nat.leb_spec (get_index f) (put_index f)); lia.
Qed.

(** What the framework relies on in a UART driver: [uart_holds l q], the driver has
    received [q], and [uart_getc] gives its bytes in order. *)
Class uart_receiver (L : Type) `{uart_ops L} := {
  uart_holds : L -> list Z -> Prop;
  uart_getc_none : forall l, uart_holds l [] -> exists l', uart_getc l = (l', -1) /\ uart_holds l' [];
  uart_getc_byte : forall l c q, uart_holds l (c :: q) -> is_u8 c /\ exists l', uart_getc l = (l', c) /\ uart_holds l' q;
}.

Section Receive.
Context {L : Type} `{uart_receiver L}.
Implicit Types (l : L) (s : dstate (serial L)).

Lemma rx_ind_loop_spec n : (2 <= n)%nat -> forall p fuel l f q,
  uart_holds l p -> int_fifo n f q -> (length p < fuel)%nat ->
  exists l' f', rx_ind_loop fuel n l f = Some (l', f') /\ uart_holds l' [] /\ int_fifo n f' (last_bytes (n - 1) (q ++ p)).
Proof.
  intros Hn p. induction p as [|c p IH]; intros [|fuel] l f q Hp Hf Hfuel; simpl in Hfuel; try lia.
  - destruct (uart_getc_none l Hp) as (l'&E&Hl'). simpl. rewrite E. simpl. exists l', f.
    rewrite app_nil_r, last_bytes_all; [done|]. destruct Hf as [_ [? _]]. lia.
  - destruct (uart_getc_byte l c p Hp) as (Hc&l'&E&Hl'). simpl. rewrite E.
    destruct (Z.eqb_spec c (-1)); [unfold is_u8 in Hc; lia|].
    destruct (fifo_put_int n c f q Hf Hn Hc) as (f'&->&Hf'). simpl.
    destruct (IH fuel l' f' _ Hl' Hf') as (l2&f2&->&Hl2&Hf2); [lia|].
    exists l2, f2. rewrite last_bytes_app, <-app_assoc in Hf2. done.
Qed.

(** A device receiving by interrupts, with [q] in its FIFO and [p] in the driver. *)
Definition receives (s : dstate (serial L)) (q p : list Z) : Prop :=
  (2 <= bufsz_of s)%nat /\ uart_holds (ser_low s.2) p /\ exists a f, ser_rx s.2 = RxIsFifo a f /\ int_fifo (bufsz_of s) f q.

Lemma rx_fifo_eq s a f : ser_rx s.2 = RxIsFifo a f -> rx_fifo s = Some f.
Proof. unfold rx_fifo. by intros ->. Qed.

Lemma isr_receives fuel s q p : receives s q p -> (length p < fuel)%nat ->
  let q' := last_bytes (bufsz_of s - 1) (q ++ p) in
  exists s', rt_hw_serial_isr fuel RT_SERIAL_EVENT_RX_IND s =
      Some (s', if dev_rx_indicate s.1 && negb (length q' =? 0)%nat then Some (length q') else None) /\
    receives s' q' [] /\ s'.1 = s.1 /\ ser_tx s'.2 = ser_tx s.2 /\ ser_config s'.2 = ser_config s.2.
Proof.
  intros (Hn&Hp&a&f&Ea&Hf) Hfuel q'. unfold rt_hw_serial_isr. rewrite (rx_fifo_eq _ _ _ Ea). simpl.
  destruct (rx_ind_loop_spec _ Hn p fuel _ f q Hp Hf Hfuel) as (l'&f'&->&Hl'&Hf'). simpl.
  rewrite (rx_length_int _ _ _ Hf'). eexists. split; [done|]. destruct s as [d s], s as [c r t l h]. simpl in *. subst r.
  unfold put_fifo. simpl. split; [|done]. split; [done|]. split; [done|]. exists a, f'. done.
Qed.

Lemma int_rx_receives k s q p : receives s q p -> exists s', _serial_int_rx k s = Some (s', take k q) /\ receives s' (drop k q) p /\
  s'.1 = s.1 /\ ser_tx s'.2 = ser_tx s.2 /\ ser_config s'.2 = ser_config s.2.
Proof.
  intros (Hn&Hp&a&f&Ea&Hf). unfold _serial_int_rx. rewrite (rx_fifo_eq _ _ _ Ea). simpl.
  destruct (int_rx_loop_spec _ k f q Hf) as (f'&->&Hf'). simpl. eexists. split; [done|].
  destruct s as [d s], s as [c r t l h]. simpl in *. subst r. unfold put_fifo. simpl. split; [|done]. split; [done|]. split; [done|]. by exists a, f'.
Qed.
End Receive.

(** ** Reception by DMA *)

Definition with_buffer (b : list Z) (f : rt_serial_rx_fifo) : rt_serial_rx_fifo := RxFifo b (put_index f) (get_index f) (is_full f).

Lemma index16_small i : Z.of_nat i < 65536 -> index16 i = i.
Proof. intros Hi. unfold index16. rewrite u16_small by (unfold is_u16; lia). apply Nat2Z.id. Qed.

Lemma dma_recved n f q : dma_fifo n f q -> (0 < n)%nat -> _serial_fifo_calc_recved_len n f = length q.
Proof.
  intros [Hr Hf] Hn. destruct (fifo_cases _ _ _ Hr) as (?&?&?&Hc). unfold _serial_fifo_calc_recved_len.
  destruct (Nat.eqb_spec (put_index f) (get_index f)) as [E|E].
  - destruct (is_full f); [symmetry; by apply Hf|]. destruct (decide (length q = n)) as [El|El]; [by apply Hf in El|lia].
  - destruct (Nat.ltb_spec (get_index f) (put_index f)); lia.
Qed.

(** The controller has written [d] after the bytes of the FIFO. *)
Lemma dma_put_repr n f q d b : dma_fifo n f q -> (0 < n)%nat -> Z.of_nat (put_index f + length d) < 65536 -> (length d <= n)%nat -> Forall is_u8 d ->
  ring_written (buffer f) (put_index f) d b ->
  dma_fifo n (rt_dma_recv_update_put_index n (length d) (with_buffer b f)) (last_bytes n (q ++ d)).
Proof.
  intros [Hr Hf] Hn H16 Hd Hbd W. destruct (fifo_cases _ _ _ Hr) as (Hl&Hg&Hp&Hc). destruct Hr as [Hs Hq Hw Hb].
  pose proof (rw_len _ _ _ _ W) as Wl. rewrite Hw, <-Hs in W. apply (ring_write _ _ q d) in W; [|done|lia]. simpl in W.
  rewrite Hs, mod_wrap in W by lia. fold (last_bytes n (q ++ d)) in W.
  assert (last_bytes n (q ++ d) = drop (length q + length d - n) (q ++ d)) as El by (unfold last_bytes; by rewrite length_app).
  rewrite <-El in W.
  assert (length (last_bytes n (q ++ d)) = Nat.min n (length q + length d)) as Hlen by (rewrite last_bytes_length, length_app; done).
  assert (exists f', rt_dma_recv_update_put_index n (length d) (with_buffer b f) = f' /\ buffer f' = b /\
    get_index f' = (if decide (get_index f + (length q + length d - n) < n) then get_index f + (length q + length d - n) else get_index f + (length q + length d - n) - n)%nat /\
    put_index f' = (if decide (put_index f + length d < n) then put_index f + length d else put_index f + length d - n)%nat /\
    (is_full f' = true <-> n <= length q + length d)%nat) as (f'&->&Eb&Eg&Ep&Ef).
  { eexists. split; [done|]. unfold rt_dma_recv_update_put_index. simpl. rewrite index16_small by done.
    assert (is_full f = true -> length q = n) as Hf1 by apply Hf. assert (length q = n -> is_full f = true) as Hf2 by apply Hf. clear Hf.
    assert (n <= put_index f + length d -> (put_index f + length d) mod n = put_index f + length d - n)%nat as Em
      by (intros; apply mod_wrap_ge; lia).
    destruct (is_full f) eqn:E; [specialize (Hf1 eq_refl)|assert (length q <> n) by (intros E'; by specialize (Hf2 E'))]; clear Hf2;
      (destruct (Nat.leb_spec (get_index f) (put_index f)) as [H1|H1]; destruct (Nat.leb_spec n (put_index f + length d)) as [H2|H2];
       [rewrite (Em H2); destruct (Nat.leb_spec (get_index f) (put_index f + length d - n))
       | |rewrite (Em H2), (proj2 (Nat.leb_le (get_index f) (put_index f + length d))) by lia
       |destruct (Nat.leb_spec (get_index f) (put_index f + length d))]); simpl; try lia;
      rewrite (proj2 (Nat.leb_gt n _)) by lia;
      (split_and!; [done|repeat case_decide; lia|repeat case_decide; lia|split; [lia || done|done || lia]]). }
  split.
  - split; [by rewrite Eb, Wl|by rewrite Eb, Eg| |].
    + rewrite Hlen, Eg, Ep. repeat case_decide; rewrite mod_wrap by lia; case_decide; lia.
    + apply last_bytes_Forall. by apply Forall_app_2.
  - rewrite Hlen, Ef. lia.
Qed.

Lemma dma_get_repr n f q k : dma_fifo n f q -> (0 < n)%nat -> Z.of_nat n <= 32768 -> (k <= length q)%nat ->
  dma_fifo n (rt_dma_recv_update_get_index n k f) (drop k q).
Proof.
  intros [Hr Hf] Hn H16 Hk. destruct (fifo_cases _ _ _ Hr) as (Hl&Hg&Hp&Hc). destruct Hr as [Hs Hq Hw Hb].
  pose proof (ring_drop _ _ _ k Hq Hk) as Hd. rewrite Hs, mod_wrap in Hd by lia.
  assert (get_index (rt_dma_recv_update_get_index n k f) = (if decide (get_index f + k < n) then get_index f + k else get_index f + k - n)%nat) as Eg.
  { simpl. rewrite index16_small by lia. destruct (Nat.leb_spec n (get_index f + k)); [by rewrite mod_wrap by lia|by rewrite decide_True by lia]. }
  split; [split; [done|by rewrite Eg| |by apply Forall_drop]|].
  - rewrite Eg, length_drop. change (put_index (rt_dma_recv_update_get_index n k f)) with (put_index f).
    case_decide; rewrite mod_wrap by lia; case_decide; lia.
  - simpl. rewrite length_drop. destruct (Nat.eqb_spec k 0) as [->|Ek]; simpl.
    + rewrite andb_false_r, Nat.sub_0_r. done.
    + rewrite andb_true_r. destruct (is_full f); (split; [done|lia]).
Qed.

(** The bytes [_serial_dma_rx] copies. *)
Lemma dma_copied n f q k : fifo_repr n f q -> (k <= length q)%nat ->
  (if (get_index f + k <? n)%nat then take k (drop (get_index f) (buffer f))
   else take (n - get_index f) (drop (get_index f) (buffer f)) ++ take (k + get_index f - n) (buffer f)) = take k q.
Proof.
  intros Hr Hk. destruct (fifo_cases _ _ _ Hr) as (Hl&Hg&Hp&Hc). destruct Hr as [Hs Hq Hw Hb]. subst n.
  by apply ring_copied.
Qed.
