(* ===== verification/SerialSafe.v ===== *)
(** * Serial devices keep their types and their memory

    [serial_rx] and [serial_tx] are untyped pointers: which structure they point
    to follows from the open flags. Whatever opens, closes, reads, writes and
    interrupts happen, every cast is right, every access is inside its buffer and
    every area of the heap is freed once. *)

From S2P Require Import Prelude Kernel Ring Mem MemSpec Device Serial.

#[local] Arguments client_inv : simpl never.

Section Safe.
Context {L : Type} `{uart_receiver L}.
Abbreviation sstate := (dstate (serial L)).
Implicit Types (s : sstate) (rest : list (Z * Z)).

(** Indices inside a buffer of [n] bytes. *)
Definition fifo_shape (n : nat) (f : rt_serial_rx_fifo) : Prop :=
  length (buffer f) = n /\ (put_index f < n)%nat /\ (get_index f < n)%nat.

Definition rx_area (s : sstate) : list (Z * Z) :=
  match ser_rx s.2 with RxIsFifo p _ => [(p, sizeof_rx_fifo + Z.of_nat (bufsz_of s))] | _ => [] end.
Definition tx_area (s : sstate) : list (Z * Z) := match ser_tx s.2 with TxIsFifo p _ => [(p, sizeof_tx_fifo)] | _ => [] end.

Definition rx_typed (n : nat) (r : serial_rx) : Prop :=
  match r with RxNone => True | RxIsFifo _ f => fifo_shape n f | RxIsDma _ _ => False end.
Definition tx_typed (t : serial_tx) : Prop := match t with TxIsDma _ _ => False | _ => True end.

(** [rest]: the other areas in use. The device does not transmit by DMA and has a
    buffer size that was configured before its first open. *)
Record serial_typed (rest : list (Z * Z)) (s : sstate) : Prop := {
  st_bufsz : (2 <= bufsz_of s)%nat /\ Z.of_nat (bufsz_of s) <= 65535;
  st_modes : has (dev_flag s.1) RT_DEVICE_FLAG_DMA_TX = false;
  st_rx : rx_typed (bufsz_of s) (ser_rx s.2);
  st_tx : tx_typed (ser_tx s.2);
  st_rx_flag : has (open_flag_of s) RT_DEVICE_FLAG_INT_RX || has (open_flag_of s) RT_DEVICE_FLAG_DMA_RX = true -> ser_rx s.2 <> RxNone;
  st_tx_flag : has (open_flag_of s) RT_DEVICE_FLAG_INT_TX = true -> ser_tx s.2 <> TxNone;
  st_no_dma : has (open_flag_of s) RT_DEVICE_FLAG_DMA_TX = false;
  st_new : has (dev_flag s.1) RT_DEVICE_FLAG_ACTIVATED = false -> dev_ref_count s.1 = 0 /\ ser_rx s.2 = RxNone /\ ser_tx s.2 = TxNone;
  st_heap : client_inv (ser_heap s.2, tx_area s ++ rx_area s ++ rest);
}.

(** *** FIFO steps stay inside the buffer *)

Lemma next_index_lt n i : (0 < n)%nat -> (next_index n i < n)%nat.
Proof. rewrite next_index_ring. apply ring_next_lt. Qed.

Lemma fifo_put_shape n c f : fifo_shape n f -> exists f', fifo_put n c f = Some f' /\ fifo_shape n f'.
Proof.
  intros (Hb&Hp&Hg). unfold fifo_put. rewrite Hb, (proj2 (Nat.ltb_lt _ _) Hp). eexists. split; [done|].
  pose proof (next_index_lt n (put_index f) ltac:(lia)). pose proof (next_index_lt n (get_index f) ltac:(lia)).
  case_match; unfold fifo_shape; simpl; rewrite length_insert; split_and!; done.
Qed.

Lemma int_rx_shape n k : forall f, fifo_shape n f -> exists f' d, int_rx_loop n k f = Some (f', d) /\ fifo_shape n f'.
Proof.
  induction k as [|k IH]; intros f Hf; simpl; [eauto|]. destruct Hf as (Hb&Hp&Hg). unfold fifo_get.
  case_match; simpl; [exists f, []; unfold fifo_shape; done|].
  destruct (lookup_lt_is_Some_2 (buffer f) (get_index f)) as [c ->]; [lia|]. simpl.
  destruct (IH (RxFifo (buffer f) (put_index f) (next_index n (get_index f)) false)) as (f'&d&->&Hf').
  - unfold fifo_shape. simpl. split_and!; [done|done|apply next_index_lt; lia].
  - simpl. eauto.
Qed.

Lemma rx_ind_shape n : forall p fuel (l : L) f, uart_holds l p -> fifo_shape n f -> (length p < fuel)%nat ->
  exists l' f', rx_ind_loop fuel n l f = Some (l', f') /\ fifo_shape n f'.
Proof.
  intros p. induction p as [|c p IH]; intros [|fuel] l f Hp Hf Hfuel; simpl in Hfuel; try lia.
  - destruct (uart_getc_none l Hp) as (l'&E&_). simpl. rewrite E. simpl. eauto.
  - destruct (uart_getc_byte l c p Hp) as (Hc&l'&E&Hl'). simpl. rewrite E.
    destruct (Z.eqb_spec c (-1)); [unfold is_u8 in Hc; lia|].
    destruct (fifo_put_shape n c f Hf) as (f'&->&Hf'). simpl. apply (IH fuel); [done|done|lia].
Qed.

Lemma mod_index n a : (0 < n)%nat -> ((if (n <=? a)%nat then a mod n else a) < n)%nat.
Proof. intros Hn. destruct (Nat.leb_spec n a); [|lia]. apply Nat.mod_upper_bound. lia. Qed.

Lemma dma_get_shape n k f : fifo_shape n f -> fifo_shape n (rt_dma_recv_update_get_index n k f).
Proof. intros (Hb&Hp&Hg). unfold fifo_shape. simpl. split_and!; [done|done|apply mod_index; lia]. Qed.

Lemma dma_put_shape n k f : fifo_shape n f -> fifo_shape n (rt_dma_recv_update_put_index n k f).
Proof.
  intros (Hb&Hp&Hg). unfold rt_dma_recv_update_put_index.
  assert (forall put (full : bool), (put < n)%nat -> fifo_shape n (let get := if full then put else get_index f in
    RxFifo (buffer f) put (if (n <=? get)%nat then 0 else get) full)) as Hfin.
  { intros put full Hput. unfold fifo_shape. simpl. split_and!; [done|done|]. destruct full; case_match eqn:E; try lia;
      apply Nat.leb_gt in E; lia. }
  set (i := index16 (put_index f + k)).
  pose proof (Nat.mod_upper_bound i n ltac:(lia)).
  destruct (Nat.leb_spec (get_index f) (put_index f)).
  - destruct (Nat.leb_spec n i).
    + by apply (Hfin (i mod n)%nat (if (get_index f <=? i mod n)%nat then true else is_full f)).
    + by apply (Hfin i%nat (is_full f)).
  - destruct (Nat.leb_spec (get_index f) i).
    + apply (Hfin (if (n <=? i)%nat then i mod n else i)%nat true). apply mod_index. lia.
    + apply (Hfin i%nat (is_full f)). lia.
Qed.

(** *** The heap *)

Lemma alloc_cases size s A : client_inv (ser_heap s.2, A) -> 0 < size <= 4294967292 ->
  match alloc size s with
  | Some (s', p) => exists h', s' = set_heap h' s /\ client_inv (h', (p, size) :: A)
  | None => exists h', rt_malloc size (ser_heap s.2) = Some (h', None)
  end.
Proof.
  intros Hinv Hsz. destruct (client_malloc_returns _ _ size Hinv ltac:(lia)) as (h'&[p|]&E&Hinv'); unfold alloc; rewrite E; simpl; eauto.
Qed.

Lemma release_ok p n s A : client_inv (ser_heap s.2, (p, n) :: A) ->
  exists h', release p s = Some (set_heap h' s) /\ client_inv (h', A).
Proof.
  intros Hinv. destruct (client_free_inv _ _ A p n Hinv ltac:(done)) as (h'&E&Hinv'). unfold release. rewrite E. simpl. eauto.
Qed.

(** *** Opening *)

(** Between the two parts of [rt_serial_open]: what holds whatever the open flags are. *)
Record serial_core (rest : list (Z * Z)) (s : sstate) : Prop := {
  sc_bufsz : (2 <= bufsz_of s)%nat /\ Z.of_nat (bufsz_of s) <= 65535;
  sc_rx : rx_typed (bufsz_of s) (ser_rx s.2);
  sc_tx : tx_typed (ser_tx s.2);
  sc_heap : client_inv (ser_heap s.2, tx_area s ++ rx_area s ++ rest);
}.

Definition no_memory (s : sstate) : Prop := exists size h', rt_malloc size (ser_heap s.2) = Some (h', None).

Lemma new_fifo_shape n : (0 < n)%nat -> fifo_shape n (new_fifo n).
Proof. intros Hn. unfold fifo_shape. simpl. by rewrite length_replicate. Qed.

Definition rx_mode (f : Z) : bool := has f RT_DEVICE_FLAG_INT_RX || has f RT_DEVICE_FLAG_DMA_RX.

Lemma open_rx_core rest oflag s : serial_core rest s -> rx_mode (open_flag_of s) = false ->
  match open_rx oflag s with
  | Some s' => serial_core rest s' /\ (rx_mode (open_flag_of s') = true -> ser_rx s'.2 <> RxNone) /\
      dev_flag s'.1 = dev_flag s.1 /\
      has (open_flag_of s') RT_DEVICE_FLAG_INT_TX = has (open_flag_of s) RT_DEVICE_FLAG_INT_TX /\
      has (open_flag_of s') RT_DEVICE_FLAG_DMA_TX = has (open_flag_of s) RT_DEVICE_FLAG_DMA_TX /\
      ser_tx s'.2 = ser_tx s.2
  | None => no_memory s
  end.
Proof.
  intros [Hn Hr Ht Hh] Hm. unfold open_rx, rx_mode in *.
  assert (0 < sizeof_rx_fifo + Z.of_nat (bufsz_of s) <= 4294967292) as Hsz by (unfold sizeof_rx_fifo; lia).
  destruct (ser_rx s.2) as [|p f|p b] eqn:Er; [| |by destruct Hr].
  - assert (client_inv (ser_heap s.2, tx_area s ++ rest)) as Hh' by (by unfold rx_area in Hh; rewrite Er in Hh).
    pose proof (alloc_cases _ s _ Hh' Hsz) as Ha.
    assert (bufsz_of s <> 0%nat) as Hnz by lia. pose proof (new_fifo_shape (bufsz_of s) ltac:(lia)) as Hshape.
    rewrite (proj2 (Nat.eqb_neq _ _) Hnz).
    destruct (alloc (sizeof_rx_fifo + Z.of_nat (bufsz_of s)) s) as [[s1 p]|]; [destruct Ha as (h'&->&Hh1)|].
    + assert (client_inv (h', tx_area s ++ (p, sizeof_rx_fifo + Z.of_nat (bufsz_of s)) :: rest)) as Hh2.
      { eapply client_inv_perm; [|exact Hh1]. apply Permutation_middle. }
      destruct s as [[fl ofl rc ri tc] [cfg r t l h]]. cbn in Er. subst r. unfold open_flag_of in *. simpl in *.
      destruct (has oflag RT_DEVICE_FLAG_INT_RX); [|destruct (has oflag RT_DEVICE_FLAG_DMA_RX)]; simpl.
      all: split; [split; simpl; done|]; flags; rewrite ?Hm; done.
    + destruct (has oflag RT_DEVICE_FLAG_INT_RX); [|destruct (has oflag RT_DEVICE_FLAG_DMA_RX)]; simpl;
        [eexists; exact Ha|eexists; exact Ha|]. split; [split; [done|by rewrite Er|done|done]|by rewrite Hm].
  - assert (serial_core rest s) as Hc by (split; [done|by rewrite Er|done|done]).
    destruct s as [[fl ofl rc ri tc] [cfg r t l h]]. cbn in Er. subst r. unfold open_flag_of in *. simpl in *.
    destruct (has oflag RT_DEVICE_FLAG_INT_RX); [|destruct (has oflag RT_DEVICE_FLAG_DMA_RX)]; simpl; (split; [by destruct Hc; split|]); flags; done.
Qed.

Lemma open_tx_core n rest oflag s : serial_core rest s -> has (open_flag_of s) RT_DEVICE_FLAG_INT_TX = false -> has oflag RT_DEVICE_FLAG_DMA_TX = false ->
  match open_tx n oflag s with
  | Some s' => serial_core rest s' /\ (has (open_flag_of s') RT_DEVICE_FLAG_INT_TX = true -> ser_tx s'.2 <> TxNone) /\
      dev_flag s'.1 = dev_flag s.1 /\ rx_mode (open_flag_of s') = rx_mode (open_flag_of s) /\
      has (open_flag_of s') RT_DEVICE_FLAG_DMA_TX = has (open_flag_of s) RT_DEVICE_FLAG_DMA_TX /\ ser_rx s'.2 = ser_rx s.2
  | None => no_memory s
  end.
Proof.
  intros [Hn Hr Ht Hh] Hm Hd. unfold open_tx, rx_mode in *. rewrite Hd.
  destruct (ser_tx s.2) as [|p c|p b] eqn:Et; [| |by destruct Ht].
  - assert (client_inv (ser_heap s.2, rx_area s ++ rest)) as Hh' by (by unfold tx_area in Hh; rewrite Et in Hh).
    pose proof (alloc_cases sizeof_tx_fifo s _ Hh' ltac:(unfold sizeof_tx_fifo; lia)) as Ha.
    destruct (alloc sizeof_tx_fifo s) as [[s1 p]|]; [destruct Ha as (h'&->&Hh1)|].
    + destruct s as [[fl ofl rc ri tc] [cfg r t l h]]. cbn in Et. subst t. unfold open_flag_of in *. simpl in *.
      destruct (has oflag RT_DEVICE_FLAG_INT_TX); simpl; (split; [split; simpl; done|]); flags; rewrite ?Hm; done.
    + destruct (has oflag RT_DEVICE_FLAG_INT_TX); simpl; [eexists; exact Ha|].
      split; [split; [done|done|by rewrite Et|done]|by rewrite Hm].
  - assert (serial_core rest s) as Hc by (split; [done|done|by rewrite Et|done]).
    destruct s as [[fl ofl rc ri tc] [cfg r t l h]]. cbn in Et. subst t. unfold open_flag_of in *. simpl in *.
    destruct (has oflag RT_DEVICE_FLAG_INT_TX); simpl; (split; [by destruct Hc; split|]); flags; done.
Qed.

(** *** Closing *)

Lemma close_rx_core rest s : serial_core rest s -> (rx_mode (open_flag_of s) = true -> ser_rx s.2 <> RxNone) ->
  exists s', close_rx s = Some s' /\ serial_core rest s' /\ dev_flag s'.1 = dev_flag s.1 /\ ser_tx s'.2 = ser_tx s.2 /\
    has (open_flag_of s') RT_DEVICE_FLAG_INT_TX = has (open_flag_of s) RT_DEVICE_FLAG_INT_TX /\
    has (open_flag_of s') RT_DEVICE_FLAG_DMA_TX = has (open_flag_of s) RT_DEVICE_FLAG_DMA_TX.
Proof.
  intros [Hn Hr Ht Hh] Hm. unfold close_rx, rx_mode in *.
  assert (bufsz_of s <> 0%nat) as Hnz by lia. rewrite (proj2 (Nat.eqb_neq _ _) Hnz).
  destruct (ser_rx s.2) as [|p f|p b] eqn:Er; [| |by destruct Hr].
  - assert (serial_core rest s) as Hc by (split; [done|by rewrite Er|done|done]).
    destruct (has (open_flag_of s) RT_DEVICE_FLAG_INT_RX); [by destruct Hm|].
    destruct (has (open_flag_of s) RT_DEVICE_FLAG_DMA_RX); [by destruct Hm|]. by exists s.
  - assert (client_inv (ser_heap s.2, (p, sizeof_rx_fifo + Z.of_nat (bufsz_of s)) :: tx_area s ++ rest)) as Hh'.
    { eapply client_inv_perm; [|exact Hh]. unfold rx_area. rewrite Er. symmetry. apply Permutation_middle. }
    destruct (release_ok _ _ s _ Hh') as (h'&->&Hh1).
    assert (serial_core rest s) as Hc by (split; [done|by rewrite Er|done|done]).
    destruct s as [[fl ofl rc ri tc] [cfg r t l h]]. cbn in Er. subst r. unfold open_flag_of in *. simpl in *.
    destruct (has ofl RT_DEVICE_FLAG_INT_RX); [|destruct (has ofl RT_DEVICE_FLAG_DMA_RX)]; simpl; eexists; (split; [done|]); simpl;
      [split; [by split|]; flags; done|split; [by split|]; flags; done|done].
Qed.

Lemma close_tx_core rest s : serial_core rest s -> (has (open_flag_of s) RT_DEVICE_FLAG_INT_TX = true -> ser_tx s.2 <> TxNone) ->
  has (open_flag_of s) RT_DEVICE_FLAG_DMA_TX = false ->
  exists s', close_tx s = Some s' /\ serial_core rest s' /\ dev_flag s'.1 = dev_flag s.1.
Proof.
  intros [Hn Hr Ht Hh] Hm Hd. unfold close_tx. rewrite Hd.
  destruct (ser_tx s.2) as [|p c|p b] eqn:Et; [| |by destruct Ht].
  - assert (serial_core rest s) as Hc by (split; [done|done|by rewrite Et|done]).
    destruct (has (open_flag_of s) RT_DEVICE_FLAG_INT_TX); [by destruct Hm|]. by exists s.
  - assert (client_inv (ser_heap s.2, (p, sizeof_tx_fifo) :: rx_area s ++ rest)) as Hh' by (by unfold tx_area in Hh; rewrite Et in Hh).
    destruct (release_ok _ _ s _ Hh') as (h'&->&Hh1).
    assert (serial_core rest s) as Hc by (split; [done|done|by rewrite Et|done]).
    destruct s as [[fl ofl rc ri tc] [cfg r t l h]]. cbn in Et. subst t. unfold open_flag_of in *. simpl in *.
    destruct (has ofl RT_DEVICE_FLAG_INT_TX); simpl; eexists; (split; [done|]); simpl; [by split|done].
Qed.

(** ** Calls *)

(** The calls of clients and the interrupts; [fuel] bounds the bytes of a transfer.
    A byte is sent by [uart_putc] at once. *)
Context (fuel : nat) (putc_sends : forall fl c (l : L), (uart_putc fl c l).2 <> -1).

Definition no_dma_tx (data : list Z) (s : sstate) : option (sstate * nat) := None.
Definition ops : device_ops (serial L) := serial_ops 0 no_dma_tx fuel id.

Inductive serial_call :=
  | CallOpen (oflag : Z) | CallClose | CallRead (size : nat) | CallWrite (data : list Z) | CallControl (cmd : Z) (arg : control_arg)
  | CallIsr (e : serial_event) | CallSetRx (b : bool) | CallSetTx (b : bool).

Definition serial_exec (c : serial_call) s : option sstate :=
  match c with
  | CallOpen oflag => fst <$> rt_device_open ops oflag s
  | CallClose => fst <$> rt_device_close ops s
  | CallRead k => fst ∘ fst <$> rt_device_read ops k s
  | CallWrite data => fst ∘ fst <$> rt_device_write ops data s
  | CallControl cmd arg => Some (fst (rt_serial_control cmd arg s))
  | CallIsr e => fst <$> rt_hw_serial_isr fuel e s
  | CallSetRx b => Some (fst (rt_device_set_rx_indicate b s))
  | CallSetTx b => Some (fst (rt_device_set_tx_complete b s))
  end.

(** A configuration that is taken: the buffer size of an open device does not change,
    and that of a closed one only when no FIFO was left behind. *)
Definition config_ok (c : serial_configure) s : Prop :=
  bufsz c = bufsz_of s \/ dev_ref_count s.1 <> 0 \/ (ser_rx s.2 = RxNone /\ (2 <= bufsz c)%nat /\ Z.of_nat (bufsz c) <= 65535).

(** An interrupt comes only while its mode is open; the fuel covers the bytes. *)
Definition serial_enabled (c : serial_call) s : Prop :=
  match c with
  | CallIsr RT_SERIAL_EVENT_RX_IND => ser_rx s.2 <> RxNone /\ exists p, uart_holds (ser_low s.2) p /\ (length p < fuel)%nat
  | CallIsr RT_SERIAL_EVENT_TX_DONE => has (open_flag_of s) RT_DEVICE_FLAG_INT_TX = true
  | CallIsr (RT_SERIAL_EVENT_RX_DMADONE _) => ser_rx s.2 <> RxNone
  | CallWrite data => (length data <= fuel)%nat
  | CallControl cmd (ArgConfig (Some c)) => cmd = RT_DEVICE_CTRL_CONFIG -> config_ok c s
  | _ => True
  end.

Lemma int_tx_sends n : forall fl data l, (length data <= n)%nat -> exists l', _serial_int_tx n id fl data l = Some l'.
Proof.
  induction n as [|n IH]; intros fl [|c data] l Hl; simpl in *; eauto; [lia|].
  pose proof (putc_sends fl c l) as Hp. destruct (uart_putc fl c l) as [l1 r]. simpl in Hp.
  rewrite (proj2 (Z.eqb_neq _ _) Hp). apply IH. lia.
Qed.

Lemma typed_core rest s : serial_typed rest s -> serial_core rest s.
Proof. intros [? ? ? ? ? ? ? ? ?]. by split. Qed.

Lemma typed_fifo rest s f : serial_typed rest s -> ser_rx s.2 <> RxNone -> (forall g, fifo_shape (bufsz_of s) g -> fifo_shape (bufsz_of s) (f g)) ->
  exists g, rx_fifo s = Some g /\ fifo_shape (bufsz_of s) g /\ serial_typed rest (put_fifo (f g) s).
Proof.
  intros [Hn Hm Hr Ht Hrf Htf Hd Ha Hh] Hne Hf. unfold rx_fifo, put_fifo, rx_typed in *.
  destruct (ser_rx s.2) as [|p g|] eqn:Er; [done| |done]. exists g. split; [done|]. split; [done|].
  destruct s as [[fl ofl rc ri tc] [cfg r t l h]]. cbn in Er. subst r. unfold open_flag_of in *. simpl in *.
  split; simpl; try done; [by apply Hf|]. intros Hz. by destruct (Ha Hz) as (_&?&?).
Qed.

Lemma typed_same rest s s' : serial_typed rest s -> s'.1 = s.1 -> ser_config s'.2 = ser_config s.2 ->
  ser_rx s'.2 = ser_rx s.2 -> ser_tx s'.2 = ser_tx s.2 -> ser_heap s'.2 = ser_heap s.2 -> serial_typed rest s'.
Proof.
  intros [Hn Hm Hr Ht Hrf Htf Hd Ha Hh] E1 E2 E3 E4 E5. unfold open_flag_of, tx_area, rx_area, bufsz_of in *.
  split; unfold open_flag_of, tx_area, rx_area, bufsz_of in *; by rewrite ?E1, ?E2, ?E3, ?E4, ?E5.
Qed.

Lemma read_typed rest k s : serial_typed rest s -> exists s' r, rt_serial_read k s = Some (s', r) /\ serial_typed rest s'.
Proof.
  intros Hs. pose proof (st_bufsz _ _ Hs) as [Hn _]. unfold rt_serial_read. destruct (k =? 0)%nat; [eauto|].
  destruct (has (open_flag_of s) RT_DEVICE_FLAG_INT_RX) eqn:Ei; [|destruct (has (open_flag_of s) RT_DEVICE_FLAG_DMA_RX) eqn:Ed].
  - assert (ser_rx s.2 <> RxNone) as Hne by (apply (st_rx_flag _ _ Hs); by rewrite Ei).
    destruct (typed_fifo rest s id Hs Hne ltac:(done)) as (g&Eg&Hg&_).
    destruct (int_rx_shape _ k g Hg) as (g'&d&E&Hg').
    destruct (typed_fifo rest s (fun _ => g') Hs Hne ltac:(done)) as (_&_&_&Ht).
    unfold _serial_int_rx. rewrite Eg. simpl. rewrite E. simpl. eauto.
  - assert (ser_rx s.2 <> RxNone) as Hne by (apply (st_rx_flag _ _ Hs); by rewrite Ei, Ed).
    unfold _serial_dma_rx. rewrite (proj2 (Nat.eqb_neq (bufsz_of s) 0)) by lia.
    destruct (typed_fifo rest s (rt_dma_recv_update_get_index (bufsz_of s)
      (if (k <? _serial_fifo_calc_recved_len (bufsz_of s) (default (new_fifo 0) (rx_fifo s)))%nat then k
       else _serial_fifo_calc_recved_len (bufsz_of s) (default (new_fifo 0) (rx_fifo s)))) Hs Hne ltac:(intros; by apply dma_get_shape))
      as (g&Eg&Hg&Ht). rewrite Eg in *. simpl in *. eauto.
  - destruct (_serial_poll_rx k (ser_low s.2)) as [l d]. eexists _, _. split; [done|]. by eapply typed_same.
Qed.

Lemma write_typed rest data s : serial_typed rest s -> (length data <= fuel)%nat ->
  exists s' n, rt_serial_write no_dma_tx fuel id data s = Some (s', n) /\ serial_typed rest s'.
Proof.
  intros Hs Hl. unfold rt_serial_write. destruct (length data =? 0)%nat; [eauto|].
  destruct (has (open_flag_of s) RT_DEVICE_FLAG_INT_TX) eqn:Ei.
  - pose proof (st_tx_flag _ _ Hs Ei) as Hne. pose proof (st_tx _ _ Hs) as Ht. destruct (ser_tx s.2) eqn:Et; [done| |done].
    destruct (int_tx_sends fuel (open_flag_of s) data (ser_low s.2) Hl) as (l'&->). simpl. eexists _, _. split; [done|].
    by eapply typed_same.
  - rewrite (st_no_dma _ _ Hs). eexists _, _. split; [done|]. by eapply typed_same.
Qed.

Lemma isr_typed rest e s : serial_typed rest s -> serial_enabled (CallIsr e) s ->
  exists s' r, rt_hw_serial_isr fuel e s = Some (s', r) /\ serial_typed rest s'.
Proof.
  intros Hs He. pose proof (st_bufsz _ _ Hs) as [Hn _]. unfold rt_hw_serial_isr. destruct e as [| |len]; simpl in He.
  - destruct He as [Hne (p&Hp&Hf)]. destruct (typed_fifo rest s id Hs Hne ltac:(done)) as (g&Eg&Hg&_).
    destruct (rx_ind_shape _ p fuel _ g Hp Hg Hf) as (l'&g'&E&Hg').
    destruct (typed_fifo rest s (fun _ => g') Hs Hne ltac:(done)) as (_&_&_&Ht).
    rewrite Eg. simpl. rewrite E. simpl. eexists _, _. split; [done|].
    unfold put_fifo in *. simpl. revert Ht. destruct (ser_rx s.2); intros Ht; (eapply typed_same; [exact Ht|done..]).
  - pose proof (st_tx_flag _ _ Hs He) as Hne. pose proof (st_tx _ _ Hs) as Ht. destruct (ser_tx s.2) as [|p c|] eqn:Et; [done| |done].
    eexists _, _. split; [done|]. destruct Hs as [? ? ? ? ? ? ? Ha Hh].
    destruct s as [[fl ofl rc ri tc] [cfg r t l h]]. cbn in Et. subst t. unfold open_flag_of in *. simpl in *. split; simpl; try done.
    intros Hz. by destruct (Ha Hz) as (_&?&?).
  - rewrite (proj2 (Nat.eqb_neq (bufsz_of s) 0)) by lia.
    destruct (typed_fifo rest s (rt_dma_recv_update_put_index (bufsz_of s) len) Hs He ltac:(intros; by apply dma_put_shape)) as (g&->&Hg&Ht).
    simpl. eauto.
Qed.

Lemma core_typed rest s : serial_core rest s -> has (dev_flag s.1) RT_DEVICE_FLAG_DMA_TX = false ->
  has (dev_flag s.1) RT_DEVICE_FLAG_ACTIVATED = true -> (rx_mode (open_flag_of s) = true -> ser_rx s.2 <> RxNone) ->
  (has (open_flag_of s) RT_DEVICE_FLAG_INT_TX = true -> ser_tx s.2 <> TxNone) -> has (open_flag_of s) RT_DEVICE_FLAG_DMA_TX = false ->
  serial_typed rest s.
Proof. intros [? ? ? ?] ? Ha ? ? ?. split; try done. by rewrite Ha. Qed.

Lemma open_init_typed rest s : serial_typed rest s -> exists s' r, open_init ops s = Some (s', r) /\ serial_typed rest s' /\
  (r = RT_EOK -> has (dev_flag s'.1) RT_DEVICE_FLAG_ACTIVATED = true).
Proof.
  intros Hs. unfold open_init. destruct (has (dev_flag s.1) RT_DEVICE_FLAG_ACTIVATED) eqn:Ha; [eauto|].
  destruct (st_new _ _ Hs Ha) as (Hrc&Er&Et). simpl. unfold rt_serial_init.
  destruct s as [[fl ofl rc ri tc] [cfg r t l h]]. cbn in Er, Et. subst r t. simpl.
  destruct (uart_configure cfg l) as [l' res]. simpl.
  assert (serial_typed rest (RtDevice fl ofl rc ri tc, Serial cfg RxNone TxNone l' h)) as Hs' by (by eapply typed_same).
  eexists _, _. split; [done|]. destruct (Z.eqb_spec res RT_EOK) as [E|E]; [|by split].
  destruct Hs' as [? Hm ? ? ? ? ? ? ?]. split; [|simpl; by flags].
  unfold open_flag_of in *. split; unfold open_flag_of in *; simpl in *; try done; by flags.
Qed.

Lemma open_typed rest oflag s : serial_typed rest s ->
  match rt_device_open ops oflag s with Some (s', _) => serial_typed rest s' | None => exists s', no_memory s' end.
Proof.
  intros Hs0. unfold rt_device_open. destruct (open_init_typed rest s Hs0) as (s1&r&->&Hs&Hact). simpl. clear Hs0.
  destruct (Z.eqb_spec r RT_EOK) as [E|E]; [|done]. simpl. specialize (Hact E). clear E.
  destruct (has (dev_flag s1.1) RT_DEVICE_FLAG_STANDALONE && has (dev_open_flag s1.1) RT_DEVICE_OFLAG_OPEN); [done|].
  unfold rt_serial_open. match goal with |- context [if ?b then Some (s1, - RT_EIO) else _] => destruct b eqn:Eref end; [done|].
  apply orb_false_iff in Eref as [Eref _]. apply orb_false_iff in Eref as [Eref _]. apply orb_false_iff in Eref as [_ Eref].
  rewrite (st_modes _ _ Hs), andb_true_r in Eref.
  set (stream := if _ : bool then _ else _).
  assert (stream = RT_DEVICE_FLAG_STREAM \/ stream = 0) as Estream by (unfold stream; case_match; auto). clearbody stream.
  set (s2 := dev_of (set_open_flag (Z.land oflag 255)) s1).
  assert (serial_core rest s2) as Hc by (destruct Hs; by split).
  assert (dev_flag s2.1 = dev_flag s1.1) as Ef by done.
  assert (rx_mode (open_flag_of s2) = false /\ has (open_flag_of s2) RT_DEVICE_FLAG_INT_TX = false /\
    has (open_flag_of s2) RT_DEVICE_FLAG_DMA_TX = false) as (Hm1&Hm2&Hm3) by (unfold rx_mode, open_flag_of; simpl; by flags).
  clearbody s2. pose proof (open_rx_core rest oflag s2 Hc Hm1) as H1.
  destruct (open_rx oflag s2) as [s3|]; simpl; [|by eexists]. destruct H1 as (Hc3&Hr3&Ef3&Et3&Ed3&_).
  pose proof (open_tx_core 0 rest oflag s3 Hc3 ltac:(by rewrite Et3) Eref) as H2.
  destruct (open_tx 0 oflag s3) as [s4|]; simpl; [|by eexists]. destruct H2 as (Hc4&Ht4&Ef4&Em4&Ed4&Er4).
  assert (has stream RT_DEVICE_FLAG_INT_TX = false /\ has stream RT_DEVICE_FLAG_DMA_TX = false /\ rx_mode stream = false) as (Hst1&Hst2&Hst3)
    by (by destruct Estream as [->| ->]).
  unfold rx_mode, open_flag_of in *. apply core_typed; simpl.
  - by destruct Hc4; split.
  - rewrite Ef4, Ef3, Ef. apply Hs.
  - by rewrite Ef4, Ef3, Ef.
  - unfold rx_mode, open_flag_of. simpl. apply orb_false_iff in Hst3 as [Hst3 Hst4]. flags. rewrite Hst3, Hst4, !orb_false_r, Em4, Er4. done.
  - unfold open_flag_of. simpl. flags. rewrite Hst1, orb_false_r. done.
  - unfold open_flag_of. simpl. flags. by rewrite Hst2, Ed4, Ed3, Hm3.
Qed.

Lemma close_typed rest s : serial_typed rest s -> exists s' r, rt_device_close ops s = Some (s', r) /\ serial_typed rest s'.
Proof.
  intros Hs. unfold rt_device_close. destruct (Z.eqb_spec (dev_ref_count s.1) 0) as [E|E]; [eauto|].
  assert (has (dev_flag s.1) RT_DEVICE_FLAG_ACTIVATED = true) as Hact.
  { destruct (has _ _) eqn:Ha; [done|]. by destruct (st_new _ _ Hs Ha). }
  set (s1 := dev_of _ s).
  assert (serial_typed rest s1) as Hs1.
  { unfold s1. destruct Hs as [? ? ? ? ? ? ? Ha ?]. split; try done. simpl. by rewrite Hact. }
  assert (dev_flag s1.1 = dev_flag s.1) as Ef by done. clearbody s1.
  destruct (Z.eqb_spec (dev_ref_count s1.1) 0) as [Ez|Ez]; simpl; [|eauto].
  unfold rt_serial_close. rewrite Ez. simpl.
  destruct (close_rx_core rest s1 (typed_core _ _ Hs1) (st_rx_flag _ _ Hs1)) as (s2&->&Hc2&Ef2&Et2&Em2&Ed2). simpl.
  destruct (close_tx_core rest s2 Hc2) as (s3&->&Hc3&Ef3); [rewrite Em2, Et2; apply Hs1|rewrite Ed2; apply Hs1|].
  simpl. eexists _, _. split; [done|]. apply core_typed; simpl; [by destruct Hc3; split|by rewrite Ef3, Ef2; apply Hs1|by rewrite Ef3, Ef2, Ef|done..].
Qed.

(** A device flag outside the modes. *)
Lemma typed_flag rest f s : serial_typed rest s -> has f RT_DEVICE_FLAG_DMA_TX = has (dev_flag s.1) RT_DEVICE_FLAG_DMA_TX ->
  has f RT_DEVICE_FLAG_ACTIVATED = has (dev_flag s.1) RT_DEVICE_FLAG_ACTIVATED -> serial_typed rest (dev_of (set_flag f) s).
Proof. intros [] E1 E2. split; simpl; try done; [by rewrite E1|by rewrite E2]. Qed.

Lemma typed_config rest c s : serial_typed rest s -> bufsz c = bufsz_of s \/ (ser_rx s.2 = RxNone /\ (2 <= bufsz c)%nat /\ Z.of_nat (bufsz c) <= 65535) ->
  serial_typed rest (set_config c s).
Proof.
  intros Hs Hc. destruct s as [[fl ofl rc ri tc] [cfg r t l h]]. destruct Hs as [Hn ? Hr ? ? ? ? ? Hh].
  unfold rx_area, tx_area, bufsz_of, open_flag_of in *. simpl in *. destruct Hc as [E|(-> & Hb)].
  - split; unfold rx_area, tx_area, bufsz_of, open_flag_of in *; simpl in *; rewrite ?E; done.
  - split; unfold rx_area, tx_area, bufsz_of, open_flag_of in *; simpl in *; done.
Qed.

Lemma control_typed rest cmd arg s : serial_typed rest s -> serial_enabled (CallControl cmd arg) s ->
  serial_typed rest (fst (rt_serial_control cmd arg s)).
Proof.
  intros Hs He. unfold rt_serial_control.
  destruct (Z.eqb_spec cmd RT_DEVICE_CTRL_SUSPEND) as [_|_]; [apply typed_flag; [done|by flags..]|].
  destruct (Z.eqb_spec cmd RT_DEVICE_CTRL_RESUME) as [_|_]; [apply typed_flag; [done|by flags..]|].
  destruct (Z.eqb_spec cmd RT_DEVICE_CTRL_CONFIG) as [Ec|_].
  - destruct arg as [[c|]|]; try done. specialize (He Ec). destruct (Nat.eqb_spec (bufsz c) (bufsz_of s)) as [E|E].
    + simpl. destruct (negb _); simpl; [eapply typed_same; [apply (typed_config rest c s Hs); by left|done..]|apply typed_config; [done|by left]].
    + destruct He as [He|He]; [done|]. destruct (Z.eqb_spec (dev_ref_count s.1) 0) as [Er|Er]; simpl; [|done].
      destruct He as [He|He]; [done|]. apply typed_config; [done|by right].
  - destruct (uart_control _ _ _) as [l r]. by eapply typed_same.
Qed.

End Safe.

(** *** A device on a list of received bytes *)

#[export] Instance list_uart : uart_ops (list Z) := {|
  uart_configure _ l := (l, RT_EOK);
  uart_control _ _ l := (l, RT_EOK);
  uart_putc _ _ l := (l, 1);
  uart_getc l := match l with [] => ([], -1) | c :: l => (l, c) end;
|}.
#[export, refine] Instance list_receiver : uart_receiver (list Z) := {| uart_holds l q := l = q /\ Forall is_u8 q |}.
Proof.
  - intros l [-> _]. by exists [].
  - intros l c q [-> Hq]. apply Forall_cons in Hq as [Hc Hq]. split; [done|]. by exists q.
Defined.

Definition demo_config : serial_configure := SerialConfigure 115200 8 0 0 0 0 4.
Definition demo_serial : dstate (serial (list Z)) :=
  rt_hw_serial_register 1283 (RtDevice 0 0 0 false false, Serial demo_config RxNone TxNone [104; 105] demo_heap).

Lemma demo_serial_typed : serial_typed [] demo_serial.
Proof.
  split; try done; [split; [vm_compute; lia|done]|].
  apply (client_init_inv demo_heap [(false, heap_end demo_heap)]); [apply demo_heap_wf|done|by vm_compute].
Qed.

Lemma list_sends fl c (l : list Z) : (uart_putc fl c l).2 <> -1.
Proof. done. Qed.

(** The device opened for reception and transmission by interrupts, after one
    receive interrupt. *)
Definition demo_opened : dstate (serial (list Z)) := default demo_serial (serial_exec 8 (CallOpen 1283) demo_serial).


(** *** Limits *)

Fixpoint serial_run (cs : list serial_call) (s : dstate (serial (list Z))) : option (dstate (serial (list Z))) :=
  match cs with [] => Some s | c :: cs => s ← serial_exec 8 c s; serial_run cs s end.

(** The second open takes the receive mode away, so that the FIFO of four bytes is not
    freed when the device is closed. A larger buffer size is then taken; the next open
    keeps the FIFO, and reception writes behind its end. *)
Definition reopened_calls (n : nat) : list serial_call :=
  [CallOpen 1283; CallIsr RT_SERIAL_EVENT_RX_IND; CallOpen 3; CallClose; CallClose;
   CallControl RT_DEVICE_CTRL_CONFIG (ArgConfig (Some (SerialConfigure 115200 8 0 0 0 0 n))); CallOpen 1283].
Definition with_bytes (d : list Z) (s : dstate (serial (list Z))) : dstate (serial (list Z)) := set_low d s.
Example rt_serial_config_overruns :
  (s ← serial_run (reopened_calls 4) demo_serial; serial_run [CallIsr RT_SERIAL_EVENT_RX_IND] (with_bytes [1; 2; 3; 4; 5] s)) <> None /\
  (exists s, serial_run (reopened_calls 8) demo_serial = Some s) /\
  (s ← serial_run (reopened_calls 8) demo_serial; serial_run [CallIsr RT_SERIAL_EVENT_RX_IND] (with_bytes [1; 2; 3; 4; 5] s)) = None.
Proof. split; [vm_compute; discriminate|]. split; [eexists|]; vm_compute; reflexivity. Qed.

(** ** Opening again *)

Section Reopen.
Context {L : Type} `{uart_ops L}.

(** A second open without a receive mode takes the mode away from the first
    client: the FIFO stays, but a read polls the driver. *)
Theorem rt_serial_reopen_polls oflag n k (s s' : dstate (serial L)) p f :
  ser_rx s.2 = RxIsFifo p f -> rx_mode oflag = false -> rt_serial_open n oflag s = Some (s', RT_EOK) ->
  ser_rx s'.2 = RxIsFifo p f /\ close_rx s' = Some s' /\
  ((0 < k)%nat -> rt_serial_read k s' =
    let '(l, data) := _serial_poll_rx k (ser_low s'.2) in Some (set_low l s', (length data, data))).
Proof.
  intros Er Hm Ho. unfold rx_mode in Hm. apply orb_false_iff in Hm as [Hm1 Hm2]. unfold rt_serial_open in Ho.
  match type of Ho with (if ?b then _ else _) = _ => destruct b; [done|] end.
  set (stream := if _ : bool then _ else _) in Ho. assert (stream = RT_DEVICE_FLAG_STREAM \/ stream = 0) as Est by (unfold stream; case_match; auto).
  clearbody stream. set (s2 := dev_of (set_open_flag (Z.land oflag 255)) s) in Ho.
  assert (ser_rx s2.2 = RxIsFifo p f /\ has (open_flag_of s2) RT_DEVICE_FLAG_INT_RX = false /\ has (open_flag_of s2) RT_DEVICE_FLAG_DMA_RX = false)
    as (Er2&H1&H2) by (unfold open_flag_of; simpl; by flags).
  clearbody s2. unfold open_rx in Ho. rewrite Er2, Hm1, Hm2 in Ho. simpl in Ho.
  destruct (open_tx n oflag s2) as [s3|] eqn:Et; [|done]. simpl in Ho. injection Ho as <-.
  assert (ser_rx s3.2 = RxIsFifo p f /\ has (open_flag_of s3) RT_DEVICE_FLAG_INT_RX = false /\ has (open_flag_of s3) RT_DEVICE_FLAG_DMA_RX = false)
    as (Er3&H3&H4).
  { unfold open_tx, alloc in Et. destruct (ser_tx s2.2), (has oflag RT_DEVICE_FLAG_INT_TX), (has oflag RT_DEVICE_FLAG_DMA_TX);
      simplify_option_eq; repeat case_match; simplify_option_eq; unfold open_flag_of in *; simpl; flags; rewrite ?H1, ?H2; done. }
  assert (has (open_flag_of (add_open_flag stream s3)) RT_DEVICE_FLAG_INT_RX = false /\
    has (open_flag_of (add_open_flag stream s3)) RT_DEVICE_FLAG_DMA_RX = false) as [H5 H6].
  { unfold open_flag_of in *. simpl. flags. rewrite H3, H4. by destruct Est as [->| ->]. }
  split; [done|]. unfold close_rx, rt_serial_read. rewrite H5, H6. split; [done|]. intros Hk. by rewrite (proj2 (Nat.eqb_neq _ _)) by lia.
Qed.
End Reopen.
