(* ===== verification/Usart.v ===== *)
(** * The UART driver (libraries/HAL_Drivers/drv_usart.c)

    The implementation of [uart_ops] for the USARTs of the chip, on their
    registers; the functions of the vendor's library it calls are modelled as far
    as they concern these registers (stm32f4xx_hal_uart.c). Bytes of the line are
    events of the hardware between the calls: they go to the data register, or,
    when reception by DMA has been started, straight into the software FIFO. *)

From S2P Require Import Prelude Kernel Ring Mem MemSpec Device Serial.

(** ** Registers *)

(** Bits of SR. *)
Definition UART_FLAG_PE : Z := 1.
Definition UART_FLAG_FE : Z := 2.
Definition UART_FLAG_NE : Z := 4.
Definition UART_FLAG_ORE : Z := 8.
Definition UART_FLAG_IDLE : Z := 16.
Definition UART_FLAG_RXNE : Z := 32.
Definition UART_FLAG_TC : Z := 64.
Definition UART_FLAG_TXE : Z := 128.
Definition UART_FLAG_LBD : Z := 256.
Definition UART_FLAG_CTS : Z := 512.
(** Bits of the control registers. *)
Definition UART_IT_IDLE : Z := 16.
Definition UART_IT_RXNE : Z := 32.
Definition USART_CR1_PEIE : Z := 256.
Definition USART_CR1_UE : Z := 8192.
Definition USART_CR3_EIE : Z := 1.
Definition USART_CR3_DMAR : Z := 64.

Definition UART_WORDLENGTH_8B : Z := 0.
Definition UART_WORDLENGTH_9B : Z := 4096.
Definition UART_STOPBITS_1 : Z := 0.
Definition UART_STOPBITS_2 : Z := 8192.
Definition UART_PARITY_NONE : Z := 0.
Definition UART_PARITY_EVEN : Z := 1024.
Definition UART_PARITY_ODD : Z := 1536.
Definition UART_HWCONTROL_NONE : Z := 0.
Definition UART_MODE_TX_RX : Z := 12.
Definition UART_OVERSAMPLING_16 : Z := 0.
Definition DATA_BITS_8 : Z := 8.
Definition DATA_BITS_9 : Z := 9.
Definition STOP_BITS_1 : Z := 0.
Definition STOP_BITS_2 : Z := 1.
Definition PARITY_NONE : Z := 0.
Definition PARITY_ODD : Z := 1.
Definition PARITY_EVEN : Z := 2.

Record UART_InitTypeDef := UartInit { BaudRate : Z; WordLength : Z; StopBits : Z; Parity : Z; UMode : Z; HwFlowCtl : Z; OverSampling : Z }.
Record usart_regs := Usart { SR : Z; DR : Z; BRR : Z; CR1 : Z; CR2 : Z; CR3 : Z }.

(** The constants of a USART: its interrupts and the frequency of its bus. *)
Record stm32_uart_config := UartConfig { irq_type : Z; dma_irq : Z; pclk : Z }.

(** The driver's structure with the hardware behind it: the state of the handle,
    the bytes that have left on the line, and the DMA stream: [None] when it is
    disabled, else the bytes transferred in this round; [u_tc] is its flag for the
    end of a round. *)
Record stm32_uart := StmUart {
  u_config : stm32_uart_config;
  u_init : UART_InitTypeDef;
  u_regs : usart_regs;
  u_rx_ready : bool;          (* RxState = HAL_UART_STATE_READY *)
  u_last_index : Z;           (* dma.last_index *)
  u_dma : option nat;
  u_tc : bool;
  u_irqs : gset Z;            (* interrupts enabled in the NVIC *)
  u_sent : list Z;
}.

Definition set_init x u := StmUart (u_config u) x (u_regs u) (u_rx_ready u) (u_last_index u) (u_dma u) (u_tc u) (u_irqs u) (u_sent u).
Definition set_regs x u := StmUart (u_config u) (u_init u) x (u_rx_ready u) (u_last_index u) (u_dma u) (u_tc u) (u_irqs u) (u_sent u).
Definition set_rx_ready x u := StmUart (u_config u) (u_init u) (u_regs u) x (u_last_index u) (u_dma u) (u_tc u) (u_irqs u) (u_sent u).
Definition set_last_index x u := StmUart (u_config u) (u_init u) (u_regs u) (u_rx_ready u) x (u_dma u) (u_tc u) (u_irqs u) (u_sent u).
Definition set_dma x tc u := StmUart (u_config u) (u_init u) (u_regs u) (u_rx_ready u) (u_last_index u) x tc (u_irqs u) (u_sent u).
Definition set_irqs x u := StmUart (u_config u) (u_init u) (u_regs u) (u_rx_ready u) (u_last_index u) (u_dma u) (u_tc u) x (u_sent u).
Definition set_sent x u := StmUart (u_config u) (u_init u) (u_regs u) (u_rx_ready u) (u_last_index u) (u_dma u) (u_tc u) (u_irqs u) x.

Definition set_SR (x : Z) (u : stm32_uart) : stm32_uart := let r := u_regs u in set_regs (Usart x (DR r) (BRR r) (CR1 r) (CR2 r) (CR3 r)) u.
Definition set_CR1 (x : Z) (u : stm32_uart) : stm32_uart := let r := u_regs u in set_regs (Usart (SR r) (DR r) (BRR r) x (CR2 r) (CR3 r)) u.
Definition set_CR3 (x : Z) (u : stm32_uart) : stm32_uart := let r := u_regs u in set_regs (Usart (SR r) (DR r) (BRR r) (CR1 r) (CR2 r) x) u.

(** *** What the hardware does with accesses *)

(** Reading DR, after SR: the byte is taken, and the error and idle flags are
    cleared. *)
Definition read_DR (u : stm32_uart) : stm32_uart * Z :=
  (set_SR (Z.ldiff (SR (u_regs u)) 63) u, DR (u_regs u)).
(** Writing SR clears RXNE, TC, LBD and CTS where the bit written is 0. *)
Definition write_SR (v : Z) (u : stm32_uart) : stm32_uart :=
  set_SR (Z.land (SR (u_regs u)) (Z.lor v (Z.lnot 864))) u.
(** Writing DR sends a byte; at its end TC and TXE are set. *)
Definition write_DR (c : Z) (u : stm32_uart) : stm32_uart :=
  set_sent (u_sent u ++ [u8 c]) (set_SR (Z.lor (SR (u_regs u)) (Z.lor UART_FLAG_TC UART_FLAG_TXE)) u).

(** *** The macros of the library *)

Definition __HAL_UART_GET_FLAG (flag : Z) (u : stm32_uart) : bool := Z.land (SR (u_regs u)) flag =? flag.
Definition __HAL_UART_CLEAR_FLAG (flag : Z) : stm32_uart -> stm32_uart := write_SR (Z.lnot flag).
Definition __HAL_UART_CLEAR_PEFLAG (u : stm32_uart) : stm32_uart := fst (read_DR u).
Definition __HAL_UART_ENABLE_IT (it : Z) (u : stm32_uart) : stm32_uart := set_CR1 (Z.lor (CR1 (u_regs u)) it) u.
Definition __HAL_UART_DISABLE_IT (it : Z) (u : stm32_uart) : stm32_uart := set_CR1 (Z.ldiff (CR1 (u_regs u)) it) u.
Definition __HAL_UART_GET_IT_SOURCE (it : Z) (u : stm32_uart) : bool := has (CR1 (u_regs u)) it.
Definition NVIC_EnableIRQ (irq : Z) (u : stm32_uart) : stm32_uart := set_irqs ({[irq]} ∪ u_irqs u) u.
Definition NVIC_DisableIRQ (irq : Z) (u : stm32_uart) : stm32_uart := set_irqs (u_irqs u ∖ {[irq]}) u.

(** The baud rate register, in 32-bit arithmetic. *)
Definition UART_DIV_SAMPLING16 (pclk baud : Z) : Z := u32 (pclk * 25) / u32 (4 * baud).
Definition UART_DIVMANT_SAMPLING16 (pclk baud : Z) : Z := UART_DIV_SAMPLING16 pclk baud / 100.
Definition UART_DIVFRAQ_SAMPLING16 (pclk baud : Z) : Z :=
  u32 (u32 (UART_DIV_SAMPLING16 pclk baud - UART_DIVMANT_SAMPLING16 pclk baud * 100) * 16 + 50) / 100.
Definition UART_BRR_SAMPLING16 (pclk baud : Z) : Z :=
  let f := UART_DIVFRAQ_SAMPLING16 pclk baud in
  u32 (u32 (Z.shiftl (UART_DIVMANT_SAMPLING16 pclk baud) 4) + Z.land f 240 + Z.land f 15).

(** Oversampling is by 16. *)
Definition UART_SetConfig (u : stm32_uart) : stm32_uart :=
  let i := u_init u in let r := u_regs u in
  let cr2 := Z.lor (Z.ldiff (CR2 r) 12288) (StopBits i) in
  let cr1 := Z.lor (Z.ldiff (CR1 r) 38412) (Z.lor (Z.lor (Z.lor (WordLength i) (Parity i)) (UMode i)) (OverSampling i)) in
  let cr3 := Z.lor (Z.ldiff (CR3 r) 768) (HwFlowCtl i) in
  set_regs (Usart (SR r) (DR r) (UART_BRR_SAMPLING16 (pclk (u_config u)) (BaudRate i)) cr1 cr2 cr3) u.

(** The pins and clocks, set up at the first call, are left out. *)
Definition HAL_UART_Init (u : stm32_uart) : stm32_uart * Z :=
  let u := set_CR1 (Z.ldiff (CR1 (u_regs u)) USART_CR1_UE) u in
  let u := UART_SetConfig u in
  let r := u_regs u in
  let u := set_regs (Usart (SR r) (DR r) (BRR r) (CR1 r) (Z.ldiff (CR2 r) 18432) (Z.ldiff (CR3 r) 42)) u in
  let u := set_CR1 (Z.lor (CR1 (u_regs u)) USART_CR1_UE) u in
  (set_rx_ready true u, 0).

(** The lock and the checks of the arguments are left out. [DMA_CIRCULAR]: the
    stream begins a new round at the end of one. *)
Definition HAL_UART_Receive_DMA (u : stm32_uart) : stm32_uart * Z :=
  if u_rx_ready u then
    let u := set_rx_ready false u in
    let u := set_dma (Some 0%nat) false u in
    let u := __HAL_UART_CLEAR_PEFLAG u in
    let u := set_CR1 (Z.lor (CR1 (u_regs u)) USART_CR1_PEIE) u in
    let u := set_CR3 (Z.lor (Z.lor (CR3 (u_regs u)) USART_CR3_EIE) USART_CR3_DMAR) u in
    (u, 0)
  else (u, 2).

(** ** The operations *)

Definition stm32_configure (cfg : serial_configure) (u : stm32_uart) : stm32_uart * Z :=
  let word := if data_bits cfg =? DATA_BITS_8 then UART_WORDLENGTH_8B else if data_bits cfg =? DATA_BITS_9 then UART_WORDLENGTH_9B else UART_WORDLENGTH_8B in
  let stop := if stop_bits cfg =? STOP_BITS_1 then UART_STOPBITS_1 else if stop_bits cfg =? STOP_BITS_2 then UART_STOPBITS_2 else UART_STOPBITS_1 in
  let par := if parity cfg =? PARITY_NONE then UART_PARITY_NONE else if parity cfg =? PARITY_ODD then UART_PARITY_ODD
    else if parity cfg =? PARITY_EVEN then UART_PARITY_EVEN else UART_PARITY_NONE in
  let '(u, r) := HAL_UART_Init (set_init (UartInit (baud_rate cfg) word stop par UART_MODE_TX_RX UART_HWCONTROL_NONE UART_OVERSAMPLING_16) u) in
  (u, if negb (r =? 0) then - RT_ERROR else RT_EOK).

(** The stream is set up again, which stops it; results of the library are only
    asserted. Priorities and log lines are left out. *)
Definition stm32_dma_config (u : stm32_uart) : stm32_uart :=
  let u := set_dma None (u_tc u) u in
  let '(u, _) := HAL_UART_Receive_DMA u in
  let u := __HAL_UART_ENABLE_IT UART_IT_IDLE u in
  NVIC_EnableIRQ (irq_type (u_config u)) (NVIC_EnableIRQ (dma_irq (u_config u)) u).

Definition stm32_control (cmd arg : Z) (u : stm32_uart) : stm32_uart * Z :=
  if cmd =? RT_DEVICE_CTRL_CLR_INT then (__HAL_UART_DISABLE_IT UART_IT_RXNE (NVIC_DisableIRQ (irq_type (u_config u)) u), RT_EOK)
  else if cmd =? RT_DEVICE_CTRL_SET_INT then (__HAL_UART_ENABLE_IT UART_IT_RXNE (NVIC_EnableIRQ (irq_type (u_config u)) u), RT_EOK)
  else if cmd =? RT_DEVICE_CTRL_CONFIG then (if arg =? RT_DEVICE_FLAG_DMA_RX then stm32_dma_config u else u, RT_EOK)
  else (u, RT_EOK).

(** The loop waits for TC, which the end of the byte sets. *)
Definition stm32_putc (open_flag c : Z) (u : stm32_uart) : stm32_uart * Z :=
  (write_DR c (__HAL_UART_CLEAR_FLAG UART_FLAG_TC u), 1).

Definition stm32_getc (u : stm32_uart) : stm32_uart * Z :=
  if __HAL_UART_GET_FLAG UART_FLAG_RXNE u then let '(u, d) := read_DR u in (u, Z.land d 255) else (u, -1).

#[export] Instance stm32_uart_ops : uart_ops stm32_uart := {|
  uart_configure := stm32_configure;
  uart_control := stm32_control;
  uart_putc := stm32_putc;
  uart_getc := stm32_getc;
|}.

(** ** Interrupts *)

Abbreviation uart_dev := (dstate (serial stm32_uart)).
Definition on_uart (f : stm32_uart -> stm32_uart) (s : uart_dev) : uart_dev := set_low (f (ser_low s.2)) s.
Definition flag_of (flag : Z) (s : uart_dev) : bool := __HAL_UART_GET_FLAG flag (ser_low s.2).
Definition clear_if (flag : Z) (clear : stm32_uart -> stm32_uart) (s : uart_dev) : uart_dev := if flag_of flag s then on_uart clear s else s.

(** The event is [length << 8] in an [int]; lengths that do not fit, which no
    buffer has, are left out. *)
Definition dma_done (recv_len : Z) : option serial_event :=
  if recv_len <? 2 ^ 23 then Some (RT_SERIAL_EVENT_RX_DMADONE (Z.to_nat recv_len)) else None.

(** [__HAL_DMA_GET_COUNTER]: what is left of the round. *)
Definition dma_counter (s : uart_dev) : Z := Z.of_nat (bufsz_of s) - Z.of_nat (default 0%nat (u_dma (ser_low s.2))).

(** A byte has arrived: without DMA it is in DR, or lost when DR is still full;
    the stream writes it into the buffer it was started with. *)
Definition line_byte (c : Z) (s : uart_dev) : option uart_dev :=
  let u := ser_low s.2 in
  match u_dma u with
  | None =>
      let r := u_regs u in
      Some (on_uart (set_regs (if has (SR r) UART_FLAG_RXNE then Usart (Z.lor (SR r) UART_FLAG_ORE) (DR r) (BRR r) (CR1 r) (CR2 r) (CR3 r)
        else Usart (Z.lor (SR r) UART_FLAG_RXNE) c (BRR r) (CR1 r) (CR2 r) (CR3 r))) s)
  | Some pos =>
      f ← rx_fifo s;
      let wrap := (S pos =? bufsz_of s)%nat in
      Some (on_uart (set_dma (Some (if wrap then 0%nat else S pos)) (u_tc u || wrap))
        (put_fifo (RxFifo (<[pos := c]> (buffer f)) (put_index f) (get_index f) (is_full f)) s))
  end.
Fixpoint arrivals (l : list Z) (s : uart_dev) : option uart_dev :=
  match l with [] => Some s | c :: l => s ← line_byte c s; arrivals l s end.

(** [fuel] bounds the bytes one interrupt takes, [late] are bytes that arrive while the
    routine runs: after it has taken the last byte, or after it has found the register
    empty; the result is the size the receive callback is called with. *)
Definition uart_isr (fuel : nat) (late : list Z) (s : uart_dev) : option (uart_dev * option nat) :=
  if flag_of UART_FLAG_RXNE s && __HAL_UART_GET_IT_SOURCE UART_IT_RXNE (ser_low s.2) then
    '(s, ind) ← rt_hw_serial_isr fuel RT_SERIAL_EVENT_RX_IND s;
    s ← arrivals late s;
    Some (on_uart (__HAL_UART_CLEAR_FLAG UART_FLAG_RXNE) s, ind)
  else if flag_of UART_FLAG_IDLE s && __HAL_UART_GET_IT_SOURCE UART_IT_IDLE (ser_low s.2) then
    let recv_total_index := u32 (Z.of_nat (bufsz_of s) - dma_counter s) in
    let recv_len := u32 (recv_total_index - u_last_index (ser_low s.2)) in
    let s := on_uart (set_last_index recv_total_index) s in
    '(s, ind) ← (if negb (recv_len =? 0) then e ← dma_done recv_len; rt_hw_serial_isr fuel e s else Some (s, None));
    s ← arrivals late s;
    Some (on_uart __HAL_UART_CLEAR_PEFLAG s, ind)
  else
    s ← arrivals late s;
    let s := clear_if UART_FLAG_ORE __HAL_UART_CLEAR_PEFLAG s in
    let s := clear_if UART_FLAG_NE __HAL_UART_CLEAR_PEFLAG s in
    let s := clear_if UART_FLAG_FE __HAL_UART_CLEAR_PEFLAG s in
    let s := clear_if UART_FLAG_PE __HAL_UART_CLEAR_PEFLAG s in
    let s := clear_if UART_FLAG_LBD (__HAL_UART_CLEAR_FLAG UART_FLAG_LBD) s in
    let s := clear_if UART_FLAG_CTS (__HAL_UART_CLEAR_FLAG UART_FLAG_CTS) s in
    let s := clear_if UART_FLAG_TXE (__HAL_UART_CLEAR_FLAG UART_FLAG_TXE) s in
    let s := clear_if UART_FLAG_TC (__HAL_UART_CLEAR_FLAG UART_FLAG_TC) s in
    let s := clear_if UART_FLAG_RXNE (__HAL_UART_CLEAR_FLAG UART_FLAG_RXNE) s in
    Some (s, None).

(** The end of a round: [HAL_DMA_IRQHandler] clears the flag of the stream. *)
Definition HAL_UART_RxCpltCallback (fuel : nat) (s : uart_dev) : option (uart_dev * option nat) :=
  let recv_len := u32 (Z.of_nat (bufsz_of s) - u_last_index (ser_low s.2)) in
  let s := on_uart (set_last_index 0) s in
  if negb (recv_len =? 0) then e ← dma_done recv_len; rt_hw_serial_isr fuel e s else Some (s, None).
Definition USART_RX_DMA_ISR (fuel : nat) (s : uart_dev) : option (uart_dev * option nat) :=
  let u := ser_low s.2 in
  if u_tc u then HAL_UART_RxCpltCallback fuel (on_uart (set_dma (u_dma u) false) s) else Some (s, None).

(** Registration of one of the devices; they all have a stream. *)
Definition RT_SERIAL_CONFIG_DEFAULT : serial_configure := SerialConfigure 115200 DATA_BITS_8 STOP_BITS_1 PARITY_NONE 0 0 64.
Definition rt_hw_usart_init (s : uart_dev) : uart_dev :=
  rt_hw_serial_register (Z.lor (Z.lor RT_DEVICE_FLAG_RDWR RT_DEVICE_FLAG_INT_RX) RT_DEVICE_FLAG_DMA_RX) (set_config RT_SERIAL_CONFIG_DEFAULT s).

(** The line falls idle. *)
Definition line_idle (s : uart_dev) : uart_dev := on_uart (fun u => set_SR (Z.lor (SR (u_regs u)) UART_FLAG_IDLE) u) s.

(** ** Flags *)

Lemma has_bit x k : 0 <= k -> has x (2 ^ k) = Z.testbit x k.
Proof.
  intros Hk. unfold has. rewrite land_pow2 by done. destruct (Z.testbit x k); [|done].
  pose proof (Z.pow_pos_nonneg 2 k). by rewrite (proj2 (Z.eqb_neq _ _)) by lia.
Qed.

Lemma get_flag_bit k u : 0 <= k -> __HAL_UART_GET_FLAG (2 ^ k) u = Z.testbit (SR (u_regs u)) k.
Proof.
  intros Hk. unfold __HAL_UART_GET_FLAG. rewrite land_pow2 by done. pose proof (Z.pow_pos_nonneg 2 k).
  destruct (Z.testbit _ k); [by rewrite Z.eqb_refl|]. by rewrite (proj2 (Z.eqb_neq _ _)) by lia.
Qed.

Definition rxne (u : stm32_uart) : bool := Z.testbit (SR (u_regs u)) 5.
Definition idle_flag (u : stm32_uart) : bool := Z.testbit (SR (u_regs u)) 4.
Definition rxneie (u : stm32_uart) : bool := Z.testbit (CR1 (u_regs u)) 5.
Definition idleie (u : stm32_uart) : bool := Z.testbit (CR1 (u_regs u)) 4.

Lemma flag_rxne u : __HAL_UART_GET_FLAG UART_FLAG_RXNE u = rxne u.
Proof. apply (get_flag_bit 5). lia. Qed.
Lemma flag_idle u : __HAL_UART_GET_FLAG UART_FLAG_IDLE u = idle_flag u.
Proof. apply (get_flag_bit 4). lia. Qed.
Lemma it_rxne u : __HAL_UART_GET_IT_SOURCE UART_IT_RXNE u = rxneie u.
Proof. apply (has_bit _ 5). lia. Qed.
Lemma it_idle u : __HAL_UART_GET_IT_SOURCE UART_IT_IDLE u = idleie u.
Proof. apply (has_bit _ 4). lia. Qed.

(** ** The driver is a receiver of the framework *)

(** At most one byte waits, in DR. *)
Definition usart_holds (u : stm32_uart) (q : list Z) : Prop :=
  match q with
  | [] => rxne u = false
  | [c] => rxne u = true /\ Z.land (DR (u_regs u)) 255 = c /\ is_u8 c
  | _ => False
  end.

Lemma getc_empty u : rxne u = false -> stm32_getc u = (u, -1).
Proof. intros H. unfold stm32_getc. by rewrite flag_rxne, H. Qed.

Lemma read_DR_rxne u : rxne (read_DR u).1 = false.
Proof. change (Z.testbit (Z.ldiff (SR (u_regs u)) 63) 5 = false). by rewrite Z.ldiff_spec, andb_false_r. Qed.

Lemma getc_full u : rxne u = true -> stm32_getc u = ((read_DR u).1, Z.land (DR (u_regs u)) 255).
Proof. intros H. unfold stm32_getc. by rewrite flag_rxne, H. Qed.

#[export, refine] Instance stm32_receiver : uart_receiver stm32_uart := {| uart_holds := usart_holds |}.
Proof.
  - intros u Hu. exists u. split; [by apply getc_empty|done].
  - intros u c [|d q] Hu; [|done]. destruct Hu as (Hf & Hd & Hc). split; [done|]. exists (read_DR u).1.
    split; [change (stm32_getc u = ((read_DR u).1, c)); by rewrite getc_full, Hd|apply read_DR_rxne].
Defined.

(** ** Reception by interrupts *)

(** What the driver keeps through an interrupt: registers of control, the stream,
    the interrupts enabled, what was sent. *)
Definition same_control (u v : stm32_uart) : Prop :=
  CR1 (u_regs v) = CR1 (u_regs u) /\ CR3 (u_regs v) = CR3 (u_regs u) /\ u_dma v = u_dma u /\ u_last_index v = u_last_index u /\
  u_tc v = u_tc u /\ u_irqs v = u_irqs u /\ u_sent v = u_sent u /\ u_rx_ready v = u_rx_ready u.
Lemma same_control_trans u v w : same_control u v -> same_control v w -> same_control u w.
Proof. unfold same_control. intuition congruence. Qed.

Lemma getc_same u : same_control u (stm32_getc u).1.
Proof. unfold stm32_getc. by destruct (__HAL_UART_GET_FLAG _ u). Qed.

Lemma rx_ind_loop_same fuel n : forall (u u' : stm32_uart) f f', rx_ind_loop fuel n u f = Some (u', f') -> same_control u u'.
Proof.
  induction fuel as [|fuel IH]; intros u u' f f' H; [done|]. simpl in H. pose proof (getc_same u) as Hs.
  destruct (stm32_getc u) as [u1 ch]. simpl in Hs. destruct (ch =? -1); [by injection H as <- <-|].
  apply bind_Some in H as (f1 & _ & H). eapply same_control_trans; [done|by eapply IH].
Qed.

Lemma isr_same fuel (s : uart_dev) s' r : rt_hw_serial_isr fuel RT_SERIAL_EVENT_RX_IND s = Some (s', r) -> same_control (ser_low s.2) (ser_low s'.2).
Proof.
  intros H. unfold rt_hw_serial_isr in H. apply bind_Some in H as (f & Hf & H). apply bind_Some in H as ([u f'] & Hl & H).
  injection H as <- _. apply rx_ind_loop_same in Hl. destruct s as [d s], s as [c rx t l h]. unfold put_fifo. simpl in *. by destruct rx.
Qed.

(** A device with [q] in its FIFO and [p] in the register, receiving by interrupts. *)
Record int_uart (s : uart_dev) (q p : list Z) : Prop := {
  iu_receives : receives s q p;
  iu_fifo : (length q < bufsz_of s)%nat;
  iu_flag : has (open_flag_of s) RT_DEVICE_FLAG_INT_RX = true;
  iu_rxneie : rxneie (ser_low s.2) = true;
  iu_idleie : idleie (ser_low s.2) = false;
  iu_dma : u_dma (ser_low s.2) = None;
}.

(** The pieces of the third branch of [uart_isr] only clear flags. *)
Definition only_clears (s s' : uart_dev) : Prop :=
  s'.1 = s.1 /\ ser_config s'.2 = ser_config s.2 /\ ser_rx s'.2 = ser_rx s.2 /\ ser_tx s'.2 = ser_tx s.2 /\ ser_heap s'.2 = ser_heap s.2 /\
  same_control (ser_low s.2) (ser_low s'.2) /\ (rxne (ser_low s.2) = false -> rxne (ser_low s'.2) = false).
Lemma only_clears_trans s1 s2 s3 : only_clears s1 s2 -> only_clears s2 s3 -> only_clears s1 s3.
Proof.
  intros (A1&A2&A3&A4&A5&A6&A7) (B1&B2&B3&B4&B5&B6&B7). unfold only_clears. splits; try congruence; [by eapply same_control_trans|auto].
Qed.

Lemma on_uart_only f s : (forall u, same_control u (f u) /\ (rxne u = false -> rxne (f u) = false)) -> only_clears s (on_uart f s).
Proof. intros Hf. destruct (Hf (ser_low s.2)) as [H1 H2]. unfold only_clears. splits; done. Qed.

Lemma clear_if_only flag f s : (forall u, same_control u (f u) /\ (rxne u = false -> rxne (f u) = false)) -> only_clears s (clear_if flag f s).
Proof.
  intros Hf. unfold clear_if. destruct (flag_of flag s); [by apply on_uart_only|]. unfold only_clears. splits; done.
Qed.

Lemma clear_flag_only flag u : same_control u (__HAL_UART_CLEAR_FLAG flag u) /\ (rxne u = false -> rxne (__HAL_UART_CLEAR_FLAG flag u) = false).
Proof.
  split; [done|]. intros H. change (Z.testbit (Z.land (SR (u_regs u)) (Z.lor (Z.lnot flag) (Z.lnot 864))) 5 = false).
  rewrite Z.land_spec. unfold rxne in H. by rewrite H.
Qed.
Lemma clear_pe_only u : same_control u (__HAL_UART_CLEAR_PEFLAG u) /\ (rxne u = false -> rxne (__HAL_UART_CLEAR_PEFLAG u) = false).
Proof. split; [done|]. intros _. apply read_DR_rxne. Qed.

Lemma only_clears_int s s' q p : int_uart s q p -> only_clears s s' -> rxne (ser_low s'.2) = false -> int_uart s' q [].
Proof.
  intros [(Hn & Hp & a & f & Ea & Hf) Hq Hfl Hi1 Hi2 Hd] (E1 & E2 & E3 & E4 & E5 & (C1 & _ & C3 & _) & _) Hr.
  unfold rxneie, idleie in *. split; unfold rxneie, idleie, open_flag_of, bufsz_of in *; rewrite ?E1, ?E2, ?C1, ?C3; try done.
  split; [unfold bufsz_of; by rewrite E2|]. split; [done|]. exists a, f. rewrite E3. unfold bufsz_of. by rewrite E2.
Qed.

(** ** The line, the interrupts and the reader *)

Inductive uart_event :=
  | EvByte (c : Z)      (* a byte arrives *)
  | EvIdle              (* the line falls idle *)
  | EvInterrupt (late : list Z)   (* the interrupt of the USART; bytes arrive while it is served *)
  | EvRead (k : nat).   (* a reader asks for k bytes *)

(** What happens, and the bytes that are read. *)
Definition uart_step (fuel : nat) (e : uart_event) (s : uart_dev) : option (uart_dev * list Z) :=
  match e with
  | EvByte c => s ← line_byte c s; Some (s, [])
  | EvIdle => Some (line_idle s, [])
  | EvInterrupt late => '(s, _) ← uart_isr fuel late s; Some (s, [])
  | EvRead k => '(s, (_, data)) ← rt_serial_read k s; Some (s, data)
  end.
Fixpoint uart_run (fuel : nat) (l : list uart_event) (s : uart_dev) : option (uart_dev * list Z) :=
  match l with
  | [] => Some (s, [])
  | e :: l => '(s, d1) ← uart_step fuel e s; '(s, d2) ← uart_run fuel l s; Some (s, d1 ++ d2)
  end.

(** A queue of the newest bytes, behind a register of one byte. What arrives while the
    interrupt is served is lost. *)
Definition queue_step (n : nat) (e : uart_event) (x : list Z * list Z) : list Z * list Z * list Z :=
  let '(q, p) := x in
  match e with
  | EvByte c => ((q, match p with [] => [c] | _ => p end), [])
  | EvIdle => ((q, p), [])
  | EvInterrupt _ => ((last_bytes (n - 1) (q ++ p), []), [])
  | EvRead k => ((drop k q, p), take k q)
  end.
Fixpoint queue_run (n : nat) (l : list uart_event) (x : list Z * list Z) : list Z * list Z * list Z :=
  match l with
  | [] => (x, [])
  | e :: l => let '(x, d1) := queue_step n e x in let '(x, d2) := queue_run n l x in (x, d1 ++ d2)
  end.

Definition byte_event (e : uart_event) : Prop := match e with EvByte c => is_u8 c | EvInterrupt late => Forall is_u8 late | _ => True end.

Lemma low_on_uart f s : ser_low (on_uart f s).2 = f (ser_low s.2).
Proof. done. Qed.
Lemma rxne_regs r u : rxne (set_regs r u) = Z.testbit (SR r) 5.
Proof. done. Qed.

Lemma line_byte_int c s q p : int_uart s q p -> is_u8 c -> exists s', line_byte c s = Some s' /\
  int_uart s' q (match p with [] => [c] | _ => p end) /\ bufsz_of s' = bufsz_of s.
Proof.
  intros [(Hn & Hp & a & f & Ea & Hf) Hq Hfl Hi1 Hi2 Hd] Hc. unfold line_byte. rewrite Hd.
  change UART_FLAG_RXNE with (2 ^ 5). rewrite has_bit by lia. change (Z.testbit (SR (u_regs (ser_low s.2))) 5) with (rxne (ser_low s.2)).
  eexists. split; [done|]. split; [|done]. split; try done; [|by destruct (rxne _)..]. split; [done|]. split; [|by exists a, f].
  destruct p as [|d [|? ?]]; [| |done].
  - simpl in Hp. rewrite Hp, low_on_uart. split; [|split; [by apply byte_land|done]]. rewrite rxne_regs. cbn [SR]. by rewrite Z.lor_spec, orb_true_r.
  - destruct Hp as (H1 & H2 & H3). rewrite H1, low_on_uart. split; [|done]. rewrite rxne_regs. cbn [SR]. rewrite Z.lor_spec. unfold rxne in H1. by rewrite H1.
Qed.

Lemma arrivals_int l : forall s q p, int_uart s q p -> Forall is_u8 l -> exists s' p',
  arrivals l s = Some s' /\ int_uart s' q p' /\ bufsz_of s' = bufsz_of s.
Proof.
  induction l as [|c l IH]; intros s q p Hs Hl; [by exists s, p|]. apply Forall_cons in Hl as [Hc Hl]. cbn [arrivals].
  destruct (line_byte_int c s q p Hs Hc) as (s1 & -> & Hs1 & E1). cbn [mbind option_bind].
  destruct (IH s1 q _ Hs1 Hl) as (s2 & p2 & -> & Hs2 & E2). exists s2, p2. splits; [done|done|congruence].
Qed.

(** Clearing RXNE empties the register, whatever it holds. *)
Lemma clear_rxne_empties u : rxne (__HAL_UART_CLEAR_FLAG UART_FLAG_RXNE u) = false.
Proof.
  change (Z.testbit (Z.land (SR (u_regs u)) (Z.lor (Z.lnot (2 ^ 5)) (Z.lnot 864))) 5 = false). rewrite Z.land_spec. apply andb_false_r.
Qed.
Lemma clear_if_rxne_empties s : rxne (ser_low (clear_if UART_FLAG_RXNE (__HAL_UART_CLEAR_FLAG UART_FLAG_RXNE) s).2) = false.
Proof.
  unfold clear_if, flag_of. rewrite flag_rxne. destruct (rxne (ser_low s.2)) eqn:E; [|done]. rewrite low_on_uart. apply clear_rxne_empties.
Qed.

Lemma uart_isr_int fuel late s q p : int_uart s q p -> (1 < fuel)%nat -> Forall is_u8 late -> exists s' r,
  uart_isr fuel late s = Some (s', r) /\ int_uart s' (last_bytes (bufsz_of s - 1) (q ++ p)) [] /\ bufsz_of s' = bufsz_of s.
Proof.
  intros Hs Hfuel Hlate. pose proof Hs as [Hrc Hq Hfl Hi1 Hi2 Hd]. pose proof Hrc as (Hn & Hp & _). unfold uart_isr.
  unfold flag_of at 1 2. rewrite flag_rxne, flag_idle, it_rxne, it_idle, Hi1, Hi2, andb_false_r, andb_true_r. destruct p as [|c [|d p]]; [| |done].
  - simpl in Hp. rewrite Hp. rewrite app_nil_r, last_bytes_all by lia. destruct (arrivals_int late s q [] Hs Hlate) as (s1 & p1 & -> & Hs1 & E1).
    cbn [mbind option_bind]. match goal with |- context [Some (?x, None)] => assert (only_clears s1 x) as Hc end.
    { repeat (eapply only_clears_trans; [|apply clear_if_only; first [apply clear_flag_only|apply clear_pe_only]]). unfold only_clears. splits; done. }
    eexists _, None. split; [done|]. split; [by eapply only_clears_int, clear_if_rxne_empties|]. destruct Hc as (_ & E & _). unfold bufsz_of in *. by rewrite E.
  - destruct Hp as (Hf & _). rewrite Hf. destruct (isr_receives fuel s q [c] Hrc Hfuel) as (s1 & E & Hr1 & E1 & E2 & E3).
    pose proof (isr_same _ _ _ _ E) as (C1 & _ & C3 & _). rewrite E. cbn [mbind option_bind].
    assert (int_uart s1 (last_bytes (bufsz_of s - 1) (q ++ [c])) []) as Hs1.
    { split; unfold open_flag_of, rxneie, idleie in *; [done| |by rewrite E1|by rewrite C1|by rewrite C1|by rewrite C3].
      rewrite last_bytes_length. unfold bufsz_of. rewrite E3. unfold bufsz_of in Hn. lia. }
    destruct (arrivals_int late s1 _ [] Hs1 Hlate) as (s2 & p2 & -> & Hs2 & Eb). cbn [mbind option_bind].
    eexists _, _. split; [done|]. split; [|unfold bufsz_of in *; simpl; rewrite Eb, E3; done].
    apply (only_clears_int s2 _ _ p2 Hs2); [apply on_uart_only, clear_flag_only|rewrite low_on_uart; apply clear_rxne_empties].
Qed.

Lemma line_idle_int s q p : int_uart s q p -> int_uart (line_idle s) q p /\ bufsz_of (line_idle s) = bufsz_of s.
Proof.
  intros [(Hn & Hp & a & f & Ea & Hf) Hq Hfl Hi1 Hi2 Hd]. split; [|done]. split; try done. split; [done|]. split; [|by exists a, f].
  assert (rxne (ser_low (line_idle s).2) = rxne (ser_low s.2)) as E by (unfold line_idle; rewrite low_on_uart; unfold set_SR; rewrite rxne_regs; cbn [SR]; by rewrite Z.lor_spec, orb_false_r).
  simpl in *. unfold usart_holds in *. rewrite E. done.
Qed.

Lemma serial_read_int k s q p : int_uart s q p -> exists s' m, rt_serial_read k s = Some (s', (m, take k q)) /\ int_uart s' (drop k q) p /\ bufsz_of s' = bufsz_of s.
Proof.
  intros Hs. pose proof Hs as [Hrc Hq Hfl Hi1 Hi2 Hd]. unfold rt_serial_read. destruct (Nat.eqb_spec k 0) as [->|Hk]; [by exists s, 0%nat|].
  rewrite Hfl. destruct (int_rx_receives k s q p Hrc) as (s' & E & Hr & E1 & E2 & E3). 
  assert (ser_low s'.2 = ser_low s.2) as El.
  { unfold _serial_int_rx in E. apply bind_Some in E as (f & _ & E). apply bind_Some in E as ([f' d] & _ & E). injection E as <- _.
    destruct s as [d0 s], s as [c rx t l h]. unfold put_fifo. simpl. by destruct rx. }
  rewrite E. simpl. exists s', (length (take k q)). split; [done|]. split; [|unfold bufsz_of; by rewrite E3].
  split; unfold open_flag_of in *; rewrite ?El, ?E1; try done. rewrite length_drop. unfold bufsz_of in *. rewrite E3. lia.
Qed.

Lemma uart_step_refines fuel e s q p : (1 < fuel)%nat -> int_uart s q p -> byte_event e ->
  let '((q', p'), d) := queue_step (bufsz_of s) e (q, p) in
  exists s', uart_step fuel e s = Some (s', d) /\ int_uart s' q' p' /\ bufsz_of s' = bufsz_of s.
Proof.
  intros Hfuel Hs He. destruct e as [c| |late|k]; simpl.
  - destruct (line_byte_int c s q p Hs He) as (s' & -> & H). simpl. by exists s'.
  - destruct (line_idle_int s q p Hs) as [H1 H2]. by exists (line_idle s).
  - destruct (uart_isr_int fuel late s q p Hs Hfuel He) as (s' & r & -> & H). simpl. by exists s'.
  - destruct (serial_read_int k s q p Hs) as (s' & m & -> & H). simpl. by exists s'.
Qed.

(** C23: Reception by interrupts: in whatever order bytes arrive, the interrupt is served
    and the reader reads, the reader gets what a queue of the newest bytes gives that is
    filled from a register of one byte. Lost are a byte that finds the register full, and
    the bytes that arrive while the interrupt is served, after the routine has taken the
    last byte or has found the register empty ([late]): it clears RXNE at its end. A byte
    that arrives while the routine still takes bytes is taken by the code at once; the
    events give it to a further interrupt. *)
Theorem uart_rx_refines (fuel : nat) (l : list uart_event) (s : uart_dev) (q p : list Z) :
  (1 < fuel)%nat -> int_uart s q p -> Forall byte_event l ->
  exists s', uart_run fuel l s = Some (s', (queue_run (bufsz_of s) l (q, p)).2) /\
    int_uart s' (queue_run (bufsz_of s) l (q, p)).1.1 (queue_run (bufsz_of s) l (q, p)).1.2.
Proof.
  intros Hfuel. revert s q p. induction l as [|e l IH]; intros s q p Hs Hl; [by exists s|]. cbn [uart_run queue_run].
  apply Forall_cons in Hl as [He Hl]. pose proof (uart_step_refines fuel e s q p Hfuel Hs He) as H.
  destruct (queue_step (bufsz_of s) e (q, p)) as [[q1 p1] d1]. destruct H as (s1 & -> & Hs1 & E). simpl.
  destruct (IH s1 q1 p1 Hs1 Hl) as (s2 & -> & Hs2). simpl. rewrite E in *.
  destruct (queue_run (bufsz_of s) l (q1, p1)) as [[q2 p2] d2]. by exists s2.
Qed.

(** ** Reception by DMA *)

Lemma ring_prefix {A} (pool : list A) out q r : ring_repr pool out (q ++ r) -> ring_repr pool out q.
Proof.
  intros [Hl Ho Hc]. rewrite length_app in Hl. split; [lia|done|]. intros i v Hi. apply Hc. by apply lookup_app_l_Some.
Qed.

(** A device with [q] in its FIFO and [r] behind it in the buffer, written by the
    stream but not reported yet. *)
Record dma_uart (s : uart_dev) (q r : list Z) : Prop := {
  du_size : (0 < bufsz_of s)%nat /\ Z.of_nat (bufsz_of s) <= 32768;
  du_int : has (open_flag_of s) RT_DEVICE_FLAG_INT_RX = false;
  du_flag : has (open_flag_of s) RT_DEVICE_FLAG_DMA_RX = true;
  du_rxneie : rxneie (ser_low s.2) = false;
  du_idleie : idleie (ser_low s.2) = true;
  du_fifo : exists a f, ser_rx s.2 = RxIsFifo a f /\ dma_fifo (bufsz_of s) f q /\ ring_repr (buffer f) (get_index f) (q ++ r) /\
    u_last_index (ser_low s.2) = Z.of_nat (put_index f) /\
    u_dma (ser_low s.2) = Some ((put_index f + length r) mod bufsz_of s)%nat /\
    u_tc (ser_low s.2) = bool_decide (bufsz_of s <= put_index f + length r)%nat;
  du_bytes : Forall is_u8 r;
}.

Lemma dma_uart_room s q r : dma_uart s q r -> (length q + length r <= bufsz_of s)%nat.
Proof.
  intros [_ _ _ _ _ (a & f & _ & [[Hs _ _ _] _] & [Hl _ _] & _) _]. rewrite length_app, Hs in Hl. done.
Qed.

(** Reporting the first bytes of those that the stream has written. *)
Lemma dma_report n f q r1 r2 : (0 < n)%nat -> Z.of_nat n <= 32768 -> dma_fifo n f q -> ring_repr (buffer f) (get_index f) (q ++ r1 ++ r2) -> Forall is_u8 r1 ->
  let f' := rt_dma_recv_update_put_index n (length r1) f in
  dma_fifo n f' (q ++ r1) /\ ring_repr (buffer f') (get_index f') ((q ++ r1) ++ r2) /\ put_index f' = ((put_index f + length r1) mod n)%nat.
Proof.
  intros Hn H16 Hf Hr Hb f'. pose proof Hf as [Hrep _]. destruct (fifo_cases _ _ _ Hrep) as (Hl & Hg & Hp & Hc). pose proof Hrep as [Hs _ Hw _].
  pose proof Hr as [Hlen _ _]. rewrite !length_app, Hs in Hlen.
  assert (ring_written (buffer f) (put_index f) r1 (buffer f)) as W.
  { split; [done| |done]. intros i Hi. rewrite app_assoc in Hr. apply ring_prefix in Hr. rewrite Hw, Hs, Nat.Div0.add_mod_idemp_l, <-Nat.add_assoc.
    pose proof (ring_read _ _ _ (length q + i) Hr ltac:(rewrite length_app; lia)) as H. rewrite Hs in H. rewrite H.
    rewrite lookup_app_r by lia. f_equal. lia. }
  pose proof (dma_put_repr n f q r1 (buffer f) Hf Hn ltac:(lia) ltac:(lia) Hb W) as H. replace (with_buffer (buffer f) f) with f in H by (by destruct f). fold f' in H.
  rewrite last_bytes_all in H by (rewrite length_app; lia).
  assert (put_index f' = ((put_index f + length r1) mod n)%nat) as Ep.
  { subst f'. unfold rt_dma_recv_update_put_index. rewrite index16_small by lia. rewrite (mod_wrap (put_index f + length r1)) by lia.
    destruct (Nat.leb_spec (get_index f) (put_index f)), (Nat.leb_spec n (put_index f + length r1)), (Nat.leb_spec (get_index f) (put_index f + length r1));
      simpl; rewrite ?(mod_wrap (put_index f + length r1)) by lia; repeat case_decide; lia. }
  split; [done|]. split; [|done]. rewrite <-app_assoc.
  assert (buffer f' = buffer f) as -> by (subst f'; unfold rt_dma_recv_update_put_index; by repeat case_match).
  destruct H as [Hrep' _]. destruct (fifo_cases _ _ _ Hrep') as (_ & Hg' & _ & Hc'). rewrite Ep, length_app in Hc'. rewrite Hw in Ep, Hc'.
  rewrite Nat.Div0.add_mod_idemp_l in Hc'. rewrite (mod_wrap (get_index f + length q + length r1)) in Hc' by lia.
  replace (get_index f') with (get_index f); [done|]. case_decide; lia.
Qed.

Lemma dma_done_len len : Z.of_nat len < 65536 -> dma_done (Z.of_nat len) = Some (RT_SERIAL_EVENT_RX_DMADONE len).
Proof. intros Hl. unfold dma_done. rewrite (proj2 (Z.ltb_lt _ _)) by lia. by rewrite Nat2Z.id. Qed.

(** The interrupt routine of the framework on such a report. *)
Lemma isr_dma fuel s a f len : ser_rx s.2 = RxIsFifo a f -> (0 < bufsz_of s)%nat -> Z.of_nat len < 65536 ->
  exists r, (e ← dma_done (Z.of_nat len); rt_hw_serial_isr fuel e s) = Some (set_rx (RxIsFifo a (rt_dma_recv_update_put_index (bufsz_of s) len f)) s, r).
Proof.
  intros Ea Hn Hl. rewrite dma_done_len by done. cbn [mbind option_bind]. unfold rt_hw_serial_isr. rewrite (proj2 (Nat.eqb_neq _ _)) by lia.
  rewrite (rx_fifo_eq _ _ _ Ea). simpl. eexists. unfold put_fifo. by rewrite Ea.
Qed.

(** The end of a round: the bytes up to the end of the buffer are reported. *)
Lemma round_dma fuel s q r : dma_uart s q r -> exists s' x r1 r2, r = r1 ++ r2 /\
  USART_RX_DMA_ISR fuel s = Some (s', x) /\ dma_uart s' (q ++ r1) r2 /\ bufsz_of s' = bufsz_of s /\ u_tc (ser_low s'.2) = false.
Proof.
  intros Hs. pose proof (dma_uart_room _ _ _ Hs) as Hroom. pose proof Hs as [Hn Hi Hfl H1 H2 (a & f & Ea & Hf & Hr & Hlast & Hd & Htc) Hb].
  pose proof Hf as [Hrep _]. destruct (fifo_cases _ _ _ Hrep) as (_ & Hg & Hp & Hc). unfold USART_RX_DMA_ISR. rewrite Htc.
  case_bool_decide as Hw. 2: { exists s, None, [], r. rewrite app_nil_r. splits; done. }
  set (n := bufsz_of s) in *. set (k := (n - put_index f)%nat). exists (set_rx (RxIsFifo a (rt_dma_recv_update_put_index n k f))
    (on_uart (set_last_index 0) (on_uart (set_dma (u_dma (ser_low s.2)) false) s))).
  unfold HAL_UART_RxCpltCallback.
  replace (u32 (Z.of_nat (bufsz_of (on_uart (set_dma (u_dma (ser_low s.2)) false) s)) - u_last_index (ser_low (on_uart (set_dma (u_dma (ser_low s.2)) false) s).2))) with (Z.of_nat k).
  2: { change (bufsz_of (on_uart (set_dma (u_dma (ser_low s.2)) false) s)) with n. simpl. rewrite Hlast. rewrite u32_small by (unfold is_u32; lia). lia. }
  rewrite (proj2 (Z.eqb_neq (Z.of_nat k) 0)) by lia. cbn [negb].
  destruct (isr_dma fuel (on_uart (set_last_index 0) (on_uart (set_dma (u_dma (ser_low s.2)) false) s)) a f k) as [x Hx]; [done|apply Hn|lia|].
  exists x, (take k r), (drop k r). split; [by rewrite take_drop|]. split; [exact Hx|].
  assert (length (take k r) = k) as Ek by (rewrite length_take; lia).
  rewrite <-(take_drop k r) in Hr, Hb. apply Forall_app in Hb as [Hb1 Hb2].
  destruct (dma_report n f q (take k r) (drop k r) ltac:(lia) ltac:(lia) Hf Hr Hb1) as (Hf' & Hr' & Hp'). rewrite Ek in Hf', Hr', Hp'.
  rewrite mod_wrap in Hp' by lia. rewrite decide_False in Hp' by lia.
  split; [|done]. split; try done. exists a, (rt_dma_recv_update_put_index n k f). split; [done|]. split; [exact Hf'|]. split; [done|].
  rewrite Hp', length_drop. change (bufsz_of _) with n. simpl. split; [lia|]. split.
  - rewrite Hd. f_equal. fold n. rewrite !mod_wrap by lia. repeat case_decide; lia.
  - symmetry. apply bool_decide_false. lia.
Qed.

(** The line is idle: when the interrupt of the stream has been served, all bytes
    are reported. *)
Lemma idle_dma fuel s q r : dma_uart s q r -> u_tc (ser_low s.2) = false -> idle_flag (ser_low s.2) = true -> exists s' x,
  uart_isr fuel [] s = Some (s', x) /\ dma_uart s' (q ++ r) [] /\ bufsz_of s' = bufsz_of s.
Proof.
  intros Hs Htc0 Hidle. pose proof (dma_uart_room _ _ _ Hs) as Hroom. pose proof Hs as [Hn Hi Hfl H1 H2 (a & f & Ea & Hf & Hr & Hlast & Hd & Htc) Hb].
  pose proof Hf as [Hrep _]. destruct (fifo_cases _ _ _ Hrep) as (_ & Hg & Hp & Hc).
  rewrite Htc in Htc0. apply bool_decide_eq_false in Htc0. unfold uart_isr, flag_of. rewrite flag_rxne, flag_idle, it_rxne, it_idle, H1, H2, Hidle, andb_false_r. cbn [andb].
  set (n := bufsz_of s) in *. set (pos := (put_index f + length r)%nat) in *.
  assert (dma_counter s = Z.of_nat n - Z.of_nat pos) as -> by (unfold dma_counter; rewrite Hd; fold n; simpl; rewrite mod_wrap by lia; rewrite decide_True by lia; done).
  replace (u32 (Z.of_nat n - (Z.of_nat n - Z.of_nat pos))) with (Z.of_nat pos) by (rewrite u32_small by (unfold is_u32; lia); lia).
  rewrite Hlast. replace (u32 (Z.of_nat pos - Z.of_nat (put_index f))) with (Z.of_nat (length r)) by (rewrite u32_small by (unfold is_u32; lia); lia).
  set (s1 := on_uart (set_last_index (Z.of_nat pos)) s).
  assert (exists s2 x, (if negb (Z.of_nat (length r) =? 0) then e ← dma_done (Z.of_nat (length r)); rt_hw_serial_isr fuel e s1 else Some (s1, None)) = Some (s2, x) /\
    s2 = set_rx (RxIsFifo a (rt_dma_recv_update_put_index n (length r) f)) s1) as (s2 & x & -> & ->).
  { destruct (Z.eqb_spec (Z.of_nat (length r)) 0) as [E|E]; simpl.
    - exists s1, None. split; [done|]. assert (r = []) as -> by (by apply length_zero_iff_nil; lia).
      change (length (@nil Z)) with 0%nat. assert (rt_dma_recv_update_put_index n 0 f = f) as ->.
      { unfold rt_dma_recv_update_put_index. rewrite index16_small by lia. destruct Hf as [_ Hfull]. destruct f as [b p g [|]]; simpl in *; rewrite Nat.add_0_r.
        - assert (length q = n) by by apply Hfull. assert (p = g) as -> by lia. rewrite Nat.leb_refl, (proj2 (Nat.leb_gt n g)) by lia. simpl.
          by rewrite (proj2 (Nat.leb_gt n g)) by lia.
        - rewrite (proj2 (Nat.leb_gt n p)) by lia. destruct (Nat.leb_spec g p); simpl; by rewrite (proj2 (Nat.leb_gt n g)) by lia. }
      subst s1. destruct s as [d0 s0], s0 as [c0 rx0 t0 l0 h0]. simpl in *. by subst rx0.
    - destruct (isr_dma fuel s1 a f (length r)) as [x Hx]; [done|apply Hn|lia|]. by eexists _, x. }
  simpl. eexists _, x. split; [done|].
  assert (Forall is_u8 r) as Hb' by done. rewrite <-(app_nil_r r) in Hr.
  destruct (dma_report n f q r [] ltac:(lia) ltac:(lia) Hf Hr Hb') as (Hf' & Hr' & Hp'). rewrite mod_wrap in Hp' by lia. rewrite decide_True in Hp' by lia. fold pos in Hp'.
  split; [|done]. split; try done. exists a, (rt_dma_recv_update_put_index n (length r) f). split; [done|]. split; [exact Hf'|]. split; [done|].
  rewrite Hp'. change (bufsz_of _) with n. simpl. rewrite Nat.add_0_r. split; [done|]. split.
  - rewrite Hd. fold n pos. done.
  - rewrite Htc. fold n pos. done.
Qed.

Lemma byte_dma c s q r : dma_uart s q r -> is_u8 c -> (length q + length r < bufsz_of s)%nat ->
  exists s', line_byte c s = Some s' /\ dma_uart s' q (r ++ [c]) /\ bufsz_of s' = bufsz_of s.
Proof.
  intros Hs Hc Hroom. pose proof Hs as [Hn Hi Hfl H1 H2 (a & f & Ea & Hf & Hr & Hlast & Hd & Htc) Hb].
  pose proof Hf as [Hrep Hfull]. destruct (fifo_cases _ _ _ Hrep) as (_ & Hg & Hp & Hcs). pose proof Hrep as [Hsz Hq Hw Hbq].
  set (n := bufsz_of s) in *. unfold line_byte. rewrite Hd. fold n. rewrite (rx_fifo_eq _ _ _ Ea).
  set (pos := ((put_index f + length r) mod n)%nat) in *. cbv zeta. cbn [mbind option_bind].
  assert (exists wrap, (S pos =? n)%nat = wrap /\ (wrap = true /\ S pos = n \/ wrap = false /\ S pos <> n)) as (wrap & -> & Hwrap)
    by (eexists; split; [done|destruct (Nat.eqb_spec (S pos) n); auto]).
  eexists. split; [done|]. assert (forall x y, bufsz_of (on_uart x (put_fifo y s)) = n) as Hsame by (intros; unfold put_fifo; by rewrite Ea).
  split; [|apply Hsame].
  assert (ring_repr (<[pos := c]> (buffer f)) (get_index f) (q ++ r ++ [c])) as Hr'.
  { pose proof (ring_push _ _ _ c Hr ltac:(rewrite length_app, Hsz; lia)) as H. rewrite <-app_assoc in H. subst pos. rewrite Hw.
    rewrite Nat.Div0.add_mod_idemp_l. rewrite length_app, Hsz in H. by rewrite Nat.add_assoc in H. }
  split; rewrite ?Hsame; try done; try (unfold put_fifo, open_flag_of; rewrite Ea; done).
  - exists a, (RxFifo (<[pos := c]> (buffer f)) (put_index f) (get_index f) (is_full f)). unfold put_fifo. rewrite Ea. simpl.
    split; [done|]. split; [split; [split; simpl; [by rewrite length_insert|by apply ring_prefix in Hr'|done|done]|done]|]. split; [done|]. split; [done|].
    rewrite length_app. simpl. split.
    + f_equal. subst pos. rewrite !mod_wrap in * by lia. destruct Hwrap as [[-> E]|[-> E]]; repeat case_decide; lia.
    + rewrite Htc. subst pos. rewrite mod_wrap in Hwrap by lia. destruct Hwrap as [[-> E]|[-> E]]; rewrite ?orb_true_r, ?orb_false_r;
        repeat case_bool_decide; repeat case_decide; try done; lia.
  - apply Forall_app_2; [done|by constructor].
Qed.

Lemma serial_read_dma k s q r : dma_uart s q r -> exists s' m, rt_serial_read k s = Some (s', (m, take k q)) /\ dma_uart s' (drop k q) r /\ bufsz_of s' = bufsz_of s.
Proof.
  intros Hs. pose proof Hs as [Hn Hi Hfl H1 H2 (a & f & Ea & Hf & Hr & Hlast & Hd & Htc) Hb]. unfold rt_serial_read.
  destruct (Nat.eqb_spec k 0) as [->|Hk]; [by exists s, 0%nat|]. rewrite Hi, Hfl. unfold _serial_dma_rx.
  rewrite (proj2 (Nat.eqb_neq (bufsz_of s) 0)) by lia. rewrite (rx_fifo_eq _ _ _ Ea). simpl. pose proof Hf as [Hrep _]. 
  rewrite (dma_recved _ _ _ Hf) by lia. set (len := (if (k <? length q)%nat then k else length q)).
  assert (len <= length q)%nat as Hlen by (subst len; destruct (Nat.ltb_spec k (length q)); lia).
  rewrite (dma_copied _ _ _ _ Hrep Hlen).
  assert (take len q = take k q /\ drop len q = drop k q) as [<- <-].
  { subst len. destruct (Nat.ltb_spec k (length q)); [done|]. rewrite !(take_ge q), !(drop_ge q) by lia. done. }
  set (n := bufsz_of s) in *. eexists _, _. split; [done|]. assert (forall y, bufsz_of (put_fifo y s) = n) as Hsame by (intros; unfold put_fifo; by rewrite Ea).
  split; [|apply Hsame]. split; rewrite ?Hsame; try done; try (unfold put_fifo, open_flag_of; rewrite Ea; done).
  exists a, (rt_dma_recv_update_get_index n len f). unfold put_fifo. rewrite Ea. simpl. split; [done|]. split; [by apply dma_get_repr; [|lia|lia|]|].
  split; [|done]. pose proof (ring_drop _ _ _ len Hr ltac:(rewrite length_app; lia)) as H. rewrite drop_app_le in H by done.
  destruct (fifo_cases _ _ _ Hrep) as (Hl & Hg & _). destruct Hrep as [Hsz _ _ _]. rewrite Hsz in H.
  rewrite index16_small by lia. destruct (Nat.leb_spec n (get_index f + len)); [done|]. by rewrite Nat.mod_small in H by lia.
Qed.

(** The events; [DIdle]: the line falls idle and the pending interrupts are served,
    that of the stream first, which has the higher priority. *)
Inductive dma_event := DByte (c : Z) | DRound | DIdle | DRead (k : nat).
Definition dma_step (fuel : nat) (e : dma_event) (s : uart_dev) : option (uart_dev * list Z) :=
  match e with
  | DByte c => s ← line_byte c s; Some (s, [])
  | DRound => '(s, _) ← USART_RX_DMA_ISR fuel s; Some (s, [])
  | DIdle => '(s, _) ← USART_RX_DMA_ISR fuel (line_idle s); '(s, _) ← uart_isr fuel [] s; Some (s, [])
  | DRead k => '(s, (_, data)) ← rt_serial_read k s; Some (s, data)
  end.
Fixpoint dma_run (fuel : nat) (l : list dma_event) (s : uart_dev) : option (uart_dev * list Z) :=
  match l with
  | [] => Some (s, [])
  | e :: l => '(s, d1) ← dma_step fuel e s; '(s, d2) ← dma_run fuel l s; Some (s, d1 ++ d2)
  end.

(** The bytes of the line. *)
Definition event_bytes (e : dma_event) : list Z := match e with DByte c => [c] | _ => [] end.
Definition arrived (l : list dma_event) : list Z := l ≫= event_bytes.

(** The reader keeps up: [m] bytes wait, and the buffer has a cell for every byte
    that arrives. *)
Fixpoint keeps_up (fuel : nat) (m : nat) (l : list dma_event) (s : uart_dev) : bool :=
  match l with
  | [] => true
  | e :: l =>
      match e with DByte c => bool_decide (is_u8 c) && (m <? bufsz_of s)%nat | _ => true end &&
      match dma_step fuel e s with Some (s', d) => keeps_up fuel (m + length (event_bytes e) - length d) l s' | None => true end
  end.

Lemma line_idle_dma s q r : dma_uart s q r -> dma_uart (line_idle s) q r /\ idle_flag (ser_low (line_idle s).2) = true.
Proof.
  intros [Hn Hi Hfl H1 H2 Hf Hb]. split; [by split|].
  change (Z.testbit (Z.lor (SR (u_regs (ser_low s.2))) UART_FLAG_IDLE) 4 = true). by rewrite Z.lor_spec, orb_true_r.
Qed.

Lemma isr_dma_idle fuel s s' x : USART_RX_DMA_ISR fuel s = Some (s', x) -> idle_flag (ser_low s.2) = true -> idle_flag (ser_low s'.2) = true.
Proof.
  unfold USART_RX_DMA_ISR, HAL_UART_RxCpltCallback. intros H Hi. destruct (u_tc (ser_low s.2)); [|by injection H as <- _].
  destruct (negb _); [|by injection H as <- _]. apply bind_Some in H as (e & He & H).
  unfold dma_done in He. case_match; [|done]. injection He as <-. unfold rt_hw_serial_isr in H.
  destruct (bufsz_of _ =? 0)%nat; [destruct (ser_rx _); [done|done|by injection H as <- _]|].
  apply bind_Some in H as (f & Hf & H). injection H as <- _. unfold put_fifo. by destruct (ser_rx _).
Qed.

Lemma idle_step fuel s q r : dma_uart s q r ->
  exists s', dma_step fuel DIdle s = Some (s', []) /\ dma_uart s' (q ++ r) [] /\ bufsz_of s' = bufsz_of s.
Proof.
  intros Hs. destruct (line_idle_dma s q r Hs) as [Hs0 Hi]. destruct (round_dma fuel _ q r Hs0) as (s1 & x & r1 & r2 & -> & E1 & Hs1 & Eb & Htc).
  pose proof (isr_dma_idle _ _ _ _ E1 Hi) as Hi1. unfold dma_step. rewrite E1. cbn [mbind option_bind].
  destruct (idle_dma fuel s1 (q ++ r1) r2 Hs1 Htc Hi1) as (s2 & x2 & -> & Hs2 & Eb2). exists s2. rewrite app_assoc. splits; [done|done|by rewrite Eb2].
Qed.

Lemma read_step fuel k s q r : dma_uart s q r ->
  exists s', dma_step fuel (DRead k) s = Some (s', take k q) /\ dma_uart s' (drop k q) r /\ bufsz_of s' = bufsz_of s.
Proof. intros Hs. destruct (serial_read_dma k s q r Hs) as (s' & m & E & Hs'). unfold dma_step. rewrite E. by exists s'. Qed.

Lemma dma_step_spec fuel e s q r : dma_uart s q r -> (forall c, e = DByte c -> is_u8 c /\ (length q + length r < bufsz_of s)%nat) ->
  exists s' d q' r', dma_step fuel e s = Some (s', d) /\ dma_uart s' q' r' /\ q ++ r ++ event_bytes e = d ++ q' ++ r' /\ bufsz_of s' = bufsz_of s.
Proof.
  intros Hs He. destruct e as [c| | |k].
  - destruct (He c eq_refl) as [Hc Hroom]. destruct (byte_dma c s q r Hs Hc Hroom) as (s' & E & Hs' & En). unfold dma_step. rewrite E. by exists s', [], q, (r ++ [c]).
  - destruct (round_dma fuel s q r Hs) as (s' & x & r1 & r2 & -> & E & Hs' & En & _). unfold dma_step. rewrite E. exists s', [], (q ++ r1), r2.
    splits; try done. simpl. by rewrite app_nil_r, app_assoc.
  - destruct (idle_step fuel s q r Hs) as (s' & -> & Hs' & En). exists s', [], (q ++ r), []. splits; try done. simpl. by rewrite !app_nil_r.
  - destruct (read_step fuel k s q r Hs) as (s' & -> & Hs' & En). exists s', (take k q), (drop k q), r.
    splits; try done. simpl. by rewrite app_nil_r, app_assoc, take_drop.
Qed.

(** C22: Reception by DMA into a FIFO of at most 32768 bytes (the indices are 16-bit
    numbers that are added to before they are reduced: [dma_get_index_wraps]): as long as
    the reader keeps up with the line, every byte reaches it once and in order, in whatever
    order bytes, interrupts and reads come (each interrupt and each read is one step) and
    whatever the reader asks for: what was waiting and what arrives is what is read and
    what still waits. When the line has fallen idle, everything is in the FIFO, and a read
    gives as much of it as it asks for. *)
Theorem uart_dma_refines (fuel : nat) (l : list dma_event) (s : uart_dev) (q r : list Z) :
  dma_uart s q r -> keeps_up fuel (length q + length r) l s = true ->
  exists s' data q' r', dma_run fuel l s = Some (s', data) /\ dma_uart s' q' r' /\ q ++ r ++ arrived l = data ++ q' ++ r' /\
    forall k, exists s2, dma_run fuel [DIdle; DRead k] s' = Some (s2, take k (q' ++ r')) /\ dma_uart s2 (drop k (q' ++ r')) [].
Proof.
  revert s q r. induction l as [|e l IH]; intros s q r Hs Hk.
  - exists s, [], q, r. splits; [done|done|by rewrite app_nil_r|]. intros k. cbn [dma_run].
    destruct (idle_step fuel s q r Hs) as (s1 & -> & Hs1 & _). cbn [mbind option_bind].
    destruct (read_step fuel k s1 (q ++ r) [] Hs1) as (s2 & -> & Hs2 & _). cbn [mbind option_bind]. exists s2. by rewrite app_nil_r.
  - cbn [keeps_up] in Hk. apply andb_true_iff in Hk as [Hb Hk].
    destruct (dma_step_spec fuel e s q r Hs) as (s1 & d1 & q1 & r1 & E1 & Hs1 & Eb & En).
    { intros c ->. apply andb_true_iff in Hb as [Hb1 Hb2]. apply bool_decide_eq_true in Hb1. by apply Nat.ltb_lt in Hb2. }
    rewrite E1 in Hk. assert (length (q ++ r ++ event_bytes e) = length (d1 ++ q1 ++ r1)) as El by by rewrite Eb. rewrite !length_app in El.
    replace (length q + length r + length (event_bytes e) - length d1)%nat with (length q1 + length r1)%nat in Hk by lia.
    destruct (IH s1 q1 r1 Hs1 Hk) as (s2 & d2 & q2 & r2 & E2 & Hs2 & Eb2 & Hlast). exists s2, (d1 ++ d2), q2, r2.
    cbn [dma_run]. rewrite E1. cbn [mbind option_bind]. rewrite E2. splits; try done.
    unfold arrived in *. rewrite bind_cons, !app_assoc, <-(app_assoc q r), Eb, <-!app_assoc, Eb2. done.
Qed.

(** ** Opening and closing *)

Lemma lor_bit_has x m k : 0 <= k -> m = 2 ^ k -> has (Z.lor x m) m = true.
Proof. intros Hk ->. rewrite has_bit by done. by rewrite Z.lor_spec, Z.pow2_bits_true, orb_true_r. Qed.
Lemma lor_bit_other x m n j k : 0 <= j -> 0 <= k -> j <> k -> m = 2 ^ j -> n = 2 ^ k -> has (Z.lor x n) m = has x m.
Proof. intros Hj Hk Hjk -> ->. rewrite !has_bit by done. by rewrite Z.lor_spec, Z.pow2_bits_false, orb_false_r. Qed.
Lemma has_low_byte_zero x m k : 8 <= k -> m = 2 ^ k -> has (Z.land x 255) m = false.
Proof. intros Hk ->. rewrite has_bit by lia. rewrite Z.land_spec. change 255 with (Z.ones 8). by rewrite Z.ones_spec_high, andb_false_r by lia. Qed.

(** What an open finds: no client, nothing pending, the device initialised and
    registered without transmission by interrupts, as [rt_hw_usart_init] does. *)
Record closed_uart (s : uart_dev) : Prop := {
  cu_rx : ser_rx s.2 = RxNone;
  cu_tx : ser_tx s.2 = TxNone;
  cu_size : (2 <= bufsz_of s)%nat /\ Z.of_nat (bufsz_of s) < 65536;
  cu_int_tx : has (dev_flag s.1) RT_DEVICE_FLAG_INT_TX = false;
  cu_dma_tx : has (dev_flag s.1) RT_DEVICE_FLAG_DMA_TX = false;
  cu_rxne : rxne (ser_low s.2) = false;
  cu_rxneie : rxneie (ser_low s.2) = false;
  cu_idleie : idleie (ser_low s.2) = false;
  cu_dma : u_dma (ser_low s.2) = None;
  cu_ready : u_rx_ready (ser_low s.2) = true;
  cu_last : u_last_index (ser_low s.2) = 0;
}.

Lemma alloc_heap size (s s' : uart_dev) a : alloc size s = Some (s', a) -> exists h, s' = set_heap h s.
Proof. unfold alloc. intros H. apply bind_Some in H as ([h x] & _ & H). apply bind_Some in H as (y & _ & H). injection H as <- _. by exists h. Qed.

(** The receiving side of an open, from a closed device. *)
Lemma open_rx_keeps oflag s s1 : ser_rx s.2 = RxNone -> open_rx oflag s = Some s1 -> ser_tx s1.2 = ser_tx s.2 /\ ser_config s1.2 = ser_config s.2.
Proof.
  intros E H. unfold open_rx, alloc in H. rewrite E in H.
  destruct (has oflag RT_DEVICE_FLAG_INT_RX); [|destruct (has oflag RT_DEVICE_FLAG_DMA_RX); [destruct (bufsz_of s =? 0)%nat|by injection H as <-]];
    repeat (apply bind_Some in H as (? & ? & H)); simplify_option_eq; by repeat case_match; simplify_option_eq.
Qed.

(** An open that succeeds does nothing for transmission. *)
Lemma open_rx_only n oflag s s' : closed_uart s -> rt_serial_open n oflag s = Some (s', RT_EOK) -> exists s1 fl,
  open_rx oflag (dev_of (set_open_flag (Z.land oflag 255)) s) = Some s1 /\ s' = add_open_flag fl s1 /\ (fl = 0 \/ fl = RT_DEVICE_FLAG_STREAM) /\
  bufsz_of s' = bufsz_of s.
Proof.
  intros Hs H. unfold rt_serial_open in H. rewrite (cu_int_tx _ Hs), (cu_dma_tx _ Hs) in H. cbn [negb] in H.
  destruct (has oflag RT_DEVICE_FLAG_INT_TX) eqn:Hi; [by rewrite orb_true_r in H|].
  destruct (has oflag RT_DEVICE_FLAG_DMA_TX) eqn:Hd; [by rewrite !orb_true_r in H|].
  case_match; [done|]. apply bind_Some in H as (s1 & H1 & H). 
  destruct (open_rx_keeps _ (dev_of (set_open_flag (Z.land oflag 255)) s) _ (cu_rx _ Hs) H1) as [Et Ec]. unfold open_tx in H. rewrite Et in H. simpl in H. rewrite (cu_tx _ Hs), Hi, Hd in H. simpl in H.
  injection H as <-. eexists s1, _. split; [done|]. split; [done|]. split; [|unfold bufsz_of; simpl; by rewrite Ec].
  case_match; auto.
Qed.

Lemma rxneie_enable u : rxneie (__HAL_UART_ENABLE_IT UART_IT_RXNE u) = true /\ idleie (__HAL_UART_ENABLE_IT UART_IT_RXNE u) = idleie u.
Proof.
  split; [change (Z.testbit (Z.lor (CR1 (u_regs u)) 32) 5 = true)|change (Z.testbit (Z.lor (CR1 (u_regs u)) 32) 4 = idleie u)];
    rewrite Z.lor_spec; [by rewrite orb_true_r|by rewrite orb_false_r].
Qed.

(** Opening for reception by interrupts gives the device of [uart_rx_refines], empty. *)
Theorem uart_opened_int n oflag s s' : closed_uart s -> has oflag RT_DEVICE_FLAG_INT_RX = true ->
  rt_serial_open n oflag s = Some (s', RT_EOK) -> int_uart s' [] [] /\ bufsz_of s' = bufsz_of s.
Proof.
  intros Hs Hi H. destruct (open_rx_only _ _ _ _ Hs H) as (s1 & fl & H1 & -> & Hfl & Eb). split; [|done]. clear H.
  unfold open_rx in H1. simpl in H1. rewrite (cu_rx _ Hs), Hi in H1. 
  apply bind_Some in H1 as ([d a] & [h ->]%alloc_heap & H1). injection H1 as <-. destruct (rxneie_enable (NVIC_EnableIRQ (irq_type (u_config (ser_low s.2))) (ser_low s.2))) as [R1 R2].
  destruct (new_fifo_repr (bufsz_of s)) as (_ & Hf & _); [pose proof (cu_size _ Hs); lia|]. destruct Hs.
  split.
  - split; [unfold bufsz_of in *; simpl; lia|]. split; [done|]. eexists _, _. done.
  - simpl. unfold bufsz_of in *. simpl. lia.
  - unfold open_flag_of. simpl. destruct Hfl as [->| ->].
    + rewrite Z.lor_0_r. by apply (lor_bit_has _ _ 8).
    + rewrite (lor_bit_other _ _ _ 8 6) by done. by apply (lor_bit_has _ _ 8).
  - exact R1.
  - simpl. rewrite R2. done.
  - done.
Qed.

Lemma idleie_enable u : idleie (__HAL_UART_ENABLE_IT UART_IT_IDLE u) = true /\ rxneie (__HAL_UART_ENABLE_IT UART_IT_IDLE u) = rxneie u.
Proof.
  split; [change (Z.testbit (Z.lor (CR1 (u_regs u)) 16) 4 = true)|change (Z.testbit (Z.lor (CR1 (u_regs u)) 16) 5 = rxneie u)];
    rewrite Z.lor_spec; [by rewrite orb_true_r|by rewrite orb_false_r].
Qed.
Lemma dma_config_its u : u_rx_ready u = true -> let v := stm32_dma_config u in
  idleie v = true /\ rxneie v = rxneie u /\ u_dma v = Some 0%nat /\ u_tc v = false /\ u_last_index v = u_last_index u /\ u_rx_ready v = false.
Proof.
  intros Hr v. subst v. unfold stm32_dma_config, HAL_UART_Receive_DMA. change (u_rx_ready (set_dma None (u_tc u) u)) with (u_rx_ready u). rewrite Hr.
  match goal with |- context [__HAL_UART_ENABLE_IT UART_IT_IDLE ?w] => destruct (idleie_enable w) as [R1 R2] end.
  splits; [exact R1| |done..]. etransitivity; [exact R2|].
  change (Z.testbit (Z.lor (CR1 (u_regs u)) 256) 5 = rxneie u). by rewrite Z.lor_spec, orb_false_r.
Qed.

(** Opening for reception by DMA for the first time gives the device of
    [uart_dma_refines], empty. *)
Theorem uart_opened_dma n oflag s s' : closed_uart s -> Z.of_nat (bufsz_of s) <= 32768 -> has oflag RT_DEVICE_FLAG_INT_RX = false -> has oflag RT_DEVICE_FLAG_DMA_RX = true ->
  rt_serial_open n oflag s = Some (s', RT_EOK) -> dma_uart s' [] [] /\ bufsz_of s' = bufsz_of s.
Proof.
  intros Hs H15 Hi Hd H. destruct (open_rx_only _ _ _ _ Hs H) as (s1 & fl & H1 & -> & Hfl & Eb). split; [|done]. clear H.
  unfold open_rx in H1. simpl in H1. rewrite (cu_rx _ Hs), Hi, Hd in H1. 
  apply bind_Some in H1 as (s2 & H2 & H1). injection H1 as <-. rewrite (proj2 (Nat.eqb_neq _ _)) in H2 by (pose proof (cu_size _ Hs); unfold bufsz_of in *; simpl; lia).
  apply bind_Some in H2 as ([d a] & [h ->]%alloc_heap & H2). injection H2 as <-.
  destruct (new_fifo_repr (bufsz_of s)) as (Hrep & _ & Hf); [pose proof (cu_size _ Hs); lia|].
  destruct (dma_config_its (ser_low s.2) (cu_ready _ Hs)) as (R1 & R2 & R3 & R4 & R5 & _). destruct Hs. split.
  - unfold bufsz_of in *. simpl. lia.
  - unfold open_flag_of. simpl. destruct Hfl as [->| ->]; rewrite ?Z.lor_0_r, ?(lor_bit_other _ _ 64 8 6) by done;
      rewrite (lor_bit_other _ _ _ 8 9) by done; apply (has_low_byte_zero _ _ 8); done.
  - unfold open_flag_of. simpl. destruct Hfl as [->| ->]; rewrite ?Z.lor_0_r, ?(lor_bit_other _ _ 64 9 6) by done; by apply (lor_bit_has _ _ 9).
  - simpl. rewrite R2. done.
  - exact R1.
  - eexists _, _. split; [done|]. split; [done|]. split; [by destruct Hrep|]. simpl. split; [by rewrite R5|]. split.
    + rewrite R3. simpl. by rewrite Nat.Div0.mod_0_l.
    + rewrite R4. symmetry. apply bool_decide_false. unfold bufsz_of in *. simpl. lia.
  - done.
Qed.

(** *** A device *)

(** USART1 at 84 MHz, with a FIFO of four bytes. *)
Definition demo_usart : stm32_uart :=
  StmUart (UartConfig 37 68 84000000) (UartInit 0 0 0 0 0 0 0) (Usart 192 0 0 0 0 0) false 0 None false ∅ [].
Definition demo_registered : uart_dev :=
  set_config (SerialConfigure 115200 8 0 0 0 0 4) (rt_hw_usart_init (RtDevice 0 0 0 false false, Serial RT_SERIAL_CONFIG_DEFAULT RxNone TxNone demo_usart demo_heap)).
Definition demo_closed : uart_dev := match rt_serial_init demo_registered with Some (s, _) => s | None => demo_registered end.
Definition demo_open (oflag : Z) : uart_dev := match rt_serial_open 40 oflag demo_closed with Some (s, _) => s | None => demo_closed end.

Lemma demo_closed_ok : closed_uart demo_closed.
Proof. split; try reflexivity. split; [by apply Nat.leb_le|reflexivity]. Qed.
Lemma demo_int_ok : int_uart (demo_open 259) [] [] /\ bufsz_of (demo_open 259) = 4%nat.
Proof. apply (uart_opened_int 40 259 demo_closed); [apply demo_closed_ok|done|by vm_compute]. Qed.
Lemma demo_dma_ok : dma_uart (demo_open 515) [] [] /\ bufsz_of (demo_open 515) = 4%nat.
Proof. apply (uart_opened_dma 40 515 demo_closed); [apply demo_closed_ok|done..|by vm_compute]. Qed.

(** Five bytes arrive, the third while the second is still in the register, the fourth
    while the interrupt is served. *)
Definition demo_events : list uart_event :=
  [EvByte 104; EvInterrupt []; EvByte 105; EvByte 33; EvInterrupt [46]; EvRead 1; EvByte 10; EvInterrupt []; EvRead 8].

Lemma uart_rx_refines_witness : exists s', uart_run 2 demo_events (demo_open 259) = Some (s', [104; 105; 10]).
Proof.
  destruct demo_int_ok as [Hs Hn].
  destruct (uart_rx_refines 2 demo_events (demo_open 259) [] [] ltac:(lia) Hs) as (s' & E & _).
  { repeat constructor; word. }
  exists s'. rewrite E, Hn. reflexivity.
Defined.

(** Six bytes through the buffer of four, reported when a round ends, when the line
    is idle, and read in between. *)
Definition demo_dma_events : list dma_event :=
  [DByte 1; DByte 2; DByte 3; DIdle; DRead 2; DByte 4; DRound; DByte 5; DRead 9; DByte 6; DIdle].

Lemma uart_dma_refines_witness : exists s' data q r, dma_run 2 demo_dma_events (demo_open 515) = Some (s', data) /\
  data = [1; 2; 3; 4] /\ data ++ q ++ r = [1; 2; 3; 4; 5; 6].
Proof.
  destruct demo_dma_ok as [Hs _].
  destruct (uart_dma_refines 2 demo_dma_events (demo_open 515) [] [] Hs) as (s' & data & q & r & E & _ & Eb & _); [by vm_compute|].
  exists s', data, q, r. split; [exact E|]. split; [|by symmetry].
  assert (option_map snd (dma_run 2 demo_dma_events (demo_open 515)) = Some [1; 2; 3; 4]) as H by (vm_compute; reflexivity).
  rewrite E in H. by injection H.
Defined.

(** ** Sending *)

(** What the framework hands to the line: a carriage return before a line feed on a
    stream device. *)
Definition line_bytes (open_flag c : Z) : list Z := (if (c =? 10) && has open_flag RT_DEVICE_FLAG_STREAM then [13] else []) ++ [u8 c].

Lemma putc_sent open_flag c (u : stm32_uart) : u_sent (putc_ open_flag c u) = u_sent u ++ [u8 c].
Proof. done. Qed.

(** A polled write sends every byte, in order. *)
Theorem uart_poll_sends (open_flag : Z) (data : list Z) (u : stm32_uart) :
  u_sent (_serial_poll_tx open_flag data u) = u_sent u ++ (data ≫= line_bytes open_flag).
Proof.
  revert u. induction data as [|c data IH]; intros u; [by rewrite app_nil_r|]. cbn [_serial_poll_tx]. rewrite IH, putc_sent, bind_cons. unfold line_bytes.
  destruct ((c =? 10) && has open_flag RT_DEVICE_FLAG_STREAM); rewrite ?putc_sent; by rewrite <-?app_assoc.
Qed.

(** ** The line *)

Lemma nibbles f : 0 <= f <= 16 -> Z.land f 240 + Z.land f 15 = f.
Proof. intros Hf. rewrite <-(Z2Nat.id f) by lia. assert (Z.to_nat f <= 16)%nat as Hn by lia. revert Hn. generalize (Z.to_nat f). intros n Hn. do 17 (destruct n as [|n]; [reflexivity|]). lia. Qed.

(** The baud rate register holds the divisor of the bus clock to within two thirds,
    as long as 25 times the clock is a 32-bit number. *)
Theorem uart_brr_divides (pclk baud : Z) : 0 < baud -> 0 <= pclk -> pclk * 25 < 2 ^ 32 -> 4 * baud < 2 ^ 32 ->
  3 * Z.abs (UART_BRR_SAMPLING16 pclk baud * baud - pclk) <= 2 * baud.
Proof.
  intros Hb Hp H1 H2. unfold UART_BRR_SAMPLING16, UART_DIVFRAQ_SAMPLING16, UART_DIVMANT_SAMPLING16, UART_DIV_SAMPLING16.
  rewrite !(u32_small (pclk * 25)), !(u32_small (4 * baud)) by (unfold is_u32; lia).
  set (d := pclk * 25 / (4 * baud)). assert (4 * baud * d <= pclk * 25 < 4 * baud * d + 4 * baud) as Hd.
  { pose proof (Z.div_mod (pclk * 25) (4 * baud) ltac:(lia)). pose proof (Z.mod_pos_bound (pclk * 25) (4 * baud) ltac:(lia)). subst d. lia. }
  assert (0 <= d < 2 ^ 30) as Hd0 by nia. set (m := d / 100). pose proof (Z.div_mod d 100 ltac:(lia)) as Hm. pose proof (Z.mod_pos_bound d 100 ltac:(lia)) as Hr.
  fold m in Hm. set (r := d mod 100) in *. replace (d - m * 100) with r by lia. assert (0 <= m < 2 ^ 24) as Hm0 by lia.
  rewrite (u32_small r), (u32_small (r * 16 + 50)) by (unfold is_u32; lia).
  set (f := (r * 16 + 50) / 100). pose proof (Z.div_mod (r * 16 + 50) 100 ltac:(lia)) as Hf. pose proof (Z.mod_pos_bound (r * 16 + 50) 100 ltac:(lia)) as Hfr.
  fold f in Hf. set (g := (r * 16 + 50) mod 100) in *. assert (0 <= f <= 16) as Hf0 by lia.
  assert (Z.land f 240 + Z.land f 15 = f) as Ef by by apply nibbles.
  rewrite Z.shiftl_mul_pow2 by lia. change (2 ^ 4) with 16. rewrite (u32_small (m * 16)) by (unfold is_u32; lia).
  rewrite <-Z.add_assoc, Ef, u32_small by (unfold is_u32; lia). nia.
Qed.

(** The format of a frame by CR1 and CR2: M is bit 12, PCE bit 10, PS bit 9; the
    parity bit is one of the 8 or 9 bits of the word. *)
Definition uses_parity (u : stm32_uart) : option bool := if Z.testbit (CR1 (u_regs u)) 10 then Some (Z.testbit (CR1 (u_regs u)) 9) else None.
Definition data_per_frame (u : stm32_uart) : Z :=
  (if Z.testbit (CR1 (u_regs u)) 12 then 9 else 8) - (if uses_parity u then 1 else 0).
Definition two_stop_bits (u : stm32_uart) : bool := Z.testbit (CR2 (u_regs u)) 13 && negb (Z.testbit (CR2 (u_regs u)) 12).
Definition running (u : stm32_uart) : bool :=
  Z.testbit (CR1 (u_regs u)) 13 && Z.testbit (CR1 (u_regs u)) 3 && Z.testbit (CR1 (u_regs u)) 2.

Definition asked_parity (cfg : serial_configure) : option bool :=
  if parity cfg =? PARITY_ODD then Some true else if parity cfg =? PARITY_EVEN then Some false else None.

Lemma bits_set x a b c k : Z.testbit (Z.lor (Z.lor (Z.ldiff (Z.ldiff x a) b) c) a) k = (Z.testbit x k && negb (Z.testbit a k) && negb (Z.testbit b k)) || Z.testbit c k || Z.testbit a k.
Proof. by rewrite !Z.lor_spec, !Z.ldiff_spec. Qed.
Lemma field_set x a b c k : Z.testbit (Z.ldiff (Z.lor (Z.ldiff x a) b) c) k = ((Z.testbit x k && negb (Z.testbit a k)) || Z.testbit b k) && negb (Z.testbit c k).
Proof. by rewrite Z.ldiff_spec, Z.lor_spec, Z.ldiff_spec. Qed.

(** The line after it is configured: sending and receiving, with the parity and the
    stop bits asked for; the parity bit is taken out of the data bits asked for. *)
Theorem stm32_configure_format cfg u : (stm32_configure cfg u).2 = RT_EOK /\
  let v := (stm32_configure cfg u).1 in
  running v = true /\ uses_parity v = asked_parity cfg /\ two_stop_bits v = (stop_bits cfg =? STOP_BITS_2) /\
  data_per_frame v = (if data_bits cfg =? DATA_BITS_9 then 9 else 8) - (if asked_parity cfg then 1 else 0) /\
  BRR (u_regs v) = UART_BRR_SAMPLING16 (pclk (u_config u)) (baud_rate cfg) /\ u_rx_ready v = true.
Proof.
  unfold stm32_configure, HAL_UART_Init, UART_SetConfig, data_per_frame, uses_parity, two_stop_bits, running, asked_parity.
  cbn [fst snd set_CR1 set_regs set_rx_ready set_init u_regs u_init u_config CR1 CR2 WordLength Parity UMode OverSampling StopBits BaudRate BRR u_rx_ready].
  cbv zeta. cbn [fst snd set_CR1 set_regs set_rx_ready set_init u_regs u_init u_config CR1 CR2 WordLength Parity UMode OverSampling StopBits BaudRate BRR u_rx_ready].
  split; [done|]. rewrite !bits_set, !field_set.
  generalize (Z.testbit (CR1 (u_regs u)) 2), (Z.testbit (CR1 (u_regs u)) 3), (Z.testbit (CR1 (u_regs u)) 9), (Z.testbit (CR1 (u_regs u)) 10), (Z.testbit (CR1 (u_regs u)) 12), (Z.testbit (CR1 (u_regs u)) 13), (Z.testbit (CR2 (u_regs u)) 12), (Z.testbit (CR2 (u_regs u)) 13).
  intros b2 b3 b9 b10 b12 b13 c12 c13.
  unfold DATA_BITS_8, DATA_BITS_9, STOP_BITS_1, STOP_BITS_2, PARITY_NONE, PARITY_ODD, PARITY_EVEN.
  splits; [destruct (data_bits cfg =? 8), (data_bits cfg =? 9), (parity cfg =? 0), (parity cfg =? 1), (parity cfg =? 2); destruct b13, b2, b3; reflexivity| | | |done|done].
  - destruct (Z.eqb_spec (parity cfg) 0) as [->|?], (Z.eqb_spec (parity cfg) 1), (Z.eqb_spec (parity cfg) 2); try lia;
      destruct (data_bits cfg =? 8), (data_bits cfg =? 9), b9, b10; reflexivity.
  - destruct (Z.eqb_spec (stop_bits cfg) 0) as [->|?], (Z.eqb_spec (stop_bits cfg) 1); try lia; destruct c12, c13; reflexivity.
  - destruct (Z.eqb_spec (parity cfg) 0) as [->|?], (Z.eqb_spec (parity cfg) 1), (Z.eqb_spec (parity cfg) 2); try lia;
      (destruct (Z.eqb_spec (data_bits cfg) 8) as [->|?], (Z.eqb_spec (data_bits cfg) 9); try lia; destruct b9, b10, b12; reflexivity).
Qed.

(** ** Limits *)

(** With the usual eight data bits, parity leaves seven. *)
Lemma parity_takes_data_bit cfg u b : data_bits cfg = DATA_BITS_8 -> asked_parity cfg = Some b -> data_per_frame (stm32_configure cfg u).1 = 7.
Proof. intros Hd Hp. destruct (stm32_configure_format cfg u) as (_ & _ & _ & _ & H & _). rewrite H, Hd, Hp. done. Qed.

(** A byte that arrives between the last byte taken by [uart_isr] and its clearing
    of RXNE is not given to anybody. *)
Lemma late_byte_lost c s : u_dma (ser_low s.2) = None -> rxne (ser_low s.2) = false -> exists s',
  line_byte c s = Some s' /\ rxne (ser_low s'.2) = true /\ (stm32_getc (__HAL_UART_CLEAR_FLAG UART_FLAG_RXNE (ser_low s'.2))).2 = -1.
Proof.
  intros Hd Hf. unfold line_byte. rewrite Hd. change UART_FLAG_RXNE with (2 ^ 5). rewrite has_bit by lia.
  change (Z.testbit (SR (u_regs (ser_low s.2))) 5) with (rxne (ser_low s.2)). rewrite Hf. eexists. split; [done|]. rewrite low_on_uart. split.
  - rewrite rxne_regs. cbn [SR]. rewrite Z.lor_spec, Z.pow2_bits_true by lia. apply orb_true_r.
  - rewrite getc_empty; [done|]. match goal with |- rxne (__HAL_UART_CLEAR_FLAG _ ?w) = _ => change (Z.testbit (Z.land (SR (u_regs w)) (Z.lor (Z.lnot (2 ^ 5)) (Z.lnot 864))) 5 = false) end.
    rewrite Z.land_spec. apply andb_false_r.
Qed.

(** With more than 32768 bytes the index may wrap at 2^16 before it is reduced: reading
    30000 bytes from place 39000 of 40000 leads to 3464 instead of 29000. *)
Example dma_get_index_wraps b full :
  Z.of_nat (get_index (rt_dma_recv_update_get_index (Z.to_nat 40000) (Z.to_nat 30000) (RxFifo b (Z.to_nat 29000) (Z.to_nat 39000) full))) = 3464.
Proof. vm_compute. reflexivity. Qed.

(** Closing frees the buffer but does not stop the stream: the next byte of the line
    is written to memory that is no longer the driver's. *)
Theorem dma_close_leaves_stream s s' q r c : dma_uart s q r -> close_rx s = Some s' ->
  ser_rx s'.2 = RxNone /\ u_dma (ser_low s'.2) = u_dma (ser_low s.2) /\ line_byte c s' = None.
Proof.
  intros [Hn Hi Hfl H1 H2 (a & f & Ea & _ & _ & _ & Hd & _) Hb] H. unfold close_rx in H. rewrite Hi, Hfl, Ea, (proj2 (Nat.eqb_neq _ _)) in H by lia.
  apply bind_Some in H as (s1 & Hr & H). injection H as <-. unfold release in Hr. apply bind_Some in Hr as (h & _ & Hr). injection Hr as <-.
  split; [done|]. split; [done|]. unfold line_byte. change (u_dma (ser_low (del_open_flag RT_DEVICE_FLAG_DMA_RX (set_rx RxNone (low_control RT_DEVICE_CTRL_CLR_INT RT_DEVICE_FLAG_DMA_RX (set_heap h s)))).2)) with (u_dma (ser_low s.2)).
  by rewrite Hd.
Qed.

(** Opened again, the device is deaf: the library still takes the reception to be
    going on, the stream has been stopped and is not started. *)
Theorem dma_reopen_deaf u : u_rx_ready u = false ->
  let v := (stm32_control RT_DEVICE_CTRL_CONFIG RT_DEVICE_FLAG_DMA_RX u).1 in
  (stm32_control RT_DEVICE_CTRL_CONFIG RT_DEVICE_FLAG_DMA_RX u).2 = RT_EOK /\ u_dma v = None /\ rxneie v = rxneie u /\ u_rx_ready v = false.
Proof.
  intros Hr. change (stm32_control RT_DEVICE_CTRL_CONFIG RT_DEVICE_FLAG_DMA_RX u) with (stm32_dma_config u, RT_EOK).
  unfold stm32_dma_config, HAL_UART_Receive_DMA. change (u_rx_ready (set_dma None (u_tc u) u)) with (u_rx_ready u). rewrite Hr.
  match goal with |- context [__HAL_UART_ENABLE_IT UART_IT_IDLE ?w] => destruct (idleie_enable w) as [_ R2] end. splits; [done|done|exact R2|done].
Qed.
