(* ===== verification/UsbCore.v ===== *)
(** * The USB device core (rt-thread/components/drivers/usb/usbdevice/core/core.c)

    Descriptors, requests of the host on endpoint 0, transfers on the other
    endpoints and the thread that serves the messages of the controller driver.
    What the core asks of the controller is a list of commands; the bytes that the
    controller has put into a buffer come with its messages. A null or dangling
    pointer that is followed gives [None]. Objects are numbered. *)

From S2P Require Import Prelude Kernel Device.

(** ** Constants (include/drivers/usb_common.h) *)

Definition USB_DESC_TYPE_DEVICE : Z := 1.
Definition USB_DESC_TYPE_CONFIGURATION : Z := 2.
Definition USB_DESC_TYPE_STRING : Z := 3.
Definition USB_DESC_TYPE_DEVICEQUALIFIER : Z := 6.
Definition USB_DESC_TYPE_OTHERSPEED : Z := 7.
Definition USB_DESC_LENGTH_DEVICE : Z := 18.
Definition USB_DESC_LENGTH_CONFIG : Z := 9.
Definition USB_REQ_TYPE_MASK : Z := 96.
Definition USB_REQ_TYPE_STANDARD : Z := 0.
Definition USB_REQ_TYPE_CLASS : Z := 32.
Definition USB_REQ_TYPE_VENDOR : Z := 64.
Definition USB_REQ_TYPE_DIR_IN : Z := 128.
Definition USB_REQ_TYPE_RECIPIENT_MASK : Z := 31.
Definition USB_REQ_TYPE_DEVICE : Z := 0.
Definition USB_REQ_TYPE_INTERFACE : Z := 1.
Definition USB_REQ_TYPE_ENDPOINT : Z := 2.
Definition USB_DIR_IN : Z := 128.
Definition USB_FEATURE_ENDPOINT_HALT : Z := 0.
Definition USB_FEATURE_DEV_REMOTE_WAKEUP : Z := 1.
Definition USB_EP_HALT : Z := 0.
Definition USB_STRING_LANGID_INDEX : Z := 0.
Definition USB_STRING_OS_INDEX : Z := 6.
Definition USB_STRING_MAX : Z := USB_STRING_OS_INDEX.
Definition EP0_IN_ADDR : Z := 128.
Definition EP0_OUT_ADDR : Z := 0.

(** ** Objects *)

Inductive udevice_state_t := USB_STATE_NOTATTACHED | USB_STATE_ATTACHED | USB_STATE_ADDRESS | USB_STATE_CONFIGURED.
#[export] Instance udevice_state_eq : EqDecision udevice_state_t.
Proof. solve_decision. Defined.
Inductive uep0_stage_t := STAGE_IDLE | STAGE_STATUS_OUT | STAGE_DIN | STAGE_DOUT.
Inductive UIO_REQUEST_TYPE := UIO_REQUEST_READ_FULL | UIO_REQUEST_READ_BEST | UIO_REQUEST_WRITE.

(** A transfer. [rq_buffer]: the bytes from the buffer pointer on, for a write; the
    bytes that have been received, for a read. *)
Record uio_request := UioRequest { req_type : UIO_REQUEST_TYPE; rq_buffer : list Z; rq_size : Z; rq_remain_size : Z }.

Record uendpoint := UEndpoint {
  bEndpointAddress : Z; bmAttributes : Z; wMaxPacketSize : Z; bInterval : Z;
  ep_request : uio_request;
  request_list : list uio_request;
  stalled : bool;
}.
(** Endpoint 0: the bytes to send, or received, and the two sizes; [rx_indicate]
    names the callback of a control write. *)
Record uep0 := UEp0 { e0_buffer : list Z; e0_size : Z; e0_remain_size : Z; e0_maxpacket : Z; rx_indicate : option Z }.

(** The descriptor of a setting: bytes, and the places of the endpoint descriptors,
    which the endpoints point into. *)
Inductive desc_item := DescBytes (d : list Z) | DescEndpoint (e : nat).
Record ualtsetting := UAltsetting { bAlternateSetting : Z; setting_desc : list desc_item; ep_list : list nat }.
Record uinterface := UInterface { intf_num : Z; curr_setting : option nat; setting_list : list ualtsetting }.
Record ufunction (F : Type) := UFunction { enabled : bool; intf_list : list nat; user_data : F }.
Arguments UFunction {F} _ _ _.
Arguments enabled {F} _. Arguments intf_list {F} _. Arguments user_data {F} _.
Record uconfig := UConfig { bConfigurationValue : Z; bNumInterfaces : Z; cfg_data : list Z; func_list : list nat }.

Record ep_id := EpId { id_addr : Z; id_type : Z; id_dir : Z; id_assigned : bool }.
Record urequest := URequest { request_type : Z; bRequest : Z; wValue : Z; wIndex : Z; wLength : Z }.

(** What the core asks of the controller driver. *)
Inductive dcd_cmd :=
| DcdSetAddress (a : Z) | DcdSetConfig (v : Z) | DcdSetStall (a : Z) | DcdClearStall (a : Z)
| DcdEnable (a : Z) | DcdDisable (a : Z) | DcdPrepare (a size : Z) | DcdWrite (a : Z) (data : list Z) | DcdSendStatus.

(** The device, with its objects; [F] is the state of a function. *)
Record udevice (F : Type) := UDevice {
  u_state : udevice_state_t;
  dev_desc : list Z;
  ustrings : list (list Z);
  cfg_list : list uconfig;
  curr_cfg : option nat;
  u_funcs : gmap nat (ufunction F);
  u_intfs : gmap nat uinterface;
  u_eps : gmap nat uendpoint;
  ep0 : uep0;
  stage : uep0_stage_t;
  device_is_hs : bool;
  dev_qualifier : option (list Z);
  ep_pool : list ep_id;
  dcd_cmds : list dcd_cmd;
}.
Arguments UDevice {F} _ _ _ _ _ _ _ _ _ _ _ _ _ _.
Arguments u_state {F} _. Arguments dev_desc {F} _. Arguments ustrings {F} _. Arguments cfg_list {F} _. Arguments curr_cfg {F} _.
Arguments u_funcs {F} _. Arguments u_intfs {F} _. Arguments u_eps {F} _. Arguments ep0 {F} _. Arguments stage {F} _.
Arguments device_is_hs {F} _. Arguments dev_qualifier {F} _. Arguments ep_pool {F} _. Arguments dcd_cmds {F} _.

Section Update.
Context {F : Type}.
Implicit Types (u : udevice F).
Definition set_state x u : udevice F := UDevice x (dev_desc u) (ustrings u) (cfg_list u) (curr_cfg u) (u_funcs u) (u_intfs u) (u_eps u) (ep0 u) (stage u) (device_is_hs u) (dev_qualifier u) (ep_pool u) (dcd_cmds u).
Definition set_dev_desc x u : udevice F := UDevice (u_state u) x (ustrings u) (cfg_list u) (curr_cfg u) (u_funcs u) (u_intfs u) (u_eps u) (ep0 u) (stage u) (device_is_hs u) (dev_qualifier u) (ep_pool u) (dcd_cmds u).
Definition set_cfg_list x u : udevice F := UDevice (u_state u) (dev_desc u) (ustrings u) x (curr_cfg u) (u_funcs u) (u_intfs u) (u_eps u) (ep0 u) (stage u) (device_is_hs u) (dev_qualifier u) (ep_pool u) (dcd_cmds u).
Definition set_curr_cfg x u : udevice F := UDevice (u_state u) (dev_desc u) (ustrings u) (cfg_list u) x (u_funcs u) (u_intfs u) (u_eps u) (ep0 u) (stage u) (device_is_hs u) (dev_qualifier u) (ep_pool u) (dcd_cmds u).
Definition set_funcs x u : udevice F := UDevice (u_state u) (dev_desc u) (ustrings u) (cfg_list u) (curr_cfg u) x (u_intfs u) (u_eps u) (ep0 u) (stage u) (device_is_hs u) (dev_qualifier u) (ep_pool u) (dcd_cmds u).
Definition set_intfs x u : udevice F := UDevice (u_state u) (dev_desc u) (ustrings u) (cfg_list u) (curr_cfg u) (u_funcs u) x (u_eps u) (ep0 u) (stage u) (device_is_hs u) (dev_qualifier u) (ep_pool u) (dcd_cmds u).
Definition set_eps x u : udevice F := UDevice (u_state u) (dev_desc u) (ustrings u) (cfg_list u) (curr_cfg u) (u_funcs u) (u_intfs u) x (ep0 u) (stage u) (device_is_hs u) (dev_qualifier u) (ep_pool u) (dcd_cmds u).
Definition set_ep0 x u : udevice F := UDevice (u_state u) (dev_desc u) (ustrings u) (cfg_list u) (curr_cfg u) (u_funcs u) (u_intfs u) (u_eps u) x (stage u) (device_is_hs u) (dev_qualifier u) (ep_pool u) (dcd_cmds u).
Definition set_stage x u : udevice F := UDevice (u_state u) (dev_desc u) (ustrings u) (cfg_list u) (curr_cfg u) (u_funcs u) (u_intfs u) (u_eps u) (ep0 u) x (device_is_hs u) (dev_qualifier u) (ep_pool u) (dcd_cmds u).
Definition set_pool x u : udevice F := UDevice (u_state u) (dev_desc u) (ustrings u) (cfg_list u) (curr_cfg u) (u_funcs u) (u_intfs u) (u_eps u) (ep0 u) (stage u) (device_is_hs u) (dev_qualifier u) x (dcd_cmds u).
Definition dcd (c : dcd_cmd) u : udevice F := UDevice (u_state u) (dev_desc u) (ustrings u) (cfg_list u) (curr_cfg u) (u_funcs u) (u_intfs u) (u_eps u) (ep0 u) (stage u) (device_is_hs u) (dev_qualifier u) (ep_pool u) (dcd_cmds u ++ [c]).
End Update.

Definition set_request (r : uio_request) (e : uendpoint) : uendpoint :=
  UEndpoint (bEndpointAddress e) (bmAttributes e) (wMaxPacketSize e) (bInterval e) r (request_list e) (stalled e).
Definition set_requests (x : list uio_request) (e : uendpoint) : uendpoint :=
  UEndpoint (bEndpointAddress e) (bmAttributes e) (wMaxPacketSize e) (bInterval e) (ep_request e) x (stalled e).
Definition set_stalled (b : bool) (e : uendpoint) : uendpoint :=
  UEndpoint (bEndpointAddress e) (bmAttributes e) (wMaxPacketSize e) (bInterval e) (ep_request e) (request_list e) b.
Definition set_address_bits (a : Z) (e : uendpoint) : uendpoint :=
  UEndpoint a (bmAttributes e) (wMaxPacketSize e) (bInterval e) (ep_request e) (request_list e) (stalled e).

(** ** Classes

    What a function gives the core: its handlers, by the number of the function and
    of the endpoint. *)
Class usb_class (F : Type) := UsbClass {
  cl_enable : nat -> udevice F -> option (udevice F * Z);
  cl_disable : nat -> udevice F -> option (udevice F * Z);
  cl_interface : nat -> urequest -> udevice F -> option (udevice F * Z);
  cl_endpoint : nat -> nat -> Z -> udevice F -> option (udevice F);
  cl_ep0_rx : Z -> Z -> udevice F -> option (udevice F);
}.

Section Core.
Context {F : Type} `{usb_class F}.
Abbreviation usb := (udevice F).
Implicit Types (u : usb) (setup : urequest).

(** The first [n] bytes of a buffer. *)
Definition first_bytes (n : Z) (buffer : list Z) : option (list Z) :=
  if n <=? Z.of_nat (length buffer) then Some (take (Z.to_nat n) buffer) else None.

(** [dcd_ep_write] of [n] bytes. *)
Definition dcd_ep_write (a n : Z) (buffer : list Z) u : option usb := d ← first_bytes n buffer; Some (dcd (DcdWrite a d) u).

(** ** Endpoint 0 *)

Definition rt_usbd_ep0_set_stall u : usb := dcd (DcdSetStall 0) u.
Definition rt_usbd_ep0_clear_stall u : usb := dcd (DcdClearStall 0) u.
Definition dcd_ep0_send_status u : usb := dcd DcdSendStatus u.

Definition rt_usbd_ep0_write (buffer : list Z) (size : Z) u : option usb :=
  let e := ep0 u in
  let sent_size := if e0_maxpacket e <=? size then e0_maxpacket e else size in
  dcd_ep_write EP0_IN_ADDR sent_size buffer
    (set_stage STAGE_DIN (set_ep0 (UEp0 buffer size size (e0_maxpacket e) (rx_indicate e)) u)).

(** [got]: what an earlier part of the transfer has received. *)
Definition rt_usbd_ep0_read (got : list Z) (size : Z) (rx_ind : option Z) u : usb :=
  let e := ep0 u in
  let read_size := if e0_maxpacket e <=? size then e0_maxpacket e else size in
  dcd (DcdPrepare EP0_OUT_ADDR read_size) (set_stage STAGE_DOUT (set_ep0 (UEp0 got (e0_size e) size (e0_maxpacket e) rx_ind) u)).

(** The next packet of a control read, in interrupt context. *)
Definition rt_usbd_ep0_in_handler u : option usb :=
  match stage u with
  | STAGE_DIN =>
      let e := ep0 u in
      let mps := e0_maxpacket e in
      let remain_size := u32 (e0_remain_size e - mps) in
      let remain := s32 remain_size in
      if 0 <? remain then
        let remain := if mps <=? remain then mps else remain in
        let buffer := drop (Z.to_nat mps) (e0_buffer e) in
        dcd_ep_write EP0_IN_ADDR remain buffer (set_ep0 (UEp0 buffer (e0_size e) remain_size mps (rx_indicate e)) u)
      else if (remain =? 0) && (0 <? e0_size e) then
        Some (dcd (DcdWrite EP0_IN_ADDR []) (set_ep0 (UEp0 (e0_buffer e) 0 remain_size mps (rx_indicate e)) u))
      else
        Some (dcd (DcdPrepare EP0_OUT_ADDR 0)
          (set_stage STAGE_STATUS_OUT (set_ep0 (UEp0 (e0_buffer e) (e0_size e) remain_size mps (rx_indicate e)) u)))
  | _ => Some u
  end.

(** [data]: the bytes of the packet; the controller reads none itself. *)
Definition _ep0_out_notify (data : list Z) u : option usb :=
  let e := ep0 u in
  let size := Z.of_nat (length data) in
  if e0_remain_size e =? 0 then Some u
  else if size =? 0 then Some u
  else
    let remain := u32 (e0_remain_size e - size) in
    let got := e0_buffer e ++ data in
    let u := set_ep0 (UEp0 got (e0_size e) remain (e0_maxpacket e) (rx_indicate e)) u in
    if remain =? 0 then match rx_indicate e with Some f => cl_ep0_rx f size u | None => Some u end
    else Some (rt_usbd_ep0_read got remain (rx_indicate e) u).

(** ** Looking objects up *)

Definition current u : option uconfig := i ← curr_cfg u; cfg_list u !! i.
Definition setting_of (i : uinterface) : option ualtsetting := k ← curr_setting i; setting_list i !! k.

(** The interfaces of the current configuration in order, with their function. *)
Definition current_intfs u : option (list (nat * nat * uinterface)) :=
  c ← current u;
  fs ← mapM (fun f => fn ← u_funcs u !! f; mapM (fun i => it ← u_intfs u !! i; Some (f, i, it)) (intf_list fn)) (func_list c);
  Some (concat fs).

(** The function and the number of an interface; [Some None] is not found. *)
Definition rt_usbd_find_interface (value : Z) u : option (option (nat * nat)) :=
  its ← current_intfs u;
  Some ((fun x => (x.1.1, x.1.2)) <$> List.find (fun x => intf_num x.2 =? u8 value) its).

Fixpoint rt_usbd_find_config_from (cs : list uconfig) (i : nat) (value : Z) : option nat :=
  match cs with
  | [] => None
  | c :: cs => if bConfigurationValue c =? value then Some i else rt_usbd_find_config_from cs (S i) value
  end.
Definition rt_usbd_find_config (value : Z) u : option nat := rt_usbd_find_config_from (cfg_list u) 0 (u8 value).

Fixpoint find_setting_from (ss : list ualtsetting) (k : nat) (value : Z) : option nat :=
  match ss with
  | [] => None
  | s :: ss => if bAlternateSetting s =? value then Some k else find_setting_from ss (S k) value
  end.
Definition rt_usbd_find_altsetting (i : uinterface) (value : Z) : option nat :=
  match setting_of i with
  | Some s => if bAlternateSetting s =? value then curr_setting i else find_setting_from (setting_list i) 0 value
  | None => find_setting_from (setting_list i) 0 value
  end.

(** The endpoints of the current settings in order, with their function. *)
Definition current_eps u : option (list (nat * nat * uendpoint)) :=
  its ← current_intfs u;
  es ← mapM (fun x => s ← setting_of x.2; mapM (fun e => ep ← u_eps u !! e; Some (x.1.1, e, ep)) (ep_list s)) its;
  Some (concat es).
Definition rt_usbd_find_endpoint (ep_addr : Z) u : option (option (nat * nat)) :=
  es ← current_eps u;
  Some ((fun x => (x.1.1, x.1.2)) <$> List.find (fun x => bEndpointAddress x.2 =? u8 ep_addr) es).

(** ** Transfers *)

Definition rt_usbd_ep_write (e : nat) u : option usb :=
  ep ← u_eps u !! e;
  let r := ep_request ep in
  let maxpacket := wMaxPacketSize ep in
  if maxpacket <=? rq_remain_size r then
    u ← dcd_ep_write (bEndpointAddress ep) maxpacket (rq_buffer r) u;
    Some (set_eps (<[e := set_request (UioRequest (req_type r) (drop (Z.to_nat maxpacket) (rq_buffer r)) (rq_size r) (rq_remain_size r - maxpacket)) ep]> (u_eps u)) u)
  else
    u ← dcd_ep_write (bEndpointAddress ep) (rq_remain_size r) (rq_buffer r) u;
    Some (set_eps (<[e := set_request (UioRequest (req_type r) (rq_buffer r) (rq_size r) 0) ep]> (u_eps u)) u).

Definition rt_usbd_ep_read_prepare (e : nat) (size : Z) u : option usb :=
  ep ← u_eps u !! e;
  Some (dcd (DcdPrepare (bEndpointAddress ep) (if wMaxPacketSize ep <? size then wMaxPacketSize ep else size)) u).

(** The request has been stored in the endpoint by the caller, as in the functions. *)
Definition rt_usbd_io_request (e : nat) (req : uio_request) u : option usb :=
  ep ← u_eps u !! e;
  if negb (stalled ep) then
    let r := ep_request ep in
    let u := set_eps (<[e := set_request (UioRequest (req_type r) (rq_buffer r) (rq_size r) (rq_size r)) ep]> (u_eps u)) u in
    match req_type req with
    | UIO_REQUEST_READ_BEST | UIO_REQUEST_READ_FULL => rt_usbd_ep_read_prepare e (rq_size req) u
    | UIO_REQUEST_WRITE => rt_usbd_ep_write e u
    end
  else Some (set_eps (<[e := set_requests (request_list ep ++ [req]) ep]> (u_eps u)) u).

(** [data]: the bytes the controller has received. *)
Definition _data_notify (ep_addr : Z) (data : list Z) (size : Z) u : option usb :=
  if negb (bool_decide (u_state u = USB_STATE_CONFIGURED)) then Some u
  else
    r ← rt_usbd_find_endpoint ep_addr u;
    match r with
    | None => Some u
    | Some (func, e) =>
        ep ← u_eps u !! e;
        let r := ep_request ep in
        if has (bEndpointAddress ep) USB_DIR_IN then
          (* the two writes are those of [rt_usbd_ep_write] *)
          if (wMaxPacketSize ep <=? rq_remain_size r) || (0 <? rq_remain_size r) then rt_usbd_ep_write e u
          else cl_endpoint func e size u
        else if rq_remain_size r =? 0 then Some u
        else
          (* [dcd_ep_read] of the controller gives 0 bytes for a size of 0 *)
          let remain := u32 (rq_remain_size r - size) in
          let r' := UioRequest (req_type r) (rq_buffer r ++ data) (rq_size r) remain in
          let u := set_eps (<[e := set_request r' ep]> (u_eps u)) u in
          match req_type r with
          | UIO_REQUEST_READ_BEST => cl_endpoint func e size u
          | _ =>
              if remain =? 0 then cl_endpoint func e (rq_size r) u
              else Some (dcd (DcdPrepare (bEndpointAddress ep) (if wMaxPacketSize ep <? remain then wMaxPacketSize ep else remain)) u)
          end
    end.

(** ** Descriptors *)

Definition le16 (x : Z) : list Z := [u8 x; u8 (x / 256)].
Definition wTotalLength (c : uconfig) : Z := USB_DESC_LENGTH_CONFIG + Z.of_nat (length (cfg_data c)).
(** The configuration descriptor: header (self-powered, 100 mA) and data. *)
Definition cfg_desc (c : uconfig) : list Z :=
  [USB_DESC_LENGTH_CONFIG; USB_DESC_TYPE_CONFIGURATION] ++ le16 (wTotalLength c) ++
  [bNumInterfaces c; bConfigurationValue c; 0; 192; 50] ++ cfg_data c.

Definition _get_device_descriptor setup u : option usb :=
  let size := if USB_DESC_LENGTH_DEVICE <? wLength setup then USB_DESC_LENGTH_DEVICE else wLength setup in
  rt_usbd_ep0_write (dev_desc u) size u.

Definition _get_config_descriptor setup u : option usb :=
  c ← current u;
  let size := if wTotalLength c <? wLength setup then wTotalLength c else wLength setup in
  rt_usbd_ep0_write (cfg_desc c) size u.

(** The string descriptor: two bytes for each character; at most 32 characters fit.
    The length byte wraps. *)
Definition string_desc (str : list Z) : list Z :=
  [u8 (Z.of_nat (length str) * 2 + 2); USB_DESC_TYPE_STRING] ++ flat_map (fun c => [c; 0]) str.
Definition lang_desc : list Z := [4; USB_DESC_TYPE_STRING; 9; 4].

(** The error code of the handlers is not used by their caller but for interface
    requests: the new device only. *)
Definition _get_string_descriptor setup u : option usb :=
  let index := Z.land (wValue setup) 255 in
  let index := if index =? 238 then USB_STRING_OS_INDEX else index in
  if USB_STRING_MAX <? index then Some (rt_usbd_ep0_set_stall u)
  else
    d ← (if index =? USB_STRING_LANGID_INDEX then Some lang_desc
         else str ← ustrings u !! Z.to_nat index; if (length str <=? 32)%nat then Some (string_desc str) else None);
    let bLength := default 0 (head d) in
    rt_usbd_ep0_write d (if bLength <? wLength setup then bLength else wLength setup) u.

Definition _get_qualifier_descriptor setup u : option usb :=
  match dev_qualifier u with
  | Some q => if device_is_hs u then rt_usbd_ep0_write q 10 u else Some (rt_usbd_ep0_set_stall u)
  | None => Some (rt_usbd_ep0_set_stall u)
  end.

Definition _get_descriptor setup u : option usb :=
  if request_type setup =? USB_REQ_TYPE_DIR_IN then
    let t := Z.shiftr (wValue setup) 8 in
    if t =? USB_DESC_TYPE_DEVICE then _get_device_descriptor setup u
    else if t =? USB_DESC_TYPE_CONFIGURATION then _get_config_descriptor setup u
    else if t =? USB_DESC_TYPE_STRING then _get_string_descriptor setup u
    else if t =? USB_DESC_TYPE_DEVICEQUALIFIER then
      if device_is_hs u then _get_qualifier_descriptor setup u else Some (rt_usbd_ep0_set_stall u)
    else if t =? USB_DESC_TYPE_OTHERSPEED then _get_config_descriptor setup u
    else Some (rt_usbd_ep0_set_stall u)
  else Some (rt_usbd_ep0_set_stall u).

(** ** Interfaces and configurations *)

Definition configured u : bool := bool_decide (u_state u = USB_STATE_CONFIGURED).

(** An interface that is not found is a null pointer. *)
Definition interface_of setup u : option nat := r ← rt_usbd_find_interface (Z.land (wIndex setup) 255) u; snd <$> r.

Definition _get_interface setup u : option usb :=
  if negb (configured u) then Some (rt_usbd_ep0_set_stall u)
  else
    i ← interface_of setup u;
    it ← u_intfs u !! i; s ← setting_of it;
    rt_usbd_ep0_write [bAlternateSetting s] 1 u.

Definition rt_usbd_set_altsetting (i : nat) (value : Z) u : option usb :=
  it ← u_intfs u !! i;
  Some (set_intfs (<[i := UInterface (intf_num it) (rt_usbd_find_altsetting it value) (setting_list it)]> (u_intfs u)) u).

(** Closing and opening the endpoints of a setting. *)
Fixpoint restart_eps (es : list nat) u : option usb :=
  match es with
  | [] => Some u
  | e :: es => ep ← u_eps u !! e; restart_eps es (dcd (DcdEnable (bEndpointAddress ep)) (dcd (DcdDisable (bEndpointAddress ep)) u))
  end.

Definition _set_interface setup u : option usb :=
  if negb (configured u) then Some (rt_usbd_ep0_set_stall u)
  else
    i ← interface_of setup u;
    u ← rt_usbd_set_altsetting i (Z.land (wValue setup) 255) u;
    it ← u_intfs u !! i; s ← setting_of it;
    u ← restart_eps (ep_list s) u;
    Some (dcd_ep0_send_status u).

Definition _get_config setup u : option usb :=
  value ← (if configured u then bConfigurationValue <$> current u else Some 0);
  rt_usbd_ep0_write [value] 1 u.

Definition rt_usbd_set_config (value : Z) u : usb := dcd (DcdSetConfig (u8 value)) (set_curr_cfg (rt_usbd_find_config value u) u).

Definition set_enabled (f : nat) (b : bool) u : option usb :=
  fn ← u_funcs u !! f; Some (set_funcs (<[f := UFunction b (intf_list fn) (user_data fn)]> (u_funcs u)) u).

(** [FUNC_ENABLE] and [FUNC_DISABLE]. *)
Definition func_enable (f : nat) u : option usb :=
  fn ← u_funcs u !! f;
  if enabled fn then Some u
  else '(u, r) ← cl_enable f u; if r =? RT_EOK then set_enabled f true u else Some u.
Definition func_disable (f : nat) u : option usb :=
  fn ← u_funcs u !! f;
  if enabled fn then u ← set_enabled f false u; fst <$> cl_disable f u
  else Some u.

Fixpoint restart_intfs (its : list nat) u : option usb :=
  match its with
  | [] => Some u
  | i :: its => it ← u_intfs u !! i; s ← setting_of it; u ← restart_eps (ep_list s) u; restart_intfs its u
  end.
Fixpoint enable_funcs (fs : list nat) u : option usb :=
  match fs with
  | [] => Some u
  | f :: fs => fn ← u_funcs u !! f; u ← restart_intfs (intf_list fn) u; u ← func_enable f u; enable_funcs fs u
  end.
Fixpoint disable_funcs (fs : list nat) u : option usb :=
  match fs with [] => Some u | f :: fs => u ← func_disable f u; disable_funcs fs u end.

Definition bNumConfigurations u : Z := nth 17 (dev_desc u) 0.

Definition _set_config setup u : option usb :=
  if bNumConfigurations u <? wValue setup then Some (rt_usbd_ep0_set_stall u)
  else if wValue setup =? 0 then Some (dcd_ep0_send_status (set_state USB_STATE_ADDRESS u))
  else
    let u := rt_usbd_set_config (wValue setup) u in
    c ← current u;
    u ← enable_funcs (func_list c) u;
    Some (dcd_ep0_send_status (set_state USB_STATE_CONFIGURED u)).

Definition _set_address setup u : usb :=
  set_state USB_STATE_ADDRESS (dcd_ep0_send_status (dcd (DcdSetAddress (u8 (wValue setup))) u)).

(** The calls of every function of the current configuration; the class has no
    start-of-frame handler. *)
Definition _stop_notify u : option usb := c ← current u; disable_funcs (func_list c) u.

(** ** Requests *)

Definition rt_usbd_set_feature (value index : Z) u : usb :=
  if value =? USB_FEATURE_DEV_REMOTE_WAKEUP then u
  else if value =? USB_FEATURE_ENDPOINT_HALT then dcd (DcdSetStall (Z.land index 255)) u else u.
Definition rt_usbd_clear_feature (value index : Z) u : usb :=
  if value =? USB_FEATURE_DEV_REMOTE_WAKEUP then u
  else if value =? USB_FEATURE_ENDPOINT_HALT then dcd (DcdClearStall (Z.land index 255)) u else u.

Definition rt_usbd_ep_set_stall (e : nat) u : option usb :=
  ep ← u_eps u !! e; Some (set_eps (<[e := set_stalled true ep]> (u_eps u)) (dcd (DcdSetStall (bEndpointAddress ep)) u)).
Definition rt_usbd_ep_clear_stall (e : nat) u : option usb :=
  ep ← u_eps u !! e; Some (set_eps (<[e := set_stalled false ep]> (u_eps u)) (dcd (DcdClearStall (bEndpointAddress ep)) u)).

Definition endpoint_of setup u : option nat := r ← rt_usbd_find_endpoint (wIndex setup) u; snd <$> r.

(** The suspended requests of an endpoint, in order. *)
Fixpoint fire_requests (e : nat) (reqs : list uio_request) u : option usb :=
  match reqs with [] => Some u | r :: reqs => u ← rt_usbd_io_request e r u; fire_requests e reqs u end.

Definition device_request setup u : option usb :=
  let b := bRequest setup in
  if b =? 0 then rt_usbd_ep0_write [0; 0] 2 u
  else if b =? 1 then Some (dcd_ep0_send_status (rt_usbd_clear_feature (wValue setup) (wIndex setup) u))
  else if b =? 3 then Some (rt_usbd_set_feature (wValue setup) (wIndex setup) u)
  else if b =? 5 then Some (_set_address setup u)
  else if b =? 6 then _get_descriptor setup u
  else if b =? 7 then Some (rt_usbd_ep0_set_stall u)
  else if b =? 8 then _get_config setup u
  else if b =? 9 then _set_config setup u
  else Some (rt_usbd_ep0_set_stall u).

Definition _request_interface setup u : option (usb * Z) :=
  r ← rt_usbd_find_interface (Z.land (wIndex setup) 255) u;
  match r with
  | Some (func, _) => cl_interface func setup u
  | None => Some (u, - RT_ERROR)
  end.

Definition interface_request setup u : option usb :=
  let b := bRequest setup in
  if b =? 10 then _get_interface setup u
  else if b =? 11 then _set_interface setup u
  else '(u, r) ← _request_interface setup u; Some (if r =? RT_EOK then u else rt_usbd_ep0_set_stall u).

Definition endpoint_request setup u : option usb :=
  let b := bRequest setup in
  if b =? 0 then
    e ← endpoint_of setup u; ep ← u_eps u !! e;
    rt_usbd_ep0_write [if stalled ep then 1 else 0; 0] 2 u
  else if b =? 1 then
    r ← rt_usbd_find_endpoint (wIndex setup) u;
    if wValue setup =? USB_EP_HALT then
      e ← snd <$> r; ep ← u_eps u !! e;
      if stalled ep then
        let u := dcd_ep0_send_status (rt_usbd_clear_feature (wValue setup) (wIndex setup) u) in
        let u := set_eps (<[e := set_stalled false ep]> (u_eps u)) u in
        u ← fire_requests e (request_list ep) u;
        ep ← u_eps u !! e;
        Some (set_eps (<[e := set_requests [] ep]> (u_eps u)) u)
      else Some u
    else Some u
  else if b =? 3 then
    if wValue setup =? USB_EP_HALT then
      e ← endpoint_of setup u; ep ← u_eps u !! e;
      let u := set_eps (<[e := set_stalled true ep]> (u_eps u)) u in
      Some (dcd_ep0_send_status (rt_usbd_set_feature (wValue setup) (wIndex setup) u))
    else Some u
  else if b =? 12 then Some u
  else Some (rt_usbd_ep0_set_stall u).

Definition _standard_request setup u : option usb :=
  let r := Z.land (request_type setup) USB_REQ_TYPE_RECIPIENT_MASK in
  if r =? USB_REQ_TYPE_DEVICE then device_request setup u
  else if r =? USB_REQ_TYPE_INTERFACE then interface_request setup u
  else if r =? USB_REQ_TYPE_ENDPOINT then endpoint_request setup u
  else Some (rt_usbd_ep0_set_stall u).

Definition _function_request setup u : option usb :=
  c ← current u;
  if bNumInterfaces c <? wIndex setup then Some (rt_usbd_ep0_set_stall u)
  else
    let r := Z.land (request_type setup) USB_REQ_TYPE_RECIPIENT_MASK in
    if r =? USB_REQ_TYPE_INTERFACE then
      r ← rt_usbd_find_interface (Z.land (wIndex setup) 255) u;
      match r with
      | Some (func, _) => fst <$> cl_interface func setup u
      | None => Some (rt_usbd_ep0_set_stall u)
      end
    else if r =? USB_REQ_TYPE_ENDPOINT then Some u
    else Some (rt_usbd_ep0_set_stall u).

(** The descriptors for another operating system: a header and those of the
    functions; the length asked for is not checked. *)
Definition le32 (x : Z) : list Z := le16 (x mod 65536) ++ le16 (x / 65536).
Definition os_comp_id (os_funcs : list (list Z)) : list Z :=
  let body := concat os_funcs in
  le32 (16 + Z.of_nat (length body)) ++ le16 256 ++ le16 4 ++ [u8 (Z.of_nat (length os_funcs))] ++ repeat 0 7 ++ body.

Definition _vendor_request (os_funcs : list (list Z)) setup u : option usb :=
  if bRequest setup =? 65 then
    if wIndex setup =? 4 then
      match os_funcs with
      | [] => Some (rt_usbd_ep0_set_stall u)
      | _ => rt_usbd_ep0_write (os_comp_id os_funcs) (wLength setup) u
      end
    else if wIndex setup =? 5 then
      r ← rt_usbd_find_interface (Z.land (wValue setup) 255) u;
      match r with Some (func, _) => fst <$> cl_interface func setup u | None => Some u end
    else Some u
  else Some u.

(** [os_funcs]: the descriptors for other operating systems that functions added. *)
Definition _setup_request (os_funcs : list (list Z)) setup u : option usb :=
  let t := Z.land (request_type setup) USB_REQ_TYPE_MASK in
  if t =? USB_REQ_TYPE_STANDARD then _standard_request setup u
  else if t =? USB_REQ_TYPE_CLASS then _function_request setup u
  else if t =? USB_REQ_TYPE_VENDOR then _vendor_request os_funcs setup u
  else Some (rt_usbd_ep0_set_stall u).

(** ** Messages of the controller *)

Inductive udev_msg :=
| USB_MSG_SETUP_NOTIFY (setup : urequest)
| USB_MSG_DATA_NOTIFY (ep_addr size : Z) (data : list Z)
| USB_MSG_EP0_OUT (data : list Z)
| USB_MSG_SOF | USB_MSG_RESET | USB_MSG_PLUG_IN | USB_MSG_PLUG_OUT.

(** One round of the device thread. *)
Definition rt_usbd_thread_step (os_funcs : list (list Z)) (msg : udev_msg) u : option usb :=
  match msg with
  | USB_MSG_SOF => Some u
  | USB_MSG_DATA_NOTIFY a size data => _data_notify a data size u
  | USB_MSG_SETUP_NOTIFY setup => _setup_request os_funcs setup u
  | USB_MSG_EP0_OUT data => _ep0_out_notify data u
  | USB_MSG_RESET =>
      u ← (if bool_decide (u_state u = USB_STATE_ADDRESS) || configured u then _stop_notify u else Some u);
      Some (set_state USB_STATE_NOTATTACHED u)
  | USB_MSG_PLUG_IN => Some (set_state USB_STATE_ATTACHED u)
  | USB_MSG_PLUG_OUT => _stop_notify (set_state USB_STATE_NOTATTACHED u)
  end.

(** The handlers the controller driver calls in interrupt context. *)
Definition rt_usbd_ep0_setup_handler setup : udev_msg := USB_MSG_SETUP_NOTIFY setup.
Definition rt_usbd_ep0_out_handler (data : list Z) : udev_msg := USB_MSG_EP0_OUT data.
Definition rt_usbd_ep_in_handler (address size : Z) : udev_msg := USB_MSG_DATA_NOTIFY address size [].
Definition rt_usbd_ep_out_handler (address : Z) (data : list Z) : udev_msg := USB_MSG_DATA_NOTIFY address (Z.of_nat (length data)) data.

(** ** Building the device *)

Definition rt_usbd_device_new (strings : list (list Z)) (pool : list ep_id) (mps : Z) : usb :=
  UDevice USB_STATE_NOTATTACHED (repeat 0 18) strings [] None ∅ ∅ ∅ (UEp0 [] 0 0 mps None) STAGE_IDLE false None pool [].

Definition no_request : uio_request := UioRequest UIO_REQUEST_READ_FULL [] 0 0.

(** A new object is numbered by the number of objects there are. *)
Definition rt_usbd_endpoint_new (addr attr mps interval : Z) u : usb * nat :=
  let e := size (u_eps u) in
  (set_eps (<[e := UEndpoint addr attr mps interval no_request [] false]> (u_eps u)) u, e).

Definition rt_usbd_interface_new u : usb * nat :=
  let i := size (u_intfs u) in
  (set_intfs (<[i := UInterface (u8 (Z.of_nat i)) None []]> (u_intfs u)) u, i).

(** The interface number goes into the third byte of the interface descriptor. *)
Definition number_desc (n : Z) (d : list desc_item) : list desc_item :=
  match d with DescBytes b :: d => DescBytes (<[2%nat := n]> b) :: d | _ => d end.
Definition rt_usbd_interface_add_altsetting (i : nat) (s : ualtsetting) u : option usb :=
  it ← u_intfs u !! i;
  let s := UAltsetting (bAlternateSetting s) (number_desc (intf_num it) (setting_desc s)) (ep_list s) in
  Some (set_intfs (<[i := UInterface (intf_num it) (curr_setting it) (setting_list it ++ [s])]> (u_intfs u)) u).

Definition rt_usbd_function_new (data : F) (its : list nat) u : usb * nat :=
  let f := size (u_funcs u) in (set_funcs (<[f := UFunction false its data]> (u_funcs u)) u, f).

(** The first free endpoint of the controller of the same type and direction. *)
Fixpoint ep_pool_find (attr dir : Z) (pool : list ep_id) (i : nat) : option (nat * Z) :=
  match pool with
  | [] => None
  | id :: pool =>
      if id_addr id =? 255 then None
      else if negb (id_assigned id) && (attr =? id_type id) && (Z.land dir 128 =? id_dir id) then Some (i, id_addr id)
      else ep_pool_find attr dir pool (S i)
  end.
Definition rt_usbd_ep_assign (e : nat) u : option (usb * Z) :=
  ep ← u_eps u !! e;
  match ep_pool_find (bmAttributes ep) (bEndpointAddress ep) (ep_pool u) 0 with
  | Some (i, a) =>
      let pool := alter (fun id => EpId (id_addr id) (id_type id) (id_dir id) true) i (ep_pool u) in
      Some (set_pool pool (set_eps (<[e := set_address_bits (Z.lor (bEndpointAddress ep) a) ep]> (u_eps u)) u), RT_EOK)
  | None => Some (u, - RT_ERROR)
  end.

Definition desc_bytes (d : list desc_item) u : option (list Z) :=
  bs ← mapM (fun x => match x with
    | DescBytes b => Some b
    | DescEndpoint e => ep ← u_eps u !! e; Some ([7; 5; bEndpointAddress ep; bmAttributes ep] ++ le16 (wMaxPacketSize ep) ++ [bInterval ep])
    end) d;
  Some (concat bs).

Fixpoint assign_eps (es : list nat) u : option usb :=
  match es with [] => Some u | e :: es => '(u, _) ← rt_usbd_ep_assign e u; assign_eps es u end.

(** The interfaces of the functions: their endpoints get addresses, then their
    descriptor goes into that of the configuration. *)
Fixpoint add_intfs (its : list nat) (c : uconfig) u : option (uconfig * usb) :=
  match its with
  | [] => Some (c, u)
  | i :: its =>
      it ← u_intfs u !! i; s ← setting_of it;
      u ← assign_eps (ep_list s) u;
      d ← desc_bytes (setting_desc s) u;
      add_intfs its (UConfig (bConfigurationValue c) (u8 (bNumInterfaces c + 1)) (cfg_data c ++ d) (func_list c)) u
  end.
Fixpoint add_funcs (fs : list nat) (c : uconfig) u : option (uconfig * usb) :=
  match fs with
  | [] => Some (c, u)
  | f :: fs => fn ← u_funcs u !! f; '(c, u) ← add_intfs (intf_list fn) c u; add_funcs fs c u
  end.

(** The data of a configuration descriptor has room for 256 bytes. *)
Definition rt_usbd_device_add_config (funcs : list nat) u : option usb :=
  let value := u8 (bNumConfigurations u + 1) in
  let u := set_dev_desc (<[17%nat := value]> (dev_desc u)) u in
  '(c, u) ← add_funcs funcs (UConfig value 0 [] funcs) u;
  if (length (cfg_data c) <=? 256)%nat then Some (set_cfg_list (cfg_list u ++ [c]) u) else None.

(** [rt_usb_device_init] for one class: [create] builds its function. *)
Definition rt_usb_device_init (desc : list Z) (create : usb -> option (usb * nat)) u : option usb :=
  '(u, f) ← create u;
  u ← rt_usbd_device_add_config [f] (set_dev_desc desc u);
  Some (rt_usbd_set_config 1 u).
End Core.
