(* ===== verification/UsbSpec.v ===== *)
(** * The USB device core: what the host sees

    Control reads arrive as packets that end with a short one; lookups of endpoints
    do not depend on the transfers; requests that are not served well. *)

From S2P Require Import Prelude Kernel Device UsbCore.

(** ** Packets *)

(** Splitting into packets of [mps] bytes; the last one is shorter, maybe empty.
    [fuel]: more than the number of bytes. *)
Fixpoint packets_from (fuel mps : nat) (d : list Z) : list (list Z) :=
  match fuel with
  | O => []
  | S fuel => if (length d <? mps)%nat then [d] else take mps d :: packets_from fuel mps (drop mps d)
  end.
Definition packets (mps : nat) (d : list Z) : list (list Z) := packets_from (S (length d)) mps d.

Lemma packets_from_enough mps : (0 < mps)%nat -> forall n m d, (length d < n)%nat -> (length d < m)%nat ->
  packets_from n mps d = packets_from m mps d.
Proof.
  intros Hm n. induction n as [|n IH]; intros [|m] d Hn Hd; try lia. simpl.
  destruct (Nat.ltb_spec (length d) mps); [done|]. f_equal. apply IH; rewrite length_drop; lia.
Qed.

Lemma packets_short mps d : (length d < mps)%nat -> packets mps d = [d].
Proof. intros Hd. unfold packets. simpl. by rewrite (proj2 (Nat.ltb_lt _ _) Hd). Qed.

Lemma packets_full mps d : (0 < mps)%nat -> (mps <= length d)%nat -> packets mps d = take mps d :: packets mps (drop mps d).
Proof.
  intros Hm Hd. unfold packets at 1. simpl. rewrite (proj2 (Nat.ltb_ge _ _) Hd). f_equal.
  apply packets_from_enough; [done|rewrite length_drop; lia|lia].
Qed.

(** Induction over the packets. *)
Lemma packets_ind mps (P : list Z -> Prop) : (0 < mps)%nat ->
  (forall d, (length d < mps)%nat -> P d) -> (forall d, (mps <= length d)%nat -> P (drop mps d) -> P d) -> forall d, P d.
Proof.
  intros Hm Hs Hf d. induction d as [d IH] using (induction_ltof1 _ length). unfold ltof in IH.
  destruct (decide (length d < mps)%nat) as [Hd|Hd]; [by apply Hs|]. apply Hf; [lia|]. apply IH. rewrite length_drop. lia.
Qed.

(** The host gets the bytes back: it reads until a short packet. *)
Fixpoint host_reads (mps : nat) (ps : list (list Z)) : list Z * list (list Z) :=
  match ps with
  | [] => ([], [])
  | p :: ps => if (length p <? mps)%nat then (p, ps) else let '(d, rest) := host_reads mps ps in (p ++ d, rest)
  end.

Lemma packets_concat mps d : (0 < mps)%nat -> concat (packets mps d) = d.
Proof.
  intros Hm. revert d. apply (packets_ind mps); [done| |].
  - intros d Hd. rewrite packets_short by done. simpl. by rewrite app_nil_r.
  - intros d Hd IH. rewrite packets_full by done. simpl. by rewrite IH, take_drop.
Qed.

Lemma host_reads_packets mps d rest : (0 < mps)%nat -> host_reads mps (packets mps d ++ rest) = (d, rest).
Proof.
  intros Hm. revert d. apply (packets_ind mps); [done| |].
  - intros d Hd. rewrite packets_short by done. simpl. by rewrite (proj2 (Nat.ltb_lt _ _) Hd).
  - intros d Hd IH. rewrite packets_full by done. simpl. rewrite (proj2 (Nat.ltb_ge _ _)) by (rewrite length_take; lia).
    rewrite IH. by rewrite take_drop.
Qed.

(** ** Control reads *)

Section Ep0.
Context {F : Type}.
Implicit Types (u : udevice F).

(** What the controller was given for endpoint [a]. *)
Definition sent_on (a : Z) (cmds : list dcd_cmd) : list (list Z) :=
  omap (fun c => match c with DcdWrite a' d => if a' =? a then Some d else None | _ => None end) cmds.

Lemma sent_on_app a c1 c2 : sent_on a (c1 ++ c2) = sent_on a c1 ++ sent_on a c2.
Proof. apply omap_app. Qed.

(** The controller acknowledges [n] packets. *)
Fixpoint ep0_acks (n : nat) u : option (udevice F) :=
  match n with O => Some u | S n => u ← rt_usbd_ep0_in_handler u; ep0_acks n u end.

Lemma first_bytes_take (buffer : list Z) n : (n <= length buffer)%nat -> first_bytes (Z.of_nat n) buffer = Some (take n buffer).
Proof. intros Hn. unfold first_bytes. rewrite (proj2 (Z.leb_le _ _)) by lia. by rewrite Nat2Z.id. Qed.

(** In the middle of a read: [d] has still to be acknowledged or sent, its first
    packet is under way. *)
Record ep0_sending (mps : nat) (d : list Z) u : Prop := {
  es_stage : stage u = STAGE_DIN;
  es_mps : e0_maxpacket (ep0 u) = Z.of_nat mps;
  es_remain : e0_remain_size (ep0 u) = Z.of_nat (length d);
  es_buffer : take (length d) (e0_buffer (ep0 u)) = d;
  es_size : 0 <= e0_size (ep0 u) /\ (e0_size (ep0 u) = 0 -> d = []);
  es_small : Z.of_nat (length d) < 2147483648;
}.

Lemma s32_sub a b : 0 <= a < 2147483648 -> 0 <= b < 2147483648 -> s32 (u32 (a - b)) = a - b.
Proof. intros Ha Hb. unfold s32, u32. rewrite Z.mod_mod by lia. destruct (Z.ltb_spec ((a - b) mod 4294967296) 2147483648); dlia. Qed.

Lemma take_firstn_length (d b : list Z) : take (length d) b = d -> (length d <= length b)%nat.
Proof. intros E. rewrite <-E at 1. rewrite length_take. lia. Qed.

(** Acknowledging the packets sends the others, then turns to the status stage. *)
Lemma ep0_acks_sends mps : (0 < mps)%nat -> Z.of_nat mps < 65536 -> forall d u, ep0_sending mps d u ->
  exists u' ps, packets mps d = take mps d :: ps /\ ep0_acks (length (packets mps d)) u = Some u' /\
    stage u' = STAGE_STATUS_OUT /\ sent_on EP0_IN_ADDR (dcd_cmds u') = sent_on EP0_IN_ADDR (dcd_cmds u) ++ ps.
Proof.
  intros Hm Hm2. refine (packets_ind mps _ Hm _ _).
  - intros d Hd u [H1 H2 H3 H4 H5 H6]. rewrite packets_short, take_ge by (try done; lia). simpl. unfold rt_usbd_ep0_in_handler.
    rewrite H1, H2, H3, s32_sub by lia. rewrite (proj2 (Z.ltb_ge 0 _)), (proj2 (Z.eqb_neq _ 0)) by lia. simpl.
    eexists _, []. split_and!; [done|done|done|]. simpl. by rewrite sent_on_app.
  - intros d Hd IH u [H1 H2 H3 H4 H5 H6]. rewrite packets_full by done. simpl. unfold rt_usbd_ep0_in_handler at 1.
    rewrite H1, H2, H3, s32_sub by lia. pose proof (take_firstn_length _ _ H4) as Hlb.
    assert (e0_size (ep0 u) <> 0) as Hz by (intros E; apply (proj2 H5) in E; subst d; simpl in *; lia).
    assert (u32 (Z.of_nat (length d) - Z.of_nat mps) = Z.of_nat (length (drop mps d))) as Eu
      by (rewrite u32_small by (unfold is_u32; lia); rewrite length_drop; lia).
    assert (take (length (drop mps d)) (drop mps (e0_buffer (ep0 u))) = drop mps d) as Eb.
    { rewrite take_drop_commute, length_drop. replace (mps + (length d - mps))%nat with (length d) by lia. by rewrite H4. }
    destruct (Z.ltb_spec 0 (Z.of_nat (length d) - Z.of_nat mps)) as [Hlt|Hge].
    + assert ((if Z.of_nat mps <=? Z.of_nat (length d) - Z.of_nat mps then Z.of_nat mps else Z.of_nat (length d) - Z.of_nat mps)
        = Z.of_nat (Nat.min mps (length (drop mps d)))) as -> by (rewrite length_drop; case_match eqn:E; [apply Z.leb_le in E|apply Z.leb_gt in E]; lia).
      unfold dcd_ep_write. rewrite Nat2Z.id, first_bytes_take by (rewrite !length_drop; lia). simpl.
      match goal with |- context [ep0_acks _ ?v] => set (u1 := v) end.
      assert (ep0_sending mps (drop mps d) u1) as Hs.
      { split; unfold u1; simpl; [done|done|done|done|split; [apply H5|done]|rewrite length_drop; lia]. }
      destruct (IH u1 Hs) as (u'&ps&Ep&Ea&Es&Ec). rewrite Ea. eexists u', _. split_and!; [reflexivity|done|done|].
      rewrite Ec, Ep. unfold u1. simpl. rewrite sent_on_app, <-app_assoc. f_equal. simpl. f_equal.
      by rewrite <-take_take, Eb.
    + assert (length d = mps) as El by lia. assert (drop mps d = []) as Ed by (apply drop_ge; lia).
      rewrite (proj2 (Z.eqb_eq _ 0)), (proj2 (Z.ltb_lt 0 (e0_size (ep0 u)))) by lia. simpl.
      match goal with |- context [ep0_acks _ ?v] => set (u1 := v) end.
      assert (ep0_sending mps (drop mps d) u1) as Hs.
      { split; unfold u1; simpl; [done|done|done|by rewrite Ed|split; [done|by rewrite Ed]|rewrite Ed; simpl; lia]. }
      destruct (IH u1 Hs) as (u'&ps&Ep&Ea&Es&Ec). rewrite Ea. eexists u', _. split_and!; [reflexivity|done|done|].
      rewrite Ec, Ep. unfold u1. simpl. rewrite sent_on_app, <-app_assoc. f_equal. simpl. by rewrite Ed, take_nil.
Qed.

Lemma ep0_write_sending mps buffer size u : e0_maxpacket (ep0 u) = Z.of_nat mps -> (0 < mps)%nat ->
  0 <= size <= Z.of_nat (length buffer) -> size < 2147483648 ->
  exists u1, rt_usbd_ep0_write buffer size u = Some u1 /\ ep0_sending mps (take (Z.to_nat size) buffer) u1 /\
    sent_on EP0_IN_ADDR (dcd_cmds u1) = sent_on EP0_IN_ADDR (dcd_cmds u) ++ [take mps (take (Z.to_nat size) buffer)].
Proof.
  intros He Hm Hs Hs2. unfold rt_usbd_ep0_write. rewrite He.
  assert ((if Z.of_nat mps <=? size then Z.of_nat mps else size) = Z.of_nat (Nat.min mps (Z.to_nat size))) as ->
    by (case_match eqn:E; [apply Z.leb_le in E|apply Z.leb_gt in E]; lia).
  unfold dcd_ep_write. rewrite first_bytes_take by lia. simpl. eexists. split; [done|].
  assert (length (take (Z.to_nat size) buffer) = Z.to_nat size) as El by (rewrite length_take; lia).
  split; [|simpl; by rewrite sent_on_app, take_take]. split; simpl; [done|done|lia|by rewrite El|split; [lia|by intros ->]|lia].
Qed.

(** C14: A control read is received as it was written: the packets that go out, the
    first with the request and one with each acknowledgement, are those of the
    bytes asked for, ended by a short packet, and then comes the status stage. *)
Theorem control_read_received mps buffer size u : e0_maxpacket (ep0 u) = Z.of_nat mps -> (0 < mps)%nat -> Z.of_nat mps < 65536 ->
  0 <= size <= Z.of_nat (length buffer) -> size < 2147483648 ->
  let d := take (Z.to_nat size) buffer in
  exists u1 u2, rt_usbd_ep0_write buffer size u = Some u1 /\ ep0_acks (length (packets mps d)) u1 = Some u2 /\
    stage u2 = STAGE_STATUS_OUT /\
    exists ps, sent_on EP0_IN_ADDR (dcd_cmds u2) = sent_on EP0_IN_ADDR (dcd_cmds u) ++ ps /\ host_reads mps ps = (d, []).
Proof.
  intros He Hm Hm2 Hs Hs2 d. destruct (ep0_write_sending mps buffer size u He Hm Hs Hs2) as (u1&E1&Hsend&Hc1).
  destruct (ep0_acks_sends mps Hm Hm2 d u1 Hsend) as (u2&ps&Ep&Ea&Hst&Hc2).
  exists u1, u2. split_and!; [done|done|done|]. exists (packets mps d). split.
  - by rewrite Hc2, Hc1, Ep, <-app_assoc.
  - rewrite <-(app_nil_r (packets mps d)). by apply host_reads_packets.
Qed.
(** ** Endpoints are found by their address alone *)

(** The same configuration: objects may differ in transfers and states. *)
Record same_tree (u u' : udevice F) : Prop := {
  tr_state : u_state u' = u_state u;
  tr_cfgs : cfg_list u' = cfg_list u;
  tr_curr : curr_cfg u' = curr_cfg u;
  tr_intfs : u_intfs u' = u_intfs u;
  tr_funcs : forall f, intf_list <$> u_funcs u' !! f = intf_list <$> u_funcs u !! f;
  tr_eps : forall e, bEndpointAddress <$> u_eps u' !! e = bEndpointAddress <$> u_eps u !! e;
}.

#[export] Instance same_tree_preorder : PreOrder same_tree.
Proof.
  split; [done|]. intros u v w [A1 A2 A3 A4 A5 A6] [B1 B2 B3 B4 B5 B6].
  split; intros; [by rewrite B1|by rewrite B2|by rewrite B3|by rewrite B4|by rewrite B5|by rewrite B6].
Qed.

Lemma current_intfs_tree u u' : same_tree u u' -> current_intfs u' = current_intfs u.
Proof.
  intros [_ E2 E3 E4 E5 _]. unfold current_intfs, current. rewrite E2, E3, E4.
  destruct (curr_cfg u ≫= λ i, cfg_list u !! i) as [c|]; simpl; [|done].
  erewrite mapM_ext; [reflexivity|]. intros f. simpl. specialize (E5 f).
  destruct (u_funcs u' !! f), (u_funcs u !! f); simpl in *; simplify_eq; [|done]. by rewrite E5.
Qed.

(** The endpoints in order, by their addresses. *)
Definition ep_addrs u : option (list (nat * nat * Z)) :=
  its ← current_intfs u;
  es ← mapM (fun x => s ← setting_of x.2; mapM (fun e => a ← bEndpointAddress <$> u_eps u !! e; Some (x.1.1, e, a)) (ep_list s)) its;
  Some (concat es).
Definition by_addr (x : nat * nat * uendpoint) : nat * nat * Z := (x.1, bEndpointAddress x.2).

Lemma mapM_map {A B C} (f : A -> option B) (g : A -> option C) (h : B -> C) l :
  (forall x, g x = h <$> f x) -> mapM g l = map h <$> mapM f l.
Proof.
  intros E. induction l as [|x l IH]; simpl; [done|]. rewrite E. destruct (f x); simpl; [|done]. rewrite IH.
  by destruct (mapM f l).
Qed.

Lemma ep_addrs_eq u : ep_addrs u = map by_addr <$> current_eps u.
Proof.
  unfold ep_addrs, current_eps. destruct (current_intfs u) as [its|]; simpl; [|done].
  rewrite (mapM_map (fun x => s ← setting_of x.2; mapM (fun e => ep ← u_eps u !! e; Some (x.1.1, e, ep)) (ep_list s)) _ (map by_addr)).
  2: { intros x. destruct (setting_of x.2) as [s|]; simpl; [|done]. apply mapM_map. intros e. by destruct (u_eps u !! e). }
  destruct (mapM _ its); simpl; [|done]. by rewrite concat_map.
Qed.

Lemma find_map {A B} (f : A -> B) (p : B -> bool) l : f <$> List.find (fun x => p (f x)) l = List.find p (map f l).
Proof. induction l as [|x l IH]; simpl; [done|]. by destruct (p (f x)). Qed.

Lemma find_endpoint_addrs a u :
  rt_usbd_find_endpoint a u = es ← ep_addrs u; Some ((fun x => (x.1.1, x.1.2)) <$> List.find (fun x => x.2 =? u8 a) es).
Proof.
  rewrite ep_addrs_eq. unfold rt_usbd_find_endpoint. destruct (current_eps u) as [es|]; simpl; [|done]. f_equal.
  assert (List.find (fun x => x.2 =? u8 a) (map by_addr es) = by_addr <$> List.find (fun x => bEndpointAddress x.2 =? u8 a) es) as ->
    by (symmetry; apply (find_map by_addr (fun x => x.2 =? u8 a))).
  by destruct (List.find _ es).
Qed.

Lemma find_endpoint_tree a u u' : same_tree u u' -> rt_usbd_find_endpoint a u' = rt_usbd_find_endpoint a u.
Proof.
  intros Ht. rewrite !find_endpoint_addrs. unfold ep_addrs. rewrite (current_intfs_tree _ _ Ht).
  destruct (current_intfs u) as [its|]; simpl; [|done]. erewrite mapM_ext; [reflexivity|]. intros x. simpl.
  destruct (setting_of x.2) as [s|]; simpl; [|done]. apply mapM_ext. intros e. by rewrite (tr_eps _ _ Ht).
Qed.
End Ep0.

Definition demo_usb : udevice unit := set_dev_desc (Z.of_nat <$> seq 0 18) (rt_usbd_device_new [] [] 8).
Lemma control_read_received_witness :
  exists u1 u2, rt_usbd_ep0_write (dev_desc demo_usb) 16 demo_usb = Some u1 /\ ep0_acks 3 u1 = Some u2 /\
    stage u2 = STAGE_STATUS_OUT /\
    exists ps, sent_on EP0_IN_ADDR (dcd_cmds u2) = [] ++ ps /\ host_reads 8 ps = (take 16 (dev_desc demo_usb), []).
Proof. apply (control_read_received 8 (dev_desc demo_usb) 16 demo_usb); [done|lia|done|done|done]. Defined.

