(* ===== verification/Vcom.v ===== *)
(** * The virtual COM port (rt-thread/components/drivers/usb/usbdevice/class/cdc_vcom.c)

    A serial device whose bytes travel over USB: a function of the device core on
    one side, a UART driver of the serial framework on the other, with a ring
    buffer in each direction and a thread that sends. *)

From S2P Require Import Prelude Kernel Ring Mem RingBuffer Device Serial UsbCore.

(** ** State *)

Definition CDC_RX_BUFSIZE : nat := 128.
Definition CDC_TX_BUFSIZE : nat := 1024.
Definition CDC_BULKIN_MAXSIZE : nat := 128.

(** The fields of [struct vcom] but the serial device: the endpoints, the buffer of
    the bulk out endpoint, the flag of the completion and whether the event
    [CDC_TX_HAS_DATE] is set. *)
Record vcom := Vcom {
  ep_out : nat; ep_in : nat; ep_cmd : nat;
  out_buffer : option Z;
  connected : bool;
  in_sending : bool;
  wait_done : bool;
  rx_ringbuffer : rt_ringbuffer;
  tx_ringbuffer : rt_ringbuffer;
  tx_event : bool;
}.
Definition vc_out_buffer x v := Vcom (ep_out v) (ep_in v) (ep_cmd v) x (connected v) (in_sending v) (wait_done v) (rx_ringbuffer v) (tx_ringbuffer v) (tx_event v).
Definition vc_connected x v := Vcom (ep_out v) (ep_in v) (ep_cmd v) (out_buffer v) x (in_sending v) (wait_done v) (rx_ringbuffer v) (tx_ringbuffer v) (tx_event v).
Definition vc_in_sending x v := Vcom (ep_out v) (ep_in v) (ep_cmd v) (out_buffer v) (connected v) x (wait_done v) (rx_ringbuffer v) (tx_ringbuffer v) (tx_event v).
Definition vc_wait x v := Vcom (ep_out v) (ep_in v) (ep_cmd v) (out_buffer v) (connected v) (in_sending v) x (rx_ringbuffer v) (tx_ringbuffer v) (tx_event v).
Definition vc_rx x v := Vcom (ep_out v) (ep_in v) (ep_cmd v) (out_buffer v) (connected v) (in_sending v) (wait_done v) x (tx_ringbuffer v) (tx_event v).
Definition vc_tx x v := Vcom (ep_out v) (ep_in v) (ep_cmd v) (out_buffer v) (connected v) (in_sending v) (wait_done v) (rx_ringbuffer v) x (tx_event v).
Definition vc_event x v := Vcom (ep_out v) (ep_in v) (ep_cmd v) (out_buffer v) (connected v) (in_sending v) (wait_done v) (rx_ringbuffer v) (tx_ringbuffer v) x.

(** ** The UART driver *)

Definition _vcom_getc (v : vcom) : vcom * Z :=
  match rt_ringbuffer_getchar (rx_ringbuffer v) with
  | (rb, Some ch) => (vc_rx rb v, ch)
  | (rb, None) => (vc_rx rb v, -1)
  end.

(** One byte into the transmit buffer, in a section without interrupts; then the event. *)
Definition tx_put (c : Z) (v : vcom) : vcom := vc_tx (fst (rt_ringbuffer_putchar_force c (tx_ringbuffer v))) v.
Definition _vcom_putc (open_flag c : Z) (v : vcom) : vcom * Z :=
  if connected v then
    let v := if (c =? 10) && has open_flag RT_DEVICE_FLAG_STREAM then vc_event true (tx_put 13 v) else v in
    (vc_event true (tx_put c v), 1)
  else (v, 1).

#[export] Instance usb_vcom_ops : uart_ops vcom := {|
  uart_configure _ v := (v, RT_EOK);
  uart_control _ _ v := (v, RT_EOK);
  uart_putc := _vcom_putc;
  uart_getc := _vcom_getc;
|}.

(** Writing a block. [gaps]: the numbers of bytes that the sending thread takes out
    of the buffer before each section without interrupts; [sent] collects the bytes. *)
Record tx_state := TxState { tx_v : vcom; tx_gaps : list nat; tx_sent : list Z }.

Definition gap (s : tx_state) : tx_state :=
  match tx_gaps s with
  | [] => s
  | n :: gaps =>
      let '(rb, d) := rt_ringbuffer_get n (tx_ringbuffer (tx_v s)) in TxState (vc_tx rb (tx_v s)) gaps (tx_sent s ++ d)
  end.
Definition put_force_gap (d : list Z) (s : tx_state) : tx_state * nat :=
  let s := gap s in
  let '(rb, n) := rt_ringbuffer_put_force d (tx_ringbuffer (tx_v s)) in (TxState (vc_tx rb (tx_v s)) (tx_gaps s) (tx_sent s), n).
(** Carriage return and line feed, when there is room for both. *)
Definition crlf_gap (s : tx_state) : tx_state * bool :=
  let s := gap s in
  if (2 <=? rt_ringbuffer_space_len (tx_ringbuffer (tx_v s)))%nat then
    let '(rb, _) := rt_ringbuffer_put_force [13; 10] (tx_ringbuffer (tx_v s)) in (TxState (vc_tx rb (tx_v s)) (tx_gaps s) (tx_sent s), true)
  else (s, false).

(** The next line feed from [ptr] on. *)
Fixpoint find_lf (fuel : nat) (buf : list Z) (ptr : nat) : nat :=
  match fuel with
  | O => ptr
  | S fuel => match buf !! ptr with Some c => if c =? 10 then ptr else find_lf fuel buf (S ptr) | None => ptr end
  end.

(** The loop of a stream write: the state, [size] and [empty] at its end. *)
Fixpoint stream_loop (fuel : nat) (buf : list Z) (ptr size : nat) (s : tx_state) : tx_state * nat * bool :=
  match fuel with
  | O => (s, size, false)
  | S fuel =>
      if (ptr <? length buf)%nat then
        let ptr := find_lf (length buf) buf ptr in
        if (ptr <? length buf)%nat then
          let '(s, n) := put_force_gap (take (ptr - size) (drop size buf)) s in
          let size := (size + n)%nat in
          if (size =? ptr)%nat then
            let '(s, room) := crlf_gap s in
            if room then stream_loop fuel buf (S ptr) (S size) s else (s, size, true)
          else (s, size, true)
        else (s, size, false)
      else (s, size, false)
  end.

(** Without a connection the code hands over to the interrupt routine of DMA
    transmission, which is left out. [open_flag]: the flags of the device. *)
Definition _vcom_tx (open_flag : Z) (buf : list Z) (s : tx_state) : tx_state * nat :=
  let buf := take (Nat.min (length buf) CDC_BULKIN_MAXSIZE) buf in
  if connected (tx_v s) then
    let '(s, size, empty) :=
      if has open_flag RT_DEVICE_FLAG_STREAM then stream_loop (S (length buf)) buf 0 0 s else (s, 0%nat, false) in
    let '(s, size) :=
      if (size <? length buf)%nat && negb empty then
        let '(s, n) := put_force_gap (drop size buf) s in (s, (size + n)%nat)
      else (s, size) in
    (if (size =? 0)%nat then s else TxState (vc_event true (tx_v s)) (tx_gaps s) (tx_sent s), size)
  else (s, length buf).

(** ** The USB function *)

(** The state of the function: the serial device with this driver. *)
Definition vfun : Type := dstate (serial vcom).
Definition vcom_of (x : vfun) : vcom := ser_low x.2.
Definition on_vcom (f : vcom -> vcom) (x : vfun) : vfun := set_low (f (vcom_of x)) x.

Section Function.
Abbreviation usb := (udevice vfun).
Implicit Types (u : usb) (setup : urequest).

Definition get_fun (f : nat) u : option vfun := user_data <$> u_funcs u !! f.
Definition put_fun (f : nat) (x : vfun) u : usb :=
  set_funcs (alter (fun fn => UFunction (enabled fn) (intf_list fn) x) f (u_funcs u)) u.
Definition upd_fun (f : nat) (g : vfun -> vfun) u : option usb := x ← get_fun f u; Some (put_fun f (g x) u).

Definition _vcom_reset_state (f : nat) u : option usb := upd_fun f (on_vcom (fun v => vc_in_sending false (vc_connected false v))) u.

(** Storing a request in an endpoint and submitting it; [remain_size] is set there. *)
Definition submit (e : nat) (t : UIO_REQUEST_TYPE) (buffer : list Z) (size : Z) u : option usb :=
  ep ← u_eps u !! e;
  let r := UioRequest t buffer size (rq_remain_size (ep_request ep)) in
  rt_usbd_io_request e r (set_eps (<[e := set_request r ep]> (u_eps u)) u).

(** A packet went in; after a full last packet an empty one ends the transfer. *)
Definition _ep_in_handler (f : nat) u : option usb :=
  x ← get_fun f u;
  ep ← u_eps u !! ep_in (vcom_of x);
  let request_size := rq_size (ep_request ep) in
  if negb (request_size =? 0) && (request_size mod wMaxPacketSize ep =? 0) then
    submit (ep_in (vcom_of x)) UIO_REQUEST_WRITE [] 0 (put_fun f (on_vcom (vc_in_sending true) x) u)
  else Some (put_fun f (on_vcom (vc_wait true) x) u).

(** Bytes came out: into the receive buffer and up the serial framework. *)
Definition rx_bytes (d : list Z) (x : vfun) : option vfun :=
  if has (dev_flag x.1) RT_DEVICE_FLAG_ACTIVATED && has (dev_open_flag x.1) RT_DEVICE_OFLAG_OPEN then
    let x := on_vcom (fun v => vc_rx (fst (rt_ringbuffer_put d (rx_ringbuffer v))) v) x in
    fst <$> rt_hw_serial_isr (S (rt_ringbuffer_data_len (rx_ringbuffer (vcom_of x)))) RT_SERIAL_EVENT_RX_IND x
  else Some x.
Definition _ep_out_handler (f : nat) (size : Z) u : option usb :=
  x ← get_fun f u;
  ep ← u_eps u !! ep_out (vcom_of x);
  d ← first_bytes size (rq_buffer (ep_request ep));
  x ← rx_bytes d x;
  submit (ep_out (vcom_of x)) UIO_REQUEST_READ_BEST [] (wMaxPacketSize ep) (put_fun f x u).

Definition line_coding : list Z := [0; 194; 1; 0; 0; 0; 8].    (* 115200, 8 data bits *)
Definition _cdc_get_line_coding setup u : option usb :=
  rt_usbd_ep0_write line_coding (if 7 <? wLength setup then 7 else wLength setup) u.
Definition _cdc_set_line_coding u : usb := rt_usbd_ep0_read [] 7 (Some 0) u.
Definition _cdc_set_line_coding_callback u : usb := dcd_ep0_send_status u.

Definition _interface_handler (f : nat) setup u : option (usb * Z) :=
  let b := bRequest setup in
  if (b <=? 4) || (b =? 35) then Some (u, RT_EOK)
  else if b =? 32 then Some (_cdc_set_line_coding u, RT_EOK)
  else if b =? 33 then u ← _cdc_get_line_coding setup u; Some (u, RT_EOK)
  else if b =? 34 then
    u ← upd_fun f (on_vcom (vc_connected (0 <? Z.land (wValue setup) 1))) u;
    Some (dcd_ep0_send_status u, RT_EOK)
  else Some (u, - RT_ERROR).

(** A failed allocation is not noticed: the transfer is started all the same. *)
Definition _function_enable (f : nat) u : option (usb * Z) :=
  u ← _vcom_reset_state f u;
  x ← get_fun f u;
  '(h, p) ← rt_malloc (Z.of_nat CDC_RX_BUFSIZE) (ser_heap x.2);
  let x := on_vcom (vc_out_buffer p) (set_heap h x) in
  ep ← u_eps u !! ep_out (vcom_of x);
  u ← submit (ep_out (vcom_of x)) UIO_REQUEST_READ_BEST [] (wMaxPacketSize ep) (put_fun f x u);
  Some (u, RT_EOK).

Definition _function_disable (f : nat) u : option (usb * Z) :=
  u ← _vcom_reset_state f u;
  x ← get_fun f u;
  match out_buffer (vcom_of x) with
  | Some p => h ← rt_free p (ser_heap x.2); Some (put_fun f (on_vcom (vc_out_buffer None) (set_heap h x)) u, RT_EOK)
  | None => Some (u, RT_EOK)
  end.
End Function.

#[export] Instance vcom_class : usb_class vfun := {|
  cl_enable := _function_enable;
  cl_disable := _function_disable;
  cl_interface := _interface_handler;
  cl_endpoint f e size u :=
    x ← get_fun f u;
    if (e =? ep_out (vcom_of x))%nat then _ep_out_handler f size u
    else if (e =? ep_in (vcom_of x))%nat then _ep_in_handler f u
    else Some u;      (* _ep_cmd_handler *)
  cl_ep0_rx _ _ u := Some (_cdc_set_line_coding_callback u);
|}.

(** ** Creating the function *)

Definition codes (s : string) : list Z := (fun a => Z.of_N (Ascii.N_of_ascii a)) <$> String.list_ascii_of_string s.
Definition _SER_NO : list Z := codes "32021919830108".
(** Without a stored serial number. *)
Definition _ustring : list (list Z) :=
  [codes "Language"; codes "RT-Thread Team."; codes "RTT Virtual Serial"; _SER_NO; codes "Configuration"; codes "Interface"].

(** The device descriptor: class CDC, USB 2.0, vendor 0x0ffe, product 1. *)
Definition cdc_dev_desc : list Z := [18; 1; 0; 2; 2; 0; 0; 64; 254; 15; 1; 0; 0; 2; 1; 2; 3; 0].

Definition _comm_desc (comm data : Z) (e : nat) : list desc_item :=
  [DescBytes ([9; 4; 0; 0; 1; 2; 2; 1; 0] ++ [5; 36; 0; 16; 1] ++ [5; 36; 1; 0; data] ++ [4; 36; 2; 2] ++ [5; 36; 6; comm; data]);
   DescEndpoint e].
Definition _data_desc (e_out e_in : nat) : list desc_item :=
  [DescBytes [9; 4; 0; 0; 2; 10; 0; 0; 0]; DescEndpoint e_out; DescEndpoint e_in].

Definition vcom_config : serial_configure := SerialConfigure 115200 8 0 0 0 0 CDC_RX_BUFSIZE.
Definition VCOM_FLAGS : Z := RT_DEVICE_FLAG_RDWR + RT_DEVICE_FLAG_INT_RX + RT_DEVICE_FLAG_INT_TX.

(** The structure after [rt_memset] and [rt_usb_vcom_init]; the sending thread
    starts at its first line. *)
Definition rt_usb_vcom_init (h : heap) : vfun :=
  rt_hw_serial_register VCOM_FLAGS
    (RtDevice 0 0 0 false false,
     Serial vcom_config RxNone TxNone
       (Vcom 0 0 0 None false false false
          (rt_ringbuffer_init (replicate CDC_RX_BUFSIZE 0) (Z.of_nat CDC_RX_BUFSIZE))
          (rt_ringbuffer_init (replicate CDC_TX_BUFSIZE 0) (Z.of_nat CDC_TX_BUFSIZE)) false) h).

Definition vcom_eps (o i c : nat) (v : vcom) : vcom :=
  Vcom o i c (out_buffer v) (connected v) (in_sending v) (wait_done v) (rx_ringbuffer v) (tx_ringbuffer v) (tx_event v).

Definition rt_usbd_function_cdc_create (h : heap) (u : udevice vfun) : option (udevice vfun * nat) :=
  let x := rt_usb_vcom_init h in
  let '(u, intf_comm) := rt_usbd_interface_new u in
  let '(u, intf_data) := rt_usbd_interface_new u in
  comm ← u_intfs u !! intf_comm; data ← u_intfs u !! intf_data;
  let '(u, e_cmd) := rt_usbd_endpoint_new USB_DIR_IN 3 8 255 u in
  u ← rt_usbd_interface_add_altsetting intf_comm (UAltsetting 0 (_comm_desc (intf_num comm) (intf_num data) e_cmd) [e_cmd]) u;
  u ← rt_usbd_set_altsetting intf_comm 0 u;
  let '(u, e_out) := rt_usbd_endpoint_new 0 2 64 0 u in
  let '(u, e_in) := rt_usbd_endpoint_new USB_DIR_IN 2 64 0 u in
  u ← rt_usbd_interface_add_altsetting intf_data (UAltsetting 0 (_data_desc e_out e_in) [e_in; e_out]) u;
  u ← rt_usbd_set_altsetting intf_data 0 u;
  Some (rt_usbd_function_new (on_vcom (vcom_eps e_out e_in e_cmd) x) [intf_comm; intf_data] u).

(** The endpoints of the controller (libraries/HAL_Drivers/drv_usbd.c). *)
Definition _ep_pool : list ep_id :=
  [EpId 0 0 64 true; EpId 1 2 128 false; EpId 1 2 0 false; EpId 2 3 128 false; EpId 2 3 0 false; EpId 3 2 128 false; EpId 3 2 0 false; EpId 255 3 128 true].

Definition vcom_device (h : heap) : option (udevice vfun) :=
  rt_usb_device_init cdc_dev_desc (rt_usbd_function_cdc_create h) (rt_usbd_device_new _ustring _ep_pool 64).

(** ** The sending thread *)

(** Where the thread is: waiting for the event, testing the buffer, holding bytes it
    has taken, waiting for the completion. *)
Inductive tx_pc := TxWaitEvent | TxLoop | TxGot (ch : list Z) | TxWaitDone.

(** [rt_hw_serial_isr] with [RT_SERIAL_EVENT_TX_DONE], in interrupt mode. *)
Definition tx_done (x : vfun) : option vfun :=
  if has (dev_open_flag x.1) RT_DEVICE_FLAG_INT_TX then fst <$> rt_hw_serial_isr 1 RT_SERIAL_EVENT_TX_DONE x else Some x.

(** A step of the thread up to the next point where others can run. [None]: a
    crash; [Some None]: blocked. *)
Definition vcom_tx_step (f : nat) (pc : tx_pc) (timeout : bool) (u : udevice vfun) : option (option (tx_pc * udevice vfun)) :=
  x ← get_fun f u;
  let v := vcom_of x in
  match pc with
  | TxWaitEvent => Some (if tx_event v then Some (TxLoop, put_fun f (on_vcom (vc_event false) x) u) else None)
  | TxLoop =>
      if (rt_ringbuffer_data_len (tx_ringbuffer v) =? 0)%nat then Some (Some (TxWaitEvent, u))
      else
        let '(rb, ch) := rt_ringbuffer_get CDC_BULKIN_MAXSIZE (tx_ringbuffer v) in
        let u := put_fun f (on_vcom (vc_tx rb) x) u in
        Some (Some (if (length ch =? 0)%nat then TxLoop else TxGot ch, u))
  | TxGot ch =>
      if negb (connected v) then x ← tx_done x; Some (Some (TxLoop, put_fun f x u))
      else
        u ← submit (ep_in v) UIO_REQUEST_WRITE ch (Z.of_nat (length ch)) (put_fun f (on_vcom (vc_wait false) x) u);
        Some (Some (TxWaitDone, u))
  | TxWaitDone =>
      if wait_done v then x ← tx_done (on_vcom (vc_wait false) x); Some (Some (TxLoop, put_fun f x u))
      else if timeout then x ← tx_done x; Some (Some (TxLoop, put_fun f x u))
      else Some None
  end.
