(* ===== verification/VcomSpec.v ===== *)
(** * The virtual COM port delivers

    Bytes written to the device reach the host in order, packet by packet, whatever
    the order of the writes, of the sending thread and of the controller's
    reports; packets of the host reach the reader of the serial device. *)

From S2P Require Import Prelude Kernel Ring Mem MemSpec RingBuffer Device Serial SerialSafe UsbCore UsbSpec Vcom.

(** ** The receive buffer of the driver *)

#[export, refine] Instance vcom_receiver : uart_receiver vcom := {|
  uart_holds v q := rb_repr (rx_ringbuffer v) q /\ Forall is_u8 q
|}.
Proof.
  - intros v [Hr Hq]. simpl. unfold _vcom_getc. rewrite (getchar_get _ _ Hr).
    destruct (rt_ringbuffer_get_repr _ _ 1 Hr) as (rb&E&Hr'&_). rewrite E. simpl. eexists. split; [done|]. done.
  - intros v c q [Hr Hq]. apply Forall_cons in Hq as [Hc Hq]. split; [done|]. simpl. unfold _vcom_getc. rewrite (getchar_get _ _ Hr).
    destruct (rt_ringbuffer_get_repr _ _ 1 Hr) as (rb&E&Hr'&_). rewrite E. simpl. eexists. split; [done|]. done.
Defined.

Lemma vcom_sends fl c v : (uart_putc fl c v).2 <> -1.
Proof. simpl. unfold _vcom_putc. by destruct (connected v). Qed.

Implicit Types (u : udevice vfun) (x : vfun) (v : vcom).

(** ** Transfers on the bulk in endpoint *)

Definition IN_ADDR : Z := 129.
Definition MPS : nat := 64.

(** Endpoint [e] sends [rest] of a transfer of [size] bytes. *)
Record in_flight (e : nat) (rest : list Z) (size : Z) (u : udevice vfun) : Prop := {
  if_ep : exists ep, u_eps u !! e = Some ep /\ bEndpointAddress ep = IN_ADDR /\ wMaxPacketSize ep = Z.of_nat MPS /\ stalled ep = false /\
    rq_remain_size (ep_request ep) = Z.of_nat (length rest) /\ take (length rest) (rq_buffer (ep_request ep)) = rest /\
    rq_size (ep_request ep) = size
}.

Lemma drop_nil_full (rest : list Z) : (length rest < MPS)%nat -> drop MPS rest = [].
Proof. intros. apply drop_ge. lia. Qed.

Lemma take_of_take {A} (b r : list A) n m : take n b = r -> (m <= n)%nat -> take m b = take m r.
Proof. intros <- Hm. by rewrite take_take, Nat.min_l. Qed.

Lemma ep_write_sends e rest size u : in_flight e rest size u ->
  exists u', rt_usbd_ep_write e u = Some u' /\ in_flight e (drop MPS rest) size u' /\ same_tree u u' /\
    sent_on IN_ADDR (dcd_cmds u') = sent_on IN_ADDR (dcd_cmds u) ++ [take MPS rest] /\
    u_funcs u' = u_funcs u /\ (forall e', e' <> e -> u_eps u' !! e' = u_eps u !! e').
Proof.
  intros [(ep&E&Ha&Hm&Hst&Hr&Hb&Hs)]. unfold rt_usbd_ep_write. rewrite E. simpl. rewrite Hm, Hr, Ha, Nat2Z.id.
  pose proof (take_firstn_length _ _ Hb) as Hl. unfold dcd_ep_write.
  destruct (Z.leb_spec (Z.of_nat MPS) (Z.of_nat (length rest))) as [H|H].
  - rewrite first_bytes_take by lia. simpl. eexists. split; [done|]. split; [split|split; [split|split; [|split]]]; simpl; try done.
    + rewrite lookup_insert_eq. eexists. split; [done|]. simpl. split_and!; try done; [rewrite length_drop; lia|].
      rewrite take_drop_commute, length_drop. replace (MPS + (length rest - MPS))%nat with (length rest) by lia. by rewrite Hb.
    + intros e'. destruct (decide (e' = e)) as [->|Hne]; [by rewrite lookup_insert_eq, E|by rewrite lookup_insert_ne].
    + rewrite sent_on_app. simpl. do 2 f_equal. apply (take_of_take _ _ (length rest)); [done|lia].
    + intros e' Hne. by rewrite lookup_insert_ne.
  - rewrite first_bytes_take by lia. simpl. eexists. split; [done|]. rewrite drop_nil_full by lia.
    split; [split|split; [split|split; [|split]]]; simpl; try done.
    + rewrite lookup_insert_eq. eexists. split; [done|]. simpl. done.
    + intros e'. destruct (decide (e' = e)) as [->|Hne]; [by rewrite lookup_insert_eq, E|by rewrite lookup_insert_ne].
    + rewrite sent_on_app. simpl. f_equal. f_equal. by rewrite Hb, take_ge by lia.
    + intros e' Hne. by rewrite lookup_insert_ne.
Qed.

(** An endpoint that can take a transfer. *)
Definition in_endpoint (e : nat) u : Prop := exists rest size, in_flight e rest size u.

Lemma submit_write e d u : in_endpoint e u ->
  exists u', submit e UIO_REQUEST_WRITE d (Z.of_nat (length d)) u = Some u' /\ in_flight e (drop MPS d) (Z.of_nat (length d)) u' /\
    same_tree u u' /\ sent_on IN_ADDR (dcd_cmds u') = sent_on IN_ADDR (dcd_cmds u) ++ [take MPS d] /\
    u_funcs u' = u_funcs u /\ (forall e', e' <> e -> u_eps u' !! e' = u_eps u !! e').
Proof.
  intros (rest&size&[(ep&E&Ha&Hm&Hst&_)]). unfold submit. rewrite E. simpl. unfold rt_usbd_io_request. simpl.
  rewrite lookup_insert_eq. simpl. rewrite Hst. simpl.
  match goal with |- context [rt_usbd_ep_write e ?v] => set (u1 := v) end.
  assert (in_flight e d (Z.of_nat (length d)) u1) as Hf.
  { split. unfold u1. simpl. rewrite insert_insert_eq, lookup_insert_eq. eexists. split; [done|]. simpl.
    split_and!; try done. by rewrite firstn_all. }
  destruct (ep_write_sends _ _ _ _ Hf) as (u'&->&Hf'&Ht&Hc&Hfu&Hep). exists u'. split_and!; try done.
  - etrans; [|exact Ht]. split; unfold u1; simpl; try done. intros e'.
    destruct (decide (e' = e)) as [->|Hne]; [by rewrite lookup_insert_eq, E|by rewrite !lookup_insert_ne].
  - intros e' Hne. rewrite Hep by done. unfold u1. simpl. by rewrite !lookup_insert_ne.
Qed.

(** ** The function inside the device *)

Lemma get_put f x y u : get_fun f u = Some y -> get_fun f (put_fun f x u) = Some x.
Proof.
  unfold get_fun, put_fun. intros Hy. simpl. rewrite lookup_alter_eq. by destruct (u_funcs u !! f).
Qed.
Lemma put_tree f x u : same_tree u (put_fun f x u).
Proof.
  split; simpl; try done. intros g. destruct (decide (g = f)) as [->|Hne].
  - rewrite lookup_alter_eq. by destruct (u_funcs u !! f).
  - by rewrite lookup_alter_ne.
Qed.
Lemma get_fun_same f u u' : u_funcs u' = u_funcs u -> get_fun f u' = get_fun f u.
Proof. unfold get_fun. by intros ->. Qed.
Lemma in_flight_eps e rest size u u' : u_eps u' !! e = u_eps u !! e -> in_flight e rest size u -> in_flight e rest size u'.
Proof. intros E [H]. split. by rewrite E. Qed.
Lemma in_endpoint_eps e u u' : u_eps u' !! e = u_eps u !! e -> in_endpoint e u -> in_endpoint e u'.
Proof. intros E (rest&size&H). exists rest, size. by eapply in_flight_eps. Qed.

(** The driver's side of the transmission: it is connected, its endpoint is the one
    the core finds, the completion of the framework is there in interrupt mode. *)
Record tx_link (f : nat) (x : vfun) (u : udevice vfun) : Prop := {
  tl_state : u_state u = USB_STATE_CONFIGURED;
  tl_fun : get_fun f u = Some x;
  tl_find : rt_usbd_find_endpoint IN_ADDR u = Some (Some (f, ep_in (vcom_of x)));
  tl_out : ep_out (vcom_of x) <> ep_in (vcom_of x);
  tl_ep : in_endpoint (ep_in (vcom_of x)) u;
  tl_conn : connected (vcom_of x) = true;
  tl_tx : has (dev_open_flag x.1) RT_DEVICE_FLAG_INT_TX = true -> exists p c, ser_tx x.2 = TxIsFifo p c;
}.

(** The same function up to the buffers, the flags of the driver and the completion
    of the framework. *)
Definition same_link (x x' : vfun) : Prop :=
  dev_open_flag x'.1 = dev_open_flag x.1 /\ ep_in (vcom_of x') = ep_in (vcom_of x) /\ ep_out (vcom_of x') = ep_out (vcom_of x) /\
  connected (vcom_of x') = connected (vcom_of x) /\
  ((exists p c, ser_tx x.2 = TxIsFifo p c) -> exists p c, ser_tx x'.2 = TxIsFifo p c).

Lemma link_step f x x' u u' : tx_link f x u -> same_tree u u' -> get_fun f u' = Some x' -> same_link x x' ->
  in_endpoint (ep_in (vcom_of x)) u' -> tx_link f x' u'.
Proof.
  intros [H1 H2 H3 H4 H5 H6 H7] Ht Hf (E1&E2&E3&E4&E5) Hep.
  split; rewrite ?E1, ?E2, ?E3, ?E4; try done; [by rewrite (tr_state _ _ Ht)|by rewrite (find_endpoint_tree _ _ _ Ht)|auto].
Qed.

Lemma link_put f x x' u : tx_link f x u -> same_link x x' -> tx_link f x' (put_fun f x' u).
Proof.
  intros Hl Hs. eapply link_step; [exact Hl|apply put_tree|eapply get_put; apply Hl|done|].
  eapply in_endpoint_eps; [|apply Hl]. done.
Qed.

Lemma on_vcom_link g x : (forall v, ep_in (g v) = ep_in v /\ ep_out (g v) = ep_out v /\ connected (g v) = connected v) -> same_link x (on_vcom g x).
Proof. intros Hg. destruct (Hg (vcom_of x)) as (E1&E2&E3). by split_and!. Qed.

Lemma vcom_of_on g x : vcom_of (on_vcom g x) = g (vcom_of x).
Proof. done. Qed.

Lemma tx_done_ok x : (has (dev_open_flag x.1) RT_DEVICE_FLAG_INT_TX = true -> exists p c, ser_tx x.2 = TxIsFifo p c) ->
  exists x', tx_done x = Some x' /\ same_link x x' /\ vcom_of x' = vcom_of x.
Proof.
  intros Ht. unfold tx_done. destruct (has _ _).
  - destruct Ht as (p&c&Ep); [done|]. simpl. rewrite Ep. simpl. eexists. split; [done|]. split; [|done].
    split_and!; try done. intros _. simpl. by eexists _, _.
  - exists x. split; [done|]. by split_and!.
Qed.

(** ** Writers, the sending thread and the controller in any order *)

(** The sections of [_vcom_putc]: a byte into the buffer, then the event. *)
Inductive micro := MPut (c : Z) | MEvent.
Definition micro_exec (m : micro) (v : vcom) : vcom := match m with MPut c => tx_put c v | MEvent => vc_event true v end.
Definition putc_sections (open_flag c : Z) : list micro :=
  (if (c =? 10) && has open_flag RT_DEVICE_FLAG_STREAM then [MPut 13; MEvent] else []) ++ [MPut c; MEvent].

Lemma putc_sections_exec open_flag c v : connected v = true ->
  fold_left (fun v m => micro_exec m v) (putc_sections open_flag c) v = fst (_vcom_putc open_flag c v).
Proof. intros Hc. unfold putc_sections, _vcom_putc. rewrite Hc. by destruct (_ && _). Qed.

(** The bytes written, after one more: a byte that finds the buffer full takes the place
    of the oldest byte that waits there. *)
Definition put_written (c : Z) (v : vcom) (w : list Z) : list Z :=
  if (rt_ringbuffer_space_len (tx_ringbuffer v) =? 0)%nat then delete (length w - rt_ringbuffer_data_len (tx_ringbuffer v))%nat w ++ [c] else w ++ [c].

(** The device, the place of the thread, what remains of the calls of the writers,
    the bytes put into the buffer so far and not replaced there, the packets reported
    as sent. *)
Record vsys := VSys { vs_u : udevice vfun; vs_pc : tx_pc; vs_writers : list (list micro); vs_written : list Z; vs_acks : nat }.

(** What else happens leaves the transmission alone. *)
Record tx_frame (f : nat) (u u' : udevice vfun) : Prop := {
  fr_tree : same_tree u u';
  fr_sent : sent_on IN_ADDR (dcd_cmds u') = sent_on IN_ADDR (dcd_cmds u);
  fr_fun : forall x, get_fun f u = Some x -> exists x', get_fun f u' = Some x' /\ same_link x x' /\
    tx_ringbuffer (vcom_of x') = tx_ringbuffer (vcom_of x) /\ tx_event (vcom_of x') = tx_event (vcom_of x) /\
    wait_done (vcom_of x') = wait_done (vcom_of x) /\ u_eps u' !! ep_in (vcom_of x) = u_eps u !! ep_in (vcom_of x);
}.

Inductive vstep (f : nat) : vsys -> vsys -> Prop :=
| vs_call u pc ws w a x c : get_fun f u = Some x ->
    vstep f (VSys u pc ws w a) (VSys u pc (ws ++ [putc_sections (dev_open_flag x.1) c]) w a)
| vs_put u pc ws1 ms ws2 w a x c : get_fun f u = Some x ->
    vstep f (VSys u pc (ws1 ++ (MPut c :: ms) :: ws2) w a) (VSys (put_fun f (on_vcom (micro_exec (MPut c)) x) u) pc (ws1 ++ ms :: ws2) (put_written c (vcom_of x) w) a)
| vs_event u pc ws1 ms ws2 w a x : get_fun f u = Some x ->
    vstep f (VSys u pc (ws1 ++ (MEvent :: ms) :: ws2) w a) (VSys (put_fun f (on_vcom (micro_exec MEvent) x) u) pc (ws1 ++ ms :: ws2) w a)
| vs_thread u pc ws w a pc' u' : vcom_tx_step f pc false u = Some (Some (pc', u')) -> vstep f (VSys u pc ws w a) (VSys u' pc' ws w a)
| vs_in u pc ws w a n u' : (a < length (sent_on IN_ADDR (dcd_cmds u)))%nat ->
    rt_usbd_thread_step [] (USB_MSG_DATA_NOTIFY IN_ADDR n []) u = Some u' -> vstep f (VSys u pc ws w a) (VSys u' pc ws w (S a))
| vs_other u pc ws w a u' : tx_frame f u u' -> vstep f (VSys u pc ws w a) (VSys u' pc ws w a).

(** A writer that has put a byte signals next. *)
Fixpoint writer_ok (ms : list micro) : Prop :=
  match ms with
  | [] => True
  | MEvent :: ms => writer_ok ms
  | MPut _ :: ms => match ms with MEvent :: ms' => writer_ok ms' | _ => False end
  end.
Definition signal_due (ws : list (list micro)) : Prop := Exists (fun ms => head ms = Some MEvent) ws.

Definition sent_bytes u : list Z := concat (sent_on IN_ADDR (dcd_cmds u)).
Definition sent_count u : nat := length (sent_on IN_ADDR (dcd_cmds u)).

(** Where the bytes that were put are: sent, on their way, in the buffer. *)
Definition pc_inv (x : vfun) (q : list Z) (st : vsys) : Prop :=
  let u := vs_u st in let v := vcom_of x in let w := vs_written st in
  match vs_pc st with
  | TxWaitEvent => w = sent_bytes u ++ q /\ vs_acks st = sent_count u /\ (q <> [] -> tx_event v = true \/ signal_due (vs_writers st))
  | TxLoop => w = sent_bytes u ++ q /\ vs_acks st = sent_count u
  | TxGot ch => w = sent_bytes u ++ ch ++ q /\ vs_acks st = sent_count u
  | TxWaitDone => exists rest size, in_flight (ep_in v) rest size u /\ w = sent_bytes u ++ rest ++ q /\
      (if wait_done v then rest = [] /\ vs_acks st = sent_count u else S (vs_acks st) = sent_count u)
  end.

Record vinv (f : nat) (st : vsys) : Prop := {
  vi_ok : exists x q, tx_link f x (vs_u st) /\ rb_repr (tx_ringbuffer (vcom_of x)) q /\ pc_inv x q st;
  vi_writers : Forall writer_ok (vs_writers st);
}.

Lemma putc_sections_ok fl c : writer_ok (putc_sections fl c).
Proof. unfold putc_sections. by destruct (_ && _). Qed.

Lemma tx_put_repr c v q : rb_repr (tx_ringbuffer v) q -> exists q', rb_repr (tx_ringbuffer (tx_put c v)) q' /\
  forall l, put_written c v (l ++ q) = l ++ q'.
Proof.
  intros Hq. exists (last_bytes (buffer_size (tx_ringbuffer v)) (q ++ [c])). split; [apply (putchar_force_repr c _ _ Hq)|].
  intros l. unfold put_written. rewrite (rb_space_len _ _ Hq), (rb_data_len _ _ Hq). destruct (rb_repr_cases _ _ Hq) as (Hl&Hr&_).
  destruct (Nat.eqb_spec (buffer_size (tx_ringbuffer v) - length q) 0) as [E|E].
  - assert (length q = buffer_size (tx_ringbuffer v)) as El by lia. destruct q as [|b q]; [simpl in El; lia|].
    rewrite length_app, Nat.add_sub, delete_middle, <-app_assoc. f_equal.
    unfold last_bytes. rewrite <-El. simpl. rewrite length_app. simpl. by replace (length q + 1 - length q)%nat with 1%nat by lia.
  - rewrite last_bytes_all by (rewrite length_app; simpl; lia). by rewrite app_assoc.
Qed.

(** A change of the driver's state that leaves the device alone. *)
Lemma pc_inv_put f x x' q st : pc_inv x q st -> ep_in (vcom_of x') = ep_in (vcom_of x) -> wait_done (vcom_of x') = wait_done (vcom_of x) ->
  tx_event (vcom_of x') = tx_event (vcom_of x) ->
  pc_inv x' q (VSys (put_fun f x' (vs_u st)) (vs_pc st) (vs_writers st) (vs_written st) (vs_acks st)).
Proof.
  intros Hp E1 E2 E3. unfold pc_inv in *. destruct st as [u pc ws w a]. simpl in *. destruct pc; rewrite ?E1, ?E2, ?E3; try done.
  destruct Hp as (rest&size&Hf&?&?). exists rest, size. split; [|done]. eapply in_flight_eps; [|exact Hf]. done.
Qed.

Lemma vinv_call f u pc ws w a x c : vinv f (VSys u pc ws w a) -> get_fun f u = Some x ->
  vinv f (VSys u pc (ws ++ [putc_sections (dev_open_flag x.1) c]) w a).
Proof.
  intros [(x'&q&Hl&Hq&Hp) Hw] Hx. split; simpl in *.
  - exists x', q. split_and!; [done|done|]. unfold pc_inv in *. simpl in *. destruct pc; try done.
    destruct Hp as (?&?&Hs). split_and!; [done|done|]. intros Hne. destruct (Hs Hne); [by left|right]. apply Exists_app. by left.
  - apply Forall_app_2; [done|]. constructor; [apply putc_sections_ok|done].
Qed.

Lemma vinv_put f u pc ws1 ms ws2 w a x c : vinv f (VSys u pc (ws1 ++ (MPut c :: ms) :: ws2) w a) -> get_fun f u = Some x ->
  vinv f (VSys (put_fun f (on_vcom (micro_exec (MPut c)) x) u) pc (ws1 ++ ms :: ws2) (put_written c (vcom_of x) w) a).
Proof.
  intros [(x'&q&Hl&Hq&Hp) Hw] Hx. simpl in *. pose proof (tl_fun _ _ _ Hl) as Hx'. rewrite Hx in Hx'. injection Hx' as <-.
  apply Forall_app in Hw as [Hw1 Hw2]. apply Forall_cons in Hw2 as [Hm Hw2]. simpl in Hm.
  destruct ms as [|[|] ms]; try done.
  split; [|apply Forall_app_2; [done|by constructor]]. simpl.
  destruct (tx_put_repr c _ q Hq) as (q'&Hq'&Ew). exists (on_vcom (tx_put c) x), q'. split_and!.
  - apply (link_put f x); [done|]. by apply on_vcom_link.
  - by rewrite vcom_of_on.
  - unfold pc_inv in *. simpl in *. destruct pc.
    + destruct Hp as (->&?&_). split_and!; [by rewrite Ew|done|]. intros _. right. apply Exists_app. right. by constructor.
    + destruct Hp as (->&?). by rewrite Ew.
    + destruct Hp as (->&?). by rewrite !(app_assoc (sent_bytes u)), Ew.
    + destruct Hp as (rest&size&Hf&->&?). exists rest, size. split_and!; [|by rewrite !(app_assoc (sent_bytes u)), Ew|done].
      eapply in_flight_eps; [|exact Hf]. done.
Qed.

Lemma vinv_event f u pc ws1 ms ws2 w a x : vinv f (VSys u pc (ws1 ++ (MEvent :: ms) :: ws2) w a) -> get_fun f u = Some x ->
  vinv f (VSys (put_fun f (on_vcom (micro_exec MEvent) x) u) pc (ws1 ++ ms :: ws2) w a).
Proof.
  intros [(x'&q&Hl&Hq&Hp) Hw] Hx. simpl in *. pose proof (tl_fun _ _ _ Hl) as Hx'. rewrite Hx in Hx'. injection Hx' as <-.
  apply Forall_app in Hw as [Hw1 Hw2]. apply Forall_cons in Hw2 as [Hm Hw2]. simpl in Hm.
  split; [|apply Forall_app_2; [done|by constructor]]. simpl.
  exists (on_vcom (vc_event true) x), q. split_and!.
  - apply (link_put f x); [done|]. by apply on_vcom_link.
  - done.
  - unfold pc_inv in *. simpl in *. destruct pc; try done.
    + destruct Hp as (->&?&_). split_and!; [done|done|]. by left.
    + destruct Hp as (rest&size&Hf&->&?). exists rest, size. split_and!; [|done|done].
      eapply in_flight_eps; [|exact Hf]. done.
Qed.

Lemma sent_bytes_app u u' p : sent_on IN_ADDR (dcd_cmds u') = sent_on IN_ADDR (dcd_cmds u) ++ [p] ->
  sent_bytes u' = sent_bytes u ++ p /\ sent_count u' = S (sent_count u).
Proof.
  intros E. unfold sent_bytes, sent_count. rewrite E, concat_app, length_app. simpl. rewrite app_nil_r. split; [done|lia].
Qed.

Lemma vinv_thread f u pc ws w a pc' u' : vinv f (VSys u pc ws w a) -> vcom_tx_step f pc false u = Some (Some (pc', u')) ->
  vinv f (VSys u' pc' ws w a).
Proof.
  intros [(x&q&Hl&Hq&Hp) Hw] Hstep. simpl in *. split; [|done]. simpl. unfold vcom_tx_step in Hstep.
  rewrite (tl_fun _ _ _ Hl) in Hstep. simpl in Hstep. unfold pc_inv in Hp. simpl in Hp. destruct pc as [| |ch|].
  - destruct (tx_event (vcom_of x)); [|done]. simplify_eq. exists (on_vcom (vc_event false) x), q. split_and!.
    + apply (link_put f x); [done|]. by apply on_vcom_link.
    + done.
    + destruct Hp as (->&?&_). done.
  - rewrite (rb_data_len _ _ Hq) in Hstep. destruct (Nat.eqb_spec (length q) 0) as [E|E].
    + apply length_zero_iff_nil in E as ->. simplify_eq. exists x, []. split_and!; [done|done|]. destruct Hp as [-> ?]. done.
    + destruct (rt_ringbuffer_get_repr _ _ CDC_BULKIN_MAXSIZE Hq) as (rb&Eg&Hrb&_). rewrite Eg in Hstep. simpl in Hstep.
      rewrite (proj2 (Nat.eqb_neq _ _)) in Hstep by (rewrite length_take; unfold CDC_BULKIN_MAXSIZE; lia). simplify_eq.
      exists (on_vcom (vc_tx rb) x), (drop CDC_BULKIN_MAXSIZE q). split_and!.
      * apply (link_put f x); [done|]. by apply on_vcom_link.
      * done.
      * destruct Hp as [-> ?]. split; [|done]. simpl. by rewrite take_drop.
  - rewrite (tl_conn _ _ _ Hl) in Hstep. simpl in Hstep. set (x1 := on_vcom (vc_wait false) x) in Hstep.
    assert (tx_link f x1 (put_fun f x1 u)) as Hl1 by (apply (link_put f x); [done|by apply on_vcom_link]).
    destruct (submit_write (ep_in (vcom_of x)) ch _ (tl_ep _ _ _ Hl1)) as (u1&Es&Hf&Ht&Hc&Hfu&_). rewrite Es in Hstep. simpl in Hstep. simplify_eq.
    apply sent_bytes_app in Hc as [Hc1 Hc2]. exists x1, q. split_and!.
    + eapply link_step; [exact Hl1|exact Ht|rewrite (get_fun_same _ _ _ Hfu); apply Hl1|by split_and!|by eexists _, _].
    + done.
    + destruct Hp as [-> ->]. exists (drop MPS ch), (Z.of_nat (length ch)). split_and!; [done| |simpl; by rewrite Hc2].
      simpl. rewrite Hc1, <-app_assoc. f_equal. by rewrite app_assoc, take_drop.
  - destruct Hp as (rest&size&Hf&->&Hd). destruct (wait_done (vcom_of x)); [|done]. destruct Hd as [-> Ha].
    destruct (tx_done_ok (on_vcom (vc_wait false) x)) as (x1&E1&Hs1&Ev); [exact (tl_tx _ _ _ Hl)|].
    rewrite E1 in Hstep. simpl in Hstep. simplify_eq. exists x1, q.
    assert (same_link x x1) as Hs by (destruct Hs1 as (?&?&?&?&?); by split_and!).
    split_and!; [by apply (link_put f x)|by rewrite Ev|done].
Qed.

Lemma vinv_in f u pc ws w a n u' : vinv f (VSys u pc ws w a) -> (a < sent_count u)%nat ->
  rt_usbd_thread_step [] (USB_MSG_DATA_NOTIFY IN_ADDR n []) u = Some u' -> vinv f (VSys u' pc ws w (S a)).
Proof.
  intros [(x&q&Hl&Hq&Hp) Hw] Ha Hstep. simpl in *. split; [|done]. simpl.
  destruct pc as [| |ch|]; unfold pc_inv in Hp; simpl in Hp; try (exfalso; lia).
  destruct Hp as (rest&size&Hf&->&Hd). destruct (wait_done (vcom_of x)) eqn:Ewd; [exfalso; lia|].
  unfold _data_notify in Hstep. rewrite bool_decide_eq_true_2 in Hstep by apply Hl. simpl in Hstep.
  rewrite (tl_find _ _ _ Hl) in Hstep. simpl in Hstep.
  pose proof Hf as [(ep&Eep&Ha1&Hm&Hst&Hr&Hb&Hsz)]. rewrite Eep in Hstep. simpl in Hstep. rewrite Ha1, Hm, Hr in Hstep. simpl in Hstep.
  destruct rest as [|c rest].
  - simpl in Hstep. rewrite (tl_fun _ _ _ Hl) in Hstep. simpl in Hstep.
    rewrite (proj2 (Nat.eqb_neq _ _)), Nat.eqb_refl in Hstep by (intros E; by apply (tl_out _ _ _ Hl)).
    unfold _ep_in_handler in Hstep. rewrite (tl_fun _ _ _ Hl) in Hstep. simpl in Hstep. rewrite Eep in Hstep. simpl in Hstep.
    destruct (negb _ && _).
    + set (x1 := on_vcom (vc_in_sending true) x) in Hstep.
      assert (tx_link f x1 (put_fun f x1 u)) as Hl1 by (apply (link_put f x); [done|by apply on_vcom_link]).
      destruct (submit_write (ep_in (vcom_of x)) [] _ (tl_ep _ _ _ Hl1)) as (u1&Es&Hf1&Ht&Hc&Hfu&_). change (Z.of_nat (length [])) with 0 in Es. rewrite Es in Hstep. simplify_eq.
      apply sent_bytes_app in Hc as [Hc1 Hc2]. exists x1, q. split_and!.
      * eapply link_step; [exact Hl1|exact Ht|rewrite (get_fun_same _ _ _ Hfu); apply Hl1|by split_and!|by eexists _, _].
      * done.
      * exists [], 0. split_and!; [done|simpl; by rewrite Hc1, <-app_assoc|]. change (wait_done (vcom_of x1)) with (wait_done (vcom_of x)).
        rewrite Ewd. simpl. rewrite Hc2. change (sent_count (put_fun f x1 u)) with (sent_count u). lia.
    + simplify_eq. exists (on_vcom (vc_wait true) x), q. split_and!.
      * apply (link_put f x); [done|]. by apply on_vcom_link.
      * done.
      * exists [], (rq_size (ep_request ep)). split_and!; [by eapply in_flight_eps; [|exact Hf]|done|]. simpl. done.
  - rewrite orb_true_r in Hstep. destruct (ep_write_sends _ _ _ _ Hf) as (u1&Ew&Hf1&Ht&Hc&Hfu&_). rewrite Ew in Hstep. simplify_eq.
    apply sent_bytes_app in Hc as [Hc1 Hc2]. exists x, q. split_and!.
    + eapply link_step; [exact Hl|exact Ht|rewrite (get_fun_same _ _ _ Hfu); apply Hl|by split_and!|by eexists _, _].
    + done.
    + exists (drop MPS (c :: rest)), (rq_size (ep_request ep)). split_and!; [done| |rewrite Ewd; simpl; rewrite Hc2; lia].
      cbn [vs_written vs_u]. rewrite Hc1, <-app_assoc. f_equal. by rewrite app_assoc, take_drop.
Qed.

Lemma vinv_other f u pc ws w a u' : vinv f (VSys u pc ws w a) -> tx_frame f u u' -> vinv f (VSys u' pc ws w a).
Proof.
  intros [(x&q&Hl&Hq&Hp) Hw] [Ht Hs Hf]. simpl in *. split; [|done]. simpl.
  destruct (Hf x (tl_fun _ _ _ Hl)) as (x'&Hx'&Hsl&E1&E2&E3&Eep).
  assert (sent_bytes u' = sent_bytes u /\ sent_count u' = sent_count u) as [Eb Ec] by (unfold sent_bytes, sent_count; by rewrite Hs).
  exists x', q. split_and!.
  - eapply link_step; [exact Hl|exact Ht|exact Hx'|done|]. eapply in_endpoint_eps; [exact Eep|apply Hl].
  - by rewrite E1.
  - destruct Hsl as (_&Ei&_). unfold pc_inv in *. simpl in *. destruct pc; rewrite ?E2, ?E3, ?Eb, ?Ec, ?Ei; try done.
    destruct Hp as (rest&size&Hfl&?&?). exists rest, size. split; [|done]. by eapply in_flight_eps; [|exact Hfl].
Qed.

Lemma vstep_inv f st st' : vstep f st st' -> vinv f st -> vinv f st'.
Proof.
  intros Hs. destruct Hs; intros Hi.
  - by apply vinv_call.
  - by apply vinv_put.
  - by apply vinv_event.
  - by eapply vinv_thread.
  - by eapply vinv_in.
  - by eapply vinv_other.
Qed.

Lemma vsteps_inv f st st' : rtc (vstep f) st st' -> vinv f st -> vinv f st'.
Proof. induction 1 as [|st1 st2 st3 H1 _ IH]; [done|]. intros Hi. apply IH. by eapply vstep_inv. Qed.

(** The thread never crashes, nor does the core on a report of the controller. *)
Lemma thread_returns f u pc ws w a : vinv f (VSys u pc ws w a) -> is_Some (vcom_tx_step f pc false u).
Proof.
  intros [(x&q&Hl&Hq&Hp) _]. simpl in *. unfold vcom_tx_step. rewrite (tl_fun _ _ _ Hl). simpl. destruct pc as [| |ch|].
  - by destruct (tx_event _).
  - case_match; [done|]. by destruct (rt_ringbuffer_get _ _).
  - rewrite (tl_conn _ _ _ Hl). simpl. set (x1 := on_vcom (vc_wait false) x).
    assert (in_endpoint (ep_in (vcom_of x)) (put_fun f x1 u)) as He by (eapply in_endpoint_eps; [|apply Hl]; done).
    by destruct (submit_write (ep_in (vcom_of x)) ch _ He) as (u1&->&_).
  - destruct (wait_done _); [|done]. destruct (tx_done_ok (on_vcom (vc_wait false) x) (tl_tx _ _ _ Hl)) as (x1&->&_). done.
Qed.

Lemma report_returns f u pc ws w a n : vinv f (VSys u pc ws w a) -> (a < sent_count u)%nat ->
  is_Some (rt_usbd_thread_step [] (USB_MSG_DATA_NOTIFY IN_ADDR n []) u).
Proof.
  intros [(x&q&Hl&Hq&Hp) _] Ha. simpl in *. destruct pc as [| |ch|]; unfold pc_inv in Hp; simpl in Hp; try (exfalso; lia).
  destruct Hp as (rest&size&Hf&_). unfold _data_notify. rewrite bool_decide_eq_true_2 by apply Hl. simpl.
  rewrite (tl_find _ _ _ Hl). simpl. pose proof Hf as [(ep&Eep&Ha1&Hm&Hst&Hr&Hb&Hsz)]. rewrite Eep. simpl. rewrite Ha1, Hm, Hr. simpl.
  case_match; [by destruct (ep_write_sends _ _ _ _ Hf) as (u1&->&_)|].
  rewrite (tl_fun _ _ _ Hl). simpl. rewrite (proj2 (Nat.eqb_neq _ _)), Nat.eqb_refl by (intros E; by apply (tl_out _ _ _ Hl)).
  unfold _ep_in_handler. rewrite (tl_fun _ _ _ Hl). simpl. rewrite Eep. simpl. case_match; [|done].
  set (x1 := on_vcom (vc_in_sending true) x).
  assert (in_endpoint (ep_in (vcom_of x)) (put_fun f x1 u)) as He by (eapply in_endpoint_eps; [|apply Hl]; done).
  destruct (submit_write (ep_in (vcom_of x)) [] _ He) as (u1&E&_). change (Z.of_nat (length [])) with 0 in E. by rewrite E.
Qed.

(** Nobody can go on: no writer inside a call, the thread blocked, the controller
    has reported every packet. *)
Definition quiet (f : nat) (st : vsys) : Prop :=
  Forall (fun ms => ms = []) (vs_writers st) /\ vcom_tx_step f (vs_pc st) false (vs_u st) = Some None /\ vs_acks st = sent_count (vs_u st).

(** A connected port whose thread waits, with [q] in the transmit buffer. *)
Record vstart (f : nat) (x : vfun) (q : list Z) (st : vsys) : Prop := {
  vst_link : tx_link f x (vs_u st);
  vst_ring : rb_repr (tx_ringbuffer (vcom_of x)) q;
  vst_event : q <> [] -> tx_event (vcom_of x) = true;
  vst_eq : st = VSys (vs_u st) TxWaitEvent [] (sent_bytes (vs_u st) ++ q) (sent_count (vs_u st));
}.

Lemma vstart_inv f x q st : vstart f x q st -> vinv f st.
Proof.
  intros [Hl Hq He ->]. split; [|done]. simpl. exists x, q. split_and!; [done|done|]. split_and!; [done|done|]. intros Hne. left. auto.
Qed.

Lemma quiet_sent f st : vinv f st -> quiet f st -> sent_bytes (vs_u st) = vs_written st.
Proof.
  intros Hi (Hw&Hb&Ha). destruct st as [u pc ws w a]. destruct Hi as [(x'&q'&Hl&Hq&Hp) _]. unfold pc_inv in Hp. simpl in *.
  unfold vcom_tx_step in Hb. rewrite (tl_fun _ _ _ Hl) in Hb. simpl in Hb. destruct pc as [| |ch|].
  - destruct Hp as (->&_&He). destruct (tx_event (vcom_of x')); [done|]. destruct q' as [|c q']; [by rewrite app_nil_r|].
    destruct He as [He|He]; [done|done|]. exfalso. apply Exists_exists in He as (ms&Hin&Hms).
  rewrite Forall_forall in Hw. by rewrite (Hw ms Hin) in Hms.
  - repeat case_match; done.
  - rewrite (tl_conn _ _ _ Hl) in Hb. simpl in Hb. destruct (submit _ _ _ _ _); done.
  - destruct Hp as (r&s&_&->&Hd). destruct (wait_done (vcom_of x')); [by destruct (tx_done _)|]. exfalso. lia.
Qed.

(** C11: While the port is connected the host receives the bytes that were written, in
    order, for every order of the sections of [_vcom_putc] of the writers, of the steps of
    the sending thread, of the reports of the controller and of everything that leaves
    the transmission alone. What the host has received is a beginning of what was written;
    a byte that finds the transmit buffer full takes the place of the oldest one there
    ([put_written]); the thread, the handling of each report and each writer can always go
    on without a crash; and when nothing is left to do the host has received it all.
    Neither a disconnection nor the timeout of the thread is among the steps: each
    completion comes within VCOM_TX_TIMEOUT ([vcom_tx_timeout_loses] shows what happens
    otherwise). A transfer is submitted as one step, before its report is handled. *)
Theorem vcom_tx_delivers f x q st0 st : vstart f x q st0 -> rtc (vstep f) st0 st ->
  (exists rest, vs_written st = sent_bytes (vs_u st) ++ rest) /\
  (is_Some (vcom_tx_step f (vs_pc st) false (vs_u st)) /\ is_Some (get_fun f (vs_u st)) /\
   forall n, (vs_acks st < sent_count (vs_u st))%nat -> is_Some (rt_usbd_thread_step [] (USB_MSG_DATA_NOTIFY IN_ADDR n []) (vs_u st))) /\
  (quiet f st -> sent_bytes (vs_u st) = vs_written st).
Proof.
  intros H0 Hs. pose proof (vsteps_inv _ _ _ Hs (vstart_inv _ _ _ _ H0)) as Hi. destruct st as [u pc ws w a].
  split; [|split; [split_and!; [by eapply thread_returns| |intros n; by eapply report_returns]|]].
  - destruct Hi as [(x'&q'&Hl&Hq&Hp) _]. unfold pc_inv in Hp. simpl in *.
    destruct pc; [destruct Hp as (->&_); eauto..|]. destruct Hp as (r&s&_&->&_). eauto.
  - destruct Hi as [(x'&q'&Hl&_) _]. exists x'. apply Hl.
  - intros Hq. by eapply quiet_sent.
Qed.

(** ** Packets of the host *)

Definition OUT_ADDR : Z := 1.

(** The bulk out endpoint waits for a packet. *)
Definition armed (e : nat) u : Prop := exists ep, u_eps u !! e = Some ep /\ bEndpointAddress ep = OUT_ADDR /\ wMaxPacketSize ep = Z.of_nat MPS /\
  stalled ep = false /\ req_type (ep_request ep) = UIO_REQUEST_READ_BEST /\ rq_buffer (ep_request ep) = [] /\
  rq_size (ep_request ep) = Z.of_nat MPS /\ rq_remain_size (ep_request ep) = Z.of_nat MPS.

(** The port is open for reception by interrupts, its endpoint armed, [q] in the FIFO
    of the serial device, nothing in the receive buffer of the driver. *)
Record rx_link (f : nat) (x : vfun) (q : list Z) (u : udevice vfun) : Prop := {
  rl_state : u_state u = USB_STATE_CONFIGURED;
  rl_fun : get_fun f u = Some x;
  rl_find : rt_usbd_find_endpoint OUT_ADDR u = Some (Some (f, ep_out (vcom_of x)));
  rl_eps : ep_out (vcom_of x) <> ep_in (vcom_of x);
  rl_armed : armed (ep_out (vcom_of x)) u;
  rl_open : has (dev_flag x.1) RT_DEVICE_FLAG_ACTIVATED && has (dev_open_flag x.1) RT_DEVICE_OFLAG_OPEN = true;
  rl_int : has (open_flag_of x) RT_DEVICE_FLAG_INT_RX = true;
  rl_fifo : receives x q [];
  rl_size : buffer_size (rx_ringbuffer (vcom_of x)) = CDC_RX_BUFSIZE;
}.

(** Taking bytes from the driver only moves its receive buffer. *)
Definition same_tx v v' : Prop := exists rb, v' = vc_rx rb v /\ buffer_size rb = buffer_size (rx_ringbuffer v).

Lemma getc_same_tx v : same_tx v (fst (uart_getc v)).
Proof.
  simpl. unfold _vcom_getc, rt_ringbuffer_getchar.
  destruct (_ =? 0)%nat; [exists (rx_ringbuffer v); by destruct v|].
  destruct (_ =? _)%nat, (buffer_ptr (rx_ringbuffer v) !! _); simpl; by eexists.
Qed.

Lemma rx_loop_same_tx fuel n : forall v g v' g', rx_ind_loop fuel n v g = Some (v', g') -> same_tx v v'.
Proof.
  induction fuel as [|fuel IH]; intros v g v' g' E; simpl in E; [done|].
  pose proof (getc_same_tx v) as H1. simpl in H1. destruct (_vcom_getc v) as [v1 c]. simpl in H1.
  destruct (c =? -1); [by simplify_eq|]. destruct (fifo_put n c g) as [g1|]; simpl in E; [|done].
  destruct H1 as (rb1&->&E1). destruct (IH _ _ _ _ E) as (rb2&->&E2). exists rb2. split; [done|]. by rewrite E2.
Qed.

Lemma isr_same_tx fuel x x' r : rt_hw_serial_isr fuel RT_SERIAL_EVENT_RX_IND x = Some (x', r) -> same_tx (vcom_of x) (vcom_of x').
Proof.
  unfold rt_hw_serial_isr. destruct (rx_fifo x) as [g|]; [|done].
  change (ser_low x.2) with (vcom_of x). cbn [mbind option_bind]. intros E.
  destruct (rx_ind_loop fuel (bufsz_of x) (vcom_of x) g) as [[v1 g1]|] eqn:El; [|done]. cbn [mbind option_bind] in E.
  apply rx_loop_same_tx in El. assert (vcom_of (put_fifo g1 (set_low v1 x)) = v1) as Ev by (unfold put_fifo; by destruct (ser_rx _)).
  injection E as <- _. by rewrite Ev.
Qed.

(** The open flag, the transmission and the other parts stay as they are. *)
Definition same_rest (x x' : vfun) : Prop :=
  x'.1 = x.1 /\ ser_tx x'.2 = ser_tx x.2 /\ ser_config x'.2 = ser_config x.2 /\ same_tx (vcom_of x) (vcom_of x').

Lemma rx_bytes_receives d x q : has (dev_flag x.1) RT_DEVICE_FLAG_ACTIVATED && has (dev_open_flag x.1) RT_DEVICE_OFLAG_OPEN = true ->
  receives x q [] -> Forall is_u8 d -> (length d <= buffer_size (rx_ringbuffer (vcom_of x)))%nat ->
  exists x', rx_bytes d x = Some x' /\ receives x' (last_bytes (bufsz_of x - 1) (q ++ d)) [] /\ same_rest x x'.
Proof.
  intros Ho (Hn&[Hr _]&a&g&Ea&Hg) Hd Hl. unfold rx_bytes. rewrite Ho.
  destruct (rt_ringbuffer_put_repr _ _ d Hr) as (rb&Ep&Hrb&Hsz). change (ser_low x.2) with (vcom_of x) in *.
  change (on_vcom (fun v => vc_rx (fst (rt_ringbuffer_put d (rx_ringbuffer v))) v) x)
    with (on_vcom (fun v => vc_rx (fst (rt_ringbuffer_put d (rx_ringbuffer (vcom_of x)))) v) x).
  rewrite Ep. cbn [fst]. simpl in Hrb, Hsz. rewrite Nat.sub_0_r, take_ge in Hrb by lia.
  set (x1 := on_vcom (fun v => vc_rx rb v) x).
  assert (receives x1 q d) as Hx1 by (split; [done|split; [by split|by exists a, g]]).
  assert (rt_ringbuffer_data_len (rx_ringbuffer (vcom_of x1)) = length d) as El by (by apply (rb_data_len rb)).
  rewrite El. destruct (isr_receives (S (length d)) x1 q d Hx1 ltac:(lia)) as (x'&Ei&Hx'&E1&E2&E3).
  rewrite Ei. exists x'. split; [done|]. split; [exact Hx'|]. split_and!; [done|done|done|].
  destruct (isr_same_tx _ _ _ _ Ei) as (rb2&E4&E5). exists rb2. split; [exact E4|]. rewrite E5. exact Hsz.
Qed.

Lemma same_rest_link x x' : same_rest x x' -> same_link x x' /\ tx_ringbuffer (vcom_of x') = tx_ringbuffer (vcom_of x) /\
  tx_event (vcom_of x') = tx_event (vcom_of x) /\ wait_done (vcom_of x') = wait_done (vcom_of x).
Proof.
  intros (E1&E2&_&rb&E3&_). unfold same_link. rewrite E1, E2, E3. by split_and!.
Qed.

(** *** What clients and host do *)

Inductive rx_op := RxPacket (d : list Z) | RxRead (k : nat).
Definition rx_ok (op : rx_op) : Prop := match op with RxPacket d => Forall is_u8 d /\ (length d <= MPS)%nat | RxRead _ => True end.

(** A packet of the host with the report of the controller; a read of the device. *)
Definition rx_exec (f : nat) (op : rx_op) u : option (udevice vfun * list Z) :=
  match op with
  | RxPacket d => u' ← rt_usbd_thread_step [] (rt_usbd_ep_out_handler OUT_ADDR d) u; Some (u', [])
  | RxRead k => x ← get_fun f u; '(x', (n, d)) ← rt_serial_read k x; Some (put_fun f x' u, take n d)
  end.
Fixpoint rx_run (f : nat) (ops : list rx_op) u : option (udevice vfun * list (list Z)) :=
  match ops with
  | [] => Some (u, [])
  | op :: ops => '(u, r) ← rx_exec f op u; '(u, rs) ← rx_run f ops u; Some (u, r :: rs)
  end.

(** A queue that keeps the newest [n] bytes. *)
Definition rx_spec (n : nat) (op : rx_op) (q : list Z) : list Z * list Z :=
  match op with RxPacket d => (last_bytes n (q ++ d), []) | RxRead k => (drop k q, take k q) end.
Fixpoint rx_spec_run (n : nat) (ops : list rx_op) (q : list Z) : list Z * list (list Z) :=
  match ops with
  | [] => (q, [])
  | op :: ops => let '(q, r) := rx_spec n op q in let '(q, rs) := rx_spec_run n ops q in (q, r :: rs)
  end.

#[export] Instance tx_frame_preorder f : PreOrder (tx_frame f).
Proof.
  split.
  - intros u. split; [done|done|]. intros x Hx. exists x. split_and!; try done.
  - intros u v w [A1 A2 A3] [B1 B2 B3]. split; [by etrans|by rewrite B2|]. intros x Hx.
    destruct (A3 x Hx) as (y&Hy&(C1&C2&C3&C4&C5)&C6&C7&C8&C9). destruct (B3 y Hy) as (z&Hz&(D1&D2&D3&D4&D5)&D6&D7&D8&D9).
    exists z. split; [done|]. rewrite C2 in D9. split; [|split_and!; by etrans].
    split_and!; try (by etrans). auto.
Qed.

(** A change of the function that leaves its transmission alone. *)
Lemma put_frame f x x' u : get_fun f u = Some x -> same_rest x x' -> tx_frame f u (put_fun f x' u).
Proof.
  intros Hx Hs. split; [apply put_tree|done|]. intros y Hy. rewrite Hx in Hy. injection Hy as <-.
  exists x'. destruct (same_rest_link _ _ Hs) as (?&?&?&?). split; [by eapply get_put|]. by split_and!.
Qed.

Lemma same_rest_rx x x' : same_rest x x' -> ep_out (vcom_of x') = ep_out (vcom_of x) /\ ep_in (vcom_of x') = ep_in (vcom_of x) /\
  x'.1 = x.1 /\ bufsz_of x' = bufsz_of x /\ buffer_size (rx_ringbuffer (vcom_of x')) = buffer_size (rx_ringbuffer (vcom_of x)).
Proof. intros (E1&_&E3&rb&E4&E5). unfold bufsz_of. rewrite E1, E3, E4. by split_and!. Qed.

Lemma rx_link_step f x x' q q' u u' : rx_link f x q u -> same_tree u u' -> get_fun f u' = Some x' -> same_rest x x' -> receives x' q' [] ->
  armed (ep_out (vcom_of x)) u' -> rx_link f x' q' u'.
Proof.
  intros [H1 H2 H3 H4 H5 H6 H7 H8 H9] Ht Hx Hs Hr Ha. destruct (same_rest_rx _ _ Hs) as (E1&E2&E3&_&E5).
  unfold open_flag_of in *. split; unfold open_flag_of; rewrite ?E1, ?E2, ?E3; try done; [by rewrite (tr_state _ _ Ht)|by rewrite (find_endpoint_tree _ _ _ Ht)|by rewrite E5].
Qed.

Lemma int_rx_low k x x' d : _serial_int_rx k x = Some (x', d) -> vcom_of x' = vcom_of x.
Proof.
  unfold _serial_int_rx. destruct (rx_fifo x) as [g|]; simpl; [|done].
  destruct (int_rx_loop _ _ g) as [[g' d']|]; simpl; [|done]. intros E. injection E as <- _. unfold put_fifo. by destruct (ser_rx _).
Qed.

Lemma rx_read_ok f k x q u : rx_link f x q u ->
  exists u' x', rx_exec f (RxRead k) u = Some (u', take k q) /\ rx_link f x' (drop k q) u' /\ tx_frame f u u' /\ bufsz_of x' = bufsz_of x.
Proof.
  intros Hl. unfold rx_exec. rewrite (rl_fun _ _ _ _ Hl). simpl. unfold rt_serial_read. destruct (Nat.eqb_spec k 0) as [->|Hk].
  - simpl. eexists _, x. split; [done|]. assert (same_rest x x) as Hs by (split_and!; try done; exists (rx_ringbuffer (vcom_of x)); split; [|done]; by destruct (vcom_of x)).
    split; [|split; [|done]]; [|eapply put_frame; [apply Hl|done]].
    eapply rx_link_step; [exact Hl|apply put_tree|eapply get_put; apply Hl|done|apply Hl|]. destruct (rl_armed _ _ _ _ Hl) as (ep&?). by exists ep.
  - rewrite (rl_int _ _ _ _ Hl). destruct (int_rx_receives k x q [] (rl_fifo _ _ _ _ Hl)) as (x'&E&Hr&E1&E2&E3). rewrite E. simpl.
    rewrite firstn_all. eexists _, x'. split; [done|].
    assert (same_rest x x') as Hs.
    { split_and!; [done..|]. rewrite (int_rx_low _ _ _ _ E). exists (rx_ringbuffer (vcom_of x)). split; [|done]. by destruct (vcom_of x). }
    split; [|split]; [|eapply put_frame; [apply Hl|done]|by unfold bufsz_of; rewrite E3].
    eapply rx_link_step; [exact Hl|apply put_tree|eapply get_put; apply Hl|done|done|]. destruct (rl_armed _ _ _ _ Hl) as (ep&?). by exists ep.
Qed.

(** Submitting the read again arms the endpoint. *)
Lemma submit_read e u : (exists ep, u_eps u !! e = Some ep /\ bEndpointAddress ep = OUT_ADDR /\ wMaxPacketSize ep = Z.of_nat MPS /\ stalled ep = false) ->
  exists u', submit e UIO_REQUEST_READ_BEST [] (Z.of_nat MPS) u = Some u' /\ armed e u' /\ same_tree u u' /\ u_funcs u' = u_funcs u /\
    dcd_cmds u' = dcd_cmds u ++ [DcdPrepare OUT_ADDR (Z.of_nat MPS)] /\ (forall e', e' <> e -> u_eps u' !! e' = u_eps u !! e').
Proof.
  intros (ep&E&Ha&Hm&Hst). unfold submit. rewrite E. simpl. unfold rt_usbd_io_request. simpl.
  rewrite lookup_insert_eq. simpl. rewrite Hst. simpl. unfold rt_usbd_ep_read_prepare. simpl. rewrite lookup_insert_eq. simpl. rewrite Hm. simpl.
  eexists. split; [done|]. split; [|split; [|split; [done|split]]]; simpl.
  - rewrite insert_insert_eq. eexists. simpl. rewrite lookup_insert_eq. split; [done|]. by split_and!.
  - split; simpl; try done. intros e'. rewrite insert_insert_eq. destruct (decide (e' = e)) as [->|Hne]; [by rewrite lookup_insert_eq, E|by rewrite lookup_insert_ne].
  - by rewrite Ha.
  - intros e' Hne. by rewrite insert_insert_eq, lookup_insert_ne.
Qed.

Lemma rx_packet_ok f d x q u : rx_link f x q u -> ep_in (vcom_of x) <> ep_out (vcom_of x) -> Forall is_u8 d -> (length d <= MPS)%nat ->
  exists u' x', rx_exec f (RxPacket d) u = Some (u', []) /\ rx_link f x' (last_bytes (bufsz_of x - 1) (q ++ d)) u' /\ tx_frame f u u' /\
    bufsz_of x' = bufsz_of x /\ dcd_cmds u' = dcd_cmds u ++ [DcdPrepare OUT_ADDR (Z.of_nat MPS)].
Proof.
  intros Hl Hne Hd Hlen. destruct (rl_armed _ _ _ _ Hl) as (ep&E&Ha&Hm&Hst&Ht&Hb&Hsz&Hrem).
  unfold rx_exec, rt_usbd_ep_out_handler, rt_usbd_thread_step, _data_notify. rewrite bool_decide_eq_true_2 by apply Hl. cbn [negb].
  rewrite (rl_find _ _ _ _ Hl). cbn [mbind option_bind]. rewrite E. cbn [mbind option_bind].
  rewrite Ha. change (has OUT_ADDR USB_DIR_IN) with false. cbn iota. rewrite Hrem. change (Z.of_nat MPS =? 0) with false. cbn iota. rewrite Ht, Hb, Hsz.
  set (u1 := set_eps _ u). simpl. change (get_fun f u1) with (get_fun f u). rewrite (rl_fun _ _ _ _ Hl). simpl. rewrite Nat.eqb_refl.
  unfold _ep_out_handler. change (get_fun f u1) with (get_fun f u). rewrite (rl_fun _ _ _ _ Hl). simpl.
  rewrite lookup_insert_eq. simpl. unfold first_bytes. rewrite Z.leb_refl, Nat2Z.id, firstn_all. simpl.
  destruct (rx_bytes_receives d x q (rl_open _ _ _ _ Hl) (rl_fifo _ _ _ _ Hl) Hd) as (x'&Ex&Hr&Hs).
  { rewrite (rl_size _ _ _ _ Hl). unfold CDC_RX_BUFSIZE, MPS in *. lia. }
  rewrite Ex. simpl. rewrite Hm. destruct (same_rest_rx _ _ Hs) as (E1&E2&E3&E4&E5). rewrite E1.
  destruct (submit_read (ep_out (vcom_of x)) (put_fun f x' u1)) as (u2&Es&Harm&Htree&Hf&Hc&Hep).
  { simpl. rewrite lookup_insert_eq. eexists. split; [done|]. by split_and!. }
  rewrite Es. simpl. exists u2, x'. split; [done|].
  assert (same_tree u u2) as Htr.
  { etrans; [|exact Htree]. etrans; [|apply put_tree]. split; try done. intros e'. simpl.
    destruct (decide (e' = ep_out (vcom_of x))) as [->|Hn]; [by rewrite lookup_insert_eq, E; simpl; rewrite Ha|by rewrite lookup_insert_ne]. }
  assert (get_fun f u2 = Some x') as Hx2 by (rewrite (get_fun_same _ _ _ Hf); eapply get_put; apply Hl).
  split_and!; [by eapply rx_link_step| |done|by rewrite Hc].
  split; [done|by rewrite Hc, sent_on_app, app_nil_r|]. intros y Hy. rewrite (rl_fun _ _ _ _ Hl) in Hy. injection Hy as <-.
  exists x'. destruct (same_rest_link _ _ Hs) as (?&?&?&?). split_and!; try done.
  rewrite Hep by done. simpl. by rewrite lookup_insert_ne.
Qed.

(** C12: Whatever packets the host sends and clients read, the port is a queue that
    keeps the newest bytes that fit its FIFO: every read returns the oldest of
    them in the order they were sent, the endpoint waits for the next packet, and
    the transmission is left alone. *)
Theorem vcom_rx_refines f ops x q u : rx_link f x q u -> Forall rx_ok ops ->
  let '(q', outs) := rx_spec_run (bufsz_of x - 1) ops q in
  exists u' x', rx_run f ops u = Some (u', outs) /\ rx_link f x' q' u' /\ tx_frame f u u'.
Proof.
  intros Hl Hok. revert x q u Hl. induction Hok as [|op ops Hop _ IH]; intros x q u Hl; [by exists u, x|].
  assert (exists u1 x1, rx_exec f op u = Some (u1, (rx_spec (bufsz_of x - 1) op q).2) /\
    rx_link f x1 (rx_spec (bufsz_of x - 1) op q).1 u1 /\ tx_frame f u u1 /\ bufsz_of x1 = bufsz_of x) as (u1&x1&E1&Hl1&Hf1&Eb).
  { destruct op as [d|k]; [|by apply rx_read_ok]. destruct Hop as [Hd Hlen].
    destruct (rx_packet_ok f d x q u Hl) as (u1&x1&?&?&?&?&_); [intros En; by apply (rl_eps _ _ _ _ Hl)|done|done|]. by exists u1, x1. }
  specialize (IH x1 _ u1 Hl1). rewrite Eb in IH. simpl. rewrite E1. simpl.
  destruct (rx_spec (bufsz_of x - 1) op q) as [q1 r]. simpl in *. destruct (rx_spec_run _ ops q1) as [q2 rs].
  destruct IH as (u2&x2&->&Hl2&Hf2). simpl. exists u2, x2. split_and!; [done|done|by etrans].
Qed.
