(* ===== verification/VcomDemo.v ===== *)
(** * A port in use: the device built, enumerated by a host, connected and opened

    The concrete device that the theorems about the virtual COM port are applied to. *)

From S2P Require Import Prelude Kernel Ring Mem MemSpec RingBuffer Device Serial SerialSafe UsbCore UsbSpec Vcom VcomSpec.

Definition port_heap : heap := rt_system_heap_init 1000 3000 (Heap 0 ∅ ∅ 0 0 0 0).
Definition setup (t r v i l : Z) : udev_msg := USB_MSG_SETUP_NOTIFY (URequest t r v i l).

(** Reset, address 5, configuration 1, the terminal of the host is there. *)
Definition enumeration : list udev_msg :=
  [USB_MSG_RESET; setup 0 5 5 0 0; setup 0 9 1 0 0; setup 33 34 1 0 0].

Fixpoint messages (ms : list udev_msg) (u : udevice vfun) : option (udevice vfun) :=
  match ms with [] => Some u | m :: ms => u ← rt_usbd_thread_step [] m u; messages ms u end.

Definition port_ops : device_ops (serial vcom) := serial_ops 4 (fun _ s => Some (s, 0%nat)) 8 id.

(** Opened for reception and transmission by interrupts. *)
Definition start_port (h : heap) : option (udevice vfun) :=
  u ← vcom_device h;
  u ← messages enumeration u;
  x ← get_fun 0 u;
  '(x, _) ← rt_device_open port_ops 1283 x;
  Some (put_fun 0 x u).

Definition no_device : udevice vfun := rt_usbd_device_new [] [] 0.
Definition port : udevice vfun := default no_device (start_port port_heap).
Definition no_fun : vfun := rt_usb_vcom_init port_heap.
Definition port_fun : vfun := default no_fun (get_fun 0 port).
Definition no_endpoint : uendpoint := UEndpoint 0 0 0 0 no_request [] false.
Definition port_ep (e : nat) : uendpoint := default no_endpoint (u_eps port !! e).

Lemma some_default {A} (d : A) (o : option A) : (if o then true else false) = true -> o = Some (default d o).
Proof. by destruct o. Qed.
Lemma port_fun_eq : get_fun 0 port = Some port_fun.
Proof. apply some_default. vm_compute. reflexivity. Qed.
Lemma port_find a : a = 1 \/ a = 129 -> rt_usbd_find_endpoint a port = Some (Some (0%nat, if a =? 1 then ep_out (vcom_of port_fun) else ep_in (vcom_of port_fun))).
Proof. intros [-> | ->]; vm_compute; reflexivity. Qed.
Lemma port_ep_eq e : e = 1%nat \/ e = 2%nat -> u_eps port !! e = Some (port_ep e).
Proof. intros [-> | ->]; (apply some_default; vm_compute; reflexivity). Qed.
Lemma port_eps : ep_out (vcom_of port_fun) = 1%nat /\ ep_in (vcom_of port_fun) = 2%nat.
Proof. split; vm_compute; reflexivity. Qed.

(** Both directions are ready, with empty buffers. *)
Lemma port_rx : rx_link 0 port_fun [] port.
Proof.
  destruct port_eps as [Eo Ei]. split.
  - vm_compute. reflexivity.
  - exact port_fun_eq.
  - exact (port_find 1 (or_introl eq_refl)).
  - by rewrite Eo, Ei.
  - rewrite Eo. exists (port_ep 1). split; [apply port_ep_eq; by left|]. split_and!; vm_compute; reflexivity.
  - vm_compute. reflexivity.
  - vm_compute. reflexivity.
  - split; [vm_compute; lia|]. split; [split; [|done]|].
    + assert (rx_ringbuffer (vcom_of port_fun) = rt_ringbuffer_init (replicate CDC_RX_BUFSIZE 0) (Z.of_nat CDC_RX_BUFSIZE)) as E by (vm_compute; reflexivity).
      simpl. change (ser_low port_fun.2) with (vcom_of port_fun). rewrite E. apply rt_ringbuffer_init_repr; [done|done|vm_compute; lia].
    + exists (match ser_rx port_fun.2 with RxIsFifo a _ => a | _ => 0 end), (new_fifo 128). split; [vm_compute; reflexivity|].
      assert (bufsz_of port_fun = 128%nat) as -> by (vm_compute; reflexivity). apply (new_fifo_repr 128). lia.
  - vm_compute. reflexivity.
Qed.

Lemma port_tx : tx_link 0 port_fun port /\ rb_repr (tx_ringbuffer (vcom_of port_fun)) [].
Proof.
  destruct port_eps as [Eo Ei]. split; [split|].
  - vm_compute. reflexivity.
  - exact port_fun_eq.
  - exact (port_find 129 (or_intror eq_refl)).
  - by rewrite Eo, Ei.
  - rewrite Ei. exists [], 0. split. exists (port_ep 2). split; [apply port_ep_eq; by right|]. split_and!; vm_compute; reflexivity.
  - vm_compute. reflexivity.
  - intros _. exists (match ser_tx port_fun.2 with TxIsFifo a _ => a | _ => 0 end), false. vm_compute. reflexivity.
  - assert (tx_ringbuffer (vcom_of port_fun) = rt_ringbuffer_init (replicate CDC_TX_BUFSIZE 0) (Z.of_nat CDC_TX_BUFSIZE)) as -> by (vm_compute; reflexivity).
    apply rt_ringbuffer_init_repr; [done|done|vm_compute; lia].
Qed.

Lemma port_start : vstart 0 port_fun [] (VSys port TxWaitEvent [] [] 0).
Proof. destruct port_tx as [Hl Hq]. split; [exact Hl|exact Hq|done|]. vm_compute. reflexivity. Qed.

(** ** Applying the theorems *)

Lemma vcom_rx_refines_witness :
  exists u' x', rx_run 0 [RxPacket [104; 105]; RxRead 1; RxPacket [33]; RxRead 5] port = Some (u', [[]; [104]; []; [105; 33]]) /\
    rx_link 0 x' [] u' /\ tx_frame 0 port u'.
Proof.
  assert (Forall rx_ok [RxPacket [104; 105]; RxRead 1; RxPacket [33]; RxRead 5]) as Hok by (repeat constructor; word).
  pose proof (vcom_rx_refines 0 [RxPacket [104; 105]; RxRead 1; RxPacket [33]; RxRead 5] port_fun [] port port_rx Hok) as H.
  assert (bufsz_of port_fun = 128%nat) as E by (vm_compute; reflexivity). rewrite E in H. exact H.
Defined.

(** *** Running the system *)

Inductive vact := ACall (c : Z) | AWriter | AThread | AReport.
(** [AWriter]: the first writer that is inside a call goes on. *)
Definition vexec (f : nat) (a : vact) (st : vsys) : option vsys :=
  let '(VSys u pc ws w n) := st in
  x ← get_fun f u;
  match a with
  | ACall c => Some (VSys u pc (ws ++ [putc_sections (dev_open_flag x.1) c]) w n)
  | AWriter =>
      match ws with
      | (MPut c :: ms) :: ws =>
          Some (VSys (put_fun f (on_vcom (micro_exec (MPut c)) x) u) pc (ms :: ws) (put_written c (vcom_of x) w) n)
      | (MEvent :: ms) :: ws => Some (VSys (put_fun f (on_vcom (micro_exec MEvent) x) u) pc (ms :: ws) w n)
      | _ => None
      end
  | AThread => r ← vcom_tx_step f pc false u; '(pc', u') ← r; Some (VSys u' pc' ws w n)
  | AReport =>
      if (n <? sent_count u)%nat then u' ← rt_usbd_thread_step [] (USB_MSG_DATA_NOTIFY IN_ADDR 0 []) u; Some (VSys u' pc ws w (S n)) else None
  end.
Fixpoint vrun (f : nat) (acts : list vact) (st : vsys) : option vsys :=
  match acts with [] => Some st | a :: acts => st ← vexec f a st; vrun f acts st end.

Lemma vexec_step f a st st' : vexec f a st = Some st' -> vstep f st st'.
Proof.
  destruct st as [u pc ws w n]. unfold vexec. destruct (get_fun f u) as [x|] eqn:Ex; cbn [mbind option_bind]; [|done].
  destruct a as [c| | |].
  - intros E. injection E as <-. by apply vs_call.
  - destruct ws as [|[|[c|] ms] ws]; try done.
    + intros E. injection E as <-.
      by apply (vs_put f u pc [] ms ws w n x c).
    + intros E. injection E as <-. by apply (vs_event f u pc [] ms ws w n x).
  - destruct (vcom_tx_step f pc false u) as [[[pc' u']|]|] eqn:E; cbn [mbind option_bind]; try done. intros E'. injection E' as <-. by apply vs_thread.
  - destruct (Nat.ltb_spec n (sent_count u)); [|done].
    destruct (rt_usbd_thread_step _ _ u) as [u'|] eqn:E; cbn [mbind option_bind]; [|done]. intros E'. injection E' as <-. by eapply vs_in.
Qed.

Lemma vrun_steps f acts : forall st st', vrun f acts st = Some st' -> rtc (vstep f) st st'.
Proof.
  induction acts as [|a acts IH]; intros st st' E; [by injection E as <-|]. cbn [vrun mbind option_bind] in E.
  destruct (vexec f a st) as [st1|] eqn:E1; cbn [mbind option_bind] in E; [|done]. eapply rtc_l; [by eapply vexec_step|by apply IH].
Qed.

(** A byte is put, the thread wakes, takes and sends it, the controller reports. *)
Definition port_acts : list vact := [ACall 72; AWriter; AWriter; AThread; AThread; AThread; AReport; AThread; AThread].
Definition port_idle : vsys := VSys port TxWaitEvent [] [] 0.
Definition port_sent : vsys := default port_idle (vrun 0 port_acts port_idle).

Lemma vcom_tx_delivers_witness : quiet 0 port_sent /\ sent_bytes (vs_u port_sent) = vs_written port_sent /\ vs_written port_sent = [72].
Proof.
  assert (rtc (vstep 0) port_idle port_sent) as Hs.
  { apply (vrun_steps 0 port_acts). apply some_default. vm_compute. reflexivity. }
  pose proof (vcom_tx_delivers 0 port_fun [] port_idle port_sent port_start Hs) as (_&_&H).
  assert (quiet 0 port_sent) as Hq.
  { split; [|split]; [|vm_compute; reflexivity|vm_compute; reflexivity].
    assert (vs_writers port_sent = [[]]) as -> by (vm_compute; reflexivity). by constructor. }
  split; [exact Hq|]. split; [exact (H Hq)|]. vm_compute. reflexivity.
Defined.
