(* ===== verification/VcomStream.v ===== *)
(** * Writing blocks to the virtual COM port

    [_vcom_tx] copies the stretches between line feeds and puts a carriage return
    before each of them, while the sending thread empties the buffer; with room for
    the result it is the plain expansion of the block. *)

From S2P Require Import Prelude Kernel Ring Mem MemSpec RingBuffer Device Serial SerialSafe UsbCore UsbSpec Vcom VcomSpec VcomDemo.

(** The reference: every line feed becomes a carriage return and a line feed. *)
Definition expand (d : list Z) : list Z := flat_map (fun c => if c =? 10 then [13; 10] else [c]) d.

Lemma expand_app d d' : expand (d ++ d') = expand d ++ expand d'.
Proof. apply flat_map_app. Qed.
Lemma expand_plain d : Forall (fun c => c <> 10) d -> expand d = d.
Proof. induction 1 as [|c d Hc _ IH]; [done|]. simpl. rewrite (proj2 (Z.eqb_neq _ _) Hc), IH. done. Qed.

(** The bytes taken by the thread and those in the buffer are [w]; the thread has
    taken [base] at least. *)
Definition tx_holds (cap base : nat) (w : list Z) (s : tx_state) : Prop := exists q,
  rb_repr (tx_ringbuffer (tx_v s)) q /\ tx_sent s ++ q = w /\ buffer_size (tx_ringbuffer (tx_v s)) = cap /\
  (base <= length (tx_sent s))%nat /\ connected (tx_v s) = true.

Section Stream.
Variables (cap base : nat).
Implicit Types (s : tx_state) (w d : list Z).

Lemma gap_holds w s : tx_holds cap base w s -> tx_holds cap base w (gap s).
Proof.
  intros (q&Hq&Hw&Hc&Hb&Hcon). unfold gap. destruct (tx_gaps s) as [|n gaps]; [by exists q|].
  destruct (rt_ringbuffer_get_repr _ _ n Hq) as (rb&->&Hr&Hs). exists (drop n q). simpl.
  split_and!; [done|by rewrite <-app_assoc, take_drop|by rewrite Hs|rewrite length_app; lia|done].
Qed.

Lemma put_force_holds d rb q : rb_repr rb q -> (length q + length d <= buffer_size rb)%nat ->
  exists rb', rt_ringbuffer_put_force d rb = (rb', length d) /\ rb_repr rb' (q ++ d) /\ buffer_size rb' = buffer_size rb.
Proof.
  intros Hq Hl. destruct (put_force_repr rb q d Hq ltac:(lia)) as (En&Es&Hr&_).
  destruct (rt_ringbuffer_put_force d rb) as [rb' n]. simpl in *. subst n. exists rb'. split; [done|]. split; [|done].
  rewrite last_bytes_all in Hr by (rewrite length_app; lia). apply Hr. unfold overrun. lia.
Qed.

Lemma put_force_gap_holds d w s : tx_holds cap base w s -> (length w + length d <= base + cap)%nat ->
  exists s', put_force_gap d s = (s', length d) /\ tx_holds cap base (w ++ d) s'.
Proof.
  intros Hh Hl. apply gap_holds in Hh as (q&Hq&Hw&Hc&Hb&Hcon). unfold put_force_gap.
  assert (length w = length (tx_sent (gap s)) + length q)%nat as El by (by rewrite <-Hw, length_app).
  destruct (put_force_holds d _ _ Hq) as (rb'&->&Hr&Hs); [lia|]. eexists. split; [done|]. exists (q ++ d). simpl.
  split_and!; [done|by rewrite app_assoc, Hw|by rewrite Hs|done|done].
Qed.

Lemma crlf_gap_holds w s : tx_holds cap base w s -> (length w + 2 <= base + cap)%nat ->
  exists s', crlf_gap s = (s', true) /\ tx_holds cap base (w ++ [13; 10]) s'.
Proof.
  intros Hh Hl. apply gap_holds in Hh as (q&Hq&Hw&Hc&Hb&Hcon). unfold crlf_gap.
  assert (length w = length (tx_sent (gap s)) + length q)%nat as El by (by rewrite <-Hw, length_app).
  rewrite (rb_space_len _ _ Hq), (proj2 (Nat.leb_le _ _)) by lia.
  destruct (put_force_holds [13; 10] _ _ Hq) as (rb'&->&Hr&Hs); [simpl; lia|]. eexists. split; [done|]. exists (q ++ [13; 10]). simpl.
  split_and!; [done|by rewrite app_assoc, Hw|by rewrite Hs|done|done].
Qed.

Lemma find_lf_spec buf : forall fuel ptr, (ptr <= length buf <= ptr + fuel)%nat ->
  exists p, find_lf fuel buf ptr = p /\ (ptr <= p <= length buf)%nat /\ Forall (fun c => c <> 10) (take (p - ptr) (drop ptr buf)) /\
    ((p < length buf)%nat -> buf !! p = Some 10).
Proof.
  induction fuel as [|fuel IH]; intros ptr Hp; cbn [find_lf].
  - exists ptr. rewrite Nat.sub_diag, take_0. split_and!; [done|lia|lia|by constructor|lia].
  - destruct (buf !! ptr) as [c|] eqn:Ec.
    + pose proof (lookup_lt_Some _ _ _ Ec). destruct (Z.eqb_spec c 10) as [->|Hc].
      * exists ptr. rewrite Nat.sub_diag, take_0. split_and!; [done|lia|lia|by constructor|done].
      * destruct (IH (S ptr) ltac:(lia)) as (p&->&Hr&Hf&He). exists p. split_and!; [done|lia|lia| |done].
        rewrite (drop_S _ _ _ Ec). replace (p - ptr)%nat with (S (p - S ptr)) by lia. by constructor.
    + apply lookup_ge_None in Ec. exists ptr. rewrite Nat.sub_diag, take_0. split_and!; [done|lia|lia|by constructor|lia].
Qed.

(** At the head of the loop the first [k] bytes have been expanded. *)
Lemma stream_loop_holds buf w : forall fuel k s, (k <= length buf < k + fuel)%nat ->
  tx_holds cap base (w ++ expand (take k buf)) s -> (length w + length (expand buf) <= base + cap)%nat ->
  exists s' size, stream_loop fuel buf k k s = (s', size, false) /\ (size <= length buf)%nat /\
    tx_holds cap base (w ++ expand (take size buf)) s' /\ expand (drop size buf) = drop size buf.
Proof.
  induction fuel as [|fuel IH]; intros k s Hk Hh Hl; [lia|]. cbn [stream_loop].
  assert (forall n, length (expand (take n buf)) + length (expand (drop n buf)) = length (expand buf))%nat as Hsplit.
  { intros n. by rewrite <-length_app, <-expand_app, take_drop. }
  destruct (Nat.ltb_spec k (length buf)) as [H1|H1].
  2: { exists s, k. split_and!; [done|lia|done|]. by rewrite drop_ge by lia. }
  destruct (find_lf_spec buf (length buf) k ltac:(lia)) as (p&->&Hp&Hf&He).
  destruct (Nat.ltb_spec p (length buf)) as [H2|H2].
  2: { exists s, k. split_and!; [done|lia|done|]. rewrite take_ge in Hf by (rewrite length_drop; lia). by apply expand_plain. }
  assert (take p buf = take k buf ++ take (p - k) (drop k buf)) as Ep.
  { rewrite <-(take_drop k buf) at 1. rewrite take_app_ge by (rewrite length_take; lia). by rewrite length_take, Nat.min_l by lia. }
  pose proof (take_S_r _ _ _ (He H2)) as Eq. pose proof (Hsplit (S p)) as Hsz. rewrite Eq, expand_app, Ep, expand_app, (expand_plain _ Hf), !length_app in Hsz.
  simpl in Hsz.
  destruct (put_force_gap_holds (take (p - k) (drop k buf)) _ _ Hh) as (s1&->&Hh1); [rewrite length_app; lia|].
  rewrite length_take, length_drop. replace (k + Nat.min (p - k) (length buf - k))%nat with p by lia. rewrite Nat.eqb_refl.
  destruct (crlf_gap_holds _ _ Hh1) as (s2&->&Hh2); [rewrite !length_app; lia|].
  apply (IH (S p) s2); [lia| |done]. rewrite Eq, expand_app, Ep, expand_app, (expand_plain _ Hf). simpl. by rewrite !app_assoc in *.
Qed.

(** The event does not change what is held. *)
Lemma event_holds w s b gaps : tx_holds cap base w s -> tx_holds cap base w (TxState (vc_event b (tx_v s)) gaps (tx_sent s)).
Proof. intros (q&?). by exists q. Qed.
End Stream.

(** Writing a block to the connected port is the plain routine that appends the
    block, its first 128 bytes, with every line feed expanded in stream mode, when
    the buffer has room for the result: whatever the sending thread takes out
    between the sections, nothing is lost, doubled or reordered. *)
Theorem vcom_tx_expands fl buf s q : rb_repr (tx_ringbuffer (tx_v s)) q -> connected (tx_v s) = true ->
  let block := take CDC_BULKIN_MAXSIZE buf in
  let out := if has fl RT_DEVICE_FLAG_STREAM then expand block else block in
  (length q + length out <= buffer_size (tx_ringbuffer (tx_v s)))%nat ->
  let '(s', n) := _vcom_tx fl buf s in
  n = length block /\ exists q', rb_repr (tx_ringbuffer (tx_v s')) q' /\ tx_sent s' ++ q' = tx_sent s ++ q ++ out /\
    (buf <> [] -> tx_event (tx_v s') = true).
Proof.
  intros Hq Hcon block out Hroom. unfold _vcom_tx. rewrite Hcon.
  replace (take (Nat.min (length buf) CDC_BULKIN_MAXSIZE) buf) with block
    by (unfold block; destruct (Nat.le_ge_cases (length buf) CDC_BULKIN_MAXSIZE); [rewrite Nat.min_l, !take_ge by lia; done|by rewrite Nat.min_r by lia]).
  set (cap := buffer_size (tx_ringbuffer (tx_v s))) in *. set (base := length (tx_sent s)).
  assert (tx_holds cap base (tx_sent s ++ q) s) as Hh by (exists q; by split_and!).
  assert (exists s1 size, (if has fl RT_DEVICE_FLAG_STREAM then stream_loop (S (length block)) block 0 0 s else (s, 0%nat, false)) = (s1, size, false) /\
    (size <= length block)%nat /\ exists w, tx_holds cap base w s1 /\ w ++ drop size block = tx_sent s ++ q ++ out) as (s1&size&->&Hsz&w&Hh1&Ew).
  { unfold out in *. destruct (has fl RT_DEVICE_FLAG_STREAM).
    - destruct (stream_loop_holds cap base block (tx_sent s ++ q) (S (length block)) 0 s) as (s1&size&->&Hsz&Hh1&Ed);
        [lia|by rewrite app_nil_r|rewrite length_app; lia|].
      exists s1, size. split_and!; [done|done|]. eexists. split; [done|]. rewrite <-Ed, <-app_assoc, <-expand_app, take_drop. by rewrite app_assoc.
    - exists s, 0%nat. split_and!; [done|lia|]. eexists. split; [done|]. rewrite drop_0. by rewrite app_assoc. }
  rewrite andb_true_r.
  assert (exists s2, (if (size <? length block)%nat then let '(s0, n) := put_force_gap (drop size block) s1 in (s0, (size + n)%nat) else (s1, size)) =
    (s2, length block) /\ tx_holds cap base (tx_sent s ++ q ++ out) s2) as (s2&->&Hh2).
  { destruct (Nat.ltb_spec size (length block)) as [H1|H1].
    - destruct (put_force_gap_holds cap base (drop size block) w s1 Hh1) as (s2&->&Hh2).
      { rewrite <-length_app, Ew, !length_app. lia. }
      exists s2. rewrite length_drop. split; [f_equal; lia|by rewrite <-Ew].
    - exists s1. replace size with (length block) in * by lia. split; [done|]. rewrite drop_ge, app_nil_r in Ew by lia. by rewrite <-Ew. }
  split; [done|]. destruct (Nat.eqb_spec (length block) 0) as [E|E].
  - destruct Hh2 as (q'&?&?&_). exists q'. split_and!; [done|done|]. intros Hne. exfalso. destruct buf; [done|]. by unfold block in E.
  - destruct (event_holds _ _ _ _ true (tx_gaps s2) Hh2) as (q'&?&?&_). by exists q'.
Qed.

Lemma vcom_tx_expands_witness :
  let s := TxState (vcom_of port_fun) [1; 0]%nat [] in
  let '(s', n) := _vcom_tx RT_DEVICE_FLAG_STREAM [72; 10; 105] s in
  n = 3%nat /\ exists q', rb_repr (tx_ringbuffer (tx_v s')) q' /\ tx_sent s' ++ q' = [72; 13; 10; 105].
Proof.
  intros s. pose proof (vcom_tx_expands RT_DEVICE_FLAG_STREAM [72; 10; 105] s [] (proj2 port_tx)) as H.
  assert (connected (tx_v s) = true) as Hc by (vm_compute; reflexivity).
  assert (buffer_size (tx_ringbuffer (tx_v s)) = 1024%nat) as Hb by (vm_compute; reflexivity).
  specialize (H Hc). rewrite Hb in H. specialize (H ltac:(vm_compute; lia)).
  assert ((if has RT_DEVICE_FLAG_STREAM RT_DEVICE_FLAG_STREAM then expand (take CDC_BULKIN_MAXSIZE [72; 10; 105]) else take CDC_BULKIN_MAXSIZE [72; 10; 105]) =
    [72; 13; 10; 105]) as Eo by (vm_compute; reflexivity).
  rewrite Eo in H. destruct (_vcom_tx _ _ s) as [s' n]. destruct H as (En&q'&Hq&Hw&_).
  split; [exact En|]. exists q'. split; [exact Hq|exact Hw].
Defined.
