(* ===== verification/VcomLimits.v ===== *)
(** * What the USB core and the virtual COM port do not handle

    Requests and orders of events for which the code follows a null pointer, reads
    past an array or loses the connection. *)

From S2P Require Import Prelude Kernel Ring Mem MemSpec RingBuffer Device Serial SerialSafe UsbCore UsbSpec Vcom VcomSpec VcomDemo.

(** The string of index 6, which the request for the descriptor of other operating
    systems (0xEE) is mapped to, lies behind the six strings of the port. *)
Theorem string_descriptor_os_index setup (u : udevice vfun) : length (ustrings u) = 6%nat ->
  Z.land (wValue setup) 255 = 238 \/ Z.land (wValue setup) 255 = 6 -> _get_string_descriptor setup u = None.
Proof.
  intros Hl Hi. unfold _get_string_descriptor.
  assert ((if Z.land (wValue setup) 255 =? 238 then USB_STRING_OS_INDEX else Z.land (wValue setup) 255) = 6) as -> by (by destruct Hi as [-> | ->]).
  change (USB_STRING_MAX <? 6) with false. change (6 =? USB_STRING_LANGID_INDEX) with false. cbv iota.
  rewrite lookup_ge_None_2 by (rewrite Hl; vm_compute; lia). done.
Qed.
Lemma string_descriptor_os_index_witness : rt_usbd_thread_step [] (setup 128 6 1006 0 255) port = None.
Proof. apply (string_descriptor_os_index (URequest 128 6 1006 0 255) port); [vm_compute; reflexivity|by left]. Defined.

(** The status of an endpoint that no setting has, such as endpoint 0, is read
    through a null pointer. *)
Theorem get_status_unknown_endpoint setup (u : udevice vfun) : bRequest setup = 0 -> rt_usbd_find_endpoint (wIndex setup) u = Some None ->
  endpoint_request setup u = None.
Proof. intros Hb Hf. unfold endpoint_request. rewrite Hb. simpl. unfold endpoint_of. by rewrite Hf. Qed.
Lemma get_status_unknown_endpoint_witness : rt_usbd_thread_step [] (setup 130 0 0 128 2) port = None.
Proof. apply (get_status_unknown_endpoint (URequest 130 0 0 128 2) port); vm_compute; reflexivity. Defined.

(** The same for the setting of an interface that the device does not have. *)
Theorem get_interface_unknown setup (u : udevice vfun) : configured u = true -> rt_usbd_find_interface (Z.land (wIndex setup) 255) u = Some None ->
  _get_interface setup u = None.
Proof. intros Hc Hf. unfold _get_interface, interface_of. by rewrite Hc, Hf. Qed.
Lemma get_interface_unknown_witness : rt_usbd_thread_step [] (setup 129 10 0 2 1) port = None.
Proof. apply (get_interface_unknown (URequest 129 10 0 2 1) port); vm_compute; reflexivity. Defined.

(** Setting the configuration of a configured port closes and opens its endpoints
    but does not arm the out endpoint again, since the function is enabled: the
    commands contain no [DcdPrepare]. *)
Example set_config_again_unarmed :
  (fun u => drop (length (dcd_cmds port)) (dcd_cmds u)) <$> rt_usbd_thread_step [] (setup 0 9 1 0 0) port =
  Some [DcdSetConfig 1; DcdDisable 130; DcdEnable 130; DcdDisable 129; DcdEnable 129; DcdDisable 1; DcdEnable 1; DcdSendStatus].
Proof. vm_compute. reflexivity. Qed.

(** A line feed written by polling in stream mode gets two carriage returns: one of
    the framework and one of the driver. *)
Theorem vcom_poll_stream_doubles_cr fl v q : connected v = true -> has fl RT_DEVICE_FLAG_STREAM = true ->
  rb_repr (tx_ringbuffer v) q -> (length q + 3 <= buffer_size (tx_ringbuffer v))%nat ->
  rb_repr (tx_ringbuffer (_serial_poll_tx fl [10] v)) (q ++ [13; 13; 10]).
Proof.
  intros Hc Hf Hq Hs. assert (forall rb w, rb_repr rb w -> buffer_size rb = buffer_size (tx_ringbuffer v) ->
    forall c, (length w + 1 <= buffer_size rb)%nat -> let rb' := fst (rt_ringbuffer_putchar_force c rb) in
    rb_repr rb' (w ++ [c]) /\ buffer_size rb' = buffer_size (tx_ringbuffer v)) as Hput.
  { intros rb w Hw Es c Hl. destruct (putchar_force_repr c rb w Hw) as [He E].
    rewrite last_bytes_all in He by (rewrite length_app; simpl; lia). split; [done|by rewrite E]. }
  assert (tx_ringbuffer (_serial_poll_tx fl [10] v) =
    fst (rt_ringbuffer_putchar_force 10 (fst (rt_ringbuffer_putchar_force 13 (fst (rt_ringbuffer_putchar_force 13 (tx_ringbuffer v))))))) as ->.
  { simpl. rewrite Hf. simpl. unfold putc_, uart_putc, usb_vcom_ops, _vcom_putc. rewrite Hc. simpl. by rewrite Hc, Hf. }
  destruct (Hput _ _ Hq eq_refl 13) as [H1 E1]; [lia|].
  destruct (Hput _ _ H1 E1 13) as [H2 E2]; [rewrite E1, length_app; simpl; lia|].
  destruct (Hput _ _ H2 E2 10) as [H3 _]; [rewrite E2, !length_app; simpl; lia|].
  by rewrite <-!app_assoc in H3.
Qed.
Lemma vcom_poll_stream_doubles_cr_witness : rb_repr (tx_ringbuffer (_serial_poll_tx RT_DEVICE_FLAG_STREAM [10] (vcom_of port_fun))) [13; 13; 10].
Proof. apply (vcom_poll_stream_doubles_cr _ (vcom_of port_fun) []); [vm_compute; reflexivity|done|apply port_tx|vm_compute; lia]. Defined.

(** A packet for a port that was opened without reception by interrupts is handed to
    the interrupt routine, which follows the null pointer to the FIFO. *)
Theorem vcom_rx_without_fifo d x : has (dev_flag x.1) RT_DEVICE_FLAG_ACTIVATED && has (dev_open_flag x.1) RT_DEVICE_OFLAG_OPEN = true ->
  ser_rx x.2 = RxNone -> rx_bytes d x = None.
Proof. intros Ho Hr. unfold rx_bytes. rewrite Ho. unfold rt_hw_serial_isr, rx_fifo. simpl. by rewrite Hr. Qed.
Definition port_tx_only : vfun := default no_fun (fst <$> rt_device_open port_ops 1027 (rt_usb_vcom_init port_heap)).
Lemma vcom_rx_without_fifo_witness : rx_bytes [104] port_tx_only = None.
Proof. apply vcom_rx_without_fifo; vm_compute; reflexivity. Defined.

(** When the buffer of the out endpoint cannot be allocated, the function is enabled
    all the same and the controller is told to receive into it. *)
Definition small_heap : heap := rt_system_heap_init 1000 1100 (Heap 0 ∅ ∅ 0 0 0 0).
Definition small_port : udevice vfun := default no_device (u ← vcom_device small_heap; messages enumeration u).
Example function_enable_without_buffer :
  (out_buffer <$> (vcom_of <$> get_fun 0 small_port)) = Some None /\ (enabled <$> u_funcs small_port !! 0%nat) = Some true /\
  last (dcd_cmds small_port) = Some DcdSendStatus /\ dcd_cmds small_port !! 10%nat = Some (DcdPrepare 1 64).
Proof. split_and!; vm_compute; reflexivity. Qed.

(** When the completion of a transfer does not come in time, the thread goes on with the
    next bytes, and the rest of the transfer is not sent: of 100 bytes the host gets the
    first 64, and then a byte that was written later. *)
Definition hundred : list Z := Z.of_nat <$> seq 0 100.
Definition port_write (d : list Z) (u : udevice vfun) : option (udevice vfun) :=
  x ← get_fun 0 u; Some (put_fun 0 (on_vcom (fun v => foldl (fun v c => fst (_vcom_putc 0 c v)) v d) x) u).
(** The thread with its timeouts. *)
Fixpoint thread_steps (timeouts : list bool) (pc : tx_pc) (u : udevice vfun) : option (tx_pc * udevice vfun) :=
  match timeouts with
  | [] => Some (pc, u)
  | t :: ts => r ← vcom_tx_step 0 pc t u; '(pc, u) ← r; thread_steps ts pc u
  end.
Example vcom_tx_timeout_loses :
  (u ← port_write hundred port; '(pc, u) ← thread_steps [false; false; false; true] TxWaitEvent u;
   u ← port_write [7] u; '(_, u) ← thread_steps [false; false] pc u; Some (sent_bytes u)) = Some (take 64 hundred ++ [7]).
Proof. vm_compute. reflexivity. Qed.
