(* ===== verification/Wire.v ===== *)
(** * Pins and bit-banged serial lines

    The board drivers talk to their chips by writing single pins. A transfer is
    the list of the pin writes it makes; what a chip receives is computed from
    that list by the clocking rule of its serial port. *)

From S2P Require Import Prelude.

(** ** Pins *)

Inductive port := GPIOD | GPIOE | GPIOF | GPIOG.
#[export] Instance port_eq_dec : EqDecision port.
Proof. solve_decision. Defined.

(** A port and the number of the pin. *)
Notation pin := (port * Z)%type.

(** [port->BSRR = pin] drives the pin high, [port->BSRR = pin << 16] low. *)
Record drive := Drive { d_pin : pin; d_level : bool }.
Definition high (p : pin) : drive := Drive p true.
Definition low (p : pin) : drive := Drive p false.

Definition levels := pin -> bool.
Definition set_level (d : drive) (st : levels) : levels := fun p => if decide (p = d_pin d) then d_level d else st p.
Definition run_pins (tr : list drive) (st : levels) : levels := foldl (fun st d => set_level d st) st tr.

Lemma run_pins_app t1 t2 st : run_pins (t1 ++ t2) st = run_pins t2 (run_pins t1 st).
Proof. apply foldl_app. Qed.

(** ** What a chip receives *)

(** The serial port of a chip: an active-low select (absent when it is tied to
    ground), the clock and the edge that samples the data line, and the pin whose
    rising edge transfers the buffers to the active registers. *)
Record serial_port := SerialPort {
  sp_select : option pin;
  sp_clock : pin;
  sp_data : pin;
  sp_edge : bool;
  sp_update : option pin;
}.

Inductive seen := SBit (b : bool) | SStop | SUpdate.

Definition selected (sp : serial_port) (st : levels) : bool :=
  match sp_select sp with Some p => negb (st p) | None => true end.
Definition rises (st : levels) (d : drive) (p : pin) (edge : bool) : bool :=
  bool_decide (d_pin d = p) && Bool.eqb (d_level d) edge && negb (Bool.eqb (st p) edge).

Definition observe1 (sp : serial_port) (st : levels) (d : drive) : list seen :=
  (if rises st d (sp_clock sp) (sp_edge sp) && selected sp st then [SBit (st (sp_data sp))] else []) ++
  match sp_select sp with Some p => if rises st d p true then [SStop] else [] | None => [] end ++
  match sp_update sp with Some u => if rises st d u true then [SUpdate] else [] | None => [] end.
Fixpoint observe (sp : serial_port) (st : levels) (tr : list drive) : list seen :=
  match tr with [] => [] | d :: tr => observe1 sp st d ++ observe sp (set_level d st) tr end.

Lemma observe_app sp t1 t2 : forall st,
  observe sp st (t1 ++ t2) = observe sp st t1 ++ observe sp (run_pins t1 st) t2.
Proof. induction t1 as [|d t1 IH]; intros st; simpl; [done|]. by rewrite IH, <-app_assoc. Qed.

(** The pins of a port are four different pins. *)
Definition sp_pins (sp : serial_port) : list pin :=
  sp_clock sp :: sp_data sp :: match sp_select sp with Some p => [p] | None => [] end ++
  match sp_update sp with Some p => [p] | None => [] end.
Definition sp_wf (sp : serial_port) : Prop := NoDup (sp_pins sp).

(** ** Bytes and bits *)

(** Most significant bit first. *)
Fixpoint msb_bits (n : nat) (v : Z) : list bool :=
  match n with O => [] | S n => Z.testbit v (Z.of_nat n) :: msb_bits n v end.
Definition byte_bits (v : Z) : list bool := msb_bits 8 v.

Fixpoint bits_value (acc : Z) (l : list bool) : Z :=
  match l with [] => acc | b :: l => bits_value (2 * acc + Z.b2z b) l end.

Lemma bits_value_msb n v : forall acc, 0 <= v ->
  bits_value acc (msb_bits n v) = acc * 2 ^ Z.of_nat n + v mod 2 ^ Z.of_nat n.
Proof.
  induction n as [|n IH]; intros acc Hv; cbn [msb_bits bits_value].
  - rewrite Z.mod_1_r. change (2 ^ Z.of_nat 0) with 1. lia.
  - rewrite IH by done. rewrite Nat2Z.inj_succ, Z.pow_succ_r by lia.
    rewrite (Z.mul_comm 2 (2 ^ Z.of_nat n)), Z.rem_mul_r by lia. rewrite <-Z.testbit_spec' by lia. lia.
Qed.

(** The bytes in a list of bits; an incomplete last byte is dropped. *)
Fixpoint bytes_of (acc : list bool) (l : list bool) : list Z :=
  match l with
  | [] => []
  | b :: l =>
      let acc := acc ++ [b] in
      if (length acc =? 8)%nat then bits_value 0 acc :: bytes_of [] l else bytes_of acc l
  end.

Lemma byte_round_trip v : is_u8 v -> bits_value 0 (byte_bits v) = v.
Proof. intros Hv. unfold byte_bits. rewrite bits_value_msb by (unfold is_u8 in *; lia). rewrite Z.mod_small; [lia|exact Hv]. Qed.

Lemma bytes_of_byte v l : is_u8 v -> bytes_of [] (byte_bits v ++ l) = v :: bytes_of [] l.
Proof. intros Hv. rewrite <-(byte_round_trip v Hv) at 2. done. Qed.

(** The bytes between the events of the select and update pins. *)
Inductive received := RBytes (l : list Z) | RUpdate.
Definition flush (acc : list bool) : list received := match bytes_of [] acc with [] => [] | l => [RBytes l] end.
Fixpoint receive (acc : list bool) (l : list seen) : list received :=
  match l with
  | [] => flush acc
  | SBit b :: l => receive (acc ++ [b]) l
  | SStop :: l => flush acc ++ receive [] l
  | SUpdate :: l => flush acc ++ RUpdate :: receive [] l
  end.

Lemma bytes_of_bytes vs : Forall is_u8 vs -> bytes_of [] (vs ≫= byte_bits) = vs.
Proof. induction 1 as [|v vs Hv _ IH]; [done|]. rewrite bind_cons, bytes_of_byte by done. by rewrite IH. Qed.

Lemma receive_bits acc bs l : receive acc ((SBit <$> bs) ++ l) = receive (acc ++ bs) l.
Proof.
  revert acc. induction bs as [|b bs IH]; intros acc; simpl; [by rewrite app_nil_r|].
  by rewrite IH, <-app_assoc.
Qed.

(** What the chip sees when [vs] is sent. *)
Definition seen_bytes (vs : list Z) : list seen := SBit <$> (vs ≫= byte_bits).

Lemma seen_bytes_app v1 v2 : seen_bytes (v1 ++ v2) = seen_bytes v1 ++ seen_bytes v2.
Proof. unfold seen_bytes. by rewrite bind_app, fmap_app. Qed.

Lemma flush_bytes vs : Forall is_u8 vs -> vs <> [] -> flush (vs ≫= byte_bits) = [RBytes vs].
Proof. intros Hv Hne. unfold flush. rewrite bytes_of_bytes by done. by destruct vs. Qed.

Lemma receive_update vs l : Forall is_u8 vs -> vs <> [] ->
  receive [] (seen_bytes vs ++ SUpdate :: l) = RBytes vs :: RUpdate :: receive [] l.
Proof. intros Hv Hne. unfold seen_bytes. rewrite receive_bits. simpl. by rewrite flush_bytes. Qed.
Lemma receive_stop vs l : Forall is_u8 vs -> vs <> [] ->
  receive [] (seen_bytes vs ++ SStop :: l) = RBytes vs :: receive [] l.
Proof. intros Hv Hne. unfold seen_bytes. rewrite receive_bits. simpl. by rewrite flush_bytes. Qed.
Lemma receive_end vs : Forall is_u8 vs -> vs <> [] -> receive [] (seen_bytes vs) = [RBytes vs].
Proof. intros Hv Hne. unfold seen_bytes. rewrite <-(app_nil_r (SBit <$> _)), receive_bits. simpl. by apply flush_bytes. Qed.

(** ** Other users of the pins *)

(** [tr] and [other] interleaved. *)
Inductive interleave : list drive -> list drive -> list drive -> Prop :=
  | il_nil : interleave [] [] []
  | il_left d t o r : interleave t o r -> interleave (d :: t) o (d :: r)
  | il_right d t o r : interleave t o r -> interleave t (d :: o) (d :: r).

Lemma interleave_insert l1 l2 d : interleave (l1 ++ l2) [d] (l1 ++ [d] ++ l2).
Proof. induction l1 as [|x l1 IH]; simpl; constructor; [|done]. induction l2; by constructor. Qed.

Definition agree (sp : serial_port) (st st' : levels) : Prop := forall p, p ∈ sp_pins sp -> st p = st' p.

Lemma sp_pins_clock sp : sp_clock sp ∈ sp_pins sp.
Proof. by left. Qed.
Lemma sp_pins_data sp : sp_data sp ∈ sp_pins sp.
Proof. right. by left. Qed.
Lemma sp_pins_select sp p : sp_select sp = Some p -> p ∈ sp_pins sp.
Proof. intros E. unfold sp_pins. rewrite E. do 2 right. by left. Qed.
Lemma sp_pins_update sp p : sp_update sp = Some p -> p ∈ sp_pins sp.
Proof. intros E. unfold sp_pins. rewrite E. do 2 right. apply elem_of_app. right. by left. Qed.

Lemma agree_set sp d st st' : agree sp st st' -> agree sp (set_level d st) (set_level d st').
Proof. intros H p Hp. unfold set_level. case_decide; [done|by apply H]. Qed.
Lemma agree_other sp d st st' : d_pin d ∉ sp_pins sp -> agree sp st st' -> agree sp st (set_level d st').
Proof. intros Hd H p Hp. unfold set_level. rewrite decide_False; [by apply H|]. by intros ->. Qed.

Lemma rises_agree st st' d p e : st p = st' p -> rises st d p e = rises st' d p e.
Proof. unfold rises. by intros ->. Qed.

Lemma observe1_agree sp st st' d : agree sp st st' -> observe1 sp st d = observe1 sp st' d.
Proof.
  intros H. unfold observe1, selected. rewrite (rises_agree st st') by apply H, sp_pins_clock. rewrite (H _ (sp_pins_data sp)).
  f_equal; [|f_equal].
  - destruct (sp_select sp) as [p|] eqn:E; [|done]. by rewrite (H p (sp_pins_select _ _ E)).
  - destruct (sp_select sp) as [p|] eqn:E; [|done]. by rewrite (rises_agree st st') by apply H, sp_pins_select, E.
  - destruct (sp_update sp) as [u|] eqn:E; [|done]. by rewrite (rises_agree st st') by apply H, sp_pins_update, E.
Qed.

Lemma rises_other sp st d p e : d_pin d ∉ sp_pins sp -> p ∈ sp_pins sp -> rises st d p e = false.
Proof. intros Hd Hp. unfold rises. by rewrite bool_decide_false by (intros E; apply Hd; by rewrite E). Qed.

Lemma observe1_other sp st d : d_pin d ∉ sp_pins sp -> observe1 sp st d = [].
Proof.
  intros Hd. unfold observe1. rewrite (rises_other sp) by (done || apply sp_pins_clock). simpl.
  destruct (sp_select sp) as [p|] eqn:Ep; [rewrite (rises_other sp) by (done || apply sp_pins_select, Ep)|];
    (destruct (sp_update sp) as [u|] eqn:Eu; [rewrite (rises_other sp) by (done || apply sp_pins_update, Eu)|]; done).
Qed.

(** Writes to other pins do not change what the chip receives. *)
Lemma observe_interleave sp t o r : interleave t o r -> Forall (fun d => d_pin d ∉ sp_pins sp) o ->
  forall st st', agree sp st st' -> observe sp st t = observe sp st' r.
Proof.
  induction 1 as [|d t o r Hi IH|d t o r Hi IH]; intros Ho st st' Ha; simpl; [done| |].
  - rewrite (observe1_agree sp st st' d Ha). f_equal. apply IH; [done|by apply agree_set].
  - apply Forall_cons in Ho as [Hd Ho]. rewrite observe1_other by done. apply IH; [done|by apply agree_other].
Qed.

(** ** Clocking bits out *)

(** One bit: the data line is set before the sampling edge. *)
Definition clock_bit (sp : serial_port) (b : bool) : list drive :=
  [Drive (sp_clock sp) (negb (sp_edge sp)); Drive (sp_data sp) b; Drive (sp_clock sp) (sp_edge sp)].

Lemma set_level_eq d st : set_level d st (d_pin d) = d_level d.
Proof. unfold set_level. by rewrite decide_True. Qed.
Lemma set_level_ne d st p : p <> d_pin d -> set_level d st p = st p.
Proof. intros. unfold set_level. by rewrite decide_False. Qed.

Section ClockOut.
Context (sp : serial_port) (Hwf : sp_wf sp).

Lemma clock_ne_data : sp_clock sp <> sp_data sp.
Proof. unfold sp_wf, sp_pins in Hwf. apply NoDup_cons in Hwf as [H _]. intros E. apply H. rewrite E. by left. Qed.
Lemma select_ne p : sp_select sp = Some p -> p <> sp_clock sp /\ p <> sp_data sp.
Proof.
  intros E. unfold sp_wf, sp_pins in Hwf. rewrite E in Hwf. apply NoDup_cons in Hwf as [H1 [H2 _]%NoDup_cons].
  split; intros E'; [apply H1|apply H2]; rewrite <-E'; [right; by left|by left].
Qed.
Lemma update_ne p : sp_update sp = Some p -> p <> sp_clock sp /\ p <> sp_data sp.
Proof.
  intros E. unfold sp_wf, sp_pins in Hwf. rewrite E in Hwf. apply NoDup_cons in Hwf as [H1 [H2 _]%NoDup_cons].
  split; intros E'; [apply H1|apply H2]; rewrite <-E'; [right|]; apply elem_of_app; right; by left.
Qed.

Definition kept (st st' : levels) : Prop := forall p, p <> sp_clock sp -> p <> sp_data sp -> st' p = st p.

Lemma kept_selected st st' : kept st st' -> selected sp st' = selected sp st.
Proof. intros H. unfold selected. destruct (sp_select sp) as [p|] eqn:E; [|done]. destruct (select_ne _ E). by rewrite H. Qed.

Lemma rises_ne st d p e : d_pin d <> p -> rises st d p e = false.
Proof. intros. unfold rises. by rewrite bool_decide_false. Qed.

(** A write to the clock or data pin is no event of the other pins. *)
Lemma observe1_data st d : d_pin d = sp_clock sp \/ d_pin d = sp_data sp ->
  observe1 sp st d = if rises st d (sp_clock sp) (sp_edge sp) && selected sp st then [SBit (st (sp_data sp))] else [].
Proof.
  intros Hd. unfold observe1.
  assert (match sp_select sp with Some p => if rises st d p true then [SStop] else [] | None => [] end = []) as ->.
  { destruct (sp_select sp) as [p|] eqn:E; [|done]. destruct (select_ne _ E). rewrite rises_ne; [done|]. intros <-. by destruct Hd. }
  assert (match sp_update sp with Some p => if rises st d p true then [SUpdate] else [] | None => [] end = []) as ->.
  { destruct (sp_update sp) as [p|] eqn:E; [|done]. destruct (update_ne _ E). rewrite rises_ne; [done|]. intros <-. by destruct Hd. }
  by rewrite app_nil_r.
Qed.

Lemma observe_clock_bits bs : forall st, selected sp st = true ->
  observe sp st (bs ≫= clock_bit sp) = SBit <$> bs /\ kept st (run_pins (bs ≫= clock_bit sp) st).
Proof.
  induction bs as [|b bs IH]; intros st Hsel; [split; [done|]; by intros p|].
  rewrite bind_cons, observe_app, run_pins_app. set (st' := run_pins (clock_bit sp b) st).
  assert (kept st st') as Hk.
  { intros p H1 H2. unfold st', clock_bit. simpl. rewrite !set_level_ne; done. }
  destruct (IH st') as [Ho Hr]; [by rewrite (kept_selected st st')|]. rewrite Ho. split.
  - change (SBit <$> b :: bs) with ([SBit b] ++ (SBit <$> bs)). f_equal. unfold clock_bit. cbn [observe].
    pose proof clock_ne_data as Hne. rewrite !observe1_data by (simpl; auto).
    unfold rises. cbn [d_pin d_level]. rewrite (bool_decide_true (sp_clock sp = sp_clock sp)) by done. cbn [andb].
    rewrite (bool_decide_false (sp_data sp = sp_clock sp)) by done. cbn [andb].
    assert (Bool.eqb (negb (sp_edge sp)) (sp_edge sp) = false) as -> by (by destruct (sp_edge sp)). cbn [andb app].
    rewrite (set_level_ne (Drive (sp_data sp) b)) by done. rewrite (set_level_eq (Drive (sp_clock sp) (negb (sp_edge sp)))). cbn [d_level].
    assert (Bool.eqb (sp_edge sp) (sp_edge sp) && negb (Bool.eqb (negb (sp_edge sp)) (sp_edge sp)) = true) as -> by (by destruct (sp_edge sp)).
    rewrite (kept_selected st), Hsel; [|intros p H1 H2; rewrite !set_level_ne; done]. cbn [andb app].
    by rewrite (set_level_eq (Drive (sp_data sp) b)).
  - intros p H1 H2. rewrite Hr by done. by apply Hk.
Qed.

(** The loop that sends the bits of a byte, most significant first. *)
Lemma observe_clock_bytes vs st : selected sp st = true ->
  observe sp st (vs ≫= fun v => byte_bits v ≫= clock_bit sp) = seen_bytes vs /\
  kept st (run_pins (vs ≫= fun v => byte_bits v ≫= clock_bit sp) st).
Proof.
  intros Hsel. replace (vs ≫= fun v => byte_bits v ≫= clock_bit sp) with ((vs ≫= byte_bits) ≫= clock_bit sp).
  - by apply observe_clock_bits.
  - induction vs as [|v vs IH]; [done|]. by rewrite !bind_cons, bind_app, IH.
Qed.
End ClockOut.

(** Testing and shifting out the top bit of a byte. *)
Lemma land_128 v : Z.land v 128 = if Z.testbit v 7 then 128 else 0.
Proof.
  apply Z.bits_inj'. intros n Hn. rewrite Z.land_spec. change 128 with (2 ^ 7). rewrite Z.pow2_bits_eqb by lia.
  destruct (Z.eqb_spec 7 n) as [<-|Hne]; destruct (Z.testbit v 7) eqn:E;
    rewrite ?Z.pow2_bits_eqb, ?Z.bits_0, ?andb_true_r, ?andb_false_r by lia; try done.
  by rewrite (proj2 (Z.eqb_neq _ _)).
Qed.
Lemma top_bit_eq v : (128 =? Z.land v 128) = Z.testbit v 7.
Proof. rewrite land_128. by destruct (Z.testbit v 7). Qed.
Lemma top_bit_nonzero v : negb (Z.land v 128 =? 0) = Z.testbit v 7.
Proof. rewrite land_128. by destruct (Z.testbit v 7). Qed.
Lemma shl_bit v i : 1 <= i < 8 -> Z.testbit (u8 (Z.shiftl v 1)) i = Z.testbit v (i - 1).
Proof. intros Hi. unfold u8. change 256 with (2 ^ 8). rewrite Z.mod_pow2_bits_low, Z.shiftl_spec by lia. done. Qed.

(** A loop that sends the top bit with [f] and shifts left, eight times. *)
Fixpoint shift_loop (f : bool -> list drive) (n : nat) (v : Z) : list drive :=
  match n with O => [] | S n => f (Z.testbit v 7) ++ shift_loop f n (u8 (Z.shiftl v 1)) end.
Lemma shift_loop_bits f v : shift_loop f 8 v = byte_bits v ≫= f.
Proof. unfold byte_bits. cbn [shift_loop msb_bits]. rewrite !bind_cons. rewrite !shl_bit by lia. done. Qed.

(** ** Words *)

(** The bytes of a word, most significant first. *)
Definition word_bytes (v : Z) : list Z := [u8 (Z.shiftr v 24); u8 (Z.shiftr v 16); u8 (Z.shiftr v 8); u8 v].

(** The value of bytes, most significant first. *)
Definition bytes_value (l : list Z) : Z := foldl (fun a b => 256 * a + b) 0 l.

Lemma word_bytes_value v : is_u32 v -> bytes_value (word_bytes v) = v.
Proof.
  intros Hv. unfold bytes_value, word_bytes. cbn [foldl]. rewrite !Z.shiftr_div_pow2 by lia.
  change (2 ^ 24) with 16777216. change (2 ^ 16) with 65536. change (2 ^ 8) with 256. word.
Qed.
Lemma word_bytes_u8 v : Forall is_u8 (word_bytes v).
Proof. repeat constructor; apply u8_range. Qed.
