(* ===== verification/Cfloat.v ===== *)
(** * Floating point

    The double and float arithmetic of the board drivers, by the executable
    binary64 and binary32 operations of the Standard Library (round to nearest,
    ties to even), and conversions to unsigned integers. A conversion of a value
    that does not fit is undefined in C and has no result here. *)

From Stdlib Require Import SpecFloat.
From S2P Require Import Prelude.

(** ** Operations *)

Definition double_of (n : Z) : spec_float := binary_normalize 53 1024 n 0 false.
Definition double_mul := SFmul 53 1024.
Definition double_div := SFdiv 53 1024.
Definition double_add := SFadd 53 1024.
Definition float_of (n : Z) : spec_float := binary_normalize 24 128 n 0 false.
Definition float_mul := SFmul 24 128.
Definition float_div := SFdiv 24 128.

(** The decimal literal [n / 10^k]. *)
Definition double_lit (n k : Z) : spec_float := double_div (double_of n) (double_of (10 ^ k)).

(** Truncation towards zero. *)
Definition sf_trunc (x : spec_float) : option Z :=
  match x with
  | S754_zero _ => Some 0
  | S754_finite s m e =>
      let v := if 0 <=? e then Zpos m * 2 ^ e else Zpos m / 2 ^ (- e) in
      Some (if s then - v else v)
  | _ => None
  end.
Definition to_u32 (x : spec_float) : option Z :=
  v ← sf_trunc x; if (0 <=? v) && (v <? 4294967296) then Some v else None.
Definition to_u16 (x : spec_float) : option Z :=
  v ← sf_trunc x; if (0 <=? v) && (v <? 65536) then Some v else None.

(** ** Rounding of a product of positive numbers *)

Lemma digits_log2 p : Zpos (digits2_pos p) = Z.log2 (Zpos p) + 1.
Proof.
  induction p as [p IH|p IH|]; cbn [digits2_pos]; [| |done].
  - rewrite Pos2Z.inj_succ, IH. change (Zpos p~1) with (2 * Zpos p + 1). rewrite Z.log2_succ_double by lia. lia.
  - rewrite Pos2Z.inj_succ, IH. change (Zpos p~0) with (2 * Zpos p). rewrite Z.log2_double by lia. lia.
Qed.

Lemma shr_1_m r : 0 <= shr_m r -> shr_m (shr_1 r) = shr_m r / 2.
Proof. destruct r as [m r s]. simpl. destruct m as [|[p|p|]|p]; simpl; intros; try lia; dlia. Qed.

Lemma iter_shr p : forall r, 0 <= shr_m r -> shr_m (SpecFloat.iter_pos shr_1 p r) = shr_m r / 2 ^ Zpos p.
Proof.
  induction p as [p IH|p IH|]; intros r Hr; cbn [SpecFloat.iter_pos]; [| |by rewrite shr_1_m].
  - assert (0 <= shr_m (shr_1 r)) as H1 by (rewrite shr_1_m by done; apply Z.div_pos; lia).
    assert (0 <= shr_m (SpecFloat.iter_pos shr_1 p (shr_1 r))) as H2 by (rewrite IH by done; apply Z.div_pos; lia).
    rewrite !IH, shr_1_m by done. rewrite !Z.div_div by lia. f_equal.
    replace (Zpos p~1) with (Zpos p + Zpos p + 1) by lia.
    rewrite !Z.pow_add_r by lia. lia.
  - assert (0 <= shr_m (SpecFloat.iter_pos shr_1 p r)) as H2 by (rewrite IH by done; apply Z.div_pos; lia).
    rewrite !IH by done. rewrite !Z.div_div by lia. f_equal. replace (Zpos p~0) with (Zpos p + Zpos p) by lia.
    by rewrite Z.pow_add_r by lia.
Qed.

(** Shifting a mantissa of [d] bits to [prec] bits. *)
Lemma shr_fexp_spec prec emax m e s :
  0 < m -> Z.log2 m + 1 - prec = s -> 0 < s -> emin prec emax <= e ->
  exists r, shr_fexp prec emax m e loc_Exact = (r, e + s) /\ shr_m r = m / 2 ^ s.
Proof.
  intros Hm Hs Hs0 He. unfold shr_fexp. destruct m as [|p|p]; try lia. cbn [Zdigits2]. rewrite digits_log2.
  assert (fexp prec emax (Z.log2 (Zpos p) + 1 + e) - e = s) as ->.
  { unfold fexp. rewrite Z.max_l by lia. lia. }
  unfold shr. destruct s as [|q|q]; try lia. eexists. split; [done|]. by rewrite iter_shr.
Qed.

Lemma shr_fexp_exact prec emax m e :
  0 < m -> Z.log2 m + 1 <= prec -> fexp prec emax (Z.log2 m + 1 + e) <= e ->
  shr_fexp prec emax m e loc_Exact = (Build_shr_record m false false, e).
Proof.
  intros Hm Hl He. unfold shr_fexp. destruct m as [|p|p]; try lia. cbn [Zdigits2]. rewrite digits_log2.
  unfold shr. cbn [shr_record_of_loc]. destruct (fexp _ _ _ - e) eqn:E; [done|lia|done].
Qed.

Lemma rne_range m l : 0 <= m -> m <= round_nearest_even m l <= m + 1.
Proof. intros Hm. destruct l as [|[| |]]; simpl; try lia. destruct (Z.even m); lia. Qed.

(** A product of [53 + s] bits, [0 < s], is rounded to one of its neighbours:
    [v = q * 2^(e + s)] with [q] the quotient by [2^s] or the next integer. *)
Lemma round_product p e s :
  Z.log2 (Zpos p) + 1 - 53 = s -> 0 < s -> -1000 <= e -> e + s <= 900 ->
  exists m e', binary_round_aux 53 1024 false (Zpos p) e loc_Exact = S754_finite false m e' /\
    exists q, Zpos p / 2 ^ s <= q <= Zpos p / 2 ^ s + 1 /\ e + s <= e' <= e + s + 1 /\ Zpos m * 2 ^ (e' - (e + s)) = q.
Proof.
  intros Hs Hs0 He Hes. unfold binary_round_aux. change (emin 53 1024) with (-1074) in *.
  destruct (shr_fexp_spec 53 1024 (Zpos p) e s) as (r & -> & Hr); [lia|lia|lia|unfold emin; lia|].
  pose proof (Z.log2_spec (Zpos p) ltac:(lia)) as [Hl1 Hl2].
  assert (2 ^ 52 <= Zpos p / 2 ^ s < 2 ^ 53) as Hq.
  { split.
    - apply Z.div_le_lower_bound; [lia|]. rewrite <-Z.pow_add_r by lia. replace (s + 52) with (Z.log2 (Zpos p)) by lia. done.
    - apply Z.div_lt_upper_bound; [lia|]. rewrite <-Z.pow_add_r by lia. replace (s + 53) with (Z.succ (Z.log2 (Zpos p))) by lia. done. }
  rewrite Hr. pose proof (rne_range (Zpos p / 2 ^ s) (loc_of_shr_record r) ltac:(lia)) as Hrn.
  set (q := round_nearest_even _ _) in *. destruct (Z.eq_dec q (2 ^ 53)) as [Eq|Nq].
  - destruct (shr_fexp_spec 53 1024 q (e + s) 1) as (r2 & -> & Hr2); [lia|by rewrite Eq|lia|unfold emin; lia|].
    rewrite Hr2, Eq. change (2 ^ 53 / 2 ^ 1) with (Zpos 4503599627370496). rewrite (proj2 (Z.leb_le _ _)) by lia.
    do 2 eexists. split; [done|]. exists (2 ^ 53). rewrite <-Eq at 1. splits; try lia; rewrite ?Eq; try lia.
    replace (e + s + 1 - (e + s)) with 1 by lia. done.
  - assert (2 ^ 52 <= q < 2 ^ 53) as Hq2 by lia.
    assert (Z.log2 q = 52) as El by (apply Z.log2_unique; [lia|]; change (Z.succ 52) with 53; lia).
    rewrite shr_fexp_exact; [|lia|lia|unfold fexp, emin; lia]. simpl.
    destruct q as [|m|m] eqn:Eq2; try lia. rewrite (proj2 (Z.leb_le _ _)) by lia.
    do 2 eexists. split; [done|]. exists (Zpos m). splits; try lia. rewrite Z.sub_diag. lia.
Qed.

(** Integers below [2^53] are exact. *)
Lemma shl_pos m d : Zpos (Pos.iter xO m d) = Zpos m * 2 ^ Zpos d.
Proof.
  induction d as [|d IH] using Pos.peano_ind; [simpl; lia|]. rewrite Pos.iter_succ.
  change (Zpos (Pos.iter xO m d)~0) with (2 * Zpos (Pos.iter xO m d)). rewrite IH, Pos2Z.inj_succ, Z.pow_succ_r by lia. lia.
Qed.

Lemma double_of_exact n : 0 < n < 2 ^ 53 ->
  exists m e, double_of n = S754_finite false m e /\ e <= 0 /\ -53 < e /\ Zpos m = n * 2 ^ (- e) /\ 2 ^ 52 <= Zpos m < 2 ^ 53.
Proof.
  intros Hn. unfold double_of. destruct n as [|p|p]; try lia. cbn [binary_normalize]. unfold binary_round.
  rewrite digits_log2, Z.add_0_r. set (L := Z.log2 (Zpos p)).
  pose proof (Z.log2_spec (Zpos p) ltac:(lia)) as [Hl1 Hl2]. fold L in Hl1, Hl2.
  assert (0 <= L < 53) as HL. { split; [apply Z.log2_nonneg|]. apply (Z.pow_lt_mono_r_iff 2); lia. }
  unfold fexp, emin. rewrite Z.max_l by lia. unfold shl_align. rewrite Z.sub_0_r.
  assert (exists m, (match L + 1 - 53 with Zneg d => (Pos.iter xO p d, L + 1 - 53) | _ => (p, 0) end) = (m, L + 1 - 53) /\
    Zpos m = Zpos p * 2 ^ (- (L + 1 - 53))) as (m & -> & Em).
  { destruct (L + 1 - 53) as [|d|d] eqn:E; try lia.
    - exists p. split; [done|]. rewrite Z.mul_1_r. done.
    - eexists. split; [done|]. apply shl_pos. }
  assert (2 ^ 52 <= Zpos m < 2 ^ 53) as Hm.
  { rewrite Em. replace (2 ^ 52) with (2 ^ L * 2 ^ (- (L + 1 - 53))) by (rewrite <-Z.pow_add_r by lia; f_equal; lia).
    replace (2 ^ 53) with (2 ^ (Z.succ L) * 2 ^ (- (L + 1 - 53))) by (rewrite <-Z.pow_add_r by lia; f_equal; lia).
    split; [apply Z.mul_le_mono_nonneg_r|apply Z.mul_lt_mono_pos_r]; lia. }
  assert (Z.log2 (Zpos m) = 52) as El by (apply Z.log2_unique; [lia|]; change (Z.succ 52) with 53; lia).
  exists m, (L + 1 - 53). unfold binary_round_aux.
  rewrite shr_fexp_exact; [|lia|lia|unfold fexp, emin; lia]. simpl.
  rewrite shr_fexp_exact; [|lia|lia|unfold fexp, emin; lia]. simpl.
  rewrite (proj2 (Z.leb_le _ _)) by lia. splits; try done; lia.
Qed.

(** Truncating the product of an integer and a constant [k * 2^-w]. *)
Lemma mul_trunc n k w :
  0 < n < 2 ^ 53 -> 2 ^ 52 <= Zpos k < 2 ^ 53 -> 21 <= w <= 900 -> n * Zpos k < 2 ^ (32 + w) ->
  exists t, sf_trunc (double_mul (double_of n) (S754_finite false k (- w))) = Some t /\
    0 <= t /\ t * 2 ^ w <= n * Zpos k + 2 ^ (w - 21) /\ n * Zpos k - 2 ^ (w - 21) < (t + 1) * 2 ^ w.
Proof.
  intros Hn Hk Hw Hlt. destruct (double_of_exact n Hn) as (m1 & e1 & -> & He1 & He1' & Em1 & Hm1).
  unfold double_mul. cbn [SFmul xorb]. set (p := (m1 * k)%positive). set (e := e1 + - w). set (s := Z.log2 (Zpos p) + 1 - 53).
  assert (Zpos p = n * Zpos k * 2 ^ (- e1)) as Ep by (unfold p; rewrite Pos2Z.inj_mul, Em1; lia).
  pose proof (Z.log2_spec (Zpos p) ltac:(lia)) as [Hl1 Hl2].
  assert (104 <= Z.log2 (Zpos p) < 106) as HL.
  { split; [apply (Z.log2_le_pow2 (Zpos p) 104); [lia|]|apply (Z.log2_lt_pow2 (Zpos p) 106); [lia|]];
      unfold p; rewrite Pos2Z.inj_mul; change (2 ^ 104) with (2 ^ 52 * 2 ^ 52); change (2 ^ 106) with (2 ^ 53 * 2 ^ 53);
      [apply Z.mul_le_mono_nonneg|apply Z.mul_lt_mono_nonneg]; lia. }
  assert (Z.log2 (Zpos p) < 32 + w - e1) as HL2.
  { apply Z.log2_lt_pow2; [lia|]. replace (2 ^ (32 + w - e1)) with (2 ^ (32 + w) * 2 ^ (- e1)) by (rewrite <-Z.pow_add_r by lia; f_equal; lia).
    rewrite Ep. apply Z.mul_lt_mono_pos_r; [|done]. apply Z.pow_pos_nonneg; lia. }
  destruct (round_product p e s) as (m & e' & -> & q & Hq & He' & Hm); try lia.
  cbn [sf_trunc]. rewrite (proj2 (Z.leb_gt _ _)) by lia.
  set (E := e + s) in *. assert (E <= -21) as HE by lia.
  assert (Zpos m / 2 ^ (- e') = q / 2 ^ (- E)) as Et.
  { rewrite <-Hm. replace (2 ^ (- E)) with (2 ^ (- e') * 2 ^ (e' - E)) by (rewrite <-Z.pow_add_r by lia; f_equal; lia).
    rewrite Z.div_mul_cancel_r; [done|apply Z.pow_nonzero; lia|apply Z.pow_nonzero; lia]. }
  rewrite Et. set (t := q / 2 ^ (- E)). exists t. split; [done|].
  assert (0 < 2 ^ s /\ 0 < 2 ^ (- E) /\ 0 < 2 ^ (- e1) /\ 0 < 2 ^ w) as (Ps & PE & P1 & Pw)
    by (splits; apply Z.pow_pos_nonneg; lia).
  pose proof (Z.mul_div_le (Zpos p) (2 ^ s) Ps) as Hd1. pose proof (Z.mul_succ_div_gt (Zpos p) (2 ^ s) Ps) as Hd2.
  pose proof (Z.mul_div_le q (2 ^ (- E)) PE) as Ht1. pose proof (Z.mul_succ_div_gt q (2 ^ (- E)) PE) as Ht2. fold t in Ht1, Ht2.
  assert (2 ^ s * 2 ^ (- E) = 2 ^ w * 2 ^ (- e1)) as Ew by (rewrite <-!Z.pow_add_r by lia; f_equal; lia).
  assert (2 ^ s <= 2 ^ (w - 21) * 2 ^ (- e1)) as Hs by (rewrite <-Z.pow_add_r by lia; apply Z.pow_le_mono_r; lia).
  assert (0 <= Zpos p / 2 ^ s) as Hp0 by (apply Z.div_pos; lia).
  split; [unfold t; apply Z.div_pos; lia|]. split.
  - apply (Z.mul_le_mono_pos_r _ _ (2 ^ (- e1)) P1). rewrite Z.mul_add_distr_r, <-Ep. nia.
  - apply (Z.mul_lt_mono_pos_r (2 ^ (- e1)) _ _ P1). rewrite Z.mul_sub_distr_r, <-Ep. nia.
Qed.

Lemma double_mul_comm x y : double_mul x y = double_mul y x.
Proof.
  unfold double_mul. destruct x as [sx|sx| |sx mx ex], y as [sy|sy| |sy my ey]; simpl; try done; rewrite (xorb_comm sx sy); try done.
  by rewrite Pos.mul_comm, Z.add_comm.
Qed.
