(* ===== verification/Ad9959.v ===== *)
(** * The AD9959 synthesizer (board/ad9959/board_ad9959.c)

    Four output channels behind one serial port on five pins of GPIOF. A call is
    the list of pin writes it makes. *)

From Stdlib Require Import SpecFloat.
From S2P Require Import Prelude Wire Cfloat.

(** ** Pins and registers *)

Definition AD9959_RST : pin := (GPIOF, 6).
Definition AD9959_UPDATE : pin := (GPIOF, 7).
Definition AD9959_CS : pin := (GPIOF, 8).
Definition AD9959_SCK : pin := (GPIOF, 9).
Definition AD9959_SDIO : pin := (GPIOF, 10).

Definition CSR_ADD : Z := 0.
Definition FR1_ADD : Z := 1.
Definition CFTW0_ADD : Z := 4.
Definition CPOW0_ADD : Z := 5.
Definition ACR_ADD : Z := 6.

Definition CSR_DATA (ch : Z) : list Z := [Z.shiftl 16 ch].
Definition FR1_DATA : list Z := [208; 0; 0].
Definition SinFre : list Z := [10000000; 10100000; 10200000; 10300000].
Definition SinAmp : list Z := [1023; 1023; 1023; 1023].
Definition SinPhr : list Z := [0; 0; 0; 0].

(** ** Operations *)

(** [HAL_GPIO_WritePin] of the five pins, then the output mode. *)
Definition ad9959_pins_init : list drive := low <$> [AD9959_RST; AD9959_UPDATE; AD9959_CS; AD9959_SCK; AD9959_SDIO].
Definition _pins_state_init : list drive := [high AD9959_CS; low AD9959_SCK; low AD9959_UPDATE; low AD9959_SDIO].
Definition _init_reset : list drive := [low AD9959_RST; high AD9959_RST; low AD9959_RST].
Definition _io_updata : list drive := [low AD9959_UPDATE; high AD9959_UPDATE; low AD9959_UPDATE].

(** The loop over the bits of a byte. *)
Fixpoint write_bits (n : nat) (v : Z) : list drive :=
  match n with
  | O => []
  | S n =>
      [low AD9959_SCK; if 128 =? Z.land v 128 then high AD9959_SDIO else low AD9959_SDIO; high AD9959_SCK] ++
      write_bits n (u8 (Z.shiftl v 1))
  end.

(** The loop over the data; [None]: a read outside of [RegisterData]. *)
Fixpoint write_bytes (number : nat) (data : list Z) : option (list drive) :=
  match number with
  | O => Some []
  | S number =>
      match data with
      | [] => None
      | v :: data => r ← write_bytes number data; Some (write_bits 8 v ++ [low AD9959_SCK] ++ r)
      end
  end.

Definition ad9959_write_data (addr number : Z) (data : list Z) (temp : Z) : option (list drive) :=
  bytes ← write_bytes (Z.to_nat number) data;
  Some ([low AD9959_SCK; low AD9959_CS] ++ write_bits 8 addr ++ [low AD9959_SCK] ++ bytes ++
        (if temp =? 1 then _io_updata else []) ++ [high AD9959_CS]).

(** [(uint32_t)Freq * 8.589934592]. *)
Definition ad9959_ftw (freq : Z) : option Z := to_u32 (double_mul (double_of freq) (double_lit 8589934592 9)).

(** Selecting a channel and writing one of its registers. *)
Definition write_channel (ch addr number : Z) (data : list Z) : option (list drive) :=
  if (0 <=? ch) && (ch <=? 3) then
    t1 ← ad9959_write_data CSR_ADD 1 (CSR_DATA ch) 0;
    t2 ← ad9959_write_data addr number data 1;
    Some (t1 ++ t2)
  else Some [].

Definition ad9959_write_freq (ch freq : Z) : option (list drive) :=
  temp ← ad9959_ftw freq; write_channel ch CFTW0_ADD 4 (word_bytes temp).

Definition ad9959_write_amp (ch ampli : Z) : option (list drive) :=
  let a := Z.lor ampli 4096 in
  write_channel ch ACR_ADD 3 [0; u8 (Z.shiftr a 8); u8 a].

(** [(uint16_t)((float)Phase / 360 * 16384)]. *)
Definition phase_word (phase : Z) : option Z := to_u16 (float_mul (float_div (float_of phase) (float_of 360)) (float_of 16384)).

Definition ad9959_write_phase (ch phase : Z) : option (list drive) :=
  p ← phase_word phase; write_channel ch CPOW0_ADD 2 [u8 (Z.shiftr p 8); u8 p].

Definition ad9959_init : option (list drive) :=
  w ← ad9959_write_data FR1_ADD 3 FR1_DATA 1;
  f3 ← SinFre !! 3%nat; f0 ← SinFre !! 0%nat;
  p3 ← SinPhr !! 3%nat; p0 ← SinPhr !! 0%nat;
  a3 ← SinAmp !! 3%nat; a0 ← SinAmp !! 0%nat;
  tf3 ← ad9959_write_freq 3 f3; tf0 ← ad9959_write_freq 0 f0;
  tp3 ← ad9959_write_phase 3 p3; tp0 ← ad9959_write_phase 0 p0;
  ta3 ← ad9959_write_amp 3 a3; ta0 ← ad9959_write_amp 0 a0;
  Some (ad9959_pins_init ++ _pins_state_init ++ _init_reset ++ w ++ tf3 ++ tf0 ++ tp3 ++ tp0 ++ ta3 ++ ta0).

(** The shell command: [kind], the values of [atoi(argv[2])] and [atoi(argv[3])],
    converted to the parameter types. *)
Definition ad9959_control_cmd (argc : Z) (kind : string) (ch data : Z) : option (list drive) :=
  if 4 <=? argc then
    if String.eqb kind "freq" then ad9959_write_freq (u8 ch) (u32 data)
    else if String.eqb kind "amp" then ad9959_write_amp (u8 ch) (u16 data)
    else if String.eqb kind "phase" then ad9959_write_phase (u8 ch) (u16 data)
    else Some []
  else Some [].

(** ** What the chip receives *)

Definition ad9959_port : serial_port := SerialPort (Some AD9959_CS) AD9959_SCK AD9959_SDIO true (Some AD9959_UPDATE).

Lemma ad9959_port_wf : sp_wf ad9959_port.
Proof. unfold sp_wf. apply (bool_decide_unpack _). vm_compute. exact I. Qed.

Lemma write_bits_clock n v :
  write_bits n v = shift_loop (clock_bit ad9959_port) n v.
Proof.
  revert v. induction n as [|n IH]; intros v; [done|]. cbn [write_bits shift_loop]. rewrite top_bit_eq, IH.
  destruct (Z.testbit v 7); done.
Qed.

Notation kept := (kept ad9959_port).
Notation sees := (observe ad9959_port).

Lemma kept_trans st1 st2 st3 : kept st1 st2 -> kept st2 st3 -> kept st1 st3.
Proof. intros H1 H2 p Hc Hd. by rewrite H2, H1. Qed.

Lemma sck_low st : sees st [low AD9959_SCK] = [] /\ kept st (run_pins [low AD9959_SCK] st).
Proof.
  split.
  - cbn [observe]. rewrite observe1_data; [|apply ad9959_port_wf|by left].
    done.
  - intros p Hc _. by apply set_level_ne.
Qed.

Lemma write_byte_seen v st : selected ad9959_port st = true ->
  sees st (write_bits 8 v ++ [low AD9959_SCK]) = seen_bytes [v] /\ kept st (run_pins (write_bits 8 v ++ [low AD9959_SCK]) st).
Proof.
  intros Hsel. rewrite write_bits_clock, shift_loop_bits, observe_app, run_pins_app.
  destruct (observe_clock_bits ad9959_port ad9959_port_wf (byte_bits v) st Hsel) as [Ho Hk].
  destruct (sck_low (run_pins (byte_bits v ≫= clock_bit ad9959_port) st)) as [-> Hk2].
  rewrite Ho, app_nil_r. split; [done|by eapply kept_trans].
Qed.

Lemma kept_sel st st' : kept st st' -> selected ad9959_port st' = selected ad9959_port st.
Proof. apply kept_selected, ad9959_port_wf. Qed.

Lemma write_bytes_seen data : forall st, selected ad9959_port st = true ->
  exists tr, write_bytes (length data) data = Some tr /\ sees st tr = seen_bytes data /\ kept st (run_pins tr st).
Proof.
  induction data as [|v data IH]; intros st Hsel; [by exists []|].
  destruct (write_byte_seen v st Hsel) as [Ho Hk]. set (tr1 := write_bits 8 v ++ [low AD9959_SCK]) in *.
  destruct (IH (run_pins tr1 st)) as (tr & Htr & Ho2 & Hk2); [by rewrite (kept_sel _ _ Hk)|].
  exists (tr1 ++ tr). cbn [write_bytes length]. rewrite Htr. cbn [mbind option_bind]. split; [by unfold tr1; rewrite <-app_assoc|].
  rewrite observe_app, run_pins_app, Ho, Ho2. split; [by rewrite <-(seen_bytes_app [v])|by eapply kept_trans].
Qed.

(** A transfer: address and data, the update pulse, the end of the selection. *)
Lemma write_data_seen addr data temp st :
  exists tr, ad9959_write_data addr (Z.of_nat (length data)) data temp = Some tr /\
    sees st tr = seen_bytes (addr :: data) ++ (if temp =? 1 then [SUpdate] else []) ++ [SStop].
Proof.
  unfold ad9959_write_data. rewrite Nat2Z.id.
  set (st1 := run_pins [low AD9959_SCK; low AD9959_CS] st).
  assert (sees st [low AD9959_SCK; low AD9959_CS] = []) as H1.
  { done. }
  assert (selected ad9959_port st1 = true) as Hs1 by done.
  destruct (write_byte_seen addr st1 Hs1) as [Ho2 Hk2]. set (tr2 := write_bits 8 addr ++ [low AD9959_SCK]) in *.
  destruct (write_bytes_seen data (run_pins tr2 st1)) as (tr3 & -> & Ho3 & Hk3); [by rewrite (kept_sel _ _ Hk2)|].
  cbn [mbind option_bind]. eexists. split; [done|].
  set (st3 := run_pins tr3 (run_pins tr2 st1)) in *.
  assert (selected ad9959_port st3 = true) as Hs3 by (rewrite (kept_sel _ _ Hk3), (kept_sel _ _ Hk2); done).
  rewrite observe_app, H1, app_nil_l. fold st1. rewrite (app_assoc (write_bits 8 addr)). fold tr2.
  rewrite observe_app, Ho2, observe_app, Ho3. fold st3.
  change (addr :: data) with ([addr] ++ data). rewrite seen_bytes_app, <-app_assoc. do 2 f_equal.
  unfold selected in Hs3. simpl in Hs3. apply negb_true_iff in Hs3.
  destruct (temp =? 1); unfold _io_updata, observe, observe1, rises, set_level; simpl; rewrite ?Hs3, ?andb_false_r; simpl; done.
Qed.

(** C24: Round trip over the wire. Whatever the pins were before and whatever other
    code does to other pins meanwhile, the chip receives exactly the address and
    the data of [ad9959_write_data], most significant bits first, followed by the
    transfer to the active registers when it was asked for. *)
Theorem ad9959_write_data_received addr data temp st st' other r :
  is_u8 addr -> Forall is_u8 data -> agree ad9959_port st st' ->
  Forall (fun d => d_pin d ∉ sp_pins ad9959_port) other ->
  exists tr, ad9959_write_data addr (Z.of_nat (length data)) data temp = Some tr /\
    (interleave tr other r ->
     receive [] (sees st' r) = RBytes (addr :: data) :: (if temp =? 1 then [RUpdate] else [])).
Proof.
  intros Ha Hd Hst Ho. destruct (write_data_seen addr data temp st) as (tr & Htr & Hs).
  exists tr. split; [done|]. intros Hi. rewrite <-(observe_interleave _ _ _ _ Hi Ho _ _ Hst), Hs.
  assert (Forall is_u8 (addr :: data)) as Hall by (by constructor).
  destruct (temp =? 1); cbn [app]; [rewrite receive_update|rewrite receive_stop]; done.
Qed.

(** ** Channels *)

(** The bit of the channel select register that enables a channel. *)
Lemma csr_bit ch : 0 <= ch <= 3 -> is_u8 (Z.shiftl 16 ch).
Proof. intros H. assert (ch = 0 \/ ch = 1 \/ ch = 2 \/ ch = 3) as [->|[->|[->| ->]]] by lia; by vm_compute. Qed.

Lemma write_channel_seen ch addr data st :
  0 <= ch <= 3 -> is_u8 addr -> Forall is_u8 data ->
  exists tr, write_channel ch addr (Z.of_nat (length data)) data = Some tr /\
    receive [] (sees st tr) = [RBytes [CSR_ADD; Z.shiftl 16 ch]; RBytes (addr :: data); RUpdate].
Proof.
  intros Hch Ha Hd. unfold write_channel. rewrite (proj2 (Z.leb_le 0 ch)), (proj2 (Z.leb_le ch 3)) by lia. cbn [andb].
  destruct (write_data_seen CSR_ADD (CSR_DATA ch) 0 st) as (t1 & E1 & H1). change (Z.of_nat (length (CSR_DATA ch))) with 1 in E1.
  rewrite E1. cbn [mbind option_bind].
  destruct (write_data_seen addr data 1 (run_pins t1 st)) as (t2 & -> & H2). cbn [mbind option_bind].
  exists (t1 ++ t2). split; [done|]. rewrite observe_app, H1, H2, <-app_assoc. cbn [Z.eqb Pos.eqb app].
  rewrite receive_stop; [|constructor; [done|constructor; [by apply csr_bit|done]]|done].
  rewrite receive_update; [done|by constructor|done].
Qed.

(** ** Tuning words *)

Lemma ftw_factor : double_lit 8589934592 9 = S754_finite false 4835703278458517 (-49).
Proof. by vm_compute. Qed.

(** The word is within one step of [freq * 2^32 / 500 MHz]. *)
Lemma ad9959_ftw_accurate freq : 0 <= freq < 500000000 ->
  exists t, ad9959_ftw freq = Some t /\ is_u32 t /\ freq * 4294967296 - 500100000 <= t * 500000000 <= freq * 4294967296 + 100000.
Proof.
  intros Hf. unfold ad9959_ftw, to_u32. rewrite ftw_factor. destruct (Z.eq_dec freq 0) as [->|Hne].
  - exists 0. by vm_compute.
  - destruct (mul_trunc freq 4835703278458517 49) as (t & Ht & H0 & Hhi & Hlo); try lia.
    change (- (49)) with (-49) in Ht. rewrite Ht. cbn [mbind option_bind].
    change (2 ^ (49 - 21)) with 268435456 in *. change (2 ^ 49) with 562949953421312 in *.
    rewrite (proj2 (Z.leb_le 0 t)), (proj2 (Z.ltb_lt t 4294967296)) by lia. exists t. unfold is_u32. splits; try done; lia.
Qed.

(** C25: Setting a frequency below 500 MHz on a channel selects that channel, then
    writes its tuning word and transfers it; the word is less than 1.0002 steps of
    the 500 MHz / 2^32 resolution below the frequency asked for, and at most
    0.0002 above. *)
Theorem ad9959_write_freq_tunes ch freq st :
  0 <= ch <= 3 -> 0 <= freq < 500000000 ->
  exists tr w, ad9959_write_freq ch freq = Some tr /\ length w = 4%nat /\
    receive [] (sees st tr) = [RBytes [CSR_ADD; Z.shiftl 16 ch]; RBytes (CFTW0_ADD :: w); RUpdate] /\
    freq * 2 ^ 32 - 500100000 <= bytes_value w * 500000000 <= freq * 2 ^ 32 + 100000.
Proof.
  intros Hch Hf. destruct (ad9959_ftw_accurate freq Hf) as (t & Et & Ht & Hb). unfold ad9959_write_freq. rewrite Et. cbn [mbind option_bind].
  destruct (write_channel_seen ch CFTW0_ADD (word_bytes t) st Hch) as (tr & E & H); [done|apply word_bytes_u8|].
  exists tr, (word_bytes t). rewrite word_bytes_value by done. done.
Qed.

(** All phases below 360 degrees, rounded down to the 14-bit resolution. *)
Lemma phase_word_exact phase : 0 <= phase < 360 -> phase_word phase = Some (phase * 16384 / 360).
Proof.
  intros Hp.
  assert (forallb (fun n => bool_decide (phase_word (Z.of_nat n) = Some (Z.of_nat n * 16384 / 360))) (seq 0 360) = true) as H
    by (vm_compute; done).
  rewrite forallb_forall in H. specialize (H (Z.to_nat phase)). rewrite Z2Nat.id in H by lia.
  eapply bool_decide_eq_true_1. apply H. apply in_seq. lia.
Qed.

Lemma lor_4096 a : 0 <= a < 4096 -> Z.lor a 4096 = a + 4096.
Proof.
  intros Ha. symmetry. change 4096 with (2 ^ 12) in *. rewrite <-Z.lxor_lor, <-Z.add_nocarry_lxor; try done.
  all: apply Z.bits_inj'; intros n Hn; rewrite Z.land_spec, Z.bits_0, Z.pow2_bits_eqb by lia.
  all: destruct (Z.eqb_spec 12 n) as [<-|]; [|by rewrite andb_false_r].
  all: rewrite andb_true_r; destruct (Z.eq_dec a 0) as [->|]; [done|apply Z.bits_above_log2; [lia|]].
  all: apply Z.log2_lt_pow2; lia.
Qed.

(** Phase and amplitude. A phase in degrees is sent as the 14-bit word
    [phase * 2^14 / 360] rounded down; an amplitude of at most 1023 is sent in the
    low ten bits with the multiplier-enable bit 12. *)
Theorem ad9959_phase_amp_received ch phase ampli st :
  0 <= ch <= 3 -> 0 <= phase < 360 -> 0 <= ampli <= 1023 ->
  exists tp ta w, ad9959_write_phase ch phase = Some tp /\ ad9959_write_amp ch ampli = Some ta /\
    receive [] (sees st tp) = [RBytes [CSR_ADD; Z.shiftl 16 ch]; RBytes (CPOW0_ADD :: w); RUpdate] /\
    length w = 2%nat /\ bytes_value w = phase * 16384 / 360 /\
    receive [] (sees st ta) = [RBytes [CSR_ADD; Z.shiftl 16 ch]; RBytes [ACR_ADD; 0; 16 + ampli / 256; ampli mod 256]; RUpdate].
Proof.
  intros Hch Hp Ha. unfold ad9959_write_phase, ad9959_write_amp. rewrite phase_word_exact by done. cbn [mbind option_bind].
  set (p := phase * 16384 / 360). assert (0 <= p < 16384) as Hpr by (unfold p; dlia).
  destruct (write_channel_seen ch CPOW0_ADD [u8 (Z.shiftr p 8); u8 p] st Hch) as (tp & Ep & Hs); [done|repeat constructor; apply u8_range|].
  rewrite lor_4096 by lia.
  destruct (write_channel_seen ch ACR_ADD [0; u8 (Z.shiftr (ampli + 4096) 8); u8 (ampli + 4096)] st Hch) as (ta & Ea & Hsa);
    [done|repeat constructor; apply u8_range || done|].
  exists tp, ta, [u8 (Z.shiftr p 8); u8 p]. splits; try done.
  - unfold bytes_value. cbn [foldl]. rewrite Z.shiftr_div_pow2 by lia. change (2 ^ 8) with 256. clear -Hpr. word.
  - rewrite Hsa. rewrite Z.shiftr_div_pow2 by lia. change (2 ^ 8) with 256. repeat f_equal; clear -Ha; word.
Qed.

(** ** Concrete transfers *)

Definition all_low : levels := fun _ => false.

(** A write to the UPDATE pin of another chip in the middle. *)
Lemma ad9959_write_data_received_witness :
  exists tr, ad9959_write_data 6 3 [0; 19; 255] 1 = Some tr /\
    receive [] (sees all_low (take 20 tr ++ [high (GPIOG, 8)] ++ drop 20 tr)) = [RBytes [6; 0; 19; 255]; RUpdate].
Proof.
  destruct (ad9959_write_data_received 6 [0; 19; 255] 1 all_low all_low [high (GPIOG, 8)]
    (let tr := default [] (ad9959_write_data 6 3 [0; 19; 255] 1) in take 20 tr ++ [high (GPIOG, 8)] ++ drop 20 tr))
    as (tr & Htr & Hr); [done|by repeat constructor|done|apply (bool_decide_unpack _); vm_compute; exact I|].
  change (Z.of_nat (length [0; 19; 255])) with 3 in Htr. rewrite Htr in Hr. exists tr. split; [done|]. apply Hr.
  pose proof (interleave_insert (take 20 tr) (drop 20 tr) (high (GPIOG, 8))) as H. rewrite take_drop in H. exact H.
Defined.

Lemma ad9959_write_freq_tunes_witness :
  exists tr w, ad9959_write_freq 3 10300000 = Some tr /\ length w = 4%nat /\
    receive [] (sees all_low tr) = [RBytes [CSR_ADD; Z.shiftl 16 3]; RBytes (CFTW0_ADD :: w); RUpdate] /\
    10300000 * 2 ^ 32 - 500100000 <= bytes_value w * 500000000 <= 10300000 * 2 ^ 32 + 100000.
Proof. apply (ad9959_write_freq_tunes 3 10300000 all_low); lia. Defined.

Lemma ad9959_phase_amp_received_witness :
  exists tp ta w, ad9959_write_phase 1 90 = Some tp /\ ad9959_write_amp 1 1023 = Some ta /\
    receive [] (sees all_low tp) = [RBytes [CSR_ADD; Z.shiftl 16 1]; RBytes (CPOW0_ADD :: w); RUpdate] /\
    length w = 2%nat /\ bytes_value w = 90 * 16384 / 360 /\
    receive [] (sees all_low ta) = [RBytes [CSR_ADD; Z.shiftl 16 1]; RBytes [ACR_ADD; 0; 16 + 1023 / 256; 1023 mod 256]; RUpdate].
Proof. apply (ad9959_phase_amp_received 1 90 1023 all_low); lia. Defined.

(** Phases of 1440 degrees or more do not fit the 16-bit word. *)
Example phase_1440_undefined : phase_word 1440 = None.
Proof. by vm_compute. Qed.

(** The whole initialisation, as the chip receives it. *)
Example ad9959_init_received :
  exists tr, ad9959_init = Some tr /\
    receive [] (sees all_low tr) =
      [RBytes [1; 208; 0; 0]; RUpdate;
       RBytes [0; 128]; RBytes [4; 5; 70; 10; 166]; RUpdate; RBytes [0; 16]; RBytes [4; 5; 30; 184; 81]; RUpdate;
       RBytes [0; 128]; RBytes [5; 0; 0]; RUpdate; RBytes [0; 16]; RBytes [5; 0; 0]; RUpdate;
       RBytes [0; 128]; RBytes [6; 0; 19; 255]; RUpdate; RBytes [0; 16]; RBytes [6; 0; 19; 255]; RUpdate].
Proof. destruct ad9959_init as [tr|] eqn:E; [|by vm_compute in E]. exists tr. split; [done|]. vm_compute in E. injection E as <-. by vm_compute. Qed.
