(* ===== verification/Ad9954.v ===== *)
(** * The AD9954 synthesizer (board/board_ad9954.c)

    A call of the driver is the list of the bytes it sends, the update pulses and
    the pin writes it makes. In this configuration ([RTTHREAD_VERSION]) the names
    [AD9954_CS], [AD9954_PWR], [AD9954_IOSY] and [AD9954_SDO] all stand for one
    variable, [pass], and [AD9954_PS0], [AD9954_PS1] and [AD9954_OSK] for one pin. *)

From Stdlib Require Import SpecFloat.
From S2P Require Import Prelude Wire Cfloat.

(** ** Pins, registers, state *)

Definition AD9954_RES : pin := (GPIOG, 4).
Definition AD9954_SCLK : pin := (GPIOG, 5).
Definition AD9954_SDIO : pin := (GPIOG, 6).
Definition AD9954_P0 : pin := (GPIOG, 7).
Definition AD9954_UPDATE : pin := (GPIOG, 8).
Definition AD9954_PS0 : pin := AD9954_P0.
Definition AD9954_PS1 : pin := AD9954_P0.
Definition AD9954_OSK : pin := AD9954_P0.

Definition CFR1 : Z := 0.
Definition CFR2 : Z := 1.
Definition ASF : Z := 2.
Definition FTW0 : Z := 4.
Definition FTW1 : Z := 6.
Definition NLSCW : Z := 7.
Definition PLSCW : Z := 8.
Definition No_Dwell : Z := 128.

Inductive ScanMode := DownScan | UpScan | DoubleScan.
Definition scan_code (m : ScanMode) : Z := match m with DownScan => 0 | UpScan => 1 | DoubleScan => 2 end.

(** What a call does, in order: [Send b] is [AD9954_Send_Byte(b)], [Update] is
    [IO_Update()], [Pin d] a pin write, [CS v] an assignment to [pass]. *)
Inductive cmd := Send (b : Z) | Update | Pin (d : drive) | CS (v : Z).

(** ** The lines *)

(** The loop of [AD9954_Send_Byte]. *)
Fixpoint send_bits (n : nat) (dat : Z) : list drive :=
  match n with
  | O => []
  | S n =>
      [low AD9954_SCLK; if negb (Z.land dat 128 =? 0) then high AD9954_SDIO else low AD9954_SDIO; high AD9954_SCLK] ++
      send_bits n (u8 (Z.shiftl dat 1))
  end.
Definition AD9954_Send_Byte (dat : Z) : list drive := send_bits 8 dat ++ [low AD9954_SCLK].
Definition IO_Update : list drive := [low AD9954_UPDATE; high AD9954_UPDATE; low AD9954_UPDATE].

Definition drives (c : cmd) : list drive :=
  match c with
  | Send b => AD9954_Send_Byte b
  | Update => IO_Update
  | Pin d => [d]
  | CS _ => []
  end.
Definition run_cmds (cs : list cmd) : list drive := cs ≫= drives.

(** The loop of [AD9954_Read_Byte]: [dat |= pass; dat <<= 1]. *)
Fixpoint read_bits (n : nat) (pass dat : Z) : Z :=
  match n with O => dat | S n => read_bits n pass (u8 (Z.shiftl (u8 (Z.lor dat pass)) 1)) end.
Definition AD9954_Read_Byte (pass : Z) : Z := read_bits 8 pass 0.

(** A register read: [n] bytes after the address; the value and what it does. *)
Fixpoint read_value (n : nat) (pass ret : Z) : Z :=
  match n with O => ret | S n => read_value n pass (u32 (u32 (Z.shiftl ret 8) + AD9954_Read_Byte pass)) end.
Definition Read_Vau1 : list cmd * Z := ([CS 1; Send CFR1; CS 0], read_value 4 1 0).
Definition Read_Vau2 : list cmd * Z := ([CS 1; Send CFR2; CS 0], read_value 3 1 0).

(** ** Operations *)

Definition GPIO_AD9954_Init : list cmd := [CS 0; Pin (low AD9954_OSK); CS 0].

Definition AD9954_RESET : list cmd :=
  [CS 0; Pin (low AD9954_RES); Pin (high AD9954_RES); Pin (low AD9954_RES); CS 0; Pin (low AD9954_SCLK);
   Pin (low AD9954_PS0); Pin (low AD9954_PS1); Pin (low AD9954_UPDATE); CS 1].

Definition send_all (l : list Z) : list cmd := Send <$> l.
Definition send_word (w : Z) : list cmd := send_all (word_bytes w).

(** [fH_Num = 10.73741824]. *)
Definition fH_Num : spec_float := double_lit 1073741824 8.
Definition Get_FTW (f : spec_float) : option Z := to_u32 (double_mul fH_Num f).

Definition AD9954_Set_Freq (f : spec_float) : option (list cmd) :=
  date ← Get_FTW f; Some ([CS 0; Send FTW0] ++ send_word date ++ [Update; CS 1]).

Definition Write_ASF (factor : Z) : list cmd :=
  [CS 0; Send ASF; Send (u8 (Z.shiftr factor 8)); Send (u8 factor); CS 1; Update].

Definition PLL_MULTIPLIER : Z := 10.
(** [fs] is 400, the fastest case. *)
Definition AD9954_Init : option (list cmd) :=
  f ← AD9954_Set_Freq (double_of 10650000);
  Some (GPIO_AD9954_Init ++ AD9954_RESET ++ [CS 0] ++
        send_all [CFR2; 0; 0; Z.lor (Z.lor (Z.shiftl PLL_MULTIPLIER 3) 4) 3] ++ [Update] ++
        Write_ASF 4095 ++ f ++ [CS 1]).

(** A [float] used as a [double]. *)
Definition widen (x : spec_float) : spec_float :=
  match x with S754_finite s m e => binary_round 53 1024 s m e | _ => x end.

(** [date = 45.51 * phase; date = date << 2], for a phase that is a double. *)
Definition phase_offset (phase : spec_float) : option Z :=
  d ← to_u16 (double_mul (double_lit 4551 2) phase); Some (u16 (Z.shiftl d 2)).
Definition send_phase (d : Z) : list cmd := send_all [u8 (Z.shiftr d 8); u8 d; 0; 0].

(** Selecting a memory segment: register, first and last address. *)
Definition segment (p0 p1 : bool) (reg final start : Z) : list cmd :=
  [Pin (Drive AD9954_PS0 p0); Pin (Drive AD9954_PS1 p1)] ++ send_all [reg; 1; 0; final; start; 0] ++ [Update].

Definition DirectSwitchPSK (f phase1 phase2 phase3 phase4 : spec_float) : option (list cmd) :=
  freq ← AD9954_Set_Freq (widen f);
  d1 ← phase_offset (widen phase1); d2 ← phase_offset (widen phase2);
  d3 ← phase_offset (widen phase3); d4 ← phase_offset (widen phase4);
  Some ([CS 0; Pin (low AD9954_UPDATE)] ++ send_all [0; 0; 0; 0; 64] ++ send_all [1; 0; 0; 164] ++ freq ++
        segment false false 7 0 0 ++ [Send 11] ++ send_phase d1 ++
        segment true false 8 1 4 ++ [Send 11] ++ send_phase d2 ++
        segment false true 9 2 8 ++ [Send 11] ++ send_phase d3 ++
        segment true true 10 3 12 ++ [Send 11] ++ send_phase d4 ++
        send_all [0; 160; 0; 0; 64] ++ [CS 1; Update]).

Definition Generate_PSK (f : spec_float) (phase : list Z) : option (list cmd) :=
  freq ← AD9954_Set_Freq (widen f);
  ds ← mapM (fun i => p ← phase !! i; phase_offset (double_of p)) (seq 0 8);
  Some ([CS 0; Pin (low AD9954_UPDATE)] ++ send_all [0; 0; 0; 0; 64] ++ send_all [1; 0; 0; 164] ++ freq ++
        send_all [4; 0; 16; 0; 0] ++ [Update; Pin (low AD9954_PS0); Pin (low AD9954_PS1)] ++
        send_all [7; 0; 4; 7; 0; 128] ++ [Update; Send 11] ++ (ds ≫= send_phase) ++
        send_all [0; 192; 0; 0; 64] ++ [CS 1; Update]).

Definition Generate_FM (fre : list Z) : option (list cmd) :=
  ws ← mapM (fun i => f ← fre !! i; to_u32 (double_mul (double_lit 1073741 5) (double_of f))) (seq 0 32);
  Some ([CS 0; Pin (low AD9954_UPDATE)] ++ send_all [0; 0; 0; 0; 64] ++ send_all [1; 0; 0; 36] ++
        [Pin (low AD9954_PS0); Pin (low AD9954_PS1)] ++ send_all [7; 53; 12; 31; 0; 128] ++ [Update; Send 11] ++
        (ws ≫= send_word) ++ send_all [0; 128; 0; 0; 64] ++ [CS 1; Update]).

Definition AD9954_RAM_SIZE : nat := 1024.
Section Sine.
(** [sin] of the C library. *)
Context (sin : spec_float -> spec_float).

(** [GET_SIN_NUM(i)], [i * 2 * 3.1415926 / 1024.0]. *)
Definition GET_SIN_NUM (i : nat) : spec_float :=
  double_div (double_mul (double_of (Z.of_nat i * 2)) (double_lit 31415926 7)) (double_of 1024).

Definition sine_freq (f0 fp : Z) (i : nat) : spec_float :=
  double_add (double_of f0) (double_mul (double_of fp) (sin (GET_SIN_NUM i))).

Definition ad9954_change_freq_ram_config (f0 fp : Z) : option (list cmd) :=
  ws ← mapM (fun i => Get_FTW (sine_freq f0 fp i)) (seq 0 AD9954_RAM_SIZE);
  Some ([Pin (low AD9954_PS0); Pin (low AD9954_PS1); Pin (low AD9954_SCLK)] ++ send_all [0; 0; 0; 0; 0] ++ [Update] ++
        [Send 11] ++ (ws ≫= send_word) ++ send_all [0; 128; 0; 0; 0] ++ [Update]).

Definition fsk_f0_freq : Z := 10650000.
Definition fsk_fp_freq : Z := 50000.
Definition write_sine_freq_data_to_ram : option (list cmd) := ad9954_change_freq_ram_config fsk_f0_freq fsk_fp_freq.
End Sine.

(** [RAMP_SPEED_NUM(f)], [400 * 1000000.0 / 4.0 / f / 1024]. *)
Definition RAMP_SPEED_NUM (f : spec_float) : spec_float :=
  double_div (double_div (double_div (double_mul (double_of 400) (double_of 1000000)) (double_of 4)) f) (double_of 1024).

Definition ramp_cmds (temp : Z) : list cmd := send_all [7; u8 temp; u8 (Z.shiftr temp 8); 255; 3; 128] ++ [Update].

(** [argv]: the value of [atoi(argv[1])] when [argc > 1]. *)
Definition change_ramp_speed (argv : option Z) : option (list cmd) :=
  let ps := [Pin (low AD9954_PS0); Pin (low AD9954_PS1)] in
  match argv with
  | Some a =>
      let input_freq := u32 a in
      temp ← (if (97000 <? input_freq) || (input_freq <? 2) then Some 65535 else to_u16 (RAMP_SPEED_NUM (double_of input_freq)));
      Some (ps ++ ramp_cmds temp)
  | None => Some (ps ++ ramp_cmds 65535)
  end.

Definition ad9954_change_speed (input_freq : spec_float) : option (list cmd) :=
  temp ← (if SFltb (double_of 97000) input_freq || SFltb input_freq (double_lit 15 1) then Some 65535
          else to_u16 (RAMP_SPEED_NUM input_freq));
  Some (ramp_cmds temp).

Definition ASK_Init : list cmd :=
  [CS 0] ++ send_all [0; 2; 0; 32; 64] ++ send_all [5; 48; 0] ++ [CS 1; Update].
Definition AM_Init : list cmd := [CS 0] ++ send_all [0; 2; 0; 0; 64] ++ [CS 1; Update].

(** [Mode] is a scan mode, possibly with the [No_Dwell] bit. *)
Definition Linear_Sweep (MinFreq MaxFreq UpStepFreq : spec_float) (UpStepTime : Z) (DownStepFreq : spec_float)
  (DownStepTime Mode : Z) : option (list cmd) :=
  let Mode' := Z.land Mode 127 in
  wmin ← Get_FTW MinFreq; wmax ← Get_FTW MaxFreq;
  down ← (if negb (Mode' =? scan_code UpScan) then
            w ← Get_FTW DownStepFreq; Some ([Send NLSCW; Send DownStepTime] ++ send_word w ++ [Pin (low AD9954_PS0)])
          else Some []);
  up ← (if negb (Mode' =? scan_code DownScan) then
          w ← Get_FTW UpStepFreq; Some ([Send PLSCW; Send UpStepTime] ++ send_word w ++ [Pin (high AD9954_PS0)])
        else Some []);
  Some ([Pin (low AD9954_PS0); Pin (low AD9954_PS1); CS 0] ++
        send_all [CFR1; 2; 32; 0; if negb (Z.land Mode No_Dwell =? 0) then 68 else 64] ++
        [Send FTW0] ++ send_word wmin ++ [Send FTW1] ++ send_word wmax ++
        down ++ up ++ [CS 1; Update]).

Definition PS0_WriteBit (BitVal : Z) : list cmd := [Pin (Drive AD9954_PS0 (negb (BitVal =? 0)))].

Definition DirectSwitchFSK (f1 f2 f3 f4 : spec_float) : option (list cmd) :=
  w1 ← Get_FTW f1; w2 ← Get_FTW f2; w3 ← Get_FTW f3; w4 ← Get_FTW f4;
  Some ([CS 0] ++ send_all [0; 0; 0; 0; 64] ++ send_all [1; 0; 0; 164] ++
        segment false false 7 0 0 ++ [Send 11] ++ send_word w1 ++
        segment true false 8 1 4 ++ [Send 11] ++ send_word w2 ++
        segment false true 9 2 8 ++ [Send 11] ++ send_word w3 ++
        segment true true 10 3 12 ++ [Send 11] ++ send_word w4 ++
        send_all [0; 128; 0; 0; 64] ++ [CS 1; Update]).

Definition Line_AR_Sweep (f1 f2 : spec_float) : option (list cmd) :=
  w1 ← to_u32 (double_mul (double_lit 107374 4) (widen f1));
  w2 ← to_u32 (double_mul (double_lit 107374 4) (widen f2));
  Some ([Pin (low AD9954_SCLK); Pin (low AD9954_RES); Pin (low AD9954_UPDATE); Pin (low AD9954_PS0); Pin (low AD9954_PS1); CS 0] ++
        send_all [0; 0; 32; 0; 64] ++ send_all [1; 0; 0; Z.lor (Z.shiftl PLL_MULTIPLIER 3) 4] ++
        [Send 4] ++ send_word w1 ++ [Send 6] ++ send_word w2 ++
        send_all [7; 1; 0; 0; 27; 244] ++ send_all [8; 1; 0; 1; 163; 111] ++ [CS 1; Update]).

Definition ad9954_set_freq (argv : option Z) : option (list cmd) :=
  match argv with Some a => AD9954_Set_Freq (double_of a) | None => Some [] end.

(** ** What the chip receives *)

(** The select pin of the chip is not driven: it is always selected. *)
Definition ad9954_port : serial_port := SerialPort None AD9954_SCLK AD9954_SDIO true (Some AD9954_UPDATE).
Notation sees := (observe ad9954_port).

Lemma ad9954_port_wf : sp_wf ad9954_port.
Proof. unfold sp_wf. apply (bool_decide_unpack _). vm_compute. exact I. Qed.

(** A pin write that is no event for the chip's port. *)
Definition quiet (d : drive) : Prop := d_pin d ∉ sp_pins ad9954_port \/ (d_level d = false /\ d_pin d <> AD9954_SDIO).
Definition cmd_ok (c : cmd) : Prop := match c with Pin d => quiet d | _ => True end.
#[export] Instance quiet_dec d : Decision (quiet d) := _.
#[export] Instance cmd_ok_dec c : Decision (cmd_ok c).
Proof. destruct c; apply _. Defined.

Definition cmd_seen (c : cmd) : list seen :=
  match c with Send b => seen_bytes [b] | Update => [SUpdate] | _ => [] end.

Lemma send_bits_clock n v : send_bits n v = shift_loop (clock_bit ad9954_port) n v.
Proof.
  revert v. induction n as [|n IH]; intros v; [done|]. cbn [send_bits shift_loop]. rewrite top_bit_nonzero, IH.
  by destruct (Z.testbit v 7).
Qed.

Lemma falling_unseen st p : sees st [low p] = [].
Proof.
  unfold observe, observe1, rises. cbn [sp_update sp_select ad9954_port d_level low sp_edge].
  simpl. by rewrite !andb_false_r.
Qed.

Lemma send_seen b st : sees st (AD9954_Send_Byte b) = seen_bytes [b].
Proof.
  unfold AD9954_Send_Byte. rewrite send_bits_clock, shift_loop_bits, observe_app.
  destruct (observe_clock_bits ad9954_port ad9954_port_wf (byte_bits b) st eq_refl) as [-> _].
  by rewrite falling_unseen, app_nil_r.
Qed.

Lemma cmd_sees c st : cmd_ok c -> sees st (drives c) = cmd_seen c.
Proof.
  destruct c as [b| |d|v]; simpl drives; intros Hok; [apply send_seen| | |done].
  - done.
  - destruct Hok as [Hni|[Hl _]].
    + simpl. by rewrite observe1_other.
    + destruct d as [p l]. simpl in Hl. subst l. apply falling_unseen.
Qed.

(** The chip sees the bytes and the updates of a call, in order. *)
Lemma run_cmds_seen cs : Forall cmd_ok cs -> forall st, sees st (run_cmds cs) = cs ≫= cmd_seen.
Proof.
  induction 1 as [|c cs Hc _ IH]; intros st; [done|]. unfold run_cmds in *.
  rewrite !bind_cons, observe_app, cmd_sees by done. by rewrite IH.
Qed.

(** The bytes of a call, grouped by the updates. *)
Definition group_end (acc : list Z) : list received := match acc with [] => [] | _ => [RBytes acc] end.
Fixpoint group (acc : list Z) (cs : list cmd) : list received :=
  match cs with
  | [] => group_end acc
  | Send b :: cs => group (acc ++ [b]) cs
  | Update :: cs => group_end acc ++ RUpdate :: group [] cs
  | _ :: cs => group acc cs
  end.

Definition byte_ok (c : cmd) : Prop := match c with Send b => is_u8 b | Pin d => quiet d | _ => True end.
Lemma byte_cmd_ok c : byte_ok c -> cmd_ok c.
Proof. by destruct c. Qed.

Lemma flush_group acc : Forall is_u8 acc -> flush (acc ≫= byte_bits) = group_end acc.
Proof. intros H. unfold flush. rewrite bytes_of_bytes by done. by destruct acc. Qed.

Lemma receive_group cs : Forall byte_ok cs -> forall acc, Forall is_u8 acc ->
  receive (acc ≫= byte_bits) (cs ≫= cmd_seen) = group acc cs.
Proof.
  induction 1 as [|c cs Hc _ IH]; intros acc Hacc; [by apply flush_group|].
  rewrite bind_cons. destruct c as [b| |d|v]; cbn [cmd_seen group].
  - unfold seen_bytes. rewrite receive_bits. rewrite <-IH by (apply Forall_app; split; [done|by constructor]).
    by rewrite bind_app.
  - cbn [app receive]. rewrite flush_group by done. by rewrite <-(IH []).
  - by apply IH.
  - by apply IH.
Qed.

Lemma cmds_received cs st : Forall byte_ok cs -> receive [] (sees st (run_cmds cs)) = group [] cs.
Proof.
  intros Hok. rewrite run_cmds_seen; [by apply (receive_group cs Hok [])|].
  eapply Forall_impl; [exact Hok|exact byte_cmd_ok].
Qed.

(** Round trip over the wire. The chip receives the bytes a call of the driver
    sends and its update pulses, in order, whatever the pins were before and
    whatever other code does to other pins meanwhile. *)
Theorem ad9954_calls_received cs st st' other r :
  Forall byte_ok cs -> agree ad9954_port st st' ->
  Forall (fun d => d_pin d ∉ sp_pins ad9954_port) other -> interleave (run_cmds cs) other r ->
  receive [] (sees st' r) = group [] cs.
Proof.
  intros Hok Hst Ho Hi. rewrite <-(observe_interleave _ _ _ _ Hi Ho _ _ Hst). by apply cmds_received.
Qed.

(** ** Instructions *)

(** The number of data bytes of a register; [ram]: the words in the memory
    segment that is selected. *)
Definition reg_len (ram : nat) (a : Z) : option nat :=
  match a with
  | 0 | 4 | 6 => Some 4%nat
  | 1 => Some 3%nat
  | 2 | 5 => Some 2%nat
  | 3 => Some 1%nat
  | 7 | 8 | 9 | 10 => Some 5%nat
  | 11 => Some (4 * ram)%nat
  | _ => None
  end.

(** The instructions in a stream of bytes: address and data. *)
Fixpoint instructions (fuel ram : nat) (l : list Z) : option (list (Z * list Z)) :=
  match fuel, l with
  | _, [] => Some []
  | O, _ => None
  | S fuel, a :: l =>
      n ← reg_len ram a;
      if (length l <? n)%nat then None
      else r ← instructions fuel ram (drop n l); Some ((a, take n l) :: r)
  end.

Definition received_bytes (l : list received) : list Z := l ≫= fun r => match r with RBytes v => v | RUpdate => [] end.
Definition decode (ram : nat) (l : list received) : option (list (Z * list Z)) :=
  let bs := received_bytes l in instructions (length bs) ram bs.

(** Printing instructions and reading them back. *)
Lemma instructions_print ram rs : forall fuel, (length rs <= fuel)%nat ->
  Forall (fun r => reg_len ram r.1 = Some (length r.2)) rs ->
  instructions fuel ram (rs ≫= fun r => r.1 :: r.2) = Some rs.
Proof.
  induction rs as [|[a d] rs IH]; intros fuel Hf Hl; [by destruct fuel|].
  apply Forall_cons in Hl as [Ha Hl]. simpl in Ha. destruct fuel as [|fuel]; [simpl in Hf; lia|].
  rewrite bind_cons. cbn [fst snd app instructions]. rewrite Ha. cbn [mbind option_bind].
  rewrite length_app. destruct (Nat.ltb_spec (length d + length (rs ≫= λ r, r.1 :: r.2)) (length d)); [lia|].
  rewrite drop_app_length, take_app_length, IH by (done || simpl in Hf; lia). done.
Qed.

(** ** Tuning words *)

Lemma fH_Num_value : fH_Num = S754_finite false 6044629098073146 (-49).
Proof. by vm_compute. Qed.

(** The word is within one step of [freq * 2^32 / 400 MHz]. *)
Lemma Get_FTW_accurate freq : 0 <= freq < 400000000 ->
  exists t, Get_FTW (double_of freq) = Some t /\ is_u32 t /\ freq * 4294967296 - 400100000 <= t * 400000000 <= freq * 4294967296 + 100000.
Proof.
  intros Hf. unfold Get_FTW, to_u32. rewrite fH_Num_value, double_mul_comm. destruct (Z.eq_dec freq 0) as [->|Hne].
  - exists 0. by vm_compute.
  - destruct (mul_trunc freq 6044629098073146 49) as (t & Ht & H0 & Hhi & Hlo); try lia.
    change (- (49)) with (-49) in Ht. rewrite Ht. cbn [mbind option_bind].
    change (2 ^ (49 - 21)) with 268435456 in *. change (2 ^ 49) with 562949953421312 in *.
    rewrite (proj2 (Z.leb_le 0 t)), (proj2 (Z.ltb_lt t 4294967296)) by lia. exists t. unfold is_u32. splits; try done; lia.
Qed.

(** [w] is the tuning word of [freq]. *)
Definition tuned (freq w : Z) : Prop :=
  is_u32 w /\ freq * 2 ^ 32 - 400100000 <= w * 400000000 <= freq * 2 ^ 32 + 100000.

Lemma Get_FTW_tuned freq : 0 <= freq < 400000000 -> exists t, Get_FTW (double_of freq) = Some t /\ tuned freq t.
Proof. intros Hf. destruct (Get_FTW_accurate freq Hf) as (t & E & Ht & Hb). exists t. split; [done|]. by split. Qed.

Lemma send_all_ok l : Forall is_u8 l -> Forall byte_ok (send_all l).
Proof. unfold send_all. induction 1; simpl; by constructor. Qed.
Lemma send_word_ok w : Forall byte_ok (send_word w).
Proof. apply send_all_ok, word_bytes_u8. Qed.

#[export] Instance byte_ok_dec c : Decision (byte_ok c).
Proof. destruct c; unfold byte_ok, is_u8; apply _. Defined.

(** Every byte is a byte and every pin write is quiet: by computation, but for the
    tuning words. *)
Ltac bytes_ok :=
  repeat lazymatch goal with
  | |- Forall byte_ok (_ ++ _) => apply Forall_app; split
  | |- Forall byte_ok (send_word _) => apply send_word_ok
  | |- Forall byte_ok _ => apply (bool_decide_unpack _); vm_compute; exact I
  end.

(** Frequency shift keying. For four frequencies below 400 MHz the chip
    receives well-formed instructions: the mode registers, then for each of the
    four memory segments its bounds and one tuning word, each less than 1.0003
    steps from the frequency asked for, and at last the enable bit. *)
Theorem DirectSwitchFSK_received f1 f2 f3 f4 st :
  0 <= f1 < 400000000 -> 0 <= f2 < 400000000 -> 0 <= f3 < 400000000 -> 0 <= f4 < 400000000 ->
  exists cs w1 w2 w3 w4, DirectSwitchFSK (double_of f1) (double_of f2) (double_of f3) (double_of f4) = Some cs /\
    tuned f1 w1 /\ tuned f2 w2 /\ tuned f3 w3 /\ tuned f4 w4 /\
    decode 1 (receive [] (sees st (run_cmds cs))) =
      Some [(0, [0; 0; 0; 64]); (1, [0; 0; 164]); (7, [1; 0; 0; 0; 0]); (11, word_bytes w1);
            (8, [1; 0; 1; 4; 0]); (11, word_bytes w2); (9, [1; 0; 2; 8; 0]); (11, word_bytes w3);
            (10, [1; 0; 3; 12; 0]); (11, word_bytes w4); (0, [128; 0; 0; 64])].
Proof.
  intros H1 H2 H3 H4.
  destruct (Get_FTW_tuned f1 H1) as (w1 & E1 & T1), (Get_FTW_tuned f2 H2) as (w2 & E2 & T2),
    (Get_FTW_tuned f3 H3) as (w3 & E3 & T3), (Get_FTW_tuned f4 H4) as (w4 & E4 & T4).
  unfold DirectSwitchFSK. rewrite E1, E2, E3, E4. cbn [mbind option_bind].
  do 5 eexists. split; [done|]. splits; [exact T1|exact T2|exact T3|exact T4|].
  rewrite cmds_received by bytes_ok. done.
Qed.

Lemma AD9954_Set_Freq_received f st : 0 <= f < 400000000 ->
  exists cs w, AD9954_Set_Freq (double_of f) = Some cs /\ tuned f w /\
    receive [] (sees st (run_cmds cs)) = [RBytes (FTW0 :: word_bytes w); RUpdate].
Proof.
  intros Hf. destruct (Get_FTW_tuned f Hf) as (w & E & T). unfold AD9954_Set_Freq. rewrite E. cbn [mbind option_bind].
  do 2 eexists. split; [done|]. split; [exact T|]. rewrite cmds_received by bytes_ok. done.
Qed.

Lemma word_len w : length (word_bytes w) = 4%nat.
Proof. done. Qed.
Lemma words_len ws : length (ws ≫= word_bytes) = (4 * length ws)%nat.
Proof. induction ws as [|w ws IH]; [done|]. rewrite bind_cons, length_app, word_len, IH. simpl. lia. Qed.
Lemma words_u8 ws : Forall is_u8 (ws ≫= word_bytes).
Proof. induction ws as [|w ws IH]; [constructor|]. rewrite bind_cons. apply Forall_app. split; [apply word_bytes_u8|done]. Qed.
Lemma send_words ws : (ws ≫= send_word) = send_all (ws ≫= word_bytes).
Proof. induction ws as [|w ws IH]; [done|]. rewrite !bind_cons, IH. unfold send_word, send_all. by rewrite fmap_app. Qed.

Lemma group_sends l : forall acc cs, group acc (send_all l ++ cs) = group (acc ++ l) cs.
Proof.
  induction l as [|b l IH]; intros acc cs; simpl; [by rewrite app_nil_r|]. by rewrite IH, <-app_assoc.
Qed.

(** C26: The sine table. When every frequency of the table has a tuning word, the
    chip receives the instructions that stop the memory mode, fill the 1024 words
    of the memory with the tuning words in order, and start it again; these read
    back from the bytes. *)
Theorem ad9954_change_freq_ram_config_received sin f0 fp st ws :
  mapM (fun i => Get_FTW (sine_freq sin f0 fp i)) (seq 0 AD9954_RAM_SIZE) = Some ws ->
  exists cs, ad9954_change_freq_ram_config sin f0 fp = Some cs /\ length ws = 1024%nat /\
    decode 1024 (receive [] (sees st (run_cmds cs))) =
      Some [(0, [0; 0; 0; 0]); (11, ws ≫= word_bytes); (0, [128; 0; 0; 0])] /\
    receive [] (sees st (run_cmds cs)) =
      [RBytes [0; 0; 0; 0; 0]; RUpdate; RBytes (11 :: (ws ≫= word_bytes) ++ [0; 128; 0; 0; 0]); RUpdate].
Proof.
  intros Hws. unfold ad9954_change_freq_ram_config. rewrite Hws. cbn [mbind option_bind]. eexists. split; [done|].
  assert (length ws = 1024%nat) as Hlen.
  { apply mapM_Some in Hws. apply Forall2_length in Hws. rewrite length_seq in Hws. done. }
  split; [done|].
  assert (forall x, x = [RBytes [0; 0; 0; 0; 0]; RUpdate; RBytes (11 :: (ws ≫= word_bytes) ++ [0; 128; 0; 0; 0]); RUpdate] ->
    decode 1024 x = Some [(0, [0; 0; 0; 0]); (11, ws ≫= word_bytes); (0, [128; 0; 0; 0])] /\
    x = [RBytes [0; 0; 0; 0; 0]; RUpdate; RBytes (11 :: (ws ≫= word_bytes) ++ [0; 128; 0; 0; 0]); RUpdate]) as Hgen.
  { intros x ->. split; [|done]. unfold decode.
    set (rs := [(0, [0; 0; 0; 0]); (11, ws ≫= word_bytes); (0, [128; 0; 0; 0])]).
    assert (received_bytes [RBytes [0; 0; 0; 0; 0]; RUpdate; RBytes (11 :: (ws ≫= word_bytes) ++ [0; 128; 0; 0; 0]); RUpdate]
      = rs ≫= fun r => r.1 :: r.2) as ->.
    { unfold received_bytes, rs. cbn [mbind list_bind app fst snd]. by rewrite !app_nil_r. }
    apply instructions_print; [unfold rs; cbn [mbind list_bind app fst snd length]; lia|].
    unfold rs. repeat constructor. simpl. rewrite words_len, Hlen. done. }
  apply Hgen. rewrite send_words, cmds_received.
  - cbn [app group]. rewrite group_sends. cbn [app group group_end]. do 2 f_equal.
    rewrite group_sends. cbn [app]. rewrite group_sends. done.
  - repeat (apply Forall_app; split); try (apply (bool_decide_unpack _); vm_compute; exact I).
    apply send_all_ok, words_u8.
Qed.

(** ** Concrete calls *)

Definition pins_low : levels := fun _ => false.

Lemma ad9954_calls_received_witness :
  receive [] (sees pins_low ([low (GPIOF, 10)] ++ run_cmds (Write_ASF 4095))) = [RBytes [2; 15; 255]; RUpdate].
Proof.
  apply (ad9954_calls_received (Write_ASF 4095) pins_low pins_low [low (GPIOF, 10)]).
  - apply (bool_decide_unpack _). vm_compute. exact I.
  - done.
  - apply (bool_decide_unpack _). vm_compute. exact I.
  - apply (interleave_insert [] (run_cmds (Write_ASF 4095))).
Defined.

Lemma DirectSwitchFSK_received_witness :
  exists cs w1 w2 w3 w4, DirectSwitchFSK (double_of 1000) (double_of 2000) (double_of 3000) (double_of 399999999) = Some cs /\
    tuned 1000 w1 /\ tuned 2000 w2 /\ tuned 3000 w3 /\ tuned 399999999 w4 /\
    decode 1 (receive [] (sees pins_low (run_cmds cs))) =
      Some [(0, [0; 0; 0; 64]); (1, [0; 0; 164]); (7, [1; 0; 0; 0; 0]); (11, word_bytes w1);
            (8, [1; 0; 1; 4; 0]); (11, word_bytes w2); (9, [1; 0; 2; 8; 0]); (11, word_bytes w3);
            (10, [1; 0; 3; 12; 0]); (11, word_bytes w4); (0, [128; 0; 0; 64])].
Proof. apply (DirectSwitchFSK_received 1000 2000 3000 399999999 pins_low); lia. Defined.

(** The table of a constant sine. *)
Definition flat (_ : spec_float) : spec_float := S754_zero false.
Lemma flat_table : mapM (fun i => Get_FTW (sine_freq flat 10650000 50000 i)) (seq 0 AD9954_RAM_SIZE) = Some (replicate 1024 114353504).
Proof. vm_compute. reflexivity. Qed.

Lemma ad9954_change_freq_ram_config_received_witness :
  exists cs, ad9954_change_freq_ram_config flat 10650000 50000 = Some cs /\
    decode 1024 (receive [] (sees pins_low (run_cmds cs))) =
      Some [(0, [0; 0; 0; 0]); (11, replicate 1024 114353504 ≫= word_bytes); (0, [128; 0; 0; 0])].
Proof.
  destruct (ad9954_change_freq_ram_config_received flat 10650000 50000 pins_low _ flat_table) as (cs & Hcs & _ & H & _).
  exists cs. split; [exact Hcs|exact H].
Defined.

(** ** The configuration of the pins *)

(** The level of the pin [p] when instruction bytes equal to [reg] are sent. *)
Fixpoint level_at (p : pin) (reg : Z) (cs : list cmd) (st : levels) : list bool :=
  match cs with
  | [] => []
  | c :: cs =>
      (match c with Send b => if b =? reg then [st p] else [] | _ => [] end) ++
      level_at p reg cs (run_pins (drives c) st)
  end.

(** [AD9954_PS0] and [AD9954_PS1] are one pin: the four memory segments of
    [DirectSwitchFSK] are selected with two combinations of levels only. *)
Theorem DirectSwitchFSK_profiles :
  exists cs, DirectSwitchFSK (double_of 1) (double_of 2) (double_of 3) (double_of 4) = Some cs /\
    AD9954_PS0 = AD9954_PS1 /\ level_at AD9954_PS0 11 cs pins_low = [false; false; true; true].
Proof.
  destruct (DirectSwitchFSK (double_of 1) (double_of 2) (double_of 3) (double_of 4)) as [cs|] eqn:E; [|by vm_compute in E].
  exists cs. split; [done|]. split; [done|]. vm_compute in E. injection E as <-. by vm_compute.
Qed.

(** Reading a register gives a constant: the data line that is read is the
    variable that stands for the select pin, and the byte is shifted once too
    often. *)
Theorem Read_Vau_constant : Read_Vau1.2 = 4278124286 /\ Read_Vau2.2 = 16711422.
Proof. by vm_compute. Qed.

(** Even from a data line, [AD9954_Read_Byte] would lose the first bit. *)
Theorem AD9954_Read_Byte_even pass : AD9954_Read_Byte pass mod 2 = 0.
Proof.
  unfold AD9954_Read_Byte. cbn [read_bits].
  match goal with |- context [u8 (Z.shiftl ?x 1)] => generalize x end. intros x.
  rewrite Z.shiftl_mul_pow2 by lia. change (2 ^ 1) with 2. unfold u8. dlia.
Qed.

(** The limit of 97000 of the ramp speed is the last that gives a usable ramp
    rate. *)
Example ramp_speed_limits :
  to_u16 (RAMP_SPEED_NUM (double_of 97000)) = Some 1 /\ to_u16 (RAMP_SPEED_NUM (double_of 97657)) = Some 0 /\
  to_u16 (RAMP_SPEED_NUM (double_of 2)) = Some 48828 /\ to_u16 (RAMP_SPEED_NUM (double_of 1)) = None.
Proof. by vm_compute. Qed.
