(* ===== verification/Ads1256.v ===== *)
(** * The ADS1256 converter (board/board_ads1256.c)

    The driver polls a ready line with a timeout, clocks command bytes out on
    falling edges and clocks result bytes in. What it reads from the chip and
    from the tick counter is an input of the model. *)

From Stdlib Require Import SpecFloat.
From S2P Require Import Prelude Wire Cfloat.

(** ** Pins, commands, state *)

Definition AD1256_RESET : pin := (GPIOD, 8).
Definition AD1256_CS : pin := (GPIOD, 9).
Definition AD1256_DIN : pin := (GPIOD, 12).
Definition AD1256_SCLK : pin := (GPIOD, 13).

Definition ADS1256_CMD_RDATA : Z := 1.
Definition ADS1256_CMD_SYNC : Z := 252.
Definition ADS1256_CMD_RESET : Z := 254.
Definition ADS1256_CMD_WAKEUP : Z := 255.
Definition ADS1256_STATUS : Z := 0.
Definition ADS1256_MUX : Z := 1.
Definition ADS1256_ADCON : Z := 2.
Definition ADS1256_DRATE : Z := 3.
Definition ADS1256_DRATE_30SPS : Z := 83.
Definition ADS1256_MUXP_AIN0 : Z := 0.
Definition ADS1256_MUXP_AIN3 : Z := 48.
Definition ADS1256_MUXN_AINCOM : Z := 8.

(** The [n]-th read of an input: the level of a line or the tick counter. *)
Record input := Input { in_drdy : bool; in_dout : bool; in_tick : Z }.

(** The pin writes made and the number of inputs read. *)
Record io := Io { io_tr : list drive; io_n : nat }.
Definition out (l : list drive) (s : io) : io := Io (io_tr s ++ l) (io_n s).
Definition next (s : io) : io := Io (io_tr s) (S (io_n s)).

Section Driver.
Context (env : nat -> input).

(** ** Operations *)

(** The loop of [wait_drdy_call] from the tick [current_time]. *)
Fixpoint wait_loop (fuel : nat) (current_time : Z) (s : io) : option (io * Z) :=
  if in_drdy (env (io_n s)) then
    let s := next s in
    let timeout := in_tick (env (io_n s)) in
    let s := next s in
    if 10 <? u32 (timeout - current_time) then Some (s, 1)
    else match fuel with O => None | S fuel => wait_loop fuel current_time s end
  else Some (next s, 0).
Definition wait_drdy_call (fuel : nat) (s : io) : option (io * Z) :=
  wait_loop fuel (in_tick (env (io_n s))) (next s).

(** The loop of [ADS1256_WriteByte]. *)
Fixpoint write_loop (n : nat) (date : Z) : list drive :=
  match n with
  | O => []
  | S n =>
      [high AD1256_SCLK; if negb (Z.land date 128 =? 0) then high AD1256_DIN else low AD1256_DIN; low AD1256_SCLK] ++
      write_loop n (u8 (Z.shiftl date 1))
  end.
Definition ADS1256_WriteByte (date : Z) (s : io) : io := out (write_loop 8 date) s.

(** The loop of [ADS1256_ReadByte]: three samples of the data line per bit. *)
Fixpoint read_loop (n : nat) (dat : Z) (s : io) : io * Z :=
  match n with
  | O => (s, dat)
  | S n =>
      let dat := u8 (Z.shiftl dat 1) in
      let s := out [high AD1256_SCLK] s in
      let a1 := in_dout (env (io_n s)) in
      let s := out [low AD1256_SCLK] (next s) in
      let a2 := in_dout (env (io_n s)) in
      let s := next s in
      let a3 := in_dout (env (io_n s)) in
      let s := next s in
      read_loop n (if a1 || a2 || a3 then Z.lor dat 1 else dat) s
  end.
Definition ADS1256_ReadByte (s : io) : io * Z := read_loop 8 0 s.

Context (fuel : nat).

Definition ADS1256_SendCommand (command : Z) (s : io) : option io :=
  '(s, r) ← wait_drdy_call fuel s;
  if negb (r =? 0) then Some s else Some (ADS1256_WriteByte command s).

Definition ADS1256_WriteToRegister (address data : Z) (s : io) : option io :=
  '(s, r) ← wait_drdy_call fuel s;
  if negb (r =? 0) then Some s
  else
    let s := ADS1256_WriteByte (Z.lor address 80) s in
    '(s, r) ← wait_drdy_call fuel s;
    if negb (r =? 0) then Some s
    else
      let s := ADS1256_WriteByte 0 s in
      '(s, r) ← wait_drdy_call fuel s;
      if negb (r =? 0) then Some s else Some (ADS1256_WriteByte data s).

Definition ADS1256_Init (s : io) : option io :=
  let s := out (low <$> [AD1256_RESET; AD1256_CS; AD1256_DIN; AD1256_SCLK]) s in
  let s := out [high AD1256_CS; low AD1256_SCLK; low AD1256_DIN; low AD1256_RESET; high AD1256_RESET; low AD1256_CS] s in
  '(s, r) ← wait_drdy_call fuel s;
  if negb (r =? 0) then Some s
  else
    let s := out [high AD1256_CS; low AD1256_CS] s in
    '(s, r) ← wait_drdy_call fuel s;
    if negb (r =? 0) then Some s
    else
      s ← ADS1256_SendCommand ADS1256_CMD_RESET s;
      s ← ADS1256_WriteToRegister ADS1256_STATUS 6 s;
      s ← ADS1256_WriteToRegister ADS1256_ADCON 0 s;
      s ← ADS1256_WriteToRegister ADS1256_DRATE ADS1256_DRATE_30SPS s;
      s ← ADS1256_SendCommand ADS1256_CMD_SYNC s;
      s ← ADS1256_SendCommand ADS1256_CMD_WAKEUP s;
      Some (out [high AD1256_CS; low AD1256_SCLK; low AD1256_DIN] s).

(** Selecting the chip and waiting until it is ready; [false]: the call gives up. *)
Definition select_ready (s : io) : option (io * bool) :=
  '(s, r) ← wait_drdy_call fuel (out [low AD1256_CS] s); Some (s, r =? 0).

(** The calls of [rt_thread_mdelay(1)] leave no trace. *)
Definition ADS1256_GetData (channal : Z) (s : io) : option (io * Z) :=
  '(s, ok) ← select_ready s;
  if negb ok then Some (s, 0) else
  '(s, ok) ← select_ready (out [high AD1256_CS] s);
  if negb ok then Some (s, 0) else
  '(s, ok) ← select_ready (out [high AD1256_CS] s);
  if negb ok then Some (s, 0) else
  s ← ADS1256_SendCommand ADS1256_CMD_RESET s;
  s ← ADS1256_SendCommand ADS1256_CMD_SYNC s;
  s ← ADS1256_SendCommand ADS1256_CMD_WAKEUP s;
  s ← ADS1256_WriteToRegister ADS1256_MUX (u8 channal) s;
  let s := ADS1256_WriteByte ADS1256_CMD_RDATA s in
  let '(s, b0) := ADS1256_ReadByte s in
  let '(s, b1) := ADS1256_ReadByte s in
  let '(s, b2) := ADS1256_ReadByte s in
  Some (out [high AD1256_CS] s, Z.shiftl b0 16 + Z.shiftl b1 8 + b2).

(** The shell command; [argv]: the values of [atoi(argv[1])] and [atoi(argv[2])]. *)
Definition adc_get (argv : option (Z * Z)) (s : io) : option (io * Z) :=
  match argv with
  | Some (p, n) => ADS1256_GetData (u32 (Z.lor (Z.shiftl p 4) n)) s
  | None => ADS1256_GetData (Z.lor ADS1256_MUXP_AIN0 ADS1256_MUXN_AINCOM) s
  end.

(** One round of [thread1_entry]: the reading and the microvolts it prints,
    [(int)(res * 1.0 / 8388608.0 * 2 * 2499970.0)]. *)
Definition thread1_entry (s : io) : option (io * (Z * option Z)) :=
  '(s, r) ← ADS1256_GetData (Z.lor ADS1256_MUXP_AIN3 ADS1256_MUXN_AINCOM) s;
  let res := s32 r in
  Some (s, (res, sf_trunc (double_mul (double_mul (double_div (double_mul (double_of res) (double_of 1)) (double_of 8388608))
                                        (double_of 2)) (double_of 2499970)))).
End Driver.

(** ** Waiting *)

Section Waiting.
Context (env : nat -> input).

Lemma wait_ready fuel s : in_drdy (env (S (io_n s))) = false ->
  wait_drdy_call env fuel s = Some (next (next s), 0).
Proof. intros H. unfold wait_drdy_call. destruct fuel; simpl; by rewrite H. Qed.

(** The [n]-th round of the loop, while the chip is not ready in time. *)
Definition waiting (s : io) (cur : Z) (n : nat) : Prop :=
  forall k, (k < n)%nat -> in_drdy (env (io_n s + 2 * k)) = true /\ u32 (in_tick (env (io_n s + 2 * k + 1)) - cur) <= 10.

Definition advance (n : nat) (s : io) : io := Io (io_tr s) (io_n s + n).

Lemma wait_rounds n : forall fuel cur s, waiting s cur n -> (n <= fuel)%nat ->
  wait_loop env fuel cur s = wait_loop env (fuel - n) cur (advance (2 * n) s).
Proof.
  induction n as [|n IH]; intros fuel cur s Hw Hf.
  - rewrite Nat.sub_0_r. unfold advance. rewrite Nat.add_0_r. by destruct s.
  - destruct fuel as [|fuel]; [lia|]. destruct (Hw 0%nat ltac:(lia)) as [Hd Ht].
    replace (io_n s + 2 * 0)%nat with (io_n s) in * by lia. rewrite Nat.add_1_r in Ht.
    cbn [wait_loop]. rewrite Hd. cbn [next io_n]. rewrite (proj2 (Z.ltb_ge _ _)) by done.
    rewrite IH; [| |lia].
    + f_equal. unfold advance, next. simpl. f_equal. lia.
    + intros j Hj. destruct (Hw (S j) ltac:(lia)) as [H1 H2]. cbn [next io_n].
      replace (S (S (io_n s)) + 2 * j)%nat with (io_n s + 2 * S j)%nat by lia. done.
Qed.

(** The loop ends in round [n], with what it returns. *)
Definition ends (s : io) (cur : Z) (n : nat) (r : Z) : Prop :=
  waiting s cur n /\
  if in_drdy (env (io_n s + 2 * n)) then 10 < u32 (in_tick (env (io_n s + 2 * n + 1)) - cur) /\ r = 1 else r = 0.

Lemma waiting_or_ends s cur n : waiting s cur n \/ exists j r, (j < n)%nat /\ ends s cur j r.
Proof.
  induction n as [|n [IH|(j & r & Hj & He)]]; [left; intros j; lia| |right; exists j, r; split; [lia|done]].
  destruct (in_drdy (env (io_n s + 2 * n))) eqn:Ed.
  - destruct (Z.le_gt_cases (u32 (in_tick (env (io_n s + 2 * n + 1)) - cur)) 10) as [Hle|Hgt].
    + left. intros j Hj. destruct (decide (j = n)) as [->|]; [done|]. apply IH. lia.
    + right. exists n, 1. unfold ends. rewrite Ed. split; [lia|done].
  - right. exists n, 0. unfold ends. rewrite Ed. split; [lia|done].
Qed.

Lemma wait_ends fuel cur s n r : ends s cur n r -> (n <= fuel)%nat ->
  exists m, wait_loop env fuel cur s = Some (advance m s, r) /\ (m <= 2 * n + 2)%nat.
Proof.
  intros [Hw He] Hf. rewrite (wait_rounds n fuel cur s Hw Hf). 
  replace (io_n s + 2 * n)%nat with (io_n (advance (2 * n) s)) in He by done.
  set (s1 := advance (2 * n) s) in *. destruct (fuel - n)%nat as [|f]; cbn [wait_loop]; destruct (in_drdy (env (io_n s1))).
  all: try (destruct He as [Ht ->]; cbn [next io_n]; rewrite Nat.add_1_r in Ht; rewrite (proj2 (Z.ltb_lt _ _)) by done;
    exists (2 * n + 2)%nat; split; [|lia]; unfold s1, advance, next; simpl; do 3 f_equal; lia).
  all: subst r; exists (2 * n + 1)%nat; split; [|lia]; unfold s1, advance, next; simpl; do 3 f_equal; lia.
Qed.

(** C29: Waiting for the chip ends. When the tick counter advances once in [k]
    reads, [wait_drdy_call] returns after at most [6 k + 1] rounds: 0 as soon as
    the ready line is read low, 1 when it was high in every round and more than
    ten ticks have passed. *)
Theorem wait_drdy_call_returns k t0 fuel s :
  (0 < k)%nat -> 0 <= t0 -> (forall n, in_tick (env n) = u32 (t0 + Z.of_nat n / Z.of_nat k)) -> (6 * k + 1 <= fuel)%nat ->
  exists m n r, wait_drdy_call env fuel s = Some (Io (io_tr s) m, r) /\ (m <= io_n s + 2 * n + 3)%nat /\ (n <= 6 * k)%nat /\
    ends (next s) (in_tick (env (io_n s))) n r.
Proof.
  intros Hk Ht0 Htick Hf. set (cur := in_tick (env (io_n s))).
  destruct (waiting_or_ends (next s) cur (6 * k + 1)) as [Hw|(j & r & Hj & He)].
  - exfalso. destruct (Hw (6 * k)%nat ltac:(lia)) as [_ Ht]. unfold cur in Ht. rewrite !Htick in Ht. cbn [next io_n] in Ht.
    set (c := io_n s) in *. rewrite !Nat2Z.inj_add, Nat2Z.inj_succ, !Nat2Z.inj_mul in Ht.
    set (a := Z.of_nat c / Z.of_nat k) in *.
    assert (exists d, (Z.succ (Z.of_nat c) + Z.of_nat 2 * (Z.of_nat 6 * Z.of_nat k) + Z.of_nat 1) / Z.of_nat k = a + d /\ 12 <= d <= 14) as (d & Ed & Hd).
    { exists ((Z.succ (Z.of_nat c) + Z.of_nat 2 * (Z.of_nat 6 * Z.of_nat k) + Z.of_nat 1) / Z.of_nat k - a). split; [lia|].
      replace (Z.succ (Z.of_nat c) + Z.of_nat 2 * (Z.of_nat 6 * Z.of_nat k) + Z.of_nat 1) with (Z.of_nat c + 2 + 12 * Z.of_nat k) by lia.
      rewrite Z.div_add by lia. unfold a.
      assert (Z.of_nat c / Z.of_nat k <= (Z.of_nat c + 2) / Z.of_nat k) by (apply Z.div_le_mono; lia).
      assert ((Z.of_nat c + 2) / Z.of_nat k <= (Z.of_nat c + 2 * Z.of_nat k) / Z.of_nat k) by (apply Z.div_le_mono; lia).
      rewrite Z.div_add in * by lia. lia. }
    rewrite Ed in Ht. unfold u32 in Ht. rewrite <-Zminus_mod in Ht. 
    replace (t0 + (a + d) - (t0 + a)) with d in Ht by lia. rewrite Z.mod_small in Ht by lia. lia.
  - destruct (wait_ends fuel cur (next s) j r He) as (m & Hop & Hm); [lia|].
    unfold wait_drdy_call. fold cur. rewrite Hop. exists (io_n (advance m (next s))), j, r. splits; try done; [|lia].
    unfold advance, next. simpl. lia.
Qed.
End Waiting.

(** ** What the chip receives and what the driver reads *)

(** The chip samples its input on falling edges. *)
Definition ads1256_port : serial_port := SerialPort (Some AD1256_CS) AD1256_SCLK AD1256_DIN false None.
Notation sees := (observe ads1256_port).

Lemma ads1256_port_wf : sp_wf ads1256_port.
Proof. unfold sp_wf. apply (bool_decide_unpack _). vm_compute. exact I. Qed.

Lemma write_loop_clock n v : write_loop n v = shift_loop (clock_bit ads1256_port) n v.
Proof.
  revert v. induction n as [|n IH]; intros v; [done|]. cbn [write_loop shift_loop]. rewrite top_bit_nonzero, IH.
  by destruct (Z.testbit v 7).
Qed.

Lemma bytes_written vs st : selected ads1256_port st = true ->
  sees st (vs ≫= write_loop 8) = seen_bytes vs /\ selected ads1256_port (run_pins (vs ≫= write_loop 8) st) = true.
Proof.
  intros Hsel.
  assert (vs ≫= write_loop 8 = vs ≫= fun v => byte_bits v ≫= clock_bit ads1256_port) as ->.
  { induction vs as [|v vs IH]; [done|]. by rewrite !bind_cons, IH, write_loop_clock, shift_loop_bits. }
  destruct (observe_clock_bytes ads1256_port ads1256_port_wf vs st Hsel) as [Ho Hk]. split; [done|].
  by rewrite (kept_selected _ ads1256_port_wf _ _ Hk).
Qed.

(** Eight clocks read the byte that the chip puts on the data line; three samples
    are taken while a bit is out. *)
Definition samples (env : nat -> input) (base : nat) (l : list bool) : Prop :=
  forall i b, l !! i = Some b -> forall j, (j < 3)%nat -> in_dout (env (base + 3 * i + j)%nat) = b.

Definition read_clock : list drive := [high AD1256_SCLK; low AD1256_SCLK].

Lemma lor_double_1 d : 0 <= d -> Z.lor (2 * d) 1 = 2 * d + 1.
Proof. intros Hd. destruct d as [|p|p]; [done|done|lia]. Qed.

Lemma read_loop_spec env l : forall dat s,
  samples env (io_n s) l -> 0 <= dat -> (dat + 1) * 2 ^ Z.of_nat (length l) <= 256 ->
  read_loop env (length l) dat s =
    (Io (io_tr s ++ concat (replicate (length l) read_clock)) (io_n s + 3 * length l)%nat, bits_value dat l).
Proof.
  induction l as [|b l IH]; intros dat s Hs Hd Hlt; cbn [length read_loop replicate concat bits_value] in *.
  - rewrite app_nil_r, Nat.mul_0_r, Nat.add_0_r. by destruct s.
  - rewrite Nat2Z.inj_succ, Z.pow_succ_r in Hlt by lia.
    assert (0 < 2 ^ Z.of_nat (length l)) as Hpow by (apply Z.pow_pos_nonneg; lia).
    assert (2 * dat < 256) as Hsm by nia.
    pose proof (Hs 0%nat b eq_refl) as H0.
    rewrite (u8_small (Z.shiftl dat 1)) by (rewrite Z.shiftl_mul_pow2 by lia; unfold is_u8; lia).
    cbn [out next io_n io_tr].
    pose proof (H0 0%nat ltac:(lia)) as E0. pose proof (H0 1%nat ltac:(lia)) as E1. pose proof (H0 2%nat ltac:(lia)) as E2.
    replace (io_n s + 3 * 0 + 0)%nat with (io_n s) in E0 by lia. replace (io_n s + 3 * 0 + 1)%nat with (S (io_n s)) in E1 by lia.
    replace (io_n s + 3 * 0 + 2)%nat with (S (S (io_n s))) in E2 by lia. rewrite E0, E1, E2.
    assert ((if b || b || b then Z.lor (Z.shiftl dat 1) 1 else Z.shiftl dat 1) = 2 * dat + Z.b2z b) as ->.
    { rewrite Z.shiftl_mul_pow2, Z.mul_comm by lia. change (2 ^ 1) with 2. destruct b; cbn [orb Z.b2z]; [|lia].
      by apply lor_double_1. }
    rewrite IH.
    + f_equal. f_equal; simpl; [by rewrite <-!app_assoc|lia].
    + intros i b' Hi j Hj. cbn [io_n next out]. rewrite <-(Hs (S i) _ Hi j Hj). do 2 f_equal. lia.
    + destruct b; simpl; lia.
    + destruct b; cbn [Z.b2z]; nia.
Qed.

Section Reading.
Context (env : nat -> input) (Hready : forall n, in_drdy (env n) = false) (fuel : nat).

Lemma ready s : wait_drdy_call env fuel s = Some (next (next s), 0).
Proof. by apply wait_ready. Qed.

Lemma send_ready c s : ADS1256_SendCommand env fuel c s = Some (out (write_loop 8 c) (advance 2 s)).
Proof. unfold ADS1256_SendCommand. rewrite ready. simpl. do 2 f_equal. unfold advance, next. simpl. f_equal. lia. Qed.

Lemma register_ready a d s :
  ADS1256_WriteToRegister env fuel a d s = Some (out ([Z.lor a 80; 0; d] ≫= write_loop 8) (advance 6 s)).
Proof.
  unfold ADS1256_WriteToRegister. rewrite ready. cbn [mbind option_bind Z.eqb negb]. rewrite ready. cbn [mbind option_bind Z.eqb negb].
  rewrite ready. cbn [mbind option_bind Z.eqb negb]. unfold ADS1256_WriteByte, out, advance, next. cbn [io_tr io_n].
  f_equal. f_equal; [by rewrite <-!app_assoc|lia].
Qed.

Lemma select_ready_ok s : select_ready env fuel s = Some (advance 2 (out [low AD1256_CS] s), true).
Proof. unfold select_ready. rewrite ready. simpl. do 2 f_equal. unfold advance, next. simpl. f_equal. lia. Qed.

Lemma io_tr_out l s : io_tr (out l s) = io_tr s ++ l.
Proof. done. Qed.
Lemma io_tr_advance n s : io_tr (advance n s) = io_tr s.
Proof. done. Qed.
Lemma io_tr_io t n : io_tr (Io t n) = t.
Proof. done. Qed.

Lemma bits_value_app l1 l2 : forall acc, bits_value acc (l1 ++ l2) = bits_value (bits_value acc l1) l2.
Proof. induction l1 as [|b l1 IH]; intros acc; simpl; [done|by rewrite IH]. Qed.

Lemma bits_value_shift l : forall acc, bits_value acc l = acc * 2 ^ Z.of_nat (length l) + bits_value 0 l.
Proof.
  induction l as [|b l IH]; intros acc; cbn [bits_value length]; [change (2 ^ Z.of_nat 0) with 1; lia|].
  rewrite IH, (IH (2 * 0 + Z.b2z b)), Nat2Z.inj_succ, Z.pow_succ_r by lia. lia.
Qed.

Lemma read_byte_spec l s : length l = 8%nat -> samples env (io_n s) l ->
  ADS1256_ReadByte env s = (Io (io_tr s ++ concat (replicate 8 read_clock)) (io_n s + 24)%nat, bits_value 0 l).
Proof. intros Hl Hs. pose proof (read_loop_spec env l 0 s Hs) as H. rewrite Hl in H. apply H; lia. Qed.

Lemma samples_drop base l k : samples env base l -> samples env (base + 3 * k) (drop k l).
Proof.
  intros Hs i b Hi j Hj. rewrite lookup_drop in Hi. rewrite <-(Hs _ _ Hi j Hj). do 2 f_equal. lia.
Qed.
Lemma samples_take base l k : samples env base l -> samples env base (take k l).
Proof. intros Hs i b Hi j Hj. apply lookup_take_Some in Hi as [Hi _]. by apply Hs. Qed.

(** The pin writes of a reading. *)
Definition data_writes (channal : Z) : list drive :=
  [low AD1256_CS; high AD1256_CS; low AD1256_CS; high AD1256_CS; low AD1256_CS] ++
  ([254; 252; 255; 81; 0; u8 channal; 1] ≫= write_loop 8) ++ concat (replicate 24 read_clock) ++ [high AD1256_CS].

Lemma get_data_spec channal l s : length l = 24%nat -> samples env (io_n s + 18) l ->
  exists s', ADS1256_GetData env fuel channal s = Some (s', bits_value 0 l) /\ io_tr s' = io_tr s ++ data_writes channal.
Proof.
  intros Hl Hs. unfold ADS1256_GetData.
  rewrite select_ready_ok. cbn [mbind option_bind negb]. rewrite select_ready_ok. cbn [mbind option_bind negb].
  rewrite select_ready_ok. cbn [mbind option_bind negb]. rewrite !send_ready. cbn [mbind option_bind].
  rewrite !send_ready. cbn [mbind option_bind]. rewrite !send_ready. cbn [mbind option_bind].
  rewrite register_ready. cbn [mbind option_bind].
  match goal with |- context [ADS1256_WriteByte ADS1256_CMD_RDATA ?x] => set (s0 := ADS1256_WriteByte ADS1256_CMD_RDATA x) end.
  assert (io_n s0 = (io_n s + 18)%nat) as En by (unfold s0, ADS1256_WriteByte, out, advance; simpl; lia).
  set (l0 := take 8 l). set (l1 := take 8 (drop 8 l)). set (l2 := drop 16 l).
  assert (l = l0 ++ l1 ++ l2) as El.
  { unfold l0, l1, l2. rewrite <-(take_drop 8 l) at 1. f_equal. rewrite <-(take_drop 8 (drop 8 l)) at 1. f_equal. by rewrite drop_drop. }
  rewrite (read_byte_spec l0); [|unfold l0; rewrite length_take; lia|rewrite En; by apply samples_take].
  rewrite (read_byte_spec l1); [|unfold l1; rewrite length_take, length_drop; lia|].
  2:{ cbn [io_n]. rewrite En. apply samples_take. apply (samples_drop _ l 8 Hs). }
  rewrite (read_byte_spec l2); [|unfold l2; rewrite length_drop; lia|].
  2:{ cbn [io_n]. rewrite En. replace (io_n s + 18 + 24 + 24)%nat with (io_n s + 18 + 3 * 16)%nat by lia. by apply (samples_drop _ l 16 Hs). }
  eexists. split.
  - f_equal. f_equal. rewrite El, !bits_value_app, (bits_value_shift l2 (bits_value _ l1)), (bits_value_shift l1 (bits_value 0 l0)).
    assert (length l1 = 8%nat /\ length l2 = 8%nat) as [-> ->] by (unfold l1, l2; rewrite length_take, !length_drop; lia).
    rewrite !Z.shiftl_mul_pow2 by lia. change (2 ^ 16) with (2 ^ 8 * 2 ^ 8). change (2 ^ Z.of_nat 8) with (2 ^ 8). lia.
  - unfold s0, ADS1256_WriteByte, data_writes.
    change (replicate 24 read_clock) with (replicate 8 read_clock ++ replicate 8 read_clock ++ replicate 8 read_clock).
    rewrite !concat_app. generalize (concat (replicate 8 read_clock)). generalize (write_loop 8). intros W C.
    repeat first [rewrite io_tr_out | rewrite io_tr_advance | rewrite io_tr_io].
    unfold ADS1256_CMD_RESET, ADS1256_CMD_SYNC, ADS1256_CMD_WAKEUP, ADS1256_CMD_RDATA.
    change (Z.lor ADS1256_MUX 80) with 81. cbn [mbind list_bind]. by rewrite <-!app_assoc.
Qed.
End Reading.

(** Clocks with the input line high are read as ones. *)
Lemma clocks_seen n : forall st, selected ads1256_port st = true -> st AD1256_DIN = true ->
  sees st (concat (replicate n read_clock)) = SBit <$> replicate n true /\
  selected ads1256_port (run_pins (concat (replicate n read_clock)) st) = true.
Proof.
  induction n as [|n IH]; intros st Hsel Hd; [done|]. cbn [replicate concat].
  rewrite observe_app, run_pins_app. destruct (IH (run_pins read_clock st)) as [-> ->]; [done|done|]. split; [|done].
  unfold selected in Hsel. simpl in Hsel. apply negb_true_iff in Hsel.
  unfold read_clock, observe, observe1, rises, selected, set_level. simpl. by rewrite Hsel, Hd.
Qed.

Lemma data_writes_seen ch st :
  sees st (data_writes ch) =
    [SStop; SStop] ++ seen_bytes [254; 252; 255; 81; 0; u8 ch; 1] ++ seen_bytes [255; 255; 255] ++ [SStop].
Proof.
  unfold data_writes. rewrite observe_app.
  assert (sees st [low AD1256_CS; high AD1256_CS; low AD1256_CS; high AD1256_CS; low AD1256_CS] = [SStop; SStop]) as -> by done.
  set (st1 := run_pins _ st). assert (selected ads1256_port st1 = true) as Hs1 by done. f_equal.
  change [254; 252; 255; 81; 0; u8 ch; 1] with ([254; 252; 255; 81; 0; u8 ch] ++ [1]). rewrite bind_app, <-app_assoc, seen_bytes_app.
  destruct (bytes_written [254; 252; 255; 81; 0; u8 ch] st1 Hs1) as [Ho Hs2]. rewrite observe_app, Ho, <-app_assoc. f_equal.
  set (st2 := run_pins _ st1) in *. destruct (bytes_written [1] st2 Hs2) as [Ho3 Hs3]. rewrite observe_app, Ho3. f_equal.
  set (st3 := run_pins _ st2) in *. assert (st3 AD1256_DIN = true) as Hd3 by done.
  destruct (clocks_seen 24 st3 Hs3 Hd3) as [Ho4 Hs4]. rewrite observe_app, Ho4. f_equal.
  set (st4 := run_pins _ st3) in *. unfold selected in Hs4. simpl in Hs4. apply negb_true_iff in Hs4.
  unfold observe, observe1, rises. simpl. by rewrite Hs4.
Qed.

Lemma frame_received vs ws : Forall is_u8 vs -> vs <> [] \/ ws <> [] -> Forall is_u8 ws ->
  receive [] ([SStop; SStop] ++ seen_bytes vs ++ seen_bytes ws ++ [SStop]) = [RBytes (vs ++ ws)].
Proof.
  intros Hv Hne Hw. rewrite (app_assoc (seen_bytes vs)), <-seen_bytes_app. cbn [app receive flush bytes_of].
  rewrite receive_stop; [done|by apply Forall_app|]. destruct vs, ws; naive_solver.
Qed.

(** C28: A reading. When the chip is ready and puts the 24 bits of a result on its
    data line, [ADS1256_GetData] sends reset, sync, wake-up, the channel for the
    multiplexer register and the read command, clocks three bytes and returns the
    value of the bits. *)
Theorem ADS1256_GetData_reads env fuel channal l s st :
  (forall n, in_drdy (env n) = false) -> length l = 24%nat -> samples env (io_n s + 18) l ->
  exists tr s', ADS1256_GetData env fuel channal s = Some (s', bits_value 0 l) /\ io_tr s' = io_tr s ++ tr /\
    receive [] (sees st tr) =
      [RBytes ([ADS1256_CMD_RESET; ADS1256_CMD_SYNC; ADS1256_CMD_WAKEUP; 80 + ADS1256_MUX; 0; u8 channal; ADS1256_CMD_RDATA] ++ [255; 255; 255])].
Proof.
  intros Hr Hl Hs. destruct (get_data_spec env Hr fuel channal l s Hl Hs) as (s' & Hop & Htr).
  exists (data_writes channal), s'. split; [exact Hop|]. split; [exact Htr|]. rewrite data_writes_seen. apply frame_received; [|by left|].
  - do 7 (constructor; [apply u8_range || (unfold is_u8; by vm_compute)|]). constructor.
  - do 3 (constructor; [unfold is_u8; by vm_compute|]). constructor.
Qed.

(** ** Concrete readings *)

(** A chip that is always ready and shifts the bits [l] out from the 18th read on. *)
Definition chip (l : list bool) (n : nat) : input := Input false (default false (l !! ((n - 18) / 3)%nat)) 0.

Lemma chip_samples l : samples (chip l) 18 l.
Proof.
  intros i b Hi j Hj. unfold chip. cbn [in_dout].
  replace ((18 + 3 * i + j - 18) / 3)%nat with i by (apply (Nat.div_unique _ 3 i j); lia). by rewrite Hi.
Qed.

Definition idle : io := Io [] 0.
Definition code_bits (v : Z) : list bool := msb_bits 24 v.

Lemma ADS1256_GetData_reads_witness :
  exists tr s', ADS1256_GetData (chip (code_bits 1234567)) 0 8 idle = Some (s', 1234567) /\ io_tr s' = tr /\
    receive [] (sees (fun _ => false) tr) = [RBytes [254; 252; 255; 81; 0; 8; 1; 255; 255; 255]].
Proof.
  destruct (ADS1256_GetData_reads (chip (code_bits 1234567)) 0 8 (code_bits 1234567) idle (fun _ => false)) as (tr & s' & H1 & H2 & H3);
    [done|done|apply chip_samples|].
  exists tr, s'. split; [exact H1|]. split; [exact H2|exact H3].
Defined.

Lemma wait_drdy_call_returns_witness :
  exists m n r, wait_drdy_call (fun n => Input true true (u32 (0 + Z.of_nat n / 4))) 30 idle = Some (Io [] m, r) /\
    (m <= 0 + 2 * n + 3)%nat /\ (n <= 24)%nat /\
    ends (fun n => Input true true (u32 (0 + Z.of_nat n / 4))) (next idle) 0 n r.
Proof. apply (wait_drdy_call_returns (fun n => Input true true (u32 (0 + Z.of_nat n / 4))) 4 0 30 idle); [lia|lia|done|lia]. Defined.

(** The result is not sign-extended: the two's complement code of a voltage just
    below zero is printed as almost ten volts. *)
Theorem thread1_negative_reading :
  match thread1_entry (chip (code_bits 16777215)) 0 idle with
  | Some (_, (res, uv)) => res = 16777215 /\ uv = Some 9999879
  | None => False
  end.
Proof. by vm_compute. Qed.

(** A chip that is never ready: the reading gives up with 0 and leaves the chip
    selected. *)
Example not_ready_reading :
  match ADS1256_GetData (fun n => Input true false (Z.of_nat n)) 20 8 idle with
  | Some (s', v) => v = 0 /\ io_tr s' = [low AD1256_CS]
  | None => False
  end.
Proof. by vm_compute. Qed.
