(* ===== verification/Hmi.v ===== *)
(** * The operator panel (applications/hmi.c)

    The thread that reads frames [FE text FF] byte by byte from the serial port of
    the panel, the commands [f0] and [fp] that set the centre and the deviation of
    the frequency modulation, and the answers. *)

From Stdlib Require Import SpecFloat.
From S2P Require Import Prelude Sched Kernel Wire Cfloat Ad9954.

(** ** Text *)

(** [atoi] of the C library: blanks, a sign, digits. A value that does not fit an
    [int] is undefined. *)
Definition is_blank (c : Z) : bool := ((9 <=? c) && (c <=? 13)) || (c =? 32).
Definition is_digit (c : Z) : bool := (48 <=? c) && (c <=? 57).
Fixpoint digits_value (acc : Z) (l : list Z) : Z :=
  match l with
  | c :: l => if is_digit c then digits_value (10 * acc + (c - 48)) l else acc
  | [] => acc
  end.
Definition signed_value (l : list Z) : Z :=
  match l with
  | c :: r => if c =? 45 then - digits_value 0 r else if c =? 43 then digits_value 0 r else digits_value 0 l
  | [] => 0
  end.
Fixpoint skip_blanks (l : list Z) : list Z :=
  match l with c :: r => if is_blank c then skip_blanks r else l | [] => [] end.
Definition atoi (l : list Z) : option Z :=
  let v := signed_value (skip_blanks l) in
  if (-2147483648 <=? v) && (v <? 2147483648) then Some v else None.

(** The decimal digits of a number, most significant first. *)
Fixpoint dec_digits (fuel : nat) (n : Z) (acc : list Z) : list Z :=
  match fuel with
  | O => acc
  | S fuel =>
      let acc := (48 + n mod 10) :: acc in
      if n <? 10 then acc else dec_digits fuel (n / 10) acc
  end.
Definition decimal (n : Z) : list Z := dec_digits 10 n [].

(** ["%.3f"] of [n / 1000] for a 32-bit [n]. *)
Definition three_digits (n : Z) : list Z := [48 + n / 100; 48 + n / 10 mod 10; 48 + n mod 10].
Definition khz (n : Z) : list Z := decimal (n / 1000) ++ [46] ++ three_digits (n mod 1000).

Definition bytes_of_string (s : string) : list Z := (fun a => Z.of_nat (Ascii.nat_of_ascii a)) <$> String.list_ascii_of_string s.

(** ** Commands *)

Definition HMI_CMD_LEN : nat := 30.
Definition cmd_f0 : list Z := bytes_of_string "f0".
Definition cmd_fp : list Z := bytes_of_string "fp".
Definition hmi_cmd_end : list Z := [255; 255; 255].

(** [rt_strncmp(name, cmd, rt_strlen(name)) == 0]. *)
Definition starts_with (name cmd : list Z) : bool := bool_decide (take (length name) cmd = name).

(** The frequencies of the modulation, [fsk_f0_freq] and [fsk_fp_freq]. *)
Record fsk := Fsk { fsk_f0 : Z; fsk_fp : Z }.

Section Commands.
Context (sin : spec_float -> spec_float).

(** What a command does: the new frequencies, the transfers to the synthesizer and
    the bytes written to the panel. *)
Definition hmi_cmd_analysis (cmd : list Z) (s : fsk) : option (fsk * list Ad9954.cmd * list Z) :=
  if starts_with cmd_f0 cmd then
    v ← atoi (drop 3 cmd);
    let temp_f0 := u32 v in
    if (10000000 <? temp_f0) && (temp_f0 <? 12000000) then
      let s := Fsk temp_f0 (fsk_fp s) in
      cs ← ad9954_change_freq_ram_config sin (fsk_f0 s) (fsk_fp s);
      Some (s, cs, bytes_of_string "f0.txt=" ++ [34] ++ khz temp_f0 ++ bytes_of_string "KHz" ++ [34] ++ hmi_cmd_end)
    else Some (s, [], [])
  else if starts_with cmd_fp cmd then
    v ← atoi (drop 3 cmd);
    let temp_fp := u32 v in
    if (1000 <=? temp_fp) && (temp_fp <=? 10000000) then
      let s := Fsk (fsk_f0 s) temp_fp in
      cs ← ad9954_change_freq_ram_config sin (fsk_f0 s) (fsk_fp s);
      Some (s, cs, bytes_of_string "fp.txt=" ++ [34] ++ khz temp_fp ++ bytes_of_string "KHz" ++ [34] ++ hmi_cmd_end)
    else Some (s, [], [])
  else Some (s, [], []).
End Commands.

(** ** Frames *)

(** What the thread waits for next: the begin of a frame, or the byte number [i]
    of one. *)
Inductive hmi_mode := Idle | Frame (i : nat).
Record hmi := Hmi { h_mode : hmi_mode; h_buff : list Z }.
Definition hmi_start : hmi := Hmi Idle (replicate HMI_CMD_LEN 0).

(** An outcome of [rt_sem_take] and [rt_device_read]: a byte, no byte although the
    semaphore was taken, or the end of the waiting time. *)
Inductive hmi_event := Byte (b : Z) | NoByte | Elapsed.
Definition take_result (e : hmi_event) : Z := match e with Elapsed => - RT_ETIMEOUT | _ => RT_EOK end.
(** [rt_device_read(hmi_port, 0, cmd_buff + i, 1)]; [None]: outside of [cmd_buff]. *)
Definition read_into (e : hmi_event) (i : nat) (buff : list Z) : option (list Z) :=
  match e with
  | Byte b => if (i <? length buff)%nat then Some (<[i := b]> buff) else None
  | _ => Some buff
  end.

(** One round of the loops of [hmi_thread]; the second result is the command that
    is passed to [hmi_cmd_analysis]. *)
Definition hmi_thread_step (e : hmi_event) (h : hmi) : option (hmi * option (list Z)) :=
  match h_mode h with
  | Idle =>
      buff ← read_into e 0 (h_buff h);
      c ← buff !! 0%nat;
      Some (Hmi (if c =? 254 then Frame 0 else Idle) buff, None)
  | Frame i =>
      if negb (take_result e =? RT_ETIMEOUT) then
        buff ← read_into e i (h_buff h);
        c ← buff !! i;
        if c =? 255 then
          let buff := <[i := 0]> buff in
          Some (hmi_start, if (i =? 0)%nat then None else Some buff)
        else Some (Hmi (Frame (S i)) buff, None)
      else Some (hmi_start, None)
  end.

Fixpoint hmi_run (es : list hmi_event) (h : hmi) : option (hmi * list (list Z)) :=
  match es with
  | [] => Some (h, [])
  | e :: es =>
      '(h, c) ← hmi_thread_step e h;
      '(h, cs) ← hmi_run es h;
      Some (h, match c with Some c => c :: cs | None => cs end)
  end.

(** ** Frames are read back *)

Definition no_end (b : Z) : Prop := b <> 255.

(** The buffer after [l] was received. *)
Definition filled (l : list Z) : list Z := l ++ replicate (HMI_CMD_LEN - length l) 0.
(** The begin mark stays in the buffer until the first byte overwrites it. *)
Definition frame_buff (l : list Z) : list Z := match l with [] => <[0%nat := 254]> (replicate HMI_CMD_LEN 0) | _ => filled l end.

Lemma insert_filled l b : (length l < HMI_CMD_LEN)%nat -> <[length l := b]> (frame_buff l) = filled (l ++ [b]).
Proof.
  intros Hl. destruct l as [|x l].
  - done.
  - unfold frame_buff, filled. rewrite length_app. cbn [length]. rewrite Nat.add_1_r.
    change (S (length l)) with (length (x :: l)). set (y := x :: l) in *.
    replace (HMI_CMD_LEN - length y)%nat with (S (HMI_CMD_LEN - S (length y)))%nat by lia. simpl replicate.
    rewrite <-app_assoc. cbn [app]. rewrite <-(Nat.add_0_r (length y)) at 1. by rewrite insert_app_r.
Qed.

Lemma hmi_run_app es1 es2 : forall h,
  hmi_run (es1 ++ es2) h = '(h, c1) ← hmi_run es1 h; '(h, c2) ← hmi_run es2 h; Some (h, c1 ++ c2).
Proof.
  induction es1 as [|e es1 IH]; intros h; cbn [hmi_run app mbind option_bind].
  - by destruct (hmi_run es2 h) as [[? ?]|].
  - destruct (hmi_thread_step e h) as [[h1 c]|]; [|done]. cbn [mbind option_bind]. rewrite IH.
    destruct (hmi_run es1 h1) as [[h2 c1]|]; [|done]. cbn [mbind option_bind].
    destruct (hmi_run es2 h2) as [[h3 c2]|]; [|done]. cbn [mbind option_bind]. by destruct c.
Qed.

Lemma frame_buff_length l : (length l <= HMI_CMD_LEN)%nat -> length (frame_buff l) = HMI_CMD_LEN.
Proof.
  intros Hl. destruct l as [|x l]; [done|]. unfold frame_buff, filled. rewrite length_app, length_replicate. lia.
Qed.

Lemma step_byte l b : (length l < HMI_CMD_LEN)%nat -> b <> 255 ->
  hmi_thread_step (Byte b) (Hmi (Frame (length l)) (frame_buff l)) = Some (Hmi (Frame (length (l ++ [b]))) (frame_buff (l ++ [b])), None).
Proof.
  intros Hl Hb. unfold hmi_thread_step. cbn [h_mode h_buff take_result read_into].
  change (negb (RT_EOK =? RT_ETIMEOUT)) with true. cbv iota.
  rewrite (proj2 (Nat.ltb_lt _ _)) by (rewrite frame_buff_length; lia). cbn [mbind option_bind].
  rewrite list_lookup_insert_eq by (rewrite frame_buff_length; lia). cbn [mbind option_bind].
  rewrite (proj2 (Z.eqb_neq b 255)) by done. rewrite insert_filled by done.
  rewrite length_app, Nat.add_1_r. do 3 f_equal. by destruct l.
Qed.

Lemma frame_bytes p : forall l, (length l + length p <= HMI_CMD_LEN)%nat -> Forall no_end p ->
  hmi_run (Byte <$> p) (Hmi (Frame (length l)) (frame_buff l)) = Some (Hmi (Frame (length (l ++ p))) (frame_buff (l ++ p)), []).
Proof.
  induction p as [|b p IH]; intros l Hl Hp; cbn [fmap list_fmap hmi_run]; [by rewrite app_nil_r|].
  apply Forall_cons in Hp as [Hb Hp]. cbn [length] in Hl. rewrite step_byte by (done || lia). cbn [mbind option_bind].
  rewrite IH by (rewrite ?length_app; simpl; done || lia). cbn [mbind option_bind]. by rewrite <-app_assoc.
Qed.

(** A frame of one to 29 bytes whose bytes come in time is passed to
    [hmi_cmd_analysis] as it was sent, zero-terminated, and the thread is ready
    for the next frame with a clean buffer. *)
Lemma hmi_frame_received p :
  (0 < length p < HMI_CMD_LEN)%nat -> Forall (fun b => b <> 255) p ->
  hmi_run (Byte <$> 254 :: p ++ [255]) hmi_start = Some (hmi_start, [p ++ replicate (HMI_CMD_LEN - length p) 0]).
Proof.
  intros Hl Hp. rewrite fmap_cons, fmap_app. cbn [hmi_run].
  change (hmi_thread_step (Byte 254) hmi_start) with (Some (Hmi (Frame 0) (frame_buff []), @None (list Z))). cbn [mbind option_bind].
  change (Frame 0) with (Frame (length (@nil Z))).
  rewrite hmi_run_app, (frame_bytes p []) by (simpl; done || lia). cbn [mbind option_bind fmap list_fmap hmi_run app].
  unfold hmi_thread_step. cbn [h_mode h_buff take_result read_into].
  change (negb (RT_EOK =? RT_ETIMEOUT)) with true. cbv iota.
  rewrite (proj2 (Nat.ltb_lt _ _)) by (rewrite frame_buff_length; lia). cbn [mbind option_bind].
  rewrite list_lookup_insert_eq by (rewrite frame_buff_length; lia). cbn [mbind option_bind].
  change (255 =? 255) with true. cbv iota. rewrite (proj2 (Nat.eqb_neq _ _)) by lia. cbn [mbind option_bind].
  do 3 f_equal. rewrite list_insert_insert_eq, insert_filled by lia. unfold filled. rewrite length_app, <-app_assoc. cbn [length].
  f_equal. replace (HMI_CMD_LEN - length p)%nat with (S (HMI_CMD_LEN - (length p + 1))) by lia. done.
Qed.

(** ** Numbers are read back *)

Lemma digit_ok d : 0 <= d < 10 -> is_digit (48 + d) = true.
Proof. intros Hd. unfold is_digit. apply andb_true_intro. lia. Qed.

Lemma dec_digits_spec k : forall n acc, 0 <= n < 10 ^ Z.of_nat k -> (0 < k)%nat ->
  exists ds, dec_digits k n acc = ds ++ acc /\ ds <> [] /\ Forall (fun c => is_digit c = true) ds /\ (length ds <= k)%nat /\
    forall a r, digits_value a (ds ++ r) = digits_value (a * 10 ^ Z.of_nat (length ds) + n) r.
Proof.
  induction k as [|k IH]; intros n acc Hn Hk; [lia|]. cbn [dec_digits].
  assert (0 <= n mod 10 < 10) as Hm by (apply Z.mod_pos_bound; lia).
  destruct (Z.ltb_spec n 10) as [Hlt|Hge].
  - exists [48 + n mod 10]. split; [done|]. split; [done|]. split; [constructor; [by apply digit_ok|done]|]. split; [simpl; lia|].
    intros a r. cbn [app digits_value length]. rewrite digit_ok by done. f_equal. rewrite Z.mod_small by lia. change (10 ^ Z.of_nat 1) with 10. lia.
  - rewrite Nat2Z.inj_succ, Z.pow_succ_r in Hn by lia.
    assert (0 < k)%nat as Hk'. { destruct k; [|lia]. change (10 ^ Z.of_nat 0) with 1 in Hn. lia. }
    destruct (IH (n / 10) (48 + n mod 10 :: acc)) as (ds & -> & Hne & Hds & Hlen & Hv); [split; dlia|done|].
    exists (ds ++ [48 + n mod 10]). rewrite <-app_assoc. split; [done|]. split; [by destruct ds|]. split; [|split].
    + apply Forall_app. split; [done|]. constructor; [by apply digit_ok|constructor].
    + rewrite length_app. simpl. lia.
    + intros a r. rewrite <-app_assoc, Hv. cbn [app digits_value]. rewrite digit_ok by done. f_equal.
      rewrite length_app, Nat2Z.inj_add, Z.pow_add_r by lia. cbn [length]. change (10 ^ Z.of_nat 1) with 10.
      pose proof (Z.div_mod n 10 ltac:(lia)). lia.
Qed.

Lemma decimal_spec n : 0 <= n < 10 ^ 10 ->
  Forall (fun c => is_digit c = true) (decimal n) /\ (0 < length (decimal n) <= 10)%nat /\
  forall r, atoi (decimal n ++ 0 :: r) = if n <? 2147483648 then Some n else None.
Proof.
  intros Hn. destruct (dec_digits_spec 10 n [] Hn ltac:(lia)) as (ds & E & Hne & Hds & Hlen & Hv).
  unfold decimal. rewrite E, app_nil_r. split; [done|]. split; [destruct ds; [done|simpl in *; lia]|].
  intros r. unfold atoi. assert (skip_blanks (ds ++ 0 :: r) = ds ++ 0 :: r /\ signed_value (ds ++ 0 :: r) = n) as [-> ->].
  - destruct ds as [|d ds]; [done|]. apply Forall_cons in Hds as [Hd _]. pose proof Hd as Hd'.
    unfold is_digit in Hd'. apply andb_true_iff in Hd' as [H1%Z.leb_le H2%Z.leb_le].
    split.
    + cbn [app skip_blanks]. assert (is_blank d = false) as ->; [|done].
      unfold is_blank. apply orb_false_iff. split; [apply andb_false_iff; right; lia|lia].
    + specialize (Hv 0 (0 :: r)). cbn [app] in *. unfold signed_value.
      rewrite (proj2 (Z.eqb_neq d 45)), (proj2 (Z.eqb_neq d 43)), Hv by lia. cbn [digits_value is_digit Z.leb andb].
      change (is_digit 0) with false. cbv iota. lia.
  - rewrite (proj2 (Z.leb_le _ _)) by lia. done.
Qed.

(** ** Commands *)

Section CommandFacts.
Context (sin : spec_float -> spec_float).

Definition answer (name : string) (n : Z) : list Z :=
  bytes_of_string name ++ [34] ++ khz n ++ bytes_of_string "KHz" ++ [34] ++ hmi_cmd_end.

(** C27: Setting the centre frequency from the panel: the frame of the text
    [f0=<number>] reaches the command interpreter, which reads the number back.
    Between 10 and 12 MHz it becomes the centre frequency, the sine table is
    computed again with it, and the panel gets its value in kHz; any other number
    changes nothing and is not answered. *)
Theorem hmi_f0_command n s :
  0 <= n < 2147483648 ->
  exists c, hmi_run (Byte <$> 254 :: (bytes_of_string "f0=" ++ decimal n) ++ [255]) hmi_start = Some (hmi_start, [c]) /\
    hmi_cmd_analysis sin c s =
      if (10000000 <? n) && (n <? 12000000) then
        cs ← ad9954_change_freq_ram_config sin n (fsk_fp s); Some (Fsk n (fsk_fp s), cs, answer "f0.txt=" n)
      else Some (s, [], []).
Proof.
  intros Hn. destruct (decimal_spec n ltac:(lia)) as (Hd & Hl & Ha).
  set (p := bytes_of_string "f0=" ++ decimal n). assert (length p = 3 + length (decimal n))%nat as Elen by done.
  exists (p ++ replicate (HMI_CMD_LEN - length p) 0). split.
  - apply hmi_frame_received; [unfold HMI_CMD_LEN; lia|]. unfold p. repeat (constructor; [by vm_compute|]).
    eapply Forall_impl; [exact Hd|]. intros c Hc ->. discriminate Hc.
  - unfold hmi_cmd_analysis. unfold p at 1. change (starts_with cmd_f0 _) with true. cbv iota.
    replace (HMI_CMD_LEN - length p)%nat with (S (HMI_CMD_LEN - S (length p)))%nat by (unfold HMI_CMD_LEN; lia).
    cbn [replicate]. unfold p at 1. rewrite <-app_assoc. change (drop 3 (bytes_of_string "f0=" ++ ?x)) with x.
    rewrite Ha, (proj2 (Z.ltb_lt _ _)) by lia. cbn [mbind option_bind]. rewrite (u32_small n) by (unfold is_u32; lia). reflexivity.
Qed.
End CommandFacts.

(** The buffer of a frame has 30 bytes and no bound is checked: the 31st byte
    after the begin mark, when none was the end mark, is written outside. *)
Theorem hmi_frame_overflows p b :
  length p = HMI_CMD_LEN -> Forall (fun b => b <> 255) p -> hmi_run (Byte <$> 254 :: p ++ [b]) hmi_start = None.
Proof.
  intros Hl Hp. rewrite fmap_cons, fmap_app. cbn [hmi_run].
  change (hmi_thread_step (Byte 254) hmi_start) with (Some (Hmi (Frame (length (@nil Z))) (frame_buff []), @None (list Z))). cbn [mbind option_bind].
  rewrite hmi_run_app, (frame_bytes p []) by (simpl; done || lia). cbn [mbind option_bind fmap list_fmap hmi_run app].
  unfold hmi_thread_step. cbn [h_mode h_buff take_result read_into].
  change (negb (RT_EOK =? RT_ETIMEOUT)) with true. cbv iota. rewrite (proj2 (Nat.ltb_ge _ _)) by (rewrite frame_buff_length; lia). done.
Qed.

(** The waiting time that is over is not recognised: [rt_sem_take] returns
    [-RT_ETIMEOUT] and is compared with [RT_ETIMEOUT]. A pause counts as a byte. *)
Theorem hmi_timeout_counts_as_byte i buff :
  buff !! i <> Some 255 -> (i < length buff)%nat ->
  hmi_thread_step Elapsed (Hmi (Frame i) buff) = Some (Hmi (Frame (S i)) buff, None).
Proof.
  intros Hne Hi. unfold hmi_thread_step. cbn [h_mode h_buff take_result read_into].
  change (negb (- RT_ETIMEOUT =? RT_ETIMEOUT)) with true. cbv iota. cbn [mbind option_bind].
  destruct (lookup_lt_is_Some_2 buff i Hi) as [c Ec]. rewrite Ec in *. cbn [mbind option_bind].
  rewrite (proj2 (Z.eqb_neq c 255)); [done|]. intros ->. done.
Qed.

(** ** Concrete frames *)

Lemma hmi_f0_command_witness :
  exists c, hmi_run (Byte <$> 254 :: (bytes_of_string "f0=" ++ decimal 10700000) ++ [255]) hmi_start = Some (hmi_start, [c]) /\
    hmi_cmd_analysis flat c (Fsk 10650000 50000) =
      if (10000000 <? 10700000) && (10700000 <? 12000000) then
        cs ← ad9954_change_freq_ram_config flat 10700000 (fsk_fp (Fsk 10650000 50000));
        Some (Fsk 10700000 (fsk_fp (Fsk 10650000 50000)), cs, answer "f0.txt=" 10700000)
      else Some (Fsk 10650000 50000, [], []).
Proof. apply (hmi_f0_command flat 10700000 (Fsk 10650000 50000)). lia. Defined.

Lemma hmi_frame_overflows_witness : hmi_run (Byte <$> 254 :: replicate 30 65 ++ [65]) hmi_start = None.
Proof. apply (hmi_frame_overflows (replicate 30 65) 65); [done|]. by repeat constructor. Defined.

Example answer_text : answer "f0.txt=" 10700000 = bytes_of_string "f0.txt=" ++ [34] ++ bytes_of_string "10700.000KHz" ++ [34; 255; 255; 255].
Proof. reflexivity. Qed.

(** A pause of a second inside the number truncates it. *)
Example pause_truncates :
  exists c, hmi_run ((Byte <$> 254 :: bytes_of_string "f0=107") ++ [Elapsed] ++ (Byte <$> bytes_of_string "00000" ++ [255])) hmi_start
    = Some (hmi_start, [c]) /\ atoi (drop 3 c) = Some 107.
Proof. eexists. split; reflexivity. Qed.
