(* ===== verification/MainApp.v ===== *)
(** * The main thread and the clock command (applications/main.c)

    The blinking loop of [main], and [change_clock], which reprograms the main
    PLL. The register access functions of the vendor library it calls at the end
    only derive values from these registers and are not part of the model. *)

From S2P Require Import Prelude Wire Cfloat Ad9959.

(** ** The blinking loop *)

(** [GET_PIN(F, 10)]. *)
Definition LED0_PIN : pin := (GPIOF, 10).
(** One round of the loop; the delays leave no trace. *)
Definition main_round : list drive := [high LED0_PIN; low LED0_PIN].

(** The LED is on the data line of the AD9959: when the main thread preempts a
    transfer between a data write and its clock edge, the chip receives another
    byte. *)
Theorem led_corrupts_transfer :
  exists tr r, ad9959_write_data 0 1 [16] 0 = Some tr /\ interleave tr [high LED0_PIN] r /\
    receive [] (observe ad9959_port all_low tr) = [RBytes [0; 16]] /\
    receive [] (observe ad9959_port all_low r) = [RBytes [0; 144]].
Proof.
  destruct (ad9959_write_data 0 1 [16] 0) as [tr|] eqn:E; [|by vm_compute in E].
  exists tr, (take 29 tr ++ [high LED0_PIN] ++ drop 29 tr). split; [done|]. split.
  - pose proof (interleave_insert (take 29 tr) (drop 29 tr) (high LED0_PIN)) as H. rewrite take_drop in H. exact H.
  - vm_compute in E. injection E as <-. by vm_compute.
Qed.

(** ** [change_clock] *)

Record rcc := Rcc { CFGR : Z; CR : Z; PLLCFGR : Z }.

Definition RCC_PLLCFGR_PLLN_Pos : Z := 6.
(** [a & ~b] on 32-bit registers. *)
Definition clear_bits (a b : Z) : Z := Z.land a (Z.lxor 4294967295 b).

(** The loop that waits for the clock switch: [i] counts down from 1000 while
    [~((RCC->CFGR >> 2) & 0x2)] is not zero; the result is the number of reads of
    [CFGR] and the last [i]. *)
Fixpoint clock_wait (fuel : nat) (poll : nat -> Z) (n : nat) (i : Z) : option (nat * Z) :=
  let cond := negb (Z.lxor 4294967295 (Z.land (Z.shiftr (poll n) 2) 2) =? 0) in
  if cond then
    let go := 0 <? i in
    let i := u32 (i - 1) in
    if go then match fuel with O => None | S fuel => clock_wait fuel poll (S n) i end else Some (S n, i)
  else Some (S n, i).

(** [a]: the value of [atoi(argv[1])]. *)
Definition sys_clk_of (a : Z) : Z := let c := u32 a in if (c <? 50) || (250 <? c) then 168 else c.

Definition change_clock (fuel : nat) (poll : nat -> Z) (a : Z) (r : rcc) : option (rcc * nat) :=
  let sys_clk := sys_clk_of a in
  let r := Rcc (clear_bits (CFGR r) 3) (clear_bits (CR r) 16777216) (PLLCFGR r) in
  let temp := clear_bits (PLLCFGR r) (Z.shiftl 511 RCC_PLLCFGR_PLLN_Pos) in
  let temp := Z.lor temp (u32 (Z.shiftl sys_clk RCC_PLLCFGR_PLLN_Pos)) in
  let r := Rcc (Z.lor (CFGR r) 2) (Z.lor (CR r) 16777216) temp in
  '(n, _) ← clock_wait fuel poll 0 1000; Some (r, n).

Lemma clock_wait_all poll i : forall fuel n, (i <= fuel)%nat -> Z.of_nat i < 4294967296 ->
  clock_wait fuel poll n (Z.of_nat i) = Some ((n + i + 1)%nat, 4294967295).
Proof.
  assert (forall c, negb (Z.lxor 4294967295 (Z.land c 2) =? 0) = true) as Hcond.
  { intros c. assert (Z.land c 2 = 0 \/ Z.land c 2 = 2) as [->| ->]; [|done|done].
    change 2 with (2 ^ 1). destruct (Z.testbit c 1) eqn:E; [right|left].
    all: apply Z.bits_inj'; intros n Hn; rewrite Z.land_spec, ?Z.bits_0, Z.pow2_bits_eqb by lia;
      destruct (Z.eqb_spec 1 n) as [<-|]; by rewrite ?E, ?andb_true_r, ?andb_false_r. }
  induction i as [|i IH]; intros fuel n Hf Hi; destruct fuel as [|fuel]; cbn [clock_wait]; rewrite Hcond; try lia.
  - rewrite Nat.add_0_r, Nat.add_1_r. done.
  - rewrite Nat.add_0_r, Nat.add_1_r. done.
  - rewrite (proj2 (Z.ltb_lt _ _)) by lia. replace (u32 (Z.of_nat (S i) - 1)) with (Z.of_nat i) by (rewrite u32_small; unfold is_u32; lia).
    rewrite IH by lia. do 2 f_equal. lia.
Qed.

Lemma sys_clk_of_range a : -2147483648 <= a < 2147483648 -> sys_clk_of a = if (50 <=? a) && (a <=? 250) then a else 168.
Proof.
  intros Ha. unfold sys_clk_of. assert (u32 a = a \/ (a < 0 /\ 250 < u32 a)) as Hu.
  { destruct (Z.ltb_spec a 0); [right|left; apply u32_small; unfold is_u32; lia]. split; [done|]. unfold u32.
    rewrite <-(Z.mod_unique a 4294967296 (-1) (a + 4294967296)); lia. }
  destruct (Z.leb_spec 50 a), (Z.leb_spec a 250), (Z.ltb_spec (u32 a) 50), (Z.ltb_spec 250 (u32 a)); simpl; lia.
Qed.

(** C30: [change_clock] writes the multiplier into bits 6 to 14 of [PLLCFGR] and leaves
    its other bits alone, switches the system clock to the PLL and turns the PLL on. The
    multiplier is the number that was given when it lies between 50 and 250, and 168 for
    every other number (it is not clamped); the help text of the command promises 100 to
    250 only, so that numbers from 50 to 99 are taken too. Whatever the status register
    says, the loop that waits for the switch reads it 1001 times. *)
Theorem change_clock_spec poll a r :
  is_u32 (CFGR r) -> is_u32 (CR r) -> is_u32 (PLLCFGR r) -> -2147483648 <= a < 2147483648 ->
  exists r', change_clock 1000 poll a r = Some (r', 1001%nat) /\
    (forall j, 0 <= j < 32 -> Z.testbit (PLLCFGR r') j =
       if (6 <=? j) && (j <? 15) then Z.testbit (if (50 <=? a) && (a <=? 250) then a else 168) (j - 6) else Z.testbit (PLLCFGR r) j) /\
    Z.land (CFGR r') 3 = 2 /\ Z.testbit (CR r') 24 = true.
Proof.
  intros H1 H2 H3 Ha. unfold change_clock. change 1000 with (Z.of_nat 1000). rewrite clock_wait_all by lia.
  cbn [mbind option_bind]. eexists. split; [done|].
  assert (50 <= sys_clk_of a <= 250) as Hc.
  { unfold sys_clk_of. destruct ((u32 a <? 50) || (250 <? u32 a)) eqn:E; [lia|]. apply orb_false_iff in E as [E1%Z.ltb_ge E2%Z.ltb_ge]. lia. }
  rewrite <-sys_clk_of_range by done. cbn [PLLCFGR CFGR CR]. split; [|split].
  - intros j Hj. unfold clear_bits, RCC_PLLCFGR_PLLN_Pos.
    rewrite u32_small by (rewrite Z.shiftl_mul_pow2 by lia; change (2 ^ 6) with 64; unfold is_u32; lia).
    rewrite Z.lor_spec, Z.land_spec, Z.lxor_spec, (Z.shiftl_spec (sys_clk_of a)) by lia.
    change 4294967295 with (Z.ones 32). change (Z.shiftl 511 6) with (Z.shiftl (Z.ones 9) 6).
    rewrite Z.shiftl_spec, Z.testbit_ones_nonneg by lia. rewrite (proj2 (Z.ltb_lt j 32)) by lia.
    destruct (Z.leb_spec 6 j) as [Hge|Hlt]; cbn [andb].
    + rewrite Z.testbit_ones_nonneg by lia. destruct (Z.ltb_spec (j - 6) 9), (Z.ltb_spec j 15); try lia; cbn [xorb].
      * by rewrite andb_false_r.
      * rewrite andb_true_r. destruct (sys_clk_of a) as [|p|p] eqn:Ep; try lia.
        rewrite (Z.bits_above_log2 _ (j - 6)); [by rewrite orb_false_r|lia|].
        assert (Z.log2 (Zpos p) < 8) by (apply Z.log2_lt_pow2; lia). lia.
    + rewrite !(Z.testbit_neg_r _ (j - 6)) by lia. cbn [xorb]. by rewrite andb_true_r, orb_false_r.
  - apply Z.bits_inj'. intros j Hj. unfold clear_bits. rewrite Z.land_spec, Z.lor_spec, Z.land_spec, Z.lxor_spec.
    destruct (Z.lt_ge_cases j 2) as [Hs|Hb].
    + assert (j = 0 \/ j = 1) as [->| ->] by lia; cbn; by rewrite ?andb_false_r.
    + change 3 with (Z.ones 2). rewrite (Z.ones_spec_high 2 j) by lia. rewrite andb_false_r. symmetry. apply Z.bits_above_log2; [lia|]. simpl. lia.
  - rewrite Z.lor_spec. by rewrite orb_true_r.
Qed.

Lemma change_clock_spec_witness :
  exists r', change_clock 1000 (fun _ => 8) 200 (Rcc 10 65536 603996170) = Some (r', 1001%nat) /\ Z.land (CFGR r') 3 = 2.
Proof.
  destruct (change_clock_spec (fun _ => 8) 200 (Rcc 10 65536 603996170)) as (r' & H & _ & Hs & _); [done..|].
  exists r'. split; [exact H|exact Hs].
Defined.
